(* ===== verification/_CoqProject ===== *)
-Q . S2P
Prelude.v
Mem.v
Mmu.v
Kalloc.v
Spinlock.v
Sleeplock.v
Vm.v
Pt.v
Uvm.v
Space.v
Dlist.v
Block.v
Bio.v
Log.v
Refstore.v
Journal.v
Tx.v
Txop.v
Fs.v
Bitmap.v
Inode.v
Dinode.v
Iblock.v
File.v
Fileops.v
Trunc.v
Icache.v
Dir.v
Path.v
Fsdisk.v
Mkfs.v
Mkimg.v
Pipe.v
Proc.v
Sched.v
Syscall.v
Ports.v
Trap.v
Asm.v
Sysproc.v
Ftable.v
Sysfile.v
Exec.v
Fdref.v
User.v
Ulib.v
Uniq.v
Console.v
Line.v
Kbd.v
Ioapic.v
Lapic.v
Uart.v
Ide.v
Mp.v
Boot.v
Startup.v
Kcmd.v
Head.v
Grep.v
Textcmd.v
Filecmd.v
Procmd.v
Sh.v
Shlex.v
Shgram.v
Shparse.v
Shrun.v
Umalloc.v
