(* ===== verification/Prelude.v ===== *)
(** A verification of xv6practice: the xv6 teaching kernel for the x86, with
    its user library and the commands head, uniq and new_wait that this
    repository adds. Source files are named relative to [src/].

    * The program and its parts

    The boot loader ([bootmain.c]) loads the kernel from the disk, and the
    first processor starts the others ([main.c], [entryother.S]). The kernel
    runs processes on several CPUs. Physical memory is handed out in pages
    ([kalloc.c]); page tables map them into address spaces ([vm.c]). Processes
    are created, scheduled, put to sleep and waited for ([proc.c]) under spin
    locks ([spinlock.c]); longer critical sections use sleep locks
    ([sleeplock.c]). A trap enters the kernel ([trapasm.S], [trap.c]) and may
    be a system call ([syscall.c], [sysproc.c], [sysfile.c]), of which exec
    ([exec.c]) replaces the program. Blocks of the disk ([ide.c], or
    [memide.c] in memory) are cached ([bio.c]); a log makes the writes of a
    system call atomic ([log.c]); the file system keeps inodes, directories
    and paths on top ([fs.c]), on a disk that [mkfs.c] has made. Open files
    ([file.c]) are inodes or pipes ([pipe.c]). The console ([console.c])
    stands on the keyboard ([kbd.c]) and the serial port ([uart.c]). User
    programs use a small library ([ulib.c], [printf.c], [umalloc.c]); the
    shell ([sh.c]) runs them. The commands uniq and head exist twice: as user
    programs and as system calls ([sysproc.c]).

    * How code is modelled

    C integers are [Z] with every conversion to a width written out ([u8],
    [u32], [i32], ...). A function that has effects is a computation
    [M S A = S -> outcome S A] over an explicit state: it returns ([Ret]) or
    stops ([Stop]) in a state, because it panicked, went to sleep on a
    channel, lost power, switched to another process or exited. Access
    outside of an array is [wild], which stops. [wp m s Q] says that [m]
    returns in [Q], [wpe m s Q E] that it returns in [Q] or stops in [E]. A
    process that sleeps and is woken resumes in a function of its own
    ([sys_sleep_resume], [iderw_resume], ...), so that what other CPUs do in
    between is part of the statement; components that several CPUs run at once
    have a step relation ([Spinlock], [Log], [Sched], [Startup], [Sysproc]).

    Where components meet there is a class: [BlockStore] with
    [BlockStoreLaws] between the buffer cache and the log, [TxStore] with
    [TxStoreLaws] and [OpStore] between the log and the file system, [ProcEnv]
    with [ProcEnvLaws] between processes and the rest of the kernel, [Ports]
    between drivers and devices, [Host] between mkfs and the machine it runs
    on. The theorems of a client are proved from the laws; [Bio] and
    [Refstore] implement the first, [Tx] and [Txop] the second. Devices and
    the host are parameters; what the theorems need of them is a hypothesis
    that a concrete instance satisfies.

    Loops that are not structural run on fuel: the length of the data, the
    number of table entries or pages, or, for a wait on a device, the latency
    that the device has by hypothesis. The theorems show that the amount given
    is enough: running out of fuel is a way to stop that no specification
    allows.

    * The files

    - [Prelude]: machine integers, the monad, its rules and tactics.
    - [Mem]: byte-addressed memory; string.c.
    - [Mmu], [Kalloc], [Vm]: mmu.h and memlayout.h, kalloc.c, vm.c. [Pt] reads
      page tables as maps, [Uvm] user address spaces as maps from pages to
      frames, [Space] whole address spaces.
    - [Spinlock], [Sleeplock]: spinlock.c, sleeplock.c.
    - [Block], [Dlist], [Bio], [Log]: the interface of block stores, doubly
      linked lists, bio.c over memide.c, log.c. [Refstore] is a store without
      a cache, [Journal] runs the log on concrete disks.
    - [Tx], [Txop], [Fs]: the interface of transactions, begin_op and end_op
      around them, and all of fs.c. [Bitmap], [Inode], [Dinode], [Iblock],
      [File], [Fileops], [Trunc] prove block allocation, the layout of files,
      reading, writing and truncation; [Icache] the inode cache, [Dir]
      directories, [Path] the lookup of paths; [Fsdisk] is a concrete disk.
    - [Mkfs], [Mkimg]: mkfs.c, and the image that it writes.
    - [Pipe]: pipe.c. [Proc], [Sched]: proc.c, and the interleaving of CPUs.
    - [Syscall]: syscall.c. [Ports]: device registers, traps.h. [Trap]:
      trap.c. [Asm]: swtch.S, trapasm.S, vectors.pl, usys.S and initcode.S on
      the registers and memory of a processor. [Sysproc]: the process calls of
      sysproc.c.
    - [Ftable], [Sysfile], [Exec]: file.c, sysfile.c, exec.c. [Fdref] counts
      the references to open files and pipes.
    - [User], [Ulib], [Uniq], [Head], [Kcmd]: system calls of user programs,
      printf.c, ulib.c, the commands and their versions in the kernel
      (sysproc.c), which run on the file system of [Fs] and the console.
    - [Console], [Line]: console.c, and the line discipline it implements.
    - [Kbd], [Ioapic], [Lapic], [Uart], [Ide], [Mp]: kbd.c, ioapic.c and
      picirq.c, lapic.c, uart.c, ide.c, mp.c.
    - [Boot], [Startup]: bootmain.c; startothers of main.c with entryother.S.
    - [Grep], [Textcmd], [Filecmd], [Procmd]: grep.c; cat.c, wc.c and echo.c;
      ls.c, mkdir.c, rm.c, ln.c and kill.c; init.c, new_wait.c, test.c,
      zombie.c and forktest.c.
    - [Sh]: sh.c. [Shlex] and [Shgram] are its tokens and grammar, [Shparse]
      and [Shrun] prove the parser and the processes it starts.
    - [Umalloc]: umalloc.c.

    * What the theorems show

    - Memory: no page is handed out twice ([Kalloc]); growing, shrinking,
      copying and freeing an address space do what they say to the map from
      pages to frames, and a failure leaves it as it was ([Uvm], [Space]).
    - Locks: mutual exclusion of CPUs, interrupts nest ([Spinlock]).
    - Processes: at most one CPU runs a process, locks are held where the
      scheduler needs them, the tree of processes stays well formed as long
      as there are pids left, and a parent that waits is woken by the exit of
      a child ([Sched]); sleep waits for the ticks it was asked for, under any
      schedule ([Sysproc]); swtch resumes where it left off, a system call
      returns with the registers it was made with ([Asm], [Trap]).
    - System calls: arguments are checked against the memory of the process
      ([Syscall]); descriptors and pipes are counted, calls on them do not
      touch what is not theirs ([Fdref]); exec loads the program with its
      arguments or leaves the process as it was ([Exec]).
    - Disk: a read returns what was last written, the cache keeps its list
      ([Bio]); the driver serves every request ([Ide]); after a crash at any
      point recovery yields the disk before or after the transaction, and the
      log never overflows the space that was reserved, although the log on
      disk can be smaller than that ([Log], [Journal]).
    - Files: blocks are allocated from the free ones only; writing changes
      the contents of one file, reading returns them, truncation gives back
      exactly the blocks of the file ([Bitmap], [Fileops], [Trunc]);
      directories are maps from names to inodes, and a path leads where the
      walk through them does ([Dir], [Path]); mkfs writes an image that has
      the files it was given ([Mkimg]).
    - Pipes and the console are FIFO queues; the console edits lines as the
      abstract line discipline does ([Pipe], [Line]); the keyboard driver
      yields the characters typed ([Kbd]).
    - Boot: bootmain loads the segments of the kernel ([Boot]), every
      processor starts on a stack of its own ([Startup]).
    - The commands: uniq and head print what their specifications say, and
      their kernel and user versions agree where they do ([Uniq], [Kcmd],
      [Head]); grep prints the lines that match ([Grep]).
    - The shell: the parser terminates and reads the grammar, printing a
      command and parsing it is the identity ([Shparse]), and the processes
      that run a line are those that the command denotes, whichever of their
      system calls fail ([Shrun]).
    - malloc and free keep blocks apart ([Umalloc]).

    * Not modelled

    The switch of the processor to 32-bit mode and to paging ([entry.S],
    [bootasm.S], the first half of [entryother.S]): the processor of the model
    has no control registers. The order in which [main] calls the
    initialisation functions. The test programs [usertests.c] and
    [stressfs.c], which only make system calls. Declarations and build
    scripts. The commands in the kernel take standard input as the bytes that
    fileread will deliver; of what mkfs prints nothing is modelled. *)

From Stdlib Require Export ZArith Lia.
From stdpp Require Export base functions list gmap strings decidable.
Export stdpp.list_basics.list stdpp.list_relations.list.

Open Scope Z_scope.

(** * Machine integers

    C integers are kept as [Z]; every conversion to a width is written out. *)

Declare Scope xv6_scope.
Delimit Scope xv6_scope with xv6.

Definition u8 (z : Z) : Z := z mod 2 ^ 8.
Definition u16 (z : Z) : Z := z mod 2 ^ 16.
Definition u32 (z : Z) : Z := z mod 2 ^ 32.
Definition i8 (z : Z) : Z := (z + 2 ^ 7) mod 2 ^ 8 - 2 ^ 7.
Definition i16 (z : Z) : Z := (z + 2 ^ 15) mod 2 ^ 16 - 2 ^ 15.
Definition i32 (z : Z) : Z := (z + 2 ^ 31) mod 2 ^ 32 - 2 ^ 31.

Definition in_u8 (z : Z) : Prop := 0 <= z < 2 ^ 8.
Definition in_u16 (z : Z) : Prop := 0 <= z < 2 ^ 16.
Definition in_u32 (z : Z) : Prop := 0 <= z < 2 ^ 32.
Definition in_i32 (z : Z) : Prop := - 2 ^ 31 <= z < 2 ^ 31.

Lemma u8_small z : in_u8 z -> u8 z = z.
Proof. apply Z.mod_small. Qed.

Lemma u16_small z : in_u16 z -> u16 z = z.
Proof. apply Z.mod_small. Qed.

Lemma u32_small z : in_u32 z -> u32 z = z.
Proof. apply Z.mod_small. Qed.

Lemma i32_small z : in_i32 z -> i32 z = z.
Proof. unfold in_i32, i32. intros. rewrite Z.mod_small; lia. Qed.

Lemma u8_range z : in_u8 (u8 z).
Proof. apply Z.mod_pos_bound. lia. Qed.

Lemma u32_range z : in_u32 (u32 z).
Proof. apply Z.mod_pos_bound. lia. Qed.

Lemma u16_range z : in_u16 (u16 z).
Proof. apply Z.mod_pos_bound. lia. Qed.

Lemma i32_range z : in_i32 (i32 z).
Proof.
  unfold in_i32, i32.
  pose proof (Z.mod_pos_bound (z + 2 ^ 31) (2 ^ 32) ltac:(lia)). lia.
Qed.

Lemma u32_idemp z : u32 (u32 z) = u32 z.
Proof. apply u32_small, u32_range. Qed.

Lemma u32_add_l a b : u32 (u32 a + b) = u32 (a + b).
Proof. unfold u32. apply Zplus_mod_idemp_l. Qed.

Lemma u32_add_r a b : u32 (a + u32 b) = u32 (a + b).
Proof. unfold u32. apply Zplus_mod_idemp_r. Qed.

Lemma u32_sub_l a b : u32 (u32 a - b) = u32 (a - b).
Proof. unfold u32. apply Zminus_mod_idemp_l. Qed.

Lemma u32_sub_r a b : u32 (a - u32 b) = u32 (a - b).
Proof. unfold u32. apply Zminus_mod_idemp_r. Qed.

Lemma u32_i32 z : u32 (i32 z) = u32 z.
Proof.
  unfold u32, i32. rewrite Zminus_mod_idemp_l. f_equal. lia.
Qed.

Lemma i32_u32 z : i32 (u32 z) = i32 z.
Proof. unfold u32, i32. by rewrite Zplus_mod_idemp_l. Qed.

(** * Little-endian encodings of machine words in byte lists *)

Fixpoint le_bytes (n : nat) (v : Z) : list Z :=
  match n with
  | O => []
  | S n => v mod 2 ^ 8 :: le_bytes n (v / 2 ^ 8)
  end.

Fixpoint le_val (bs : list Z) : Z :=
  match bs with
  | [] => 0
  | b :: bs => b + 2 ^ 8 * le_val bs
  end.

Lemma length_le_bytes n v : length (le_bytes n v) = n.
Proof. revert v; induction n; simpl; auto. Qed.

Lemma le_val_bytes n v : le_val (le_bytes n v) = v mod 2 ^ (8 * Z.of_nat n).
Proof.
  revert v; induction n as [|n IH]; intros v; cbn [le_bytes le_val].
  - rewrite Z.mul_0_r, Z.pow_0_r, Z.mod_1_r. done.
  - rewrite IH. replace (8 * Z.of_nat (S n)) with (8 + 8 * Z.of_nat n) by lia.
    rewrite Z.pow_add_r by lia. rewrite Z.rem_mul_r by lia. done.
Qed.

Lemma le_bytes_range n v : Forall in_u8 (le_bytes n v).
Proof.
  revert v; induction n; intros v; cbn [le_bytes]; constructor; auto.
  apply u8_range.
Qed.

Lemma le_bytes_val bs :
  Forall in_u8 bs -> le_bytes (length bs) (le_val bs) = bs.
Proof.
  induction 1 as [|b bs Hb _ IH]; cbn [le_bytes le_val length]; [done|].
  unfold in_u8 in Hb. f_equal.
  - rewrite Z.mul_comm, Z_mod_plus_full. by apply Z.mod_small.
  - rewrite Z.mul_comm, Z.div_add, Z.div_small, Z.add_0_l by lia. done.
Qed.

Lemma le_val_range bs :
  Forall in_u8 bs -> 0 <= le_val bs < 2 ^ (8 * Z.of_nat (length bs)).
Proof.
  induction 1 as [|b bs Hb _ IH]; cbn [le_val length]; [lia|].
  unfold in_u8 in Hb. replace (8 * Z.of_nat (S (length bs))) with (8 + 8 * Z.of_nat (length bs)) by lia.
  rewrite Z.pow_add_r by lia. nia.
Qed.

(** * Effects

    Kernel code that reads and writes shared state is a function from the
    state to an outcome: it returns a value in a new state, or it stops.
    [Panicked] is a call of [panic], which never returns; [Sleeping] is the
    point at which the process goes to sleep on a channel; [Crashed] is a
    power failure between two disk writes; [Switched] is a [swtch] from a
    process to the scheduler of its CPU; [Exited] is a call of exit by a user
    program; [OutOfFuel] is a loop that was given too small a bound. *)

(** The addresses that the kernel passes to [sleep] and [wakeup]. *)
Inductive chan :=
  | ch_proc (i : nat)        (* &ptable.proc[i], from wait *)
  | ch_ticks                 (* &ticks, from sys_sleep *)
  | ch_log                   (* &log, from begin_op *)
  | ch_nread (p : nat)       (* &p->nread of a pipe *)
  | ch_nwrite (p : nat)      (* &p->nwrite of a pipe *)
  | ch_input                 (* &input.r of the console *)
  | ch_buf (b : nat)         (* a struct buf waiting for the disk *)
  | ch_lock (k : nat).       (* a struct sleeplock *)

#[global] Instance chan_eq_dec : EqDecision chan.
Proof. solve_decision. Defined.

Inductive stop :=
  | Panicked (msg : string)
  | Sleeping (ch : chan)
  | Crashed
  | Switched
  | Exited
  | OutOfFuel.

(** fcntl.h: the modes of open, for the kernel and the programs. *)
Definition O_RDONLY : Z := 0.
Definition O_WRONLY : Z := 1.
Definition O_RDWR : Z := 2.
Definition O_CREATE : Z := 512.

(** The arguments of a formatted print. *)
Inductive parg :=
  | PInt (v : Z)           (* %d *)
  | PPtr (v : Z)           (* %x, %p *)
  | PStr (s : list Z).     (* %s *)

(** The newline character of format strings. *)
Definition nl : string := String (Ascii.ascii_of_nat 10) EmptyString.

Inductive outcome (S A : Type) :=
  | Ret (a : A) (s : S)
  | Stop (w : stop) (s : S).
Arguments Ret {S A} a s.
Arguments Stop {S A} w s.

Definition M (S A : Type) : Type := S -> outcome S A.

#[global] Instance M_ret S : MRet (M S) := fun A a s => Ret a s.
#[global] Instance M_bind S : MBind (M S) := fun A B k m s =>
  match m s with
  | Ret a s' => k a s'
  | Stop w s' => Stop w s'
  end.

Section monad_ops.
Context {S : Type}.

Definition get : M S S := fun s => Ret s s.
Definition put (s : S) : M S unit := fun _ => Ret tt s.
Definition gets {A} (f : S -> A) : M S A := fun s => Ret (f s) s.
Definition modify (f : S -> S) : M S unit := fun s => Ret tt (f s).
Definition panic {A} (msg : string) : M S A := fun s => Stop (Panicked msg) s.
Definition sleeps {A} (ch : chan) : M S A := fun s => Stop (Sleeping ch) s.
Definition out_of_fuel {A} : M S A := fun s => Stop OutOfFuel s.

(** A pointer that points nowhere: correct code never dereferences one. *)
Definition wild {A} : M S A := panic "wild pointer"%string.

(** [when b m] is [if(b) m;]. *)
Definition when (b : bool) (m : M S unit) : M S unit :=
  if b then m else mret tt.

(** [for_each l body] runs [body] on each element of [l] in order. *)
Fixpoint for_each {A} (l : list A) (body : A -> M S unit) : M S unit :=
  match l with
  | [] => mret tt
  | x :: l => body x ;; for_each l body
  end.

(** [n] runs of the same operation. *)
Fixpoint mrepeat (n : nat) (m : M S unit) : M S unit :=
  match n with
  | O => mret tt
  | Datatypes.S n => m ;; mrepeat n m
  end.

End monad_ops.
Arguments panic {S A} msg%_string_scope _.

(** A part of a larger state, and running an operation of the part on the
    whole. *)
Record lens (S T : Type) := Lens { view : S -> T; update : T -> S -> S }.
Arguments Lens {S T} view update.
Arguments view {S T} l s.
Arguments update {S T} l t s.

Class LensLaws {S T} (l : lens S T) := {
  view_update : forall t s, view l (update l t s) = t;
  update_view : forall s, update l (view l s) s = s;
  update_update : forall t t' s, update l t (update l t' s) = update l t s
}.

Definition zoom {S T A} (l : lens S T) (m : M T A) : M S A := fun s =>
  match m (view l s) with
  | Ret a t => Ret a (update l t s)
  | Stop w t => Stop w (update l t s)
  end.

(** ** Weakest preconditions

    [wpe m s Q E]: run from [s], [m] either returns a value and a state that
    satisfy [Q], or stops in a way that satisfies [E]. [wp m s Q]: [m]
    returns, and satisfies [Q]. *)
Definition wpe {S A} (m : M S A) (s : S) (Q : A -> S -> Prop) (E : stop -> S -> Prop) : Prop :=
  match m s with
  | Ret a s' => Q a s'
  | Stop w s' => E w s'
  end.

Definition wp {S A} (m : M S A) (s : S) (Q : A -> S -> Prop) : Prop :=
  wpe m s Q (fun _ _ => False).

Section wp_rules.
Context {S : Type}.

Lemma wpe_ret {A} (a : A) (s : S) (Q : A -> S -> Prop) E : Q a s -> wpe (mret a) s Q E.
Proof. done. Qed.

Lemma wpe_bind {A B} (m : M S A) (k : A -> M S B) s (Q : B -> S -> Prop) E :
  wpe m s (fun a s' => wpe (k a) s' Q E) E -> wpe (m ≫= k) s Q E.
Proof. unfold wpe, mbind, M_bind. by destruct (m s). Qed.

Lemma wpe_assoc {A} (m1 m2 : M S unit) (k : M S A) s (Q : A -> S -> Prop) E :
  wpe (m1 ;; m2) s (fun _ s' => wpe k s' Q E) E -> wpe (m1 ;; m2 ;; k) s Q E.
Proof.
  unfold wpe, mbind, M_bind. destruct (m1 s) as [? s1|]; [|done]. by destruct (m2 s1).
Qed.

Lemma wpe_mono {A} (m : M S A) s (Q Q' : A -> S -> Prop) (E E' : stop -> S -> Prop) :
  (forall a s', Q a s' -> Q' a s') ->
  (forall w s', E w s' -> E' w s') ->
  wpe m s Q E -> wpe m s Q' E'.
Proof. unfold wpe. destruct (m s); auto. Qed.

Lemma wpe_Ret {A} (m : M S A) s a s' (Q : A -> S -> Prop) E :
  wpe m s Q E -> m s = Ret a s' -> Q a s'.
Proof. unfold wpe. intros Hw Hm. by rewrite Hm in Hw. Qed.

Lemma wpe_Stop {A} (m : M S A) s w s' (Q : A -> S -> Prop) E :
  wpe m s Q E -> m s = Stop w s' -> E w s'.
Proof. unfold wpe. intros Hw Hm. by rewrite Hm in Hw. Qed.

Lemma wpe_get s (Q : S -> S -> Prop) E : Q s s -> wpe get s Q E.
Proof. done. Qed.

Lemma wpe_put (s t : S) (Q : unit -> S -> Prop) E : Q tt t -> wpe (put t) s Q E.
Proof. done. Qed.

Lemma wpe_gets {A} (f : S -> A) s (Q : A -> S -> Prop) E : Q (f s) s -> wpe (gets f) s Q E.
Proof. done. Qed.

Lemma wpe_modify (f : S -> S) s (Q : unit -> S -> Prop) E :
  Q tt (f s) -> wpe (modify f) s Q E.
Proof. done. Qed.

Lemma wp_mono {A} (m : M S A) s (Q Q' : A -> S -> Prop) :
  (forall a s', Q a s' -> Q' a s') -> wp m s Q -> wp m s Q'.
Proof. intros HQ. by apply wpe_mono. Qed.

Lemma wp_bind {A B} (m : M S A) (k : A -> M S B) s (Q : B -> S -> Prop) :
  wp m s (fun a s' => wp (k a) s' Q) -> wp (m ≫= k) s Q.
Proof. apply wpe_bind. Qed.

Lemma wp_inv {A} (m : M S A) s (Q : A -> S -> Prop) :
  wp m s Q -> exists a s', m s = Ret a s' /\ Q a s'.
Proof. unfold wp, wpe. destruct (m s); naive_solver. Qed.

Lemma wp_intro {A} (m : M S A) s a s' (Q : A -> S -> Prop) :
  m s = Ret a s' -> Q a s' -> wp m s Q.
Proof. unfold wp, wpe. by intros ->. Qed.

Lemma wpe_mrepeat_add (a b : nat) (m : M S unit) s (Q : unit -> S -> Prop) E :
  wpe (mrepeat a m) s (fun _ s' => wpe (mrepeat b m) s' Q E) E -> wpe (mrepeat (a + b) m) s Q E.
Proof.
  revert s; induction a as [|a IH]; intros s; cbn [mrepeat Nat.add]; [done|].
  intros H. apply wpe_bind. unfold wpe in *. unfold mbind, M_bind in H.
  destruct (m s); [|done]. by apply IH.
Qed.

(** A loop over a list keeps an invariant indexed by the elements done. *)
Lemma wpe_for_each {A} (I : list A -> S -> Prop) (l : list A) (body : A -> M S unit) s E :
  I [] s ->
  (forall done x rest s', l = done ++ x :: rest -> I done s' ->
     wpe (body x) s' (fun _ s'' => I (done ++ [x]) s'') E) ->
  wpe (for_each l body) s (fun _ s' => I l s') E.
Proof.
  intros H0 Hstep.
  enough (forall rest done s', l = done ++ rest -> I done s' ->
    wpe (for_each rest body) s' (fun _ s'' => I l s'') E) as H by by apply (H l []).
  induction rest as [|x rest IH]; intros done s' -> Hdone; simpl.
  - apply wpe_ret. by rewrite app_nil_r.
  - apply wpe_bind. eapply wpe_mono; [| done | by eapply Hstep].
    simpl. intros _ s'' HI. apply (IH (done ++ [x])); [|done].
    by rewrite <- app_assoc.
Qed.

End wp_rules.

(** A computation run in a part of the state leaves the rest alone. *)
(** A loop over the indices below [n]. *)
Lemma wpe_for_seq {S} (I : nat -> S -> Prop) n (body : nat -> M S unit) s (Q : unit -> S -> Prop) E :
  I O s -> (forall m s', (m < n)%nat -> I m s' -> wpe (body m) s' (fun _ s'' => I (Datatypes.S m) s'') E) ->
  (forall s', I n s' -> Q tt s') -> wpe (for_each (seq 0 n) body) s Q E.
Proof.
  intros H0 Hstep HQ. eapply wpe_mono; [| |apply (wpe_for_each (fun done s' => I (length done) s'))]; try done.
  - intros [] s' Hs'. rewrite length_seq in Hs'. by apply HQ.
  - intros dn x rest s' Eq Hs'. assert (Hx : seq 0 n !! length dn = Some x) by (by rewrite Eq, list_lookup_middle).
    apply lookup_seq in Hx as [-> Hlt]. eapply wpe_mono; [| |by apply Hstep]; [|done]. intros [] s'' Hs''. cbn in Hs''.
    by rewrite length_app, Nat.add_1_r.
Qed.

Lemma wpe_zoom {S T A} (l : lens S T) (m : M T A) s (Q : A -> S -> Prop) E :
  wpe m (view l s) (fun a t => Q a (update l t s)) (fun w t => E w (update l t s)) ->
  wpe (zoom l m) s Q E.
Proof. unfold wpe, zoom. by destruct (m (view l s)). Qed.

(** [nocrash I m]: from a state that satisfies [I], [m] keeps [I] and does not
    lose power. *)
Definition nocrash {S A} (I : S -> Prop) (m : M S A) : Prop :=
  forall s, I s -> wpe m s (fun _ s' => I s') (fun w _ => w <> Crashed).

Section nocrash.
Context {S : Type} (I : S -> Prop).

Lemma nocrash_ret {A} (a : A) : nocrash I (mret a).
Proof. by intros s Hs. Qed.

Lemma nocrash_bind {A B} (m : M S A) (k : A -> M S B) :
  nocrash I m -> (forall a, nocrash I (k a)) -> nocrash I (m ≫= k).
Proof.
  intros Hm Hk s Hs. apply wpe_bind. eapply wpe_mono; [| |by apply Hm]; cbv beta; [|auto].
  intros a s' Hs'. by apply Hk.
Qed.

Lemma nocrash_get : nocrash I get.
Proof. by intros s Hs. Qed.

Lemma nocrash_gets {A} (f : S -> A) : nocrash I (gets f).
Proof. by intros s Hs. Qed.

Lemma nocrash_modify (f : S -> S) : (forall s, I s -> I (f s)) -> nocrash I (modify f).
Proof. intros H s Hs. by apply H. Qed.

Lemma nocrash_panic {A} msg : nocrash I (panic msg : M S A).
Proof. by intros s Hs. Qed.

Lemma nocrash_sleeps {A} ch : nocrash I (sleeps ch : M S A).
Proof. by intros s Hs. Qed.

Lemma nocrash_out_of_fuel {A} : nocrash I (out_of_fuel : M S A).
Proof. by intros s Hs. Qed.

Lemma nocrash_when b (m : M S unit) : nocrash I m -> nocrash I (when b m).
Proof. destruct b; [done|]. intros _. apply nocrash_ret. Qed.

Lemma nocrash_for_each {A} (l : list A) (body : A -> M S unit) :
  (forall x, nocrash I (body x)) -> nocrash I (for_each l body).
Proof.
  intros Hb. induction l as [|x l IH]; [apply nocrash_ret|]. apply nocrash_bind; auto.
Qed.

Lemma nocrash_wpe {A} (m : M S A) s (Q : A -> S -> Prop) E :
  nocrash I m -> I s -> wpe m s Q (fun w s' => w = Crashed /\ E w s') -> wp m s (fun a s' => Q a s' /\ I s').
Proof.
  intros Hm Hs. specialize (Hm s Hs). unfold wp, wpe in *. destruct (m s); [done|]. by intros [-> _].
Qed.

End nocrash.

(** [keeps f m]: however [m] ends, it leaves the part [f] of the state as it
    was. *)
Definition keeps {S X A} (f : S -> X) (m : M S A) : Prop :=
  forall s, wpe m s (fun _ s' => f s' = f s) (fun _ s' => f s' = f s).

Section keeps.
Context {S X : Type} (f : S -> X).

Lemma keeps_ret {A} (a : A) : keeps f (mret a).
Proof. by intros s. Qed.

Lemma keeps_bind {A B} (m : M S A) (k : A -> M S B) :
  keeps f m -> (forall a, keeps f (k a)) -> keeps f (m ≫= k).
Proof.
  intros Hm Hk s. apply wpe_bind. eapply wpe_mono; [| |by apply Hm]; cbv beta; [|auto].
  intros a s' <-. apply Hk.
Qed.

Lemma keeps_get : keeps f get.
Proof. by intros s. Qed.

Lemma keeps_gets {A} (g : S -> A) : keeps f (gets g).
Proof. by intros s. Qed.

Lemma keeps_modify (g : S -> S) : (forall s, f (g s) = f s) -> keeps f (modify g).
Proof. intros H s. apply H. Qed.

Lemma keeps_panic {A} msg : keeps f (panic msg : M S A).
Proof. by intros s. Qed.

Lemma keeps_sleeps {A} ch : keeps f (sleeps ch : M S A).
Proof. by intros s. Qed.

Lemma keeps_out_of_fuel {A} : keeps f (out_of_fuel : M S A).
Proof. by intros s. Qed.

Lemma keeps_when b (m : M S unit) : keeps f m -> keeps f (when b m).
Proof. destruct b; [done|]. intros _. apply keeps_ret. Qed.

Lemma keeps_for_each {A} (l : list A) (body : A -> M S unit) :
  (forall x, keeps f (body x)) -> keeps f (for_each l body).
Proof. intros Hb. induction l as [|x l IH]; [apply keeps_ret|]. apply keeps_bind; auto. Qed.

Lemma keeps_wpe {A} (m : M S A) s (Q : A -> S -> Prop) E :
  keeps f m -> wpe m s Q E -> wpe m s (fun a s' => Q a s' /\ f s' = f s) (fun w s' => E w s' /\ f s' = f s).
Proof. intros Hm. specialize (Hm s). unfold wpe in *. by destruct (m s). Qed.

End keeps.

(** Symbolic execution of straight-line code: [mstep] unfolds one bind. *)
Ltac munfold :=
  unfold mbind, M_bind, mret, M_ret, get, put, gets, modify, panic, sleeps,
    when, out_of_fuel, zoom in *; simpl in *.

Ltac mred :=
  cbv beta iota zeta delta [mbind M_bind mret M_ret get put gets modify panic sleeps when
    out_of_fuel zoom].

Create HintDb xv6.

Create HintDb nocrash.
#[export] Hint Resolve nocrash_ret nocrash_get nocrash_gets nocrash_panic nocrash_sleeps
  nocrash_out_of_fuel : nocrash.

(** Follows the code down to its primitive operations. *)
Ltac nocrash_step :=
  match goal with
  | |- nocrash _ (mbind _ _) => apply nocrash_bind
  | |- nocrash _ (for_each _ _) => apply nocrash_for_each
  | |- nocrash _ (when _ _) => apply nocrash_when
  | |- nocrash _ (modify _) => apply nocrash_modify
  | |- nocrash _ (if ?b then _ else _) => destruct b
  | |- nocrash _ (match ?x with _ => _ end) => destruct x
  | |- forall _, _ => intros
  | |- nocrash _ _ => solve [eauto with nocrash]
  end.
Ltac nocrash := repeat nocrash_step; eauto.

Create HintDb keeps.
#[export] Hint Resolve keeps_ret keeps_get keeps_gets keeps_panic keeps_sleeps keeps_out_of_fuel : keeps.

Ltac keeps_step :=
  match goal with
  | |- keeps _ (mbind _ _) => apply keeps_bind
  | |- keeps _ (for_each _ _) => apply keeps_for_each
  | |- keeps _ (when _ _) => apply keeps_when
  | |- keeps _ (if ?b then _ else _) => destruct b
  | |- keeps _ (match ?x with _ => _ end) => destruct x
  | |- forall _, _ => intros
  | |- keeps _ _ => solve [eauto with keeps]
  | |- keeps _ (modify _) => apply keeps_modify; intros; done
  end.
Ltac keeps := repeat keeps_step.

(** * Lists and scans over tables *)

(** The first index at which a test holds: the shape of every
    [for(p = table; p < table + N; p++) if(test) ...] scan. *)
Fixpoint find_index {A} (P : A -> bool) (l : list A) : option nat :=
  match l with
  | [] => None
  | x :: l => if P x then Some O else S <$> find_index P l
  end.

Lemma find_index_Some {A} (P : A -> bool) (l : list A) i :
  find_index P l = Some i <->
  (exists x, l !! i = Some x /\ P x = true) /\
  (forall j x, (j < i)%nat -> l !! j = Some x -> P x = false).
Proof.
  revert i; induction l as [|y l IH]; intros i; simpl.
  - split; [done|]. intros [(x & Hx & _) _]. done.
  - destruct (P y) eqn:HP.
    + split.
      * intros [= <-]. split; [by exists y|]. intros; lia.
      * intros [_ Hlt]. destruct i as [|i]; [done|].
        specialize (Hlt 0%nat y ltac:(lia) eq_refl). congruence.
    + rewrite fmap_Some. split.
      * intros (k & Hk & ->). apply IH in Hk as [(x & Hx & Px) Hlt]. split; [by exists x|].
        intros [|j] z Hj Hz; simpl in Hz; [congruence|]. apply (Hlt j); [lia|done].
      * intros [(x & Hx & Px) Hlt]. destruct i as [|i]; simpl in Hx; [congruence|].
        exists i. split; [|done]. apply IH. split; [by exists x|].
        intros j z Hj Hz. apply (Hlt (Datatypes.S j)); [lia|done].
Qed.

Lemma find_index_None {A} (P : A -> bool) (l : list A) :
  find_index P l = None <-> forall j x, l !! j = Some x -> P x = false.
Proof.
  induction l as [|y l IH]; simpl.
  - split; [intros _ j x Hx; done | done].
  - destruct (P y) eqn:HP.
    + split; [done|]. intros H. specialize (H 0%nat y eq_refl). congruence.
    + rewrite fmap_None, IH. split.
      * intros H [|j] x Hx; simpl in Hx; [congruence | by apply (H j)].
      * intros H j x Hx. by apply (H (S j)).
Qed.

Lemma find_index_lt {A} (P : A -> bool) (l : list A) i :
  find_index P l = Some i -> (i < length l)%nat.
Proof. intros [(x & Hx & _) _]%find_index_Some. by eapply lookup_lt_Some. Qed.

Lemma filter_all {A} (P : A -> Prop) `{!forall x, Decision (P x)} (l : list A) :
  Forall P l -> filter P l = l.
Proof.
  induction 1 as [|x l Hx _ IH]; [done|]. by rewrite filter_cons_True, IH.
Qed.
