(* ===== verification/Mem.v ===== *)
(** The byte-addressed memory that kernel and user code share, and the
    routines of [string.c] over it (with the two [rep stos] helpers of
    [x86.h] that [memset] uses).

    A memory maps every address to a byte. Addresses are not wrapped: a C
    object never straddles the end of the address space. *)

From S2P Require Import Prelude.

Open Scope Z_scope.

Definition mem : Type := Z -> Z.

Definition upd (m : mem) (a v : Z) : mem := fun x => if x =? a then v else m x.

(** 32-bit loads and stores through a pointer, on a little-endian machine. *)
Definition load32 (m : mem) (a : Z) : Z :=
  m a + 2 ^ 8 * (m (a + 1) + 2 ^ 8 * (m (a + 2) + 2 ^ 8 * m (a + 3))).

Definition store32 (m : mem) (a v : Z) : mem :=
  upd (upd (upd (upd m a (u8 v)) (a + 1) (u8 (Z.shiftr v 8)))
    (a + 2) (u8 (Z.shiftr v 16))) (a + 3) (u8 (Z.shiftr v 24)).

(** The [n] bytes at [a], as a list. *)
Definition bytes (m : mem) (a : Z) (n : nat) : list Z :=
  (fun i => m (a + Z.of_nat i)) <$> seq 0 n.

(** ** string.c *)

Fixpoint stosb (m : mem) (addr data : Z) (cnt : nat) : mem :=
  match cnt with
  | O => m
  | S cnt => stosb (upd m addr (u8 data)) (addr + 1) data cnt
  end.

Fixpoint stosl (m : mem) (addr data : Z) (cnt : nat) : mem :=
  match cnt with
  | O => m
  | S cnt => stosl (store32 m addr data) (addr + 4) data cnt
  end.

Definition memset (m : mem) (dst c n : Z) : mem :=
  if (Z.rem (i32 dst) 4 =? 0) && (n mod 4 =? 0) then
    let c := Z.land c 255 in
    stosl m dst
      (i32 (Z.lor (Z.lor (Z.lor (Z.shiftl c 24) (Z.shiftl c 16)) (Z.shiftl c 8)) c))
      (Z.to_nat (n / 4))
  else stosb m dst c (Z.to_nat n).

Fixpoint memcmp (m : mem) (s1 s2 : Z) (n : nat) : Z :=
  match n with
  | O => 0
  | S n =>
      if negb (m s1 =? m s2) then m s1 - m s2
      else memcmp m (s1 + 1) (s2 + 1) n
  end.

(** [while(n-- > 0) *d++ = *s++;] *)
Fixpoint copy_up (m : mem) (d s : Z) (n : nat) : mem :=
  match n with
  | O => m
  | S n => copy_up (upd m d (m s)) (d + 1) (s + 1) n
  end.

(** [while(n-- > 0) *--d = *--s;] *)
Fixpoint copy_down (m : mem) (d s : Z) (n : nat) : mem :=
  match n with
  | O => m
  | S n => copy_down (upd m (d - 1) (m (s - 1))) (d - 1) (s - 1) n
  end.

Definition memmove (m : mem) (dst src n : Z) : mem :=
  if (src <? dst) && (dst <? src + n) then
    copy_down m (dst + n) (src + n) (Z.to_nat n)
  else copy_up m dst src (Z.to_nat n).

Definition memcpy (m : mem) (dst src n : Z) : mem := memmove m dst src n.

Fixpoint strncmp (m : mem) (p q : Z) (n : nat) : Z :=
  match n with
  | O => 0
  | S n' =>
      if negb (m p =? 0) && (m p =? m q) then strncmp m (p + 1) (q + 1) n'
      else m p - m q
  end.

(** First loop of [strncpy]: copies up to and including a NUL. Returns the
    memory, the advanced [s] and what is left of [n]. *)
Fixpoint strncpy_copy (m : mem) (s t : Z) (n : nat) : mem * Z * nat :=
  match n with
  | O => (m, s, O)
  | S n =>
      let c := m t in
      let m := upd m s c in
      if c =? 0 then (m, s + 1, n) else strncpy_copy m (s + 1) (t + 1) n
  end.

(** Second loop of [strncpy]: [while(n-- > 0) *s++ = 0;] *)
Fixpoint strncpy_pad (m : mem) (s : Z) (n : nat) : mem :=
  match n with
  | O => m
  | S n => strncpy_pad (upd m s 0) (s + 1) n
  end.

Definition strncpy (m : mem) (s t n : Z) : mem :=
  let '(m, s, n) := strncpy_copy m s t (Z.to_nat n) in strncpy_pad m s n.

Definition safestrcpy (m : mem) (s t n : Z) : mem :=
  if n <=? 0 then m
  else
    let '(m, s, _) := strncpy_copy m s t (Z.to_nat (n - 1)) in upd m s 0.

(** safestrcpy(dst, src, sizeof(dst)) of the array [src] to one of 16 bytes. *)
Definition name_copy (dst src : list Z) : list Z :=
  let place a l m := foldl (fun m '(i, v) => upd m (a + Z.of_nat i) v) m (imap pair l) in
  bytes (safestrcpy (place 0 dst (place 16 src (fun _ => 0))) 0 16 16) 0 16.

(** [for(n = 0; s[n]; n++) ;] with a bound on the iterations. *)
Fixpoint strlen_from (fuel : nat) (m : mem) (s n : Z) : option Z :=
  match fuel with
  | O => None
  | S fuel => if m (s + n) =? 0 then Some n else strlen_from fuel m s (n + 1)
  end.

Definition strlen (fuel : nat) (m : mem) (s : Z) : option Z := strlen_from fuel m s 0.

(** A NUL-terminated string: the bytes before the NUL. *)
Definition cstr (m : mem) (s : Z) (str : list Z) : Prop :=
  Forall (fun c => c <> 0) str /\
  (forall i c, str !! i = Some c -> m (s + Z.of_nat i) = c) /\
  m (s + Z.of_nat (length str)) = 0.

(** The part of a byte list before its first NUL. *)
Fixpoint cut0 (l : list Z) : list Z :=
  match l with
  | [] => []
  | c :: l => if c =? 0 then [] else c :: cut0 l
  end.

(** ** Updates *)

Lemma upd_eq m a v : upd m a v a = v.
Proof. unfold upd. by rewrite Z.eqb_refl. Qed.

Lemma upd_ne m a b v : b <> a -> upd m a v b = m b.
Proof. intros H. unfold upd. by destruct (Z.eqb_spec b a). Qed.

Lemma upd_if m a v x : upd m a v x = if x =? a then v else m x.
Proof. done. Qed.

Ltac case_eqb := repeat match goal with
  | |- context [?a =? ?b] => destruct (Z.eqb_spec a b)
  | |- context [?a <=? ?b] => destruct (Z.leb_spec a b)
  | |- context [?a <? ?b] => destruct (Z.ltb_spec a b)
  end; simpl; try lia.

Lemma stosb_spec m addr data cnt x :
  stosb m addr data cnt x =
  if (addr <=? x) && (x <? addr + Z.of_nat cnt) then u8 data else m x.
Proof.
  revert m addr; induction cnt as [|cnt IH]; intros m addr; cbn [stosb].
  - case_eqb; done.
  - rewrite IH. unfold upd. case_eqb; try done.
Qed.

Lemma store32_at m a v x :
  store32 m a v x =
  if (a <=? x) && (x <? a + 4) then u8 (Z.shiftr v (8 * (x - a))) else m x.
Proof.
  unfold store32, upd. case_eqb; subst; try done.
  - by replace (8 * (a + 3 - a)) with 24 by lia.
  - by replace (8 * (a + 2 - a)) with 16 by lia.
  - by replace (8 * (a + 1 - a)) with 8 by lia.
  - by replace (8 * (a - a)) with 0 by lia.
Qed.

Lemma stosl_spec m addr data cnt x :
  stosl m addr data cnt x =
  if (addr <=? x) && (x <? addr + 4 * Z.of_nat cnt)
  then u8 (Z.shiftr data (8 * ((x - addr) mod 4))) else m x.
Proof.
  revert m addr; induction cnt as [|cnt IH]; intros m addr; cbn [stosl].
  - case_eqb; done.
  - rewrite IH, store32_at. case_eqb; try done.
    + replace (x - addr) with (x - (addr + 4) + 1 * 4) by lia. by rewrite Z_mod_plus_full.
    + by rewrite (Z.mod_small (x - addr)) by lia.
Qed.

(** The word that [memset] builds holds the byte [c] four times: checked for
    every byte and every position. *)
Lemma memset_word_byte c k :
  0 <= c < 256 -> 0 <= k < 4 ->
  u8 (Z.shiftr (i32 (Z.lor (Z.lor (Z.lor (Z.shiftl c 24) (Z.shiftl c 16)) (Z.shiftl c 8)) c)) (8 * k)) = c.
Proof.
  intros Hc Hk.
  assert (Hall : forallb (fun c => forallb (fun k =>
    u8 (Z.shiftr (i32 (Z.lor (Z.lor (Z.lor (Z.shiftl c 24) (Z.shiftl c 16)) (Z.shiftl c 8)) c)) (8 * k)) =? c)
    (seqZ 0 4)) (seqZ 0 256) = true) by (vm_compute; reflexivity).
  rewrite forallb_forall in Hall. specialize (Hall c).
  rewrite forallb_forall in Hall.
  apply Z.eqb_eq, Hall; apply list_elem_of_In, elem_of_seqZ; lia.
Qed.

Lemma land_255 c : Z.land c 255 = u8 c.
Proof. change 255 with (Z.ones 8). apply Z.land_ones. lia. Qed.

(** [memset] fills exactly [n] bytes, whichever of its two loops runs. *)
Lemma memset_at m dst c n x :
  0 <= n ->
  memset m dst c n x = if (dst <=? x) && (x <? dst + n) then u8 c else m x.
Proof.
  intros Hn. unfold memset. destruct (Z.rem _ 4 =? 0) eqn:Ha; cbn [andb].
  - destruct (Z.eqb_spec (n mod 4) 0) as [Hn4|Hn4].
    + rewrite stosl_spec.
      assert (Hq : 4 * Z.of_nat (Z.to_nat (n / 4)) = n).
      { rewrite Z2Nat.id by (apply Z.div_pos; lia).
        pose proof (Z.div_mod n 4 ltac:(lia)). lia. }
      rewrite Hq. destruct (_ && _); [|done].
      rewrite land_255, memset_word_byte; [done| |].
      * pose proof (u8_range c). unfold in_u8 in *. lia.
      * apply Z.mod_pos_bound. lia.
    + rewrite stosb_spec, Z2Nat.id by lia. done.
  - rewrite stosb_spec, Z2Nat.id by lia. done.
Qed.

(** ** Copies *)

(** Copying upwards is right unless the destination starts inside the
    source. *)
Lemma copy_up_at m d s n x :
  ~ (s < d < s + Z.of_nat n) ->
  copy_up m d s n x =
  if (d <=? x) && (x <? d + Z.of_nat n) then m (s + (x - d)) else m x.
Proof.
  revert m d s; induction n as [|n IH]; intros m d s Hov; cbn [copy_up].
  - case_eqb; done.
  - rewrite IH by lia. unfold upd. case_eqb; f_equal; lia.
Qed.

Lemma copy_down_at m d s n x :
  ~ (d < s < d + Z.of_nat n) ->
  copy_down m (d + Z.of_nat n) (s + Z.of_nat n) n x =
  if (d <=? x) && (x <? d + Z.of_nat n) then m (s + (x - d)) else m x.
Proof.
  revert m; induction n as [|n IH]; intros m Hov; cbn [copy_down].
  - case_eqb; done.
  - replace (d + Z.of_nat (S n) - 1) with (d + Z.of_nat n) by lia.
    replace (s + Z.of_nat (S n) - 1) with (s + Z.of_nat n) by lia.
    rewrite IH by lia. unfold upd. case_eqb; f_equal; lia.
Qed.

Lemma memmove_at m dst src n x :
  0 <= n ->
  memmove m dst src n x =
  if (dst <=? x) && (x <? dst + n) then m (src + (x - dst)) else m x.
Proof.
  intros Hn. unfold memmove. pose proof (Z2Nat.id n Hn) as E. revert E.
  generalize (Z.to_nat n). intros k <-.
  destruct (Z.ltb_spec src dst), (Z.ltb_spec dst (src + Z.of_nat k)); simpl;
    rewrite ?copy_down_at, ?copy_up_at by lia; done.
Qed.

(** ** Loads and stores *)

Lemma load32_store32_eq m a v : load32 (store32 m a v) a = u32 v.
Proof.
  unfold load32. rewrite !store32_at. case_eqb.
  replace (a - a) with 0 by lia. replace (a + 1 - a) with 1 by lia.
  replace (a + 2 - a) with 2 by lia. replace (a + 3 - a) with 3 by lia.
  rewrite !Z.shiftr_div_pow2 by lia. unfold u8, u32.
  change (2 ^ (8 * 0)) with 1. change (2 ^ (8 * 1)) with (2 ^ 8).
  rewrite Z.div_1_r.
  pose proof (le_val_bytes 4 v) as Hle. cbn [le_bytes le_val] in Hle.
  change (2 ^ (8 * Z.of_nat 4)) with (2 ^ 32) in Hle. rewrite <- Hle.
  change (2 ^ (8 * 2)) with (2 ^ 8 * 2 ^ 8).
  change (2 ^ (8 * 3)) with (2 ^ 8 * 2 ^ 8 * 2 ^ 8).
  rewrite <- !Z.div_div by lia. lia.
Qed.

Lemma load32_ext m m' a :
  (forall k, 0 <= k < 4 -> m (a + k) = m' (a + k)) -> load32 m a = load32 m' a.
Proof.
  intros H. unfold load32. rewrite (H 1), (H 2), (H 3) by lia.
  specialize (H 0 ltac:(lia)). rewrite Z.add_0_r in H. by rewrite H.
Qed.

Lemma load32_store32_ne m a b v :
  (b + 4 <= a \/ a + 4 <= b) -> load32 (store32 m a v) b = load32 m b.
Proof.
  intros H. apply load32_ext. intros k Hk. rewrite store32_at. case_eqb; done.
Qed.

Definition mem_ok (m : mem) : Prop := forall a, in_u8 (m a).

Lemma load32_range m a : mem_ok m -> in_u32 (load32 m a).
Proof.
  intros H. unfold load32, in_u32.
  pose proof (H a); pose proof (H (a + 1)); pose proof (H (a + 2)); pose proof (H (a + 3)).
  unfold in_u8 in *. lia.
Qed.

Lemma upd_ok m a v : mem_ok m -> in_u8 v -> mem_ok (upd m a v).
Proof. intros Hm Hv x. unfold upd. by destruct (x =? a). Qed.

Lemma store32_ok m a v : mem_ok m -> mem_ok (store32 m a v).
Proof. intros Hm. unfold store32. repeat apply upd_ok; auto using u8_range. Qed.

Lemma memset_ok m dst c n : 0 <= n -> mem_ok m -> mem_ok (memset m dst c n).
Proof.
  intros Hn Hm x. rewrite memset_at by done. destruct (_ && _); [apply u8_range | apply Hm].
Qed.

Lemma memmove_ok m dst src n : 0 <= n -> mem_ok m -> mem_ok (memmove m dst src n).
Proof. intros Hn Hm x. rewrite memmove_at by done. destruct (_ && _); apply Hm. Qed.

#[export] Hint Resolve upd_ok store32_ok memset_ok memmove_ok u8_range : xv6.

(** ** Bytes as lists *)

Lemma length_bytes m a n : length (bytes m a n) = n.
Proof. unfold bytes. by rewrite length_fmap, length_seq. Qed.

Lemma bytes_lookup m a n i :
  (i < n)%nat -> bytes m a n !! i = Some (m (a + Z.of_nat i)).
Proof.
  intros H. unfold bytes. rewrite list_lookup_fmap, lookup_seq_lt by done. done.
Qed.

Lemma bytes_S m a n : bytes m a (S n) = m a :: bytes m (a + 1) n.
Proof.
  unfold bytes. cbn [seq fmap list_fmap]. f_equal; [f_equal; lia|].
  rewrite <- fmap_S_seq, <- list_fmap_compose. apply list_fmap_ext.
  intros i x _. simpl. f_equal. lia.
Qed.

Lemma bytes_ext m m' a n :
  (forall x, a <= x < a + Z.of_nat n -> m x = m' x) -> bytes m a n = bytes m' a n.
Proof.
  revert a; induction n as [|n IH]; intros a H; [done|].
  rewrite !bytes_S, (H a) by lia. f_equal. apply IH. intros; apply H; lia.
Qed.

Lemma cut0_nonzero l : Forall (fun c => c <> 0) (cut0 l).
Proof.
  induction l as [|c l IH]; simpl; [done|].
  destruct (Z.eqb_spec c 0); by constructor.
Qed.

Lemma cut0_length l : (length (cut0 l) <= length l)%nat.
Proof. induction l as [|c l IH]; simpl; [done|]. destruct (c =? 0); simpl; lia. Qed.

Lemma cut0_prefix l i c : cut0 l !! i = Some c -> l !! i = Some c.
Proof.
  revert i; induction l as [|d l IH]; intros i; simpl; [done|].
  destruct (d =? 0); [done|]. destruct i; simpl; auto.
Qed.

(** ** strlen, strncmp *)

Lemma strlen_from_spec fuel m s str n :
  Forall (fun c => c <> 0) str ->
  (forall i c, str !! i = Some c -> m (s + n + Z.of_nat i) = c) ->
  m (s + n + Z.of_nat (length str)) = 0 ->
  (length str < fuel)%nat ->
  strlen_from fuel m s n = Some (n + Z.of_nat (length str)).
Proof.
  revert n fuel; induction str as [|c str IH]; intros n fuel Hnz Hch Hend Hfuel;
    destruct fuel as [|fuel]; simpl in Hfuel; try lia; cbn [strlen_from].
  - simpl in Hend. rewrite Z.add_0_r in Hend. rewrite Hend. simpl. f_equal. lia.
  - inversion_clear Hnz. pose proof (Hch 0%nat c eq_refl) as Hc.
    rewrite Z.add_0_r in Hc. rewrite Hc. destruct (Z.eqb_spec c 0); [done|].
    rewrite IH; [f_equal; simpl; lia | done | | | lia].
    + intros i d Hi. rewrite <- (Hch (S i) d Hi). f_equal. lia.
    + rewrite <- Hend. f_equal. simpl. lia.
Qed.

Lemma strlen_cstr fuel m s str :
  cstr m s str -> (length str < fuel)%nat -> strlen fuel m s = Some (Z.of_nat (length str)).
Proof.
  intros (Hnz & Hch & Hend) Hfuel. unfold strlen.
  rewrite (strlen_from_spec fuel m s str 0); rewrite ?Z.add_0_r; try done.
Qed.

(** [strncmp] on byte memories returns 0 exactly when the two strings agree
    up to a NUL or to [n] bytes. *)
Lemma strncmp_zero m p q n :
  strncmp m p q n = 0 <-> cut0 (bytes m p n) = cut0 (bytes m q n).
Proof.
  revert p q; induction n as [|n IH]; intros p q; cbn [strncmp]; [done|].
  rewrite !bytes_S. cbn [cut0].
  destruct (Z.eqb_spec (m p) 0) as [Hp|Hp]; cbn [negb andb].
  - rewrite Hp. destruct (Z.eqb_spec (m q) 0); split; intros; try done; lia.
  - destruct (Z.eqb_spec (m p) (m q)) as [Hpq|Hpq].
    + rewrite IH, <- Hpq. destruct (Z.eqb_spec (m p) 0); [lia|].
      split; [by intros ->|]. by intros [= ?].
    + destruct (Z.eqb_spec (m q) 0); split; intros; try done; try lia. congruence.
Qed.

Lemma memcmp_zero m p q n :
  memcmp m p q n = 0 <-> bytes m p n = bytes m q n.
Proof.
  revert p q; induction n as [|n IH]; intros p q; cbn [memcmp]; [done|].
  rewrite !bytes_S. destruct (Z.eqb_spec (m p) (m q)) as [Hpq|Hpq]; cbn [negb].
  - rewrite IH, Hpq. split; [by intros ->|]. by intros [= ?].
  - split; [lia|congruence].
Qed.

(** ** strncpy, safestrcpy *)

(** What the first loop leaves behind: [k] characters and possibly a NUL. *)
Lemma strncpy_copy_spec m s t n :
  (s + Z.of_nat n <= t \/ t + Z.of_nat n <= s) ->
  let '(m', s', r) := strncpy_copy m s t n in
  let str := cut0 (bytes m t n) in
  let k := Z.of_nat (length str) in
  s' = s + Z.of_nat n - Z.of_nat r /\ (r <= n)%nat /\
  (s' = s + k /\ r = O /\ length str = n \/ s' = s + k + 1 /\ (length str < n)%nat) /\
  (forall x, m' x =
     if (s <=? x) && (x <? s') then
       if x <? s + k then m (t + (x - s)) else 0
     else m x).
Proof.
  revert m s t; induction n as [|n IH]; intros m s t Hdisj; cbn [strncpy_copy].
  - simpl. split; [lia|]. split; [lia|]. split; [left; lia|]. intros x. case_eqb; done.
  - rewrite bytes_S. cbn [cut0]. destruct (Z.eqb_spec (m t) 0) as [Ht|Ht].
    + cbn [length]. split; [lia|]. split; [lia|]. split; [right; lia|].
      intros x. unfold upd. case_eqb; done.
    + specialize (IH (upd m s (m t)) (s + 1) (t + 1) ltac:(lia)).
      destruct (strncpy_copy (upd m s (m t)) (s + 1) (t + 1) n) as [[m' s'] r].
      cbn zeta in IH. destruct IH as (Hs & Hr & Hk & Hm).
      rewrite (bytes_ext (upd m s (m t)) m (t + 1) n) in * by (intros; apply upd_ne; lia).
      cbn [length]. split; [lia|]. split; [lia|]. split; [lia|].
      intros x. rewrite Hm. unfold upd. case_eqb; try done; try (f_equal; lia).
Qed.

Lemma strncpy_pad_at m s n x :
  strncpy_pad m s n x = if (s <=? x) && (x <? s + Z.of_nat n) then 0 else m x.
Proof.
  revert m s; induction n as [|n IH]; intros m s; cbn [strncpy_pad].
  - case_eqb; done.
  - rewrite IH. unfold upd. case_eqb; done.
Qed.

Lemma strncpy_at m s t n x :
  (s + n <= t \/ t + n <= s) -> 0 <= n ->
  let k := Z.of_nat (length (cut0 (bytes m t (Z.to_nat n)))) in
  strncpy m s t n x =
  if (s <=? x) && (x <? s + n) then
    if x <? s + k then m (t + (x - s)) else 0
  else m x.
Proof.
  intros Hdisj Hn k. unfold strncpy.
  pose proof (strncpy_copy_spec m s t (Z.to_nat n) ltac:(lia)) as H.
  destruct (strncpy_copy m s t (Z.to_nat n)) as [[m' s'] r].
  cbn zeta in H. destruct H as (Hs & Hr & Hk & Hm).
  pose proof (cut0_length (bytes m t (Z.to_nat n))) as Hlen. rewrite length_bytes in Hlen.
  rewrite strncpy_pad_at, Hm. subst k. case_eqb; try done; lia.
Qed.

Lemma safestrcpy_at m s t n x :
  (s + n <= t \/ t + n <= s) -> 0 < n ->
  let str := cut0 (bytes m t (Z.to_nat (n - 1))) in
  (s <= x <= s + Z.of_nat (length str) ->
   safestrcpy m s t n x = if x <? s + Z.of_nat (length str) then m (t + (x - s)) else 0) /\
  ((x < s \/ s + n <= x) -> safestrcpy m s t n x = m x).
Proof.
  intros Hdisj Hn str. unfold safestrcpy. destruct (Z.leb_spec n 0); [lia|].
  pose proof (strncpy_copy_spec m s t (Z.to_nat (n - 1)) ltac:(lia)) as H'.
  destruct (strncpy_copy m s t (Z.to_nat (n - 1))) as [[m' s'] r].
  cbn zeta in H'. fold str in H'. destruct H' as (Hs & Hr & Hk & Hm).
  pose proof (cut0_length (bytes m t (Z.to_nat (n - 1)))) as Hlen. rewrite length_bytes in Hlen.
  fold str in Hlen. unfold upd. rewrite Hm.
  split; intros Hx; case_eqb; done.
Qed.

(** ** The contracts of the copying routines *)

(** [memmove] copies correctly however source and destination overlap:
    afterwards the destination holds the bytes the source held before the
    call, and no byte outside the destination has changed. *)
Theorem memmove_overlap (m : mem) (dst src : Z) (n : nat) :
  bytes (memmove m dst src (Z.of_nat n)) dst n = bytes m src n /\
  forall x, ~ (dst <= x < dst + Z.of_nat n) -> memmove m dst src (Z.of_nat n) x = m x.
Proof.
  split.
  - apply list_eq. intros i. destruct (decide (i < n)%nat).
    + rewrite !bytes_lookup by done. rewrite memmove_at by lia. case_eqb. do 2 f_equal. lia.
    + rewrite !lookup_ge_None_2 by (rewrite length_bytes; lia). done.
  - intros x Hx. rewrite memmove_at by lia. case_eqb.
Qed.

(** [safestrcpy] with room for [n] bytes always leaves a NUL-terminated
    string in the destination, the longest prefix of the source string that
    fits in [n - 1] bytes, and writes only inside the [n] bytes. *)
Theorem safestrcpy_terminates (m : mem) (s t n : Z) :
  (s + n <= t \/ t + n <= s) -> 0 < n ->
  cstr (safestrcpy m s t n) s (cut0 (bytes m t (Z.to_nat (n - 1)))) /\
  forall x, (x < s \/ s + n <= x) -> safestrcpy m s t n x = m x.
Proof.
  intros Hd Hn. pose proof (fun x => safestrcpy_at m s t n x Hd Hn) as H. cbv zeta in H.
  split; [|intros x Hx; by apply H]. split; [apply cut0_nonzero|]. split.
  - intros i c Hc. pose proof (lookup_lt_Some _ _ _ Hc) as Hi.
    rewrite (proj1 (H _)) by lia. case_eqb.
    pose proof (cut0_prefix (bytes m t (Z.to_nat (n - 1))) i c Hc) as Hb.
    pose proof (lookup_lt_Some _ _ _ Hb) as Hl. rewrite length_bytes in Hl.
    rewrite bytes_lookup in Hb by done. simplify_eq. f_equal. lia.
  - rewrite (proj1 (H _)) by lia. case_eqb.
Qed.

(** The name [init] copied into a 4-byte field keeps three characters. *)
Lemma safestrcpy_terminates_witness :
  let m := fun x => if x =? 100 then 105 else if x =? 101 then 110 else if x =? 102 then 105
                    else if x =? 103 then 116 else 0 in
  cstr (safestrcpy m 200 100 4) 200 [105; 110; 105] /\
  forall x, (x < 200 \/ 200 + 4 <= x) -> safestrcpy m 200 100 4 x = m x.
Proof. intros m. apply (safestrcpy_terminates m 200 100 4); lia. Defined.
