(* ===== verification/Mmu.v ===== *)
(** Page-number arithmetic and descriptor formats: the macros of [mmu.h] and
    [memlayout.h]. *)

From S2P Require Import Prelude.

Open Scope Z_scope.

(** ** memlayout.h *)

Definition EXTMEM : Z := 0x100000.
Definition PHYSTOP : Z := 0xE000000.
Definition DEVSPACE : Z := 0xFE000000.
Definition KERNBASE : Z := 0x80000000.
Definition KERNLINK : Z := KERNBASE + EXTMEM.

Definition V2P (a : Z) : Z := u32 (a - KERNBASE).
Definition P2V (a : Z) : Z := a + KERNBASE.

(** ** mmu.h: page directories and page tables *)

(** param.h *)
Definition KSTACKSIZE : Z := 4096.

Definition NPDENTRIES : Z := 1024.
Definition NPTENTRIES : Z := 1024.
Definition PGSIZE : Z := 4096.
Definition PTXSHIFT : Z := 12.
Definition PDXSHIFT : Z := 22.

Definition PDX (va : Z) : Z := Z.land (Z.shiftr (u32 va) PDXSHIFT) 0x3FF.
Definition PTX (va : Z) : Z := Z.land (Z.shiftr (u32 va) PTXSHIFT) 0x3FF.

Definition PGADDR (d t o : Z) : Z :=
  u32 (Z.lor (Z.lor (Z.shiftl d PDXSHIFT) (Z.shiftl t PTXSHIFT)) o).

Definition PGROUNDUP (sz : Z) : Z := Z.land (u32 (sz + PGSIZE - 1)) (u32 (Z.lnot (PGSIZE - 1))).
Definition PGROUNDDOWN (a : Z) : Z := Z.land (u32 a) (u32 (Z.lnot (PGSIZE - 1))).

Definition PTE_P : Z := 0x001.
Definition PTE_W : Z := 0x002.
Definition PTE_U : Z := 0x004.
Definition PTE_PS : Z := 0x080.

Definition PTE_ADDR (pte : Z) : Z := Z.land (u32 pte) (u32 (Z.lnot 0xFFF)).
Definition PTE_FLAGS (pte : Z) : Z := Z.land (u32 pte) 0xFFF.

(** ** mmu.h: segment and gate descriptors *)

Definition FL_IF : Z := 0x00000200.
Definition SEG_KCODE : Z := 1.
Definition SEG_KDATA : Z := 2.
Definition SEG_UCODE : Z := 3.
Definition SEG_UDATA : Z := 4.
Definition SEG_TSS : Z := 5.
Definition NSEGS : Z := 6.
Definition DPL_USER : Z := 0x3.
Definition STA_X : Z := 0x8.
Definition STA_W : Z := 0x2.
Definition STA_R : Z := 0x2.
Definition STS_T32A : Z := 0x9.
Definition STS_IG32 : Z := 0xE.
Definition STS_TG32 : Z := 0xF.

Record segdesc := SegDesc {
  lim_15_0 : Z; base_15_0 : Z; base_23_16 : Z; sd_type : Z; sd_s : Z; sd_dpl : Z;
  sd_p : Z; lim_19_16 : Z; sd_avl : Z; sd_rsv1 : Z; sd_db : Z; sd_g : Z; base_31_24 : Z
}.

(** The fields are bit-fields: each initialiser is cut to its width. *)
Definition bf (w v : Z) : Z := v mod 2 ^ w.

Definition SEG (type base lim dpl : Z) : segdesc :=
  SegDesc (bf 16 (Z.land (Z.shiftr lim 12) 0xffff)) (bf 16 (Z.land (u32 base) 0xffff))
    (bf 8 (Z.land (Z.shiftr (u32 base) 16) 0xff)) (bf 4 type) 1 (bf 2 dpl) 1
    (bf 4 (Z.shiftr (u32 lim) 28)) 0 0 1 1 (bf 8 (Z.shiftr (u32 base) 24)).

Definition SEG16 (type base lim dpl : Z) : segdesc :=
  SegDesc (bf 16 (Z.land lim 0xffff)) (bf 16 (Z.land (u32 base) 0xffff))
    (bf 8 (Z.land (Z.shiftr (u32 base) 16) 0xff)) (bf 4 type) 1 (bf 2 dpl) 1
    (bf 4 (Z.shiftr (u32 lim) 16)) 0 0 1 0 (bf 8 (Z.shiftr (u32 base) 24)).

Record gatedesc := GateDesc {
  off_15_0 : Z; gd_cs : Z; gd_args : Z; gd_rsv1 : Z; gd_type : Z; gd_s : Z;
  gd_dpl : Z; gd_p : Z; off_31_16 : Z
}.

Definition SETGATE (istrap : bool) (sel off d : Z) : gatedesc :=
  GateDesc (bf 16 (Z.land (u32 off) 0xffff)) (bf 16 sel) 0 0
    (if istrap then STS_TG32 else STS_IG32) 0 (bf 2 d) 1 (bf 16 (Z.shiftr (u32 off) 16)).

(** What the processor reads back from the descriptors. *)
Definition seg_base (d : segdesc) : Z :=
  base_15_0 d + 2 ^ 16 * base_23_16 d + 2 ^ 24 * base_31_24 d.

Definition seg_limit (d : segdesc) : Z :=
  let raw := lim_15_0 d + 2 ^ 16 * lim_19_16 d in
  if sd_g d =? 1 then raw * 2 ^ 12 + (2 ^ 12 - 1) else raw.

Definition gate_offset (g : gatedesc) : Z := off_15_0 g + 2 ^ 16 * off_31_16 g.

(** ** Arithmetic readings of the bit operations *)

Lemma land_mask_low a n : 0 <= n -> Z.land a (2 ^ n - 1) = a mod 2 ^ n.
Proof.
  intros Hn. rewrite <- Z.land_ones by done. f_equal. rewrite Z.ones_equiv. lia.
Qed.

Lemma land_mask_high a : Z.land (u32 a) (u32 (Z.lnot 4095)) = u32 a - u32 a mod 4096.
Proof.
  pose proof (u32_range a) as Ha. unfold in_u32 in Ha.
  assert (Hmask : u32 (Z.lnot 4095) = Z.ldiff (2 ^ 32 - 1) (Z.ones 12)) by reflexivity.
  rewrite Hmask. rewrite Z.ldiff_land, Z.land_assoc.
  rewrite (land_mask_low (u32 a) 32) by lia. rewrite (Z.mod_small (u32 a)) by lia.
  rewrite <- Z.ldiff_land, Z.ldiff_ones_r by lia.
  rewrite Z.shiftl_mul_pow2, Z.shiftr_div_pow2 by lia.
  change (2 ^ 12) with 4096. pose proof (Z.div_mod (u32 a) 4096 ltac:(lia)). lia.
Qed.

Lemma PGROUNDDOWN_eq a : in_u32 a -> PGROUNDDOWN a = a - a mod PGSIZE.
Proof.
  intros Ha. unfold PGROUNDDOWN, PGSIZE. change (4096 - 1) with 4095.
  rewrite land_mask_high, u32_small by done. done.
Qed.

Lemma PGROUNDUP_eq a :
  0 <= a -> a + PGSIZE - 1 < 2 ^ 32 -> PGROUNDUP a = (a + PGSIZE - 1) / PGSIZE * PGSIZE.
Proof.
  unfold PGSIZE. intros Ha Hb. unfold PGROUNDUP, PGSIZE. change (4096 - 1) with 4095.
  rewrite land_mask_high, u32_small by (unfold in_u32; lia).
  pose proof (Z.div_mod (a + 4096 - 1) 4096 ltac:(lia)). lia.
Qed.

Lemma PDX_eq va : in_u32 va -> PDX va = va / 2 ^ 22.
Proof.
  intros H. unfold PDX, PDXSHIFT. rewrite u32_small by done.
  change 0x3FF with (2 ^ 10 - 1). rewrite land_mask_low, Z.shiftr_div_pow2 by lia.
  apply Z.mod_small. unfold in_u32 in H.
  split; [apply Z.div_pos; lia | apply Z.div_lt_upper_bound; lia].
Qed.

Lemma PTX_eq va : in_u32 va -> PTX va = (va / 2 ^ 12) mod 2 ^ 10.
Proof.
  intros H. unfold PTX, PTXSHIFT. rewrite u32_small by done.
  change 0x3FF with (2 ^ 10 - 1). rewrite land_mask_low, Z.shiftr_div_pow2 by lia. done.
Qed.

Lemma PTE_ADDR_eq pte : in_u32 pte -> PTE_ADDR pte = pte - pte mod PGSIZE.
Proof.
  intros H. unfold PTE_ADDR. change 0xFFF with 4095.
  rewrite land_mask_high, u32_small by done. done.
Qed.

Lemma PTE_FLAGS_eq pte : in_u32 pte -> PTE_FLAGS pte = pte mod PGSIZE.
Proof.
  intros H. unfold PTE_FLAGS. rewrite u32_small by done.
  change 0xFFF with (2 ^ 12 - 1). by rewrite land_mask_low.
Qed.

(** Disjoint bit ranges: a bitwise or is a sum. *)
Lemma lor_add_low a b n :
  0 <= n -> 0 <= b < 2 ^ n -> a mod 2 ^ n = 0 -> Z.lor a b = a + b.
Proof.
  intros Hn Hb Ha.
  assert (Hl : Z.land a b = 0).
  { apply Z.bits_inj'. intros i Hi. rewrite Z.land_spec, Z.bits_0.
    destruct (decide (i < n)).
    - rewrite <- (Z.mod_pow2_bits_low a n i), Ha, Z.bits_0 by lia. done.
    - rewrite <- (Z.mod_small b (2 ^ n)), Z.mod_pow2_bits_high by lia. apply andb_false_r. }
  by rewrite Z.add_nocarry_lxor, Z.lxor_lor by done.
Qed.

Lemma PGADDR_eq d t o :
  0 <= d < 1024 -> 0 <= t < 1024 -> 0 <= o < PGSIZE ->
  PGADDR d t o = d * 2 ^ 22 + t * 2 ^ 12 + o.
Proof.
  unfold PGSIZE. intros Hd Ht Ho. unfold PGADDR, PDXSHIFT, PTXSHIFT.
  rewrite !Z.shiftl_mul_pow2 by lia.
  rewrite (lor_add_low (d * 2 ^ 22) _ 22), (lor_add_low _ o 12).
  - apply u32_small. unfold in_u32. lia.
  - lia.
  - lia.
  - replace (d * 2 ^ 22 + t * 2 ^ 12) with ((d * 2 ^ 10 + t) * 2 ^ 12) by lia.
    apply Z_mod_mult.
  - lia.
  - lia.
  - apply Z_mod_mult.
Qed.

Lemma PDX_range va : 0 <= PDX va < 1024.
Proof.
  unfold PDX. change 0x3FF with (2 ^ 10 - 1). rewrite land_mask_low by lia.
  apply Z.mod_pos_bound. lia.
Qed.

Lemma PTX_range va : 0 <= PTX va < 1024.
Proof.
  unfold PTX. change 0x3FF with (2 ^ 10 - 1). rewrite land_mask_low by lia.
  apply Z.mod_pos_bound. lia.
Qed.

Lemma PGADDR_PDX_PTX va :
  in_u32 va -> PGADDR (PDX va) (PTX va) (va mod PGSIZE) = va.
Proof.
  intros H. rewrite PGADDR_eq; auto using PDX_range, PTX_range.
  - rewrite PDX_eq, PTX_eq by done. unfold PGSIZE.
    change (2 ^ 22) with (2 ^ 12 * 2 ^ 10). rewrite <- Z.div_div by lia.
    pose proof (Z.div_mod va 4096 ltac:(lia)).
    pose proof (Z.div_mod (va / 2 ^ 12) (2 ^ 10) ltac:(lia)).
    change 4096 with (2 ^ 12) in *. lia.
  - apply Z.mod_pos_bound. done.
Qed.

Lemma P2V_V2P a : KERNBASE <= a < 2 ^ 32 -> P2V (V2P a) = a.
Proof.
  unfold P2V, V2P, KERNBASE. intros H. rewrite u32_small; [lia|]. unfold in_u32. lia.
Qed.

Lemma V2P_P2V a : 0 <= a < KERNBASE -> V2P (P2V a) = a.
Proof.
  unfold P2V, V2P, KERNBASE. intros H. rewrite u32_small; [lia|]. unfold in_u32. lia.
Qed.

Lemma PGROUNDUP_bounds a :
  0 <= a -> a + PGSIZE - 1 < 2 ^ 32 ->
  PGROUNDUP a mod PGSIZE = 0 /\ a <= PGROUNDUP a < a + PGSIZE.
Proof.
  intros Ha Hb. rewrite PGROUNDUP_eq by done. unfold PGSIZE in *.
  split; [apply Z_mod_mult|].
  pose proof (Z.div_mod (a + 4096 - 1) 4096 ltac:(lia)).
  pose proof (Z.mod_pos_bound (a + 4096 - 1) 4096 ltac:(lia)). lia.
Qed.

Lemma PGROUNDDOWN_bounds a :
  in_u32 a -> PGROUNDDOWN a mod PGSIZE = 0 /\ PGROUNDDOWN a <= a < PGROUNDDOWN a + PGSIZE.
Proof.
  intros Ha. rewrite PGROUNDDOWN_eq by done. unfold PGSIZE.
  pose proof (Z.mod_pos_bound a 4096 ltac:(lia)). split; [|lia].
  rewrite Zminus_mod_idemp_r. by rewrite Z.sub_diag.
Qed.

Lemma PGROUNDUP_unique n a :
  0 <= n -> n + PGSIZE - 1 < 2 ^ 32 -> a mod PGSIZE = 0 -> n <= a < n + PGSIZE -> a = PGROUNDUP n.
Proof.
  intros Hn Hr Ha Hb. destruct (PGROUNDUP_bounds n Hn Hr) as [Hm Hb'].
  unfold PGSIZE in *. pose proof (Z.div_mod a 4096 ltac:(lia)).
  pose proof (Z.div_mod (PGROUNDUP n) 4096 ltac:(lia)). lia.
Qed.

Lemma PGROUNDUP_next n a :
  0 <= n -> n + PGSIZE - 1 < 2 ^ 32 -> a mod PGSIZE = 0 -> a < n -> a + PGSIZE <= PGROUNDUP n.
Proof.
  intros Hn Hr Ha Hb. destruct (PGROUNDUP_bounds n Hn Hr) as [Hm Hb'].
  unfold PGSIZE in *. pose proof (Z.div_mod a 4096 ltac:(lia)).
  pose proof (Z.div_mod (PGROUNDUP n) 4096 ltac:(lia)). lia.
Qed.

Lemma page_succ a : a mod PGSIZE = 0 -> (a + PGSIZE) mod PGSIZE = 0.
Proof. intros Ha. rewrite <- (Z_mod_plus_full a 1 PGSIZE) in Ha. by rewrite Z.mul_1_l in Ha. Qed.

Lemma gate_offset_SETGATE istrap sel off d :
  in_u32 off -> gate_offset (SETGATE istrap sel off d) = off.
Proof.
  intros H. unfold gate_offset, SETGATE, bf; simpl. rewrite u32_small by done.
  change 0xffff with (2 ^ 16 - 1). rewrite land_mask_low, Z.shiftr_div_pow2 by lia.
  unfold in_u32 in H. rewrite Z.mod_mod by lia.
  rewrite (Z.mod_small (off / 2 ^ 16)).
  - pose proof (Z.div_mod off (2 ^ 16) ltac:(lia)). lia.
  - split; [apply Z.div_pos; lia | apply Z.div_lt_upper_bound; lia].
Qed.
