(* ===== verification/Kalloc.v ===== *)
(** The physical page allocator of [kalloc.c].

    The free pages form a singly linked list threaded through the pages
    themselves: [struct run]'s [next] field is the first word of each free
    page. The state holds the memory, so a free page really holds its link and
    kfree really overwrites the page. *)

From S2P Require Import Prelude Mem Mmu.

Open Scope Z_scope.

Record kmem := KMem {
  lock : bool;        (* kmem.lock is held *)
  use_lock : bool;
  freelist : Z;       (* address of the first struct run, 0 for none *)
  phys : mem          (* the kernel's view of memory *)
}.

Definition set_lock b s := KMem b (use_lock s) (freelist s) (phys s).
Definition set_use_lock b s := KMem (lock s) b (freelist s) (phys s).
Definition set_freelist p s := KMem (lock s) (use_lock s) p (phys s).
Definition set_phys m s := KMem (lock s) (use_lock s) (freelist s) m.

(** The spin lock as the holder sees it: taking it twice or releasing it when
    it is not held is a panic. *)
Definition acquire_kmem : M kmem unit :=
  s ← get; if lock s then panic "acquire" else put (set_lock true s).

Definition release_kmem : M kmem unit :=
  s ← get; if lock s then put (set_lock false s) else panic "release".

Section kalloc.
(** The address of [end], the first byte after the kernel, which the linker
    script defines. *)
Variable kend : Z.

Definition kfree (v : Z) : M kmem unit :=
  if negb (v mod PGSIZE =? 0) || (v <? kend) || (PHYSTOP <=? V2P v) then panic "kfree"
  else
    (* Fill with junk to catch dangling refs. *)
    modify (fun s => set_phys (memset (phys s) v 1 PGSIZE) s) ;;
    s ← get;
    when (use_lock s) acquire_kmem ;;
    modify (fun s => set_phys (store32 (phys s) v (freelist s)) s) ;;
    modify (set_freelist v) ;;
    s ← get;
    when (use_lock s) release_kmem.

Definition kalloc : M kmem Z :=
  s ← get;
  when (use_lock s) acquire_kmem ;;
  r ← gets freelist;
  when (negb (r =? 0)) (modify (fun s => set_freelist (load32 (phys s) r) s)) ;;
  s ← get;
  when (use_lock s) release_kmem ;;
  mret r.

(** [for(; p + PGSIZE <= vend; p += PGSIZE) kfree(p);] *)
Fixpoint freerange_loop (fuel : nat) (p vend : Z) : M kmem unit :=
  match fuel with
  | O => out_of_fuel
  | S fuel =>
      if p + PGSIZE <=? vend then kfree p ;; freerange_loop fuel (p + PGSIZE) vend
      else mret tt
  end.

Definition freerange (vstart vend : Z) : M kmem unit :=
  freerange_loop (S (Z.to_nat (vend / PGSIZE))) (PGROUNDUP (u32 vstart)) vend.

Definition kinit1 (vstart vend : Z) : M kmem unit :=
  modify (set_lock false) ;;
  modify (set_use_lock false) ;;
  freerange vstart vend.

Definition kinit2 (vstart vend : Z) : M kmem unit :=
  freerange vstart vend ;;
  modify (set_use_lock true).

(** ** The free list *)

(** The pages the allocator may hold. *)
Definition valid_page (v : Z) : Prop :=
  v mod PGSIZE = 0 /\ kend <= v /\ KERNBASE <= v < P2V PHYSTOP.

Fixpoint free_pages (m : mem) (p : Z) (l : list Z) : Prop :=
  match l with
  | [] => p = 0
  | x :: l => p = x /\ free_pages m (load32 m x) l
  end.

(** The allocator's invariant: [l] is the free list, in order. *)
Definition kinv (s : kmem) (l : list Z) : Prop :=
  lock s = false /\ free_pages (phys s) (freelist s) l /\
  NoDup l /\ Forall valid_page l /\ mem_ok (phys s).

Lemma valid_page_nonzero v : valid_page v -> v <> 0.
Proof. unfold valid_page, KERNBASE. lia. Qed.

Lemma valid_page_u32 v : valid_page v -> in_u32 v.
Proof. unfold valid_page, KERNBASE, P2V, PHYSTOP, KERNBASE, in_u32. lia. Qed.

Lemma kfree_guard v :
  0 <= kend -> KERNBASE <= kend -> in_u32 v ->
  (negb (v mod PGSIZE =? 0) || (v <? kend) || (PHYSTOP <=? V2P v)) = false <-> valid_page v.
Proof.
  intros H0 Hend Hv. unfold valid_page, V2P, P2V.
  rewrite !orb_false_iff, negb_false_iff, Z.eqb_eq, Z.ltb_ge, Z.leb_gt.
  unfold in_u32 in Hv. split.
  - intros [[Ha Hb] Hc]. rewrite u32_small in Hc by (unfold in_u32, KERNBASE in *; lia).
    unfold PHYSTOP, KERNBASE in *. lia.
  - intros (Ha & Hb & Hc). rewrite u32_small by (unfold in_u32, KERNBASE in *; lia).
    unfold PHYSTOP, KERNBASE in *. lia.
Qed.

(** Two distinct pages do not overlap. *)
Lemma pages_disjoint v w :
  v mod PGSIZE = 0 -> w mod PGSIZE = 0 -> v <> w -> v + PGSIZE <= w \/ w + PGSIZE <= v.
Proof.
  unfold PGSIZE. intros Hv Hw Hne.
  pose proof (Z.div_mod v 4096 ltac:(lia)). pose proof (Z.div_mod w 4096 ltac:(lia)). lia.
Qed.

Lemma free_pages_ext m m' p l :
  (forall x, x ∈ l -> load32 m x = load32 m' x) -> free_pages m p l -> free_pages m' p l.
Proof.
  revert p; induction l as [|x l IH]; intros p Hx; simpl; [done|].
  intros [-> Hl]. split; [done|]. rewrite <- Hx by set_solver. apply IH; set_solver.
Qed.

Lemma free_pages_head m p l : free_pages m p l -> p = hd 0 l.
Proof. by destruct l; simpl; intros; destruct_and?. Qed.

(** ** What each operation does *)

Section ops.
Hypothesis Hkend : KERNBASE <= kend.

Lemma kfree_run v s :
  valid_page v -> lock s = false ->
  kfree v s =
    Ret tt (KMem false (use_lock s) v (store32 (memset (phys s) v 1 PGSIZE) v (freelist s))).
Proof.
  intros Hv Hl. unfold kfree.
  rewrite (proj2 (kfree_guard v ltac:(unfold KERNBASE in *; lia) Hkend (valid_page_u32 v Hv)) Hv).
  destruct s as [l u f m]; simpl in *; subst l.
  unfold acquire_kmem, release_kmem. by destruct u; munfold.
Qed.

Lemma kfree_panics v s :
  in_u32 v -> ~ valid_page v -> kfree v s = Stop (Panicked "kfree") s.
Proof.
  intros Hv Hnv. unfold kfree.
  pose proof (kfree_guard v ltac:(unfold KERNBASE in *; lia) Hkend Hv) as Hg.
  destruct (_ || _); [done|]. exfalso. by apply Hnv, Hg.
Qed.

Lemma kalloc_run s :
  lock s = false ->
  kalloc s =
    Ret (freelist s)
      (if freelist s =? 0 then s else set_freelist (load32 (phys s) (freelist s)) s).
Proof.
  intros Hl. destruct s as [l u f m]; simpl in *; subst l.
  unfold kalloc, acquire_kmem, release_kmem. munfold.
  destruct u; simpl; destruct (Z.eqb_spec f 0); done.
Qed.

Lemma kfree_phys_other v m f x :
  (x < v \/ v + PGSIZE <= x) ->
  store32 (memset m v 1 PGSIZE) v f x = m x.
Proof.
  unfold PGSIZE. intros Hx. rewrite store32_at, memset_at by lia. case_eqb; done.
Qed.

Lemma kfree_kinv v s l :
  kinv s l -> valid_page v -> v ∉ l ->
  wp (kfree v) s (fun _ s' => kinv s' (v :: l) /\ use_lock s' = use_lock s /\
    forall x, (x < v \/ v + PGSIZE <= x) -> phys s' x = phys s x).
Proof.
  intros (Hl & Hfp & Hnd & Hval & Hok) Hv Hnin.
  eapply wp_intro; [by apply kfree_run|].
  split; [|split; [done|]; intros x Hx; simpl; by apply kfree_phys_other].
  split; [done|]. simpl. split; [split; [done|]|split; [by constructor|split; [by constructor|]]].
  - assert (Hfl : in_u32 (freelist s)).
    { rewrite (free_pages_head _ _ _ Hfp). destruct l; simpl; [unfold in_u32; lia|].
      inversion_clear Hval. by apply valid_page_u32. }
    rewrite load32_store32_eq, u32_small by done.
    eapply free_pages_ext; [|done]. intros x Hx.
    apply load32_ext. intros k Hk. symmetry. apply kfree_phys_other.
    rewrite list.Forall_forall in Hval. specialize (Hval x Hx).
    destruct Hv as (Hv & _), Hval as (Hxa & _).
    assert (v <> x) by congruence.
    pose proof (pages_disjoint v x Hv Hxa). unfold PGSIZE in *. lia.
  - apply store32_ok, memset_ok; [done|done].
Qed.

Lemma kalloc_kinv s l :
  kinv s l ->
  wp kalloc s (fun r s' => phys s' = phys s /\ use_lock s' = use_lock s /\
    match l with
    | [] => r = 0 /\ kinv s' []
    | x :: l' => r = x /\ kinv s' l'
    end).
Proof.
  intros (Hl & Hfp & Hnd & Hval & Hok).
  eapply wp_intro; [by apply kalloc_run|].
  pose proof (free_pages_head _ _ _ Hfp) as Hhd.
  destruct l as [|x l]; simpl in *.
  - rewrite Hhd. simpl. by split_and!.
  - destruct Hfp as [Hx Hfp].
    rewrite Hx. inversion_clear Hval as [|? ? Hvx Hvl]. inversion_clear Hnd.
    destruct (Z.eqb_spec x 0); [by apply valid_page_nonzero in Hvx|].
    split_and!; done.
Qed.

(** The pages that [freerange] hands to [kfree], in order. *)
Fixpoint range_pages (n : nat) (p vend : Z) : list Z :=
  match n with
  | O => []
  | S n => if p + PGSIZE <=? vend then p :: range_pages n (p + PGSIZE) vend else []
  end.

Lemma elem_of_range_pages n p vend x :
  p mod PGSIZE = 0 -> vend < p + PGSIZE * Z.of_nat n + PGSIZE ->
  x ∈ range_pages n p vend <-> x mod PGSIZE = 0 /\ p <= x /\ x + PGSIZE <= vend.
Proof.
  unfold PGSIZE. revert p; induction n as [|n IH]; intros p Hp Hend; cbn [range_pages]; unfold PGSIZE.
  - rewrite elem_of_nil. split; [done|]. intros; lia.
  - destruct (Z.leb_spec (p + 4096) vend).
    + rewrite elem_of_cons, IH.
      * pose proof (Z.div_mod x 4096 ltac:(lia)); pose proof (Z.div_mod p 4096 ltac:(lia)).
        split; [intros [->|?]; lia|]. intros (Hx & Hpx & Hxe). destruct (decide (x = p)); [by left|right]. lia.
      * rewrite Zplus_mod, Hp. done.
      * lia.
    + rewrite elem_of_nil. split; [done|]. intros (Hx & Hpx & Hxe). lia.
Qed.

Lemma NoDup_range_pages n p vend : NoDup (range_pages n p vend).
Proof.
  assert (Hge : forall n p x, x ∈ range_pages n p vend -> p <= x).
  { clear. induction n as [|n IH]; intros p x; cbn [range_pages]; [set_solver|].
    destruct (_ <=? _); [|set_solver]. rewrite elem_of_cons. intros [->|Hx]; [lia|].
    apply IH in Hx. unfold PGSIZE in *. lia. }
  revert p; induction n as [|n IH]; intros p; cbn [range_pages]; [constructor|].
  destruct (_ <=? _); [|constructor]. constructor; [|apply IH].
  intros Hx%Hge. unfold PGSIZE in *. lia.
Qed.

Lemma freerange_loop_spec n p vend s l :
  kinv s l ->
  Forall valid_page (range_pages n p vend) ->
  (forall x, x ∈ range_pages n p vend -> x ∉ l) ->
  vend < p + PGSIZE * Z.of_nat n + PGSIZE ->
  wp (freerange_loop (S n) p vend) s
    (fun _ s' => kinv s' (rev (range_pages n p vend) ++ l) /\ use_lock s' = use_lock s).
Proof.
  revert p s l; induction n as [|n IH]; intros p s l Hinv Hval Hdisj Hend.
  - cbn [freerange_loop range_pages]. destruct (Z.leb_spec (p + PGSIZE) vend); [lia|].
    simpl. by apply wpe_ret.
  - cbn [range_pages] in *.
    change (freerange_loop (S (S n)) p vend) with
      (if p + PGSIZE <=? vend then kfree p ;; freerange_loop (S n) (p + PGSIZE) vend else mret tt).
    destruct (Z.leb_spec (p + PGSIZE) vend); [|by apply wpe_ret].
    pose proof (NoDup_range_pages (S n) p vend) as Hnd. cbn [range_pages] in Hnd.
    destruct (Z.leb_spec (p + PGSIZE) vend); [|lia].
    inversion_clear Hval. inversion_clear Hnd.
    apply wp_bind. eapply wp_mono; [|apply kfree_kinv; [done|done|apply Hdisj; set_solver]].
    simpl. intros _ s' (Hinv' & Hul & _).
    eapply wp_mono; [|apply (IH _ _ _ Hinv'); [done| |lia]].
    + simpl. intros _ s'' [Hinv'' Hul']. rewrite <- app_assoc. simpl. split; [done|congruence].
    + intros x Hx. rewrite not_elem_of_cons. split; [set_solver|]. apply Hdisj. set_solver.
Qed.

(** [freerange] adds exactly the whole pages of the range to the free list. *)
Lemma freerange_spec vstart vend s l :
  kinv s l -> kend <= vstart -> vstart <= vend -> vend <= P2V PHYSTOP ->
  (forall x, x ∈ l -> x < vstart \/ vend <= x) ->
  wp (freerange vstart vend) s (fun _ s' => exists l',
    kinv s' (l' ++ l) /\ use_lock s' = use_lock s /\
    forall x, x ∈ l' <-> x mod PGSIZE = 0 /\ vstart <= x /\ x + PGSIZE <= vend).
Proof.
  intros Hinv Hs Hse He Hl. unfold freerange.
  unfold KERNBASE, P2V, PHYSTOP in *. unfold KERNBASE in *.
  rewrite (u32_small vstart) by (unfold in_u32; lia).
  pose proof (PGROUNDUP_bounds vstart) as [Ha Hb]; [unfold PGSIZE in *; lia..|].
  set (p := PGROUNDUP vstart) in *. set (n := Z.to_nat (vend / PGSIZE)).
  assert (Hn : vend < p + PGSIZE * Z.of_nat n + PGSIZE).
  { subst n. unfold PGSIZE in *. rewrite Z2Nat.id by (apply Z.div_pos; lia).
    pose proof (Z.div_mod vend 4096 ltac:(lia)).
    pose proof (Z.mod_pos_bound vend 4096 ltac:(lia)). lia. }
  assert (Hel : forall x, x ∈ range_pages n p vend <->
    x mod PGSIZE = 0 /\ vstart <= x /\ x + PGSIZE <= vend).
  { intros x. rewrite elem_of_range_pages by done. unfold PGSIZE in *.
    pose proof (Z.div_mod x 4096 ltac:(lia)). pose proof (Z.div_mod p 4096 ltac:(lia)). lia. }
  eapply wp_mono; [|apply (freerange_loop_spec n p vend s l Hinv); [| |done]].
  - simpl. intros _ s' [Hinv' Hul]. exists (rev (range_pages n p vend)). split; [done|].
    split; [done|]. intros x. by rewrite <- Hel, !list_elem_of_In, <- in_rev.
  - apply list.Forall_forall. intros x Hx%Hel. unfold valid_page, P2V, PHYSTOP, KERNBASE, PGSIZE in *. lia.
  - intros x Hx%Hel Hxl. apply Hl in Hxl. unfold PGSIZE in *. lia.
Qed.

End ops.

(** ** Initialisation *)

Lemma free_pages_zero m : free_pages m 0 [].
Proof. done. Qed.

Lemma kinit1_kinv vend s :
  KERNBASE <= kend <= vend -> vend <= P2V PHYSTOP -> freelist s = 0 -> mem_ok (phys s) ->
  wp (kinit1 kend vend) s (fun _ s' => exists l, kinv s' l /\ use_lock s' = false /\
    forall x, x ∈ l <-> x mod PGSIZE = 0 /\ kend <= x /\ x + PGSIZE <= vend).
Proof.
  intros Hk Hv Hf Hok. unfold kinit1.
  apply wp_bind, wpe_modify, wp_bind, wpe_modify.
  eapply wp_mono; [|apply (freerange_spec ltac:(lia) kend vend _ []); try lia; [|set_solver]].
  - simpl. intros _ s' (l & Hl & Hu & Hx). rewrite app_nil_r in Hl. eauto.
  - unfold set_use_lock, set_lock. split_and!; simpl; try done. constructor.
Qed.

(** The set of pages the machine has for allocation. *)
Definition all_pages (x : Z) : Prop :=
  x mod PGSIZE = 0 /\ kend <= x /\ x + PGSIZE <= P2V PHYSTOP.

Lemma kinit_split_mid x mid :
  mid mod PGSIZE = 0 -> kend <= mid -> mid <= P2V PHYSTOP ->
  all_pages x <-> (x mod PGSIZE = 0 /\ kend <= x /\ x + PGSIZE <= mid) \/
                  (x mod PGSIZE = 0 /\ mid <= x /\ x + PGSIZE <= P2V PHYSTOP).
Proof.
  unfold all_pages, PGSIZE. intros Hm Hk Hp.
  pose proof (Z.div_mod x 4096 ltac:(lia)). pose proof (Z.div_mod mid 4096 ltac:(lia)). lia.
Qed.

(** ** Ownership

    Kernel code that uses the allocator: it allocates pages, writes into the
    pages it owns, and frees pages it owns. *)
Inductive alloc_step : kmem * gset Z -> kmem * gset Z -> Prop :=
  | step_kalloc s own r s' :
      kalloc s = Ret r s' -> r <> 0 -> alloc_step (s, own) (s', {[ r ]} ∪ own)
  | step_kalloc_fail s own s' :
      kalloc s = Ret 0 s' -> alloc_step (s, own) (s', own)
  | step_kfree s own v s' :
      v ∈ own -> kfree v s = Ret tt s' -> alloc_step (s, own) (s', own ∖ {[ v ]})
  | step_write s own v x b :
      v ∈ own -> v <= x < v + PGSIZE -> in_u8 b ->
      alloc_step (s, own) (set_phys (upd (phys s) x b) s, own).

(** Every page is either on the free list or owned, never both. *)
Definition own_inv (total : gset Z) (c : kmem * gset Z) : Prop :=
  exists l, kinv c.1 l /\ list_to_set l ∪ c.2 = total /\ list_to_set l ## c.2.

Lemma own_inv_step total c c' :
  KERNBASE <= kend -> (forall x, x ∈ total -> valid_page x) ->
  own_inv total c -> alloc_step c c' -> own_inv total c'.
Proof.
  intros Hk Htot (l & Hinv & Hun & Hdis) Hstep.
  destruct Hstep as [s own r s' Hr Hr0 | s own s' Hr | s own v s' Hv Hr | s own v x b Hv Hx Hb];
    simpl in *.
  - pose proof (kalloc_kinv s l Hinv) as H. unfold wp, wpe in H. rewrite Hr in H.
    destruct H as (_ & _ & H). destruct l as [|y l]; destruct H as [-> H]; [done|].
    exists l. pose proof Hinv as (_ & _ & Hnd & _). inversion_clear Hnd. simpl.
    split; [done|]. set_solver.
  - pose proof (kalloc_kinv s l Hinv) as H. unfold wp, wpe in H. rewrite Hr in H.
    destruct H as (_ & _ & H). destruct l as [|y l]; destruct H as [Hy H].
    + exists []. done.
    + pose proof Hinv as (_ & _ & _ & Hval & _). inversion_clear Hval as [|? ? Hy' _].
      by apply valid_page_nonzero in Hy'.
  - assert (Hval : valid_page v) by (apply Htot; set_solver).
    pose proof (kfree_kinv Hk v s l Hinv Hval ltac:(set_solver)) as H.
    unfold wp, wpe in H. rewrite Hr in H. destruct H as (H & _).
    exists (v :: l). split; [done|]. split; simpl; [|set_solver].
    rewrite <- Hun. apply set_eq. intros y. destruct (decide (y = v)); set_solver.
  - destruct Hinv as (Hl & Hfp & Hnd & Hval & Hok). exists l. split; [|done].
    split_and!; simpl; try done; [|by apply upd_ok].
    eapply free_pages_ext; [|done]. intros y Hy. apply load32_ext. intros k Hk'.
    rewrite upd_ne; [done|]. assert (Hvv : valid_page v) by (apply Htot; set_solver).
    rewrite list.Forall_forall in Hval. specialize (Hval y Hy).
    destruct Hvv as (Hva & _), Hval as (Hya & _). assert (v <> y) by set_solver.
    pose proof (pages_disjoint v y Hva Hya). unfold PGSIZE in *. lia.
Qed.

Lemma own_inv_reachable total c c' :
  KERNBASE <= kend -> (forall x, x ∈ total -> valid_page x) ->
  own_inv total c -> rtc alloc_step c c' -> own_inv total c'.
Proof. intros Hk Htot Hc Hr. induction Hr; eauto using own_inv_step. Qed.

(** ** Properties *)

(** initialising the allocator as [main] does, with [kinit1] up to 4MB
    and [kinit2] from there to PHYSTOP, returns without a panic, and the free
    list then holds every whole page between [end] and PHYSTOP exactly once,
    with locking switched on. *)
Theorem kinit_frees_every_page (s : kmem) (mid : Z) :
  KERNBASE <= kend <= mid -> mid <= P2V PHYSTOP -> mid mod PGSIZE = 0 ->
  freelist s = 0 -> mem_ok (phys s) ->
  wp (kinit1 kend mid ;; kinit2 mid (P2V PHYSTOP)) s (fun _ s' =>
    use_lock s' = true /\ exists l, kinv s' l /\ forall x, x ∈ l <-> all_pages x).
Proof.
  intros Hk Hm Hma Hf Hok. apply wp_bind.
  eapply wp_mono; [|apply kinit1_kinv; try done; lia].
  simpl. intros _ s1 (l1 & Hinv1 & Hu1 & Hl1). unfold kinit2. apply wp_bind.
  eapply wp_mono; [|apply (freerange_spec ltac:(lia) mid (P2V PHYSTOP) s1 l1 Hinv1); try lia].
  - simpl. intros _ s2 (l2 & Hinv2 & Hu2 & Hl2). apply wpe_modify. split; [done|].
    exists (l2 ++ l1). split.
    + destruct Hinv2 as (? & ? & ? & ? & ?). by split_and!.
    + intros x. rewrite elem_of_app, Hl1, Hl2, (kinit_split_mid x mid) by lia. tauto.
  - intros x Hx%Hl1. unfold PGSIZE in *. lia.
Qed.

(** C28: whatever sequence of allocations, frees of owned pages and writes
    into owned pages the kernel performs from a state in which the free list
    is [l0], [kalloc] never returns a page that is already owned, no page is
    lost (free and owned pages together are always the pages of [l0]), and the
    free list stays well formed. *)
Theorem kalloc_never_reuses_owned (s0 : kmem) (l0 : list Z) (s : kmem) (own : gset Z) :
  KERNBASE <= kend -> kinv s0 l0 -> rtc alloc_step (s0, ∅) (s, own) ->
  (exists l, kinv s l /\ list_to_set l ∪ own = list_to_set l0 /\ list_to_set l ## own) /\
  wp kalloc s (fun r _ => r = 0 \/ r ∉ own /\ r ∈ l0).
Proof.
  intros Hk Hinv Hr.
  assert (Hval : forall x, x ∈ (list_to_set l0 : gset Z) -> valid_page x).
  { intros x Hx%elem_of_list_to_set. destruct Hinv as (_ & _ & _ & Hv & _).
    rewrite list.Forall_forall in Hv. auto. }
  assert (Hown : own_inv (list_to_set l0) (s, own)).
  { eapply own_inv_reachable; [done|done| |done]. exists l0. simpl. set_solver. }
  destruct Hown as (l & Hl & Hun & Hdis). simpl in *. split; [eauto|].
  eapply wp_mono; [|by apply kalloc_kinv].
  simpl. intros r s' (_ & _ & H). destruct l as [|x l]; destruct H as [-> _]; [by left|right].
  rewrite <- (elem_of_list_to_set (C := gset Z)), <- Hun. simpl in *. set_solver.
Qed.

End kalloc.

(** The kernel ends at 0x80115000 and memory is zero: booting the allocator. *)
Lemma kinit_frees_every_page_witness :
  wp (kinit1 0x80115000 0x80115000 (P2V 0x400000) ;;
      kinit2 0x80115000 (P2V 0x400000) (P2V PHYSTOP)) (KMem true false 0 (fun _ => 0))
    (fun _ s' => use_lock s' = true /\
       exists l, kinv 0x80115000 s' l /\ forall x, x ∈ l <-> all_pages 0x80115000 x).
Proof.
  apply (kinit_frees_every_page 0x80115000 (KMem true false 0 (fun _ => 0)) (P2V 0x400000)).
  - vm_compute. split; discriminate.
  - vm_compute. discriminate.
  - reflexivity.
  - reflexivity.
  - intros x. unfold in_u8. simpl. lia.
Defined.

(** One free page, allocated: the next allocation fails, and the owned page is
    accounted for. *)
Lemma kalloc_never_reuses_owned_witness :
  (exists l, kinv 0x80115000 (KMem false true 0 (fun _ => 0)) l /\
     list_to_set l ∪ {[ 0x80200000 ]} = (list_to_set [0x80200000] : gset Z) /\
     list_to_set l ## ({[ 0x80200000 ]} : gset Z)) /\
  wp kalloc (KMem false true 0 (fun _ => 0))
    (fun r _ => r = 0 \/ r ∉ ({[ 0x80200000 ]} : gset Z) /\ r ∈ [0x80200000]).
Proof.
  apply (kalloc_never_reuses_owned 0x80115000 (KMem false true 0x80200000 (fun _ => 0)) [0x80200000]).
  - vm_compute. discriminate.
  - split; [done|]. split; [done|]. split; [apply NoDup_singleton|]. split.
    + constructor; [|constructor]. vm_compute. split_and!; congruence.
    + intros x. unfold in_u8. simpl. lia.
  - apply rtc_once. replace ({[0x80200000]} : gset Z) with ({[0x80200000]} ∪ ∅ : gset Z) by set_solver.
    apply step_kalloc; [reflexivity|discriminate].
Defined.
