(* ===== verification/Spinlock.v ===== *)
(** Spin locks and the interrupt-disable nesting of [spinlock.c], with
    [mycpu] and [myproc] of [proc.c].

    Every function runs on a hardware CPU [h]. The machine state holds the
    [cpus] table, the interrupt flag of each CPU, and the locks. The functions
    are those of the source; the interleaving of several CPUs is the step
    relation [cpu_step], in which the only atomic actions on a lock are the
    [xchg] of acquire and the store of release. *)

From S2P Require Import Prelude Mem Mmu.

Open Scope Z_scope.

(** struct cpu, the fields that locking uses. *)
Record cpu := Cpu {
  apicid : Z;
  ncli : Z;             (* depth of pushcli nesting *)
  intena : Z;           (* were interrupts enabled before pushcli? *)
  cproc : option nat    (* the process running on this cpu *)
}.

(** struct spinlock. *)
Record spinlock := SpinLock {
  locked : Z;
  lname : string;
  lcpu : option nat;    (* the cpu holding the lock, an index into cpus *)
  pcs : list Z
}.

Record machine := Machine {
  cpus : list cpu;
  eflags : list Z;      (* the flags register of each CPU *)
  locks : list spinlock;
  kmemory : mem         (* kernel stacks, read by getcallerpcs *)
}.

Definition set_cpus c s := Machine c (eflags s) (locks s) (kmemory s).
Definition set_eflags e s := Machine (cpus s) e (locks s) (kmemory s).
Definition set_locks l s := Machine (cpus s) (eflags s) l (kmemory s).

Definition set_ncli n c := Cpu (apicid c) n (intena c) (cproc c).
Definition set_intena n c := Cpu (apicid c) (ncli c) n (cproc c).

Definition set_locked v l := SpinLock v (lname l) (lcpu l) (pcs l).
Definition set_lcpu o l := SpinLock (locked l) (lname l) o (pcs l).
Definition set_pcs p l := SpinLock (locked l) (lname l) (lcpu l) p.

Section spin.
(** The local APIC's ID register, read by [lapicid]. *)
Variable lapicid : nat -> Z.

Definition readeflags (h : nat) : M machine Z :=
  s ← get; match eflags s !! h with Some e => mret e | None => wild end.

Definition cli (h : nat) : M machine unit :=
  modify (fun s => set_eflags (alter (fun e => Z.ldiff e FL_IF) h (eflags s)) s).

Definition sti (h : nat) : M machine unit :=
  modify (fun s => set_eflags (alter (fun e => Z.lor e FL_IF) h (eflags s)) s).

Definition mycpu (h : nat) : M machine nat :=
  e ← readeflags h;
  if negb (Z.land e FL_IF =? 0) then panic "mycpu called with interrupts enabled"
  else
    s ← get;
    match find_index (fun c => apicid c =? lapicid h) (cpus s) with
    | Some i => mret i
    | None => panic "unknown apicid"
    end.

Definition read_cpu (i : nat) : M machine cpu :=
  s ← get; match cpus s !! i with Some c => mret c | None => wild end.

Definition write_cpu (i : nat) (f : cpu -> cpu) : M machine unit :=
  modify (fun s => set_cpus (alter f i (cpus s)) s).

Definition pushcli (h : nat) : M machine unit :=
  e ← readeflags h;
  cli h ;;
  i ← mycpu h;
  c ← read_cpu i;
  when (ncli c =? 0) (j ← mycpu h; write_cpu j (set_intena (Z.land e FL_IF))) ;;
  k ← mycpu h;
  write_cpu k (fun c => set_ncli (ncli c + 1) c).

Definition popcli (h : nat) : M machine unit :=
  e ← readeflags h;
  if negb (Z.land e FL_IF =? 0) then panic "popcli - interruptible"
  else
    i ← mycpu h;
    write_cpu i (fun c => set_ncli (ncli c - 1) c) ;;
    c ← read_cpu i;
    if ncli c <? 0 then panic "popcli"
    else
      j ← mycpu h;
      c ← read_cpu j;
      if (ncli c =? 0) && negb (intena c =? 0) then sti h else mret tt.

Definition read_lock (k : nat) : M machine spinlock :=
  s ← get; match locks s !! k with Some l => mret l | None => wild end.

Definition write_lock (k : nat) (f : spinlock -> spinlock) : M machine unit :=
  modify (fun s => set_locks (alter f k (locks s)) s).

Definition initlock (k : nat) (name : string) : M machine unit :=
  write_lock k (fun l => SpinLock 0 name None (pcs l)).

Definition holding (h k : nat) : M machine bool :=
  pushcli h ;;
  l ← read_lock k;
  r ← (if negb (locked l =? 0) then
         i ← mycpu h; mret (bool_decide (lcpu l = Some i))
       else mret false);
  popcli h ;;
  mret r.

(** [xchg(&lk->locked, newval)]: atomic, returns the old value. *)
Definition xchg_locked (k : nat) (newval : Z) : M machine Z :=
  l ← read_lock k;
  write_lock k (set_locked newval) ;;
  mret (locked l).

(** Follows the saved frame pointers, at most ten of them. *)
Fixpoint getcallerpcs_loop (n : nat) (m : mem) (ebp : Z) : list Z :=
  match n with
  | O => []
  | S n =>
      if (ebp =? 0) || (ebp <? KERNBASE) || (ebp =? 0xffffffff) then replicate (S n) 0
      else load32 m (ebp + 4) :: getcallerpcs_loop n m (load32 m ebp)
  end.

Definition getcallerpcs (m : mem) (v : Z) : list Z := getcallerpcs_loop 10 m (v - 8).

(** The three parts of acquire: up to the loop, one turn of the loop, and
    what follows it. [v] is the address of acquire's argument on its stack. *)
Definition acquire_begin (h k : nat) : M machine unit :=
  pushcli h ;;
  r ← holding h k;
  if (r : bool) then panic "acquire" else mret tt.

Definition acquire_try (k : nat) : M machine bool :=
  old ← xchg_locked k 1; mret (old =? 0).

Definition acquire_end (h k : nat) (v : Z) : M machine unit :=
  i ← mycpu h;
  write_lock k (set_lcpu (Some i)) ;;
  s ← get;
  write_lock k (set_pcs (getcallerpcs (kmemory s) v)).

Fixpoint acquire_spin (fuel : nat) (k : nat) : M machine unit :=
  match fuel with
  | O => out_of_fuel
  | S fuel => won ← acquire_try k; if (won : bool) then mret tt else acquire_spin fuel k
  end.

Definition acquire (fuel : nat) (h k : nat) (v : Z) : M machine unit :=
  acquire_begin h k ;; acquire_spin fuel k ;; acquire_end h k v.

(** The two parts of release: the checks and the owner field, then the store
    that frees the lock. *)
Definition release_begin (h k : nat) : M machine unit :=
  r ← holding h k;
  if negb r then panic "release"
  else
    write_lock k (fun l => set_pcs (<[0%nat := 0]> (pcs l)) l) ;;
    write_lock k (set_lcpu None).

Definition release_end (h k : nat) : M machine unit :=
  write_lock k (set_locked 0) ;;
  popcli h.

Definition release (h k : nat) : M machine unit :=
  release_begin h k ;; release_end h k.

(** Disable interrupts so that the process cannot move to another cpu while
    its cpu structure is read. *)
Definition myproc (h : nat) : M machine (option nat) :=
  pushcli h ;;
  i ← mycpu h;
  c ← read_cpu i;
  popcli h ;;
  mret (cproc c).

Definition cpuid (h : nat) : M machine nat := mycpu h.

(** ** What the functions do on a well-formed machine *)

(** Each hardware CPU has its own entry in [cpus], found by its APIC id. *)
Definition table_ok (s : machine) : Prop :=
  length (eflags s) = length (cpus s) /\
  forall h, (h < length (cpus s))%nat ->
    find_index (fun c => apicid c =? lapicid h) (cpus s) = Some h.

Lemma find_index_apic_insert h c c' (l : list cpu) a :
  l !! h = Some c -> apicid c' = apicid c ->
  find_index (fun c => apicid c =? a) (<[h := c']> l) = find_index (fun c => apicid c =? a) l.
Proof.
  revert h; induction l as [|d l IH]; intros [|h] Hc Ha; simpl in *; try done.
  - simplify_eq. by rewrite Ha.
  - by rewrite IH.
Qed.

Lemma table_ok_cpus s h c c' :
  table_ok s -> cpus s !! h = Some c -> apicid c' = apicid c ->
  table_ok (set_cpus (<[h := c']> (cpus s)) s).
Proof.
  intros [Hlen Htab] Hc Ha. split; simpl; [by rewrite length_insert|].
  intros h'. rewrite length_insert. intros Hh'.
  erewrite find_index_apic_insert by done. by apply Htab.
Qed.

Lemma table_ok_eflags s h e :
  table_ok s -> table_ok (set_eflags (<[h := e]> (eflags s)) s).
Proof. intros [Hlen Htab]. split; simpl; [by rewrite length_insert|done]. Qed.

Lemma ldiff_IF e : Z.land (Z.ldiff e FL_IF) FL_IF = 0.
Proof.
  apply Z.bits_inj'. intros i Hi. rewrite Z.land_spec, Z.ldiff_spec, Z.bits_0.
  by destruct (Z.testbit e i), (Z.testbit FL_IF i).
Qed.

Lemma ldiff_IF_id e : Z.land e FL_IF = 0 -> Z.ldiff e FL_IF = e.
Proof.
  intros H. apply Z.bits_inj'. intros i Hi. rewrite Z.ldiff_spec.
  assert (Hb : Z.testbit (Z.land e FL_IF) i = false) by by rewrite H, Z.bits_0.
  rewrite Z.land_spec in Hb. by destruct (Z.testbit e i), (Z.testbit FL_IF i).
Qed.

Lemma lor_IF e : Z.land (Z.lor e FL_IF) FL_IF = FL_IF.
Proof.
  apply Z.bits_inj'. intros i Hi. rewrite Z.land_spec, Z.lor_spec.
  by destruct (Z.testbit e i), (Z.testbit FL_IF i).
Qed.

Lemma alter_insert {A} (f : A -> A) (l : list A) i x :
  l !! i = Some x -> alter f i l = <[i := f x]> l.
Proof.
  revert i; induction l as [|y l IH]; intros [|i] Hx; simpl in *; simplify_eq; try done.
  f_equal. by apply IH.
Qed.

Definition pushed (e : Z) (c : cpu) : cpu :=
  Cpu (apicid c) (ncli c + 1) (if ncli c =? 0 then Z.land e FL_IF else intena c) (cproc c).

Definition after_push (h : nat) (e : Z) (c : cpu) (s : machine) : machine :=
  Machine (<[h := pushed e c]> (cpus s)) (<[h := Z.ldiff e FL_IF]> (eflags s)) (locks s) (kmemory s).

Lemma mycpu_run h s e :
  table_ok s -> (h < length (cpus s))%nat -> eflags s !! h = Some e -> Z.land e FL_IF = 0 ->
  mycpu h s = Ret h s.
Proof.
  intros [_ Htab] Hh He Hif. unfold mycpu, readeflags. munfold.
  rewrite He. simpl. rewrite Hif. simpl. by rewrite Htab.
Qed.

Lemma pushcli_run h s c e :
  table_ok s -> cpus s !! h = Some c -> eflags s !! h = Some e ->
  pushcli h s = Ret tt (after_push h e c s).
Proof.
  intros Htab Hc He. pose proof (lookup_lt_Some _ _ _ Hc) as Hh.
  assert (Hhe : (h < length (eflags s))%nat) by by apply lookup_lt_Some in He.
  unfold pushcli, cli. unfold mbind, M_bind, readeflags, get, modify.
  unfold mbind, M_bind, mret, M_ret. rewrite He. cbn [eflags set_eflags].
  rewrite (alter_insert _ _ _ e) by done.
  set (s1 := set_eflags _ s).
  assert (Ht1 : table_ok s1) by by apply table_ok_eflags.
  assert (He1 : eflags s1 !! h = Some (Z.ldiff e FL_IF)).
  { simpl. by rewrite list_lookup_insert_eq. }
  rewrite (mycpu_run h s1 (Z.ldiff e FL_IF)) by (try done; apply ldiff_IF).
  unfold read_cpu, get, mbind, M_bind. change (cpus s1) with (cpus s). rewrite Hc.
  unfold mret, M_ret, when, write_cpu, modify.
  assert (Hfin : forall c', apicid c' = apicid c ->
    mycpu h (set_cpus (<[h := c']> (cpus s1)) s1) = Ret h (set_cpus (<[h := c']> (cpus s1)) s1)).
  { intros c' Ha. apply mycpu_run with (e := Z.ldiff e FL_IF); [|simpl; by rewrite length_insert|done|apply ldiff_IF].
    by apply table_ok_cpus with c. }
  unfold after_push, pushed. destruct (Z.eqb_spec (ncli c) 0) as [Hn|Hn].
  - rewrite (mycpu_run h s1 (Z.ldiff e FL_IF)) by (try done; apply ldiff_IF).
    change (cpus s1) with (cpus s) in *. rewrite (alter_insert _ _ _ c) by done.
    rewrite Hfin by done. cbn [cpus set_cpus].
    rewrite (alter_insert _ _ _ (set_intena (Z.land e FL_IF) c)) by by rewrite list_lookup_insert_eq.
    rewrite list_insert_insert_eq. done.
  - mred. rewrite (mycpu_run h s1 (Z.ldiff e FL_IF)) by (try done; apply ldiff_IF).
    change (cpus s1) with (cpus s) in *. rewrite (alter_insert _ _ _ c) by done. done.
Qed.

Definition popped (c : cpu) : cpu := set_ncli (ncli c - 1) c.

Definition after_pop (h : nat) (e : Z) (c : cpu) (s : machine) : machine :=
  Machine (<[h := popped c]> (cpus s))
    (if (ncli c - 1 =? 0) && negb (intena c =? 0) then <[h := Z.lor e FL_IF]> (eflags s) else eflags s)
    (locks s) (kmemory s).

Lemma popcli_run h s c e :
  table_ok s -> cpus s !! h = Some c -> eflags s !! h = Some e ->
  Z.land e FL_IF = 0 -> 1 <= ncli c ->
  popcli h s = Ret tt (after_pop h e c s).
Proof.
  intros Htab Hc He Hif Hn. pose proof (lookup_lt_Some _ _ _ Hc) as Hh.
  unfold popcli, write_cpu, read_cpu, sti, readeflags.
  unfold mbind, M_bind, get, modify. rewrite He. unfold mret, M_ret. rewrite Hif. cbn [negb Z.eqb].
  rewrite (mycpu_run h s e) by done.
  rewrite (alter_insert _ _ _ c) by done. cbn [cpus set_cpus].
  rewrite list_lookup_insert_eq by done. cbn [ncli set_ncli].
  destruct (Z.ltb_spec (ncli c - 1) 0); [lia|].
  rewrite (mycpu_run h _ e);
    [|by apply table_ok_cpus with c|simpl; by rewrite length_insert|done|done].
  cbn [cpus set_cpus]. rewrite list_lookup_insert_eq by done. cbn [ncli set_ncli intena].
  unfold after_pop, popped. destruct (_ && _); cbn [eflags set_cpus set_eflags]; [|done].
  by rewrite (alter_insert _ _ _ e).
Qed.

Lemma machine_eta s c e h :
  cpus s !! h = Some c -> eflags s !! h = Some e ->
  Machine (<[h := c]> (cpus s)) (<[h := e]> (eflags s)) (locks s) (kmemory s) = s.
Proof. intros Hc He. rewrite !list_insert_id by done. by destruct s. Qed.

(** A nested pushcli/popcli pair with interrupts already off changes
    nothing. *)
Lemma push_pop_nested h s c e :
  cpus s !! h = Some c -> eflags s !! h = Some e -> Z.land e FL_IF = 0 -> 1 <= ncli c ->
  after_pop h (Z.ldiff e FL_IF) (pushed e c) (after_push h e c s) = s.
Proof.
  intros Hc He Hif Hn. unfold after_pop, after_push, popped, pushed, set_ncli; simpl.
  destruct (Z.eqb_spec (ncli c) 0); [lia|].
  destruct (Z.eqb_spec (ncli c + 1 - 1) 0); [lia|]. simpl.
  rewrite list_insert_insert_eq, ldiff_IF_id by done.
  replace (ncli c + 1 - 1) with (ncli c) by lia.
  rewrite !list_insert_id; [by destruct s|done|by destruct c].
Qed.

Lemma after_push_table_ok h s c e :
  table_ok s -> cpus s !! h = Some c -> table_ok (after_push h e c s).
Proof.
  intros Ht Hc. apply (table_ok_eflags (set_cpus (<[h := pushed e c]> (cpus s)) s)).
  by apply table_ok_cpus with c.
Qed.

Lemma holding_run h k s c e l :
  table_ok s -> cpus s !! h = Some c -> eflags s !! h = Some e -> Z.land e FL_IF = 0 ->
  1 <= ncli c -> locks s !! k = Some l ->
  holding h k s = Ret (negb (locked l =? 0) && bool_decide (lcpu l = Some h)) s.
Proof.
  intros Ht Hc He Hif Hn Hl. pose proof (lookup_lt_Some _ _ _ Hc) as Hh.
  assert (Hhe : (h < length (eflags s))%nat) by by apply lookup_lt_Some in He.
  unfold holding, read_lock. mred. rewrite (pushcli_run h s c e) by done.
  cbn [after_push locks]. rewrite Hl.
  assert (Hm : mycpu h (after_push h e c s) = Ret h (after_push h e c s)).
  { apply mycpu_run with (e := Z.ldiff e FL_IF); [by apply after_push_table_ok| | |apply ldiff_IF];
      simpl; [by rewrite length_insert|by rewrite list_lookup_insert_eq]. }
  assert (Hp : popcli h (after_push h e c s) = Ret tt s).
  { rewrite (popcli_run h _ (pushed e c) (Z.ldiff e FL_IF)).
    - by rewrite push_pop_nested.
    - by apply after_push_table_ok.
    - simpl. by rewrite list_lookup_insert_eq.
    - simpl. by rewrite list_lookup_insert_eq.
    - apply ldiff_IF.
    - simpl. lia. }
  destruct (locked l =? 0); simpl.
  - by rewrite Hp.
  - change (Machine _ _ _ _) with (after_push h e c s). by rewrite Hm, Hp.
Qed.

(** ** Several CPUs

    A CPU either runs, spins in acquire, has won the [xchg] but not yet
    recorded itself as the owner, or has given up ownership in release but not
    yet stored 0. [held] lists the locks whose acquire has returned. *)
Inductive cpu_pc :=
  | Running
  | Spinning (k : nat) (v : Z)
  | Acquired (k : nat) (v : Z)
  | Releasing (k : nat).

Record thread := Thread { held : list nat; pc : cpu_pc }.

Definition config : Type := machine * list thread.

Inductive cpu_step : config -> config -> Prop :=
  | step_acquire h k v s T hs s' :
      T !! h = Some (Thread hs Running) ->
      acquire_begin h k s = Ret tt s' ->
      cpu_step (s, T) (s', <[h := Thread hs (Spinning k v)]> T)
  | step_spin h k v s T hs s' :
      T !! h = Some (Thread hs (Spinning k v)) ->
      acquire_try k s = Ret false s' ->
      cpu_step (s, T) (s', T)
  | step_win h k v s T hs s' :
      T !! h = Some (Thread hs (Spinning k v)) ->
      acquire_try k s = Ret true s' ->
      cpu_step (s, T) (s', <[h := Thread hs (Acquired k v)]> T)
  | step_record h k v s T hs s' :
      T !! h = Some (Thread hs (Acquired k v)) ->
      acquire_end h k v s = Ret tt s' ->
      cpu_step (s, T) (s', <[h := Thread (k :: hs) Running]> T)
  | step_release h k s T hs s' :
      T !! h = Some (Thread hs Running) ->
      release_begin h k s = Ret tt s' ->
      cpu_step (s, T) (s', <[h := Thread (filter (fun j => j <> k) hs) (Releasing k)]> T)
  | step_store h k s T hs s' :
      T !! h = Some (Thread hs (Releasing k)) ->
      release_end h k s = Ret tt s' ->
      cpu_step (s, T) (s', <[h := Thread hs Running]> T)
  | step_sti h s T s' :
      (* the scheduler turns interrupts on between processes *)
      T !! h = Some (Thread [] Running) ->
      sti h s = Ret tt s' ->
      cpu_step (s, T) (s', T).

(** The lock word belongs to the CPU between its [xchg] and its store. *)
Definition owns (k : nat) (t : thread) : Prop :=
  k ∈ held t \/ (exists v, pc t = Acquired k v) \/ pc t = Releasing k.

Definition busy (t : thread) : Z := match pc t with Running => 0 | _ => 1 end.

(** The lock in transit is not one of the locks already held. *)
Definition pc_ok (t : thread) : Prop :=
  match pc t with
  | Running => True
  | Spinning k _ | Acquired k _ | Releasing k => k ∉ held t
  end.

Definition cpu_inv (s : machine) (T : list thread) : Prop :=
  forall h c e t, cpus s !! h = Some c -> eflags s !! h = Some e -> T !! h = Some t ->
    ncli c = Z.of_nat (length (held t)) + busy t /\
    (0 < ncli c -> Z.land e FL_IF = 0) /\ NoDup (held t) /\ pc_ok t.

Definition lock_inv (s : machine) (T : list thread) : Prop :=
  forall k l, locks s !! k = Some l ->
    (locked l = 0 \/ locked l = 1) /\
    (forall h t, T !! h = Some t -> owns k t -> locked l = 1) /\
    (forall h h' t t', T !! h = Some t -> T !! h' = Some t' -> owns k t -> owns k t' -> h = h') /\
    (forall h t, T !! h = Some t -> k ∈ held t <-> lcpu l = Some h) /\
    (forall h, lcpu l = Some h -> locked l = 1 /\ is_Some (T !! h)).

Definition spin_inv (c : config) : Prop :=
  table_ok c.1 /\ length c.2 = length (cpus c.1) /\
  (forall h t k, c.2 !! h = Some t -> owns k t -> (k < length (locks c.1))%nat) /\
  cpu_inv c.1 c.2 /\ lock_inv c.1 c.2.

(** ** Each step, as an update of the machine *)

Lemma acquire_begin_inv h k s s' c e :
  table_ok s -> cpus s !! h = Some c -> eflags s !! h = Some e -> 0 <= ncli c ->
  acquire_begin h k s = Ret tt s' ->
  s' = after_push h e c s /\
  exists l, locks s !! k = Some l /\ (locked l = 0 \/ lcpu l <> Some h).
Proof.
  intros Ht Hc He Hn. pose proof (lookup_lt_Some _ _ _ Hc) as Hh.
  assert (Hhe : (h < length (eflags s))%nat) by by apply lookup_lt_Some in He.
  unfold acquire_begin. mred. rewrite (pushcli_run h s c e) by done.
  assert (Hc1 : cpus (after_push h e c s) !! h = Some (pushed e c))
    by (simpl; by rewrite list_lookup_insert_eq).
  assert (He1 : eflags (after_push h e c s) !! h = Some (Z.ldiff e FL_IF))
    by (simpl; by rewrite list_lookup_insert_eq).
  pose proof (after_push_table_ok h s c e Ht Hc) as Ht1.
  destruct (locks s !! k) as [l|] eqn:Hl.
  - rewrite (holding_run h k _ (pushed e c) (Z.ldiff e FL_IF) l); try done;
      [|apply ldiff_IF|simpl; lia].
    destruct (Z.eqb_spec (locked l) 0); simpl.
    + intros [= <-]. eauto.
    + case_bool_decide; [done|]. intros [= <-]. eauto.
  - unfold holding, read_lock, wild. mred. rewrite (pushcli_run h _ (pushed e c) (Z.ldiff e FL_IF)) by done.
    simpl. by rewrite Hl.
Qed.

Lemma acquire_try_inv k s b s' :
  acquire_try k s = Ret b s' ->
  exists l, locks s !! k = Some l /\ b = (locked l =? 0) /\
    s' = set_locks (<[k := set_locked 1 l]> (locks s)) s.
Proof.
  unfold acquire_try, xchg_locked, read_lock, write_lock, wild. mred.
  destruct (locks s !! k) as [l|] eqn:Hl; [|done].
  rewrite (alter_insert _ _ _ l) by done. intros [= <- <-]. eauto.
Qed.

Lemma acquire_end_inv h k v s s' e l :
  table_ok s -> (h < length (cpus s))%nat -> eflags s !! h = Some e -> Z.land e FL_IF = 0 ->
  locks s !! k = Some l -> acquire_end h k v s = Ret tt s' ->
  s' = set_locks (<[k := set_pcs (getcallerpcs (kmemory s) v) (set_lcpu (Some h) l)]> (locks s)) s.
Proof.
  intros Ht Hh He Hif Hl. unfold acquire_end, write_lock. mred.
  rewrite (mycpu_run h s e) by done. cbn [locks set_locks kmemory].
  rewrite (alter_insert _ (locks s) k l) by done.
  rewrite (alter_insert _ _ _ (set_lcpu (Some h) l))
    by (rewrite list_lookup_insert_eq; [done|by eapply lookup_lt_Some]).
  rewrite list_insert_insert_eq. by intros [= <-].
Qed.

Lemma holding_result h k s c e l :
  table_ok s -> cpus s !! h = Some c -> eflags s !! h = Some e -> 0 <= ncli c ->
  locks s !! k = Some l ->
  exists s', holding h k s = Ret (negb (locked l =? 0) && bool_decide (lcpu l = Some h)) s'.
Proof.
  intros Ht Hc He Hn Hl. pose proof (lookup_lt_Some _ _ _ Hc) as Hh.
  assert (Hhe : (h < length (eflags s))%nat) by by apply lookup_lt_Some in He.
  unfold holding, read_lock. mred. rewrite (pushcli_run h s c e) by done.
  cbn [after_push locks]. rewrite Hl. change (Machine _ _ _ _) with (after_push h e c s).
  assert (Hm : mycpu h (after_push h e c s) = Ret h (after_push h e c s)).
  { apply mycpu_run with (e := Z.ldiff e FL_IF); [by apply after_push_table_ok| | |apply ldiff_IF];
      simpl; [by rewrite length_insert|by rewrite list_lookup_insert_eq]. }
  assert (Hp : exists s', popcli h (after_push h e c s) = Ret tt s').
  { rewrite (popcli_run h _ (pushed e c) (Z.ldiff e FL_IF)); [by eauto|by apply after_push_table_ok|..];
      simpl; [by rewrite list_lookup_insert_eq|by rewrite list_lookup_insert_eq|apply ldiff_IF|lia]. }
  destruct Hp as [s' Hp]. exists s'.
  destruct (locked l =? 0); simpl; [by rewrite Hp|by rewrite Hm, Hp].
Qed.

Lemma release_begin_inv h k s s' c e :
  table_ok s -> cpus s !! h = Some c -> eflags s !! h = Some e -> 0 <= ncli c ->
  (0 < ncli c -> Z.land e FL_IF = 0) ->
  (ncli c = 0 -> forall l, locks s !! k = Some l -> lcpu l <> Some h) ->
  release_begin h k s = Ret tt s' ->
  exists l, locks s !! k = Some l /\ locked l <> 0 /\ lcpu l = Some h /\ 0 < ncli c /\
    s' = set_locks (<[k := set_lcpu None (set_pcs (<[0%nat := 0]> (pcs l)) l)]> (locks s)) s.
Proof.
  intros Ht Hc He Hn Hif Hnone. unfold release_begin, write_lock. mred.
  destruct (locks s !! k) as [l|] eqn:Hl.
  - destruct (decide (ncli c = 0)) as [H0|H0].
    + destruct (holding_result h k s c e l) as [s1 ->]; try done.
      rewrite (bool_decide_eq_false_2 (lcpu l = Some h)) by by apply Hnone.
      by rewrite andb_false_r.
    + rewrite (holding_run h k s c e l) by (try done; try lia; apply Hif; lia).
      destruct (Z.eqb_spec (locked l) 0); [done|]. simpl.
      case_bool_decide; [|done]. simpl.
      rewrite (alter_insert _ (locks s) k l) by done.
      rewrite (alter_insert _ _ _ (set_pcs (<[0%nat := 0]> (pcs l)) l))
        by (rewrite list_lookup_insert_eq; [done|by eapply lookup_lt_Some]).
      rewrite list_insert_insert_eq. intros [= <-]. exists l. split_and!; try done. lia.
  - unfold holding, read_lock, wild. mred. rewrite (pushcli_run h s c e) by done. simpl. by rewrite Hl.
Qed.

Lemma release_end_inv h k s s' c e l :
  table_ok s -> cpus s !! h = Some c -> eflags s !! h = Some e -> Z.land e FL_IF = 0 ->
  1 <= ncli c -> locks s !! k = Some l ->
  release_end h k s = Ret tt s' ->
  s' = after_pop h e c (set_locks (<[k := set_locked 0 l]> (locks s)) s).
Proof.
  intros Ht Hc He Hif Hn Hl. unfold release_end, write_lock. mred.
  rewrite (alter_insert _ (locks s) k l) by done.
  rewrite (popcli_run h _ c e) by done. by intros [= <-].
Qed.

(** ** The invariant is preserved *)

Ltac ins_cases := repeat match goal with
  | H : <[_ := _]> _ !! _ = Some _ |- _ =>
      apply list_lookup_insert_Some in H; destruct H as [(? & ? & ?)|[? ?]]; simplify_eq
  end.

Lemma cpu_inv_update s s' T h c' e' t' :
  cpu_inv s T -> cpus s' = <[h := c']> (cpus s) -> eflags s' = <[h := e']> (eflags s) ->
  ncli c' = Z.of_nat (length (held t')) + busy t' ->
  (0 < ncli c' -> Z.land e' FL_IF = 0) -> NoDup (held t') -> pc_ok t' ->
  cpu_inv s' (<[h := t']> T).
Proof.
  intros Hinv Hcs Hes Hn Hif Hnd Hpc h1 c1 e1 t1. rewrite Hcs, Hes. intros.
  ins_cases; [done|]. by eapply Hinv.
Qed.

Lemma cpu_inv_same s s' T h t' c e :
  cpu_inv s T -> cpus s' = cpus s -> eflags s' = eflags s ->
  cpus s !! h = Some c -> eflags s !! h = Some e ->
  ncli c = Z.of_nat (length (held t')) + busy t' ->
  (0 < ncli c -> Z.land e FL_IF = 0) -> NoDup (held t') -> pc_ok t' ->
  cpu_inv s' (<[h := t']> T).
Proof.
  intros Hinv Hcs Hes Hc He. eapply cpu_inv_update; try done; by rewrite list_insert_id.
Qed.

Lemma lock_inv_same s s' T h t t' :
  lock_inv s T -> locks s' = locks s -> T !! h = Some t ->
  (forall j, owns j t' <-> owns j t) -> held t' = held t ->
  lock_inv s' (<[h := t']> T).
Proof.
  intros Hinv Hls Ht Hown Hheld k l. rewrite Hls. intros Hl.
  destruct (Hinv k l Hl) as (H01 & H1 & Huniq & Hcpu & Hlc).
  split_and!; [done| | | |].
  4: { intros h1 Hh1. destruct (Hlc h1 Hh1) as [? HT1]. split; [done|].
       by apply lookup_lt_is_Some; rewrite length_insert; apply lookup_lt_is_Some. }
  - intros; ins_cases; [|by eauto]. eapply H1; [done|by apply Hown].
  - intros; ins_cases; try done; try by eauto.
    + symmetry. eapply Huniq; eauto. by apply Hown.
    + eapply Huniq; eauto. by apply Hown.
  - intros; ins_cases; [rewrite Hheld|]; by eauto.
Qed.

Lemma lock_inv_update s s' T h k l l' t t' :
  lock_inv s T -> locks s !! k = Some l -> locks s' = <[k := l']> (locks s) -> T !! h = Some t ->
  (forall j, j <> k -> owns j t' <-> owns j t) ->
  (forall j, j <> k -> j ∈ held t' <-> j ∈ held t) ->
  (forall h1 t1, h1 <> h -> T !! h1 = Some t1 -> ~ owns k t1) ->
  (locked l' = 0 \/ locked l' = 1) ->
  (owns k t' -> locked l' = 1) ->
  (k ∈ held t' <-> lcpu l' = Some h) ->
  (forall h1, lcpu l' = Some h1 -> h1 = h /\ locked l' = 1) ->
  lock_inv s' (<[h := t']> T).
Proof.
  intros Hinv Hl Hls Ht Hown Hheld Hoth H01 Hl1 Hcpu Hlc j lj. rewrite Hls. intros Hlj.
  ins_cases.
  - split_and!; [done| | | |].
    4: { intros h1 [-> ?]%Hlc. split; [done|]. rewrite list_lookup_insert_eq; [by eexists|].
         by eapply lookup_lt_Some. }
    + intros; ins_cases; [by auto|]. exfalso. by eapply Hoth.
    + intros; ins_cases; try done; exfalso; by eapply Hoth.
    + intros; ins_cases; [done|]. split.
      * intros Hin. exfalso. eapply Hoth; [done|done|by left].
      * intros [? _]%Hlc. congruence.
  - destruct (Hinv j lj) as (J01 & J1 & Juniq & Jcpu & Jlc); [done|].
    split_and!; [done| | | |].
    4: { intros h1 Hh1. destruct (Jlc h1 Hh1) as [? HT1]. split; [done|].
         by apply lookup_lt_is_Some; rewrite length_insert; apply lookup_lt_is_Some. }
    + intros; ins_cases; [|by eauto]. eapply J1; [done|by apply Hown].
    + intros; ins_cases; try done; try by eauto.
      * symmetry. eapply Juniq; eauto. by apply Hown.
      * eapply Juniq; eauto. by apply Hown.
    + intros; ins_cases; [rewrite Hheld by done|]; by eauto.
Qed.

Lemma spin_inv_cpu s T h t :
  spin_inv (s, T) -> T !! h = Some t ->
  exists c e, cpus s !! h = Some c /\ eflags s !! h = Some e /\
    ncli c = Z.of_nat (length (held t)) + busy t /\ 0 <= ncli c /\
    (0 < ncli c -> Z.land e FL_IF = 0) /\ NoDup (held t) /\ pc_ok t.
Proof.
  intros ([Hlen _] & HT & _ & Hcpu & _) Ht. simpl in *.
  pose proof (lookup_lt_Some _ _ _ Ht) as Hh.
  destruct (lookup_lt_is_Some_2 (cpus s) h) as [c Hc]; [lia|].
  destruct (lookup_lt_is_Some_2 (eflags s) h) as [e He]; [lia|].
  destruct (Hcpu h c e t) as (Hn & Hif & Hnd & Hpc); try done.
  exists c, e. split_and!; try done. unfold busy in *. destruct (pc t); lia.
Qed.

Lemma others_not_own s T h t k l :
  lock_inv s T -> locks s !! k = Some l -> T !! h = Some t -> owns k t ->
  forall h1 t1, h1 <> h -> T !! h1 = Some t1 -> ~ owns k t1.
Proof.
  intros Hinv Hl Ht Ho h1 t1 Hne Ht1 Ho1. destruct (Hinv k l Hl) as (_ & _ & Hu & _). eauto.
Qed.

Lemma filter_not_in (hs : list nat) k : k ∉ hs -> filter (fun j => j <> k) hs = hs.
Proof.
  induction hs as [|x hs IH]; [done|]. intros [Hx Hk]%not_elem_of_cons.
  rewrite filter_cons_True by congruence. f_equal. by apply IH.
Qed.

Lemma held_length_filter (hs : list nat) k :
  NoDup hs -> k ∈ hs -> length hs = S (length (filter (fun j => j <> k) hs)).
Proof.
  induction 1 as [|x hs Hx Hnd IH]; [by intros ?%elem_of_nil|].
  intros [->|Hk]%elem_of_cons.
  - rewrite filter_cons_False, filter_not_in by naive_solver. done.
  - rewrite filter_cons_True by congruence. simpl. f_equal. by apply IH.
Qed.

Lemma owns_spinning j k v hs : owns j (Thread hs (Spinning k v)) <-> owns j (Thread hs Running).
Proof. unfold owns; simpl. naive_solver. Qed.

Lemma step_acquire_inv h k v s T hs s' :
  spin_inv (s, T) -> T !! h = Some (Thread hs Running) -> acquire_begin h k s = Ret tt s' ->
  spin_inv (s', <[h := Thread hs (Spinning k v)]> T).
Proof.
  intros Hinv HT Hrun.
  destruct (spin_inv_cpu _ _ _ _ Hinv HT) as (c & e & Hc & He & Hn & Hn0 & Hif & Hnd & Hpc).
  destruct Hinv as (Htab & Hlen & Hb & Hcpu & Hlock). simpl in *.
  destruct (acquire_begin_inv h k s s' c e) as [-> (l & Hl & Hnh)]; try done.
  assert (Hk : k ∉ hs).
  { intros Hk. destruct (Hlock k l Hl) as (_ & H1 & _ & Hcp & _).
    specialize (H1 _ _ HT (or_introl Hk)). apply (Hcp _ _ HT) in Hk. destruct Hnh; [lia|done]. }
  split_and!; simpl.
  - by apply after_push_table_ok.
  - by rewrite !length_insert.
  - intros; ins_cases; [|by eauto]. eapply Hb; [done|]. by apply owns_spinning in H0.
  - eapply cpu_inv_update; [done|done|done|simpl; unfold busy in *; simpl in *; lia| |done|done].
    intros _. apply ldiff_IF.
  - eapply lock_inv_same; try done. intros j. apply owns_spinning.
Qed.

Lemma step_spin_inv k s T s' :
  spin_inv (s, T) -> acquire_try k s = Ret false s' -> s' = s.
Proof.
  intros (_ & _ & _ & _ & Hlock) Hrun. apply acquire_try_inv in Hrun as (l & Hl & Hb & ->).
  symmetry in Hb. apply Z.eqb_neq in Hb. destruct (Hlock k l Hl) as ([H|H] & _); [done|].
  destruct s as [cs es ls m], l as [w n o p]; simpl in *. subst w.
  unfold set_locks, set_locked; simpl. by rewrite list_insert_id.
Qed.

Lemma step_win_inv h k v s T hs s' :
  spin_inv (s, T) -> T !! h = Some (Thread hs (Spinning k v)) -> acquire_try k s = Ret true s' ->
  spin_inv (s', <[h := Thread hs (Acquired k v)]> T).
Proof.
  intros Hinv HT Hrun.
  destruct (spin_inv_cpu _ _ _ _ Hinv HT) as (c & e & Hc & He & Hn & Hn0 & Hif & Hnd & Hpc).
  destruct Hinv as (Htab & Hlen & Hb & Hcpu & Hlock). simpl in *.
  apply acquire_try_inv in Hrun as (l & Hl & Hz & ->). symmetry in Hz. apply Z.eqb_eq in Hz.
  destruct (Hlock k l Hl) as (H01 & H1 & Huniq & Hk & Hlc).
  assert (Hfree : forall h1 t1, T !! h1 = Some t1 -> ~ owns k t1).
  { intros h1 t1 Ht1 Ho. specialize (H1 _ _ Ht1 Ho). lia. }
  split_and!; simpl.
  - done.
  - by rewrite !length_insert.
  - rewrite length_insert. intros h1 t1 j Ht1 Ho; ins_cases; [|by eauto].
    destruct Ho as [Ho|[[? Ho]|Ho]]; simpl in Ho; simplify_eq; [eapply Hb; [done|by left]|].
    by eapply lookup_lt_Some.
  - by eapply cpu_inv_same.
  - eapply lock_inv_update; try done; simpl.
    + intros j Hj. unfold owns; simpl. naive_solver.
    + eauto.
    + by right.
    + split; [done|]. intros Hlk. destruct (Hlc _ Hlk). lia.
    + intros h1 Hlk. destruct (Hlc _ Hlk). lia.
Qed.

Lemma step_record_inv h k v s T hs s' :
  spin_inv (s, T) -> T !! h = Some (Thread hs (Acquired k v)) -> acquire_end h k v s = Ret tt s' ->
  spin_inv (s', <[h := Thread (k :: hs) Running]> T).
Proof.
  intros Hinv HT Hrun.
  destruct (spin_inv_cpu _ _ _ _ Hinv HT) as (c & e & Hc & He & Hn & Hn0 & Hif & Hnd & Hpc).
  destruct Hinv as (Htab & Hlen & Hb & Hcpu & Hlock). simpl in *. unfold busy in Hn; simpl in Hn.
  assert (Hown : owns k (Thread hs (Acquired k v))) by (right; left; by exists v).
  destruct (lookup_lt_is_Some_2 (locks s) k) as [l Hl]; [by eauto|].
  apply acquire_end_inv with (e := e) (l := l) in Hrun as ->;
    [|done|by eapply lookup_lt_Some|done|apply Hif; lia|done].
  destruct (Hlock k l Hl) as (H01 & H1 & _). specialize (H1 _ _ HT Hown).
  split_and!; simpl.
  - done.
  - by rewrite !length_insert.
  - rewrite length_insert. intros h1 t1 j Ht1 Ho; ins_cases; [|by eauto].
    destruct Ho as [Ho|[[? Ho]|Ho]]; simpl in Ho; try done.
    apply elem_of_cons in Ho as [->|Ho]; [by eauto|]. eapply Hb; [done|by left].
  - eapply cpu_inv_same; try done; [unfold busy; simpl; lia|by constructor].
  - eapply lock_inv_update; try done; simpl.
    + intros j Hj. unfold owns; simpl. rewrite elem_of_cons. naive_solver.
    + intros j Hj. rewrite elem_of_cons. naive_solver.
    + by eapply others_not_own.
    + split; [done|]. intros _. apply elem_of_cons. by left.
    + by intros h1 [= ->].
Qed.

Lemma step_release_inv h k s T hs s' :
  spin_inv (s, T) -> T !! h = Some (Thread hs Running) -> release_begin h k s = Ret tt s' ->
  spin_inv (s', <[h := Thread (filter (fun j => j <> k) hs) (Releasing k)]> T).
Proof.
  intros Hinv HT Hrun.
  destruct (spin_inv_cpu _ _ _ _ Hinv HT) as (c & e & Hc & He & Hn & Hn0 & Hif & Hnd & Hpc).
  destruct Hinv as (Htab & Hlen & Hb & Hcpu & Hlock). simpl in *. unfold busy in Hn; simpl in Hn.
  destruct (release_begin_inv h k s s' c e) as (l & Hl & Hl1 & Hlh & Hnpos & ->); try done.
  { intros Hz l Hl Hlh. destruct (Hlock k l Hl) as (_ & _ & _ & Hk & _).
    apply (Hk _ _ HT) in Hlh. destruct hs; [by apply elem_of_nil in Hlh|simpl in *; lia]. }
  destruct (Hlock k l Hl) as (H01 & H1 & _ & Hk & _).
  pose proof (proj2 (Hk _ _ HT) Hlh) as Hin. simpl in Hin.
  split_and!; simpl.
  - done.
  - by rewrite !length_insert.
  - rewrite length_insert. intros h1 t1 j Ht1 Ho; ins_cases; [|by eauto].
    destruct Ho as [[_ Ho]%list_elem_of_filter|[[? Ho]|Ho]]; simpl in Ho; simplify_eq;
      (eapply Hb; [done|by left]).
  - eapply cpu_inv_same; try done; simpl.
    + rewrite (held_length_filter hs k) in Hn by done. unfold busy; simpl. lia.
    + by apply list.NoDup_filter.
    + intros [? _]%list_elem_of_filter. done.
  - eapply lock_inv_update; try done; simpl.
    + intros j Hj. unfold owns; simpl. rewrite list_elem_of_filter. naive_solver.
    + intros j Hj. rewrite list_elem_of_filter. naive_solver.
    + eapply others_not_own; [done|done|done|by left].
    + intros _. destruct H01; [done|done].
    + split; [|done]. by intros [? _]%list_elem_of_filter.
Qed.

Lemma step_store_inv h k s T hs s' :
  spin_inv (s, T) -> T !! h = Some (Thread hs (Releasing k)) -> release_end h k s = Ret tt s' ->
  spin_inv (s', <[h := Thread hs Running]> T).
Proof.
  intros Hinv HT Hrun.
  destruct (spin_inv_cpu _ _ _ _ Hinv HT) as (c & e & Hc & He & Hn & Hn0 & Hif & Hnd & Hpc).
  destruct Hinv as (Htab & Hlen & Hb & Hcpu & Hlock). simpl in *. unfold busy in Hn; simpl in Hn.
  assert (Hown : owns k (Thread hs (Releasing k))) by (right; by right).
  destruct (lookup_lt_is_Some_2 (locks s) k) as [l Hl]; [by eauto|].
  apply release_end_inv with (c := c) (e := e) (l := l) in Hrun as ->;
    [|done|done|done|apply Hif; lia|lia|done].
  destruct (Hlock k l Hl) as (H01 & H1 & _ & Hk & Hlc).
  assert (Hlk : lcpu l <> Some h). { intros Heq. apply (Hk _ _ HT) in Heq. by apply Hpc. }
  set (e' := if (ncli c - 1 =? 0) && negb (intena c =? 0) then Z.lor e FL_IF else e).
  assert (Hes : (if (ncli c - 1 =? 0) && negb (intena c =? 0) then <[h := Z.lor e FL_IF]> (eflags s) else eflags s)
    = <[h := e']> (eflags s)).
  { subst e'. destruct (_ && _); [done|]. by rewrite list_insert_id. }
  unfold after_pop. simpl. rewrite Hes. split_and!; simpl.
  - apply (table_ok_eflags (set_cpus (<[h := popped c]> (cpus s))
      (set_locks (<[k := set_locked 0 l]> (locks s)) s))).
    by apply (table_ok_cpus (set_locks (<[k := set_locked 0 l]> (locks s)) s) h c).
  - by rewrite !length_insert.
  - rewrite length_insert. intros h1 t1 j Ht1 Ho; ins_cases; [|by eauto].
    destruct Ho as [Ho|[[? Ho]|Ho]]; simpl in Ho; try done. eapply Hb; [done|by left].
  - eapply cpu_inv_update; try done; simpl; [unfold busy; simpl; lia|].
    intros Hpos. subst e'. destruct (Z.eqb_spec (ncli c - 1) 0); [lia|]. apply Hif. lia.
  - eapply lock_inv_update; try done; simpl.
    + intros j Hj. unfold owns; simpl. naive_solver.
    + by eapply others_not_own.
    + by left.
    + intros [Ho|[[? Ho]|Ho]]; simpl in Ho; done.
    + intros h1 Hlh. destruct (decide (h1 = h)) as [->|Hne]; [done|]. exfalso.
      destruct (Hlc h1 Hlh) as [_ [t1 Ht1]]. apply (Hk _ _ Ht1) in Hlh.
      eapply (others_not_own s T h); try done. by left.
Qed.

Lemma spin_inv_step c c' : spin_inv c -> cpu_step c c' -> spin_inv c'.
Proof.
  intros Hinv Hstep. destruct Hstep as
    [h k v s T hs s' HT Hr|h k v s T hs s' HT Hr|h k v s T hs s' HT Hr|h k v s T hs s' HT Hr
    |h k s T hs s' HT Hr|h k s T hs s' HT Hr|h s T s' HT Hr].
  - by eapply step_acquire_inv.
  - apply step_spin_inv with (T := T) in Hr as ->; done.
  - by eapply step_win_inv.
  - by eapply step_record_inv.
  - by eapply step_release_inv.
  - by eapply step_store_inv.
  - destruct (spin_inv_cpu _ _ _ _ Hinv HT) as (c & e & Hc & He & Hn & _).
    destruct Hinv as (Htab & Hlen & Hb & Hcpu & Hlock). simpl in *. unfold busy in Hn; simpl in Hn.
    unfold sti in Hr. munfold. rewrite (alter_insert _ _ _ e) in Hr by done. simplify_eq.
    split_and!; simpl; try done; [by apply table_ok_eflags|].
    intros h1 c1 e1 t1 Hc1 He1 Ht1. simpl in *. ins_cases; [|by eapply Hcpu].
    edestruct Hcpu as (Hn1 & _ & ?); [exact Hc|exact He|exact HT|].
    split; [done|]. split; [|done]. unfold busy in *; simpl in *. lia.
Qed.

Lemma spin_inv_reachable c c' : spin_inv c -> rtc cpu_step c c' -> spin_inv c'.
Proof. intros Hc Hr. induction Hr; eauto using spin_inv_step. Qed.

(** The machine at boot: no lock held, no nesting. *)
Definition boot (s : machine) (n : nat) : Prop :=
  table_ok s /\ length (cpus s) = n /\
  Forall (fun c => ncli c = 0) (cpus s) /\
  Forall (fun l => locked l = 0 /\ lcpu l = None) (locks s).

Lemma spin_inv_boot s n : boot s n -> spin_inv (s, replicate n (Thread [] Running)).
Proof.
  intros (Htab & Hn & Hc & Hl). rewrite list.Forall_forall in Hc. rewrite list.Forall_forall in Hl.
  assert (Hno : forall k, ~ owns k (Thread [] Running)).
  { intros k [Ho|[[? Ho]|Ho]]; simpl in Ho; try done. by apply elem_of_nil in Ho. }
  split_and!; simpl; try done.
  - by rewrite length_replicate.
  - intros h t k [-> _]%lookup_replicate Ho. by apply Hno in Ho.
  - intros h c e t Hhc _ [-> _]%lookup_replicate. simpl.
    rewrite (Hc c) by by eapply list_elem_of_lookup_2. split_and!; try done. constructor.
  - intros k l Hkl. destruct (Hl l) as [H0 HN]; [by eapply list_elem_of_lookup_2|].
    split_and!; rewrite ?HN; try done; [by left|..].
    + intros h t [-> _]%lookup_replicate Ho. by apply Hno in Ho.
    + intros h h' t t' [-> _]%lookup_replicate _ Ho. by apply Hno in Ho.
    + intros h t [-> _]%lookup_replicate. simpl. rewrite elem_of_nil. done.
Qed.

(** ** Properties *)

(** C27: mutual exclusion. However the CPUs interleave their turns of acquire
    and release, from boot two CPUs never both hold the same lock; and a CPU
    that holds a lock, or is between the two halves of acquire or release, has
    its interrupts disabled and its pushcli depth equal to the number of locks
    it holds or is taking. *)
Theorem spinlock_mutual_exclusion (s0 : machine) (n : nat) (s : machine) (T : list thread) :
  boot s0 n -> rtc cpu_step (s0, replicate n (Thread [] Running)) (s, T) ->
  (forall k h1 h2 t1 t2, T !! h1 = Some t1 -> T !! h2 = Some t2 ->
     k ∈ held t1 -> k ∈ held t2 -> h1 = h2) /\
  (forall h t c e, T !! h = Some t -> cpus s !! h = Some c -> eflags s !! h = Some e ->
     ncli c = Z.of_nat (length (held t)) + busy t /\
     (0 < ncli c -> Z.land e FL_IF = 0)).
Proof.
  intros Hb Hr. apply spin_inv_boot in Hb. apply (spin_inv_reachable _ _ Hb) in Hr.
  destruct Hr as (_ & _ & Hlen & Hcpu & Hlock). simpl in *. split.
  - intros k h1 h2 t1 t2 Ht1 Ht2 Hk1 Hk2.
    destruct (lookup_lt_is_Some_2 (locks s) k) as [l Hl].
    { eapply Hlen; [exact Ht1|by left]. }
    destruct (Hlock k l Hl) as (_ & _ & Hu & _). eapply Hu; try done; by left.
  - intros h t c e Ht Hc He. destruct (Hcpu h c e t) as (Hn & Hif & _); done.
Qed.

(** CPU [h] is at pushcli depth [d], with [i] recorded in [intena] and [w]
    in the interrupt bit of its flags. *)
Definition cpu_at (h : nat) (d i w : Z) (s : machine) : Prop :=
  table_ok s /\ exists c e, cpus s !! h = Some c /\ eflags s !! h = Some e /\
    ncli c = d /\ intena c = i /\ Z.land e FL_IF = w.

Lemma land_IF_cases e : Z.land e FL_IF = 0 \/ Z.land e FL_IF = FL_IF.
Proof.
  assert (H : Z.land e FL_IF = if Z.testbit e 9 then FL_IF else 0).
  { apply Z.bits_inj'. intros i Hi. rewrite Z.land_spec. change FL_IF with (2 ^ 9).
    rewrite Z.pow2_bits_eqb by lia. destruct (Z.eqb_spec 9 i) as [<-|Hne].
    - destruct (Z.testbit e 9); [by rewrite Z.pow2_bits_true|by rewrite Z.bits_0].
    - rewrite andb_false_r. destruct (Z.testbit e 9); [by rewrite Z.pow2_bits_false|by rewrite Z.bits_0]. }
  rewrite H. destruct (Z.testbit e 9); auto.
Qed.

Lemma pushcli_at h d i w s :
  0 <= d -> cpu_at h d i w s ->
  wp (pushcli h) s (fun _ s' => cpu_at h (d + 1) (if d =? 0 then w else i) 0 s').
Proof.
  intros Hd (Htab & c & e & Hc & He & Hn & Hi & Hw).
  eapply wp_intro; [by apply pushcli_run|]. split; [by apply after_push_table_ok|].
  pose proof (lookup_lt_Some _ _ _ Hc). pose proof (lookup_lt_Some _ _ _ He).
  exists (pushed e c), (Z.ldiff e FL_IF). simpl. rewrite !list_lookup_insert_eq by done.
  rewrite Hn, Hw, Hi. split_and!; try done. apply ldiff_IF.
Qed.

Lemma popcli_at h d i s :
  1 <= d -> i = 0 \/ i = FL_IF -> cpu_at h d i 0 s ->
  wp (popcli h) s (fun _ s' => cpu_at h (d - 1) i (if d =? 1 then i else 0) s').
Proof.
  intros Hd Hi01 (Htab & c & e & Hc & He & Hn & Hi & Hw).
  eapply wp_intro; [apply (popcli_run h s c e); try done; lia|].
  pose proof (lookup_lt_Some _ _ _ Hc). pose proof (lookup_lt_Some _ _ _ He).
  pose proof (table_ok_cpus s h c (popped c) Htab Hc eq_refl) as Ht.
  unfold after_pop. rewrite Hn, Hi.
  destruct (Z.eqb_spec (d - 1) 0), (Z.eqb_spec d 1), (Z.eqb_spec i 0) as [Hi0|Hi0]; try lia; simpl.
  all: split; [try done; by apply (table_ok_eflags (set_cpus (<[h := popped c]> (cpus s)) s))|].
  all: eexists (popped c), _; simpl; rewrite ?list_lookup_insert_eq by done; split_and!; try done; try lia.
  destruct Hi01; [done|]. subst i. by rewrite lor_IF.
Qed.

Lemma pushes_at h n d i s :
  1 <= d -> cpu_at h d i 0 s ->
  wp (mrepeat n (pushcli h)) s (fun _ s' => cpu_at h (d + Z.of_nat n) i 0 s').
Proof.
  revert d s; induction n as [|n IH]; intros d s Hd Hat; cbn [mrepeat].
  - apply wpe_ret. by rewrite Z.add_0_r.
  - apply wp_bind. eapply wp_mono; [|apply (pushcli_at h d i 0); [lia|done]].
    simpl. intros _ s' Hat'. destruct (Z.eqb_spec d 0); [lia|].
    replace (d + Z.of_nat (S n)) with (d + 1 + Z.of_nat n) by lia. apply IH; [lia|done].
Qed.

Lemma pops_at h n d i s :
  i = 0 \/ i = FL_IF -> Z.of_nat n < d -> cpu_at h d i 0 s ->
  wp (mrepeat n (popcli h)) s (fun _ s' => cpu_at h (d - Z.of_nat n) i 0 s').
Proof.
  intros Hi. revert d s; induction n as [|n IH]; intros d s Hd Hat; cbn [mrepeat].
  - apply wpe_ret. by rewrite Z.sub_0_r.
  - apply wp_bind. eapply wp_mono; [|apply (popcli_at h d i); [lia|done|done]].
    simpl. intros _ s' Hat'. destruct (Z.eqb_spec d 1); [lia|].
    replace (d - Z.of_nat (S n)) with (d - 1 - Z.of_nat n) by lia. apply IH; [lia|done].
Qed.

Lemma push_all h n i w s :
  cpu_at h 0 i w s ->
  wp (mrepeat (S n) (pushcli h)) s (fun _ s' => cpu_at h (Z.of_nat (S n)) w 0 s').
Proof.
  intros Hat. cbn [mrepeat]. apply wp_bind.
  eapply wp_mono; [|apply (pushcli_at h 0 i w); [lia|done]]. simpl. intros _ s' Hat'.
  eapply wp_mono; [|apply (pushes_at h n 1 w); [lia|done]]. simpl. intros _ s''.
  by replace (1 + Z.of_nat n) with (Z.of_nat (S n)) by lia.
Qed.

(** pushcli and popcli nest. From depth 0, after [S n] calls of pushcli
    and any [k <= n] calls of popcli the CPU's interrupts are off and its
    depth is what is left; only the last matching popcli restores the
    interrupt flag, to the value it had before the first pushcli. None of the
    calls panics. *)
Theorem pushcli_popcli_nest (h n k : nat) (i w : Z) (s : machine) :
  cpu_at h 0 i w s -> (k <= n)%nat ->
  wp (mrepeat (S n) (pushcli h) ;; mrepeat k (popcli h)) s
    (fun _ s' => cpu_at h (Z.of_nat (S n) - Z.of_nat k) w 0 s') /\
  wp (mrepeat (S n) (pushcli h) ;; mrepeat (S n) (popcli h)) s
    (fun _ s' => cpu_at h 0 w w s').
Proof.
  intros Hat Hk.
  assert (Hw : w = 0 \/ w = FL_IF).
  { destruct Hat as (_ & c & e & _ & _ & _ & _ & <-). apply land_IF_cases. }
  split; apply wp_bind; (eapply wp_mono; [|by apply (push_all h n i w)]); cbv beta; intros _ s1 Hat1.
  - apply pops_at; [done|lia|done].
  - replace (mrepeat (S n) (popcli h)) with (mrepeat (n + 1) (popcli h))
      by (f_equal; lia).
    apply wpe_mrepeat_add.
    eapply wp_mono; [|apply (pops_at h n (Z.of_nat (S n)) w); [done|lia|done]].
    intros [] s2 Hat2. replace (Z.of_nat (S n) - Z.of_nat n) with 1 in Hat2 by lia.
    change (wp (mrepeat 1 (popcli h)) s2 (fun _ s' => cpu_at h 0 w w s')). cbn [mrepeat].
    apply wp_bind. eapply wp_mono; [|apply (popcli_at h 1 w); [lia|exact Hw|exact Hat2]].
    intros [] s3 Hat3. by apply wpe_ret.
Qed.

End spin.

(** Two CPUs at boot, and one free lock. *)
Definition two_cpus : machine :=
  Machine [Cpu 0 0 0 None; Cpu 1 0 0 None] [FL_IF; FL_IF] [SpinLock 0 "l" None []] (fun _ => 0).

Definition one_holds : machine :=
  Machine [Cpu 0 1 FL_IF None; Cpu 1 0 0 None] [0; FL_IF] [SpinLock 1 "l" (Some 0%nat) (replicate 10 0)]
    (fun _ => 0).

Lemma two_cpus_boot : boot Z.of_nat two_cpus 2.
Proof.
  split_and!; try done; [|by repeat constructor..].
  split; [done|]. intros h Hh. simpl in Hh. destruct h as [|[|h]]; [done|done|lia].
Qed.

(** CPU 0 takes the lock: it holds it alone, with interrupts off at depth 1. *)
Lemma spinlock_mutual_exclusion_witness :
  (forall k h1 h2 t1 t2,
     [Thread [0%nat] Running; Thread [] Running] !! h1 = Some t1 ->
     [Thread [0%nat] Running; Thread [] Running] !! h2 = Some t2 ->
     k ∈ held t1 -> k ∈ held t2 -> h1 = h2) /\
  (forall h t c e, [Thread [0%nat] Running; Thread [] Running] !! h = Some t ->
     cpus one_holds !! h = Some c -> eflags one_holds !! h = Some e ->
     ncli c = Z.of_nat (length (held t)) + busy t /\ (0 < ncli c -> Z.land e FL_IF = 0)).
Proof.
  apply (spinlock_mutual_exclusion Z.of_nat two_cpus 2); [apply two_cpus_boot|].
  eapply rtc_l; [apply (step_acquire Z.of_nat 0 0 8); reflexivity|].
  eapply rtc_l; [apply (step_win Z.of_nat 0 0 8 _ _ []); reflexivity|].
  eapply rtc_l; [apply (step_record Z.of_nat 0 0 8 _ _ []); reflexivity|].
  apply rtc_refl.
Defined.

(** Three pushes and two pops on CPU 1, which had interrupts enabled. *)
Lemma pushcli_popcli_nest_witness :
  wp (mrepeat 3 (pushcli Z.of_nat 1) ;; mrepeat 2 (popcli Z.of_nat 1)) two_cpus
    (fun _ s' => cpu_at Z.of_nat 1 (Z.of_nat 3 - Z.of_nat 2) FL_IF 0 s') /\
  wp (mrepeat 3 (pushcli Z.of_nat 1) ;; mrepeat 3 (popcli Z.of_nat 1)) two_cpus
    (fun _ s' => cpu_at Z.of_nat 1 0 FL_IF FL_IF s').
Proof.
  apply (pushcli_popcli_nest Z.of_nat 1 2 2 0 FL_IF two_cpus); [|lia].
  split; [apply two_cpus_boot|]. exists (Cpu 1 0 0 None), FL_IF. repeat split.
Defined.
