(* ===== verification/Sleeplock.v ===== *)
(** Sleep locks: [sleeplock.c].

    A lock is long-term: a process that finds it taken goes to sleep with the
    lock as its channel. [sleep] releases the inner spin lock and, when the
    process is woken, takes it again and returns to the test of the loop, so
    a process that sleeps here resumes by calling acquiresleep again. *)

From S2P Require Import Prelude.

Open Scope Z_scope.

Record sleeplock := SleepLock {
  sl_locked : Z;
  sl_lk : bool;         (* the spin lock that protects the fields *)
  sl_name : string;
  sl_pid : Z;
  sl_wakeups : Z        (* calls of wakeup(lk) so far *)
}.

Definition set_sl_lk b l := SleepLock (sl_locked l) b (sl_name l) (sl_pid l) (sl_wakeups l).
Definition set_sl_locked v l := SleepLock v (sl_lk l) (sl_name l) (sl_pid l) (sl_wakeups l).
Definition set_sl_pid p l := SleepLock (sl_locked l) (sl_lk l) (sl_name l) p (sl_wakeups l).

Definition acquire_lk : M sleeplock unit :=
  l ← get; if sl_lk l then panic "acquire" else put (set_sl_lk true l).

Definition release_lk : M sleeplock unit :=
  l ← get; if sl_lk l then put (set_sl_lk false l) else panic "release".

Definition wakeup_lk : M sleeplock unit :=
  modify (fun l => SleepLock (sl_locked l) (sl_lk l) (sl_name l) (sl_pid l) (sl_wakeups l + 1)).

Definition initsleeplock (name : string) : M sleeplock unit :=
  modify (fun l => SleepLock 0 false name 0 (sl_wakeups l)).

(** [me] is [myproc()->pid]; [k] names the lock as a sleep channel. *)
Definition acquiresleep (me : Z) (k : nat) : M sleeplock unit :=
  acquire_lk ;;
  l ← get;
  if negb (sl_locked l =? 0) then
    release_lk ;; sleeps (ch_lock k)     (* sleep(lk, &lk->lk) *)
  else
    modify (set_sl_locked 1) ;;
    modify (set_sl_pid me) ;;
    release_lk.

Definition releasesleep : M sleeplock unit :=
  acquire_lk ;;
  modify (set_sl_locked 0) ;;
  modify (set_sl_pid 0) ;;
  wakeup_lk ;;
  release_lk.

Definition holdingsleep (me : Z) : M sleeplock bool :=
  acquire_lk ;;
  l ← get;
  let r := negb (sl_locked l =? 0) && (sl_pid l =? me) in
  release_lk ;;
  mret r.

(** ** What the operations do when the inner spin lock is free *)

Definition sl_held (me : Z) (l : sleeplock) : Prop := sl_locked l = 1 /\ sl_pid l = me.

Lemma acquiresleep_free me k l :
  sl_lk l = false -> sl_locked l = 0 ->
  acquiresleep me k l = Ret tt (SleepLock 1 false (sl_name l) me (sl_wakeups l)).
Proof. destruct l; simpl. by intros -> ->. Qed.

Lemma acquiresleep_taken me k l :
  sl_lk l = false -> sl_locked l <> 0 -> acquiresleep me k l = Stop (Sleeping (ch_lock k)) l.
Proof.
  destruct l as [v lk n p w]; simpl. intros -> Hv. unfold acquiresleep, acquire_lk, release_lk.
  munfold. destruct (Z.eqb_spec v 0); [done|]. done.
Qed.

Lemma releasesleep_run l :
  sl_lk l = false ->
  releasesleep l = Ret tt (SleepLock 0 false (sl_name l) 0 (sl_wakeups l + 1)).
Proof. destruct l; simpl. by intros ->. Qed.

Lemma holdingsleep_run me l :
  sl_lk l = false ->
  holdingsleep me l = Ret (negb (sl_locked l =? 0) && (sl_pid l =? me)) l.
Proof. destruct l; simpl. by intros ->. Qed.

Lemma holdingsleep_held me l :
  sl_lk l = false -> sl_held me l -> holdingsleep me l = Ret true l.
Proof.
  intros Hlk [H1 H2]. rewrite holdingsleep_run, H1, H2, Z.eqb_refl by done. done.
Qed.
