(* ===== verification/Vm.v ===== *)
(** Virtual memory: the page tables and address spaces of [vm.c].

    Page directories and page tables live in the pages of [Kalloc]: a page
    table entry is a word of the memory that the kernel sees, and walking a
    table is a sequence of loads. The segment descriptors and the task state of
    each CPU, and the registers that point to them, are tables of their own. *)

From S2P Require Import Prelude Mem Mmu Kalloc Spinlock.

Open Scope Z_scope.

(** The fields of struct cpu that the segment code writes: its descriptors
    and its task state (struct taskstate). *)
Record hwcpu := HwCpu {
  gdt : list segdesc;       (* cpu.gdt *)
  ts_esp0 : Z;              (* cpu.ts.esp0 *)
  ts_ss0 : Z;               (* cpu.ts.ss0 *)
  ts_iomb : Z               (* cpu.ts.iomb *)
}.

(** The registers of a CPU that lgdt, ltr and lcr3 load. *)
Record hwregs := HwRegs {
  gdtr : nat * Z;           (* the CPU whose gdt is loaded, and its size *)
  tr : Z;
  cr3 : Z
}.

Definition set_gdt v c := HwCpu v (ts_esp0 c) (ts_ss0 c) (ts_iomb c).
Definition set_ts_ss0 v c := HwCpu (gdt c) (ts_esp0 c) v (ts_iomb c).
Definition set_ts_esp0 v c := HwCpu (gdt c) v (ts_ss0 c) (ts_iomb c).
Definition set_ts_iomb v c := HwCpu (gdt c) (ts_esp0 c) (ts_ss0 c) v.
Definition set_gdtr v r := HwRegs v (tr r) (cr3 r).
Definition set_tr v r := HwRegs (gdtr r) v (cr3 r).
Definition set_cr3 v r := HwRegs (gdtr r) (tr r) v.

Record vmstate := VmState {
  vkm : kmem;
  kpgdir : Z;               (* the page table of the scheduler *)
  vmach : machine;          (* interrupts and the cpus table *)
  hwcpus : list hwcpu;      (* gdt and ts of each entry of cpus *)
  hwreg : list hwregs       (* the registers of each CPU *)
}.

Definition vkm_lens : lens vmstate kmem :=
  Lens vkm (fun k s => VmState k (kpgdir s) (vmach s) (hwcpus s) (hwreg s)).
Definition vmach_lens : lens vmstate machine :=
  Lens vmach (fun m s => VmState (vkm s) (kpgdir s) m (hwcpus s) (hwreg s)).
Definition set_kpgdir v s := VmState (vkm s) v (vmach s) (hwcpus s) (hwreg s).
Definition upd_hwcpu i f s := VmState (vkm s) (kpgdir s) (vmach s) (alter f i (hwcpus s)) (hwreg s).
Definition upd_hwreg h f s := VmState (vkm s) (kpgdir s) (vmach s) (hwcpus s) (alter f h (hwreg s)).

Definition sizeof_taskstate : Z := 104.

(** [gdt[i].s = v] *)
Definition set_sd_s v d :=
  SegDesc (lim_15_0 d) (base_15_0 d) (base_23_16 d) (sd_type d) v (sd_dpl d) (sd_p d) (lim_19_16 d)
    (sd_avl d) (sd_rsv1 d) (sd_db d) (sd_g d) (base_31_24 d).

(** One entry of the table of kernel mappings. *)
Record kmap := KMap {
  virt : Z;
  phys_start : Z;
  phys_end : Z;
  kperm : Z
}.

Section vm.
(** Link-time addresses: the end of the kernel and the start of its data. *)
Variable kend : Z.
Variable data : Z.
(** The console, which is no part of memory. *)
Variable cprintf : string -> M kmem unit.

Definition load (a : Z) : M kmem Z := gets (fun s => load32 (phys s) a).
Definition store (a v : Z) : M kmem unit := modify (fun s => set_phys (store32 (phys s) a v) s).
Definition kmemset (dst c n : Z) : M kmem unit :=
  modify (fun s => set_phys (memset (phys s) dst c n) s).
Definition kmemmove (dst src n : Z) : M kmem unit :=
  modify (fun s => set_phys (memmove (phys s) dst src n) s).

(** ** vm.c *)

Definition present (e : Z) : bool := negb (Z.land e PTE_P =? 0).

(** Returns the address of the entry, 0 when there is no page table. *)
Definition walkpgdir (pgdir va : Z) (alloc : bool) : M kmem Z :=
  let pde := pgdir + 4 * PDX va in
  e ← load pde;
  if present e then mret (P2V (PTE_ADDR e) + 4 * PTX va)
  else if negb alloc then mret 0
  else
    pgtab ← kalloc;
    if pgtab =? 0 then mret 0
    else
      kmemset pgtab 0 PGSIZE ;;
      store pde (Z.lor (Z.lor (Z.lor (V2P pgtab) PTE_P) PTE_W) PTE_U) ;;
      mret (pgtab + 4 * PTX va).

Fixpoint mappages_loop (fuel : nat) (pgdir a last pa perm : Z) : M kmem Z :=
  match fuel with
  | O => out_of_fuel
  | S fuel =>
      pte ← walkpgdir pgdir a true;
      if pte =? 0 then mret (-1)
      else
        e ← load pte;
        if present e then panic "remap"
        else
          store pte (Z.lor (Z.lor pa perm) PTE_P) ;;
          if a =? last then mret 0
          else mappages_loop fuel pgdir (u32 (a + PGSIZE)) last (u32 (pa + PGSIZE)) perm
  end.

Definition mappages (pgdir va size pa perm : Z) : M kmem Z :=
  let a := PGROUNDDOWN va in
  let last := PGROUNDDOWN (u32 (va + size - 1)) in
  mappages_loop (S (Z.to_nat (u32 (last - a) / PGSIZE))) pgdir a last pa perm.

Definition kmaps : list kmap :=
  [ KMap KERNBASE 0 EXTMEM PTE_W;                      (* I/O space *)
    KMap KERNLINK (V2P KERNLINK) (V2P data) 0;         (* kern text+rodata *)
    KMap data (V2P data) PHYSTOP PTE_W;                (* kern data+memory *)
    KMap DEVSPACE DEVSPACE 0 PTE_W ].                  (* more devices *)

(** The loop of deallocuvm, from page [a]. *)
Fixpoint deallocuvm_loop (fuel : nat) (pgdir a oldsz : Z) : M kmem unit :=
  match fuel with
  | O => out_of_fuel
  | S fuel =>
      if a <? oldsz then
        pte ← walkpgdir pgdir a false;
        if pte =? 0 then
          let a := u32 (PGADDR (PDX a + 1) 0 0 - PGSIZE) in
          deallocuvm_loop fuel pgdir (u32 (a + PGSIZE)) oldsz
        else
          e ← load pte;
          (if present e then
             let pa := PTE_ADDR e in
             if pa =? 0 then panic "kfree"
             else kfree kend (P2V pa) ;; store pte 0
           else mret tt) ;;
          deallocuvm_loop fuel pgdir (u32 (a + PGSIZE)) oldsz
      else mret tt
  end.

Definition deallocuvm (pgdir oldsz newsz : Z) : M kmem Z :=
  if oldsz <=? newsz then mret (i32 oldsz)
  else
    deallocuvm_loop (S (Z.to_nat (oldsz / PGSIZE + 1))) pgdir (PGROUNDUP newsz) oldsz ;;
    mret (i32 newsz).

Definition freevm (pgdir : Z) : M kmem unit :=
  if pgdir =? 0 then panic "freevm: no pgdir"
  else
    deallocuvm pgdir KERNBASE 0 ;;
    for_each (seqZ 0 NPDENTRIES) (fun i =>
      e ← load (pgdir + 4 * i);
      when (present e) (kfree kend (P2V (PTE_ADDR e)))) ;;
    kfree kend pgdir.

Fixpoint setupkvm_loop (ks : list kmap) (pgdir : Z) : M kmem Z :=
  match ks with
  | [] => mret pgdir
  | k :: ks =>
      r ← mappages pgdir (virt k) (u32 (phys_end k - phys_start k)) (phys_start k) (kperm k);
      if r <? 0 then freevm pgdir ;; mret 0
      else setupkvm_loop ks pgdir
  end.

Definition setupkvm : M kmem Z :=
  pgdir ← kalloc;
  if pgdir =? 0 then mret 0
  else
    kmemset pgdir 0 PGSIZE ;;
    if DEVSPACE <? P2V PHYSTOP then panic "PHYSTOP too high"
    else setupkvm_loop kmaps pgdir.

Definition inituvm (pgdir init sz : Z) : M kmem unit :=
  if PGSIZE <=? sz then panic "inituvm: more than a page"
  else
    mem ← kalloc;
    kmemset mem 0 PGSIZE ;;
    mappages pgdir 0 PGSIZE (V2P mem) (Z.lor PTE_W PTE_U) ;;
    kmemmove mem init sz.

(** [readi dst off n] reads from the inode that loaduvm is given. *)
Fixpoint loaduvm_loop (readi : Z -> Z -> Z -> M kmem Z) (fuel : nat)
    (pgdir addr offset sz i : Z) : M kmem Z :=
  match fuel with
  | O => out_of_fuel
  | S fuel =>
      if i <? sz then
        pte ← walkpgdir pgdir (u32 (addr + i)) false;
        if pte =? 0 then panic "loaduvm: address should exist"
        else
          e ← load pte;
          let pa := PTE_ADDR e in
          let n := if sz - i <? PGSIZE then sz - i else PGSIZE in
          r ← readi (P2V pa) (u32 (offset + i)) n;
          if negb (r =? n) then mret (-1)
          else loaduvm_loop readi fuel pgdir addr offset sz (u32 (i + PGSIZE))
      else mret 0
  end.

Definition loaduvm (readi : Z -> Z -> Z -> M kmem Z) (pgdir addr offset sz : Z) : M kmem Z :=
  if negb (addr mod PGSIZE =? 0) then panic "loaduvm: addr must be page aligned"
  else loaduvm_loop readi (S (Z.to_nat (sz / PGSIZE + 1))) pgdir addr offset sz 0.

Fixpoint allocuvm_loop (fuel : nat) (pgdir a oldsz newsz : Z) : M kmem Z :=
  match fuel with
  | O => out_of_fuel
  | S fuel =>
      if a <? newsz then
        mem ← kalloc;
        if mem =? 0 then
          cprintf ("allocuvm out of memory" ++ nl) ;;
          deallocuvm pgdir newsz oldsz ;;
          mret 0
        else
          kmemset mem 0 PGSIZE ;;
          r ← mappages pgdir a PGSIZE (V2P mem) (Z.lor PTE_W PTE_U);
          if r <? 0 then
            cprintf ("allocuvm out of memory (2)" ++ nl) ;;
            deallocuvm pgdir newsz oldsz ;;
            kfree kend mem ;;
            mret 0
          else allocuvm_loop fuel pgdir (u32 (a + PGSIZE)) oldsz newsz
      else mret (i32 newsz)
  end.

Definition allocuvm (pgdir oldsz newsz : Z) : M kmem Z :=
  if KERNBASE <=? newsz then mret 0
  else if newsz <? oldsz then mret (i32 oldsz)
  else allocuvm_loop (S (Z.to_nat (newsz / PGSIZE + 1))) pgdir (PGROUNDUP oldsz) oldsz newsz.

Definition clearpteu (pgdir uva : Z) : M kmem unit :=
  pte ← walkpgdir pgdir uva false;
  if pte =? 0 then panic "clearpteu"
  else
    e ← load pte;
    store pte (Z.land e (u32 (Z.lnot PTE_U))).

(** The loop of copyuvm: [false] is a jump to [bad]. *)
Fixpoint copyuvm_loop (fuel : nat) (pgdir d sz i : Z) : M kmem bool :=
  match fuel with
  | O => out_of_fuel
  | S fuel =>
      if i <? sz then
        pte ← walkpgdir pgdir i false;
        if pte =? 0 then panic "copyuvm: pte should exist"
        else
          e ← load pte;
          if negb (present e) then panic "copyuvm: page not present"
          else
            let pa := PTE_ADDR e in
            let flags := PTE_FLAGS e in
            mem ← kalloc;
            if mem =? 0 then mret false
            else
              kmemmove mem (P2V pa) PGSIZE ;;
              r ← mappages d i PGSIZE (V2P mem) flags;
              if r <? 0 then kfree kend mem ;; mret false
              else copyuvm_loop fuel pgdir d sz (u32 (i + PGSIZE))
      else mret true
  end.

Definition copyuvm (pgdir sz : Z) : M kmem Z :=
  d ← setupkvm;
  if d =? 0 then mret 0
  else
    ok ← copyuvm_loop (S (Z.to_nat (sz / PGSIZE + 1))) pgdir d sz 0;
    if (ok : bool) then mret d
    else freevm d ;; mret 0.

(** The entry is read without a check that walkpgdir found a page table. *)
Definition uva2ka (pgdir uva : Z) : M kmem Z :=
  pte ← walkpgdir pgdir uva false;
  e ← load pte;
  if Z.land e PTE_P =? 0 then mret 0
  else if Z.land e PTE_U =? 0 then mret 0
  else mret (P2V (PTE_ADDR e)).

Fixpoint copyout_loop (fuel : nat) (pgdir va buf len : Z) : M kmem Z :=
  match fuel with
  | O => out_of_fuel
  | S fuel =>
      if 0 <? len then
        let va0 := PGROUNDDOWN va in
        pa0 ← uva2ka pgdir va0;
        if pa0 =? 0 then mret (-1)
        else
          let n := PGSIZE - (va - va0) in
          let n := if len <? n then len else n in
          kmemmove (pa0 + (va - va0)) buf n ;;
          copyout_loop fuel pgdir (u32 (va0 + PGSIZE)) (buf + n) (len - n)
      else mret 0
  end.

Definition copyout (pgdir va p len : Z) : M kmem Z :=
  copyout_loop (S (S (Z.to_nat (len / PGSIZE + 1)))) pgdir va p len.

(** ** Segments and the page table register

    Code that runs on the hardware CPU [h]. *)

Definition km {A} (m : M kmem A) : M vmstate A := zoom vkm_lens m.
Definition mach {A} (m : M machine A) : M vmstate A := zoom vmach_lens m.

(** [lapicid h] is the local APIC's ID of CPU [h]; [tsaddr i] is the address
    of [cpus[i].ts]. *)
Variable lapicid : nat -> Z.
Variable tsaddr : nat -> Z.

Definition set_seg (i : nat) (seg : Z) (d : segdesc) : M vmstate unit :=
  modify (upd_hwcpu i (fun c => set_gdt (<[Z.to_nat seg := d]> (gdt c)) c)).

Definition seginit (h : nat) : M vmstate unit :=
  c ← mach (cpuid lapicid h);
  set_seg c SEG_KCODE (SEG (Z.lor STA_X STA_R) 0 0xffffffff 0) ;;
  set_seg c SEG_KDATA (SEG STA_W 0 0xffffffff 0) ;;
  set_seg c SEG_UCODE (SEG (Z.lor STA_X STA_R) 0 0xffffffff DPL_USER) ;;
  set_seg c SEG_UDATA (SEG STA_W 0 0xffffffff DPL_USER) ;;
  modify (upd_hwreg h (set_gdtr (c, 8 * NSEGS))).

Definition switchkvm (h : nat) : M vmstate unit :=
  s ← get; modify (upd_hwreg h (set_cr3 (V2P (kpgdir s)))).

Definition kvmalloc (h : nat) : M vmstate unit :=
  p ← km setupkvm;
  modify (set_kpgdir p) ;;
  switchkvm h.

(** A process is given by its kernel stack and its page directory. *)
Definition switchuvm (h : nat) (p : option (Z * Z)) : M vmstate unit :=
  match p with
  | None => panic "switchuvm: no process"
  | Some (kstack, pgdir) =>
      if kstack =? 0 then panic "switchuvm: no kstack"
      else if pgdir =? 0 then panic "switchuvm: no pgdir"
      else
        mach (pushcli lapicid h) ;;
        i ← mach (mycpu lapicid h);
        set_seg i SEG_TSS (SEG16 STS_T32A (tsaddr i) (sizeof_taskstate - 1) 0) ;;
        modify (upd_hwcpu i (fun c => set_gdt (alter (set_sd_s 0) (Z.to_nat SEG_TSS) (gdt c)) c)) ;;
        modify (upd_hwcpu i (set_ts_ss0 (u16 (Z.shiftl SEG_KDATA 3)))) ;;
        modify (upd_hwcpu i (set_ts_esp0 (u32 (kstack + KSTACKSIZE)))) ;;
        modify (upd_hwcpu i (set_ts_iomb (u16 0xFFFF))) ;;
        modify (upd_hwreg h (set_tr (Z.shiftl SEG_TSS 3))) ;;
        modify (upd_hwreg h (set_cr3 (V2P pgdir))) ;;
        mach (popcli lapicid h)
  end.

End vm.
