(* ===== verification/Pt.v ===== *)
(** Page tables as maps: the loads and stores of [vm.c] read as a table of
    pages.

    [tables] of a page directory are the pages that hold its page tables, by
    directory index. [entry] is the page table entry of an address as the
    processor finds it, 0 when there is none. Growing a table takes pages off
    the free list and changes no other page. *)

From S2P Require Import Prelude Mem Mmu Kalloc Vm.

Open Scope Z_scope.

(** Outside of all the pages of a set. *)
Definition off_pages (ps : gset Z) (x : Z) : Prop := forall p, p ∈ ps -> x < p \/ p + PGSIZE <= x.

Definition entry (m : mem) (pgdir va : Z) : Z :=
  let e := load32 m (pgdir + 4 * PDX va) in
  if present e then load32 m (P2V (PTE_ADDR e) + 4 * PTX va) else 0.

(** The pages that a page directory and its page tables occupy. *)
Definition tpages (pgdir : Z) (T : gmap Z Z) : gset Z := {[pgdir]} ∪ map_img T.

Section pt.
Variable kend : Z.
Hypothesis Hkend : KERNBASE < kend.

Record pt_wf (m : mem) (pgdir : Z) (T : gmap Z Z) : Prop := {
  pw_dir : valid_page kend pgdir;
  pw_some : forall i pt, T !! i = Some pt ->
    0 <= i < 1024 /\ valid_page kend pt /\ pt <> pgdir /\
    present (load32 m (pgdir + 4 * i)) = true /\ P2V (PTE_ADDR (load32 m (pgdir + 4 * i))) = pt;
  pw_none : forall i, 0 <= i < 1024 -> T !! i = None -> present (load32 m (pgdir + 4 * i)) = false;
  pw_inj : forall i j pt, T !! i = Some pt -> T !! j = Some pt -> i = j
}.

Lemma elem_tpages pgdir T x : x ∈ tpages pgdir T <-> x = pgdir \/ exists i, T !! i = Some x.
Proof. unfold tpages. rewrite elem_of_union, elem_of_singleton, elem_of_map_img. done. Qed.

Lemma tpages_insert pgdir T i pt : T !! i = None -> tpages pgdir (<[i := pt]> T) = {[pt]} ∪ tpages pgdir T.
Proof. intros Hi. unfold tpages. rewrite map_img_insert_notin_L by done. set_solver. Qed.

Lemma tpages_valid m pgdir T p : pt_wf m pgdir T -> p ∈ tpages pgdir T -> valid_page kend p.
Proof. intros [Hd Hs _ _] [->|[i Hi]]%elem_tpages; [done|]. by apply (Hs i). Qed.

(** Words of a page: aligned words of distinct pages, or distinct words of
    one page, do not overlap. *)
Lemma word_in_page p i : 0 <= i < 1024 -> p <= p + 4 * i /\ p + 4 * i + 4 <= p + PGSIZE.
Proof. unfold PGSIZE. lia. Qed.

Lemma load32_off m m' p i :
  0 <= i < 1024 -> (forall x, p <= x < p + PGSIZE -> m' x = m x) ->
  load32 m' (p + 4 * i) = load32 m (p + 4 * i).
Proof. intros Hi Hm. apply load32_ext. intros k Hk. apply Hm. unfold PGSIZE. lia. Qed.

(** [entry] in terms of the tables. *)
Lemma entry_eq m pgdir T va :
  pt_wf m pgdir T ->
  entry m pgdir va = match T !! PDX va with Some pt => load32 m (pt + 4 * PTX va) | None => 0 end.
Proof.
  intros HW. unfold entry. destruct (T !! PDX va) as [pt|] eqn:Hi.
  - destruct (pw_some _ _ _ HW _ _ Hi) as (_ & _ & _ & -> & ->). done.
  - by rewrite (pw_none _ _ _ HW _ (PDX_range va) Hi).
Qed.

(** A change of memory outside the pages of a table leaves the table alone. *)
Lemma pt_wf_ext m m' pgdir T :
  pt_wf m pgdir T -> (forall x, pgdir <= x < pgdir + PGSIZE -> m' x = m x) -> pt_wf m' pgdir T.
Proof.
  intros [Hd Hs Hn Hi] Hm. split; [done| | |done].
  - intros i pt Hpt. destruct (Hs i pt Hpt) as (Hr & Hv & Hne & Hp & Ha).
    rewrite (load32_off m) by done. done.
  - intros i Hr HT. rewrite (load32_off m) by done. by apply Hn.
Qed.

Lemma entry_ext m m' pgdir T va :
  pt_wf m pgdir T -> (forall p x, p ∈ tpages pgdir T -> p <= x < p + PGSIZE -> m' x = m x) ->
  entry m' pgdir va = entry m pgdir va.
Proof.
  intros HW Hm. rewrite (entry_eq m pgdir T) by done.
  rewrite (entry_eq m' pgdir T).
  - destruct (T !! PDX va) as [pt|] eqn:Hi; [|done]. apply load32_off; [apply PTX_range|].
    intros x. apply Hm. apply elem_tpages. eauto.
  - apply (pt_wf_ext m); [done|]. intros x. apply Hm. apply elem_tpages. auto.
Qed.

(** Entries: a page address and flags below a page. *)
Lemma present_odd e : present e = Z.odd e.
Proof.
  unfold present, PTE_P. change 0x001 with (Z.ones 1). rewrite Z.land_ones by lia. change (2 ^ 1) with 2.
  rewrite Zmod_odd. by destruct (Z.odd e).
Qed.

Lemma present_lor a b : present (Z.lor a b) = present a || present b.
Proof. rewrite !present_odd, <- !Z.bit0_odd. apply Z.lor_spec. Qed.

Lemma present_0 : present 0 = false.
Proof. done. Qed.

Lemma make_entry a f :
  in_u32 a -> a mod PGSIZE = 0 -> 0 <= f < PGSIZE ->
  in_u32 (Z.lor a f) /\ PTE_ADDR (Z.lor a f) = a /\ PTE_FLAGS (Z.lor a f) = f.
Proof.
  intros Ha Hm Hf. unfold PGSIZE in *. rewrite (lor_add_low a f 12) by (try done; lia).
  pose proof (Z.div_mod a 4096 ltac:(lia)) as Hd.
  assert (Hr : in_u32 (a + f)) by (unfold in_u32 in *; lia).
  assert (Hmod : (a + f) mod 4096 = f).
  { rewrite <- Zplus_mod_idemp_l, Hm, Z.add_0_l. by apply Z.mod_small. }
  rewrite PTE_ADDR_eq, PTE_FLAGS_eq by done. unfold PGSIZE. rewrite Hmod. split; [done|]. split; lia.
Qed.

Lemma valid_page_pa p :
  valid_page kend p -> in_u32 (V2P p) /\ V2P p mod PGSIZE = 0 /\ P2V (V2P p) = p /\ 0 < V2P p.
Proof.
  intros (Hm & Hk & Hr). unfold P2V, PHYSTOP in Hr.
  rewrite P2V_V2P by (unfold KERNBASE in *; lia). unfold V2P, KERNBASE, PGSIZE in *.
  rewrite u32_small by (unfold in_u32; lia).
  split; [unfold in_u32; lia|]. split; [|split; [done|lia]].
  rewrite Zminus_mod, Hm. done.
Qed.

(** The entry that maps a page. *)
Lemma page_entry p f :
  valid_page kend p -> 0 <= f < PGSIZE ->
  u32 (Z.lor (V2P p) f) = Z.lor (V2P p) f /\
  P2V (PTE_ADDR (Z.lor (V2P p) f)) = p /\ PTE_FLAGS (Z.lor (V2P p) f) = f.
Proof.
  intros Hp Hf. destruct (valid_page_pa p Hp) as (Hu & Hm & Hv & _).
  destruct (make_entry _ f Hu Hm Hf) as (Hr & -> & ->). split; [by apply u32_small|]. done.
Qed.

(** Memory changes outside the free pages keep the free list. *)
Lemma kinv_set_phys s l m' :
  kinv kend s l -> (forall p x, p ∈ l -> p <= x < p + 4 -> m' x = phys s x) -> mem_ok m' ->
  kinv kend (set_phys m' s) l.
Proof.
  intros (Hl & Hf & Hn & Hv & Hok) Hm Hok'. split; [done|]. split; [|done]. cbn.
  eapply free_pages_ext; [|done]. intros x Hx. apply load32_ext. intros k Hk. symmetry.
  apply (Hm x); [done|lia].
Qed.

(** [T'] extends [T] with pages taken off the free list; memory outside the
    pages of the table is as before. *)
Record grows (s : kmem) (l : list Z) (T : gmap Z Z) (s' : kmem) (l' : list Z) (T' : gmap Z Z) (pgdir : Z) : Prop := {
  gr_kinv : kinv kend s' l';
  gr_wf : pt_wf (phys s') pgdir T';
  gr_fresh : forall x, x ∈ l' -> x ∉ tpages pgdir T';
  gr_sub : T ⊆ T';
  gr_pages : (list_to_set l' ∪ tpages pgdir T' : gset Z) = list_to_set l ∪ tpages pgdir T;
  gr_mem : forall x, off_pages (tpages pgdir T') x -> phys s' x = phys s x;
  gr_use : use_lock s' = use_lock s
}.

Lemma page_off p q x :
  valid_page kend p -> valid_page kend q -> p <> q -> p <= x < p + PGSIZE -> x < q \/ q + PGSIZE <= x.
Proof. intros (Hp & _) (Hq & _) Hne Hx. destruct (pages_disjoint p q Hp Hq Hne); lia. Qed.

Lemma grows_refl s l T pgdir :
  kinv kend s l -> pt_wf (phys s) pgdir T -> (forall x, x ∈ l -> x ∉ tpages pgdir T) -> grows s l T s l T pgdir.
Proof. intros. by split. Qed.

Lemma off_pages_sub (A B : gset Z) x : A ⊆ B -> off_pages B x -> off_pages A x.
Proof. intros HAB HB p Hp. apply HB, HAB, Hp. Qed.

Lemma tpages_mono pgdir (T T' : gmap Z Z) : T ⊆ T' -> tpages pgdir T ⊆ tpages pgdir T'.
Proof.
  intros HT x. rewrite !elem_tpages. intros [->|[i Hi]]; [auto|]. right. exists i. by eapply lookup_weaken.
Qed.

Lemma grows_trans s l T s1 l1 T1 s2 l2 T2 pgdir :
  grows s l T s1 l1 T1 pgdir -> grows s1 l1 T1 s2 l2 T2 pgdir -> grows s l T s2 l2 T2 pgdir.
Proof.
  intros [? ? ? Hs1 Hp1 Hm1 Hu1] [? ? ? Hs2 Hp2 Hm2 Hu2]. split; try done.
  - by etrans.
  - by rewrite Hp2.
  - intros x Hx. rewrite Hm2 by done. apply Hm1. eapply off_pages_sub; [|done]. by apply tpages_mono.
  - congruence.
Qed.

(** walkpgdir without alloc only reads. *)
Lemma walk_read s pgdir T va :
  pt_wf (phys s) pgdir T ->
  walkpgdir pgdir va false s =
    Ret match T !! PDX va with Some pt => pt + 4 * PTX va | None => 0 end s.
Proof.
  intros HW. unfold walkpgdir, load. mred. destruct (T !! PDX va) as [pt|] eqn:Hi.
  - by destruct (pw_some _ _ _ HW _ _ Hi) as (_ & _ & _ & -> & ->).
  - by rewrite (pw_none _ _ _ HW _ (PDX_range va) Hi).
Qed.

Lemma in_list_valid s l x : kinv kend s l -> x ∈ l -> valid_page kend x.
Proof. intros (_ & _ & _ & Hv & _) Hx. rewrite Forall_forall in Hv. by apply Hv. Qed.

(** The table page that walkpgdir adds: its memory. *)
Section new_table.
Context (m : mem) (pgdir i x : Z) (T : gmap Z Z).
Hypothesis HW : pt_wf m pgdir T.
Hypothesis Hi : 0 <= i < 1024.
Hypothesis HT : T !! i = None.
Hypothesis Hx : valid_page kend x.
Hypothesis Hnew : x ∉ tpages pgdir T.

Let e := Z.lor (V2P x) 7.
Let m' := store32 (memset m x 0 PGSIZE) (pgdir + 4 * i) e.

Lemma new_table_at a :
  m' a = if (pgdir + 4 * i <=? a) && (a <? pgdir + 4 * i + 4) then u8 (Z.shiftr e (8 * (a - (pgdir + 4 * i))))
         else if (x <=? a) && (a <? x + PGSIZE) then 0 else m a.
Proof. unfold m'. rewrite store32_at, memset_at by (unfold PGSIZE; lia). done. Qed.

Lemma new_table_off a : off_pages (tpages pgdir (<[i := x]> T)) a -> m' a = m a.
Proof.
  intros Hoff. rewrite new_table_at.
  assert (a < x \/ x + PGSIZE <= a) by (apply Hoff, elem_tpages; right; exists i; by rewrite lookup_insert_eq).
  assert (a < pgdir \/ pgdir + PGSIZE <= a) by (apply Hoff, elem_tpages; by left).
  unfold PGSIZE in *. case_eqb; done.
Qed.

Lemma new_dir_word j : 0 <= j < 1024 ->
  load32 m' (pgdir + 4 * j) = if j =? i then e else load32 m (pgdir + 4 * j).
Proof.
  intros Hj. unfold m'. destruct (Z.eqb_spec j i) as [->|Hne].
  - rewrite load32_store32_eq. unfold e. by apply page_entry.
  - rewrite load32_store32_ne by lia. apply load32_off; [done|]. intros a Ha.
    rewrite memset_at by (unfold PGSIZE; lia).
    assert (a < x \/ x + PGSIZE <= a).
    { eapply page_off; [apply HW|done| |done]. intros ->. apply Hnew, elem_tpages. by left. }
    case_eqb; done.
Qed.

Lemma new_other_page p a :
  p ∈ tpages pgdir T -> p <> pgdir -> p <= a < p + PGSIZE -> m' a = m a.
Proof.
  intros Hp Hne Ha. rewrite new_table_at. pose proof (tpages_valid _ _ _ _ HW Hp) as Hv.
  assert (a < x \/ x + PGSIZE <= a) by (eapply (page_off p); try done; by intros ->).
  assert (a < pgdir \/ pgdir + PGSIZE <= a) by (eapply (page_off p); try done; apply HW).
  unfold PGSIZE in *. case_eqb; done.
Qed.

Lemma new_table_wf : pt_wf m' pgdir (<[i := x]> T).
Proof.
  split.
  - apply HW.
  - intros j pt. destruct (decide (i = j)) as [<-|Hne].
    + rewrite lookup_insert_eq. intros [= <-]. split; [done|]. split; [done|]. split.
      { intros ->. apply Hnew, elem_tpages. by left. }
      rewrite new_dir_word, Z.eqb_refl by done. split; [|by apply page_entry].
      unfold e. rewrite present_lor. apply orb_true_r.
    + rewrite lookup_insert_ne by done. intros Hj. destruct (pw_some _ _ _ HW _ _ Hj) as (Hr & ? & ? & ?).
      rewrite new_dir_word by done. by rewrite (proj2 (Z.eqb_neq j i)) by done.
  - intros j Hj. destruct (decide (i = j)) as [<-|Hne]; [by rewrite lookup_insert_eq|].
    rewrite lookup_insert_ne by done. intros Hn. rewrite new_dir_word by done.
    rewrite (proj2 (Z.eqb_neq j i)) by done. by apply (pw_none _ _ _ HW).
  - intros j k pt. rewrite !lookup_insert_Some.
    assert (Hnx : forall n, T !! n <> Some x).
    { intros n Hn. apply Hnew, elem_tpages. eauto. }
    intros [[<- <-]|[? Hj]] [[<- ?]|[? Hk]]; subst; try done.
    + by destruct (Hnx k).
    + by destruct (Hnx j).
    + by eapply (pw_inj _ _ _ HW).
Qed.

Lemma new_table_entry va : entry m' pgdir va = entry m pgdir va.
Proof.
  rewrite (entry_eq m' pgdir (<[i := x]> T)) by apply new_table_wf.
  rewrite (entry_eq m pgdir T) by done.
  destruct (decide (PDX va = i)) as [Hva|Hne].
  - rewrite Hva, lookup_insert_eq, HT. assert (Hz : forall k, 0 <= k < PGSIZE -> m' (x + k) = 0).
    { intros k Hk. rewrite new_table_at.
      assert (x + k < pgdir \/ pgdir + PGSIZE <= x + k).
      { eapply (page_off x); [done|apply HW| |lia]. intros ->. apply Hnew, elem_tpages. by left. }
      unfold PGSIZE in *. case_eqb; done. }
    pose proof (PTX_range va). unfold PGSIZE in *. unfold load32.
    rewrite <- !Z.add_assoc. rewrite !Hz by lia. done.
  - rewrite lookup_insert_ne by done. destruct (T !! PDX va) as [pt|] eqn:Hpt; [|done].
    apply load32_off; [apply PTX_range|]. intros a. apply new_other_page.
    + apply elem_tpages. eauto.
    + by apply (pw_some _ _ _ HW _ _ Hpt).
Qed.
End new_table.

(** walkpgdir with alloc: the entry's address, in a table that may have grown
    by one page; every entry is as before. *)
Lemma walk_alloc s l T pgdir va :
  kinv kend s l -> pt_wf (phys s) pgdir T -> (forall x, x ∈ l -> x ∉ tpages pgdir T) ->
  wp (walkpgdir pgdir va true) s (fun r s' =>
    exists l' T', grows s l T s' l' T' pgdir /\
      (forall v, entry (phys s') pgdir v = entry (phys s) pgdir v) /\
      ((r = 0 /\ T' = T /\ l = [] /\ l' = []) \/
       exists pt, T' !! PDX va = Some pt /\ r = pt + 4 * PTX va /\ (length l <= S (length l'))%nat)).
Proof.
  intros HK HW Hfr. unfold walkpgdir. apply wp_bind. unfold load, gets, wp at 1, wpe.
  destruct (T !! PDX va) as [pt|] eqn:Hi.
  - destruct (pw_some _ _ _ HW _ _ Hi) as (_ & _ & _ & -> & ->). exists l, T.
    split; [by apply grows_refl|]. split; [done|]. right. exists pt. split; [done|]. split; [done|lia].
  - rewrite (pw_none _ _ _ HW _ (PDX_range va) Hi). cbn [negb].
    apply wp_bind. eapply wp_mono; [|by apply (kalloc_kinv kend)]. cbv beta.
    intros r s1 (Hph & Hul & Hl). destruct l as [|x l].
    { destruct Hl as [-> HK1]. exists [], T. rewrite Hph. split; [|split; [done|by left]].
      split; try done; [by rewrite Hph|]. intros. by rewrite Hph. }
    destruct Hl as [-> HK1]. pose proof (in_list_valid _ _ x HK (list_elem_of_here _ _)) as Hx.
    pose proof (Hfr x (list_elem_of_here _ _)) as Hnew. pose proof (PDX_range va) as Hr.
    destruct (Z.eqb_spec x 0) as [->|_]; [by apply valid_page_nonzero in Hx|].
    pose proof (new_table_off (phys s) pgdir (PDX va) x T Hr) as Hoff.
    pose proof (new_table_wf (phys s) pgdir (PDX va) x T HW Hr Hx Hnew) as Hwf.
    pose proof (new_table_entry (phys s) pgdir (PDX va) x T HW Hr Hi Hx Hnew) as Hent.
    rewrite <- Hph in Hoff, Hwf, Hent. rewrite <- Hph.
    unfold kmemset, store, wp, wpe. mred. rewrite <- !Z.lor_assoc. change (Z.lor PTE_P (Z.lor PTE_W PTE_U)) with 7.
    exists l, (<[PDX va := x]> T). split; [|split; [done|right; exists x; by rewrite lookup_insert_eq]].
    assert (Hndx : NoDup (x :: l)) by apply HK. apply NoDup_cons in Hndx as [Hxl _].
    split; cbn; try done.
    + change (set_phys ?a (set_phys ?b s1)) with (set_phys a s1). apply kinv_set_phys; [done| |].
      * intros p a Hp Ha. apply Hoff. intros q [->|[j Hj]]%elem_tpages.
        -- eapply page_off; [by apply (in_list_valid _ _ p HK1)|apply HW| |unfold PGSIZE; lia].
           intros ->. apply (Hfr pgdir); [by apply list_elem_of_further|]. apply elem_tpages. by left.
        -- eapply (page_off p); [by apply (in_list_valid _ _ p HK1)| | |unfold PGSIZE; lia].
           ++ apply lookup_insert_Some in Hj as [[_ <-]|[_ Hj]]; [done|]. by apply (pw_some _ _ _ HW _ _ Hj).
           ++ intros ->. apply lookup_insert_Some in Hj as [[_ <-]|[_ Hj]]; [done|].
              apply (Hfr q); [by apply list_elem_of_further|]. apply elem_tpages. eauto.
      * apply store32_ok, memset_ok; [done|apply HK1].
    + intros y Hy. rewrite tpages_insert by done. intros [->%elem_of_singleton|Hyt]%elem_of_union; [done|].
      apply (Hfr y); [by apply list_elem_of_further|done].
    + by apply insert_subseteq.
    + rewrite tpages_insert by done. rewrite (assoc_L (∪)), (comm_L (∪) (list_to_set l)). done.
    + intros a Ha. rewrite Hoff; [congruence|done].
Qed.

(** *** Writing an entry *)

Lemma same_page w va :
  in_u32 w -> in_u32 va -> (PDX w = PDX va /\ PTX w = PTX va) <-> w / PGSIZE = va / PGSIZE.
Proof.
  intros Hw Hv. rewrite !PDX_eq, !PTX_eq by done. unfold PGSIZE. change (2 ^ 22) with (2 ^ 12 * 2 ^ 10).
  rewrite <- !Z.div_div by lia. change 4096 with (2 ^ 12). split.
  - intros [Hd Hm]. rewrite (Z.div_mod (w / 2 ^ 12) (2 ^ 10)), (Z.div_mod (va / 2 ^ 12) (2 ^ 10)) by lia. congruence.
  - intros ->. done.
Qed.

Lemma table_word_at m pgdir T i pt j v a :
  pt_wf m pgdir T -> T !! i = Some pt -> 0 <= j < 1024 -> off_pages {[pt]} a ->
  store32 m (pt + 4 * j) v a = m a.
Proof.
  intros HW Hi Hj Ha. rewrite store32_at. specialize (Ha pt (proj2 (elem_of_singleton _ _) eq_refl)).
  unfold PGSIZE in Ha. case_eqb; done.
Qed.

Lemma set_entry m pgdir T va pt v :
  pt_wf m pgdir T -> T !! PDX va = Some pt -> in_u32 va ->
  pt_wf (store32 m (pt + 4 * PTX va) v) pgdir T /\
  forall w, in_u32 w -> entry (store32 m (pt + 4 * PTX va) v) pgdir w =
    if w / PGSIZE =? va / PGSIZE then u32 v else entry m pgdir w.
Proof.
  intros HW Hpt Hva. destruct (pw_some _ _ _ HW _ _ Hpt) as (Hr & Hv & Hne & _).
  assert (Hdir : forall x, pgdir <= x < pgdir + PGSIZE -> store32 m (pt + 4 * PTX va) v x = m x).
  { intros x Hx. eapply table_word_at; [done|done|apply PTX_range|]. intros p ->%elem_of_singleton.
    eapply (page_off pgdir); [apply HW|done..|]. lia. }
  assert (HW' : pt_wf (store32 m (pt + 4 * PTX va) v) pgdir T) by by apply (pt_wf_ext m).
  split; [done|]. intros w Hw. rewrite (entry_eq _ pgdir T), (entry_eq m pgdir T) by done.
  destruct (Z.eqb_spec (w / PGSIZE) (va / PGSIZE)) as [Heq|Hn].
  - apply same_page in Heq as [-> ->]; [|done..]. rewrite Hpt. apply load32_store32_eq.
  - destruct (T !! PDX w) as [pw|] eqn:Hpw; [|done].
    destruct (decide (PDX w = PDX va)) as [Hd|Hd].
    + assert (pw = pt) as -> by congruence. pose proof (PTX_range w). pose proof (PTX_range va).
      apply load32_store32_ne. assert (PTX w <> PTX va); [|lia].
      intros Ht. apply Hn. by apply same_page.
    + apply load32_off; [apply PTX_range|]. intros x Hx.
      eapply table_word_at; [done|done|apply PTX_range|]. intros p ->%elem_of_singleton.
      eapply (page_off pw); [by apply (pw_some _ _ _ HW _ _ Hpw)|done| |done].
      intros ->. apply Hd. by eapply (pw_inj _ _ _ HW).
Qed.

(** Writing in a table page disturbs neither the free list nor other pages. *)
Lemma grows_store s l T s' l' T' pgdir va pt v :
  grows s l T s' l' T' pgdir -> T' !! PDX va = Some pt -> in_u32 va ->
  grows s l T (set_phys (store32 (phys s') (pt + 4 * PTX va) v) s') l' T' pgdir.
Proof.
  intros [HK HW Hfr Hs Hp Hm Hu] Hpt Hva. destruct (pw_some _ _ _ HW _ _ Hpt) as (Hr & Hv & Hne & _).
  assert (Hoff : forall a, off_pages {[pt]} a -> store32 (phys s') (pt + 4 * PTX va) v a = phys s' a).
  { intros a. eapply table_word_at; [done|done|apply PTX_range]. }
  split; cbn; try done.
  - apply kinv_set_phys; [done| |apply store32_ok, HK]. intros p x Hpl Hx. apply Hoff.
    intros q ->%elem_of_singleton. eapply (page_off p); [by apply (in_list_valid _ _ p HK)|done| |unfold PGSIZE; lia].
    intros ->. apply (Hfr pt Hpl), elem_tpages. eauto.
  - by apply set_entry.
  - intros x Hx. rewrite Hoff; [by apply Hm|]. intros q ->%elem_of_singleton. apply Hx, elem_tpages. eauto.
Qed.

(** *** mappages *)

(** The entry that mappages writes for physical address [pa]. *)
Definition mapped (pa perm : Z) : Z := u32 (Z.lor (Z.lor pa perm) PTE_P).

(** The entries of [m'] are those of [m], except that the pages from [a] up
    to [b] map the physical pages from [pa] on. *)
Definition maps (m m' : mem) (pgdir a b pa perm : Z) : Prop :=
  forall w, in_u32 w -> entry m' pgdir w =
    if (a <=? w) && (w <? b) then mapped (u32 (pa + (w / PGSIZE * PGSIZE - a))) perm else entry m pgdir w.

Lemma maps_nil m m' pgdir a pa perm :
  (forall w, entry m' pgdir w = entry m pgdir w) -> maps m m' pgdir a a pa perm.
Proof. intros He w Hw. rewrite He. by case_eqb. Qed.

Lemma page_range w a : a mod PGSIZE = 0 -> (a <= w < a + PGSIZE) <-> w / PGSIZE = a / PGSIZE.
Proof.
  unfold PGSIZE. intros Ha. pose proof (Z.div_mod a 4096 ltac:(lia)). pose proof (Z.div_mod w 4096 ltac:(lia)).
  pose proof (Z.mod_pos_bound w 4096 ltac:(lia)). lia.
Qed.

(** One page and then the rest. *)
Lemma maps_cons m m1 m2 pgdir a b pa perm :
  a mod PGSIZE = 0 -> in_u32 pa -> a + PGSIZE <= b ->
  (forall w, in_u32 w -> entry m1 pgdir w = if w / PGSIZE =? a / PGSIZE then mapped pa perm else entry m pgdir w) ->
  maps m1 m2 pgdir (a + PGSIZE) b (u32 (pa + PGSIZE)) perm ->
  maps m m2 pgdir a b pa perm.
Proof.
  intros Ha Hpa Hb H1 H2 w Hw. rewrite H2, H1 by done. pose proof (page_range w a Ha) as Hr.
  destruct (Z.eqb_spec (w / PGSIZE) (a / PGSIZE)) as [Heq|Hne].
  - apply Hr in Heq as Hin. unfold PGSIZE in *. case_eqb. f_equal. rewrite Heq.
    pose proof (Z.div_mod a 4096 ltac:(lia)). replace (a / 4096 * 4096 - a) with 0 by lia.
    rewrite Z.add_0_r. symmetry. by apply u32_small.
  - assert (~ (a <= w < a + PGSIZE)) by naive_solver. unfold PGSIZE in *. case_eqb; try done.
    f_equal. rewrite u32_add_l. f_equal. lia.
Qed.

Lemma next_page_u32 a last :
  in_u32 last -> a mod PGSIZE = 0 -> last mod PGSIZE = 0 -> 0 <= a < last ->
  u32 (a + PGSIZE) = a + PGSIZE /\ a + PGSIZE <= last /\ (a + PGSIZE) mod PGSIZE = 0.
Proof.
  unfold PGSIZE, in_u32. intros Hl Ha Hm Hr.
  pose proof (Z.div_mod a 4096 ltac:(lia)). pose proof (Z.div_mod last 4096 ltac:(lia)).
  split; [apply u32_small; unfold in_u32; lia|]. split; [lia|].
  rewrite <- (Z_mod_plus_full a 1 4096) in Ha. by replace (a + 4096) with (a + 1 * 4096) by lia.
Qed.

(** One iteration: out of memory for a page table, or the entry is set. *)
Lemma mappages_step n s l T pgdir a last pa perm (Q : Z -> kmem -> Prop) :
  kinv kend s l -> pt_wf (phys s) pgdir T -> (forall x, x ∈ l -> x ∉ tpages pgdir T) ->
  in_u32 a -> present (entry (phys s) pgdir a) = false ->
  (forall s1, l = [] -> grows s l T s1 [] T pgdir -> (forall v, entry (phys s1) pgdir v = entry (phys s) pgdir v) ->
     Q (-1) s1) ->
  (forall s2 l2 T2, grows s l T s2 l2 T2 pgdir -> (length l <= S (length l2))%nat ->
     (forall w, in_u32 w -> entry (phys s2) pgdir w =
        if w / PGSIZE =? a / PGSIZE then mapped pa perm else entry (phys s) pgdir w) ->
     wp (if a =? last then mret 0
         else mappages_loop n pgdir (u32 (a + PGSIZE)) last (u32 (pa + PGSIZE)) perm) s2 Q) ->
  wp (mappages_loop (S n) pgdir a last pa perm) s Q.
Proof.
  intros HK HW Hfr Hau Hnp Hfail Hok. cbn [mappages_loop].
  apply wp_bind. eapply wp_mono; [|by apply (walk_alloc s l T)]. cbv beta.
  intros r s1 (l1 & T1 & HG & He & Hr). destruct Hr as [(-> & -> & Hl & ->)|(pt & Hpt & -> & Hlen)]; [by apply Hfail|].
  destruct (pw_some _ _ _ (gr_wf _ _ _ _ _ _ _ HG) _ _ Hpt) as (_ & (_ & _ & Hk) & _).
  pose proof (PTX_range a) as HPTX.
  destruct (Z.eqb_spec (pt + 4 * PTX a) 0) as [Hz|_]; [unfold KERNBASE in Hk; lia|].
  assert (Hld : load32 (phys s1) (pt + 4 * PTX a) = entry (phys s1) pgdir a)
    by (rewrite (entry_eq _ pgdir T1) by apply HG; by rewrite Hpt).
  apply wp_bind. unfold load, gets, wp at 1, wpe. rewrite Hld, He, Hnp.
  apply wp_bind. unfold store, modify, wp at 1, wpe.
  eapply Hok; [by apply grows_store|done|]. cbn. intros w Hw.
  destruct (set_entry (phys s1) pgdir T1 a pt (Z.lor (Z.lor pa perm) PTE_P)
    (gr_wf _ _ _ _ _ _ _ HG) Hpt Hau) as [_ He2]. rewrite He2, He by done. done.
Qed.

Lemma mappages_loop_spec n s l T pgdir a last pa perm :
  kinv kend s l -> pt_wf (phys s) pgdir T -> (forall x, x ∈ l -> x ∉ tpages pgdir T) ->
  in_u32 last -> 0 <= a <= last -> a mod PGSIZE = 0 -> last mod PGSIZE = 0 ->
  last - a <= PGSIZE * Z.of_nat n -> in_u32 pa ->
  (forall w, in_u32 w -> a <= w < last + PGSIZE -> present (entry (phys s) pgdir w) = false) ->
  wp (mappages_loop (S n) pgdir a last pa perm) s (fun r s' =>
    exists l' T', grows s l T s' l' T' pgdir /\
      ((r = 0 /\ maps (phys s) (phys s') pgdir a (last + PGSIZE) pa perm /\
        PGSIZE * Z.of_nat (length l) <= PGSIZE * Z.of_nat (length l') + (last + PGSIZE - a)) \/
       (r = -1 /\ l' = [] /\ exists b, a <= b <= last /\ maps (phys s) (phys s') pgdir a b pa perm /\
        PGSIZE * Z.of_nat (length l) <= b - a))).
Proof.
  revert s l T a pa; induction n as [|n IH]; intros s l T a pa HK HW Hfr Hlast Ha Hma Hml Hn Hpa Hnp.
  all: apply (mappages_step _ s l T);
    [done|done|done|unfold in_u32 in *; lia|apply Hnp; unfold in_u32, PGSIZE in *; lia| |].
  all: try (intros s1 -> HG He; exists [], T; split; [done|]; right; split; [done|]; split; [done|];
     exists a; split; [lia|]; split; [by apply maps_nil|cbn; lia]).
  all: intros s2 l2 T2 HG Hlen He; destruct (Z.eqb_spec a last) as [->|Hne].
  - exists l2, T2. split; [done|]. left. split; [done|]. split; [|unfold PGSIZE; lia].
    apply (maps_cons _ (phys s2)); [done|done|lia|done|]. by apply maps_nil.
  - unfold PGSIZE in *. lia.
  - exists l2, T2. split; [done|]. left. split; [done|]. split; [|unfold PGSIZE; lia].
    apply (maps_cons _ (phys s2)); [done|done|lia|done|]. by apply maps_nil.
  - destruct (next_page_u32 a last) as (-> & Hle & Hm); [done|done|done|lia|].
    eapply wp_mono; [|apply (IH s2 l2 T2)]; try done; try apply HG; try apply u32_range; try (unfold PGSIZE in *; lia).
    + cbv beta. intros r s' (l' & T' & HG' & Hr). exists l', T'. split; [by eapply grows_trans|].
      destruct Hr as [(-> & Hmap & Hl')|(-> & -> & b & Hb & Hmap & Hl')].
      * left. split; [done|]. split; [|unfold PGSIZE in *; lia].
        by apply (maps_cons _ (phys s2)); [done|done|unfold PGSIZE in *; lia|..].
      * right. split; [done|]. split; [done|]. exists b. split; [unfold PGSIZE in *; lia|].
        split; [|unfold PGSIZE in *; lia]. by apply (maps_cons _ (phys s2)); [done|done|unfold PGSIZE in *; lia|..].
    + intros w Hw Hr. rewrite He by done. pose proof (page_range w a Hma) as Hpr.
      destruct (Z.eqb_spec (w / PGSIZE) (a / PGSIZE)) as [Heq|_]; [apply Hpr in Heq; lia|].
      apply Hnp; [done|]. unfold PGSIZE in *. lia.
Qed.

Lemma rounddown_range va size :
  0 <= va -> 0 < size -> va + size <= 2 ^ 32 ->
  PGROUNDDOWN va = va / PGSIZE * PGSIZE /\
  PGROUNDDOWN (u32 (va + size - 1)) = (va + size - 1) / PGSIZE * PGSIZE /\
  va / PGSIZE * PGSIZE <= (va + size - 1) / PGSIZE * PGSIZE.
Proof.
  intros Hva Hs Hr. rewrite u32_small by (unfold in_u32; lia).
  rewrite !PGROUNDDOWN_eq by (unfold in_u32; lia). unfold PGSIZE.
  pose proof (Z.div_mod va 4096 ltac:(lia)). pose proof (Z.div_mod (va + size - 1) 4096 ltac:(lia)).
  pose proof (Z.div_le_mono va (va + size - 1) 4096 ltac:(lia) ltac:(lia)). lia.
Qed.

Lemma mappages_spec s l T pgdir va size pa perm :
  kinv kend s l -> pt_wf (phys s) pgdir T -> (forall x, x ∈ l -> x ∉ tpages pgdir T) ->
  0 <= va -> 0 < size -> va + size <= 2 ^ 32 -> in_u32 pa ->
  let a := va / PGSIZE * PGSIZE in
  let last := (va + size - 1) / PGSIZE * PGSIZE in
  (forall w, in_u32 w -> a <= w < last + PGSIZE -> present (entry (phys s) pgdir w) = false) ->
  wp (mappages pgdir va size pa perm) s (fun r s' =>
    exists l' T', grows s l T s' l' T' pgdir /\
      ((r = 0 /\ maps (phys s) (phys s') pgdir a (last + PGSIZE) pa perm /\
        PGSIZE * Z.of_nat (length l) <= PGSIZE * Z.of_nat (length l') + (last + PGSIZE - a)) \/
       (r = -1 /\ l' = [] /\ exists b, a <= b <= last /\ maps (phys s) (phys s') pgdir a b pa perm /\
        PGSIZE * Z.of_nat (length l) <= b - a))).
Proof.
  intros HK HW Hfr Hva Hs Hr Hpa a last Hnp. unfold mappages.
  destruct (rounddown_range va size Hva Hs Hr) as (-> & -> & Hle). fold a last in Hle |- *.
  assert (Hlast : in_u32 last).
  { unfold last, in_u32, PGSIZE in *. pose proof (Z.div_mod (va + size - 1) 4096 ltac:(lia)).
    pose proof (Z.mod_pos_bound (va + size - 1) 4096 ltac:(lia)).
    pose proof (Z.div_pos (va + size - 1) 4096 ltac:(lia) ltac:(lia)). lia. }
  assert (Ha : 0 <= a) by (unfold a, PGSIZE; pose proof (Z.div_pos va 4096 Hva ltac:(lia)); lia).
  apply mappages_loop_spec; try done; try apply Z_mod_mult; try lia.
  rewrite (u32_small (last - a)) by (unfold in_u32 in *; lia).
  pose proof (Z.div_pos (last - a) PGSIZE ltac:(lia) ltac:(done)).
  rewrite Z2Nat.id by done. unfold PGSIZE in *.
  pose proof (Z.div_mod (last - a) 4096 ltac:(lia)) as Hd.
  replace ((last - a) mod 4096) with 0 in Hd; [lia|].
  unfold a, last. rewrite <- Z.mul_sub_distr_r. symmetry. apply Z_mod_mult.
Qed.

End pt.
