(* ===== verification/Uvm.v ===== *)
(** User address spaces: allocuvm, deallocuvm, freevm and copyuvm of [vm.c]
    as operations on a map from user pages to frames.

    [uspace s l pgdir T U]: the free list is [l], the page directory [pgdir]
    has the tables [T] and maps the user page at [v] to the frame [U !! v].
    Free pages, tables and frames are all distinct, so what an operation does
    with pages is an equation between sets. *)

From S2P Require Import Prelude Mem Mmu Kalloc Vm Pt.

Open Scope Z_scope.

Definition frames (U : gmap Z Z) : gset Z := map_img U.

Section uvm.
Variable kend : Z.
Hypothesis Hkend : KERNBASE < kend.

Record uspace (s : kmem) (l : list Z) (pgdir : Z) (T U : gmap Z Z) : Prop := {
  us_kinv : kinv kend s l;
  us_wf : pt_wf kend (phys s) pgdir T;
  us_fresh : forall x, x ∈ l -> x ∉ tpages pgdir T /\ x ∉ frames U;
  us_frame : forall v f, U !! v = Some f ->
    v mod PGSIZE = 0 /\ 0 <= v < KERNBASE /\ valid_page kend f /\ f ∉ tpages pgdir T /\
    present (entry (phys s) pgdir v) = true /\ P2V (PTE_ADDR (entry (phys s) pgdir v)) = f;
  us_unmapped : forall v, 0 <= v < KERNBASE -> v mod PGSIZE = 0 -> U !! v = None ->
    present (entry (phys s) pgdir v) = false;
  us_inj : forall v w f, U !! v = Some f -> U !! w = Some f -> v = w
}.

(** The pages that an address space and the allocator hold together. *)
Definition pages (l : list Z) (pgdir : Z) (T U : gmap Z Z) : gset Z :=
  list_to_set l ∪ tpages pgdir T ∪ frames U.

Lemma elem_frames U f : f ∈ frames U <-> exists v, U !! v = Some f.
Proof. apply elem_of_map_img. Qed.

(** [U'] is [U] without the pages from [a] up to [b]. *)
Definition cleared (a b : Z) (U U' : gmap Z Z) : Prop :=
  forall v, U' !! v = if (a <=? v) && (v <? b) then None else U !! v.

Lemma entry_page m pgdir va w :
  in_u32 va -> in_u32 w -> va / PGSIZE = w / PGSIZE -> entry m pgdir va = entry m pgdir w.
Proof.
  intros Hv Hw Heq. apply same_page in Heq as [Hd Ht]; [|done..]. unfold entry. by rewrite Hd, Ht.
Qed.

Lemma frames_delete U v f :
  (forall v w f, U !! v = Some f -> U !! w = Some f -> v = w) -> U !! v = Some f ->
  frames U = {[f]} ∪ frames (delete v U) /\ f ∉ frames (delete v U).
Proof.
  intros Hinj Hv. split.
  - apply set_eq. intros x. rewrite elem_of_union, elem_of_singleton, !elem_frames. split.
    + intros [w Hw]. destruct (decide (w = v)) as [->|Hn]; [left; congruence|].
      right. exists w. by rewrite lookup_delete_ne.
    + intros [->|[w Hw]]; [eauto|]. exists w. apply lookup_delete_Some in Hw. naive_solver.
  - rewrite elem_frames. intros [w [Hn Hw]%lookup_delete_Some]. apply Hn. by eapply Hinj.
Qed.

(** Freeing the frame of one page and clearing its entry. *)
Lemma uspace_unmap s l pgdir T U v f :
  uspace s l pgdir T U -> U !! v = Some f ->
  wp (kfree kend f ;; store (match T !! PDX v with Some pt => pt + 4 * PTX v | None => 0 end) 0) s
    (fun _ s' => uspace s' (f :: l) pgdir T (delete v U) /\ use_lock s' = use_lock s /\
      (forall w, in_u32 w -> w / PGSIZE <> v / PGSIZE -> entry (phys s') pgdir w = entry (phys s) pgdir w) /\
      (forall x, off_pages (tpages pgdir T) x -> off_pages {[f]} x -> phys s' x = phys s x)).
Proof.
  intros HU Hv. destruct HU as [HK HW Hfr Hf Hun Hinj].
  destruct (Hf v f Hv) as (Hvm & Hvr & Hfv & Hft & Hpres & Haddr).
  assert (Hvu : in_u32 v) by (unfold in_u32, KERNBASE in *; lia).
  assert (Hfl : f ∉ l) by (intros Hfl; destruct (Hfr f Hfl) as [_ Hn]; apply Hn, elem_frames; eauto).
  apply wp_bind. eapply wp_mono; [|apply kfree_kinv; [unfold KERNBASE in *; lia|done..]]. cbv beta.
  intros _ s1 (HK1 & Hul & Hmem).
  assert (Htp : forall p x, p ∈ tpages pgdir T -> p <= x < p + PGSIZE -> phys s1 x = phys s x).
  { intros p x Hp Hx. apply Hmem. eapply (page_off kend p); [by eapply tpages_valid|done| |done].
    by intros ->. }
  assert (HW1 : pt_wf kend (phys s1) pgdir T).
  { apply (pt_wf_ext kend (phys s)); [done|]. intros x. apply Htp, elem_tpages. by left. }
  assert (He1 : forall w, entry (phys s1) pgdir w = entry (phys s) pgdir w).
  { intros w. by apply (entry_ext kend _ _ _ T). }
  destruct (T !! PDX v) as [pt|] eqn:Hpt.
  2: { rewrite (entry_eq kend _ _ T), Hpt in Hpres by done. done. }
  destruct (set_entry kend (phys s1) pgdir T v pt 0 HW1 Hpt Hvu) as [HW2 He2].
  unfold store, modify, wp, wpe. split; [|split; [done|split]].
  - split; cbn.
    + apply kinv_set_phys; [done| |apply store32_ok, HK1]. intros p x Hp Hx.
      rewrite store32_at. destruct (pw_some _ _ _ _ HW _ _ Hpt) as (_ & Hptv & _).
      assert (x < pt \/ pt + PGSIZE <= x).
      { eapply (page_off kend p); [by eapply in_list_valid|done| |unfold PGSIZE; lia].
        intros ->. apply elem_of_cons in Hp as [->|Hp].
        - apply Hft, elem_tpages. eauto.
        - destruct (Hfr pt Hp) as [Hn _]. apply Hn, elem_tpages. eauto. }
      pose proof (PTX_range v). unfold PGSIZE in *. case_eqb; done.
    + done.
    + intros x Hx. apply elem_of_cons in Hx as [->|Hx].
      * split; [done|]. by apply (frames_delete U v f).
      * destruct (Hfr x Hx) as [? Hn]. split; [done|]. rewrite elem_frames.
        intros [w [_ Hw]%lookup_delete_Some]. apply Hn, elem_frames. eauto.
    + intros w g [Hn Hw]%lookup_delete_Some. destruct (Hf w g Hw) as (Hwm & Hwr & ? & ? & Hp & Ha).
      assert (in_u32 w) by (unfold in_u32, KERNBASE in *; lia).
      assert (w / PGSIZE <> v / PGSIZE).
      { unfold PGSIZE in *. pose proof (Z.div_mod w 4096 ltac:(lia)). pose proof (Z.div_mod v 4096 ltac:(lia)). lia. }
      rewrite He2, He1 by done. by rewrite (proj2 (Z.eqb_neq _ _)).
    + intros w Hwr Hwm Hd. assert (in_u32 w) by (unfold in_u32, KERNBASE in *; lia).
      rewrite He2, He1 by done. destruct (Z.eqb_spec (w / PGSIZE) (v / PGSIZE)) as [_|Hn]; [done|].
      apply Hun; [done|done|]. rewrite lookup_delete_ne in Hd; [done|]. by intros ->.
    + intros w w' g [_ Hw]%lookup_delete_Some [_ Hw']%lookup_delete_Some. by eapply Hinj.
  - cbn. intros w Hw Hn. rewrite He2, He1 by done. by rewrite (proj2 (Z.eqb_neq _ _)).
  - cbn. intros x Hx Hx'. rewrite (table_word_at kend _ pgdir T (PDX v)); [|done|done|apply PTX_range|].
    + apply Hmem, Hx'. by apply elem_of_singleton.
    + intros p ->%elem_of_singleton. apply Hx, elem_tpages. eauto.
Qed.

(** *** deallocuvm *)

Lemma cleared_nil a b U : b <= a -> cleared a b U U.
Proof. intros Hab v. by case_eqb. Qed.

Lemma cleared_skip a a' b U U' :
  a <= a' -> (forall v, a <= v < a' -> U !! v = None) -> cleared a' b U U' -> cleared a b U U'.
Proof.
  intros Ha Hn Hc v. rewrite Hc. destruct (decide (a <= v < a')) as [Hv|Hv].
  - rewrite (Hn v Hv). by destruct (_ && _), (_ && _).
  - case_eqb; done.
Qed.

Lemma cleared_delete a b U U' :
  a mod PGSIZE = 0 -> a < b -> (forall v f, U !! v = Some f -> v mod PGSIZE = 0) ->
  cleared (a + PGSIZE) b (delete a U) U' -> cleared a b U U'.
Proof.
  intros Ha Hab Hal Hc v. rewrite Hc. destruct (decide (v = a)) as [->|Hv].
  - rewrite lookup_delete_eq. unfold PGSIZE. case_eqb; done.
  - rewrite lookup_delete_ne by done. destruct (decide (a <= v < a + PGSIZE)) as [Hin|Hout].
    + destruct (U !! v) as [f|] eqn:Hf.
      * specialize (Hal v f Hf). unfold PGSIZE in *.
        pose proof (Z.div_mod a 4096 ltac:(lia)). pose proof (Z.div_mod v 4096 ltac:(lia)). lia.
      * by destruct (_ && _), (_ && _).
    + unfold PGSIZE in *. case_eqb; done.
Qed.

(** The result of clearing a range of pages: their frames are free again,
    everything else is as it was. *)
Record freed (a b : Z) (s : kmem) (l : list Z) (T U : gmap Z Z) (pgdir : Z)
    (s' : kmem) (l' : list Z) (U' : gmap Z Z) : Prop := {
  fd_space : uspace s' l' pgdir T U';
  fd_cleared : cleared a b U U';
  fd_pages : pages l' pgdir T U' = pages l pgdir T U;
  fd_entry : forall w, in_u32 w -> ~ (a <= w / PGSIZE * PGSIZE < b) ->
    entry (phys s') pgdir w = entry (phys s) pgdir w;
  fd_mem : forall x, off_pages (tpages pgdir T) x -> off_pages (frames U ∖ frames U') x -> phys s' x = phys s x;
  fd_use : use_lock s' = use_lock s
}.

Lemma freed_nil a b s l T U pgdir :
  uspace s l pgdir T U -> b <= a -> freed a b s l T U pgdir s l U.
Proof. intros HU Hab. split; try done. by apply cleared_nil. Qed.

Lemma freed_skip a a' b s l T U pgdir s' l' U' :
  a <= a' -> (forall v, a <= v < a' -> U !! v = None) ->
  freed a' b s l T U pgdir s' l' U' -> freed a b s l T U pgdir s' l' U'.
Proof.
  intros Ha Hn [HU Hc Hp He Hm Hu]. split; try done.
  - by eapply cleared_skip.
  - intros w Hw Hr. apply He; [done|]. lia.
Qed.

Lemma freed_step a b s l T U pgdir f s1 s' l' U' :
  uspace s l pgdir T U -> a mod PGSIZE = 0 -> 0 <= a < b -> U !! a = Some f ->
  (forall w, in_u32 w -> w / PGSIZE <> a / PGSIZE -> entry (phys s1) pgdir w = entry (phys s) pgdir w) ->
  (forall x, off_pages (tpages pgdir T) x -> off_pages {[f]} x -> phys s1 x = phys s x) ->
  use_lock s1 = use_lock s ->
  freed (a + PGSIZE) b s1 (f :: l) T (delete a U) pgdir s' l' U' ->
  freed a b s l T U pgdir s' l' U'.
Proof.
  intros HU Ha Hab Hf He1 Hm1 Hu1 [HU' Hc Hp He Hm Hu].
  destruct (frames_delete U a f (us_inj _ _ _ _ _ HU) Hf) as [Hfr Hfn].
  assert (Hc' : cleared a b U U').
  { apply cleared_delete; try done; [lia|]. intros v g Hg. apply (us_frame _ _ _ _ _ HU v g Hg). }
  assert (HfU' : f ∉ frames U').
  { rewrite elem_frames. intros [v Hv]. rewrite Hc' in Hv. destruct (_ && _) eqn:Hb; [done|].
    assert (v = a) as -> by by eapply (us_inj _ _ _ _ _ HU). revert Hb. case_eqb. }
  split; try done.
  - rewrite Hp. unfold pages. rewrite Hfr. set_solver.
  - intros w Hw Hr. assert (Hwa : w / PGSIZE <> a / PGSIZE).
    { intros Heq. apply Hr. rewrite Heq. unfold PGSIZE in *. pose proof (Z.div_mod a 4096 ltac:(lia)). lia. }
    rewrite He; [by apply He1|done|]. intros ?. apply Hr. unfold PGSIZE in *. lia.
  - intros x Hx Hx'. rewrite Hm, Hm1; try done.
    + intros p ->%elem_of_singleton. apply Hx'. rewrite Hfr. set_solver.
    + intros p Hp'. apply Hx'. rewrite Hfr. set_solver.
  - congruence.
Qed.

(** The next page directory entry. *)
Lemma next_pde a :
  0 <= a < KERNBASE ->
  let a' := u32 (u32 (PGADDR (PDX a + 1) 0 0 - PGSIZE) + PGSIZE) in
  a + 1 <= a' <= KERNBASE /\ a' mod PGSIZE = 0 /\ forall v, a <= v < a' -> PDX v = PDX a.
Proof.
  intros Ha a'. assert (Hu : in_u32 a) by (unfold in_u32, KERNBASE in *; lia).
  pose proof (PDX_eq a Hu) as Hd. unfold KERNBASE in *.
  pose proof (Z.div_mod a (2 ^ 22) ltac:(lia)). pose proof (Z.mod_pos_bound a (2 ^ 22) ltac:(lia)).
  assert (Hd2 : 0 <= PDX a < 512) by (rewrite Hd; lia).
  assert (Ha' : a' = (PDX a + 1) * 2 ^ 22).
  { unfold a'. rewrite PGADDR_eq by (unfold PGSIZE; lia). rewrite u32_add_l.
    replace ((PDX a + 1) * 2 ^ 22 + 0 * 2 ^ 12 + 0 - PGSIZE + PGSIZE) with ((PDX a + 1) * 2 ^ 22) by lia.
    apply u32_small. unfold in_u32. lia. }
  rewrite Ha'. split; [lia|]. split.
  - unfold PGSIZE. replace ((PDX a + 1) * 2 ^ 22) with ((PDX a + 1) * 2 ^ 10 * 4096) by lia. apply Z_mod_mult.
  - intros v Hv. rewrite PDX_eq by (unfold in_u32; lia). rewrite Hd.
    symmetry. apply (Z.div_unique_pos v (2 ^ 22) _ (v - 2 ^ 22 * (a / 2 ^ 22))); lia.
Qed.

Lemma dealloc_loop_spec n s l pgdir T U a oldsz :
  uspace s l pgdir T U -> a mod PGSIZE = 0 -> 0 <= a -> oldsz <= KERNBASE ->
  oldsz - a <= PGSIZE * Z.of_nat n ->
  wp (deallocuvm_loop kend (S n) pgdir a oldsz) s (fun _ s' =>
    exists l' U', freed a oldsz s l T U pgdir s' l' U').
Proof.
  revert s l U a; induction n as [|n IH]; intros s l U a HU Ha H0 Hk Hn; cbn [deallocuvm_loop];
    (destruct (Z.ltb_spec a oldsz) as [Hlt|Hge]; [|exists l, U; by apply freed_nil]);
    [unfold PGSIZE in *; lia|].
  assert (Hau : in_u32 a) by (unfold in_u32, KERNBASE in *; lia).
  assert (Hnext : u32 (a + PGSIZE) = a + PGSIZE) by (apply u32_small; unfold in_u32, PGSIZE, KERNBASE in *; lia).
  pose proof (page_succ a Ha) as Hnm.
  apply wp_bind. eapply wp_intro; [by apply (walk_read kend _ _ T), HU|]. cbv beta.
  assert (Hent : entry (phys s) pgdir a =
    match T !! PDX a with Some pt => load32 (phys s) (pt + 4 * PTX a) | None => 0 end)
    by by apply (entry_eq kend), HU.
  assert (Hgap : forall U, (forall v f, U !! v = Some f -> v mod PGSIZE = 0) -> U !! a = None ->
    forall v, a <= v < a + PGSIZE -> (U : gmap Z Z) !! v = None).
  { intros U0 Hal Hn0 v Hv. destruct (U0 !! v) as [f|] eqn:Hf; [|done]. specialize (Hal v f Hf).
    assert (v = a) as -> by (unfold PGSIZE in *; pose proof (Z.div_mod a 4096 ltac:(lia));
      pose proof (Z.div_mod v 4096 ltac:(lia)); lia). congruence. }
  assert (Hal : forall v f, U !! v = Some f -> v mod PGSIZE = 0)
    by (intros v f Hf; apply (us_frame _ _ _ _ _ HU v f Hf)).
  destruct (T !! PDX a) as [pt|] eqn:Hpt.
  - destruct (pw_some _ _ _ _ (us_wf _ _ _ _ _ HU) _ _ Hpt) as (_ & (_ & _ & Hkb) & _).
    pose proof (PTX_range a).
    destruct (Z.eqb_spec (pt + 4 * PTX a) 0) as [Hz|_]; [unfold KERNBASE in *; lia|].
    apply wp_bind. unfold load, gets, wp at 1, wpe. rewrite <- Hent, Hnext.
    destruct (present (entry (phys s) pgdir a)) eqn:Hpres.
    + destruct (U !! a) as [f|] eqn:Hf.
      2: { rewrite (us_unmapped _ _ _ _ _ HU a) in Hpres; try done. lia. }
      destruct (us_frame _ _ _ _ _ HU a f Hf) as (_ & _ & Hfv & _ & _ & Haddr).
      destruct (Z.eqb_spec (PTE_ADDR (entry (phys s) pgdir a)) 0) as [Hz|_].
      { rewrite Hz in Haddr. destruct Hfv as (_ & Hfv & _). unfold P2V, KERNBASE in *. lia. }
      rewrite Haddr. apply wp_bind. pose proof (uspace_unmap s l pgdir T U a f HU Hf) as Hun.
      rewrite Hpt in Hun. eapply wp_mono; [|exact Hun]. cbv beta. intros _ s1 (HU1 & Hul & He1 & Hm1).
      eapply wp_mono; [|apply (IH s1 (f :: l) (delete a U)); try done; unfold PGSIZE in *; lia].
      cbv beta. intros _ s' (l' & U' & HF). exists l', U'. by eapply freed_step.
    + apply wp_bind. unfold wp at 1, wpe, mret, M_ret.
      eapply wp_mono; [|apply (IH s l U (a + PGSIZE)); try done; unfold PGSIZE in *; lia].
      cbv beta. intros _ s' (l' & U' & HF). exists l', U'. apply (freed_skip _ (a + PGSIZE)); [unfold PGSIZE; lia| |done].
      apply Hgap; [done|]. destruct (U !! a) as [f|] eqn:Hf; [|done].
      destruct (us_frame _ _ _ _ _ HU a f Hf) as (_ & _ & _ & _ & Hp & _). congruence.
  - destruct (next_pde a ltac:(lia)) as (Hr & Hm' & Hsame). cbn [Z.eqb]. cbv zeta.
    set (a' := u32 (u32 (PGADDR (PDX a + 1) 0 0 - PGSIZE) + PGSIZE)) in *.
    assert (Hpage : a + PGSIZE <= a').
    { unfold PGSIZE in *. pose proof (Z.div_mod a 4096 ltac:(lia)). pose proof (Z.div_mod a' 4096 ltac:(lia)). lia. }
    eapply wp_mono; [|apply (IH s l U a'); try done; unfold PGSIZE in *; lia].
    cbv beta. intros _ s' (l' & U' & HF). exists l', U'. apply (freed_skip _ a'); [lia| |done].
    intros v Hv. destruct (U !! v) as [f|] eqn:Hf; [|done].
    destruct (us_frame _ _ _ _ _ HU v f Hf) as (_ & _ & _ & _ & Hp & _).
    rewrite (entry_eq kend _ _ T), Hsame, Hpt in Hp by (try apply HU; lia). done.
Qed.

(** deallocuvm frees exactly the frames of the pages from the new size up to
    the old one. *)
Lemma dealloc_spec s l pgdir T U oldsz newsz :
  uspace s l pgdir T U -> 0 <= newsz < oldsz -> oldsz <= KERNBASE ->
  wp (deallocuvm kend pgdir oldsz newsz) s (fun r s' =>
    r = i32 newsz /\ exists l' U', freed (PGROUNDUP newsz) oldsz s l T U pgdir s' l' U').
Proof.
  intros HU Hn Ho. unfold deallocuvm. destruct (Z.leb_spec oldsz newsz); [lia|].
  destruct (PGROUNDUP_bounds newsz ltac:(lia) ltac:(unfold KERNBASE, PGSIZE in *; lia)) as [Hm Hb].
  apply wp_bind. pose proof (Z.div_pos oldsz PGSIZE ltac:(lia) ltac:(done)) as Hd.
  eapply wp_mono; [|apply (dealloc_loop_spec _ s l pgdir T U); try done; [lia|]].
  - cbv beta. intros _ s' HF. done.
  - rewrite Z2Nat.id by lia. unfold PGSIZE in *. pose proof (Z.div_mod oldsz 4096 ltac:(lia)).
    pose proof (Z.mod_pos_bound oldsz 4096 ltac:(lia)). lia.
Qed.

(** *** Mapping one page *)

Lemma lor_lt_pow2 a b n : 0 <= n -> 0 <= a < 2 ^ n -> 0 <= b < 2 ^ n -> 0 <= Z.lor a b < 2 ^ n.
Proof.
  intros Hn Ha Hb. split; [apply Z.lor_nonneg; lia|].
  assert (Hm : Z.lor a b mod 2 ^ n = Z.lor a b).
  { apply Z.bits_inj'. intros i Hi. destruct (decide (i < n)).
    - by rewrite Z.mod_pow2_bits_low by lia.
    - rewrite Z.mod_pow2_bits_high by lia. rewrite Z.lor_spec.
      rewrite <- (Z.mod_small a (2 ^ n)), <- (Z.mod_small b (2 ^ n)) by done.
      by rewrite !Z.mod_pow2_bits_high by lia. }
  rewrite <- Hm. apply Z.mod_pos_bound. lia.
Qed.

Lemma mapped_page f perm :
  valid_page kend f -> 0 <= perm < PGSIZE ->
  present (mapped (V2P f) perm) = true /\ P2V (PTE_ADDR (mapped (V2P f) perm)) = f /\
  PTE_FLAGS (mapped (V2P f) perm) = Z.lor perm PTE_P.
Proof.
  intros Hf Hp. unfold mapped. rewrite <- Z.lor_assoc.
  assert (Hr : 0 <= Z.lor perm PTE_P < PGSIZE).
  { unfold PGSIZE in *. change 4096 with (2 ^ 12) in *. apply lor_lt_pow2; unfold PTE_P; lia. }
  destruct (page_entry kend Hkend f _ Hf Hr) as (-> & -> & ->). split; [|done].
  rewrite !present_lor. change (present PTE_P) with true. by rewrite !orb_true_r.
Qed.

(** More page tables, same user mappings. *)
Lemma uspace_grows s l T s' l' T' U pgdir :
  uspace s l pgdir T U -> grows kend s l T s' l' T' pgdir ->
  (forall v, 0 <= v < KERNBASE -> entry (phys s') pgdir v = entry (phys s) pgdir v) ->
  uspace s' l' pgdir T' U /\ pages l' pgdir T' U = pages l pgdir T U.
Proof.
  intros [HK HW Hfr Hf Hun Hinj] [HK' HW' Hfr' Hsub Hpg Hm Hu] He.
  assert (Hft : forall f v, U !! v = Some f -> f ∉ tpages pgdir T').
  { intros f v Hv Hin. assert (f ∈ (list_to_set l' ∪ tpages pgdir T' : gset Z)) as Hin' by set_solver.
    rewrite Hpg in Hin'. apply elem_of_union in Hin' as [Hl%elem_of_list_to_set|Ht].
    - destruct (Hfr f Hl) as [_ Hn]. apply Hn, elem_frames. eauto.
    - by destruct (Hf v f Hv) as (_ & _ & _ & ? & _). }
  split; [|unfold pages; by rewrite Hpg]. split; try done.
  - intros x Hx. split; [by apply Hfr'|]. rewrite elem_frames. intros [v Hv].
    assert (x ∈ (list_to_set l' ∪ tpages pgdir T' : gset Z)) as Hin'
      by (apply elem_of_union_l, elem_of_list_to_set, Hx).
    rewrite Hpg in Hin'. apply elem_of_union in Hin' as [Hl%elem_of_list_to_set|Ht].
    + destruct (Hfr x Hl) as [_ Hn]. apply Hn, elem_frames. eauto.
    + by destruct (Hf v x Hv) as (_ & _ & _ & ? & _).
  - intros v f Hv. destruct (Hf v f Hv) as (? & Hr & ? & ? & Hp & Ha). rewrite He by done.
    split_and!; try done; try lia. by eapply Hft.
  - intros v Hr Hvm Hv. rewrite He by done. by apply Hun.
Qed.

Lemma maps_one m m' pgdir a pa perm w :
  a mod PGSIZE = 0 -> in_u32 pa -> maps m m' pgdir a (a + PGSIZE) pa perm -> in_u32 w ->
  entry m' pgdir w = if w / PGSIZE =? a / PGSIZE then mapped pa perm else entry m pgdir w.
Proof.
  intros Ha Hpa Hm Hw. rewrite Hm by done. pose proof (page_range w a Ha) as Hr.
  destruct (Z.eqb_spec (w / PGSIZE) (a / PGSIZE)) as [Heq|Hne].
  - apply Hr in Heq as Hin. unfold PGSIZE in *. case_eqb. f_equal. rewrite Heq.
    pose proof (Z.div_mod a 4096 ltac:(lia)). replace (a / 4096 * 4096 - a) with 0 by lia.
    rewrite Z.add_0_r. by apply u32_small.
  - assert (~ (a <= w < a + PGSIZE)) by naive_solver. case_eqb; done.
Qed.

(** A frame [f] that is not part of the space. *)
Definition outside (l : list Z) (pgdir : Z) (T U : gmap Z Z) (f : Z) : Prop :=
  valid_page kend f /\ f ∉ l /\ f ∉ tpages pgdir T /\ f ∉ frames U.

Lemma outside_pages l pgdir T U f : outside l pgdir T U f <-> valid_page kend f /\ f ∉ pages l pgdir T U.
Proof.
  unfold outside, pages. rewrite !not_elem_of_union, elem_of_list_to_set. split.
  - by intros (? & ? & ? & ?).
  - by intros (? & (? & ?) & ?).
Qed.

(** The table has grown and now maps the frame [f] at the page [a]. *)
Lemma uspace_add s l T s' l' T' U pgdir a f perm :
  uspace s l pgdir T U -> grows kend s l T s' l' T' pgdir ->
  maps (phys s) (phys s') pgdir a (a + PGSIZE) (V2P f) perm ->
  valid_page kend f -> f ∉ frames U -> f ∉ l' -> f ∉ tpages pgdir T' ->
  a mod PGSIZE = 0 -> 0 <= a < KERNBASE -> U !! a = None -> 0 <= perm < PGSIZE ->
  uspace s' l' pgdir T' (<[a := f]> U) /\
  pages l' pgdir T' (<[a := f]> U) = {[f]} ∪ pages l pgdir T U /\
  (forall w, in_u32 w -> entry (phys s') pgdir w =
     if w / PGSIZE =? a / PGSIZE then mapped (V2P f) perm else entry (phys s) pgdir w).
Proof.
  intros [HK HW Hfr Hf Hun Hinj] HG Hmap Hfv Hfu Hfl Hft Ha Har Hna Hperm.
  destruct (valid_page_pa kend Hkend f Hfv) as (Hpu & _).
  destruct (mapped_page f perm Hfv Hperm) as (Hpres & Haddr & _).
  pose proof (fun w => maps_one _ _ _ _ _ _ w Ha Hpu Hmap) as He.
  assert (Hpg : (list_to_set l' ∪ tpages pgdir T' : gset Z) = list_to_set l ∪ tpages pgdir T) by apply HG.
  assert (Hframes : frames (<[a := f]> U) = {[f]} ∪ frames U) by by apply map_img_insert_notin_L.
  assert (Hu32 : forall v, 0 <= v < KERNBASE -> in_u32 v) by (unfold in_u32, KERNBASE; lia).
  assert (Hold : forall x, x ∈ frames U -> x ∉ (list_to_set l' ∪ tpages pgdir T' : gset Z)).
  { intros x Hx. rewrite Hpg. intros [Hl%elem_of_list_to_set|Ht]%elem_of_union.
    - by destruct (Hfr x Hl).
    - apply elem_frames in Hx as [v Hv]. by destruct (Hf v x Hv) as (_ & _ & _ & ? & _). }
  split; [|split; [|done]].
  - split; try apply HG.
    + intros x Hx. split; [by apply (gr_fresh _ _ _ _ _ _ _ _ HG)|]. rewrite Hframes.
      intros [->%elem_of_singleton|Hxu]%elem_of_union; [done|]. apply (Hold x Hxu).
      apply elem_of_union_l, elem_of_list_to_set, Hx.
    + intros v g [[<- <-]|[Hne Hv]]%lookup_insert_Some.
      * rewrite He, Z.eqb_refl by auto. done.
      * destruct (Hf v g Hv) as (Hvm & Hvr & ? & ? & ? & ?). rewrite He by auto.
        rewrite (proj2 (Z.eqb_neq _ _)).
        -- split_and!; try done; try lia. intros Hin. apply (Hold g); [apply elem_frames; eauto|].
           by apply elem_of_union_r.
        -- intros Heq. apply Hne. unfold PGSIZE in *. pose proof (Z.div_mod a 4096 ltac:(lia)).
           pose proof (Z.div_mod v 4096 ltac:(lia)). lia.
    + intros v Hr Hvm [Hv Hne]%lookup_insert_None. rewrite He by auto. rewrite (proj2 (Z.eqb_neq _ _)); [auto|].
      intros Heq. apply Hne. unfold PGSIZE in *. pose proof (Z.div_mod a 4096 ltac:(lia)).
      pose proof (Z.div_mod v 4096 ltac:(lia)). lia.
    + intros v w g [[<- <-]|[? Hv]]%lookup_insert_Some [[<- ?]|[? Hw]]%lookup_insert_Some; subst; try done.
      * destruct Hfu. apply elem_frames. eauto.
      * destruct Hfu. apply elem_frames. eauto.
      * by eapply Hinj.
  - unfold pages. rewrite Hframes, Hpg. set_solver +.
Qed.

Lemma mappages_one s l pgdir T U a f perm :
  uspace s l pgdir T U -> outside l pgdir T U f -> a mod PGSIZE = 0 -> 0 <= a < KERNBASE -> U !! a = None ->
  0 <= perm < PGSIZE ->
  wp (mappages pgdir a PGSIZE (V2P f) perm) s (fun r s' =>
    exists l' T', T ⊆ T' /\ use_lock s' = use_lock s /\
      (forall x, off_pages (tpages pgdir T') x -> phys s' x = phys s x) /\
      ((r = 0 /\ (length l <= S (length l'))%nat /\ uspace s' l' pgdir T' (<[a := f]> U) /\
        pages l' pgdir T' (<[a := f]> U) = {[f]} ∪ pages l pgdir T U /\
        (forall w, in_u32 w -> entry (phys s') pgdir w =
           if w / PGSIZE =? a / PGSIZE then mapped (V2P f) perm else entry (phys s) pgdir w)) \/
       (r = -1 /\ uspace s' l' pgdir T' U /\ pages l' pgdir T' U = pages l pgdir T U /\
        outside l' pgdir T' U f /\ l = [] /\
        (forall w, in_u32 w -> entry (phys s') pgdir w = entry (phys s) pgdir w)))).
Proof.
  intros HU (Hfv & Hfl & Hft & Hfu) Ha Har Hna Hperm.
  assert (Hadiv : a / PGSIZE * PGSIZE = a)
    by (unfold PGSIZE in *; pose proof (Z.div_mod a 4096 ltac:(lia)); lia).
  assert (Hlast : (a + PGSIZE - 1) / PGSIZE * PGSIZE = a).
  { unfold PGSIZE in *. pose proof (Z.div_mod a 4096 ltac:(lia)).
    replace (a + 4096 - 1) with (a / 4096 * 4096 + 4095) by lia.
    rewrite Z.div_add_l by lia. change (4095 / 4096) with 0. lia. }
  destruct (valid_page_pa kend Hkend f Hfv) as (Hpu & _).
  pose proof (mappages_spec kend Hkend s l T pgdir a PGSIZE (V2P f) perm (us_kinv _ _ _ _ _ HU)
    (us_wf _ _ _ _ _ HU) (fun x Hx => proj1 (us_fresh _ _ _ _ _ HU x Hx)) ltac:(lia) ltac:(done)
    ltac:(unfold KERNBASE, PGSIZE in *; lia) Hpu) as HM. cbv zeta in HM. rewrite Hadiv, Hlast in HM.
  eapply wp_mono; [|apply HM].
  2: { intros w Hw Hr. rewrite (entry_page _ _ w a); [by apply (us_unmapped _ _ _ _ _ HU)|done| |].
       - unfold in_u32, KERNBASE in *; lia.
       - by apply page_range. }
  cbv beta. intros r s' (l' & T' & HG & Hr). exists l', T'.
  split; [apply HG|]. split; [apply HG|]. split; [apply HG|].
  assert (Hfo : f ∉ l' /\ f ∉ tpages pgdir T').
  { assert (f ∉ (list_to_set l' ∪ tpages pgdir T' : gset Z)) as Hn; [|set_solver +Hn].
    rewrite (gr_pages _ _ _ _ _ _ _ _ HG). set_solver +Hfl Hft. }
  destruct Hfo as [Hfl' Hft'].
  destruct Hr as [(-> & Hmap & Hlen)|(-> & -> & b & Hb & Hmap & Hlen)].
  - left. split; [done|]. split; [unfold PGSIZE in *; lia|]. by eapply uspace_add.
  - right. assert (b = a) as -> by lia.
    assert (l = []) as Hl by (destruct l; [done|]; cbn [length] in Hlen; unfold PGSIZE in *; lia).
    assert (He : forall w, in_u32 w -> entry (phys s') pgdir w = entry (phys s) pgdir w).
    { intros w Hw. rewrite Hmap by done. by case_eqb. }
    destruct (uspace_grows s l T s' [] T' U pgdir HU HG) as [HU' Hp'].
    { intros v Hv. apply He. unfold in_u32, KERNBASE in *. lia. }
    done.
Qed.

(** Taking a page off the free list for the space, filled by [m']. *)
Lemma uspace_kalloc s l pgdir T U (Q : Z -> kmem -> Prop) :
  uspace s l pgdir T U ->
  (forall s1, l = [] -> uspace s1 [] pgdir T U -> phys s1 = phys s -> use_lock s1 = use_lock s -> Q 0 s1) ->
  (forall f l1 s1, l = f :: l1 -> uspace s1 l1 pgdir T U -> outside l1 pgdir T U f -> f <> 0 ->
     phys s1 = phys s -> use_lock s1 = use_lock s -> Q f s1) ->
  wp kalloc s Q.
Proof.
  intros [HK HW Hfr Hf Hun Hinj] H0 H1. eapply wp_mono; [|by apply (kalloc_kinv kend)]. cbv beta.
  intros r s1 (Hph & Hul & Hl). destruct l as [|f l1]; destruct Hl as [-> HK1].
  - apply H0; try done. split; rewrite ?Hph; done.
  - pose proof (in_list_valid kend _ _ f HK (list_elem_of_here _ _)) as Hfv.
    assert (Hnd : NoDup (f :: l1)) by apply HK. apply NoDup_cons in Hnd as [Hnin _].
    apply (H1 f l1); try done.
    + split; rewrite ?Hph; try done. intros x Hx. by apply Hfr, list_elem_of_further.
    + destruct (Hfr f (list_elem_of_here _ _)). by split_and!.
    + by eapply valid_page_nonzero.
Qed.

(** Writing a page that is outside the space. *)
Lemma uspace_write s l pgdir T U f m' :
  uspace s l pgdir T U -> outside l pgdir T U f -> mem_ok m' ->
  (forall x, off_pages {[f]} x -> m' x = phys s x) -> uspace (set_phys m' s) l pgdir T U.
Proof.
  intros [HK HW Hfr Hf Hun Hinj] (Hfv & Hfl & Hft & Hfu) Hok Hm.
  assert (Hoff : forall p x, valid_page kend p -> p <> f -> p <= x < p + PGSIZE -> m' x = phys s x).
  { intros p x Hp Hne Hx. apply Hm. intros q ->%elem_of_singleton. by eapply (page_off kend p). }
  assert (He : forall w, entry m' pgdir w = entry (phys s) pgdir w).
  { intros w. apply (entry_ext kend _ _ _ T); [done|]. intros p x Hp. apply Hoff; [by eapply tpages_valid|].
    by intros ->. }
  split; cbn; try done.
  - apply kinv_set_phys; [done| |done]. intros p x Hp Hx.
    apply (Hoff p); [by eapply in_list_valid|by intros ->|unfold PGSIZE; lia].
  - apply (pt_wf_ext kend (phys s)); [done|]. intros x. apply Hoff; [apply HW|].
    intros ->. apply Hft, elem_tpages. by left.
  - intros v g Hv. rewrite He. by apply Hf.
  - intros v. rewrite He. apply Hun.
Qed.

(** Giving a page that is outside the space to the allocator. *)
Lemma uspace_kfree s l pgdir T U f :
  uspace s l pgdir T U -> outside l pgdir T U f ->
  wp (kfree kend f) s (fun _ s' => uspace s' (f :: l) pgdir T U /\ use_lock s' = use_lock s /\
    (forall w, entry (phys s') pgdir w = entry (phys s) pgdir w) /\
    (forall x, off_pages {[f]} x -> phys s' x = phys s x)).
Proof.
  intros [HK HW Hfr Hf Hun Hinj] (Hfv & Hfl & Hft & Hfu).
  eapply wp_mono; [|apply kfree_kinv; [unfold KERNBASE in *; lia|done..]]. cbv beta.
  intros _ s' (HK' & Hu & Hm).
  assert (Hoff : forall p x, valid_page kend p -> p <> f -> p <= x < p + PGSIZE -> phys s' x = phys s x).
  { intros p x Hp Hne Hx. apply Hm. by eapply (page_off kend p). }
  assert (He : forall w, entry (phys s') pgdir w = entry (phys s) pgdir w).
  { intros w. apply (entry_ext kend _ _ _ T); [done|]. intros p x Hp. apply Hoff; [by eapply tpages_valid|].
    by intros ->. }
  split; [|split; [done|split; [done|]]].
  - split; try done.
    + apply (pt_wf_ext kend (phys s)); [done|]. intros x. apply Hoff; [apply HW|].
      intros ->. apply Hft, elem_tpages. by left.
    + intros x [->|Hx]%elem_of_cons; [done|by apply Hfr].
    + intros v g Hv. rewrite He. by apply Hf.
    + intros v. rewrite He. apply Hun.
  - intros x Hx. apply Hm, Hx, elem_of_singleton_2. done.
Qed.

(** *** Filling a range of pages

    From the space [s l T U], fresh frames have been mapped at the pages from
    [a0] up to [a]; the caller holds the pages [X]. *)
Section grown.
Context (s : kmem) (l : list Z) (pgdir : Z) (T U : gmap Z Z) (a0 : Z).
Context (perm : Z -> Z) (content : Z -> Z -> Z).
Hypothesis HU : uspace s l pgdir T U.

Record grown (X : gset Z) (a : Z) (s' : kmem) (l' : list Z) (T' U' : gmap Z Z) : Prop := {
  gw_space : uspace s' l' pgdir T' U';
  gw_sub : U ⊆ U';
  gw_tab : T ⊆ T';
  gw_dom : forall v, is_Some (U' !! v) <-> is_Some (U !! v) \/ (a0 <= v < a /\ v mod PGSIZE = 0);
  gw_new : forall v f, U !! v = None -> U' !! v = Some f ->
    f ∈ l /\ entry (phys s') pgdir v = mapped (V2P f) (perm v) /\
    forall k, 0 <= k < PGSIZE -> phys s' (f + k) = content v k;
  gw_entry : forall w, in_u32 w -> ~ (a0 <= w / PGSIZE * PGSIZE < a) ->
    entry (phys s') pgdir w = entry (phys s) pgdir w;
  gw_pages : pages l' pgdir T' U' ∪ X = pages l pgdir T U;
  gw_mem : forall x, off_pages (list_to_set l ∪ tpages pgdir T) x -> phys s' x = phys s x;
  gw_use : use_lock s' = use_lock s
}.

Lemma grown_nil a : a <= a0 -> grown ∅ a s l T U.
Proof. intros Ha. split; try done; [|naive_solver|set_solver +]. intros v. split; [auto|]. intros [?|?]; [done|lia]. Qed.

(** Where the pages of the new tables and frames come from. *)
Lemma grown_tables (X : gset Z) s1 l1 T1 U1 :
  uspace s1 l1 pgdir T1 U1 -> U ⊆ U1 -> pages l1 pgdir T1 U1 ∪ X = pages l pgdir T U ->
  tpages pgdir T1 ⊆ list_to_set l ∪ tpages pgdir T.
Proof.
  intros HU1 Hsub Hpg x Hx. assert (Hin : x ∈ pages l pgdir T U).
  { rewrite <- Hpg. unfold pages. set_solver +Hx. }
  unfold pages in Hin. apply elem_of_union in Hin as [Hin|Hin]; [done|].
  apply elem_frames in Hin as [v Hv]. pose proof (lookup_weaken _ _ _ _ Hv Hsub) as Hv1.
  by destruct (us_frame _ _ _ _ _ HU1 v x Hv1) as (_ & _ & _ & ? & _).
Qed.

Lemma grown_free X a s1 l1 T1 U1 f :
  grown X a s1 l1 T1 U1 -> f ∈ l1 -> f ∈ l.
Proof.
  intros [HU1 Hsub Htab _ _ _ Hpg _ _] Hf. assert (Hin : f ∈ pages l pgdir T U).
  { rewrite <- Hpg. unfold pages. set_solver +Hf. }
  destruct (us_fresh _ _ _ _ _ HU1 f Hf) as [Hnt Hnu].
  unfold pages in Hin. apply elem_of_union in Hin as [[Hin%elem_of_list_to_set|Hin]%elem_of_union|Hin]; [done| |].
  - destruct Hnt. by apply (tpages_mono _ T).
  - apply elem_frames in Hin as [v Hv]. destruct Hnu. apply elem_frames. exists v. by eapply lookup_weaken.
Qed.

(** A page off the free list, written outside the space. *)
Lemma grown_hold a s1 f l1 T1 U1 s2 m2 :
  grown ∅ a s1 (f :: l1) T1 U1 -> uspace s2 l1 pgdir T1 U1 -> outside l1 pgdir T1 U1 f ->
  phys s2 = phys s1 -> use_lock s2 = use_lock s1 -> mem_ok m2 ->
  (forall x, off_pages {[f]} x -> m2 x = phys s1 x) ->
  grown {[f]} a (set_phys m2 s2) l1 T1 U1.
Proof.
  intros HG HU2 Hout Hph Hul Hok Hm.
  pose proof (grown_free _ _ _ _ _ _ f HG (list_elem_of_here _ _)) as Hfl.
  assert (HU2' : uspace (set_phys m2 s2) l1 pgdir T1 U1) by (apply (uspace_write _ _ _ _ _ f); rewrite ?Hph; done).
  destruct Hout as (Hfv & Hfl1 & Hft & Hfu).
  assert (He : forall w, entry m2 pgdir w = entry (phys s1) pgdir w).
  { intros w. apply (entry_ext kend _ _ _ T1); [apply HG|]. intros p x Hp Hx. apply Hm.
    intros q ->%elem_of_singleton. eapply (page_off kend p); [|done| |done].
    - eapply tpages_valid; [|done]. apply HG.
    - by intros ->. }
  split; try done; try apply HG; cbn.
  - intros v g Hn Hg. destruct (gw_new _ _ _ _ _ _ HG v g Hn Hg) as (? & Hent & Hc).
    split; [done|]. rewrite He. split; [done|]. intros k Hk. rewrite Hm; [by apply Hc|].
    intros q ->%elem_of_singleton. destruct (us_frame _ _ _ _ _ HU2 v g Hg) as (_ & _ & Hgv & _).
    eapply (page_off kend g); [done|done| |lia]. intros ->. apply Hfu, elem_frames. eauto.
  - intros w Hw Hr. rewrite He. by apply (gw_entry _ _ _ _ _ _ HG).
  - rewrite <- (gw_pages _ _ _ _ _ _ HG). unfold pages. cbn [list_to_set]. set_solver +.
  - intros x Hx. rewrite Hm; [by apply (gw_mem _ _ _ _ _ _ HG)|].
    eapply off_pages_sub; [|done]. set_solver +Hfl.
  - rewrite Hul. apply HG.
Qed.

(** Mapping the held page at [a]. *)
Lemma grown_map a s2 l2 T1 U1 f :
  grown {[f]} a s2 l2 T1 U1 -> outside l2 pgdir T1 U1 f -> f ∈ l ->
  (forall k, 0 <= k < PGSIZE -> phys s2 (f + k) = content a k) ->
  a mod PGSIZE = 0 -> 0 <= a0 <= a -> a < KERNBASE -> U !! a = None -> 0 <= perm a < PGSIZE ->
  wp (mappages pgdir a PGSIZE (V2P f) (perm a)) s2 (fun r s3 =>
    (r = 0 /\ exists l3 T3, (length l2 <= S (length l3))%nat /\
       grown ∅ (a + PGSIZE) s3 l3 T3 (<[a := f]> U1)) \/
    (r = -1 /\ l2 = [] /\ exists l3 T3, grown {[f]} a s3 l3 T3 U1 /\ outside l3 pgdir T3 U1 f)).
Proof.
  intros HG Hout Hfl Hc Ham Har Hak HUa Hp. pose proof HG as [HU2 Hsub Htab Hdom Hnew Hent Hpg Hmem Huse].
  assert (HU1a : U1 !! a = None).
  { apply eq_None_not_Some. rewrite Hdom, HUa. intros [[]%is_Some_None|?]. lia. }
  eapply wp_mono; [|apply (mappages_one s2 l2 pgdir T1 U1); try done; lia]. cbv beta.
  intros r s3 (l3 & T3 & Htab3 & Hu3 & Hm3 & Hr).
  assert (Hframe : forall U3 v g k, uspace s3 l3 pgdir T3 U3 -> U3 !! v = Some g -> 0 <= k < PGSIZE ->
    phys s3 (g + k) = phys s2 (g + k)).
  { intros U3 v g k HU3 Hg Hk. apply Hm3. intros p Hpt.
    destruct (us_frame _ _ _ _ _ HU3 v g Hg) as (_ & _ & Hgv & Hgt & _).
    eapply (page_off kend g); [done| |by intros ->|lia]. eapply tpages_valid; [|done]. apply HU3. }
  destruct Hr as [(-> & Hlen & HU3 & Hpg3 & He3)|(-> & HU3 & Hpg3 & Hout3 & Hl & He3)].
  - left. split; [done|]. exists l3, T3. split; [done|].
    assert (Hsub3 : U ⊆ <[a := f]> U1) by (etrans; [done|]; by apply insert_subseteq).
    assert (Hpg3' : pages l3 pgdir T3 (<[a := f]> U1) ∪ ∅ = pages l pgdir T U).
    { rewrite Hpg3, <- Hpg. set_solver +. }
    split; try done.
    + by etrans.
    + intros v. destruct (decide (v = a)) as [->|Hne].
      * rewrite lookup_insert_eq. split; [|done]. intros _. right. unfold PGSIZE in *. lia.
      * rewrite lookup_insert_ne, Hdom by done. split; intros [?|[Hr Hvm]]; auto; right; unfold PGSIZE in *; [lia|].
        pose proof (Z.div_mod a 4096 ltac:(lia)). pose proof (Z.div_mod v 4096 ltac:(lia)). lia.
    + intros v g Hn Hg. pose proof Hg as Hg'. apply lookup_insert_Some in Hg' as [[<- <-]|[Hne Hg']].
      * split; [done|]. rewrite He3, Z.eqb_refl by (unfold in_u32, KERNBASE in *; lia). split; [done|].
        intros k Hk. rewrite (Hframe _ a f k HU3) by done. by apply Hc.
      * destruct (Hnew v g Hn Hg') as (? & Hev & Hcv).
        destruct (us_frame _ _ _ _ _ HU2 v g Hg') as (Hvm & Hvr & _). split; [done|].
        rewrite He3 by (unfold in_u32, KERNBASE in *; lia). rewrite (proj2 (Z.eqb_neq _ _)).
        -- split; [done|]. intros k Hk. rewrite (Hframe _ v g k HU3) by done. by apply Hcv.
        -- unfold PGSIZE in *. pose proof (Z.div_mod a 4096 ltac:(lia)). pose proof (Z.div_mod v 4096 ltac:(lia)). lia.
    + intros w Hw Hr. rewrite He3 by done. destruct (Z.eqb_spec (w / PGSIZE) (a / PGSIZE)) as [Heq|_].
      * destruct Hr. unfold PGSIZE in *. pose proof (Z.div_mod a 4096 ltac:(lia)). lia.
      * apply Hent; [done|]. unfold PGSIZE in *. lia.
    + intros x Hx. rewrite Hm3; [by apply Hmem|]. eapply off_pages_sub; [|done]. by eapply grown_tables.
    + congruence.
  - right. split; [done|]. split; [done|]. exists l3, T3. split; [|done].
    assert (Hpg3' : pages l3 pgdir T3 U1 ∪ {[f]} = pages l pgdir T U) by by rewrite Hpg3.
    split; try done.
    + by etrans.
    + intros v g Hn Hg. destruct (Hnew v g Hn Hg) as (? & Hev & Hcv).
      destruct (us_frame _ _ _ _ _ HU2 v g Hg) as (_ & Hvr & _). split; [done|].
      rewrite He3 by (unfold in_u32, KERNBASE in *; lia).
      split; [done|]. intros k Hk. rewrite (Hframe _ v g k HU3) by done. by apply Hcv.
    + intros w Hw Hr. rewrite He3 by done. by apply Hent.
    + intros x Hx. rewrite Hm3; [by apply Hmem|]. eapply off_pages_sub; [|done]. by eapply grown_tables.
    + congruence.
Qed.

(** Giving the held page back. *)
Lemma grown_release a s1 l1 T1 U1 f :
  grown {[f]} a s1 l1 T1 U1 -> outside l1 pgdir T1 U1 f -> f ∈ l ->
  wp (kfree kend f) s1 (fun _ s2 => grown ∅ a s2 (f :: l1) T1 U1).
Proof.
  intros [HU2 Hsub Htab Hdom Hnew Hent Hpg Hmem Huse] Hout Hfl. pose proof Hout as (Hfv & _ & _ & Hfu).
  eapply wp_mono; [|by apply (uspace_kfree s1 l1 pgdir T1 U1 f)]. cbv beta.
  intros _ s2 (HU3 & Hu & He & Hm). split; try done.
  - intros v g Hn Hg. destruct (Hnew v g Hn Hg) as (? & Hev & Hcv). split; [done|]. rewrite He. split; [done|].
    intros k Hk. rewrite Hm; [by apply Hcv|]. intros q ->%elem_of_singleton.
    destruct (us_frame _ _ _ _ _ HU2 v g Hg) as (_ & _ & Hgv & _).
    eapply (page_off kend g); [done|done| |lia]. intros ->. apply Hfu, elem_frames. eauto.
  - intros w Hw Hr. rewrite He. by apply Hent.
  - rewrite <- Hpg. unfold pages. cbn [list_to_set]. set_solver +.
  - intros x Hx. rewrite Hm; [by apply Hmem|]. eapply off_pages_sub; [|done]. set_solver +Hfl.
  - congruence.
Qed.

(** The space has its old pages again; it may have kept page tables. *)
Record restored (X : gset Z) (b : Z) (s' : kmem) (l' : list Z) (T' : gmap Z Z) : Prop := {
  rs_space : uspace s' l' pgdir T' U;
  rs_tab : T ⊆ T';
  rs_entry : forall w, in_u32 w -> ~ (a0 <= w / PGSIZE * PGSIZE < b) ->
    entry (phys s') pgdir w = entry (phys s) pgdir w;
  rs_pages : pages l' pgdir T' U ∪ X = pages l pgdir T U;
  rs_mem : forall x, off_pages (list_to_set l ∪ tpages pgdir T) x -> phys s' x = phys s x;
  rs_use : use_lock s' = use_lock s
}.

Lemma grown_undo X a b s1 l1 T1 U1 s2 l2 U2 :
  grown X a s1 l1 T1 U1 -> freed a0 b s1 l1 T1 U1 pgdir s2 l2 U2 ->
  (forall v, a0 <= v < b -> U !! v = None) -> a mod PGSIZE = 0 -> a < b + PGSIZE ->
  U2 = U /\ restored X b s2 l2 T1.
Proof.
  intros [HU1 Hsub Htab Hdom Hnew Hent Hpg Hmem Huse] [HF Hcl Hfp Hfe Hfm Hfu] Hrange Ham Hab.
  assert (Hnb : forall v, a0 <= v < a /\ v mod PGSIZE = 0 -> v < b).
  { intros v [Hv Hvm]. unfold PGSIZE in *. pose proof (Z.div_mod a 4096 ltac:(lia)).
    pose proof (Z.div_mod v 4096 ltac:(lia)). lia. }
  assert (U2 = U) as ->.
  { apply map_eq. intros v. rewrite Hcl. destruct (U !! v) as [g|] eqn:Hg.
    - destruct (decide (a0 <= v < b)) as [Hin|Hout]; [by rewrite Hrange in Hg|].
      pose proof (lookup_weaken _ _ _ _ Hg Hsub). case_eqb; done.
    - destruct (U1 !! v) as [g|] eqn:Hg1; [|by destruct (_ && _)].
      destruct (proj1 (Hdom v) (ex_intro _ g Hg1)) as [[? ?]|Hv]; [congruence|].
      specialize (Hnb v Hv). case_eqb; done. }
  split; [done|]. split; try done.
  - intros w Hw Hr. rewrite Hfe by done. apply Hent; [done|]. intros Hin. apply Hr. split; [lia|].
    apply Hnb. split; [done|]. apply Z_mod_mult.
  - by rewrite Hfp.
  - intros x Hx. rewrite Hfm; [by apply Hmem| |]; (eapply off_pages_sub; [|done]).
    + by apply (grown_tables X s1 l1 T1 U1).
    + intros g [Hg1 Hg2]%elem_of_difference. apply elem_frames in Hg1 as [v Hv].
      apply elem_of_union_l, elem_of_list_to_set. eapply (Hnew v g); [|done].
      destruct (U !! v) as [g'|] eqn:Hg'; [|done]. destruct Hg2. apply elem_frames. exists v.
      pose proof (lookup_weaken _ _ _ _ Hg' Hsub). congruence.
  - congruence.
Qed.

Lemma restored_release b s1 l1 T1 f :
  restored {[f]} b s1 l1 T1 -> outside l1 pgdir T1 U f -> f ∈ l ->
  wp (kfree kend f) s1 (fun _ s2 => restored ∅ b s2 (f :: l1) T1).
Proof.
  intros [HU2 Htab Hent Hpg Hmem Huse] Hout Hfl.
  eapply wp_mono; [|by apply (uspace_kfree s1 l1 pgdir T1 U f)]. cbv beta.
  intros _ s2 (HU3 & Hu & He & Hm). split; try done.
  - intros w Hw Hr. rewrite He. by apply Hent.
  - rewrite <- Hpg. unfold pages. cbn [list_to_set]. set_solver +.
  - intros x Hx. rewrite Hm; [by apply Hmem|]. eapply off_pages_sub; [|done]. set_solver +Hfl.
  - congruence.
Qed.

End grown.

(** *** allocuvm *)

Section allocuvm.
Variable cprintf : string -> M kmem unit.
Hypothesis cprintf_returns : forall msg s, cprintf msg s = Ret tt s.
Context (s : kmem) (l : list Z) (pgdir : Z) (T U : gmap Z Z) (oldsz newsz : Z).
Hypothesis HU : uspace s l pgdir T U.
Hypothesis Hsz : 0 <= oldsz <= newsz.
Hypothesis Hnewk : newsz < KERNBASE.
Hypothesis Hempty : forall v, PGROUNDUP oldsz <= v < newsz -> U !! v = None.

Notation perm := (fun _ => Z.lor PTE_W PTE_U).
Notation zeros := (fun _ _ => 0).
Notation a0 := (PGROUNDUP oldsz).

Lemma alloc_bounds : a0 mod PGSIZE = 0 /\ oldsz <= a0 < oldsz + PGSIZE.
Proof. apply PGROUNDUP_bounds; unfold KERNBASE, PGSIZE in *; lia. Qed.

(** Undoing what was mapped so far. *)
Lemma alloc_undo X a s1 l1 T1 U1 :
  grown s l pgdir T U a0 perm zeros X a s1 l1 T1 U1 -> a mod PGSIZE = 0 -> a0 <= a < newsz ->
  wp (deallocuvm kend pgdir newsz oldsz) s1 (fun _ s2 => exists l2,
    restored s l pgdir T U a0 X newsz s2 l2 T1 /\ pages l2 pgdir T1 U = pages l1 pgdir T1 U1).
Proof.
  intros HG Ham Ha. pose proof alloc_bounds as [_ Hb].
  eapply wp_mono; [|apply (dealloc_spec s1 l1 pgdir T1 U1); [apply HG|lia|lia]]. cbv beta.
  intros _ s2 (_ & l2 & U2 & HF). pose proof (fd_pages _ _ _ _ _ _ _ _ _ _ HF) as Hpg.
  destruct (grown_undo _ _ _ _ _ _ _ _ _ _ _ _ _ _ _ _ _ _ HG HF) as [-> HR]; [done|done|unfold PGSIZE; lia|].
  exists l2. done.
Qed.

Lemma alloc_loop_spec n a s1 l1 T1 U1 :
  grown s l pgdir T U a0 perm zeros ∅ a s1 l1 T1 U1 -> a mod PGSIZE = 0 -> a0 <= a ->
  newsz - a <= PGSIZE * Z.of_nat n -> a < newsz + PGSIZE ->
  PGSIZE * Z.of_nat (length l) <= PGSIZE * Z.of_nat (length l1) + 2 * (a - a0) ->
  wp (allocuvm_loop kend cprintf (S n) pgdir a oldsz newsz) s1 (fun r s2 =>
    (r = i32 newsz /\ exists l2 T2 U2,
       grown s l pgdir T U a0 perm zeros ∅ (PGROUNDUP newsz) s2 l2 T2 U2) \/
    (r = 0 /\ PGSIZE * Z.of_nat (length l) < 2 * (PGROUNDUP newsz - a0) /\
       exists l2 T2, restored s l pgdir T U a0 ∅ newsz s2 l2 T2)).
Proof.
  revert a s1 l1 T1 U1; induction n as [|n IH]; intros a s1 l1 T1 U1 HG Ham Ha Hn Han Hlen; cbn [allocuvm_loop];
    (destruct (Z.ltb_spec a newsz) as [Hlt|Hge];
      [|left; split; [done|]; exists l1, T1, U1; by rewrite <- (PGROUNDUP_unique newsz a) by (unfold KERNBASE, PGSIZE in *; lia)]);
    [lia|].
  pose proof alloc_bounds as [Ha0 Hb0].
  assert (Hnext : u32 (a + PGSIZE) = a + PGSIZE) by (apply u32_small; unfold in_u32, PGSIZE, KERNBASE in *; lia).
  pose proof (page_succ a Ham) as Hnm.
  assert (Hup : a + PGSIZE <= PGROUNDUP newsz) by (apply PGROUNDUP_next; unfold KERNBASE, PGSIZE in *; lia).
  apply wp_bind. eapply uspace_kalloc; [apply HG| |].
  - intros s2 -> HU2 Hph Hul. cbn [Z.eqb]. apply wp_bind. unfold wp at 1, wpe. rewrite cprintf_returns.
    apply wp_bind. eapply wp_mono; [|eapply (alloc_undo ∅ a); [|done|lia]].
    + cbv beta. intros _ s3 (l3 & HR & _). right. split; [done|]. split; [cbn in Hlen; unfold PGSIZE in *; lia|eauto].
    + destruct HG. split; rewrite ?Hph, ?Hul; done.
  - intros f l2 s2 -> HU2 Hout Hf0 Hph Hul. rewrite (proj2 (Z.eqb_neq _ _) Hf0).
    pose proof (grown_free _ _ _ _ _ _ _ _ _ _ _ _ _ _ f HG (list_elem_of_here _ _)) as Hfl.
    apply wp_bind. unfold kmemset, modify, wp at 1, wpe.
    assert (HG2 : grown s l pgdir T U a0 perm zeros {[f]} a
      (set_phys (memset (phys s2) f 0 PGSIZE) s2) l2 T1 U1).
    { eapply grown_hold; try done.
      - apply memset_ok; [done|]. apply HU2.
      - intros x Hx. rewrite memset_at by done. specialize (Hx f (elem_of_singleton_2 _ _ eq_refl)).
        rewrite Hph. case_eqb; done. }
    apply wp_bind. eapply wp_mono; [|eapply (grown_map _ _ _ _ _ _ perm zeros); try done; try lia].
    2: { intros k Hk. cbn. rewrite memset_at by done. case_eqb; done. }
    2: { apply Hempty. lia. }
    cbv beta. intros r s3 [(-> & l3 & T3 & Hl3 & HG3)|(-> & -> & l3 & T3 & HG3 & Hout3)].
    + cbn [Z.ltb Z.compare]. rewrite Hnext. eapply IH; [done|done|unfold PGSIZE in *; lia..|].
      cbn [length] in Hlen. unfold PGSIZE in *. lia.
    + cbn [Z.ltb Z.compare]. apply wp_bind. unfold wp at 1, wpe. rewrite cprintf_returns.
      apply wp_bind. eapply wp_mono; [|eapply (alloc_undo {[f]} a); [done|done|lia]].
      cbv beta. intros _ s4 (l4 & HR & Hpg). apply wp_bind.
      eapply wp_mono; [|apply (restored_release _ _ _ _ _ _ _ _ _ _ f HR); [|done]].
      * cbv beta. intros _ s5 HR5. right. split; [done|].
        split; [cbn [length] in Hlen; unfold PGSIZE in *; lia|eauto].
      * apply outside_pages. rewrite Hpg. by apply outside_pages.
Qed.

Lemma allocuvm_spec :
  wp (allocuvm kend cprintf pgdir oldsz newsz) s (fun r s2 =>
    (r = i32 newsz /\ exists l2 T2 U2,
       grown s l pgdir T U a0 perm zeros ∅ (PGROUNDUP newsz) s2 l2 T2 U2) \/
    (r = 0 /\ PGSIZE * Z.of_nat (length l) < 2 * (PGROUNDUP newsz - a0) /\
       exists l2 T2, restored s l pgdir T U a0 ∅ newsz s2 l2 T2)).
Proof.
  unfold allocuvm. destruct (Z.leb_spec KERNBASE newsz); [lia|]. destruct (Z.ltb_spec newsz oldsz); [lia|].
  pose proof alloc_bounds as [Ha0 Hb0]. pose proof (Z.div_pos newsz PGSIZE ltac:(lia) ltac:(done)).
  eapply alloc_loop_spec; [by apply grown_nil|done|lia| |lia|lia].
  rewrite Z2Nat.id by lia. unfold PGSIZE in *. pose proof (Z.div_mod newsz 4096 ltac:(lia)).
  pose proof (Z.mod_pos_bound newsz 4096 ltac:(lia)). lia.
Qed.

End allocuvm.

End uvm.
