(* ===== verification/Space.v ===== *)
(** Whole address spaces: freevm, setupkvm and copyuvm of [vm.c].

    The kernel half of every page table is the same four ranges; the user
    half is a map from pages to frames ([Uvm]). *)

From S2P Require Import Prelude Mem Mmu Kalloc Vm Pt Uvm.

Open Scope Z_scope.

Section space.
Variable kend : Z.
Hypothesis Hkend : KERNBASE < kend.

(** *** freevm *)

(** The tables of the directory entries [done] are on the free list. *)
Record tables_freed (s : kmem) (l : list Z) (pgdir : Z) (T : gmap Z Z) (done : list Z)
    (s' : kmem) (l' : list Z) : Prop := {
  tf_kinv : kinv kend s' l';
  tf_wf : pt_wf kend (phys s') pgdir T;
  tf_list : forall x, x ∈ l' <-> x ∈ l \/ exists j, j ∈ done /\ T !! j = Some x;
  tf_mem : forall x, off_pages (tpages pgdir T) x -> phys s' x = phys s x;
  tf_use : use_lock s' = use_lock s
}.

Lemma free_tables s l pgdir T :
  kinv kend s l -> pt_wf kend (phys s) pgdir T -> (forall x, x ∈ l -> x ∉ tpages pgdir T) ->
  wp (for_each (seqZ 0 NPDENTRIES) (fun i =>
        e ← load (pgdir + 4 * i);
        when (present e) (kfree kend (P2V (PTE_ADDR e))))) s
    (fun _ s' => exists l', tables_freed s l pgdir T (seqZ 0 NPDENTRIES) s' l').
Proof.
  intros HK HW Hfr.
  apply (wpe_for_each (fun done s' => exists l', tables_freed s l pgdir T done s' l')).
  { exists l. split; try done. intros x. split; [auto|]. intros [?|(j & Hj & _)]; [done|].
    by apply not_elem_of_nil in Hj. }
  intros done i rest s1 Heq (l1 & [HK1 HW1 Hl1 Hm1 Hu1]).
  assert (Hi : 0 <= i < 1024).
  { assert (i ∈ seqZ 0 NPDENTRIES) as Hin by (rewrite Heq; apply elem_of_app; right; apply list_elem_of_here).
    apply elem_of_seqZ in Hin. unfold NPDENTRIES in Hin. lia. }
  assert (Hndone : i ∉ done).
  { assert (Hnd : NoDup (seqZ 0 NPDENTRIES)) by apply NoDup_seqZ. rewrite Heq in Hnd.
    apply NoDup_app in Hnd as (_ & Hnd & _). intros Hin. apply (Hnd i Hin), list_elem_of_here. }
  apply wpe_bind. unfold load, gets, wpe at 1. destruct (T !! i) as [pt|] eqn:Hpt.
  - destruct (pw_some _ _ _ _ HW1 _ _ Hpt) as (_ & Hv & Hne & -> & ->). cbn [when].
    assert (Hptl : pt ∉ l1).
    { rewrite Hl1. intros [Hin|(j & Hj & Hjp)].
      - apply (Hfr pt Hin), elem_tpages. eauto.
      - assert (j = i) as -> by by eapply (pw_inj _ _ _ _ HW). done. }
    eapply wp_mono; [|by apply kfree_kinv; [unfold KERNBASE in *; lia|..]]. cbv beta.
    intros _ s2 (HK2 & Hu2 & Hm2). exists (pt :: l1). split; [done| | | |congruence].
    + apply (pt_wf_ext kend (phys s1)); [done|]. intros x Hx. apply Hm2.
      eapply (page_off kend pgdir); [apply HW|done|congruence|done].
    + intros x. rewrite elem_of_cons, Hl1. split.
      * intros [->|[?|(j & Hj & Hjx)]]; [right; exists i|by left|right; exists j]; (split; [|done]);
          apply elem_of_app; [right; apply list_elem_of_here|by left].
      * intros [?|(j & Hj & Hjx)]; [auto|]. apply elem_of_app in Hj as [Hj| ->%list_elem_of_singleton]; [eauto|].
        left. congruence.
    + intros x Hx. rewrite Hm2; [by apply Hm1|]. apply Hx, elem_tpages. eauto.
  - rewrite (pw_none _ _ _ _ HW1 _ Hi Hpt). cbn [when]. apply wpe_ret. exists l1. split; try done.
    intros x. rewrite Hl1. split.
    + intros [?|(j & Hj & Hjx)]; [auto|]. right. exists j. split; [apply elem_of_app; by left|done].
    + intros [?|(j & Hj & Hjx)]; [auto|]. apply elem_of_app in Hj as [Hj| ->%list_elem_of_singleton]; [eauto|].
      congruence.
Qed.

Lemma freevm_spec s l pgdir T U :
  uspace kend s l pgdir T U ->
  wp (freevm kend pgdir) s (fun _ s' => exists l', kinv kend s' l' /\
    list_to_set l' = pages l pgdir T U /\ use_lock s' = use_lock s /\
    forall x, off_pages (tpages pgdir T ∪ frames U) x -> phys s' x = phys s x).
Proof.
  intros HU. pose proof (us_wf _ _ _ _ _ _ HU) as HW. pose proof (pw_dir _ _ _ _ HW) as Hpd.
  unfold freevm. destruct (Z.eqb_spec pgdir 0) as [->|_]; [by apply valid_page_nonzero in Hpd|].
  apply wp_bind. eapply wp_mono; [|by apply (dealloc_spec kend Hkend s l pgdir T U)]. cbv beta.
  intros _ s1 (_ & l1 & U1 & HF). change (PGROUNDUP 0) with 0 in HF.
  assert (U1 = ∅) as ->.
  { apply map_empty. intros v. rewrite (fd_cleared _ _ _ _ _ _ _ _ _ _ _ HF). destruct (U !! v) as [f|] eqn:Hf.
    - destruct (us_frame _ _ _ _ _ _ HU v f Hf) as (_ & Hr & _). case_eqb; done.
    - by destruct (_ && _). }
  destruct HF as [HU1 _ Hpg _ Hm1 Hu1]. apply wp_bind.
  eapply wp_mono; [|apply (free_tables s1 l1 pgdir T); [apply HU1|apply HU1|intros x Hx; by apply HU1]]. cbv beta.
  intros _ s2 (l2 & [HK2 HW2 Hl2 Hm2 Hu2]).
  assert (Hpl : pgdir ∉ l2).
  { rewrite Hl2. intros [Hin|(j & _ & Hj)].
    - apply (us_fresh _ _ _ _ _ _ HU1) in Hin as [Hn _]. apply Hn, elem_tpages. by left.
    - by destruct (pw_some _ _ _ _ HW _ _ Hj) as (_ & _ & ? & _). }
  eapply wp_mono; [|by apply kfree_kinv; [unfold KERNBASE in *; lia|..]]. cbv beta.
  intros _ s3 (HK3 & Hu3 & Hm3). exists (pgdir :: l2). split; [done|]. split; [|split; [congruence|]].
  - rewrite <- Hpg. unfold pages, tpages. apply set_eq. intros x.
    rewrite elem_of_list_to_set, elem_of_cons, Hl2, !elem_of_union, elem_of_list_to_set, elem_of_singleton, elem_of_map_img.
    split.
    + intros [->|[?|(j & _ & Hj)]]; eauto 6.
    + intros [[?|[->|[j Hj]]]|Hf%elem_frames]; auto; [|by destruct Hf as [v Hv]].
      right. right. exists j. split; [|done]. apply elem_of_seqZ. unfold NPDENTRIES.
      destruct (pw_some _ _ _ _ HW _ _ Hj). lia.
  - intros x Hx. assert (Hx1 : off_pages (tpages pgdir T) x) by (eapply off_pages_sub; [|done]; set_solver +).
    rewrite Hm3, Hm2; [|done|apply Hx1, elem_tpages; by left]. apply Hm1; [done|].
    eapply off_pages_sub; [|exact Hx]. intros y [Hy _]%elem_of_difference. by apply elem_of_union_r.
Qed.

(** *** setupkvm *)

(** A page directory with no user page whose entries are [E], made from the
    pages of the free list [l0]. *)
Record kspace (s0 : kmem) (l0 : list Z) (pgdir : Z) (E : Z -> Z) (s : kmem) (l : list Z) (T : gmap Z Z) : Prop := {
  ks_space : uspace kend s l pgdir T ∅;
  ks_entry : forall w, in_u32 w -> entry (phys s) pgdir w = E w;
  ks_pages : pages l pgdir T ∅ = list_to_set l0;
  ks_mem : forall x, off_pages (list_to_set l0) x -> phys s x = phys s0 x;
  ks_use : use_lock s = use_lock s0
}.

Definition map_range (a b pa perm : Z) (E : Z -> Z) (w : Z) : Z :=
  if (a <=? w) && (w <? b) then mapped (u32 (pa + (w / PGSIZE * PGSIZE - a))) perm else E w.

Lemma kspace_step s0 l0 pgdir E s l T a size pa perm :
  kspace s0 l0 pgdir E s l T -> a mod PGSIZE = 0 -> KERNBASE <= a -> size mod PGSIZE = 0 -> 0 < size ->
  a + size <= 2 ^ 32 -> in_u32 pa -> (forall w, in_u32 w -> a <= w < a + size -> present (E w) = false) ->
  wp (mappages pgdir a size pa perm) s (fun r s' =>
    (r = 0 /\ exists l' T', kspace s0 l0 pgdir (map_range a (a + size) pa perm E) s' l' T') \/
    (r = -1 /\ exists E' T', kspace s0 l0 pgdir E' s' [] T')).
Proof.
  intros [HU HE Hpg Hmem Huse] Ham Hak Hsm Hsz Hlim Hpa Hnp.
  assert (Ha : a / PGSIZE * PGSIZE = a) by (unfold PGSIZE in *; pose proof (Z.div_mod a 4096 ltac:(lia)); lia).
  assert (Hlast : (a + size - 1) / PGSIZE * PGSIZE + PGSIZE = a + size).
  { unfold PGSIZE in *. pose proof (Z.div_mod a 4096 ltac:(lia)). pose proof (Z.div_mod size 4096 ltac:(lia)).
    replace (a + size - 1) with ((a / 4096 + size / 4096 - 1) * 4096 + 4095) by lia.
    rewrite Z.div_add_l by lia. change (4095 / 4096) with 0. lia. }
  pose proof (mappages_spec kend Hkend s l T pgdir a size pa perm (us_kinv _ _ _ _ _ _ HU)
    (us_wf _ _ _ _ _ _ HU) (fun x Hx => proj1 (us_fresh _ _ _ _ _ _ HU x Hx)) ltac:(unfold KERNBASE in *; lia) Hsz
    Hlim Hpa) as HM. cbv zeta in HM. rewrite Ha, Hlast in HM.
  eapply wp_mono; [|apply HM]. 2: { intros w Hw Hr. rewrite HE by done. by apply Hnp. }
  cbv beta. intros r s' (l' & T' & HG & Hr).
  assert (Hks : forall b, KERNBASE <= b -> maps (phys s) (phys s') pgdir a b pa perm ->
    kspace s0 l0 pgdir (map_range a b pa perm E) s' l' T').
  { intros b Hb Hmap. destruct (uspace_grows kend Hkend s l T s' l' T' ∅ pgdir HU HG) as [HU' Hpg'].
    { intros v Hv. rewrite Hmap by (unfold in_u32, KERNBASE in *; lia). case_eqb; done. }
    split; try done.
    - intros w Hw. rewrite Hmap, HE by done. done.
    - by rewrite Hpg'.
    - intros x Hx. rewrite (gr_mem _ _ _ _ _ _ _ _ HG); [by apply Hmem|].
      eapply off_pages_sub; [|done]. rewrite <- Hpg, <- Hpg'. unfold pages. set_solver +.
    - rewrite (gr_use _ _ _ _ _ _ _ _ HG). done. }
  destruct Hr as [(-> & Hmap & _)|(-> & -> & b & Hb & Hmap & _)].
  - left. split; [done|]. exists l', T'. apply Hks; [lia|done].
  - right. split; [done|]. eexists _, T'. apply (Hks b); [lia|done].
Qed.

(** All pages of the list [l0] are free again. *)
Definition refunded (s0 : kmem) (l0 : list Z) (s : kmem) : Prop :=
  exists l, kinv kend s l /\ (list_to_set l : gset Z) = list_to_set l0 /\ use_lock s = use_lock s0 /\
    forall x, off_pages (list_to_set l0) x -> phys s x = phys s0 x.

Lemma kspace_free s0 l0 pgdir E s l T :
  kspace s0 l0 pgdir E s l T -> wp (freevm kend pgdir) s (fun _ s' => refunded s0 l0 s').
Proof.
  intros [HU HE Hpg Hmem Huse]. eapply wp_mono; [|by apply freevm_spec]. cbv beta.
  intros _ s' (l' & HK & Hl & Hu & Hm). exists l'. split; [done|]. split; [by rewrite Hl|]. split; [congruence|].
  intros x Hx. rewrite Hm; [by apply Hmem|]. eapply off_pages_sub; [|done]. rewrite <- Hpg. unfold pages.
  intros y [Hy|Hy]%elem_of_union; [by apply elem_of_union_l, elem_of_union_r|by apply elem_of_union_r].
Qed.

(** A page directory never has more than 1024 tables. *)
Definition table_list (pgdir : Z) (T : gmap Z Z) : list Z := pgdir :: omap (fun i => T !! i) (seqZ 0 1024).

Lemma omap_length_le {A B} (f : A -> option B) l : (length (omap f l) <= length l)%nat.
Proof. induction l as [|x l IH]; cbn; [done|]. destruct (f x); cbn; lia. Qed.

Lemma cons_omap_length {A B} (x : B) (f : A -> option B) l :
  Z.of_nat (length (x :: omap f l)) <= Z.of_nat (length l) + 1.
Proof. pose proof (omap_length_le f l). cbn. lia. Qed.

Lemma table_list_length pgdir T : Z.of_nat (length (table_list pgdir T)) <= 1025.
Proof.
  unfold table_list. etrans; [apply cons_omap_length|].
  rewrite length_seqZ, Z2Nat.id by done. done.
Qed.

Lemma elem_table_list m pgdir T x : pt_wf kend m pgdir T -> x ∈ tpages pgdir T -> x ∈ table_list pgdir T.
Proof.
  intros HW [->|[i Hi]]%elem_tpages; [apply list_elem_of_here|]. apply list_elem_of_further, list_elem_of_omap.
  exists i. split; [|done]. apply elem_of_seqZ. destruct (pw_some _ _ _ _ HW _ _ Hi). lia.
Qed.

Lemma nodup_length_le {A} (l k : list A) : NoDup l -> (forall x, x ∈ l -> x ∈ k) -> (length l <= length k)%nat.
Proof. intros Hl Hk. by apply submseteq_length, NoDup_submseteq. Qed.

Fixpoint kmaps_wf (lo : Z) (ks : list kmap) : Prop :=
  match ks with
  | [] => True
  | k :: ks =>
      let size := u32 (phys_end k - phys_start k) in
      lo <= virt k /\ virt k mod PGSIZE = 0 /\ size mod PGSIZE = 0 /\ 0 < size /\
      virt k + size <= 2 ^ 32 /\ in_u32 (phys_start k) /\ kmaps_wf (virt k + size) ks
  end.

Fixpoint kmaps_entry (ks : list kmap) (E : Z -> Z) : Z -> Z :=
  match ks with
  | [] => E
  | k :: ks =>
      kmaps_entry ks (map_range (virt k) (virt k + u32 (phys_end k - phys_start k)) (phys_start k) (kperm k) E)
  end.

Lemma setup_loop_spec s0 l0 pgdir ks lo E s l T :
  NoDup l0 -> kspace s0 l0 pgdir E s l T -> KERNBASE <= lo -> kmaps_wf lo ks ->
  (forall w, in_u32 w -> lo <= w -> present (E w) = false) ->
  wp (setupkvm_loop kend ks pgdir) s (fun r s' =>
    (r = pgdir /\ exists l' T', kspace s0 l0 pgdir (kmaps_entry ks E) s' l' T') \/
    (r = 0 /\ Z.of_nat (length l0) <= 1025 /\ refunded s0 l0 s')).
Proof.
  intros Hnd. revert lo E s l T; induction ks as [|k ks IH]; intros lo E s l T HS Hlo Hwf Hnp;
    cbn [setupkvm_loop kmaps_entry].
  { apply wpe_ret. left. eauto. }
  destruct Hwf as (Hv & Hvm & Hsm & Hsz & Hlim & Hps & Hwf). set (size := u32 (phys_end k - phys_start k)) in *.
  apply wp_bind. eapply wp_mono; [|apply (kspace_step s0 l0 pgdir E s l T); try done; try lia].
  2: { intros w Hw Hr. apply Hnp; [done|lia]. }
  cbv beta. intros r s' [(-> & l' & T' & HS')|(-> & E' & T' & HS')]; cbn [Z.ltb Z.compare].
  - eapply (IH (virt k + size)); [done|lia|done|]. intros w Hw Hr. unfold map_range.
    case_eqb. apply Hnp; [done|lia].
  - apply wp_bind. eapply wp_mono; [|by eapply kspace_free]. cbv beta. intros _ s'' HR. right.
    split; [done|]. split; [|done]. pose proof (table_list_length pgdir T').
    enough (length l0 <= length (table_list pgdir T'))%nat by lia. apply nodup_length_le; [done|]. intros x Hx. eapply elem_table_list; [apply HS'|].
    assert (Hin : x ∈ pages [] pgdir T' ∅) by (rewrite (ks_pages _ _ _ _ _ _ _ HS'); by apply elem_of_list_to_set).
    unfold pages in Hin. apply elem_of_union in Hin as [[Hin|Hin]%elem_of_union|Hin]; [|done|].
    + by apply elem_of_list_to_set, not_elem_of_nil in Hin.
    + by apply elem_frames in Hin as [v Hv'].
Qed.

Lemma load32_zeros m a : (forall k, 0 <= k < 4 -> m (a + k) = 0) -> load32 m a = 0.
Proof. intros Hz. rewrite (load32_ext m (fun _ => 0)); [done|]. intros k Hk. by rewrite Hz. Qed.

(** A cleared page is a page directory without entries. *)
Lemma kspace_init s0 x l1 s1 :
  kinv kend s0 (x :: l1) -> kinv kend s1 l1 -> phys s1 = phys s0 -> use_lock s1 = use_lock s0 ->
  kspace s0 (x :: l1) x (fun _ => 0) (set_phys (memset (phys s1) x 0 PGSIZE) s1) l1 ∅.
Proof.
  intros HK0 HK1 Hph Hul. pose proof (in_list_valid kend _ _ x HK0 (list_elem_of_here _ _)) as Hx.
  assert (Hnd : NoDup (x :: l1)) by apply HK0. apply NoDup_cons in Hnd as [Hxl _].
  assert (Hz : forall i, 0 <= i < 1024 -> load32 (memset (phys s1) x 0 PGSIZE) (x + 4 * i) = 0).
  { intros i Hi. apply load32_zeros. intros k Hk. rewrite memset_at by done. unfold PGSIZE. case_eqb; done. }
  assert (He : forall w, entry (memset (phys s1) x 0 PGSIZE) x w = 0).
  { intros w. unfold entry. rewrite Hz by apply PDX_range. done. }
  assert (Hm : forall y, off_pages {[x]} y -> memset (phys s1) x 0 PGSIZE y = phys s0 y).
  { intros y Hy. rewrite memset_at by done. specialize (Hy x (elem_of_singleton_2 _ _ eq_refl)).
    rewrite <- Hph. case_eqb; done. }
  split; cbn; try done.
  - split; cbn; try done.
    + apply kinv_set_phys; [done| |apply memset_ok; [done|apply HK1]]. intros p y Hp Hy. rewrite Hm; [by rewrite Hph|].
      intros q ->%elem_of_singleton.
      eapply (page_off kend p); [by eapply in_list_valid|done| |unfold PGSIZE; lia]. by intros ->.
    + split; try done. intros i Hi _. by rewrite Hz.
    + intros y Hy. split; [|intros [v Hv]%elem_frames; done].
      intros [->|[i Hi]]%elem_tpages; done.
    + intros v Hv Hvm _. by rewrite He.
  - unfold pages, tpages, frames. rewrite !map_img_empty_L. set_solver +.
  - intros y Hy. apply Hm. eapply off_pages_sub; [|done]. set_solver +.
Qed.

(** What the kernel half of a page table maps: I/O space, kernel text, kernel
    data with the rest of physical memory, and devices. *)
Definition kernel_entry (data w : Z) : Z :=
  let page := w / PGSIZE * PGSIZE in
  if (KERNBASE <=? w) && (w <? KERNLINK) then mapped (page - KERNBASE) PTE_W
  else if (KERNLINK <=? w) && (w <? data) then mapped (page - KERNBASE) 0
  else if (data <=? w) && (w <? P2V PHYSTOP) then mapped (page - KERNBASE) PTE_W
  else if DEVSPACE <=? w then mapped page PTE_W
  else 0.

Section setupkvm.
Variable data : Z.
Hypothesis Hdata_page : data mod PGSIZE = 0.
Hypothesis Hdata : KERNLINK < data < P2V PHYSTOP.

Lemma kernel_kmaps_wf : kmaps_wf KERNBASE (kmaps data).
Proof.
  unfold kmaps, kmaps_wf, virt, phys_start, phys_end, V2P, P2V, KERNLINK, KERNBASE, EXTMEM, PHYSTOP, DEVSPACE, PGSIZE in *.
  rewrite !(u32_small (_ - 0x80000000)) by (unfold in_u32; lia).
  rewrite !(u32_small (_ - _)) by (unfold in_u32; lia). change (u32 (0 - 4261412864)) with 33554432.
  unfold in_u32. split_and!; try done; Z.to_euclidean_division_equations; lia.
Qed.

Lemma kernel_entry_kmaps w :
  in_u32 w -> kmaps_entry (kmaps data) (fun _ => 0) w = kernel_entry data w.
Proof.
  intros Hw. unfold kernel_entry, kmaps, kmaps_entry, map_range, virt, phys_start, phys_end, kperm.
  change (u32 (EXTMEM - 0)) with EXTMEM. change (u32 (0 - DEVSPACE)) with (2 ^ 32 - DEVSPACE).
  change (V2P KERNLINK) with EXTMEM.
  replace (V2P data) with (data - KERNBASE)
    by (unfold V2P; rewrite u32_small; [done|unfold in_u32, KERNLINK, P2V, EXTMEM, PHYSTOP, KERNBASE in *; lia]).
  rewrite (u32_small (data - KERNBASE - _)), (u32_small (PHYSTOP - _))
    by (unfold in_u32, KERNLINK, P2V, EXTMEM, PHYSTOP, KERNBASE in *; lia).
  pose proof (Z.div_mod w 4096 ltac:(lia)) as Hd. pose proof (Z.mod_pos_bound w 4096 ltac:(lia)) as Hb.
  unfold PGSIZE, in_u32 in *. set (page := w / 4096 * 4096) in *.
  assert (Hp : page = 4096 * (w / 4096)) by (unfold page; lia).
  unfold KERNLINK, P2V, EXTMEM, PHYSTOP, KERNBASE, DEVSPACE in *.
  repeat match goal with |- context [?a <=? ?b] => destruct (Z.leb_spec a b); try lia end;
  repeat match goal with |- context [?a <? ?b] => destruct (Z.ltb_spec a b); try lia end; cbn [andb];
  try done; f_equal; try (rewrite u32_small; unfold in_u32; lia).
Qed.

Lemma setupkvm_spec s l :
  kinv kend s l ->
  wp (setupkvm kend data) s (fun r s' =>
    (r <> 0 /\ r ∈ l /\ exists l' T', kspace s l r (kernel_entry data) s' l' T') \/
    (r = 0 /\ Z.of_nat (length l) <= 1025 /\ refunded s l s')).
Proof.
  intros HK. unfold setupkvm. apply wp_bind. eapply wp_mono; [|by apply (kalloc_kinv kend)]. cbv beta.
  intros r s1 (Hph & Hul & Hl). destruct l as [|x l1]; destruct Hl as [-> HK1].
  { right. split; [done|]. split; [done|]. exists []. rewrite Hph. done. }
  pose proof (in_list_valid kend _ _ x HK (list_elem_of_here _ _)) as Hx.
  destruct (Z.eqb_spec x 0) as [->|Hx0]; [by apply valid_page_nonzero in Hx|].
  apply wp_bind. unfold kmemset, modify, wp at 1, wpe. change (DEVSPACE <? P2V PHYSTOP) with false. cbv iota.
  eapply wp_mono; [|eapply (setup_loop_spec s (x :: l1) x _ KERNBASE (fun _ => 0)); try done].
  - cbv beta. intros r s' [(-> & l' & T' & [HU HE Hpg Hm Hu])|HR]; [left|by right].
    split; [done|]. split; [apply list_elem_of_here|]. exists l', T'. split; try done.
    intros w Hw. rewrite HE by done. by apply kernel_entry_kmaps.
  - apply HK.
  - by apply kspace_init.
  - apply kernel_kmaps_wf.
Qed.

End setupkvm.

(** *** copyuvm *)

(** Pages that are not free keep their memory when only free pages change. *)
Lemma uspace_parent s l pgdir T U s' l' :
  uspace kend s l pgdir T U -> kinv kend s' l' -> (forall x, x ∈ l' -> x ∈ l) ->
  (forall x, off_pages (list_to_set l) x -> phys s' x = phys s x) ->
  uspace kend s' l' pgdir T U /\
  (forall w, entry (phys s') pgdir w = entry (phys s) pgdir w) /\
  (forall v f k, U !! v = Some f -> 0 <= k < PGSIZE -> phys s' (f + k) = phys s (f + k)).
Proof.
  intros HU HK Hl Hm. pose proof HU as [HK0 HW Hfr Hf Hun Hinj].
  assert (Hoff : forall p x, valid_page kend p -> p ∉ l -> p <= x < p + PGSIZE -> phys s' x = phys s x).
  { intros p x Hp Hpl Hx. apply Hm. intros q Hq%elem_of_list_to_set.
    eapply (page_off kend p); [done|by eapply in_list_valid|by intros ->|done]. }
  assert (Htp : forall p, p ∈ tpages pgdir T -> p ∉ l) by (intros p Hp Hpl; by destruct (Hfr p Hpl)).
  assert (He : forall w, entry (phys s') pgdir w = entry (phys s) pgdir w).
  { intros w. apply (entry_ext kend _ _ _ T); [done|]. intros p x Hp. apply Hoff; [by eapply tpages_valid|auto]. }
  split; [|split; [done|]].
  - split; try done.
    + apply (pt_wf_ext kend (phys s)); [done|]. intros x. apply Hoff; [apply HW|]. apply Htp, elem_tpages. by left.
    + intros x Hx. by apply Hfr, Hl.
    + intros v f Hv. rewrite He. by apply Hf.
    + intros v. rewrite He. apply Hun.
  - intros v f k Hv Hk. destruct (Hf v f Hv) as (_ & _ & Hfv & _). apply (Hoff f); [done| |lia].
    intros Hfl. destruct (Hfr f Hfl) as [_ Hn]. apply Hn, elem_frames. eauto.
Qed.

Definition frame_list (U : gmap Z Z) (n : Z) : list Z :=
  omap (fun v => U !! v) ((fun i => i * PGSIZE) <$> seqZ 0 n).

Lemma frame_list_length U n : 0 <= n -> Z.of_nat (length (frame_list U n)) <= n.
Proof.
  intros Hn. unfold frame_list. etrans; [apply Nat2Z.inj_le, omap_length_le|].
  rewrite length_fmap, length_seqZ, Z2Nat.id by done. done.
Qed.

Lemma elem_frame_list U n v f :
  U !! v = Some f -> v mod PGSIZE = 0 -> 0 <= v < n * PGSIZE -> f ∈ frame_list U n.
Proof.
  intros Hv Hvm Hr. apply list_elem_of_omap. exists v. split; [|done]. apply list_elem_of_fmap.
  unfold PGSIZE in *. pose proof (Z.div_mod v 4096 ltac:(lia)). exists (v / 4096). split; [lia|].
  apply elem_of_seqZ. lia.
Qed.

Section copyuvm.
Variable data : Z.
Hypothesis Hdata_page : data mod PGSIZE = 0.
Hypothesis Hdata : KERNLINK < data < P2V PHYSTOP.
Context (s : kmem) (l : list Z) (pgdir : Z) (T U : gmap Z Z) (sz : Z).
Hypothesis HU : uspace kend s l pgdir T U.
Hypothesis Hsz : 0 <= sz <= KERNBASE.
Hypothesis Hmapped : forall v, 0 <= v < sz -> v mod PGSIZE = 0 -> is_Some (U !! v).

Definition copy_perm (v : Z) : Z := PTE_FLAGS (entry (phys s) pgdir v).
Definition copy_content (v k : Z) : Z := phys s (P2V (PTE_ADDR (entry (phys s) pgdir v)) + k).

Section loop.
(** The new space after setupkvm. *)
Context (d : Z) (s1 : kmem) (l1 : list Z) (T1 : gmap Z Z).
Hypothesis HS : kspace s l d (kernel_entry data) s1 l1 T1.
Notation copied := (grown kend s1 l1 d T1 ∅ 0 copy_perm copy_content).

Lemma copied_pages X a s2 l2 T2 U2 :
  copied X a s2 l2 T2 U2 -> pages l2 d T2 U2 ∪ X = list_to_set l.
Proof. intros HG. rewrite (gw_pages _ _ _ _ _ _ _ _ _ _ _ _ _ _ _ HG). apply HS. Qed.

Lemma copied_mem X a s2 l2 T2 U2 x :
  copied X a s2 l2 T2 U2 -> off_pages (list_to_set l) x -> phys s2 x = phys s x.
Proof.
  intros HG Hx. rewrite (gw_mem _ _ _ _ _ _ _ _ _ _ _ _ _ _ _ HG).
  - by apply (ks_mem _ _ _ _ _ _ _ HS).
  - eapply off_pages_sub; [|done]. rewrite <- (ks_pages _ _ _ _ _ _ _ HS). apply union_subseteq_l.
Qed.

Lemma copied_sub X a s2 l2 T2 U2 x : copied X a s2 l2 T2 U2 -> x ∈ l2 -> x ∈ l.
Proof.
  intros HG Hx. apply (elem_of_list_to_set (C := gset Z)). rewrite <- (copied_pages _ _ _ _ _ _ HG). unfold pages.
  by apply elem_of_union_l, elem_of_union_l, elem_of_union_l, elem_of_list_to_set.
Qed.

Lemma copied_parent X a s2 l2 T2 U2 s3 l3 :
  copied X a s2 l2 T2 U2 -> phys s3 = phys s2 -> kinv kend s3 l3 -> (forall x, x ∈ l3 -> x ∈ l2) ->
  uspace kend s3 l3 pgdir T U /\
  (forall w, entry (phys s3) pgdir w = entry (phys s) pgdir w) /\
  (forall v f k, U !! v = Some f -> 0 <= k < PGSIZE -> phys s3 (f + k) = phys s (f + k)).
Proof.
  intros HG Hph HK Hl. apply (uspace_parent s l); [done|done| |].
  - intros x Hx. eapply copied_sub; [done|auto].
  - intros x Hx. rewrite Hph. by eapply copied_mem.
Qed.

(** The pages of the free list are still free or in the new space. *)
Lemma copied_count n s2 l2 T2 U2 :
  copied ∅ (n * PGSIZE) s2 l2 T2 U2 -> 0 <= n -> Z.of_nat (length l) <= 1025 + n + Z.of_nat (length l2).
Proof.
  intros HG Hn. pose proof (table_list_length d T2) as Ht. pose proof (frame_list_length U2 n Hn) as Hfl.
  enough (length l <= length (l2 ++ table_list d T2 ++ frame_list U2 n))%nat as Hle
    by (rewrite !length_app in Hle; lia).
  apply nodup_length_le; [apply HU|]. intros x Hx%(elem_of_list_to_set (C := gset Z)).
  rewrite <- (copied_pages _ _ _ _ _ _ HG), (right_id_L ∅ (∪)) in Hx. rewrite !elem_of_app. unfold pages in Hx.
  apply elem_of_union in Hx as [[Hx%elem_of_list_to_set|Hx]%elem_of_union|Hx]; [auto| |].
  - right. left. eapply elem_table_list; [|done]. apply HG.
  - right. right. apply elem_frames in Hx as [v Hv].
    destruct (proj1 (gw_dom _ _ _ _ _ _ _ _ _ _ _ _ _ _ _ HG v) (ex_intro _ x Hv)) as [[? Hv']|[Hr Hvm]]; [done|].
    by eapply elem_frame_list.
Qed.

(** One page: the fresh page [f] gets the bytes of the parent's frame [g] and
    is mapped with its flags. *)
Lemma copy_page a g f s2 l3 T2 U2 s3 :
  copied ∅ a s2 (f :: l3) T2 U2 -> a mod PGSIZE = 0 -> 0 <= a < KERNBASE ->
  U !! a = Some g -> P2V (PTE_ADDR (entry (phys s) pgdir a)) = g ->
  (forall k, 0 <= k < PGSIZE -> phys s2 (g + k) = phys s (g + k)) ->
  uspace kend s3 l3 d T2 U2 -> outside kend l3 d T2 U2 f -> phys s3 = phys s2 -> use_lock s3 = use_lock s2 ->
  wp (mappages d a PGSIZE (V2P f) (copy_perm a)) (set_phys (memmove (phys s3) f g PGSIZE) s3) (fun r s4 =>
    (r = 0 /\ exists l4 T4 U4, copied ∅ (a + PGSIZE) s4 l4 T4 U4) \/
    (r = -1 /\ l3 = [] /\ exists l4 T4, copied {[f]} a s4 l4 T4 U2 /\ outside kend l4 d T4 U2 f)).
Proof.
  intros HG Ham Ha Hg Haddr Hc HU3 Hout Hph Hul.
  pose proof (grown_free _ _ _ _ _ _ _ _ _ _ _ _ _ _ _ f HG (list_elem_of_here _ _)) as Hfl.
  assert (Hm : forall x, memmove (phys s3) f g PGSIZE x =
    if (f <=? x) && (x <? f + PGSIZE) then phys s3 (g + (x - f)) else phys s3 x)
    by (intros x; rewrite memmove_at by done; done).
  eapply wp_mono; [|eapply (grown_map kend Hkend _ _ _ _ _ _ copy_perm copy_content); try done; try lia].
  - cbv beta. intros r s4 [(-> & l4 & T4 & _ & HG4)|(-> & -> & l4 & T4 & HG4)]; [left|right]; eauto 8.
  - eapply (grown_hold kend); try done.
    + apply memmove_ok; [done|]. apply HU3.
    + intros x Hx. rewrite Hm, Hph. specialize (Hx f (elem_of_singleton_2 _ _ eq_refl)). case_eqb; done.
  - intros k Hk. cbn. rewrite Hm. unfold copy_content. rewrite Haddr, <- Hc by done.
    rewrite Hph. case_eqb. f_equal. lia.
  - split; [done|lia].
  - done.
  - unfold copy_perm. rewrite PTE_FLAGS_eq; [by apply Z.mod_pos_bound|].
    unfold entry. case_match; [apply load32_range, HU|done].
Qed.

Lemma copy_loop_spec n a s2 l2 T2 U2 :
  copied ∅ a s2 l2 T2 U2 -> a mod PGSIZE = 0 -> 0 <= a -> sz - a <= PGSIZE * Z.of_nat n -> a < sz + PGSIZE ->
  wp (copyuvm_loop kend (S n) pgdir d sz a) s2 (fun r s3 => exists b l3 T3 U3, copied ∅ b s3 l3 T3 U3 /\
    if r : bool then b = PGROUNDUP sz
    else PGSIZE * (Z.of_nat (length l) - 1025) <= PGROUNDUP sz).
Proof.
  assert (Hlim : sz + PGSIZE - 1 < 2 ^ 32) by (unfold KERNBASE, PGSIZE in *; lia).
  revert a s2 l2 T2 U2; induction n as [|n IH]; intros a s2 l2 T2 U2 HG Ham Ha Hn Hab; cbn [copyuvm_loop];
    (destruct (Z.ltb_spec a sz) as [Hlt|Hge];
      [|exists a, l2, T2, U2; split; [done|]; apply PGROUNDUP_unique; [lia|done|done|lia]]);
    [lia|].
  assert (Hau : in_u32 a) by (unfold in_u32, KERNBASE in *; lia).
  assert (Hnext : u32 (a + PGSIZE) = a + PGSIZE) by (apply u32_small; unfold in_u32, PGSIZE, KERNBASE in *; lia).
  pose proof (page_succ a Ham) as Hnm.
  assert (Hdiv : a / PGSIZE * PGSIZE = a) by (unfold PGSIZE in *; pose proof (Z.div_mod a 4096 ltac:(lia)); lia).
  pose proof (PGROUNDUP_next sz a ltac:(lia) Hlim Ham Hlt) as Hup.
  pose proof (us_kinv _ _ _ _ _ _ (gw_space _ _ _ _ _ _ _ _ _ _ _ _ _ _ _ HG)) as HK2.
  destruct (copied_parent _ _ _ _ _ _ s2 l2 HG eq_refl HK2 (fun _ H => H)) as (HP & HPe & HPc).
  destruct (Hmapped a ltac:(lia) Ham) as [g Hg].
  destruct (us_frame _ _ _ _ _ _ HP a g Hg) as (_ & _ & Hgv & _ & Hpres & Haddr).
  apply wp_bind. eapply wp_intro; [by apply (walk_read kend _ _ T), HP|]. cbv beta.
  pose proof (entry_eq kend (phys s2) pgdir T a (us_wf _ _ _ _ _ _ HP)) as Hent.
  destruct (T !! PDX a) as [pt|] eqn:Hpt; [|by rewrite Hent in Hpres].
  destruct (pw_some _ _ _ _ (us_wf _ _ _ _ _ _ HP) _ _ Hpt) as (_ & (_ & _ & Hkb) & _).
  pose proof (PTX_range a) as HPT.
  destruct (Z.eqb_spec (pt + 4 * PTX a) 0) as [Hz|_]; [unfold KERNBASE in *; lia|].
  apply wp_bind. unfold load, gets, wp at 1, wpe. rewrite <- Hent, Hpres, Haddr. cbn [negb]. cbv zeta.
  assert (Hcount : Z.of_nat (length l) <= 1025 + a / PGSIZE + Z.of_nat (length l2)).
  { eapply (copied_count (a / PGSIZE)); [|by apply Z.div_pos]. by rewrite Hdiv. }
  apply wp_bind. eapply (uspace_kalloc kend); [apply HG| |].
  - intros s3 -> HU3 Hph Hul. cbn [Z.eqb]. apply wpe_ret. exists a, [], T2, U2. split.
    + destruct HG. split; rewrite ?Hph, ?Hul; done.
    + cbn [length] in Hcount. unfold PGSIZE in *. lia.
  - intros f l3 s3 -> HU3 Hout Hf0 Hph Hul. rewrite (proj2 (Z.eqb_neq _ _) Hf0).
    apply wp_bind. unfold kmemmove, modify, wp at 1, wpe. apply wp_bind. rewrite HPe in *.
    eapply wp_mono; [|eapply (copy_page a g f s2); try done; [lia|intros k Hk; by eapply HPc]]. cbv beta.
    intros r s4 [(-> & l4 & T4 & U4 & HG4)|(-> & -> & l4 & T4 & HG4 & Hout4)]; cbn [Z.ltb Z.compare].
    + rewrite Hnext. eapply IH; [done|done|unfold PGSIZE in *; lia..].
    + apply wp_bind. eapply wp_mono; [|eapply (grown_release kend Hkend); [done|done|]].
      * cbv beta. intros _ s5 HG5. apply wpe_ret. exists a, (f :: l4), T4, U2. split; [done|].
        cbn [length] in Hcount. unfold PGSIZE in *. lia.
      * eapply (grown_free kend); [|apply list_elem_of_here]. done.
Qed.


End loop.

Lemma lor_present e : present e = true -> Z.lor (PTE_FLAGS e) PTE_P = PTE_FLAGS e.
Proof.
  intros He. rewrite present_odd, <- Z.bit0_odd in He. apply Z.bits_inj'. intros i Hi.
  unfold PTE_FLAGS, PTE_P. rewrite Z.lor_spec. change 0x001 with (2 ^ 0). rewrite Z.pow2_bits_eqb by done.
  destruct (Z.eqb_spec 0 i) as [<-|_]; [|apply orb_false_r]. rewrite orb_true_r. symmetry.
  rewrite Z.land_spec. unfold u32. rewrite Z.mod_pow2_bits_low by done. by rewrite He.
Qed.

(** The child [d]: the parent's pages below [sz], copied. *)
Record copy_of (d : Z) (s' : kmem) (l' : list Z) (T' U' : gmap Z Z) : Prop := {
  co_child : uspace kend s' l' d T' U';
  co_parent : uspace kend s' l' pgdir T U;
  co_pages : pages l' d T' U' = list_to_set l;
  co_dom : forall v, is_Some (U' !! v) <-> 0 <= v < sz /\ v mod PGSIZE = 0;
  co_copy : forall v f g, U' !! v = Some f -> U !! v = Some g ->
    f <> g /\ PTE_FLAGS (entry (phys s') d v) = PTE_FLAGS (entry (phys s') pgdir v) /\
    forall k, 0 <= k < PGSIZE -> phys s' (f + k) = phys s (g + k) /\ phys s' (g + k) = phys s (g + k);
  co_kernel : forall w, KERNBASE <= w < 2 ^ 32 -> entry (phys s') d w = kernel_entry data w
}.

Lemma copied_copy_of d s1 l1 T1 s' l' T' U' :
  kspace s l d (kernel_entry data) s1 l1 T1 ->
  grown kend s1 l1 d T1 ∅ 0 copy_perm copy_content ∅ (PGROUNDUP sz) s' l' T' U' ->
  copy_of d s' l' T' U'.
Proof.
  intros HS HG. pose proof HG as [HU' Hsub Htab Hdom Hnew Hent Hpg Hmem Huse].
  destruct (PGROUNDUP_bounds sz) as [Hrm Hrb]; [lia|unfold KERNBASE, PGSIZE in *; lia|].
  destruct (copied_parent d s1 l1 T1 HS _ _ _ _ _ _ s' l' HG eq_refl (us_kinv _ _ _ _ _ _ HU') (fun _ H => H))
    as (HP & HPe & HPc).
  assert (Hrange : forall v, (0 <= v < PGROUNDUP sz /\ v mod PGSIZE = 0) <-> (0 <= v < sz /\ v mod PGSIZE = 0)).
  { intros v. split; intros [Hr Hvm]; (split; [|done]); [|lia]. split; [lia|]. unfold PGSIZE in *.
    pose proof (Z.div_mod v 4096 ltac:(lia)). pose proof (Z.div_mod (PGROUNDUP sz) 4096 ltac:(lia)). lia. }
  split; try done.
  - rewrite <- (copied_pages d s1 l1 T1 HS _ _ _ _ _ _ HG). by rewrite (right_id_L ∅ (∪)).
  - intros v. rewrite Hdom, Hrange. rewrite lookup_empty. split; [|auto]. by intros [[? ?]|?].
  - intros v f g Hf Hg. destruct (Hnew v f (lookup_empty _) Hf) as (Hfl & Hev & Hc).
    destruct (us_frame _ _ _ _ _ _ HU' v f Hf) as (_ & _ & Hfv & _).
    destruct (us_frame _ _ _ _ _ _ HU v g Hg) as (_ & _ & Hgv & _ & Hpr & Hga).
    assert (Hne : f <> g).
    { intros ->. assert (Hgl : g ∈ l).
      { apply (elem_of_list_to_set (C := gset Z)). rewrite <- (ks_pages _ _ _ _ _ _ _ HS). unfold pages.
        by apply elem_of_union_l, elem_of_union_l, elem_of_list_to_set. }
      destruct (us_fresh _ _ _ _ _ _ HU g Hgl) as [_ Hn]. apply Hn, elem_frames. eauto. }
    split; [done|]. split.
    + rewrite Hev, HPe. destruct (mapped_page kend Hkend f (copy_perm v) Hfv) as (_ & _ & ->).
      * unfold copy_perm. rewrite PTE_FLAGS_eq; [by apply Z.mod_pos_bound|].
        unfold entry. case_match; [apply load32_range, HU|done].
      * by apply lor_present.
    + intros k Hk. rewrite Hc by done. unfold copy_content. rewrite Hga. split; [done|]. by eapply HPc.
  - intros w Hw. rewrite Hent; [|unfold in_u32, KERNBASE in *; lia|].
    + apply (ks_entry _ _ _ _ _ _ _ HS). unfold in_u32, KERNBASE in *; lia.
    + unfold KERNBASE, PGSIZE in *. pose proof (Z.div_mod w 4096 ltac:(lia)).
      pose proof (Z.mod_pos_bound w 4096 ltac:(lia)).
      pose proof (Z.div_mod (PGROUNDUP sz) 4096 ltac:(lia)). lia.
Qed.

Lemma refunded_parent s' : refunded s l s' ->
  exists l', uspace kend s' l' pgdir T U /\ (list_to_set l' : gset Z) = list_to_set l /\
    forall v f k, U !! v = Some f -> 0 <= k < PGSIZE -> phys s' (f + k) = phys s (f + k).
Proof.
  intros (l' & HK & Hl & _ & Hm). exists l'.
  destruct (uspace_parent s l pgdir T U s' l') as (HP & _ & HPc); try done.
  intros x Hx. apply (elem_of_list_to_set (C := gset Z)). rewrite <- Hl. by apply elem_of_list_to_set.
Qed.

Lemma copyuvm_spec :
  wp (copyuvm kend data pgdir sz) s (fun d s' =>
    (d <> 0 /\ exists l' T' U', copy_of d s' l' T' U') \/
    (d = 0 /\ PGSIZE * (Z.of_nat (length l) - 1025) <= PGROUNDUP sz /\ refunded s l s')).
Proof.
  destruct (PGROUNDUP_bounds sz) as [Hrm Hrb]; [lia|unfold KERNBASE, PGSIZE in *; lia|].
  unfold copyuvm. apply wp_bind. eapply wp_mono; [|apply (setupkvm_spec data Hdata_page Hdata s l), HU].
  cbv beta. intros d s1 [(Hd & Hdl & l1 & T1 & HS)|(-> & Hlen & HR)].
  2: { cbn [Z.eqb]. apply wpe_ret. right. split; [done|]. split; [unfold PGSIZE in *; lia|done]. }
  rewrite (proj2 (Z.eqb_neq _ _) Hd). apply wp_bind. pose proof (Z.div_pos sz PGSIZE ltac:(lia) ltac:(done)).
  eapply wp_mono; [|apply (copy_loop_spec d s1 l1 T1 HS _ 0 s1 l1 T1 ∅); [apply grown_nil; [apply HS|done]|done|done| |]].
  - cbv beta. intros [] s2 (b & l2 & T2 & U2 & HG & Hb).
    + subst b. apply wpe_ret. left. split; [done|]. exists l2, T2, U2. by eapply copied_copy_of.
    + apply wp_bind. eapply wp_mono; [|eapply freevm_spec, HG]. cbv beta.
      intros _ s3 (l3 & HK3 & Hl3 & Hu3 & Hm3). apply wpe_ret. right. split; [done|]. split; [done|].
      pose proof (copied_pages d s1 l1 T1 HS _ _ _ _ _ _ HG) as Hpg. rewrite (right_id_L ∅ (∪)) in Hpg.
      exists l3. split; [done|]. split; [by rewrite Hl3|].
      split; [rewrite Hu3, (gw_use _ _ _ _ _ _ _ _ _ _ _ _ _ _ _ HG); apply HS|].
      intros x Hx. rewrite Hm3; [by eapply copied_mem|].
      eapply off_pages_sub; [|exact Hx]. rewrite <- Hpg. unfold pages. set_solver +.
  - rewrite Z2Nat.id by lia. unfold PGSIZE in *. pose proof (Z.div_mod sz 4096 ltac:(lia)).
    pose proof (Z.mod_pos_bound sz 4096 ltac:(lia)). lia.
  - unfold PGSIZE. lia.
Qed.

End copyuvm.

End space.

(** ** Properties *)

(** C17: allocuvm is all or nothing. Growing a user space whose pages from
    [PGROUNDUP(oldsz)] up to [newsz] are unmapped either returns the new size,
    and then exactly those pages are added, each on a frame of its own taken
    from the free list, filled with zeros and mapped writable for the user,
    or returns 0, and then the space maps what it mapped before. No page is
    lost either way, memory outside the free pages and the page tables is
    untouched, and failure needs fewer than two free pages per new page. *)
Theorem allocuvm_all_or_nothing kend cprintf s l pgdir T U oldsz newsz :
  KERNBASE < kend -> (forall msg s, cprintf msg s = Ret tt s) ->
  uspace kend s l pgdir T U -> 0 <= oldsz <= newsz -> newsz < KERNBASE ->
  (forall v, PGROUNDUP oldsz <= v < newsz -> U !! v = None) ->
  wp (allocuvm kend cprintf pgdir oldsz newsz) s (fun r s' =>
    exists l' T' U', uspace kend s' l' pgdir T' U' /\ pages l' pgdir T' U' = pages l pgdir T U /\ U ⊆ U' /\
      (forall x, off_pages (list_to_set l ∪ tpages pgdir T) x -> phys s' x = phys s x) /\
      ((r = i32 newsz /\
        (forall v, is_Some (U' !! v) <->
           is_Some (U !! v) \/ (PGROUNDUP oldsz <= v < PGROUNDUP newsz /\ v mod PGSIZE = 0)) /\
        (forall v f, U !! v = None -> U' !! v = Some f ->
           f ∈ l /\ entry (phys s') pgdir v = mapped (V2P f) (Z.lor PTE_W PTE_U) /\
           forall k, 0 <= k < PGSIZE -> phys s' (f + k) = 0)) \/
       (r = 0 /\ U' = U /\ PGSIZE * Z.of_nat (length l) < 2 * (PGROUNDUP newsz - PGROUNDUP oldsz)))).
Proof.
  intros Hk Hc HU Hsz Hn He. eapply wp_mono; [|by apply (allocuvm_spec kend Hk cprintf Hc s l pgdir T U)].
  cbv beta. intros r s' [(-> & l' & T' & U' & [HU' Hsub _ Hdom Hnew _ Hpg Hmem _])|(-> & Hlen & l' & T' & [HU' _ _ Hpg Hmem _])].
  - exists l', T', U'. rewrite (right_id_L ∅ (∪)) in Hpg. do 4 (split; [done|]). by left.
  - exists l', T', U. rewrite (right_id_L ∅ (∪)) in Hpg. do 4 (split; [done|]). by right.
Qed.

(** Deallocuvm frees exactly the frames of the pages from
    [PGROUNDUP(newsz)] up to [oldsz]: they are unmapped and their frames are
    on the free list, every other page keeps its frame and its memory, and
    the pages of the space and of the allocator together stay the same. *)
Theorem deallocuvm_frees_exactly kend s l pgdir T U oldsz newsz :
  KERNBASE < kend -> uspace kend s l pgdir T U -> 0 <= newsz < oldsz -> oldsz <= KERNBASE ->
  wp (deallocuvm kend pgdir oldsz newsz) s (fun r s' =>
    r = i32 newsz /\ exists l' U', uspace kend s' l' pgdir T U' /\
      (forall v, U' !! v = if (PGROUNDUP newsz <=? v) && (v <? oldsz) then None else U !! v) /\
      list_to_set l' = list_to_set l ∪ frames U ∖ frames U' /\
      (forall v f k, U' !! v = Some f -> 0 <= k < PGSIZE -> phys s' (f + k) = phys s (f + k))).
Proof.
  intros Hk HU Hn Ho. eapply wp_mono; [|by apply (dealloc_spec kend Hk s l pgdir T U)]. cbv beta.
  intros r s' (-> & l' & U' & [HU' Hcl Hpg _ Hm _]). split; [done|]. exists l', U'. do 2 (split; [done|]).
  assert (Hsub : forall f, f ∈ frames U' -> f ∈ frames U).
  { intros f [v Hv]%elem_frames. apply elem_frames. exists v. rewrite Hcl in Hv. by destruct (_ && _). }
  split.
  - apply set_eq. intros x. assert (Hx : x ∈ pages l' pgdir T U' <-> x ∈ pages l pgdir T U) by by rewrite Hpg.
    unfold pages in Hx.
    rewrite !elem_of_union, !elem_of_list_to_set in Hx. rewrite elem_of_union, elem_of_difference, !elem_of_list_to_set.
    split.
    + intros Hl'. destruct (us_fresh _ _ _ _ _ _ HU' x Hl') as [Hnt Hnf].
      assert ((x ∈ l ∨ x ∈ tpages pgdir T) ∨ x ∈ frames U) as [[?|?]|?] by (apply Hx; auto); auto; done.
    + intros Hin. assert ((x ∈ l' ∨ x ∈ tpages pgdir T) ∨ x ∈ frames U') as [[?|Ht]|Hf]
        by (apply Hx; destruct Hin as [?|[? ?]]; auto); [done| |].
      * destruct Hin as [Hl|[[v Hv]%elem_frames _]].
        -- by destruct (us_fresh _ _ _ _ _ _ HU x Hl).
        -- by destruct (us_frame _ _ _ _ _ _ HU v x Hv) as (_ & _ & _ & ? & _).
      * destruct Hin as [Hl|[_ ?]]; [|done]. destruct (us_fresh _ _ _ _ _ _ HU x Hl) as [_ []]. auto.
  - intros v f k Hv Hk'. destruct (us_frame _ _ _ _ _ _ HU' v f Hv) as (_ & _ & Hfv & Hft & _). apply Hm.
    + intros p Hp. eapply (page_off kend f); [done| |by intros ->|lia]. eapply tpages_valid; [|done]. apply HU.
    + intros p [Hp Hnp]%elem_of_difference. apply elem_frames in Hp as [w Hw].
      destruct (us_frame _ _ _ _ _ _ HU w p Hw) as (_ & _ & Hpv & _).
      eapply (page_off kend f); [done|done| |lia]. intros ->. apply Hnp, elem_frames. eauto.
Qed.

(** C16: copyuvm gives fork a copy. For a parent that maps every page below
    [sz], it either returns a page directory whose pages below [sz] are
    copies of the parent's, byte for byte and with the same flags, on frames
    of their own, whose kernel half is the kernel's map, and which took its
    pages from the free list, leaving the parent's space as it was; or it
    returns 0 with every page it took free again, which happens only when
    fewer than 1026 pages plus one for each page to copy were free. *)
Theorem copyuvm_copies kend data s l pgdir T U sz :
  KERNBASE < kend -> data mod PGSIZE = 0 -> KERNLINK < data < P2V PHYSTOP ->
  uspace kend s l pgdir T U -> 0 <= sz <= KERNBASE ->
  (forall v, 0 <= v < sz -> v mod PGSIZE = 0 -> is_Some (U !! v)) ->
  wp (copyuvm kend data pgdir sz) s (fun d s' =>
    (d <> 0 /\ exists l' T' U', copy_of kend data s l pgdir T U sz d s' l' T' U') \/
    (d = 0 /\ PGSIZE * (Z.of_nat (length l) - 1025) <= PGROUNDUP sz /\
     exists l', uspace kend s' l' pgdir T U /\ (list_to_set l' : gset Z) = list_to_set l /\
       forall v f k, U !! v = Some f -> 0 <= k < PGSIZE -> phys s' (f + k) = phys s (f + k))).
Proof.
  intros Hk Hdm Hd HU Hsz Hm.
  eapply wp_mono; [|by apply (copyuvm_spec kend Hk data Hdm Hd s l pgdir T U sz)]. cbv beta.
  intros d s' [?|(-> & Hlen & HR)]; [by left|right]. split; [done|]. split; [done|].
  by apply (refunded_parent kend s l pgdir T U).
Qed.

(** Freevm gives back everything: the frames of the user pages, the page
    tables and the directory are all on the free list, and no other memory
    changes. *)
Theorem freevm_frees_everything kend s l pgdir T U :
  KERNBASE < kend -> uspace kend s l pgdir T U ->
  wp (freevm kend pgdir) s (fun _ s' => exists l', kinv kend s' l' /\
    (list_to_set l' : gset Z) = list_to_set l ∪ tpages pgdir T ∪ frames U /\
    forall x, off_pages (tpages pgdir T ∪ frames U) x -> phys s' x = phys s x).
Proof.
  intros Hk HU. eapply wp_mono; [|by apply (freevm_spec kend Hk s l pgdir T U)]. cbv beta.
  intros _ s' (l' & HK & Hl & _ & Hm). exists l'. done.
Qed.

(** *** A concrete space

    The kernel ends at 0x80115000. A page directory with one table maps the
    page 0 to a frame; two more pages are free. *)
Definition demo_mem : mem :=
  store32 (store32 (store32 (fun _ => 0) 0x80400000 0x401007) 0x80401000 0x402007) 0x80403000 0x80404000.

Definition demo : kmem := KMem false true 0x80403000 demo_mem.

Lemma demo_word a : a mod 4 = 0 ->
  load32 demo_mem a = if a =? 0x80403000 then 0x80404000 else if a =? 0x80401000 then 0x402007
                      else if a =? 0x80400000 then 0x401007 else 0.
Proof.
  intros Ha. pose proof (Z.div_mod a 4 ltac:(lia)). unfold demo_mem.
  destruct (Z.eqb_spec a 0x80403000) as [->|H1]; [by rewrite load32_store32_eq|].
  rewrite load32_store32_ne by lia.
  destruct (Z.eqb_spec a 0x80401000) as [->|H2]; [by rewrite load32_store32_eq|].
  rewrite load32_store32_ne by lia.
  destruct (Z.eqb_spec a 0x80400000) as [->|H3]; [by rewrite load32_store32_eq|].
  rewrite load32_store32_ne by lia. done.
Qed.

Lemma demo_valid a : a ∈ [0x80400000; 0x80401000; 0x80402000; 0x80403000; 0x80404000] -> valid_page 0x80115000 a.
Proof. intros Ha. repeat (apply elem_of_cons in Ha as [->|Ha]; [vm_compute; split_and!; congruence|]). by apply not_elem_of_nil in Ha. Qed.

Ltac demo_page := apply demo_valid; repeat (apply list_elem_of_here || apply list_elem_of_further).

Lemma demo_kinv : kinv 0x80115000 demo [0x80403000; 0x80404000].
Proof.
  split; [done|]. split; [|split; [|split]].
  - cbn [free_pages phys demo freelist]. rewrite !demo_word by done. done.
  - apply NoDup_cons. split; [|apply NoDup_singleton]. intros H%list_elem_of_singleton. done.
  - repeat constructor; demo_page.
  - do 3 apply store32_ok. intros x. unfold in_u8. lia.
Qed.

Lemma demo_entry w : in_u32 w -> entry demo_mem 0x80400000 w = if w / PGSIZE =? 0 then 0x402007 else 0.
Proof.
  intros Hw. pose proof (same_page w 0 Hw ltac:(done)) as Hs. change (PDX 0) with 0 in Hs. change (PTX 0) with 0 in Hs.
  change (0 / PGSIZE) with 0 in Hs. pose proof (PDX_range w). pose proof (PTX_range w). unfold entry.
  rewrite demo_word by (replace (0x80400000 + 4 * PDX w) with ((0x20100000 + PDX w) * 4) by lia; apply Z_mod_mult).
  destruct (Z.eqb_spec (0x80400000 + 4 * PDX w) 0x80403000); [lia|].
  destruct (Z.eqb_spec (0x80400000 + 4 * PDX w) 0x80401000); [lia|].
  destruct (Z.eqb_spec (0x80400000 + 4 * PDX w) 0x80400000) as [Hd|Hd].
  - change (present 0x401007) with true. cbv iota. change (P2V (PTE_ADDR 0x401007)) with 0x80401000.
    rewrite demo_word by (replace (0x80401000 + 4 * PTX w) with ((0x20100400 + PTX w) * 4) by lia; apply Z_mod_mult).
    destruct (Z.eqb_spec (0x80401000 + 4 * PTX w) 0x80403000); [lia|].
    destruct (Z.eqb_spec (0x80401000 + 4 * PTX w) 0x80401000) as [Ht|Ht].
    + by rewrite (proj1 Hs) by lia.
    + destruct (Z.eqb_spec (0x80401000 + 4 * PTX w) 0x80400000); [lia|].
      destruct (Z.eqb_spec (w / PGSIZE) 0); [|done]. destruct (proj2 Hs); [done|lia].
  - change (present 0) with false. cbv iota. destruct (Z.eqb_spec (w / PGSIZE) 0); [|done]. destruct (proj2 Hs); [done|lia].
Qed.

Lemma demo_space :
  uspace 0x80115000 demo [0x80403000; 0x80404000] 0x80400000 {[0 := 0x80401000]} {[0 := 0x80402000]}.
Proof.
  split.
  - apply demo_kinv.
  - split.
    + demo_page.
    + intros i pt [<- <-]%lookup_singleton_Some. rewrite demo_word by done. split; [lia|]. split; [demo_page|].
      split; [lia|]. done.
    + intros i Hi Hn%lookup_singleton_None.
      rewrite demo_word by (replace (0x80400000 + 4 * i) with ((0x20100000 + i) * 4) by lia; apply Z_mod_mult).
      case_eqb; done.
    + intros i j pt [<- _]%lookup_singleton_Some [<- _]%lookup_singleton_Some. done.
  - intros x Hx. unfold tpages, frames. rewrite !map_img_singleton_L.
    repeat (apply elem_of_cons in Hx as [->|Hx]; [split; vm_compute; congruence|]). by apply not_elem_of_nil in Hx.
  - intros v f [<- <-]%lookup_singleton_Some. rewrite demo_entry by done.
    split; [done|]. split; [done|]. split; [demo_page|]. split; [|done].
    unfold tpages. rewrite map_img_singleton_L. vm_compute. congruence.
  - intros v Hv Hm Hn%lookup_singleton_None. rewrite demo_entry by (unfold in_u32, KERNBASE in *; lia).
    destruct (Z.eqb_spec (v / PGSIZE) 0) as [H0|]; [|done]. unfold PGSIZE in *.
    pose proof (Z.div_mod v 4096 ltac:(lia)). lia.
  - intros v w f [<- _]%lookup_singleton_Some [<- _]%lookup_singleton_Some. done.
Qed.

(** Two free pages are enough to grow by one page. *)
Lemma allocuvm_all_or_nothing_witness :
  wp (allocuvm 0x80115000 (fun _ s => Ret tt s) 0x80400000 4096 8192) demo (fun r s' =>
    r = 8192 /\ exists l' T' U', uspace 0x80115000 s' l' 0x80400000 T' U' /\ is_Some (U' !! 4096)).
Proof.
  eapply wp_mono; [|apply (allocuvm_all_or_nothing 0x80115000 _ demo _ _ _ _ 4096 8192
    ltac:(done) (fun _ _ => eq_refl) demo_space); [done|done|]].
  - cbv beta. intros r s' (l' & T' & U' & HU & _ & _ & _ & [(-> & Hdom & _)|(_ & _ & Hlt)]); [|by vm_compute in Hlt].
    split; [done|]. exists l', T', U'. split; [done|]. apply Hdom. right. done.
  - change (PGROUNDUP 4096) with 4096. intros v Hv. rewrite lookup_singleton_None. lia.
Defined.

(** Shrinking to nothing frees the frame. *)
Lemma deallocuvm_frees_exactly_witness :
  wp (deallocuvm 0x80115000 0x80400000 4096 0) demo (fun r s' =>
    r = 0 /\ exists l', kinv 0x80115000 s' l' /\ 0x80402000 ∈ l').
Proof.
  eapply wp_mono; [|apply (deallocuvm_frees_exactly 0x80115000 demo _ _ _ _ 4096 0 ltac:(done) demo_space); done].
  cbv beta. intros r s' (-> & l' & U' & HU & Hcl & Hl & _). split; [done|]. exists l'. split; [apply HU|].
  apply (elem_of_list_to_set (C := gset Z)). rewrite Hl. apply elem_of_union_r, elem_of_difference. split.
  - apply elem_frames. exists 0. apply lookup_singleton_eq.
  - rewrite elem_frames. intros [v Hv]. rewrite Hcl in Hv. change (PGROUNDUP 0) with 0 in Hv.
    destruct (us_frame _ _ _ _ _ _ demo_space v 0x80402000) as (_ & _ & _).
    { by destruct (_ && _). }
    destruct (decide (v = 0)) as [->|Hn]; [done|]. rewrite lookup_singleton_ne in Hv by done.
    by destruct (_ && _).
Defined.

(** Freeing the space leaves its five pages free. *)
Lemma freevm_frees_everything_witness :
  wp (freevm 0x80115000 0x80400000) demo (fun _ s' => exists l', kinv 0x80115000 s' l' /\
    0x80400000 ∈ l' /\ 0x80401000 ∈ l' /\ 0x80402000 ∈ l').
Proof.
  eapply wp_mono; [|apply (freevm_frees_everything 0x80115000 demo _ _ _ _ ltac:(done) demo_space)].
  cbv beta. intros _ s' (l' & HK & Hl & _). exists l'. split; [done|].
  assert (Hin : forall x, x ∈ tpages 0x80400000 {[0 := 0x80401000]} ∪ frames {[0 := 0x80402000]} -> x ∈ l').
  { intros x Hx. apply (elem_of_list_to_set (C := gset Z)). rewrite Hl.
    apply elem_of_union in Hx as [Hx|Hx]; [apply elem_of_union_l|]; by apply elem_of_union_r. }
  split; [|split]; apply Hin.
  - apply elem_of_union_l, elem_tpages. by left.
  - apply elem_of_union_l, elem_tpages. right. exists 0. apply lookup_singleton_eq.
  - apply elem_of_union_r, elem_frames. exists 0. apply lookup_singleton_eq.
Defined.

(** Forking: whatever copyuvm returns, the parent keeps its page. *)
Lemma copyuvm_copies_witness :
  wp (copyuvm 0x80115000 0x80108000 0x80400000 4096) demo (fun d s' =>
    exists l', uspace 0x80115000 s' l' 0x80400000 {[0 := 0x80401000]} {[0 := 0x80402000]}).
Proof.
  eapply wp_mono; [|apply (copyuvm_copies 0x80115000 0x80108000 demo _ _ _ _ 4096 ltac:(done) ltac:(done)
    ltac:(done) demo_space); [done|]].
  - cbv beta. intros d s' [(_ & l' & T' & U' & HC)|(_ & _ & l' & HU & _)]; exists l'; [apply HC|done].
  - intros v Hv Hm. assert (v = 0) as -> by (unfold PGSIZE in *; pose proof (Z.div_mod v 4096 ltac:(lia)); lia).
    rewrite lookup_singleton_eq. eauto.
Defined.
