(* ===== verification/Dlist.v ===== *)
(** Circular doubly linked lists, as the buffer cache threads one through its
    buffers: [nx] and [pv] are the two links of every node, and
    [dchain nx pv a l z] says that following [nx] from [a] visits [l] and then
    [z], and that [pv] leads back. *)

From S2P Require Import Prelude.

Fixpoint dchain (nx pv : nat -> nat) (a : nat) (l : list nat) (z : nat) : Prop :=
  match l with
  | [] => nx a = z /\ pv z = a
  | x :: l => nx a = x /\ pv x = a /\ dchain nx pv x l z
  end.

Section dlist.
Implicit Types (nx pv : nat -> nat) (l : list nat).

Lemma dchain_app nx pv a l1 x l2 z :
  dchain nx pv a (l1 ++ x :: l2) z <-> dchain nx pv a l1 x /\ dchain nx pv x l2 z.
Proof. revert a; induction l1 as [|y l1 IH]; intros a; simpl; [tauto|]. rewrite IH. tauto. Qed.

Lemma dchain_ext nx pv nx' pv' a l z :
  (forall x, x ∈ a :: l -> nx' x = nx x) -> (forall x, x ∈ l ++ [z] -> pv' x = pv x) ->
  dchain nx pv a l z -> dchain nx' pv' a l z.
Proof.
  revert a; induction l as [|x l IH]; intros a Hn Hp; simpl.
  - rewrite Hn, Hp by set_solver. done.
  - rewrite Hn, Hp by set_solver. intros (-> & -> & H). split_and!; [done..|].
    apply IH; [set_solver..|done].
Qed.

Lemma dchain_first nx pv a l z : dchain nx pv a l z -> nx a = hd z l.
Proof. destruct l; simpl; tauto. Qed.

Lemma last_cons_default (x a : nat) l : List.last (x :: l) a = List.last l x.
Proof.
  revert x a; induction l as [|y l IH]; intros x a; [done|].
  change (List.last (y :: l) a = List.last (y :: l) x). by rewrite !IH.
Qed.

Lemma last_in (x : nat) l : List.last l x ∈ x :: l.
Proof.
  revert x; induction l as [|y l IH]; intros x; [set_solver|].
  rewrite last_cons_default. specialize (IH y). set_solver.
Qed.

Lemma dchain_last nx pv a l z : dchain nx pv a l z -> pv z = List.last l a.
Proof.
  revert a; induction l as [|x l IH]; intros a; cbn [dchain]; [by intros [_ ?]|].
  intros (_ & _ & H). by rewrite (IH _ H), last_cons_default.
Qed.

Lemma dchain_rev nx pv a l z : dchain nx pv a l z -> dchain pv nx z (reverse l) a.
Proof.
  revert a; induction l as [|x l IH]; intros a; cbn [dchain]; [by intros [? ?]|].
  intros (? & ? & H). rewrite reverse_cons. apply dchain_app. split; [by apply IH|]. done.
Qed.

(** Inserting [k] right after [h], and removing it. *)
Lemma dchain_insert nx pv h l k :
  NoDup (h :: l) -> k ∉ h :: l -> dchain nx pv h l h ->
  dchain (<[h := k]> (<[k := nx h]> nx)) (<[nx h := k]> (<[k := h]> pv)) h (k :: l) h.
Proof.
  intros Hnd Hk Hc. rewrite (dchain_first _ _ _ _ _ Hc). cbn [dchain].
  split; [by rewrite fn_lookup_insert|]. destruct l as [|x l]; cbn [hd dchain] in *.
  - rewrite fn_lookup_insert_ne, fn_lookup_insert by set_solver. split; [done|].
    rewrite fn_lookup_insert_ne, !fn_lookup_insert by set_solver. done.
  - rewrite fn_lookup_insert_ne, fn_lookup_insert by set_solver. split; [done|].
    rewrite fn_lookup_insert_ne, !fn_lookup_insert by set_solver. split_and!; [done..|].
    destruct Hc as (_ & _ & Hc). apply list.NoDup_cons in Hnd as [Hh Hnd].
    apply list.NoDup_cons in Hnd as [Hx Hnd].
    eapply dchain_ext; [..|exact Hc]; intros y Hy; rewrite !fn_lookup_insert_ne; set_solver.
Qed.

Lemma dchain_remove nx pv h l1 k l2 :
  NoDup (h :: l1 ++ k :: l2) -> dchain nx pv h (l1 ++ k :: l2) h ->
  dchain (<[pv k := nx k]> nx) (<[nx k := pv k]> pv) h (l1 ++ l2) h.
Proof.
  intros Hnd [H1 H2]%dchain_app.
  rewrite (dchain_first _ _ _ _ _ H2), (dchain_last _ _ _ _ _ H1).
  enough (forall a h, dchain nx pv a l1 k -> dchain nx pv k l2 h ->
    NoDup (l1 ++ k :: l2) -> a ∉ l1 ++ k :: l2 -> h ∉ l1 ++ k :: l2 ->
    dchain (<[List.last l1 a := hd h l2]> nx) (<[hd h l2 := List.last l1 a]> pv) a (l1 ++ l2) h) as Hgen.
  { apply list.NoDup_cons in Hnd as [Hh Hnd]. by apply Hgen. }
  clear h H1 H2 Hnd. induction l1 as [|x l1 IH]; intros a h H1 H2 Hnd Ha Hh.
  - cbn [List.last app]. destruct l2 as [|y l2]; cbn [hd dchain app] in *.
    + by rewrite !fn_lookup_insert.
    + rewrite !fn_lookup_insert. split_and!; [done..|]. destruct H2 as (_ & _ & H2).
      apply list.NoDup_cons in Hnd as [Hk [Hy Hnd]%list.NoDup_cons].
      eapply dchain_ext; [..|exact H2]; intros z Hz; rewrite fn_lookup_insert_ne; set_solver.
  - cbn [dchain app] in *. destruct H1 as (Hn & Hp & H1).
    rewrite last_cons_default. apply list.NoDup_cons in Hnd as [Hx Hnd].
    pose proof (last_in x l1) as Hl.
    assert (Hh2 : hd h l2 ∈ l2 ++ [h]) by (destruct l2; set_solver).
    assert (Ha' : List.last l1 x <> a) by (intros E; rewrite E in Hl; set_solver).
    assert (Hx' : hd h l2 <> x) by (intros E; rewrite E in Hh2; set_solver).
    rewrite (fn_lookup_insert_ne nx), (fn_lookup_insert_ne pv) by done.
    split_and!; [done..|]. apply IH; set_solver.
Qed.

End dlist.
