(* ===== verification/Block.v ===== *)
(** Disk blocks, and the interface between the buffer cache and its clients.

    The on-disk constants are those of [fs.h] and [param.h]. [BlockStore] is
    what [bio.c] offers to the log and the file system: a buffer is obtained
    with bread, its data read and replaced, pinned in the cache, written to the
    disk with bwrite, and released with brelse. [BlockStoreLaws] is what the
    clients rely on; Bio.v discharges it. *)

From S2P Require Import Prelude.

Open Scope Z_scope.

(** ** fs.h and param.h *)

Definition BSIZE : Z := 512.
Definition ROOTINO : Z := 1.
Definition NDIRECT : Z := 12.
Definition NINDIRECT : Z := BSIZE / 4.
Definition MAXFILE : Z := NDIRECT + NINDIRECT.
Definition DIRSIZ : Z := 14.
Definition ROOTDEV : Z := 1.
Definition MAXOPBLOCKS : Z := 10.
Definition LOGSIZE : Z := MAXOPBLOCKS * 3.
Definition NBUF : Z := MAXOPBLOCKS * 3.
Definition FSSIZE : Z := 1000.

(** ** Blocks: BSIZE bytes *)

Notation block := (list Z).

Definition block_ok (b : block) : Prop := length b = Z.to_nat BSIZE /\ Forall in_u8 b.

Definition zero_block : block := replicate (Z.to_nat BSIZE) 0.

(** The [n] bytes at offset [off], and replacing bytes at an offset. *)
Definition sub (b : list Z) (off n : nat) : list Z := take n (drop off b).

Definition splice (b : list Z) (off : nat) (bs : list Z) : list Z :=
  take off b ++ bs ++ drop (off + length bs) b.

(** A 32-bit word at a byte offset, as a pointer of type uint reads and
    writes it. *)
Definition get32 (b : list Z) (off : nat) : Z := le_val (sub b off 4).
Definition put32 (b : list Z) (off : nat) (v : Z) : list Z := splice b off (le_bytes 4 v).
Definition get16 (b : list Z) (off : nat) : Z := le_val (sub b off 2).
Definition put16 (b : list Z) (off : nat) (v : Z) : list Z := splice b off (le_bytes 2 v).

Lemma length_splice b off bs :
  (off + length bs <= length b)%nat -> length (splice b off bs) = length b.
Proof. intros H. unfold splice. rewrite !length_app, length_take, length_drop. lia. Qed.

Lemma length_sub b off n : (off + n <= length b)%nat -> length (sub b off n) = n.
Proof. intros H. unfold sub. rewrite length_take, length_drop. lia. Qed.

Lemma lookup_sub b off n i : (i < n)%nat -> sub b off n !! i = b !! (off + i)%nat.
Proof. intros H. unfold sub. rewrite lookup_take_lt, lookup_drop by done. done. Qed.

Lemma lookup_splice b off bs i :
  (off <= length b)%nat ->
  splice b off bs !! i =
  if decide (off <= i < off + length bs)%nat then bs !! (i - off)%nat else b !! i.
Proof.
  intros H. unfold splice. destruct (decide (i < off)%nat).
  - rewrite lookup_app_l by (rewrite length_take; lia). rewrite lookup_take_lt by lia.
    rewrite decide_False by lia. done.
  - rewrite lookup_app_r by (rewrite length_take; lia). rewrite length_take, Nat.min_l by lia.
    destruct (decide (i < off + length bs)%nat).
    + rewrite lookup_app_l by lia. rewrite decide_True by lia. done.
    + rewrite lookup_app_r by lia. rewrite lookup_drop, decide_False by lia. f_equal. lia.
Qed.

Lemma sub_splice_eq b off bs :
  (off <= length b)%nat -> sub (splice b off bs) off (length bs) = bs.
Proof.
  intros H. apply list_eq. intros i. destruct (decide (i < length bs)%nat).
  - rewrite lookup_sub, lookup_splice, decide_True by lia. f_equal. lia.
  - unfold sub. rewrite lookup_take_ge, lookup_ge_None_2 by lia. done.
Qed.

Lemma sub_splice_ne b off bs off' n :
  (off <= length b)%nat ->
  (off' + n <= off \/ off + length bs <= off')%nat ->
  sub (splice b off bs) off' n = sub b off' n.
Proof.
  intros H Hd. apply list_eq. intros i. destruct (decide (i < n)%nat).
  - rewrite !lookup_sub, lookup_splice, decide_False by lia. done.
  - unfold sub. rewrite !lookup_take_ge by lia. done.
Qed.

Lemma Forall_sub (P : Z -> Prop) b off n : Forall P b -> Forall P (sub b off n).
Proof. intros H. unfold sub. by apply Forall_take, Forall_drop. Qed.

Lemma Forall_splice (P : Z -> Prop) b off bs :
  Forall P b -> Forall P bs -> Forall P (splice b off bs).
Proof. intros Hb Hs. unfold splice. rewrite !Forall_app. auto using Forall_take, Forall_drop. Qed.

Lemma get32_put32_eq b off v :
  (off + 4 <= length b)%nat -> get32 (put32 b off v) off = u32 v.
Proof.
  intros H. unfold get32, put32.
  rewrite <- (length_le_bytes 4 v) at 2.
  rewrite sub_splice_eq by (rewrite ?length_le_bytes; lia). by rewrite le_val_bytes.
Qed.

Lemma get32_put32_ne b off off' v :
  (off + 4 <= length b)%nat -> (off' + 4 <= off \/ off + 4 <= off')%nat ->
  get32 (put32 b off v) off' = get32 b off'.
Proof.
  intros H Hd. unfold get32, put32.
  rewrite sub_splice_ne by (rewrite ?length_le_bytes; lia). done.
Qed.

Lemma get16_put16_eq b off v :
  (off + 2 <= length b)%nat -> get16 (put16 b off v) off = u16 v.
Proof.
  intros H. unfold get16, put16. rewrite <- (length_le_bytes 2 v) at 2.
  rewrite sub_splice_eq by (rewrite ?length_le_bytes; lia). by rewrite le_val_bytes.
Qed.

Lemma length_put32 b off v : (off + 4 <= length b)%nat -> length (put32 b off v) = length b.
Proof. intros H. unfold put32. apply length_splice. by rewrite length_le_bytes. Qed.

Lemma length_put16 b off v : (off + 2 <= length b)%nat -> length (put16 b off v) = length b.
Proof. intros H. unfold put16. apply length_splice. by rewrite length_le_bytes. Qed.

Lemma put32_ok b off v :
  block_ok b -> (off + 4 <= Z.to_nat BSIZE)%nat -> block_ok (put32 b off v).
Proof.
  intros [Hl Hb] Ho. split; [rewrite length_put32; lia|].
  apply Forall_splice; auto using le_bytes_range.
Qed.

Lemma get32_range b off : block_ok b -> in_u32 (get32 b off).
Proof.
  intros [Hl Hb]. unfold get32, in_u32.
  pose proof (le_val_range _ (Forall_sub _ b off 4 Hb)) as Hr.
  assert (length (sub b off 4) <= 4)%nat by (unfold sub; rewrite length_take; lia).
  assert (2 ^ (8 * Z.of_nat (length (sub b off 4))) <= 2 ^ 32); [|lia].
  apply Z.pow_le_mono_r; lia.
Qed.

Lemma zero_block_ok : block_ok zero_block.
Proof.
  split; [apply length_replicate|]. unfold zero_block. apply Forall_replicate. unfold in_u8. lia.
Qed.

#[export] Hint Resolve put32_ok zero_block_ok get32_range : xv6.

(** ** The interface *)

Class BlockStore (S : Type) := {
  bread : Z -> Z -> M S nat;         (* dev, blockno -> a locked buffer *)
  bwrite : nat -> M S unit;
  brelse : nat -> M S unit;
  bdata : nat -> M S block;          (* b->data *)
  bset : nat -> block -> M S unit;   (* assignment to b->data *)
  bno : nat -> M S Z;                (* b->blockno *)
  bpin : nat -> M S unit             (* b->flags |= B_DIRTY *)
}.

(** The promises, in terms of four views of the state: the blocks on the disk,
    the current contents of the blocks (the cached copy where there is one),
    the buffers the caller holds, and the blocks pinned in the cache. *)
Class BlockStoreLaws (S : Type) `{BlockStore S} := {
  bs_ok : S -> Prop;
  home : S -> list block;
  content : S -> list block;
  holds : S -> gmap nat Z;
  pinned : S -> gset Z;
  capacity : nat;
  (* the disk a machine boots from *)
  reboot : list block -> option nat -> S;

  (* power does not fail *)
  steady : S -> Prop;

  held_blocks (s : S) : gset Z := map_to_set (fun _ b => b) (holds s);

  bs_length s : bs_ok s -> length (content s) = length (home s);
  bs_blocks s : bs_ok s -> Forall block_ok (content s) /\ Forall block_ok (home s);
  (* a block that is neither held nor pinned has no unwritten changes *)
  bs_clean s b : bs_ok s -> 0 <= b -> b ∉ held_blocks s -> b ∉ pinned s ->
    content s !! Z.to_nat b = home s !! Z.to_nat b;

  reboot_spec d n : Forall block_ok d ->
    let s := reboot d n in
    bs_ok s /\ home s = d /\ content s = d /\ holds s = ∅ /\ pinned s = ∅;

  reboot_steady d : steady (reboot d None);
  bread_steady dev b : nocrash steady (bread dev b);
  bwrite_steady k : nocrash steady (bwrite k);
  brelse_steady k : nocrash steady (brelse k);
  bdata_steady k : nocrash steady (bdata k);
  bset_steady k d : nocrash steady (bset k d);
  bno_steady k : nocrash steady (bno k);
  bpin_steady k : nocrash steady (bpin k);

  bread_spec s b : bs_ok s ->
    0 <= b < Z.of_nat (length (home s)) -> b ∉ held_blocks s ->
    b ∈ pinned s \/ (size (pinned s ∪ held_blocks s) < capacity)%nat ->
    wp (bread ROOTDEV b) s (fun k s' => bs_ok s' /\
      holds s !! k = None /\ holds s' = <[k := b]> (holds s) /\
      home s' = home s /\ content s' = content s /\ pinned s' = pinned s);

  bdata_spec s k b : bs_ok s -> holds s !! k = Some b ->
    exists d, content s !! Z.to_nat b = Some d /\ bdata k s = Ret d s;

  bno_spec s k b : bs_ok s -> holds s !! k = Some b -> bno k s = Ret b s;

  bset_spec s k b d : bs_ok s -> holds s !! k = Some b -> block_ok d ->
    wp (bset k d) s (fun _ s' => bs_ok s' /\
      holds s' = holds s /\ home s' = home s /\ pinned s' = pinned s /\
      content s' = <[Z.to_nat b := d]> (content s));

  bpin_spec s k b : bs_ok s -> holds s !! k = Some b ->
    wp (bpin k) s (fun _ s' => bs_ok s' /\
      holds s' = holds s /\ home s' = home s /\ content s' = content s /\
      pinned s' = {[ b ]} ∪ pinned s);

  (* the only effect on the disk, and the only point where power can fail *)
  bwrite_spec s k b d : bs_ok s -> holds s !! k = Some b ->
    content s !! Z.to_nat b = Some d ->
    wpe (bwrite k) s (fun _ s' => bs_ok s' /\
      holds s' = holds s /\ home s' = <[Z.to_nat b := d]> (home s) /\
      content s' = content s /\ pinned s' = pinned s ∖ {[ b ]})
      (fun w s' => w = Crashed /\ home s' = home s);

  brelse_spec s k b : bs_ok s -> holds s !! k = Some b ->
    b ∈ pinned s \/ content s !! Z.to_nat b = home s !! Z.to_nat b ->
    wp (brelse k) s (fun _ s' => bs_ok s' /\
      holds s' = delete k (holds s) /\ home s' = home s /\
      content s' = content s /\ pinned s' = pinned s)
}.

#[export] Hint Resolve bread_steady bwrite_steady brelse_steady bdata_steady bset_steady bno_steady
  bpin_steady : nocrash.
