(* ===== verification/Bio.v ===== *)
(** The buffer cache of [bio.c], over the in-memory disk driver of [memide.c].

    A buffer is a [struct buf]; the NBUF buffers and the list head
    [bcache.head] are the entries of one table, and a pointer to a buffer is
    its index, so the links [prev] and [next] of the MRU list are those of the
    source. The disk is the array of blocks that [memdisk] points to. The
    state also counts the disk writes until power fails, if it does. *)

From S2P Require Import Prelude Dlist Block Sleeplock.

Open Scope Z_scope.

Definition B_VALID : Z := 0x2.
Definition B_DIRTY : Z := 0x4.

Record buf := Buf {
  b_flags : Z;
  b_dev : Z;
  b_blockno : Z;
  b_lock : sleeplock;
  b_refcnt : Z;
  b_prev : nat;
  b_next : nat;
  b_data : block
}.

Definition set_flags v b :=
  Buf v (b_dev b) (b_blockno b) (b_lock b) (b_refcnt b) (b_prev b) (b_next b) (b_data b).
Definition set_lockb l b :=
  Buf (b_flags b) (b_dev b) (b_blockno b) l (b_refcnt b) (b_prev b) (b_next b) (b_data b).
Definition set_refcnt v b :=
  Buf (b_flags b) (b_dev b) (b_blockno b) (b_lock b) v (b_prev b) (b_next b) (b_data b).
Definition set_prev p b :=
  Buf (b_flags b) (b_dev b) (b_blockno b) (b_lock b) (b_refcnt b) p (b_next b) (b_data b).
Definition set_next n b :=
  Buf (b_flags b) (b_dev b) (b_blockno b) (b_lock b) (b_refcnt b) (b_prev b) n (b_data b).
Definition set_data d b :=
  Buf (b_flags b) (b_dev b) (b_blockno b) (b_lock b) (b_refcnt b) (b_prev b) (b_next b) d.

Record bcache := BCache {
  bc_lock : bool;
  bufs : list buf;         (* bcache.buf, then bcache.head *)
  disk : list block;
  power : option nat       (* disk writes left before power fails *)
}.

Definition set_bc_lock l s := BCache l (bufs s) (disk s) (power s).
Definition set_bufs l s := BCache (bc_lock s) l (disk s) (power s).
Definition set_disk d s := BCache (bc_lock s) (bufs s) d (power s).

(** &bcache.head *)
Definition HEAD : nat := Z.to_nat NBUF.

Definition acquire_bc : M bcache unit :=
  s ← get; if bc_lock s then panic "acquire" else put (set_bc_lock true s).
Definition release_bc : M bcache unit :=
  s ← get; if bc_lock s then put (set_bc_lock false s) else panic "release".

(** Reading and assigning through a [struct buf] pointer. *)
Definition rd (k : nat) : M bcache buf :=
  s ← get; match bufs s !! k with Some b => mret b | None => panic "wild pointer" end.
Definition wr (k : nat) (f : buf -> buf) : M bcache unit :=
  b ← rd k; modify (fun s => set_bufs (<[k := f b]> (bufs s)) s).

(** An operation of the sleep lock inside buffer [k]. *)
Definition on_lock {A} (k : nat) (m : M sleeplock A) : M bcache A := fun s =>
  match bufs s !! k with
  | Some b =>
      match m (b_lock b) with
      | Ret a l => Ret a (set_bufs (<[k := set_lockb l b]> (bufs s)) s)
      | Stop w l => Stop w (set_bufs (<[k := set_lockb l b]> (bufs s)) s)
      end
  | None => Stop (Panicked "wild pointer") s
  end.

(** Putting buffer [k] at the front of the MRU list. *)
Definition link_front (k : nat) : M bcache unit :=
  h ← rd HEAD;
  wr k (set_next (b_next h)) ;;
  wr k (set_prev HEAD) ;;
  h ← rd HEAD;
  wr (b_next h) (set_prev k) ;;
  wr HEAD (set_next k).

Definition binit : M bcache unit :=
  modify (set_bc_lock false) ;;
  wr HEAD (set_prev HEAD) ;;
  wr HEAD (set_next HEAD) ;;
  for_each (seq 0 (Z.to_nat NBUF)) (fun k =>
    on_lock k (initsleeplock "buffer") ;;   (* sets no link *)
    link_front k).

Section bio.
(** [myproc()->pid] *)
Variable me : Z.

(** ** memide.c *)

(** Storing a block on the disk, unless power fails first. *)
Definition disk_write (n : nat) (d : block) : M bcache unit := fun s =>
  match power s with
  | Some O => Stop Crashed s
  | Some (S p) => Ret tt (BCache (bc_lock s) (bufs s) (<[n := d]> (disk s)) (Some p))
  | None => Ret tt (set_disk (<[n := d]> (disk s)) s)
  end.

Definition iderw (k : nat) : M bcache unit :=
  h ← on_lock k (holdingsleep me);
  if negb h then panic "iderw: buf not locked"
  else
    b ← rd k;
    if Z.land (b_flags b) (Z.lor B_VALID B_DIRTY) =? B_VALID then panic "iderw: nothing to do"
    else if negb (b_dev b =? 1) then panic "iderw: request not for disk 1"
    else
      s ← get;
      match disk s !! Z.to_nat (b_blockno b) with
      | None => panic "iderw: block out of range"
      | Some d =>
          (if negb (Z.land (b_flags b) B_DIRTY =? 0) then
             wr k (set_flags (Z.ldiff (b_flags b) B_DIRTY)) ;;
             disk_write (Z.to_nat (b_blockno b)) (b_data b)
           else wr k (set_data d)) ;;
          wr k (fun b => set_flags (Z.lor (b_flags b) B_VALID) b)
      end.

(** ** bio.c *)

(** The two scans of bget, over [next] and over [prev]. *)
Fixpoint scan (fuel : nat) (dir : buf -> nat) (test : buf -> bool) (k : nat) :
    M bcache (option nat) :=
  match fuel with
  | O => out_of_fuel
  | S fuel =>
      if decide (k = HEAD) then mret None
      else b ← rd k; if test b then mret (Some k) else scan fuel dir test (dir b)
  end.

Definition bget (dev blockno : Z) : M bcache nat :=
  acquire_bc ;;
  (* Is the block already cached? *)
  h ← rd HEAD;
  r ← scan (S HEAD) b_next (fun b => (b_dev b =? dev) && (b_blockno b =? blockno)) (b_next h);
  match r with
  | Some k =>
      wr k (fun b => set_refcnt (u32 (b_refcnt b + 1)) b) ;;
      release_bc ;;
      on_lock k (acquiresleep me k) ;;
      mret k
  | None =>
      (* Not cached; recycle an unused buffer. *)
      r ← scan (S HEAD) b_prev
            (fun b => (b_refcnt b =? 0) && (Z.land (b_flags b) B_DIRTY =? 0)) (b_prev h);
      match r with
      | Some k =>
          wr k (fun b => Buf 0 dev blockno (b_lock b) 1 (b_prev b) (b_next b) (b_data b)) ;;
          release_bc ;;
          on_lock k (acquiresleep me k) ;;
          mret k
      | None => panic "bget: no buffers"
      end
  end.

Definition bread (dev blockno : Z) : M bcache nat :=
  k ← bget dev blockno;
  b ← rd k;
  when (Z.land (b_flags b) B_VALID =? 0) (iderw k) ;;
  mret k.

Definition bwrite (k : nat) : M bcache unit :=
  h ← on_lock k (holdingsleep me);
  if negb h then panic "bwrite"
  else
    wr k (fun b => set_flags (Z.lor (b_flags b) B_DIRTY) b) ;;
    iderw k.

(** [b->next->prev = b->prev; b->prev->next = b->next;] *)
Definition unlink (k : nat) : M bcache unit :=
  b ← rd k;
  wr (b_next b) (set_prev (b_prev b)) ;;
  b ← rd k;
  wr (b_prev b) (set_next (b_next b)).

Definition brelse (k : nat) : M bcache unit :=
  h ← on_lock k (holdingsleep me);
  if negb h then panic "brelse"
  else
    on_lock k releasesleep ;;
    acquire_bc ;;
    wr k (fun b => set_refcnt (u32 (b_refcnt b - 1)) b) ;;
    b ← rd k;
    when (b_refcnt b =? 0) (unlink k ;; link_front k) ;;
    release_bc.

(** The accesses of the cache's clients to the buffer they hold. *)
Definition buf_data (k : nat) : M bcache block := b ← rd k; mret (b_data b).
Definition buf_set (k : nat) (d : block) : M bcache unit := wr k (set_data d).
Definition buf_no (k : nat) : M bcache Z := b ← rd k; mret (b_blockno b).
Definition buf_pin (k : nat) : M bcache unit :=
  wr k (fun b => set_flags (Z.lor (b_flags b) B_DIRTY) b).

#[export] Instance bio_store : BlockStore bcache := {
  Block.bread := bread; Block.bwrite := bwrite; Block.brelse := brelse;
  bdata := buf_data; bset := buf_set; bno := buf_no; bpin := buf_pin
}.

End bio.

(** ** The MRU list *)

Definition linkf (dir : buf -> nat) (l : list buf) (k : nat) : nat := from_option dir O (l !! k).

(** [order] lists the buffers from the most to the least recently used. *)
Definition mru (l : list buf) (order : list nat) : Prop :=
  dchain (linkf b_next l) (linkf b_prev l) HEAD order HEAD /\ order ≡ₚ seq 0 HEAD.

Lemma mru_elem l order k : mru l order -> k ∈ order <-> (k < HEAD)%nat.
Proof. intros [_ ->]. rewrite elem_of_seq. lia. Qed.

Lemma mru_NoDup l order : mru l order -> NoDup (HEAD :: order).
Proof.
  intros H. apply list.NoDup_cons. split; [rewrite mru_elem by done; lia|].
  destruct H as [_ ->]. apply NoDup_seq.
Qed.

Lemma mru_length l order : mru l order -> length order = HEAD.
Proof. intros [_ ->]. apply length_seq. Qed.


Lemma rd_run k s b : bufs s !! k = Some b -> rd k s = Ret b s.
Proof. intros H. unfold rd. mred. by rewrite H. Qed.

Lemma wr_run k f s b :
  bufs s !! k = Some b -> wr k f s = Ret tt (set_bufs (<[k := f b]> (bufs s)) s).
Proof. intros H. unfold wr. mred. by rewrite (rd_run k s b). Qed.

Lemma on_lock_run {A} k (m : M sleeplock A) s b a l :
  bufs s !! k = Some b -> m (b_lock b) = Ret a l ->
  on_lock k m s = Ret a (set_bufs (<[k := set_lockb l b]> (bufs s)) s).
Proof. intros H Hm. unfold on_lock. by rewrite H, Hm. Qed.

(** [s'] is [s] up to the links of the list. *)
Definition unlinked (b : buf) : buf :=
  Buf (b_flags b) (b_dev b) (b_blockno b) (b_lock b) (b_refcnt b) 0 0 (b_data b).

Definition relinked (s s' : bcache) : Prop :=
  bc_lock s' = bc_lock s /\ disk s' = disk s /\ power s' = power s /\
  unlinked <$> bufs s' = unlinked <$> bufs s.

Lemma relinked_refl s : relinked s s.
Proof. done. Qed.

Lemma relinked_trans s1 s2 s3 : relinked s1 s2 -> relinked s2 s3 -> relinked s1 s3.
Proof. unfold relinked. intros (? & ? & ? & ?) (? & ? & ? & ?). split_and!; congruence. Qed.

Lemma relinked_length s s' : relinked s s' -> length (bufs s') = length (bufs s).
Proof.
  intros (_ & _ & _ & H). rewrite <- (length_fmap unlinked (bufs s)), <- H. by rewrite length_fmap.
Qed.

Lemma relinked_lookup s s' k b' :
  relinked s s' -> bufs s' !! k = Some b' ->
  exists b, bufs s !! k = Some b /\ unlinked b' = unlinked b.
Proof.
  intros (_ & _ & _ & H) Hb. apply (f_equal (fun l => l !! k)) in H.
  rewrite !list_lookup_fmap, Hb in H. simpl in H.
  destruct (bufs s !! k) as [b|]; [|done]. exists b. split; [done|]. by apply (inj Some) in H.
Qed.

Definition links (s : bcache) (N P : nat -> nat) : Prop :=
  (forall x, linkf b_next (bufs s) x = N x) /\ (forall x, linkf b_prev (bufs s) x = P x).

Lemma linkf_insert dir (l : list buf) k b x :
  (k < length l)%nat -> linkf dir (<[k := b]> l) x = (<[k := dir b]> (linkf dir l)) x.
Proof.
  intros Hk. unfold linkf at 1. destruct (decide (k = x)) as [<-|Hne].
  - by rewrite list_lookup_insert_eq, fn_lookup_insert.
  - by rewrite list_lookup_insert_ne, fn_lookup_insert_ne.
Qed.

Lemma insert_id_dir dir (l : list buf) k b N x :
  l !! k = Some b -> (forall x, linkf dir l x = N x) -> (<[k := dir b]> N : nat -> nat) x = N x.
Proof.
  intros Hb HN. destruct (decide (k = x)) as [<-|Hne]; [|by rewrite fn_lookup_insert_ne].
  rewrite fn_lookup_insert, <- HN. unfold linkf. by rewrite Hb.
Qed.

Lemma fn_insert_ext (N N' : nat -> nat) k v x :
  (forall x, N x = N' x) -> (<[k := v]> N : nat -> nat) x = (<[k := v]> N' : nat -> nat) x.
Proof.
  intros H. destruct (decide (k = x)) as [<-|Hne];
    [by rewrite !fn_lookup_insert | by rewrite !fn_lookup_insert_ne].
Qed.

Lemma relinked_insert s k b b' :
  bufs s !! k = Some b -> unlinked b' = unlinked b ->
  relinked s (set_bufs (<[k := b']> (bufs s)) s).
Proof.
  intros Hb Hu. split_and!; [done..|]. simpl. rewrite list_fmap_insert.
  apply list_insert_id. by rewrite list_lookup_fmap, Hb, Hu.
Qed.

Lemma wr_next s j v N P (Q : unit -> bcache -> Prop) :
  links s N P -> (j < length (bufs s))%nat ->
  (forall s', links s' (<[j := v]> N) P -> relinked s s' -> Q tt s') -> wp (wr j (set_next v)) s Q.
Proof.
  intros [HN HP] [b Hb]%lookup_lt_is_Some_2 HQ. pose proof (lookup_lt_Some _ _ _ Hb).
  eapply wp_intro; [by apply wr_run|]. apply HQ; [|by apply relinked_insert with b].
  split; intros x; cbn [bufs set_bufs]; rewrite linkf_insert by done.
  - by apply fn_insert_ext.
  - rewrite (fn_insert_ext _ _ _ _ _ HP). by apply (insert_id_dir b_prev (bufs s) j b P).
Qed.

Lemma wr_prev s j v N P (Q : unit -> bcache -> Prop) :
  links s N P -> (j < length (bufs s))%nat ->
  (forall s', links s' N (<[j := v]> P) -> relinked s s' -> Q tt s') -> wp (wr j (set_prev v)) s Q.
Proof.
  intros [HN HP] [b Hb]%lookup_lt_is_Some_2 HQ. pose proof (lookup_lt_Some _ _ _ Hb).
  eapply wp_intro; [by apply wr_run|]. apply HQ; [|by apply relinked_insert with b].
  split; intros x; cbn [bufs set_bufs]; rewrite linkf_insert by done.
  - rewrite (fn_insert_ext _ _ _ _ _ HN). by apply (insert_id_dir b_next (bufs s) j b N).
  - by apply fn_insert_ext.
Qed.

Lemma rd_links s k N P (Q : buf -> bcache -> Prop) :
  links s N P -> (k < length (bufs s))%nat ->
  (forall b, bufs s !! k = Some b -> b_next b = N k -> b_prev b = P k -> Q b s) -> wp (rd k) s Q.
Proof.
  intros [HN HP] [b Hb]%lookup_lt_is_Some_2 HQ.
  eapply wp_intro; [by apply rd_run|]. apply HQ; [done|rewrite <- HN|rewrite <- HP];
  unfold linkf; by rewrite Hb.
Qed.

(** The chain starts inside the table. *)
Lemma dchain_next_lt N P order n :
  dchain N P HEAD order HEAD -> (forall x, x ∈ order -> (x < HEAD)%nat) -> n = S HEAD ->
  (N HEAD < n)%nat.
Proof.
  intros Hc Ho ->. rewrite (dchain_first _ _ _ _ _ Hc). destruct order as [|x o]; simpl; [lia|].
  specialize (Ho x ltac:(set_solver)). lia.
Qed.

Lemma link_front_spec s k N P order :
  length (bufs s) = S HEAD -> links s N P -> dchain N P HEAD order HEAD ->
  NoDup (HEAD :: order) -> (forall x, x ∈ order -> (x < HEAD)%nat) ->
  (k < HEAD)%nat -> k ∉ order ->
  wp (link_front k) s (fun _ s' => relinked s s' /\ exists N' P',
    links s' N' P' /\ dchain N' P' HEAD (k :: order) HEAD).
Proof.
  intros Hlen HL Hc Hnd Ho Hk Hko.
  pose proof (dchain_next_lt _ _ _ _ Hc Ho Hlen) as Hf.
  unfold link_front. apply wp_bind, (rd_links s HEAD N P); [done|lia|]. intros h Hh Hn _. rewrite Hn.
  apply wp_bind, (wr_next s k _ N P); [done|lia|]. intros s1 HL1 R1.
  apply wp_bind, (wr_prev s1 k _ _ _ _ HL1); [rewrite (relinked_length _ _ R1); lia|]. intros s2 HL2 R2.
  pose proof (relinked_trans _ _ _ R1 R2) as R. clear R1 R2 HL1.
  apply wp_bind, (rd_links s2 HEAD _ _ _ HL2); [rewrite (relinked_length _ _ R); lia|].
  intros h2 _ Hn2 _. rewrite fn_lookup_insert_ne in Hn2 by lia. rewrite Hn2.
  apply wp_bind, (wr_prev s2 _ _ _ _ _ HL2); [rewrite (relinked_length _ _ R); lia|].
  intros s3 HL3 R3. pose proof (relinked_trans _ _ _ R R3) as R'. clear R R3 HL2.
  apply (wr_next s3 _ _ _ _ _ HL3); [rewrite (relinked_length _ _ R'); lia|].
  intros s4 HL4 R4. split; [by eapply relinked_trans|]. do 2 eexists. split; [exact HL4|].
  apply dchain_insert; [done| |done]. apply not_elem_of_cons. split; [lia|done].
Qed.

Lemma unlink_spec s k N P l1 l2 :
  length (bufs s) = S HEAD -> links s N P -> dchain N P HEAD (l1 ++ k :: l2) HEAD ->
  NoDup (HEAD :: l1 ++ k :: l2) -> (forall x, x ∈ l1 ++ k :: l2 -> (x < HEAD)%nat) ->
  wp (unlink k) s (fun _ s' => relinked s s' /\ exists N' P',
    links s' N' P' /\ dchain N' P' HEAD (l1 ++ l2) HEAD).
Proof.
  intros Hlen HL Hc Hnd Ho.
  assert (Hk : (k < HEAD)%nat) by (apply Ho; set_solver).
  pose proof (proj1 (dchain_app _ _ _ _ _ _ _) Hc) as [H1 H2].
  assert (Hn : (N k < S HEAD)%nat).
  { rewrite (dchain_first _ _ _ _ _ H2). destruct l2 as [|x l2]; simpl; [lia|].
    specialize (Ho x ltac:(set_solver)). lia. }
  assert (Hp : (P k < S HEAD)%nat).
  { rewrite (dchain_last _ _ _ _ _ H1). pose proof (last_in HEAD l1) as Hl.
    apply elem_of_cons in Hl as [->|Hl]; [lia|]. specialize (Ho (List.last l1 HEAD) ltac:(set_solver)). lia. }
  unfold unlink. apply wp_bind, (rd_links s k N P); [done|lia|]. intros b _ -> ->.
  apply wp_bind, (wr_prev s _ _ N P); [done|lia|]. intros s1 HL1 R1.
  pose proof (dchain_remove _ _ _ _ _ _ Hnd Hc) as Hr.
  assert (Hnk : N k <> k).
  { rewrite (dchain_first _ _ _ _ _ H2). apply list.NoDup_cons in Hnd as [Hh Hnd].
    apply list.NoDup_app in Hnd as (_ & _ & [Hk2 _]%list.NoDup_cons). destruct l2; simpl; [lia|set_solver]. }
  apply wp_bind, (rd_links s1 k _ _ _ HL1); [rewrite (relinked_length _ _ R1); lia|].
  intros b' _ -> ->. rewrite fn_lookup_insert_ne by done.
  apply (wr_next s1 _ _ _ _ _ HL1); [rewrite (relinked_length _ _ R1); lia|].
  intros s2 HL2 R2. split; [by eapply relinked_trans|]. eauto.
Qed.

(** ** The scans *)

Definition hit (test : buf -> bool) (l : list buf) (k : nat) : bool :=
  match l !! k with Some b => test b | None => false end.

Lemma scan_chain dir test s P a order fuel :
  dchain (linkf dir (bufs s)) P a order HEAD ->
  (forall x, x ∈ order -> (x < HEAD)%nat) -> length (bufs s) = S HEAD ->
  (length order < fuel)%nat ->
  scan fuel dir test (linkf dir (bufs s) a) s = Ret (List.find (hit test (bufs s)) order) s.
Proof.
  revert a fuel; induction order as [|x order IH]; intros a [|fuel] Hc Ho Hlen Hf;
    cbn [dchain length] in *; try lia; cbn [scan].
  - destruct Hc as [-> _]. by rewrite decide_True.
  - destruct Hc as (-> & _ & Hc). pose proof (Ho x ltac:(set_solver)) as Hx.
    rewrite decide_False by lia. destruct (lookup_lt_is_Some_2 (bufs s) x) as [b Hb]; [lia|].
    mred. rewrite (rd_run x s b) by done. cbn [List.find]. unfold hit at 1. rewrite Hb.
    destruct (test b); [done|].
    replace (dir b) with (linkf dir (bufs s) x) by (unfold linkf; by rewrite Hb).
    apply IH; [done| |done|lia]. intros y Hy. apply Ho. set_solver.
Qed.

Lemma mru_in_range l order x : mru l order -> x ∈ order -> (x < HEAD)%nat.
Proof. intros H. by rewrite mru_elem. Qed.

Lemma scan_next test s order :
  mru (bufs s) order -> length (bufs s) = S HEAD ->
  scan (S HEAD) b_next test (linkf b_next (bufs s) HEAD) s =
    Ret (List.find (hit test (bufs s)) order) s.
Proof.
  intros Hm Hlen. eapply scan_chain; [apply Hm| |done|].
  - intros x. by apply mru_in_range with (bufs s).
  - rewrite (mru_length _ _ Hm). lia.
Qed.

Lemma scan_prev test s order :
  mru (bufs s) order -> length (bufs s) = S HEAD ->
  scan (S HEAD) b_prev test (linkf b_prev (bufs s) HEAD) s =
    Ret (List.find (hit test (bufs s)) (reverse order)) s.
Proof.
  intros Hm Hlen. eapply scan_chain; [apply dchain_rev, Hm| |done|].
  - intros x. rewrite elem_of_reverse. by apply mru_in_range with (bufs s).
  - rewrite length_reverse, (mru_length _ _ Hm). lia.
Qed.

(** ** The invariant of the cache

    It holds between the operations of any processes: the list links all the
    buffers, and no block of a real device has two buffers. *)

Definition unique_blocks (l : list buf) : Prop :=
  forall i j bi bj, l !! i = Some bi -> l !! j = Some bj -> b_dev bi <> 0 ->
    b_dev bi = b_dev bj -> b_blockno bi = b_blockno bj -> i = j.

Record binv (s : bcache) (order : list nat) : Prop := {
  inv_lock : bc_lock s = false;
  inv_length : length (bufs s) = S HEAD;
  inv_mru : mru (bufs s) order;
  inv_unique : unique_blocks (bufs s);
  inv_head : exists h, bufs s !! HEAD = Some h /\ b_dev h = 0;
  inv_spin : Forall (fun b => sl_lk (b_lock b) = false) (bufs s)
}.

(** Assigning fields other than the links and the block's address. *)
Lemma mru_insert l order k b b' :
  l !! k = Some b -> b_next b' = b_next b -> b_prev b' = b_prev b ->
  mru l order -> mru (<[k := b']> l) order.
Proof.
  intros Hb Hn Hp [Hc Ho]. split; [|done]. pose proof (lookup_lt_Some _ _ _ Hb) as Hk.
  eapply dchain_ext; [..|exact Hc]; intros x _; rewrite linkf_insert by done;
    rewrite ?Hn, ?Hp; by eapply insert_id_dir.
Qed.

Lemma unique_insert l k b b' :
  l !! k = Some b -> b_dev b' = b_dev b -> b_blockno b' = b_blockno b ->
  unique_blocks l -> unique_blocks (<[k := b']> l).
Proof.
  intros Hb Hd Hn Hu i j bi bj.
  rewrite !list_lookup_insert_Some. intros Hi Hj.
  destruct Hi as [(<- & <- & _)|(? & Hi)]; destruct Hj as [(<- & <- & _)|(? & Hj)]; try done.
  - rewrite Hd, Hn. intros; by eapply Hu.
  - rewrite Hd, Hn. intros; by eapply Hu.
  - by apply Hu.
Qed.

Lemma unique_recycle l k b' :
  (forall j bj, l !! j = Some bj -> b_dev b' <> 0 -> b_dev bj = b_dev b' ->
     b_blockno bj = b_blockno b' -> j = k) ->
  unique_blocks l -> unique_blocks (<[k := b']> l).
Proof.
  intros Hno Hu i j bi bj. rewrite !list_lookup_insert_Some. intros Hi Hj.
  destruct Hi as [(<- & <- & _)|(? & Hi)]; destruct Hj as [(<- & <- & _)|(? & Hj)]; try done.
  - intros. symmetry. by eapply Hno.
  - intros. eapply Hno; try done. congruence.
  - by apply Hu.
Qed.

Lemma head_insert (l : list buf) k b b' :
  l !! k = Some b -> b_dev b' = b_dev b \/ k <> HEAD ->
  (exists h, l !! HEAD = Some h /\ b_dev h = 0) ->
  exists h, <[k := b']> l !! HEAD = Some h /\ b_dev h = 0.
Proof.
  intros Hb Hd (h & Hh & H0). destruct (decide (k = HEAD)) as [->|Hne].
  - exists b'. rewrite list_lookup_insert_eq by (by eapply lookup_lt_Some). split; [done|].
    destruct Hd; [congruence|done].
  - exists h. by rewrite list_lookup_insert_ne.
Qed.

Lemma binv_insert s order k b b' :
  binv s order -> bufs s !! k = Some b ->
  b_next b' = b_next b -> b_prev b' = b_prev b -> b_dev b' = b_dev b ->
  b_blockno b' = b_blockno b -> sl_lk (b_lock b') = false ->
  binv (set_bufs (<[k := b']> (bufs s)) s) order.
Proof.
  intros [] Hb Hn Hp Hd Hbn Hlk. split; simpl; [done|by rewrite length_insert|..].
  - by apply mru_insert with b.
  - by apply unique_insert with b.
  - apply head_insert with b; auto.
  - by apply Forall_insert.
Qed.

(** ** What the operations do *)

Section ops.
Variable me : Z.

Definition same_block (dev blockno : Z) (b : buf) : bool :=
  (b_dev b =? dev) && (b_blockno b =? blockno).

Definition recyclable (b : buf) : bool :=
  (b_refcnt b =? 0) && (Z.land (b_flags b) B_DIRTY =? 0).

(** Taking the buffer's sleep lock, or going to sleep on it. *)
Definition take_lock (k : nat) (b : buf) (s : bcache) : outcome bcache nat :=
  match acquiresleep me k (b_lock b) with
  | Ret _ l => Ret k (set_bufs (<[k := set_lockb l b]> (bufs s)) s)
  | Stop w l => Stop w (set_bufs (<[k := set_lockb l b]> (bufs s)) s)
  end.

Definition recycled (dev blockno : Z) (b : buf) : buf :=
  Buf 0 dev blockno (b_lock b) 1 (b_prev b) (b_next b) (b_data b).

Lemma find_hit_Some test (l : list buf) order k :
  List.find (hit test l) order = Some k -> k ∈ order /\ exists b, l !! k = Some b /\ test b = true.
Proof.
  intros [Hin Ht]%List.find_some. split; [by apply list_elem_of_In|].
  unfold hit in Ht. destruct (l !! k) as [b|]; [by exists b|done].
Qed.

Lemma find_hit_None test (l : list buf) order k b :
  List.find (hit test l) order = None -> k ∈ order -> l !! k = Some b -> test b = false.
Proof.
  intros Hf Hk Hb. apply list_elem_of_In in Hk. pose proof (List.find_none _ _ Hf _ Hk) as H.
  unfold hit in H. by rewrite Hb in H.
Qed.

Lemma bget_run dev blockno s order :
  binv s order ->
  bget me dev blockno s =
  match List.find (hit (same_block dev blockno) (bufs s)) order with
  | Some k => match bufs s !! k with
      | Some b => take_lock k (set_refcnt (u32 (b_refcnt b + 1)) b) s
      | None => Stop (Panicked "wild pointer") s end
  | None =>
    match List.find (hit recyclable (bufs s)) (reverse order) with
    | Some k => match bufs s !! k with
        | Some b => take_lock k (recycled dev blockno b) s
        | None => Stop (Panicked "wild pointer") s end
    | None => Stop (Panicked "bget: no buffers") (set_bc_lock true s)
    end
  end.
Proof.
  intros [Hlk Hlen Hm _ (h & Hh & _) _]. unfold bget, acquire_bc. mred. rewrite Hlk.
  set (s1 := set_bc_lock true s). rewrite (rd_run HEAD s1 h) by done.
  assert (Hnx : b_next h = linkf b_next (bufs s1) HEAD) by (unfold linkf; simpl; by rewrite Hh).
  assert (Hpv : b_prev h = linkf b_prev (bufs s1) HEAD) by (unfold linkf; simpl; by rewrite Hh).
  rewrite Hnx, Hpv, (scan_next _ s1 order) by done.
  fold (same_block dev blockno). change (bufs s1) with (bufs s).
  assert (Htake : forall k b f, bufs s !! k = Some b ->
    (match wr k f s1 with
     | Ret _ s' => match release_bc s' with
         | Ret _ s' => match on_lock k (acquiresleep me k) s' with
             | Ret _ s' => Ret k s' | Stop w s' => Stop w s' end
         | Stop w s' => Stop w s' end
     | Stop w s' => Stop w s' end) = take_lock k (f b) s).
  { intros k b f Hb. pose proof (lookup_lt_Some _ _ _ Hb) as Hk. rewrite (wr_run k f s1 b) by done.
    unfold release_bc, s1. mred. cbn [bc_lock bufs set_bufs set_bc_lock].
    unfold on_lock, take_lock. cbn [bufs set_bufs set_bc_lock].
    rewrite list_lookup_insert_eq by done.
    destruct (acquiresleep me k _); rewrite list_insert_insert_eq; destruct s; simpl in *; by subst. }
  destruct (List.find (hit (same_block dev blockno) (bufs s)) order) as [k|] eqn:Hf.
  - apply find_hit_Some in Hf as (_ & b & Hb & _). rewrite Hb.
    exact (Htake k b (fun b => set_refcnt (u32 (b_refcnt b + 1)) b) Hb).
  - rewrite (scan_prev _ s1 order) by done. fold recyclable. change (bufs s1) with (bufs s).
    destruct (List.find (hit recyclable (bufs s)) (reverse order)) as [k|] eqn:Hf2; [|done].
    apply find_hit_Some in Hf2 as (_ & b & Hb & _). rewrite Hb.
    exact (Htake k b (fun b => recycled dev blockno b) Hb).
Qed.

Definition slept_or_panicked (order : list nat) (w : stop) (s : bcache) : Prop :=
  (exists msg, w = Panicked msg) \/
  ((exists k, w = Sleeping (ch_lock k)) \/ w = Crashed) /\ binv s order.

Lemma take_lock_binv s order k b0 b :
  binv s order -> bufs s !! k = Some b0 ->
  binv (set_bufs (<[k := b]> (bufs s)) s) order ->
  wpe (take_lock k b) s (fun k' s' => binv s' order /\ k' = k /\
      exists l, bufs s' !! k = Some (set_lockb l b) /\ sl_held me l)
    (slept_or_panicked order).
Proof.
  intros Hs Hb0 Hinv. pose proof (lookup_lt_Some _ _ _ Hb0) as Hk.
  assert (Hb : <[k := b]> (bufs s) !! k = Some b) by by apply list_lookup_insert_eq.
  assert (Hlk : sl_lk (b_lock b) = false).
  { destruct Hinv as [_ _ _ _ _ Hsp]. rewrite list.Forall_forall in Hsp.
    apply Hsp. simpl. by eapply list_elem_of_lookup_2. }
  assert (Hup : forall l, sl_lk l = false ->
    binv (set_bufs (<[k := set_lockb l b]> (bufs s)) s) order).
  { intros l Hl. pose proof (binv_insert _ _ k b (set_lockb l b) Hinv Hb eq_refl eq_refl eq_refl eq_refl Hl) as H.
    simpl in H. by rewrite list_insert_insert_eq in H. }
  unfold wpe, take_lock. destruct (decide (sl_locked (b_lock b) = 0)) as [H0|H0].
  - rewrite acquiresleep_free by done. split; [by apply Hup|]. split; [done|].
    eexists. simpl. rewrite list_lookup_insert_eq by done. done.
  - rewrite acquiresleep_taken by done. right. split; [by left; eexists|]. by apply Hup.
Qed.

Lemma bget_binv dev blockno s order :
  binv s order ->
  wpe (bget me dev blockno) s (fun k s' => binv s' order /\ (k < HEAD)%nat /\
      exists b, bufs s' !! k = Some b /\ b_dev b = dev /\ b_blockno b = blockno /\ sl_held me (b_lock b))
    (slept_or_panicked order).
Proof.
  intros Hinv. pose proof Hinv as [Hlk Hlen Hm Hu Hh Hsp]. rewrite list.Forall_forall in Hsp.
  unfold wpe. rewrite (bget_run _ _ _ order) by done.
  destruct (List.find _ order) as [k|] eqn:Hf.
  - apply find_hit_Some in Hf as (Hk & b & Hb & Ht). rewrite Hb. unfold same_block in Ht.
    eapply wpe_mono; [..|apply (take_lock_binv s order k b _ Hinv Hb)].
    + simpl. intros k' s' (Hi & -> & l & Hl & Hheld). split; [done|].
      split; [by apply (mru_in_range _ _ _ Hm)|]. eexists. split; [done|]. simpl. split_and!; try done; lia.
    + done.
    + eapply binv_insert; try done. simpl. eapply Hsp, list_elem_of_lookup_2, Hb.
  - destruct (List.find _ (reverse order)) as [k|] eqn:Hf2; [|left; eauto].
    apply find_hit_Some in Hf2 as (Hk & b & Hb & Ht). rewrite elem_of_reverse in Hk. rewrite Hb.
    pose proof (mru_in_range _ _ _ Hm Hk) as HkH.
    eapply wpe_mono; [..|apply (take_lock_binv s order k b _ Hinv Hb)].
    + simpl. intros k' s' (Hi & -> & l & Hl & Hheld). split; [done|]. split; [done|].
      eexists. split; [done|]. done.
    + done.
    + split; simpl; [done|by rewrite length_insert|by apply mru_insert with b|..].
      * apply unique_recycle; [|done]. simpl. intros j bj Hj Hd0 Hd Hn.
        destruct (decide (j = HEAD)) as [->|Hne].
        { destruct Hh as (h & Hh & Hh0). by simplify_eq. }
        exfalso. assert (Hjo : j ∈ order).
        { rewrite (mru_elem (bufs s)) by done. pose proof (lookup_lt_Some _ _ _ Hj). lia. }
        pose proof (find_hit_None _ _ _ _ _ Hf Hjo Hj) as Hx. unfold same_block in Hx. lia.
      * apply head_insert with b; [done| |done]. right; lia.
      * apply Forall_insert; [by apply list.Forall_forall|]. simpl. eapply Hsp, list_elem_of_lookup_2, Hb.
Qed.

Lemma set_bufs_id s : set_bufs (bufs s) s = s.
Proof. by destruct s. Qed.

Lemma on_lock_holding s k b :
  bufs s !! k = Some b -> sl_lk (b_lock b) = false ->
  on_lock k (holdingsleep me) s =
    Ret (negb (sl_locked (b_lock b) =? 0) && (sl_pid (b_lock b) =? me)) s.
Proof.
  intros Hb Hlk. rewrite (on_lock_run _ _ _ b _ _ Hb (holdingsleep_run me _ Hlk)).
  rewrite list_insert_id, set_bufs_id; [done|]. rewrite Hb. by destruct b.
Qed.

Lemma binv_lk s order k b : binv s order -> bufs s !! k = Some b -> sl_lk (b_lock b) = false.
Proof.
  intros [] Hb. rewrite list.Forall_forall in *. eauto using list_elem_of_lookup_2.
Qed.

Lemma wr_binv s order k f b (Q : unit -> bcache -> Prop) :
  binv s order -> bufs s !! k = Some b ->
  b_next (f b) = b_next b -> b_prev (f b) = b_prev b -> b_dev (f b) = b_dev b ->
  b_blockno (f b) = b_blockno b -> b_lock (f b) = b_lock b ->
  (forall s', s' = set_bufs (<[k := f b]> (bufs s)) s -> binv s' order ->
     bufs s' !! k = Some (f b) -> Q tt s') ->
  wp (wr k f) s Q.
Proof.
  intros Hi Hb ? ? ? ? Hl HQ. eapply wp_intro; [by apply wr_run|]. eapply HQ; [done|..].
  - eapply binv_insert; try done. rewrite Hl. by eapply binv_lk.
  - simpl. apply list_lookup_insert_eq. by eapply lookup_lt_Some.
Qed.

Lemma wp_wpe {A} (m : M bcache A) s Q E : wp m s Q -> wpe m s Q E.
Proof. unfold wp, wpe. by destruct (m s). Qed.

Lemma iderw_binv s order k :
  binv s order -> (k < length (bufs s))%nat ->
  wpe (iderw me k) s (fun _ s' => binv s' order) (slept_or_panicked order).
Proof.
  intros Hi [b Hb]%lookup_lt_is_Some_2. pose proof (binv_lk _ _ _ _ Hi Hb) as Hlk.
  unfold iderw. apply wpe_bind. unfold wpe at 1. rewrite (on_lock_holding s k b) by done.
  destruct (_ && _); cbn [negb]; [|left; eauto].
  apply wpe_bind. unfold wpe at 1. rewrite (rd_run k s b) by done.
  destruct (_ =? B_VALID); [left; eauto|]. destruct (negb (b_dev b =? 1)); [left; eauto|].
  apply wpe_bind, wpe_get. destruct (disk s !! _) as [d|]; [|left; eauto].
  apply wpe_bind. destruct (negb _).
  - apply wpe_bind, wp_wpe, (wr_binv s order k _ b); try done. intros s1 E1 Hi1 Hb1.
    unfold wpe at 1, disk_write. destruct (power s1) as [[|p]|] eqn:Hp.
    + right. auto.
    + apply wp_wpe, (wr_binv _ order k _ (set_flags (Z.ldiff (b_flags b) B_DIRTY) b)); try done.
      by destruct Hi1.
    + apply wp_wpe, (wr_binv _ order k _ (set_flags (Z.ldiff (b_flags b) B_DIRTY) b)); try done.
      by destruct Hi1.
  - apply wp_wpe, (wr_binv s order k _ b); try done. intros s1 E1 Hi1 Hb1.
    by apply wp_wpe, (wr_binv s1 order k _ (set_data d b)).
Qed.

Lemma bread_binv dev blockno s order :
  binv s order ->
  wpe (bread me dev blockno) s (fun _ s' => binv s' order) (slept_or_panicked order).
Proof.
  intros Hi. unfold bread. apply wpe_bind.
  eapply wpe_mono; [|done|by apply bget_binv]. simpl. intros k s' (Hi' & Hk & b & Hb & _).
  apply wpe_bind. unfold wpe at 1. rewrite (rd_run k s' b) by done. apply wpe_bind.
  destruct (_ =? 0); simpl; [|by apply wpe_ret, wpe_ret].
  eapply wpe_mono; [|done|apply (iderw_binv s' order k Hi')]; [|by apply lookup_lt_Some in Hb].
  intros [] s'' ?. by apply wpe_ret.
Qed.

Lemma bwrite_binv k s order :
  binv s order -> (k < length (bufs s))%nat ->
  wpe (bwrite me k) s (fun _ s' => binv s' order) (slept_or_panicked order).
Proof.
  intros Hi [b Hb]%lookup_lt_is_Some_2. pose proof (binv_lk _ _ _ _ Hi Hb) as Hlk.
  unfold bwrite. apply wpe_bind. unfold wpe at 1. rewrite (on_lock_holding s k b) by done.
  destruct (_ && _); cbn [negb]; [|left; eauto].
  apply wpe_bind, wp_wpe, (wr_binv s order k _ b); try done. intros s1 -> Hi1 Hb1.
  apply iderw_binv; [done|]. by apply lookup_lt_Some in Hb1.
Qed.

(** A list relinked in the order [order']. *)
Lemma binv_relinked s s' order order' N P :
  binv s order -> relinked s s' -> links s' N P ->
  dchain N P HEAD order' HEAD -> order' ≡ₚ seq 0 HEAD -> binv s' order'.
Proof.
  intros [Hlk Hlen Hm Hu (h & Hh & Hh0) Hsp] R [HN HP] Hc Hperm.
  pose proof (relinked_lookup s s') as Hl.
  split.
  - destruct R as (-> & _). done.
  - by rewrite (relinked_length _ _ R).
  - split; [|done]. eapply dchain_ext; [..|exact Hc]; intros x _; [apply HN|apply HP].
  - intros i j bi bj Hbi Hbj. destruct (Hl _ _ R Hbi) as (ci & Hci & Ei).
    destruct (Hl _ _ R Hbj) as (cj & Hcj & Ej). injection Ei as ? -> -> ? ? ?.
    injection Ej as ? -> -> ? ? ?. by eapply Hu.
  - destruct (lookup_lt_is_Some_2 (bufs s') HEAD) as [h' Hh'].
    { rewrite (relinked_length _ _ R). lia. }
    destruct (Hl _ _ R Hh') as (c & Hc' & E). rewrite Hh in Hc'. injection Hc' as <-.
    injection E as ? E ? ? ? ?. exists h'. by rewrite E.
  - apply list.Forall_forall. intros b' [i Hb']%list_elem_of_lookup_1.
    destruct (Hl _ _ R Hb') as (c & Hc' & E). injection E as ? ? ? -> ? ?.
    rewrite list.Forall_forall in Hsp. eapply Hsp, list_elem_of_lookup_2, Hc'.
Qed.

Definition released (b : buf) : buf :=
  set_refcnt (u32 (b_refcnt b - 1))
    (set_lockb (SleepLock 0 false (sl_name (b_lock b)) 0 (sl_wakeups (b_lock b) + 1)) b).

(** The list after the last reference to [k] is dropped. *)
Definition to_front (k : nat) (order : list nat) : list nat := k :: filter (fun x => x <> k) order.

Lemma filter_ne_split (k : nat) l1 l2 :
  NoDup (l1 ++ k :: l2) -> filter (fun x => x <> k) (l1 ++ k :: l2) = l1 ++ l2.
Proof.
  intros (H1 & Hd & [Hk H2]%list.NoDup_cons)%list.NoDup_app.
  rewrite filter_app, filter_cons_False by naive_solver.
  f_equal; apply filter_all, Forall_forall; set_solver.
Qed.

Lemma move_front_spec s order k :
  binv (set_bc_lock false s) order -> (k < HEAD)%nat ->
  wp (unlink k ;; link_front k) s (fun _ s' =>
    relinked s s' /\ binv (set_bc_lock false s') (to_front k order)).
Proof.
  intros Hi Hk. pose proof Hi as [_ Hlen Hm _ _ _]. cbn [bufs set_bc_lock] in *.
  assert (Hko : k ∈ order) by by apply (mru_elem (bufs s)).
  pose proof (mru_NoDup _ _ Hm) as Hnd. pose proof Hm as [Hc Hperm].
  destruct (list_elem_of_split _ _ Hko) as (l1 & l2 & ->).
  unfold to_front. rewrite filter_ne_split by by apply list.NoDup_cons in Hnd as [_ ?].
  assert (Ho : forall x, x ∈ l1 ++ k :: l2 -> (x < HEAD)%nat) by (intros; by eapply mru_in_range).
  apply wp_bind. eapply wp_mono; [|eapply (unlink_spec s k _ _ l1 l2); try done; by split].
  simpl. intros [] s1 (R1 & N1 & P1 & HL1 & Hc1).
  assert (Hk' : k ∉ l1 ++ l2 /\ NoDup (HEAD :: l1 ++ l2)).
  { rewrite <- Permutation_middle in Hnd. rewrite list.NoDup_cons in *.
    destruct Hnd as [Hh [Hk' Hnd]%list.NoDup_cons]. set_solver. }
  destruct Hk' as [Hk' Hnd'].
  eapply wp_mono; [|eapply (link_front_spec s1 k N1 P1 (l1 ++ l2)); try done].
  - simpl. intros [] s2 (R2 & N2 & P2 & HL2 & Hc2).
    pose proof (relinked_trans _ _ _ R1 R2) as R. split; [done|].
    eapply (binv_relinked (set_bc_lock false s)); [exact Hi| |exact HL2|exact Hc2|].
    + destruct R as (? & ? & ? & ?). by split_and!.
    + by rewrite Permutation_middle.
  - by rewrite (relinked_length _ _ R1).
  - intros x Hx. apply Ho. set_solver.
Qed.

Lemma brelse_run s order k b :
  binv s order -> bufs s !! k = Some b -> (k < HEAD)%nat ->
  negb (sl_locked (b_lock b) =? 0) && (sl_pid (b_lock b) =? me) = true ->
  wp (brelse me k) s (fun _ s' =>
    relinked (set_bufs (<[k := released b]> (bufs s)) s) s' /\
    binv s' (if u32 (b_refcnt b - 1) =? 0 then to_front k order else order)).
Proof.
  intros Hi Hb Hk Hheld. pose proof (binv_lk _ _ _ _ Hi Hb) as Hlk.
  pose proof (lookup_lt_Some _ _ _ Hb) as Hkl.
  unfold brelse. apply wp_bind. unfold wp, wpe at 1.
  rewrite (on_lock_holding s k b) by done. rewrite Hheld. clear Hheld. cbn [negb].
  apply wp_bind. unfold wp, wpe at 1. rewrite (on_lock_run _ _ _ b _ _ Hb (releasesleep_run _ Hlk)).
  apply wp_bind. unfold wp, wpe at 1, acquire_bc. mred. cbn [bc_lock set_bufs].
  pose proof Hi as [Hbc _ _ _ _ _]. rewrite Hbc.
  apply wp_bind. eapply wp_intro.
  { apply wr_run. simpl. by apply list_lookup_insert_eq. }
  cbn [bufs set_bufs set_bc_lock]. rewrite list_insert_insert_eq.
  match goal with |- context [set_bufs ?l ?x] =>
    change (set_bufs l x) with (set_bc_lock true (set_bufs (<[k := released b]> (bufs s)) s)) end.
  apply wp_bind. eapply wp_intro.
  { apply rd_run. simpl. by apply list_lookup_insert_eq. }
  change (b_refcnt (released b)) with (u32 (b_refcnt b - 1)).
  assert (Hi1 : binv (set_bufs (<[k := released b]> (bufs s)) s) order)
    by by eapply binv_insert.
  apply wp_bind. destruct (_ =? 0); cbn [when].
  - eapply wp_mono; [|apply (move_front_spec _ order k)]; [|by destruct s; simpl in *; subst|done].
    simpl. intros [] s' [R Hi']. unfold release_bc. destruct R as (Hl & ? & ? & ?). apply wp_bind, wpe_get.
    rewrite Hl. cbn [bc_lock set_bufs set_bc_lock]. apply wpe_put. split; [|done].
    by destruct s; simpl in *; subst.
  - apply wpe_ret. unfold release_bc. apply wp_bind, wpe_get. apply wpe_put.
    destruct s; simpl in *; subst. split; [done|]. done.
Qed.

(** Continuing a bread that went to sleep on buffer [k]'s lock. *)
Definition bread_resume (k : nat) : M bcache nat :=
  on_lock k (acquiresleep me k) ;;
  b ← rd k;
  when (Z.land (b_flags b) B_VALID =? 0) (iderw me k) ;;
  mret k.

Lemma bread_resume_binv k s order :
  binv s order -> (k < length (bufs s))%nat ->
  wpe (bread_resume k) s (fun _ s' => binv s' order) (slept_or_panicked order).
Proof.
  intros Hi Hkl. pose proof Hkl as [b Hb]%lookup_lt_is_Some_2.
  assert (Hw : wpe (take_lock k b) s (fun _ s' => binv s' order /\ is_Some (bufs s' !! k))
                 (slept_or_panicked order)).
  { eapply wpe_mono; [|done|apply (take_lock_binv s order k b b Hi Hb)].
    - simpl. intros k' s' (Hi' & _ & l & Hl & _). rewrite Hl. eauto.
    - by rewrite list_insert_id, set_bufs_id. }
  unfold bread_resume. apply wpe_bind. unfold wpe, take_lock, on_lock in *. rewrite Hb in *.
  destruct (acquiresleep me k (b_lock b)) as [[] l|w l]; [|done].
  destruct Hw as [Hi' [b' Hb']]. apply wpe_bind. unfold wpe at 1. rewrite (rd_run k _ b') by done.
  apply wpe_bind. destruct (_ =? 0); cbn [when]; [|by apply wpe_ret, wpe_ret].
  eapply wpe_mono; [|done|apply (iderw_binv _ order k Hi')]; [|by apply lookup_lt_Some in Hb'].
  intros [] s'' ?. by apply wpe_ret.
Qed.

End ops.

(** The table as the kernel finds it in zeroed memory. *)
Definition zero_buf (b : buf) : Prop :=
  b_flags b = 0 /\ b_dev b = 0 /\ b_refcnt b = 0 /\ b_lock b = SleepLock 0 false (sl_name (b_lock b)) 0 0 /\
  b_data b = zero_block.

Definition zeroed (s : bcache) : Prop :=
  length (bufs s) = S HEAD /\ Forall zero_buf (bufs s).

Lemma relinked_zeroed s s' : relinked s s' -> zeroed s -> zeroed s'.
Proof.
  intros R [Hlen Hall]. split; [by rewrite (relinked_length _ _ R)|].
  rewrite Forall_forall in *. intros b' [i Hb']%list_elem_of_lookup_1.
  destruct (relinked_lookup _ _ _ _ R Hb') as (b & Hb & E). injection E as E1 E2 _ E4 E5 E6.
  unfold zero_buf. rewrite E1, E2, E4, E5, E6. by eapply Hall, list_elem_of_lookup_2.
Qed.

Lemma links_self s : links s (linkf b_next (bufs s)) (linkf b_prev (bufs s)).
Proof. done. Qed.

Lemma initlock_zeroed s k N P :
  zeroed s -> links s N P -> (k < HEAD)%nat ->
  wp (on_lock k (initsleeplock "buffer")) s (fun _ s' =>
    zeroed s' /\ links s' N P /\ bc_lock s' = bc_lock s /\ disk s' = disk s /\ power s' = power s).
Proof.
  intros [Hlen Hall] [HN HP] Hk. destruct (lookup_lt_is_Some_2 (bufs s) k) as [b Hb]; [lia|].
  eapply wp_intro; [by eapply on_lock_run|]. simpl.
  assert (Hd : zero_buf b) by (rewrite Forall_forall in Hall; by eapply Hall, list_elem_of_lookup_2).
  split_and!; [|split|done..]; simpl.
  - split; simpl; [by rewrite length_insert|]. apply Forall_insert; [done|].
    destruct Hd as (? & ? & ? & Hl & ?). unfold zero_buf. simpl. by rewrite Hl.
  - intros x. rewrite linkf_insert by lia. rewrite <- HN. by apply (insert_id_dir b_next (bufs s) k b).
  - intros x. rewrite linkf_insert by lia. rewrite <- HP. by apply (insert_id_dir b_prev (bufs s) k b).
Qed.

Lemma binit_binv s :
  zeroed s -> wp binit s (fun _ s' =>
    binv s' (reverse (seq 0 HEAD)) /\ zeroed s' /\ disk s' = disk s /\ power s' = power s).
Proof.
  intros Hz. unfold binit. apply wp_bind, wpe_modify.
  assert (Hl0 : (HEAD < length (bufs (set_bc_lock false s)))%nat) by (simpl; destruct Hz; lia).
  apply wp_bind, (wr_prev _ _ _ _ _ _ (links_self _)); [done|]. intros s1 HL1 R1.
  apply wp_bind, (wr_next _ _ _ _ _ _ HL1); [by rewrite (relinked_length _ _ R1)|]. intros s2 HL2 R2.
  pose proof (relinked_trans _ _ _ R1 R2) as R. clear HL1 R1 R2.
  set (I := fun (d : list nat) (s' : bcache) => zeroed s' /\ bc_lock s' = false /\
    (disk s' = disk s /\ power s' = power s) /\
    exists N P, links s' N P /\ dchain N P HEAD (reverse d) HEAD).
  eapply wp_mono; [|apply (wpe_for_each I); [|]].
  - simpl. intros [] s' (Hz' & Hbc & Hdp & N & P & [HN HP] & Hc). split; [|done].
    destruct Hz' as [Hlen Hall]. rewrite Forall_forall in Hall.
    assert (Hdev : forall k b, bufs s' !! k = Some b -> b_dev b = 0)
      by (intros; by eapply Hall, list_elem_of_lookup_2).
    split; try done.
    + split; [|apply reverse_Permutation].
      eapply dchain_ext; [..|exact Hc]; intros x _; [apply HN|apply HP].
    + intros i j bi bj Hi _ H0. by apply Hdev in Hi.
    + destruct (lookup_lt_is_Some_2 (bufs s') HEAD) as [h Hh]; [lia|]. eauto.
    + apply Forall_forall. intros b Hb. destruct (Hall b Hb) as (_ & _ & _ & -> & _). done.
  - split; [by eapply relinked_zeroed|]. split; [by destruct R|]. split; [by destruct R as (_ & ? & ? & _)|].
    do 2 eexists. split; [exact HL2|].
    simpl. by rewrite !fn_lookup_insert.
  - intros d k rest s' Hsplit (Hz' & Hbc & Hdp & N & P & HL & Hc).
    assert (Hlt : forall x, x ∈ d ++ k :: rest -> (x < HEAD)%nat).
    { intros x. fold HEAD in Hsplit. rewrite <- Hsplit, elem_of_seq. lia. }
    assert (Hnd : NoDup (d ++ k :: rest)) by (fold HEAD in Hsplit; rewrite <- Hsplit; apply NoDup_seq).
    apply NoDup_app in Hnd as (Hnd & Hdis & _).
    assert (Hk : (k < HEAD)%nat) by (apply Hlt; set_solver).
    apply wp_bind. eapply wp_mono; [|by apply initlock_zeroed]. simpl.
    intros [] s3 (Hz3 & HL3 & Hb3 & Hd3 & Hp3). eapply wp_mono; [|apply (link_front_spec s3 k N P (reverse d))]; try done.
    + simpl. intros [] s4 (R4 & HL4). unfold I. rewrite reverse_snoc. split; [by eapply relinked_zeroed|].
      destruct R4 as (? & ? & ? & _), Hdp. split; [congruence|]. split; [split; congruence|done].
    + apply Hz3.
    + rewrite NoDup_cons, elem_of_reverse, reverse_Permutation. split; [|done].
      intros Hh. specialize (Hlt HEAD ltac:(set_solver)). lia.
    + intros x. rewrite elem_of_reverse. intros. apply Hlt. set_solver.
    + rewrite elem_of_reverse. set_solver.
Qed.

(** ** Processes sharing the cache *)

(** One operation of some process [p]: an operation that returned, a bread
    that went to sleep holding its reference, or the accesses of a process to
    a buffer whose lock it holds. *)
Inductive bio_step : bcache -> bcache -> Prop :=
  | step_bread p dev n s k s' : bread p dev n s = Ret k s' -> bio_step s s'
  | step_bread_sleep p dev n s c s' : bread p dev n s = Stop (Sleeping c) s' -> bio_step s s'
  | step_resume p k s k' s' : (k < HEAD)%nat -> bread_resume p k s = Ret k' s' -> bio_step s s'
  | step_bwrite p k s s' : (k < HEAD)%nat -> bwrite p k s = Ret tt s' -> bio_step s s'
  | step_data k d s s' : (k < HEAD)%nat -> buf_set k d s = Ret tt s' -> bio_step s s'
  | step_pin k s s' : (k < HEAD)%nat -> buf_pin k s = Ret tt s' -> bio_step s s'
  | step_brelse p k s s' : (k < HEAD)%nat -> brelse p k s = Ret tt s' -> bio_step s s'.

Lemma brelse_binv p k s order s' :
  binv s order -> (k < HEAD)%nat -> brelse p k s = Ret tt s' -> exists order', binv s' order'.
Proof.
  intros Hi Hk Hr. destruct (lookup_lt_is_Some_2 (bufs s) k) as [b Hb]; [destruct Hi; lia|].
  destruct (negb (sl_locked (b_lock b) =? 0) && (sl_pid (b_lock b) =? p)) eqn:Hheld.
  - pose proof (brelse_run p s order k b Hi Hb Hk Hheld) as H. unfold wp, wpe in H.
    rewrite Hr in H. destruct H. eauto.
  - unfold brelse in Hr. unfold mbind, M_bind in Hr.
    rewrite (on_lock_holding p s k b), Hheld in Hr by (try done; by eapply binv_lk). done.
Qed.

Lemma bio_step_binv s s' order : binv s order -> bio_step s s' -> exists order', binv s' order'.
Proof.
  intros Hi Hs. pose proof Hi as [_ Hlen _ _ _ _].
  destruct Hs as [p dev n s k s' H|p dev n s c s' H|p k s k' s' Hk H|p k s s' Hk H|k d s s' Hk H|k s s' Hk H|p k s s' Hk H].
  - exists order. exact (wpe_Ret _ _ _ _ _ _ (bread_binv p dev n s order Hi) H).
  - pose proof (bread_binv p dev n s order Hi) as Hb. unfold wpe in Hb. rewrite H in Hb.
    destruct Hb as [[? [=]]|[_ ?]]. eauto.
  - exists order. refine (wpe_Ret _ _ _ _ _ _ (bread_resume_binv p k s order Hi _) H). lia.
  - exists order. refine (wpe_Ret _ _ _ _ _ _ (bwrite_binv p k s order Hi _) H). lia.
  - destruct (lookup_lt_is_Some_2 (bufs s) k) as [b Hb]; [lia|].
    unfold buf_set in H. rewrite (wr_run k _ s b) in H by done. injection H as <-.
    exists order. eapply binv_insert; try done. by apply (binv_lk s order k b).
  - destruct (lookup_lt_is_Some_2 (bufs s) k) as [b Hb]; [lia|].
    unfold buf_pin in H. rewrite (wr_run k _ s b) in H by done. injection H as <-.
    exists order. eapply binv_insert; try done. by apply (binv_lk s order k b).
  - by eapply brelse_binv.
Qed.

(** However processes interleave their use of the buffer cache after
    binit, the doubly linked list still links every buffer exactly once in
    both directions, the cache's lock is free between operations, and no two
    buffers cache the same block of a device. *)
Theorem bcache_invariant (s0 s1 s : bcache) :
  zeroed s0 -> binit s0 = Ret tt s1 -> rtc bio_step s1 s ->
  bc_lock s = false /\
  (exists order, mru (bufs s) order) /\
  (forall i j bi bj, bufs s !! i = Some bi -> bufs s !! j = Some bj -> b_dev bi <> 0 ->
     b_dev bi = b_dev bj -> b_blockno bi = b_blockno bj -> i = j).
Proof.
  intros Hz Hb Hr.
  assert (H : exists order, binv s order).
  { pose proof (binit_binv s0 Hz) as Hw. unfold wp, wpe in Hw. rewrite Hb in Hw.
    destruct Hw as [Hw _]. revert Hw. generalize (reverse (seq 0 HEAD)). clear Hz Hb.
    induction Hr as [s|s1 s2 s3 Hs _ IH]; intros order Hi; [eauto|].
    destruct (bio_step_binv _ _ _ Hi Hs) as [order' Hi']. by eapply IH. }
  destruct H as [order []]. eauto.
Qed.

(** ** What the cache promises its clients

    The views of [BlockStoreLaws], when process [me] is the one using the
    cache: every buffer is free or held by [me], and a free buffer that is not
    dirty agrees with the disk. *)

Definition cached (l : list buf) (n : Z) : option block :=
  b_data <$> List.find (same_block 1 n) l.

Definition bio_content (s : bcache) : list block :=
  imap (fun i d => default d (cached (bufs s) (Z.of_nat i))) (disk s).

Definition bio_holds (s : bcache) : gmap nat Z :=
  omap (fun b => if sl_locked (b_lock b) =? 0 then None else Some (b_blockno b))
    (map_seq 0 (bufs s) : gmap nat buf).

Definition dirty (b : buf) : Prop := Z.land (b_flags b) B_DIRTY <> 0.
#[global] Instance dirty_dec b : Decision (dirty b) := _.

Definition bio_pinned (s : bcache) : gset Z :=
  list_to_set (b_blockno <$> filter dirty (bufs s)).

Section laws.
Variable me : Z.

Definition unlocked (b : buf) : Prop := sl_locked (b_lock b) = 0 /\ b_refcnt b = 0.
Definition mine (b : buf) : Prop := sl_held me (b_lock b) /\ b_refcnt b = 1.

Record in_use (d : list block) (b : buf) : Prop := {
  iu_dev : b_dev b = 1;
  iu_range : 0 <= b_blockno b < Z.of_nat (length d);
  iu_flags : b_flags b = B_VALID \/ b_flags b = Z.lor B_VALID B_DIRTY;
  iu_lock : unlocked b \/ mine b;
  iu_clean : unlocked b -> b_flags b = B_VALID -> d !! Z.to_nat (b_blockno b) = Some (b_data b)
}.

Definition never_used (b : buf) : Prop := b_flags b = 0 /\ b_dev b = 0 /\ unlocked b.

Definition buf_ok (d : list block) (b : buf) : Prop :=
  block_ok (b_data b) /\ (never_used b \/ in_use d b).

Definition bio_ok (s : bcache) : Prop :=
  (exists order, binv s order) /\ Forall (buf_ok (disk s)) (bufs s) /\ Forall block_ok (disk s).

Lemma bio_ok_buf s k b : bio_ok s -> bufs s !! k = Some b -> buf_ok (disk s) b.
Proof. intros (_ & H & _) Hb. rewrite Forall_forall in H. eapply H, list_elem_of_lookup_2, Hb. Qed.

Lemma bio_ok_unique s : bio_ok s -> unique_blocks (bufs s).
Proof. intros ((order & []) & _). done. Qed.

(** A buffer whose device is the disk is in use. *)
Lemma buf_ok_dev1 d b : buf_ok d b -> b_dev b = 1 -> in_use d b.
Proof. intros [_ [(_ & H & _)|H]] H1; [congruence|done]. Qed.

Lemma same_block_true dev n b : same_block dev n b = true <-> b_dev b = dev /\ b_blockno b = n.
Proof. unfold same_block. rewrite andb_true_iff, !Z.eqb_eq. done. Qed.

Lemma cached_Some l n d :
  unique_blocks l ->
  cached l n = Some d <->
  exists k b, l !! k = Some b /\ b_dev b = 1 /\ b_blockno b = n /\ b_data b = d.
Proof.
  intros Hu. unfold cached. rewrite fmap_Some. split.
  - intros (b & [Hin Hs]%List.find_some & ->). apply same_block_true in Hs as [].
    apply list_elem_of_In, list_elem_of_lookup in Hin as [k Hk]. eauto 6.
  - intros (k & b & Hk & Hd & Hn & <-). destruct (List.find (same_block 1 n) l) as [b'|] eqn:Hf.
    + apply List.find_some in Hf as [Hin Hs]. apply same_block_true in Hs as [Hd' Hn'].
      apply list_elem_of_In, list_elem_of_lookup in Hin as [k' Hk'].
      assert (k = k') as <- by (eapply Hu; try done; congruence).
      exists b'. split; [done|]. congruence.
    + apply list_elem_of_lookup_2, list_elem_of_In in Hk.
      pose proof (List.find_none _ _ Hf b Hk) as Hs.
      rewrite (proj2 (same_block_true 1 n b)) in Hs by done. done.
Qed.

Lemma cached_None l n :
  cached l n = None <-> forall k b, l !! k = Some b -> b_dev b = 1 -> b_blockno b <> n.
Proof.
  unfold cached. rewrite fmap_None. split.
  - intros Hf k b Hk Hd Hn. apply list_elem_of_lookup_2, list_elem_of_In in Hk.
    pose proof (List.find_none _ _ Hf b Hk) as Hs.
    rewrite (proj2 (same_block_true 1 n b)) in Hs by done. done.
  - intros H. destruct (List.find _ l) as [b|] eqn:Hf; [|done].
    apply List.find_some in Hf as [Hin Hs]. apply same_block_true in Hs as [Hd Hn].
    apply list_elem_of_In, list_elem_of_lookup in Hin as [k Hk]. by destruct (H k b).
Qed.

Lemma content_lookup s i :
  bio_content s !! i = (fun d => default d (cached (bufs s) (Z.of_nat i))) <$> disk s !! i.
Proof. unfold bio_content. by rewrite list_lookup_imap. Qed.

Lemma length_content s : length (bio_content s) = length (disk s).
Proof. apply length_imap. Qed.

Lemma content_cached s k b :
  bio_ok s -> bufs s !! k = Some b -> b_dev b = 1 ->
  bio_content s !! Z.to_nat (b_blockno b) = Some (b_data b).
Proof.
  intros Hok Hb Hd. destruct (buf_ok_dev1 _ _ (bio_ok_buf _ _ _ Hok Hb) Hd) as [_ Hr _ _ _].
  rewrite content_lookup, Z2Nat.id by lia.
  destruct (lookup_lt_is_Some_2 (disk s) (Z.to_nat (b_blockno b))) as [d Hd']; [lia|].
  rewrite Hd'. simpl. rewrite (proj2 (cached_Some _ _ (b_data b) (bio_ok_unique _ Hok))); eauto 6.
Qed.

Lemma holds_lookup s k :
  bio_holds s !! k =
  bufs s !! k ≫= fun b => if sl_locked (b_lock b) =? 0 then None else Some (b_blockno b).
Proof. unfold bio_holds. by rewrite lookup_omap, lookup_map_seq_0. Qed.

(** A held buffer. *)
Lemma holds_inv s k n :
  bio_ok s -> bio_holds s !! k = Some n ->
  exists b, bufs s !! k = Some b /\ b_blockno b = n /\ in_use (disk s) b /\ mine b /\ (k < HEAD)%nat.
Proof.
  intros Hok. rewrite holds_lookup. destruct (bufs s !! k) as [b|] eqn:Hb; [|done]. simpl.
  destruct (Z.eqb_spec (sl_locked (b_lock b)) 0) as [|Hl]; [done|]. intros [= <-].
  pose proof (bio_ok_buf _ _ _ Hok Hb) as [_ [(_ & _ & [Hu _])|Hu]]; [done|].
  exists b. split_and!; try done.
  - destruct (iu_lock _ _ Hu) as [[]|]; done.
  - destruct Hok as ((order & [_ Hlen _ _ (h & Hh & Hh0) _]) & _).
    pose proof (lookup_lt_Some _ _ _ Hb). destruct (decide (k = HEAD)) as [->|]; [|lia].
    destruct Hu. congruence.
Qed.

Lemma elem_of_pinned s n : n ∈ bio_pinned s <-> exists k b, bufs s !! k = Some b /\ dirty b /\ b_blockno b = n.
Proof.
  unfold bio_pinned. rewrite elem_of_list_to_set, list_elem_of_fmap. split.
  - intros (b & -> & [Hd Hin]%list_elem_of_filter). apply list_elem_of_lookup in Hin as [k Hk]. eauto.
  - intros (k & b & Hk & Hd & <-). exists b. split; [done|]. apply list_elem_of_filter.
    split; [done|]. by eapply list_elem_of_lookup_2.
Qed.

Lemma dirty_flags d b : in_use d b -> dirty b <-> b_flags b = Z.lor B_VALID B_DIRTY.
Proof. intros [_ _ [H|H] _ _]; unfold dirty; rewrite H; vm_compute; split; congruence. Qed.

Lemma elem_of_held s n :
  n ∈ (map_to_set (fun _ b => b) (bio_holds s) : gset Z) <-> exists k, bio_holds s !! k = Some n.
Proof. rewrite elem_of_map_to_set. naive_solver. Qed.

(** *** Changing one buffer *)

(** [b'] differs from [b] in its flags, lock, reference count and data. *)
Definition same_place (b b' : buf) : Prop :=
  b_next b' = b_next b /\ b_prev b' = b_prev b /\ b_dev b' = b_dev b /\
  b_blockno b' = b_blockno b /\ sl_lk (b_lock b') = false.

Lemma ok_insert s k b b' :
  bio_ok s -> bufs s !! k = Some b -> same_place b b' -> buf_ok (disk s) b' ->
  bio_ok (set_bufs (<[k := b']> (bufs s)) s).
Proof.
  intros ((order & Hi) & Hall & Hd) Hb (? & ? & ? & ? & ?) Hb'. split_and!; simpl.
  - exists order. by eapply binv_insert.
  - by apply Forall_insert.
  - done.
Qed.

Lemma unique_same_place s k b b' :
  bio_ok s -> bufs s !! k = Some b -> same_place b b' -> unique_blocks (<[k := b']> (bufs s)).
Proof. intros Hok Hb (_ & _ & ? & ? & _). eapply unique_insert; try done. by apply bio_ok_unique. Qed.

Lemma content_insert s k b b' :
  bio_ok s -> bufs s !! k = Some b -> b_dev b = 1 -> same_place b b' ->
  bio_content (set_bufs (<[k := b']> (bufs s)) s) =
  <[Z.to_nat (b_blockno b) := b_data b']> (bio_content s).
Proof.
  intros Hok Hb Hd Hs. pose proof (unique_same_place _ _ _ _ Hok Hb Hs) as Hu'.
  pose proof (bio_ok_unique _ Hok) as Hu. pose proof (lookup_lt_Some _ _ _ Hb) as Hk.
  destruct (buf_ok_dev1 _ _ (bio_ok_buf _ _ _ Hok Hb) Hd) as [_ Hr _ _ _].
  destruct Hs as (_ & _ & Hd' & Hn' & _).
  apply list_eq. intros i. rewrite list_lookup_insert, !content_lookup, length_content by done.
  cbn [disk bufs set_bufs]. destruct (disk s !! i) as [d|] eqn:Hi; cbn [fmap option_fmap option_map].
  - pose proof (lookup_lt_Some _ _ _ Hi) as Hil. case_decide as Hc.
    + destruct Hc as [<- _]. f_equal. rewrite Z2Nat.id by lia.
      rewrite (proj2 (cached_Some _ _ (b_data b') Hu')); [done|].
      exists k, b'. rewrite list_lookup_insert_eq by done. split_and!; congruence.
    + f_equal. f_equal. apply option_eq. intros x. rewrite !cached_Some by done.
      split; intros (j & c & Hj & Hcd & Hcn & Hcx).
      * apply list_lookup_insert_Some in Hj as [(<- & <- & _)|[_ Hj]]; [|by eauto 6].
        exfalso. apply Hc. split; lia.
      * exists j, c. rewrite list_lookup_insert_ne; [done|]. intros <-. simplify_eq.
        apply Hc. split; lia.
  - apply lookup_ge_None in Hi. case_decide; [lia|done].
Qed.

Lemma holds_insert s k b' :
  (k < length (bufs s))%nat ->
  bio_holds (set_bufs (<[k := b']> (bufs s)) s) =
  (if sl_locked (b_lock b') =? 0 then delete k else <[k := b_blockno b']>) (bio_holds s).
Proof.
  intros Hk. apply map_eq. intros j. rewrite holds_lookup. cbn [bufs set_bufs].
  destruct (decide (k = j)) as [<-|Hne].
  - rewrite list_lookup_insert_eq by done. simpl.
    destruct (_ =? 0); [by rewrite lookup_delete_eq | by rewrite lookup_insert_eq].
  - rewrite list_lookup_insert_ne by done. rewrite <- holds_lookup.
    destruct (_ =? 0); [by rewrite lookup_delete_ne | by rewrite lookup_insert_ne].
Qed.

Lemma dirty_unique s k b j c :
  bio_ok s -> bufs s !! k = Some b -> b_dev b = 1 ->
  bufs s !! j = Some c -> dirty c -> b_blockno c = b_blockno b -> j = k.
Proof.
  intros Hok Hb Hd Hj Hdc Hn. pose proof (bio_ok_buf _ _ _ Hok Hj) as [_ [(Hf & _)|Hiu]].
  - unfold dirty in Hdc. by rewrite Hf in Hdc.
  - eapply (bio_ok_unique _ Hok); try done; rewrite (iu_dev _ _ Hiu); [done|congruence].
Qed.

Lemma pinned_dirty s k b :
  bio_ok s -> bufs s !! k = Some b -> b_dev b = 1 -> b_blockno b ∈ bio_pinned s <-> dirty b.
Proof.
  intros Hok Hb Hd. rewrite elem_of_pinned. split; [|by eauto].
  intros (j & c & Hj & Hdc & Hcn). assert (j = k) as -> by by eapply dirty_unique. by simplify_eq.
Qed.

Lemma pinned_insert s k b b' :
  bio_ok s -> bufs s !! k = Some b -> b_dev b = 1 -> same_place b b' ->
  bio_pinned (set_bufs (<[k := b']> (bufs s)) s) =
  if decide (dirty b') then {[ b_blockno b ]} ∪ bio_pinned s else bio_pinned s ∖ {[ b_blockno b ]}.
Proof.
  intros Hok Hb Hd (_ & _ & Hd' & Hn' & _). pose proof (lookup_lt_Some _ _ _ Hb) as Hk.
  apply set_eq. intros n. rewrite elem_of_pinned. cbn [bufs set_bufs].
  pose proof (fun j c => dirty_unique s k b j c Hok Hb Hd) as Hu.
  split.
  - intros (j & c & Hj & Hdc & Hcn). apply list_lookup_insert_Some in Hj as [(<- & <- & _)|[Hne Hj]].
    + rewrite decide_True by done. set_solver.
    + assert (n ∈ bio_pinned s) by (apply elem_of_pinned; eauto).
      case_decide; [set_solver|]. apply elem_of_difference. split; [done|].
      intros ->%elem_of_singleton. by specialize (Hu _ _ Hj Hdc ltac:(done)).
  - intros Hn. assert (Hn2 : (dirty b' /\ n = b_blockno b) \/ (n ∈ bio_pinned s /\ n <> b_blockno b)).
    { destruct (decide (n = b_blockno b)); case_decide; set_solver. }
    destruct Hn2 as [[Hdb ->]|[Hn2 Hne]].
    + exists k, b'. rewrite list_lookup_insert_eq by done. done.
    + apply elem_of_pinned in Hn2 as (j & c & Hj & Hdc & Hcn). exists j, c.
      rewrite list_lookup_insert_ne; [done|]. intros <-. congruence.
Qed.

(** *** The accesses of a holder *)

Lemma mine_locked b : mine b -> (sl_locked (b_lock b) =? 0) = false.
Proof. intros [[-> _] _]. done. Qed.

Lemma buf_data_law s k n :
  bio_ok s -> bio_holds s !! k = Some n ->
  exists d, bio_content s !! Z.to_nat n = Some d /\ buf_data k s = Ret d s.
Proof.
  intros Hok (b & Hb & <- & Hiu & _)%holds_inv; [|done]. exists (b_data b).
  split; [by eapply content_cached; [|done|apply Hiu]|].
  unfold buf_data. mred. by rewrite (rd_run k s b).
Qed.

Lemma buf_no_law s k n : bio_ok s -> bio_holds s !! k = Some n -> buf_no k s = Ret n s.
Proof.
  intros Hok (b & Hb & <- & Hiu & _)%holds_inv; [|done].
  unfold buf_no. mred. by rewrite (rd_run k s b).
Qed.

(** Overwriting a held buffer with [b']: what the views become. *)
Lemma held_update s k b b' :
  bio_ok s -> bufs s !! k = Some b -> in_use (disk s) b -> mine b ->
  same_place b b' -> in_use (disk s) b' -> mine b' -> block_ok (b_data b') ->
  let s' := set_bufs (<[k := b']> (bufs s)) s in
  bio_ok s' /\ bio_holds s' = bio_holds s /\
  bio_content s' = <[Z.to_nat (b_blockno b) := b_data b']> (bio_content s) /\
  bio_pinned s' = if decide (dirty b') then {[ b_blockno b ]} ∪ bio_pinned s
                  else bio_pinned s ∖ {[ b_blockno b ]}.
Proof.
  intros Hok Hb Hiu Hm Hs Hiu' Hm' Hd s'. pose proof (lookup_lt_Some _ _ _ Hb) as Hk.
  pose proof (iu_dev _ _ Hiu) as Hdev. split_and!.
  - eapply ok_insert; try done. split; [done|by right].
  - unfold s'. rewrite holds_insert by done. rewrite (mine_locked _ Hm').
    apply insert_id. rewrite holds_lookup, Hb. simpl. rewrite (mine_locked _ Hm).
    by destruct Hs as (_ & _ & _ & -> & _).
  - by eapply content_insert.
  - by eapply pinned_insert.
Qed.

Lemma buf_set_law s k n d :
  bio_ok s -> bio_holds s !! k = Some n -> block_ok d ->
  wp (buf_set k d) s (fun _ s' => bio_ok s' /\
    bio_holds s' = bio_holds s /\ disk s' = disk s /\ bio_pinned s' = bio_pinned s /\
    bio_content s' = <[Z.to_nat n := d]> (bio_content s)).
Proof.
  intros Hok Hh Hd. destruct (holds_inv _ _ _ Hok Hh) as (b & Hb & <- & Hiu & Hm & _).
  eapply wp_intro; [by apply wr_run|].
  pose proof Hiu as [? ? ? ? ?].
  destruct (held_update s k b (set_data d b)) as (? & ? & ? & Hp); try done.
  - destruct Hok as ((order & Hi) & _). split_and!; try done. by apply (binv_lk s order k b).
  - split; try done. intros [Hu _]. destruct Hm as [[Hl _] _]. simpl in Hu. congruence.
  - split_and!; try done. rewrite Hp. case_decide as Hdir.
    + assert (b_blockno b ∈ bio_pinned s) by (by apply (pinned_dirty s k)). set_solver.
    + assert (b_blockno b ∉ bio_pinned s); [|set_solver]. by rewrite (pinned_dirty s k b).
Qed.

Lemma buf_pin_law s k n :
  bio_ok s -> bio_holds s !! k = Some n ->
  wp (buf_pin k) s (fun _ s' => bio_ok s' /\
    bio_holds s' = bio_holds s /\ disk s' = disk s /\ bio_content s' = bio_content s /\
    bio_pinned s' = {[ n ]} ∪ bio_pinned s).
Proof.
  intros Hok Hh. destruct (holds_inv _ _ _ Hok Hh) as (b & Hb & <- & Hiu & Hm & _).
  eapply wp_intro; [by apply wr_run|].
  assert (Hf : Z.lor (b_flags b) B_DIRTY = Z.lor B_VALID B_DIRTY).
  { destruct (iu_flags _ _ Hiu) as [-> | ->]; reflexivity. }
  cbv beta. rewrite Hf. destruct (held_update s k b (set_flags (Z.lor B_VALID B_DIRTY) b)) as (? & ? & Hc & Hp); try done.
  - destruct Hok as ((order & Hi) & _). split_and!; try done. by apply (binv_lk s order k b).
  - destruct Hiu. split; try done. by right.
  - by destruct (bio_ok_buf _ _ _ Hok Hb).
  - split_and!; try done.
    rewrite Hc. apply list_insert_id. by apply (content_cached s k b); [..|apply Hiu].
Qed.

(** *** bwrite *)

Lemma iderw_write_run s k b :
  bufs s !! k = Some b -> sl_lk (b_lock b) = false -> sl_held me (b_lock b) -> b_dev b = 1 ->
  b_flags b = Z.lor B_VALID B_DIRTY -> (Z.to_nat (b_blockno b) < length (disk s))%nat ->
  wpe (iderw me k) s (fun _ s' =>
      bc_lock s' = bc_lock s /\ bufs s' = <[k := set_flags B_VALID b]> (bufs s) /\
      disk s' = <[Z.to_nat (b_blockno b) := b_data b]> (disk s))
    (fun w s' => w = Crashed /\ disk s' = disk s).
Proof.
  intros Hb Hlk [Hl Hp] Hd Hf [d Hdk]%lookup_lt_is_Some_2. pose proof (lookup_lt_Some _ _ _ Hb) as Hk.
  unfold iderw. apply wpe_bind. unfold wpe at 1. rewrite (on_lock_holding me s k b), Hl, Hp, Z.eqb_refl by done.
  cbn [Z.eqb negb andb]. apply wpe_bind. unfold wpe at 1. rewrite (rd_run k s b), Hf, Hd by done.
  apply wpe_bind, wpe_get. rewrite Hdk. apply wpe_bind, wpe_bind.
  eapply wp_wpe, wp_intro; [by apply wr_run|]. unfold wpe at 1, disk_write. cbn [power set_bufs].
  assert (Hfin : forall s1, bufs s1 = <[k := set_flags B_VALID b]> (bufs s) ->
    wr k (fun b => set_flags (Z.lor (b_flags b) B_VALID) b) s1 = Ret tt s1).
  { intros s1 H1. rewrite (wr_run k _ s1 (set_flags B_VALID b)).
    - rewrite H1, list_insert_insert_eq. f_equal. destruct s1; simpl in *. by subst.
    - rewrite H1. by apply list_lookup_insert_eq. }
  destruct (power s) as [[|q]|]; [done|unfold wpe; rewrite Hfin; done..].
Qed.

(** Writing block [n] to the disk leaves the other buffers in agreement. *)
Lemma disk_update_ok s s' k b :
  bio_ok s -> bufs s !! k = Some b -> in_use (disk s) b -> mine b ->
  bc_lock s' = bc_lock s -> bufs s' = <[k := set_flags B_VALID b]> (bufs s) ->
  disk s' = <[Z.to_nat (b_blockno b) := b_data b]> (disk s) -> bio_ok s'.
Proof.
  intros Hok Hb Hiu Hm Hl Hbs Hds. pose proof Hok as ((order & Hi) & Hall & Hd).
  pose proof (bio_ok_buf _ _ _ Hok Hb) as [Hbd _].
  assert (Hlk : sl_lk (b_lock b) = false) by by apply (binv_lk s order k b).
  split_and!.
  - exists order. pose proof (binv_insert s order k b (set_flags B_VALID b) Hi Hb
      eq_refl eq_refl eq_refl eq_refl Hlk) as Hi'. destruct Hi'. split; rewrite ?Hbs, ?Hl; done.
  - rewrite Hbs. apply Forall_forall. intros c [j Hj]%list_elem_of_lookup_1.
    apply list_lookup_insert_Some in Hj as [(<- & <- & _)|[Hne Hj]].
    + split; [done|right]. destruct Hiu. split; rewrite ?Hds, ?length_insert; try done; [by left|].
      intros [Hu _]. destruct Hm as [[Hu' _] _]. simpl in Hu. congruence.
    + pose proof (bio_ok_buf _ _ _ Hok Hj) as [Hcd [Hnu|Hiuc]]; split; auto. right.
      destruct Hiuc as [Hcdev Hcr ? ? Hcc]. split; rewrite ?Hds, ?length_insert; try done.
      intros Hu Hf. rewrite list_lookup_insert_ne; [by apply Hcc|]. intros E. apply Hne.
      symmetry. eapply (bio_ok_unique _ Hok); try done; rewrite ?Hcdev, ?(iu_dev _ _ Hiu); try done.
      pose proof (iu_range _ _ Hiu). lia.
  - rewrite Hds. by apply Forall_insert.
Qed.

Lemma content_disk_update s s' k b :
  bio_ok s -> bufs s !! k = Some b -> in_use (disk s) b -> sl_lk (b_lock b) = false ->
  bufs s' = <[k := set_flags B_VALID b]> (bufs s) ->
  disk s' = <[Z.to_nat (b_blockno b) := b_data b]> (disk s) ->
  bio_content s' = bio_content s.
Proof.
  intros Hok Hb [Hdev Hr _ _ _] Hlk Hbs Hds. pose proof (lookup_lt_Some _ _ _ Hb) as Hk.
  assert (Hsp : same_place b (set_flags B_VALID b)) by by split_and!.
  pose proof (content_insert s k b (set_flags B_VALID b) Hok Hb Hdev Hsp) as Hc.
  cbn [b_data set_flags] in Hc.
  rewrite (list_insert_id (bio_content s)) in Hc by by apply (content_cached s k b).
  apply list_eq. intros i. rewrite <- Hc, !content_lookup, Hbs, Hds. cbn [bufs disk set_bufs].
  destruct (decide (Z.to_nat (b_blockno b) = i)) as [<-|Hne]; [|by rewrite list_lookup_insert_ne].
  rewrite list_lookup_insert_eq by lia.
  destruct (disk s !! Z.to_nat (b_blockno b)) as [x|] eqn:Hx; [|by apply lookup_ge_None in Hx; lia].
  simpl. rewrite Z2Nat.id by lia.
  rewrite (proj2 (cached_Some _ _ (b_data b) (unique_same_place _ _ _ _ Hok Hb Hsp))); [done|].
  exists k, (set_flags B_VALID b). by rewrite list_lookup_insert_eq.
Qed.

Lemma bwrite_law s k n d :
  bio_ok s -> bio_holds s !! k = Some n -> bio_content s !! Z.to_nat n = Some d ->
  wpe (bwrite me k) s (fun _ s' => bio_ok s' /\
      bio_holds s' = bio_holds s /\ disk s' = <[Z.to_nat n := d]> (disk s) /\
      bio_content s' = bio_content s /\ bio_pinned s' = bio_pinned s ∖ {[ n ]})
    (fun w s' => w = Crashed /\ disk s' = disk s).
Proof.
  intros Hok Hh Hd. destruct (holds_inv _ _ _ Hok Hh) as (b & Hb & <- & Hiu & Hm & _).
  pose proof (lookup_lt_Some _ _ _ Hb) as Hk. pose proof (iu_range _ _ Hiu) as Hr.
  pose proof (iu_dev _ _ Hiu) as Hdev.
  rewrite (content_cached s k b) in Hd by done. injection Hd as <-.
  assert (Hlk : sl_lk (b_lock b) = false).
  { destruct Hok as ((order & Hi) & _). by apply (binv_lk s order k b). }
  assert (Hf : Z.lor (b_flags b) B_DIRTY = Z.lor B_VALID B_DIRTY).
  { destruct (iu_flags _ _ Hiu) as [-> | ->]; reflexivity. }
  pose proof Hm as [Hheld Href]. unfold bwrite. apply wpe_bind. unfold wpe at 1.
  rewrite (on_lock_holding me s k b) by done. destruct Hheld as [Hl Hp]. rewrite Hl, Hp, Z.eqb_refl.
  cbn [Z.eqb negb andb]. apply wpe_bind. eapply wp_wpe, wp_intro; [by apply wr_run|]. cbv beta. rewrite Hf.
  eapply wpe_mono; [..|apply (iderw_write_run _ k (set_flags (Z.lor B_VALID B_DIRTY) b)); try done].
  - simpl. rewrite list_insert_insert_eq. intros _ s' (Hl' & Hbs & Hds). change (set_flags _ (set_flags _ b)) with (set_flags B_VALID b) in Hbs.
    pose proof (disk_update_ok s s' k b Hok Hb Hiu Hm Hl' Hbs Hds) as Hok'.
    set (s1 := set_bufs (<[k := set_flags B_VALID b]> (bufs s)) s).
    assert (Hsp : same_place b (set_flags B_VALID b)) by by split_and!.
    split; [done|]. split_and!; [|done|..].
    + transitivity (bio_holds s1); [unfold bio_holds; by rewrite Hbs|]. unfold s1.
      rewrite holds_insert by done. simpl. rewrite (mine_locked _ Hm). by apply insert_id.
    + by eapply content_disk_update.
    + transitivity (bio_pinned s1); [unfold bio_pinned; by rewrite Hbs|]. unfold s1.
      rewrite (pinned_insert s k b) by done. rewrite decide_False; [done|]. by intros [].
  - done.
  - simpl. by apply list_lookup_insert_eq.
  - simpl. lia.
Qed.

(** *** brelse *)

Lemma relinked_sym s s' : relinked s s' -> relinked s' s.
Proof. intros (? & ? & ? & ?). by split_and!. Qed.

Lemma relinked_lookup_r s s' k b :
  relinked s s' -> bufs s !! k = Some b -> exists b', bufs s' !! k = Some b' /\ unlinked b' = unlinked b.
Proof.
  intros R Hb. destruct (relinked_lookup _ _ _ _ (relinked_sym _ _ R) Hb) as (b' & ? & ?). eauto.
Qed.

Lemma relinked_cached l l' n : unlinked <$> l' = unlinked <$> l -> cached l' n = cached l n.
Proof.
  revert l'; induction l as [|b l IH]; intros [|b' l'] H; try done.
  injection H as Hf Hd Hn Hl Hr Hda Htl. unfold cached in *. cbn [List.find].
  assert (Hs : same_block 1 n b' = same_block 1 n b) by (unfold same_block; by rewrite Hd, Hn).
  rewrite Hs. destruct (same_block 1 n b); [by simpl; rewrite Hda|]. by apply IH.
Qed.

Lemma relinked_views s s' :
  relinked s s' ->
  bio_content s' = bio_content s /\ bio_holds s' = bio_holds s /\ bio_pinned s' = bio_pinned s.
Proof.
  intros R. pose proof R as (_ & Hd & _ & Hu). split_and!.
  - unfold bio_content. rewrite Hd. apply imap_ext. intros i x _. by rewrite (relinked_cached (bufs s)).
  - apply map_eq. intros k. rewrite !holds_lookup. destruct (bufs s !! k) as [b|] eqn:Hb.
    + destruct (relinked_lookup_r _ _ _ _ R Hb) as (b' & -> & E). injection E as ? ? Hn Hl ? ?.
      simpl. by rewrite Hn, Hl.
    + apply lookup_ge_None in Hb. rewrite lookup_ge_None_2; [done|]. by rewrite (relinked_length _ _ R).
  - apply set_eq. intros n. rewrite !elem_of_pinned. split; intros (k & b & Hb & Hdi & Hn).
    + destruct (relinked_lookup _ _ _ _ R Hb) as (c & Hc & E). injection E as Hf ? Hn' ? ? ?.
      exists k, c. unfold dirty in *. rewrite <- Hf, <- Hn'. done.
    + destruct (relinked_lookup_r _ _ _ _ R Hb) as (c & Hc & E). injection E as Hf ? Hn' ? ? ?.
      exists k, c. unfold dirty in *. rewrite Hf, Hn'. done.
Qed.

Lemma buf_ok_unlinked d b b' : unlinked b' = unlinked b -> buf_ok d b -> buf_ok d b'.
Proof.
  intros E. injection E as E1 E2 E3 E4 E5 E6.
  intros [Hd [(?&?&?)|[]]]; (split; [by rewrite E6|]); [left|right].
  - unfold never_used, unlocked. rewrite E1, E2, E4, E5. done.
  - split; unfold unlocked, mine; rewrite ?E1, ?E2, ?E3, ?E4, ?E5, ?E6; done.
Qed.

Lemma bio_ok_relinked s s' order :
  Forall (buf_ok (disk s)) (bufs s) -> Forall block_ok (disk s) ->
  relinked s s' -> binv s' order -> bio_ok s'.
Proof.
  intros Hb Hd R Hi. pose proof R as (_ & Hd' & _ & _). split; [eauto|]. rewrite Hd'. split; [|done].
  apply Forall_forall. intros b' [k Hk]%list_elem_of_lookup_1.
  destruct (relinked_lookup _ _ _ _ R Hk) as (b & Hk' & E).
  rewrite Forall_forall in Hb. eapply buf_ok_unlinked; [done|]. by eapply Hb, list_elem_of_lookup_2.
Qed.

Lemma brelse_law s k n :
  bio_ok s -> bio_holds s !! k = Some n ->
  n ∈ bio_pinned s \/ bio_content s !! Z.to_nat n = disk s !! Z.to_nat n ->
  wp (brelse me k) s (fun _ s' => bio_ok s' /\
    bio_holds s' = delete k (bio_holds s) /\ disk s' = disk s /\
    bio_content s' = bio_content s /\ bio_pinned s' = bio_pinned s).
Proof.
  intros Hok Hh Hclean. destruct (holds_inv _ _ _ Hok Hh) as (b & Hb & <- & Hiu & Hm & Hk).
  pose proof (lookup_lt_Some _ _ _ Hb) as Hkl. pose proof (iu_dev _ _ Hiu) as Hdev.
  pose proof Hok as ((order & Hi) & Hall & Hdk).
  assert (Hbo : buf_ok (disk s) (released b)).
  { pose proof (bio_ok_buf _ _ _ Hok Hb) as [Hbd _]. split; [done|right].
    destruct Hiu as [? ? Hf ? ?]. split; try done.
    - left. split; [done|]. destruct Hm as [_ Hr]. simpl. by rewrite Hr.
    - simpl. intros _ Hv. rewrite (content_cached s k b) in Hclean by done.
      destruct Hclean as [Hp%(pinned_dirty s k b)|Hc]; [|done..].
      unfold dirty in Hp. by rewrite Hv in Hp. }
  assert (Hsp : same_place b (released b)) by by split_and!.
  pose proof (ok_insert _ _ _ _ Hok Hb Hsp Hbo) as Hok1.
  eapply wp_mono; [|apply (brelse_run me s order k b Hi Hb Hk)].
  - simpl. intros [] s' [R Hi']. destruct (relinked_views _ _ R) as (-> & -> & ->).
    pose proof R as (_ & -> & _ & _). split_and!; [|..].
    + destruct Hok1 as (_ & ? & ?). by eapply bio_ok_relinked.
    + by rewrite holds_insert.
    + done.
    + rewrite (content_insert s k b) by done. apply list_insert_id. by apply (content_cached s k b).
    + rewrite (pinned_insert s k b) by done.
      assert (Hdd : dirty (released b) <-> b_blockno b ∈ bio_pinned s) by by rewrite (pinned_dirty s k b).
      case_decide; set_solver.
  - destruct Hm as [[-> ->] _]. by rewrite Z.eqb_refl.
Qed.

(** *** bread *)

(** The lock of a free buffer, taken by [me]. *)
Definition taken (b : buf) : sleeplock := SleepLock 1 false (sl_name (b_lock b)) me (sl_wakeups (b_lock b)).

Lemma take_lock_free k b s :
  sl_lk (b_lock b) = false -> sl_locked (b_lock b) = 0 ->
  take_lock me k b s = Ret k (set_bufs (<[k := set_lockb (taken b) b]> (bufs s)) s).
Proof. intros Hlk Hl. unfold take_lock. by rewrite acquiresleep_free. Qed.

Lemma bread_hit_run s order n k b :
  binv s order -> List.find (hit (same_block 1 n) (bufs s)) order = Some k -> bufs s !! k = Some b ->
  in_use (disk s) b -> unlocked b ->
  bread me 1 n s = Ret k (set_bufs (<[k := set_lockb (taken b) (set_refcnt 1 b)]> (bufs s)) s).
Proof.
  intros Hi Hf Hb Hiu [Hl Hr]. unfold bread, mbind, M_bind. rewrite (bget_run me 1 n s order Hi), Hf, Hb.
  rewrite take_lock_free by (simpl; try done; by apply (binv_lk s order k b)). rewrite Hr.
  rewrite (rd_run k _ (set_lockb (taken b) (set_refcnt 1 b)));
    [|apply list_lookup_insert_eq; by apply lookup_lt_Some in Hb].
  cbn [b_flags set_lockb set_refcnt]. by destruct (iu_flags _ _ Hiu) as [-> | ->].
Qed.

Lemma iderw_read_run s k b d :
  bufs s !! k = Some b -> sl_lk (b_lock b) = false -> sl_held me (b_lock b) -> b_dev b = 1 ->
  b_flags b = 0 -> disk s !! Z.to_nat (b_blockno b) = Some d ->
  iderw me k s = Ret tt (set_bufs (<[k := set_flags B_VALID (set_data d b)]> (bufs s)) s).
Proof.
  intros Hb Hlk [Hl Hp] Hd Hf Hdk. pose proof (lookup_lt_Some _ _ _ Hb) as Hk.
  unfold iderw, mbind, M_bind, get. rewrite (on_lock_holding me s k b), Hl, Hp, Z.eqb_refl by done.
  cbn [Z.eqb negb andb]. rewrite (rd_run k s b), Hf, Hd by done.
  change (Z.land 0 _ =? B_VALID) with false. change (1 =? 1) with true. cbn [negb]. rewrite Hdk.
  change (Z.land 0 B_DIRTY =? 0) with true. cbn [negb]. rewrite (wr_run k _ s b) by done. rewrite (wr_run k _ _ (set_data d b)).
  - cbn [bufs set_bufs]. rewrite list_insert_insert_eq. cbn [b_flags set_data]. by rewrite Hf.
  - by apply list_lookup_insert_eq.
Qed.

Definition loaded (n : Z) (d : block) (b : buf) : buf :=
  Buf B_VALID 1 n (taken b) 1 (b_prev b) (b_next b) d.

Lemma bread_miss_run s order n k b d :
  binv s order -> List.find (hit (same_block 1 n) (bufs s)) order = None ->
  List.find (hit recyclable (bufs s)) (reverse order) = Some k -> bufs s !! k = Some b ->
  unlocked b -> disk s !! Z.to_nat n = Some d ->
  bread me 1 n s = Ret k (set_bufs (<[k := loaded n d b]> (bufs s)) s).
Proof.
  intros Hi Hf Hf2 Hb [Hl Hr] Hd. pose proof (lookup_lt_Some _ _ _ Hb) as Hk.
  pose proof (binv_lk s order k b Hi Hb) as Hlk.
  unfold bread, mbind, M_bind. rewrite (bget_run me 1 n s order Hi), Hf, Hf2, Hb.
  rewrite take_lock_free by done.
  set (b1 := set_lockb _ _). set (s1 := set_bufs _ s).
  assert (Hb1 : bufs s1 !! k = Some b1) by by apply list_lookup_insert_eq.
  rewrite (rd_run k s1 b1) by done. change (Z.land (b_flags b1) B_VALID =? 0) with true. cbn [when].
  rewrite (iderw_read_run s1 k b1 d) by done. unfold s1. cbn [bufs set_bufs].
  by rewrite list_insert_insert_eq.
Qed.

(** A buffer can be recycled when the blocks in use are fewer than the
    buffers. *)
Lemma find_recyclable s order n :
  bio_ok s -> binv s order -> List.find (hit (same_block 1 n) (bufs s)) order = None ->
  n ∈ bio_pinned s \/ (size (bio_pinned s ∪ map_to_set (fun _ b => b) (bio_holds s)) < Z.to_nat NBUF)%nat ->
  exists k b, List.find (hit recyclable (bufs s)) (reverse order) = Some k /\
    bufs s !! k = Some b /\ (k < HEAD)%nat /\ unlocked b /\ ~ dirty b.
Proof.
  intros Hok Hi Hf Hroom. pose proof Hi as [_ Hlen Hm _ (h & Hh & Hh0) _].
  destruct (List.find (hit recyclable _) _) as [k|] eqn:Hf2.
  - apply find_hit_Some in Hf2 as (Hk & b & Hb & Hrec). rewrite elem_of_reverse in Hk.
    exists k, b. apply andb_true_iff in Hrec as [Hr Hd]. rewrite Z.eqb_eq in Hr, Hd.
    split_and!; try done; [by apply (mru_in_range _ _ _ Hm)|..].
    + split; [|done]. pose proof (bio_ok_buf _ _ _ Hok Hb) as [_ [(_ & _ & [? _])|Hiu]]; [done|].
      destruct (iu_lock _ _ Hiu) as [[? _]|[_ ?]]; [done|lia].
    + intros Hdd. by apply Hdd.
  - exfalso.
    assert (Hin : forall k b, (k < HEAD)%nat -> bufs s !! k = Some b ->
      b_dev b = 1 /\ b_blockno b ∈ bio_pinned s ∪ map_to_set (fun _ b => b) (bio_holds s)).
    { intros k b Hk Hb. apply (mru_elem _ _ _ Hm) in Hk. rewrite <- elem_of_reverse in Hk.
      pose proof (find_hit_None _ _ _ _ _ Hf2 Hk Hb) as Hrec. unfold recyclable in Hrec.
      pose proof (bio_ok_buf _ _ _ Hok Hb) as [_ [(Hfl & _ & [_ Hr])|Hiu]]; [by rewrite Hfl, Hr in Hrec|].
      split; [apply Hiu|]. destruct (iu_lock _ _ Hiu) as [[_ Hr]|Hmine].
      - rewrite Hr in Hrec. cbn [Z.eqb andb] in Hrec. apply Z.eqb_neq in Hrec.
        apply elem_of_union_l, elem_of_pinned. eauto.
      - apply elem_of_union_r, elem_of_held. exists k. rewrite holds_lookup, Hb. simpl.
        by rewrite mine_locked. }
    destruct Hroom as [(j & c & Hj & Hdc & <-)%elem_of_pinned|Hroom].
    + assert (Hjh : (j < HEAD)%nat).
      { pose proof (lookup_lt_Some _ _ _ Hj). destruct (decide (j = HEAD)) as [->|]; [|lia].
        pose proof (bio_ok_buf _ _ _ Hok Hj) as [_ [(Hfl & _)|Hiu]].
        - unfold dirty in Hdc. by rewrite Hfl in Hdc.
        - destruct Hiu. simplify_eq. congruence. }
      pose proof (find_hit_None _ _ _ _ _ Hf (proj2 (mru_elem _ _ _ Hm) Hjh) Hj) as Hs.
      rewrite (proj2 (same_block_true 1 (b_blockno c) c)) in Hs; [done|]. by destruct (Hin _ _ Hjh Hj).
    + set (l := b_blockno <$> take HEAD (bufs s)).
      assert (Hl : forall i x, l !! i = Some x ->
        exists b, (i < HEAD)%nat /\ bufs s !! i = Some b /\ b_blockno b = x).
      { intros i x. unfold l. rewrite list_lookup_fmap, fmap_Some.
        intros (b & [Hb Hlt]%lookup_take_Some & ->). eauto. }
      assert (Hnd : NoDup l).
      { apply NoDup_alt. intros i j x (bi & Hih & Hbi & Hxi)%Hl (bj & Hjh & Hbj & Hxj)%Hl.
        destruct (Hin _ _ Hih Hbi) as [Hdi _], (Hin _ _ Hjh Hbj) as [Hdj _].
        eapply (bio_ok_unique _ Hok); try done; congruence. }
      assert (Hsub : (list_to_set l : gset Z) ⊆ bio_pinned s ∪ map_to_set (fun _ b => b) (bio_holds s)).
      { intros x [i Hx]%elem_of_list_to_set%list_elem_of_lookup. apply Hl in Hx as (b & Hih & Hb & <-).
        by apply (Hin i b). }
      apply subseteq_size in Hsub. rewrite size_list_to_set in Hsub by done.
      unfold l in Hsub. rewrite length_fmap, length_take, Hlen in Hsub. unfold HEAD in *. lia.
Qed.

Lemma in_held s k b :
  bufs s !! k = Some b -> sl_locked (b_lock b) <> 0 ->
  b_blockno b ∈ (map_to_set (fun _ b => b) (bio_holds s) : gset Z).
Proof.
  intros Hb Hl. apply elem_of_held. exists k. rewrite holds_lookup, Hb. simpl.
  by destruct (Z.eqb_spec (sl_locked (b_lock b)) 0).
Qed.

Lemma bread_hit_law s order n k b :
  bio_ok s -> binv s order -> n ∉ (map_to_set (fun _ b => b) (bio_holds s) : gset Z) ->
  List.find (hit (same_block 1 n) (bufs s)) order = Some k -> bufs s !! k = Some b ->
  b_dev b = 1 -> b_blockno b = n ->
  wp (bread me 1 n) s (fun k s' => bio_ok s' /\
    bio_holds s !! k = None /\ bio_holds s' = <[k := n]> (bio_holds s) /\
    disk s' = disk s /\ bio_content s' = bio_content s /\ bio_pinned s' = bio_pinned s).
Proof.
  intros Hok Hi Hnh Hf Hb Hdev <-. pose proof (lookup_lt_Some _ _ _ Hb) as Hk.
  pose proof (buf_ok_dev1 _ _ (bio_ok_buf _ _ _ Hok Hb) Hdev) as Hiu.
  assert (Hu : unlocked b).
  { destruct (iu_lock _ _ Hiu) as [|Hm]; [done|]. exfalso. apply Hnh. eapply in_held; [done|].
    destruct Hm as [[-> _] _]. done. }
  eapply wp_intro; [by eapply bread_hit_run|].
  set (b' := set_lockb _ _).
  assert (Hsp : same_place b b') by by split_and!.
  assert (Hiu' : in_use (disk s) b').
  { destruct Hiu. split; try done; [by right|]. intros [Hl _]. done. }
  pose proof (bio_ok_buf _ _ _ Hok Hb) as [Hbd _]. split_and!; [| | | done |..].
  - eapply ok_insert; try done. split; [done|by right].
  - rewrite holds_lookup, Hb. simpl. by destruct Hu as [-> _].
  - by rewrite holds_insert.
  - rewrite (content_insert s k b) by done. apply list_insert_id. by apply (content_cached s k b).
  - rewrite (pinned_insert s k b) by done.
    assert (Hdd : dirty b' <-> b_blockno b ∈ bio_pinned s) by by rewrite (pinned_dirty s k b).
    case_decide; set_solver.
Qed.

(** The views after buffer [k], free and clean, is loaded with block [n]. *)
Lemma loaded_views s k b n d :
  bio_ok s -> bufs s !! k = Some b -> unlocked b -> ~ dirty b ->
  cached (bufs s) n = None -> disk s !! Z.to_nat n = Some d -> 0 <= n ->
  let s' := set_bufs (<[k := loaded n d b]> (bufs s)) s in
  unique_blocks (bufs s') ->
  bio_holds s' = <[k := n]> (bio_holds s) /\ bio_content s' = bio_content s /\
  bio_pinned s' = bio_pinned s.
Proof.
  intros Hok Hb Hu Hnd Hnone Hd Hn s' Hu'. pose proof (lookup_lt_Some _ _ _ Hb) as Hk.
  pose proof (bio_ok_unique _ Hok) as Huq. split_and!.
  - unfold s'. by rewrite holds_insert.
  - apply list_eq. intros i. rewrite !content_lookup. cbn [disk bufs set_bufs s'] in *.
    destruct (disk s !! i) as [x|] eqn:Hx; [|done]. simpl. f_equal.
    destruct (decide (Z.of_nat i = n)) as [<-|Hne].
    { rewrite Hnone. rewrite (proj2 (cached_Some _ _ d Hu')); [rewrite Nat2Z.id in Hd; by simplify_eq|].
      exists k, (loaded (Z.of_nat i) d b). by rewrite list_lookup_insert_eq. }
    destruct (decide (b_dev b = 1 /\ b_blockno b = Z.of_nat i)) as [[Hdev Hbi]|Hold].
    + rewrite (proj2 (cached_Some (bufs s) _ (b_data b) Huq)) by eauto 6.
      rewrite (proj2 (cached_None _ _)).
      * pose proof (buf_ok_dev1 _ _ (bio_ok_buf _ _ _ Hok Hb) Hdev) as Hiu.
        pose proof (dirty_flags _ _ Hiu) as Hdf. destruct (iu_flags _ _ Hiu) as [Hv|Hv]; [|tauto].
        pose proof (iu_clean _ _ Hiu Hu Hv) as Hc. rewrite Hbi, Nat2Z.id, Hx in Hc. by simplify_eq.
      * intros j c [(<- & <- & _)|[Hjk Hj]]%list_lookup_insert_Some Hcd; [done|]. intros Hcn.
        apply Hjk. symmetry. eapply Huq; try done; congruence.
    + f_equal. apply option_eq. intros y. rewrite !cached_Some by done.
      split; intros (j & c & Hj & Hcd & Hcn & Hcx).
      * apply list_lookup_insert_Some in Hj as [(<- & <- & _)|[_ Hj]]; [done|eauto 6].
      * exists j, c. rewrite list_lookup_insert_ne; [done|]. intros <-. simplify_eq. tauto.
  - apply set_eq. intros m. rewrite !elem_of_pinned. cbn [bufs set_bufs s'] in *.
    split; intros (j & c & Hj & Hdc & Hcn).
    + apply list_lookup_insert_Some in Hj as [(<- & <- & _)|[_ Hj]]; [by destruct Hdc|eauto].
    + exists j, c. rewrite list_lookup_insert_ne; [done|]. intros <-. by simplify_eq.
Qed.

Lemma bread_law s n :
  bio_ok s -> 0 <= n < Z.of_nat (length (disk s)) ->
  n ∉ (map_to_set (fun _ b => b) (bio_holds s) : gset Z) ->
  n ∈ bio_pinned s \/ (size (bio_pinned s ∪ map_to_set (fun _ b => b) (bio_holds s)) < Z.to_nat NBUF)%nat ->
  wp (bread me ROOTDEV n) s (fun k s' => bio_ok s' /\
    bio_holds s !! k = None /\ bio_holds s' = <[k := n]> (bio_holds s) /\
    disk s' = disk s /\ bio_content s' = bio_content s /\ bio_pinned s' = bio_pinned s).
Proof.
  intros Hok Hn Hnh Hroom. pose proof Hok as ((order & Hi) & Hall & Hdk). unfold ROOTDEV.
  destruct (List.find (hit (same_block 1 n) (bufs s)) order) as [k|] eqn:Hf.
  - pose proof Hf as (_ & b & Hb & [Hd Hbn]%same_block_true)%find_hit_Some.
    by eapply bread_hit_law.
  - destruct (find_recyclable s order n Hok Hi Hf Hroom) as (k & b & Hf2 & Hb & Hk & Hu & Hnd).
    destruct (lookup_lt_is_Some_2 (disk s) (Z.to_nat n)) as [d Hd]; [lia|].
    pose proof (bread_miss_run s order n k b d Hi Hf Hf2 Hb Hu Hd) as Hrun.
    pose proof (bread_binv me 1 n s order Hi) as Hi'. unfold wpe in Hi'. rewrite Hrun in Hi'.
    assert (Hnone : cached (bufs s) n = None).
    { apply cached_None. intros j c Hj Hcd Hcn. pose proof Hi as [_ Hlen Hm _ (h & Hh & Hh0) _].
      assert (Hjh : (j < HEAD)%nat).
      { pose proof (lookup_lt_Some _ _ _ Hj). destruct (decide (j = HEAD)) as [->|]; [|lia]. simplify_eq. congruence. }
      pose proof (find_hit_None _ _ _ _ _ Hf (proj2 (mru_elem _ _ _ Hm) Hjh) Hj) as Hs.
      by rewrite (proj2 (same_block_true 1 n c)) in Hs. }
    eapply wp_intro; [exact Hrun|].
    destruct (loaded_views s k b n d Hok Hb Hu Hnd Hnone Hd ltac:(lia) (inv_unique _ _ Hi')) as (Hh' & Hc' & Hp').
    split_and!; try done.
    + split; [eauto|]. split; [|done]. apply Forall_insert; [done|].
      rewrite Forall_forall in Hdk. split; [by eapply Hdk, list_elem_of_lookup_2|]. right.
      constructor; [done|done|by left|by right|by intros [Hl _]].
    + rewrite holds_lookup, Hb. simpl. by destruct Hu as [-> _].
Qed.

(** *** Boot *)

Definition zbuf : buf := Buf 0 0 0 (SleepLock 0 false EmptyString 0 0) 0 0 0 zero_block.

(** The cache after binit, on a machine whose disk holds [d]. *)
Definition boot_bcache (d : list block) (p : option nat) : bcache :=
  match binit (BCache false (replicate (S HEAD) zbuf) d p) with Ret _ s => s | Stop _ s => s end.

Lemma zeroed_boot d p : zeroed (BCache false (replicate (S HEAD) zbuf) d p).
Proof. split; [apply length_replicate|]. apply Forall_replicate. done. Qed.

Lemma boot_law d p :
  Forall block_ok d ->
  let s := boot_bcache d p in
  bio_ok s /\ disk s = d /\ bio_content s = d /\ bio_holds s = ∅ /\ bio_pinned s = ∅.
Proof.
  intros Hd s. pose proof (binit_binv _ (zeroed_boot d p)) as H. apply wp_inv in H as ([] & s' & Hr & H).
  unfold s, boot_bcache. rewrite Hr. clear Hr s. destruct H as (Hi & [Hlen Hz] & Hdk & Hp). simpl in Hdk.
  rewrite Forall_forall in Hz.
  assert (Hz' : forall k b, bufs s' !! k = Some b -> zero_buf b)
    by (intros; by eapply Hz, list_elem_of_lookup_2). subst d.
  split_and!; [|done|..].
  - split; [eauto|]. split; [|done]. apply Forall_forall. intros b (? & ? & ? & Hl & Hbd)%Hz.
    split; [rewrite Hbd; apply zero_block_ok|]. left. split_and!; [done..|]. split; [by rewrite Hl|done].
  - apply list_eq. intros i. rewrite content_lookup. destruct (disk s' !! i) as [x|]; [|done]. simpl.
    rewrite (proj2 (cached_None _ _)); [done|]. intros k b (_ & Hb & _)%Hz'. congruence.
  - apply map_eq. intros k. rewrite holds_lookup, lookup_empty. destruct (bufs s' !! k) as [b|] eqn:Hb; [|done].
    apply Hz' in Hb as (_ & _ & _ & Hl & _). simpl. by rewrite Hl.
  - apply set_eq. intros n. rewrite elem_of_pinned. split; [|set_solver].
    intros (k & b & (Hf & _)%Hz' & Hdi & _). unfold dirty in Hdi. by rewrite Hf in Hdi.
Qed.

Lemma content_blocks s : bio_ok s -> Forall block_ok (bio_content s).
Proof.
  intros Hok. apply Forall_forall. intros d [i Hd]%list_elem_of_lookup_1. rewrite content_lookup in Hd.
  pose proof Hok as (_ & _ & Hdk). rewrite Forall_forall in Hdk.
  destruct (disk s !! i) as [x|] eqn:Hx; [|done]. simpl in Hd. injection Hd as <-.
  destruct (cached _ _) as [y|] eqn:Hc; simpl; [|by eapply Hdk, list_elem_of_lookup_2].
  apply cached_Some in Hc as (k & b & Hb & _ & _ & <-); [|by apply bio_ok_unique].
  by destruct (bio_ok_buf _ _ _ Hok Hb).
Qed.

Lemma content_clean s n :
  bio_ok s -> 0 <= n -> n ∉ (map_to_set (fun _ b => b) (bio_holds s) : gset Z) -> n ∉ bio_pinned s ->
  bio_content s !! Z.to_nat n = disk s !! Z.to_nat n.
Proof.
  intros Hok Hn0 Hh Hp. rewrite content_lookup. destruct (disk s !! Z.to_nat n) as [x|] eqn:Hx; [|done].
  simpl. f_equal. rewrite Z2Nat.id by done. destruct (cached _ _) as [y|] eqn:Hc; simpl; [|done].
  apply cached_Some in Hc as (k & b & Hb & Hd & <- & <-); [|by apply bio_ok_unique].
  pose proof (buf_ok_dev1 _ _ (bio_ok_buf _ _ _ Hok Hb) Hd) as Hiu.
  rewrite (pinned_dirty s k b), (dirty_flags _ _ Hiu) in Hp by done.
  assert (Hu : unlocked b).
  { destruct (iu_lock _ _ Hiu) as [|[[Hl _] _]]; [done|]. exfalso. apply Hh. eapply in_held; [done|lia]. }
  pose proof (iu_clean _ _ Hiu Hu) as Hcl. rewrite Hx in Hcl.
  destruct (iu_flags _ _ Hiu) as [Hf|Hf]; [|done]. specialize (Hcl Hf). by simplify_eq.
Qed.

(** *** Power *)

Definition powered (s : bcache) : Prop := power s = None.

Lemma nocrash_rd k : nocrash powered (rd k).
Proof. unfold rd. nocrash. Qed.

Lemma nocrash_wr k f : nocrash powered (wr k f).
Proof. unfold wr. nocrash; apply nocrash_rd. Qed.

Lemma nocrash_acquire_bc : nocrash powered acquire_bc.
Proof. intros s Hs. unfold acquire_bc. apply wpe_bind, wpe_get. by destruct (bc_lock s). Qed.

Lemma nocrash_release_bc : nocrash powered release_bc.
Proof. intros s Hs. unfold release_bc. apply wpe_bind, wpe_get. by destruct (bc_lock s). Qed.

Lemma nocrash_on_lock {A} k (m : M sleeplock A) :
  nocrash (fun _ => True) m -> nocrash powered (on_lock k m).
Proof.
  intros Hm s Hs. unfold wpe, on_lock. destruct (bufs s !! k) as [b|]; [|done].
  specialize (Hm (b_lock b) I). unfold wpe in Hm. by destruct (m (b_lock b)).
Qed.

Lemma nocrash_lk : nocrash (fun _ => True) acquire_lk /\ nocrash (fun _ => True) release_lk.
Proof.
  split; intros l _; [unfold acquire_lk|unfold release_lk]; apply wpe_bind, wpe_get; by destruct (sl_lk l).
Qed.

Lemma nocrash_acquiresleep p k : nocrash (fun _ => True) (acquiresleep p k).
Proof. destruct nocrash_lk. unfold acquiresleep. nocrash. Qed.

Lemma nocrash_releasesleep : nocrash (fun _ => True) releasesleep.
Proof. destruct nocrash_lk. unfold releasesleep, wakeup_lk. nocrash. Qed.

Lemma nocrash_holdingsleep p : nocrash (fun _ => True) (holdingsleep p).
Proof. destruct nocrash_lk. unfold holdingsleep. nocrash. Qed.

Hint Resolve nocrash_rd nocrash_wr nocrash_acquire_bc nocrash_release_bc nocrash_on_lock
  nocrash_acquiresleep nocrash_releasesleep nocrash_holdingsleep : nocrash.

Lemma nocrash_disk_write n d : nocrash powered (disk_write n d).
Proof. intros s Hs. unfold wpe, disk_write. unfold powered in Hs. by rewrite Hs. Qed.

Lemma nocrash_scan fuel dir test k : nocrash powered (scan fuel dir test k).
Proof.
  revert k; induction fuel as [|fuel IH]; intros k; simpl; [auto with nocrash|].
  destruct (decide _); nocrash.
Qed.

Hint Resolve nocrash_disk_write nocrash_scan : nocrash.

Lemma nocrash_iderw k : nocrash powered (iderw me k).
Proof. unfold iderw. nocrash. Qed.

Lemma nocrash_bget dev n : nocrash powered (bget me dev n).
Proof. unfold bget. nocrash. Qed.

Lemma nocrash_links k : nocrash powered (unlink k) /\ nocrash powered (link_front k).
Proof. split; [unfold unlink|unfold link_front]; nocrash. Qed.

Hint Resolve nocrash_iderw nocrash_bget : nocrash.

(** The cache keeps the promises of its interface. *)
#[export, refine] Instance bio_store_laws : @BlockStoreLaws bcache (bio_store me) := {
  bs_ok := bio_ok; home := disk; content := bio_content; holds := bio_holds;
  pinned := bio_pinned; capacity := Z.to_nat NBUF; reboot := boot_bcache; steady := powered
}.
Proof.
  - intros s _. apply length_content.
  - intros s Hok. split; [by apply content_blocks|]. by destruct Hok as (_ & _ & ?).
  - intros s b Hok Hb. by apply content_clean.
  - apply boot_law.
  - intros d. unfold powered, boot_bcache. pose proof (binit_binv _ (zeroed_boot d None)) as H.
    apply wp_inv in H as (? & s' & Hr & _ & _ & _ & Hp). by rewrite Hr.
  - intros dev b. unfold Block.bread; simpl. unfold bread. nocrash.
  - intros k. unfold Block.bwrite; simpl. unfold bwrite. nocrash.
  - intros k. destruct (nocrash_links k). unfold Block.brelse; simpl. unfold brelse. nocrash.
  - intros k. unfold bdata; simpl. unfold buf_data. nocrash.
  - intros k d. unfold bset; simpl. unfold buf_set. nocrash.
  - intros k. unfold bno; simpl. unfold buf_no. nocrash.
  - intros k. unfold bpin; simpl. unfold buf_pin. nocrash.
  - apply bread_law.
  - apply buf_data_law.
  - apply buf_no_law.
  - apply buf_set_law.
  - apply buf_pin_law.
  - apply bwrite_law.
  - apply brelse_law.
Defined.

End laws.

(** ** The cache's contract *)

(** C19: bread returns a locked buffer with the current content of the block,
    the cached copy where there is one and the disk's block otherwise. It
    changes no content, writes nothing to the disk, and evicts no pinned
    block. This is for a caller that does not hold the block already, when no
    other process holds a buffer, so that bread need not sleep for one, and as
    long as fewer than NBUF blocks are pinned or held or the block is
    pinned, so that there is a buffer for it. *)
Theorem bread_returns_current (me : Z) (s : bcache) (n : Z) :
  bio_ok me s -> 0 <= n < Z.of_nat (length (disk s)) ->
  n ∉ (map_to_set (fun _ b => b) (bio_holds s) : gset Z) ->
  n ∈ bio_pinned s \/ (size (bio_pinned s ∪ map_to_set (fun _ b => b) (bio_holds s)) < Z.to_nat NBUF)%nat ->
  wp (k ← bread me ROOTDEV n; d ← buf_data k; mret (k, d)) s (fun r s' =>
    bio_content s !! Z.to_nat n = Some r.2 /\ bio_holds s' = <[r.1 := n]> (bio_holds s) /\
    bio_content s' = bio_content s /\ disk s' = disk s /\ bio_pinned s' = bio_pinned s /\ bio_ok me s').
Proof.
  intros Hok Hn Hh Hroom. apply wp_bind. eapply wp_mono; [|by apply bread_law].
  simpl. intros k s' (Hok' & _ & Hh' & Hd' & Hc' & Hp').
  destruct (buf_data_law me s' k n Hok') as (d & Hd & Hr); [by rewrite Hh', lookup_insert_eq|].
  apply wp_bind. eapply wp_intro; [exact Hr|]. apply wpe_ret. simpl. rewrite <- Hc'. by split_and!.
Qed.

(** Block 2 of a disk just booted from. *)
Lemma bread_returns_current_witness :
  let s := boot_bcache (replicate 4 zero_block) None in
  wp (k ← bread 7 ROOTDEV 2; d ← buf_data k; mret (k, d)) s (fun r s' =>
    bio_content s !! Z.to_nat 2 = Some r.2 /\ bio_holds s' = <[r.1 := 2]> (bio_holds s) /\
    bio_content s' = bio_content s /\ disk s' = disk s /\ bio_pinned s' = bio_pinned s /\ bio_ok 7 s').
Proof.
  assert (Hd : Forall block_ok (replicate 4 zero_block)) by (apply Forall_replicate, zero_block_ok).
  destruct (boot_law 7 _ None Hd) as (Hok & Hdk & _ & Hh & Hp).
  apply (bread_returns_current 7 (boot_bcache (replicate 4 zero_block) None) 2).
  - exact Hok.
  - rewrite Hdk. split; [lia|reflexivity].
  - rewrite Hh. vm_compute. intros H. inversion H.
  - right. rewrite Hh, Hp. vm_compute. lia.
Defined.

Lemma find_split {A} (f : A -> bool) l x :
  List.find f l = Some x -> exists l1 l2, l = l1 ++ x :: l2 /\ Forall (fun y => f y = false) l1.
Proof.
  induction l as [|y l IH]; simpl; [done|]. destruct (f y) eqn:Hf.
  - intros [= ->]. by exists [], l.
  - intros (l1 & l2 & -> & H)%IH. exists (y :: l1), l2. split; [done|]. by constructor.
Qed.

(** when the block is not cached, bget recycles the least recently used
    buffer that has no reference and is not dirty: every buffer after it in
    the MRU order is referenced or dirty. *)
Theorem bget_recycles_lru (me dev n : Z) (s s' : bcache) (order : list nat) (k : nat) :
  binv s order ->
  (forall j b, bufs s !! j = Some b -> ~ (b_dev b = dev /\ b_blockno b = n)) ->
  bget me dev n s = Ret k s' ->
  exists l1 l2, order = l1 ++ k :: l2 /\
    Forall (fun j => forall b, bufs s !! j = Some b -> 0 <> b_refcnt b \/ Z.land (b_flags b) B_DIRTY <> 0) l2 /\
    exists b, bufs s !! k = Some b /\ b_refcnt b = 0 /\ Z.land (b_flags b) B_DIRTY = 0.
Proof.
  intros Hi Hno Hr. rewrite (bget_run me dev n s order Hi) in Hr.
  destruct (List.find (hit (same_block dev n) (bufs s)) order) as [j|] eqn:Hf.
  { apply find_hit_Some in Hf as (_ & b & Hb & Hs%same_block_true). by destruct (Hno j b Hb). }
  destruct (List.find (hit recyclable (bufs s)) (reverse order)) as [j|] eqn:Hf2; [|done].
  pose proof Hf2 as (_ & b & Hb & Hrec)%find_hit_Some. rewrite Hb in Hr.
  assert (j = k) as ->.
  { unfold take_lock in Hr. by destruct (acquiresleep me j _); simplify_eq. }
  apply find_split in Hf2 as (l1 & l2 & Heq & Hl1).
  exists (reverse l2), (reverse l1). split_and!.
  - apply (f_equal reverse) in Heq. rewrite reverse_involutive in Heq. rewrite Heq.
    rewrite reverse_app, reverse_cons, <- app_assoc. done.
  - apply Forall_reverse. eapply Forall_impl; [exact Hl1|]. simpl. intros i Hi' c Hc.
    unfold hit, recyclable in Hi'. rewrite Hc in Hi'. lia.
  - exists b. split; [done|]. unfold recyclable in Hrec. lia.
Qed.

Definition booted : bcache := boot_bcache (replicate 4 zero_block) None.
Definition after_read : bcache := match bread 7 ROOTDEV 2 booted with Ret _ s => s | Stop _ s => s end.

Lemma booted_binv : binv booted (reverse (seq 0 HEAD)) /\ Forall zero_buf (bufs booted).
Proof.
  unfold booted, boot_bcache. pose proof (binit_binv _ (zeroed_boot (replicate 4 zero_block) None)) as H.
  apply wp_inv in H as (? & s' & Hr & H & [_ Hz] & _). rewrite Hr. split; [exact H|exact Hz].
Qed.

Lemma bcache_invariant_witness :
  bc_lock after_read = false /\ (exists order, mru (bufs after_read) order) /\
  (forall i j bi bj, bufs after_read !! i = Some bi -> bufs after_read !! j = Some bj -> b_dev bi <> 0 ->
     b_dev bi = b_dev bj -> b_blockno bi = b_blockno bj -> i = j).
Proof.
  apply (bcache_invariant (BCache false (replicate (S HEAD) zbuf) (replicate 4 zero_block) None) booted after_read).
  - apply zeroed_boot.
  - vm_compute. reflexivity.
  - apply rtc_once, (step_bread 7 ROOTDEV 2 booted 0). vm_compute. reflexivity.
Defined.

Lemma bget_recycles_lru_witness :
  exists l1 l2, reverse (seq 0 HEAD) = l1 ++ 0%nat :: l2 /\
    Forall (fun j => forall b, bufs booted !! j = Some b ->
      0 <> b_refcnt b \/ Z.land (b_flags b) B_DIRTY <> 0) l2 /\
    exists b, bufs booted !! 0%nat = Some b /\ b_refcnt b = 0 /\ Z.land (b_flags b) B_DIRTY = 0.
Proof.
  apply (bget_recycles_lru 7 ROOTDEV 2 booted
    (match bget 7 ROOTDEV 2 booted with Ret _ s => s | Stop _ s => s end)).
  - exact (proj1 booted_binv).
  - intros j b Hb [Hd _]. destruct (Forall_lookup_1 _ _ _ _ (proj2 booted_binv) Hb) as (_ & Hd0 & _).
    rewrite Hd0 in Hd. discriminate Hd.
  - vm_compute. reflexivity.
Defined.
