(* ===== verification/Log.v ===== *)
(** The logging system of [log.c], over any block store.

    The log's on-disk header block holds a count and the home block numbers of
    the logged blocks, whose contents are in the following blocks. [commit]
    copies the modified blocks to the log, writes the header, installs the
    blocks at home and erases the header; [initlog] replays a committed log.
    The disk writes of the store are the points at which power may fail. *)

From S2P Require Import Prelude Block.

Open Scope Z_scope.

(** struct superblock, and reading it from block 1. *)
Record superblock := SuperBlock {
  sb_size : Z;
  sb_nblocks : Z;
  sb_ninodes : Z;
  sb_nlog : Z;
  sb_logstart : Z;
  sb_inodestart : Z;
  sb_bmapstart : Z
}.

Definition decode_sb (d : block) : superblock :=
  SuperBlock (get32 d 0) (get32 d 4) (get32 d 8) (get32 d 12) (get32 d 16) (get32 d 20) (get32 d 24).

(** struct log, with struct logheader inside. *)
Record log := Log {
  l_lock : bool;
  l_start : Z;
  l_size : Z;
  l_outstanding : Z;
  l_committing : Z;
  l_dev : Z;
  lh_n : Z;
  lh_block : list Z;     (* LOGSIZE entries *)
  l_wakeups : Z          (* calls of wakeup(&log) so far *)
}.

Definition set_l_lock b l :=
  Log b (l_start l) (l_size l) (l_outstanding l) (l_committing l) (l_dev l) (lh_n l) (lh_block l) (l_wakeups l).
Definition set_l_area st sz dv l :=
  Log (l_lock l) st sz (l_outstanding l) (l_committing l) dv (lh_n l) (lh_block l) (l_wakeups l).
Definition set_outstanding v l :=
  Log (l_lock l) (l_start l) (l_size l) v (l_committing l) (l_dev l) (lh_n l) (lh_block l) (l_wakeups l).
Definition set_committing v l :=
  Log (l_lock l) (l_start l) (l_size l) (l_outstanding l) v (l_dev l) (lh_n l) (lh_block l) (l_wakeups l).
Definition set_lh n bs l :=
  Log (l_lock l) (l_start l) (l_size l) (l_outstanding l) (l_committing l) (l_dev l) n bs (l_wakeups l).
Definition set_l_wakeups w l :=
  Log (l_lock l) (l_start l) (l_size l) (l_outstanding l) (l_committing l) (l_dev l) (lh_n l) (lh_block l) w.

Record lstate (S : Type) := LState { store : S; lg : log }.
Arguments LState {S} store lg.
Arguments store {S} _.
Arguments lg {S} _.

Section log.
Context {S : Type} `{BS : BlockStore S}.

Notation ML A := (M (lstate S) A).

(** An operation of the block store. *)
Definition st {A} (m : M S A) : ML A := zoom (Lens store (fun t s => LState t (lg s))) m.

Definition modlog (f : log -> log) : ML unit := modify (fun s => LState (store s) (f (lg s))).

Definition acquire_log : ML unit :=
  l ← gets lg; if l_lock l then panic "acquire" else modlog (set_l_lock true).
Definition release_log : ML unit :=
  l ← gets lg; if l_lock l then modlog (set_l_lock false) else panic "release".
Definition wakeup_log : ML unit := modlog (fun l => set_l_wakeups (l_wakeups l + 1) l).

(** fs.c: read the super block. *)
Definition readsb (dev : Z) : M S superblock :=
  bp ← bread (u32 dev) 1;
  d ← bdata bp;
  brelse bp ;;
  mret (decode_sb d).

(** Body of the loop of install_trans: the log block is copied to the buffer
    of its home block, which is written. *)
Definition install_block (dev lblock dst : Z) : M S unit :=
  lbuf ← bread (u32 dev) (u32 lblock);
  dbuf ← bread (u32 dev) (u32 dst);
  d ← bdata lbuf;
  bset dbuf d ;;
  bwrite dbuf ;;
  brelse lbuf ;;
  brelse dbuf.

(** [log.lh.block[i]] *)
Definition lh_at (l : log) (i : nat) : ML Z :=
  match lh_block l !! i with Some b => mret b | None => panic "wild pointer" end.

(** The loops run to [log.lh.n], which their bodies do not change. *)
Definition install_trans : ML unit :=
  l ← gets lg;
  for_each (seq 0 (Z.to_nat (lh_n l))) (fun tail =>
    b ← lh_at l tail;
    st (install_block (l_dev l) (l_start l + Z.of_nat tail + 1) b)).

Definition read_head : ML unit :=
  l ← gets lg;
  buf ← st (bread (u32 (l_dev l)) (u32 (l_start l)));
  d ← st (bdata buf);
  let n := i32 (get32 d 0) in
  modlog (set_lh n (lh_block l)) ;;
  for_each (seq 0 (Z.to_nat n)) (fun i =>
    l ← gets lg;
    if decide (i < length (lh_block l))%nat then
      modlog (set_lh n (<[i := i32 (get32 d (4 + 4 * i))]> (lh_block l)))
    else panic "wild pointer") ;;
  st (brelse buf).

(** [for(i = 0; i < log.lh.n; i++) hb->block[i] = log.lh.block[i];] *)
Fixpoint put_entries (d : block) (i : nat) (bs : list Z) : block :=
  match bs with
  | [] => d
  | b :: bs => put_entries (put32 d (4 + 4 * i) b) (Datatypes.S i) bs
  end.

Definition encode_head (d : block) (n : Z) (bs : list Z) : block :=
  put_entries (put32 d 0 n) 0 (take (Z.to_nat n) bs).

Definition write_head : ML unit :=
  l ← gets lg;
  buf ← st (bread (u32 (l_dev l)) (u32 (l_start l)));
  d ← st (bdata buf);
  (if Z.of_nat (length (lh_block l)) <? lh_n l then panic "wild pointer"
   else st (bset buf (encode_head d (lh_n l) (lh_block l)))) ;;
  st (bwrite buf) ;;
  st (brelse buf).

Definition recover_from_log : ML unit :=
  read_head ;;
  install_trans ;;
  modlog (fun l => set_lh 0 (lh_block l) l) ;;
  write_head.

(** The constant test is [sizeof(struct logheader) >= BSIZE]. *)
Definition initlog (dev : Z) : ML unit :=
  if BSIZE <=? 4 + 4 * LOGSIZE then panic "initlog: too big logheader"
  else
    modlog (set_l_lock false) ;;
    sb ← st (readsb dev);
    modlog (set_l_area (i32 (sb_logstart sb)) (i32 (sb_nlog sb)) dev) ;;
    recover_from_log.

(** One turn of the loop of begin_op: a process that must wait sleeps on the
    log, and takes another turn when it is woken. *)
Definition begin_op : ML unit :=
  acquire_log ;;
  l ← gets lg;
  if negb (l_committing l =? 0) then
    release_log ;; sleeps ch_log
  else if LOGSIZE <? lh_n l + (l_outstanding l + 1) * MAXOPBLOCKS then
    release_log ;; sleeps ch_log
  else
    modlog (fun l => set_outstanding (l_outstanding l + 1) l) ;;
    release_log.

(** Body of the loop of write_log. *)
Definition log_block (dev lblock src : Z) : M S unit :=
  to ← bread (u32 dev) (u32 lblock);
  from ← bread (u32 dev) (u32 src);
  d ← bdata from;
  bset to d ;;
  bwrite to ;;
  brelse from ;;
  brelse to.

Definition write_log : ML unit :=
  l ← gets lg;
  for_each (seq 0 (Z.to_nat (lh_n l))) (fun tail =>
    b ← lh_at l tail;
    st (log_block (l_dev l) (l_start l + Z.of_nat tail + 1) b)).

Definition commit : ML unit :=
  l ← gets lg;
  when (0 <? lh_n l)
    (write_log ;;
     write_head ;;
     install_trans ;;
     modlog (fun l => set_lh 0 (lh_block l) l) ;;
     write_head).

Definition end_op : ML unit :=
  acquire_log ;;
  modlog (fun l => set_outstanding (l_outstanding l - 1) l) ;;
  l ← gets lg;
  if negb (l_committing l =? 0) then panic "log.committing"
  else
    do_commit ← (if l_outstanding l =? 0 then modlog (set_committing 1) ;; mret true
                 else wakeup_log ;; mret false);
    release_log ;;
    when do_commit
      (commit ;;
       acquire_log ;;
       modlog (set_committing 0) ;;
       wakeup_log ;;
       release_log).

(** Where the block is recorded: its old entry (absorption), or the end. *)
Definition log_slot (l : log) (b : Z) : nat :=
  match find_index (fun x => u32 x =? b) (take (Z.to_nat (lh_n l)) (lh_block l)) with
  | Some i => i
  | None => Z.to_nat (lh_n l)
  end.

Definition log_write (k : nat) : ML unit :=
  l ← gets lg;
  if (LOGSIZE <=? lh_n l) || (l_size l - 1 <=? lh_n l) then panic "too big a transaction"
  else if l_outstanding l <? 1 then panic "log_write outside of trans"
  else
    acquire_log ;;
    b ← st (bno k);
    l ← gets lg;
    let i := log_slot l b in
    (if decide (i < length (lh_block l))%nat then
       modlog (set_lh (if decide (Z.of_nat i = lh_n l) then lh_n l + 1 else lh_n l)
                 (<[i := i32 b]> (lh_block l)))
     else wild) ;;
    st (bpin k) ;;
    release_log.

End log.

(** ** Blocks moved between the log and their homes *)

Section bodies.
Context {S : Type} `{BS : BlockStore S} `{BSL : !BlockStoreLaws S}.

Lemma wpe_st {A} (m : M S A) s (Q : A -> lstate S -> Prop) E :
  wpe m (store s) (fun a t => Q a (LState t (lg s))) (fun w t => E w (LState t (lg s))) ->
  wpe (st m) s Q E.
Proof. unfold wpe, st, zoom. cbn [view update]. by destruct (m (store s)). Qed.

(** The views of a store, together. *)
Definition views (t : S) (h c : list block) (hs : gmap nat Z) (p : gset Z) : Prop :=
  bs_ok t /\ home t = h /\ content t = c /\ holds t = hs /\ pinned t = p.

(** An outcome of an operation that may only stop by losing power, before
    the disk has changed from [h]. *)
Definition crashes (h : list block) (w : stop) (t : S) : Prop := w = Crashed /\ home t = h.

Lemma elem_of_holders (hs : gmap nat Z) n :
  n ∈ (map_to_set (fun _ b => b) hs : gset Z) <-> exists k, hs !! k = Some n.
Proof. rewrite elem_of_map_to_set. naive_solver. Qed.

Lemma holders_empty : map_to_set (fun _ b => b) (∅ : gmap nat Z) = (∅ : gset Z).
Proof. apply set_eq. intros n. rewrite elem_of_holders. split; [|set_solver]. by intros [k Hk]. Qed.

Lemma wpe_bread t h c hs p n (Q : nat -> S -> Prop) E :
  views t h c hs p -> 0 <= n < Z.of_nat (length h) ->
  (forall k, hs !! k <> Some n) ->
  n ∈ p \/ (size (p ∪ map_to_set (fun _ b => b) hs) < capacity)%nat ->
  (forall k t', hs !! k = None -> views t' h c (<[k := n]> hs) p -> Q k t') ->
  wpe (bread ROOTDEV n) t Q E.
Proof.
  intros (Hok & <- & <- & <- & <-) Hn Hh Hroom HQ.
  eapply wpe_mono; [| |apply (bread_spec t n Hok Hn); [|done]]; simpl.
  - intros k t' (? & ? & ? & ? & ? & ?). apply HQ; [done|]. by split_and!.
  - done.
  - unfold held_blocks. rewrite elem_of_holders. intros [k Hk]. by apply (Hh k).
Qed.

Lemma wpe_bdata t h c hs p k n d (Q : block -> S -> Prop) E :
  views t h c hs p -> hs !! k = Some n -> c !! Z.to_nat n = Some d -> Q d t ->
  wpe (bdata k) t Q E.
Proof.
  intros (Hok & <- & <- & <- & <-) Hk Hd HQ.
  destruct (bdata_spec t k n Hok Hk) as (d' & Hd' & Hr). unfold wpe. rewrite Hr. by simplify_eq.
Qed.

Lemma wpe_bset t h c hs p k n d (Q : unit -> S -> Prop) E :
  views t h c hs p -> hs !! k = Some n -> block_ok d ->
  (forall t', views t' h (<[Z.to_nat n := d]> c) hs p -> Q tt t') ->
  wpe (bset k d) t Q E.
Proof.
  intros (Hok & <- & <- & <- & <-) Hk Hd HQ.
  eapply wpe_mono; [| |apply (bset_spec t k n d Hok Hk Hd)]; simpl; [|done].
  intros [] t' (? & ? & ? & ? & ?). apply HQ. by split_and!.
Qed.

Lemma wpe_bpin t h c hs p k n (Q : unit -> S -> Prop) E :
  views t h c hs p -> hs !! k = Some n ->
  (forall t', views t' h c hs ({[ n ]} ∪ p) -> Q tt t') -> wpe (bpin k) t Q E.
Proof.
  intros (Hok & <- & <- & <- & <-) Hk HQ.
  eapply wpe_mono; [| |apply (bpin_spec t k n Hok Hk)]; simpl; [|done].
  intros [] t' (? & ? & ? & ? & ?). apply HQ. by split_and!.
Qed.

Lemma wpe_bwrite t h c hs p k n d (Q : unit -> S -> Prop) (E : stop -> S -> Prop) :
  views t h c hs p -> hs !! k = Some n -> c !! Z.to_nat n = Some d ->
  (forall t', views t' (<[Z.to_nat n := d]> h) c hs (p ∖ {[ n ]}) -> Q tt t') ->
  (forall t', home t' = h -> Forall block_ok (home t') -> E Crashed t') ->
  wpe (bwrite k) t Q E.
Proof.
  intros (Hok & <- & <- & <- & <-) Hk Hd HQ HE. destruct (bs_blocks t Hok) as [_ Hbl].
  eapply wpe_mono; [| |apply (bwrite_spec t k n d Hok Hk Hd)]; simpl.
  - intros [] t' (? & ? & ? & ? & ?). apply HQ. by split_and!.
  - intros w t' [-> Ht']. apply HE; [done|]. by rewrite Ht'.
Qed.

Lemma wpe_brelse t h c hs p k n (Q : unit -> S -> Prop) E :
  views t h c hs p -> hs !! k = Some n ->
  n ∈ p \/ c !! Z.to_nat n = h !! Z.to_nat n ->
  (forall t', views t' h c (delete k hs) p -> Q tt t') ->
  wpe (brelse k) t Q E.
Proof.
  intros (Hok & <- & <- & <- & <-) Hk Hc HQ.
  eapply wpe_mono; [| |apply (brelse_spec t k n Hok Hk Hc)]; simpl; [|done].
  intros [] t' (? & ? & ? & ? & ?). apply HQ. by split_and!.
Qed.

Lemma views_clean t h c p n :
  views t h c ∅ p -> 0 <= n -> n ∉ p -> c !! Z.to_nat n = h !! Z.to_nat n.
Proof.
  intros (Hok & <- & <- & Hh & <-) Hn Hp. apply bs_clean; try done.
  unfold held_blocks. rewrite Hh, holders_empty. set_solver.
Qed.

Lemma views_block t h c hs p n d : views t h c hs p -> c !! n = Some d -> block_ok d.
Proof.
  intros (Hok & _ & <- & _) Hd. destruct (bs_blocks t Hok) as [H _].
  rewrite Forall_forall in H. by eapply H, list_elem_of_lookup_2.
Qed.

Lemma views_length t h c hs p : views t h c hs p -> length c = length h.
Proof. intros (Hok & <- & <- & _). by apply bs_length. Qed.


Lemma log_block_spec t h c p lblock src d E :
  views t h c ∅ p ->
  0 <= lblock < Z.of_nat (length h) -> 0 <= src < Z.of_nat (length h) -> Z.of_nat (length h) <= 2 ^ 31 ->
  src ∈ p -> lblock ∉ p -> (size p < capacity)%nat ->
  c !! Z.to_nat src = Some d ->
  (forall t', home t' = h -> Forall block_ok (home t') -> E Crashed t') ->
  wpe (log_block ROOTDEV lblock src) t
    (fun _ t' => views t' (<[Z.to_nat lblock := d]> h) (<[Z.to_nat lblock := d]> c) ∅ p) E.
Proof.
  intros Hv Hl Hs Hlen Hsp Hlp Hroom Hd HE. unfold log_block.
  assert (lblock <> src) as Hne by set_solver.
  rewrite !u32_small by (unfold in_u32, ROOTDEV; lia). pose proof (views_length _ _ _ _ _ Hv) as Hlc.
  apply wpe_bind, (wpe_bread t h c ∅ p); [done..| |].
  { right. by rewrite holders_empty, union_empty_r_L. }
  intros to t1 _ Hv1. apply wpe_bind, (wpe_bread _ _ _ _ _ _ _ _ Hv1); [done| |by left|].
  { intros k [(<- & ?)|(_ & [=])]%lookup_insert_Some. done. }
  intros from t2 Hft Hv2. assert (from <> to) by (intros ->; by rewrite lookup_insert_eq in Hft).
  apply wpe_bind, (wpe_bdata _ _ _ _ _ _ src d _ _ Hv2); [by rewrite lookup_insert_eq|done|].
  apply wpe_bind, (wpe_bset _ _ _ _ _ _ lblock _ _ _ Hv2);
    [by rewrite lookup_insert_ne, lookup_insert_eq|by eapply views_block|].
  intros t3 Hv3. apply wpe_bind, (wpe_bwrite _ _ _ _ _ _ lblock d _ _ Hv3);
    [by rewrite lookup_insert_ne, lookup_insert_eq|apply list_lookup_insert_eq; lia| |done].
  intros t4 Hv4. rewrite difference_disjoint_L in Hv4 by set_solver.
  apply wpe_bind, (wpe_brelse _ _ _ _ _ _ src _ _ Hv4); [by rewrite lookup_insert_eq|by left|].
  intros t5 Hv5. apply (wpe_brelse _ _ _ _ _ _ lblock _ _ Hv5).
  - by rewrite lookup_delete_ne, lookup_insert_ne, lookup_insert_eq.
  - right. rewrite !list_lookup_insert_eq; [done|lia..].
  - intros t6 Hv6. rewrite delete_insert_id, delete_insert_id in Hv6 by done. done.
Qed.

Lemma install_block_spec t h c p lblock dst d E :
  views t h c ∅ p ->
  0 <= lblock < Z.of_nat (length h) -> 0 <= dst < Z.of_nat (length h) -> Z.of_nat (length h) <= 2 ^ 31 ->
  lblock <> dst -> lblock ∉ p -> (size p < capacity)%nat -> (dst ∈ p \/ p = ∅ /\ (1 < capacity)%nat) ->
  c !! Z.to_nat lblock = Some d ->
  (forall t', home t' = h -> Forall block_ok (home t') -> E Crashed t') ->
  wpe (install_block ROOTDEV lblock dst) t
    (fun _ t' => views t' (<[Z.to_nat dst := d]> h) (<[Z.to_nat dst := d]> c) ∅ (p ∖ {[ dst ]})) E.
Proof.
  intros Hv Hl Hs Hlen Hne Hlp Hroom Hroom2 Hd HE. unfold install_block.
  rewrite !u32_small by (unfold in_u32, ROOTDEV; lia). pose proof (views_length _ _ _ _ _ Hv) as Hlc.
  pose proof (views_clean _ _ _ _ lblock Hv ltac:(lia) Hlp) as Hclean.
  apply wpe_bind, (wpe_bread t h c ∅ p); [done..| |].
  { right. by rewrite holders_empty, union_empty_r_L. }
  intros lb t1 _ Hv1. apply wpe_bind, (wpe_bread _ _ _ _ _ _ _ _ Hv1); [done| | |].
  { intros k [(<- & ?)|(_ & [=])]%lookup_insert_Some. done. }
  { destruct Hroom2 as [|[-> Hc]]; [by left|right]. rewrite union_empty_l_L.
    assert (Hset : map_to_set (fun _ b => b) (<[lb := lblock]> (∅ : gmap nat Z)) = ({[ lblock ]} : gset Z)).
    { apply set_eq. intros n. rewrite elem_of_holders, elem_of_singleton. split.
      - by intros [k [(_ & <-)|(_ & [=])]%lookup_insert_Some].
      - intros ->. exists lb. by rewrite lookup_insert_eq. }
    rewrite Hset, size_singleton. done. }
  intros db t2 Hft Hv2. assert (db <> lb) by (intros ->; by rewrite lookup_insert_eq in Hft).
  apply wpe_bind, (wpe_bdata _ _ _ _ _ _ lblock d _ _ Hv2);
    [by rewrite lookup_insert_ne, lookup_insert_eq|done|].
  apply wpe_bind, (wpe_bset _ _ _ _ _ _ dst _ _ _ Hv2); [by rewrite lookup_insert_eq|by eapply views_block|].
  intros t3 Hv3. apply wpe_bind, (wpe_bwrite _ _ _ _ _ _ dst d _ _ Hv3);
    [by rewrite lookup_insert_eq|apply list_lookup_insert_eq; lia| |done].
  intros t4 Hv4. apply wpe_bind, (wpe_brelse _ _ _ _ _ _ lblock _ _ Hv4).
  - by rewrite lookup_insert_ne, lookup_insert_eq.
  - right. by rewrite !list_lookup_insert_ne by lia.
  - intros t5 Hv5. apply (wpe_brelse _ _ _ _ _ _ dst _ _ Hv5).
    + by rewrite lookup_delete_ne, lookup_insert_eq.
    + right. rewrite !list_lookup_insert_eq; [done|lia..].
    + intros t6 Hv6. rewrite delete_delete, delete_insert_id, delete_insert_id in Hv6 by done. done.
Qed.

(** Reading a block, and rewriting one, with no buffer held around. *)
Lemma read_block_spec {A} t h c p n d (f : block -> A) E :
  views t h c ∅ p -> 0 <= n < Z.of_nat (length h) -> n ∉ p -> (size p < capacity)%nat ->
  c !! Z.to_nat n = Some d ->
  wpe (bp ← bread ROOTDEV n; d ← bdata bp; brelse bp ;; mret (f d)) t
    (fun a t' => a = f d /\ views t' h c ∅ p) E.
Proof.
  intros Hv Hn Hp Hroom Hd. pose proof (views_clean _ _ _ _ n Hv ltac:(lia) Hp) as Hclean.
  apply wpe_bind, (wpe_bread t h c ∅ p); [done..| |].
  { right. by rewrite holders_empty, union_empty_r_L. }
  intros bp t1 _ Hv1. apply wpe_bind, (wpe_bdata _ _ _ _ _ _ n d _ _ Hv1); [by rewrite lookup_insert_eq|done|].
  apply wpe_bind, (wpe_brelse _ _ _ _ _ _ n _ _ Hv1); [by rewrite lookup_insert_eq|by right|].
  intros t2 Hv2. rewrite delete_insert_id in Hv2 by done. by apply wpe_ret.
Qed.

End bodies.

(** ** The log on disk *)

Definition head_n (d : block) : Z := i32 (get32 d 0).
Definition head_block (d : block) (i : nat) : Z := i32 (get32 d (4 + 4 * i)).
Definition head_blocks (d : block) : list Z := head_block d <$> seq 0 (Z.to_nat (head_n d)).

Lemma put_entries_ok d i bs :
  block_ok d -> (4 + 4 * (i + length bs) <= Z.to_nat BSIZE)%nat -> block_ok (put_entries d i bs).
Proof.
  revert d i; induction bs as [|b bs IH]; intros d i Hd Hl; simpl in *; [done|].
  apply IH; [|lia]. apply put32_ok; [done|lia].
Qed.

Lemma put_entries_before d i bs off :
  block_ok d -> (4 + 4 * (i + length bs) <= Z.to_nat BSIZE)%nat -> (off + 4 <= 4 + 4 * i)%nat ->
  get32 (put_entries d i bs) off = get32 d off.
Proof.
  revert d i; induction bs as [|b bs IH]; intros d i Hd Hl Ho; simpl in *; [done|].
  rewrite IH; [|apply put32_ok; [done|lia]|lia|lia].
  apply get32_put32_ne; destruct Hd; lia.
Qed.

Lemma put_entries_at d i bs j b :
  block_ok d -> (4 + 4 * (i + length bs) <= Z.to_nat BSIZE)%nat -> bs !! j = Some b ->
  get32 (put_entries d i bs) (4 + 4 * (i + j)) = u32 b.
Proof.
  revert d i j; induction bs as [|x bs IH]; intros d i [|j] Hd Hl Hj; cbn [put_entries length lookup list_lookup] in *; try done.
  - injection Hj as ->. rewrite put_entries_before; [|apply put32_ok; [done|lia]|lia|lia].
    rewrite Nat.add_0_r. apply get32_put32_eq. destruct Hd; lia.
  - replace (i + S j)%nat with (S i + j)%nat by lia. apply IH; [apply put32_ok; [done|lia]|lia|done].
Qed.

Lemma encode_head_spec d n bs :
  block_ok d -> 0 <= n <= LOGSIZE -> (Z.to_nat n <= length bs)%nat ->
  Forall in_i32 (take (Z.to_nat n) bs) ->
  block_ok (encode_head d n bs) /\ head_n (encode_head d n bs) = n /\
  head_blocks (encode_head d n bs) = take (Z.to_nat n) bs.
Proof.
  unfold encode_head, LOGSIZE, MAXOPBLOCKS. intros Hd Hn Hl Hb.
  assert (Hd0 : block_ok (put32 d 0 n)) by (apply put32_ok; [done|unfold BSIZE; lia]).
  assert (Hlen : (4 + 4 * (0 + length (take (Z.to_nat n) bs)) <= Z.to_nat BSIZE)%nat)
    by (rewrite length_take; unfold BSIZE; lia).
  assert (Hn' : head_n (put_entries (put32 d 0 n) 0 (take (Z.to_nat n) bs)) = n).
  { unfold head_n. rewrite put_entries_before by (try done; lia).
    rewrite get32_put32_eq by (destruct Hd; unfold BSIZE in *; lia).
    rewrite u32_small, i32_small; unfold in_u32, in_i32; lia. }
  split; [by apply put_entries_ok|]. split; [done|].
  unfold head_blocks. rewrite Hn'. apply list_eq. intros j.
  rewrite list_lookup_fmap. destruct (decide (j < Z.to_nat n)%nat) as [Hj|Hj].
  - rewrite lookup_seq_lt, lookup_take_lt by done. simpl.
    destruct (lookup_lt_is_Some_2 bs j) as [b Hbj]; [lia|]. rewrite Hbj. f_equal. unfold head_block.
    pose proof (put_entries_at _ 0 _ j b Hd0 Hlen) as Hat. rewrite lookup_take_lt in Hat by done.
    change (0 + j)%nat with j in Hat. rewrite Hat by done.
    rewrite Forall_forall in Hb. specialize (Hb b).
    rewrite list_elem_of_lookup in Hb. specialize (Hb ltac:(exists j; by rewrite lookup_take_lt)).
    unfold in_i32, u32, i32 in *. rewrite Zplus_mod_idemp_l, Z.mod_small; lia.
  - rewrite lookup_take_ge by lia. by rewrite lookup_seq_ge by lia.
Qed.

(** Storing blocks at given places. *)
Definition install (d : list block) (ws : list (Z * block)) : list block :=
  foldl (fun d w => <[Z.to_nat w.1 := w.2]> d) d ws.

Lemma length_install d ws : length (install d ws) = length d.
Proof.
  revert d; induction ws as [|w ws IH]; intros d; simpl; [done|]. unfold install in *. simpl.
  by rewrite IH, length_insert.
Qed.

Lemma install_snoc d ws n x : install d (ws ++ [(n, x)]) = <[Z.to_nat n := x]> (install d ws).
Proof. unfold install. by rewrite foldl_app. Qed.

Lemma install_notin d ws i :
  Forall (fun w => 0 <= w.1) ws -> Z.of_nat i ∉ ws.*1 -> install d ws !! i = d !! i.
Proof.
  revert d; induction ws as [|w ws IH]; intros d Hp Hi; simpl in *; [done|].
  apply Forall_cons in Hp as [Hw Hp]. unfold install in *. simpl. rewrite IH by (try done; set_solver).
  apply list_lookup_insert_ne. intros E. apply Hi. rewrite <- E, Z2Nat.id by done. set_solver.
Qed.

Lemma install_in d ws i x :
  Forall (fun w => 0 <= w.1) ws -> NoDup ws.*1 -> (Z.of_nat i, x) ∈ ws -> (i < length d)%nat ->
  install d ws !! i = Some x.
Proof.
  revert d; induction ws as [|w ws IH]; intros d Hp Hnd Hi Hl; [set_solver|].
  apply Forall_cons in Hp as [Hw Hp]. apply NoDup_cons in Hnd as [Hn Hnd].
  apply elem_of_cons in Hi as [<-|Hi].
  - change (install d ((Z.of_nat i, x) :: ws)) with (install (<[Z.to_nat (Z.of_nat i) := x]> d) ws).
    rewrite install_notin by done. rewrite Nat2Z.id. by apply list_lookup_insert_eq.
  - apply (IH (<[Z.to_nat w.1 := w.2]> d)); try done. by rewrite length_insert.
Qed.

(** What a disk means after a crash: the committed log, if there is one,
    applied to the home blocks. [start] is the header block. *)
Definition log_slots (start : nat) (d : list block) (n : nat) : list block := take n (drop (S start) d).

Definition replay (start : nat) (d : list block) : list block :=
  match d !! start with
  | Some h => install d (zip (head_blocks h) (log_slots start d (Z.to_nat (head_n h))))
  | None => d
  end.

(** Two disks that agree outside the log area. *)
Definition same_homes (start size : nat) (d d' : list block) : Prop :=
  forall i, ~ (start <= i < start + size)%nat -> d !! i = d' !! i.

(** ** Loops that store blocks *)

Lemma seq_split_at n d (x : nat) rest : seq 0 n = d ++ x :: rest -> x = length d /\ (x < n)%nat.
Proof.
  intros H. assert (Hx : seq 0 n !! length d = Some x) by (rewrite H; by apply list_lookup_middle).
  apply lookup_seq in Hx. simpl in Hx. lia.
Qed.

Section transactions.
Context {S : Type} `{BS : BlockStore S} `{BSL : !BlockStoreLaws S}.

(** Power failed after some of the stores [ws]. *)
Definition crashed_in (h : list block) (ws : list (Z * block)) (w : stop) (s : lstate S) : Prop :=
  w = Crashed /\ Forall block_ok (home (store s)) /\ exists j, home (store s) = install h (take j ws).

Lemma for_each_install (s : lstate S) h c (pf : nat -> gset Z) ws (body : nat -> M (lstate S) unit) :
  (forall i w s', ws !! i = Some w -> lg s' = lg s ->
     views (store s') (install h (take i ws)) (install c (take i ws)) ∅ (pf i) ->
     wpe (body i) s' (fun _ s'' => lg s'' = lg s /\
         views (store s'') (<[Z.to_nat w.1 := w.2]> (install h (take i ws)))
           (<[Z.to_nat w.1 := w.2]> (install c (take i ws))) ∅ (pf (Datatypes.S i)))
       (fun w' s'' => w' = Crashed /\ home (store s'') = install h (take i ws) /\
          Forall block_ok (home (store s'')))) ->
  views (store s) h c ∅ (pf 0%nat) ->
  wpe (for_each (seq 0 (length ws)) body) s
    (fun _ s' => lg s' = lg s /\ views (store s') (install h ws) (install c ws) ∅ (pf (length ws)))
    (crashed_in h ws).
Proof.
  intros Hbody Hv.
  eapply wpe_mono; [| |apply (wpe_for_each (fun d s' => lg s' = lg s /\
    views (store s') (install h (take (length d) ws)) (install c (take (length d) ws)) ∅ (pf (length d))))].
  - simpl. rewrite length_seq. intros [] s' [Hl Hv']. rewrite take_ge in Hv' by lia. done.
  - intros w s'. apply (fun H => H).
  - by rewrite !take_0.
  - intros d x rest s' [-> Hx]%seq_split_at [Hl Hv'].
    destruct (lookup_lt_is_Some_2 ws (length d) Hx) as [[b v] Hw].
    eapply wpe_mono; [| |apply (Hbody (length d) (b, v) s' Hw Hl Hv')].
    + simpl. intros [] s'' [Hl' Hv'']. split; [done|]. rewrite length_app, Nat.add_1_r.
      by rewrite (take_S_r _ _ _ Hw), !install_snoc.
    + intros w s'' (-> & Hh & Hb). split_and!; eauto.
Qed.

(** The log area: [size] blocks from [start] on a disk of [len] blocks. *)
Record geom (l : log) (start size len : nat) : Prop := {
  g_start : l_start l = Z.of_nat start;
  g_size : l_size l = Z.of_nat size;
  g_dev : l_dev l = ROOTDEV;
  g_fit : (start + size <= len)%nat;
  g_len : Z.of_nat len < 2 ^ 31
}.

(** A block that may be logged: not the superblock, and not in the area. *)
Definition loggable (start size len : nat) (b : Z) : Prop :=
  1 < b < Z.of_nat len /\ ~ (Z.of_nat start <= b < Z.of_nat (start + size)).

(** The header in memory lists the blocks [bs]. *)
Record lists (l : log) (bs : list Z) (start size len : nat) : Prop := {
  li_n : lh_n l = Z.of_nat (length bs);
  li_bs : take (length bs) (lh_block l) = bs;
  li_length : length (lh_block l) = Z.to_nat LOGSIZE;
  li_nodup : NoDup bs;
  li_ok : Forall (loggable start size len) bs;
  li_room : (length bs < size)%nat
}.

Definition slot (start i : nat) : Z := Z.of_nat (start + 1 + i).

Definition slots (start : nat) (xs : list block) : list (Z * block) :=
  imap (fun i x => (slot start i, x)) xs.

Lemma lh_at_run (l : log) bs start size len i b (Q : Z -> lstate S -> Prop) E s :
  lists l bs start size len -> bs !! i = Some b -> Q b s -> wpe (lh_at l i) s Q E.
Proof.
  intros [Hn Hb _ _ _ _] Hi HQ. unfold lh_at. rewrite <- Hb in Hi.
  apply lookup_take_Some in Hi as [-> _]. done.
Qed.

Lemma loggable_at (l : log) bs start size len i b :
  lists l bs start size len -> bs !! i = Some b -> loggable start size len b.
Proof. intros [_ _ _ _ H _] Hb. rewrite Forall_forall in H. by eapply H, list_elem_of_lookup_2. Qed.

Lemma slots_lookup start xs i x : xs !! i = Some x -> slots start xs !! i = Some (slot start i, x).
Proof. intros H. unfold slots. by rewrite list_lookup_imap, H. Qed.

Lemma slots_pos start xs : Forall (fun w => 0 <= w.1) (slots start xs).
Proof.
  apply Forall_forall. intros w [i Hi]%list_elem_of_lookup_1. unfold slots in Hi.
  rewrite list_lookup_imap in Hi. destruct (xs !! i); simplify_eq/=. unfold slot. lia.
Qed.

Lemma slots_fst start xs n : n ∈ (slots start xs).*1 <-> exists i, n = slot start i /\ (i < length xs)%nat.
Proof.
  unfold slots. rewrite fmap_imap, elem_of_lookup_imap. split.
  - intros (i & x & -> & Hi). exists i. split; [done|]. by eapply lookup_lt_Some.
  - intros (i & -> & [x Hx]%lookup_lt_is_Some_2). exists i, x. done.
Qed.

Lemma slots_nodup start xs : NoDup (slots start xs).*1.
Proof.
  apply NoDup_alt. intros i j n. unfold slots. rewrite fmap_imap, !list_lookup_imap.
  destruct (xs !! i), (xs !! j); simpl; try done. unfold slot. intros [= <-] [=]. lia.
Qed.

Lemma write_log_spec (s : lstate S) h c start size bs xs :
  geom (lg s) start size (length h) -> lists (lg s) bs start size (length h) ->
  views (store s) h c ∅ (list_to_set bs) -> (length bs < capacity)%nat ->
  Forall2 (fun b x => c !! Z.to_nat b = Some x) bs xs ->
  wpe write_log s
    (fun _ s' => lg s' = lg s /\
       views (store s') (install h (slots start xs)) (install c (slots start xs)) ∅ (list_to_set bs))
    (crashed_in h (slots start xs)).
Proof.
  intros Hg Hp Hv Hcap Hxs. pose proof (Forall2_length _ _ _ Hxs) as Hlx.
  pose proof Hg as [Hst Hsz Hdv Hfit Hlen]. pose proof Hp as [Hn _ _ Hnd _ Hroom].
  unfold write_log. apply wpe_bind, wpe_gets.
  replace (Z.to_nat (lh_n (lg s))) with (length (slots start xs))
    by (unfold slots; rewrite length_imap, Hn; lia).
  apply (for_each_install s h c (fun _ => list_to_set bs)); [|done].
  intros i [n x] s' Hw Hl Hv'. unfold slots in Hw. rewrite list_lookup_imap in Hw.
  destruct (xs !! i) as [x'|] eqn:Hx; [|done]. injection Hw as <- <-.
  destruct (Forall2_lookup_r _ _ _ _ _ Hxs Hx) as (b & Hb & Hc).
  pose proof (lookup_lt_Some _ _ _ Hx) as Hi.
  pose proof (loggable_at _ _ _ _ _ _ _ Hp Hb) as [Hbr Hbo].
  apply wpe_bind, (lh_at_run _ bs _ _ _ _ b _ _ _ Hp Hb). apply wpe_st.
  rewrite Hst, Hdv. replace (Z.of_nat start + Z.of_nat i + 1) with (slot start i) by (unfold slot; lia).
  eapply wpe_mono; [| |eapply (log_block_spec _ _ _ _ (slot start i) b x'); [exact Hv'|..]]; simpl.
  - intros [] t Ht. done.
  - intros w t. apply (fun H => H).
  - rewrite length_install. unfold slot. lia.
  - rewrite length_install. lia.
  - rewrite length_install. lia.
  - apply elem_of_list_to_set, list_elem_of_lookup. eauto.
  - rewrite elem_of_list_to_set. intros [j Hj]%list_elem_of_lookup.
    pose proof (loggable_at _ _ _ _ _ _ _ Hp Hj) as [_ Ho]. unfold slot in Ho. lia.
  - rewrite size_list_to_set by done. done.
  - rewrite install_notin; [done|apply Forall_take, slots_pos|].
    intros Hin. rewrite fmap_take in Hin. apply elem_of_take in Hin as (j & Hj & _).
    apply list_elem_of_lookup_2, slots_fst in Hj as (j' & Hj' & Hjx). unfold slot in Hj'. lia.
  - intros t Ht. done.
Qed.

(** The pinned blocks while the blocks [bs] are installed: those still to
    install during commit, none during recovery. *)
Definition pins_during (start : nat) (bs : list Z) (pf : nat -> gset Z) : Prop :=
  forall i b, bs !! i = Some b ->
    (b ∈ pf i \/ pf i = ∅ /\ (1 < capacity)%nat) /\ (size (pf i) < capacity)%nat /\
    slot start i ∉ pf i /\ pf (Datatypes.S i) = pf i ∖ {[ b ]}.

Lemma zip_pos (bs : list Z) (xs : list block) :
  Forall (fun b => 0 <= b) bs -> Forall (fun w : Z * block => 0 <= w.1) (zip bs xs).
Proof.
  intros H. apply Forall_forall. intros [b x] Hin%elem_of_zip_l. rewrite Forall_forall in H. by apply H.
Qed.

Lemma lists_pos (l : log) bs start size len :
  lists l bs start size len -> Forall (fun b => 0 <= b) bs.
Proof. intros H. eapply Forall_impl; [apply (li_ok _ _ _ _ _ H)|]. intros b [? _]. lia. Qed.

(** Installing does not touch the log area. *)
Lemma install_zip_log (l : log) bs (xs : list block) start size len d i j :
  lists l bs start size len -> (start <= i < start + size)%nat ->
  install d (take j (zip bs xs)) !! i = d !! i.
Proof.
  intros Hp Hi. apply install_notin; [apply Forall_take, zip_pos; by eapply lists_pos|].
  intros Hin. apply list_elem_of_fmap in Hin as ([b x] & Hb & Hin). simpl in Hb. subst b.
  apply elem_of_take in Hin as (k & Hk & _). apply list_elem_of_lookup_2, elem_of_zip_l in Hk.
  pose proof (li_ok _ _ _ _ _ Hp) as Ho. rewrite Forall_forall in Ho. destruct (Ho _ Hk) as [_ ?]. lia.
Qed.

Lemma install_trans_spec (s : lstate S) h c start size bs xs pf :
  geom (lg s) start size (length h) -> lists (lg s) bs start size (length h) ->
  views (store s) h c ∅ (pf 0%nat) -> pins_during start bs pf -> length xs = length bs ->
  (forall i x, xs !! i = Some x -> c !! Z.to_nat (slot start i) = Some x) ->
  wpe install_trans s
    (fun _ s' => lg s' = lg s /\
       views (store s') (install h (zip bs xs)) (install c (zip bs xs)) ∅ (pf (length bs)))
    (crashed_in h (zip bs xs)).
Proof.
  intros Hg Hp Hv Hpf Hlx Hlog.
  pose proof Hg as [Hst Hsz Hdv Hfit Hlen]. pose proof Hp as [Hn _ _ Hnd _ Hroom].
  assert (Hlz : length (zip bs xs) = length bs) by (rewrite length_zip_with; lia).
  unfold install_trans. apply wpe_bind, wpe_gets.
  replace (Z.to_nat (lh_n (lg s))) with (length (zip bs xs)) by lia.
  rewrite <- Hlz. apply (for_each_install s h c pf); [|done].
  intros i [b x] s' Hw Hl Hv'. apply lookup_zip_Some in Hw as [Hb Hx].
  pose proof (lookup_lt_Some _ _ _ Hb) as Hi.
  pose proof (loggable_at _ _ _ _ _ _ _ Hp Hb) as [Hbr Hbo].
  destruct (Hpf i b Hb) as (Hp1 & Hp2 & Hp3 & Hp4).
  apply wpe_bind, (lh_at_run _ bs _ _ _ _ b _ _ _ Hp Hb). apply wpe_st.
  rewrite Hst, Hdv. replace (Z.of_nat start + Z.of_nat i + 1) with (slot start i) by (unfold slot; lia).
  rewrite Hp4.
  eapply wpe_mono; [| |eapply (install_block_spec _ _ _ _ (slot start i) b x); [exact Hv'|..]]; simpl;
    try done; try (rewrite length_install; unfold slot; lia).
  - intros w t. apply (fun H => H).
  - unfold slot. lia.
  - rewrite (install_zip_log (lg s) bs xs start size (length h)); [by apply Hlog|done|unfold slot; lia].
  - by intros t Ht.
Qed.

Lemma write_head_spec (s : lstate S) h c start size p n hd E :
  geom (lg s) start size (length h) -> (0 < size)%nat ->
  lh_n (lg s) = Z.of_nat n -> (n <= length (lh_block (lg s)))%nat -> (n <= Z.to_nat LOGSIZE)%nat ->
  Forall in_i32 (take n (lh_block (lg s))) ->
  views (store s) h c ∅ p -> Z.of_nat start ∉ p -> (stdpp.base.size p < capacity)%nat ->
  c !! start = Some hd ->
  (forall s', home (store s') = h -> Forall block_ok (home (store s')) -> E Crashed s') ->
  wpe write_head s
    (fun _ s' => lg s' = lg s /\ exists hd', block_ok hd' /\
       head_n hd' = Z.of_nat n /\ head_blocks hd' = take n (lh_block (lg s)) /\
       views (store s') (<[start := hd']> h) (<[start := hd']> c) ∅ p) E.
Proof.
  intros [Hst Hsz Hdv Hfit Hlen] Hs0 Hn Hnl Hn30 Hi32 Hv Hsp Hcap Hhd HE.
  pose proof (views_length _ _ _ _ _ Hv) as Hlc.
  unfold write_head. apply wpe_bind, wpe_gets. rewrite Hst, Hdv, !u32_small by (unfold in_u32, ROOTDEV; lia).
  apply wpe_bind, wpe_st, (wpe_bread _ _ _ _ _ _ _ _ Hv); [lia|done| |].
  { right. by rewrite holders_empty, union_empty_r_L. }
  intros k t1 _ Hv1. apply wpe_bind, wpe_st, (wpe_bdata _ _ _ _ _ _ (Z.of_nat start) hd _ _ Hv1);
    [by rewrite lookup_insert_eq|by rewrite Nat2Z.id|].
  destruct (encode_head_spec hd (lh_n (lg s)) (lh_block (lg s))) as (Hok & Hhn & Hhb);
    [by eapply views_block|unfold LOGSIZE, MAXOPBLOCKS in *; lia|lia|by rewrite Hn, Nat2Z.id|]. rewrite Hn, Nat2Z.id in *.
  set (hd' := encode_head hd (Z.of_nat n) (lh_block (lg s))) in *.
  apply wpe_bind. destruct (Z.ltb_spec (Z.of_nat (length (lh_block (lg s)))) (Z.of_nat n)); [lia|].
  apply wpe_st, (wpe_bset _ _ _ _ _ _ (Z.of_nat start) _ _ _ Hv1); [by rewrite lookup_insert_eq|done|].
  rewrite Nat2Z.id. intros t2 Hv2.
  apply wpe_bind, wpe_st, (wpe_bwrite _ _ _ _ _ _ (Z.of_nat start) hd' _ _ Hv2); rewrite ?Nat2Z.id.
  - by rewrite lookup_insert_eq.
  - apply list_lookup_insert_eq. lia.
  - intros t3 Hv3. rewrite difference_disjoint_L in Hv3 by set_solver.
    apply wpe_st, (wpe_brelse _ _ _ _ _ _ (Z.of_nat start) _ _ Hv3); rewrite ?Nat2Z.id.
    + by rewrite lookup_insert_eq.
    + right. rewrite !list_lookup_insert_eq; [done|lia..].
    + intros t4 Hv4. rewrite delete_insert_id in Hv4 by done. split; [done|]. eauto 6.
  - intros t3 Ht3 Hb3. by apply HE.
Qed.

End transactions.

(** ** Replaying *)

Lemma same_homes_refl start size d : same_homes start size d d.
Proof. done. Qed.

Lemma same_homes_trans start size d1 d2 d3 :
  same_homes start size d1 d2 -> same_homes start size d2 d3 -> same_homes start size d1 d3.
Proof. intros H1 H2 i Hi. by rewrite H1, H2. Qed.

Lemma same_homes_sym start size d1 d2 : same_homes start size d1 d2 -> same_homes start size d2 d1.
Proof. intros H i Hi. by rewrite H. Qed.

Lemma same_homes_insert start size d i x :
  (start <= i < start + size)%nat -> same_homes start size (<[i := x]> d) d.
Proof. intros Hi j Hj. apply list_lookup_insert_ne. lia. Qed.

#[export] Instance same_homes_equiv start size : Equivalence (same_homes start size).
Proof. split; red; eauto using same_homes_refl, same_homes_sym, same_homes_trans. Qed.

(** A log area whose header is well formed: at most LOGSIZE distinct blocks,
    outside the area, with a slot each. *)
Record wf_header (start size len : nat) (hd : block) : Prop := {
  wf_n : 0 <= head_n hd <= LOGSIZE;
  wf_size : head_n hd < Z.of_nat size;
  wf_nodup : NoDup (head_blocks hd);
  wf_homes : Forall (loggable start size len) (head_blocks hd)
}.

Definition wf_log (start size : nat) (d : list block) : Prop :=
  exists hd, d !! start = Some hd /\ wf_header start size (length d) hd.

(** The disk [d] recovers to [D]. *)
Definition recovers_to (start size : nat) (d D : list block) : Prop :=
  wf_log start size d /\ same_homes start size (replay start d) D.

Lemma length_head_blocks hd : length (head_blocks hd) = Z.to_nat (head_n hd).
Proof. unfold head_blocks. by rewrite length_fmap, length_seq. Qed.

Lemma head_blocks_nil hd : head_n hd = 0 -> head_blocks hd = [].
Proof. intros H. unfold head_blocks. by rewrite H. Qed.

Lemma replay_empty start d hd : d !! start = Some hd -> head_n hd = 0 -> replay start d = d.
Proof. intros Hd Hn. unfold replay. rewrite Hd, head_blocks_nil by done. done. Qed.

Lemma wf_header_empty start size len hd :
  head_n hd = 0 -> (0 < size)%nat -> wf_header start size len hd.
Proof.
  intros Hn Hs. split; rewrite ?head_blocks_nil by done; [unfold LOGSIZE, MAXOPBLOCKS; lia|lia|..].
  - constructor.
  - constructor.
Qed.

Lemma recovers_to_empty start size d hd :
  d !! start = Some hd -> head_n hd = 0 -> (0 < size)%nat -> recovers_to start size d d.
Proof.
  intros Hd Hn Hs. split; [exists hd; split; [done|by apply wf_header_empty]|].
  by erewrite replay_empty by done.
Qed.

Lemma log_slots_eq start d xs :
  (forall i x, xs !! i = Some x -> d !! (start + 1 + i)%nat = Some x) ->
  log_slots start d (length xs) = xs.
Proof.
  intros H. apply list_eq. intros i. unfold log_slots.
  destruct (decide (i < length xs)%nat) as [Hi|Hi].
  - rewrite lookup_take_lt, lookup_drop by done. destruct (lookup_lt_is_Some_2 xs i Hi) as [x Hx].
    rewrite Hx. replace (S start + i)%nat with (start + 1 + i)%nat by lia. by apply H.
  - rewrite lookup_take_ge by lia. symmetry. apply lookup_ge_None. lia.
Qed.

(** A committed log in the middle of being installed still replays to the
    installed state. *)
Lemma replay_committed start size d hd xs j :
  wf_header start size (length d) hd -> d !! start = Some hd ->
  length xs = length (head_blocks hd) ->
  (forall i x, xs !! i = Some x -> d !! (start + 1 + i)%nat = Some x) ->
  let ws := zip (head_blocks hd) xs in
  recovers_to start size (install d (take j ws)) (install d ws).
Proof.
  intros Hwf Hd Hlx Hxs ws. pose proof Hwf as [Hn Hsz Hnd Hho].
  pose proof (length_head_blocks hd) as Hlh.
  assert (Hpos : Forall (fun w => 0 <= w.1) ws).
  { apply zip_pos. eapply Forall_impl; [exact Hho|]. intros b [? _]. lia. }
  assert (Hfst : ws.*1 = head_blocks hd) by (apply fst_zip; lia).
  assert (Hlog : forall i, (start <= i < start + size)%nat -> install d (take j ws) !! i = d !! i).
  { intros i Hi. apply install_notin; [by apply Forall_take|].
    rewrite fmap_take, Hfst. intros (k & Hk & _)%elem_of_take.
    rewrite Forall_forall in Hho. apply list_elem_of_lookup_2 in Hk. destruct (Hho _ Hk). lia. }
  split.
  - exists hd. split; [rewrite Hlog by lia; done|]. by rewrite length_install.
  - unfold replay. rewrite Hlog, Hd by lia. rewrite <- Hlh, <- Hlx, (log_slots_eq start _ xs).
    2:{ intros i x Hx. pose proof (lookup_lt_Some _ _ _ Hx). rewrite Hlog by lia. by apply Hxs. }
    fold ws. intros i Hi. destruct (decide (Z.of_nat i ∈ ws.*1)) as [Hin|Hin].
    + apply list_elem_of_fmap in Hin as ([b x] & Hb & Hin). simpl in Hb. subst b.
      assert (Hil : (i < length d)%nat).
      { rewrite Forall_forall in Hho. pose proof (elem_of_zip_l _ _ _ _ Hin) as Hh.
        destruct (Hho _ Hh). lia. }
      rewrite !(install_in _ ws i x); try done; rewrite ?length_install, ?Hfst; done.
    + rewrite !install_notin; try done; [by apply Forall_take|].
      rewrite fmap_take. intros (k & Hk & _)%elem_of_take. by apply list_elem_of_lookup_2 in Hk.
Qed.

Section crash.
Context {S : Type} `{BS : BlockStore S} `{BSL : !BlockStoreLaws S}.

(** Stores into the log's slots leave the header and the home blocks. *)
Lemma install_slots_lookup start size (xs : list block) d j i :
  (length xs < size)%nat -> (i <= start \/ start + size <= i)%nat ->
  install d (take j (slots start xs)) !! i = d !! i.
Proof.
  intros Hl Hi. apply install_notin; [apply Forall_take, slots_pos|].
  rewrite fmap_take. intros (k & Hk & _)%elem_of_take. apply list_elem_of_lookup_2, slots_fst in Hk as (m & Hm & ?).
  unfold slot in Hm. lia.
Qed.

Lemma install_slots_at start (xs : list block) d i x :
  xs !! i = Some x -> (start + 1 + i < length d)%nat ->
  install d (slots start xs) !! (start + 1 + i)%nat = Some x.
Proof.
  intros Hx Hl. apply install_in; [apply slots_pos|apply slots_nodup| |done].
  eapply list_elem_of_lookup_2. by apply slots_lookup.
Qed.

(** The disk after the blocks are in the log and the header names them. *)
Lemma committed_facts (l : log) h bs xs start size hd' :
  lists l bs start size (length h) -> (start + size <= length h)%nat ->
  length xs = length bs -> head_n hd' = Z.of_nat (length bs) -> head_blocks hd' = bs ->
  let d := <[start := hd']> (install h (slots start xs)) in
  wf_header start size (length d) hd' /\ d !! start = Some hd' /\
  (forall i x, xs !! i = Some x -> d !! (start + 1 + i)%nat = Some x).
Proof.
  intros [_ Hb Hl Hnd Hok Hroom] Hfit Hlx Hn Hbs d.
  assert (Hld : length d = length h) by (unfold d; by rewrite length_insert, length_install).
  split_and!.
  - split; rewrite ?Hbs, ?Hld; try done; [|lia].
    rewrite Hn. pose proof (length_take (lh_block l) (length bs)) as Ht. rewrite Hb, Hl in Ht.
    unfold LOGSIZE, MAXOPBLOCKS in *. lia.
  - unfold d. apply list_lookup_insert_eq. rewrite length_install. lia.
  - intros i x Hx. pose proof (lookup_lt_Some _ _ _ Hx). unfold d.
    rewrite list_lookup_insert_ne by lia. apply install_slots_at; [done|lia].
Qed.

(** Installed, the home blocks are the contents of the cache. *)
Lemma installed_content (l : log) h c bs xs start size hd' :
  lists l bs start size (length h) -> (start + size <= length h)%nat -> length c = length h ->
  Forall2 (fun b x => c !! Z.to_nat b = Some x) bs xs ->
  (forall n, 0 <= n -> n ∉ bs -> c !! Z.to_nat n = h !! Z.to_nat n) ->
  same_homes start size (install (<[start := hd']> (install h (slots start xs))) (zip bs xs)) c.
Proof.
  intros Hp Hfit Hlc Hxs Hclean i Hi. pose proof (Forall2_length _ _ _ Hxs) as Hlx.
  pose proof Hp as [_ _ _ Hnd Hok Hroom].
  assert (Hfst : (zip bs xs).*1 = bs) by (apply fst_zip; lia).
  assert (Hpos : Forall (fun w : Z * block => 0 <= w.1) (zip bs xs)) by (apply zip_pos; by eapply lists_pos).
  destruct (decide (Z.of_nat i ∈ bs)) as [Hin|Hin].
  - pose proof Hin as [k Hk]%list_elem_of_lookup.
    destruct (Forall2_lookup_l _ _ _ _ _ Hxs Hk) as (x & Hx & Hc). rewrite Nat2Z.id in Hc. rewrite Hc.
    rewrite Forall_forall in Hok. destruct (Hok _ Hin) as [? _].
    apply install_in; [done|by rewrite Hfst| |rewrite length_insert, length_install; lia].
    eapply list_elem_of_lookup_2, lookup_zip_Some. eauto.
  - rewrite install_notin by (try done; by rewrite Hfst).
    rewrite list_lookup_insert_ne by lia.
    pose proof (install_slots_lookup start size xs h (length (slots start xs)) i) as Hs.
    rewrite take_ge in Hs by done. rewrite Hs by lia.
    specialize (Hclean (Z.of_nat i) ltac:(lia) Hin). by rewrite Nat2Z.id in Hclean.
Qed.

Lemma pins_commit (l : log) bs start size len :
  lists l bs start size len -> (length bs < capacity)%nat ->
  pins_during start bs (fun i => list_to_set (drop i bs)).
Proof.
  intros [_ _ _ Hnd Hok Hroom] Hcap i b Hb. rewrite (drop_S _ _ _ Hb).
  pose proof (drop_S _ _ _ Hb) as Hdr.
  assert (Hnd' : NoDup (drop i bs)) by (rewrite <- (take_drop i bs) in Hnd; by apply NoDup_app in Hnd as (_ & _ & ?)).
  rewrite Hdr in Hnd'. split_and!.
  - left. set_solver.
  - rewrite size_list_to_set by done. rewrite <- Hdr, length_drop. lia.
  - rewrite elem_of_list_to_set, <- Hdr. intros [k Hk]%list_elem_of_lookup. rewrite lookup_drop in Hk.
    apply list_elem_of_lookup_2 in Hk. rewrite Forall_forall in Hok. destruct (Hok _ Hk) as [_ Ho].
    apply Ho. unfold slot. pose proof (lookup_lt_Some _ _ _ Hb). lia.
  - apply NoDup_cons in Hnd' as [? _]. set_solver.
Qed.

(** The state after a transaction, or a recovery, is over: [D] at home, an
    empty log. *)
Definition settled (start size : nat) (D : list block) (s : lstate S) : Prop :=
  lh_n (lg s) = 0 /\ exists h c hd, views (store s) h c ∅ ∅ /\ length h = length D /\
    h !! start = Some hd /\ head_n hd = 0 /\ same_homes start size h D.

(** Power failed, and the disk recovers to one of [Ds]. *)
Definition crashed_to (start size : nat) (len : nat) (Ds : list (list block)) (w : stop) (s : lstate S) : Prop :=
  w = Crashed /\ length (home (store s)) = len /\ Forall block_ok (home (store s)) /\
  exists D, D ∈ Ds /\ recovers_to start size (home (store s)) D.

(** Erasing the header once the blocks are installed. *)
Lemma erase_spec (s : lstate S) h c start size hd D Ds :
  geom (lg s) start size (length h) -> (0 < size)%nat -> length (lh_block (lg s)) = Z.to_nat LOGSIZE ->
  views (store s) h c ∅ ∅ -> (0 < capacity)%nat -> c !! start = Some hd ->
  length h = length D -> same_homes start size h D ->
  recovers_to start size h D -> D ∈ Ds ->
  wpe (modlog (fun l => set_lh 0 (lh_block l) l) ;; write_head) s
    (fun _ s' => lg s' = set_lh 0 (lh_block (lg s)) (lg s) /\ settled start size D s')
    (crashed_to start size (length h) Ds).
Proof.
  intros Hg Hs Hlb Hv Hcap Hc HlD HD Hrec HDs. apply wpe_bind, wpe_modify.
  eapply wpe_mono; [| |eapply (write_head_spec _ h c start size ∅ 0 hd)]; simpl.
  - intros [] s' [Hl (hd' & Hok & Hn & _ & Hv')]. split; [done|]. split; [by rewrite Hl|].
    exists (<[start := hd']> h), (<[start := hd']> c), hd'.
    assert (start < length h)%nat by (destruct Hg; lia). split_and!; try done.
    + by rewrite length_insert.
    + by apply list_lookup_insert_eq.
    + etransitivity; [|exact HD]. apply same_homes_insert. lia.
  - intros w t. apply (fun H => H).
  - destruct Hg. by split.
  - done.
  - done.
  - lia.
  - lia.
  - constructor.
  - done.
  - set_solver.
  - exact Hcap.
  - done.
  - intros s' Hs' Hb'. split; [done|]. rewrite Hs' in *. eauto.
Qed.

Lemma lists_in_i32 (l : log) bs start size len :
  lists l bs start size len -> Z.of_nat len < 2 ^ 31 -> Forall in_i32 bs.
Proof.
  intros H Hlen. eapply Forall_impl; [apply (li_ok _ _ _ _ _ H)|]. intros b [? _]. unfold in_i32. lia.
Qed.

Lemma contents_exist (c : list block) (bs : list Z) start size :
  Forall (loggable start size (length c)) bs ->
  exists xs, Forall2 (fun b x => c !! Z.to_nat b = Some x) bs xs.
Proof.
  induction 1 as [|b bs [Hb _] _ [xs IH]]; [by exists []|].
  destruct (lookup_lt_is_Some_2 c (Z.to_nat b)) as [x Hx]; [lia|]. exists (x :: xs). by constructor.
Qed.

(** First half of commit: the blocks and then the header reach the disk. *)
Lemma log_phase_spec (s : lstate S) h c start size bs xs hd :
  geom (lg s) start size (length h) -> lists (lg s) bs start size (length h) ->
  views (store s) h c ∅ (list_to_set bs) -> (length bs < capacity)%nat ->
  h !! start = Some hd -> head_n hd = 0 -> c !! start = Some hd ->
  Forall2 (fun b x => c !! Z.to_nat b = Some x) bs xs ->
  wpe (write_log ;; write_head) s
    (fun _ s' => lg s' = lg s /\ exists hd', head_n hd' = Z.of_nat (length bs) /\ head_blocks hd' = bs /\
       views (store s') (<[start := hd']> (install h (slots start xs)))
         (<[start := hd']> (install c (slots start xs))) ∅ (list_to_set bs))
    (crashed_to start size (length h) [h]).
Proof.
  intros Hg Hp Hv Hcap Hhd Hn0 Hchd Hxs. pose proof (Forall2_length _ _ _ Hxs) as Hlx.
  pose proof Hg as [Hst Hsz Hdv Hfit Hlen]. pose proof Hp as [Hn Hbs Hlb Hnd Hok Hroom].
  pose proof (fun d => install_slots_lookup start size xs d (length (slots start xs)) start) as Hhead.
  setoid_rewrite take_ge in Hhead; [|done].
  assert (Hbefore : forall j s', home (store s') = install h (take j (slots start xs)) ->
    Forall block_ok (home (store s')) -> crashed_to start size (length h) [h] Crashed s').
  { intros j s' Hd Hb. split; [done|]. rewrite Hd in *. rewrite length_install. split_and!; [done..|].
    exists h. split; [set_solver|].
    destruct (recovers_to_empty start size (install h (take j (slots start xs))) hd) as [Hw Hr];
      [rewrite (install_slots_lookup start size) by lia; done|done|lia|].
    split; [done|]. etransitivity; [exact Hr|]. intros i Hi. apply (install_slots_lookup start size); lia. }
  apply wpe_bind. eapply wpe_mono; [| |by apply (write_log_spec s h c start size bs xs)].
  2:{ intros w s' (-> & Hb & j & Hj). by eapply Hbefore. }
  simpl. intros [] s1 [Hl1 Hv1].
  eapply wpe_mono; [| |apply (write_head_spec s1 _ _ start size (list_to_set bs) (length bs) hd
    (crashed_to start size (length h) [h])) with (7 := Hv1)]; rewrite ?Hl1, ?length_install; try done; try lia.
  - simpl. rewrite Hbs. intros [] s2 [Hl2 (hd' & _ & ? & ? & ?)]. eauto 8.
  - pose proof (length_take (lh_block (lg s)) (length bs)) as Ht. rewrite Hbs in Ht. lia.
  - pose proof (length_take (lh_block (lg s)) (length bs)) as Ht. rewrite Hbs in Ht. lia.
  - rewrite Hbs. by eapply lists_in_i32.
  - rewrite elem_of_list_to_set. intros Hin. rewrite Forall_forall in Hok. destruct (Hok _ Hin). lia.
  - by rewrite size_list_to_set.
  - rewrite Hhead by lia. done.
  - intros s' Hs' Hb'. apply (Hbefore (length (slots start xs))); [|done]. by rewrite take_ge.
Qed.

(** Second half of commit, and the work of recovery: a committed log is
    installed and erased. *)
Lemma install_phase_spec (s : lstate S) h c start size bs xs hd pf :
  geom (lg s) start size (length h) -> lists (lg s) bs start size (length h) ->
  views (store s) h c ∅ (pf 0%nat) -> pins_during start bs pf -> pf (length bs) = ∅ -> (0 < capacity)%nat ->
  wf_header start size (length h) hd -> head_blocks hd = bs ->
  h !! start = Some hd -> c !! start = Some hd -> length xs = length bs ->
  (forall i x, xs !! i = Some x -> h !! (start + 1 + i)%nat = Some x) ->
  (forall i x, xs !! i = Some x -> c !! (start + 1 + i)%nat = Some x) ->
  let D := install h (zip bs xs) in
  wpe (install_trans ;; modlog (fun l => set_lh 0 (lh_block l) l) ;; write_head) s
    (fun _ s' => lg s' = set_lh 0 (lh_block (lg s)) (lg s) /\ settled start size D s')
    (crashed_to start size (length h) [D]).
Proof.
  intros Hg Hp Hv Hpf Hpe Hcap Hwf Hhb Hhd Hchd Hlx Hxh Hxc D.
  pose proof Hg as [Hst Hsz Hdv Hfit Hlen]. pose proof Hp as [Hn Hbs Hlb Hnd Hok Hroom].
  assert (Hrec : forall j, recovers_to start size (install h (take j (zip bs xs))) D).
  { intros j. unfold D. rewrite <- Hhb. apply replay_committed; try done. by rewrite Hhb. }
  apply wpe_bind. eapply wpe_mono; [| |apply (install_trans_spec s h c start size bs xs pf); try done].
  - simpl. intros [] s1 [Hl1 Hv1]. rewrite Hpe in Hv1.
    assert (HlD : length h = length D) by (unfold D; by rewrite length_install).
    assert (Hcs : install c (zip bs xs) !! start = Some hd).
    { pose proof (install_zip_log (lg s) bs xs start size (length h) c start (length (zip bs xs)) Hp) as Hx.
      rewrite take_ge in Hx by done. by rewrite Hx by lia. }
    rewrite HlD, <- Hl1. apply (erase_spec s1 D (install c (zip bs xs)) start size hd); try done;
      rewrite ?Hl1, <- ?HlD; try done; try lia.
    + specialize (Hrec (length (zip bs xs))). by rewrite take_ge in Hrec.
    + set_solver.
  - intros w s' (-> & Hb & j & Hj). split; [done|]. rewrite Hj in *. rewrite length_install.
    split_and!; [done..|]. exists D. split; [set_solver|apply Hrec].
  - intros i x Hx. unfold slot. rewrite Nat2Z.id. by apply Hxc.
Qed.

Lemma crashed_to_weaken start size len Ds Ds' w (s : lstate S) :
  Ds ⊆ Ds' -> crashed_to start size len Ds w s -> crashed_to start size len Ds' w s.
Proof. intros H (-> & ? & ? & D & HD & ?). split_and!; try done. exists D. set_solver. Qed.

Lemma settled_same start size D D' (s : lstate S) :
  settled start size D s -> same_homes start size D D' -> length D = length D' -> settled start size D' s.
Proof.
  intros (Hn & h & c & hd & ? & ? & ? & ? & ?) HD Hl. split; [done|]. exists h, c, hd.
  split_and!; try done; [congruence|]. by etransitivity.
Qed.

Lemma crashed_to_same start size len D D' w (s : lstate S) :
  crashed_to start size len [D] w s -> same_homes start size D D' -> crashed_to start size len [D'] w s.
Proof.
  intros (-> & ? & ? & E & ->%list_elem_of_singleton & [? ?]) HD. split_and!; try done.
  exists D'. split; [set_solver|]. split; [done|]. by etransitivity.
Qed.

Lemma commit_spec (s : lstate S) h c start size bs hd :
  geom (lg s) start size (length h) -> lists (lg s) bs start size (length h) ->
  views (store s) h c ∅ (list_to_set bs) -> (length bs < capacity)%nat ->
  h !! start = Some hd -> head_n hd = 0 ->
  wpe commit s
    (fun _ s' => lg s' = set_lh 0 (lh_block (lg s)) (lg s) /\ settled start size c s')
    (crashed_to start size (length h) [h; c]).
Proof.
  intros Hg Hp Hv Hcap Hhd Hn0. pose proof (views_length _ _ _ _ _ Hv) as Hlc.
  pose proof Hg as [Hst Hsz Hdv Hfit Hlen]. pose proof Hp as [Hn Hbs Hlb Hnd Hok Hroom].
  assert (Hclean : forall n, 0 <= n -> n ∉ bs -> c !! Z.to_nat n = h !! Z.to_nat n).
  { intros n Hn' Hin. eapply views_clean; [done|done|set_solver]. }
  assert (Hstart : c !! start = Some hd).
  { rewrite <- Hhd, <- (Nat2Z.id start). apply Hclean; [lia|]. intros Hin.
    rewrite Forall_forall in Hok. destruct (Hok _ Hin). lia. }
  unfold commit. apply wpe_bind, wpe_gets. destruct (Z.ltb_spec 0 (lh_n (lg s))) as [Hpos|Hz]; cbn [when].
  2:{ apply wpe_ret. assert (bs = []) as -> by (destruct bs; simpl in *; [done|lia]).
      split; [destruct (lg s); simpl in *; by subst|]. split; [done|]. exists h, c, hd. split_and!; try done.
      intros i _. specialize (Hclean (Z.of_nat i) ltac:(lia) ltac:(set_solver)). by rewrite Nat2Z.id in Hclean. }
  destruct (contents_exist c bs start size) as [xs Hxs]; [by rewrite Hlc|].
  pose proof (Forall2_length _ _ _ Hxs) as Hlx.
  apply wpe_assoc. eapply wpe_mono; [| |by eapply (log_phase_spec s h c start size bs xs hd)].
  2:{ intros w s'. apply crashed_to_weaken. set_solver. }
  simpl. intros [] s1 [Hl1 (hd' & Hhn & Hhb & Hv1)].
  destruct (committed_facts (lg s) h bs xs start size hd') as (Hwf & Hh1 & Hx1); try done.
  assert (Hcx : forall i x, xs !! i = Some x ->
    <[start := hd']> (install c (slots start xs)) !! (start + 1 + i)%nat = Some x).
  { intros i x Hx. pose proof (lookup_lt_Some _ _ _ Hx). rewrite list_lookup_insert_ne by lia.
    apply install_slots_at; [done|lia]. }
  assert (HlD : length (<[start := hd']> (install h (slots start xs))) = length h)
    by by rewrite length_insert, length_install.
  pose proof (installed_content (lg s) h c bs xs start size hd' Hp Hfit Hlc Hxs Hclean) as HDc.
  rewrite <- Hl1. eapply wpe_mono; [| |apply (install_phase_spec s1 _ _ start size bs xs hd'
    (fun i => list_to_set (drop i bs))) with (3 := Hv1)]; rewrite ?Hl1, ?HlD; try done.
  - simpl. intros [] s2 [Hl2 Hs2]. split; [done|]. eapply settled_same; [done|done|].
    rewrite length_install, HlD. done.
  - intros w s2 Hc2. apply (crashed_to_weaken start size _ [c]); [set_solver|]. by eapply crashed_to_same.
  - by eapply pins_commit.
  - by rewrite drop_all.
  - lia.
  - by rewrite HlD in Hwf.
  - apply list_lookup_insert_eq. rewrite length_install. lia.
Qed.

(** ** Recovery *)

Lemma read_head_spec (s : lstate S) h c start size hd E :
  geom (lg s) start size (length h) -> (0 < size)%nat -> length (lh_block (lg s)) = Z.to_nat LOGSIZE ->
  views (store s) h c ∅ ∅ -> (0 < capacity)%nat -> c !! start = Some hd -> 0 <= head_n hd <= LOGSIZE ->
  wpe read_head s
    (fun _ s' => views (store s') h c ∅ ∅ /\ exists bl, lg s' = set_lh (head_n hd) bl (lg s) /\
       length bl = Z.to_nat LOGSIZE /\ take (Z.to_nat (head_n hd)) bl = head_blocks hd) E.
Proof.
  intros [Hst Hsz Hdv Hfit Hlen] Hs0 Hlb Hv Hcap Hhd Hn.
  pose proof (views_clean _ _ _ _ (Z.of_nat start) Hv ltac:(lia) ltac:(set_solver)) as Hclean.
  unfold read_head. apply wpe_bind, wpe_gets. rewrite Hst, Hdv, !u32_small by (unfold in_u32, ROOTDEV; lia).
  apply wpe_bind, wpe_st, (wpe_bread _ _ _ _ _ _ _ _ Hv); [lia|done|by right|].
  intros k t1 _ Hv1. apply wpe_bind, wpe_st, (wpe_bdata _ _ _ _ _ _ (Z.of_nat start) hd _ _ Hv1);
    [by rewrite lookup_insert_eq|by rewrite Nat2Z.id|].
  fold (head_n hd). apply wpe_bind, wpe_modify. cbn [store lg].
  apply wpe_bind. eapply wpe_mono; [| |apply (wpe_for_each (fun d s' => store s' = t1 /\
    exists bl, lg s' = set_lh (head_n hd) bl (lg s) /\ length bl = Z.to_nat LOGSIZE /\
      take (length d) bl = head_block hd <$> seq 0 (length d)))].
  - simpl. rewrite length_seq. intros [] s2 (Hs2 & bl & Hl2 & Hbl & Htk).
    apply wpe_st. rewrite Hs2. apply (wpe_brelse _ _ _ _ _ _ (Z.of_nat start) _ _ Hv1);
      [by rewrite lookup_insert_eq|by right|].
    intros t3 Hv3. rewrite delete_insert_id in Hv3 by done. eauto 8.
  - intros w t. apply (fun H => H).
  - split; [done|]. exists (lh_block (lg s)). split_and!; [|done|by rewrite take_0]. done.
  - intros d x rest s2 [-> Hx]%seq_split_at (Hs2 & bl & Hl2 & Hbl & Htk).
    apply wpe_bind, wpe_gets. rewrite Hl2. cbn [lh_block set_lh].
    assert (length d < length bl)%nat by (unfold LOGSIZE, MAXOPBLOCKS in *; lia).
    rewrite decide_True by done.
    apply wpe_modify. cbn [store lg]. split; [done|]. eexists. split; [by rewrite Hl2|].
    split; [by rewrite length_insert|]. rewrite length_app, Nat.add_1_r.
    rewrite seq_S, fmap_app. simpl fmap.
    rewrite (take_S_r _ _ (head_block hd (length d))) by by apply list_lookup_insert_eq.
    by rewrite take_insert_ge, Htk by done.
Qed.

Lemma pins_recovery start bs : (1 < capacity)%nat -> pins_during start bs (fun _ => ∅).
Proof.
  intros Hcap i b Hb. split_and!; [by right| |set_solver|set_solver].
  change (0 < capacity)%nat. lia.
Qed.

Lemma recover_spec (s : lstate S) h start size :
  geom (lg s) start size (length h) -> length (lh_block (lg s)) = Z.to_nat LOGSIZE ->
  views (store s) h h ∅ ∅ -> (1 < capacity)%nat -> wf_log start size h ->
  wpe recover_from_log s
    (fun _ s' => geom (lg s') start size (length h) /\ settled start size (replay start h) s')
    (crashed_to start size (length h) [replay start h]).
Proof.
  intros Hg Hlb Hv Hcap (hd & Hhd & Hwf). pose proof Hwf as [Hn Hsz Hnd Hho].
  pose proof Hg as [Hst Hsz' Hdv Hfit Hlen].
  unfold recover_from_log. apply wpe_bind.
  eapply wpe_mono; [| |apply (read_head_spec s h h start size hd); try done; lia].
  2:{ intros w s'. apply (fun H => H). }
  simpl. intros [] s1 (Hv1 & bl & Hl1 & Hbl & Htk).
  assert (Hg1 : geom (lg s1) start size (length h)) by (rewrite Hl1; by split).
  pose proof (length_head_blocks hd) as Hlh.
  assert (Hp1 : lists (lg s1) (head_blocks hd) start size (length h)).
  { rewrite Hl1. split; simpl; try done; [lia|by rewrite Hlh|lia]. }
  set (xs := log_slots start h (Z.to_nat (head_n hd))).
  assert (Hlx : length xs = length (head_blocks hd)).
  { unfold xs, log_slots. rewrite length_take, length_drop. lia. }
  assert (Hxs : forall i x, xs !! i = Some x -> h !! (start + 1 + i)%nat = Some x).
  { intros i x [Hx _]%lookup_take_Some. rewrite lookup_drop in Hx. rewrite <- Hx. f_equal. lia. }
  assert (HD : replay start h = install h (zip (head_blocks hd) xs)) by (unfold replay; by rewrite Hhd).
  rewrite HD. eapply wpe_mono; [| |apply (install_phase_spec s1 h h start size (head_blocks hd) xs hd (fun _ => ∅));
    try done; [by apply pins_recovery|lia]].
  - simpl. intros [] s2 [Hl2 Hs2]. split; [|done]. rewrite Hl2. destruct Hg1. by split.
  - done.
Qed.

(** Booting on the disk [d]: the superblock locates the log, which is
    replayed. *)
Definition sb_locates (d : list block) (start size : nat) : Prop :=
  exists sb, d !! 1%nat = Some sb /\ sb_logstart (decode_sb sb) = Z.of_nat start /\
    sb_nlog (decode_sb sb) = Z.of_nat size.

Lemma initlog_spec d p l0 start size :
  Forall block_ok d -> sb_locates d start size -> (start + size <= length d)%nat ->
  Z.of_nat (length d) < 2 ^ 31 -> wf_log start size d ->
  length (lh_block l0) = Z.to_nat LOGSIZE -> (1 < capacity)%nat ->
  wpe (initlog ROOTDEV) (LState (reboot d p) l0)
    (fun _ s' => geom (lg s') start size (length d) /\ settled start size (replay start d) s')
    (crashed_to start size (length d) [replay start d]).
Proof.
  intros Hok (sb & Hsb & Hst & Hsz) Hfit Hlen Hwf Hlb Hcap.
  destruct (reboot_spec d p Hok) as (Hbok & Hh & Hc & Hho & Hp).
  assert (Hv : views (reboot d p) d d ∅ ∅) by by split_and!.
  unfold initlog. change (BSIZE <=? 4 + 4 * LOGSIZE) with false. cbn iota.
  apply wpe_bind, wpe_modify. cbn [store lg]. apply wpe_bind, wpe_st. cbn [store lg].
  unfold readsb. rewrite u32_small by (unfold in_u32, ROOTDEV; lia).
  eapply wpe_mono; [| |apply (read_block_spec _ d d ∅ 1 sb decode_sb _ Hv); try done].
  - simpl. intros a t1 [-> Hv1]. rewrite Hst, Hsz. apply wpe_bind, wpe_modify. cbn [store lg].
    rewrite !i32_small by (unfold in_i32; lia).
    apply recover_spec; try done; by split.
  - intros w t. apply (fun H => H).
  - apply lookup_lt_Some in Hsb. lia.
  - change (0 < capacity)%nat. lia.
Qed.

(** ** With power on *)

Definition lsteady (s : lstate S) : Prop := steady (store s).

Lemma nocrash_st {A} (m : M S A) : nocrash steady m -> nocrash lsteady (st m).
Proof. intros Hm s Hs. apply wpe_st. by apply Hm. Qed.

Lemma nocrash_modlog f : nocrash lsteady (modlog f).
Proof. by apply nocrash_modify. Qed.

Lemma nocrash_lh_at l i : nocrash lsteady (lh_at l i).
Proof. unfold lh_at. nocrash. Qed.

Hint Resolve nocrash_st nocrash_modlog nocrash_lh_at : nocrash.

Lemma nocrash_blocks dev a b :
  nocrash steady (log_block dev a b) /\ nocrash steady (install_block dev a b).
Proof. split; [unfold log_block|unfold install_block]; nocrash. Qed.

Lemma nocrash_trans : nocrash lsteady write_log /\ nocrash lsteady install_trans.
Proof.
  pose proof nocrash_blocks as Hb.
  split; [unfold write_log|unfold install_trans]; nocrash; apply nocrash_st, Hb.
Qed.

Lemma nocrash_heads : nocrash lsteady write_head /\ nocrash lsteady read_head.
Proof. split; [unfold write_head|unfold read_head]; nocrash. Qed.

Lemma nocrash_commit : nocrash lsteady commit.
Proof. destruct nocrash_trans, nocrash_heads. unfold commit. nocrash. Qed.

Lemma nocrash_initlog dev : nocrash lsteady (initlog dev).
Proof.
  destruct nocrash_trans, nocrash_heads. unfold initlog, recover_from_log, readsb. nocrash.
  apply nocrash_st. nocrash.
Qed.

(** ** Crashes during recovery *)

(** A boot on disk [d] during which power fails, leaving the disk [d']. *)
Definition boot_crash (d d' : list block) : Prop :=
  exists p l0 s', length (lh_block l0) = Z.to_nat LOGSIZE /\
    initlog ROOTDEV (LState (reboot d p) l0) = Stop Crashed s' /\ home (store s') = d'.

(** A disk that any boot turns into [D], however often power fails. *)
Record bootable (start size : nat) (D d : list block) : Prop := {
  bt_blocks : Forall block_ok d;
  bt_sb : sb_locates d start size;
  bt_length : length d = length D;
  bt_recovers : recovers_to start size d D
}.

Lemma replay_superblock start size d : wf_log start size d -> replay start d !! 1%nat = d !! 1%nat.
Proof.
  intros (hd & Hhd & [_ _ _ Hho]). unfold replay. rewrite Hhd.
  assert (Hin : forall w, w ∈ zip (head_blocks hd) (log_slots start d (Z.to_nat (head_n hd))) -> 1 < w.1).
  { intros [b x] Hin%elem_of_zip_l. rewrite Forall_forall in Hho. destruct (Hho _ Hin). simpl. lia. }
  apply install_notin.
  - apply Forall_forall. intros w Hw%Hin. lia.
  - intros (w & Hw & Hx%Hin)%list_elem_of_fmap. lia.
Qed.

Lemma recovers_superblock start size d D :
  recovers_to start size d D -> (1 < start)%nat -> d !! 1%nat = D !! 1%nat.
Proof. intros [Hw Hs] Hst. rewrite <- (replay_superblock _ _ _ Hw). apply Hs. lia. Qed.

Section geometry.
Variables (start size : nat) (D : list block).
Hypothesis Hstart : (1 < start)%nat.
Hypothesis Hfit : (start + size <= length D)%nat.
Hypothesis Hlen : Z.of_nat (length D) < 2 ^ 31.
Hypothesis Hcap : (1 < capacity)%nat.

Lemma boot_spec d p l0 :
  bootable start size D d -> length (lh_block l0) = Z.to_nat LOGSIZE ->
  wpe (initlog ROOTDEV) (LState (reboot d p) l0)
    (fun _ s' => settled start size D s')
    (fun w s' => w = Crashed /\ bootable start size D (home (store s'))).
Proof.
  intros [Hok Hsb Hld [Hwf Hrec]] Hl0.
  eapply wpe_mono; [| |apply (initlog_spec d p l0 start size); try done; by rewrite Hld].
  - simpl. intros [] s' [_ Hs']. eapply settled_same; [done|done|].
    destruct Hs' as (_ & h & c & hd & _ & ? & _). unfold replay in *.
    destruct (d !! start); [|done]. by rewrite length_install.
  - intros w s' Hcr. apply (crashed_to_same _ _ _ _ D) in Hcr; [|done].
    destruct Hcr as (-> & Hl & Hb & E & ->%list_elem_of_singleton & Hr). split; [done|].
    split; try done; [|congruence]. destruct Hsb as (sb & Hsb & ?). exists sb. split; [|done].
    by rewrite (recovers_superblock _ _ _ _ Hr), <- (recovers_superblock start size d D).
Qed.

Lemma boot_crash_bootable d d' :
  bootable start size D d -> rtc boot_crash d d' -> bootable start size D d'.
Proof.
  intros Hb Hr. induction Hr as [d|d d1 d2 (p & l0 & s' & Hl0 & Hrun & <-) _ IH]; [done|].
  apply IH. pose proof (boot_spec d p l0 Hb Hl0) as H. unfold wpe in H. rewrite Hrun in H. by destruct H.
Qed.

Lemma boot_settles d l0 :
  bootable start size D d -> length (lh_block l0) = Z.to_nat LOGSIZE ->
  wp (initlog ROOTDEV) (LState (reboot d None) l0) (fun _ s' => settled start size D s').
Proof.
  intros Hb Hl0. eapply wp_mono; [|eapply (nocrash_wpe lsteady);
    [apply nocrash_initlog|apply reboot_steady|by apply (boot_spec d None l0)]].
  simpl. intros [] s' [H _]. exact H.
Qed.

End geometry.

(** C1: a transaction is atomic. Committing the logged blocks [bs] either
    returns, with the cached contents [c] at home on the disk and the log
    empty, or loses power at one of its disk writes. In the latter case the
    outcome is decided: there is one of the old disk [h] and the new contents
    [c] such that after any number of boots that lose power again during
    recovery, a boot that keeps power returns with that state at home and an
    empty log. It never panics, sleeps or runs out of buffers. *)
Theorem commit_atomic (s : lstate S) h c start size bs hd :
  geom (lg s) start size (length h) -> lists (lg s) bs start size (length h) ->
  views (store s) h c ∅ (list_to_set bs) -> (length bs < capacity)%nat -> (1 < capacity)%nat ->
  h !! start = Some hd -> head_n hd = 0 -> (1 < start)%nat -> sb_locates h start size ->
  wpe commit s (fun _ s' => settled start size c s')
    (fun w s' => w = Crashed /\ ~ lsteady s /\ exists D, (D = h \/ D = c) /\
       forall d l0, rtc boot_crash (home (store s')) d -> length (lh_block l0) = Z.to_nat LOGSIZE ->
         wp (initlog ROOTDEV) (LState (reboot d None) l0) (fun _ s'' => settled start size D s'')).
Proof.
  intros Hg Hp Hv Hcap Hcap2 Hhd Hn0 Hst (sb & Hsb & Hsb2).
  pose proof (views_length _ _ _ _ _ Hv) as Hlc. pose proof Hg as [_ _ _ Hfit Hlen].
  pose proof (nocrash_commit s) as Hno.
  pose proof (commit_spec s h c start size bs hd Hg Hp Hv Hcap Hhd Hn0) as H. unfold wpe in *.
  destruct (commit s) as [[] s'|w s']; [by destruct H|].
  destruct H as (-> & Hl & Hb & D & HD & Hr). split; [done|]. split; [by intros ?%Hno|].
  assert (HDl : length D = length h /\ D !! 1%nat = Some sb /\ (D = h \/ D = c)).
  { apply elem_of_cons in HD as [->|HD]; [auto|]. apply list_elem_of_singleton in HD as ->. split_and!; auto.
    rewrite <- Hsb. apply (views_clean _ _ _ _ 1 Hv); [lia|]. rewrite elem_of_list_to_set. intros Hin.
    pose proof (li_ok _ _ _ _ _ Hp) as Ho. rewrite Forall_forall in Ho. destruct (Ho _ Hin). lia. }
  destruct HDl as (HDl & HD1 & HD2). exists D. split; [done|]. intros d l0 Hrtc Hl0.
  apply boot_settles; rewrite ?HDl; try done. eapply boot_crash_bootable; rewrite ?HDl; try done.
  split; try done; [|congruence]. exists sb. split; [|done]. by rewrite (recovers_superblock _ _ _ _ Hr).
Qed.

End crash.

(** ** Reserving log space *)

Section reservation.
Context {S : Type} `{BS : BlockStore S}.

Lemma keeps_st {A} (m : M S A) : keeps lg (st m).
Proof. intros s. unfold wpe, st, zoom. simpl. by destruct (m (store s)). Qed.
#[local] Hint Resolve keeps_st : keeps.

Lemma keeps_lh_at l i : keeps lg (lh_at l i : M (lstate S) Z).
Proof. unfold lh_at. keeps. Qed.
#[local] Hint Resolve keeps_lh_at : keeps.

Lemma keeps_blocks : keeps lg write_log /\ keeps lg install_trans /\ keeps lg write_head.
Proof. split_and!; [unfold write_log|unfold install_trans|unfold write_head]; keeps. Qed.

Lemma commit_log (s : lstate S) :
  0 <= lh_n (lg s) ->
  wpe commit s (fun _ s' => lg s' = set_lh 0 (lh_block (lg s)) (lg s)) (fun _ _ => True).
Proof.
  intros Hn. destruct keeps_blocks as (Hw & Hi & Hh).
  unfold commit. apply wpe_bind, wpe_gets. destruct (Z.ltb_spec 0 (lh_n (lg s))); cbn [when].
  - apply wpe_bind. eapply wpe_mono; [| |apply Hw]; [|done]. simpl. intros [] s1 H1.
    apply wpe_bind. eapply wpe_mono; [| |apply Hh]; [|done]. simpl. intros [] s2 H2.
    apply wpe_bind. eapply wpe_mono; [| |apply Hi]; [|done]. simpl. intros [] s3 H3.
    apply wpe_bind, wpe_modify. eapply wpe_mono; [| |apply Hh]; [|done]. simpl. intros [] s4 ->.
    by rewrite H3, H2, H1.
  - apply wpe_ret. assert (H0 : lh_n (lg s) = 0) by lia. destruct (lg s); simpl in *. by subst.
Qed.

(** The operations of several file system calls on the log. [R] holds, for
    each call between its begin_op and its end_op, the number of blocks it may
    still add to the log. *)
Inductive log_step : lstate S * list nat -> lstate S * list nat -> Prop :=
  | step_begin s R s' :
      begin_op s = Ret tt s' -> log_step (s, R) (s', Z.to_nat MAXOPBLOCKS :: R)
  | step_begin_sleep s R c s' :
      begin_op s = Stop (Sleeping c) s' -> log_step (s, R) (s', R)
  | step_absorb s R k s' :
      R <> [] -> log_write k s = Ret tt s' -> lh_n (lg s') = lh_n (lg s) -> log_step (s, R) (s', R)
  | step_add s R i r k s' :
      R !! i = Some (Datatypes.S r) -> log_write k s = Ret tt s' -> lh_n (lg s') = lh_n (lg s) + 1 ->
      log_step (s, R) (s', <[i := r]> R)
  | step_end s R i r s' :
      R !! i = Some r -> end_op s = Ret tt s' -> log_step (s, R) (s', delete i R)
  | step_store s R t :
      (* other activity on the block store *)
      log_step (s, R) (LState t (lg s), R).

Record reserved (s : lstate S) (R : list nat) : Prop := {
  rs_lock : l_lock (lg s) = false;
  rs_idle : l_committing (lg s) = 0;
  rs_outstanding : l_outstanding (lg s) = Z.of_nat (length R);
  rs_array : length (lh_block (lg s)) = Z.to_nat LOGSIZE;
  rs_pos : 0 <= lh_n (lg s);
  rs_budget : Forall (fun r => (r <= Z.to_nat MAXOPBLOCKS)%nat) R;
  rs_space : lh_n (lg s) + Z.of_nat (sum_list R) <= LOGSIZE
}.

Lemma sum_list_bound (R : list nat) m :
  Forall (fun r => (r <= m)%nat) R -> (sum_list R <= length R * m)%nat.
Proof. induction 1; simpl; lia. Qed.

Lemma begin_op_reserved s R :
  reserved s R ->
  wpe begin_op s (fun _ s' => reserved s' (Z.to_nat MAXOPBLOCKS :: R))
    (fun w s' => w = Sleeping ch_log /\ reserved s' R).
Proof.
  intros [Hlk Hid Ho Ha Hp Hb Hsp]. unfold begin_op, acquire_log, release_log. 
  destruct s as [t [lk st sz out com dv n bl wk]]; simpl in *; subst.
  unfold wpe. munfold. destruct (Z.ltb_spec LOGSIZE (n + (Z.of_nat (length R) + 1) * MAXOPBLOCKS)) as [Hlt|Hle].
  - split; [done|]. by split.
  - split; simpl; try done; try lia.
    + by constructor.
    + pose proof (sum_list_bound R (Z.to_nat MAXOPBLOCKS) Hb). unfold MAXOPBLOCKS in *. lia.
Qed.

Lemma log_slot_bound (l : log) b :
  length (lh_block l) = Z.to_nat LOGSIZE -> 0 <= lh_n l < LOGSIZE -> (log_slot l b < length (lh_block l))%nat.
Proof.
  intros Hl Hn. unfold log_slot. destruct (find_index _ _) as [i|] eqn:Hf; [|lia].
  apply find_index_lt in Hf. rewrite length_take in Hf. lia.
Qed.

Lemma log_write_log k (s : lstate S) :
  wpe (log_write k) s (fun _ s' =>
      l_lock (lg s) = false /\ lh_n (lg s) < LOGSIZE /\ exists b,
      lg s' = set_lh (if decide (Z.of_nat (log_slot (lg s) b) = lh_n (lg s)) then lh_n (lg s) + 1 else lh_n (lg s))
                (<[log_slot (lg s) b := i32 b]> (lh_block (lg s))) (lg s))
    (fun _ _ => True).
Proof.
  unfold log_write. apply wpe_bind, wpe_gets. destruct (_ || _) eqn:Hg; [done|].
  destruct (_ <? 1); [done|]. unfold acquire_log, release_log.
  apply wpe_bind, wpe_bind, wpe_gets. destruct (l_lock (lg s)) eqn:Hlk; [done|]. apply wpe_modify.
  apply wpe_bind. eapply wpe_mono; [| |apply keeps_st]; [|done]. simpl. intros b s1 H1.
  apply wpe_bind, wpe_gets. apply wpe_bind. case_decide; [|done]. apply wpe_modify.
  apply wpe_bind. eapply wpe_mono; [| |apply keeps_st]; [|done]. simpl. intros [] s2 H2.
  apply wpe_bind, wpe_gets. rewrite H2, H1. cbn [l_lock set_lh set_l_lock]. apply wpe_modify. cbn [lg].
  split; [done|]. split; [lia|]. exists b. rewrite H2, H1. unfold log_slot. cbn [lh_n lh_block set_l_lock].
  destruct (lg s); simpl in *. by subst.
Qed.

Lemma reserved_end s R i r :
  reserved s R -> R !! i = Some r ->
  wpe end_op s (fun _ s' => reserved s' (delete i R)) (fun _ _ => True).
Proof.
  intros [Hlk Hid Ho Ha Hp Hb Hsp] Hi.
  assert (Hlen : length R = Datatypes.S (length (delete i R))).
  { rewrite length_delete by eauto. pose proof (lookup_lt_Some _ _ _ Hi). lia. }
  assert (Hsum : (sum_list (delete i R) <= sum_list R)%nat).
  { rewrite (delete_Permutation R i r Hi) at 2. simpl. lia. }
  unfold end_op, acquire_log, release_log.
  apply wpe_bind, wpe_bind, wpe_gets. rewrite Hlk. apply wpe_modify.
  apply wpe_bind, wpe_modify. apply wpe_bind, wpe_gets. cbn [lg l_committing set_outstanding set_l_lock].
  rewrite Hid. cbn [Z.eqb negb]. apply wpe_bind. cbn [l_outstanding set_outstanding set_l_lock].
  destruct (Z.eqb_spec (l_outstanding (lg s) - 1) 0) as [Hz|Hz].
  - apply wpe_bind, wpe_modify, wpe_ret. apply wpe_bind, wpe_bind, wpe_gets.
    cbn [lg l_lock set_committing set_outstanding set_l_lock]. apply wpe_modify. cbn [when].
    apply wpe_bind. eapply wpe_mono; [| |apply commit_log; done]; [|done]. cbn [lg store]. intros [] s1 H1.
    apply wpe_bind, wpe_bind, wpe_gets. rewrite H1. cbn [l_lock set_lh set_l_lock]. apply wpe_modify.
    apply wpe_bind, wpe_modify. unfold wakeup_log. apply wpe_bind, wpe_modify. apply wpe_bind, wpe_gets.
    cbn [lg]. rewrite H1. cbn [l_lock set_l_wakeups set_committing set_l_lock set_lh]. apply wpe_modify. cbn [lg].
    assert (Hd : delete i R = []) by (apply length_zero_iff_nil; lia). rewrite Hd.
    split; simpl; try done; unfold LOGSIZE, MAXOPBLOCKS; lia.
  - unfold wakeup_log. apply wpe_bind, wpe_modify, wpe_ret. apply wpe_bind, wpe_bind, wpe_gets.
    cbn [lg l_lock set_l_wakeups set_outstanding set_l_lock]. apply wpe_modify. cbn [when]. apply wpe_ret.
    split; simpl; try done; try lia. by apply Forall_delete.
Qed.

Lemma log_write_reserved s R k s' :
  reserved s R -> log_write k s = Ret tt s' -> lh_n (lg s') + Z.of_nat (sum_list R) <= LOGSIZE + 1 /\
  (forall R', length R' = length R -> Forall (fun r => (r <= Z.to_nat MAXOPBLOCKS)%nat) R' ->
     lh_n (lg s') + Z.of_nat (sum_list R') <= LOGSIZE -> reserved s' R').
Proof.
  intros [Hlk Hid Ho Ha Hp Hb Hsp] Hr. pose proof (log_write_log k s) as H. unfold wpe in H.
  rewrite Hr in H. destruct H as (_ & Hn & b & Hl).
  assert (Hn' : 0 <= lh_n (lg s') <= lh_n (lg s) + 1) by (rewrite Hl; simpl; case_decide; lia).
  split; [lia|]. intros R' HlR HbR HsR. split; try done; try lia; rewrite Hl; simpl; try done; try lia.
  by rewrite length_insert.
Qed.

Lemma sum_list_insert (R : list nat) i r :
  R !! i = Some (Datatypes.S r) -> sum_list R = Datatypes.S (sum_list (<[i := r]> R)).
Proof.
  revert i; induction R as [|x R IH]; intros [|i] Hi; simpl in *; simplify_eq; [lia|].
  rewrite (IH i) by done. lia.
Qed.

Lemma log_step_reserved c c' : log_step c c' -> reserved c.1 c.2 -> reserved c'.1 c'.2.
Proof.
  intros Hs H. destruct Hs as [s R s' Hr|s R ch s' Hr|s R k s' HR Hr Hn|s R i r k s' Hi Hr Hn|s R i r s' Hi Hr|s R t];
    simpl in *.
  - pose proof (begin_op_reserved s R H) as Hb. unfold wpe in Hb. by rewrite Hr in Hb.
  - pose proof (begin_op_reserved s R H) as Hb. unfold wpe in Hb. rewrite Hr in Hb. by destruct Hb.
  - pose proof H as [? ? ? ? ? ? ?]. destruct (log_write_reserved s R k s' H Hr) as [_ Hw]. apply Hw; try done. lia.
  - pose proof H as [? ? ? ? ? Hb ?]. destruct (log_write_reserved s R k s' H Hr) as [_ Hw].
    pose proof (sum_list_insert R i r Hi). apply Hw; [by rewrite length_insert| |lia].
    apply Forall_insert; [done|]. pose proof (Forall_lookup_1 _ _ _ _ Hb Hi) as Hx. simpl in Hx. lia.
  - pose proof (reserved_end s R i r H Hi) as Hb. unfold wpe in Hb. by rewrite Hr in Hb.
  - by destruct H.
Qed.

(** A call that has space left logs a block it holds: the entry is within the
    array, and only a log with no room for LOGSIZE blocks refuses. *)
Lemma log_write_admitted `{BSL : !BlockStoreLaws S} s R k b :
  reserved s R -> (0 < sum_list R)%nat -> bs_ok (store s) -> holds (store s) !! k = Some b ->
  wpe (log_write k) s (fun _ s' => lh_n (lg s) <= lh_n (lg s') <= lh_n (lg s) + 1)
    (fun w s' => w = Panicked "too big a transaction" /\ s' = s /\ l_size (lg s) <= LOGSIZE).
Proof.
  intros [Hlk Hid Ho Ha Hp Hb Hsp] HR Hok Hk. assert (length R <> 0)%nat by (destruct R; [simpl in HR; lia|done]).
  unfold log_write. apply wpe_bind, wpe_gets. rewrite (proj2 (Z.leb_gt _ _)) by lia. cbn [orb].
  destruct (Z.leb_spec (l_size (lg s) - 1) (lh_n (lg s))); [split_and!; (done || lia)|].
  rewrite (proj2 (Z.ltb_ge _ _)) by lia. unfold acquire_log, release_log.
  apply wpe_bind, wpe_bind, wpe_gets. rewrite Hlk. apply wpe_modify. apply wpe_bind, wpe_st. cbn [store lg].
  unfold wpe at 1. rewrite (bno_spec _ _ _ Hok Hk). apply wpe_bind, wpe_gets. apply wpe_bind. cbn [lg store].
  rewrite decide_True by (apply log_slot_bound; [done|cbn; lia]). apply wpe_modify. apply wpe_bind, wpe_st. cbn [store lg].
  eapply wpe_mono; [| |apply (bpin_spec _ _ _ Hok Hk)]; [|done]. intros [] t _. apply wpe_bind, wpe_gets.
  cbn [lg l_lock set_lh set_l_lock]. apply wpe_modify. cbn [lg lh_n set_lh set_l_lock]. case_decide; lia.
Qed.

(** C2: however file system calls that each add at most MAXOPBLOCKS blocks
    between their begin_op and their end_op interleave, the header in memory
    never lists more than LOGSIZE blocks, together with the blocks that the
    running calls may still add, and the count of running calls is right. So
    log_write of a held buffer, while some running call has a block left,
    stores within the array and succeeds, provided that the log on disk has
    more than LOGSIZE blocks; with at most LOGSIZE blocks, header included, as
    mkfs makes it, it can panic instead, and does nothing else. *)
Theorem log_space_reserved `{BSL : !BlockStoreLaws S} (s0 s : lstate S) (R : list nat) :
  l_lock (lg s0) = false -> l_committing (lg s0) = 0 -> l_outstanding (lg s0) = 0 ->
  lh_n (lg s0) = 0 -> length (lh_block (lg s0)) = Z.to_nat LOGSIZE ->
  rtc log_step (s0, []) (s, R) ->
  0 <= lh_n (lg s) /\ lh_n (lg s) + Z.of_nat (sum_list R) <= LOGSIZE /\ l_outstanding (lg s) = Z.of_nat (length R) /\
  forall k b, (0 < sum_list R)%nat -> bs_ok (store s) -> holds (store s) !! k = Some b ->
    wpe (log_write k) s (fun _ s' => lh_n (lg s) <= lh_n (lg s') <= lh_n (lg s) + 1)
      (fun w s' => w = Panicked "too big a transaction" /\ s' = s /\ l_size (lg s) <= LOGSIZE).
Proof.
  intros Hlk Hc Ho Hn Ha Hr.
  assert (H : forall c c', rtc log_step c c' -> reserved c.1 c.2 -> reserved c'.1 c'.2).
  { intros c c' Hrtc. induction Hrtc; eauto using log_step_reserved. }
  apply H in Hr.
  - pose proof Hr as [? ? ? ? ? ? ?]. split_and!; [done..|]. intros k b HR Hok Hk. by eapply log_write_admitted.
  - split; simpl; try done; rewrite Hn; unfold LOGSIZE, MAXOPBLOCKS; simpl; lia.
Qed.

End reservation.
