(* ===== verification/Refstore.v ===== *)
(** A reference block store: the disk, the current contents, the buffers held
    and the blocks pinned, with no cache behind them. It satisfies the same
    interface as the buffer cache, and serves to run the log and the file
    system on concrete disks. *)

From S2P Require Import Prelude Block.

Open Scope Z_scope.

Record rstore := RStore {
  r_home : list block;
  r_content : list block;
  r_holds : gmap nat Z;
  r_pinned : gset Z;
  r_power : option nat
}.

Definition r_bread (dev b : Z) : M rstore nat := fun s =>
  let k := Z.to_nat b in
  if negb (dev =? ROOTDEV) || (b <? 0) || (Z.of_nat (length (r_home s)) <=? b) then
    Stop (Panicked "block out of range") s
  else match r_holds s !! k with
    | Some _ => Stop (Sleeping (ch_lock k)) s
    | None => Ret k (RStore (r_home s) (r_content s) (<[k := b]> (r_holds s)) (r_pinned s) (r_power s))
    end.

Definition held_at {A} (k : nat) (f : Z -> M rstore A) : M rstore A := fun s =>
  match r_holds s !! k with Some b => f b s | None => Stop (Panicked "buffer not held") s end.

Definition r_bdata (k : nat) : M rstore block := held_at k (fun b s =>
  match r_content s !! Z.to_nat b with Some d => Ret d s | None => Stop (Panicked "wild pointer") s end).

Definition r_bset (k : nat) (d : block) : M rstore unit := held_at k (fun b s =>
  Ret tt (RStore (r_home s) (<[Z.to_nat b := d]> (r_content s)) (r_holds s) (r_pinned s) (r_power s))).

Definition r_bpin (k : nat) : M rstore unit := held_at k (fun b s =>
  Ret tt (RStore (r_home s) (r_content s) (r_holds s) ({[ b ]} ∪ r_pinned s) (r_power s))).

Definition r_bwrite (k : nat) : M rstore unit := held_at k (fun b s =>
  match r_content s !! Z.to_nat b with
  | None => Stop (Panicked "wild pointer") s
  | Some d =>
      let done p := Ret tt (RStore (<[Z.to_nat b := d]> (r_home s)) (r_content s) (r_holds s)
                              (r_pinned s ∖ {[ b ]}) p) in
      match r_power s with
      | Some O => Stop Crashed s
      | Some (S p) => done (Some p)
      | None => done None
      end
  end).

(** A released block that is not pinned may be evicted: its unwritten changes
    are lost. *)
Definition r_brelse (k : nat) : M rstore unit := held_at k (fun b s =>
  let c := if decide (b ∈ r_pinned s) then r_content s
           else match r_home s !! Z.to_nat b with
                | Some d => <[Z.to_nat b := d]> (r_content s)
                | None => r_content s
                end in
  Ret tt (RStore (r_home s) c (delete k (r_holds s)) (r_pinned s) (r_power s))).

#[export] Instance ref_store : BlockStore rstore := {
  bread := r_bread; bwrite := r_bwrite; brelse := r_brelse; bdata := r_bdata; bset := r_bset;
  bno k := held_at k (fun b s => Ret b s); bpin := r_bpin
}.

Record rstore_ok (s : rstore) : Prop := {
  ro_length : length (r_content s) = length (r_home s);
  ro_content : Forall block_ok (r_content s);
  ro_home : Forall block_ok (r_home s);
  ro_holds : forall k b, r_holds s !! k = Some b -> k = Z.to_nat b /\ 0 <= b < Z.of_nat (length (r_home s));
  ro_clean : forall b, 0 <= b -> (forall k, r_holds s !! k <> Some b) -> b ∉ r_pinned s ->
    r_content s !! Z.to_nat b = r_home s !! Z.to_nat b
}.

Lemma held_at_run {A} k b (f : Z -> M rstore A) s : r_holds s !! k = Some b -> held_at k f s = f b s.
Proof. intros H. unfold held_at. by rewrite H. Qed.

Lemma not_held_iff (hs : gmap nat Z) n :
  n ∉ (map_to_set (fun _ b => b) hs : gset Z) <-> forall k, hs !! k <> Some n.
Proof. rewrite elem_of_map_to_set. naive_solver. Qed.

Lemma rstore_content_at s k b :
  rstore_ok s -> r_holds s !! k = Some b -> exists d, r_content s !! Z.to_nat b = Some d.
Proof. intros [Hl _ _ Hh _] Hb. destruct (Hh _ _ Hb). apply lookup_lt_is_Some_2. lia. Qed.

Lemma r_bread_law s b :
  rstore_ok s -> 0 <= b < Z.of_nat (length (r_home s)) -> (forall k, r_holds s !! k <> Some b) ->
  wp (r_bread ROOTDEV b) s (fun k s' => rstore_ok s' /\ r_holds s !! k = None /\
    r_holds s' = <[k := b]> (r_holds s) /\ r_home s' = r_home s /\ r_content s' = r_content s /\
    r_pinned s' = r_pinned s).
Proof.
  intros [Hl Hc Hh Hho Hcl] Hb Hn. unfold wp, wpe, r_bread.
  destruct (negb _ || _ || _) eqn:Hg; [unfold ROOTDEV in Hg; lia|].
  destruct (r_holds s !! Z.to_nat b) as [b'|] eqn:Hk.
  { destruct (Hho _ _ Hk). assert (b = b') as <- by lia. by destruct (Hn (Z.to_nat b)). }
  split_and!; try done. split; simpl; try done.
  - intros k c [(<- & <-)|(? & Hkc)]%lookup_insert_Some; [lia|by apply Hho].
  - intros c Hc0 Hnc Hp. apply Hcl; try done. intros k Hkc. apply (Hnc k).
    rewrite lookup_insert_ne; [done|]. intros <-. congruence.
Qed.

Lemma r_bset_law s k b d :
  rstore_ok s -> r_holds s !! k = Some b -> block_ok d ->
  wp (r_bset k d) s (fun _ s' => rstore_ok s' /\ r_holds s' = r_holds s /\ r_home s' = r_home s /\
    r_pinned s' = r_pinned s /\ r_content s' = <[Z.to_nat b := d]> (r_content s)).
Proof.
  intros [Hl Hc Hh Hho Hcl] Hk Hd. unfold wp, wpe, r_bset. rewrite (held_at_run k b) by done.
  split_and!; try done. destruct (Hho _ _ Hk). split; simpl; try done.
  - by rewrite length_insert.
  - by apply Forall_insert.
  - intros c Hc0 Hnc Hp. rewrite list_lookup_insert_ne; [by apply Hcl|]. intros E.
    apply (Hnc k). rewrite Hk. f_equal. lia.
Qed.

Lemma r_bwrite_law s k b d :
  rstore_ok s -> r_holds s !! k = Some b -> r_content s !! Z.to_nat b = Some d ->
  wpe (r_bwrite k) s (fun _ s' => rstore_ok s' /\ r_holds s' = r_holds s /\
      r_home s' = <[Z.to_nat b := d]> (r_home s) /\ r_content s' = r_content s /\
      r_pinned s' = r_pinned s ∖ {[ b ]})
    (fun w s' => w = Crashed /\ r_home s' = r_home s).
Proof.
  intros [Hl Hc Hh Hho Hcl] Hk Hd. destruct (Hho _ _ Hk).
  assert (Hok : forall p, rstore_ok (RStore (<[Z.to_nat b := d]> (r_home s)) (r_content s) (r_holds s)
                              (r_pinned s ∖ {[ b ]}) p)).
  { intros p. split; simpl; rewrite ?length_insert; try done.
    - apply Forall_insert; [done|]. rewrite Forall_forall in Hc. by eapply Hc, list_elem_of_lookup_2.
    - intros c H0' Hnc Hp. destruct (decide (c = b)) as [->|Hne].
      + rewrite list_lookup_insert_eq by lia. done.
      + rewrite list_lookup_insert_ne by lia. apply Hcl; [done..|set_solver]. }
  unfold wpe, r_bwrite. rewrite (held_at_run k b), Hd by done.
  destruct (r_power s) as [[|p]|]; [done|..]; by split_and!.
Qed.

Lemma r_brelse_law s k b :
  rstore_ok s -> r_holds s !! k = Some b ->
  b ∈ r_pinned s \/ r_content s !! Z.to_nat b = r_home s !! Z.to_nat b ->
  wp (r_brelse k) s (fun _ s' => rstore_ok s' /\ r_holds s' = delete k (r_holds s) /\
    r_home s' = r_home s /\ r_content s' = r_content s /\ r_pinned s' = r_pinned s).
Proof.
  intros [Hl Hc Hh Hho Hcl] Hk Hcase. destruct (Hho _ _ Hk) as [Hkb ?].
  unfold wp, wpe, r_brelse. rewrite (held_at_run k b) by done.
  destruct (lookup_lt_is_Some_2 (r_home s) (Z.to_nat b)) as [d Hd]; [lia|]. rewrite Hd in *.
  assert (Hc' : (if decide (b ∈ r_pinned s) then r_content s else <[Z.to_nat b := d]> (r_content s)) = r_content s).
  { case_decide; [done|]. apply list_insert_id. naive_solver. }
  rewrite Hc'. split_and!; try done. split; simpl; try done.
  - intros j c Hj. apply lookup_delete_Some in Hj as [_ Hj]. by apply Hho.
  - intros c Hc0 Hnc Hp. destruct (decide (c = b)) as [->|Hne]; [rewrite Hd; naive_solver|].
    apply Hcl; try done. intros j Hj. apply (Hnc j). apply lookup_delete_Some. split; [|done].
    intros <-. congruence.
Qed.

#[export, refine] Instance ref_store_laws : BlockStoreLaws rstore := {
  bs_ok := rstore_ok; home := r_home; content := r_content; holds := r_holds; pinned := r_pinned;
  capacity := Z.to_nat NBUF; reboot d p := RStore d d ∅ ∅ p; steady s := r_power s = None
}.
Proof.
  - intros s []. done.
  - intros s []. done.
  - intros s b [] Hb. rewrite not_held_iff. auto.
  - intros d n Hd. split_and!; try done.
  - done.
  - intros dev b s Hs. unfold wpe, bread; simpl. unfold r_bread. repeat case_match; simplify_eq; by simpl.
  - intros k s Hs. unfold wpe, bwrite; simpl. unfold r_bwrite, held_at. rewrite Hs. repeat case_match; simplify_eq; by simpl.
  - intros k s Hs. unfold wpe, brelse; simpl. unfold r_brelse, held_at. repeat case_match; simplify_eq; by simpl.
  - intros k s Hs. unfold wpe, bdata; simpl. unfold r_bdata, held_at. repeat case_match; simplify_eq; by simpl.
  - intros k d s Hs. unfold wpe, bset; simpl. unfold r_bset, held_at. repeat case_match; simplify_eq; by simpl.
  - intros k s Hs. unfold wpe, bno; simpl. unfold held_at. repeat case_match; simplify_eq; by simpl.
  - intros k s Hs. unfold wpe, bpin; simpl. unfold r_bpin, held_at. repeat case_match; simplify_eq; by simpl.
  - intros s b Hok Hb. rewrite not_held_iff. intros Hn _. by apply r_bread_law.
  - intros s k b Hok Hk. destruct (rstore_content_at s k b Hok Hk) as [d Hd]. exists d.
    split; [done|]. unfold bdata; simpl. unfold r_bdata. by rewrite (held_at_run k b), Hd.
  - intros s k b Hok Hk. unfold bno; simpl. by rewrite (held_at_run k b).
  - apply r_bset_law.
  - intros s k b Hok Hk. unfold wp, wpe, bpin; simpl. unfold r_bpin. rewrite (held_at_run k b) by done.
    split_and!; try done. destruct Hok as [? ? ? ? Hcl]. split; simpl; try done.
    intros c Hc0 Hn Hp. apply Hcl; [done..|set_solver].
  - apply r_bwrite_law.
  - apply r_brelse_law.
Defined.
