(* ===== verification/Journal.v ===== *)
(** The log on concrete disks: runs of the log over the reference store and
    over the buffer cache, and the limit of the space reservation. *)

From S2P Require Import Prelude Block Sleeplock Bio Log Refstore.

Open Scope Z_scope.

(** A disk of 12 blocks whose log is blocks 2 to 5. *)
Definition demo_sb : block := put32 (put32 zero_block 12 4) 16 2.
Definition demo_disk : list block := <[1%nat := demo_sb]> (replicate 12 zero_block).
Definition ones : block := replicate (Z.to_nat BSIZE) 1.

(** Block 9 is logged, and power fails after two more disk writes. *)
Definition demo_log : log := Log false 2 4 0 0 ROOTDEV 1 (9 :: replicate 29 0) 0.
Definition demo_state : lstate rstore :=
  LState (RStore demo_disk (<[9%nat := ones]> demo_disk) ∅ {[ 9 ]} (Some 2%nat)) demo_log.

Lemma demo_disk_ok : Forall block_ok demo_disk.
Proof.
  apply Forall_insert; [by apply Forall_replicate, zero_block_ok|].
  repeat apply put32_ok; try apply zero_block_ok; unfold BSIZE; lia.
Qed.

Lemma ones_ok : block_ok ones.
Proof. split; [apply length_replicate|]. apply Forall_replicate. unfold in_u8. lia. Qed.

Lemma demo_views : views (store demo_state) demo_disk (<[9%nat := ones]> demo_disk) ∅ (list_to_set [9]).
Proof.
  split; [|by split_and!; [..|apply set_eq; set_solver]].
  split; cbn [demo_state store r_content r_home r_holds r_pinned].
  - vm_compute. reflexivity.
  - apply Forall_insert; [apply demo_disk_ok|apply ones_ok].
  - apply demo_disk_ok.
  - done.
  - intros b Hb _ Hp. apply list_lookup_insert_ne. set_solver by lia.
Qed.

Lemma commit_atomic_witness :
  wpe commit demo_state (fun _ s' => settled 2 4 (<[9%nat := ones]> demo_disk) s')
    (fun w s' => w = Crashed /\ ~ lsteady demo_state /\
       exists D, (D = demo_disk \/ D = <[9%nat := ones]> demo_disk) /\
       forall d l0, rtc boot_crash (home (store s')) d -> length (lh_block l0) = Z.to_nat LOGSIZE ->
         wp (initlog ROOTDEV) (LState (reboot d None) l0) (fun _ s'' => settled 2 4 D s'')).
Proof.
  apply (commit_atomic demo_state demo_disk (<[9%nat := ones]> demo_disk) 2 4 [9] zero_block).
  - split; [done|done|done|vm_compute; lia|reflexivity].
  - split; [done|done|done|apply NoDup_singleton| |simpl; lia].
    constructor; [|constructor]. vm_compute. split; [by split|]. intros [_ H]. discriminate.
  - apply demo_views.
  - vm_compute. lia.
  - vm_compute. lia.
  - vm_compute. reflexivity.
  - vm_compute. reflexivity.
  - lia.
  - exists demo_sb. vm_compute. repeat split.
Defined.

(** ** Running file system calls against the log, over the buffer cache *)

(** The store of process 1. *)
#[local] Instance kernel_store : BlockStore bcache := bio_store 1.

(** A call begins; or call [i] modifies block [b]: it reads the block, logs it
    as a new block of the transaction, and releases it. *)
Inductive action := Begins | Modifies (i : nat) (b : Z).

Definition run_action (a : action) (c : lstate bcache * list nat) : option (lstate bcache * list nat) :=
  match a with
  | Begins => match begin_op c.1 with Ret _ s' => Some (s', Z.to_nat MAXOPBLOCKS :: c.2) | Stop _ _ => None end
  | Modifies i b =>
      match c.2 !! i, Block.bread ROOTDEV b (store c.1) with
      | Some (S r), Ret k t =>
          let s1 := LState t (lg c.1) in
          match log_write k s1 with
          | Ret _ s2 =>
              if decide (lh_n (lg s2) = lh_n (lg s1) + 1) then
                match Block.brelse k (store s2) with
                | Ret _ t3 => Some (LState t3 (lg s2), <[i := r]> c.2)
                | Stop _ _ => None
                end
              else None
          | Stop _ _ => None
          end
      | _, _ => None
      end
  end.

Definition run_actions (l : list action) (c : lstate bcache * list nat) : option (lstate bcache * list nat) :=
  foldl (fun oc a => oc ≫= run_action a) (Some c) l.

Lemma run_action_sound a c c' : run_action a c = Some c' -> rtc log_step c c'.
Proof.
  destruct c as [s R]. destruct a as [|i b]; cbn [run_action fst snd].
  - destruct (begin_op s) as [[] s'|] eqn:Hb; [|done]. intros [= <-]. by apply rtc_once, step_begin.
  - destruct (R !! i) as [[|r]|] eqn:Hi; [done| |done].
    destruct (Block.bread ROOTDEV b (store s)) as [k t|] eqn:Hk; [|done].
    destruct (log_write k (LState t (lg s))) as [[] s2|] eqn:Hw; [|done].
    case_decide as Hn; [|done]. destruct (Block.brelse k (store s2)) as [[] t3|] eqn:Hr; [|done].
    intros [= <-]. eapply rtc_l; [apply (step_store s R t)|].
    eapply rtc_l; [by apply (step_add _ R i r k s2)|]. apply rtc_once, step_store.
Qed.

Lemma run_actions_stuck l : foldl (fun oc a => oc ≫= run_action a) None l = None.
Proof. by induction l. Qed.

Lemma run_actions_sound l c c' : run_actions l c = Some c' -> rtc log_step c c'.
Proof.
  revert c; induction l as [|a l IH]; intros c; unfold run_actions; simpl; [by intros [= <-]|].
  destruct (run_action a c) as [c1|] eqn:Ha.
  - intros H. etransitivity; [by eapply run_action_sound|]. by apply IH.
  - by rewrite run_actions_stuck.
Qed.

(** The machine after boot, with a log of LOGSIZE blocks as mkfs makes it. *)
Definition fresh_log : lstate bcache :=
  LState (boot_bcache (replicate 140 zero_block) None)
    (Log false 2 LOGSIZE 0 0 ROOTDEV 0 (replicate (Z.to_nat LOGSIZE) 0) 0).

(** Three calls begin; two modify ten blocks each and the third nine. *)
Definition busy_calls : list action :=
  [Begins; Begins; Begins] ++ ((fun i => Modifies (i `div` 10)%nat (100 + Z.of_nat i)) <$> seq 0 29).

(** Calls running, blocks still promised to them, blocks logged, log size. *)
Definition summary (o : option (lstate bcache * list nat)) : option (nat * nat * Z * Z) :=
  match o with
  | Some (s, R) => Some (length R, sum_list R, lh_n (lg s), l_size (lg s))
  | None => None
  end.

Lemma summary_Some o a b c d :
  summary o = Some (a, b, c, d) ->
  exists s R, o = Some (s, R) /\ length R = a /\ sum_list R = b /\ lh_n (lg s) = c /\ l_size (lg s) = d.
Proof. destruct o as [[s R]|]; [|done]. intros [= <- <- <- <-]. eauto 8. Qed.

Lemma busy_summary : summary (run_actions busy_calls (fresh_log, [])) = Some (3%nat, 1%nat, 29, 30).
Proof. vm_compute. reflexivity. Qed.

Lemma quiet_summary :
  summary (run_actions (take 8 busy_calls) (fresh_log, [])) = Some (3%nat, 25%nat, 5, 30).
Proof. vm_compute. reflexivity. Qed.

(** C21: the reservation admits one block too many. The log of LOGSIZE blocks
    has a header and room for LOGSIZE - 1 blocks, but begin_op hands out
    LOGSIZE: after boot there is a run in which three calls are admitted, no
    call has logged more than MAXOPBLOCKS blocks, one still has a block left,
    and log_write panics whatever block it is given. *)
Theorem log_reservation_exceeds_log :
  exists s R, rtc log_step (fresh_log, []) (s, R) /\ length R = 3%nat /\ sum_list R = 1%nat /\
    forall k, log_write k s = Stop (Panicked "too big a transaction") s.
Proof.
  destruct (summary_Some _ _ _ _ _ busy_summary) as (s & R & Hrun & Hl & Hs & Hn & Hsz).
  exists s, R. split; [exact (run_actions_sound _ _ _ Hrun)|]. split; [exact Hl|]. split; [exact Hs|].
  intros k. unfold log_write. mred. rewrite Hn, Hsz. reflexivity.
Qed.

(** Five blocks of a call that stays within its budget; 25 more can be added. *)
Lemma log_space_reserved_witness :
  exists s R, rtc log_step (fresh_log, []) (s, R) /\ sum_list R = 25%nat /\
    (0 <= lh_n (lg s) /\ lh_n (lg s) + Z.of_nat (sum_list R) <= LOGSIZE /\ l_outstanding (lg s) = Z.of_nat (length R) /\
     forall k b, (0 < sum_list R)%nat -> bs_ok (store s) -> holds (store s) !! k = Some b ->
       wpe (log_write k) s (fun _ s' => lh_n (lg s) <= lh_n (lg s') <= lh_n (lg s) + 1)
         (fun w s' => w = Panicked "too big a transaction" /\ s' = s /\ l_size (lg s) <= LOGSIZE)).
Proof.
  destruct (summary_Some _ _ _ _ _ quiet_summary) as (s & R & Hrun & _ & Hsum & _).
  pose proof (run_actions_sound _ _ _ Hrun) as Hr. exists s, R. split; [exact Hr|]. split; [exact Hsum|].
  apply (log_space_reserved fresh_log s R); [reflexivity..|exact Hr].
Defined.
