(* ===== verification/Tx.v ===== *)
(** What the file system relies on: buffers are obtained and released, and
    within a transaction, between begin_op and end_op, changed and logged. The
    interface is implemented by the log over any block store.

    The laws speak of the current contents of the disk, the buffers that are
    held, the blocks that have been changed but not yet logged, the blocks
    that have been logged and how many there may be. *)

From S2P Require Import Prelude Block Log.

Open Scope Z_scope.

Class TxStore (S : Type) := {
  tx_bread : Z -> Z -> M S nat;
  tx_data : nat -> M S block;
  tx_set : nat -> block -> M S unit;
  tx_log_write : nat -> M S unit;
  tx_brelse : nat -> M S unit
}.

(** Up to [max_held] buffers may be held at a time. *)
Definition max_held : nat := 3.

Class TxStoreLaws (S : Type) `{TxStore S} := {
  tx_ok : S -> Prop;
  tx_disk : S -> list block;
  tx_holds : S -> gmap nat Z;
  tx_dirty : S -> gset Z;
  tx_logged : S -> gset Z;
  tx_limit : S -> nat;                (* 0 outside of transactions *)
  tx_first : Z;                       (* the first block that may be logged *)

  tx_blocks s : tx_ok s -> Forall block_ok (tx_disk s) /\ Z.of_nat (length (tx_disk s)) < 2 ^ 31;

  tx_bread_spec s b : tx_ok s -> 0 <= b < Z.of_nat (length (tx_disk s)) ->
    (forall k, tx_holds s !! k <> Some b) -> (size (tx_holds s) < max_held)%nat ->
    wp (tx_bread ROOTDEV b) s (fun k s' => tx_ok s' /\ tx_holds s !! k = None /\
      tx_holds s' = <[k := b]> (tx_holds s) /\ tx_disk s' = tx_disk s /\ tx_dirty s' ⊆ tx_dirty s /\
      tx_logged s' = tx_logged s /\ tx_limit s' = tx_limit s);

  tx_data_spec s k b : tx_ok s -> tx_holds s !! k = Some b ->
    exists d, tx_disk s !! Z.to_nat b = Some d /\ tx_data k s = Ret d s;

  tx_set_spec s k b d : tx_ok s -> tx_holds s !! k = Some b -> block_ok d ->
    wp (tx_set k d) s (fun _ s' => tx_ok s' /\ tx_holds s' = tx_holds s /\
      tx_disk s' = <[Z.to_nat b := d]> (tx_disk s) /\ tx_dirty s' ⊆ {[b]} ∪ tx_dirty s /\
      tx_logged s' = tx_logged s /\ tx_limit s' = tx_limit s);

  tx_log_write_spec s k b : tx_ok s -> tx_holds s !! k = Some b -> tx_first <= b ->
    (size (tx_logged s) < tx_limit s)%nat ->
    wp (tx_log_write k) s (fun _ s' => tx_ok s' /\ tx_holds s' = tx_holds s /\ tx_disk s' = tx_disk s /\
      tx_dirty s' ⊆ tx_dirty s ∖ {[b]} /\ tx_logged s' = {[b]} ∪ tx_logged s /\ tx_limit s' = tx_limit s);

  tx_brelse_spec s k b : tx_ok s -> tx_holds s !! k = Some b -> b ∉ tx_dirty s ->
    wp (tx_brelse k) s (fun _ s' => tx_ok s' /\ tx_holds s' = delete k (tx_holds s) /\ tx_disk s' = tx_disk s /\
      tx_dirty s' ⊆ tx_dirty s /\ tx_logged s' = tx_logged s /\ tx_limit s' = tx_limit s)
}.

(** ** Sizes of sets *)

Lemma size_union_le (X Y : gset Z) : (size (X ∪ Y) <= size X + size Y)%nat.
Proof. rewrite size_union_alt. pose proof (subseteq_size (Y ∖ X) Y ltac:(set_solver)). lia. Qed.

Lemma size_cons (x : Z) (X : gset Z) : (size ({[x]} ∪ X) <= size X + 1)%nat.
Proof. rewrite size_union_le, size_singleton. lia. Qed.

(** ** The log implements it *)

Section log_tx.
Context {S : Type} `{BS : BlockStore S} `{BSL : !BlockStoreLaws S}.
Context (first : Z).

#[export] Instance log_tx : TxStore (lstate S) := {
  tx_bread dev b := st (bread dev b);
  tx_data k := st (bdata k);
  tx_set k d := st (bset k d);
  tx_log_write k := log_write k;
  tx_brelse k := st (brelse k)
}.

(** The blocks [bs] are logged; the log area ends before block [first]. *)
Record in_tx (s : lstate S) (start size : nat) (bs : list Z) : Prop := {
  it_geom : geom (lg s) start size (length (home (store s)));
  it_lists : lists (lg s) bs start size (length (home (store s)));
  it_end : Z.of_nat (start + size) = first;
  it_two : 2 <= first;
  it_lock : l_lock (lg s) = false;
  it_store : bs_ok (store s);
  it_pinned : pinned (store s) = list_to_set bs;
  it_fit : (length bs + max_held <= capacity)%nat;
  it_held k b : holds (store s) !! k = Some b -> 0 <= b
}.

Definition lt_ok (s : lstate S) : Prop := exists start size bs, in_tx s start size bs.

Definition lt_dirty (s : lstate S) : gset Z :=
  filter (fun b => b ∉ pinned (store s) /\ content (store s) !! Z.to_nat b <> home (store s) !! Z.to_nat b)
    (held_blocks (store s)).

Definition lt_limit (s : lstate S) : nat :=
  if l_outstanding (lg s) <? 1 then 0%nat
  else Z.to_nat (Z.min (Z.min (l_size (lg s) - 1) LOGSIZE) (Z.of_nat capacity - Z.of_nat max_held)).

Lemma in_tx_views s start size bs :
  in_tx s start size bs -> views (store s) (home (store s)) (content (store s)) (holds (store s)) (list_to_set bs).
Proof. intros H. split; [apply H|]. split_and!; [done..|apply H]. Qed.

(** Only the store has changed. *)
Lemma in_tx_store s t start size bs :
  in_tx s start size bs -> bs_ok t -> home t = home (store s) -> pinned t = list_to_set bs ->
  (forall k b, holds t !! k = Some b -> 0 <= b) -> in_tx (LState t (lg s)) start size bs.
Proof. intros [H1 H2 H3 H4 H5 H7 H8 H9 H10] Ht Hh Hp Hk. split; cbn [store lg]; rewrite ?Hh, ?Hp; done. Qed.

Lemma held_size (t : S) : (size (held_blocks t) <= size (holds t))%nat.
Proof.
  unfold held_blocks. generalize (holds t). intros m. induction m as [|k b m Hk IH] using map_ind.
  - by rewrite holders_empty, size_empty.
  - rewrite map_size_insert_None by done.
    trans (size ({[b]} ∪ (map_to_set (fun _ b => b) m : gset Z))); [|rewrite size_cons; lia].
    apply subseteq_size. intros x. rewrite elem_of_union, !elem_of_holders, elem_of_singleton.
    intros [j Hj]. apply lookup_insert_Some in Hj as [[_ <-]|[_ Hj]]; eauto.
Qed.

Lemma lt_bread s b :
  lt_ok s -> 0 <= b < Z.of_nat (length (content (store s))) -> (forall k, holds (store s) !! k <> Some b) ->
  (size (holds (store s)) < max_held)%nat ->
  wp (st (bread ROOTDEV b)) s (fun k s' => lt_ok s' /\ holds (store s) !! k = None /\
    holds (store s') = <[k := b]> (holds (store s)) /\ content (store s') = content (store s) /\
    lt_dirty s' ⊆ lt_dirty s /\ pinned (store s') = pinned (store s) /\ lt_limit s' = lt_limit s).
Proof.
  intros (start & sz & bs & Hin) Hb Hnh Hsz. pose proof (in_tx_views _ _ _ _ Hin) as Hv.
  rewrite (views_length _ _ _ _ _ Hv) in Hb. apply wpe_st. eapply wpe_bread; [exact Hv|done|done| |].
  - right. pose proof (held_size (store s)) as Hhs. unfold held_blocks in Hhs. pose proof (it_fit _ _ _ _ Hin) as Hf.
    assert (size (list_to_set bs : gset Z) = length bs) as Hp by (apply size_list_to_set, (it_lists _ _ _ _ Hin)).
    match goal with |- (size (?p ∪ ?h) < _)%nat => assert (size (p ∪ h) <= size p + size h)%nat end.
    { apply size_union_le. }
    lia.
  - intros k t' Hk (Hok' & Hh' & Hc' & Hho' & Hp'). split_and!; try done.
    + exists start, sz, bs. apply in_tx_store; try done. rewrite Hho'. intros j c [[_ <-]|[_ Hj]]%lookup_insert_Some; [lia|].
      by eapply it_held.
    + intros x. unfold lt_dirty. cbn [store]. rewrite !elem_of_filter, Hp', Hc', Hh', <- (it_pinned _ _ _ _ Hin).
      unfold held_blocks. rewrite Hho', !elem_of_holders. intros [[Hxp Hxc] [j Hj]]. split; [done|].
      apply lookup_insert_Some in Hj as [[<- <-]|[_ Hj]]; [|eauto].
      destruct Hxc. apply bs_clean; [apply Hin|lia| |done]. unfold held_blocks. rewrite elem_of_holders. intros [j Hj]. by apply (Hnh j).
    + cbn [store]. by rewrite Hp', (it_pinned _ _ _ _ Hin).
Qed.

Lemma lt_set s k b d :
  lt_ok s -> holds (store s) !! k = Some b -> block_ok d ->
  wp (st (bset k d)) s (fun _ s' => lt_ok s' /\ holds (store s') = holds (store s) /\
    content (store s') = <[Z.to_nat b := d]> (content (store s)) /\ lt_dirty s' ⊆ {[b]} ∪ lt_dirty s /\
    pinned (store s') = pinned (store s) /\ lt_limit s' = lt_limit s).
Proof.
  intros (start & sz & bs & Hin) Hk Hd. pose proof (in_tx_views _ _ _ _ Hin) as Hv.
  apply wpe_st. eapply wpe_bset; [exact Hv|done|done|].
  intros t' (Hok' & Hh' & Hc' & Hho' & Hp'). split_and!; try done.
  - exists start, sz, bs. apply in_tx_store; try done. rewrite Hho'. apply (it_held _ _ _ _ Hin).
  - intros x. unfold lt_dirty. cbn [store]. rewrite elem_of_union, elem_of_singleton, !elem_of_filter, Hp', Hc', Hh', <- (it_pinned _ _ _ _ Hin).
    unfold held_blocks. rewrite Hho', !elem_of_holders. intros [[Hxp Hxc] [j Hj]].
    destruct (decide (x = b)) as [->|Hne]; [by left|right]. split; [|eauto]. split; [done|].
    rewrite list_lookup_insert_ne in Hxc; [done|].
    pose proof (it_held _ _ _ _ Hin _ _ Hk). pose proof (it_held _ _ _ _ Hin _ _ Hj). lia.
  - cbn [store]. by rewrite Hp', (it_pinned _ _ _ _ Hin).
Qed.

Lemma lt_brelse s k b :
  lt_ok s -> holds (store s) !! k = Some b -> b ∉ lt_dirty s ->
  wp (st (brelse k)) s (fun _ s' => lt_ok s' /\ holds (store s') = delete k (holds (store s)) /\
    content (store s') = content (store s) /\ lt_dirty s' ⊆ lt_dirty s /\ pinned (store s') = pinned (store s) /\ lt_limit s' = lt_limit s).
Proof.
  intros (start & sz & bs & Hin) Hk Hd. pose proof (in_tx_views _ _ _ _ Hin) as Hv.
  apply wpe_st. eapply wpe_brelse; [exact Hv|done| |].
  - destruct (decide (b ∈ (list_to_set bs : gset Z))); [by left|right].
    destruct (decide (content (store s) !! Z.to_nat b = home (store s) !! Z.to_nat b)); [done|].
    destruct Hd. unfold lt_dirty. rewrite elem_of_filter, (it_pinned _ _ _ _ Hin). split; [done|].
    unfold held_blocks. rewrite elem_of_holders. eauto.
  - intros t' (Hok' & Hh' & Hc' & Hho' & Hp'). split_and!; try done.
    + exists start, sz, bs. apply in_tx_store; try done. rewrite Hho'. intros j c [_ Hj]%lookup_delete_Some.
      by eapply it_held.
    + intros x. unfold lt_dirty. cbn [store]. rewrite !elem_of_filter, Hp', Hc', Hh', <- (it_pinned _ _ _ _ Hin).
      unfold held_blocks. rewrite Hho', !elem_of_holders. intros [? [j [_ Hj]%lookup_delete_Some]]. eauto.
    + cbn [store]. by rewrite Hp', (it_pinned _ _ _ _ Hin).
Qed.

(** The blocks the header lists once [b] is logged. *)
Definition logged (bs : list Z) (b : Z) : list Z := if decide (b ∈ bs) then bs else bs ++ [b].

Lemma log_slot_lists (l : log) bs start size len b :
  lists l bs start size len -> Z.of_nat len < 2 ^ 31 -> loggable start size len b -> lh_n l < LOGSIZE ->
  (length (logged bs b) < size)%nat ->
  lists (set_lh (if decide (Z.of_nat (log_slot l b) = lh_n l) then lh_n l + 1 else lh_n l)
           (<[log_slot l b := i32 b]> (lh_block l)) l) (logged bs b) start size len.
Proof.
  intros [Hn Hbs Hl Hnd Hok Hr] Hlen Hb Hlt Hroom.
  assert (Hu : forall x, loggable start size len x -> u32 x = x /\ i32 x = x).
  { intros x [Hx _]. split; [apply u32_small; unfold in_u32|apply i32_small; unfold in_i32]; lia. }
  rewrite (proj2 (Hu b Hb)). unfold log_slot. rewrite Hn, Nat2Z.id, Hbs.
  destruct (find_index (fun x => u32 x =? b) bs) as [i|] eqn:Hf.
  - apply find_index_Some in Hf as [(x & Hx & Hxb%Z.eqb_eq) _]. pose proof (lookup_lt_Some _ _ _ Hx).
    assert (x = b) as -> by (rewrite <- Hxb; symmetry; apply Hu; by eapply (Forall_lookup_1 _ _ _ _ Hok)).
    assert (logged bs b = bs) as -> by (apply decide_True; by eapply list_elem_of_lookup_2). rewrite decide_False by lia.
    split; cbn [lh_n lh_block set_lh]; rewrite ?length_insert; try done.
    rewrite list_insert_id; [done|]. rewrite <- Hbs in Hx. by rewrite lookup_take_lt in Hx by lia.
  - assert (Hnb : b ∉ bs).
    { intros [i Hi]%list_elem_of_lookup_1. rewrite find_index_None in Hf. specialize (Hf i b Hi).
      apply Z.eqb_neq in Hf. apply Hf. by apply Hu. }
    assert (logged bs b = bs ++ [b]) as E by (by apply decide_False). rewrite E in *. rewrite decide_True by done. rewrite length_app in *. cbn [length] in *.
    split; cbn [lh_n lh_block set_lh]; rewrite ?length_insert, ?length_app; cbn [length]; try done; try lia.
    + rewrite Nat.add_1_r, (take_S_r _ _ b) by (apply list_lookup_insert_eq; lia).
      by rewrite take_insert_ge, Hbs by lia.
    + apply NoDup_app. split_and!; [done|set_solver|apply NoDup_singleton].
    + apply Forall_app. split; [done|by constructor].
Qed.

Lemma logged_set bs b : (list_to_set (logged bs b) : gset Z) = {[b]} ∪ list_to_set bs.
Proof. unfold logged. case_decide; set_solver. Qed.

Lemma logged_length bs b : (length bs <= length (logged bs b) <= length bs + 1)%nat.
Proof. unfold logged. case_decide; rewrite ?length_app; cbn [length]; lia. Qed.

Lemma lt_log_write s k b :
  lt_ok s -> holds (store s) !! k = Some b -> first <= b -> (size (pinned (store s)) < lt_limit s)%nat ->
  wp (log_write k) s (fun _ s' => lt_ok s' /\ holds (store s') = holds (store s) /\
    content (store s') = content (store s) /\ lt_dirty s' ⊆ lt_dirty s ∖ {[b]} /\
    pinned (store s') = {[b]} ∪ pinned (store s) /\ lt_limit s' = lt_limit s).
Proof.
  intros (start & sz & bs & Hin) Hk Hb Hroom. pose proof (in_tx_views _ _ _ _ Hin) as Hv.
  pose proof Hin as [Hg Hls He H2 Hlk Hst Hp Hf Hho]. unfold lt_limit in Hroom.
  destruct (Z.ltb_spec (l_outstanding (lg s)) 1) as [Hop|Hop]; [lia|]. pose proof (logged_length bs b) as Hll.
  rewrite Hp, size_list_to_set in Hroom by apply Hls.
  assert (Hbr : b < Z.of_nat (length (home (store s)))).
  { destruct (bdata_spec _ _ _ Hst Hk) as (d & Hd & _). apply lookup_lt_Some in Hd. rewrite (bs_length _ Hst) in Hd. lia. }
  assert (Hloc : loggable start sz (length (home (store s))) b) by (split; lia).
  pose proof (log_slot_lists _ _ _ _ _ b Hls (g_len _ _ _ _ Hg) Hloc
    ltac:(rewrite (li_n _ _ _ _ _ Hls); lia)) as Hls'.
  rewrite (g_size _ _ _ _ Hg), (li_n _ _ _ _ _ Hls) in *. specialize (Hls' ltac:(lia)).
  unfold log_write. apply wp_bind, wpe_gets. rewrite (g_size _ _ _ _ Hg), (li_n _ _ _ _ _ Hls).
  rewrite (proj2 (Z.leb_gt _ _)), (proj2 (Z.leb_gt _ _)), (proj2 (Z.ltb_ge _ _)) by lia. cbn [orb].
  unfold acquire_log, release_log. apply wp_bind, wp_bind, wpe_gets. rewrite Hlk. apply wpe_modify. apply wp_bind, wpe_st.
  cbn [store lg]. eapply wp_intro; [by apply bno_spec|]. apply wp_bind, wpe_gets. cbn [lg]. apply wp_bind.
  rewrite decide_True by (apply log_slot_bound; cbn [lh_block lh_n set_l_lock]; rewrite ?(li_n _ _ _ _ _ Hls); [apply Hls|lia]). apply wpe_modify.
  cbn [store lg]. apply wp_bind, wpe_st. cbn [store lg]. eapply wpe_bpin; [exact Hv|exact Hk|].
  intros t' (Hok' & Hh' & Hc' & Hho' & Hp'). apply wp_bind, wpe_gets. cbn [lg l_lock set_lh set_l_lock]. apply wpe_modify.
  cbn [store lg]. match goal with |- lt_ok (LState t' ?x) /\ _ => set (l' := x) end.
  assert (Hg' : geom l' start sz (length (home (store s)))) by (destruct Hg; by split).
  rewrite <- (li_n _ _ _ _ _ Hls) in Hls'.
  assert (Hl' : lists l' (logged bs b) start sz (length (home (store s)))) by (destruct Hls'; by split).
  assert (Hlk' : l_lock l' = false /\ l_outstanding l' = l_outstanding (lg s)) by done.
  clearbody l'. destruct Hlk' as [Hlk' Ho']. split_and!; [|done|done| | |].
  - exists start, sz, (logged bs b). split; cbn [store lg]; rewrite ?Hh', ?Ho', ?Hho', ?logged_set; try done. lia.
  - intros x. unfold lt_dirty. cbn [store]. rewrite elem_of_difference, !elem_of_filter, Hp', Hc', Hh', Hp.
    unfold held_blocks. rewrite Hho'. set_solver.
  - by rewrite Hp', Hp.
  - unfold lt_limit. cbn [lg]. by rewrite (g_size _ _ _ _ Hg), (g_size _ _ _ _ Hg'), Ho'.
Qed.

#[export, refine] Instance log_tx_laws : TxStoreLaws (lstate S) := {
  tx_ok := lt_ok; tx_disk s := content (store s); tx_holds s := holds (store s); tx_dirty := lt_dirty;
  tx_logged s := pinned (store s); tx_limit := lt_limit; tx_first := first
}.
Proof.
  - intros s (start & sz & bs & Hin). split; [apply bs_blocks, Hin|].
    rewrite (bs_length _ (it_store _ _ _ _ Hin)). apply (it_geom _ _ _ _ Hin).
  - apply lt_bread.
  - intros s k b (start & sz & bs & Hin) Hk. destruct (bdata_spec _ _ _ (it_store _ _ _ _ Hin) Hk) as (d & Hd & Hr).
    exists d. split; [done|]. unfold tx_data; cbn. unfold st, zoom. cbn [view update]. rewrite Hr. by destruct s.
  - apply lt_set.
  - apply lt_log_write.
  - apply lt_brelse.
Defined.

End log_tx.

(** ** Rules *)

Section rules.
Context {S : Type} `{TXL : TxStoreLaws S}.

(** The views of a store: the set [L] is a bound on what has been logged. *)
Definition tview (s : S) (D : list block) (hs : gmap nat Z) (dirty L : gset Z) (lim : nat) : Prop :=
  tx_ok s /\ tx_disk s = D /\ tx_holds s = hs /\ tx_dirty s ⊆ dirty /\ tx_logged s ⊆ L /\ tx_limit s = lim.

Lemma tview_block s D hs dirty L lim n d : tview s D hs dirty L lim -> D !! n = Some d -> block_ok d.
Proof.
  intros (Hok & <- & _) Hd. destruct (tx_blocks s Hok) as [H1 _]. by apply (Forall_lookup_1 _ _ _ _ H1 Hd).
Qed.

Lemma tview_length s D hs dirty L lim : tview s D hs dirty L lim -> Z.of_nat (length D) < 2 ^ 31.
Proof. intros (Hok & <- & _). apply (tx_blocks s Hok). Qed.

Lemma tview_weaken s D hs dirty L L' lim : tview s D hs dirty L lim -> L ⊆ L' -> tview s D hs dirty L' lim.
Proof. intros (? & ? & ? & ? & ? & ?) HL. split_and!; try done. by etrans. Qed.

Lemma wpe_tbread s D hs dirty L lim b (Q : nat -> S -> Prop) E :
  tview s D hs dirty L lim -> 0 <= b < Z.of_nat (length D) -> (forall k, hs !! k <> Some b) -> (size hs < max_held)%nat ->
  (forall k s', hs !! k = None -> tview s' D (<[k := b]> hs) dirty L lim -> Q k s') ->
  wpe (tx_bread ROOTDEV b) s Q E.
Proof.
  intros (Hok & <- & <- & Hd & HL & <-) Hb Hn Hs HQ.
  eapply wpe_mono; [| |by apply (tx_bread_spec s b)]; simpl; [|done].
  intros k s' (? & ? & ? & ? & ? & ? & ?). apply HQ; [done|]. split_and!; try done; set_solver.
Qed.

Lemma wpe_tdata s D hs dirty L lim k b d (Q : block -> S -> Prop) E :
  tview s D hs dirty L lim -> hs !! k = Some b -> D !! Z.to_nat b = Some d -> Q d s -> wpe (tx_data k) s Q E.
Proof.
  intros (Hok & <- & <- & _) Hk Hd HQ. destruct (tx_data_spec s k b Hok Hk) as (d' & Hd' & Hr).
  unfold wpe. rewrite Hr. by simplify_eq.
Qed.

Lemma wpe_tset s D hs dirty L lim k b d (Q : unit -> S -> Prop) E :
  tview s D hs dirty L lim -> hs !! k = Some b -> block_ok d ->
  (forall s', tview s' (<[Z.to_nat b := d]> D) hs ({[b]} ∪ dirty) L lim -> Q tt s') -> wpe (tx_set k d) s Q E.
Proof.
  intros (Hok & <- & <- & Hd & HL & <-) Hk Hb HQ.
  eapply wpe_mono; [| |by apply (tx_set_spec s k b d)]; simpl; [|done].
  intros [] s' (? & ? & ? & ? & ? & ?). apply HQ. split_and!; try done; set_solver.
Qed.

Lemma wpe_tlog s D hs dirty L lim k b (Q : unit -> S -> Prop) E :
  tview s D hs dirty L lim -> hs !! k = Some b -> tx_first <= b -> (size L < lim)%nat ->
  (forall s', tview s' D hs (dirty ∖ {[b]}) ({[b]} ∪ L) lim -> Q tt s') -> wpe (tx_log_write k) s Q E.
Proof.
  intros (Hok & <- & <- & Hd & HL & <-) Hk Hb Hs HQ. pose proof (subseteq_size _ _ HL).
  eapply wpe_mono; [| |apply (tx_log_write_spec s k b Hok Hk Hb); lia]; simpl; [|done].
  intros [] s' (? & ? & ? & ? & ? & ?). apply HQ. split_and!; try done; set_solver.
Qed.

Lemma wpe_tbrelse s D hs dirty L lim k b (Q : unit -> S -> Prop) E :
  tview s D hs dirty L lim -> hs !! k = Some b -> b ∉ dirty ->
  (forall s', tview s' D (delete k hs) dirty L lim -> Q tt s') -> wpe (tx_brelse k) s Q E.
Proof.
  intros (Hok & <- & <- & Hd & HL & <-) Hk Hb HQ.
  eapply wpe_mono; [| |apply (tx_brelse_spec s k b Hok Hk)]; simpl; [|done|set_solver].
  intros [] s' (? & ? & ? & ? & ? & ?). apply HQ. split_and!; try done; set_solver.
Qed.

(** Reading a block, keeping its buffer. *)
Lemma wpe_tget {A} s D hs dirty L lim b d (K : nat -> block -> M S A) (Q : A -> S -> Prop) E :
  tview s D hs dirty L lim -> 0 <= b -> D !! Z.to_nat b = Some d -> (forall k, hs !! k <> Some b) ->
  (size hs < max_held)%nat ->
  (forall k s', hs !! k = None -> tview s' D (<[k := b]> hs) dirty L lim -> wpe (K k d) s' Q E) ->
  wpe (bp ← tx_bread ROOTDEV b; d ← tx_data bp; K bp d) s Q E.
Proof.
  intros Hv Hb Hd Hn Hs HQ. pose proof (lookup_lt_Some _ _ _ Hd).
  apply wpe_bind. eapply wpe_tbread; [done|lia|done|done|]. intros k s' Hk Hv'.
  apply wpe_bind. eapply wpe_tdata; [done|apply lookup_insert_eq|done|]. by apply HQ.
Qed.

(** Changing the block of a buffer, logging and releasing it. *)
Lemma wpe_tput {A} s D hs L lim k b d (m : M S A) (Q : A -> S -> Prop) E :
  tview s D (<[k := b]> hs) ∅ L lim -> hs !! k = None -> block_ok d -> tx_first <= b -> (size L < lim)%nat ->
  (forall s', tview s' (<[Z.to_nat b := d]> D) hs ∅ ({[b]} ∪ L) lim -> wpe m s' Q E) ->
  wpe (tx_set k d ;; tx_log_write k ;; tx_brelse k ;; m) s Q E.
Proof.
  intros Hv Hk Hd Hb HL Hm. apply wpe_bind. eapply wpe_tset; [done|apply lookup_insert_eq|done|]. intros s1 H1.
  apply wpe_bind. eapply wpe_tlog; [done|apply lookup_insert_eq|done|done|]. intros s2 H2.
  apply wpe_bind. eapply wpe_tbrelse; [done|apply lookup_insert_eq|set_solver|]. intros s3 H3. apply Hm.
  rewrite delete_insert_id in H3 by done. destruct H3 as (? & ? & ? & ? & ? & ?). split_and!; try done. set_solver.
Qed.

Lemma wpe_tput_last s D hs L lim k b d (Q : unit -> S -> Prop) E :
  tview s D (<[k := b]> hs) ∅ L lim -> hs !! k = None -> block_ok d -> tx_first <= b -> (size L < lim)%nat ->
  (forall s', tview s' (<[Z.to_nat b := d]> D) hs ∅ ({[b]} ∪ L) lim -> Q tt s') ->
  wpe (tx_set k d ;; tx_log_write k ;; tx_brelse k) s Q E.
Proof.
  intros Hv Hk Hd Hb HL HQ. pose proof (wpe_tput s D hs L lim k b d (mret tt) Q E Hv Hk Hd Hb HL) as H1.
  unfold wpe, mbind, M_bind, mret, M_ret in *. 
  destruct (tx_set k d s) as [[] s1|]; [|by apply H1; intros; apply HQ].
  destruct (tx_log_write k s1) as [[] s2|]; [|by apply H1; intros; apply HQ].
  destruct (tx_brelse k s2) as [[] s3|]; by apply H1; intros; apply HQ.
Qed.

Lemma wpe_tdone {A} s D hs L lim k b (m : M S A) (Q : A -> S -> Prop) E :
  tview s D (<[k := b]> hs) ∅ L lim -> hs !! k = None ->
  (forall s', tview s' D hs ∅ L lim -> wpe m s' Q E) -> wpe (tx_brelse k ;; m) s Q E.
Proof.
  intros Hv Hk Hm. apply wpe_bind. eapply wpe_tbrelse; [done|apply lookup_insert_eq|set_solver|].
  intros s3 H3. apply Hm. by rewrite delete_insert_id in H3 by done.
Qed.

End rules.
