(* ===== verification/Txop.v ===== *)
(** Transactions: [begin_op] and [end_op] of [log.c] around the calls of the
    file system.

    Between the two the store obeys the laws of [Tx], and none of its
    operations begins or ends a transaction: the number of calls in progress
    is part of the invariant. *)

From S2P Require Import Prelude Block Log Tx.

Open Scope Z_scope.

Section ops.
Context {S : Type} `{BS : BlockStore S} `{BSL : !BlockStoreLaws S}.
Context (first : Z).

(** [n] calls are in progress, none commits, and the log on disk is empty. *)
Record in_ops (n : Z) (s : lstate S) : Prop := {
  no_tx : lt_ok first s;
  no_count : l_outstanding (lg s) = n;
  no_commit : l_committing (lg s) = 0;
  no_header : exists hd, home (store s) !! Z.to_nat (l_start (lg s)) = Some hd /\ head_n hd = 0
}.

(** What the operations of a transaction leave alone. *)
Definition op_view (s : lstate S) : list block * Z * Z * Z * Z :=
  (home (store s), l_start (lg s), l_size (lg s), l_outstanding (lg s), l_committing (lg s)).

Lemma in_ops_view n s s' : in_ops n s -> lt_ok first s' -> op_view s' = op_view s -> in_ops n s'.
Proof. intros [H1 H2 H3 H4] Ht [= E1 E2 _ E3 E4]. split; [done|congruence..|]. by rewrite E1, E2. Qed.

(** An operation that obeys a law of the log and keeps the view. *)
Lemma in_ops_law {A} n (m : M (lstate S) A) s (Q : A -> lstate S -> Prop) :
  in_ops n s -> wp m s (fun a s' => lt_ok first s' /\ Q a s') ->
  wpe m s (fun _ s' => op_view s' = op_view s) (fun _ _ => True) ->
  wp m s (fun a s' => in_ops n s' /\ Q a s').
Proof.
  intros Hs. unfold wp, wpe. destruct (m s) as [a s'|]; [|done]. intros [Ht HQ] Hv. split; [|done].
  by eapply in_ops_view.
Qed.

(** An operation on the store that writes nothing to the disk. *)
Lemma st_view {A} (m : M S A) s :
  wpe m (store s) (fun _ t => home t = home (store s)) (fun _ _ => True) ->
  wpe (st m) s (fun _ s' => op_view s' = op_view s) (fun _ _ => True).
Proof. intros H. apply wpe_st. eapply wpe_mono; [| |exact H]; [|done]. cbv beta. intros _ t E. unfold op_view. by cbn [store lg]; rewrite E. Qed.

Lemma bread_view s b :
  lt_ok first s -> 0 <= b < Z.of_nat (length (content (store s))) -> (forall k, holds (store s) !! k <> Some b) ->
  (size (holds (store s)) < max_held)%nat ->
  wpe (st (bread ROOTDEV b)) s (fun _ s' => op_view s' = op_view s) (fun _ _ => True).
Proof.
  intros (start & sz & bs & Hin) Hb Hnh Hsz. apply st_view. pose proof (in_tx_views _ _ _ _ _ Hin) as Hv.
  rewrite (views_length _ _ _ _ _ Hv) in Hb. eapply wpe_bread; [exact Hv|done|done| |by intros k t' _ (_ & -> & _)].
  right. pose proof (held_size (store s)) as Hhs. unfold held_blocks in Hhs. pose proof (it_fit _ _ _ _ _ Hin) as Hf.
  eapply Nat.le_lt_trans; [apply size_union_le|]. rewrite size_list_to_set by apply (it_lists _ _ _ _ _ Hin). lia.
Qed.

Lemma log_write_view s k b :
  lt_ok first s -> holds (store s) !! k = Some b -> wpe (log_write k) s (fun _ s' => op_view s' = op_view s) (fun _ _ => True).
Proof.
  intros (start & sz & bs & Hin) Hk. pose proof (in_tx_views _ _ _ _ _ Hin) as Hv.
  unfold log_write, acquire_log, release_log. apply wpe_bind, wpe_gets. destruct (_ || _); [done|]. destruct (_ <? 1); [done|].
  apply wpe_bind, wpe_bind, wpe_gets. rewrite (it_lock _ _ _ _ _ Hin). apply wpe_modify. apply wpe_bind, wpe_st. cbn [store lg].
  unfold wpe at 1. rewrite (bno_spec (store s) k b) by (done || apply Hin). apply wpe_bind, wpe_gets. apply wpe_bind. case_decide; [|done]. apply wpe_modify. cbn [store lg].
  apply wpe_bind, wpe_st. cbn [store lg]. eapply wpe_bpin; [exact Hv|exact Hk|]. intros t' (_ & Hh & _).
  apply wpe_bind, wpe_gets. cbn [lg l_lock set_lh set_l_lock]. apply wpe_modify. unfold op_view. cbn. by rewrite Hh.
Qed.

#[export, refine] Instance ops_tx_laws (n : Z) : TxStoreLaws (lstate S) := {
  tx_ok := in_ops n; tx_disk s := content (store s); tx_holds s := holds (store s); tx_dirty := lt_dirty;
  tx_logged s := pinned (store s); tx_limit := lt_limit; tx_first := first
}.
Proof.
  - intros s Hs. apply (tx_blocks (TxStoreLaws := log_tx_laws first)), Hs.
  - intros s b Hs Hb Hk Hz. apply in_ops_law; [done|apply (lt_bread first s b); [apply Hs|done..]|apply (bread_view s b); [apply Hs|done..]].
  - intros s k b Hs. apply (tx_data_spec (TxStoreLaws := log_tx_laws first)), Hs.
  - intros s k b d Hs Hk Hd. apply in_ops_law; [done|apply (lt_set first s k b d); [apply Hs|done..]|]. apply st_view.
    destruct (no_tx _ _ Hs) as (start & sz & bs & Hin). eapply wpe_bset; [by eapply in_tx_views|done|done|]. by intros t' (_ & -> & _).
  - intros s k b Hs Hk Hb Hz. apply in_ops_law; [done|apply (lt_log_write first s k b); [apply Hs|done..]|]. eapply log_write_view; [apply Hs|done].
  - intros s k b Hs Hk Hd. apply in_ops_law; [done|apply (lt_brelse first s k b); [apply Hs|done..]|]. apply st_view.
    destruct (no_tx _ _ Hs) as (start & sz & bs & Hin). eapply wpe_brelse; [by eapply in_tx_views|done| |by intros t' (_ & -> & _)].
    destruct (decide (b ∈ pinned (store s))) as [Hp|Hp]; [left; by rewrite <- (it_pinned _ _ _ _ _ Hin)|right].
    destruct (decide (content (store s) !! Z.to_nat b = home (store s) !! Z.to_nat b)); [done|]. destruct Hd.
    unfold tx_dirty, lt_dirty. rewrite elem_of_filter. split; [done|]. unfold held_blocks. rewrite elem_of_holders. eauto.
Defined.

(** Only the counts of the log have changed. *)
Lemma in_tx_log s l start sz bs :
  in_tx first s start sz bs -> l_start l = l_start (lg s) -> l_size l = l_size (lg s) -> l_dev l = l_dev (lg s) ->
  lh_n l = lh_n (lg s) -> lh_block l = lh_block (lg s) -> l_lock l = false -> in_tx first (LState (store s) l) start sz bs.
Proof.
  intros [[G1 G2 G3 G4 G5] [L1 L2 L3 L4 L5 L6] H3 H4 H5 H6 H7 H8 H9] E1 E2 E3 E4 E5 E6.
  split; cbn [store lg]; try done; split; rewrite ?E1, ?E2, ?E3, ?E4, ?E5; done.
Qed.

(** begin_op waits, or one more call is in progress. *)
Lemma begin_op_ops n s :
  in_ops n s -> wpe begin_op s (fun _ s' => in_ops (n + 1) s' /\ store s' = store s) (fun w s' => w = Sleeping ch_log /\ s' = s).
Proof.
  intros [(start & sz & bs & Hin) <- Hc Hh]. pose proof (it_lock _ _ _ _ _ Hin) as Hlk.
  unfold begin_op, acquire_log, release_log. destruct s as [t l].
  assert (El : set_l_lock false (set_l_lock true l) = l) by (destruct l; cbn in *; by subst).
  cbn [store lg] in *. apply wpe_bind, wpe_bind, wpe_gets. cbn [lg]. rewrite Hlk. apply wpe_modify.
  apply wpe_bind, wpe_gets. cbn [lg l_committing l_outstanding lh_n set_l_lock]. rewrite Hc. cbn [Z.eqb negb].
  destruct (_ <? _).
  - apply wpe_bind, wpe_bind, wpe_gets. cbn [lg l_lock set_l_lock]. apply wpe_modify. cbn [store lg]. split; [done|]. by rewrite El.
  - apply wpe_bind, wpe_modify. apply wpe_bind, wpe_gets. cbn [lg l_lock set_l_lock set_outstanding]. apply wpe_modify. cbn [store lg].
    split; [|done]. split; cbn; try done. exists start, sz, bs. by eapply (in_tx_log (LState t l)).
Qed.

(** The state in which the log is empty again. *)
Lemma settled_tx s s' start sz bs :
  in_tx first s start sz bs -> settled start sz (content (store s)) s' -> l_lock (lg s') = false ->
  l_start (lg s') = l_start (lg s) -> l_size (lg s') = l_size (lg s) -> l_dev (lg s') = l_dev (lg s) ->
  lh_block (lg s') = lh_block (lg s) ->
  in_tx first s' start sz [] /\ holds (store s') = ∅ /\ same_homes start sz (content (store s)) (content (store s')) /\
  exists hd, home (store s') !! start = Some hd /\ head_n hd = 0.
Proof.
  intros [[G1 G2 G3 G4 G5] [L1 L2 L3 L4 L5 L6] H3 H4 H5 H6 H7 H8 H9] (Hn & h & c & hd & Hv & Hl & Hhd & H0 & Hsame) K1 K2 K3 K4 K5.
  pose proof Hv as (B1 & B2 & B3 & B4 & B5). rewrite (bs_length _ H6) in Hl.
  assert (Hch : c = h).
  { apply list_eq. intros i. rewrite <- (Nat2Z.id i). eapply views_clean; [exact Hv|lia|set_solver]. }
  split_and!; [|done|rewrite B3, Hch; by symmetry|exists hd; by rewrite B2].
  split; try done; rewrite ?B2, ?B4, ?Hl, ?B5; try done.
  - split; rewrite ?K2, ?K3, ?K4; done.
  - split; rewrite ?K5; try done; [apply NoDup_nil_2|cbn; lia].
  - cbn [length] in *. lia.
Qed.

(** end_op with no buffer held: one call less is in progress, and the disk is
    the same outside the area of the log. It can fail only with the power. *)
Lemma end_op_ops n s :
  in_ops (n + 1) s -> holds (store s) = ∅ ->
  wpe end_op s (fun _ s' => in_ops n s' /\ holds (store s') = ∅ /\ l_start (lg s') = l_start (lg s) /\ l_size (lg s') = l_size (lg s) /\
      same_homes (Z.to_nat (l_start (lg s))) (Z.to_nat (l_size (lg s))) (content (store s)) (content (store s')))
    (fun w _ => w = Crashed).
Proof.
  intros [(start & sz & bs & Hin) Ho Hc (hd & Hhd & Hn0)] Hho. pose proof (it_lock _ _ _ _ _ Hin) as Hlk.
  destruct s as [t l]. cbn [store lg] in *. pose proof (it_geom _ _ _ _ _ Hin) as Hg. cbn [store lg] in Hg.
  rewrite (g_start _ _ _ _ Hg), Nat2Z.id in *. rewrite (g_size _ _ _ _ Hg), Nat2Z.id in *.
  unfold end_op, acquire_log, release_log, wakeup_log. apply wpe_bind, wpe_bind, wpe_gets. cbn [lg]. rewrite Hlk. apply wpe_modify.
  apply wpe_bind, wpe_modify. apply wpe_bind, wpe_gets. cbn [store lg l_committing set_outstanding set_l_lock]. rewrite Hc. cbn [Z.eqb negb].
  apply wpe_bind. cbn [l_outstanding set_outstanding set_l_lock]. destruct (Z.eqb_spec (l_outstanding l - 1) 0) as [Hz|Hz].
  - apply wpe_bind, wpe_modify, wpe_ret. apply wpe_bind, wpe_bind, wpe_gets.
    cbn [lg store l_lock set_committing set_outstanding set_l_lock]. apply wpe_modify. cbn [when lg store].
    match goal with |- wpe _ (LState t ?x) _ _ => set (l1 := x) end.
    assert (H1 : in_tx first (LState t l1) start sz bs) by (by eapply (in_tx_log (LState t l))).
    pose proof (in_tx_views _ _ _ _ _ H1) as Hv1. cbn [store] in Hv1. rewrite Hho in Hv1.
    apply wpe_bind. eapply wpe_mono; [| |eapply (commit_spec (LState t l1) (home t) (content t) start sz bs hd)];
      [|by intros w s' [-> _]|apply H1|apply H1|exact Hv1|pose proof (it_fit _ _ _ _ _ H1); unfold max_held in *; lia|done|done].
    cbv beta. intros _ [t2 l2] [E2 Hset]. cbn [lg store] in E2, Hset. subst l2.
    apply wpe_bind, wpe_bind, wpe_gets. cbn [lg l_lock set_lh l1 set_committing set_outstanding set_l_lock]. apply wpe_modify.
    apply wpe_bind, wpe_modify. apply wpe_bind, wpe_modify. apply wpe_bind, wpe_gets.
    cbn [lg l_lock set_lh set_l_wakeups set_committing set_outstanding set_l_lock]. apply wpe_modify. cbn [store lg].
    match goal with |- in_ops _ (LState t2 ?x) /\ _ => set (l3 := x) end.
    destruct (settled_tx (LState t l1) (LState t2 l3) start sz bs H1 Hset) as (T1 & T2 & T3 & T4); [done..|].
    cbn [store lg] in *. split_and!; try done; cbn; try lia; try apply Hg.
    split; cbn [store lg]; try (cbn; lia); [by exists start, sz, []|]. cbn. by rewrite (g_start _ _ _ _ Hg), Nat2Z.id.
  - apply wpe_bind, wpe_modify, wpe_ret. apply wpe_bind, wpe_bind, wpe_gets.
    cbn [lg store l_lock set_l_wakeups set_outstanding set_l_lock]. apply wpe_modify. cbn [when]. apply wpe_ret. cbn [store lg].
    split_and!; try done; try apply Hg. split; cbn; try done; [|lia|].
    + exists start, sz, bs. by eapply (in_tx_log (LState t l)).
    + exists hd. by rewrite (g_start _ _ _ _ Hg), Nat2Z.id.
Qed.

End ops.
