(* ===== verification/Fs.v ===== *)
(** The file system: [fs.c], over any store that offers transactions.

    The blocks are those of the store. The inode cache is a list of NINODE
    entries, an inode pointer is an index in it and [None] is a null pointer.
    Each entry has its sleep lock. The number [me] is [myproc()->pid]. *)

From S2P Require Import Prelude Block Sleeplock Log Tx.

Open Scope Z_scope.

(** ** fs.h, stat.h, param.h *)

Definition NINODE : Z := 50.
Definition NDEV : Z := 10.
Definition T_DIR : Z := 1.
Definition T_FILE : Z := 2.
Definition T_DEV : Z := 3.

Definition DINODE : Z := 64.                    (* sizeof(struct dinode) *)
Definition IPB : Z := BSIZE / DINODE.
Definition IBLOCK (i : Z) (sb : superblock) : Z := u32 (i / IPB + sb_inodestart sb).
Definition BPB : Z := BSIZE * 8.
Definition BBLOCK (b : Z) (sb : superblock) : Z := u32 (b / BPB + sb_bmapstart sb).
Definition DIRENT : Z := 16.                    (* sizeof(struct dirent) *)

(** struct dinode: the fields that are on the disk. *)
Record dinode := DInode {
  d_type : Z;
  d_major : Z;
  d_minor : Z;
  d_nlink : Z;
  d_size : Z;
  d_addrs : list Z     (* NDIRECT + 1 entries *)
}.

(** A dinode at a byte offset of a block. *)
Definition get_dinode (d : block) (off : nat) : dinode :=
  DInode (i16 (get16 d off)) (i16 (get16 d (off + 2))) (i16 (get16 d (off + 4))) (i16 (get16 d (off + 6)))
    (get32 d (off + 8)) ((fun i => get32 d (off + 12 + 4 * i)) <$> seq 0 (S (Z.to_nat NDIRECT))).

Fixpoint put_addrs (d : block) (off : nat) (addrs : list Z) : block :=
  match addrs with
  | [] => d
  | a :: addrs => put_addrs (put32 d off a) (off + 4) addrs
  end.

Definition put_dinode (d : block) (off : nat) (di : dinode) : block :=
  let d := put16 d off (d_type di) in
  let d := put16 d (off + 2) (d_major di) in
  let d := put16 d (off + 4) (d_minor di) in
  let d := put16 d (off + 6) (d_nlink di) in
  let d := put32 d (off + 8) (d_size di) in
  put_addrs d (off + 12) (d_addrs di).

(** The offset of inode [inum] in its block. *)
Definition dinode_off (inum : Z) : nat := Z.to_nat (inum mod IPB * DINODE).

(** struct inode *)
Record inode := Inode {
  i_dev : Z;
  i_inum : Z;
  i_ref : Z;
  i_lock : sleeplock;
  i_valid : Z;
  i_d : dinode         (* copy of disk inode *)
}.

Definition set_i_ref v i := Inode (i_dev i) (i_inum i) v (i_lock i) (i_valid i) (i_d i).
Definition set_i_lock v i := Inode (i_dev i) (i_inum i) (i_ref i) v (i_valid i) (i_d i).
Definition set_i_valid v i := Inode (i_dev i) (i_inum i) (i_ref i) (i_lock i) v (i_d i).
Definition set_i_d v i := Inode (i_dev i) (i_inum i) (i_ref i) (i_lock i) (i_valid i) v.
Definition set_d_type v d := DInode v (d_major d) (d_minor d) (d_nlink d) (d_size d) (d_addrs d).
Definition set_d_nlink v d := DInode (d_type d) (d_major d) (d_minor d) v (d_size d) (d_addrs d).
Definition set_d_size v d := DInode (d_type d) (d_major d) (d_minor d) (d_nlink d) v (d_addrs d).
Definition set_d_addrs v d := DInode (d_type d) (d_major d) (d_minor d) (d_nlink d) (d_size d) v.

(** ** Blocks *)

Section blocks.
Context {S : Type} `{TX : TxStore S}.

Definition bzero (dev bno : Z) : M S unit :=
  bp ← tx_bread dev bno;
  tx_set bp zero_block ;;
  tx_log_write bp ;;
  tx_brelse bp.

Definition byte_at (d : list Z) (i : Z) : Z := default 0 (d !! Z.to_nat i).

(** The inner loop of balloc: the first free bit from [bi] on. The bits of a
    block bound the iterations. *)
Fixpoint balloc_scan (n : nat) (d : block) (b bi size : Z) : option Z :=
  match n with
  | O => None
  | Datatypes.S n =>
      if (bi <? BPB) && (b + bi <? size) then
        let m := Z.shiftl 1 (bi mod 8) in
        if Z.land (byte_at d (bi / 8)) m =? 0 then Some bi
        else balloc_scan n d b (bi + 1) size
      else None
  end.

Fixpoint balloc_loop (n : nat) (dev : Z) (sb : superblock) (b : Z) : M S Z :=
  match n with
  | O => out_of_fuel
  | Datatypes.S n =>
      if b <? sb_size sb then
        bp ← tx_bread dev (BBLOCK b sb);
        d ← tx_data bp;
        match balloc_scan (Z.to_nat BPB) d b 0 (sb_size sb) with
        | Some bi =>
            let m := Z.shiftl 1 (bi mod 8) in
            tx_set bp (<[Z.to_nat (bi / 8) := Z.lor (byte_at d (bi / 8)) m]> d) ;;
            tx_log_write bp ;;
            tx_brelse bp ;;
            bzero dev (b + bi) ;;
            mret (b + bi)
        | None =>
            tx_brelse bp ;;
            balloc_loop n dev sb (b + BPB)
        end
      else panic "balloc: out of blocks"
  end.

(** One turn for every BPB blocks. *)
Definition balloc (dev : Z) (sb : superblock) : M S Z :=
  balloc_loop (Datatypes.S (Z.to_nat ((sb_size sb + BPB - 1) / BPB))) dev sb 0.

Definition bfree (dev b : Z) (sb : superblock) : M S unit :=
  bp ← tx_bread dev (BBLOCK b sb);
  d ← tx_data bp;
  let bi := b mod BPB in
  let m := Z.shiftl 1 (bi mod 8) in
  if Z.land (byte_at d (bi / 8)) m =? 0 then panic "freeing free block"
  else
    tx_set bp (<[Z.to_nat (bi / 8) := Z.land (byte_at d (bi / 8)) (Z.lnot m)]> d) ;;
    tx_log_write bp ;;
    tx_brelse bp.

End blocks.

(** ** Inodes *)

Record fstate (S : Type) := FState {
  fdk : S;                   (* the store *)
  ic_lock : bool;            (* icache.lock *)
  icache : list inode;       (* icache.inode *)
  fsb : superblock;          (* sb *)
  fcwd : nat                 (* myproc()->cwd *)
}.
Arguments FState {S} _ _ _ _ _.
Arguments fdk {S} _.
Arguments ic_lock {S} _.
Arguments icache {S} _.
Arguments fsb {S} _.
Arguments fcwd {S} _.

Section inodes.
Context {S : Type} `{TX : TxStore S}.
Context (me : Z).

Notation MF A := (M (fstate S) A).

Definition dk {A} (m : M S A) : MF A :=
  zoom (Lens fdk (fun t s => FState t (ic_lock s) (icache s) (fsb s) (fcwd s))) m.

Definition set_ic_lock v (s : fstate S) := FState (fdk s) v (icache s) (fsb s) (fcwd s).
Definition set_icache v (s : fstate S) := FState (fdk s) (ic_lock s) v (fsb s) (fcwd s).
Definition set_fsb v (s : fstate S) := FState (fdk s) (ic_lock s) (icache s) v (fcwd s).

Definition acquire_ic : MF unit :=
  s ← get; if ic_lock s then panic "acquire" else put (set_ic_lock true s).
Definition release_ic : MF unit :=
  s ← get; if ic_lock s then put (set_ic_lock false s) else panic "release".

(** [*ip], and assignment to fields of [*ip]. *)
Definition iat (ip : nat) : MF inode :=
  s ← get; match icache s !! ip with Some i => mret i | None => wild end.
Definition imod (ip : nat) (f : inode -> inode) : MF unit :=
  i ← iat ip;
  modify (fun s => set_icache (<[ip := f i]> (icache s)) s).
Definition dmod (ip : nat) (f : dinode -> dinode) : MF unit := imod ip (fun i => set_i_d (f (i_d i)) i).

Definition on_ilock {A} (ip : nat) (m : M sleeplock A) : MF A := fun s =>
  match icache s !! ip with
  | None => Stop (Panicked "wild pointer") s
  | Some i =>
      match m (i_lock i) with
      | Ret a l => Ret a (set_icache (<[ip := set_i_lock l i]> (icache s)) s)
      | Stop w l => Stop w (set_icache (<[ip := set_i_lock l i]> (icache s)) s)
      end
  end.

(** iinit without what it prints. *)
Definition iinit (dev : Z) : MF unit :=
  modify (set_ic_lock false) ;;
  for_each (seq 0 (Z.to_nat NINODE)) (fun i => on_ilock i (initsleeplock "inode")) ;;
  bp ← dk (tx_bread dev 1);
  d ← dk (tx_data bp);
  dk (tx_brelse bp) ;;
  modify (set_fsb (decode_sb d)).

(** The loop of iget: the entry of the inode, or else the first free one. *)
Fixpoint iget_scan (l : list inode) (ip : nat) (empty : option nat) (dev inum : Z) : option nat * option nat :=
  match l with
  | [] => (None, empty)
  | i :: l =>
      if (0 <? i_ref i) && (i_dev i =? dev) && (i_inum i =? inum) then (Some ip, empty)
      else
        iget_scan l (ip + 1)
          (match empty with None => if i_ref i =? 0 then Some ip else None | Some _ => empty end) dev inum
  end.

Definition iget (dev inum : Z) : MF nat :=
  acquire_ic ;;
  s ← get;
  match iget_scan (icache s) 0 None dev inum with
  | (Some ip, _) =>
      imod ip (fun i => set_i_ref (i32 (i_ref i + 1)) i) ;;
      release_ic ;;
      mret ip
  | (None, None) => panic "iget: no inodes"
  | (None, Some ip) =>
      imod ip (fun i => Inode dev inum 1 (i_lock i) 0 (i_d i)) ;;
      release_ic ;;
      mret ip
  end.

(** The loop of ialloc: the first free inode from [inum] on. *)
Fixpoint ialloc_loop (n : nat) (dev type inum : Z) : MF nat :=
  match n with
  | O => out_of_fuel
  | Datatypes.S n =>
      s ← get;
      if inum <? sb_ninodes (fsb s) then
        bp ← dk (tx_bread dev (IBLOCK inum (fsb s)));
        d ← dk (tx_data bp);
        if d_type (get_dinode d (dinode_off inum)) =? 0 then
          dk (tx_set bp (put_dinode d (dinode_off inum)
                           (DInode type 0 0 0 0 (replicate (Datatypes.S (Z.to_nat NDIRECT)) 0)))) ;;
          dk (tx_log_write bp) ;;
          dk (tx_brelse bp) ;;
          iget dev inum
        else
          dk (tx_brelse bp) ;;
          ialloc_loop n dev type (inum + 1)
      else panic "ialloc: no inodes"
  end.

Definition ialloc (dev type : Z) : MF nat :=
  s ← get;
  ialloc_loop (Datatypes.S (Z.to_nat (sb_ninodes (fsb s)))) dev type 1.

Definition iupdate (ip : nat) : MF unit :=
  s ← get;
  i ← iat ip;
  bp ← dk (tx_bread (i_dev i) (IBLOCK (i_inum i) (fsb s)));
  d ← dk (tx_data bp);
  dk (tx_set bp (put_dinode d (dinode_off (i_inum i)) (i_d i))) ;;
  dk (tx_log_write bp) ;;
  dk (tx_brelse bp).

Definition idup (ip : nat) : MF nat :=
  acquire_ic ;;
  imod ip (fun i => set_i_ref (i32 (i_ref i + 1)) i) ;;
  release_ic ;;
  mret ip.

Definition ilock (ip : option nat) : MF unit :=
  match ip with
  | None => panic "ilock"
  | Some ip =>
      i ← iat ip;
      if i_ref i <? 1 then panic "ilock"
      else
        on_ilock ip (acquiresleep me ip) ;;
        i ← iat ip;
        when (i_valid i =? 0)
          (s ← get;
           bp ← dk (tx_bread (i_dev i) (IBLOCK (i_inum i) (fsb s)));
           d ← dk (tx_data bp);
           imod ip (set_i_d (get_dinode d (dinode_off (i_inum i)))) ;;
           dk (tx_brelse bp) ;;
           imod ip (set_i_valid 1) ;;
           i ← iat ip;
           when (d_type (i_d i) =? 0) (panic "ilock: no type"))
  end.

Definition iunlock (ip : option nat) : MF unit :=
  match ip with
  | None => panic "iunlock"
  | Some ip =>
      h ← on_ilock ip (holdingsleep me);
      i ← iat ip;
      if negb h || (i_ref i <? 1) then panic "iunlock"
      else on_ilock ip releasesleep
  end.

(** ** Inode content *)

(** [a[bn]] of a block of block numbers. *)
Definition word_at (d : list Z) (bn : Z) : Z := get32 d (4 * Z.to_nat bn).

Definition addr_at (i : inode) (n : Z) : Z := default 0 (d_addrs (i_d i) !! Z.to_nat n).
Definition set_addr (ip : nat) (n a : Z) : MF unit :=
  dmod ip (fun d => set_d_addrs (<[Z.to_nat n := a]> (d_addrs d)) d).

(** [if((addr = ip->addrs[n]) == 0) ip->addrs[n] = addr = balloc(ip->dev);] *)
Definition bmap_addr (ip : nat) (n : Z) : MF Z :=
  s ← get;
  i ← iat ip;
  if addr_at i n =? 0 then
    addr ← dk (balloc (i_dev i) (fsb s));
    set_addr ip n addr ;;
    mret addr
  else mret (addr_at i n).

Definition bmap (ip : nat) (bn : Z) : MF Z :=
  if bn <? NDIRECT then bmap_addr ip bn
  else
    let bn := bn - NDIRECT in
    if bn <? NINDIRECT then
      addr ← bmap_addr ip NDIRECT;
      s ← get;
      i ← iat ip;
      bp ← dk (tx_bread (i_dev i) addr);
      a ← dk (tx_data bp);
      addr ← (if word_at a bn =? 0 then
                addr ← dk (balloc (i_dev i) (fsb s));
                dk (tx_set bp (put32 a (4 * Z.to_nat bn) addr)) ;;
                dk (tx_log_write bp) ;;
                mret addr
              else mret (word_at a bn));
      dk (tx_brelse bp) ;;
      mret addr
    else panic "bmap: out of range".

Definition itrunc (ip : nat) : MF unit :=
  for_each (seq 0 (Z.to_nat NDIRECT)) (fun n =>
    s ← get;
    i ← iat ip;
    when (negb (addr_at i (Z.of_nat n) =? 0))
      (dk (bfree (i_dev i) (addr_at i (Z.of_nat n)) (fsb s)) ;;
       set_addr ip (Z.of_nat n) 0)) ;;
  s ← get;
  i ← iat ip;
  when (negb (addr_at i NDIRECT =? 0))
    (bp ← dk (tx_bread (i_dev i) (addr_at i NDIRECT));
     a ← dk (tx_data bp);
     for_each (seq 0 (Z.to_nat NINDIRECT)) (fun j =>
       when (negb (word_at a (Z.of_nat j) =? 0)) (dk (bfree (i_dev i) (word_at a (Z.of_nat j)) (fsb s)))) ;;
     dk (tx_brelse bp) ;;
     dk (bfree (i_dev i) (addr_at i NDIRECT) (fsb s)) ;;
     set_addr ip NDIRECT 0) ;;
  dmod ip (set_d_size 0) ;;
  iupdate ip.

Definition iput (ip : nat) : MF unit :=
  on_ilock ip (acquiresleep me ip) ;;
  i ← iat ip;
  when (negb (i_valid i =? 0) && (d_nlink (i_d i) =? 0))
    (acquire_ic ;;
     i ← iat ip;
     let r := i_ref i in
     release_ic ;;
     when (r =? 1)
       (itrunc ip ;;
        dmod ip (set_d_type 0) ;;
        iupdate ip ;;
        imod ip (set_i_valid 0))) ;;
  on_ilock ip releasesleep ;;
  acquire_ic ;;
  imod ip (fun i => set_i_ref (i32 (i_ref i - 1)) i) ;;
  release_ic.

Definition iunlockput (ip : nat) : MF unit := iunlock (Some ip) ;; iput ip.

(** struct stat: device, inode number, type, links, size. *)
Definition stati (ip : nat) : MF (Z * Z * Z * Z * Z) :=
  i ← iat ip;
  mret (i32 (i_dev i), i_inum i, d_type (i_d i), d_nlink (i_d i), d_size (i_d i)).

End inodes.

(** ** Reading and writing *)

Section files.
Context {S : Type} `{TX : TxStore S}.
Context (me : Z).

Notation MF A := (M (fstate S) A).

(** The functions of devsw, for the major numbers that have one: reading
    returns the result and the bytes that were stored. *)
Context (devsw_read : Z -> option (nat -> Z -> MF (Z * list Z))).
Context (devsw_write : Z -> option (nat -> list Z -> MF Z)).

(** The loop of readi, after [tot] of [n] bytes; every turn reads at least
    one byte. Returns the bytes. *)
Fixpoint readi_loop (fuel : nat) (ip : nat) (off n tot : Z) : MF (list Z) :=
  match fuel with
  | O => out_of_fuel
  | Datatypes.S fuel =>
      if tot <? n then
        i ← iat ip;
        addr ← bmap ip (off / BSIZE);
        bp ← dk (tx_bread (i_dev i) addr);
        d ← dk (tx_data bp);
        let m := Z.min (n - tot) (BSIZE - off mod BSIZE) in
        let bs := sub d (Z.to_nat (off mod BSIZE)) (Z.to_nat m) in
        dk (tx_brelse bp) ;;
        rest ← readi_loop fuel ip (off + m) n (tot + m);
        mret (bs ++ rest)
      else mret []
  end.

(** The result, and the bytes stored at [dst]. *)
Definition readi (ip : nat) (off n : Z) : MF (Z * list Z) :=
  i ← iat ip;
  if d_type (i_d i) =? T_DEV then
    if (d_major (i_d i) <? 0) || (NDEV <=? d_major (i_d i)) then mret (-1, [])
    else match devsw_read (d_major (i_d i)) with
         | None => mret (-1, [])
         | Some f => f ip (i32 n)
         end
  else if (d_size (i_d i) <? off) || (u32 (off + n) <? off) then mret (-1, [])
  else
    let n := if d_size (i_d i) <? u32 (off + n) then d_size (i_d i) - off else n in
    bs ← readi_loop (Datatypes.S (Z.to_nat n)) ip off n 0;
    mret (i32 n, bs).

Fixpoint writei_loop (fuel : nat) (ip : nat) (src : list Z) (off n tot : Z) : MF Z :=
  match fuel with
  | O => out_of_fuel
  | Datatypes.S fuel =>
      if tot <? n then
        i ← iat ip;
        addr ← bmap ip (off / BSIZE);
        bp ← dk (tx_bread (i_dev i) addr);
        d ← dk (tx_data bp);
        let m := Z.min (n - tot) (BSIZE - off mod BSIZE) in
        dk (tx_set bp (splice d (Z.to_nat (off mod BSIZE)) (sub src (Z.to_nat tot) (Z.to_nat m)))) ;;
        dk (tx_log_write bp) ;;
        dk (tx_brelse bp) ;;
        writei_loop fuel ip src (off + m) n (tot + m)
      else mret off
  end.

(** [src] is the [n] bytes that are written. *)
Definition writei (ip : nat) (src : list Z) (off : Z) : MF Z :=
  let n := Z.of_nat (length src) in
  i ← iat ip;
  if d_type (i_d i) =? T_DEV then
    if (d_major (i_d i) <? 0) || (NDEV <=? d_major (i_d i)) then mret (-1)
    else match devsw_write (d_major (i_d i)) with
         | None => mret (-1)
         | Some f => f ip src
         end
  else if (d_size (i_d i) <? off) || (u32 (off + n) <? off) then mret (-1)
  else if MAXFILE * BSIZE <? u32 (off + n) then mret (-1)
  else
    off ← writei_loop (Datatypes.S (Z.to_nat n)) ip src off n 0;
    i ← iat ip;
    when ((0 <? n) && (d_size (i_d i) <? off))
      (dmod ip (set_d_size off) ;;
       iupdate ip) ;;
    mret (i32 n).

(** ** Directories *)

(** strncmp on arrays of characters. *)
Fixpoint strncmp_arr (n : nat) (p q : list Z) : MF Z :=
  match n with
  | O => mret 0
  | Datatypes.S n =>
      match p, q with
      | c :: p, c' :: q =>
          if negb (c =? 0) && (c =? c') then strncmp_arr n p q else mret (c - c')
      | _, _ => wild
      end
  end.

Definition namecmp (s t : list Z) : MF Z := strncmp_arr (Z.to_nat DIRSIZ) s t.

(** struct dirent *)
Definition de_inum (de : list Z) : Z := get16 de 0.
Definition de_name (de : list Z) : list Z := drop 2 de.

(** The loop of dirlookup from offset [off]: the inode and the offset of its
    entry. *)
Fixpoint dirlookup_loop (fuel : nat) (dp : nat) (name : list Z) (off : Z) : MF (option (nat * Z)) :=
  match fuel with
  | O => out_of_fuel
  | Datatypes.S fuel =>
      i ← iat dp;
      if off <? d_size (i_d i) then
        r ← readi dp off DIRENT;
        if negb (r.1 =? DIRENT) then panic "dirlookup read"
        else if de_inum r.2 =? 0 then dirlookup_loop fuel dp name (u32 (off + DIRENT))
        else
          c ← namecmp name (de_name r.2);
          if c =? 0 then
            ip ← iget (i_dev i) (de_inum r.2);
            mret (Some (ip, off))
          else dirlookup_loop fuel dp name (u32 (off + DIRENT))
      else mret None
  end.

Definition dirlookup (dp : nat) (name : list Z) : MF (option (nat * Z)) :=
  i ← iat dp;
  if negb (d_type (i_d i) =? T_DIR) then panic "dirlookup not DIR"
  else dirlookup_loop (Datatypes.S (Z.to_nat (d_size (i_d i) / DIRENT) + 1)) dp name 0.

(** The loop of dirlink: the offset of the first free entry, or the end. *)
Fixpoint dirlink_loop (fuel : nat) (dp : nat) (off : Z) : MF Z :=
  match fuel with
  | O => out_of_fuel
  | Datatypes.S fuel =>
      i ← iat dp;
      if off <? d_size (i_d i) then
        r ← readi dp off DIRENT;
        if negb (r.1 =? DIRENT) then panic "dirlink read"
        else if de_inum r.2 =? 0 then mret off
        else dirlink_loop fuel dp (off + DIRENT)
      else mret off
  end.

(** [strncpy(de.name, name, DIRSIZ)]: up to the NUL, and zeros after it. *)
Fixpoint strncpy_arr (n : nat) (t : list Z) : list Z :=
  match n with
  | O => []
  | Datatypes.S n' =>
      match t with
      | c :: t => if c =? 0 then replicate n 0 else c :: strncpy_arr n' t
      | [] => replicate n 0
      end
  end.

Definition dirlink (dp : nat) (name : list Z) (inum : Z) : MF Z :=
  r ← dirlookup dp name;
  match r with
  | Some (ip, _) => iput me ip ;; mret (-1)
  | None =>
      i ← iat dp;
      off ← dirlink_loop (Datatypes.S (Z.to_nat (d_size (i_d i) / DIRENT) + 1)) dp 0;
      let de := le_bytes 2 inum ++ strncpy_arr (Z.to_nat DIRSIZ) name in
      r ← writei dp de (u32 off);
      if negb (r =? DIRENT) then panic "dirlink" else mret 0
  end.

(** ** Paths *)

(** A path is the array from the pointer on. *)
Fixpoint skip_slashes (path : list Z) : MF (list Z) :=
  match path with
  | [] => wild
  | c :: path' => if c =? 47 then skip_slashes path' else mret path
  end.

(** The element at the front, and what follows it. *)
Fixpoint skip_name (path : list Z) (s : list Z) : MF (list Z * list Z) :=
  match path with
  | [] => wild
  | c :: path' => if negb (c =? 47) && negb (c =? 0) then skip_name path' (s ++ [c]) else mret (s, path)
  end.

(** Returns the new path and the new contents of [name], DIRSIZ bytes. *)
Definition skipelem (path name : list Z) : MF (option (list Z * list Z)) :=
  path ← skip_slashes path;
  if default 0 (path !! 0%nat) =? 0 then mret None
  else
    r ← skip_name path [];
    let s := r.1 in
    let len := Z.of_nat (length s) in
    let name := if DIRSIZ <=? len then splice name 0 (take (Z.to_nat DIRSIZ) s)
                else <[length s := 0]> (splice name 0 s) in
    path ← skip_slashes r.2;
    mret (Some (path, name)).

(** The loop of namex; every turn consumes a character of the path. The
    result is null or an inode, with the contents of [name]. *)
Fixpoint namex_loop (fuel : nat) (ip : nat) (path : list Z) (nameiparent : bool) (name : list Z) :
    MF (option nat * list Z) :=
  match fuel with
  | O => out_of_fuel
  | Datatypes.S fuel =>
      r ← skipelem path name;
      match r with
      | None =>
          if nameiparent then iput me ip ;; mret (None, name)
          else mret (Some ip, name)
      | Some (path, name) =>
          ilock me (Some ip) ;;
          i ← iat ip;
          if negb (d_type (i_d i) =? T_DIR) then iunlockput me ip ;; mret (None, name)
          else if nameiparent && (default 0 (path !! 0%nat) =? 0) then
            iunlock me (Some ip) ;;
            mret (Some ip, name)
          else
            next ← dirlookup ip name;
            match next with
            | None => iunlockput me ip ;; mret (None, name)
            | Some (next, _) =>
                iunlockput me ip ;;
                namex_loop fuel next path nameiparent name
            end
      end
  end.

Definition namex (path : list Z) (nameiparent : bool) (name : list Z) : MF (option nat * list Z) :=
  s ← get;
  ip ← (if default 0 (path !! 0%nat) =? 47 then iget ROOTDEV ROOTINO else idup (fcwd s));
  namex_loop (Datatypes.S (length path)) ip path nameiparent name.

(** [name] is uninitialised. *)
Definition namei (name path : list Z) : MF (option nat) :=
  r ← namex path false name; mret r.1.

Definition nameiparent (path name : list Z) : MF (option nat * list Z) := namex path true name.

End files.
