(* ===== verification/Bitmap.v ===== *)
(** The block allocator of [fs.c]: the free bitmap and what balloc and bfree
    do to it. *)

From S2P Require Import Prelude Block Sleeplock Log Tx Fs.

Open Scope Z_scope.

(** ** The layout of the disk *)

(** The first block after the bitmap. *)
Definition data_start (sb : superblock) : Z := sb_bmapstart sb + sb_size sb / BPB + 1.

Section layout.
Context {S : Type} `{TXL : TxStoreLaws S}.

(** The super block describes a disk of [len] blocks: the log, the inodes, the
    bitmap and the data follow each other. *)
Record sb_ok (sb : superblock) (len : nat) : Prop := {
  so_size : sb_size sb = Z.of_nat len;
  so_len : Z.of_nat len < 2 ^ 31;
  so_first : tx_first <= sb_inodestart sb;
  so_pos : 0 <= tx_first;
  so_ninodes : 0 <= sb_ninodes sb;
  so_inodes : sb_inodestart sb + sb_ninodes sb / IPB < sb_bmapstart sb;
  so_data : data_start sb <= sb_size sb
}.
End layout.

Definition bitmap_block (sb : superblock) (x : Z) : Prop := sb_bmapstart sb <= x < data_start sb.

(** ** The bitmap *)

(** The bit of block [b]: set when the block is in use. *)
Definition used (D : list block) (sb : superblock) (b : Z) : bool :=
  Z.testbit (byte_at (default [] (D !! Z.to_nat (BBLOCK b sb))) (b mod BPB / 8)) (b mod 8).

Lemma mask_testbit x i : 0 <= i -> (Z.land x (Z.shiftl 1 i) =? 0) = negb (Z.testbit x i).
Proof.
  intros Hi. rewrite Z.shiftl_1_l. destruct (Z.testbit x i) eqn:Hb; cbn [negb].
  - apply Z.eqb_neq. intros H. apply (f_equal (fun z => Z.testbit z i)) in H.
    by rewrite Z.land_spec, Hb, Z.pow2_bits_true, Z.testbit_0_l in H.
  - apply Z.eqb_eq. apply Z.bits_inj'. intros j Hj. rewrite Z.land_spec, Z.testbit_0_l, Z.pow2_bits_eqb by done.
    destruct (Z.eqb_spec i j) as [<-|]; [by rewrite Hb|by rewrite andb_false_r].
Qed.

Lemma set_testbit x i j : 0 <= i -> Z.testbit (Z.lor x (Z.shiftl 1 i)) j = (i =? j) || Z.testbit x j.
Proof. intros Hi. rewrite Z.shiftl_1_l, Z.lor_spec, Z.pow2_bits_eqb by done. apply orb_comm. Qed.

Lemma clear_testbit x i j : 0 <= i -> 0 <= j -> Z.testbit (Z.land x (Z.lnot (Z.shiftl 1 i))) j = negb (i =? j) && Z.testbit x j.
Proof. intros Hi Hj. rewrite Z.shiftl_1_l, Z.land_spec, Z.lnot_spec, Z.pow2_bits_eqb by done. apply andb_comm. Qed.

(** A byte with its bit changed. *)
Lemma byte_bits x : in_u8 x <-> 0 <= x /\ forall j, 8 <= j -> Z.testbit x j = false.
Proof.
  unfold in_u8. split.
  - intros Hx. split; [lia|]. intros j Hj. apply Z.testbit_false; [lia|].
    rewrite Z.div_small; [done|]. split; [lia|]. apply (Z.lt_le_trans _ (2 ^ 8)); [lia|]. apply Z.pow_le_mono_r; lia.
  - intros [Hx Hb]. split; [done|]. destruct (Z.lt_ge_cases x (2 ^ 8)) as [H|H]; [done|].
    assert (0 < x) by lia. pose proof (Z.bit_log2 x ltac:(lia)) as Hl.
    rewrite Hb in Hl; [done|]. apply Z.log2_le_pow2; lia.
Qed.

Lemma set_byte x i : in_u8 x -> 0 <= i < 8 -> in_u8 (Z.lor x (Z.shiftl 1 i)).
Proof.
  rewrite !byte_bits. intros [Hx Hb] Hi. split; [apply Z.lor_nonneg; split; [done|]; rewrite Z.shiftl_1_l; lia|].
  intros j Hj. rewrite set_testbit, Hb by lia. by rewrite (proj2 (Z.eqb_neq i j)) by lia.
Qed.

Lemma clear_byte x i : in_u8 x -> 0 <= i < 8 -> in_u8 (Z.land x (Z.lnot (Z.shiftl 1 i))).
Proof.
  rewrite !byte_bits. intros [Hx Hb] Hi. split; [apply Z.land_nonneg; by left|].
  intros j Hj. rewrite clear_testbit, Hb by lia. by rewrite andb_false_r.
Qed.

Definition set_bit (d : list Z) (bi : Z) : list Z :=
  <[Z.to_nat (bi / 8) := Z.lor (byte_at d (bi / 8)) (Z.shiftl 1 (bi mod 8))]> d.
Definition clear_bit (d : list Z) (bi : Z) : list Z :=
  <[Z.to_nat (bi / 8) := Z.land (byte_at d (bi / 8)) (Z.lnot (Z.shiftl 1 (bi mod 8)))]> d.

(** The disk with the bit of [b] set or cleared. *)
Definition mark (D : list block) (sb : superblock) (b : Z) : list block :=
  let n := Z.to_nat (BBLOCK b sb) in <[n := set_bit (default [] (D !! n)) (b mod BPB)]> D.
Definition unmark (D : list block) (sb : superblock) (b : Z) : list block :=
  let n := Z.to_nat (BBLOCK b sb) in <[n := clear_bit (default [] (D !! n)) (b mod BPB)]> D.

Lemma bit_index bi : 0 <= bi < BPB -> 0 <= bi / 8 < 512 /\ 0 <= bi mod 8 < 8 /\ bi = 8 * (bi / 8) + bi mod 8.
Proof. unfold BPB, BSIZE. intros H. Z.to_euclidean_division_equations. lia. Qed.

Lemma byte_at_ok d i : block_ok d -> in_u8 (byte_at d i).
Proof.
  intros [_ Hd]. unfold byte_at. destruct (d !! Z.to_nat i) as [x|] eqn:Hx; [|by cbn].
  by apply (Forall_lookup_1 _ _ _ _ Hd Hx).
Qed.

Lemma set_bit_ok d bi : block_ok d -> 0 <= bi < BPB -> block_ok (set_bit d bi).
Proof.
  intros Hd Hbi. destruct (bit_index bi Hbi) as (? & ? & _). pose proof (byte_at_ok d (bi / 8) Hd).
  destruct Hd as [Hl Hb]. split; [by unfold set_bit; rewrite length_insert|]. apply Forall_insert; [done|].
  by apply set_byte.
Qed.

Lemma clear_bit_ok d bi : block_ok d -> 0 <= bi < BPB -> block_ok (clear_bit d bi).
Proof.
  intros Hd Hbi. destruct (bit_index bi Hbi) as (? & ? & _). pose proof (byte_at_ok d (bi / 8) Hd).
  destruct Hd as [Hl Hb]. split; [by unfold clear_bit; rewrite length_insert|]. apply Forall_insert; [done|].
  by apply clear_byte.
Qed.

(** Changing one byte of a block, seen bit by bit. *)
Lemma byte_bit_change (d : list Z) bi bj v :
  block_ok d -> 0 <= bi < BPB -> 0 <= bj < BPB ->
  Z.testbit (byte_at (<[Z.to_nat (bi / 8) := v]> d) (bj / 8)) (bj mod 8) =
  if bj / 8 =? bi / 8 then Z.testbit v (bj mod 8) else Z.testbit (byte_at d (bj / 8)) (bj mod 8).
Proof.
  intros [Hl _] Hi Hj. destruct (bit_index bi Hi) as (? & _ & _). destruct (bit_index bj Hj) as (? & _ & _).
  unfold byte_at. destruct (Z.eqb_spec (bj / 8) (bi / 8)) as [E|Hne].
  - rewrite E, list_lookup_insert_eq; [done|]. rewrite Hl. unfold BSIZE. lia.
  - by rewrite list_lookup_insert_ne by lia.
Qed.

Section bitmap.
Context {S : Type} `{TXL : TxStoreLaws S}.
Context (sb : superblock) (len : nat) (Hsb : sb_ok sb len).

Lemma BBLOCK_range b : 0 <= b < sb_size sb ->
  BBLOCK b sb = b / BPB + sb_bmapstart sb /\ bitmap_block sb (BBLOCK b sb) /\ 0 <= BBLOCK b sb < Z.of_nat len.
Proof.
  destruct Hsb as [H1 H2 H3 H4 H5 H6 H7]. intros Hb. unfold bitmap_block, BBLOCK, data_start, BPB, BSIZE, IPB in *.
  assert (0 <= b / (512 * 8) <= sb_size sb / (512 * 8)).
  { split; [apply Z.div_pos; lia|]. apply Z.div_le_mono; lia. }
  pose proof (Z.div_pos (sb_ninodes sb) (BSIZE / DINODE) H5 ltac:(by vm_compute)).
  unfold BSIZE in *. rewrite u32_small by (unfold in_u32; lia). lia.
Qed.

(** The bitmap block and the bit of a block. *)
Lemma block_bit b c : 0 <= b < sb_size sb -> 0 <= c < sb_size sb ->
  BBLOCK b sb = BBLOCK c sb -> b mod BPB / 8 = c mod BPB / 8 -> b mod 8 = c mod 8 -> b = c.
Proof.
  intros Hb Hc. destruct (BBLOCK_range b Hb) as [-> _]. destruct (BBLOCK_range c Hc) as [-> _].
  unfold BPB, BSIZE. intros. Z.to_euclidean_division_equations. lia.
Qed.

Lemma mod_BPB_8 b : 0 <= b -> (b mod BPB) mod 8 = b mod 8 /\ 0 <= b mod BPB < BPB.
Proof. unfold BPB, BSIZE. intros. Z.to_euclidean_division_equations. lia. Qed.

Lemma used_change (f : block -> Z -> block) (g : bool -> bool) D b c :
  length D = len -> Forall block_ok D -> 0 <= b < sb_size sb -> 0 <= c < sb_size sb ->
  (forall d bi bj, block_ok d -> 0 <= bi < BPB -> 0 <= bj < BPB ->
     Z.testbit (byte_at (f d bi) (bj / 8)) (bj mod 8) =
     if bj =? bi then g (Z.testbit (byte_at d (bj / 8)) (bj mod 8)) else Z.testbit (byte_at d (bj / 8)) (bj mod 8)) ->
  used (<[Z.to_nat (BBLOCK b sb) := f (default [] (D !! Z.to_nat (BBLOCK b sb))) (b mod BPB)]> D) sb c =
  if c =? b then g (used D sb c) else used D sb c.
Proof.
  intros Hl HD Hb Hc Hf. destruct (BBLOCK_range b Hb) as (E1 & _ & R1). destruct (BBLOCK_range c Hc) as (E2 & _ & R2).
  destruct (mod_BPB_8 b ltac:(lia)) as [M1 M2]. destruct (mod_BPB_8 c ltac:(lia)) as [M3 M4].
  destruct (lookup_lt_is_Some_2 D (Z.to_nat (BBLOCK b sb)) ltac:(lia)) as [d Hd].
  pose proof (Forall_lookup_1 _ _ _ _ HD Hd) as Hok. unfold used. rewrite Hd. cbn [default id].
  destruct (decide (BBLOCK b sb = BBLOCK c sb)) as [E|Hne].
  - rewrite <- E, list_lookup_insert_eq, Hd by lia. cbn [default id]. rewrite <- M3, Hf by done.
    destruct (Z.eqb_spec c b) as [->|Hcb]; [by rewrite Z.eqb_refl|].
    destruct (Z.eqb_spec (c mod BPB) (b mod BPB)) as [Em|]; [|done]. destruct Hcb.
    symmetry. apply block_bit; [done..|by rewrite Em|]. rewrite <- M1, <- M3. by rewrite Em.
  - rewrite list_lookup_insert_ne by lia. destruct (Z.eqb_spec c b) as [->|]; done.
Qed.

Lemma used_mark D b c : length D = len -> Forall block_ok D -> 0 <= b < sb_size sb -> 0 <= c < sb_size sb ->
  used (mark D sb b) sb c = (c =? b) || used D sb c.
Proof.
  intros Hl HD Hb Hc. unfold mark. rewrite (used_change set_bit (fun _ => true)); [by destruct (c =? b)|done..|].
  intros d bi bj Hd Hi Hj. unfold set_bit. rewrite byte_bit_change by done.
  destruct (bit_index bi Hi) as (? & ? & Ei). destruct (bit_index bj Hj) as (? & ? & Ej).
  destruct (Z.eqb_spec (bj / 8) (bi / 8)) as [E|Hne].
  - rewrite set_testbit, E by lia. destruct (Z.eqb_spec bj bi) as [->|]; [by rewrite Z.eqb_refl|].
    rewrite (proj2 (Z.eqb_neq (bi mod 8) (bj mod 8))) by lia. done.
  - by rewrite (proj2 (Z.eqb_neq bj bi)) by (intros ->; lia).
Qed.

Lemma used_unmark D b c : length D = len -> Forall block_ok D -> 0 <= b < sb_size sb -> 0 <= c < sb_size sb ->
  used (unmark D sb b) sb c = negb (c =? b) && used D sb c.
Proof.
  intros Hl HD Hb Hc. unfold unmark. rewrite (used_change clear_bit (fun _ => false)); [by destruct (c =? b)|done..|].
  intros d bi bj Hd Hi Hj. unfold clear_bit. rewrite byte_bit_change by done.
  destruct (bit_index bi Hi) as (? & ? & Ei). destruct (bit_index bj Hj) as (? & ? & Ej).
  destruct (Z.eqb_spec (bj / 8) (bi / 8)) as [E|Hne].
  - rewrite clear_testbit, E by lia. destruct (Z.eqb_spec bj bi) as [->|]; [by rewrite Z.eqb_refl|].
    rewrite (proj2 (Z.eqb_neq (bi mod 8) (bj mod 8))) by lia. done.
  - by rewrite (proj2 (Z.eqb_neq bj bi)) by (intros ->; lia).
Qed.

(** Blocks outside the bitmap do not matter. *)
Lemma used_insert D x d b : 0 <= x -> ~ bitmap_block sb x -> 0 <= b < sb_size sb ->
  used (<[Z.to_nat x := d]> D) sb b = used D sb b.
Proof.
  intros Hx Hnb Hb. destruct (BBLOCK_range b Hb) as (_ & H1 & H2). unfold used.
  rewrite list_lookup_insert_ne; [done|]. intros E. destruct Hnb. assert (x = BBLOCK b sb) as -> by lia. done.
Qed.


(** ** balloc *)

Lemma scan_bit D d b bi :
  0 <= b -> b mod BPB = 0 -> 0 <= bi < BPB -> b + bi < sb_size sb -> D !! Z.to_nat (BBLOCK b sb) = Some d ->
  (Z.land (byte_at d (bi / 8)) (Z.shiftl 1 (bi mod 8)) =? 0) = negb (used D sb (b + bi)).
Proof.
  intros Hb Hm Hbi Hlt Hd. destruct (bit_index bi Hbi) as (? & ? & _). rewrite mask_testbit by lia. f_equal. unfold used.
  destruct (BBLOCK_range (b + bi)) as [E _]; [lia|]. destruct (BBLOCK_range b) as [E' _]; [lia|].
  assert (BBLOCK (b + bi) sb = BBLOCK b sb) as ->.
  { rewrite E, E'. f_equal. unfold BPB, BSIZE in *. Z.to_euclidean_division_equations. lia. }
  assert ((b + bi) mod BPB = bi) as -> by (unfold BPB, BSIZE in *; Z.to_euclidean_division_equations; lia).
  assert ((b + bi) mod 8 = bi mod 8) as -> by (unfold BPB, BSIZE in *; Z.to_euclidean_division_equations; lia).
  by rewrite Hd.
Qed.

Lemma balloc_scan_spec D d b n bi :
  0 <= b -> b mod BPB = 0 -> D !! Z.to_nat (BBLOCK b sb) = Some d -> 0 <= bi -> BPB - bi <= Z.of_nat n ->
  match balloc_scan n d b bi (sb_size sb) with
  | Some k => bi <= k < BPB /\ b + k < sb_size sb /\ used D sb (b + k) = false /\
      forall j, bi <= j < k -> used D sb (b + j) = true
  | None => forall j, bi <= j < BPB -> b + j < sb_size sb -> used D sb (b + j) = true
  end.
Proof.
  intros Hb Hm Hd. revert bi. induction n as [|n IH]; intros bi Hbi Hn; cbn [balloc_scan]; [lia|].
  destruct (Z.ltb_spec bi BPB); cbn [andb]; [|lia]. destruct (Z.ltb_spec (b + bi) (sb_size sb)); [|lia].
  rewrite (scan_bit D d b bi) by (done || lia). destruct (used D sb (b + bi)) eqn:Hu; cbn [negb].
  - specialize (IH (bi + 1) ltac:(lia) ltac:(lia)). destruct (balloc_scan n d b (bi + 1) (sb_size sb)).
    + destruct IH as (? & ? & ? & IH). split_and!; try done; try lia. intros j Hj.
      destruct (decide (j = bi)) as [->|]; [done|]. apply IH. lia.
    + intros j Hj Hlt. destruct (decide (j = bi)) as [->|]; [done|]. apply IH; lia.
  - split_and!; try done; try lia.
Qed.

(** The blocks of the bitmap. *)
Definition bitmaps : gset Z := list_to_set (seqZ (sb_bmapstart sb) (data_start sb - sb_bmapstart sb)).

Lemma elem_of_bitmaps x : x ∈ bitmaps <-> bitmap_block sb x.
Proof. unfold bitmaps, bitmap_block. rewrite elem_of_list_to_set, elem_of_seqZ. lia. Qed.

(** The blocks before the data, and those that are held, are in use. *)
Definition meta_used (D : list block) : Prop := forall x, 0 <= x < data_start sb -> used D sb x = true.
Definition held_used (D : list block) (hs : gmap nat Z) : Prop :=
  forall k x, hs !! k = Some x -> used D sb x = true /\ ~ bitmap_block sb x.

Definition full (D : list block) : Prop := forall x, 0 <= x < sb_size sb -> used D sb x = true.

(** How balloc stops: every block is in use, and nothing has changed. *)
Definition alloc_fails (D : list block) (hs : gmap nat Z) (L : gset Z) (lim : nat) (w : stop) (s' : S) : Prop :=
  w = Panicked "balloc: out of blocks" /\ full D /\ tview s' D hs ∅ L lim.

Lemma bzero_spec s D hs L lim b :
  tview s D hs ∅ L lim -> tx_first <= b < Z.of_nat (length D) -> 0 <= b -> (forall k, hs !! k <> Some b) ->
  (size hs < max_held)%nat -> (size L < lim)%nat ->
  wp (bzero ROOTDEV b) s (fun _ s' => tview s' (<[Z.to_nat b := zero_block]> D) hs ∅ ({[b]} ∪ L) lim).
Proof.
  intros Hv Hb H0 Hn Hs HL. unfold bzero. apply wp_bind. eapply wpe_tbread; [done|lia|done|done|].
  intros k s1 Hk H1. eapply wpe_tput_last; [exact H1|done|apply zero_block_ok|lia|done|]. done.
Qed.

Lemma tview_disk_ok s D hs dirty L lim : tview s D hs dirty L lim -> Forall block_ok D.
Proof. intros (Hok & <- & _). apply (tx_blocks s Hok). Qed.

(** The disk after block [b] has been allocated. *)
Definition allocated (D : list block) (b : Z) : list block := <[Z.to_nat b := zero_block]> (mark D sb b).

Lemma length_mark D b : length (mark D sb b) = length D.
Proof. apply length_insert. Qed.

Lemma bitmap_not_held D hs b : held_used D hs -> 0 <= b < sb_size sb -> forall k, hs !! k <> Some (BBLOCK b sb).
Proof. intros Hh Hb k Hk. destruct (Hh _ _ Hk) as [_ Hn]. by apply Hn, BBLOCK_range. Qed.

Lemma mark_run D d b bi :
  0 <= b -> b mod BPB = 0 -> 0 <= bi < BPB -> b + bi < sb_size sb -> D !! Z.to_nat (BBLOCK b sb) = Some d ->
  <[Z.to_nat (BBLOCK b sb) := <[Z.to_nat (bi / 8) := Z.lor (byte_at d (bi / 8)) (Z.shiftl 1 (bi mod 8))]> d]> D =
  mark D sb (b + bi) /\ BBLOCK (b + bi) sb = BBLOCK b sb.
Proof.
  intros Hb Hm Hbi Hlt Hd. destruct (BBLOCK_range (b + bi)) as [E _]; [lia|]. destruct (BBLOCK_range b) as [E' _]; [lia|].
  assert (EB : BBLOCK (b + bi) sb = BBLOCK b sb).
  { rewrite E, E'. f_equal. unfold BPB, BSIZE in *. Z.to_euclidean_division_equations. lia. }
  split; [|done]. unfold mark, set_bit. rewrite EB, Hd. cbn [default id].
  assert ((b + bi) mod BPB = bi) as -> by (unfold BPB, BSIZE in *; Z.to_euclidean_division_equations; lia). done.
Qed.

(** balloc returns the first free block. *)
Definition alloc_takes (D : list block) (hs : gmap nat Z) (L : gset Z) (lim : nat) (a : Z) (s' : S) : Prop :=
  tview s' (allocated D a) hs ∅ ({[a]} ∪ L) lim /\ data_start sb <= a < sb_size sb /\ used D sb a = false /\
  forall x, 0 <= x < a -> used D sb x = true.

Lemma data_start_pos : 0 < data_start sb /\ tx_first <= data_start sb.
Proof.
  destruct Hsb as [H1 H2 H3 H4 H5 H6 H7]. unfold data_start in *.
  pose proof (Z.div_pos (sb_ninodes sb) IPB H5 ltac:(by vm_compute)).
  pose proof (Z.div_pos (sb_size sb) BPB ltac:(lia) ltac:(by vm_compute)). lia.
Qed.

Lemma balloc_loop_spec n s D hs L lim b :
  tview s D hs ∅ L lim -> length D = len -> meta_used D -> held_used D hs -> (size hs < max_held)%nat ->
  bitmaps ⊆ L -> (size L < lim)%nat ->
  0 <= b -> b mod BPB = 0 -> (forall x, 0 <= x < b -> x < sb_size sb -> used D sb x = true) ->
  (0 < n)%nat -> sb_size sb - b <= BPB * (Z.of_nat n - 1) ->
  wpe (balloc_loop n ROOTDEV sb b) s (alloc_takes D hs L lim) (alloc_fails D hs L lim).
Proof.
  revert s b. induction n as [|n IH]; intros s b Hv Hl Hmeta Hheld Hsz HBM HL Hb Hm Hlow Hn0 Hn; [lia|].
  cbn [balloc_loop]. destruct (Z.ltb_spec b (sb_size sb)) as [Hlt|Hge].
  2: { split; [done|]. split; [|done]. intros x Hx. apply Hlow; lia. }
  destruct (BBLOCK_range b ltac:(lia)) as (_ & HbB & HbR). destruct data_start_pos as [Hd0 Hd1].
  destruct (lookup_lt_is_Some_2 D (Z.to_nat (BBLOCK b sb)) ltac:(lia)) as [d Hd].
  eapply wpe_tget; [done|lia|done|by apply (bitmap_not_held D); [|lia]|done|]. intros k s1 Hk H1.
  pose proof (balloc_scan_spec D d b (Z.to_nat BPB) 0 Hb Hm Hd ltac:(lia) ltac:(unfold BPB, BSIZE; lia)) as Hscan.
  destruct (balloc_scan (Z.to_nat BPB) d b 0 (sb_size sb)) as [bi|].
  - destruct Hscan as (Hbi & Hlt' & Hfree & Hbefore). cbv zeta.
    destruct (mark_run D d b bi Hb Hm Hbi Hlt' Hd) as [Emark EB].
    assert (Hds : data_start sb <= b + bi).
    { apply Z.nlt_ge. intros Hx. rewrite Hmeta in Hfree by lia. done. }
    eapply wpe_tput; [exact H1|done| | |done|].
    { apply set_bit_ok; [by eapply tview_block|done]. }
    { destruct HbB. pose proof (so_first _ _ Hsb). pose proof (so_inodes _ _ Hsb).
      pose proof (Z.div_pos (sb_ninodes sb) IPB (so_ninodes _ _ Hsb) ltac:(by vm_compute)). lia. }
    rewrite Emark. intros s2 H2.
    assert (EL : {[BBLOCK b sb]} ∪ L = L) by (apply subseteq_union_L, singleton_subseteq_l, HBM, elem_of_bitmaps, HbB).
    rewrite EL in H2. apply wpe_bind.
    eapply wpe_mono; [| |apply (bzero_spec s2 (mark D sb (b + bi)) hs L lim (b + bi)); try done]; [|done|..].
    + intros [] s3 H3. apply wpe_ret. split; [done|]. split; [lia|]. split; [done|].
      intros x Hx. destruct (Z.lt_ge_cases x b); [apply Hlow; lia|]. replace x with (b + (x - b)) by lia. apply Hbefore. lia.
    + rewrite length_mark, Hl, <- (so_size _ _ Hsb). lia.
    + lia.
    + intros j Hj. destruct (Hheld _ _ Hj) as [Hu _]. by rewrite Hu in Hfree.
  - eapply wpe_tdone; [exact H1|done|]. intros s2 H2.
    apply IH; try done; try (unfold BPB, BSIZE in *; lia).
    + unfold BPB, BSIZE in *. Z.to_euclidean_division_equations. lia.
    + intros x Hx Hxs. destruct (Z.lt_ge_cases x b); [apply Hlow; lia|].
      replace x with (b + (x - b)) by lia. apply Hscan; lia.
Qed.

Lemma balloc_spec s D hs L lim :
  tview s D hs ∅ L lim -> length D = len -> meta_used D -> held_used D hs -> (size hs < max_held)%nat ->
  bitmaps ⊆ L -> (size L < lim)%nat ->
  wpe (balloc ROOTDEV sb) s (alloc_takes D hs L lim) (alloc_fails D hs L lim).
Proof.
  intros Hv Hl Hmeta Hheld Hsz HBM HL. unfold balloc. apply balloc_loop_spec; try done; [lia..|].
  pose proof data_start_pos. pose proof (so_data _ _ Hsb). unfold BPB, BSIZE in *. Z.to_euclidean_division_equations. lia.
Qed.

(** ** bfree *)

Lemma bfree_spec s D hs L lim b :
  tview s D hs ∅ L lim -> length D = len -> held_used D hs -> (size hs < max_held)%nat ->
  bitmaps ⊆ L -> (size L < lim)%nat -> 0 <= b < sb_size sb -> used D sb b = true ->
  wp (bfree ROOTDEV b sb) s (fun _ s' => tview s' (unmark D sb b) hs ∅ L lim).
Proof.
  intros Hv Hl Hheld Hsz HBM HL Hb Hu. destruct (BBLOCK_range b Hb) as (_ & HbB & HbR).
  destruct (lookup_lt_is_Some_2 D (Z.to_nat (BBLOCK b sb)) ltac:(lia)) as [d Hd].
  destruct (mod_BPB_8 b ltac:(lia)) as [HM1 HM2]. unfold bfree.
  eapply wpe_tget; [done|lia|done|by apply (bitmap_not_held D)|done|]. intros k s1 Hk H1. cbv zeta.
  rewrite mask_testbit by (apply Z.mod_pos_bound; lia). rewrite HM1. unfold used in Hu. rewrite Hd in Hu. cbn [default id] in Hu.
  rewrite Hu. cbn [negb].
  assert (EL : {[BBLOCK b sb]} ∪ L = L) by (apply subseteq_union_L, singleton_subseteq_l, HBM, elem_of_bitmaps, HbB).
  eapply wpe_tput_last; [exact H1|done| | |done|].
  - rewrite <- HM1. apply clear_bit_ok; [by eapply tview_block|done].
  - destruct HbB. pose proof (so_first _ _ Hsb). pose proof (so_inodes _ _ Hsb).
    pose proof (Z.div_pos (sb_ninodes sb) IPB (so_ninodes _ _ Hsb) ltac:(by vm_compute)). lia.
  - rewrite EL. unfold unmark, clear_bit. rewrite Hd, HM1. by intros s2 H2.
Qed.

(** ** The disk after an allocation *)

Definition fresh (D : list block) (a : Z) : Prop := data_start sb <= a < sb_size sb /\ used D sb a = false.

Lemma bitmap_before_data x : bitmap_block sb x -> x < data_start sb.
Proof. by intros []. Qed.

Lemma allocated_used D a c : length D = len -> Forall block_ok D -> fresh D a -> 0 <= c < sb_size sb ->
  used (allocated D a) sb c = (c =? a) || used D sb c.
Proof.
  intros Hl HD [Ha _] Hc. pose proof data_start_pos. unfold allocated.
  rewrite used_insert; [apply used_mark; (done || lia)|lia|intros [? ?]; lia|done].
Qed.

Lemma allocated_at D a : length D = len -> fresh D a -> allocated D a !! Z.to_nat a = Some zero_block.
Proof.
  intros Hl [Ha _]. pose proof data_start_pos. apply list_lookup_insert_eq. rewrite length_mark, Hl. pose proof (so_size _ _ Hsb). lia.
Qed.

Lemma allocated_ne D a x : fresh D a -> 0 <= x -> x <> a -> ~ bitmap_block sb x ->
  allocated D a !! Z.to_nat x = D !! Z.to_nat x.
Proof.
  intros [Ha _] Hx Hne Hb. pose proof data_start_pos. unfold allocated, mark.
  destruct (BBLOCK_range a ltac:(lia)) as (_ & H1 & H2).
  rewrite !list_lookup_insert_ne; [done| |lia]. intros E. apply Hb. by replace x with (BBLOCK a sb) by lia.
Qed.

Lemma length_allocated D a : length (allocated D a) = length D.
Proof. unfold allocated. by rewrite length_insert, length_mark. Qed.

End bitmap.

(** Balloc gives out free blocks only. Within a transaction, with the
    blocks before the data marked as in use, balloc returns the first block
    whose bit is clear; it sets that bit and no other, fills the block with
    zeros and changes nothing else, and logs the block and its bitmap block.
    It panics only if the bit of every block is set. Freeing the block again
    makes the bitmap what it was. *)
Theorem balloc_allocates {S} `{TXL : TxStoreLaws S} sb len (s : S) D L lim :
  sb_ok sb len -> tview s D ∅ ∅ L lim -> length D = len -> meta_used sb D -> bitmaps sb ⊆ L -> (size L < lim)%nat ->
  wpe (balloc ROOTDEV sb) s
    (fun a s' => data_start sb <= a < sb_size sb /\ used D sb a = false /\ (forall x, 0 <= x < a -> used D sb x = true) /\
       exists D', tview s' D' ∅ ∅ ({[a]} ∪ L) lim /\ D' !! Z.to_nat a = Some zero_block /\
         (forall x, 0 <= x < sb_size sb -> used D' sb x = (x =? a) || used D sb x) /\
         (forall x, 0 <= x -> x <> a -> ~ bitmap_block sb x -> D' !! Z.to_nat x = D !! Z.to_nat x) /\
         ((size ({[a]} ∪ L) < lim)%nat -> wp (bfree ROOTDEV a sb) s' (fun _ s'' => exists D'',
            tview s'' D'' ∅ ∅ ({[a]} ∪ L) lim /\ forall x, 0 <= x < sb_size sb -> used D'' sb x = used D sb x)))
    (fun w s' => w = Panicked "balloc: out of blocks" /\ tview s' D ∅ ∅ L lim /\
       forall x, 0 <= x < sb_size sb -> used D sb x = true).
Proof.
  intros Hsb Hv Hl Hmeta HBM HL. pose proof (tview_disk_ok _ _ _ _ _ _ Hv) as HD.
  eapply wpe_mono; [| |eapply (balloc_spec sb len Hsb s D ∅ L lim); try done; by vm_compute; lia].
  2: { intros w s' (-> & Hf & Hv'). done. }
  intros a s' (Hv' & Ha & Hfree & Hlow). do 3 (split; [done|]). pose proof (data_start_pos sb len Hsb).
  assert (Hfr : fresh sb D a) by done. exists (allocated sb D a). split_and!; try done.
  - by eapply allocated_at.
  - intros x Hx. by eapply allocated_used.
  - intros x Hx Hne Hb. by eapply allocated_ne.
  - intros HL'. pose proof (tview_disk_ok _ _ _ _ _ _ Hv') as HD'.
    assert (Hu : forall x, 0 <= x < sb_size sb -> used (allocated sb D a) sb x = (x =? a) || used D sb x)
      by (intros; by eapply allocated_used).
    eapply wp_mono; [|eapply (bfree_spec sb len Hsb s' _ ∅); try done; [by rewrite length_allocated|by vm_compute; lia|set_solver|lia|]].
    + intros [] s'' Hv''. eexists. split; [done|]. intros x Hx.
      rewrite (used_unmark sb len Hsb) by (rewrite ?length_allocated; done || lia). rewrite Hu by done.
      destruct (Z.eqb_spec x a) as [->|]; [by rewrite Hfree|done].
    + rewrite Hu by lia. by rewrite Z.eqb_refl.
Qed.
