(* ===== verification/Inode.v ===== *)
(** Files as inodes hold them: which block a part of a file is in, when the
    blocks of a file are well formed, and what allocating one more block does.
    All of this speaks of the disk and the copy of the inode in memory. *)

From S2P Require Import Prelude Block Sleeplock Log Tx Fs Bitmap.

Open Scope Z_scope.

(** ** The blocks of a file *)

Definition dat (D : list block) (x : Z) : block := default [] (D !! Z.to_nat x).

Definition addr_of (di : dinode) (n : Z) : Z := default 0 (d_addrs di !! Z.to_nat n).

(** The indirect block, or 0. *)
Definition ind (di : dinode) : Z := addr_of di NDIRECT.

(** The block that holds part [n] of the file, or 0. *)
Definition addr (D : list block) (di : dinode) (n : Z) : Z :=
  if n <? NDIRECT then addr_of di n
  else if ind di =? 0 then 0 else word_at (dat D (ind di)) (n - NDIRECT).

(** The byte at offset [o]; a part without a block reads as zeros. *)
Definition file_byte (D : list block) (di : dinode) (o : Z) : Z :=
  let a := addr D di (o / BSIZE) in
  if a =? 0 then 0 else byte_at (dat D a) (o mod BSIZE).

(** The contents. *)
Definition fdata (D : list block) (di : dinode) : list Z :=
  (fun o => file_byte D di (Z.of_nat o)) <$> seq 0 (Z.to_nat (d_size di)).

Definition owned (D : list block) (di : dinode) (x : Z) : Prop :=
  x <> 0 /\ (x = ind di \/ exists n, 0 <= n < MAXFILE /\ addr D di n = x).

Section files.
Context {S : Type} `{TXL : TxStoreLaws S}.
Context (sb : superblock) (len : nat) (Hsb : sb_ok sb len).

(** A block of the data area that is in use. *)
Definition data_used (D : list block) (x : Z) : Prop := data_start sb <= x < sb_size sb /\ used D sb x = true.

(** A file: its blocks are in use and distinct, and there is one for every
    byte. *)
Record wf_file (D : list block) (di : dinode) : Prop := {
  wf_len : length (d_addrs di) = 13%nat;
  wf_addr n : 0 <= n < MAXFILE -> addr D di n <> 0 -> data_used D (addr D di n);
  wf_ind : ind di <> 0 -> data_used D (ind di);
  wf_inj m n : 0 <= m < MAXFILE -> 0 <= n < MAXFILE -> addr D di m <> 0 -> addr D di m = addr D di n -> m = n;
  wf_ind_ne n : 0 <= n < MAXFILE -> ind di <> 0 -> addr D di n <> ind di;
  wf_size : 0 <= d_size di <= MAXFILE * BSIZE;
  wf_holes n : 0 <= n -> n * BSIZE < d_size di -> addr D di n <> 0
}.

(** The file has more blocks, or other contents: no block in use by anything
    else is touched, and what the file gained was free. *)
Record extends (D : list block) (di : dinode) (D' : list block) (di' : dinode) : Prop := {
  ex_wf : wf_file D' di';
  ex_fields : di' = set_d_addrs (d_addrs di') di;
  ex_len : length D' = length D;
  ex_ind : ind di <> 0 -> ind di' = ind di;
  ex_used x : 0 <= x < sb_size sb -> used D sb x = true -> used D' sb x = true;
  ex_frame x : 0 <= x < sb_size sb -> used D sb x = true -> ~ bitmap_block sb x -> ~ owned D di x ->
    D' !! Z.to_nat x = D !! Z.to_nat x;
  ex_owned x : owned D' di' x -> owned D di x \/ fresh sb D x
}.

(** It has one more block, and holds the same bytes. *)
Record file_grows (D : list block) (di : dinode) (D' : list block) (di' : dinode) : Prop := {
  gr_ext : extends D di D' di';
  gr_byte o : 0 <= o < MAXFILE * BSIZE -> file_byte D' di' o = file_byte D di o;
  gr_addr n : 0 <= n < MAXFILE -> addr D di n <> 0 -> addr D' di' n = addr D di n
}.

Lemma extends_refl D di : wf_file D di -> extends D di D di.
Proof. intros Hwf. split; try done; [by destruct di|by left]. Qed.

Lemma file_grows_refl D di : wf_file D di -> file_grows D di D di.
Proof. intros Hwf. split; try done. by apply extends_refl. Qed.

Lemma data_used_range D x : data_used D x -> 0 < x < sb_size sb /\ ~ bitmap_block sb x.
Proof.
  intros [Hx _]. pose proof (data_start_pos sb len Hsb). split; [lia|]. intros Hb%bitmap_before_data. lia.
Qed.

Lemma owned_used D di x : wf_file D di -> owned D di x -> data_used D x.
Proof. intros Hwf [Hx [->|(n & Hn & <-)]]; [by apply Hwf|by apply Hwf]. Qed.

Lemma extends_trans D1 di1 D2 di2 D3 di3 :
  extends D1 di1 D2 di2 -> extends D2 di2 D3 di3 -> extends D1 di1 D3 di3.
Proof.
  intros H12 H23. split.
  - apply H23.
  - rewrite (ex_fields _ _ _ _ H23), (ex_fields _ _ _ _ H12). done.
  - by rewrite (ex_len _ _ _ _ H23), (ex_len _ _ _ _ H12).
  - intros Hi. pose proof (ex_ind _ _ _ _ H12 Hi) as E. rewrite (ex_ind _ _ _ _ H23) by congruence. done.
  - intros x Hx Hu. by apply H23, H12.
  - intros x Hx Hu Hb Ho. rewrite (ex_frame _ _ _ _ H23); [by apply H12|done|by apply H12|done|].
    intros [?|[_ Hf]]%(ex_owned _ _ _ _ H12); [done|congruence].
  - intros x [Ho|[Hx Hf]]%(ex_owned _ _ _ _ H23); [by apply H12|]. right. split; [done|].
    pose proof (data_start_pos sb len Hsb). destruct (used D1 sb x) eqn:Hu; [|done].
    by rewrite (ex_used _ _ _ _ H12) in Hf by (done || lia).
Qed.

Lemma file_grows_trans D1 di1 D2 di2 D3 di3 : file_grows D1 di1 D2 di2 -> file_grows D2 di2 D3 di3 -> file_grows D1 di1 D3 di3.
Proof.
  intros H12 H23. split.
  - by eapply extends_trans; [apply (gr_ext _ _ _ _ H12)|apply (gr_ext _ _ _ _ H23)].
  - intros o Ho. by rewrite (gr_byte _ _ _ _ H23), (gr_byte _ _ _ _ H12).
  - intros n Hn Ha. pose proof (gr_addr _ _ _ _ H12 n Hn Ha) as E.
    rewrite (gr_addr _ _ _ _ H23) by (done || congruence). done.
Qed.

(** ** Files that are left alone *)

Section same.
Context (D D' : list block) (di : dinode).
Hypothesis Hwf : wf_file D di.
Hypothesis Hsame : forall x, owned D di x -> D' !! Z.to_nat x = D !! Z.to_nat x /\ data_used D' x.

Lemma same_addr n : 0 <= n < MAXFILE -> addr D' di n = addr D di n.
Proof.
  intros Hn. unfold addr. destruct (n <? NDIRECT); [done|]. destruct (Z.eqb_spec (ind di) 0) as [|Hi]; [done|].
  unfold dat. by rewrite (proj1 (Hsame (ind di) ltac:(by split; [|left]))).
Qed.

Lemma owned_addr n : 0 <= n < MAXFILE -> addr D di n <> 0 -> owned D di (addr D di n).
Proof. intros Hn Ha. split; [done|]. right. by exists n. Qed.

Lemma same_owned x : owned D' di x <-> owned D di x.
Proof.
  unfold owned. split; intros [Hx [->|(n & Hn & E)]]; (split; [done|]); [by left| |by left|]; right; exists n;
    (split; [done|]); by rewrite same_addr in *.
Qed.

Lemma same_wf : wf_file D' di.
Proof.
  split; try apply Hwf.
  - intros n Hn. rewrite same_addr by done. intros Ha. by apply Hsame, owned_addr.
  - intros Hi. by apply (Hsame (ind di)); split; [|left].
  - intros m n Hm Hn. rewrite !same_addr by done. by apply Hwf.
  - intros n Hn. rewrite same_addr by done. by apply Hwf.
  - intros n Hn Hs. pose proof (wf_size _ _ Hwf). rewrite same_addr by (unfold BSIZE in *; lia). by apply Hwf.
Qed.

Lemma same_byte o : 0 <= o < MAXFILE * BSIZE -> file_byte D' di o = file_byte D di o.
Proof.
  intros Ho. assert (Hn : 0 <= o / BSIZE < MAXFILE).
  { unfold BSIZE in *. split; [apply Z.div_pos; lia|apply Z.div_lt_upper_bound; lia]. }
  unfold file_byte. rewrite same_addr by done. destruct (Z.eqb_spec (addr D di (o / BSIZE)) 0); [done|].
  unfold dat. by rewrite (proj1 (Hsame _ (owned_addr _ Hn ltac:(done)))).
Qed.

Lemma same_fdata : fdata D' di = fdata D di.
Proof.
  unfold fdata. apply list_fmap_ext. intros i o Ho. apply lookup_seq in Ho as [-> Ho]. pose proof (wf_size _ _ Hwf).
  apply same_byte. lia.
Qed.

End same.

(** ** Giving a file a block *)

Section grow.
Context (D : list block) (di : dinode) (a : Z).
Hypothesis Hwf : wf_file D di.
Hypothesis Hlen : length D = len.
Hypothesis HD : Forall block_ok D.
Hypothesis Ha : fresh sb D a.

Lemma fresh_not_used x : data_used D x -> x <> a.
Proof. intros [_ Hu] ->. destruct Ha as [_ Hf]. congruence. Qed.

Lemma dat_allocated x : data_used D x -> dat (allocated sb D a) x = dat D x.
Proof.
  intros Hx. destruct (data_used_range _ _ Hx). unfold dat.
  by rewrite (allocated_ne sb len Hsb) by (done || lia || by apply fresh_not_used).
Qed.

Lemma dat_fresh : dat (allocated sb D a) a = zero_block.
Proof. unfold dat. by rewrite (allocated_at sb len Hsb). Qed.

Lemma data_used_allocated x : data_used D x -> data_used (allocated sb D a) x.
Proof.
  intros [Hx Hu]. split; [done|]. pose proof (data_start_pos sb len Hsb).
  rewrite (allocated_used sb len Hsb) by (done || lia). by rewrite Hu, orb_true_r.
Qed.

Lemma data_used_fresh : data_used (allocated sb D a) a.
Proof.
  destruct Ha as [Hr _]. split; [done|]. pose proof (data_start_pos sb len Hsb).
  rewrite (allocated_used sb len Hsb) by (done || lia). by rewrite Z.eqb_refl.
Qed.

Lemma fresh_nonzero : a <> 0.
Proof. pose proof (data_start_pos sb len Hsb). destruct Ha as [[]]. lia. Qed.

Lemma byte_zero i : byte_at zero_block i = 0.
Proof.
  unfold byte_at, zero_block. destruct (replicate _ _ !! _) as [x|] eqn:E; [|done].
  by apply lookup_replicate in E as [-> _].
Qed.

Lemma word_zero n : word_at zero_block n = 0.
Proof.
  unfold word_at, get32, sub, zero_block. rewrite drop_replicate, take_replicate.
  generalize (4 `min` (Z.to_nat BSIZE - 4 * Z.to_nat n))%nat. intros k. induction k as [|k IH]; [done|]. cbn. by rewrite IH.
Qed.

(** [D'] and [di'] are the disk and the file after [a] has become part [bn]
    (or the indirect block, if [bn] is -1). *)
Section step.
Context (D' : list block) (di' : dinode) (bn : Z).
Hypothesis Hfields : di' = set_d_addrs (d_addrs di') di.
Hypothesis Hlen' : length (d_addrs di') = 13%nat.
Hypothesis HlD : length D' = length D.
Hypothesis Haddr : forall n, 0 <= n < MAXFILE -> addr D' di' n = if n =? bn then a else addr D di n.
Hypothesis Hempty : 0 <= bn -> addr D di bn = 0.
Hypothesis Hind : if bn =? -1 then ind di = 0 /\ ind di' = a else ind di' = ind di.
Hypothesis Hused : forall x, 0 <= x < sb_size sb -> used D' sb x = (x =? a) || used D sb x.
Hypothesis Hsame : forall x, 0 <= x < sb_size sb -> x <> a -> (x = ind di -> x = 0) -> ~ bitmap_block sb x ->
  D' !! Z.to_nat x = D !! Z.to_nat x.
Hypothesis Hzero : bn <> -1 -> dat D' a = zero_block.

Lemma step_data_used x : data_used D x -> data_used D' x.
Proof.
  intros [Hx Hu]. split; [done|]. pose proof (data_start_pos sb len Hsb). rewrite Hused by lia. by rewrite Hu, orb_true_r.
Qed.

Lemma step_fresh_used : data_used D' a.
Proof. destruct Ha as [Hr _]. split; [done|]. pose proof (data_start_pos sb len Hsb). rewrite Hused by lia. by rewrite Z.eqb_refl. Qed.

Lemma step_wf : wf_file D' di'.
Proof.
  pose proof fresh_nonzero as Ha0. pose proof step_fresh_used as Hau.
  assert (Hna : forall n, 0 <= n < MAXFILE -> addr D di n <> a).
  { intros n Hn E. apply (fresh_not_used (addr D di n)); [|done]. apply Hwf; [done|]. by rewrite E. }
  assert (Hia : ind di <> a).
  { intros E. apply (fresh_not_used (ind di)); [|done]. apply Hwf. by rewrite E. }
  split.
  - done.
  - intros n Hn. rewrite Haddr by done. destruct (n =? bn); [done|]. intros H0. by apply step_data_used, Hwf.
  - destruct (bn =? -1); [by destruct Hind as [_ ->]|]. rewrite Hind. intros H0. by apply step_data_used, Hwf.
  - intros m n Hm Hn. rewrite !Haddr by done. destruct (Z.eqb_spec m bn) as [->|]; destruct (Z.eqb_spec n bn) as [->|]; try done.
    + intros _ E. by destruct (Hna n Hn).
    + intros _ E. by destruct (Hna m Hm).
    + by apply Hwf.
  - intros n Hn. rewrite Haddr by done. destruct (bn =? -1) eqn:Hb1.
    + destruct Hind as [_ ->]. intros _. destruct (Z.eqb_spec n bn) as [->|]; [lia|]. by apply Hna.
    + rewrite Hind. destruct (n =? bn); [done|]. by apply Hwf.
  - rewrite Hfields. apply Hwf.
  - intros n Hn Hs. rewrite Hfields in Hs. cbn [d_size set_d_addrs] in Hs. pose proof (wf_size _ _ Hwf).
    rewrite Haddr by (unfold BSIZE in *; lia). destruct (n =? bn); [done|]. by apply Hwf.
Qed.

Lemma step_extends : extends D di D' di'.
Proof.
  split.
  - apply step_wf.
  - done.
  - done.
  - intros Hi. destruct (bn =? -1); [by destruct Hind|done].
  - intros x Hx Hu. rewrite Hused by done. by rewrite Hu, orb_true_r.
  - intros x Hx Hu Hb Ho. apply Hsame; [done| | |done].
    + intros ->. destruct Ha. congruence.
    + intros ->. destruct (decide (ind di = 0)); [done|]. destruct Ho. split; [done|by left].
  - intros x [Hx Ho]. destruct (decide (x = a)) as [->|Hne]; [by right|left]. split; [done|].
    destruct Ho as [->|(n & Hn & E)].
    + left. destruct (bn =? -1); [by destruct Hind|done].
    + right. exists n. split; [done|]. rewrite Haddr in E by done. by destruct (n =? bn).
Qed.

Lemma step_grows : file_grows D di D' di'.
Proof.
  pose proof fresh_nonzero as Ha0. split.
  - apply step_extends.
  - intros o Ho. unfold file_byte. assert (Hn : 0 <= o / BSIZE < MAXFILE).
    { unfold BSIZE in *. split; [apply Z.div_pos; lia|apply Z.div_lt_upper_bound; lia]. }
    rewrite Haddr by done. destruct (Z.eqb_spec (o / BSIZE) bn) as [E|Hne].
    + rewrite (proj2 (Z.eqb_neq a 0)), E, Hempty by lia. cbn. rewrite Hzero by lia. apply byte_zero.
    + destruct (Z.eqb_spec (addr D di (o / BSIZE)) 0); [done|]. pose proof (wf_addr _ _ Hwf _ Hn ltac:(done)) as Hu.
      destruct (data_used_range _ _ Hu) as [Hr Hb]. unfold dat. rewrite Hsame; [done|lia|by apply fresh_not_used| |done].
      intros E. destruct (decide (ind di = 0)); [lia|]. by destruct (wf_ind_ne _ _ Hwf (o / BSIZE)).
  - intros n Hn H0. rewrite Haddr by done. destruct (Z.eqb_spec n bn) as [->|]; [|done]. by rewrite Hempty in H0 by lia.
Qed.

End step.

Definition with_addr (n v : Z) : dinode := set_d_addrs (<[Z.to_nat n := v]> (d_addrs di)) di.

Lemma addr_of_with n v m : 0 <= n < 13 -> 0 <= m -> addr_of (with_addr n v) m = if m =? n then v else addr_of di m.
Proof.
  intros Hn Hm. unfold addr_of, with_addr. cbn [d_addrs set_d_addrs]. destruct (Z.eqb_spec m n) as [->|Hne].
  - rewrite list_lookup_insert_eq; [done|]. rewrite (wf_len _ _ Hwf). lia.
  - by rewrite list_lookup_insert_ne by lia.
Qed.

Lemma allocated_used_at x : 0 <= x < sb_size sb -> used (allocated sb D a) sb x = (x =? a) || used D sb x.
Proof. intros Hx. by rewrite (allocated_used sb len Hsb). Qed.

Lemma grow_direct n : 0 <= n < NDIRECT -> addr_of di n = 0 -> file_grows D di (allocated sb D a) (with_addr n a).
Proof.
  unfold NDIRECT. intros Hn H0.
  assert (Hi : ind (with_addr n a) = ind di) by (unfold ind; rewrite addr_of_with by (unfold NDIRECT; lia);
    rewrite (proj2 (Z.eqb_neq NDIRECT n)) by (unfold NDIRECT; lia); done).
  apply step_grows with (bn := n); try done.
  - cbn. rewrite length_insert. apply Hwf.
  - apply length_allocated.
  - intros m Hm. unfold addr. rewrite Hi. unfold NDIRECT. destruct (Z.ltb_spec m 12).
    + by rewrite addr_of_with by lia.
    + rewrite (proj2 (Z.eqb_neq m n)) by lia. destruct (Z.eqb_spec (ind di) 0); [done|].
      rewrite dat_allocated; [done|]. by apply Hwf.
  - intros _. unfold addr, NDIRECT. by rewrite (proj2 (Z.ltb_lt n 12)) by lia.
  - by rewrite (proj2 (Z.eqb_neq n (-1))) by lia.
  - apply allocated_used_at.
  - intros x Hx Hxa _ Hb. apply (allocated_ne sb len Hsb); [done|lia|done|done].
  - intros _. apply dat_fresh.
Qed.

Lemma grow_ind_block : ind di = 0 -> file_grows D di (allocated sb D a) (with_addr NDIRECT a).
Proof.
  intros H0. pose proof fresh_nonzero as Ha0.
  assert (Hi : ind (with_addr NDIRECT a) = a) by (unfold ind; rewrite addr_of_with by (unfold NDIRECT; lia); by rewrite Z.eqb_refl).
  apply step_grows with (bn := -1); try done.
  - cbn. rewrite length_insert. apply Hwf.
  - apply length_allocated.
  - intros m Hm. rewrite (proj2 (Z.eqb_neq m (-1))) by lia. unfold addr. rewrite Hi, H0, Z.eqb_refl. unfold NDIRECT.
    destruct (Z.ltb_spec m 12).
    + rewrite addr_of_with by lia. by rewrite (proj2 (Z.eqb_neq m 12)) by lia.
    + rewrite (proj2 (Z.eqb_neq a 0)), dat_fresh by done. apply word_zero.
  - apply allocated_used_at.
  - intros x Hx Hxa _ Hb. apply (allocated_ne sb len Hsb); [done|lia|done|done].
Qed.

Lemma word_put d n m v : block_ok d -> 0 <= n < NINDIRECT -> 0 <= m < NINDIRECT -> in_u32 v ->
  word_at (put32 d (4 * Z.to_nat n) v) m = if m =? n then v else word_at d m.
Proof.
  change NINDIRECT with 128. intros [Hl _] Hn Hm Hv. unfold word_at, BSIZE in *. destruct (Z.eqb_spec m n) as [->|Hne].
  - rewrite get32_put32_eq by lia. by apply u32_small.
  - by rewrite get32_put32_ne by lia.
Qed.

Lemma indirect_at bn :
  ind di <> 0 -> 0 <= bn < NINDIRECT ->
  addr (<[Z.to_nat (ind di) := put32 (dat D (ind di)) (4 * Z.to_nat bn) a]> (allocated sb D a)) di (bn + NDIRECT) = a.
Proof.
  intros Hi Hbn. pose proof (wf_ind _ _ Hwf Hi) as Hiu. destruct (data_used_range _ _ Hiu) as [Hir Hib].
  pose proof (so_size _ _ Hsb). destruct (lookup_lt_is_Some_2 D (Z.to_nat (ind di))) as [d Hd]; [lia|].
  unfold addr. rewrite (proj2 (Z.ltb_ge _ _)), (proj2 (Z.eqb_neq (ind di) 0)) by (done || lia).
  unfold dat. rewrite list_lookup_insert_eq, Hd by (rewrite length_allocated; lia). cbn [default id].
  replace (bn + NDIRECT - NDIRECT) with bn by lia. rewrite word_put, Z.eqb_refl; [done| |done|done|].
  - by apply (Forall_lookup_1 _ _ _ _ HD Hd).
  - destruct Ha as [Har _]. pose proof (data_start_pos sb len Hsb). pose proof (so_len _ _ Hsb). unfold in_u32. lia.
Qed.

Lemma grow_indirect bn :
  ind di <> 0 -> 0 <= bn < NINDIRECT -> word_at (dat D (ind di)) bn = 0 ->
  file_grows D di (<[Z.to_nat (ind di) := put32 (dat D (ind di)) (4 * Z.to_nat bn) a]> (allocated sb D a)) di.
Proof.
  intros Hi Hbn H0. pose proof (wf_ind _ _ Hwf Hi) as Hiu. destruct (data_used_range _ _ Hiu) as [Hir Hib].
  pose proof (fresh_not_used _ Hiu) as Hia. destruct Ha as [Har _]. pose proof (data_start_pos sb len Hsb).
  destruct (lookup_lt_is_Some_2 D (Z.to_nat (ind di))) as [d Hd]; [rewrite Hlen; pose proof (so_size _ _ Hsb); lia|].
  assert (Hdat : dat D (ind di) = d) by (unfold dat; by rewrite Hd). pose proof (Forall_lookup_1 _ _ _ _ HD Hd) as Hdok.
  assert (Hlt : (Z.to_nat (ind di) < length (allocated sb D a))%nat)
    by (rewrite length_allocated, Hlen; pose proof (so_size _ _ Hsb); lia).
  change NINDIRECT with 128 in Hbn.
  apply step_grows with (bn := bn + NDIRECT); try done.
  - by destruct di.
  - apply Hwf.
  - by rewrite length_insert, length_allocated.
  - intros m Hm. unfold addr. destruct (Z.ltb_spec m NDIRECT).
    + by rewrite (proj2 (Z.eqb_neq m (bn + NDIRECT))) by lia.
    + rewrite (proj2 (Z.eqb_neq (ind di) 0)) by done. unfold dat at 1. rewrite list_lookup_insert_eq by done.
      cbn [default id]. rewrite Hdat, word_put; [|done|done|change MAXFILE with (NDIRECT + 128) in Hm; change NINDIRECT with 128; lia|].
      * destruct (Z.eqb_spec (m - NDIRECT) bn), (Z.eqb_spec m (bn + NDIRECT)); (done || lia).
      * unfold in_u32. pose proof (so_len _ _ Hsb). pose proof (so_size _ _ Hsb). lia.
  - intros _. unfold addr. rewrite (proj2 (Z.ltb_ge (bn + NDIRECT) NDIRECT)) by lia.
    rewrite (proj2 (Z.eqb_neq (ind di) 0)) by done. by replace (bn + NDIRECT - NDIRECT) with bn by lia.
  - by rewrite (proj2 (Z.eqb_neq (bn + NDIRECT) (-1))) by (unfold NDIRECT; lia).
  - intros x Hx. rewrite (used_insert sb len Hsb) by (done || lia). by apply allocated_used_at.
  - intros x Hx Hxa Hxi Hb. rewrite list_lookup_insert_ne by (intros E; assert (x = ind di) by lia; lia).
    apply (allocated_ne sb len Hsb); [done|lia|done|done].
  - intros _. unfold dat. rewrite list_lookup_insert_ne by lia. apply dat_fresh.
Qed.

End grow.
End files.
