(* ===== verification/Dinode.v ===== *)
(** The inode on the disk: struct dinode laid out in a block. *)

From S2P Require Import Prelude Block Sleeplock Log Tx Fs.

Open Scope Z_scope.

Lemma get32_splice_ne b off bs off' :
  (off + length bs <= length b)%nat -> (off' + 4 <= off \/ off + length bs <= off')%nat ->
  get32 (splice b off bs) off' = get32 b off'.
Proof. intros Hb Hd. unfold get32. by rewrite sub_splice_ne by lia. Qed.

Lemma get16_splice_ne b off bs off' :
  (off + length bs <= length b)%nat -> (off' + 2 <= off \/ off + length bs <= off')%nat ->
  get16 (splice b off bs) off' = get16 b off'.
Proof. intros Hb Hd. unfold get16. by rewrite sub_splice_ne by lia. Qed.

Definition in_i16 (z : Z) : Prop := - 2 ^ 15 <= z < 2 ^ 15.

(** The fields fit their types. *)
Record dinode_ok (di : dinode) : Prop := {
  do_type : in_i16 (d_type di);
  do_major : in_i16 (d_major di);
  do_minor : in_i16 (d_minor di);
  do_nlink : in_i16 (d_nlink di);
  do_size : in_u32 (d_size di);
  do_len : length (d_addrs di) = 13%nat;
  do_addrs : Forall in_u32 (d_addrs di)
}.

Section addrs.
Local Open Scope nat_scope.

Lemma length_put_addrs d off addrs : off + 4 * length addrs <= length d -> length (put_addrs d off addrs) = length d.
Proof.
  revert d off. induction addrs as [|a addrs IH]; intros d off Hl; cbn [put_addrs length] in *; [done|].
  rewrite IH; rewrite length_put32 by lia; lia.
Qed.

Lemma put_addrs_before d off addrs o n : off + 4 * length addrs <= length d -> o + n <= off ->
  sub (put_addrs d off addrs) o n = sub d o n.
Proof.
  revert d off. induction addrs as [|a addrs IH]; intros d off Hl Ho; cbn [put_addrs length] in *; [done|].
  rewrite IH by (rewrite ?length_put32; lia). unfold put32. by rewrite sub_splice_ne by (rewrite ?length_le_bytes; lia).
Qed.

Lemma put_addrs_after d off addrs o n : off + 4 * length addrs <= length d -> off + 4 * length addrs <= o ->
  sub (put_addrs d off addrs) o n = sub d o n.
Proof.
  revert d off. induction addrs as [|a addrs IH]; intros d off Hl Ho; cbn [put_addrs length] in *; [done|].
  rewrite IH by (rewrite ?length_put32; lia). unfold put32. by rewrite sub_splice_ne by (rewrite ?length_le_bytes; lia).
Qed.

Lemma put_addrs_at d off addrs i a : off + 4 * length addrs <= length d -> addrs !! i = Some a -> in_u32 a ->
  get32 (put_addrs d off addrs) (off + 4 * i) = a.
Proof.
  revert d off i. induction addrs as [|a' addrs IH]; intros d off i Hl Hi Ha; cbn [put_addrs length] in *; [done|].
  destruct i as [|i].
  - injection Hi as <-. rewrite Nat.mul_0_r, Nat.add_0_r. unfold get32. rewrite put_addrs_before by (rewrite ?length_put32; lia).
    change (le_val _) with (get32 (put32 d off a') off). rewrite get32_put32_eq by lia. by apply u32_small.
  - replace (off + 4 * S i) with (off + 4 + 4 * i) by lia. apply IH; [rewrite length_put32; lia|done|done].
Qed.

End addrs.

Lemma i16_u16 v : in_i16 v -> i16 (u16 v) = v.
Proof.
  unfold in_i16, i16, u16. intros Hv. rewrite Zplus_mod_idemp_l. rewrite Z.mod_small; lia.
Qed.

(** The blocks between the five stores of the fields. *)
Ltac put_dinode_steps d off di d1 d2 d3 d4 d5 :=
  unfold put_dinode;
  set (d1 := put16 d off (d_type di)); assert (length d1 = length d) by (apply length_put16; lia);
  set (d2 := put16 d1 (off + 2) (d_major di)); assert (length d2 = length d) by (unfold d2; rewrite length_put16; lia);
  set (d3 := put16 d2 (off + 4) (d_minor di)); assert (length d3 = length d) by (unfold d3; rewrite length_put16; lia);
  set (d4 := put16 d3 (off + 6) (d_nlink di)); assert (length d4 = length d) by (unfold d4; rewrite length_put16; lia);
  set (d5 := put32 d4 (off + 8) (d_size di)); assert (length d5 = length d) by (unfold d5; rewrite length_put32; lia).

Section layout.
Context (d : block) (off : nat) (di : dinode).
Hypothesis Ha : length (d_addrs di) = 13%nat.
Hypothesis Hl : (off + 64 <= length d)%nat.

Lemma length_put_dinode : length (put_dinode d off di) = length d.
Proof. put_dinode_steps d off di d1 d2 d3 d4 d5. rewrite length_put_addrs; lia. Qed.

(** Outside of the structure nothing changes. *)
Lemma put_dinode_sub o n : (o + n <= off \/ off + 64 <= o)%nat -> sub (put_dinode d off di) o n = sub d o n.
Proof.
  intros Ho. put_dinode_steps d off di d1 d2 d3 d4 d5.
  trans (sub d5 o n); [destruct Ho; [apply put_addrs_before|apply put_addrs_after]; lia|].
  unfold d5, put32. rewrite sub_splice_ne by (rewrite ?length_le_bytes; lia).
  unfold d4, put16. rewrite sub_splice_ne by (rewrite ?length_le_bytes; lia).
  unfold d3, put16. rewrite sub_splice_ne by (rewrite ?length_le_bytes; lia).
  unfold d2, put16. rewrite sub_splice_ne by (rewrite ?length_le_bytes; lia).
  unfold d1, put16. by rewrite sub_splice_ne by (rewrite ?length_le_bytes; lia).
Qed.

(** Another inode of the same block. *)
Lemma get_put_dinode_ne off' : (off' + 64 <= off \/ off + 64 <= off')%nat ->
  get_dinode (put_dinode d off di) off' = get_dinode d off'.
Proof.
  intros Ho. unfold get_dinode, get16, get32. rewrite !put_dinode_sub by lia. f_equal.
  apply list_fmap_ext. intros i x Hx. apply lookup_seq in Hx as [-> Hx]. rewrite put_dinode_sub; [done|].
  change (Z.to_nat NDIRECT) with 12%nat in Hx. lia.
Qed.

Lemma put_dinode_ok : block_ok d -> block_ok (put_dinode d off di).
Proof.
  intros [Hd Hb]. split; [by rewrite length_put_dinode|]. unfold put_dinode.
  assert (Hp : forall addrs d o, Forall in_u8 d -> Forall in_u8 (put_addrs d o addrs)).
  { induction addrs as [|x addrs IH]; intros d0 o0 H0; cbn [put_addrs]; [done|]. apply IH, Forall_splice; [done|apply le_bytes_range]. }
  apply Hp. unfold put32, put16. repeat (apply Forall_splice; [|apply le_bytes_range]). done.
Qed.

(** Reading back what was written. *)
Lemma sub_put16 (b : block) o v : (o + 2 <= length b)%nat -> in_i16 v -> i16 (le_val (sub (put16 b o v) o 2)) = v.
Proof.
  intros Hb Hv. change (le_val _) with (get16 (put16 b o v) o). rewrite get16_put16_eq by done. by apply i16_u16.
Qed.

Lemma get_put_dinode_eq : dinode_ok di -> get_dinode (put_dinode d off di) off = di.
Proof.
  intros [H1 H2 H3 H4 H5 _ H7]. put_dinode_steps d off di d1 d2 d3 d4 d5. unfold get_dinode, get16, get32.
  rewrite !put_addrs_before by lia.
  assert (E5 : forall o n, (o + n <= off + 8)%nat -> sub d5 o n = sub d4 o n)
    by (intros o n Ho; unfold d5, put32; by rewrite sub_splice_ne by (rewrite ?length_le_bytes; lia)).
  assert (E4 : forall o n, (o + n <= off + 6)%nat -> sub d4 o n = sub d3 o n)
    by (intros o n Ho; unfold d4, put16; by rewrite sub_splice_ne by (rewrite ?length_le_bytes; lia)).
  assert (E3 : forall o n, (o + n <= off + 4)%nat -> sub d3 o n = sub d2 o n)
    by (intros o n Ho; unfold d3, put16; by rewrite sub_splice_ne by (rewrite ?length_le_bytes; lia)).
  assert (E2 : forall o n, (o + n <= off + 2)%nat -> sub d2 o n = sub d1 o n)
    by (intros o n Ho; unfold d2, put16; by rewrite sub_splice_ne by (rewrite ?length_le_bytes; lia)).
  rewrite (E5 off), (E4 off), (E3 off), (E2 off), (E5 (off + 2)%nat), (E4 (off + 2)%nat), (E3 (off + 2)%nat),
    (E5 (off + 4)%nat), (E4 (off + 4)%nat), (E5 (off + 6)%nat) by lia.
  unfold d1 at 1, d2 at 1, d3 at 1, d4 at 1. rewrite !sub_put16 by (done || lia).
  change (le_val (sub d5 (off + 8) 4)) with (get32 d5 (off + 8)). unfold d5 at 1. rewrite get32_put32_eq, u32_small by (done || lia).
  destruct di as [t ma mi nl sz ad] eqn:Edi. cbn [d_type d_major d_minor d_nlink d_size d_addrs] in *. f_equal.
  apply list_eq. intros i. destruct (decide (i < 13)%nat) as [Hi|Hi].
  - rewrite list_lookup_fmap, lookup_seq_lt by done. destruct (lookup_lt_is_Some_2 ad i) as [x Hx]; [lia|].
    rewrite Hx. cbn [fmap option_fmap option_map]. f_equal.
    change (le_val _) with (get32 (put_addrs d5 (off + 12) ad) (off + 12 + 4 * i)).
    apply put_addrs_at; [lia|done|]. by apply (Forall_lookup_1 _ _ _ _ H7 Hx).
  - rewrite !lookup_ge_None_2; [done|lia|]. rewrite length_fmap, length_seq. change (Z.to_nat NDIRECT) with 12%nat. lia.
Qed.

End layout.

Lemma get_dinode_ok (b : block) off : block_ok b -> dinode_ok (get_dinode b off).
Proof.
  intros Hb. assert (Hi : forall z, in_i16 (i16 z)).
  { intros z. unfold in_i16, i16. pose proof (Z.mod_pos_bound (z + 2 ^ 15) (2 ^ 16) ltac:(lia)). lia. }
  split; cbn [get_dinode d_type d_major d_minor d_nlink d_size d_addrs]; try apply Hi.
  - by apply get32_range.
  - by rewrite length_fmap, length_seq.
  - apply Forall_fmap, Forall_forall. intros i _. by apply get32_range.
Qed.
