(* ===== verification/Iblock.v ===== *)
(** Inodes on the disk: where inode [inum] is, and what writing it changes. *)

From S2P Require Import Prelude Block Sleeplock Log Tx Fs Bitmap Inode Dinode.

Open Scope Z_scope.

(** Inode [inum] as it is on the disk. *)
Definition inode_of (sb : superblock) (D : list block) (inum : Z) : dinode := get_dinode (dat D (IBLOCK inum sb)) (dinode_off inum).

Section iblock.
Context {S : Type} `{TXL : TxStoreLaws S}.
Context (sb : superblock) (len : nat) (Hsb : sb_ok sb len).

Lemma IBLOCK_range inum : 0 <= inum < sb_ninodes sb ->
  IBLOCK inum sb = inum / IPB + sb_inodestart sb /\ tx_first <= IBLOCK inum sb < sb_bmapstart sb /\ 0 <= IBLOCK inum sb < Z.of_nat len /\
  ~ bitmap_block sb (IBLOCK inum sb) /\ IBLOCK inum sb < data_start sb.
Proof.
  destruct Hsb as [G1 G2 G3 G4 G5 G6 G7]. intros Hi. unfold bitmap_block, IBLOCK, data_start in *. change IPB with 8 in *. change BPB with 4096 in *.
  assert (0 <= inum / 8 <= sb_ninodes sb / 8) by (split; [apply Z.div_pos; lia|apply Z.div_le_mono; lia]).
  assert (0 <= sb_size sb / 4096) by (apply Z.div_pos; lia).
  rewrite u32_small by (unfold in_u32; lia). lia.
Qed.

Lemma dinode_off_range inum : 0 <= inum -> (dinode_off inum + 64 <= 512)%nat.
Proof. intros Hi. unfold dinode_off. change IPB with 8. change DINODE with 64. pose proof (Z.mod_pos_bound inum 8). lia. Qed.

(** The disk after iupdate. *)
Definition updated (D : list block) (inum : Z) (di : dinode) : list block :=
  <[Z.to_nat (IBLOCK inum sb) := put_dinode (dat D (IBLOCK inum sb)) (dinode_off inum) di]> D.

Section updated.
Context (D : list block) (inum : Z) (di : dinode).
Hypothesis Hl : length D = len.
Hypothesis HD : Forall block_ok D.
Hypothesis Hi : 0 <= inum < sb_ninodes sb.
Hypothesis Hdi : dinode_ok di.

Lemma iblock_dat : block_ok (dat D (IBLOCK inum sb)) /\ D !! Z.to_nat (IBLOCK inum sb) = Some (dat D (IBLOCK inum sb)).
Proof.
  destruct (IBLOCK_range inum Hi) as (_ & _ & Hr & _). destruct (lookup_lt_is_Some_2 D (Z.to_nat (IBLOCK inum sb))) as [d Hd]; [lia|].
  unfold dat. rewrite Hd. split; [by apply (Forall_lookup_1 _ _ _ _ HD Hd)|done].
Qed.

Lemma updated_dat x : 0 <= x -> x <> IBLOCK inum sb -> updated D inum di !! Z.to_nat x = D !! Z.to_nat x.
Proof. intros Hx Hne. destruct (IBLOCK_range inum Hi) as (_ & _ & Hr & _). unfold updated. by rewrite list_lookup_insert_ne by lia. Qed.

Lemma updated_self : dat (updated D inum di) (IBLOCK inum sb) = put_dinode (dat D (IBLOCK inum sb)) (dinode_off inum) di.
Proof.
  destruct (IBLOCK_range inum Hi) as (_ & _ & Hr & _). unfold dat at 1, updated. rewrite list_lookup_insert_eq; [done|]. lia.
Qed.

Lemma updated_inode : inode_of sb (updated D inum di) inum = di.
Proof.
  destruct iblock_dat as [[Hb _] _]. unfold inode_of. rewrite updated_self. apply get_put_dinode_eq; [apply Hdi| |done].
  pose proof (dinode_off_range inum ltac:(lia)). change (Z.to_nat BSIZE) with 512%nat in Hb. lia.
Qed.

Lemma updated_inode_ne inum' : 0 <= inum' < sb_ninodes sb -> inum' <> inum -> inode_of sb (updated D inum di) inum' = inode_of sb D inum'.
Proof.
  intros Hi' Hne. destruct (IBLOCK_range inum Hi) as (E & _ & Hr & _). destruct (IBLOCK_range inum' Hi') as (E' & _ & Hr' & _).
  unfold inode_of. destruct (decide (IBLOCK inum' sb = IBLOCK inum sb)) as [Eb|Hnb].
  - rewrite Eb, updated_self. destruct iblock_dat as [[Hb _] _]. change (Z.to_nat BSIZE) with 512%nat in Hb.
    pose proof (dinode_off_range inum ltac:(lia)). apply get_put_dinode_ne; [apply Hdi|lia|].
    rewrite E, E' in Eb. unfold dinode_off. change IPB with 8 in *. change DINODE with 64. Z.to_euclidean_division_equations. lia.
  - unfold dat. by rewrite updated_dat by (done || lia).
Qed.

Lemma updated_ok : Forall block_ok (updated D inum di).
Proof.
  destruct iblock_dat as [Hb _]. apply Forall_insert; [done|]. apply put_dinode_ok; [apply Hdi| |done].
  pose proof (dinode_off_range inum ltac:(lia)). destruct Hb as [-> _]. change (Z.to_nat BSIZE) with 512%nat. lia.
Qed.

End updated.

Lemma updated_same D inum di d x :
  length D = len -> Forall block_ok D -> 0 <= inum < sb_ninodes sb -> wf_file sb D di -> owned D di x ->
  updated D inum d !! Z.to_nat x = D !! Z.to_nat x /\ data_used sb (updated D inum d) x.
Proof.
  intros Hl HD Hi Hwf Ho. destruct (IBLOCK_range inum Hi) as (_ & _ & Hr & Hb & Hds).
  pose proof (owned_used sb D di x Hwf Ho) as Hx. pose proof Hx as [Hxr Hu]. pose proof (data_start_pos sb len Hsb). split.
  - apply updated_dat; (done || lia).
  - split; [done|]. unfold updated. by rewrite (used_insert sb len Hsb) by (done || lia).
Qed.

End iblock.
