(* ===== verification/File.v ===== *)
(** Reading and writing files: bmap, readi and writei of [fs.c] against the
    contents of the file. *)

From S2P Require Import Prelude Block Sleeplock Log Tx Fs Bitmap Inode Dinode Iblock.

Open Scope Z_scope.

(** ** One inode and the store *)

Section upd.
Context {S : Type} `{TXL : TxStoreLaws S}.

(** The state [s] with store [t] and entry [i] at [ip]. *)
Definition upd (s : fstate S) (ip : nat) (t : S) (i : inode) : fstate S :=
  FState t (ic_lock s) (<[ip := i]> (icache s)) (fsb s) (fcwd s).

Context (s : fstate S) (ip : nat).
Hypothesis Hip : (ip < length (icache s))%nat.

Lemma upd_self i : icache s !! ip = Some i -> upd s ip (fdk s) i = s.
Proof. intros Hi. unfold upd. rewrite list_insert_id by done. by destruct s. Qed.

Lemma upd_upd t i t' i' : upd (upd s ip t i) ip t' i' = upd s ip t' i'.
Proof. unfold upd. cbn. by rewrite list_insert_insert_eq. Qed.

Lemma wpe_iat t i (Q : inode -> fstate S -> Prop) E : Q i (upd s ip t i) -> wpe (iat ip) (upd s ip t i) Q E.
Proof.
  intros HQ. unfold iat. apply wpe_bind, wpe_get. cbn [upd icache]. rewrite list_lookup_insert_eq by done. by apply wpe_ret.
Qed.

Lemma wpe_imod t i f (Q : unit -> fstate S -> Prop) E : Q tt (upd s ip t (f i)) -> wpe (imod ip f) (upd s ip t i) Q E.
Proof.
  intros HQ. unfold imod. apply wpe_bind, wpe_iat, wpe_modify. cbn [icache upd fdk ic_lock fsb fcwd].
  unfold set_icache. cbn. by rewrite list_insert_insert_eq.
Qed.

Lemma wpe_dk {A} (m : M S A) t i (Q : A -> fstate S -> Prop) E :
  wpe m t (fun a t' => Q a (upd s ip t' i)) (fun w t' => E w (upd s ip t' i)) -> wpe (dk m) (upd s ip t i) Q E.
Proof. unfold wpe, dk, zoom. cbn [view update fdk upd]. by destruct (m t). Qed.

End upd.

Section files.
Context {S : Type} `{TXL : TxStoreLaws S}.
Context (s : fstate S) (ip : nat).
Hypothesis Hip : (ip < length (icache s))%nat.

Local Notation sb := (fsb s).
Context (len : nat) (Hsb : sb_ok sb len).

(** The disk is full: how the operations stop that need a block. *)
Definition disk_full (w : stop) (s' : fstate S) : Prop :=
  w = Panicked "balloc: out of blocks" /\ exists D hs L lim, tview (fdk s') D hs ∅ L lim /\ full sb D.

Lemma alloc_at t D hs L lim i (Q : Z -> fstate S -> Prop) :
  tview t D hs ∅ L lim -> length D = len -> meta_used sb D -> held_used sb D hs -> (size hs < max_held)%nat ->
  bitmaps sb ⊆ L -> (size L < lim)%nat ->
  (forall a t', tview t' (allocated sb D a) hs ∅ ({[a]} ∪ L) lim -> fresh sb D a -> Q a (upd s ip t' i)) ->
  wpe (dk (balloc ROOTDEV sb)) (upd s ip t i) Q disk_full.
Proof.
  intros Hv Hl Hmeta Hheld Hs HBM HL HQ. apply wpe_dk. eapply wpe_mono; [| |by apply (balloc_spec sb len Hsb)].
  - intros a t' (Hv' & Ha & Hf & _). by apply HQ.
  - intros w t' (-> & Hf & Hv'). split; [done|]. by exists D, hs, L, lim.
Qed.

(** Part [n] of the addresses in the inode: n is a direct block, or the
    indirect one. *)
Lemma bmap_addr_spec t D L lim i n (Q : Z -> fstate S -> Prop) :
  tview t D ∅ ∅ L lim -> length D = len -> meta_used sb D -> bitmaps sb ⊆ L -> (size L < lim)%nat ->
  i_dev i = ROOTDEV ->
  (addr_of (i_d i) n <> 0 -> Q (addr_of (i_d i) n) (upd s ip t i)) ->
  (forall a t', addr_of (i_d i) n = 0 -> tview t' (allocated sb D a) ∅ ∅ ({[a]} ∪ L) lim -> fresh sb D a ->
     Q a (upd s ip t' (set_i_d (with_addr (i_d i) n a) i))) ->
  wpe (bmap_addr ip n) (upd s ip t i) Q disk_full.
Proof.
  intros Hv Hl Hmeta HBM HL Hdev H1 H2. unfold bmap_addr. apply wpe_bind, wpe_get. apply wpe_bind, wpe_iat; [done|].
  change (addr_at i n) with (addr_of (i_d i) n). destruct (Z.eqb_spec (addr_of (i_d i) n) 0) as [E|Hne].
  - apply wpe_bind. rewrite Hdev. eapply alloc_at; try done; [by vm_compute; lia|]. intros a t' Hv' Hf.
    apply wpe_bind, wpe_imod; [done|]. apply wpe_ret. by apply H2.
  - by apply wpe_ret, H1.
Qed.

Definition ind_set (di : dinode) : gset Z := if ind di =? 0 then ∅ else {[ind di]}.

Lemma extends_meta D di D' di' : extends sb D di D' di' -> meta_used sb D -> meta_used sb D'.
Proof.
  intros Hg Hm x Hx. pose proof (so_data _ _ Hsb). apply (ex_used _ _ _ _ _ Hg); [lia|by apply Hm].
Qed.

Lemma bread_data {A} t D hs L lim i x (K : nat -> block -> M (fstate S) A) (Q : A -> fstate S -> Prop) E :
  tview t D hs ∅ L lim -> length D = len -> data_used sb D x -> (forall k, hs !! k <> Some x) -> (size hs < max_held)%nat ->
  (forall k t', hs !! k = None -> tview t' D (<[k := x]> hs) ∅ L lim -> wpe (K k (dat D x)) (upd s ip t' i) Q E) ->
  wpe (bp ← dk (tx_bread ROOTDEV x); d ← dk (tx_data bp); K bp d) (upd s ip t i) Q E.
Proof.
  intros Hv Hl Hx Hn Hs HK. destruct (data_used_range sb len Hsb D x Hx) as [Hr _]. pose proof (so_size _ _ Hsb).
  destruct (lookup_lt_is_Some_2 D (Z.to_nat x)) as [d Hd]; [lia|].
  apply wpe_bind, wpe_dk. eapply wpe_tbread; [done|lia|done|done|]. intros k t' Hk Hv'.
  apply wpe_bind, wpe_dk. eapply wpe_tdata; [done|apply lookup_insert_eq|done|].
  assert (dat D x = d) as <- by (unfold dat; by rewrite Hd). by apply HK.
Qed.

(** Changing a buffer, logging it as one of [L] and releasing it. *)
Lemma write_back {A} t D hs L lim i k x d (m : M (fstate S) A) (Q : A -> fstate S -> Prop) E :
  tview t D (<[k := x]> hs) ∅ L lim -> hs !! k = None -> block_ok d -> tx_first <= x -> (size L < lim)%nat -> x ∈ L ->
  (forall t', tview t' (<[Z.to_nat x := d]> D) hs ∅ L lim -> wpe m (upd s ip t' i) Q E) ->
  wpe (dk (tx_set k d) ;; dk (tx_log_write k) ;; dk (tx_brelse k) ;; m) (upd s ip t i) Q E.
Proof.
  intros Hv Hk Hd Hx HL Hin Hm. apply wpe_bind, wpe_dk. eapply wpe_tset; [exact Hv|apply lookup_insert_eq|done|].
  intros t1 Hv1. apply wpe_bind, wpe_dk. eapply wpe_tlog; [exact Hv1|apply lookup_insert_eq|done|done|].
  intros t2 Hv2. apply wpe_bind, wpe_dk. eapply wpe_tbrelse; [exact Hv2|apply lookup_insert_eq|set_solver +|].
  intros t3 Hv3. rewrite delete_insert_id in Hv3 by done. apply Hm.
  destruct Hv3 as (? & ? & ? & Hd3 & HL3 & ?). split_and!; try done; [set_solver +Hd3|set_solver +HL3 Hin].
Qed.

Lemma write_back_last t D hs L lim i k x d (Q : unit -> fstate S -> Prop) E :
  tview t D (<[k := x]> hs) ∅ L lim -> hs !! k = None -> block_ok d -> tx_first <= x -> (size L < lim)%nat -> x ∈ L ->
  (forall t', tview t' (<[Z.to_nat x := d]> D) hs ∅ L lim -> Q tt (upd s ip t' i)) ->
  wpe (dk (tx_set k d) ;; dk (tx_log_write k) ;; dk (tx_brelse k)) (upd s ip t i) Q E.
Proof.
  intros Hv Hk Hd Hx HL Hin HQ.
  pose proof (write_back t D hs L lim i k x d (mret tt) Q E Hv Hk Hd Hx HL Hin HQ) as Hw. unfold wpe, mbind, M_bind, mret, M_ret in *.
  repeat case_match; simplify_eq; try done; by destruct_or?; repeat match goal with u : unit |- _ => destruct u end.
Qed.

Lemma data_ge_first D x : data_used sb D x -> tx_first <= x.
Proof. intros [Hx _]. pose proof (data_start_pos sb len Hsb). lia. Qed.

(** The part of bmap that looks in the indirect block. *)
Lemma bmap_indirect_spec t D L lim i bn (Q : Z -> fstate S -> Prop) :
  tview t D ∅ ∅ L lim -> length D = len -> meta_used sb D -> bitmaps sb ⊆ L -> (size L + 1 < lim)%nat ->
  i_dev i = ROOTDEV -> wf_file sb D (i_d i) -> ind (i_d i) <> 0 -> 0 <= bn < NINDIRECT ->
  (forall t' D' L', tview t' D' ∅ ∅ L' lim -> file_grows sb D (i_d i) D' (i_d i) ->
     addr D' (i_d i) (bn + NDIRECT) <> 0 -> L ⊆ L' -> L' ⊆ L ∪ {[addr D' (i_d i) (bn + NDIRECT)]} ∪ ind_set (i_d i) ->
     (addr D (i_d i) (bn + NDIRECT) <> 0 -> D' = D /\ L' = L) ->
     Q (addr D' (i_d i) (bn + NDIRECT)) (upd s ip t' i)) ->
  wpe (s0 ← get; i0 ← iat ip; bp ← dk (tx_bread (i_dev i0) (ind (i_d i))); a ← dk (tx_data bp);
       addr ← (if word_at a bn =? 0 then
                 addr ← dk (balloc (i_dev i0) (fsb s0));
                 dk (tx_set bp (put32 a (4 * Z.to_nat bn) addr)) ;;
                 dk (tx_log_write bp) ;;
                 mret addr
               else mret (word_at a bn));
       dk (tx_brelse bp) ;; mret addr) (upd s ip t i) Q disk_full.
Proof.
  intros Hv Hl Hmeta HBM HL Hdev Hwf Hi Hbn HQ. set (di := i_d i) in *.
  pose proof (wf_ind _ _ _ Hwf Hi) as Hiu. destruct (data_used_range sb len Hsb D _ Hiu) as [Hir Hib].
  assert (Eaddr : addr D di (bn + NDIRECT) = word_at (dat D (ind di)) bn).
  { unfold addr. rewrite (proj2 (Z.ltb_ge _ _)) by lia. rewrite (proj2 (Z.eqb_neq _ _)) by done. f_equal. lia. }
  apply wpe_bind, wpe_get. apply wpe_bind, wpe_iat; [done|]. rewrite Hdev. fold di.
  eapply bread_data; [done|done|done|done|by vm_compute; lia|]. intros k t1 Hk Hv1. apply wpe_bind.
  destruct (Z.eqb_spec (word_at (dat D (ind di)) bn) 0) as [E|Hne].
  - apply wpe_bind. cbn [fsb upd]. eapply alloc_at; [done|done|done| |rewrite map_size_insert_None by done; by vm_compute; lia|done|lia|].
    { intros j x [[_ <-]|[_ Hj]]%lookup_insert_Some; [|done]. split; [apply Hiu|done]. }
    intros a t2 Hv2 Hf. pose proof (tview_disk_ok _ _ _ _ _ _ Hv) as HD.
    pose proof (grow_indirect sb len Hsb D di a Hwf Hl HD Hf bn Hi Hbn E) as Hg.
    set (D' := <[Z.to_nat (ind di) := put32 (dat D (ind di)) (4 * Z.to_nat bn) a]> (allocated sb D a)) in *.
    assert (Ea : addr D' di (bn + NDIRECT) = a) by (by apply (indirect_at sb len Hsb)).
    assert (Hia : ind di <> a) by (by apply (fresh_not_used sb D a Hf)).
    apply wpe_bind, wpe_dk. eapply wpe_tset; [exact Hv2|apply lookup_insert_eq| |].
    { apply put32_ok; [|change NINDIRECT with 128 in Hbn; unfold BSIZE; lia]. rewrite <- (dat_allocated sb len Hsb D a) by done.
      unfold dat. destruct (lookup_lt_is_Some_2 (allocated sb D a) (Z.to_nat (ind di))) as [d Hd].
      { rewrite length_allocated. pose proof (so_size _ _ Hsb). lia. }
      rewrite Hd. by eapply tview_block. }
    intros t3 Hv3. apply wpe_bind, wpe_dk. eapply wpe_tlog; [exact Hv3|apply lookup_insert_eq|by eapply data_ge_first| |].
    { pose proof (size_cons a L). lia. }
    intros t4 Hv4. apply wpe_ret. apply wpe_bind, wpe_dk. eapply wpe_tbrelse; [exact Hv4|apply lookup_insert_eq|set_solver|].
    rewrite delete_insert_id by done. intros t5 Hv5. apply wpe_ret. fold D' in Hv5.
    assert (Hv6 : tview t5 D' ∅ ∅ ({[ind di]} ∪ ({[a]} ∪ L)) lim).
    { destruct Hv5 as (? & ? & ? & ? & ? & ?). split_and!; try done. set_solver. }
    rewrite <- Ea. eapply HQ; [exact Hv6|done| | | |].
    + rewrite Ea. apply (fresh_nonzero sb len Hsb D a Hl Hf).
    + set_solver.
    + rewrite Ea. unfold ind_set. rewrite (proj2 (Z.eqb_neq _ _)) by done. set_solver.
    + rewrite Eaddr. done.
  - apply wpe_ret. apply wpe_bind, wpe_dk. eapply wpe_tbrelse; [exact Hv1|apply lookup_insert_eq|set_solver|].
    rewrite delete_insert_id by done. intros t2 Hv2. apply wpe_ret. rewrite <- Eaddr. eapply HQ; try done.
    + by apply file_grows_refl.
    + by rewrite Eaddr.
    + set_solver.
Qed.

Lemma set_i_d_self i : set_i_d (i_d i) i = i.
Proof. by destruct i. Qed.

(** bmap returns the block of part [bn], after giving the file one if it has
    none. *)
Lemma bmap_spec t D L lim i bn (Q : Z -> fstate S -> Prop) :
  tview t D ∅ ∅ L lim -> length D = len -> meta_used sb D -> bitmaps sb ⊆ L -> (size L + 2 < lim)%nat ->
  i_dev i = ROOTDEV -> wf_file sb D (i_d i) -> 0 <= bn < MAXFILE ->
  (forall t' D' di' L', tview t' D' ∅ ∅ L' lim -> file_grows sb D (i_d i) D' di' -> addr D' di' bn <> 0 ->
     L ⊆ L' -> L' ⊆ L ∪ {[addr D' di' bn]} ∪ ind_set di' ->
     (addr D (i_d i) bn <> 0 -> D' = D /\ di' = i_d i /\ L' = L) ->
     Q (addr D' di' bn) (upd s ip t' (set_i_d di' i))) ->
  wpe (bmap ip bn) (upd s ip t i) Q disk_full.
Proof.
  intros Hv Hl Hmeta HBM HL Hdev Hwf Hbn HQ. unfold bmap. pose proof (tview_disk_ok _ _ _ _ _ _ Hv) as HD.
  destruct (Z.ltb_spec bn NDIRECT) as [Hd|Hd].
  - assert (Ea : addr D (i_d i) bn = addr_of (i_d i) bn) by (unfold addr; by rewrite (proj2 (Z.ltb_lt _ _))).
    apply (bmap_addr_spec t D L lim); try done; [lia|..].
    + intros H0. rewrite <- Ea in H0 |- *.
      assert (Hq : Q (addr D (i_d i) bn) (upd s ip t (set_i_d (i_d i) i))); [|by rewrite set_i_d_self in Hq].
      eapply HQ; try done; [by apply file_grows_refl|set_solver].
    + intros a t' H0 Hv' Hf. assert (Ea' : addr (allocated sb D a) (with_addr (i_d i) bn a) bn = a).
      { unfold addr. rewrite (proj2 (Z.ltb_lt _ _)) by done. rewrite (addr_of_with sb len D) by (done || unfold NDIRECT in *; lia).
        by rewrite Z.eqb_refl. }
      rewrite <- Ea' at 1. eapply HQ; [done|apply (grow_direct sb len Hsb D (i_d i) a Hwf Hl HD Hf bn); [lia|done]| | | |].
      * rewrite Ea'. apply (fresh_nonzero sb len Hsb D a Hl Hf).
      * set_solver.
      * rewrite Ea'. set_solver.
      * by rewrite Ea, H0.
  - rewrite (proj2 (Z.ltb_lt _ _)) by (unfold MAXFILE in Hbn; lia). apply wpe_bind.
    assert (Hbn' : 0 <= bn - NDIRECT < NINDIRECT) by (unfold MAXFILE in Hbn; lia).
    assert (En : bn - NDIRECT + NDIRECT = bn) by lia.
    apply (bmap_addr_spec t D L lim); try done; [lia|..].
    + intros Hi. eapply (bmap_indirect_spec t D L lim); try done; [lia|]. rewrite En.
      intros t' D' L' Hv' Hg Ha HL1 HL2 Hsame.
      assert (Hq : Q (addr D' (i_d i) bn) (upd s ip t' (set_i_d (i_d i) i))); [|by rewrite set_i_d_self in Hq].
      eapply HQ; try done. intros H0. destruct (Hsame H0). done.
    + intros a t' Hi Hv' Hf. assert (Hg : file_grows sb D (i_d i) (allocated sb D a) (with_addr (i_d i) NDIRECT a)) by (by apply (grow_ind_block sb len Hsb)).
      assert (Ei : ind (with_addr (i_d i) NDIRECT a) = a).
      { unfold ind. rewrite (addr_of_with sb len D) by (done || unfold NDIRECT; lia). by rewrite Z.eqb_refl. }
      pose proof (fresh_nonzero sb len Hsb D a Hl Hf) as Ha0. pose proof (size_cons a L).
      pose proof (bmap_indirect_spec t' (allocated sb D a) ({[a]} ∪ L) lim (set_i_d (with_addr (i_d i) NDIRECT a) i) (bn - NDIRECT)) as Hind.
      cbn [i_d set_i_d] in Hind. rewrite Ei, En in Hind.
      apply Hind; try done; [by rewrite length_allocated|by eapply extends_meta; [apply (gr_ext _ _ _ _ _ Hg)|]|set_solver|lia|apply (gr_ext _ _ _ _ _ Hg)|].
      intros t2 D2 L2 Hv2 Hg2 Ha2 HL1 HL2 Hsame.
      eapply HQ; [exact Hv2|by eapply (file_grows_trans sb len Hsb)|done|set_solver| |].
      * unfold ind_set in *. rewrite Ei, (proj2 (Z.eqb_neq _ _)) in * by done. set_solver +HL2.
      * unfold addr. rewrite (proj2 (Z.ltb_ge _ _)) by done. unfold ind. rewrite Hi. done.
Qed.

Lemma bmap_found t D L lim i bn (Q : Z -> fstate S -> Prop) E :
  tview t D ∅ ∅ L lim -> length D = len -> i_dev i = ROOTDEV -> wf_file sb D (i_d i) ->
  0 <= bn < MAXFILE -> addr D (i_d i) bn <> 0 ->
  (forall t', tview t' D ∅ ∅ L lim -> Q (addr D (i_d i) bn) (upd s ip t' i)) ->
  wpe (bmap ip bn) (upd s ip t i) Q E.
Proof.
  intros Hv Hl Hdev Hwf Hbn H0 HQ. unfold bmap, addr in *. destruct (Z.ltb_spec bn NDIRECT) as [Hd|Hd].
  - unfold bmap_addr. apply wpe_bind, wpe_get. apply wpe_bind, wpe_iat; [done|]. change (addr_at i bn) with (addr_of (i_d i) bn).
    rewrite (proj2 (Z.eqb_neq _ _)) by done. by apply wpe_ret, HQ.
  - rewrite (proj2 (Z.ltb_lt _ _)) by (unfold MAXFILE in Hbn; lia).
    destruct (Z.eqb_spec (ind (i_d i)) 0) as [|Hi]; [done|].
    apply wpe_bind. unfold bmap_addr. apply wpe_bind, wpe_get. apply wpe_bind, wpe_iat; [done|].
    change (addr_at i NDIRECT) with (ind (i_d i)). rewrite (proj2 (Z.eqb_neq _ _)) by done. apply wpe_ret.
    apply wpe_bind, wpe_get. apply wpe_bind, wpe_iat; [done|]. rewrite Hdev.
    eapply bread_data; [done|done|by apply (wf_ind _ _ _ Hwf)|done|by vm_compute; lia|]. intros k t1 Hk Hv1.
    rewrite (proj2 (Z.eqb_neq _ _)) by done. apply wpe_bind, wpe_ret. apply wpe_bind, wpe_dk.
    eapply wpe_tbrelse; [exact Hv1|apply lookup_insert_eq|set_solver|].
    rewrite delete_insert_id by done. intros t2 Hv2. by apply wpe_ret, HQ.
Qed.

(** ** Bytes *)

(** [n] bytes of the file from [off] on. *)
Definition frange (D : list block) (di : dinode) (off : Z) (n : nat) : list Z :=
  (fun o => file_byte D di (off + Z.of_nat o)) <$> seq 0 n.

Lemma length_frange D di off n : length (frange D di off n) = n.
Proof. unfold frange. by rewrite length_fmap, length_seq. Qed.

Lemma frange_lookup D di off n j : (j < n)%nat -> frange D di off n !! j = Some (file_byte D di (off + Z.of_nat j)).
Proof. intros Hj. unfold frange. rewrite list_lookup_fmap, lookup_seq_lt by done. done. Qed.

Lemma frange_app D di off a b : frange D di off (a + b) = frange D di off a ++ frange D di (off + Z.of_nat a) b.
Proof.
  apply list_eq. intros j. destruct (decide (j < a)%nat); [|destruct (decide (j < a + b)%nat)].
  - rewrite lookup_app_l, !frange_lookup by (rewrite ?length_frange; lia). done.
  - rewrite lookup_app_r, length_frange, !frange_lookup by (rewrite ?length_frange; lia). do 2 f_equal. lia.
  - rewrite !lookup_ge_None_2; [done|..]; rewrite ?length_app, ?length_frange; lia.
Qed.

Lemma frange_fdata D di off n : 0 <= off -> off + Z.of_nat n <= d_size di ->
  frange D di off n = sub (fdata D di) (Z.to_nat off) n.
Proof.
  intros Ho Hn. apply list_eq. intros j. destruct (decide (j < n)%nat).
  - rewrite frange_lookup, lookup_sub by done. unfold fdata. rewrite list_lookup_fmap, lookup_seq_lt by lia. cbn. do 2 f_equal. lia.
  - rewrite !lookup_ge_None_2; [done| |rewrite length_frange; lia]. unfold sub. rewrite length_take. lia.
Qed.

Lemma part_of off j : 0 <= off -> 0 <= j < BSIZE - off mod BSIZE ->
  (off + j) / BSIZE = off / BSIZE /\ (off + j) mod BSIZE = off mod BSIZE + j.
Proof. unfold BSIZE. intros. Z.to_euclidean_division_equations. lia. Qed.

(** The bytes that one turn of the loops moves are in one block. *)
Lemma chunk_bytes D di off m :
  0 <= off -> 0 <= m <= BSIZE - off mod BSIZE -> addr D di (off / BSIZE) <> 0 ->
  length (dat D (addr D di (off / BSIZE))) = Z.to_nat BSIZE ->
  sub (dat D (addr D di (off / BSIZE))) (Z.to_nat (off mod BSIZE)) (Z.to_nat m) = frange D di off (Z.to_nat m).
Proof.
  intros Ho Hm Ha Hd. pose proof (Z.mod_pos_bound off BSIZE ltac:(unfold BSIZE; lia)).
  apply list_eq. intros j. destruct (decide (j < Z.to_nat m)%nat).
  - rewrite frange_lookup, lookup_sub by done. unfold file_byte. destruct (part_of off (Z.of_nat j)) as [-> ->]; [lia|lia|].
    rewrite (proj2 (Z.eqb_neq _ _)) by done. unfold byte_at.
    destruct (lookup_lt_is_Some_2 (dat D (addr D di (off / BSIZE))) (Z.to_nat (off mod BSIZE) + j)) as [x Hx]; [lia|].
    rewrite Hx. replace (Z.to_nat (off mod BSIZE + Z.of_nat j)) with (Z.to_nat (off mod BSIZE) + j)%nat by lia. by rewrite Hx.
  - rewrite !lookup_ge_None_2; [done|rewrite length_frange; lia|]. unfold sub. rewrite length_take. lia.
Qed.

Lemma dat_ok D x : Forall block_ok D -> length D = len -> data_used sb D x -> block_ok (dat D x) /\ D !! Z.to_nat x = Some (dat D x).
Proof.
  intros HD Hl Hx. destruct (data_used_range sb len Hsb D x Hx) as [Hr _]. pose proof (so_size _ _ Hsb).
  destruct (lookup_lt_is_Some_2 D (Z.to_nat x)) as [d Hd]; [lia|]. unfold dat. rewrite Hd. split; [|done].
  by apply (Forall_lookup_1 _ _ _ _ HD Hd).
Qed.

(** ** readi *)

Section transfer.

Lemma part_range D di off k : wf_file sb D di -> 0 <= off -> 0 < k -> off + k <= MAXFILE * BSIZE -> 0 <= off / BSIZE < MAXFILE.
Proof. intros _ Ho Hk Hle. unfold BSIZE in *. split; [apply Z.div_pos; lia|apply Z.div_lt_upper_bound; lia]. Qed.

Lemma chunk_bounds off k : 0 <= off -> 0 < k ->
  let m := Z.min k (BSIZE - off mod BSIZE) in 0 < m <= k /\ m <= BSIZE - off mod BSIZE /\ 0 <= off mod BSIZE < BSIZE.
Proof. intros Ho Hk m. pose proof (Z.mod_pos_bound off BSIZE ltac:(unfold BSIZE; lia)). unfold m. lia. Qed.

Lemma readi_loop_spec fuel t D L lim i off n tot (Q : list Z -> fstate S -> Prop) E :
  tview t D ∅ ∅ L lim -> length D = len -> i_dev i = ROOTDEV -> wf_file sb D (i_d i) ->
  0 <= off -> tot <= n -> off + (n - tot) <= d_size (i_d i) -> n - tot < Z.of_nat fuel ->
  (forall t', tview t' D ∅ ∅ L lim -> Q (frange D (i_d i) off (Z.to_nat (n - tot))) (upd s ip t' i)) ->
  wpe (readi_loop fuel ip off n tot) (upd s ip t i) Q E.
Proof.
  revert t off tot Q. induction fuel as [|fuel IH]; intros t off tot Q Hv Hl Hdev Hwf Ho Htot Hsz Hf HQ; [lia|].
  cbn [readi_loop]. destruct (Z.ltb_spec tot n) as [Hlt|Hge].
  2: { apply wpe_ret. replace (Z.to_nat (n - tot)) with 0%nat in HQ by lia. by apply HQ. }
  destruct (chunk_bounds off (n - tot) Ho ltac:(lia)) as (Hm1 & Hm2 & Hmod). pose proof (wf_size _ _ _ Hwf) as Hws.
  assert (Hpart : 0 <= off / BSIZE < MAXFILE) by (apply (part_range D (i_d i) off (n - tot)); (done || lia)).
  assert (Ha : addr D (i_d i) (off / BSIZE) <> 0).
  { apply (wf_holes _ _ _ Hwf); [lia|]. unfold BSIZE in *. Z.to_euclidean_division_equations. lia. }
  pose proof (wf_addr _ _ _ Hwf _ Hpart Ha) as Hu. pose proof (tview_disk_ok _ _ _ _ _ _ Hv) as HD.
  destruct (dat_ok D _ HD Hl Hu) as [[Hdl _] _].
  apply wpe_bind, wpe_iat; [done|]. apply wpe_bind, (bmap_found t D L lim); try done. intros t1 Hv1. rewrite Hdev.
  eapply bread_data; [done|done|done|done|by vm_compute; lia|]. intros k t2 Hk Hv2. cbv zeta.
  apply wpe_bind, wpe_dk. eapply wpe_tbrelse; [exact Hv2|apply lookup_insert_eq|set_solver|].
  rewrite delete_insert_id by done. intros t3 Hv3. rewrite chunk_bytes by (done || lia).
  set (m := Z.min (n - tot) (BSIZE - off mod BSIZE)) in *.
  apply wpe_bind. apply IH; try done; try lia. intros t4 Hv4. apply wpe_ret.
  replace (Z.to_nat (n - tot)) with (Z.to_nat m + Z.to_nat (n - (tot + m)))%nat in HQ by lia.
  rewrite frange_app, Z2Nat.id in HQ by lia. by apply HQ.
Qed.

Lemma readi_spec devsw_read t D L lim i off n (Q : Z * list Z -> fstate S -> Prop) E :
  tview t D ∅ ∅ L lim -> length D = len -> i_dev i = ROOTDEV -> wf_file sb D (i_d i) -> d_type (i_d i) <> T_DEV ->
  in_u32 off -> in_u32 n ->
  (off > d_size (i_d i) \/ 2 ^ 32 <= off + n -> Q (-1, []) (upd s ip t i)) ->
  (forall t' bs, off <= d_size (i_d i) -> off + n < 2 ^ 32 -> tview t' D ∅ ∅ L lim ->
     bs = sub (fdata D (i_d i)) (Z.to_nat off) (Z.to_nat n) -> Q (Z.of_nat (length bs), bs) (upd s ip t' i)) ->
  wpe (readi devsw_read ip off n) (upd s ip t i) Q E.
Proof.
  intros Hv Hl Hdev Hwf Ht Ho Hn HQ1 HQ2. unfold readi. apply wpe_bind, wpe_iat; [done|].
  rewrite (proj2 (Z.eqb_neq _ _) Ht). pose proof (wf_size _ _ _ Hwf) as Hws. change (MAXFILE * BSIZE) with 71680 in Hws.
  unfold in_u32 in *. destruct (Z.ltb_spec (d_size (i_d i)) off); cbn [orb]; [apply wpe_ret, HQ1; lia|].
  destruct (Z.lt_ge_cases (off + n) (2 ^ 32)) as [Hs|Hs].
  2: { rewrite (proj2 (Z.ltb_lt _ _)); [apply wpe_ret, HQ1; lia|]. unfold u32. rewrite <- (Z.mod_add _ (-1)) by lia.
       rewrite Z.mod_small; lia. }
  rewrite u32_small by (unfold in_u32; lia). rewrite (proj2 (Z.ltb_ge (off + n) off)) by lia. cbv zeta.
  set (n' := if d_size (i_d i) <? off + n then d_size (i_d i) - off else n).
  assert (Hn' : n' = Z.min n (d_size (i_d i) - off)) by (unfold n'; destruct (Z.ltb_spec (d_size (i_d i)) (off + n)); lia).
  apply wpe_bind. eapply (readi_loop_spec _ t D L lim); try done; try lia. intros t' Hv'. apply wpe_ret.
  rewrite Z.sub_0_r, frange_fdata by lia. rewrite i32_small by (unfold in_i32; lia).
  assert (Hlen : length (fdata D (i_d i)) = Z.to_nat (d_size (i_d i))) by (unfold fdata; by rewrite length_fmap, length_seq).
  assert (Hbs : sub (fdata D (i_d i)) (Z.to_nat off) (Z.to_nat n') = sub (fdata D (i_d i)) (Z.to_nat off) (Z.to_nat n)).
  { unfold sub. destruct (decide (n <= d_size (i_d i) - off)); [by replace n' with n by lia|].
    rewrite !take_ge by (rewrite length_drop, Hlen; lia). done. }
  replace n' with (Z.of_nat (length (sub (fdata D (i_d i)) (Z.to_nat off) (Z.to_nat n)))) at 1.
  - rewrite Hbs. by apply HQ2.
  - rewrite <- Hbs. rewrite length_sub by lia. lia.
Qed.

(** ** writei *)

(** The bytes [f] with [bs] written over them from [off] on. *)
Definition overlay (f : Z -> Z) (off : Z) (bs : list Z) (o : Z) : Z :=
  if decide (off <= o < off + Z.of_nat (length bs)) then default 0 (bs !! Z.to_nat (o - off)) else f o.

Lemma overlay_app f off a b o : overlay (overlay f off a) (off + Z.of_nat (length a)) b o = overlay f off (a ++ b) o.
Proof.
  unfold overlay. rewrite length_app. repeat case_decide; try lia; try done.
  - rewrite lookup_app_r by lia. do 2 f_equal. lia.
  - rewrite lookup_app_l by lia. done.
Qed.

Section chunk.
Context (D : list block) (di : dinode) (off : Z) (bs : list Z).
Hypothesis Hwf : wf_file sb D di.
Hypothesis Hl : length D = len.
Hypothesis HD : Forall block_ok D.
Hypothesis Ho : 0 <= off.
Hypothesis Hpart : 0 <= off / BSIZE < MAXFILE.
Hypothesis Hfit : Z.of_nat (length bs) <= BSIZE - off mod BSIZE.
Let a := addr D di (off / BSIZE).
Hypothesis Ha : a <> 0.
Let D' := <[Z.to_nat a := splice (dat D a) (Z.to_nat (off mod BSIZE)) bs]> D.

Lemma chunk_used : data_used sb D a.
Proof. by apply (wf_addr _ _ _ Hwf). Qed.

Lemma chunk_dat x : data_used sb D x -> x <> a -> dat D' x = dat D x.
Proof.
  intros Hx Hne. destruct (data_used_range sb len Hsb D x Hx) as [? _]. destruct (data_used_range sb len Hsb D a chunk_used) as [? _].
  unfold dat, D'. by rewrite list_lookup_insert_ne by lia.
Qed.

Lemma chunk_addr n : 0 <= n < MAXFILE -> addr D' di n = addr D di n.
Proof.
  intros Hn. unfold addr. destruct (n <? NDIRECT); [done|]. destruct (Z.eqb_spec (ind di) 0); [done|].
  rewrite chunk_dat; [done|by apply (wf_ind _ _ _ Hwf)|]. intros E. by destruct (wf_ind_ne _ _ _ Hwf (off / BSIZE)).
Qed.

Lemma chunk_same_used x : 0 <= x < sb_size sb -> used D' sb x = used D sb x.
Proof.
  intros Hx. destruct (data_used_range sb len Hsb D a chunk_used) as [? ?]. by apply (used_insert sb len Hsb); [lia|..].
Qed.

Lemma chunk_extends : extends sb D di D' di.
Proof.
  pose proof chunk_addr as Haddr. pose proof (data_start_pos sb len Hsb).
  assert (Hdu : forall x, data_used sb D x -> data_used sb D' x).
  { intros x [Hx Hu]. split; [done|]. by rewrite chunk_same_used by lia. }
  split.
  - split; try apply Hwf.
    + intros n Hn. rewrite Haddr by done. intros Hn0. by apply Hdu, Hwf.
    + intros Hi. by apply Hdu, Hwf.
    + intros m n Hm Hn. rewrite !Haddr by done. by apply Hwf.
    + intros n Hn. rewrite Haddr by done. by apply Hwf.
    + intros n Hn Hs. pose proof (wf_size _ _ _ Hwf). rewrite Haddr by (unfold BSIZE in *; lia). by apply Hwf.
  - by destruct di.
  - apply length_insert.
  - done.
  - intros x Hx. by rewrite chunk_same_used.
  - intros x Hx Hu Hb Hown. destruct (data_used_range sb len Hsb D a chunk_used) as [? _].
    unfold D'. rewrite list_lookup_insert_ne; [done|]. intros E. apply Hown. split; [lia|]. right.
    exists (off / BSIZE). split; [done|]. fold a. lia.
  - intros x [Hx [->|(n & Hn & E)]]; left; (split; [done|]); [by left|right]. exists n. by rewrite Haddr in E by done.
Qed.

Lemma chunk_byte o : 0 <= o < MAXFILE * BSIZE -> file_byte D' di o = overlay (file_byte D di) off bs o.
Proof.
  intros Hor. assert (Hn : 0 <= o / BSIZE < MAXFILE).
  { unfold BSIZE in *. split; [apply Z.div_pos; lia|apply Z.div_lt_upper_bound; lia]. }
  destruct (dat_ok D a HD Hl chunk_used) as [[Hdl _] Hat]. pose proof (Z.mod_pos_bound off BSIZE ltac:(unfold BSIZE; lia)).
  unfold file_byte, overlay. rewrite chunk_addr by done. case_decide as Hin.
  - destruct (part_of off (o - off)) as [E1 E2]; [done|lia|]. replace (off + (o - off)) with o in * by lia.
    rewrite E1, E2. fold a. rewrite (proj2 (Z.eqb_neq a 0)) by done. unfold dat at 1, D'.
    rewrite list_lookup_insert_eq by (by eapply lookup_lt_Some). cbn [default id]. unfold byte_at.
    rewrite lookup_splice by lia. rewrite decide_True by lia. do 2 f_equal. lia.
  - destruct (Z.eqb_spec (addr D di (o / BSIZE)) 0) as [|Hn0]; [done|].
    destruct (decide (addr D di (o / BSIZE) = a)) as [E|Hne].
    + assert (Ep : o / BSIZE = off / BSIZE) by (by apply (wf_inj _ _ _ Hwf)).
      rewrite E. unfold dat at 1, D'. rewrite list_lookup_insert_eq by (by eapply lookup_lt_Some). cbn [default id].
      unfold byte_at. rewrite lookup_splice by lia. rewrite decide_False; [done|].
      intros Hr. apply Hin. unfold BSIZE in *. Z.to_euclidean_division_equations. lia.
    + rewrite chunk_dat; [done|by apply (wf_addr _ _ _ Hwf)|done].
Qed.

End chunk.

(** The number of parts that [k] bytes from [off] on are in. *)
Definition nparts (off k : Z) : nat := if k <=? 0 then 0%nat else Z.to_nat ((off + k - 1) / BSIZE - off / BSIZE + 1).

Lemma nparts_step off k : 0 <= off -> 0 < k ->
  let m := Z.min k (BSIZE - off mod BSIZE) in nparts off k = (1 + nparts (off + m) (k - m))%nat.
Proof.
  intros Ho Hk m. unfold nparts. rewrite (proj2 (Z.leb_gt k 0)) by lia.
  destruct (Z.leb_spec (k - m) 0) as [Hle|Hgt]; unfold m, BSIZE in *.
  - Z.to_euclidean_division_equations. lia.
  - replace (off + Z.min k (512 - off mod 512)) with (512 * (off / 512 + 1)) by (Z.to_euclidean_division_equations; lia).
    replace (512 * (off / 512 + 1) + (k - Z.min k (512 - off mod 512)) - 1) with (off + k - 1)
      by (Z.to_euclidean_division_equations; lia).
    rewrite (Z.mul_comm 512), Z.div_mul by lia.
    assert (off / 512 + 1 <= (off + k - 1) / 512) by (apply Z.div_le_lower_bound; Z.to_euclidean_division_equations; lia). lia.
Qed.

(** Whether the indirect block may still have to be allocated. *)
Definition ind_cost (di : dinode) : nat := if ind di =? 0 then 1 else 0.

Lemma relog_size (L : gset Z) a di di1 :
  ind_set di ⊆ L -> (ind di <> 0 -> ind di1 = ind di) ->
  (size (L ∪ {[a]} ∪ ind_set di1) + ind_cost di1 <= size L + ind_cost di + 1)%nat.
Proof.
  intros HI Hind. unfold ind_set, ind_cost in *. pose proof (size_cons a L) as Ha.
  destruct (Z.eqb_spec (ind di) 0) as [E|Hne].
  - destruct (Z.eqb_spec (ind di1) 0).
    + rewrite (right_id_L ∅ (∪)), (comm_L (∪) L). lia.
    + rewrite (comm_L (∪) _ {[ind di1]}), (comm_L (∪) L). pose proof (size_cons (ind di1) ({[a]} ∪ L)). lia.
  - rewrite Hind, (proj2 (Z.eqb_neq _ _)) by done.
    replace (L ∪ {[a]} ∪ {[ind di]}) with ({[a]} ∪ L) by (apply set_eq; set_solver +HI). lia.
Qed.

Lemma writei_loop_spec fuel src t D L lim i off n tot (Q : Z -> fstate S -> Prop) :
  tview t D ∅ ∅ L lim -> length D = len -> meta_used sb D -> bitmaps sb ⊆ L -> ind_set (i_d i) ⊆ L ->
  i_dev i = ROOTDEV -> wf_file sb D (i_d i) -> n = Z.of_nat (length src) -> Forall in_u8 src ->
  0 <= off -> 0 <= tot <= n -> off + (n - tot) <= MAXFILE * BSIZE -> n - tot < Z.of_nat fuel ->
  (size L + ind_cost (i_d i) + nparts off (n - tot) + 1 < lim)%nat ->
  (forall t' D' di' L', tview t' D' ∅ ∅ L' lim -> extends sb D (i_d i) D' di' ->
     (forall o, 0 <= o < MAXFILE * BSIZE -> file_byte D' di' o = overlay (file_byte D (i_d i)) off (drop (Z.to_nat tot) src) o) ->
     (forall p, 0 <= p < MAXFILE -> addr D (i_d i) p <> 0 -> addr D' di' p <> 0) ->
     (forall p, tot < n -> off / BSIZE <= p -> p * BSIZE < off + (n - tot) -> addr D' di' p <> 0) ->
     (off + (n - tot) <= d_size (i_d i) -> di' = i_d i) ->
     L ⊆ L' -> (size L' + ind_cost di' <= size L + ind_cost (i_d i) + nparts off (n - tot))%nat ->
     Q (off + (n - tot)) (upd s ip t' (set_i_d di' i))) ->
  wpe (writei_loop fuel ip src off n tot) (upd s ip t i) Q disk_full.
Proof.
  revert t D L i off tot Q. induction fuel as [|fuel IH];
    intros t D L i off tot Q Hv Hl Hmeta HBM HI Hdev Hwf Hn H8 Ho Htot Hmax Hf Hlim HQ; [lia|].
  cbn [writei_loop]. destruct (Z.ltb_spec tot n) as [Hlt|Hge].
  2: { apply wpe_ret. replace (off + (n - tot)) with off in HQ by lia. rewrite <- (set_i_d_self i).
       eapply HQ; [exact Hv|by apply extends_refl| |done| |done|done|lia].
       - intros o Hor. rewrite drop_ge by lia. unfold overlay. rewrite decide_False; [done|]. cbn. lia.
       - lia. }
  destruct (chunk_bounds off (n - tot) Ho ltac:(lia)) as (Hm1 & Hm2 & Hmod).
  pose proof (nparts_step off (n - tot) Ho ltac:(lia)) as Hnp. cbv zeta in Hnp.
  set (m := Z.min (n - tot) (BSIZE - off mod BSIZE)) in *.
  assert (Hpart : 0 <= off / BSIZE < MAXFILE) by (apply (part_range D (i_d i) off (n - tot)); (done || lia)).
  apply wpe_bind, wpe_iat; [done|]. apply wpe_bind.
  apply (bmap_spec t D L lim); try done; [unfold ind_cost in Hlim; lia|].
  intros t1 D1 di1 L1 Hv1 Hg Ha HL1 HL2 Hold. pose proof (gr_ext _ _ _ _ _ Hg) as Hx1. pose proof (ex_wf _ _ _ _ _ Hx1) as Hwf1.
  assert (Hl1 : length D1 = len) by (by rewrite (ex_len _ _ _ _ _ Hx1)).
  pose proof (wf_addr _ _ _ Hwf1 _ Hpart Ha) as Hu1. pose proof (tview_disk_ok _ _ _ _ _ _ Hv1) as HD1.
  set (a := addr D1 di1 (off / BSIZE)) in *. cbn [i_dev set_i_d]. rewrite Hdev.
  set (L2 := L ∪ {[a]} ∪ ind_set di1) in *.
  eapply bread_data; [by eapply tview_weaken|done|done|done|by vm_compute; lia|]. intros k t2 Hk Hv2. cbv zeta. fold m.
  set (bs := sub src (Z.to_nat tot) (Z.to_nat m)).
  assert (Hbs : length bs = Z.to_nat m) by (apply length_sub; lia).
  assert (Hb8 : Forall in_u8 bs) by (by apply Forall_sub).
  destruct (dat_ok D1 a HD1 Hl1 Hu1) as [[Hdl Hd8] Hat].
  pose proof (relog_size L a (i_d i) di1 HI (ex_ind _ _ _ _ _ Hx1)) as HsL2. fold L2 in HsL2.
  eapply write_back; [exact Hv2|done| |by eapply data_ge_first|lia|unfold L2; set_solver +|].
  { split; [rewrite length_splice; lia|]. by apply Forall_splice. }
  set (D2 := <[Z.to_nat a := splice (dat D1 a) (Z.to_nat (off mod BSIZE)) bs]> D1) in *. intros t3 Hv3.
  assert (Hx2 : extends sb D1 di1 D2 di1) by (by apply (chunk_extends D1 di1 off bs)).
  assert (Hby : forall o, 0 <= o < MAXFILE * BSIZE -> file_byte D2 di1 o = overlay (file_byte D1 di1) off bs o)
    by (intros o Hor; apply (chunk_byte D1 di1 off bs); (done || lia)).
  assert (Had : forall p, 0 <= p < MAXFILE -> addr D2 di1 p = addr D1 di1 p) by (intros p Hp; by apply (chunk_addr D1 di1 off bs)).
  pose proof (extends_trans sb len Hsb _ _ _ _ _ _ Hx1 Hx2) as Hx.
  pose proof (IH t3 D2 L2 (set_i_d di1 i) (off + m) (tot + m) Q Hv3) as IH'. cbn [i_d set_i_d i_dev] in IH'.
  replace (n - (tot + m)) with (n - tot - m) in IH' by lia.
  apply IH'; try done; try lia.
  - by rewrite (ex_len _ _ _ _ _ Hx2).
  - by eapply extends_meta.
  - unfold L2. set_solver +HBM.
  - unfold L2. set_solver +.
  - apply (ex_wf _ _ _ _ _ Hx2).
  - intros t' D' di' L' Hv' Hx' Hby' Hkeep Hnew Hstay HLL Hsz.
    replace (off + m + (n - tot - m)) with (off + (n - tot)) in * by lia.
    eapply HQ; [exact Hv'|by eapply (extends_trans sb len Hsb)| | | | |etrans; [|exact HLL]; unfold L2; set_solver +|lia].
    + intros o Hor. rewrite Hby' by done.
      replace (drop (Z.to_nat tot) src) with (bs ++ drop (Z.to_nat (tot + m)) src).
      * rewrite <- overlay_app, Hbs, Z2Nat.id by lia. unfold overlay. case_decide; [done|]. rewrite Hby by done.
        unfold overlay. case_decide; [done|]. by apply (gr_byte _ _ _ _ _ Hg).
      * unfold bs, sub. replace (Z.to_nat (tot + m)) with (Z.to_nat tot + Z.to_nat m)%nat by lia.
        rewrite <- drop_drop. apply take_drop.
    + intros p Hp H0. apply Hkeep; [done|]. rewrite Had by done. by rewrite (gr_addr _ _ _ _ _ Hg).
    + intros p _ Hp1 Hp2. destruct (decide (p = off / BSIZE)) as [->|Hne].
      * apply Hkeep; [done|]. by rewrite Had.
      * apply Hnew; [|unfold m, BSIZE in *; Z.to_euclidean_division_equations; lia|done].
        unfold m, BSIZE in *. Z.to_euclidean_division_equations; lia.
    + intros Hin. destruct Hold as (_ & E & _); [|rewrite E in Hstay; by apply Hstay].
      apply (wf_holes _ _ _ Hwf); [lia|]. unfold BSIZE in *. Z.to_euclidean_division_equations. lia.
Qed.

(** ** The inode on the disk *)

Lemma iupdate_spec t D L lim i (Q : unit -> fstate S -> Prop) E :
  tview t D ∅ ∅ L lim -> length D = len -> i_dev i = ROOTDEV -> 0 <= i_inum i < sb_ninodes sb -> dinode_ok (i_d i) ->
  IBLOCK (i_inum i) sb ∈ L -> (size L < lim)%nat ->
  (forall t', tview t' (updated sb D (i_inum i) (i_d i)) ∅ ∅ L lim -> Q tt (upd s ip t' i)) ->
  wpe (iupdate ip) (upd s ip t i) Q E.
Proof.
  intros Hv Hl Hdev Hi Hok HIL HL HQ. destruct (IBLOCK_range sb len Hsb _ Hi) as (_ & [Hf _] & Hr & _).
  pose proof (tview_disk_ok _ _ _ _ _ _ Hv) as HD. destruct (iblock_dat sb len Hsb D (i_inum i) Hl HD Hi) as [Hb Hd].
  unfold iupdate. apply wpe_bind, wpe_get. apply wpe_bind, wpe_iat; [done|]. cbn [fsb upd]. rewrite Hdev.
  apply wpe_bind, wpe_dk. eapply wpe_tbread; [done|lia|done|by vm_compute; lia|]. intros k t1 Hk Hv1.
  apply wpe_bind, wpe_dk. eapply wpe_tdata; [exact Hv1|apply lookup_insert_eq|exact Hd|].
  eapply write_back_last; [exact Hv1|done| |done|done|done|].
  - apply put_dinode_ok; [apply Hok| |done]. pose proof (dinode_off_range (i_inum i) ltac:(lia)). destruct Hb as [-> _].
    change (Z.to_nat BSIZE) with 512%nat. lia.
  - done.
Qed.

(** ** The whole of writei *)

(** The size of a file does not matter to its blocks. *)
Lemma resize_wf D di sz :
  wf_file sb D di -> 0 <= sz <= MAXFILE * BSIZE -> (forall p, 0 <= p -> p * BSIZE < sz -> addr D di p <> 0) ->
  wf_file sb D (set_d_size sz di).
Proof. intros Hwf Hsz Hh. destruct Hwf. by split. Qed.

Lemma length_fdata D di : length (fdata D di) = Z.to_nat (d_size di).
Proof. unfold fdata. by rewrite length_fmap, length_seq. Qed.

Lemma fdata_lookup D di j : (j < Z.to_nat (d_size di))%nat -> fdata D di !! j = Some (file_byte D di (Z.of_nat j)).
Proof. intros Hj. unfold fdata. by rewrite list_lookup_fmap, lookup_seq_lt. Qed.

(** The contents once bytes have been written over them and the size has been
    adjusted. *)
Lemma fdata_overlay D di D' di' off src :
  0 <= off <= d_size di -> 0 <= d_size di -> off + Z.of_nat (length src) <= MAXFILE * BSIZE -> d_size di <= MAXFILE * BSIZE ->
  d_size di' = Z.max (d_size di) (off + Z.of_nat (length src)) ->
  (forall o, 0 <= o < MAXFILE * BSIZE -> file_byte D' di' o = overlay (file_byte D di) off src o) ->
  fdata D' di' = splice (fdata D di) (Z.to_nat off) src.
Proof.
  intros Ho Hs Hmax Hmax2 Hs' Hby. apply list_eq. intros j. unfold splice. pose proof (length_fdata D di) as Hfl.
  destruct (decide (j < Z.to_nat (d_size di'))%nat) as [Hj|Hj].
  - rewrite fdata_lookup, Hby by lia. unfold overlay. case_decide as Hin.
    + rewrite lookup_app_r, length_take by (rewrite length_take; lia). rewrite lookup_app_l by lia.
      replace (Z.to_nat (Z.of_nat j - off)) with (j - Z.to_nat off `min` length (fdata D di))%nat by lia.
      destruct (lookup_lt_is_Some_2 src (j - Z.to_nat off `min` length (fdata D di))) as [x Hx]; [lia|]. by rewrite Hx.
    + destruct (decide (j < Z.to_nat off)%nat).
      * rewrite lookup_app_l, lookup_take_lt, fdata_lookup by (rewrite ?length_take; lia). done.
      * rewrite lookup_app_r, length_take by (rewrite length_take; lia). rewrite lookup_app_r by lia.
        rewrite lookup_drop. replace (Z.to_nat off + length src + (j - Z.to_nat off `min` length (fdata D di) - length src))%nat with j by lia.
        rewrite fdata_lookup by lia. done.
  - rewrite !lookup_ge_None_2; [done| |rewrite length_fdata; lia]. rewrite !length_app, length_take, length_drop. lia.
Qed.

Lemma wf_dinode_ok D di di' :
  wf_file sb D di' -> dinode_ok di -> di' = set_d_size (d_size di') (set_d_addrs (d_addrs di') di) -> dinode_ok di'.
Proof.
  intros Hwf [K1 K2 K3 K4 K5 K6 K7] E. pose proof (wf_size _ _ _ Hwf) as Hs. pose proof (wf_len _ _ _ Hwf) as Hl13.
  change (MAXFILE * BSIZE) with 71680 in Hs. rewrite E in *. cbn [d_size d_addrs set_d_size set_d_addrs] in *.
  split; cbn; try done; [unfold in_u32; lia|]. apply Forall_lookup. intros j a Hj.
  assert (Ea : addr_of (set_d_size (d_size di') (set_d_addrs (d_addrs di') di)) (Z.of_nat j) = a)
    by (unfold addr_of; cbn; by rewrite Nat2Z.id, Hj).
  apply lookup_lt_Some in Hj. pose proof (so_len _ _ Hsb). pose proof (so_size _ _ Hsb). pose proof (data_start_pos sb len Hsb).
  destruct (decide (a = 0)) as [->|Ha]; [unfold in_u32; lia|].
  assert (Hu : data_used sb D a); [|destruct Hu as [Hr _]; unfold in_u32; lia].
  destruct (decide (j = 12)%nat) as [->|Hne].
  - rewrite <- Ea. apply (wf_ind _ _ _ Hwf). unfold ind. change NDIRECT with (Z.of_nat 12). by rewrite Ea.
  - rewrite <- Ea. pose proof (wf_addr _ _ _ Hwf (Z.of_nat j)) as Hw. unfold addr in Hw. change NDIRECT with 12 in Hw.
    rewrite (proj2 (Z.ltb_lt _ _)) in Hw by lia. apply Hw; [change MAXFILE with 140; lia|]. by rewrite Ea.
Qed.

(** The disk [D'] with inode [di'], after [src] has been written at [off] to
    the file of inode [inum]. *)
Record file_after (D : list block) (inum : Z) (di : dinode) (D' : list block) (di' : dinode) (off : Z) (src : list Z) : Prop := {
  fa_wf : wf_file sb D' di';
  fa_ok : dinode_ok di';
  fa_fields : di' = set_d_size (d_size di') (set_d_addrs (d_addrs di') di);
  fa_data : fdata D' di' = splice (fdata D di) (Z.to_nat off) src;
  fa_synced : inode_of sb D inum = di -> inode_of sb D' inum = di';
  fa_inodes inum' : 0 <= inum' < sb_ninodes sb -> inum' <> inum -> inode_of sb D' inum' = inode_of sb D inum';
  fa_files di2 : wf_file sb D di2 -> (forall x, owned D di2 x -> ~ owned D di x) ->
    wf_file sb D' di2 /\ fdata D' di2 = fdata D di2 /\ (forall x, owned D' di2 x -> ~ owned D' di' x);
  fa_meta : meta_used sb D';
  fa_len : length D' = length D
}.

(** Blocks of other files are left alone by the loop. *)
Lemma extends_other D di D' di' di2 :
  wf_file sb D di2 -> extends sb D di D' di' -> (forall x, owned D di2 x -> ~ owned D di x) ->
  forall x, owned D di2 x -> D' !! Z.to_nat x = D !! Z.to_nat x /\ data_used sb D' x.
Proof.
  intros Hwf2 Hx Hdis x Ho. pose proof (owned_used sb D di2 x Hwf2 Ho) as Hu. pose proof Hu as [Hr Hux].
  destruct (data_used_range sb len Hsb D x Hu) as [Hr' Hb]. split.
  - apply (ex_frame _ _ _ _ _ Hx); [lia|done|done|by apply Hdis].
  - split; [done|]. apply (ex_used _ _ _ _ _ Hx); [lia|done].
Qed.

Lemma extends_inodes D di D' di' inum :
  wf_file sb D di -> meta_used sb D -> extends sb D di D' di' -> 0 <= inum < sb_ninodes sb -> inode_of sb D' inum = inode_of sb D inum.
Proof.
  intros Hwf Hmeta Hx Hi. destruct (IBLOCK_range sb len Hsb inum Hi) as (_ & _ & Hr & Hb & Hds). unfold inode_of, dat.
  rewrite (ex_frame _ _ _ _ _ Hx); [done|pose proof (so_size _ _ Hsb); lia|apply Hmeta; lia|done|].
  intros Ho%(owned_used sb D di _ Hwf). destruct Ho. lia.
Qed.

Section after.
Context (D : list block) (inum : Z) (di : dinode) (off : Z) (src : list Z).
Hypothesis Hl : length D = len.
Hypothesis Hmeta : meta_used sb D.
Hypothesis Hwf : wf_file sb D di.
Hypothesis Hok : dinode_ok di.
Hypothesis Hi : 0 <= inum < sb_ninodes sb.
Hypothesis Ho : 0 <= off <= d_size di.
Hypothesis Hmax : off + Z.of_nat (length src) <= MAXFILE * BSIZE.
Context (D1 : list block) (di1 : dinode).
Hypothesis HD1 : Forall block_ok D1.
Hypothesis Hx : extends sb D di D1 di1.
Hypothesis Hby : forall o, 0 <= o < MAXFILE * BSIZE -> file_byte D1 di1 o = overlay (file_byte D di) off src o.

Lemma other_disjoint di2 x :
  wf_file sb D di2 -> (forall x, owned D di2 x -> ~ owned D di x) -> owned D1 di2 x -> ~ owned D1 di1 x.
Proof.
  intros Hwf2 Hdis Hx2. apply (same_owned sb D D1 di2) in Hx2; [|by eapply extends_other].
  intros [Hx1|[_ Hf]]%(ex_owned _ _ _ _ _ Hx); [by apply (Hdis x)|].
  destruct (owned_used sb D di2 x Hwf2 Hx2). congruence.
Qed.

Lemma after_in_place : off + Z.of_nat (length src) <= d_size di -> di1 = di -> file_after D inum di D1 di1 off src.
Proof.
  intros Hin E. pose proof (wf_size _ _ _ Hwf) as Hsz. split.
  - apply Hx.
  - by rewrite E.
  - rewrite E. by destruct di.
  - apply fdata_overlay; try done; try lia. rewrite E. lia.
  - intros Hs. by rewrite (extends_inodes D di D1 di1), E.
  - intros inum' Hi' _. by rewrite (extends_inodes D di D1 di1).
  - intros di2 Hwf2 Hdis. pose proof (extends_other D di D1 di1 di2 Hwf2 Hx Hdis) as Hs.
    split; [by eapply same_wf|]. split; [by eapply same_fdata|]. intros x. by apply other_disjoint.
  - by eapply extends_meta.
  - apply Hx.
Qed.

Lemma after_grown sz : sz = off + Z.of_nat (length src) -> d_size di < sz ->
  (forall p, 0 < Z.of_nat (length src) -> off / BSIZE <= p -> p * BSIZE < sz -> addr D1 di1 p <> 0) ->
  let di2 := set_d_size sz di1 in file_after D inum di (updated sb D1 inum di2) di2 off src.
Proof.
  intros Esz Hgrow Hnew di2. pose proof (wf_size _ _ _ Hwf) as Hsz. pose proof (ex_wf _ _ _ _ _ Hx) as Hwf1.
  assert (Hsz1 : d_size di1 = d_size di) by (by rewrite (ex_fields _ _ _ _ _ Hx)).
  assert (Hl1 : length D1 = len) by (by rewrite (ex_len _ _ _ _ _ Hx)).
  assert (Hwf2 : wf_file sb D1 di2).
  { apply resize_wf; [done|lia|]. intros p Hp Hps. destruct (Z.lt_ge_cases (p * BSIZE) (d_size di)).
    - apply (wf_holes _ _ _ Hwf1); [done|lia].
    - apply Hnew; [lia| |done]. unfold BSIZE in *. Z.to_euclidean_division_equations. lia. }
  assert (Hok2 : dinode_ok di2).
  { eapply wf_dinode_ok; [exact Hwf2|exact Hok|]. unfold di2. rewrite (ex_fields _ _ _ _ _ Hx). by destruct di. }
  assert (Hupd : forall d x, wf_file sb D1 d -> owned D1 d x -> updated sb D1 inum di2 !! Z.to_nat x = D1 !! Z.to_nat x /\
    data_used sb (updated sb D1 inum di2) x) by (intros d x Hd; by apply (updated_same sb len Hsb)).
  split.
  - eapply same_wf; [exact Hwf2|]. intros x. by apply Hupd.
  - done.
  - unfold di2. rewrite (ex_fields _ _ _ _ _ Hx). by destruct di.
  - apply fdata_overlay; try done; try lia; [cbn; lia|]. intros o Hor. unfold di2.
    rewrite <- Hby by done. apply (same_byte sb D1 _ di2); [|done]. intros x. by apply Hupd.
  - intros _. by apply (updated_inode sb len Hsb).
  - intros inum' Hi' Hne. rewrite (updated_inode_ne sb len Hsb) by done. by apply (extends_inodes D di D1 di1).
  - intros d Hd Hdis. pose proof (extends_other D di D1 di1 d Hd Hx Hdis) as Hs.
    pose proof (same_wf sb D D1 d Hd Hs) as Hd1.
    assert (Hu : forall x, owned D1 d x -> updated sb D1 inum di2 !! Z.to_nat x = D1 !! Z.to_nat x /\
      data_used sb (updated sb D1 inum di2) x) by (intros x; by apply Hupd).
    split; [by eapply same_wf|]. split.
    + rewrite (same_fdata sb D1 _ d Hd1 Hu). by apply (same_fdata sb).
    + intros x Hxo Hxo2. apply (same_owned sb D1 _ d Hu) in Hxo.
      apply (same_owned sb D1 _ di2) in Hxo2; [|intros y; by apply Hupd]. by apply (other_disjoint d x Hd Hdis Hxo).
  - intros x Hxr. destruct (IBLOCK_range sb len Hsb inum Hi) as (_ & _ & Hr & Hb & _). pose proof (so_data _ _ Hsb). unfold updated.
    rewrite (used_insert sb len Hsb) by (done || lia). by eapply extends_meta.
  - unfold updated. rewrite length_insert. apply Hx.
Qed.

End after.

Lemma writei_spec devsw_write t D L lim i off src (Q : Z -> fstate S -> Prop) :
  let n := Z.of_nat (length src) in
  tview t D ∅ ∅ L lim -> length D = len -> meta_used sb D ->
  bitmaps sb ⊆ L -> ind_set (i_d i) ⊆ L -> IBLOCK (i_inum i) sb ∈ L ->
  i_dev i = ROOTDEV -> 0 <= i_inum i < sb_ninodes sb -> wf_file sb D (i_d i) -> dinode_ok (i_d i) -> d_type (i_d i) <> T_DEV ->
  Forall in_u8 src -> in_u32 off -> n < 2 ^ 32 -> (size L + ind_cost (i_d i) + nparts off n + 1 < lim)%nat ->
  (d_size (i_d i) < off \/ MAXFILE * BSIZE < off + n -> Q (-1) (upd s ip t i)) ->
  (forall t' D' di' L', off <= d_size (i_d i) -> off + n <= MAXFILE * BSIZE -> tview t' D' ∅ ∅ L' lim ->
     file_after D (i_inum i) (i_d i) D' di' off src -> L ⊆ L' ->
     (size L' <= size L + ind_cost (i_d i) + nparts off n)%nat -> Q n (upd s ip t' (set_i_d di' i))) ->
  wpe (writei devsw_write ip src off) (upd s ip t i) Q disk_full.
Proof.
  intros n Hv Hl Hmeta HBM HI HIL Hdev Hinum Hwf Hok Ht H8 Ho Hn Hlim HQ1 HQ2. unfold writei.
  apply wpe_bind, wpe_iat; [done|]. rewrite (proj2 (Z.eqb_neq _ _) Ht). fold n.
  pose proof (wf_size _ _ _ Hwf) as Hws. change (MAXFILE * BSIZE) with 71680 in *. unfold in_u32 in *.
  destruct (Z.ltb_spec (d_size (i_d i)) off); cbn [orb]; [apply wpe_ret, HQ1; lia|].
  assert (0 <= n) by lia.
  destruct (Z.lt_ge_cases (off + n) (2 ^ 32)) as [Hs|Hs].
  2: { rewrite (proj2 (Z.ltb_lt _ _)); [apply wpe_ret, HQ1; lia|]. unfold u32. rewrite <- (Z.mod_add _ (-1)) by lia.
       rewrite Z.mod_small; lia. }
  rewrite u32_small by (unfold in_u32; lia). rewrite (proj2 (Z.ltb_ge (off + n) off)) by lia.
  destruct (Z.ltb_spec 71680 (off + n)); [apply wpe_ret, HQ1; lia|].
  apply wpe_bind. eapply (writei_loop_spec _ src t D L lim); try done; try lia;
    try (change (MAXFILE * BSIZE) with 71680); try lia; [by rewrite Z.sub_0_r|].
  rewrite Z.sub_0_r. change (Z.to_nat 0) with 0%nat. rewrite drop_0. intros t1 D1 di1 L1 Hv1 Hx Hby Hkeep Hnew Hstay HL1 Hsz1.
  pose proof (tview_disk_ok _ _ _ _ _ _ Hv1) as HD1.
  assert (Hsize1 : d_size di1 = d_size (i_d i)) by (by rewrite (ex_fields _ _ _ _ _ Hx)).
  apply wpe_bind, wpe_iat; [done|]. cbn [i_d set_i_d]. rewrite Hsize1.
  rewrite i32_small by (unfold in_i32; lia). apply wpe_bind.
  destruct (Z.ltb_spec (d_size (i_d i)) (off + n)) as [Hgrow|Hin].
  - rewrite (proj2 (Z.ltb_lt 0 n)) by lia. cbn [andb when]. unfold dmod. apply wpe_bind, wpe_imod; [done|]. cbn [i_d set_i_d].
    pose proof (after_grown D (i_inum i) (i_d i) off src Hl Hmeta Hwf Hok Hinum ltac:(lia) ltac:(change (MAXFILE * BSIZE) with 71680; lia)
      D1 di1 HD1 Hx Hby (off + n) eq_refl Hgrow ltac:(intros p Hp; by apply Hnew)) as Hfa. cbv zeta in Hfa.
    apply (iupdate_spec t1 D1 L1 lim); try done; try lia; [by rewrite (ex_len _ _ _ _ _ Hx)|apply Hfa|by apply HL1|].
    cbn [i_d set_i_d i_inum]. intros t2 Hv2. apply wpe_ret. eapply HQ2; [done|lia|exact Hv2|exact Hfa|done|lia].
  - rewrite andb_false_r. cbn [when]. apply wpe_ret, wpe_ret.
    eapply HQ2; [done|lia|exact Hv1| |done|lia].
    apply after_in_place; try done; try lia. by apply Hstay.
Qed.

End transfer.
End files.
