(* ===== verification/Fileops.v ===== *)
(** What readi, writei and iupdate do to the files of a file system: reading
    returns the contents, writing overwrites and extends them, and no other
    file or inode changes. *)

From S2P Require Import Prelude Block Sleeplock Log Tx Fs Bitmap Inode Dinode Iblock File.

Open Scope Z_scope.

(** A splice may extend the list. *)
Lemma length_splice_ge b off (bs : list Z) :
  (off <= length b)%nat -> length (splice b off bs) = Nat.max (off + length bs) (length b).
Proof. intros H. unfold splice. rewrite !length_app, length_take, length_drop. lia. Qed.

Section fileops.
Context {S : Type} `{TXL : TxStoreLaws S}.

Implicit Types (s : fstate S).

Local Notation disk s := (tx_disk (fdk s)).

(** No buffer is held, every change is logged, and the blocks before the data
    are marked as in use. *)
Record fs_ok (s : fstate S) : Prop := {
  fo_view : tview (fdk s) (disk s) ∅ ∅ (tx_logged (fdk s)) (tx_limit (fdk s));
  fo_sb : sb_ok (fsb s) (length (disk s));
  fo_meta : meta_used (fsb s) (disk s)
}.

(** Entry [ip] of the cache is [i], a well-formed file or directory. *)
Record opened (s : fstate S) (ip : nat) (i : inode) : Prop := {
  op_entry : icache s !! ip = Some i;
  op_dev : i_dev i = ROOTDEV;
  op_inum : 0 <= i_inum i < sb_ninodes (fsb s);
  op_wf : wf_file (fsb s) (disk s) (i_d i);
  op_ok : dinode_ok (i_d i);
  op_type : d_type (i_d i) <> T_DEV
}.

(** The contents of the file. *)
Definition contents (s : fstate S) (i : inode) : list Z := fdata (disk s) (i_d i).

Lemma tview_self (t : S) D hs dirty L lim :
  tview t D hs dirty L lim -> tview t (tx_disk t) hs dirty (tx_logged t) (tx_limit t).
Proof. intros (? & ? & ? & ? & ? & ?). by split_and!. Qed.

Lemma upd_disk (s : fstate S) ip t i : fdk (upd s ip t i) = t.
Proof. done. Qed.

Lemma entry_lt s ip i : icache s !! ip = Some i -> (ip < length (icache s))%nat.
Proof. apply lookup_lt_Some. Qed.

Lemma upd_here s ip i : icache s !! ip = Some i -> s = upd s ip (fdk s) i.
Proof. intros Hi. symmetry. apply upd_self; [by eapply entry_lt|done]. Qed.

Lemma readi_opened devsw_read s ip i off n (Q : Z * list Z -> fstate S -> Prop) E :
  fs_ok s -> opened s ip i -> in_u32 off -> in_u32 n ->
  (d_size (i_d i) < off \/ 2 ^ 32 <= off + n -> Q (-1, []) s) ->
  (forall t' bs, off <= d_size (i_d i) -> off + n < 2 ^ 32 ->
     tview t' (disk s) ∅ ∅ (tx_logged (fdk s)) (tx_limit (fdk s)) ->
     bs = sub (contents s i) (Z.to_nat off) (Z.to_nat n) -> Q (Z.of_nat (length bs), bs) (upd s ip t' i)) ->
  wpe (readi devsw_read ip off n) s Q E.
Proof.
  intros [Hv Hsb Hm] [Hi Hd Hn Hwf Hok Ht] Ho Hn' HQ1 HQ2. rewrite (upd_here s ip i Hi).
  eapply (readi_spec s ip (entry_lt _ _ _ Hi) (length (disk s)) Hsb devsw_read); [exact Hv|done..| |done].
  intros Hc. rewrite <- upd_here by done. apply HQ1. lia.
Qed.

(** C23: readi reads the contents of the file. On a well-formed file or
    directory, if the offset is beyond the end or offset plus count overflows
    an unsigned int, it returns -1 and changes nothing. Otherwise it stores
    the bytes of the contents from the offset on, at most [n] of them and no
    more than there are, and returns their number. The disk, the log and
    every cached inode are as before, and no buffer remains held. *)
Theorem readi_reads devsw_read s ip i off n :
  fs_ok s -> opened s ip i -> in_u32 off -> in_u32 n ->
  wp (readi devsw_read ip off n) s (fun r s' =>
    if (off <=? d_size (i_d i)) && (off + n <? 2 ^ 32) then
      r = (Z.min n (d_size (i_d i) - off), sub (contents s i) (Z.to_nat off) (Z.to_nat n)) /\
      fs_ok s' /\ disk s' = disk s /\ icache s' = icache s /\ fsb s' = fsb s /\ tx_logged (fdk s') ⊆ tx_logged (fdk s)
    else r = (-1, []) /\ s' = s).
Proof.
  intros Hs Hop Ho Hn. pose proof (wf_size _ _ _ (op_wf _ _ _ Hop)) as Hsz. unfold in_u32 in *.
  eapply (readi_opened devsw_read s ip i); try done.
  - intros Hc. replace ((off <=? d_size (i_d i)) && (off + n <? 2 ^ 32)) with false; [done|].
    symmetry. apply andb_false_iff. rewrite Z.leb_gt, Z.ltb_ge. lia.
  - intros t' bs Hlo Hhi Hv ->. rewrite (proj2 (Z.leb_le _ _)), (proj2 (Z.ltb_lt _ _)) by done. cbn [andb].
    pose proof Hv as (_ & Hd' & _ & _ & HL' & _). rewrite upd_disk, Hd'. destruct Hs as [Hv0 Hsb Hm]. split_and!; try done.
    + f_equal. unfold sub. rewrite length_take, length_drop. unfold contents. rewrite length_fdata. lia.
    + split; rewrite ?upd_disk, ?Hd'; try done. eapply tview_self in Hv. by rewrite Hd' in Hv.
    + cbn. by rewrite list_insert_id by apply Hop.
Qed.

(** The file with number [inum'], if it is another one and shares no block
    with [i], has its blocks and contents. *)
Definition others_keep s s' (i : inode) : Prop :=
  (forall inum', 0 <= inum' < sb_ninodes (fsb s) -> inum' <> i_inum i ->
     inode_of (fsb s) (disk s') inum' = inode_of (fsb s) (disk s) inum') /\
  (forall di, wf_file (fsb s) (disk s) di -> (forall x, owned (disk s) di x -> ~ owned (disk s) (i_d i) x) ->
     wf_file (fsb s) (disk s') di /\ fdata (disk s') di = fdata (disk s) di).

(** The blocks that writei may log. *)
Definition write_set s (i : inode) : gset Z :=
  {[IBLOCK (i_inum i) (fsb s)]} ∪ (ind_set (i_d i) ∪ (bitmaps (fsb s) ∪ tx_logged (fdk s))).

Lemma write_set_size s i :
  (size (write_set s i) + ind_cost (i_d i) <= size (tx_logged (fdk s)) + size (bitmaps (fsb s)) + 2)%nat.
Proof.
  unfold write_set. etrans; [apply Nat.add_le_mono_r, size_cons|].
  pose proof (size_union_le (ind_set (i_d i)) (bitmaps (fsb s) ∪ tx_logged (fdk s))).
  pose proof (size_union_le (bitmaps (fsb s)) (tx_logged (fdk s))).
  assert (size (ind_set (i_d i)) + ind_cost (i_d i) = 1)%nat.
  { unfold ind_set, ind_cost. destruct (ind (i_d i) =? 0); [by rewrite size_empty|by rewrite size_singleton]. }
  lia.
Qed.

(** After a write of [src] at [off] through entry [ip]. *)
Record wrote s ip (i : inode) off src s' (i' : inode) : Prop := {
  wr_ok : fs_ok s';
  wr_opened : opened s' ip i';
  wr_same : i_inum i' = i_inum i /\ i_lock i' = i_lock i /\ i_ref i' = i_ref i /\ i_valid i' = i_valid i /\
    d_type (i_d i') = d_type (i_d i) /\ d_nlink (i_d i') = d_nlink (i_d i);
  wr_contents : contents s' i' = splice (contents s i) (Z.to_nat off) src;
  wr_synced : inode_of (fsb s) (disk s) (i_inum i) = i_d i -> inode_of (fsb s) (disk s') (i_inum i) = i_d i';
  wr_others : others_keep s s' i;
  wr_cache : icache s' = <[ip := i']> (icache s);
  wr_sb : fsb s' = fsb s;
  wr_limit : tx_limit (fdk s') = tx_limit (fdk s);
  wr_logged : (size (tx_logged (fdk s')) <=
    size (tx_logged (fdk s)) + size (bitmaps (fsb s)) + nparts off (Z.of_nat (length src)) + 2)%nat
}.

Lemma writei_opened devsw_write s ip i off src (Q : Z -> fstate S -> Prop) :
  let n := Z.of_nat (length src) in
  fs_ok s -> opened s ip i -> Forall in_u8 src -> in_u32 off -> n < 2 ^ 32 ->
  (size (tx_logged (fdk s)) + size (bitmaps (fsb s)) + nparts off n + 3 < tx_limit (fdk s))%nat ->
  (d_size (i_d i) < off \/ MAXFILE * BSIZE < off + n -> Q (-1) s) ->
  (forall s' i', off <= d_size (i_d i) -> off + n <= MAXFILE * BSIZE -> wrote s ip i off src s' i' -> Q n s') ->
  wpe (writei devsw_write ip src off) s Q (disk_full s).
Proof.
  intros n [Hv Hsb Hm] [Hi Hd Hn Hwf Hok Ht] H8 Ho Hn' Hlim HQ1 HQ2. pose proof (write_set_size s i) as Hws.
  cut (wpe (writei devsw_write ip src off) (upd s ip (fdk s) i) Q (disk_full s)); [by rewrite <- upd_here|]. assert (Hip := entry_lt _ _ _ Hi).
  eapply (writei_spec s ip Hip (length (disk s)) Hsb devsw_write (fdk s) (disk s) (write_set s i) (tx_limit (fdk s)));
    try done; try (unfold write_set; set_solver +); fold n; try lia.
  - eapply tview_weaken; [exact Hv|]. unfold write_set. set_solver +.
  - intros Hc. rewrite <- upd_here by done. by apply HQ1.
  - intros t' D' di' L' Hlo Hhi Hv' Hfa HL Hsz. apply (HQ2 _ (set_i_d di' i)); [done|done|].
    pose proof Hv' as (_ & Hd' & _ & _ & HL' & Hlim'). apply tview_self in Hv'. rewrite Hd' in Hv'.
    destruct Hfa as [F1 F2 F3 F4 F5 F6 F7 F8 F9]. split; unfold contents, others_keep; cbn [i_d set_i_d]; rewrite ?upd_disk, ?Hd'; try done.
    + split; rewrite ?upd_disk, ?Hd'; try done. by rewrite F9.
    + split; rewrite ?upd_disk, ?Hd'; try done; [by apply list_lookup_insert_eq|]. cbn. by rewrite F3.
    + cbn. split_and!; try done; by rewrite F3.
    + split; [done|]. intros d Hdw Hdis. by destruct (F7 d Hdw Hdis) as (? & ? & _).
    + apply subseteq_size in HL'. fold n. lia.
Qed.

(** C22: writei writes the file and nothing else. On a well-formed file or
    directory, with room in the log for the blocks concerned, a write beyond
    the end of the file, or past the largest file, returns -1 and changes
    nothing. Otherwise all bytes are written: the contents are the old ones
    with [src] over them at the offset, extended as needed, the file is well
    formed again and the inode on the disk agrees with the one in memory if it
    did before. The other inodes, and the contents of every file that shares
    no block with this one, are as before. At most one block for every part,
    the inode, the indirect block and the bitmap are logged. The one way to
    stop is a full disk. *)
Theorem writei_writes devsw_write s ip i off src :
  let n := Z.of_nat (length src) in
  fs_ok s -> opened s ip i -> Forall in_u8 src -> in_u32 off -> n < 2 ^ 32 ->
  (size (tx_logged (fdk s)) + size (bitmaps (fsb s)) + nparts off n + 3 < tx_limit (fdk s))%nat ->
  wpe (writei devsw_write ip src off) s
    (fun r s' => if (off <=? d_size (i_d i)) && (off + n <=? MAXFILE * BSIZE)
       then r = n /\ exists i', wrote s ip i off src s' i' else r = -1 /\ s' = s)
    (disk_full s).
Proof.
  intros n Hs Hop H8 Ho Hn Hlim. eapply (writei_opened devsw_write s ip i); try done.
  - intros Hc. replace (_ && _) with false; [done|]. symmetry. apply andb_false_iff. rewrite !Z.leb_gt. done.
  - intros s' i' Hlo Hhi Hw. fold n in Hhi. rewrite (proj2 (Z.leb_le _ _) Hlo), (proj2 (Z.leb_le _ _) Hhi). split; [done|]. by exists i'.
Qed.

(** What is read is what was written. After a write of [src] at [off]
    within the bounds, reading any range of the file gives that range of the
    old contents with [src] over them; the range that was written gives
    [src]. *)
Theorem write_then_read devsw_read devsw_write s ip i off src off' n' :
  let n := Z.of_nat (length src) in
  fs_ok s -> opened s ip i -> Forall in_u8 src -> in_u32 off ->
  off <= d_size (i_d i) -> off + n <= MAXFILE * BSIZE ->
  (size (tx_logged (fdk s)) + size (bitmaps (fsb s)) + nparts off n + 3 < tx_limit (fdk s))%nat ->
  in_u32 off' -> in_u32 n' -> off' <= Z.max (off + n) (d_size (i_d i)) -> off' + n' < 2 ^ 32 ->
  wpe (writei devsw_write ip src off ;; readi devsw_read ip off' n') s
    (fun r _ => r.2 = sub (splice (contents s i) (Z.to_nat off) src) (Z.to_nat off') (Z.to_nat n') /\
       r.1 = Z.of_nat (length r.2) /\ (off' = off -> n' = n -> r.2 = src))
    (disk_full s).
Proof.
  intros n Hs Hop H8 Ho Hlo Hhi Hlim Ho' Hn' Hr Hr'. unfold in_u32 in *. change (MAXFILE * BSIZE) with 71680 in Hhi.
  apply wpe_bind. eapply (writei_opened devsw_write s ip i); try done; [lia|change (MAXFILE * BSIZE) with 71680; lia|].
  intros s' i' _ _ [W1 W2 _ W3 _ _ _ _ _ _]. assert (Hsz : d_size (i_d i') = Z.max (off + n) (d_size (i_d i))).
  { apply (f_equal length) in W3. unfold contents in W3. rewrite length_splice_ge in W3 by (rewrite length_fdata; lia).
    rewrite !length_fdata in W3. pose proof (wf_size _ _ _ (op_wf _ _ _ W2)). pose proof (wf_size _ _ _ (op_wf _ _ _ Hop)). lia. }
  eapply (readi_opened devsw_read s' ip i'); try done; [lia|]. intros t' bs _ _ _ ->. cbn. rewrite W3. split_and!; try done.
  intros -> ->. unfold n. rewrite Nat2Z.id. apply sub_splice_eq. unfold contents. rewrite length_fdata. lia.
Qed.

(** ** Writing the inode back *)

(** The inode of entry [ip] is on the disk; nothing else has changed. *)
Record stored s (i : inode) s' : Prop := {
  sd_ok : fs_ok s';
  sd_inode : inode_of (fsb s) (disk s') (i_inum i) = i_d i;
  sd_used x : 0 <= x < sb_size (fsb s) -> used (disk s') (fsb s) x = used (disk s) (fsb s) x;
  sd_others : others_keep s s' i;
  sd_files di : wf_file (fsb s) (disk s) di -> wf_file (fsb s) (disk s') di /\ fdata (disk s') di = fdata (disk s) di;
  sd_cache : icache s' = icache s;
  sd_rest : fsb s' = fsb s /\ ic_lock s' = ic_lock s /\ fcwd s' = fcwd s;
  sd_limit : tx_limit (fdk s') = tx_limit (fdk s);
  sd_logged : (size (tx_logged (fdk s')) <= size (tx_logged (fdk s)) + 1)%nat
}.

Lemma iupdate_stored s ip i (Q : unit -> fstate S -> Prop) E :
  fs_ok s -> icache s !! ip = Some i -> i_dev i = ROOTDEV -> 0 <= i_inum i < sb_ninodes (fsb s) -> dinode_ok (i_d i) ->
  (size (tx_logged (fdk s)) + 1 < tx_limit (fdk s))%nat -> (forall s', stored s i s' -> Q tt s') -> wpe (iupdate ip) s Q E.
Proof.
  intros [Hv Hsb Hm] Hi Hdev Hn Hok Hlim HQ. rewrite (upd_here s ip i Hi) at 1.
  set (L := {[IBLOCK (i_inum i) (fsb s)]} ∪ tx_logged (fdk s)).
  assert (HL : (size L <= size (tx_logged (fdk s)) + 1)%nat) by apply size_cons.
  eapply (iupdate_spec s ip (entry_lt _ _ _ Hi) _ Hsb (fdk s) (disk s) L (tx_limit (fdk s))); try done;
    [eapply tview_weaken; [exact Hv|unfold L; set_solver +]|unfold L; set_solver +|lia|].
  intros t' Hv'. apply HQ. pose proof Hv' as (_ & Ed & _ & _ & HL' & Hlim'). apply tview_self in Hv'. rewrite Ed in Hv'.
  pose proof (tview_disk_ok _ _ _ _ _ _ Hv) as HD. destruct (IBLOCK_range (fsb s) _ Hsb (i_inum i) Hn) as (_ & _ & Hr & Hb & Hd).
  assert (Hu : forall x, 0 <= x < sb_size (fsb s) -> used (updated (fsb s) (disk s) (i_inum i) (i_d i)) (fsb s) x = used (disk s) (fsb s) x).
  { intros x Hx. unfold updated. by rewrite (used_insert (fsb s) _ Hsb) by (done || lia). }
  assert (Hf : forall di, wf_file (fsb s) (disk s) di -> wf_file (fsb s) (updated (fsb s) (disk s) (i_inum i) (i_d i)) di /\
    fdata (updated (fsb s) (disk s) (i_inum i) (i_d i)) di = fdata (disk s) di).
  { intros di Hdi. assert (Hsame := fun x => updated_same (fsb s) _ Hsb (disk s) (i_inum i) di (i_d i) x eq_refl HD Hn Hdi).
    split; [by eapply same_wf|by eapply same_fdata]. }
  split; unfold others_keep; rewrite ?upd_disk, ?Ed; try done.
  - split; rewrite ?upd_disk, ?Ed; cbn [fsb upd]; try done.
    + unfold updated. by rewrite length_insert.
    + intros x Hx. pose proof (so_data _ _ Hsb). pose proof (data_start_pos _ _ Hsb). rewrite Hu by lia. by apply Hm.
  - by apply (updated_inode (fsb s) _ Hsb).
  - split; [|intros di Hdi _; by apply Hf]. intros inum' Hi' Hne. by rewrite (updated_inode_ne (fsb s) _ Hsb).
  - cbn. by rewrite list_insert_id.
  - apply subseteq_size in HL'. lia.
Qed.

End fileops.
