(* ===== verification/Trunc.v ===== *)
(** Truncating files: itrunc of [fs.c] gives back every block of the file and
    no other. *)

From S2P Require Import Prelude Block Sleeplock Log Tx Fs Bitmap Inode Dinode Iblock File Fileops.

Open Scope Z_scope.

(** ** Giving back blocks *)

(** The blocks that [a] lists before index [m]. *)
Definition fset (a : nat -> Z) (m : nat) : gset Z := list_to_set (a <$> seq 0 m) ∖ {[0]}.

Lemma elem_of_fset a m x : x ∈ fset a m <-> x <> 0 /\ exists j, (j < m)%nat /\ a j = x.
Proof.
  unfold fset. rewrite elem_of_difference, elem_of_list_to_set, list_elem_of_fmap, elem_of_singleton. split.
  - intros [(j & -> & Hj%elem_of_seq) H0]. split; [done|]. exists j. split; [lia|done].
  - intros [H0 (j & Hj & <-)]. split; [|done]. exists j. split; [done|]. apply elem_of_seq. lia.
Qed.

Lemma fset_O a : fset a 0 = ∅.
Proof. apply set_eq. intros x. rewrite elem_of_fset. split; [intros (_ & j & Hj & _); lia|set_solver]. Qed.

Lemma fset_S a m : fset a (S m) = (if a m =? 0 then ∅ else {[a m]}) ∪ fset a m.
Proof.
  apply set_eq. intros x. rewrite elem_of_union, !elem_of_fset. split.
  - intros [H0 (j & Hj & <-)]. destruct (decide (j = m)) as [->|].
    + left. rewrite (proj2 (Z.eqb_neq _ _)) by done. set_solver.
    + right. split; [done|]. exists j. split; [lia|done].
  - intros [Hx|(H0 & j & Hj & <-)].
    + destruct (Z.eqb_spec (a m) 0); [set_solver|]. apply elem_of_singleton in Hx as ->. split; [done|]. exists m. split; [lia|done].
    + split; [done|]. exists j. split; [lia|done].
Qed.

Lemma zeros_step (l : list Z) m x :
  l !! m = Some x -> <[m := 0]> (replicate m 0 ++ drop m l) = replicate (S m) 0 ++ drop (S m) l.
Proof.
  intros Hx. rewrite (drop_S l x m Hx), insert_app_r_alt by (rewrite length_replicate; lia).
  rewrite length_replicate, Nat.sub_diag. cbn [insert list_insert]. by rewrite replicate_S_end, <- app_assoc.
Qed.

Lemma zeros_step_id (l : list Z) m : l !! m = Some 0 -> replicate m 0 ++ drop m l = replicate (S m) 0 ++ drop (S m) l.
Proof. intros Hx. by rewrite (drop_S l 0 m Hx), replicate_S_end, <- app_assoc. Qed.

(** The inode of an empty file. *)
Definition truncated (i : inode) : dinode := set_d_size 0 (set_d_addrs (replicate 13 0) (i_d i)).

Lemma truncated_ok i : dinode_ok (i_d i) -> dinode_ok (truncated i).
Proof. intros []. split; cbn; try done. repeat constructor; unfold in_u32; lia. Qed.

Section trunc.
Context {S : Type} `{TXL : TxStoreLaws S}.
Context (s : fstate S) (ip : nat).
Hypothesis Hip : (ip < length (icache s))%nat.

Local Notation sb := (fsb s).
Context (len : nat) (Hsb : sb_ok sb len).

(** [D'] is [D] with the blocks [F] marked as free. *)
Record frees (D : list block) (F : gset Z) (D' : list block) : Prop := {
  fr_len : length D' = length D;
  fr_used x : 0 <= x < sb_size sb -> used D' sb x = negb (bool_decide (x ∈ F)) && used D sb x;
  fr_frame x : 0 <= x -> ~ bitmap_block sb x -> D' !! Z.to_nat x = D !! Z.to_nat x
}.

Lemma frees_refl D : frees D ∅ D.
Proof. by split. Qed.

Lemma frees_one D F D' x :
  length D = len -> Forall block_ok D' -> frees D F D' -> 0 <= x < sb_size sb -> frees D ({[x]} ∪ F) (unmark D' sb x).
Proof.
  intros Hl HD' [F1 F2 F3] Hx. split.
  - unfold unmark. by rewrite length_insert.
  - intros y Hy. rewrite (used_unmark sb len Hsb), F2 by (done || congruence). rewrite andb_assoc. f_equal.
    rewrite <- negb_orb. f_equal. destruct (Z.eqb_spec y x) as [->|]; cbn [orb].
    + symmetry. apply bool_decide_eq_true. set_solver.
    + apply bool_decide_ext. set_solver.
  - intros y Hy Hb. unfold unmark. destruct (BBLOCK_range sb len Hsb x Hx) as (_ & Hbb & ?).
    rewrite list_lookup_insert_ne; [by apply F3|]. intros E. apply Hb. by replace y with (BBLOCK x sb) by lia.
Qed.

Lemma bfree_at t D F D' hs L lim i x (Q : unit -> fstate S -> Prop) E :
  tview t D' hs ∅ L lim -> length D = len -> frees D F D' -> (forall k y, hs !! k = Some y -> data_used sb D y /\ y ∉ F) ->
  (size hs < max_held)%nat -> bitmaps sb ⊆ L -> (size L < lim)%nat -> data_used sb D x -> x ∉ F ->
  (forall t' D'', tview t' D'' hs ∅ L lim -> frees D ({[x]} ∪ F) D'' -> Q tt (upd s ip t' i)) ->
  wpe (dk (bfree ROOTDEV x sb)) (upd s ip t i) Q E.
Proof.
  intros Hv Hl HF Hheld Hhs HBM HL Hx HxF HQ. destruct (data_used_range sb len Hsb D x Hx) as [Hr _].
  assert (Hkeep : forall y, data_used sb D y -> y ∉ F -> used D' sb y = true).
  { intros y [Hy Hu] HyF. pose proof (data_start_pos sb len Hsb).
    rewrite (fr_used _ _ _ HF), bool_decide_eq_false_2 by (done || lia). done. }
  apply wpe_dk. eapply wpe_mono; [| |eapply (bfree_spec sb len Hsb t D' hs L lim x); try done]; cbn.
  - intros [] t' Hv'. eapply HQ; [exact Hv'|]. eapply frees_one; try done; [by eapply tview_disk_ok|lia].
  - done.
  - by rewrite (fr_len _ _ _ HF).
  - intros k y Hk. destruct (Hheld k y Hk) as [Hy HyF]. split; [by apply Hkeep|]. by apply (data_used_range sb len Hsb D y Hy).
  - lia.
  - by apply Hkeep.
Qed.

(** ** The loops *)

Section itrunc.
Context (D : list block) (L : gset Z) (lim : nat) (i : inode).
Local Notation di := (i_d i).
Hypothesis Hl : length D = len.
Hypothesis HBM : bitmaps sb ⊆ L.
Hypothesis HL : (size L < lim)%nat.
Hypothesis Hdev : i_dev i = ROOTDEV.
Hypothesis Hwf : wf_file sb D di.

Let direct (n : nat) : Z := addr_of di (Z.of_nat n).
Let indirect (j : nat) : Z := word_at (dat D (ind di)) (Z.of_nat j).

(** The inode after [m] turns of the first loop. *)
Definition zeroed (m : nat) : inode := set_i_d (set_d_addrs (replicate m 0 ++ drop m (d_addrs di)) di) i.

Lemma direct_addr n : (n < 12)%nat -> addr D di (Z.of_nat n) = direct n.
Proof. intros Hn. clear Hip Hl HL. unfold addr. rewrite (proj2 (Z.ltb_lt _ _)) by (change NDIRECT with 12; lia). done. Qed.

Lemma indirect_addr j : (j < 128)%nat -> ind di <> 0 -> addr D di (Z.of_nat j + 12) = indirect j.
Proof.
  clear Hip Hl HL. intros Hj Hi. unfold addr. change NDIRECT with 12. rewrite (proj2 (Z.ltb_ge _ _)), (proj2 (Z.eqb_neq _ _)) by (done || lia).
  by rewrite Z.add_simpl_r.
Qed.

Lemma direct_entry n : (n < 13)%nat -> d_addrs di !! n = Some (direct n).
Proof.
  intros Hn. unfold direct, addr_of. rewrite Nat2Z.id. pose proof (wf_len _ _ _ Hwf).
  destruct (lookup_lt_is_Some_2 (d_addrs di) n) as [x ->]; [lia|done].
Qed.

Lemma direct_inj m n : (m < 12)%nat -> (n < 12)%nat -> direct m <> 0 -> direct m = direct n -> m = n.
Proof.
  intros Hm Hn. rewrite <- !direct_addr by done. intros H0 E.
  pose proof (wf_inj _ _ _ Hwf (Z.of_nat m) (Z.of_nat n)) as H1. change MAXFILE with 140 in H1. lia.
Qed.

Lemma zeroed_at m : (m < 13)%nat -> addr_at (zeroed m) (Z.of_nat m) = direct m.
Proof.
  intros Hm. unfold addr_at. cbn [zeroed i_d set_i_d d_addrs set_d_addrs]. rewrite Nat2Z.id.
  rewrite lookup_app_r by (rewrite length_replicate; lia). rewrite length_replicate, Nat.sub_diag, lookup_drop, Nat.add_0_r.
  by rewrite direct_entry.
Qed.

Lemma data_direct m : (m < 12)%nat -> direct m <> 0 -> data_used sb D (direct m).
Proof. intros Hm H0. rewrite <- direct_addr in * by done. apply (wf_addr _ _ _ Hwf); [change MAXFILE with 140; lia|done]. Qed.

Lemma direct_loop t (Q : unit -> fstate S -> Prop) E :
  tview t D ∅ ∅ L lim ->
  (forall t' D', tview t' D' ∅ ∅ L lim -> frees D (fset direct 12) D' -> Q tt (upd s ip t' (zeroed 12))) ->
  wpe (for_each (seq 0 (Z.to_nat NDIRECT)) (fun n =>
    s ← get;
    i ← iat ip;
    when (negb (addr_at i (Z.of_nat n) =? 0))
      (dk (bfree (i_dev i) (addr_at i (Z.of_nat n)) (fsb s)) ;;
       set_addr ip (Z.of_nat n) 0))) (upd s ip t i) Q E.
Proof.
  intros Hv HQ. eapply (wpe_for_seq (fun m s' => exists t' D', s' = upd s ip t' (zeroed m) /\
    tview t' D' ∅ ∅ L lim /\ frees D (fset direct m) D')).
  - exists t, D. split_and!; [|done|apply frees_refl]. unfold zeroed. cbn. by destruct i as [? ? ? ? ? []].
  - change (Z.to_nat NDIRECT) with 12%nat. intros m s' Hm (t' & D' & -> & Hv' & HF).
    apply wpe_bind, wpe_get. apply wpe_bind, wpe_iat; [done|]. rewrite zeroed_at by lia. rewrite fset_S.
    destruct (Z.eqb_spec (direct m) 0) as [E0|Hne]; cbn [negb when].
    + apply wpe_ret. exists t', D'. split_and!; [|done|by rewrite (left_id_L ∅ (∪))]. unfold zeroed.
      rewrite <- zeros_step_id; [done|]. by rewrite direct_entry, E0 by lia.
    + apply wpe_bind. cbn [fsb upd i_dev zeroed set_i_d]. rewrite Hdev. eapply (bfree_at t' D (fset direct m) D' ∅ L lim); try done.
      * vm_compute. lia.
      * by apply data_direct.
      * rewrite elem_of_fset. intros [_ (j & Hj & Ej)]. pose proof (direct_inj m j). lia.
      * intros t2 D2 Hv2 HF2. unfold set_addr, dmod. apply wpe_imod; [done|]. exists t2, D2. split_and!; [|done|done].
        cbn [zeroed i_d set_i_d d_addrs set_d_addrs]. rewrite Nat2Z.id, (zeros_step _ _ (direct m)) by (by apply direct_entry; lia).
        done.
  - intros s' (t' & D' & -> & Hv' & HF). by apply (HQ t' D').
Qed.

Lemma indirect_inj m n : ind di <> 0 -> (m < 128)%nat -> (n < 128)%nat -> indirect m <> 0 -> indirect m = indirect n -> m = n.
Proof.
  intros Hi Hm Hn. rewrite <- !indirect_addr by done. intros H0 E.
  pose proof (wf_inj _ _ _ Hwf (Z.of_nat m + 12) (Z.of_nat n + 12)) as H1. change MAXFILE with 140 in H1. lia.
Qed.

Lemma indirect_not_direct m n : ind di <> 0 -> (m < 128)%nat -> (n < 12)%nat -> indirect m <> 0 -> indirect m <> direct n.
Proof.
  intros Hi Hm Hn. rewrite <- indirect_addr, <- direct_addr by done. intros H0 E.
  pose proof (wf_inj _ _ _ Hwf (Z.of_nat m + 12) (Z.of_nat n)) as H1. change MAXFILE with 140 in H1. lia.
Qed.

Lemma data_indirect m : ind di <> 0 -> (m < 128)%nat -> indirect m <> 0 -> data_used sb D (indirect m).
Proof.
  intros Hi Hm H0. rewrite <- indirect_addr in * by done. apply (wf_addr _ _ _ Hwf); [change MAXFILE with 140; lia|done].
Qed.

Lemma ind_not_listed m : ind di <> 0 -> (m <= 128)%nat -> ind di ∉ fset indirect m ∪ fset direct 12.
Proof.
  intros Hi Hm. rewrite elem_of_union, !elem_of_fset. pose proof (wf_ind_ne _ _ _ Hwf) as Hne. change MAXFILE with 140 in Hne.
  intros [(_ & j & Hj & E)|(_ & j & Hj & E)].
  - apply (Hne (Z.of_nat j + 12)); [lia|done|]. rewrite indirect_addr; [done|lia|done].
  - apply (Hne (Z.of_nat j)); [lia|done|]. by rewrite direct_addr.
Qed.

Lemma indirect_loop t D1 k i1 (Q : unit -> fstate S -> Prop) E :
  ind di <> 0 -> tview t D1 {[k := ind di]} ∅ L lim -> frees D (fset direct 12) D1 ->
  (forall t' D', tview t' D' {[k := ind di]} ∅ L lim -> frees D (fset indirect 128 ∪ fset direct 12) D' -> Q tt (upd s ip t' i1)) ->
  wpe (for_each (seq 0 (Z.to_nat NINDIRECT)) (fun j =>
    when (negb (word_at (dat D (ind di)) (Z.of_nat j) =? 0))
      (dk (bfree ROOTDEV (word_at (dat D (ind di)) (Z.of_nat j)) sb)))) (upd s ip t i1) Q E.
Proof.
  intros Hi Hv HF HQ. eapply (wpe_for_seq (fun m s' => exists t' D', s' = upd s ip t' i1 /\
    tview t' D' {[k := ind di]} ∅ L lim /\ frees D (fset indirect m ∪ fset direct 12) D')).
  - exists t, D1. split_and!; [done|done|]. by rewrite fset_O, (left_id_L ∅ (∪)).
  - change (Z.to_nat NINDIRECT) with 128%nat. intros m s' Hm (t' & D' & -> & Hv' & HF').
    fold (indirect m). rewrite fset_S. destruct (Z.eqb_spec (indirect m) 0) as [E0|Hne]; cbn [negb when].
    + apply wpe_ret. exists t', D'. by rewrite (left_id_L ∅ (∪)).
    + eapply (bfree_at t' D _ D' {[k := ind di]} L lim); try done.
      * intros k' y [<- <-]%lookup_singleton_Some. split; [by apply (wf_ind _ _ _ Hwf)|apply ind_not_listed; (done || lia)].
      * rewrite map_size_singleton. vm_compute. lia.
      * by apply data_indirect.
      * rewrite elem_of_union, !elem_of_fset. intros [(_ & j & Hj & Ej)|(_ & j & Hj & Ej)].
        -- pose proof (indirect_inj m j). lia.
        -- pose proof (indirect_not_direct m j). lia.
      * intros t2 D2 Hv2 HF2. exists t2, D2. by rewrite <- (assoc_L (∪)).
  - intros s' (t' & D' & -> & Hv' & HF'). by apply (HQ t' D').
Qed.

(** Every block of the file. *)
Definition file_blocks : gset Z :=
  if ind di =? 0 then fset direct 12 else {[ind di]} ∪ (fset indirect 128 ∪ fset direct 12).

Lemma elem_of_file_blocks x : x ∈ file_blocks <-> owned D di x.
Proof.
  clear Hip Hl HL HBM Hdev Hwf Hsb. unfold file_blocks, owned. split.
  - assert (Hd : x ∈ fset direct 12 -> x <> 0 /\ (x = ind di \/ exists n, 0 <= n < MAXFILE /\ addr D di n = x)).
    { rewrite elem_of_fset. intros [H0 (j & Hj & <-)]. split; [done|]. right. exists (Z.of_nat j).
      split; [change MAXFILE with 140; lia|by apply direct_addr]. }
    destruct (Z.eqb_spec (ind di) 0) as [|Hi]; [done|]. rewrite !elem_of_union, elem_of_singleton.
    intros [->|[Hx|Hx]]; [by split; [|left]| |by apply Hd]. apply elem_of_fset in Hx as [H0 (j & Hj & <-)].
    split; [done|]. right. exists (Z.of_nat j + 12). split; [change MAXFILE with 140; lia|by apply indirect_addr].
  - intros [H0 [->|(n & Hn & <-)]].
    + rewrite (proj2 (Z.eqb_neq _ _)) by done. set_solver.
    + change MAXFILE with 140 in Hn. destruct (Z.lt_ge_cases n 12) as [Hd|Hd].
      * assert (addr D di n ∈ fset direct 12); [|destruct (ind di =? 0); set_solver].
        apply elem_of_fset. split; [done|]. exists (Z.to_nat n). split; [lia|]. rewrite <- direct_addr by lia. f_equal. lia.
      * assert (Hi : ind di <> 0).
        { intros Hi. unfold addr in H0. rewrite Hi in H0. rewrite (proj2 (Z.ltb_ge _ _)) in H0 by (change NDIRECT with 12; lia). done. }
        rewrite (proj2 (Z.eqb_neq _ _)) by done. rewrite !elem_of_union. right. left. apply elem_of_fset. split; [done|].
        exists (Z.to_nat (n - 12)). split; [lia|]. rewrite <- indirect_addr by (done || lia). f_equal. lia.
Qed.

Lemma zeroed_all : direct 12 = 0 -> zeroed 12 = set_i_d (set_d_addrs (replicate 13 0) di) i.
Proof.
  intros E. unfold zeroed. rewrite zeros_step_id by (by rewrite direct_entry, E by lia). rewrite drop_ge, app_nil_r; [done|].
  pose proof (wf_len _ _ _ Hwf). lia.
Qed.

Lemma zeroed_last : <[12%nat := 0]> (d_addrs (i_d (zeroed 12))) = replicate 13 0.
Proof.
  cbn [zeroed i_d set_i_d d_addrs set_d_addrs]. rewrite (zeros_step _ _ (direct 12)) by (apply direct_entry; lia).
  rewrite drop_ge, app_nil_r; [done|]. pose proof (wf_len _ _ _ Hwf). lia.
Qed.

(** The rest of itrunc, once the addresses are cleared. *)
Lemma itrunc_end t D1 (Q : unit -> fstate S -> Prop) E :
  dinode_ok di -> 0 <= i_inum i < sb_ninodes sb -> IBLOCK (i_inum i) sb ∈ L ->
  tview t D1 ∅ ∅ L lim -> length D1 = len ->
  (forall t', tview t' (updated (fsb s) D1 (i_inum i) (truncated i)) ∅ ∅ L lim -> Q tt (upd s ip t' (set_i_d (truncated i) i))) ->
  wpe (dmod ip (set_d_size 0) ;; iupdate ip) (upd s ip t (set_i_d (set_d_addrs (replicate 13 0) di) i)) Q E.
Proof.
  intros Hok Hi HIL Hv Hl1 HQ. apply wpe_bind. unfold dmod. apply wpe_imod; [done|].
  eapply (iupdate_spec s ip Hip len Hsb); try done. by apply truncated_ok.
Qed.

Lemma itrunc_spec t (Q : unit -> fstate S -> Prop) E :
  dinode_ok di -> 0 <= i_inum i < sb_ninodes sb -> IBLOCK (i_inum i) sb ∈ L -> tview t D ∅ ∅ L lim ->
  (forall t' D1, frees D file_blocks D1 -> Forall block_ok D1 -> tview t' (updated (fsb s) D1 (i_inum i) (truncated i)) ∅ ∅ L lim ->
     Q tt (upd s ip t' (set_i_d (truncated i) i))) ->
  wpe (itrunc ip) (upd s ip t i) Q E.
Proof.
  intros Hok Hi HIL Hv HQ. unfold itrunc. apply wpe_bind. apply (direct_loop t); [done|]. intros t1 D1 Hv1 HF1.
  assert (Hl1 : length D1 = len) by (by rewrite (fr_len _ _ _ HF1)).
  apply wpe_bind, wpe_get. apply wpe_bind, wpe_iat; [done|]. cbn [fsb upd]. rewrite (zeroed_at 12 : _ -> addr_at _ NDIRECT = _) by lia.
  apply wpe_bind. unfold file_blocks in HQ. change (direct 12) with (ind di).
  destruct (Z.eqb_spec (ind di) 0) as [E0|Hi0]; cbn [negb when].
  - apply wpe_ret. rewrite zeroed_all by done. eapply (itrunc_end t1 D1); try done. intros t2. apply HQ; [done|by eapply tview_disk_ok].
  - change (i_dev (zeroed 12)) with (i_dev i). rewrite Hdev. pose proof (wf_ind _ _ _ Hwf Hi0) as Hu.
    destruct (data_used_range sb len Hsb D _ Hu) as [Hr Hb].
    assert (Hu1 : data_used sb D1 (ind di)).
    { split; [apply Hu|]. rewrite (fr_used _ _ _ HF1), bool_decide_eq_false_2; [apply Hu| |lia].
      pose proof (ind_not_listed 0 Hi0). set_solver by lia. }
    eapply (bread_data s ip Hip len Hsb); [exact Hv1|done|done|done|by vm_compute; lia|]. intros k t2 _ Hv2.
    assert (dat D1 (ind di) = dat D (ind di)) as -> by (unfold dat; by rewrite (fr_frame _ _ _ HF1) by (done || lia)).
    rewrite insert_empty in Hv2. apply wpe_bind. apply (indirect_loop t2 D1 k); [done|done|done|]. intros t3 D3 Hv3 HF3.
    apply wpe_bind, wpe_dk. eapply wpe_tbrelse; [exact Hv3|apply lookup_singleton_eq|set_solver|]. rewrite delete_singleton_eq.
    intros t4 Hv4. apply wpe_bind. eapply (bfree_at t4 D _ D3 ∅ L lim); try done; [by vm_compute; lia|by apply ind_not_listed|].
    intros t5 D5 Hv5 HF5. unfold set_addr, dmod. apply wpe_imod; [done|].
    rewrite (zeroed_last : <[Z.to_nat NDIRECT := 0]> _ = _).
    eapply (itrunc_end t5 D5); try done; [by rewrite (fr_len _ _ _ HF5)|]. intros t6. apply HQ; [done|by eapply tview_disk_ok].
Qed.

End itrunc.
End trunc.

Section truncate.
Context {S : Type} `{TXL : TxStoreLaws S}.
Implicit Types (s : fstate S).

Local Notation disk s := (tx_disk (fdk s)).

(** The blocks that itrunc may log. *)
Definition trunc_set s (i : inode) : gset Z := {[IBLOCK (i_inum i) (fsb s)]} ∪ (bitmaps (fsb s) ∪ tx_logged (fdk s)).

Lemma trunc_set_size s i : (size (trunc_set s i) <= size (tx_logged (fdk s)) + size (bitmaps (fsb s)) + 1)%nat.
Proof.
  unfold trunc_set. etrans; [apply size_cons|]. pose proof (size_union_le (bitmaps (fsb s)) (tx_logged (fdk s))). lia.
Qed.

(** After entry [ip] has been truncated. *)
Record trunced s ip (i : inode) s' (i' : inode) : Prop := {
  tr_ok : fs_ok s';
  tr_opened : opened s' ip i';
  tr_entry : i' = set_i_d (truncated i) i;
  tr_synced : inode_of (fsb s) (disk s') (i_inum i) = i_d i';
  tr_freed x : owned (disk s) (i_d i) x -> used (disk s') (fsb s) x = false;
  tr_kept x : 0 <= x < sb_size (fsb s) -> ~ owned (disk s) (i_d i) x ->
    used (disk s') (fsb s) x = used (disk s) (fsb s) x;
  tr_others : others_keep s s' i;
  tr_cache : icache s' = <[ip := i']> (icache s);
  tr_sb : fsb s' = fsb s;
  tr_lock : ic_lock s' = ic_lock s /\ fcwd s' = fcwd s;
  tr_limit : tx_limit (fdk s') = tx_limit (fdk s);
  tr_logged : (size (tx_logged (fdk s')) <= size (tx_logged (fdk s)) + size (bitmaps (fsb s)) + 1)%nat
}.

Section after.
Context (s : fstate S) (ip : nat) (i : inode).
Hypothesis Hs : fs_ok s.
Hypothesis Hop : opened s ip i.
Local Notation sb := (fsb s).
Local Notation D := (disk s).
Local Notation len := (length D).

Context (D1 : list block).
Hypothesis HF : frees s D (file_blocks D i) D1.
Hypothesis HD1 : Forall block_ok D1.
Local Notation D' := (updated (fsb s) D1 (i_inum i) (truncated i)).

Lemma iblock_meta : 0 <= IBLOCK (i_inum i) sb < data_start sb /\ ~ bitmap_block sb (IBLOCK (i_inum i) sb).
Proof.
  destruct (IBLOCK_range sb len (fo_sb _ Hs) (i_inum i) (op_inum _ _ _ Hop)) as (_ & ? & ? & ? & ?). split; [lia|done].
Qed.

Lemma trunc_used x : 0 <= x < sb_size sb -> used D' sb x = negb (bool_decide (x ∈ file_blocks D i)) && used D sb x.
Proof.
  intros Hx. destruct iblock_meta. unfold updated. rewrite (used_insert sb len (fo_sb _ Hs)) by (done || lia).
  by apply (fr_used _ _ _ _ HF).
Qed.

Lemma owned_range x : owned D (i_d i) x -> 0 <= x < sb_size sb /\ data_start sb <= x.
Proof.
  intros Hx. destruct (owned_used sb D (i_d i) x (op_wf _ _ _ Hop) Hx) as [Hr _].
  pose proof (data_start_pos sb len (fo_sb _ Hs)). lia.
Qed.

Lemma file_owned x : x ∈ file_blocks D i <-> owned D (i_d i) x.
Proof. apply elem_of_file_blocks. Qed.

Lemma trunc_other di x : wf_file sb D di -> (forall y, owned D di y -> ~ owned D (i_d i) y) -> owned D di x ->
  D' !! Z.to_nat x = D !! Z.to_nat x /\ data_used sb D' x.
Proof.
  intros Hdi Hdis Hx. destruct (owned_used sb D di x Hdi Hx) as [Hr Hu].
  destruct (data_used_range sb len (fo_sb _ Hs) D x (conj Hr Hu)) as [Hr' Hb]. destruct iblock_meta as [Him _]. split.
  - unfold updated. rewrite list_lookup_insert_ne by lia. apply (fr_frame _ _ _ _ HF); [lia|done].
  - split; [done|]. rewrite trunc_used by lia. rewrite bool_decide_eq_false_2; [done|].
    rewrite file_owned. by apply Hdis.
Qed.

Lemma trunc_addr n : 0 <= n < MAXFILE -> addr D' (truncated i) n = 0.
Proof.
  intros Hn. unfold addr, ind, addr_of. cbn [truncated d_addrs set_d_size set_d_addrs]. destruct (Z.ltb_spec n NDIRECT); [|done].
  change NDIRECT with 12 in *. by rewrite lookup_replicate_2 by lia.
Qed.

Lemma trunc_wf : wf_file sb D' (truncated i).
Proof.
  assert (ind (truncated i) = 0) as Hi by done. split; try done.
  - intros n Hn. by rewrite trunc_addr.
  - intros m n Hm Hn. by rewrite trunc_addr.
  - intros n Hn Hlt. cbn in Hlt. unfold BSIZE in Hlt. lia.
Qed.

Lemma trunc_trunced t' :
  tview t' D' ∅ ∅ (trunc_set s i) (tx_limit (fdk s)) -> trunced s ip i (upd s ip t' (set_i_d (truncated i) i)) (set_i_d (truncated i) i).
Proof.
  intros Hv. pose proof Hv as (_ & Ed & _ & _ & HL & Hlim). apply tview_self in Hv. rewrite Ed in Hv.
  assert (Hl1 : length D1 = len) by apply HF. assert (Hl : length D' = len) by (unfold updated; by rewrite length_insert).
  destruct Hop as [H1 H2 H3 H4 H5 H6]. pose proof (truncated_ok i H5) as Hok. pose proof (tview_disk_ok _ _ _ _ _ _ Hv) as HD.
  split; rewrite ?upd_disk, ?Ed; try done.
  - split; rewrite ?upd_disk, ?Ed; try done; [rewrite Hl; apply Hs|]. cbn [fsb upd]. intros x Hx. pose proof (so_data _ _ (fo_sb _ Hs)).
    pose proof (data_start_pos sb len (fo_sb _ Hs)). rewrite trunc_used by lia. rewrite bool_decide_eq_false_2; [by apply Hs|].
    intros Ho%file_owned%owned_range. lia.
  - split; rewrite ?upd_disk, ?Ed; try done; [by apply list_lookup_insert_eq, (entry_lt s ip i)|apply trunc_wf].
  - by apply (updated_inode sb len (fo_sb _ Hs)).
  - intros x Hx. rewrite trunc_used by (by apply owned_range). by rewrite bool_decide_eq_true_2 by (by apply file_owned).
  - intros x Hx Ho. rewrite trunc_used by done. rewrite bool_decide_eq_false_2; [done|]. by rewrite file_owned.
  - split.
    + intros inum' Hi' Hne. rewrite upd_disk, Ed, (updated_inode_ne sb len (fo_sb _ Hs)) by done. unfold inode_of, dat.
      destruct (IBLOCK_range sb len (fo_sb _ Hs) inum' Hi') as (_ & _ & ? & ? & _). by rewrite (fr_frame _ _ _ _ HF) by (done || lia).
    + intros di Hdi Hdis. rewrite upd_disk, Ed. assert (Hsame := fun x => trunc_other di x Hdi Hdis).
      split; [by eapply same_wf|by eapply same_fdata].
  - etrans; [apply subseteq_size, HL|apply trunc_set_size].
Qed.

End after.

Lemma itrunc_trunced s ip i (Q : unit -> fstate S -> Prop) E :
  fs_ok s -> opened s ip i ->
  (size (tx_logged (fdk s)) + size (bitmaps (fsb s)) + 1 < tx_limit (fdk s))%nat ->
  (forall s' i', trunced s ip i s' i' -> Q tt s') -> wpe (itrunc ip) s Q E.
Proof.
  intros Hs Hop Hlim HQ. pose proof (trunc_set_size s i) as Hsz. rewrite (upd_here s ip i) at 1 by apply Hop.
  eapply (itrunc_spec s ip (entry_lt _ _ _ (op_entry _ _ _ Hop)) _ (fo_sb _ Hs) (disk s) (trunc_set s i) (tx_limit (fdk s)));
    try apply Hop; try done.
  - unfold trunc_set. set_solver +.
  - lia.
  - unfold trunc_set. set_solver +.
  - eapply tview_weaken; [apply Hs|]. unfold trunc_set. set_solver +.
  - intros t' D1 HF HD1 Hv. by eapply HQ, (trunc_trunced s ip i Hs Hop D1).
Qed.

(** Itrunc empties the file and gives back exactly its blocks. On a
    well-formed file, with room in the log for the inode and the bitmap, it
    cannot fail: every block of the file, the indirect one included, is free
    afterwards and every other block is in use as it was. The inode has length
    zero and no blocks, in memory and on the disk; other inodes and the
    contents of other files are as before. *)
Theorem itrunc_frees s ip i :
  fs_ok s -> opened s ip i ->
  (size (tx_logged (fdk s)) + size (bitmaps (fsb s)) + 1 < tx_limit (fdk s))%nat ->
  wp (itrunc ip) s (fun _ s' => exists i', trunced s ip i s' i' /\ contents s' i' = []).
Proof.
  intros Hs Hop Hlim. apply (itrunc_trunced s ip i); [done..|]. intros s' i' Ht. exists i'. split; [done|].
  by rewrite (tr_entry _ _ _ _ _ Ht).
Qed.

End truncate.
