(* ===== verification/Icache.v ===== *)
(** The inode cache: iget, idup, ilock, iunlock and iput of [fs.c] as
    operations on reference counts, and the inode that is freed with its last
    reference. *)

From S2P Require Import Prelude Block Sleeplock Log Tx Fs Bitmap Inode Dinode Iblock File Fileops Trunc.

Open Scope Z_scope.

(** ** Reference counts *)

Definition ikey (i : inode) : Z * Z := (i_dev i, i_inum i).

(** The references to inode [k] that the entries hold. *)
Definition counted (k : Z * Z) (i : inode) : Z := if decide (ikey i = k) then i_ref i else 0.
Fixpoint refs (l : list inode) (k : Z * Z) : Z :=
  match l with
  | [] => 0
  | i :: l => counted k i + refs l k
  end.

(** Counts are not negative, and an inode has at most one entry in use. *)
Record ic_ok (l : list inode) : Prop := {
  io_ref p i : l !! p = Some i -> 0 <= i_ref i;
  io_uniq p q i j : l !! p = Some i -> l !! q = Some j -> 0 < i_ref i -> 0 < i_ref j -> ikey i = ikey j -> p = q
}.

Lemma refs_insert l p i i' k : l !! p = Some i -> refs (<[p := i']> l) k = refs l k - counted k i + counted k i'.
Proof.
  revert p. induction l as [|j l IH]; intros p Hp; [done|]. destruct p as [|p]; cbn in *; [simplify_eq; lia|].
  rewrite IH by done. lia.
Qed.

Lemma refs_none l k : (forall p i, l !! p = Some i -> counted k i = 0) -> refs l k = 0.
Proof.
  induction l as [|j l IH]; intros H; [done|]. cbn. rewrite (H 0%nat j) by done. apply IH. intros p i. apply (H (S p)).
Qed.

Lemma refs_only l p i k :
  l !! p = Some i -> (forall q j, l !! q = Some j -> q <> p -> counted k j = 0) -> refs l k = counted k i.
Proof.
  intros Hp Hq. pose proof (refs_insert l p i (Inode 0 0 0 (i_lock i) 0 (i_d i)) k Hp) as E.
  rewrite (refs_none (<[p := _]> l)) in E.
  - unfold counted in E at 2. cbn in E. destruct (decide _); lia.
  - intros q j Hj. apply list_lookup_insert_Some in Hj as [(<- & <- & _)|[Hne Hj]]; [|by eapply Hq].
    unfold counted. cbn. by destruct (decide _).
Qed.

(** The entry of an inode that is in use holds all of its references. *)
Lemma refs_entry l p i : ic_ok l -> l !! p = Some i -> 0 < i_ref i -> refs l (ikey i) = i_ref i.
Proof.
  intros Hok Hp Hr. rewrite (refs_only l p i (ikey i) Hp); [by unfold counted; rewrite decide_True|].
  intros q j Hj Hne. unfold counted. destruct (decide _) as [E|]; [|done]. pose proof (io_ref _ Hok _ _ Hj).
  destruct (Z.eq_dec (i_ref j) 0); [done|]. destruct Hne. eapply (io_uniq _ Hok); try done. lia.
Qed.

(** Changing an entry without a clash. *)
Lemma ic_ok_insert l p i i' :
  ic_ok l -> l !! p = Some i -> 0 <= i_ref i' ->
  (forall q j, l !! q = Some j -> q <> p -> 0 < i_ref j -> 0 < i_ref i' -> ikey j <> ikey i') -> ic_ok (<[p := i']> l).
Proof.
  intros Hok Hp Hr Hc. split.
  - intros q j Hj. apply list_lookup_insert_Some in Hj as [(<- & <- & _)|[_ Hj]]; [done|by eapply io_ref].
  - intros q r j j' Hj Hj' H1 H2 E. apply list_lookup_insert_Some in Hj as [(<- & <- & _)|[Hn Hj]];
      apply list_lookup_insert_Some in Hj' as [(<- & <- & _)|[Hn' Hj']]; [done| | |by eapply io_uniq].
    + exfalso. by eapply (Hc r j').
    + exfalso. by eapply (Hc q j).
Qed.

(** The same inode, with another count. *)
Lemma ic_ok_same l p i i' :
  ic_ok l -> l !! p = Some i -> 0 < i_ref i -> ikey i' = ikey i -> 0 <= i_ref i' -> ic_ok (<[p := i']> l).
Proof.
  intros Hok Hp Hr E Hr'. apply (ic_ok_insert l p i); try done. intros q j Hj Hne H1 _ E'. destruct Hne.
  eapply (io_uniq _ Hok); try done. congruence.
Qed.

Lemma counted_eq i : counted (ikey i) i = i_ref i.
Proof. unfold counted. by rewrite decide_True. Qed.

(** The scan of iget finds the entry in use, or else the first free one. *)
Lemma iget_scan_spec l p empty dev inum :
  match iget_scan l p empty dev inum with
  | (Some ip, _) => exists q i, ip = (p + q)%nat /\ l !! q = Some i /\ 0 < i_ref i /\ ikey i = (dev, inum)
  | (None, e) =>
      (forall q i, l !! q = Some i -> 0 < i_ref i -> ikey i <> (dev, inum)) /\
      match empty with
      | Some x => e = Some x
      | None => match e with
                | Some ip => exists q i, ip = (p + q)%nat /\ l !! q = Some i /\ i_ref i = 0
                | None => forall q i, l !! q = Some i -> i_ref i <> 0
                end
      end
  end.
Proof.
  revert p empty. induction l as [|j l IH]; intros p empty; cbn [iget_scan].
  - split; [done|]. by destruct empty.
  - destruct ((0 <? i_ref j) && (i_dev j =? dev) && (i_inum j =? inum)) eqn:E.
    + apply andb_true_iff in E as [[E1 E2]%andb_true_iff E3]. exists 0%nat, j. unfold ikey. split; [lia|].
      split; [done|]. split; [lia|]. f_equal; lia.
    + assert (Hj : 0 < i_ref j -> ikey j <> (dev, inum)).
      { intros Hr [= E1 E2]. rewrite E1, E2, !Z.eqb_refl, (proj2 (Z.ltb_lt _ _) Hr) in E. done. }
      match goal with |- context [iget_scan l (p + 1) ?e dev inum] => specialize (IH (p + 1)%nat e) end.
      destruct (iget_scan _ _ _ _ _) as [[ip|] e].
      * destruct IH as (q & i & -> & Hq). exists (S q), i. split; [lia|done].
      * destruct IH as [H1 H2]. split; [intros [|q] i Hi; [cbn in Hi; simplify_eq; done|by apply (H1 q)]|].
        destruct empty as [x|]; [done|]. destruct (Z.eqb_spec (i_ref j) 0) as [E0|E0].
        -- subst e. exists 0%nat, j. split; [lia|done].
        -- destruct e as [ip|]; [destruct H2 as (q & i & -> & Hq & Hr); exists (S q), i; split; [lia|done]|].
           intros [|q] i Hi; [cbn in Hi; simplify_eq; done|by apply (H2 q)].
Qed.

(** ** The operations *)

Section icache.
Context {S : Type} `{TXL : TxStoreLaws S}.
Implicit Types (s : fstate S).

Lemma wpe_acquire_ic s (Q : unit -> fstate S -> Prop) E :
  ic_lock s = false -> Q tt (set_ic_lock true s) -> wpe acquire_ic s Q E.
Proof. intros Hl HQ. unfold acquire_ic. apply wpe_bind, wpe_get. rewrite Hl. by apply wpe_put. Qed.

Lemma wpe_release_ic s (Q : unit -> fstate S -> Prop) E :
  ic_lock s = true -> Q tt (set_ic_lock false s) -> wpe release_ic s Q E.
Proof. intros Hl HQ. unfold release_ic. apply wpe_bind, wpe_get. rewrite Hl. by apply wpe_put. Qed.

Lemma wpe_imod_at s ip i f (Q : unit -> fstate S -> Prop) E :
  icache s !! ip = Some i -> Q tt (set_icache (<[ip := f i]> (icache s)) s) -> wpe (imod ip f) s Q E.
Proof. intros Hi HQ. unfold imod, iat. apply wpe_bind, wpe_bind, wpe_get. rewrite Hi. by apply wpe_ret, wpe_modify. Qed.

Lemma wpe_iat_at s ip i (Q : inode -> fstate S -> Prop) E : icache s !! ip = Some i -> Q i s -> wpe (iat ip) s Q E.
Proof. intros Hi HQ. unfold iat. apply wpe_bind, wpe_get. rewrite Hi. by apply wpe_ret. Qed.

Lemma wpe_on_ilock {A} s ip i (m : M sleeplock A) (Q : A -> fstate S -> Prop) E :
  icache s !! ip = Some i ->
  wpe m (i_lock i) (fun a l => Q a (set_icache (<[ip := set_i_lock l i]> (icache s)) s))
    (fun w l => E w (set_icache (<[ip := set_i_lock l i]> (icache s)) s)) ->
  wpe (on_ilock ip m) s Q E.
Proof. intros Hi Hm. unfold on_ilock, wpe in *. rewrite Hi. by destruct (m (i_lock i)). Qed.

(** The cache with its lock free. *)
Definition ic_idle s : Prop := ic_ok (icache s) /\ ic_lock s = false.

(** One more reference to [k], and no other. *)
Definition adds l k d l' : Prop := forall k', refs l' k' = refs l k' + (if decide (k' = k) then d else 0).

Lemma adds_count l p i v :
  l !! p = Some i -> adds l (ikey i) (v - i_ref i) (<[p := set_i_ref v i]> l).
Proof.
  intros Hp k'. rewrite (refs_insert l p i) by done. unfold counted, ikey. cbn. repeat case_decide; try lia; congruence.
Qed.

Lemma release_again s l' : ic_lock s = false -> set_ic_lock false (set_icache l' (set_ic_lock true s)) = set_icache l' s.
Proof. destruct s; cbn. by intros ->. Qed.

Lemma idup_spec s ip i (Q : nat -> fstate S -> Prop) E :
  ic_idle s -> icache s !! ip = Some i -> 0 < i_ref i < 2 ^ 31 - 1 ->
  (let i' := set_i_ref (i_ref i + 1) i in let s' := set_icache (<[ip := i']> (icache s)) s in
   ic_idle s' -> adds (icache s) (ikey i) 1 (icache s') -> Q ip s') ->
  wpe (idup ip) s Q E.
Proof.
  intros [Hok Hl] Hi Hr HQ. unfold idup. apply wpe_bind, wpe_acquire_ic; [done|].
  apply wpe_bind. eapply wpe_imod_at; [exact Hi|]. apply wpe_bind, wpe_release_ic; [done|]. apply wpe_ret.
  cbn [icache set_ic_lock]. rewrite release_again by done. rewrite i32_small by (unfold in_i32; lia). apply HQ.
  - split; [|done]. eapply ic_ok_same; try done; cbn; lia.
  - pose proof (adds_count _ _ _ (i_ref i + 1) Hi) as Ha. by replace (i_ref i + 1 - i_ref i) with 1 in Ha by lia.
Qed.

(** The entry that iget returns for inode [k]: the one that was in use with
    one more reference, or a free one that is now used for [k], with nothing
    read from the disk yet. *)
Definition got s (k : Z * Z) ip s' : Prop :=
  exists i i', icache s !! ip = Some i /\ s' = set_icache (<[ip := i']> (icache s)) s /\ ikey i' = k /\
    i_lock i' = i_lock i /\ i_d i' = i_d i /\ i_ref i' = i_ref i + 1 /\
    (if decide (0 < refs (icache s) k) then ikey i = k /\ 0 < i_ref i /\ i_valid i' = i_valid i else i_ref i = 0 /\ i_valid i' = 0).

Lemma iget_spec s dev inum (Q : nat -> fstate S -> Prop) (E : stop -> fstate S -> Prop) :
  let k := (dev, inum) in
  ic_idle s -> refs (icache s) k < 2 ^ 31 - 1 ->
  (forall ip s', got s k ip s' -> ic_idle s' -> adds (icache s) k 1 (icache s') -> Q ip s') ->
  (refs (icache s) k = 0 -> (forall p i, icache s !! p = Some i -> 0 < i_ref i) ->
     E (Panicked "iget: no inodes") (set_ic_lock true s)) ->
  wpe (iget dev inum) s Q E.
Proof.
  intros k [Hok Hl] Hlt HQ HE. unfold iget. apply wpe_bind, wpe_acquire_ic; [done|]. apply wpe_bind, wpe_get. cbn [icache set_ic_lock].
  pose proof (iget_scan_spec (icache s) 0 None dev inum) as Hscan.
  destruct (iget_scan _ _ _ _ _) as [[ip|] e]; [|destruct Hscan as [Hno He]].
  - destruct Hscan as (q & i & -> & Hi & Hr & Hk). rewrite Nat.add_0_l. fold k in Hk.
    pose proof (refs_entry _ _ _ Hok Hi Hr) as Hrefs. rewrite Hk in Hrefs.
    apply wpe_bind. eapply wpe_imod_at; [exact Hi|]. apply wpe_bind, wpe_release_ic; [done|]. apply wpe_ret.
    cbn [icache set_ic_lock]. rewrite release_again by done. rewrite i32_small by (unfold in_i32; lia). apply HQ.
    + exists i, (set_i_ref (i_ref i + 1) i). split_and!; try done. by rewrite decide_True by lia.
    + split; [|done]. eapply ic_ok_same; try done; cbn; lia.
    + pose proof (adds_count _ _ _ (i_ref i + 1) Hi) as Ha. rewrite Hk in Ha. by replace (i_ref i + 1 - i_ref i) with 1 in Ha by lia.
  - assert (Hrefs : refs (icache s) k = 0).
    { apply refs_none. intros p i Hi. unfold counted. destruct (decide _) as [Ek|]; [|done]. pose proof (io_ref _ Hok _ _ Hi).
      destruct (Z.eq_dec (i_ref i) 0); [done|]. destruct (Hno p i Hi); [lia|done]. }
    destruct e as [ip|].
    + destruct He as (q & i & -> & Hi & Hr). rewrite Nat.add_0_l. apply wpe_bind. eapply wpe_imod_at; [exact Hi|].
      apply wpe_bind, wpe_release_ic; [done|]. apply wpe_ret. cbn [icache set_ic_lock]. rewrite release_again by done. apply HQ.
      * exists i, (Inode dev inum 1 (i_lock i) 0 (i_d i)). split_and!; try done; [cbn; lia|]. by rewrite decide_False by lia.
      * split; [|done]. eapply ic_ok_insert; [done|exact Hi|cbn; lia|]. intros p j Hj Hne Hr' _. by apply (Hno p j).
      * intros k'. cbn [icache set_icache]. rewrite (refs_insert _ q i) by done. unfold counted. cbn.
        change (ikey (Inode dev inum 1 (i_lock i) 0 (i_d i))) with k. repeat case_decide; try lia; congruence.
    + apply HE; [done|]. intros p i Hi. pose proof (io_ref _ Hok _ _ Hi). pose proof (He p i Hi). lia.
Qed.

(** Iget finds or creates the entry of an inode. With the lock of the
    cache free and at most one entry in use for every inode, it returns an
    entry for the inode asked for: the one in use if there is one, with its
    contents, or a free one that is marked as not read. Exactly one reference
    to exactly that inode is added, no other entry changes and there is still
    at most one entry for every inode. It panics only if no entry is free and
    the inode has none. *)
Theorem iget_refines s dev inum :
  ic_idle s -> refs (icache s) (dev, inum) < 2 ^ 31 - 1 ->
  wpe (iget dev inum) s
    (fun ip s' => got s (dev, inum) ip s' /\ ic_idle s' /\ adds (icache s) (dev, inum) 1 (icache s'))
    (fun w s' => w = Panicked "iget: no inodes" /\ refs (icache s) (dev, inum) = 0 /\
       forall p i, icache s !! p = Some i -> 0 < i_ref i).
Proof. intros Hs Hr. by apply iget_spec. Qed.

(** ** Locking *)

Definition lk_free (l : sleeplock) : Prop := sl_lk l = false /\ sl_locked l = 0.
Definition lk_taken (me : Z) (l : sleeplock) : sleeplock := SleepLock 1 false (sl_name l) me (sl_wakeups l).
Definition lk_released (l : sleeplock) : sleeplock := SleepLock 0 false (sl_name l) 0 (sl_wakeups l + 1).

Lemma acquire_upd me s ip t i (Q : unit -> fstate S -> Prop) E :
  (ip < length (icache s))%nat -> lk_free (i_lock i) -> Q tt (upd s ip t (set_i_lock (lk_taken me (i_lock i)) i)) ->
  wpe (on_ilock ip (acquiresleep me ip)) (upd s ip t i) Q E.
Proof.
  intros Hip [H1 H2] HQ. eapply wpe_on_ilock; [by apply list_lookup_insert_eq|]. unfold wpe at 1; rewrite acquiresleep_free by done.
  cbn [icache upd]. unfold set_icache. cbn. by rewrite list_insert_insert_eq.
Qed.

Lemma release_upd s ip t i (Q : unit -> fstate S -> Prop) E :
  (ip < length (icache s))%nat -> sl_lk (i_lock i) = false -> Q tt (upd s ip t (set_i_lock (lk_released (i_lock i)) i)) ->
  wpe (on_ilock ip releasesleep) (upd s ip t i) Q E.
Proof.
  intros Hip H1 HQ. eapply wpe_on_ilock; [by apply list_lookup_insert_eq|]. unfold wpe at 1; rewrite releasesleep_run by done.
  cbn [icache upd]. unfold set_icache. cbn. by rewrite list_insert_insert_eq.
Qed.

Lemma ilock_spec me s ip t D L lim i (Q : unit -> fstate S -> Prop) E :
  (ip < length (icache s))%nat -> 0 < i_ref i -> lk_free (i_lock i) ->
  tview t D ∅ ∅ L lim -> sb_ok (fsb s) (length D) -> i_dev i = ROOTDEV -> 0 <= i_inum i < sb_ninodes (fsb s) ->
  (i_valid i = 0 -> d_type (inode_of (fsb s) D (i_inum i)) <> 0) ->
  (forall t', tview t' D ∅ ∅ L lim -> let l := lk_taken me (i_lock i) in
     Q tt (upd s ip t' (if i_valid i =? 0 then Inode (i_dev i) (i_inum i) (i_ref i) l 1 (inode_of (fsb s) D (i_inum i))
                        else set_i_lock l i))) ->
  wpe (ilock me (Some ip)) (upd s ip t i) Q E.
Proof.
  intros Hip Hr Hlk Hv Hsb Hdev Hi Hty HQ. unfold ilock. apply wpe_bind, wpe_iat; [done|].
  rewrite (proj2 (Z.ltb_ge _ _)) by lia. apply wpe_bind, acquire_upd; [done|done|]. apply wpe_bind, wpe_iat; [done|]. cbn [i_valid set_i_lock].
  destruct (Z.eqb_spec (i_valid i) 0) as [E0|E0]; cbn [when]; [|by apply wpe_ret, HQ].
  apply wpe_bind, wpe_get. cbn [i_dev i_inum set_i_lock fsb upd]. rewrite Hdev.
  destruct (IBLOCK_range (fsb s) _ Hsb (i_inum i) Hi) as (_ & _ & Hb & _).
  destruct (iblock_dat (fsb s) _ Hsb D (i_inum i) eq_refl (tview_disk_ok _ _ _ _ _ _ Hv) Hi) as [_ Hd].
  apply wpe_bind, wpe_dk. eapply wpe_tbread; [exact Hv|lia|done|by vm_compute; lia|]. intros k t1 Hk Hv1.
  apply wpe_bind, wpe_dk. eapply wpe_tdata; [exact Hv1|apply lookup_insert_eq|exact Hd|].
  apply wpe_bind, wpe_imod; [done|]. apply wpe_bind, wpe_dk. eapply wpe_tbrelse; [exact Hv1|apply lookup_insert_eq|set_solver|].
  rewrite delete_insert_id by done. intros t2 Hv2. apply wpe_bind, wpe_imod; [done|]. apply wpe_bind, wpe_iat; [done|].
  cbn [i_d set_i_d set_i_valid]. fold (inode_of (fsb s) D (i_inum i)). rewrite (proj2 (Z.eqb_neq _ _)) by auto. cbn [when].
  apply wpe_ret. exact (HQ t2 Hv2).
Qed.

Lemma iunlock_spec me s ip t i (Q : unit -> fstate S -> Prop) E :
  (ip < length (icache s))%nat -> 0 < i_ref i -> sl_lk (i_lock i) = false -> sl_held me (i_lock i) ->
  Q tt (upd s ip t (set_i_lock (lk_released (i_lock i)) i)) -> wpe (iunlock me (Some ip)) (upd s ip t i) Q E.
Proof.
  intros Hip Hr Hlk Hh HQ. unfold iunlock. apply wpe_bind. eapply wpe_on_ilock; [by apply list_lookup_insert_eq|].
  unfold wpe at 1; rewrite holdingsleep_held by done. cbn [icache upd]. unfold set_icache. cbn [fdk ic_lock icache fsb fcwd upd].
  rewrite list_insert_insert_eq. change (FState t (ic_lock s) _ (fsb s) (fcwd s)) with (upd s ip t (set_i_lock (i_lock i) i)).
  replace (set_i_lock (i_lock i) i) with i by (by destruct i). apply wpe_bind, wpe_iat; [done|].
  rewrite (proj2 (Z.ltb_ge _ _)) by lia. cbn. by apply release_upd.
Qed.

(** ** Dropping a reference *)

(** The entry after iput: unlocked, with one reference less. *)
Definition dropped (me : Z) (i : inode) : inode :=
  set_i_ref (i_ref i - 1) (set_i_lock (lk_released (lk_taken me (i_lock i))) i).

Lemma iput_end s ip i (Q : unit -> fstate S -> Prop) E :
  icache s !! ip = Some i -> sl_lk (i_lock i) = false -> ic_lock s = false -> 0 < i_ref i < 2 ^ 31 ->
  Q tt (upd s ip (fdk s) (set_i_ref (i_ref i - 1) (set_i_lock (lk_released (i_lock i)) i))) ->
  wpe (on_ilock ip releasesleep ;; acquire_ic ;; imod ip (fun i => set_i_ref (i32 (i_ref i - 1)) i) ;; release_ic) s Q E.
Proof.
  intros Hi Hlk Hl Hr HQ. pose proof (entry_lt _ _ _ Hi) as Hip. rewrite (upd_here s ip i Hi) at 1.
  apply wpe_bind, release_upd; [done|done|]. apply wpe_bind, wpe_acquire_ic; [done|].
  change (set_ic_lock true (upd s ip (fdk s) ?x)) with (upd (set_ic_lock true s) ip (fdk s) x).
  apply wpe_bind, wpe_imod; [done|]. apply wpe_release_ic; [done|]. cbn [i_ref set_i_lock]. rewrite i32_small by (unfold in_i32; lia).
  unfold set_ic_lock, upd. cbn. rewrite <- Hl. exact HQ.
Qed.

(** Whether iput frees the inode. *)
Definition last_use (i : inode) : bool := negb (i_valid i =? 0) && (d_nlink (i_d i) =? 0) && (i_ref i =? 1).

Lemma iput_keeps me s ip i (Q : unit -> fstate S -> Prop) E :
  icache s !! ip = Some i -> lk_free (i_lock i) -> ic_lock s = false -> 0 < i_ref i < 2 ^ 31 -> last_use i = false ->
  Q tt (upd s ip (fdk s) (dropped me i)) -> wpe (iput me ip) s Q E.
Proof.
  intros Hi Hlk Hl Hr Hlast HQ. pose proof (entry_lt _ _ _ Hi) as Hip. rewrite (upd_here s ip i Hi) at 1. unfold iput.
  apply wpe_bind, acquire_upd; [done|done|]. set (i1 := set_i_lock _ i). apply wpe_bind, wpe_iat; [done|].
  assert (Hend : wpe (on_ilock ip releasesleep ;; acquire_ic ;; imod ip (fun i => set_i_ref (i32 (i_ref i - 1)) i) ;; release_ic)
    (upd s ip (fdk s) i1) Q E).
  { apply (iput_end _ ip i1); try done; [by apply list_lookup_insert_eq|]. cbn [fdk upd]. by rewrite upd_upd. }
  unfold last_use in Hlast. cbn [i_valid i_d set_i_lock i1] in *. apply wpe_bind.
  destruct (negb (i_valid i =? 0) && (d_nlink (i_d i) =? 0)); cbn [when]; [|by apply wpe_ret].
  apply wpe_bind, wpe_acquire_ic; [done|]. change (set_ic_lock true (upd s ip (fdk s) ?x)) with (upd (set_ic_lock true s) ip (fdk s) x).
  apply wpe_bind, wpe_iat; [done|]. apply wpe_bind, wpe_release_ic; [done|]. cbn [i_ref set_i_lock i1]. cbn [andb] in Hlast. rewrite Hlast. cbn [when].
  apply wpe_ret. unfold set_ic_lock, upd in *. cbn in *. by rewrite <- Hl.
Qed.

(** The inode [i] is free: on the disk it has no type, and its
    blocks are not in use. *)
Record freed s (i : inode) s' : Prop := {
  fd_ok : fs_ok s';
  fd_type : d_type (inode_of (fsb s) (tx_disk (fdk s')) (i_inum i)) = 0;
  fd_freed x : owned (tx_disk (fdk s)) (i_d i) x -> used (tx_disk (fdk s')) (fsb s) x = false;
  fd_kept x : 0 <= x < sb_size (fsb s) -> ~ owned (tx_disk (fdk s)) (i_d i) x ->
    used (tx_disk (fdk s')) (fsb s) x = used (tx_disk (fdk s)) (fsb s) x;
  fd_others : others_keep s s' i;
  fd_rest : fsb s' = fsb s /\ ic_lock s' = ic_lock s
}.

Lemma fs_ok_same s s' : fs_ok s -> fdk s' = fdk s -> fsb s' = fsb s -> fs_ok s'.
Proof. intros [H1 H2 H3] E1 E2. split; by rewrite ?E1, ?E2. Qed.

Lemma opened_same s s' ip i i' :
  opened s ip i -> fdk s' = fdk s -> fsb s' = fsb s -> icache s' !! ip = Some i' -> i_dev i' = i_dev i -> i_inum i' = i_inum i ->
  i_d i' = i_d i -> opened s' ip i'.
Proof. intros [] E1 E2 E3 E4 E5 E6. split; rewrite ?E1, ?E2, ?E4, ?E5, ?E6; done. Qed.

Lemma trunc_and_clear s ip i (Q : unit -> fstate S -> Prop) E :
  fs_ok s -> opened s ip i -> (size (tx_logged (fdk s)) + size (bitmaps (fsb s)) + 2 < tx_limit (fdk s))%nat ->
  (forall s', freed s i s' -> icache s' = <[ip := set_i_valid 0 (set_i_d (set_d_type 0 (truncated i)) i)]> (icache s) -> Q tt s') ->
  wpe (itrunc ip ;; dmod ip (set_d_type 0) ;; iupdate ip ;; imod ip (set_i_valid 0)) s Q E.
Proof.
  intros Hs Hop Hlim HQ. pose proof (entry_lt _ _ _ (op_entry _ _ _ Hop)) as Hip. apply wpe_bind.
  apply (itrunc_trunced s ip i); [done|done|lia|]. intros s2 i2 [T1 T2 T3 T4 T5 T6 T7 T8 T9 T10 T11 T12].
  apply wpe_bind. unfold dmod. eapply wpe_imod_at; [apply T2|]. set (i3 := set_i_d (set_d_type 0 (i_d i2)) i2).
  set (s3 := set_icache _ s2). assert (Hi3 : icache s3 !! ip = Some i3).
  { apply list_lookup_insert_eq. rewrite T8, length_insert. done. }
  assert (Hdi3 : dinode_ok (i_d i3)) by (destruct (op_ok _ _ _ T2); split; try done; unfold in_i16; cbn; lia).
  apply wpe_bind. apply (iupdate_stored s3 ip i3); try done; [by apply (fs_ok_same s2)|apply T2|apply T2| |].
  { cbn. rewrite T11. lia. }
  intros s4 [U1 U2 U3 U4 U5 U6 (U7 & U8 & _) U9 U10]. change (fsb s3) with (fsb s2) in *. change (fdk s3) with (fdk s2) in *. rewrite T9 in *.
  change (i_inum i3) with (i_inum i2) in *. assert (En : i_inum i2 = i_inum i) by (by rewrite T3). rewrite En in *.
  eapply wpe_imod_at; [by rewrite U6|]. apply HQ.
  - split; cbn [fdk set_icache fsb ic_lock]; try done.
    + by apply (fs_ok_same s4).
    + by rewrite U2.
    + intros x Hx. rewrite U3; [by apply T5|]. destruct (owned_used _ _ _ x (op_wf _ _ _ Hop) Hx).
      pose proof (data_start_pos _ _ (fo_sb _ Hs)). lia.
    + intros x Hx Ho. rewrite U3 by done. by apply T6.
    + destruct T7 as [V1 V2], U4 as [V3 _]. split; cbn [fdk set_icache].
      * intros inum' Hi' Hne. change (fsb s3) with (fsb s2) in V3. rewrite T9 in V3. rewrite V3; [by apply V1|done|]. cbn. by rewrite En.
      * intros di Hdi Hdis. destruct (V2 di Hdi Hdis) as [W1 W2]. destruct (U5 di W1) as [W3 W4]. by rewrite W4, W2.
    + rewrite U7, U8. split; [done|apply T10].
  - cbn [icache set_icache]. rewrite U6. cbn [icache set_icache s3]. rewrite !list_insert_insert_eq, T8, list_insert_insert_eq.
    unfold i3. by rewrite T3.
Qed.

Lemma iput_frees me s ip i (Q : unit -> fstate S -> Prop) E :
  fs_ok s -> opened s ip i -> (size (tx_logged (fdk s)) + size (bitmaps (fsb s)) + 2 < tx_limit (fdk s))%nat ->
  lk_free (i_lock i) -> ic_lock s = false -> last_use i = true ->
  (forall s', freed s i s' -> icache s' = <[ip := set_i_valid 0 (set_i_d (set_d_type 0 (truncated i)) (dropped me i))]> (icache s) -> Q tt s') ->
  wpe (iput me ip) s Q E.
Proof.
  intros Hs Hop Hlim Hlk Hl Hlast HQ. pose proof (op_entry _ _ _ Hop) as Hi. pose proof (entry_lt _ _ _ Hi) as Hip.
  apply andb_true_iff in Hlast as [Hv Hr]. apply Z.eqb_eq in Hr. rewrite (upd_here s ip i Hi) at 1. unfold iput.
  apply wpe_bind, acquire_upd; [done|done|]. set (i1 := set_i_lock _ i). apply wpe_bind, wpe_iat; [done|].
  cbn [i_valid i_d set_i_lock i1]. apply wpe_bind. rewrite Hv. cbn [when].
  apply wpe_bind, wpe_acquire_ic; [done|]. change (set_ic_lock true (upd s ip (fdk s) ?x)) with (upd (set_ic_lock true s) ip (fdk s) x).
  apply wpe_bind, wpe_iat; [done|]. apply wpe_bind, wpe_release_ic; [done|]. cbn [i_ref set_i_lock i1]. rewrite Hr, Z.eqb_refl. cbn [when].
  set (s1 := upd s ip (fdk s) i1). replace (set_ic_lock false _) with s1 by (unfold s1, upd, set_ic_lock; cbn; by rewrite Hl).
  assert (Hop1 : opened s1 ip i1) by (apply (opened_same s s1 ip i); try done; by apply list_lookup_insert_eq).
  apply (trunc_and_clear s1 ip i1); [by apply (fs_ok_same s)|done|done|].
  intros s4 [F1 F2 F3 F4 F5 (F6 & F7)] Hc. apply (iput_end s4 ip (set_i_valid 0 (set_i_d (set_d_type 0 (truncated i1)) i1))); try done.
  - rewrite Hc. apply list_lookup_insert_eq. unfold s1. cbn. by rewrite length_insert.
  - by rewrite F7.
  - cbn. rewrite Hr. lia.
  - apply HQ; [split; try done; by apply (fs_ok_same s4)|]. cbn [icache upd]. rewrite Hc. cbn [icache upd s1]. rewrite !list_insert_insert_eq. done.
Qed.

(** Iput drops one reference, and frees the inode with the last one. The
    entry is unlocked and has one reference less; no other inode of the cache
    gains or loses one. If the inode has no links and this was the only
    reference to it, then its blocks are not in use any more and all other
    blocks are as before, the inode on the disk has no type and the entry is
    not valid; other inodes and other files are untouched. In all other cases
    the disk and the inode in memory do not change. *)
Theorem iput_drops me s ip i :
  ic_idle s -> icache s !! ip = Some i -> lk_free (i_lock i) -> 0 < i_ref i < 2 ^ 31 ->
  (last_use i = true -> fs_ok s /\ opened s ip i /\
     (size (tx_logged (fdk s)) + size (bitmaps (fsb s)) + 2 < tx_limit (fdk s))%nat) ->
  wp (iput me ip) s (fun _ s' => exists i', icache s' = <[ip := i']> (icache s) /\ ic_idle s' /\
    lk_free (i_lock i') /\ i_ref i' = i_ref i - 1 /\ adds (icache s) (ikey i) (-1) (icache s') /\
    if last_use i then freed s i s' /\ i_valid i' = 0
    else fdk s' = fdk s /\ i_d i' = i_d i /\ i_valid i' = i_valid i).
Proof.
  intros [Hok Hl] Hi Hlk Hr Hlast.
  assert (Hcache : forall i', ikey i' = ikey i -> i_ref i' = i_ref i - 1 ->
    ic_ok (<[ip := i']> (icache s)) /\ adds (icache s) (ikey i) (-1) (<[ip := i']> (icache s))).
  { intros i' Hk Hi'. split; [eapply ic_ok_same; try done; lia|]. intros k. rewrite (refs_insert _ ip i) by done.
    unfold counted. rewrite Hk, Hi'. repeat case_decide; try lia; congruence. }
  destruct (last_use i) eqn:El.
  - destruct Hlast as (Hs & Hop & Hlim); [done|]. apply (iput_frees me s ip i); try done. intros s' Hf Hc.
    eexists. split; [exact Hc|]. destruct (Hcache (set_i_valid 0 (set_i_d (set_d_type 0 (truncated i)) (dropped me i)))) as [H1 H2]; [done|done|].
    rewrite <- Hc in H1, H2. split_and!; try done. split; [done|]. by rewrite (proj2 (fd_rest _ _ _ Hf)).
  - apply (iput_keeps me s ip i); try done. exists (dropped me i). destruct (Hcache (dropped me i)) as [H1 H2]; [done|done|]. split_and!; try done.
Qed.

End icache.
