(* ===== verification/Dir.v ===== *)
(** Directories: dirlookup and dirlink of [fs.c] as operations on a map from
    names to inode numbers. *)

From S2P Require Import Prelude Mem Block Sleeplock Log Tx Fs Bitmap Inode Dinode Iblock File Fileops Trunc Icache.

Open Scope Z_scope.

(** ** Names and entries *)

(** The name that an array holds: at most DIRSIZ bytes count. *)
Definition cname (l : list Z) : list Z := cut0 (take (Z.to_nat DIRSIZ) l).

(** The array ends the string, or has at least [n] bytes. *)
Definition readable (n : nat) (l : list Z) : Prop := (n <= length l)%nat \/ 0 ∈ l.

Lemma strncmp_arr_spec {S} n p q (s : fstate S) :
  readable n p -> (n <= length q)%nat ->
  exists c, strncmp_arr n p q s = Ret c s /\ (c = 0 <-> cut0 (take n p) = cut0 (take n q)).
Proof.
  revert p q. induction n as [|n IH]; intros p q Hp Hq; [by exists 0|].
  destruct q as [|c' q]; cbn in Hq; [lia|]. destruct p as [|c p].
  { exfalso. destruct Hp as [Hp|Hp]; [cbn in Hp; lia|by apply elem_of_nil in Hp]. }
  cbn [strncmp_arr take cut0]. destruct (Z.eqb_spec c 0) as [->|Hc]; cbn [negb andb].
  - exists (0 - c'). split; [done|]. destruct (Z.eqb_spec c' 0) as [->|]; [done|]. split; [lia|done].
  - destruct (Z.eqb_spec c c') as [<-|Hne].
    + rewrite (proj2 (Z.eqb_neq c 0)) by done. destruct (IH p q) as (x & Hx & Heq); [|lia|].
      { destruct Hp as [Hp|Hp]; [left; cbn in Hp; lia|]. right. apply elem_of_cons in Hp as [Hp|]; [congruence|done]. }
      exists x. split; [done|]. rewrite Heq. split; [by intros ->|]. by intros [= ?].
    + exists (c - c'). split; [done|]. split; [lia|]. destruct (Z.eqb_spec c' 0); [done|]. by intros [= ?].
Qed.

Definition dent (bs : list Z) (k : nat) : list Z := sub bs (16 * k) 16.
Definition dents (bs : list Z) : list (list Z) := dent bs <$> seq 0 (length bs / 16).

(** The entry at or after position [k] that holds the name. *)
Fixpoint dir_find (ents : list (list Z)) (k : nat) (nm : list Z) : option (nat * Z) :=
  match ents with
  | [] => None
  | de :: ents =>
      if negb (de_inum de =? 0) && bool_decide (cname (de_name de) = nm) then Some (k, de_inum de)
      else dir_find ents (S k) nm
  end.

(** What a directory maps a name to. *)
Definition dir_lookup (bs : list Z) (nm : list Z) : option Z := snd <$> dir_find (dents bs) 0 nm.

(** The first free entry, or the end. *)
Fixpoint dir_free (ents : list (list Z)) (k : nat) : nat :=
  match ents with
  | [] => k
  | de :: ents => if de_inum de =? 0 then k else dir_free ents (S k)
  end.

Lemma length_dents bs : length (dents bs) = (length bs / 16)%nat.
Proof. unfold dents. by rewrite length_fmap, length_seq. Qed.

Lemma dents_lookup bs k : (k < length bs / 16)%nat -> dents bs !! k = Some (dent bs k).
Proof. intros Hk. unfold dents. rewrite list_lookup_fmap, lookup_seq_lt by done. done. Qed.

Lemma dents_drop bs k : (k < length bs / 16)%nat -> drop k (dents bs) = dent bs k :: drop (S k) (dents bs).
Proof. intros Hk. apply drop_S. by apply dents_lookup. Qed.

Lemma dents_cons e rest : length e = 16%nat -> dents (e ++ rest) = e :: dents rest.
Proof.
  intros He. apply list_eq. intros i. assert (Hl : (length (e ++ rest) / 16 = S (length rest / 16))%nat).
  { rewrite length_app, He. replace (16 + length rest)%nat with (1 * 16 + length rest)%nat by lia. by rewrite Nat.div_add_l. }
  destruct (decide (i < S (length rest / 16))%nat) as [Hi|Hi].
  - rewrite dents_lookup by lia. unfold dent, sub. destruct i as [|i].
    + rewrite Nat.mul_0_r, drop_0. by rewrite take_app_length'.
    + change ((?a :: ?l) !! S i) with (l !! i). rewrite dents_lookup by lia. unfold dent, sub.
      rewrite drop_app_ge by lia. do 3 f_equal. lia.
  - rewrite !lookup_ge_None_2; [done|cbn [length]; rewrite length_dents; lia|rewrite length_dents; lia].
Qed.

Lemma dents_concat es rest : Forall (fun e => length e = 16%nat) es -> dents (concat es ++ rest) = es ++ dents rest.
Proof. induction 1 as [|e es He _ IH]; [done|]. cbn [concat]. by rewrite <- app_assoc, dents_cons, IH. Qed.

Lemma dir_find_lookup ents k nm j inum :
  dir_find ents k nm = Some (j, inum) ->
  exists de, (k <= j)%nat /\ ents !! (j - k)%nat = Some de /\ de_inum de = inum /\ inum <> 0 /\ cname (de_name de) = nm.
Proof.
  revert k. induction ents as [|de ents IH]; intros k; [done|]. cbn [dir_find].
  destruct (negb (de_inum de =? 0) && bool_decide _) eqn:E.
  - apply andb_true_iff in E as [E1 E2%bool_decide_eq_true]. intros [= <- <-]. exists de. rewrite Nat.sub_diag.
    split_and!; try done; lia.
  - intros (de' & H1 & H2 & H3)%IH. exists de'. split; [lia|]. split; [|done]. by replace (j - k)%nat with (S (j - S k)) by lia.
Qed.

(** ** Adding an entry *)

(** The entry goes to the first free place, or to the end. *)
Fixpoint dir_put (ents : list (list Z)) (de : list Z) : list (list Z) :=
  match ents with
  | [] => [de]
  | e :: ents => if de_inum e =? 0 then de :: ents else e :: dir_put ents de
  end.

Lemma dir_put_find ents k nm de :
  de_inum de <> 0 -> dir_find ents k (cname (de_name de)) = None ->
  snd <$> dir_find (dir_put ents de) k nm =
  if decide (nm = cname (de_name de)) then Some (de_inum de) else snd <$> dir_find ents k nm.
Proof.
  intros H0. revert k. induction ents as [|e ents IH]; intros k Hno; cbn [dir_put dir_find] in *.
  - rewrite (proj2 (Z.eqb_neq _ _) H0). cbn. destruct (decide (nm = _)) as [->|]; [by rewrite bool_decide_eq_true_2|].
    by rewrite bool_decide_eq_false_2 by congruence.
  - destruct (Z.eqb_spec (de_inum e) 0) as [E|E]; cbn [dir_find negb andb] in *.
    + rewrite (proj2 (Z.eqb_neq _ _) H0). cbn. destruct (decide (nm = _)) as [->|].
      * by rewrite bool_decide_eq_true_2.
      * by rewrite bool_decide_eq_false_2 by congruence.
    + rewrite (proj2 (Z.eqb_neq _ _) E). cbn. destruct (bool_decide (cname (de_name e) = cname (de_name de))) eqn:Hb; [done|].
      apply bool_decide_eq_false in Hb. case_bool_decide as Hn.
      * rewrite decide_False by congruence. done.
      * by apply IH.
Qed.

Lemma dir_put_alt ents de k :
  dir_put ents de = take (dir_free ents k - k) ents ++ de :: drop (S (dir_free ents k - k)) ents /\
  (k <= dir_free ents k <= k + length ents)%nat.
Proof.
  revert k. induction ents as [|e ents IH]; intros k; cbn [dir_put dir_free].
  - rewrite Nat.sub_diag. split; [done|cbn; lia].
  - destruct (de_inum e =? 0); [rewrite Nat.sub_diag; split; [done|cbn; lia]|]. destruct (IH (S k)) as [-> Hr].
    replace (dir_free ents (S k) - k)%nat with (S (dir_free ents (S k) - S k)) by lia. split; [done|cbn; lia].
Qed.

Lemma dents_splice bs de k :
  length bs = (16 * (length bs / 16))%nat -> length de = 16%nat -> (k <= length bs / 16)%nat ->
  dents (splice bs (16 * k) de) = take k (dents bs) ++ de :: drop (S k) (dents bs) /\
  length (splice bs (16 * k) de) = (16 * (length (splice bs (16 * k) de) / 16))%nat.
Proof.
  set (n := (length bs / 16)%nat). intros Hw Hde Hk.
  assert (Hl : length (splice bs (16 * k) de) = (16 * Nat.max (S k) n)%nat) by (rewrite length_splice_ge by lia; lia).
  assert (Hn : (length (splice bs (16 * k) de) / 16 = Nat.max (S k) n)%nat) by (rewrite Hl, Nat.mul_comm; by apply Nat.div_mul).
  split; [|by rewrite Hn]. apply list_eq. intros j. destruct (decide (j < Nat.max (S k) n)%nat) as [Hj|Hj].
  - rewrite dents_lookup by (by rewrite Hn). unfold dent. destruct (decide (j = k)) as [->|Hne].
    + pose proof (sub_splice_eq bs (16 * k) de ltac:(lia)) as Hs. rewrite Hde in Hs. rewrite Hs. rewrite lookup_app_r by (rewrite length_take, length_dents; fold n; lia).
      rewrite length_take, length_dents. fold n. by rewrite Nat.min_l, Nat.sub_diag by done.
    + rewrite sub_splice_ne by lia. destruct (decide (j < k)%nat).
      * rewrite lookup_app_l by (rewrite length_take, length_dents; fold n; lia). rewrite lookup_take_lt by done.
        by rewrite dents_lookup by (fold n; lia).
      * rewrite lookup_app_r by (rewrite length_take, length_dents; fold n; lia). rewrite length_take, length_dents. fold n.
        rewrite Nat.min_l by done. replace (j - k)%nat with (S (j - S k)) by lia.
        change ((de :: ?l) !! S ?k) with (l !! k). rewrite lookup_drop. rewrite dents_lookup by (fold n; lia). unfold dent. do 2 f_equal. lia.
  - rewrite !lookup_ge_None_2; [done| |by rewrite length_dents, Hn; lia].
    rewrite length_app, length_take. cbn [length]. rewrite length_drop, length_dents. fold n. lia.
Qed.

(** The directory with one more entry maps its name to its inode. *)
Lemma dir_lookup_put bs de nm :
  length bs = (16 * (length bs / 16))%nat -> length de = 16%nat -> de_inum de <> 0 ->
  dir_lookup bs (cname (de_name de)) = None ->
  dir_lookup (splice bs (16 * dir_free (dents bs) 0) de) nm =
  if decide (nm = cname (de_name de)) then Some (de_inum de) else dir_lookup bs nm.
Proof.
  intros Hw Hde H0 Hno. unfold dir_lookup in *. destruct (dir_put_alt (dents bs) de 0) as [Hput Hr]. rewrite Nat.sub_0_r in Hput.
  rewrite length_dents in Hr. destruct (dents_splice bs de (dir_free (dents bs) 0) Hw Hde) as [-> _]; [lia|].
  rewrite <- Hput. apply dir_put_find; [done|]. by destruct (dir_find _ _ _).
Qed.

(** ** Looking up *)

Section dirs.
Context {S : Type} `{TXL : TxStoreLaws S}.
Context (devsw_read : Z -> option (nat -> Z -> M (fstate S) (Z * list Z))).
Context (s : fstate S) (dp : nat) (i : inode) (D : list block) (L : gset Z) (lim : nat).
Hypothesis Hdp : (dp < length (icache s))%nat.
Hypothesis Hsb : sb_ok (fsb s) (length D).
Hypothesis Hdev : i_dev i = ROOTDEV.
Hypothesis Hwf : wf_file (fsb s) D (i_d i).
Hypothesis Hdir : d_type (i_d i) = T_DIR.

Local Notation bs := (fdata D (i_d i)).
Local Notation n := (length bs / 16)%nat.

(** The directory holds whole entries. *)
Hypothesis Hwhole : length bs = (16 * n)%nat.

Lemma dir_size : d_size (i_d i) = 16 * Z.of_nat n /\ Z.of_nat n <= 4480.
Proof.
  clear Hdp. pose proof (wf_size _ _ _ Hwf) as Hs. change (MAXFILE * BSIZE) with 71680 in Hs.
  pose proof (length_fdata D (i_d i)) as Hl. lia.
Qed.

Lemma read_dent t k (Q : Z * list Z -> fstate S -> Prop) E :
  tview t D ∅ ∅ L lim -> (k < n)%nat ->
  (forall t', tview t' D ∅ ∅ L lim -> Q (DIRENT, dent bs k) (upd s dp t' i)) ->
  wpe (readi devsw_read dp (16 * Z.of_nat k) DIRENT) (upd s dp t i) Q E.
Proof.
  intros Hv Hk HQ. destruct dir_size as [Hs Hn].
  eapply (readi_spec s dp Hdp (length D) Hsb); [exact Hv|done|done|done|by rewrite Hdir| | | |].
  - unfold in_u32. lia.
  - by vm_compute.
  - change DIRENT with 16. lia.
  - intros t' b _ _ Hv' ->. assert (Hl : length (dent bs k) = 16%nat) by (apply length_sub; lia).
    replace (sub _ _ _) with (dent bs k) by (unfold dent; f_equal; lia). rewrite Hl. by apply HQ.
Qed.

(** The array [name] holds the name [nm]. *)
Context (name nm : list Z).
Hypothesis Hname : readable (Z.to_nat DIRSIZ) name.
Hypothesis Hnm : nm = cname name.

Lemma namecmp_dent k (s' : fstate S) : (k < n)%nat ->
  exists c, namecmp name (de_name (dent bs k)) s' = Ret c s' /\ (c = 0 <-> cname (de_name (dent bs k)) = nm).
Proof.
  intros Hk. destruct (strncmp_arr_spec (Z.to_nat DIRSIZ) name (de_name (dent bs k)) s' Hname) as (c & Hc & Heq).
  - unfold de_name, dent. rewrite length_drop, length_sub by lia. vm_compute. lia.
  - exists c. split; [done|]. rewrite Heq, Hnm. unfold cname. split; intros E; by rewrite E.
Qed.

Lemma dirlookup_loop_spec fuel k t (Q : option (nat * Z) -> fstate S -> Prop) E :
  tview t D ∅ ∅ L lim -> (k <= n)%nat -> (n - k < fuel)%nat ->
  (forall t', tview t' D ∅ ∅ L lim ->
     match dir_find (drop k (dents bs)) k nm with
     | Some (j, inum) => wpe (iget ROOTDEV inum) (upd s dp t' i) (fun ip s' => Q (Some (ip, 16 * Z.of_nat j)) s') E
     | None => Q None (upd s dp t' i)
     end) ->
  wpe (dirlookup_loop devsw_read fuel dp name (16 * Z.of_nat k)) (upd s dp t i) Q E.
Proof.
  revert k t. induction fuel as [|fuel IH]; intros k t Hv Hk Hfuel HQ; [lia|]. cbn [dirlookup_loop].
  destruct dir_size as [Hs Hn].
  apply wpe_bind, wpe_iat; [done|]. rewrite Hs. destruct (Z.ltb_spec (16 * Z.of_nat k) (16 * Z.of_nat n)) as [Hlt|Hge].
  - apply wpe_bind, read_dent; [done|lia|]. intros t1 Hv1. cbn [fst snd]. rewrite Z.eqb_refl. cbn [negb].
    rewrite dents_drop in HQ by lia. cbn [dir_find] in HQ.
    replace (u32 (16 * Z.of_nat k + DIRENT)) with (16 * Z.of_nat (Datatypes.S k))
      by (change DIRENT with 16; rewrite u32_small; [lia|unfold in_u32; lia]).
    destruct (Z.eqb_spec (de_inum (dent bs k)) 0) as [E0|E0]; cbn [negb andb] in *; [by apply IH; [|lia|lia|]|].
    destruct (namecmp_dent k (upd s dp t1 i) ltac:(lia)) as (c & Hc & Heq). apply wpe_bind. unfold wpe at 1. rewrite Hc.
    destruct (Z.eqb_spec c 0) as [Ec|Ec].
    + rewrite bool_decide_eq_true_2 in HQ by (by apply Heq). rewrite Hdev. apply wpe_bind.
      eapply wpe_mono; [| |by apply HQ]; [|done]. intros ip s' HQ'. by apply wpe_ret.
    + rewrite bool_decide_eq_false_2 in HQ by (by intros ?%Heq). by apply IH; [|lia|lia|].
  - apply wpe_ret. rewrite drop_ge in HQ by (rewrite length_dents; lia). by apply HQ.
Qed.

Lemma dirlookup_spec t (Q : option (nat * Z) -> fstate S -> Prop) E :
  tview t D ∅ ∅ L lim ->
  (forall t', tview t' D ∅ ∅ L lim ->
     match dir_find (dents bs) 0 nm with
     | Some (j, inum) => wpe (iget ROOTDEV inum) (upd s dp t' i) (fun ip s' => Q (Some (ip, 16 * Z.of_nat j)) s') E
     | None => Q None (upd s dp t' i)
     end) ->
  wpe (dirlookup devsw_read dp name) (upd s dp t i) Q E.
Proof.
  intros Hv HQ. unfold dirlookup. apply wpe_bind, wpe_iat; [done|]. rewrite Hdir, Z.eqb_refl. cbn [negb].
  destruct dir_size as [Hs _]. apply (dirlookup_loop_spec _ 0 t); [done|lia| |done].
  rewrite Hs, Z.mul_comm, Z.div_mul by (by vm_compute). lia.
Qed.

Lemma dirlink_loop_spec fuel k t (Q : Z -> fstate S -> Prop) E :
  tview t D ∅ ∅ L lim -> (k <= n)%nat -> (n - k < fuel)%nat ->
  (forall t', tview t' D ∅ ∅ L lim -> Q (16 * Z.of_nat (dir_free (drop k (dents bs)) k)) (upd s dp t' i)) ->
  wpe (dirlink_loop devsw_read fuel dp (16 * Z.of_nat k)) (upd s dp t i) Q E.
Proof.
  revert k t. induction fuel as [|fuel IH]; intros k t Hv Hk Hfuel HQ; [lia|]. cbn [dirlink_loop].
  destruct dir_size as [Hs Hn]. apply wpe_bind, wpe_iat; [done|]. rewrite Hs.
  destruct (Z.ltb_spec (16 * Z.of_nat k) (16 * Z.of_nat n)) as [Hlt|Hge].
  - apply wpe_bind, read_dent; [done|lia|]. intros t1 Hv1. cbn [fst snd]. rewrite Z.eqb_refl. cbn [negb].
    rewrite dents_drop in HQ by lia. cbn [dir_free] in HQ.
    destruct (Z.eqb_spec (de_inum (dent bs k)) 0) as [E0|E0]; [by apply wpe_ret, HQ|].
    replace (16 * Z.of_nat k + DIRENT) with (16 * Z.of_nat (Datatypes.S k)) by (change DIRENT with 16; lia).
    by apply IH; [|lia|lia|].
  - apply wpe_ret. rewrite drop_ge in HQ by (rewrite length_dents; lia). cbn [dir_free] in HQ.
    by replace n with k in * by lia; apply HQ.
Qed.

End dirs.

(** ** The new entry *)

Definition new_dent (name : list Z) (inum : Z) : list Z := le_bytes 2 inum ++ strncpy_arr (Z.to_nat DIRSIZ) name.

Lemma length_strncpy_arr n t : length (strncpy_arr n t) = n.
Proof.
  revert t. induction n as [|n IH]; intros t; [done|]. destruct t as [|c t]; cbn [strncpy_arr]; [apply length_replicate|].
  destruct (c =? 0); [apply length_replicate|]. cbn. by rewrite IH.
Qed.

Lemma strncpy_arr_cut0 n t : cut0 (strncpy_arr n t) = cut0 (take n t).
Proof.
  revert t. induction n as [|n IH]; intros t; [done|]. destruct t as [|c t]; cbn [strncpy_arr take cut0]; [done|].
  destruct (Z.eqb_spec c 0) as [->|Hc]; [done|]. cbn [cut0]. rewrite (proj2 (Z.eqb_neq _ _)) by done. by rewrite IH.
Qed.

Lemma strncpy_arr_u8 n t : Forall in_u8 t -> Forall in_u8 (strncpy_arr n t).
Proof.
  assert (H0 : forall m, Forall in_u8 (replicate m 0)) by (intros m; apply Forall_replicate; unfold in_u8; lia).
  revert t. induction n as [|n IH]; intros t Ht; [constructor|]. destruct Ht as [|c t Hc Ht]; cbn [strncpy_arr]; [apply (H0 (S n))|].
  destruct (c =? 0); [apply (H0 (S n))|]. constructor; [done|by apply IH].
Qed.

Lemma new_dent_spec name inum :
  0 <= inum < 2 ^ 16 -> length (new_dent name inum) = 16%nat /\ de_inum (new_dent name inum) = inum /\
  cname (de_name (new_dent name inum)) = cname name.
Proof.
  intros Hi. split_and!.
  - unfold new_dent. by rewrite length_app, length_le_bytes, length_strncpy_arr.
  - unfold new_dent, de_inum, get16, sub. rewrite drop_0, take_app_length' by (by rewrite length_le_bytes).
    rewrite le_val_bytes. by apply Z.mod_small.
  - unfold new_dent, de_name, cname. rewrite drop_app_length' by (by rewrite length_le_bytes).
    rewrite take_ge by (rewrite length_strncpy_arr; lia). apply strncpy_arr_cut0.
Qed.

(** ** The directory as a map *)

Section links.
Context {S : Type} `{TXL : TxStoreLaws S}.
Context (devsw_read : Z -> option (nat -> Z -> M (fstate S) (Z * list Z))).
Context (devsw_write : Z -> option (nat -> list Z -> M (fstate S) Z)).
Context (me : Z).
Implicit Types (s : fstate S).

(** Entry [dp] is a directory in use, with whole entries. *)
Record dir_opened s dp (i : inode) : Prop := {
  dr_opened : opened s dp i;
  dr_dir : d_type (i_d i) = T_DIR;
  dr_whole : length (contents s i) = (16 * (length (contents s i) / 16))%nat;
  dr_ref : 0 < i_ref i
}.

(** Only the way the blocks are stored differs. *)
Definition same_disk s s' : Prop :=
  exists t', s' = FState t' (ic_lock s) (icache s) (fsb s) (fcwd s) /\
    tview t' (tx_disk (fdk s)) ∅ ∅ (tx_logged (fdk s)) (tx_limit (fdk s)).

Lemma upd_same_disk s dp i t' :
  icache s !! dp = Some i -> tview t' (tx_disk (fdk s)) ∅ ∅ (tx_logged (fdk s)) (tx_limit (fdk s)) -> same_disk s (upd s dp t' i).
Proof. intros Hi Hv. exists t'. split; [|done]. unfold upd. by rewrite list_insert_id. Qed.

Lemma dirlookup_dir s dp i name (Q : option (nat * Z) -> fstate S -> Prop) E :
  fs_ok s -> dir_opened s dp i -> readable (Z.to_nat DIRSIZ) name ->
  (forall s', same_disk s s' ->
     match dir_find (dents (contents s i)) 0 (cname name) with
     | Some (j, inum) => wpe (iget ROOTDEV inum) s' (fun ip s'' => Q (Some (ip, 16 * Z.of_nat j)) s'') E
     | None => Q None s'
     end) ->
  wpe (dirlookup devsw_read dp name) s Q E.
Proof.
  intros Hs [[H1 H2 H3 H4 H5 H6] Hdir Hw Hr] Hn HQ. rewrite (upd_here s dp i H1) at 1.
  eapply (dirlookup_spec devsw_read s dp i (tx_disk (fdk s)) (tx_logged (fdk s)) (tx_limit (fdk s)) (entry_lt _ _ _ H1));
    try done; try apply Hs. intros t' Hv. by apply HQ, upd_same_disk.
Qed.

Lemma same_disk_fs_ok s s' : fs_ok s -> same_disk s s' -> fs_ok s'.
Proof.
  intros [H1 H2 H3] (t' & -> & Hv). pose proof Hv as (_ & Ed & _). apply tview_self in Hv. rewrite Ed in Hv.
  split; cbn [fdk fsb]; rewrite ?Ed; done.
Qed.

Lemma same_disk_opened s s' dp i : opened s dp i -> same_disk s s' -> opened s' dp i.
Proof. intros [] (t' & -> & Hv). pose proof Hv as (_ & Ed & _). split; cbn [fdk fsb]; rewrite ?Ed; done. Qed.

Lemma same_disk_idle s s' : ic_idle s -> same_disk s s' -> ic_idle s'.
Proof. by intros [] (t' & -> & _). Qed.

(** Dirlookup looks the name up in the directory. On a directory with
    whole entries, for a name of any length of which the first DIRSIZ bytes
    count, it returns null exactly if no entry in use has that name. Otherwise
    it returns the cache entry of the inode that the first such entry refers
    to, with one more reference, and the offset of the directory entry. The
    disk does not change. It stops only if the inode cache is full. *)
Theorem dirlookup_refines s dp i name :
  fs_ok s -> dir_opened s dp i -> ic_idle s -> readable (Z.to_nat DIRSIZ) name ->
  (forall k, refs (icache s) k < 2 ^ 31 - 1) ->
  wpe (dirlookup devsw_read dp name) s
    (fun r s' => exists s1, same_disk s s1 /\
       match dir_lookup (contents s i) (cname name) with
       | None => r = None /\ s' = s1
       | Some inum => exists ip j, r = Some (ip, 16 * Z.of_nat j) /\ got s1 (ROOTDEV, inum) ip s' /\ ic_idle s' /\
           adds (icache s) (ROOTDEV, inum) 1 (icache s') /\
           de_inum (dent (contents s i) j) = inum /\ cname (de_name (dent (contents s i) j)) = cname name
       end)
    (fun w s' => w = Panicked "iget: no inodes" /\ forall p i, icache s !! p = Some i -> 0 < i_ref i).
Proof.
  intros Hs Hd Hic Hn Hb. apply (dirlookup_dir s dp i); try done. intros s1 H1. unfold dir_lookup.
  destruct (dir_find _ _ _) as [[j inum]|] eqn:Hf; [|by exists s1].
  destruct (dir_find_lookup _ _ _ _ _ Hf) as (de & _ & Hj & Hi & H0 & Hc). rewrite Nat.sub_0_r in Hj.
  pose proof (lookup_lt_Some _ _ _ Hj) as Hlt. rewrite length_dents in Hlt. rewrite dents_lookup in Hj by done. simplify_eq.
  pose proof (same_disk_idle _ _ Hic H1) as Hic1. assert (Hsame : icache s1 = icache s) by (by destruct H1 as (? & -> & _)).
  apply iget_spec; [done|by rewrite Hsame| |by rewrite Hsame].
  intros ip s2 Hg H2 Ha. exists s1. split; [done|]. exists ip, j. rewrite Hsame in Ha. by split_and!.
Qed.

(** The log has room for the blocks that adding an entry can write. *)
Definition dir_room s : Prop :=
  (size (tx_logged (fdk s)) + size (bitmaps (fsb s)) + 5 < tx_limit (fdk s))%nat.

(** The directory is as large as a file can be, and all its entries are in
    use. *)
Definition dir_maximal s (i : inode) : Prop :=
  MAXFILE * BSIZE < 16 * Z.of_nat (dir_free (dents (contents s i)) 0) + 16.

(** writei writes nothing past the largest file. *)
Lemma writei_beyond s ip i off src (Q : Z -> fstate S -> Prop) E :
  icache s !! ip = Some i -> d_type (i_d i) = T_DIR -> in_u32 (off + Z.of_nat (length src)) ->
  MAXFILE * BSIZE < off + Z.of_nat (length src) -> Q (-1) s -> wpe (writei devsw_write ip src off) s Q E.
Proof.
  intros Hi Hty H32 Hmax HQ. unfold writei. apply wpe_bind. eapply wpe_iat_at; [exact Hi|]. rewrite Hty. cbn [Z.eqb T_DIR T_DEV Pos.eqb].
  rewrite u32_small by done. destruct (_ || _); [by apply wpe_ret|]. rewrite (proj2 (Z.ltb_lt _ _)) by done. by apply wpe_ret.
Qed.

Lemma nparts_16 k : (nparts (16 * Z.of_nat k) 16 <= 1)%nat.
Proof. unfold nparts. cbn. change BSIZE with 512. Z.to_euclidean_division_equations. lia. Qed.

Lemma same_disk_trans s s1 s2 : same_disk s s1 -> same_disk s1 s2 -> same_disk s s2.
Proof.
  intros (t1 & -> & H1) (t2 & -> & H2). cbn [fdk ic_lock icache fsb fcwd] in *. exists t2. split; [done|].
  destruct H1 as (_ & <- & _ & _ & HL & <-). by eapply tview_weaken.
Qed.

Lemma same_disk_disk s s' : same_disk s s' -> tx_disk (fdk s') = tx_disk (fdk s) /\ icache s' = icache s.
Proof. intros (t' & -> & _ & Hd & _). by split. Qed.

Lemma same_disk_contents s s' i : same_disk s s' -> contents s' i = contents s i.
Proof. intros (t' & -> & Hv). unfold contents. cbn. by destruct Hv as (_ & -> & _). Qed.

Lemma same_disk_dir s s' dp i : dir_opened s dp i -> same_disk s s' -> dir_opened s' dp i.
Proof.
  intros [H1 H2 H3 H4] Hs. split; [by eapply same_disk_opened|done| |done]. by rewrite !(same_disk_contents s s').
Qed.

Lemma same_disk_log s s' : same_disk s s' ->
  (size (tx_logged (fdk s')) <= size (tx_logged (fdk s)))%nat /\ tx_limit (fdk s') = tx_limit (fdk s) /\ fsb s' = fsb s.
Proof. intros (t' & -> & Hv). destruct Hv as (_ & _ & _ & _ & HL & Hlim). split; [by apply subseteq_size|done]. Qed.

Lemma dirlink_scan s dp i (Q : Z -> fstate S -> Prop) E :
  fs_ok s -> dir_opened s dp i ->
  (forall s', same_disk s s' -> Q (16 * Z.of_nat (dir_free (dents (contents s i)) 0)) s') ->
  wpe (dirlink_loop devsw_read (Datatypes.S (Z.to_nat (d_size (i_d i) / DIRENT) + 1)) dp 0) s Q E.
Proof.
  intros Hs [[H1 H2 H3 H4 H5 H6] Hdir Hw Hr] HQ. rewrite (upd_here s dp i H1) at 1.
  destruct (dir_size s i (tx_disk (fdk s)) H4 Hw) as [Hsz _].
  eapply (dirlink_loop_spec devsw_read s dp i (tx_disk (fdk s)) (tx_logged (fdk s)) (tx_limit (fdk s)) (entry_lt _ _ _ H1) (fo_sb _ Hs)
    H2 H4 Hdir Hw _ 0); [apply Hs|lia| |].
  - rewrite Hsz, Z.mul_comm, Z.div_mul by (by vm_compute). lia.
  - intros t' Hv. rewrite drop_0. by apply HQ, upd_same_disk.
Qed.

Lemma dirlink_absent s dp i name inum (Q : Z -> fstate S -> Prop) E :
  fs_ok s -> dir_opened s dp i -> readable (Z.to_nat DIRSIZ) name -> Forall in_u8 name -> 0 < inum < 2 ^ 16 ->
  dir_room s -> dir_lookup (contents s i) (cname name) = None ->
  (forall s1 s' i', same_disk s s1 ->
     wrote s1 dp i (16 * Z.of_nat (dir_free (dents (contents s i)) 0)) (new_dent name inum) s' i' -> Q 0 s') ->
  (forall s1 w s', same_disk s s1 -> disk_full s1 w s' -> E w s') ->
  (dir_maximal s i -> forall s', E (Panicked "dirlink") s') ->
  wpe (dirlink me devsw_read devsw_write dp name inum) s Q E.
Proof.
  unfold dir_room, dir_maximal. intros Hs Hd Hn H8 Hinum Hlim Hno HQ HE HM. unfold dirlink. apply wpe_bind. apply (dirlookup_dir s dp i); try done.
  intros s1 H1. unfold dir_lookup in Hno. destruct (dir_find _ _ _); [done|].
  pose proof (same_disk_dir _ _ _ _ Hd H1) as Hd1. pose proof (same_disk_fs_ok _ _ Hs H1) as Hs1.
  apply wpe_bind. eapply wpe_iat_at; [apply (op_entry _ _ _ (dr_opened _ _ _ Hd1))|]. apply wpe_bind.
  apply dirlink_scan; [done|done|]. intros s2 H12. rewrite (same_disk_contents s s1) by done.
  pose proof (same_disk_trans _ _ _ H1 H12) as H2. pose proof (same_disk_dir _ _ _ _ Hd H2) as [Hop2 _ _ _].
  pose proof (same_disk_fs_ok _ _ Hs H2) as Hs2. destruct (same_disk_log _ _ H2) as (Hlog & Hlim2 & Hsb).
  set (off := 16 * Z.of_nat (dir_free (dents (contents s i)) 0)) in *. destruct (new_dent_spec name inum) as (Hlen & Hde & Hnm); [lia|].
  pose proof (wf_size _ _ _ (op_wf _ _ _ Hop2)) as Hsz. change (MAXFILE * BSIZE) with 71680 in *.
  assert (Hpos : off <= d_size (i_d i)).
  { destruct Hd as [[_ _ _ Hwf _ _] _ Hw _]. destruct (dir_size s i _ Hwf Hw) as [-> _].
    destruct (dir_put_alt (dents (contents s i)) [] 0) as [_ Hr]. rewrite length_dents in Hr. unfold off, contents in *. lia. }
  rewrite u32_small by (unfold in_u32; lia). apply wpe_bind. change (le_bytes 2 inum ++ _) with (new_dent name inum).
  destruct (Z.lt_ge_cases 71680 (off + 16)) as [Hmax|Hmax].
  { eapply writei_beyond; [apply (op_entry _ _ _ Hop2)|apply (dr_dir _ _ _ Hd)|rewrite Hlen; unfold in_u32; lia|rewrite Hlen; exact Hmax|]. cbn. by apply HM. }
  eapply wpe_mono; [| |apply (writei_opened devsw_write s2 dp i off (new_dent name inum)); try done]; try (rewrite Hlen; cbn).
  - intros r s' HQ'. exact HQ'.
  - intros w s'. by apply HE.
  - apply Forall_app. split; [apply le_bytes_range|by apply strncpy_arr_u8].
  - unfold in_u32. lia.
  - lia.
  - pose proof (nparts_16 (dir_free (dents (contents s i)) 0)) as Hnp. fold off in Hnp. rewrite Hlim2, Hsb. change (Z.of_nat 16) with 16. lia.
  - change (MAXFILE * BSIZE) with 71680. lia.
  - intros s' i' _ _ Hw. apply wpe_ret. by eapply HQ.
Qed.

(** iput after iget has found the inode: the reference is dropped again. *)
Lemma put_got s s1 k ip (Q : unit -> fstate S -> Prop) E :
  ic_idle s -> ic_idle s1 -> got s k ip s1 -> adds (icache s) k 1 (icache s1) -> (forall k, refs (icache s) k < 2 ^ 31 - 1) ->
  (forall i, icache s !! ip = Some i -> lk_free (i_lock i)) ->
  (forall s', fdk s' = fdk s -> ic_idle s' -> (forall k, refs (icache s') k = refs (icache s) k) -> Q tt s') ->
  wpe (iput me ip) s1 Q E.
Proof.
  intros [Hok Hl] [Hok1 Hl1] (i & i' & Hi & -> & Hk & Hlk & Hd & Hr & Hcase) Ha Hb Hfree HQ.
  pose proof (entry_lt _ _ _ Hi) as Hip. pose proof (io_ref _ Hok _ _ Hi) as H0. specialize (Hfree i Hi).
  assert (Hi' : icache (set_icache (<[ip := i']> (icache s)) s) !! ip = Some i') by (by apply list_lookup_insert_eq).
  assert (Hr' : 0 < i_ref i' < 2 ^ 31).
  { pose proof (refs_entry _ _ _ Hok1 Hi') as Hre. rewrite Hk in Hre. specialize (Ha k). rewrite decide_True in Ha by done.
    specialize (Hb k). lia. }
  assert (Hlast : last_use i' = false).
  { unfold last_use. case_decide; destruct Hcase as [? Hv]; [|by rewrite Hv].
    rewrite (proj2 (Z.eqb_neq (i_ref i') 1)) by lia. apply andb_false_r. }
  eapply (iput_keeps me _ ip i'); try done; [by rewrite Hlk|]. apply HQ; [done| |].
  - split; [|done]. eapply ic_ok_same; try done; cbn; lia.
  - intros k'. cbn [icache upd]. rewrite (refs_insert _ ip i') by done. specialize (Ha k'). unfold counted.
    change (ikey (dropped me i')) with (ikey i'). rewrite Hk. cbn [i_ref dropped set_i_ref]. repeat case_decide; lia || congruence.
Qed.

(** C26: dirlink adds the name to the directory, as a map. If the directory
    has the name already it returns -1 and changes neither the disk nor any
    reference count. Otherwise it returns 0: the name now leads to the new
    inode, every other name leads where it did, the directory is well formed,
    and other inodes and files are as before. It panics only because the disk
    or the inode cache is full, or because the directory has the size of the
    largest file and no free entry. It is assumed that the log has room for
    the blocks that the call can write; that the other inodes are unlocked and
    their reference counts do not overflow; and that the name, if it is there,
    is not one of the directory itself. *)
Theorem dirlink_refines s dp i name inum :
  fs_ok s -> dir_opened s dp i -> ic_idle s -> readable (Z.to_nat DIRSIZ) name -> Forall in_u8 name -> 0 < inum < 2 ^ 16 ->
  dir_room s -> (forall k, refs (icache s) k < 2 ^ 31 - 1) ->
  (forall p j, icache s !! p = Some j -> p <> dp -> lk_free (i_lock j)) ->
  dir_lookup (contents s i) (cname name) <> Some (i_inum i) ->
  wpe (dirlink me devsw_read devsw_write dp name inum) s
    (fun r s' => match dir_lookup (contents s i) (cname name) with
       | Some _ => r = -1 /\ tx_disk (fdk s') = tx_disk (fdk s) /\ ic_idle s' /\ forall k, refs (icache s') k = refs (icache s) k
       | None => r = 0 /\ exists s1 i', same_disk s s1 /\ fs_ok s' /\ dir_opened s' dp i' /\ others_keep s1 s' i /\
           icache s' = <[dp := i']> (icache s) /\
           forall nm, dir_lookup (contents s' i') nm = if decide (nm = cname name) then Some inum else dir_lookup (contents s i) nm
       end)
    (fun w s' => w = Panicked "balloc: out of blocks" \/ w = Panicked "iget: no inodes" \/
       w = Panicked "dirlink" /\ dir_maximal s i).
Proof.
  intros Hs Hd Hic Hn H8 Hinum Hroom Hb Hlocks Hself. destruct (dir_lookup (contents s i) (cname name)) as [inum0|] eqn:Hf.
  - unfold dirlink. apply wpe_bind. apply (dirlookup_dir s dp i); try done. intros s1 H1. unfold dir_lookup in Hf.
    destruct (dir_find _ _ _) as [[j inum1]|]; [|done]. cbn in Hf. simplify_eq.
    pose proof (same_disk_idle _ _ Hic H1) as Hic1. assert (Hsame : icache s1 = icache s) by (by destruct H1 as (? & -> & _)).
    apply iget_spec; [done|by rewrite Hsame| |by right; left]. intros ip s2 Hg H2 Ha. apply wpe_bind.
    eapply (put_got s1 s2 (ROOTDEV, inum0) ip); try done; [by rewrite Hsame| |].
    + intros x Hx. rewrite Hsame in Hx. apply (Hlocks ip x Hx). intros ->.
      destruct Hd as [Hop _ _ Hr]. rewrite (op_entry _ _ _ Hop) in Hx. simplify_eq.
      destruct Hg as (y & y' & Hy & _ & _ & _ & _ & _ & Hcase). rewrite Hsame, (op_entry _ _ _ Hop) in Hy. simplify_eq.
      case_decide; destruct Hcase as [Hk _]; [|lia]. destruct Hself. unfold ikey in Hk. congruence.
    + intros s3 E3 H3 Hr3. apply wpe_ret. rewrite E3. split_and!; try done; [by apply same_disk_disk|].
      intros k. by rewrite Hr3, Hsame.
  - apply (dirlink_absent s dp i); try done; [|intros s1 w s' _ [-> _]; by left|auto].
    intros s1 s' i' H1 [W1 W2 (W3 & W4 & W5 & W6 & W7 & W8) W9 W10 W11 W12 W13 W14 W15]. split; [done|].
    exists s1, i'. destruct Hd as [Hop Hdir Hw Hr]. rewrite (same_disk_contents s s1) in W9 by done.
    destruct (new_dent_spec name inum) as (Hlen & Hde & Hnm); [lia|].
    replace (Z.to_nat (16 * Z.of_nat (dir_free (dents (contents s i)) 0))) with (16 * dir_free (dents (contents s i)) 0)%nat in W9 by lia.
    split_and!; try done.
    + split; [done|congruence| |congruence]. rewrite W9. destruct (dir_put_alt (dents (contents s i)) [] 0) as [_ Hrange].
      rewrite length_dents in Hrange. by apply dents_splice; [|done|lia].
    + rewrite W12. by rewrite (proj2 (same_disk_disk _ _ H1)).
    + intros nm. rewrite W9, (dir_lookup_put _ (new_dent name inum)), Hnm, Hde; try done; [by rewrite Hde; lia|by rewrite Hnm].
Qed.

(** Linking a name that the directory has for itself never returns. If
    the name leads back to the directory, as the name . does in every one and
    .. in the root, then dirlink, called with the directory locked, takes a
    reference to it and goes to sleep on the lock that its own process
    holds. *)
Theorem dirlink_self_deadlock s dp i name inum :
  fs_ok s -> dir_opened s dp i -> ic_idle s -> readable (Z.to_nat DIRSIZ) name ->
  refs (icache s) (ikey i) < 2 ^ 31 - 1 -> sl_lk (i_lock i) = false -> sl_held me (i_lock i) ->
  dir_lookup (contents s i) (cname name) = Some (i_inum i) ->
  wpe (dirlink me devsw_read devsw_write dp name inum) s (fun _ _ => False) (fun w _ => w = Sleeping (ch_lock dp)).
Proof.
  intros Hs [Hop Hdir Hw Hr] Hic Hn Hb Hlk [Hheld _] Hf. pose proof (op_entry _ _ _ Hop) as Hi.
  assert (Hk : ikey i = (ROOTDEV, i_inum i)) by (unfold ikey; by rewrite (op_dev _ _ _ Hop)).
  unfold dirlink. apply wpe_bind. apply (dirlookup_dir s dp i); try done. intros s1 H1. unfold dir_lookup in Hf.
  destruct (dir_find _ _ _) as [[j inum1]|]; [|done]. cbn in Hf. simplify_eq. rewrite Hk in Hb.
  pose proof (same_disk_idle _ _ Hic H1) as Hic1. pose proof (proj2 (same_disk_disk _ _ H1)) as Hsame.
  assert (Hpos : 0 < refs (icache s1) (ROOTDEV, i_inum i)).
  { rewrite Hsame, <- Hk, (refs_entry _ dp i); [done|by destruct Hic|done|done]. }
  apply iget_spec; [done|by rewrite Hsame| |intros; lia]. intros ip s2 (x & x' & Hx & -> & Hkx & Hlx & _ & _ & Hcase) _ _.
  rewrite decide_True in Hcase by done. destruct Hcase as (Hkx' & Hrx & _). rewrite Hsame in Hx.
  assert (ip = dp) as -> by (eapply (io_uniq _ (proj1 Hic)); try done; congruence). simplify_eq.
  apply wpe_bind. unfold iput. apply wpe_bind. eapply wpe_on_ilock; [apply list_lookup_insert_eq; rewrite Hsame; by eapply entry_lt|].
  unfold wpe. rewrite Hlx, acquiresleep_taken by (done || lia). done.
Qed.

End links.
