(* ===== verification/Path.v ===== *)
(** Path names: skipelem and namex of [fs.c] against the elements of a path
    and the tree of directories. *)

From S2P Require Import Prelude Mem Block Sleeplock Log Tx Fs Bitmap Inode Dinode Iblock File Fileops Trunc Icache Dir.

Open Scope Z_scope.

(** ** The elements of a path *)

(** The parts between slashes that are not empty; [e] is the part that has
    begun. *)
Fixpoint elems_from (e : list Z) (p : list Z) : list (list Z) :=
  match p with
  | [] => if decide (e = []) then [] else [e]
  | c :: p =>
      if c =? 47 then (if decide (e = []) then elems_from [] p else e :: elems_from [] p)
      else elems_from (e ++ [c]) p
  end.
Definition elems (p : list Z) : list (list Z) := elems_from [] p.

(** The array that follows leading slashes. *)
Lemma skip_slashes_spec {S} path (s : fstate S) : 0 ∈ path ->
  exists path', skip_slashes path s = Ret path' s /\ 0 ∈ path' /\ elems (cut0 path') = elems (cut0 path) /\
    (length path' <= length path)%nat /\ default 0 (path' !! 0%nat) <> 47 /\ (default 0 (path !! 0%nat) <> 47 -> path' = path).
Proof.
  induction path as [|c path IH]; intros H0; [by apply not_elem_of_nil in H0|]. cbn [skip_slashes].
  destruct (Z.eqb_spec c 47) as [->|Hc].
  - destruct IH as (path' & Hp & H1 & H2 & H3 & H4 & _); [by apply elem_of_cons in H0 as [?|?]|].
    exists path'. split_and!; try done. cbn; lia.
  - exists (c :: path). split_and!; done.
Qed.

Lemma skip_name_spec {S} path e (s : fstate S) : 0 ∈ path ->
  exists w path', skip_name path e s = Ret (e ++ w, path') s /\ path = w ++ path' /\ 0 ∈ path' /\
    Forall (fun c => c <> 0 /\ c <> 47) w /\ (default 0 (path' !! 0%nat) = 0 \/ default 0 (path' !! 0%nat) = 47).
Proof.
  revert e. induction path as [|c path IH]; intros e H0; [by apply not_elem_of_nil in H0|]. cbn [skip_name].
  destruct (Z.eqb_spec c 47) as [->|Hc]; cbn [negb andb].
  { exists [], (47 :: path). rewrite app_nil_r. split_and!; try done. by right. }
  destruct (Z.eqb_spec c 0) as [->|Hz]; cbn [negb].
  { exists [], (0 :: path). rewrite app_nil_r. split_and!; try done. by left. }
  destruct (IH (e ++ [c])) as (w & path' & H1 & -> & H2 & H3 & H4); [by apply elem_of_cons in H0 as [?|?]; [congruence|]|].
  exists (c :: w), path'. rewrite <- app_assoc in H1. split_and!; try done. by constructor.
Qed.

Lemma elems_word e w rest :
  Forall (fun c => c <> 0 /\ c <> 47) w -> elems_from e (cut0 (w ++ rest)) = elems_from (e ++ w) (cut0 rest).
Proof.
  intros Hw. revert e. induction Hw as [|c w [H0 H1] _ IH]; intros e; [by rewrite app_nil_r|]. cbn [app cut0].
  rewrite (proj2 (Z.eqb_neq _ _) H0). cbn [elems_from]. rewrite (proj2 (Z.eqb_neq _ _) H1), IH, <- app_assoc. done.
Qed.

Lemma elems_end e rest : e <> [] -> default 0 (rest !! 0%nat) = 0 \/ default 0 (rest !! 0%nat) = 47 ->
  elems_from e (cut0 rest) = e :: elems (cut0 rest).
Proof.
  intros He Hr. destruct rest as [|c rest]; cbn in *; [by rewrite decide_False|].
  destruct (Z.eqb_spec c 0) as [->|Hc]; [cbn; by rewrite decide_False|]. destruct Hr as [?|Hr]; [done|]. subst c.
  cbn [elems_from elems]. unfold elems. cbn. by rewrite decide_False.
Qed.

(** What skipelem leaves in [name]. *)
Definition elem_name (e name : list Z) : list Z :=
  if DIRSIZ <=? Z.of_nat (length e) then splice name 0 (take (Z.to_nat DIRSIZ) e) else <[length e := 0]> (splice name 0 e).

Lemma elem_name_spec e name :
  length name = Z.to_nat DIRSIZ -> Forall (fun c => c <> 0) e ->
  length (elem_name e name) = Z.to_nat DIRSIZ /\ cname (elem_name e name) = take (Z.to_nat DIRSIZ) e.
Proof.
  assert (Hcut : forall l r, Forall (fun c => c <> 0) l -> cut0 (l ++ r) = l ++ cut0 r).
  { intros l r Hl. induction Hl as [|c l Hc _ IH]; [done|]. cbn. by rewrite (proj2 (Z.eqb_neq _ _) Hc), IH. }
  intros Hl He. unfold elem_name, cname, splice. rewrite take_0. cbn [app]. change (Z.to_nat DIRSIZ) with 14%nat in *.
  change DIRSIZ with 14. destruct (Z.leb_spec 14 (Z.of_nat (length e))).
  - rewrite Nat.add_0_l, drop_ge by (rewrite length_take; lia). rewrite app_nil_r. split; [rewrite length_take; lia|].
    rewrite take_take, Nat.min_id. rewrite <- (app_nil_r (take 14 e)) at 1. rewrite Hcut by (by apply Forall_take). by rewrite app_nil_r.
  - rewrite Nat.add_0_l. split; [rewrite length_insert, length_app, length_drop; lia|]. rewrite insert_app_r_alt by lia.
    rewrite Nat.sub_diag. destruct (drop (length e) name) as [|c r] eqn:Hd.
    { apply (f_equal length) in Hd. rewrite length_drop in Hd. cbn in Hd. lia. }
    cbn [insert list_insert]. rewrite take_ge by (apply (f_equal length) in Hd; rewrite length_drop in Hd; cbn in Hd;
      rewrite length_app; cbn; lia). rewrite Hcut by done. cbn. rewrite app_nil_r, take_ge by lia. done.
Qed.

(** The first character of a path without leading slashes. *)
Lemma elems_none path : default 0 (path !! 0%nat) <> 47 -> (default 0 (path !! 0%nat) = 0 <-> elems (cut0 path) = []).
Proof.
  destruct path as [|c path]; cbn; [done|]. intros H47. destruct (Z.eqb_spec c 0) as [->|Hc]; [done|]. split; [done|].
  unfold elems. cbn [elems_from]. rewrite (proj2 (Z.eqb_neq _ _) H47). cbn [app].
  enough (H : forall e p, e <> [] -> elems_from e p <> []) by (intros E; by destruct (H [c] (cut0 path))).
  clear. intros e p. revert e. induction p as [|c p IH]; intros e He; cbn; [by rewrite decide_False|].
  destruct (c =? 47); [by rewrite decide_False|]. apply IH. by destruct e.
Qed.

(** skipelem takes the first element off a path: [name] holds it, cut to
    DIRSIZ bytes, and the rest of the path has the remaining elements and does
    not begin with a slash. *)
Lemma skipelem_spec {S} path name (s : fstate S) :
  0 ∈ path -> length name = Z.to_nat DIRSIZ ->
  match elems (cut0 path) with
  | [] => skipelem path name s = Ret None s
  | e :: es => exists path' name', skipelem path name s = Ret (Some (path', name')) s /\ 0 ∈ path' /\
      elems (cut0 path') = es /\ length name' = Z.to_nat DIRSIZ /\ cname name' = take (Z.to_nat DIRSIZ) e /\
      (length path' < length path)%nat /\ default 0 (path' !! 0%nat) <> 47
  end.
Proof.
  intros H0 Hn. destruct (skip_slashes_spec path s H0) as (p1 & E1 & P1 & P2 & P3 & P4 & _).
  unfold skipelem, mbind, M_bind. rewrite E1, <- P2. pose proof (elems_none p1 P4) as Hnone.
  destruct (Z.eqb_spec (default 0 (p1 !! 0%nat)) 0) as [Hz|Hz]; [by rewrite (proj1 Hnone Hz)|].
  destruct (skip_name_spec p1 [] s P1) as (w & p2 & E2 & -> & Q1 & Q2 & Q3). cbn [app] in E2. rewrite E2. cbn [fst snd].
  assert (Hw : w <> []) by (intros ->; cbn in *; tauto).
  destruct (skip_slashes_spec p2 s Q1) as (p3 & E3 & R1 & R2 & R3 & R4 & _). fold (elem_name w name). rewrite E3.
  unfold elems at 1. rewrite elems_word, elems_end by done. cbn [app]. exists p3, (elem_name w name).
  destruct (elem_name_spec w name Hn) as [L1 L2]; [by eapply Forall_impl; [exact Q2|intros c [? _]]|].
  split_and!; try done. rewrite length_app in P3. destruct w; [done|]. cbn in P3. lia.
Qed.

(** ** The tree of directories *)

(** Where the elements lead from inode [inum]; with [parent], one level
    early. *)
Fixpoint walk (sb : superblock) (D : list block) (parent : bool) (inum : Z) (es : list (list Z)) : option Z :=
  match es with
  | [] => if parent then None else Some inum
  | e :: es =>
      let di := inode_of sb D inum in
      if d_type di =? T_DIR then
        if parent && bool_decide (es = []) then Some inum
        else match dir_lookup (fdata D di) (take (Z.to_nat DIRSIZ) e) with
             | Some j => walk sb D parent j es
             | None => None
             end
      else None
  end.

Section tree.
Context {S : Type} `{TXL : TxStoreLaws S}.
Context (devsw_read : Z -> option (nat -> Z -> M (fstate S) (Z * list Z))).
Context (me : Z).
Implicit Types (s : fstate S).

Local Notation disk s := (tx_disk (fdk s)).

(** Inode [inum] is in use: it is linked and well formed, and a directory
    has whole entries that lead to inodes in use. *)
Definition in_use (sb : superblock) (D : list block) (inum : Z) : Prop :=
  0 <= inum < sb_ninodes sb /\ d_type (inode_of sb D inum) <> 0.

Definition inode_good (sb : superblock) (D : list block) (inum : Z) : Prop :=
  let di := inode_of sb D inum in
  wf_file sb D di /\ dinode_ok di /\ d_nlink di <> 0 /\
  (d_type di = T_DIR -> length (fdata D di) = (16 * (length (fdata D di) / 16))%nat /\
     forall nm j, dir_lookup (fdata D di) nm = Some j -> in_use sb D j).

(** An entry of the cache that is in use agrees with the disk. *)
Definition entry_good (sb : superblock) (D : list block) (i : inode) : Prop :=
  0 < i_ref i -> i_dev i = ROOTDEV /\ in_use sb D (i_inum i) /\ (i_valid i <> 0 -> i_d i = inode_of sb D (i_inum i)).

(** The file system between operations, or with entry [x] locked. *)
Record tree s (x : option nat) : Prop := {
  te_fs : fs_ok s;
  te_idle : ic_idle s;
  te_inodes inum : in_use (fsb s) (disk s) inum -> inode_good (fsb s) (disk s) inum;
  te_entries p i : icache s !! p = Some i -> entry_good (fsb s) (disk s) i;
  te_locks p i : icache s !! p = Some i -> Some p <> x -> lk_free (i_lock i)
}.

Lemma tree_same_disk s s' x : tree s x -> same_disk s s' -> tree s' x.
Proof.
  intros [H1 H2 H3 H4 H5] Hs. pose proof (same_disk_fs_ok _ _ H1 Hs). pose proof (same_disk_idle _ _ H2 Hs).
  destruct (same_disk_disk _ _ Hs) as [Ed Ec]. destruct (same_disk_log _ _ Hs) as (_ & _ & Eb).
  split; rewrite ?Ed, ?Ec, ?Eb; done.
Qed.

(** One entry has changed, and perhaps the way the blocks are stored. *)
Lemma tree_entry s s' x x' ip i i' :
  tree s x -> same_disk (set_icache (<[ip := i']> (icache s)) s) s' -> icache s !! ip = Some i ->
  ic_ok (<[ip := i']> (icache s)) -> entry_good (fsb s) (disk s) i' ->
  (Some ip <> x' -> lk_free (i_lock i')) -> (forall p, p <> ip -> Some p <> x' -> Some p <> x) -> tree s' x'.
Proof.
  intros [H1 H2 H3 H4 H5] Hs Hi Hok He Hlk Hx. eapply tree_same_disk; [|exact Hs]. split; cbn [fdk fsb icache set_icache].
  - by apply (fs_ok_same s).
  - by split; [|apply H2].
  - done.
  - intros p j Hj. apply list_lookup_insert_Some in Hj as [(<- & <- & _)|[_ Hj]]; [done|by eapply H4].
  - intros p j Hj Hp. apply list_lookup_insert_Some in Hj as [(<- & <- & _)|[Hne Hj]]; [by apply Hlk|].
    eapply H5; [done|]. by apply Hx.
Qed.

Lemma upd_entry s ip i' t' :
  tview t' (disk s) ∅ ∅ (tx_logged (fdk s)) (tx_limit (fdk s)) ->
  same_disk (set_icache (<[ip := i']> (icache s)) s) (upd s ip t' i').
Proof. intros Hv. exists t'. by split. Qed.

(** ilock in the tree: the entry is locked and agrees with the disk. *)
Lemma tree_ilock s ip i (Q : unit -> fstate S -> Prop) E :
  tree s None -> icache s !! ip = Some i -> 0 < i_ref i ->
  (forall s' i', tree s' (Some ip) -> same_disk (set_icache (<[ip := i']> (icache s)) s) s' ->
     ikey i' = ikey i -> i_ref i' = i_ref i -> sl_lk (i_lock i') = false -> sl_held me (i_lock i') -> i_valid i' <> 0 ->
     i_d i' = inode_of (fsb s) (disk s) (i_inum i) -> Q tt s') ->
  wpe (ilock me (Some ip)) s Q E.
Proof.
  intros Ht Hi Hr HQ. pose proof Ht as [H1 [Hok Hl] H3 H4 H5]. destruct (H4 ip i Hi Hr) as (Hdev & [Hin Hty] & Hval).
  pose proof (entry_lt _ _ _ Hi) as Hip. rewrite (upd_here s ip i Hi) at 1.
  eapply (ilock_spec me s ip (fdk s) (disk s) (tx_logged (fdk s)) (tx_limit (fdk s))); try done; [by apply (H5 ip)|apply H1|apply H1|].
  intros t' Hv. cbv zeta. set (i' := if i_valid i =? 0 then _ else _).
  assert (Hk : ikey i' = ikey i /\ i_ref i' = i_ref i /\ i_lock i' = lk_taken me (i_lock i) /\ i_valid i' <> 0 /\
    i_d i' = inode_of (fsb s) (disk s) (i_inum i)).
  { unfold i'. destruct (Z.eqb_spec (i_valid i) 0); [done|]. split_and!; try done. by apply Hval. }
  destruct Hk as (Hk & Hri & Hli & Hvi & Hdi). assert (Hs : same_disk (set_icache (<[ip := i']> (icache s)) s) (upd s ip t' i')) by (by apply upd_entry).
  apply (HQ _ i'); try done; rewrite ?Hli; try done. eapply (tree_entry s _ None _ ip i i'); try done.
  - eapply ic_ok_same; try done. lia.
  - intros _. unfold ikey in Hk. injection Hk as -> ->. split_and!; try done.
Qed.

(** Entry [ip] is [i'] now, for the same inode; the rest is as before. *)
Definition entry_now s ip (i : inode) s' (i' : inode) : Prop :=
  disk s' = disk s /\ fsb s' = fsb s /\ fcwd s' = fcwd s /\ icache s' = <[ip := i']> (icache s) /\ ikey i' = ikey i.

(** Dropping a reference to an entry that is in use keeps the inode. *)
Lemma tree_put s ip i (Q : unit -> fstate S -> Prop) E :
  tree s None -> icache s !! ip = Some i -> 0 < i_ref i < 2 ^ 31 ->
  (forall s' i', tree s' None -> entry_now s ip i s' i' -> i_ref i' = i_ref i - 1 -> Q tt s') ->
  wpe (iput me ip) s Q E.
Proof.
  intros Ht Hi Hr HQ. pose proof Ht as [H1 [Hok Hl] H3 H4 H5]. destruct (H4 ip i Hi) as (Hdev & Hin & Hval); [lia|].
  assert (Hlk : lk_free (i_lock i)) by (by eapply H5).
  assert (Hlast : last_use i = false).
  { unfold last_use. destruct (Z.eqb_spec (i_valid i) 0) as [|Hv]; [done|]. rewrite (Hval Hv).
    destruct (H3 _ Hin) as (_ & _ & Hnl & _). by rewrite (proj2 (Z.eqb_neq _ _) Hnl). }
  apply (iput_keeps me s ip i); try done. apply (HQ _ (dropped me i)); try done.
  eapply (tree_entry s _ None _ ip i (dropped me i)); try done.
  - apply upd_entry, H1.
  - eapply ic_ok_same; try done; cbn; lia.
Qed.

Lemma tree_unlock s ip i (Q : unit -> fstate S -> Prop) E :
  tree s (Some ip) -> icache s !! ip = Some i -> 0 < i_ref i -> sl_lk (i_lock i) = false -> sl_held me (i_lock i) ->
  (forall s' i', tree s' None -> entry_now s ip i s' i' -> i_ref i' = i_ref i -> Q tt s') ->
  wpe (iunlock me (Some ip)) s Q E.
Proof.
  intros Ht Hi Hr Hlk Hh HQ. pose proof Ht as [H1 [Hok Hl] H3 H4 H5]. rewrite (upd_here s ip i Hi) at 1.
  apply iunlock_spec; [by eapply entry_lt|done|done|done|]. set (i' := set_i_lock _ i). apply (HQ _ i'); try done.
  eapply (tree_entry s _ (Some ip) _ ip i i'); try done.
  - apply upd_entry, H1.
  - eapply ic_ok_same; try done. cbn. lia.
  - exact (H4 ip i Hi).
  - intros p Hp _. congruence.
Qed.

Lemma tree_unlockput s ip i (Q : unit -> fstate S -> Prop) E :
  tree s (Some ip) -> icache s !! ip = Some i -> 0 < i_ref i < 2 ^ 31 -> sl_lk (i_lock i) = false -> sl_held me (i_lock i) ->
  (forall s' i', tree s' None -> entry_now s ip i s' i' -> i_ref i' = i_ref i - 1 -> Q tt s') ->
  wpe (iunlockput me ip) s Q E.
Proof.
  intros Ht Hi Hr Hlk Hh HQ. unfold iunlockput. apply wpe_bind. apply (tree_unlock s ip i); try done; [lia|].
  intros s1 i1 T1 (D1 & B1 & W1 & C1 & K1) R1. apply (tree_put s1 ip i1); try done.
  - rewrite C1. apply list_lookup_insert_eq. by eapply entry_lt.
  - lia.
  - intros s2 i2 T2 (D2 & B2 & W2 & C2 & K2) R2. apply (HQ s2 i2); [done| |lia]. unfold entry_now.
    split_and!; try congruence. by rewrite C2, C1, list_insert_insert_eq.
Qed.

(** The references are [R] and one to inode [inum]. *)
Definition one (k : Z * Z) (inum : Z) : Z := if decide (k = (ROOTDEV, inum)) then 1 else 0.
Definition holds_one s (R : Z * Z -> Z) (inum : Z) : Prop := forall k, refs (icache s) k = R k + one k inum.

Lemma refs_now s ip i s' i' inum d k :
  entry_now s ip i s' i' -> icache s !! ip = Some i -> ikey i = (ROOTDEV, inum) -> i_ref i' = i_ref i + d ->
  refs (icache s') k = refs (icache s) k + d * one k inum.
Proof.
  intros (_ & _ & _ & -> & Hk) Hi Hki Hr. rewrite (refs_insert _ ip i) by done. unfold counted, one. rewrite Hk, Hki, Hr.
  repeat case_decide; lia || congruence.
Qed.

(** A directory that is locked, with the inode its entry leads to. *)
Lemma tree_iget s x inum (Q : nat -> fstate S -> Prop) (E : stop -> fstate S -> Prop) :
  tree s x -> in_use (fsb s) (disk s) inum -> refs (icache s) (ROOTDEV, inum) < 2 ^ 31 - 1 ->
  (forall ip s' i i', tree s' x -> icache s !! ip = Some i -> s' = set_icache (<[ip := i']> (icache s)) s ->
     ikey i' = (ROOTDEV, inum) -> 0 < i_ref i' -> i_lock i' = i_lock i -> i_ref i' = i_ref i + 1 ->
     (0 < i_ref i -> ikey i = (ROOTDEV, inum)) -> (forall k, refs (icache s') k = refs (icache s) k + one k inum) -> Q ip s') ->
  (forall s', E (Panicked "iget: no inodes") s') ->
  wpe (iget ROOTDEV inum) s Q E.
Proof.
  intros Ht Hin Hr HQ HE. pose proof Ht as [H1 Hic H3 H4 H5]. apply iget_spec; [done|done| |by intros; apply HE].
  intros ip s' (i & i' & Hi & -> & Hk & Hlk & Hd & Hri & Hcase) [Hok' _] Ha. pose proof (io_ref _ (proj1 Hic) _ _ Hi) as H0.
  eapply (HQ ip _ i i'); try done; [|lia|by case_decide; destruct Hcase; [done|lia]].
  eapply (tree_entry s _ x x ip i i'); try done.
  - exists (fdk s). split; [done|apply H1].
  - intros _. unfold ikey in Hk. injection Hk as -> Hinum. rewrite Hinum. split_and!; try done. intros Hv. rewrite Hd.
    case_decide; destruct Hcase as [Hc1 Hc2]; [|done]. destruct Hc2 as [Hpos Hval]. unfold ikey in Hc1. injection Hc1 as Hdv Hnm.
    rewrite <- Hnm. eapply (H4 ip i Hi); [done|congruence].
  - intros Hx. rewrite Hlk. by eapply H5.
Qed.

(** Going from the locked directory [ip] to the inode [n]. *)
Lemma walk_enter s ip i inum n R (Qn : nat -> fstate S -> Prop) (E : stop -> fstate S -> Prop) :
  tree s (Some ip) -> icache s !! ip = Some i -> 0 < i_ref i < 2 ^ 31 - 2 -> ikey i = (ROOTDEV, inum) ->
  sl_lk (i_lock i) = false -> sl_held me (i_lock i) -> holds_one s R inum -> (forall k, R k < 2 ^ 31 - 3) ->
  in_use (fsb s) (disk s) n ->
  (forall s' ip' i', tree s' None -> disk s' = disk s -> fsb s' = fsb s -> fcwd s' = fcwd s ->
     icache s' !! ip' = Some i' -> 0 < i_ref i' -> ikey i' = (ROOTDEV, n) -> holds_one s' R n -> Qn ip' s') ->
  (forall s', E (Panicked "iget: no inodes") s') ->
  wpe (iget ROOTDEV n) s (fun ip' s1 => wpe (iunlockput me ip) s1 (fun _ s2 => Qn ip' s2) E) E.
Proof.
  intros Ht Hi Hr Hk Hlk Hh HR HRb Hin HQ HE. apply (tree_iget s (Some ip)); try done.
  { rewrite HR. specialize (HRb (ROOTDEV, n)). unfold one. case_decide; lia. }
  intros ip2 s2 i2 i2' T2 C2 -> K2 R2 L2 Q2 F2 A2. set (s2 := set_icache _ s) in *.
  pose proof (entry_lt _ _ _ Hi) as Hip. pose proof (entry_lt _ _ _ C2) as Hip2.
  assert (H3 : exists i3, icache s2 !! ip = Some i3 /\ ikey i3 = ikey i /\ i_lock i3 = i_lock i /\
    i_ref i3 = i_ref i + (if decide (ip2 = ip) then 1 else 0)).
  { unfold s2. cbn [icache set_icache]. destruct (decide (ip2 = ip)) as [->|Hne].
    - simplify_eq. exists i2'. rewrite list_lookup_insert_eq by done. split_and!; try done. rewrite K2. symmetry. apply F2. lia.
    - exists i. rewrite list_lookup_insert_ne by done. split_and!; try done. lia. }
  destruct H3 as (i3 & Hi3 & Hk3 & Hl3 & Hr3). apply (tree_unlockput s2 ip i3); try done; try (by rewrite Hl3); [destruct (decide _); lia|].
  intros s3 i3' T3 Hnow Hr3'. pose proof Hnow as (D3 & B3 & W3 & C3 & K3).
  assert (H4 : exists i4, icache s3 !! ip2 = Some i4 /\ ikey i4 = (ROOTDEV, n) /\ 0 < i_ref i4).
  { rewrite C3. destruct (decide (ip2 = ip)) as [->|Hne].
    - exists i3'. rewrite list_lookup_insert_eq by (unfold s2; cbn; by rewrite length_insert). split_and!; [done| |lia].
      rewrite K3, Hk3. rewrite Hi in C2. injection C2 as <-. apply F2. lia.
    - exists i2'. rewrite list_lookup_insert_ne by done. unfold s2. cbn. by rewrite list_lookup_insert_eq. }
  destruct H4 as (i4 & Hi4 & Hk4 & Hr4). apply (HQ s3 ip2 i4); try done. intros k.
  rewrite (refs_now s2 ip i3 s3 i3' inum (-1) k), A2, HR; try congruence; lia.
Qed.

(** The lookup of one element: the directory is left, its entry entered. *)
Lemma walk_step s ip i inum name R (Qn : nat -> fstate S -> Prop)
    (Qf : fstate S -> Prop) (E : stop -> fstate S -> Prop) :
  tree s (Some ip) -> icache s !! ip = Some i -> 0 < i_ref i -> ikey i = (ROOTDEV, inum) ->
  sl_lk (i_lock i) = false -> sl_held me (i_lock i) -> i_d i = inode_of (fsb s) (disk s) inum -> d_type (i_d i) = T_DIR ->
  holds_one s R inum -> (forall k, R k < 2 ^ 31 - 3) -> readable (Z.to_nat DIRSIZ) name ->
  (forall s', tree s' None -> disk s' = disk s -> fsb s' = fsb s -> fcwd s' = fcwd s ->
     match dir_lookup (fdata (disk s) (i_d i)) (cname name) with
     | Some j => forall ip' i', icache s' !! ip' = Some i' -> 0 < i_ref i' -> ikey i' = (ROOTDEV, j) -> holds_one s' R j -> Qn ip' s'
     | None => (forall k, refs (icache s') k = R k) -> Qf s'
     end) ->
  (forall s', E (Panicked "iget: no inodes") s') ->
  wpe (dirlookup devsw_read ip name) s
    (fun r s1 => wpe (iunlockput me ip) s1 (fun _ s2 => match r with Some (ip', _) => Qn ip' s2 | None => Qf s2 end) E) E.
Proof.
  intros Ht Hi Hr Hk Hlk Hh Hd Hty HR HRb Hname HQ HE. pose proof Ht as [H1 Hic H3 H4 H5].
  destruct (H4 ip i Hi Hr) as (Hdev & Hin & _). assert (Hnum : i_inum i = inum) by (unfold ikey in Hk; congruence). rewrite Hnum in Hin.
  destruct (H3 _ Hin) as (Hwf & Hok & Hnl & Hdir). rewrite <- Hd in *. destruct (Hdir Hty) as [Hwhole Hents].
  assert (Hdo : dir_opened s ip i).
  { split; [|done|done|done]. split; try done; [by rewrite Hnum; apply Hin|]. by rewrite Hty. }
  assert (Hri : i_ref i < 2 ^ 31 - 2).
  { rewrite <- (refs_entry (icache s) ip i), Hk, HR by (done || apply Hic). unfold one. rewrite decide_True by done.
    specialize (HRb (ROOTDEV, inum)). lia. }
  apply (dirlookup_dir devsw_read s ip i); try done. intros s1 Hs1. destruct (same_disk_disk _ _ Hs1) as [Ed Ec].
  destruct (same_disk_log _ _ Hs1) as (_ & _ & Eb). pose proof (tree_same_disk _ _ _ Ht Hs1) as Ht1.
  assert (Ew : fcwd s1 = fcwd s) by (by destruct Hs1 as (? & -> & _)). unfold dir_lookup in HQ, Hents.
  change (fdata (disk s) (i_d i)) with (contents s i) in *. specialize (Hents (cname name)).
  destruct (dir_find _ _ _) as [[j n]|]; cbn in HQ, Hents.
  - apply (walk_enter s1 ip i inum n R); try done; try (by rewrite ?Ec); [intros k; by rewrite Ec, HR|rewrite Ed, Eb; by apply Hents|].
    intros s' ip' i' T' D' B' W'. apply HQ; congruence.
  - apply (tree_unlockput s1 ip i); try done; [by rewrite Ec|lia|]. intros s2 i2 T2 Hnow Hr2. pose proof Hnow as (D2 & B2 & W2 & _).
    apply HQ; try congruence. intros k. rewrite (refs_now s1 ip i s2 i2 inum (-1) k), Ec, HR; try congruence; lia.
Qed.

(** What namex returns: the inode that the walk leads to, with a reference,
    or null; [R] are the references without those of namex. *)
Definition arrives s (R : Z * Z -> Z) (goal : option Z) (r : option nat) s' : Prop :=
  tree s' None /\ disk s' = disk s /\ fsb s' = fsb s /\ fcwd s' = fcwd s /\
  match goal with
  | Some j => exists ip i, r = Some ip /\ icache s' !! ip = Some i /\ 0 < i_ref i /\ ikey i = (ROOTDEV, j) /\ holds_one s' R j
  | None => r = None /\ forall k, refs (icache s') k = R k
  end.

Lemma arrives_from s s1 R goal r s' :
  disk s1 = disk s -> fsb s1 = fsb s -> fcwd s1 = fcwd s -> arrives s1 R goal r s' -> arrives s R goal r s'.
Proof. intros E1 E2 E3 (? & ? & ? & ? & ?). unfold arrives. split_and!; congruence. Qed.

(** The last element is left in [name]. *)
Definition leaves_name (parent : bool) (es : list (list Z)) (name : list Z) : Prop :=
  length name = Z.to_nat DIRSIZ /\
  (parent = true -> forall e, last es = Some e -> cname name = take (Z.to_nat DIRSIZ) e).

(** One turn of namex on the locked entry [ip]; [final] says that no element
    follows, [K] is the rest of the loop. *)
Lemma namex_turn s ip i inum (final parent : bool) name R (K : nat -> M (fstate S) (option nat * list Z))
    (Q : option nat * list Z -> fstate S -> Prop) (E : stop -> fstate S -> Prop) :
  tree s (Some ip) -> icache s !! ip = Some i -> 0 < i_ref i -> ikey i = (ROOTDEV, inum) ->
  sl_lk (i_lock i) = false -> sl_held me (i_lock i) -> i_d i = inode_of (fsb s) (disk s) inum ->
  holds_one s R inum -> (forall k, R k < 2 ^ 31 - 3) -> length name = Z.to_nat DIRSIZ ->
  (forall goal r s', arrives s R goal r s' -> goal = (if (d_type (i_d i) =? T_DIR) && (parent && final) then Some inum else None) ->
     (d_type (i_d i) = T_DIR -> parent && final = false -> dir_lookup (fdata (disk s) (i_d i)) (cname name) = None) ->
     Q (r, name) s') ->
  (forall s' ip' i' j, d_type (i_d i) = T_DIR -> parent && final = false -> dir_lookup (fdata (disk s) (i_d i)) (cname name) = Some j ->
     tree s' None -> disk s' = disk s -> fsb s' = fsb s -> fcwd s' = fcwd s ->
     icache s' !! ip' = Some i' -> 0 < i_ref i' -> ikey i' = (ROOTDEV, j) -> holds_one s' R j -> wpe (K ip') s' Q E) ->
  (forall s', E (Panicked "iget: no inodes") s') ->
  wpe (i ← iat ip;
       if negb (d_type (i_d i) =? T_DIR) then iunlockput me ip ;; mret (None, name)
       else if parent && final then iunlock me (Some ip) ;; mret (Some ip, name)
       else next ← dirlookup devsw_read ip name;
            match next with
            | None => iunlockput me ip ;; mret (None, name)
            | Some (next, _) => iunlockput me ip ;; K next
            end) s Q E.
Proof.
  intros Ht Hi Hr Hk Hlk Hh Hd HR HRb Hn HQ HK HE. apply wpe_bind. eapply wpe_iat_at; [exact Hi|].
  assert (Hri : i_ref i < 2 ^ 31 - 2).
  { rewrite <- (refs_entry (icache s) ip i), Hk, HR by (done || apply (te_idle _ _ Ht)). unfold one. rewrite decide_True by done.
    specialize (HRb (ROOTDEV, inum)). lia. }
  destruct (Z.eqb_spec (d_type (i_d i)) T_DIR) as [Hdir|Hdir]; cbn [negb andb] in *.
  - destruct (parent && final) eqn:Hlast.
    + apply wpe_bind. apply (tree_unlock s ip i); try done. intros s' i' T' Hnow Hr'. pose proof Hnow as (D' & B' & W' & C' & K').
      apply wpe_ret. eapply HQ; [|done|done]. unfold arrives. split_and!; try done. exists ip, i'.
      split_and!; [done|rewrite C'; apply list_lookup_insert_eq; by eapply entry_lt|lia|congruence|]. intros k.
      rewrite (refs_now s ip i s' i' inum 0 k), HR; try done; lia.
    + apply wpe_bind. eapply wpe_mono; [| |apply (walk_step s ip i inum name R (fun ip' s' => wpe (K ip') s' Q E)
        (fun s' => Q (None, name) s') E)]; try done.
      * intros [[ip' off]|] s1 H1; cbn in H1; (apply wpe_bind; eapply wpe_mono; [|done|exact H1]); intros [] s2 H2; [done|by apply wpe_ret].
      * left. by rewrite Hn.
      * intros s' T' D' B' W'. destruct (dir_lookup _ _) as [j|] eqn:Hf; [intros; by eapply HK|]. intros Hrefs.
        apply (HQ None); [|done|done]. unfold arrives. split_and!; done.
  - apply wpe_bind. apply (tree_unlockput s ip i); try done; [lia|]. intros s' i' T' Hnow Hr'. pose proof Hnow as (D' & B' & W' & _).
    apply wpe_ret. eapply HQ; [|done|done]. unfold arrives. split_and!; try done. intros k.
    rewrite (refs_now s ip i s' i' inum (-1) k), HR; try done; lia.
Qed.

Lemma namex_loop_spec fuel s ip i inum path parent name R (Q : option nat * list Z -> fstate S -> Prop) (E : stop -> fstate S -> Prop) :
  tree s None -> icache s !! ip = Some i -> 0 < i_ref i -> ikey i = (ROOTDEV, inum) ->
  holds_one s R inum -> (forall k, R k < 2 ^ 31 - 3) -> 0 ∈ path -> length name = Z.to_nat DIRSIZ -> (length path < fuel)%nat ->
  (forall r name' s', arrives s R (walk (fsb s) (disk s) parent inum (elems (cut0 path))) r s' ->
     (r <> None -> leaves_name parent (elems (cut0 path)) name') -> Q (r, name') s') ->
  (forall s', E (Panicked "iget: no inodes") s') ->
  wpe (namex_loop me devsw_read fuel ip path parent name) s Q E.
Proof.
  revert s ip i inum path name. induction fuel as [|fuel IH]; intros s ip i inum path name Ht Hi Hr Hk HR HRb H0 Hn Hfuel HQ HE; [lia|].
  cbn [namex_loop]. pose proof (skipelem_spec path name s H0 Hn) as Hskip.
  assert (Hri : i_ref i < 2 ^ 31 - 2).
  { rewrite <- (refs_entry (icache s) ip i), Hk, HR by (done || apply (te_idle _ _ Ht)). unfold one. rewrite decide_True by done.
    specialize (HRb (ROOTDEV, inum)). lia. }
  destruct (elems (cut0 path)) as [|e es] eqn:Hes.
  - apply wpe_bind. unfold wpe at 1. rewrite Hskip. cbn [walk] in HQ. destruct parent.
    + apply wpe_bind. apply (tree_put s ip i); try done; [lia|]. intros s' i' T' Hnow Hr'. pose proof Hnow as (D' & B' & W' & _).
      apply wpe_ret, HQ; [|done]. unfold arrives. split_and!; try done. intros k.
      rewrite (refs_now s ip i s' i' inum (-1) k), HR; try done; lia.
    + apply wpe_ret, HQ; [|by intros _; split]. unfold arrives. split_and!; try done. by exists ip, i.
  - destruct Hskip as (path' & name' & Hskip & P1 & P2 & P3 & P4 & P5 & P6). apply wpe_bind. unfold wpe at 1. rewrite Hskip.
    apply wpe_bind. apply (tree_ilock s ip i); try done. intros s1 i1 T1 Hs1 Hk1 Hr1 Hlk1 Hh1 _ Hd1.
    destruct (same_disk_disk _ _ Hs1) as [Ed Ec]. destruct (same_disk_log _ _ Hs1) as (_ & _ & Eb).
    cbn [fdk icache set_icache fsb] in Ed, Ec, Eb. assert (Ew : fcwd s1 = fcwd s) by (by destruct Hs1 as (? & -> & _)).
    assert (Hnum : i_inum i = inum) by (unfold ikey in Hk; congruence). rewrite Hnum in Hd1.
    pose proof (elems_none path' P6) as Hend. rewrite P2 in Hend. cbn [walk] in HQ. rewrite <- Hd1 in HQ.
    assert (Hfin : (default 0 (path' !! 0%nat) =? 0) = bool_decide (es = [])).
    { destruct (Z.eqb_spec (default 0 (path' !! 0%nat)) 0) as [Ez|Ez]; symmetry;
        [by apply bool_decide_eq_true, Hend|by apply bool_decide_eq_false; intros ?%Hend]. }
    apply (namex_turn s1 ip i1 inum (default 0 (path' !! 0%nat) =? 0) parent name' R); try done; rewrite ?Ed, ?Eb, ?Hfin; try done; try congruence.
    + rewrite Ec. apply list_lookup_insert_eq. by eapply entry_lt.
    + intros k. rewrite Ec, (refs_insert _ ip i) by done. unfold counted. rewrite Hk1, Hr1, HR. lia.
    + intros goal r s' Ha -> Hno. rewrite P4 in Hno. apply (arrives_from s s1) in Ha; try done. apply HQ.
      * destruct (Z.eqb_spec (d_type (i_d i1)) T_DIR) as [Hdir|]; cbn [andb] in Ha; [|done].
        destruct (parent && bool_decide (es = [])); [done|]. by rewrite Hno.
      * intros Hr'. split; [done|]. intros -> e' He'. destruct (_ && _) eqn:Hb in Ha; [|by destruct Ha as (_ & _ & _ & _ & ? & _)].
        apply andb_prop in Hb as [_ Hb%bool_decide_eq_true]. subst es. rewrite Hb in He'. injection He' as <-. done.
    + intros s' ip' i' j Hdir Hlast Hf T' D' B' W' C' R' K' H'. rewrite P4 in Hf.
      eapply (IH s' ip' i' j); try done; [lia|]. rewrite P2, D', B'. intros r n s'' Ha Hl. apply HQ.
      * rewrite Hdir, Z.eqb_refl, Hlast, Hf. eapply arrives_from; [..|exact Ha]; congruence.
      * intros Hr'. destruct (Hl Hr') as [L1 L2]. split; [done|]. intros Hp e' He'. apply L2; [done|].
        destruct es; [|done]. subst parent. done.
Qed.

(** Where a path starts: at the root if it begins with a slash, else in the
    current directory, entry [c]. *)
Definition start (path : list Z) (c : inode) : Z := if default 0 (path !! 0%nat) =? 47 then ROOTINO else i_inum c.

Lemma tree_start s path c (Q : nat -> fstate S -> Prop) (E : stop -> fstate S -> Prop) :
  tree s None -> in_use (fsb s) (disk s) ROOTINO -> icache s !! fcwd s = Some c -> 0 < i_ref c ->
  (forall k, refs (icache s) k < 2 ^ 31 - 3) ->
  (forall ip s' i', tree s' None -> disk s' = disk s -> fsb s' = fsb s -> fcwd s' = fcwd s -> icache s' !! ip = Some i' -> 0 < i_ref i' ->
     ikey i' = (ROOTDEV, start path c) -> holds_one s' (refs (icache s)) (start path c) -> Q ip s') ->
  (forall s', E (Panicked "iget: no inodes") s') ->
  wpe (if default 0 (path !! 0%nat) =? 47 then iget ROOTDEV ROOTINO else idup (fcwd s)) s Q E.
Proof.
  intros Ht Hroot Hc Hr Hb HQ HE. unfold start in HQ. destruct (default 0 (path !! 0%nat) =? 47).
  - apply (tree_iget s None); try done; [specialize (Hb (ROOTDEV, ROOTINO)); lia|].
    intros ip s' i i' T' Hi -> Hk Hri' _ _ _ HA. apply (HQ ip _ i'); try done. apply list_lookup_insert_eq. by eapply entry_lt.
  - pose proof Ht as [H1 Hic H3 H4 H5]. destruct (H4 _ _ Hc Hr) as (Hdev & Hin & Hval).
    assert (Hk : ikey c = (ROOTDEV, i_inum c)) by (unfold ikey; by rewrite Hdev).
    apply (idup_spec s (fcwd s) c); try done.
    { rewrite <- (refs_entry _ _ _ (proj1 Hic) Hc Hr) at 2. specialize (Hb (ikey c)). lia. }
    intros i' s' Hic' Ha. apply (HQ _ s' i'); try done.
    + eapply (tree_entry s s' None None (fcwd s) c i'); try done; [|apply Hic'|intros Hx; exact (H5 _ _ Hc Hx)].
      exists (fdk s). split; [done|apply H1].
    + apply list_lookup_insert_eq. by eapply entry_lt.
    + cbn. lia.
    + intros k. rewrite (Ha k), Hk. done.
Qed.

Lemma namex_arrives s path parent name c (Q : option nat * list Z -> fstate S -> Prop) (E : stop -> fstate S -> Prop) :
  tree s None -> in_use (fsb s) (disk s) ROOTINO -> icache s !! fcwd s = Some c -> 0 < i_ref c ->
  (forall k, refs (icache s) k < 2 ^ 31 - 3) -> 0 ∈ path -> length name = Z.to_nat DIRSIZ ->
  (forall r name' s', arrives s (refs (icache s)) (walk (fsb s) (disk s) parent (start path c) (elems (cut0 path))) r s' ->
     (r <> None -> leaves_name parent (elems (cut0 path)) name') -> Q (r, name') s') ->
  (forall s', E (Panicked "iget: no inodes") s') ->
  wpe (namex me devsw_read path parent name) s Q E.
Proof.
  intros Ht Hroot Hc Hr Hb H0 Hn HQ HE. unfold namex. apply wpe_bind, wpe_get. apply wpe_bind.
  apply (tree_start s path c); try done. intros ip s1 i1 T1 D1 B1 W1 C1 R1 K1 H1.
  eapply (namex_loop_spec _ s1 ip i1 (start path c) path parent name (refs (icache s))); try done; [lia|].
  intros r name' s' Ha Hl. rewrite D1, B1 in Ha. apply HQ; [|done]. by eapply arrives_from.
Qed.

(** C25: Path lookup walks the tree of directories. In a file system whose
    inodes in use are well formed and linked, with no inode locked, namex
    follows the elements of the path from the root or from the current
    directory: it returns the inode that the walk through the directories
    leads to (one level early, and with the last element in [name], for
    nameiparent), with exactly one more reference to it and no other count
    changed; or null, with all counts as they were, if an element is missing
    or is not in a directory. No inode is left locked and the disk does not
    change. The one way to stop is a full inode cache. *)
Theorem namex_resolves s path parent name c :
  tree s None -> in_use (fsb s) (disk s) ROOTINO -> icache s !! fcwd s = Some c -> 0 < i_ref c ->
  (forall k, refs (icache s) k < 2 ^ 31 - 3) -> 0 ∈ path -> length name = Z.to_nat DIRSIZ ->
  wpe (namex me devsw_read path parent name) s
    (fun r s' => arrives s (refs (icache s)) (walk (fsb s) (disk s) parent (start path c) (elems (cut0 path))) r.1 s' /\
       (r.1 <> None -> leaves_name parent (elems (cut0 path)) r.2))
    (fun w _ => w = Panicked "iget: no inodes").
Proof.
  intros Ht Hroot Hc Hr Hb H0 Hn. by apply (namex_arrives s path parent name c).
Qed.

End tree.
