(* ===== verification/Fsdisk.v ===== *)
(** A concrete disk with a root directory and a file, in the midst of a
    transaction: the laws of the file system at work on it. *)

From S2P Require Import Prelude Mem Block Sleeplock Log Refstore Tx Fs Bitmap Inode Dinode Iblock File Fileops Trunc Icache Dir Path.

Open Scope Z_scope.

(** 40 blocks: the log in blocks 2 to 21, 10 inodes from block 22 on, the
    bitmap in block 24 and the data from block 25 on. *)
Definition disk_sb : superblock := SuperBlock 40 15 10 20 2 22 24.

Definition root_inode : dinode := DInode T_DIR 0 0 1 48 (25 :: replicate 12 0).
Definition file_inode : dinode := DInode T_FILE 0 0 1 6 (26 :: replicate 12 0).

Definition entry (inum : Z) (name : list Z) : list Z := le_bytes 2 inum ++ strncpy_arr (Z.to_nat DIRSIZ) name.
Definition root_data : block := splice zero_block 0 (entry 1 [46] ++ entry 1 [46; 46] ++ entry 2 [102]).
Definition file_text : list Z := [97; 10; 97; 10; 98; 10].
Definition inode_block : block := put_dinode (put_dinode zero_block 64 root_inode) 128 file_inode.
Definition bitmap_data : block := splice zero_block 0 [255; 255; 255; 7].

Definition disk : list block :=
  <[22%nat := inode_block]> (<[24%nat := bitmap_data]> (<[25%nat := root_data]>
    (<[26%nat := splice zero_block 0 file_text]> (replicate 40 zero_block)))).

(** One system call is in its transaction; nothing is logged yet. *)
Definition disk_log : log := Log false 2 20 1 0 ROOTDEV 0 (replicate 30 0) 0.
Definition disk_store : lstate rstore := LState (RStore disk disk ∅ ∅ None) disk_log.

Definition free_lock : sleeplock := SleepLock 0 false "inode" 0 0.
Definition free_entry : inode := Inode 0 0 0 free_lock 0 (DInode 0 0 0 0 0 (replicate 13 0)).
Definition root_entry : inode := Inode ROOTDEV 1 1 free_lock 1 root_inode.
Definition file_entry : inode := Inode ROOTDEV 2 1 free_lock 1 file_inode.
Definition disk_fs : fstate (lstate rstore) :=
  FState disk_store false (root_entry :: file_entry :: replicate 48 free_entry) disk_sb 0.

#[local] Instance disk_laws : TxStoreLaws (lstate rstore) := log_tx_laws 22.

(** Boolean versions of the invariants. *)
Definition block_okb (d : block) : bool :=
  (length d =? Z.to_nat BSIZE)%nat && forallb (fun x => (0 <=? x) && (x <? 256)) d.

Lemma block_okb_ok d : block_okb d = true -> block_ok d.
Proof.
  unfold block_okb. intros [H1 H2]%andb_prop. apply Nat.eqb_eq in H1. split; [done|]. apply Forall_forall.
  intros x Hx%list_elem_of_In. apply forallb_forall with (x := x) in H2; [|done]. unfold in_u8. lia.
Qed.

Lemma blocks_ok l : forallb block_okb l = true -> Forall block_ok l.
Proof.
  intros H. apply Forall_forall. intros d Hd%list_elem_of_In. by apply block_okb_ok, (proj1 (forallb_forall block_okb l) H).
Qed.

Lemma disk_blocks : Forall block_ok disk.
Proof. apply blocks_ok. vm_compute. reflexivity. Qed.

Lemma disk_store_ok : rstore_ok (store disk_store).
Proof. split; try done; apply disk_blocks. Qed.

Lemma disk_in_tx : lt_ok 22 disk_store.
Proof.
  exists 2%nat, 20%nat, []. split; try done.
  - split; try done. vm_compute. lia.
  - split; try done; [by apply NoDup_nil|cbn; lia].
  - apply disk_store_ok.
  - vm_compute. lia.
Qed.

Lemma disk_view : tview disk_store disk ∅ ∅ ∅ 19.
Proof.
  split; [apply disk_in_tx|]. do 2 (split; [done|]). split; [|split; [done|reflexivity]].
  intros x. unfold tx_dirty; cbn. unfold lt_dirty. rewrite elem_of_filter. intros [_ Hx]. by vm_compute in Hx.
Qed.

Lemma disk_sb_ok : sb_ok disk_sb 40.
Proof. split; vm_compute; (done || lia). Qed.

(** [P] of the numbers from [lo] on. *)
Lemma all_below (P : Z -> bool) lo n : forallb P (seqZ lo n) = true -> forall x, lo <= x < lo + n -> P x = true.
Proof. intros H x Hx. apply (proj1 (forallb_forall P _) H), list_elem_of_In, elem_of_seqZ. lia. Qed.

Lemma disk_meta : meta_used disk_sb disk.
Proof. intros x Hx. apply (all_below (used disk disk_sb) 0 25); [vm_compute; reflexivity|]. change (data_start disk_sb) with 25 in Hx. lia. Qed.

(** A file of one block. *)
Lemma addr_one D di a n :
  d_addrs di = a :: replicate 12 0 -> 0 <= n < MAXFILE -> addr D di n = if n =? 0 then a else 0.
Proof.
  intros E Hn. change MAXFILE with 140 in Hn. unfold addr, ind, addr_of. rewrite E. destruct (Z.eqb_spec n 0) as [->|Hne]; [done|].
  destruct (Z.ltb_spec n NDIRECT) as [Hd|]; [|done]. change NDIRECT with 12 in Hd.
  replace (Z.to_nat n) with (S (Z.to_nat (n - 1))) by lia.
  change ((a :: ?l) !! S ?k) with (l !! k). by rewrite lookup_replicate_2 by lia.
Qed.

Lemma wf_one D di a :
  d_addrs di = a :: replicate 12 0 -> a <> 0 -> data_used disk_sb D a -> 0 <= d_size di <= BSIZE -> wf_file disk_sb D di.
Proof.
  intros E Ha Hu Hs. assert (Hi : ind di = 0) by (unfold ind, addr_of; by rewrite E).
  assert (HA : forall n, 0 <= n < MAXFILE -> addr D di n <> 0 -> n = 0 /\ addr D di n = a).
  { intros n Hn. rewrite (addr_one D di a) by done. by destruct (Z.eqb_spec n 0). }
  change BSIZE with 512 in Hs. split.
  - by rewrite E.
  - intros n Hn Hna. by destruct (HA n Hn Hna) as [_ ->].
  - by rewrite Hi.
  - intros m n Hm Hn Hma Eq. destruct (HA m Hm Hma) as [-> _]. destruct (HA n Hn) as [-> _]; [congruence|done].
  - by rewrite Hi.
  - change (MAXFILE * BSIZE) with 71680. lia.
  - intros n Hn Hlt. change BSIZE with 512 in Hlt. rewrite (addr_one D di a); [|done|change MAXFILE with 140; lia].
    by replace n with 0 by lia.
Qed.

Lemma disk_fs_ok : fs_ok disk_fs.
Proof. split; [apply disk_view|apply disk_sb_ok|apply disk_meta]. Qed.

Lemma root_opened : opened disk_fs 0 root_entry.
Proof.
  split; try done; [apply (wf_one _ _ 25); (done || by vm_compute)|].
  split; cbn; try (unfold in_i16, in_u32; lia); [done|]. repeat constructor; unfold in_u32; lia.
Qed.

Lemma file_opened : opened disk_fs 1 file_entry.
Proof.
  split; try done; [apply (wf_one _ _ 26); (done || by vm_compute)|].
  split; cbn; try (unfold in_i16, in_u32; lia); [done|]. repeat constructor; unfold in_u32; lia.
Qed.

(** The cache with [a] and [b] in its first two entries. *)
Definition cache (a b : inode) : list inode := a :: b :: replicate 48 free_entry.

Lemma cache_lookup a b p i :
  cache a b !! p = Some i -> (p = 0%nat /\ i = a) \/ (p = 1%nat /\ i = b) \/ i = free_entry.
Proof.
  destruct p as [|[|p]]; [intros [= <-]; auto|intros [= <-]; auto|]. change (cache a b !! S (S p)) with (replicate 48 free_entry !! p).
  intros [-> _]%lookup_replicate. auto.
Qed.

Lemma cache_ok a b : 0 <= i_ref a -> 0 <= i_ref b -> ikey a <> ikey b -> ic_ok (cache a b).
Proof.
  intros Ha Hb Hne. split.
  - intros p i [[_ ->]|[[_ ->]| ->]]%cache_lookup; done.
  - intros p q i j [[-> ->]|[[-> ->]| ->]]%cache_lookup [[-> ->]|[[-> ->]| ->]]%cache_lookup Hi Hj E; try done; congruence.
Qed.

Lemma cache_refs a b k : refs (cache a b) k = counted k a + counted k b.
Proof.
  unfold cache. cbn [refs]. rewrite (refs_none (replicate 48 free_entry)); [lia|]. intros p i [-> _]%lookup_replicate.
  unfold counted. by destruct (decide _).
Qed.

Lemma disk_idle : ic_idle disk_fs.
Proof. split; [|done]. by apply (cache_ok root_entry file_entry). Qed.

Lemma disk_refs k : refs (icache disk_fs) k < 2 ^ 31 - 1.
Proof. rewrite (cache_refs root_entry file_entry). unfold counted. repeat case_decide; cbn; lia. Qed.

Lemma disk_bitmaps : bitmaps disk_sb = {[24]}.
Proof. by apply set_eq. Qed.

(** ** The theorems on this disk *)

Lemma balloc_allocates_witness :
  wpe (balloc ROOTDEV disk_sb) disk_store
    (fun a s' => data_start disk_sb <= a < sb_size disk_sb /\ used disk disk_sb a = false /\
       (forall x, 0 <= x < a -> used disk disk_sb x = true) /\
       exists D', tview s' D' ∅ ∅ ({[a]} ∪ bitmaps disk_sb) 19 /\ D' !! Z.to_nat a = Some zero_block /\
         (forall x, 0 <= x < sb_size disk_sb -> used D' disk_sb x = (x =? a) || used disk disk_sb x) /\
         (forall x, 0 <= x -> x <> a -> ~ bitmap_block disk_sb x -> D' !! Z.to_nat x = disk !! Z.to_nat x) /\
         ((size ({[a]} ∪ bitmaps disk_sb) < 19)%nat -> wp (bfree ROOTDEV a disk_sb) s' (fun _ s'' => exists D'',
            tview s'' D'' ∅ ∅ ({[a]} ∪ bitmaps disk_sb) 19 /\
            forall x, 0 <= x < sb_size disk_sb -> used D'' disk_sb x = used disk disk_sb x)))
    (fun w s' => w = Panicked "balloc: out of blocks" /\ tview s' disk ∅ ∅ (bitmaps disk_sb) 19 /\
       forall x, 0 <= x < sb_size disk_sb -> used disk disk_sb x = true).
Proof.
  apply (balloc_allocates disk_sb 40 disk_store disk (bitmaps disk_sb) 19); [apply disk_sb_ok| |done|apply disk_meta|done|].
  - eapply tview_weaken; [apply disk_view|set_solver].
  - rewrite disk_bitmaps, size_singleton. lia.
Defined.

Lemma readi_reads_witness :
  wp (readi (fun _ => None) 1 1 100) disk_fs (fun r s' => r = (5, [10; 97; 10; 98; 10]) /\ fs_ok s').
Proof.
  eapply wp_mono; [|refine (readi_reads (fun _ => None) disk_fs 1 file_entry 1 100 disk_fs_ok file_opened _ _); unfold in_u32; lia].
  intros r s' (-> & Hs' & _). split; [vm_compute; reflexivity|done].
Defined.

Lemma disk_room n off : (nparts off n <= 10)%nat ->
  (size (tx_logged (fdk disk_fs)) + size (bitmaps (fsb disk_fs)) + nparts off n + 3 < tx_limit (fdk disk_fs))%nat.
Proof.
  intros H. change (bitmaps (fsb disk_fs)) with (bitmaps disk_sb). rewrite disk_bitmaps, size_singleton.
  change (tx_logged (fdk disk_fs)) with (∅ : gset Z). change (tx_limit (fdk disk_fs)) with 19%nat. rewrite size_empty. lia.
Qed.

Lemma writei_writes_witness :
  wpe (writei (fun _ => None) 1 (replicate 600 65) 3) disk_fs
    (fun r s' => r = 600 /\ exists i', wrote disk_fs 1 file_entry 3 (replicate 600 65) s' i') (disk_full disk_fs).
Proof.
  refine (writei_writes (fun _ => None) disk_fs 1 file_entry 3 (replicate 600 65) disk_fs_ok file_opened _ _ _ _).
  - apply Forall_replicate. unfold in_u8. lia.
  - unfold in_u32. lia.
  - rewrite length_replicate. lia.
  - apply disk_room. vm_compute. lia.
Defined.

Lemma write_then_read_witness :
  wpe (writei (fun _ => None) 1 (replicate 600 65) 3 ;; readi (fun _ => None) 1 0 4) disk_fs
    (fun r _ => r.2 = [97; 10; 97; 65]) (disk_full disk_fs).
Proof.
  eapply wpe_mono; [| |refine (write_then_read (fun _ => None) (fun _ => None) disk_fs 1 file_entry 3 (replicate 600 65) 0 4
    disk_fs_ok file_opened _ _ _ _ _ _ _ _ _)].
  - intros r s' (-> & _). vm_compute. reflexivity.
  - done.
  - apply Forall_replicate. unfold in_u8. lia.
  - unfold in_u32. lia.
  - cbn. lia.
  - vm_compute. discriminate.
  - apply disk_room. vm_compute. lia.
  - unfold in_u32. lia.
  - unfold in_u32. lia.
  - cbn. lia.
  - lia.
Defined.

Lemma itrunc_frees_witness :
  wp (itrunc 1) disk_fs (fun _ s' => exists i', trunced disk_fs 1 file_entry s' i' /\ contents s' i' = []).
Proof.
  apply (itrunc_frees disk_fs 1 file_entry disk_fs_ok file_opened). change (bitmaps (fsb disk_fs)) with (bitmaps disk_sb).
  rewrite disk_bitmaps, size_singleton. change (tx_logged (fdk disk_fs)) with (∅ : gset Z).
  change (tx_limit (fdk disk_fs)) with 19%nat. rewrite size_empty. lia.
Defined.

Lemma iget_refines_witness :
  wpe (iget ROOTDEV 2) disk_fs
    (fun ip s' => got disk_fs (ROOTDEV, 2) ip s' /\ ic_idle s' /\ adds (icache disk_fs) (ROOTDEV, 2) 1 (icache s'))
    (fun w s' => w = Panicked "iget: no inodes" /\ refs (icache disk_fs) (ROOTDEV, 2) = 0 /\
       forall p i, icache disk_fs !! p = Some i -> 0 < i_ref i).
Proof. apply (iget_refines disk_fs ROOTDEV 2 disk_idle). apply disk_refs. Defined.

(** The file without a link. *)
Definition orphan_entry : inode := set_i_d (set_d_nlink 0 file_inode) file_entry.
Definition orphan_fs : fstate (lstate rstore) := FState disk_store false (cache root_entry orphan_entry) disk_sb 0.

Lemma iput_drops_witness :
  last_use orphan_entry = true /\
  wp (iput 7 1) orphan_fs (fun _ s' => exists i', icache s' = <[1%nat := i']> (icache orphan_fs) /\ ic_idle s' /\
    lk_free (i_lock i') /\ i_ref i' = i_ref orphan_entry - 1 /\ adds (icache orphan_fs) (ikey orphan_entry) (-1) (icache s') /\
    freed orphan_fs orphan_entry s' /\ i_valid i' = 0).
Proof.
  split; [done|]. apply (iput_drops 7 orphan_fs 1 orphan_entry).
  - split; [|done]. by apply (cache_ok root_entry orphan_entry).
  - done.
  - done.
  - cbn. lia.
  - intros _. split; [by apply (fs_ok_same disk_fs); [apply disk_fs_ok| |]|]. split.
    + split; try done; [apply (wf_one _ _ 26); (done || by vm_compute)|].
      split; cbn; try (unfold in_i16, in_u32; lia); [done|]. repeat constructor; unfold in_u32; lia.
    + pose proof (disk_room 0 0 ltac:(vm_compute; lia)) as Hr. vm_compute in Hr. vm_compute. lia.
Defined.

Lemma root_dir : dir_opened disk_fs 0 root_entry.
Proof. split; [apply root_opened|done|vm_compute; reflexivity|done]. Qed.

Lemma dirlookup_refines_witness :
  wpe (dirlookup (fun _ => None) 0 [102; 0]) disk_fs
    (fun r s' => exists s1, same_disk disk_fs s1 /\ exists ip j, r = Some (ip, 16 * Z.of_nat j) /\ got s1 (ROOTDEV, 2) ip s' /\
       ic_idle s' /\ adds (icache disk_fs) (ROOTDEV, 2) 1 (icache s') /\
       de_inum (dent (contents disk_fs root_entry) j) = 2 /\
       cname (de_name (dent (contents disk_fs root_entry) j)) = cname [102; 0])
    (fun w s' => w = Panicked "iget: no inodes" /\ forall p i, icache disk_fs !! p = Some i -> 0 < i_ref i).
Proof.
  assert (E : dir_lookup (contents disk_fs root_entry) (cname [102; 0]) = Some 2) by (vm_compute; reflexivity).
  pose proof (dirlookup_refines (fun _ => None) disk_fs 0 root_entry [102; 0] disk_fs_ok root_dir disk_idle) as H.
  rewrite E in H. apply H; [|apply disk_refs]. right. apply list_elem_of_further, list_elem_of_singleton. done.
Defined.

Lemma root_room : dir_room disk_fs.
Proof.
  pose proof (disk_room 0 0 ltac:(vm_compute; lia)) as Hr. vm_compute in Hr. vm_compute. lia.
Qed.

Lemma dirlink_refines_witness :
  wpe (dirlink 7 (fun _ => None) (fun _ => None) 0 [120; 0] 2) disk_fs
    (fun r s' => r = 0 /\ exists s1 i', same_disk disk_fs s1 /\ fs_ok s' /\ dir_opened s' 0 i' /\ others_keep s1 s' root_entry /\
       icache s' = <[0%nat := i']> (icache disk_fs) /\
       forall nm, dir_lookup (contents s' i') nm =
         if decide (nm = [120]) then Some 2 else dir_lookup (contents disk_fs root_entry) nm)
    (fun w s' => w = Panicked "balloc: out of blocks" \/ w = Panicked "iget: no inodes" \/
       w = Panicked "dirlink" /\ dir_maximal disk_fs root_entry).
Proof.
  assert (E : dir_lookup (contents disk_fs root_entry) (cname [120; 0]) = None) by (vm_compute; reflexivity).
  pose proof (dirlink_refines (fun _ => None) (fun _ => None) 7 disk_fs 0 root_entry [120; 0] 2 disk_fs_ok root_dir disk_idle) as H.
  rewrite E in H. apply H.
  - right. apply list_elem_of_further, list_elem_of_singleton. done.
  - repeat constructor; unfold in_u8; lia.
  - lia.
  - apply root_room.
  - apply disk_refs.
  - intros p j Hj _. apply (cache_lookup root_entry file_entry) in Hj as [[_ ->]|[[_ ->]| ->]]; split; reflexivity.
  - discriminate.
Defined.

(** The root directory, locked by process 7. *)
Definition locked_root : inode := set_i_lock (SleepLock 1 false "inode" 7 0) root_entry.
Definition locked_fs : fstate (lstate rstore) := FState disk_store false (cache locked_root file_entry) disk_sb 0.

Lemma dirlink_self_deadlock_witness :
  wpe (dirlink 7 (fun _ => None) (fun _ => None) 0 [46; 0] 2) locked_fs (fun _ _ => False) (fun w _ => w = Sleeping (ch_lock 0)).
Proof.
  apply (dirlink_self_deadlock (fun _ => None) (fun _ => None) 7 locked_fs 0 locked_root [46; 0] 2); try done.
  - by apply (fs_ok_same disk_fs); [apply disk_fs_ok| |].
  - split; [by apply (opened_same disk_fs _ 0 root_entry); [apply root_opened|..]|done|vm_compute; reflexivity|done].
  - split; [|done]. by apply (cache_ok locked_root file_entry).
  - right. apply list_elem_of_further, list_elem_of_singleton. done.
Defined.

(** ** The tree on this disk *)

Lemma disk_inode1 : inode_of disk_sb disk 1 = root_inode.
Proof. vm_compute. reflexivity. Qed.

Lemma disk_inode2 : inode_of disk_sb disk 2 = file_inode.
Proof. vm_compute. reflexivity. Qed.

Lemma disk_in_use inum : in_use disk_sb disk inum <-> inum = 1 \/ inum = 2.
Proof.
  split.
  - intros [Hr Ht]. change (sb_ninodes disk_sb) with 10 in Hr.
    assert (H : ((inum =? 1) || (inum =? 2) || (d_type (inode_of disk_sb disk inum) =? 0)) = true).
    { refine (all_below (fun n => (n =? 1) || (n =? 2) || (d_type (inode_of disk_sb disk n) =? 0)) 0 10 _ inum Hr).
      vm_compute. reflexivity. }
    rewrite (proj2 (Z.eqb_neq _ 0) Ht), orb_false_r in H. lia.
  - intros [-> | ->]; (split; [cbn; lia|]); rewrite ?disk_inode1, ?disk_inode2; done.
Qed.

Lemma root_entries nm j : dir_lookup (fdata disk root_inode) nm = Some j -> j = 1 \/ j = 2.
Proof.
  unfold dir_lookup. destruct (dir_find _ _ _) as [[k n]|] eqn:Hf; [|done]. intros [= <-].
  destruct (dir_find_lookup _ _ _ _ _ Hf) as (de & _ & Hde & <- & _).
  assert (Hall : Forall (fun de => de_inum de = 1 \/ de_inum de = 2) (dents (fdata disk root_inode))).
  { change (dents (fdata disk root_inode)) with [entry 1 [46]; entry 1 [46; 46]; entry 2 [102]].
    repeat (constructor; [first [by left|by right]|]). constructor. }
  exact (Forall_lookup_1 _ _ _ _ Hall Hde).
Qed.

Lemma disk_tree : tree disk_fs None.
Proof.
  split.
  - apply disk_fs_ok.
  - apply disk_idle.
  - intros inum [-> | ->]%disk_in_use; unfold inode_good; change (fsb disk_fs) with disk_sb; change (tx_disk (fdk disk_fs)) with disk.
    + rewrite disk_inode1. split_and!; [apply root_opened|apply root_opened|done|]. intros _. split; [vm_compute; reflexivity|].
      intros nm j Hj%root_entries. by apply disk_in_use.
    + rewrite disk_inode2. split_and!; [apply file_opened|apply file_opened|done|done].
  - intros p i Hi. apply (cache_lookup root_entry file_entry) in Hi as [[_ ->]|[[_ ->]| ->]]; intros Hr; [| |done].
    + split; [done|]. split; [apply disk_in_use; by left|]. intros _. symmetry. apply disk_inode1.
    + split; [done|]. split; [apply disk_in_use; by right|]. intros _. symmetry. apply disk_inode2.
  - intros p i Hi _. apply (cache_lookup root_entry file_entry) in Hi as [[_ ->]|[[_ ->]| ->]]; by split.
Qed.

Lemma namex_resolves_witness :
  walk disk_sb disk false ROOTINO (elems (cut0 [47; 102; 0])) = Some 2 /\
  wpe (namex 7 (fun _ => None) [47; 102; 0] false (replicate 14 0)) disk_fs
    (fun r s' => arrives disk_fs (refs (icache disk_fs)) (walk disk_sb disk false ROOTINO (elems (cut0 [47; 102; 0]))) r.1 s' /\
       (r.1 <> None -> leaves_name false (elems (cut0 [47; 102; 0])) r.2))
    (fun w _ => w = Panicked "iget: no inodes").
Proof.
  split; [vm_compute; reflexivity|].
  apply (namex_resolves (fun _ => None) 7 disk_fs [47; 102; 0] false (replicate 14 0) root_entry disk_tree).
  - apply disk_in_use. by left.
  - reflexivity.
  - cbn. lia.
  - intros k. rewrite (cache_refs root_entry file_entry). unfold counted. repeat case_decide; cbn; lia.
  - do 2 apply list_elem_of_further. apply list_elem_of_here.
  - reflexivity.
Defined.
