(* ===== verification/Mkfs.v ===== *)
(** The program that makes the first file system: [mkfs.c], and the image that
    it leaves.

    The image file is the list of its blocks: a write beyond its end extends
    it, and a read beyond its end fails. The host system on which mkfs runs is
    a parameter: it may refuse to seek, to read or to write. The files
    that go into the image are what open and the reads of mkfs give. What mkfs
    prints is left out. The image is compared with what the file system in
    Inode.v, Dir.v and Path.v relies on. To this end the blocks that mkfs has
    given out, which it only counts, are marked in the bitmap of a disk of
    their own: [vdisk]. *)

From S2P Require Import Prelude Mem Block Sleeplock Log Refstore Tx Fs Bitmap Inode Dinode Iblock File Fileops Trunc Icache Dir Path.

Open Scope Z_scope.

(** ** mkfs.c *)

Definition NINODES : Z := 200.

Definition nbitmap : Z := FSSIZE / (BSIZE * 8) + 1.
Definition ninodeblocks : Z := NINODES / IPB + 1.
Definition nlog : Z := LOGSIZE.

(** A file of the host: its name, whether it can be opened, and what the reads
    of up to BSIZE bytes return. *)
Record hfile := HFile {
  h_name : list Z;
  h_open : bool;
  h_reads : list (list Z)
}.

Record mkfs := Mkfs {
  img : list block;       (* the file fsfd *)
  msb : superblock;       (* sb *)
  freeinode : Z;
  freeblock : Z
}.

Definition set_img v s := Mkfs v (msb s) (freeinode s) (freeblock s).
Definition set_msb v s := Mkfs (img s) v (freeinode s) (freeblock s).
Definition set_freeinode v s := Mkfs (img s) (msb s) v (freeblock s).
Definition set_freeblock v s := Mkfs (img s) (msb s) (freeinode s) v.

Notation MK A := (M mkfs A).

Definition mk_exit {A} : MK A := fun s => Stop Exited s.
Definition assert (b : bool) : MK unit := if b then mret tt else panic "assert".

(** The bytes are stored lowest first; the host reads them the same way. *)
Definition xshort (x : Z) : Z := le_val [u8 x; u8 (Z.shiftr x 8)].
Definition xint (x : Z) : Z := le_val [u8 x; u8 (Z.shiftr x 8); u8 (Z.shiftr x 16); u8 (Z.shiftr x 24)].

(** What the host system does with the calls of mkfs on the image, which
    depends on the image and the block: whether lseek returns the offset and
    read a whole block, and what a write of less than a block leaves of the
    image ([None] is a write of the whole block). *)
Class Host := {
  h_lseek : list block -> Z -> bool;
  h_read : list block -> Z -> bool;
  h_write : list block -> Z -> block -> option (list block)
}.

Section host.
Context {HO : Host}.

(** The block of the image at the offset that lseek is given. *)
Definition sect (sec : Z) : nat := Z.to_nat (u32 (sec * BSIZE) / BSIZE).

Definition wsect (sec : Z) (buf : block) : MK unit :=
  s ← get;
  let l := img s in
  let n := sect sec in
  if negb (h_lseek l sec) then mk_exit
  else
    match h_write l sec buf with
    | Some torn => put (set_img torn s) ;; mk_exit
    | None => put (set_img (if (n <? length l)%nat then <[n := buf]> l else l ++ replicate (n - length l) zero_block ++ [buf]) s)
    end.

Definition rsect (sec : Z) : MK block :=
  s ← get;
  if negb (h_lseek (img s) sec) then mk_exit
  else if negb (h_read (img s) sec) then mk_exit
  else
    match img s !! sect sec with
    | Some d => mret d
    | None => mk_exit
    end.

Definition winode (inum : Z) (ip : dinode) : MK unit :=
  s ← get;
  let bn := IBLOCK inum (msb s) in
  buf ← rsect bn;
  wsect bn (put_dinode buf (dinode_off inum) ip).

Definition rinode (inum : Z) : MK dinode :=
  s ← get;
  let bn := IBLOCK inum (msb s) in
  buf ← rsect bn;
  mret (get_dinode buf (dinode_off inum)).

Definition ialloc (type : Z) : MK Z :=
  inum ← gets freeinode;
  modify (set_freeinode (u32 (inum + 1))) ;;
  winode inum (DInode (i16 (xshort type)) 0 0 (i16 (xshort 1)) (xint 0) (replicate 13 0)) ;;
  mret inum.

(** The bitmap with the first [used] bits set. *)
Definition first_bits (used : Z) : block :=
  foldl (fun buf i => <[Z.to_nat (i / 8) := Z.lor (byte_at buf (i / 8)) (Z.shiftl 1 (i mod 8))]> buf) zero_block (seqZ 0 used).

Definition balloc (used : Z) : MK unit :=
  assert (used <? BSIZE * 8) ;;
  s ← get;
  wsect (sb_bmapstart (msb s)) (first_bits used).

(** [freeblock++] *)
Definition next_block : MK Z :=
  b ← gets freeblock;
  modify (set_freeblock (u32 (b + 1))) ;;
  mret b.

(** The block for part [fbn] of the file, and the inode with it. *)
Definition block_for (din : dinode) (fbn : Z) : MK (dinode * Z) :=
  if fbn <? NDIRECT then
    din ← (if xint (addr_of din fbn) =? 0 then b ← next_block; mret (with_addr din fbn (xint b)) else mret din);
    mret (din, xint (addr_of din fbn))
  else
    din ← (if xint (addr_of din NDIRECT) =? 0 then b ← next_block; mret (with_addr din NDIRECT (xint b)) else mret din);
    indirect ← rsect (xint (addr_of din NDIRECT));
    indirect ← (if word_at indirect (fbn - NDIRECT) =? 0 then
                  b ← next_block;
                  let indirect := put32 indirect (4 * Z.to_nat (fbn - NDIRECT)) (xint b) in
                  wsect (xint (addr_of din NDIRECT)) indirect ;;
                  mret indirect
                else mret indirect);
    mret (din, xint (word_at indirect (fbn - NDIRECT))).

(** The loop of iappend: the bytes [p] that are left go to offset [off]. Each
    turn takes at least one. *)
Fixpoint iappend_loop (fuel : nat) (din : dinode) (off : Z) (p : list Z) : MK (dinode * Z) :=
  match fuel with
  | O => out_of_fuel
  | S fuel =>
      let n := Z.of_nat (length p) in
      if 0 <? n then
        let fbn := off / BSIZE in
        assert (fbn <? MAXFILE) ;;
        '(din, x) ← block_for din fbn;
        let n1 := Z.min n (u32 ((fbn + 1) * BSIZE - off)) in
        buf ← rsect x;
        wsect x (splice buf (Z.to_nat (off - fbn * BSIZE)) (take (Z.to_nat n1) p)) ;;
        iappend_loop fuel din (u32 (off + n1)) (drop (Z.to_nat n1) p)
      else mret (din, off)
  end.

Definition iappend (inum : Z) (p : list Z) : MK unit :=
  din ← rinode inum;
  '(din, off) ← iappend_loop (S (length p)) din (xint (d_size din)) p;
  winode inum (set_d_size (xint off) din).

(** struct dirent with the name copied to its array. *)
Definition dirent (inum : Z) (name : list Z) : list Z := le_bytes 2 (xshort inum) ++ strncpy_arr (Z.to_nat DIRSIZ) name.

(** The name without the leading underscore. *)
Definition stored_name (name : list Z) : list Z :=
  match name with
  | c :: name' => if c =? 95 then name' else name
  | [] => name
  end.

(** One turn of the loop over the files. *)
Definition add_file (rootino : Z) (f : hfile) : MK unit :=
  assert (bool_decide (47 ∉ h_name f)) ;;
  if negb (h_open f) then mk_exit
  else
    inum ← ialloc T_FILE;
    iappend rootino (dirent inum (stored_name (h_name f))) ;;
    for_each (h_reads f) (iappend inum).

Definition sb_bytes (sb : superblock) : list Z :=
  le_bytes 4 (sb_size sb) ++ le_bytes 4 (sb_nblocks sb) ++ le_bytes 4 (sb_ninodes sb) ++ le_bytes 4 (sb_nlog sb) ++
  le_bytes 4 (sb_logstart sb) ++ le_bytes 4 (sb_inodestart sb) ++ le_bytes 4 (sb_bmapstart sb).

(** The empty image: the super block, and zeros. *)
Definition empty_image : MK unit :=
  modify (set_img []) ;;
  let nmeta := 2 + nlog + ninodeblocks + nbitmap in
  let nblocks := FSSIZE - nmeta in
  let sb := SuperBlock (xint FSSIZE) (xint nblocks) (xint NINODES) (xint nlog) (xint 2) (xint (2 + nlog))
              (xint (2 + nlog + ninodeblocks)) in
  modify (set_msb sb) ;;
  modify (set_freeblock nmeta) ;;
  for_each (seqZ 0 FSSIZE) (fun i => wsect i zero_block) ;;
  wsect 1 (splice zero_block 0 (sb_bytes sb)).

(** The root directory with its two entries. *)
Definition make_root : MK Z :=
  rootino ← ialloc T_DIR;
  assert (rootino =? ROOTINO) ;;
  iappend rootino (dirent rootino [46]) ;;
  iappend rootino (dirent rootino [46; 46]) ;;
  mret rootino.

(** The size of the root directory in whole blocks. *)
Definition fix_root (rootino : Z) : MK unit :=
  din ← rinode rootino;
  let off := xint (d_size din) in
  let off := u32 ((off / BSIZE + 1) * BSIZE) in
  winode rootino (set_d_size (xint off) din).

(** [argv] from argv[1] on. *)
Definition main (argv : list hfile) : MK unit :=
  match argv with
  | [] => mk_exit
  | out :: files =>
      assert (BSIZE mod DINODE =? 0) ;;
      assert (BSIZE mod DIRENT =? 0) ;;
      if negb (h_open out) then mk_exit
      else
        empty_image ;;
        rootino ← make_root;
        for_each files (add_file rootino) ;;
        fix_root rootino ;;
        b ← gets freeblock;
        balloc b
  end.

(** The variables as the program starts. *)
Definition mkfs_start : mkfs := Mkfs [] (SuperBlock 0 0 0 0 0 0 0) 1 0.

(** The host has refused a call in the last state but for what the write left. *)
Inductive host_error : mkfs -> Prop :=
  | err_lseek s sec : h_lseek (img s) sec = false -> host_error s
  | err_read s sec : h_read (img s) sec = false -> host_error s
  | err_write s sec buf torn : h_write (img s) sec buf = Some torn -> host_error (set_img torn s).

(** [E] allows mkfs to exit when that happens. *)
Class Refusable (E : stop -> mkfs -> Prop) : Prop := refused s : host_error s -> E Exited s.

(** ** The layout *)

Definition mk_sb : superblock := SuperBlock 1000 941 200 30 2 32 58.

#[local] Instance mk_laws : TxStoreLaws (lstate rstore) := log_tx_laws 32.

Lemma mk_sb_ok : sb_ok mk_sb 1000.
Proof. split; vm_compute; (done || lia). Qed.

Lemma xint_id x : in_u32 x -> xint x = x.
Proof.
  unfold in_u32, xint, u8. intros Hx. cbn [le_val]. rewrite !Z.shiftr_div_pow2 by lia.
  change (2 ^ 8) with 256. change (2 ^ 16) with 65536. change (2 ^ 24) with 16777216. change (2 ^ 32) with 4294967296 in Hx.
  Z.to_euclidean_division_equations. lia.
Qed.

Lemma xshort_id x : in_u16 x -> xshort x = x.
Proof.
  unfold in_u16, xshort, u8. intros Hx. cbn [le_val]. rewrite !Z.shiftr_div_pow2 by lia.
  change (2 ^ 8) with 256. change (2 ^ 16) with 65536 in Hx. Z.to_euclidean_division_equations. lia.
Qed.

Lemma sect_id sec : 0 <= sec < 2 ^ 22 -> sect sec = Z.to_nat sec.
Proof.
  intros H. unfold sect. change BSIZE with 512. change (2 ^ 22) with 4194304 in H.
  rewrite u32_small by (unfold in_u32; lia). by rewrite Z.div_mul.
Qed.

(** ** The disk on which the blocks given out are marked *)

Definition vdisk (l : list block) (n : Z) : list block := <[58%nat := first_bits n]> l.

Lemma first_bits_S n : 0 <= n -> first_bits (n + 1) = set_bit (first_bits n) n.
Proof. intros Hn. unfold first_bits. rewrite seqZ_app by lia. rewrite foldl_app. done. Qed.

Lemma first_bits_ok n : 0 <= n < 4096 -> block_ok (first_bits n).
Proof.
  intros Hn. assert (Hn' : n < 4096) by lia. destruct Hn as [Hn _]. revert n Hn Hn'. apply (natlike_ind (fun n => n < 4096 -> block_ok (first_bits n))).
  - intros _. apply zero_block_ok.
  - intros n Hn IH Hlt. rewrite <- Z.add_1_r, first_bits_S by done. apply set_bit_ok; [apply IH; lia|]. unfold BPB, BSIZE. lia.
Qed.

Lemma length_vdisk l n : length (vdisk l n) = length l.
Proof. apply length_insert. Qed.

Lemma vdisk_ok l n : Forall block_ok l -> 0 <= n <= 1000 -> Forall block_ok (vdisk l n).
Proof. intros Hl Hn. apply Forall_insert; [done|]. apply first_bits_ok. lia. Qed.

Lemma vdisk_insert l n x b : x <> 58 -> 0 <= x -> vdisk (<[Z.to_nat x := b]> l) n = <[Z.to_nat x := b]> (vdisk l n).
Proof. intros Hx H0. unfold vdisk. apply list_insert_insert_ne. lia. Qed.

Lemma vdisk_lookup l n x : x <> 58 -> 0 <= x -> vdisk l n !! Z.to_nat x = l !! Z.to_nat x.
Proof. intros Hx H0. unfold vdisk. by rewrite list_lookup_insert_ne by lia. Qed.

Lemma dat_vdisk l n x : x <> 58 -> 0 <= x -> dat (vdisk l n) x = dat l x.
Proof. intros Hx H0. unfold dat. by rewrite vdisk_lookup. Qed.

Lemma BBLOCK_mk x : 0 <= x < 1000 -> BBLOCK x mk_sb = 58 /\ x mod BPB = x.
Proof.
  intros Hx. unfold BBLOCK. change BPB with 4096. rewrite Z.div_small, Z.mod_small by lia. done.
Qed.

Lemma vdisk_S l n : length l = 1000%nat -> 0 <= n < 1000 -> mark (vdisk l n) mk_sb n = vdisk l (n + 1).
Proof.
  intros Hl Hn. unfold mark. destruct (BBLOCK_mk n Hn) as [-> ->]. change (Z.to_nat 58) with 58%nat. unfold vdisk.
  rewrite list_lookup_insert_eq by lia. cbn [default id]. by rewrite list_insert_insert_eq, first_bits_S by lia.
Qed.

Lemma used_vdisk l n x : length l = 1000%nat -> Forall block_ok l -> 0 <= n <= 1000 -> 0 <= x < 1000 ->
  used (vdisk l n) mk_sb x = (x <? n).
Proof.
  intros Hl Hok Hn Hx. assert (Hn' : n <= 1000) by lia. destruct Hn as [Hn _]. revert n Hn Hn'.
  apply (natlike_ind (fun n => n <= 1000 -> used (vdisk l n) mk_sb x = (x <? n))).
  - intros _. unfold used. destruct (BBLOCK_mk x Hx) as [-> ->]. change (Z.to_nat 58) with 58%nat. unfold vdisk.
    rewrite list_lookup_insert_eq by lia. cbn [default id]. change (first_bits 0) with zero_block. rewrite byte_zero, Z.testbit_0_l. symmetry. apply Z.ltb_ge. lia.
  - intros n Hn IH Hlt. rewrite <- Z.add_1_r, <- vdisk_S by (done || lia).
    rewrite (used_mark mk_sb 1000 mk_sb_ok), IH; change (sb_size mk_sb) with 1000; try lia.
    + by rewrite length_vdisk.
    + apply vdisk_ok; (done || lia).
Qed.

(** ** The image while it is filled *)

(** The blocks from [fb] on are free and still zero. *)
Record sane (l : list block) (fb : Z) : Prop := {
  sn_len : length l = 1000%nat;
  sn_ok : Forall block_ok l;
  sn_fb : 59 <= fb <= 1000;
  sn_zero x : fb <= x < 1000 -> l !! Z.to_nat x = Some zero_block
}.

Section sane.
Context (l : list block) (fb : Z) (Hs : sane l fb).

Lemma sane_used x : 0 <= x < 1000 -> used (vdisk l fb) mk_sb x = (x <? fb).
Proof. intros Hx. destruct Hs. apply used_vdisk; (done || lia). Qed.

Lemma sane_vok : Forall block_ok (vdisk l fb) /\ length (vdisk l fb) = 1000%nat.
Proof. destruct Hs. split; [apply vdisk_ok; (done || lia)|by rewrite length_vdisk]. Qed.

Lemma sane_data x : data_used mk_sb (vdisk l fb) x <-> 59 <= x < fb.
Proof.
  pose proof (sn_fb _ _ Hs). unfold data_used. change (data_start mk_sb) with 59. change (sb_size mk_sb) with 1000. split.
  - intros [Hx Hu]. rewrite sane_used in Hu by lia. lia.
  - intros Hx. split; [lia|]. rewrite sane_used; lia.
Qed.

Lemma sane_fresh : fb < 1000 -> fresh mk_sb (vdisk l fb) fb.
Proof.
  intros Hlt. pose proof (sn_fb _ _ Hs). split; [change (data_start mk_sb) with 59; change (sb_size mk_sb) with 1000; lia|].
  rewrite sane_used; lia.
Qed.

Lemma sane_meta : meta_used mk_sb (vdisk l fb).
Proof. intros x Hx. change (data_start mk_sb) with 59 in Hx. pose proof (sn_fb _ _ Hs). rewrite sane_used; lia. Qed.

Lemma sane_alloc : fb < 1000 -> allocated mk_sb (vdisk l fb) fb = vdisk l (fb + 1) /\ sane l (fb + 1).
Proof.
  intros Hlt. destruct Hs as [H1 H2 H3 H4]. unfold allocated. rewrite vdisk_S by (done || lia). split.
  - apply list_insert_id. rewrite vdisk_lookup by lia. apply H4. lia.
  - split; try done; [lia|]. intros x Hx. apply H4. lia.
Qed.

Lemma sane_write x d : 59 <= x < fb -> block_ok d -> sane (<[Z.to_nat x := d]> l) fb.
Proof.
  intros Hx Hd. destruct Hs as [H1 H2 H3 H4]. split; [by rewrite length_insert|by apply Forall_insert|done|].
  intros y Hy. rewrite list_lookup_insert_ne by lia. by apply H4.
Qed.

Lemma sane_dat x : 0 <= x < 1000 -> l !! Z.to_nat x = Some (dat l x) /\ block_ok (dat l x).
Proof.
  intros Hx. destruct Hs as [H1 H2 H3 H4]. destruct (lookup_lt_is_Some_2 l (Z.to_nat x)) as [d Hd]; [lia|].
  unfold dat. rewrite Hd. split; [done|]. by apply (Forall_lookup_1 _ _ _ _ H2 Hd).
Qed.

End sane.

(** Reading and writing blocks of the image. *)
Lemma wpe_rsect s x (Q : block -> mkfs -> Prop) E {RE : Refusable E} :
  length (img s) = 1000%nat -> 0 <= x < 2 ^ 22 ->
  (x < 1000 -> Q (dat (img s) x) s) -> (1000 <= x -> E Exited s) -> wpe (rsect x) s Q E.
Proof.
  intros Hl Hx HQ HE. unfold rsect. apply wpe_bind, wpe_get. rewrite sect_id by done. unfold dat in HQ.
  destruct (h_lseek _ _) eqn:H1; [|by eapply refused, err_lseek]. destruct (h_read _ _) eqn:H2; [|by eapply refused, err_read]. cbn [negb].
  destruct (img s !! Z.to_nat x) as [d|] eqn:Hd.
  - apply lookup_lt_Some in Hd as Hlt. apply wpe_ret, HQ. lia.
  - apply lookup_ge_None in Hd. apply HE. lia.
Qed.

Lemma wpe_wsect s x d (Q : unit -> mkfs -> Prop) E {RE : Refusable E} :
  length (img s) = 1000%nat -> 0 <= x < 1000 -> Q tt (set_img (<[Z.to_nat x := d]> (img s)) s) -> wpe (wsect x d) s Q E.
Proof.
  intros Hl Hx HQ. unfold wsect. apply wpe_bind, wpe_get. cbv zeta. rewrite sect_id, (proj2 (Nat.ltb_lt _ _)) by lia.
  destruct (h_lseek _ _) eqn:H1; [|by eapply refused, err_lseek]. cbn [negb].
  destruct (h_write _ _ _) as [torn|] eqn:H2; [|by apply wpe_put]. apply wpe_bind, wpe_put. by eapply refused, err_write.
Qed.

Lemma wpe_next_block s (Q : Z -> mkfs -> Prop) E :
  0 <= freeblock s <= 1000 -> Q (freeblock s) (set_freeblock (freeblock s + 1) s) -> wpe next_block s Q E.
Proof.
  intros Hf HQ. unfold next_block. apply wpe_bind, wpe_gets. apply wpe_bind, wpe_modify. apply wpe_ret.
  rewrite u32_small by (unfold in_u32; lia). done.
Qed.

Lemma wpe_assert (b : bool) (s : mkfs) (Q : unit -> mkfs -> Prop) E :
  (b = true -> Q tt s) -> (b = false -> E (Panicked "assert") s) -> wpe (assert b) s Q E.
Proof. unfold assert. destruct b; intros H1 H2; [by apply wpe_ret, H1|by apply H2]. Qed.

(** ** Blocks for a file *)

Lemma sane_addr l fb di n : sane l fb -> wf_file mk_sb (vdisk l fb) di -> 0 <= n < MAXFILE -> 0 <= addr (vdisk l fb) di n < 1000.
Proof.
  intros Hs Hwf Hn. destruct (decide (addr (vdisk l fb) di n = 0)) as [->|H0]; [lia|].
  pose proof (wf_addr _ _ _ Hwf n Hn H0) as Hu. apply (sane_data l fb Hs) in Hu. pose proof (sn_fb _ _ Hs). lia.
Qed.

Lemma sane_ind l fb di : sane l fb -> wf_file mk_sb (vdisk l fb) di -> 0 <= ind di < 1000 /\ (ind di <> 0 -> 59 <= ind di < fb).
Proof.
  intros Hs Hwf. destruct (decide (ind di = 0)) as [->|H0]; [lia|].
  pose proof (wf_ind _ _ _ Hwf H0) as Hu. apply (sane_data l fb Hs) in Hu. pose proof (sn_fb _ _ Hs). lia.
Qed.

(** A step that takes the next block gives it to one part, or to the indirect
    block. *)
Lemma grows_only l l' fb di di' n :
  sane l fb -> sane l' (fb + 1) -> wf_file mk_sb (vdisk l fb) di -> file_grows mk_sb (vdisk l fb) di (vdisk l' (fb + 1)) di' ->
  0 <= n < MAXFILE -> addr (vdisk l' (fb + 1)) di' n <> 0 -> addr (vdisk l fb) di n <> 0 \/ addr (vdisk l' (fb + 1)) di' n = fb.
Proof.
  intros Hs Hs' Hwf Hg Hn Ha. set (D := vdisk l fb) in *. set (D' := vdisk l' (fb + 1)) in *.
  pose proof (gr_ext _ _ _ _ _ Hg) as Hx. pose proof (ex_wf _ _ _ _ _ Hx) as Hwf'.
  destruct (ex_owned _ _ _ _ _ Hx (addr D' di' n)) as [[_ [E|(m & Hm & E)]]|[Hr Hf]].
  - split; [done|]. right. by exists n.
  - exfalso. assert (Hi : ind di <> 0) by congruence. pose proof (ex_ind _ _ _ _ _ Hx Hi) as Ei.
    apply (wf_ind_ne _ _ _ Hwf' n Hn); congruence.
  - left. assert (Em : addr D' di' m = addr D di m) by (apply (gr_addr _ _ _ _ _ Hg); congruence).
    assert (n = m) as -> by (apply (wf_inj _ _ _ Hwf'); congruence). congruence.
  - right. pose proof (wf_addr _ _ _ Hwf' n Hn Ha) as Hu. apply (sane_data l' _ Hs') in Hu.
    change (sb_size mk_sb) with 1000 in Hr. unfold D in Hf. rewrite (sane_used l fb Hs) in Hf by lia. lia.
Qed.

(** The number of blocks that part [fbn] still needs. *)
Definition need (D : list block) (di : dinode) (fbn : Z) : Z :=
  if addr D di fbn =? 0 then (if (NDIRECT <=? fbn) && (ind di =? 0) then 2 else 1) else 0.

(** [l'] and [di'] come from [l] and [di] by giving part [fbn] a block. *)
Record given (l : list block) (fb : Z) (di : dinode) (fbn : Z) (l' : list block) (fb' : Z) (di' : dinode) : Prop := {
  gv_sane : sane l' fb';
  gv_grows : file_grows mk_sb (vdisk l fb) di (vdisk l' fb') di';
  gv_here : addr (vdisk l' fb') di' fbn <> 0;
  gv_only n : 0 <= n < MAXFILE -> addr (vdisk l' fb') di' n <> 0 -> n = fbn \/ addr (vdisk l fb) di n <> 0;
  gv_ind : ind di' <> 0 <-> ind di <> 0 \/ NDIRECT <= fbn;
  gv_low x : 0 <= x < 59 -> l' !! Z.to_nat x = l !! Z.to_nat x
}.

Lemma given_refl l fb di fbn : sane l fb -> wf_file mk_sb (vdisk l fb) di -> addr (vdisk l fb) di fbn <> 0 -> 0 <= fbn ->
  given l fb di fbn l fb di.
Proof.
  intros Hs Hwf Ha Hn. split; try done; [by apply file_grows_refl|by right|]. split; [by left|]. intros [?|Hd]; [done|].
  unfold addr in Ha. rewrite (proj2 (Z.ltb_ge _ _)) in Ha by done. by destruct (Z.eqb_spec (ind di) 0).
Qed.

Lemma given_direct l fb di fbn : sane l fb -> wf_file mk_sb (vdisk l fb) di -> 0 <= fbn < NDIRECT -> addr_of di fbn = 0 -> fb < 1000 ->
  given l fb di fbn l (fb + 1) (with_addr di fbn fb) /\ addr_of (with_addr di fbn fb) fbn = fb.
Proof.
  intros Hs Hwf Hn H0 Hlt. destruct (sane_vok l fb Hs) as [Hok Hlen]. pose proof (sn_fb _ _ Hs) as Hfb.
  pose proof (grow_direct mk_sb 1000 mk_sb_ok (vdisk l fb) di fb Hwf Hlen Hok (sane_fresh l fb Hs Hlt) fbn Hn H0) as Hg.
  destruct (sane_alloc l fb Hs Hlt) as [Ea Hs']. rewrite Ea in Hg. change NDIRECT with 12 in *.
  assert (E : forall m, 0 <= m -> addr_of (with_addr di fbn fb) m = if m =? fbn then fb else addr_of di m)
    by (intros m Hm; apply (addr_of_with mk_sb 1000 (vdisk l fb)); (done || lia)).
  assert (Eh : addr (vdisk l (fb + 1)) (with_addr di fbn fb) fbn = fb).
  { unfold addr. change NDIRECT with 12. rewrite (proj2 (Z.ltb_lt _ _)), E, Z.eqb_refl by lia. done. }
  split; [|by rewrite E, Z.eqb_refl by lia]. split; try done.
  - rewrite Eh. lia.
  - intros n Hn' Ha. destruct (grows_only l l fb di _ n Hs Hs' Hwf Hg Hn' Ha) as [?|En]; [by right|left].
    apply (wf_inj _ _ _ (ex_wf _ _ _ _ _ (gr_ext _ _ _ _ _ Hg))); [done|change MAXFILE with 140; lia|lia|congruence].
  - unfold ind. rewrite E by (change NDIRECT with 12; lia). change NDIRECT with 12. rewrite (proj2 (Z.eqb_neq 12 fbn)) by lia.
    split; [by left|]. intros [?|?]; [done|lia].
Qed.

(** The indirect block is taken first, then the block of the part. *)
Lemma given_ind_block l fb di : sane l fb -> wf_file mk_sb (vdisk l fb) di -> ind di = 0 -> fb < 1000 ->
  let di' := with_addr di NDIRECT fb in
  sane l (fb + 1) /\ file_grows mk_sb (vdisk l fb) di (vdisk l (fb + 1)) di' /\ ind di' = fb /\
  forall n, 0 <= n < MAXFILE -> addr (vdisk l (fb + 1)) di' n = addr (vdisk l fb) di n.
Proof.
  intros Hs Hwf H0 Hlt di'. destruct (sane_vok l fb Hs) as [Hok Hlen]. pose proof (sn_fb _ _ Hs) as Hfb.
  pose proof (grow_ind_block mk_sb 1000 mk_sb_ok (vdisk l fb) di fb Hwf Hlen Hok (sane_fresh l fb Hs Hlt) H0) as Hg.
  destruct (sane_alloc l fb Hs Hlt) as [Ea Hs']. rewrite Ea in Hg. fold di' in Hg.
  assert (Ei : ind di' = fb).
  { unfold ind, di'. rewrite (addr_of_with mk_sb 1000 (vdisk l fb)) by (done || (change NDIRECT with 12; lia)). by rewrite Z.eqb_refl. }
  split_and!; try done. intros n Hn. destruct (decide (addr (vdisk l fb) di n = 0)) as [E|Hne]; [|by apply (gr_addr _ _ _ _ _ Hg)].
  rewrite E. apply dec_stable. intros Ha. destruct (grows_only l l fb di di' n Hs Hs' Hwf Hg Hn Ha) as [?|En]; [done|].
  apply (wf_ind_ne _ _ _ (ex_wf _ _ _ _ _ (gr_ext _ _ _ _ _ Hg)) n Hn); [lia|congruence].
Qed.

Lemma given_indirect l fb di fbn :
  sane l fb -> wf_file mk_sb (vdisk l fb) di -> ind di <> 0 -> NDIRECT <= fbn < MAXFILE ->
  addr (vdisk l fb) di fbn = 0 -> fb < 1000 ->
  let l' := <[Z.to_nat (ind di) := put32 (dat l (ind di)) (4 * Z.to_nat (fbn - NDIRECT)) fb]> l in
  given l fb di fbn l' (fb + 1) di /\ addr (vdisk l' (fb + 1)) di fbn = fb.
Proof.
  intros Hs Hwf Hi Hn H0 Hlt l'. destruct (sane_vok l fb Hs) as [Hok Hlen]. pose proof (sn_fb _ _ Hs) as Hfb.
  destruct (sane_ind l fb di Hs Hwf) as [_ Hir]. specialize (Hir Hi). change MAXFILE with 140 in *. change NDIRECT with 12 in *.
  assert (Hk : 0 <= fbn - 12 < NINDIRECT) by (change NINDIRECT with 128; lia).
  assert (Hw : word_at (dat (vdisk l fb) (ind di)) (fbn - 12) = 0).
  { unfold addr in H0. change NDIRECT with 12 in H0. by rewrite (proj2 (Z.ltb_ge _ _)), (proj2 (Z.eqb_neq _ _) Hi) in H0 by lia. }
  pose proof (grow_indirect mk_sb 1000 mk_sb_ok (vdisk l fb) di fb Hwf Hlen Hok (sane_fresh l fb Hs Hlt) _ Hi Hk Hw) as Hg.
  pose proof (indirect_at mk_sb 1000 mk_sb_ok (vdisk l fb) di fb Hwf Hlen Hok (sane_fresh l fb Hs Hlt) _ Hi Hk) as Eh.
  destruct (sane_alloc l fb Hs Hlt) as [Ea Hs']. rewrite Ea, dat_vdisk in Hg, Eh by lia.
  rewrite <- vdisk_insert in Hg, Eh by lia. fold l' in Hg, Eh. replace (fbn - 12 + NDIRECT) with fbn in Eh by (change NDIRECT with 12; lia).
  assert (Hs2 : sane l' (fb + 1)).
  { apply sane_write; [done|lia|]. apply put32_ok; [by apply (sane_dat l fb Hs); lia|]. change NINDIRECT with 128 in Hk. change (Z.to_nat BSIZE) with 512%nat. lia. }
  split; [|done]. split; try done.
  - rewrite Eh. lia.
  - intros n Hn' Ha. destruct (grows_only l l' fb di _ n Hs Hs2 Hwf Hg Hn' Ha) as [?|En]; [by right|left].
    apply (wf_inj _ _ _ (ex_wf _ _ _ _ _ (gr_ext _ _ _ _ _ Hg))); [done|change MAXFILE with 140; lia|lia|congruence].
  - split; [by left|done].
  - intros x Hx. unfold l'. by rewrite list_lookup_insert_ne by lia.
Qed.

(** After the indirect block and the block of the part. *)
Lemma given_both l fb di fbn l' fb' di1 di' :
  file_grows mk_sb (vdisk l fb) di (vdisk l (fb + 1)) di1 -> ind di = 0 ->
  (forall n, 0 <= n < MAXFILE -> addr (vdisk l (fb + 1)) di1 n = addr (vdisk l fb) di n) -> NDIRECT <= fbn ->
  given l (fb + 1) di1 fbn l' fb' di' -> given l fb di fbn l' fb' di'.
Proof.
  intros Hg1 H0 Ea Hn [G1 G2 G3 G4 G5 G6]. split; try done.
  - eapply (file_grows_trans mk_sb 1000 mk_sb_ok); [exact Hg1|exact G2].
  - intros n Hn' Ha. rewrite <- Ea by done. by apply G4.
  - rewrite G5. split; by right.
Qed.

Section block_for.
Context (s : mkfs) (di : dinode) (fbn : Z) (Q : dinode * Z -> mkfs -> Prop) (E : stop -> mkfs -> Prop) {RE : Refusable E}.
Hypothesis Hs : sane (img s) (freeblock s).
Hypothesis Hwf : wf_file mk_sb (vdisk (img s) (freeblock s)) di.
Hypothesis Hn : 0 <= fbn < MAXFILE.
Let D := vdisk (img s) (freeblock s).
Hypothesis Hgood : freeblock s + need D di fbn <= 1000 -> forall l' di', let fb' := freeblock s + need D di fbn in
  given (img s) (freeblock s) di fbn l' fb' di' -> Q (di', addr (vdisk l' fb') di' fbn) (Mkfs l' (msb s) (freeinode s) fb').
Hypothesis Hfull : 1000 < freeblock s + need D di fbn ->
  (forall w s', E w s') /\ forall di' s', length (img s') = 1000%nat -> Q (di', 1000) s'.

Lemma block_for_direct : fbn < NDIRECT -> wpe (block_for di fbn) s Q E.
Proof.
  intros Hd. pose proof (sn_fb _ _ Hs) as Hfb. pose proof (sane_addr _ _ di fbn Hs Hwf Hn) as Har. fold D in Har.
  assert (Ea : addr D di fbn = addr_of di fbn) by (unfold addr; by rewrite (proj2 (Z.ltb_lt _ _)) by done).
  unfold block_for. rewrite (proj2 (Z.ltb_lt _ _)) by done. rewrite (xint_id (addr_of di fbn)) by (unfold in_u32; lia). apply wpe_bind.
  assert (Hneed : need D di fbn = if addr_of di fbn =? 0 then 1 else 0).
  { unfold need. by rewrite Ea, (proj2 (Z.leb_gt _ _)) by done. }
  rewrite Hneed in Hgood, Hfull. destruct (Z.eqb_spec (addr_of di fbn) 0) as [H0|H0].
  - apply wpe_bind, wpe_next_block; [lia|]. apply wpe_ret. apply wpe_ret. rewrite (xint_id (freeblock s)) by (unfold in_u32; lia).
    change NDIRECT with 12 in Hd. pose proof (addr_of_with mk_sb 1000 D di Hwf ltac:(by apply sane_vok) fbn (freeblock s) fbn ltac:(lia) ltac:(lia)) as Ew.
    rewrite Z.eqb_refl in Ew. destruct (decide (freeblock s = 1000)) as [E1|].
    + rewrite Ew, xint_id by (unfold in_u32; lia). rewrite E1. apply Hfull; [lia|apply Hs].
    + destruct (given_direct (img s) (freeblock s) di fbn Hs Hwf ltac:(change NDIRECT with 12; lia) H0 ltac:(lia)) as [Hg _].
      rewrite Ew, xint_id by (unfold in_u32; lia). pose proof (Hgood ltac:(lia) _ _ Hg) as HQ.
      unfold addr in HQ. change NDIRECT with 12 in HQ. rewrite (proj2 (Z.ltb_lt _ _)), Ew in HQ by lia. by destruct s.
  - apply wpe_ret. apply wpe_ret. rewrite xint_id by (unfold in_u32; lia). rewrite Z.add_0_r in Hgood.
    pose proof (Hgood ltac:(lia) (img s) di) as HQ. rewrite <- Ea. cbv zeta in HQ. fold D in HQ.
    destruct s as [l sb fi fb]. apply HQ. apply given_refl; [done|done|fold D; congruence|lia].
Qed.

(** The entry of the indirect block. *)
Lemma block_for_entry l fb di1 : sane l fb -> wf_file mk_sb (vdisk l fb) di1 -> ind di1 <> 0 -> NDIRECT <= fbn ->
  let k := if addr (vdisk l fb) di1 fbn =? 0 then 1 else 0 in
  (fb + k <= 1000 -> forall l' di', given l fb di1 fbn l' (fb + k) di' ->
     Q (di', addr (vdisk l' (fb + k)) di' fbn) (Mkfs l' (msb s) (freeinode s) (fb + k))) ->
  (1000 < fb + k -> forall di' s', length (img s') = 1000%nat -> Q (di', 1000) s') ->
  wpe (indirect ← rsect (xint (addr_of di1 NDIRECT));
       indirect ← (if word_at indirect (fbn - NDIRECT) =? 0 then
                  b ← next_block;
                  let indirect := put32 indirect (4 * Z.to_nat (fbn - NDIRECT)) (xint b) in
                  wsect (xint (addr_of di1 NDIRECT)) indirect ;;
                  mret indirect
                else mret indirect);
       mret (di1, xint (word_at indirect (fbn - NDIRECT)))) (Mkfs l (msb s) (freeinode s) fb) Q E.
Proof.
  intros Hs1 Hwf1 Hi Hd k HQ1 HQ2. pose proof (sn_fb _ _ Hs1) as Hfb. destruct (sane_ind l fb di1 Hs1 Hwf1) as [_ Hir]. specialize (Hir Hi).
  change (addr_of di1 NDIRECT) with (ind di1). rewrite (xint_id (ind di1)) by (unfold in_u32; lia).
  change NDIRECT with 12 in *. change MAXFILE with 140 in *.
  destruct (sane_dat l fb Hs1 (ind di1) ltac:(lia)) as [_ Hbok].
  assert (Ea : addr (vdisk l fb) di1 fbn = word_at (dat l (ind di1)) (fbn - 12)).
  { unfold addr. change NDIRECT with 12. rewrite (proj2 (Z.ltb_ge _ _)), (proj2 (Z.eqb_neq _ _) Hi), dat_vdisk by lia. done. }
  pose proof (sane_addr l fb di1 fbn Hs1 Hwf1 ltac:(change MAXFILE with 140; lia)) as Har.
  apply wpe_bind; apply (wpe_rsect _ _ _ E); cbn [img]; [apply Hs1|lia| |lia]. intros _. apply wpe_bind. rewrite <- Ea. unfold k in *.
  destruct (Z.eqb_spec (addr (vdisk l fb) di1 fbn) 0) as [H0|H0].
  - apply wpe_bind, wpe_next_block; cbn [freeblock]; [lia|]. cbv zeta. rewrite (xint_id fb) by (unfold in_u32; lia).
    apply wpe_bind; apply (wpe_wsect _ _ _ _ E); cbn [img set_freeblock]; [apply Hs1|lia|]. apply wpe_ret. apply wpe_ret.
    rewrite (word_put 1000 (vdisk l fb)); [|by apply sane_vok|done|change NINDIRECT with 128; lia|change NINDIRECT with 128; lia|unfold in_u32; lia].
    rewrite Z.eqb_refl, xint_id by (unfold in_u32; lia). destruct (decide (fb = 1000)) as [E1|].
    + rewrite E1. apply HQ2; [lia|]. cbn [img set_img set_freeblock]. rewrite length_insert. apply Hs1.
    + destruct (given_indirect l fb di1 fbn Hs1 Hwf1 Hi ltac:(change MAXFILE with 140; change NDIRECT with 12; lia) H0 ltac:(lia)) as [Hg Eg].
      pose proof (HQ1 ltac:(lia) _ _ Hg) as HQ. rewrite Eg in HQ. exact HQ.
  - apply wpe_ret. apply wpe_ret. rewrite <- Ea, xint_id by (unfold in_u32; lia). rewrite Z.add_0_r in HQ1.
    apply HQ1; [lia|]. apply given_refl; (done || lia).
Qed.

Lemma block_for_spec : wpe (block_for di fbn) s Q E.
Proof.
  destruct (Z.lt_ge_cases fbn NDIRECT) as [Hd|Hd]; [by apply block_for_direct|].
  pose proof (sn_fb _ _ Hs) as Hfb. destruct (sane_ind _ _ di Hs Hwf) as [Hi _].
  unfold block_for. rewrite (proj2 (Z.ltb_ge _ _)) by done. change (addr_of di NDIRECT) with (ind di).
  rewrite (xint_id (ind di)) by (unfold in_u32; lia). apply wpe_bind.
  destruct (Z.eqb_spec (ind di) 0) as [H0|H0].
  - assert (Ea : addr D di fbn = 0) by (unfold addr; by rewrite (proj2 (Z.ltb_ge _ _)), H0 by done).
    assert (Hneed : need D di fbn = 2) by (unfold need; by rewrite Ea, H0, (proj2 (Z.leb_le _ _) Hd)).
    rewrite Hneed in Hgood, Hfull. apply wpe_bind, wpe_next_block; [lia|]. apply wpe_ret.
    rewrite (xint_id (freeblock s)) by (unfold in_u32; lia).
    destruct (decide (freeblock s = 1000)) as [E1|].
    + apply wpe_bind; apply (wpe_rsect _ _ _ E); cbn [img set_freeblock]; [apply Hs| | |]; change (addr_of ?d NDIRECT) with (ind d);
        unfold ind; rewrite (addr_of_with mk_sb 1000 D) by (done || apply sane_vok, Hs || (change NDIRECT with 12; lia));
        rewrite Z.eqb_refl, E1, xint_id by (unfold in_u32; lia); try lia. intros _. apply Hfull. lia.
    + destruct (given_ind_block (img s) (freeblock s) di Hs Hwf H0 ltac:(lia)) as (Hs1 & Hg1 & Ei & Ea1).
      apply (block_for_entry (img s) (freeblock s + 1)); try done; [apply (ex_wf _ _ _ _ _ (gr_ext _ _ _ _ _ Hg1))|lia|..];
        rewrite Ea1 by done; fold D; rewrite Ea; cbn [Z.eqb].
      * intros Hle l' di' Hg. replace (freeblock s + 1 + 1) with (freeblock s + 2) in * by lia. apply Hgood; [lia|]. by eapply given_both.
      * intros Hlt. apply Hfull. lia.
  - apply wpe_ret. assert (Hneed : need D di fbn = if addr D di fbn =? 0 then 1 else 0).
    { unfold need. by rewrite (proj2 (Z.eqb_neq _ _) H0), andb_false_r. }
    rewrite Hneed in Hgood, Hfull. pose proof (block_for_entry (img s) (freeblock s) di Hs Hwf H0 Hd) as Hb.
    destruct s as [l sb fi fb]. apply Hb; [done|]. intros Hlt. by apply Hfull.
Qed.

End block_for.

(** ** iappend *)

(** How many blocks a file of [sz] bytes takes. *)
Definition nblk (sz : Z) : Z := (sz + 511) / 512.
Definition cost (sz : Z) : Z := nblk sz + (if NDIRECT <? nblk sz then 1 else 0).

(** The file has the blocks that [sz] bytes take, and no more. *)
Record exact (D : list block) (di : dinode) (sz : Z) : Prop := {
  xa_addr n : 0 <= n < MAXFILE -> addr D di n <> 0 <-> n * BSIZE < sz;
  xa_ind : ind di <> 0 <-> NDIRECT * BSIZE < sz
}.

Lemma cost_mono a b : 0 <= a <= b -> 0 <= cost a <= cost b.
Proof.
  intros H. unfold cost, nblk. change NDIRECT with 12.
  destruct (Z.ltb_spec 12 ((a + 511) / 512)), (Z.ltb_spec 12 ((b + 511) / 512)); Z.to_euclidean_division_equations; lia.
Qed.

Lemma need_cost D di off n1 :
  exact D di off -> 0 <= off -> off / BSIZE < MAXFILE -> 0 < n1 <= BSIZE - off mod BSIZE ->
  cost (off + n1) = cost off + need D di (off / BSIZE).
Proof.
  intros [Ha Hi] Ho Hm Hn. unfold need. specialize (Ha (off / BSIZE)). unfold cost, nblk.
  change BSIZE with 512 in *. change NDIRECT with 12 in *. change MAXFILE with 140 in *.
  assert (Hq : 0 <= off / 512) by (apply Z.div_pos; lia). specialize (Ha ltac:(lia)).
  destruct (Z.eqb_spec (addr D di (off / 512)) 0) as [E1|E1]; destruct (Z.eqb_spec (ind di) 0) as [E2|E2];
    destruct (Z.leb_spec 12 (off / 512)); cbn [andb];
    destruct (Z.ltb_spec 12 ((off + 511) / 512)), (Z.ltb_spec 12 ((off + n1 + 511) / 512));
    Z.to_euclidean_division_equations; lia.
Qed.

(** The lemmas on chunks of files speak of a file system; this one has the
    super block of the image. *)
Definition mk_view : fstate (lstate rstore) :=
  FState (LState (RStore [] [] ∅ ∅ None) (Log false 0 0 0 0 0 0 [] 0)) false
    [Inode 0 0 0 (SleepLock 0 false "inode" 0 0) 0 (DInode 0 0 0 0 0 [])] mk_sb 0.

Lemma mk_view_one : (0 < length (icache mk_view))%nat.
Proof. cbn. lia. Qed.

Section chunk.
Context (l : list block) (fb : Z) (di : dinode) (off : Z) (bs : list Z).
Hypothesis Hs : sane l fb.
Hypothesis Hwf : wf_file mk_sb (vdisk l fb) di.
Hypothesis Ho : 0 <= off.
Hypothesis Hpart : off / BSIZE < MAXFILE.
Hypothesis Hfit : Z.of_nat (length bs) <= BSIZE - off mod BSIZE.
Hypothesis H8 : Forall in_u8 bs.
Let a := addr (vdisk l fb) di (off / BSIZE).
Hypothesis Ha : a <> 0.
Let l' := <[Z.to_nat a := splice (dat l a) (Z.to_nat (off mod BSIZE)) bs]> l.

Lemma part_pos : 0 <= off / BSIZE < MAXFILE.
Proof. split; [apply Z.div_pos; [done|by vm_compute]|done]. Qed.

Lemma chunk_at : 59 <= a < fb.
Proof. apply (sane_data l fb Hs). apply (wf_addr _ _ _ Hwf); [apply part_pos|done]. Qed.

Lemma chunk_vdisk : vdisk l' fb =
  <[Z.to_nat a := splice (dat (vdisk l fb) a) (Z.to_nat (off mod BSIZE)) bs]> (vdisk l fb).
Proof. pose proof chunk_at. unfold l'. rewrite vdisk_insert, dat_vdisk by lia. done. Qed.

Lemma chunk_written :
  sane l' fb /\ extends mk_sb (vdisk l fb) di (vdisk l' fb) di /\
  (forall o, 0 <= o < MAXFILE * BSIZE -> file_byte (vdisk l' fb) di o = overlay (file_byte (vdisk l fb) di) off bs o) /\
  (forall n, 0 <= n < MAXFILE -> addr (vdisk l' fb) di n = addr (vdisk l fb) di n) /\
  (forall x, 0 <= x < 59 -> l' !! Z.to_nat x = l !! Z.to_nat x).
Proof.
  destruct (sane_vok l fb Hs) as [Hok Hlen]. pose proof chunk_at as Hr. pose proof (sn_fb _ _ Hs).
  destruct (sane_dat l fb Hs a ltac:(lia)) as [_ [Hdl Hd8]]. pose proof (Z.mod_pos_bound off BSIZE ltac:(by vm_compute)).
  rewrite chunk_vdisk. split_and!.
  - apply sane_write; [done|lia|]. split; [|by apply Forall_splice]. rewrite length_splice; [done|].
    rewrite Hdl. change BSIZE with 512 in *. lia.
  - apply (chunk_extends mk_view 0 mk_view_one 1000 mk_sb_ok (vdisk l fb) di off bs); try done; apply part_pos.
  - intros o Hor. apply (chunk_byte mk_view 0 mk_view_one 1000 mk_sb_ok); try done; apply part_pos.
  - intros n Hn. apply (chunk_addr mk_view 0 mk_view_one 1000 mk_sb_ok); try done; apply part_pos.
  - intros x Hx. unfold l'. by rewrite list_lookup_insert_ne by lia.
Qed.

End chunk.

(** Part [off / BSIZE] has its block now. *)
Lemma given_exact l fb di l' fb' di' off n1 :
  exact (vdisk l fb) di off -> 0 <= off -> off / BSIZE < MAXFILE -> 0 < n1 <= BSIZE - off mod BSIZE ->
  given l fb di (off / BSIZE) l' fb' di' -> exact (vdisk l' fb') di' (off + n1).
Proof.
  intros [Ha Hi] Ho Hm Hn [_ G2 G3 G4 G5 _]. split.
  - intros n Hn'. split.
    + intros [->|H0]%G4; [| |done]; [|apply Ha in H0; [lia|done]]. change BSIZE with 512 in *. Z.to_euclidean_division_equations. lia.
    + intros Hlt. destruct (decide (n = off / BSIZE)) as [->|Hne]; [done|].
      assert (Hlo : addr (vdisk l fb) di n <> 0).
      { apply Ha; [done|]. change BSIZE with 512 in *. Z.to_euclidean_division_equations. lia. }
      by rewrite (gr_addr _ _ _ _ _ G2 n Hn' Hlo).
  - rewrite G5, Hi. change BSIZE with 512 in *. change NDIRECT with 12 in *. Z.to_euclidean_division_equations. lia.
Qed.

Lemma exact_same D D' di sz : (forall n, 0 <= n < MAXFILE -> addr D' di n = addr D di n) -> exact D di sz -> exact D' di sz.
Proof. intros E [Ha Hi]. split; [|done]. intros n Hn. rewrite E by done. by apply Ha. Qed.

(** What is left of appending [p] at [off]. *)
Definition appends (l : list block) (fb : Z) (di : dinode) (off : Z) (p : list Z) (l' : list block) (fb' : Z) (di' : dinode) : Prop :=
  sane l' fb' /\ extends mk_sb (vdisk l fb) di (vdisk l' fb') di' /\
  (forall o, 0 <= o < MAXFILE * BSIZE -> file_byte (vdisk l' fb') di' o = overlay (file_byte (vdisk l fb) di) off p o) /\
  exact (vdisk l' fb') di' (off + Z.of_nat (length p)) /\
  (forall x, 0 <= x < 59 -> l' !! Z.to_nat x = l !! Z.to_nat x) /\
  off + Z.of_nat (length p) <= MAXFILE * BSIZE.

Lemma appends_step l fb di off p l1 fb1 di1 n1 l' fb' di' :
  sane l fb -> wf_file mk_sb (vdisk l fb) di -> exact (vdisk l fb) di off -> 0 <= off -> off / BSIZE < MAXFILE ->
  0 < n1 <= BSIZE - off mod BSIZE -> n1 <= Z.of_nat (length p) -> Forall in_u8 p ->
  given l fb di (off / BSIZE) l1 fb1 di1 ->
  let a := addr (vdisk l1 fb1) di1 (off / BSIZE) in
  let l2 := <[Z.to_nat a := splice (dat l1 a) (Z.to_nat (off mod BSIZE)) (take (Z.to_nat n1) p)]> l1 in
  sane l2 fb1 /\ wf_file mk_sb (vdisk l2 fb1) di1 /\ exact (vdisk l2 fb1) di1 (off + n1) /\
  (appends l2 fb1 di1 (off + n1) (drop (Z.to_nat n1) p) l' fb' di' -> appends l fb di off p l' fb' di').
Proof.
  intros Hs Hwf Hx Ho Hm Hn Hnp H8 Hg a l2. pose proof (given_exact _ _ _ _ _ _ _ _ Hx Ho Hm Hn Hg) as Hx1.
  destruct Hg as [G1 G2 G3 G4 G5 G6]. pose proof (gr_ext _ _ _ _ _ G2) as Gx. pose proof (ex_wf _ _ _ _ _ Gx) as Hwf1.
  destruct (chunk_written l1 fb1 di1 off (take (Z.to_nat n1) p)) as (C1 & C2 & C3 & C4 & C5); try done.
  { rewrite length_take. lia. }
  { by apply Forall_take. }
  fold a l2 in C1, C2, C3, C4, C5. pose proof (exact_same _ _ _ _ C4 Hx1) as Hx2.
  split; [done|]. split; [apply C2|]. split; [done|]. intros (A1 & A2 & A3 & A4 & A5 & A6). rewrite length_drop in A4, A6.
  replace (off + n1 + Z.of_nat (length p - Z.to_nat n1)) with (off + Z.of_nat (length p)) in A4, A6 by lia. split_and!; try done.
  - eapply (extends_trans mk_sb 1000 mk_sb_ok); [exact Gx|]. eapply (extends_trans mk_sb 1000 mk_sb_ok); [exact C2|exact A2].
  - intros o Hor. rewrite A3 by done. rewrite <- (take_drop (Z.to_nat n1) p) at 2. rewrite <- (overlay_app mk_view 0 mk_view_one).
    rewrite length_take. replace (off + Z.of_nat (Z.to_nat n1 `min` length p)) with (off + n1) by lia.
    unfold overlay at 1 2. case_decide; [done|]. rewrite C3 by done. unfold overlay. case_decide; [done|].
    by apply (gr_byte _ _ _ _ _ G2).
  - intros x Hxr. by rewrite A5, C5, G6.
Qed.

Lemma appends_nil l fb di off : sane l fb -> wf_file mk_sb (vdisk l fb) di -> exact (vdisk l fb) di off ->
  0 <= off <= MAXFILE * BSIZE -> appends l fb di off [] l fb di.
Proof.
  intros Hs Hwf Hx Ho. unfold appends. cbn [length]. rewrite Z.add_0_r. split_and!; try done; [by apply extends_refl| |lia].
  intros o Hor. unfold overlay. rewrite decide_False; [done|]. cbn [length]. lia.
Qed.

(** There is room for [p], or stopping is allowed. *)
Definition room_or (E : stop -> mkfs -> Prop) (fb off : Z) (p : list Z) : Prop :=
  (off + Z.of_nat (length p) <= MAXFILE * BSIZE /\ fb + cost (off + Z.of_nat (length p)) - cost off <= 1000) \/ forall w s, E w s.

Lemma iappend_loop_spec fuel s di off p (Q : dinode * Z -> mkfs -> Prop) E {RE : Refusable E} :
  sane (img s) (freeblock s) -> wf_file mk_sb (vdisk (img s) (freeblock s)) di -> exact (vdisk (img s) (freeblock s)) di off ->
  0 <= off <= MAXFILE * BSIZE -> (length p < fuel)%nat -> Forall in_u8 p -> room_or E (freeblock s) off p ->
  (forall l' di', let fb' := freeblock s + cost (off + Z.of_nat (length p)) - cost off in
     appends (img s) (freeblock s) di off p l' fb' di' -> Q (di', off + Z.of_nat (length p)) (Mkfs l' (msb s) (freeinode s) fb')) ->
  wpe (iappend_loop fuel di off p) s Q E.
Proof.
  revert s di off p Q. induction fuel as [|fuel IH]; intros s di off p Q Hs Hwf Hx Ho Hf H8 HE HQ; [lia|].
  cbn [iappend_loop]. cbv zeta. destruct (Z.ltb_spec 0 (Z.of_nat (length p))) as [Hp|Hp].
  2: { destruct p as [|c p]; [|cbn in Hp; lia]. apply wpe_ret. pose proof (appends_nil _ _ _ _ Hs Hwf Hx Ho) as Ha.
       cbn [length] in HQ. change (Z.of_nat 0) with 0 in HQ. rewrite Z.add_0_r, Z.add_simpl_r in HQ. destruct s. by apply HQ. }
  change (MAXFILE * BSIZE) with 71680 in Ho. apply wpe_bind, wpe_assert; intros Hm.
  2: { apply Z.ltb_ge in Hm. destruct HE as [[HE _]|HE]; [|apply HE]. change MAXFILE with 140 in Hm. change (MAXFILE * BSIZE) with 71680 in HE.
       change BSIZE with 512 in Hm. Z.to_euclidean_division_equations. lia. }
  apply Z.ltb_lt in Hm. assert (Hpart : 0 <= off / BSIZE < MAXFILE) by (split; [apply Z.div_pos; [lia|by vm_compute]|done]).
  set (n1 := Z.min (Z.of_nat (length p)) (BSIZE - off mod BSIZE)).
  assert (En : u32 ((off / BSIZE + 1) * BSIZE - off) = BSIZE - off mod BSIZE).
  { change BSIZE with 512. rewrite u32_small; [|unfold in_u32]; Z.to_euclidean_division_equations; lia. }
  assert (Hn1 : 0 < n1 <= BSIZE - off mod BSIZE /\ n1 <= Z.of_nat (length p)).
  { unfold n1. pose proof (Z.mod_pos_bound off BSIZE ltac:(by vm_compute)). lia. }
  pose proof (need_cost _ di off n1 Hx ltac:(lia) Hm (proj1 Hn1)) as Hneed.
  pose proof (cost_mono (off + n1) (off + Z.of_nat (length p)) ltac:(lia)) as Hmono. pose proof (sn_fb _ _ Hs) as Hfb.
  apply wpe_bind, block_for_spec; try done.
  2: { intros Hfull. assert (HE' : forall w s', E w s') by (destruct HE as [[_ HE]|HE]; [lia|done]). split; [done|].
       intros di' s' Hl. apply wpe_bind; apply (wpe_rsect _ _ _ E); [done|lia|lia|]. intros _. apply HE'. }
  intros Hroom l1 di1 fb1 Hg. subst fb1. set (fb1 := freeblock s + need _ di _) in *.
  pose proof (gv_sane _ _ _ _ _ _ _ Hg) as Hs1. pose proof (ex_wf _ _ _ _ _ (gr_ext _ _ _ _ _ (gv_grows _ _ _ _ _ _ _ Hg))) as Hwf1.
  pose proof (wf_addr _ _ _ Hwf1 _ Hpart (gv_here _ _ _ _ _ _ _ Hg)) as Hau. apply (sane_data _ _ Hs1) in Hau. pose proof (sn_fb _ _ Hs1).
  rewrite En. fold n1. apply wpe_bind; apply (wpe_rsect _ _ _ E); cbn [img]; [apply Hs1|lia| |lia]. intros _.
  apply wpe_bind; apply (wpe_wsect _ _ _ _ E); cbn [img]; [apply Hs1|lia|]. unfold set_img; cbn [msb freeinode freeblock].
  replace (off - off / BSIZE * BSIZE) with (off mod BSIZE) by (change BSIZE with 512; Z.to_euclidean_division_equations; lia).
  pose proof (Z.mod_pos_bound off 512 ltac:(lia)) as Hmod. rewrite (u32_small (off + n1)) by (change BSIZE with 512 in Hn1; unfold in_u32; lia).
  destruct (appends_step (img s) (freeblock s) di off p l1 fb1 di1 n1 [] 0 di Hs Hwf Hx ltac:(lia) Hm (proj1 Hn1) (proj2 Hn1) H8 Hg) as (S1 & S2 & S3 & _).
  change MAXFILE with 140 in Hm. change BSIZE with 512 in Hm, Hn1.
  assert (Hlen : off + n1 + Z.of_nat (length (drop (Z.to_nat n1) p)) = off + Z.of_nat (length p)) by (rewrite length_drop; lia).
  apply IH; try done; cbn [img freeblock msb freeinode].
  - change (MAXFILE * BSIZE) with 71680. Z.to_euclidean_division_equations. lia.
  - rewrite length_drop. lia.
  - by apply Forall_drop.
  - destruct HE as [[HE1 HE2]|HE]; [left|by right]. rewrite Hlen. split; [done|]. unfold fb1. lia.
  - intros l' di' Ha. rewrite Hlen in *.
    replace (fb1 + cost (off + Z.of_nat (length p)) - cost (off + n1)) with (freeblock s + cost (off + Z.of_nat (length p)) - cost off) in * by (unfold fb1; lia).
    apply HQ. eapply appends_step; [exact Hs|exact Hwf|exact Hx|lia|done|exact (proj1 Hn1)|exact (proj2 Hn1)|done|exact Hg|exact Ha].
Qed.

(** ** The files in the image *)

(** The inode [di] holds a file of type [ty] with the bytes [data]; its blocks
    are zero after them. *)
Record file_in (D : list block) (di : dinode) (ty : Z) (data : list Z) : Prop := {
  fi_di : di = DInode ty 0 0 1 (Z.of_nat (length data)) (d_addrs di);
  fi_wf : wf_file mk_sb D di;
  fi_ok : dinode_ok di;
  fi_byte o : 0 <= o < MAXFILE * BSIZE -> file_byte D di o = byte_at data o;
  fi_exact : exact D di (Z.of_nat (length data))
}.

Definition total (fs : list (Z * list Z)) : Z := foldr (fun f t => cost (Z.of_nat (length f.2)) + t) 0 fs.

(** What is before the inodes: the super block, and zeros elsewhere. *)
Definition sb_block : block := splice zero_block 0 (sb_bytes mk_sb).

Definition low_blocks (l : list block) : Prop := forall x, 0 <= x < 32 -> l !! Z.to_nat x = Some (if x =? 1 then sb_block else zero_block).

(** mkfs has put [fs] into the image: file [k] is inode [k + 1]. *)
Record built (s : mkfs) (fs : list (Z * list Z)) : Prop := {
  bu_sane : sane (img s) (freeblock s);
  bu_sb : msb s = mk_sb;
  bu_next : freeinode s = 1 + Z.of_nat (length fs);
  bu_max : (length fs <= 199)%nat;
  bu_cost : freeblock s = 59 + total fs;
  bu_file k ty data : fs !! k = Some (ty, data) ->
    file_in (vdisk (img s) (freeblock s)) (inode_of mk_sb (vdisk (img s) (freeblock s)) (1 + Z.of_nat k)) ty data;
  bu_free inum : inum = 0 \/ Z.of_nat (length fs) < inum < 200 -> d_type (inode_of mk_sb (vdisk (img s) (freeblock s)) inum) = 0;
  bu_disj j k x : (j < length fs)%nat -> (k < length fs)%nat -> j <> k ->
    owned (vdisk (img s) (freeblock s)) (inode_of mk_sb (vdisk (img s) (freeblock s)) (1 + Z.of_nat j)) x ->
    ~ owned (vdisk (img s) (freeblock s)) (inode_of mk_sb (vdisk (img s) (freeblock s)) (1 + Z.of_nat k)) x;
  bu_low : low_blocks (img s)
}.

Lemma file_in_same D D' di ty data :
  file_in D di ty data -> (forall x, owned D di x -> D' !! Z.to_nat x = D !! Z.to_nat x /\ data_used mk_sb D' x) -> file_in D' di ty data.
Proof.
  intros [F1 F2 F3 F4 F5] Hsame. split; try done.
  - by eapply same_wf.
  - intros o Ho. rewrite (same_byte mk_sb D D' di Hsame) by done. by apply F4.
  - eapply exact_same; [|exact F5]. intros n Hn. by apply (same_addr mk_sb D D' di Hsame).
Qed.

Lemma total_cons f fs : total (f :: fs) = cost (Z.of_nat (length f.2)) + total fs.
Proof. done. Qed.

Lemma total_insert fs k ty data data' :
  fs !! k = Some (ty, data) -> total (<[k := (ty, data')]> fs) = total fs + cost (Z.of_nat (length data')) - cost (Z.of_nat (length data)).
Proof.
  revert k. induction fs as [|f fs IH]; intros k Hk; [done|]. destruct k as [|k]; cbn in Hk.
  - injection Hk as ->. change (<[0%nat := ?x]> ((ty, data) :: fs)) with (x :: fs). rewrite !total_cons. cbn [snd]. lia.
  - change (<[S k := ?x]> (f :: fs)) with (f :: <[k := x]> fs). rewrite !total_cons, (IH k Hk). lia.
Qed.

Lemma total_app fs gs : total (fs ++ gs) = total fs + total gs.
Proof. induction fs as [|f fs IH]; [done|]. cbn [app]. rewrite !total_cons, IH. lia. Qed.

Lemma total_pos fs : 0 <= total fs.
Proof.
  induction fs as [|f fs IH]; [done|]. rewrite total_cons. pose proof (cost_mono 0 (Z.of_nat (length f.2)) ltac:(lia)). lia.
Qed.

(** Inodes *)
Lemma mk_IBLOCK inum : 0 <= inum < 200 -> 32 <= IBLOCK inum mk_sb < 58.
Proof. intros Hi. destruct (IBLOCK_range mk_sb 1000 mk_sb_ok inum Hi) as (_ & H & _). exact H. Qed.

Lemma inode_of_vdisk l n inum : 0 <= inum < 200 -> inode_of mk_sb (vdisk l n) inum = inode_of mk_sb l inum.
Proof. intros Hi. pose proof (mk_IBLOCK inum Hi). unfold inode_of. by rewrite dat_vdisk by lia. Qed.

Lemma updated_vdisk l n inum di : 0 <= inum < 200 -> vdisk (updated mk_sb l inum di) n = updated mk_sb (vdisk l n) inum di.
Proof. intros Hi. pose proof (mk_IBLOCK inum Hi). unfold updated. rewrite vdisk_insert, dat_vdisk by lia. done. Qed.

Lemma sane_updated l fb inum di : sane l fb -> 0 <= inum < 200 -> dinode_ok di -> sane (updated mk_sb l inum di) fb.
Proof.
  intros [H1 H2 H3 H4] Hi Hok. pose proof (mk_IBLOCK inum Hi). split; [by unfold updated; rewrite length_insert| |done|].
  - by apply (updated_ok mk_sb 1000 mk_sb_ok).
  - intros x Hx. unfold updated. rewrite list_lookup_insert_ne by lia. by apply H4.
Qed.

Lemma wpe_rinode s inum (Q : dinode -> mkfs -> Prop) E {RE : Refusable E} :
  sane (img s) (freeblock s) -> msb s = mk_sb -> 0 <= inum < 200 -> Q (inode_of mk_sb (img s) inum) s -> wpe (rinode inum) s Q E.
Proof.
  intros Hs Hsb Hi HQ. pose proof (mk_IBLOCK inum Hi). unfold rinode. apply wpe_bind, wpe_get. rewrite Hsb. cbv zeta.
  apply wpe_bind; apply (wpe_rsect _ _ _ E); [apply Hs|lia| |lia]. intros _. by apply wpe_ret.
Qed.

Lemma wpe_winode s inum di (Q : unit -> mkfs -> Prop) E {RE : Refusable E} :
  sane (img s) (freeblock s) -> msb s = mk_sb -> 0 <= inum < 200 -> Q tt (set_img (updated mk_sb (img s) inum di) s) -> wpe (winode inum di) s Q E.
Proof.
  intros Hs Hsb Hi HQ. pose proof (mk_IBLOCK inum Hi). unfold winode. apply wpe_bind, wpe_get. rewrite Hsb. cbv zeta.
  apply wpe_bind; apply (wpe_rsect _ _ _ E); [apply Hs|lia| |lia]. intros _. apply (wpe_wsect _ _ _ _ E); [apply Hs|lia|]. done.
Qed.

(** *** Appending to a file *)

Section append.
Context (s : mkfs) (fs : list (Z * list Z)) (k : nat) (ty : Z) (data p : list Z).
Hypothesis Hb : built s fs.
Hypothesis Hk : fs !! k = Some (ty, data).
Let inum := 1 + Z.of_nat k.
Let D := vdisk (img s) (freeblock s).
Let di := inode_of mk_sb D inum.
Context (l' : list block) (fb' : Z) (di' : dinode).
Hypothesis Ha : appends (img s) (freeblock s) di (Z.of_nat (length data)) p l' fb' di'.
Let di2 := set_d_size (Z.of_nat (length (data ++ p))) di'.
Let D1 := vdisk l' fb'.
Let D2 := vdisk (updated mk_sb l' inum di2) fb'.

Lemma append_inum : 0 <= inum < 200 /\ (k < length fs)%nat.
Proof. apply lookup_lt_Some in Hk as Hlt. pose proof (bu_max _ _ Hb). unfold inum. lia. Qed.

Lemma append_file1 : file_in D di ty data.
Proof. by apply (bu_file _ _ Hb). Qed.

Lemma append_ext : extends mk_sb D di D1 di'.
Proof. apply Ha. Qed.

Lemma append_sane : Forall block_ok D1 /\ length D1 = 1000%nat.
Proof. apply sane_vok, Ha. Qed.

(** The inode with its new size is in order before it is written. *)
Lemma append_resized : file_in D1 di2 ty (data ++ p).
Proof.
  destruct append_file1 as [F1 F2 F3 F4 F5]. pose proof append_ext as Hx. pose proof (ex_wf _ _ _ _ _ Hx) as Hwf1.
  destruct Ha as (_ & _ & Hby & Hex & _ & Hmax). fold D D1 in Hby, Hex. rewrite <- Nat2Z.inj_add in Hex, Hmax.
  assert (Hwf2 : wf_file mk_sb D1 di2).
  { apply (resize_wf mk_view); [done|rewrite length_app; lia|]. intros q Hq Hlt. rewrite length_app in Hlt. apply (xa_addr _ _ _ Hex); [|done].
    change MAXFILE with 140 in *. change BSIZE with 512 in *. lia. }
  split.
  - unfold di2. rewrite (ex_fields _ _ _ _ _ Hx), F1. done.
  - done.
  - apply (wf_dinode_ok mk_view 0 mk_view_one 1000 mk_sb_ok D1 di di2 Hwf2 F3). unfold di2. rewrite (ex_fields _ _ _ _ _ Hx). by destruct di.
  - intros o Ho. change (file_byte D1 di2 o) with (file_byte D1 di' o). rewrite Hby by done. unfold overlay. rewrite F4 by done.
    unfold byte_at. case_decide as Hin.
    + rewrite lookup_app_r by lia. do 2 f_equal. lia.
    + destruct (Z.lt_ge_cases o (Z.of_nat (length data))); [by rewrite lookup_app_l by lia|].
      rewrite !lookup_ge_None_2; [done|rewrite length_app; lia|lia].
  - rewrite length_app. by destruct Hex.
Qed.

Lemma append_D2 : D2 = updated mk_sb D1 inum di2.
Proof. apply updated_vdisk, append_inum. Qed.

(** Writing the inode leaves the blocks of every file alone. *)
Lemma append_update d x : wf_file mk_sb D1 d -> owned D1 d x -> D2 !! Z.to_nat x = D1 !! Z.to_nat x /\ data_used mk_sb D2 x.
Proof.
  intros Hd Ho. rewrite append_D2. destruct append_sane. by apply (updated_same mk_sb 1000 mk_sb_ok D1 inum d); [..|apply append_inum| |].
Qed.

Lemma append_inode j : 0 <= j < 200 -> inode_of mk_sb D2 j = if j =? inum then di2 else inode_of mk_sb D j.
Proof.
  intros Hj. rewrite append_D2. destruct append_sane as [Hok Hl]. pose proof (proj1 append_inum) as Hi. pose proof append_resized as Hr.
  destruct (Z.eqb_spec j inum) as [->|Hne].
  - apply (updated_inode mk_sb 1000 mk_sb_ok); try done. apply Hr.
  - rewrite (updated_inode_ne mk_sb 1000 mk_sb_ok) by (done || apply Hr).
    apply (extends_inodes mk_view 0 mk_view_one 1000 mk_sb_ok D di D1 di'); [apply append_file1| |apply append_ext|done].
    apply sane_meta, Hb.
Qed.

Lemma append_other j : (j < length fs)%nat -> j <> k -> forall x, owned D (inode_of mk_sb D (1 + Z.of_nat j)) x -> ~ owned D di x.
Proof. intros Hj Hne x. apply (bu_disj _ _ Hb); [done|apply append_inum|done]. Qed.

Lemma append_keeps j : (j < length fs)%nat -> j <> k ->
  let dj := inode_of mk_sb D (1 + Z.of_nat j) in
  wf_file mk_sb D dj -> forall x, owned D dj x -> D2 !! Z.to_nat x = D !! Z.to_nat x /\ data_used mk_sb D2 x.
Proof.
  intros Hj Hne dj Hwf x Ho. pose proof (append_other j Hj Hne) as Hdis. fold dj in Hdis.
  pose proof (extends_other mk_view 0 mk_view_one 1000 mk_sb_ok D di D1 di' dj Hwf append_ext Hdis) as Hs1.
  pose proof (same_wf mk_sb D D1 dj Hwf Hs1) as Hwf1. pose proof (proj2 (same_owned mk_sb D D1 dj Hs1 x) Ho) as Ho1.
  destruct (append_update dj x Hwf1 Ho1) as [E Hu]. split; [|done]. rewrite E. by apply Hs1.
Qed.

Lemma append_disj j m x : (j < length fs)%nat -> (m < length fs)%nat -> j <> m ->
  owned D2 (inode_of mk_sb D2 (1 + Z.of_nat j)) x -> ~ owned D2 (inode_of mk_sb D2 (1 + Z.of_nat m)) x.
Proof.
  intros Hj Hm Hne. pose proof (bu_max _ _ Hb). pose proof append_resized as Hr.
  assert (Hothers : forall i, (i < length fs)%nat -> i <> k -> wf_file mk_sb D (inode_of mk_sb D (1 + Z.of_nat i))).
  { intros i Hi _. destruct (lookup_lt_is_Some_2 fs i Hi) as [[t d] Hf]. apply (bu_file _ _ Hb i t d Hf). }
  assert (Hown2 : forall y, owned D2 di2 y <-> owned D1 di' y).
  { intros y. apply (same_owned mk_sb D1 D2 di2). intros z. apply append_update, Hr. }
  assert (Hmix : forall i y, (i < length fs)%nat -> i <> k -> owned D2 (inode_of mk_sb D (1 + Z.of_nat i)) y -> ~ owned D2 di2 y).
  { intros i y Hi Hik Ho. rewrite Hown2. pose proof (Hothers i Hi Hik) as Hwf.
    apply (same_owned mk_sb D D2 _ (append_keeps i Hi Hik Hwf)) in Ho. pose proof (append_other i Hi Hik) as Hdis.
    apply (other_disjoint mk_view 0 mk_view_one 1000 mk_sb_ok D di D1 di' append_ext _ y Hwf Hdis).
    apply (same_owned mk_sb D D1); [|done]. by apply (extends_other mk_view 0 mk_view_one 1000 mk_sb_ok D di D1 di' _ Hwf append_ext). }
  rewrite !append_inode by lia. unfold inum. destruct (Z.eqb_spec (1 + Z.of_nat j) (1 + Z.of_nat k)), (Z.eqb_spec (1 + Z.of_nat m) (1 + Z.of_nat k)); try lia.
  - intros H1 H2. apply (Hmix m x); (done || lia).
  - apply Hmix; lia.
  - intros H1%(same_owned mk_sb D D2 _ (append_keeps j Hj ltac:(lia) (Hothers j Hj ltac:(lia)))).
    intros H2%(same_owned mk_sb D D2 _ (append_keeps m Hm ltac:(lia) (Hothers m Hm ltac:(lia)))).
    by apply (bu_disj _ _ Hb j m x).
Qed.

Lemma append_built : fb' = freeblock s + cost (Z.of_nat (length (data ++ p))) - cost (Z.of_nat (length data)) ->
  built (Mkfs (updated mk_sb l' inum di2) (msb s) (freeinode s) fb') (<[k := (ty, data ++ p)]> fs).
Proof.
  intros Hfb. pose proof (proj1 append_inum) as Hi. pose proof append_resized as Hr. pose proof (bu_max _ _ Hb) as Hmax. destruct Ha as (A1 & _ & _ & _ & A5 & _).
  split; cbn [img msb freeinode freeblock]; rewrite ?length_insert; try apply Hb; fold D2.
  - apply sane_updated; [done|done|apply Hr].
  - rewrite (total_insert fs k ty data) by done. rewrite Hfb, (bu_cost _ _ Hb). lia.
  - intros j t d. destruct (decide (j = k)) as [->|Hne].
    + rewrite list_lookup_insert_eq by apply append_inum. intros [= <- <-]. rewrite append_inode by (unfold inum in Hi; lia).
      fold inum. rewrite Z.eqb_refl. eapply file_in_same; [exact Hr|]. intros x. apply append_update, Hr.
    + rewrite list_lookup_insert_ne by done. intros Hj. apply lookup_lt_Some in Hj as Hlt. pose proof (bu_file _ _ Hb j t d Hj) as Hf.
      rewrite append_inode, (proj2 (Z.eqb_neq _ _)) by (unfold inum; lia). eapply file_in_same; [exact Hf|]. by apply append_keeps; [..|apply Hf].
  - intros j Hj. destruct append_inum as [_ Hlt]. rewrite append_inode, (proj2 (Z.eqb_neq _ _)) by (unfold inum; lia). by apply (bu_free _ _ Hb).
  - apply append_disj.
  - intros x Hx. pose proof (mk_IBLOCK inum Hi). unfold updated. rewrite list_lookup_insert_ne by lia. rewrite A5 by lia. by apply (bu_low _ _ Hb).
Qed.

End append.

Lemma iappend_spec s fs k ty data p (Q : unit -> mkfs -> Prop) E {RE : Refusable E} :
  built s fs -> fs !! k = Some (ty, data) -> Forall in_u8 p -> room_or E (freeblock s) (Z.of_nat (length data)) p ->
  (forall s', built s' (<[k := (ty, data ++ p)]> fs) -> Q tt s') -> wpe (iappend (1 + Z.of_nat k) p) s Q E.
Proof.
  intros Hb Hk H8 HE HQ. destruct (append_inum s fs k ty data Hb Hk) as [Hi _]. pose proof (bu_file _ _ Hb _ _ _ Hk) as Hf.
  set (di := inode_of _ _ _) in Hf. pose proof (bu_sane _ _ Hb) as Hs. pose proof (bu_sb _ _ Hb) as Hsb.
  pose proof (wf_size _ _ _ (fi_wf _ _ _ _ Hf)) as Hsz. rewrite (fi_di _ _ _ _ Hf) in Hsz. cbn [d_size] in Hsz. change (MAXFILE * BSIZE) with 71680 in Hsz.
  unfold iappend. apply wpe_bind, (wpe_rinode _ _ _ E); [done|done|done|]. rewrite <- (inode_of_vdisk (img s) (freeblock s)) by done. fold di.
  assert (Esz : xint (d_size di) = Z.of_nat (length data)) by (rewrite (fi_di _ _ _ _ Hf); cbn [d_size]; apply xint_id; unfold in_u32; lia).
  rewrite Esz. apply wpe_bind, (iappend_loop_spec _ _ _ _ _ _ E); try done; try apply Hf; [lia|].
  intros l' di' fb' Ha. pose proof Ha as (A1 & _ & _ & _ & _ & Hmax). change (MAXFILE * BSIZE) with 71680 in Hmax.
  rewrite (xint_id (_ + _)) by (unfold in_u32; lia).
  apply (wpe_winode _ _ _ _ E); [done|done|done|]. apply HQ. unfold set_img; cbn [img msb freeinode freeblock].
  rewrite <- Nat2Z.inj_add, <- length_app. apply append_built; [done|done|done|]. unfold fb'. by rewrite length_app, Nat2Z.inj_add.
Qed.

(** *** A new inode *)

Definition new_inode (ty : Z) : dinode := DInode ty 0 0 1 0 (replicate 13 0).

Lemma new_addr D ty n : addr D (new_inode ty) n = 0.
Proof.
  assert (E : forall m, addr_of (new_inode ty) m = 0).
  { intros m. unfold addr_of, new_inode. cbn [d_addrs]. destruct (replicate 13 0 !! Z.to_nat m) as [a|] eqn:Ha; [|done].
    by apply lookup_replicate in Ha as [-> _]. }
  unfold addr, ind. rewrite !E. by destruct (n <? NDIRECT).
Qed.

Lemma new_owned D ty x : ~ owned D (new_inode ty) x.
Proof. intros [Hx [E|(n & _ & E)]]; [|rewrite new_addr in E]; by subst x. Qed.

Lemma new_file_in D ty : in_i16 ty -> file_in D (new_inode ty) ty [].
Proof.
  intros Hty. assert (Hi : ind (new_inode ty) = 0) by done. split.
  - done.
  - split; try (intros; rewrite ?new_addr in *; done); try done. cbn [d_size new_inode]. change BSIZE with 512. lia.
  - split; cbn; try done; try (unfold in_i16, in_u32; lia). repeat constructor; unfold in_u32; lia.
  - intros o Ho. unfold file_byte. by rewrite new_addr.
  - split; [|rewrite Hi; change (NDIRECT * BSIZE) with 6144; cbn; lia]. intros n Hn. rewrite new_addr. change BSIZE with 512. cbn. lia.
Qed.

Section new.
Context (s : mkfs) (fs : list (Z * list Z)) (ty : Z).
Hypothesis Hb : built s fs.
Hypothesis Hroom : (length fs < 199)%nat.
Hypothesis Hty : in_i16 ty.
Let inum := 1 + Z.of_nat (length fs).
Let D := vdisk (img s) (freeblock s).
Let D2 := vdisk (updated mk_sb (img s) inum (new_inode ty)) (freeblock s).

Lemma new_update d x : wf_file mk_sb D d -> owned D d x -> D2 !! Z.to_nat x = D !! Z.to_nat x /\ data_used mk_sb D2 x.
Proof.
  intros Hd Ho. unfold D2. rewrite updated_vdisk by (unfold inum; lia). destruct (sane_vok _ _ (bu_sane _ _ Hb)).
  apply (updated_same mk_sb 1000 mk_sb_ok D inum d); try done. unfold inum. change (sb_ninodes mk_sb) with 200. lia.
Qed.

Lemma new_inode_of j : 0 <= j < 200 -> inode_of mk_sb D2 j = if j =? inum then new_inode ty else inode_of mk_sb D j.
Proof.
  intros Hj. unfold D2. rewrite updated_vdisk by (unfold inum; lia). destruct (sane_vok _ _ (bu_sane _ _ Hb)) as [Hok Hl].
  pose proof (fi_ok _ _ _ _ (new_file_in D ty Hty)) as Hdok. destruct (Z.eqb_spec j inum) as [->|Hne].
  - by apply (updated_inode mk_sb 1000 mk_sb_ok).
  - apply (updated_inode_ne mk_sb 1000 mk_sb_ok); try done. unfold inum. change (sb_ninodes mk_sb) with 200. lia.
Qed.

Lemma new_old j : (j < length fs)%nat -> inode_of mk_sb D2 (1 + Z.of_nat j) = inode_of mk_sb D (1 + Z.of_nat j) /\
  exists t d, fs !! j = Some (t, d) /\ file_in D (inode_of mk_sb D (1 + Z.of_nat j)) t d.
Proof.
  intros Hj. rewrite new_inode_of, (proj2 (Z.eqb_neq _ _)) by (unfold inum; lia). split; [done|].
  destruct (lookup_lt_is_Some_2 fs j Hj) as [[t d] Hf]. exists t, d. split; [done|]. by apply (bu_file _ _ Hb).
Qed.

Lemma new_built : built (Mkfs (updated mk_sb (img s) inum (new_inode ty)) (msb s) (inum + 1) (freeblock s)) (fs ++ [(ty, [])]).
Proof.
  assert (Hlast : inode_of mk_sb D2 inum = new_inode ty) by (rewrite new_inode_of by (unfold inum; lia); by rewrite Z.eqb_refl).
  split; cbn [img msb freeinode freeblock]; rewrite ?length_app; cbn [length]; try apply Hb; fold D2.
  - apply sane_updated; [apply Hb|unfold inum; lia|apply (new_file_in D ty Hty)].
  - unfold inum. lia.
  - lia.
  - rewrite total_app, (bu_cost _ _ Hb). change (total [(ty, [])]) with 0. lia.
  - intros k t d Hk. apply lookup_app_Some in Hk as [Hk|[Hge Hk]].
    + apply lookup_lt_Some in Hk as Hlt. destruct (new_old k Hlt) as [-> _]. pose proof (bu_file _ _ Hb _ _ _ Hk) as Hf.
      eapply file_in_same; [exact Hf|]. intros x. apply new_update, Hf.
    + apply list_lookup_singleton_Some in Hk as [Hz [= <- <-]]. replace (1 + Z.of_nat k) with inum by (unfold inum; lia).
      rewrite Hlast. by apply new_file_in.
  - intros j Hj. rewrite new_inode_of, (proj2 (Z.eqb_neq _ _)) by (unfold inum; lia). apply (bu_free _ _ Hb). lia.
  - intros j m x Hj Hm Hne.
    assert (Hown : forall i, (i < length fs + 1)%nat -> owned D2 (inode_of mk_sb D2 (1 + Z.of_nat i)) x ->
      (i < length fs)%nat /\ owned D (inode_of mk_sb D (1 + Z.of_nat i)) x).
    { intros i Hi Ho. destruct (decide (i = length fs)) as [->|]; [fold inum in Ho; rewrite Hlast in Ho; by apply new_owned in Ho|].
      split; [lia|]. destruct (new_old i ltac:(lia)) as (Ei & t & d & _ & Hf). rewrite Ei in Ho.
      apply (same_owned mk_sb D D2) in Ho; [done|]. intros y. apply new_update, Hf. }
    intros [H1 H2]%(Hown j Hj) [H3 H4]%(Hown m Hm). by apply (bu_disj _ _ Hb j m x).
  - intros x Hx. pose proof (mk_IBLOCK inum ltac:(unfold inum; lia)). unfold updated. rewrite list_lookup_insert_ne by lia. by apply (bu_low _ _ Hb).
Qed.

End new.

Lemma ialloc_spec s fs ty (Q : Z -> mkfs -> Prop) E {RE : Refusable E} :
  built s fs -> (length fs < 199)%nat -> 0 <= ty < 2 ^ 15 ->
  (forall s', built s' (fs ++ [(ty, [])]) -> freeblock s' = freeblock s -> Q (1 + Z.of_nat (length fs)) s') -> wpe (ialloc ty) s Q E.
Proof.
  intros Hb Hl Hty HQ. unfold ialloc. apply wpe_bind, wpe_gets. apply wpe_bind, wpe_modify. rewrite (bu_next _ _ Hb).
  assert (Et : i16 (xshort ty) = ty).
  { rewrite xshort_id by (unfold in_u16; lia). rewrite <- (u16_small ty) at 1 by (unfold in_u16; lia). apply i16_u16. unfold in_i16. lia. }
  rewrite Et. change (i16 (xshort 1)) with 1. change (xint 0) with 0. fold (new_inode ty).
  rewrite u32_small by (unfold in_u32; lia).
  apply wpe_bind, (wpe_winode _ _ _ _ E); cbn [img msb freeblock set_freeinode]; [apply Hb|apply Hb|lia|]. apply wpe_ret. apply HQ; [|done].
  unfold set_img; cbn [img msb freeinode freeblock set_freeinode]. apply new_built; try done. unfold in_i16. lia.
Qed.

End host.
