(* ===== verification/Mkimg.v ===== *)
(** The image that mkfs leaves: the theorem on the whole of [mkfs.c]. *)

From S2P Require Import Prelude Mem Block Sleeplock Log Refstore Tx Fs Bitmap Inode Dinode Iblock File Fileops Trunc Icache Dir Path Mkfs.

Open Scope Z_scope.

#[local] Existing Instance mk_laws.

Section host.
Context {HO : Host}.

(** ** What the image is to hold *)

(** The bytes of the root directory. *)
Definition dirents (k : Z) (files : list hfile) : list (list Z) :=
  imap (fun i f => dirent (k + Z.of_nat i) (stored_name (h_name f))) files.
Definition root_dents (files : list hfile) : list (list Z) := dirent 1 [46] :: dirent 1 [46; 46] :: dirents 2 files.
Definition root_data (files : list hfile) : list Z := concat (root_dents files).

Definition bytes_of (f : hfile) : list Z := concat (h_reads f).
Definition file_of (f : hfile) : Z * list Z := (T_FILE, bytes_of f).

(** The root directory is inode 1, and the files follow it. *)
Definition contents_of (files : list hfile) : list (Z * list Z) := (T_DIR, root_data files) :: (file_of <$> files).

(** Characters are bytes. *)
Definition hfile_ok (f : hfile) : Prop := Forall in_u8 (h_name f) /\ Forall (Forall in_u8) (h_reads f).

(** The files can be opened, and their names have no slash. *)
Definition named (files : list hfile) : Prop := Forall (fun f => h_open f = true /\ 47 ∉ h_name f) files.

(** The files fit: each into an inode, and all of them on the disk. *)
Definition fits (files : list hfile) : Prop :=
  Forall (fun f => Z.of_nat (length (bytes_of f)) <= MAXFILE * BSIZE) files /\ 59 + total (contents_of files) <= 1000.

#[local] Instance named_dec files : Decision (named files).
Proof. unfold named. apply _. Defined.

#[local] Instance fits_dec files : Decision (fits files).
Proof. unfold fits. apply _. Defined.

(** mkfs can go through with the files, or [E] lets it stop. *)
Definition fits_or (files : list hfile) (E : stop -> mkfs -> Prop) : Prop :=
  named files /\ fits files \/ forall w s, E w s.

(** ** Directory entries *)

Lemma dirent_new inum name : 0 <= inum < 2 ^ 16 -> dirent inum name = new_dent name inum.
Proof. intros Hi. unfold dirent, new_dent. by rewrite xshort_id by (unfold in_u16; lia). Qed.

Lemma length_dirent inum name : length (dirent inum name) = 16%nat.
Proof. unfold dirent. rewrite length_app, length_le_bytes, length_strncpy_arr. done. Qed.

Lemma dirent_u8 inum name : Forall in_u8 name -> Forall in_u8 (dirent inum name).
Proof. intros H. apply Forall_app. split; [apply le_bytes_range|by apply strncpy_arr_u8]. Qed.

Lemma stored_u8 name : Forall in_u8 name -> Forall in_u8 (stored_name name).
Proof. intros H. destruct H as [|c name Hc Hn]; cbn; [constructor|]. destruct (c =? 95); [done|by constructor]. Qed.

Lemma dirents_app k fs gs : dirents k (fs ++ gs) = dirents k fs ++ dirents (k + Z.of_nat (length fs)) gs.
Proof.
  unfold dirents. rewrite imap_app. f_equal. apply imap_ext. intros i f _. cbv beta delta [compose]. f_equal. lia.
Qed.

Lemma root_data_app fs gs : root_data (fs ++ gs) = root_data fs ++ concat (dirents (2 + Z.of_nat (length fs)) gs).
Proof. unfold root_data, root_dents. rewrite dirents_app. cbn [concat]. by rewrite concat_app, !app_assoc. Qed.

Lemma root_dents_16 files : Forall (fun e => length e = 16%nat) (root_dents files).
Proof.
  constructor; [apply length_dirent|]. constructor; [apply length_dirent|]. apply Forall_lookup. intros i e He.
  unfold dirents in He. rewrite list_lookup_imap in He. destruct (files !! i); [|done]. cbn in He. injection He as <-. apply length_dirent.
Qed.

Lemma length_concat_16 es : Forall (fun e : list Z => length e = 16%nat) es -> length (concat es) = (16 * length es)%nat.
Proof. induction 1 as [|e es He _ IH]; [done|]. cbn [concat length]. rewrite length_app, He, IH. lia. Qed.

Lemma length_root_data files : length (root_data files) = (16 * (2 + length files))%nat.
Proof.
  unfold root_data. rewrite length_concat_16 by apply root_dents_16. unfold root_dents, dirents. cbn [length]. by rewrite length_imap.
Qed.

(** ** Room *)

(** Every file of [fs] is in [gs], and no longer. *)
Definition below (fs gs : list (Z * list Z)) : Prop :=
  forall k f, fs !! k = Some f -> exists g, gs !! k = Some g /\ (length f.2 <= length g.2)%nat.

Lemma below_total fs gs : below fs gs -> total fs <= total gs.
Proof.
  revert gs. induction fs as [|f fs IH]; intros gs Hb; [apply total_pos|].
  destruct (Hb 0%nat f eq_refl) as (g & Hg & Hle). destruct gs as [|g' gs]; [done|]. cbn in Hg. injection Hg as ->.
  rewrite !total_cons. pose proof (cost_mono (Z.of_nat (length f.2)) (Z.of_nat (length g.2)) ltac:(lia)).
  enough (total fs <= total gs) by lia. apply IH. intros k f' Hk. by apply (Hb (S k)).
Qed.

Lemma room_below s fs k ty data p files (E : stop -> mkfs -> Prop) :
  built s fs -> fs !! k = Some (ty, data) -> (length files <= 198)%nat -> fits_or files E ->
  below (<[k := (ty, data ++ p)]> fs) (contents_of files) -> room_or E (freeblock s) (Z.of_nat (length data)) p.
Proof.
  intros Hb Hk Hn [[_ [Hf1 Hf2]]|HE] Hbl; [left|by right]. rewrite <- Nat2Z.inj_add, <- length_app. split.
  - destruct (Hbl k (ty, data ++ p)) as (g & Hg & Hle); [apply list_lookup_insert_eq; by eapply lookup_lt_Some|].
    cbn [snd] in Hle. enough (Z.of_nat (length g.2) <= MAXFILE * BSIZE) by lia. destruct k as [|k].
    + change (Some (T_DIR, root_data files) = Some g) in Hg. injection Hg as <-. cbn [snd]. rewrite length_root_data. change (MAXFILE * BSIZE) with 71680. lia.
    + change ((file_of <$> files) !! k = Some g) in Hg. rewrite list_lookup_fmap in Hg. destruct (files !! k) as [f|] eqn:Hf; [|done]. injection Hg as <-. by apply (Forall_lookup_1 _ _ _ _ Hf1 Hf).
  - pose proof (below_total _ _ Hbl) as Ht. rewrite (total_insert fs k ty data) in Ht by done. rewrite (bu_cost _ _ Hb). lia.
Qed.

(** ** The parts of main *)

(** The image before any file: the super block, and zeros. *)
Definition boot_image : list block := <[1%nat := sb_block]> (replicate 1000 zero_block).

Lemma zeroed s (Q : unit -> mkfs -> Prop) E {RE : Refusable E} :
  img s = [] -> Q tt (set_img (replicate 1000 zero_block) s) ->
  wpe (for_each (seqZ 0 FSSIZE) (fun i => wsect i zero_block)) s Q E.
Proof.
  intros H0 HQ. eapply wpe_mono; [| |apply (wpe_for_each (fun done s' => s' = set_img (replicate (length done) zero_block) s))]; [|by auto|..].
  - intros [] s' ->. rewrite length_seqZ. exact HQ.
  - by destruct s as [l sb fi fb]; cbn in H0; subst l.
  - intros dn x rest s' Eq ->. assert (Hx : seqZ 0 FSSIZE !! length dn = Some x) by (by rewrite Eq, list_lookup_middle).
    apply lookup_seqZ in Hx as [-> Hlt]. change FSSIZE with 1000 in Hlt. unfold wsect. apply wpe_bind, wpe_get. cbv zeta.
    destruct (h_lseek _ _) eqn:H1; [|by eapply refused, err_lseek]. cbn [negb].
    destruct (h_write _ _ _) as [torn|] eqn:H2; [apply wpe_bind, wpe_put; by eapply refused, err_write|]. apply wpe_put.
    rewrite sect_id by lia. cbn [img set_img]. rewrite length_replicate.
    replace (Z.to_nat (0 + Z.of_nat (length dn))) with (length dn) by lia.
    rewrite (proj2 (Nat.ltb_ge _ _)), Nat.sub_diag by lia. unfold set_img; cbn [msb freeinode freeblock]. f_equal.
    rewrite length_app. cbn [length app]. rewrite replicate_add. done.
Qed.

Lemma boot_built : built (Mkfs boot_image mk_sb 1 59) [].
Proof.
  assert (Hsb : block_ok sb_block).
  { split; [vm_compute; reflexivity|]. apply Forall_splice; [apply zero_block_ok|]. unfold sb_bytes. rewrite !Forall_app. split_and!; apply le_bytes_range. }
  assert (Hs : sane boot_image 59).
  { split; [unfold boot_image; by rewrite length_insert, length_replicate| |lia|].
    - apply Forall_insert; [|done]. apply Forall_replicate, zero_block_ok.
    - intros x Hx. unfold boot_image. rewrite list_lookup_insert_ne, lookup_replicate_2 by lia. done. }
  split; cbn [img msb freeinode freeblock length]; try done; try lia.
  - intros inum Hi. rewrite inode_of_vdisk by lia. pose proof (mk_IBLOCK inum ltac:(lia)). unfold inode_of.
    assert (dat boot_image (IBLOCK inum mk_sb) = zero_block) as ->.
    { unfold dat, boot_image. by rewrite list_lookup_insert_ne, lookup_replicate_2 by lia. }
    unfold get_dinode. cbn [d_type]. unfold get16, sub, zero_block. rewrite drop_replicate, take_replicate.
    generalize (2 `min` (Z.to_nat BSIZE - dinode_off inum))%nat. intros n. assert (E : le_val (replicate n 0) = 0) by (induction n; cbn; lia).
    by rewrite E.
  - intros x Hx. unfold boot_image. destruct (Z.eqb_spec x 1) as [->|Hne].
    + apply list_lookup_insert_eq. rewrite length_replicate. lia.
    + rewrite list_lookup_insert_ne, lookup_replicate_2 by lia. done.
Qed.

(** One file more. *)
Lemma below_refl fs : below fs fs.
Proof. intros k f Hk. by exists f. Qed.

Lemma below_trans fs gs hs : below fs gs -> below gs hs -> below fs hs.
Proof. intros H1 H2 k f Hk. destruct (H1 k f Hk) as (g & Hg & ?). destruct (H2 k g Hg) as (h & Hh & ?). exists h. split; [done|lia]. Qed.

Lemma below_contents done x rest data ty :
  (length data <= length (bytes_of x))%nat ->
  below ((T_DIR, root_data (done ++ [x])) :: (file_of <$> done) ++ [(ty, data)]) (contents_of (done ++ x :: rest)).
Proof.
  intros Hle k f Hk. destruct k as [|k].
  - change (Some (T_DIR, root_data (done ++ [x])) = Some f) in Hk. injection Hk as <-. eexists. split; [reflexivity|]. cbn [snd]. rewrite !length_root_data, !length_app. cbn. lia.
  - change (((file_of <$> done) ++ [(ty, data)]) !! k = Some f) in Hk.
    change (contents_of ?l !! S k) with ((file_of <$> l) !! k). rewrite fmap_app. apply lookup_app_Some in Hk as [Hk|[Hge Hk]].
    + exists f. split; [by apply lookup_app_l_Some|done].
    + apply list_lookup_singleton_Some in Hk as [Hz <-]. exists (file_of x). rewrite lookup_app_r by lia.
      replace (k - length (file_of <$> done))%nat with 0%nat by lia. done.
Qed.

Section adding.
Context (files : list hfile) (E : stop -> mkfs -> Prop) {RE : Refusable E}.
Hypothesis Hok : Forall hfile_ok files.
Hypothesis Hn : (length files <= 198)%nat.
Hypothesis HE : fits_or files E.

(** The contents of a file, read by read. *)
Lemma add_bytes done x rest s :
  files = done ++ x :: rest ->
  built s ((T_DIR, root_data (done ++ [x])) :: (file_of <$> done) ++ [(T_FILE, [])]) ->
  wpe (for_each (h_reads x) (iappend (2 + Z.of_nat (length done)))) s (fun _ s' => built s' (contents_of (done ++ [x]))) E.
Proof.
  intros Hf Hb. set (pre := (T_DIR, root_data (done ++ [x])) :: (file_of <$> done)).
  assert (Hpre : forall f, (pre ++ [f]) !! S (length done) = Some f).
  { intros f. unfold pre. change ((?a :: ?l) ++ ?r) with (a :: (l ++ r)). change ((?a :: ?l) !! S ?n) with (l !! n).
    apply list_lookup_middle. by rewrite length_fmap. }
  assert (Hins : forall f g, <[S (length done) := g]> (pre ++ [f]) = pre ++ [g]).
  { intros f g. rewrite insert_app_r_alt by (unfold pre; cbn [length]; rewrite length_fmap; lia).
    unfold pre at 2. cbn [length]. by rewrite length_fmap, Nat.sub_diag. }
  eapply wpe_mono; [| |apply (wpe_for_each (fun done' s' => built s' (pre ++ [(T_FILE, concat done')])))].
  - intros [] s' Hs'. unfold contents_of. rewrite fmap_app. exact Hs'.
  - done.
  - exact Hb.
  - intros done' p rest' s' Er Hs'. replace (2 + Z.of_nat (length done)) with (1 + Z.of_nat (S (length done))) by lia.
    assert (Hx : hfile_ok x) by (rewrite Hf, Forall_app, Forall_cons in Hok; naive_solver).
    assert (H8 : Forall in_u8 p) by (destruct Hx as (_ & Hx); rewrite Er, Forall_app, Forall_cons in Hx; naive_solver).
    eapply (iappend_spec s' _ _ _ (concat done') p _ E); [exact Hs'|apply Hpre|done| |].
    + eapply room_below; [exact Hs'|apply Hpre|exact Hn|exact HE|]. rewrite Hins, Hf. apply below_contents.
      unfold bytes_of. rewrite Er, concat_app. cbn [concat]. rewrite !length_app. lia.
    + intros s''. rewrite Hins, concat_app. cbn [concat]. by rewrite app_nil_r.
Qed.

Lemma add_file_spec done x rest s :
  files = done ++ x :: rest -> built s (contents_of done) -> wpe (add_file ROOTINO x) s (fun _ s' => built s' (contents_of (done ++ [x]))) E.
Proof.
  intros Hf Hb. assert (Hx : hfile_ok x) by (rewrite Hf, Forall_app, Forall_cons in Hok; naive_solver).
  destruct Hx as (Hn8 & _). pose proof Hn as Hn'. rewrite Hf, length_app in Hn'. cbn [length] in Hn'.
  assert (Hl : length (contents_of done) = S (length done)) by (unfold contents_of; cbn [length]; by rewrite length_fmap).
  unfold add_file. apply wpe_bind, wpe_assert; intros Hd.
  2: { apply bool_decide_eq_false in Hd. destruct HE as [[Hnm _]|HE']; [|apply HE']. unfold named in Hnm.
       rewrite Hf, Forall_app, Forall_cons in Hnm. destruct Hnm as (_ & (_ & Hsl) & _). by destruct Hd. }
  destruct (h_open x) eqn:Hop; cbn [negb].
  2: { destruct HE as [[Hnm _]|HE']; [|apply HE']. unfold named in Hnm.
       rewrite Hf, Forall_app, Forall_cons in Hnm. destruct Hnm as (_ & (Hop' & _) & _). congruence. }
  apply wpe_bind, (ialloc_spec s (contents_of done) _ _ E); [done|rewrite Hl; lia|done|]. rewrite Hl.
  intros s1 Hb1 _. set (name := stored_name (h_name x)). set (inum := 1 + Z.of_nat (S (length done))).
  assert (Hroot : root_data (done ++ [x]) = root_data done ++ dirent inum name).
  { rewrite root_data_app. unfold dirents. cbn [imap concat]. rewrite app_nil_r. do 2 f_equal. unfold inum. lia. }
  assert (Hins : <[0%nat := (T_DIR, root_data done ++ dirent inum name)]> (contents_of done ++ [(T_FILE, [])]) =
    (T_DIR, root_data (done ++ [x])) :: (file_of <$> done) ++ [(T_FILE, [])]) by (by rewrite Hroot).
  apply wpe_bind. change ROOTINO with (1 + Z.of_nat 0). eapply (iappend_spec s1 _ 0 T_DIR (root_data done) _ _ E); [exact Hb1|done| | |].
  - apply dirent_u8, stored_u8, Hn8.
  - eapply (room_below s1 _ 0 T_DIR (root_data done)); [exact Hb1|done|exact Hn|exact HE|].
    rewrite Hins, Hf. apply below_contents. cbn [length]. lia.
  - rewrite Hins. intros s2 Hb2. replace inum with (2 + Z.of_nat (length done)) by (unfold inum; lia). by eapply add_bytes.
Qed.

End adding.

(** ** The directory as a list of names *)

Fixpoint first_of (nm : list Z) (l : list (list Z * Z)) : option Z :=
  match l with
  | [] => None
  | (n, i) :: l => if decide (nm = n) then Some i else first_of nm l
  end.

(** The names in the root directory, and their inodes. *)
Definition listing (files : list hfile) : list (list Z * Z) :=
  ([46], 1) :: ([46; 46], 1) :: imap (fun i f => (cname (stored_name (h_name f)), 2 + Z.of_nat i)) files.

Definition names (e : list Z) (p : list Z * Z) : Prop := de_inum e = p.2 /\ p.2 <> 0 /\ cname (de_name e) = p.1.

Lemma dir_find_names es ls zs k nm :
  Forall2 names es ls -> Forall (fun z => de_inum z = 0) zs -> snd <$> dir_find (es ++ zs) k nm = first_of nm ls.
Proof.
  intros Hes Hzs. revert k. induction Hes as [|e [n i] es ls (H1 & H2 & H3) _ IH]; intros k; cbn [app dir_find first_of].
  - induction Hzs as [|z zs Hz _ IHz] in k |- *; [done|]. cbn [dir_find]. rewrite Hz. cbn. apply IHz.
  - cbn in H1, H2, H3. subst i n. rewrite (proj2 (Z.eqb_neq _ _) H2). cbn [negb andb].
    destruct (decide (nm = cname (de_name e))) as [->|Hne]; [by rewrite bool_decide_eq_true_2|]. by rewrite bool_decide_eq_false_2.
Qed.

Lemma root_names files : (length files <= 198)%nat -> Forall2 names (root_dents files) (listing files).
Proof.
  intros Hn. assert (Hd : forall inum nm, 0 < inum < 2 ^ 16 -> names (dirent inum nm) (cname nm, inum)).
  { intros inum nm Hi. rewrite dirent_new by lia. destruct (new_dent_spec nm inum ltac:(lia)) as (_ & H1 & H2). split_and!; cbn; (done || lia). }
  constructor; [by apply (Hd 1 [46])|]. constructor; [by apply (Hd 1 [46; 46])|]. apply Forall2_same_length_lookup_2.
  - unfold dirents. by rewrite !length_imap.
  - intros i e p He Hp. unfold dirents in He. rewrite list_lookup_imap in He. rewrite list_lookup_imap in Hp. destruct (files !! i) as [f|] eqn:Hf; [|done].
    cbn in He, Hp. injection He as <-. injection Hp as <-. apply lookup_lt_Some in Hf. apply Hd. lia.
Qed.

Lemma first_of_range files nm j : first_of nm (listing files) = Some j -> 1 <= j <= 1 + Z.of_nat (length files).
Proof.
  intros H. assert (Hall : Forall (fun p : list Z * Z => 1 <= p.2 <= 1 + Z.of_nat (length files)) (listing files)).
  { constructor; [cbn; lia|]. constructor; [cbn; lia|]. apply Forall_lookup. intros i p Hp. rewrite list_lookup_imap in Hp.
    destruct (files !! i) as [f|] eqn:Hf; [|done]. cbn in Hp. injection Hp as <-. apply lookup_lt_Some in Hf. cbn [snd]. lia. }
  induction Hall as [|[n i] l Hi _ IH]; [done|]. cbn [first_of] in H. destruct (decide (nm = n)); [by injection H as <-|by apply IH].
Qed.

(** Splitting a directory between entries. *)
Lemma dents_zero n : Forall (fun z => de_inum z = 0) (dents (replicate n 0)).
Proof.
  apply Forall_lookup. intros i z Hz. apply lookup_lt_Some in Hz as Hlt. rewrite length_dents in Hlt. rewrite dents_lookup in Hz by done.
  injection Hz as <-. unfold de_inum, get16, dent, sub. rewrite drop_replicate, take_replicate, drop_replicate, take_replicate.
  generalize (2 `min` ((16 `min` (n - 16 * i)) - 0))%nat. intros m. induction m; cbn; lia.
Qed.

(** The root directory, filled up with zeros, maps names as listed. *)
Lemma root_lookup files n nm : (length files <= 198)%nat ->
  dir_lookup (root_data files ++ replicate n 0) nm = first_of nm (listing files).
Proof.
  intros Hn. unfold dir_lookup, root_data. rewrite dents_concat by apply root_dents_16.
  apply dir_find_names; [by apply root_names|apply dents_zero].
Qed.

(** ** The finished image *)

Record image_ok (D : list block) (files : list hfile) : Prop := {
  io_length : length D = Z.to_nat FSSIZE;
  io_blocks : Forall block_ok D;
  io_sb : decode_sb (dat D 1) = mk_sb;
  io_log : dat D (sb_logstart mk_sb) = zero_block;
  io_meta : meta_used mk_sb D;
  io_in_use inum : in_use mk_sb D inum <-> 1 <= inum <= 1 + Z.of_nat (length files);
  io_good inum : in_use mk_sb D inum -> inode_good mk_sb D inum;
  io_disjoint i j x : in_use mk_sb D i -> in_use mk_sb D j -> i <> j ->
    owned D (inode_of mk_sb D i) x -> ~ owned D (inode_of mk_sb D j) x;
  io_dir nm : d_type (inode_of mk_sb D ROOTINO) = T_DIR /\
    dir_lookup (fdata D (inode_of mk_sb D ROOTINO)) nm = first_of nm (listing files);
  io_file k f : files !! k = Some f ->
    d_type (inode_of mk_sb D (2 + Z.of_nat k)) = T_FILE /\ fdata D (inode_of mk_sb D (2 + Z.of_nat k)) = bytes_of f
}.

Lemma file_in_fdata D di ty data : file_in D di ty data -> fdata D di = data.
Proof.
  intros [F1 F2 _ F4 _]. pose proof (wf_size _ _ _ F2) as Hs. rewrite F1 in Hs. cbn [d_size] in Hs. apply list_eq. intros i.
  assert (Hl : Z.to_nat (d_size di) = length data) by (rewrite F1; cbn; lia). destruct (decide (i < length data)%nat) as [Hi|Hi].
  - rewrite fdata_lookup, F4 by lia. unfold byte_at. rewrite Nat2Z.id. by destruct (lookup_lt_is_Some_2 data i Hi) as [b ->].
  - rewrite !lookup_ge_None_2; [done|lia|rewrite length_fdata; lia].
Qed.

Section final.
Context (s : mkfs) (files : list hfile).
Hypothesis Hb : built s (contents_of files).
Hypothesis Hn : (length files <= 198)%nat.
Hypothesis Hpart : (Z.of_nat (length files) + 2) mod 32 <> 0.
Let len := Z.of_nat (length (root_data files)).
Let D0 := vdisk (img s) (freeblock s).
Let di := inode_of mk_sb D0 ROOTINO.
Let off := (len / BSIZE + 1) * BSIZE.
Let di' := set_d_size off di.
Let D := vdisk (updated mk_sb (img s) ROOTINO di') (freeblock s).

Lemma root_file : file_in D0 di T_DIR (root_data files).
Proof. by apply (bu_file _ _ Hb 0). Qed.

Lemma root_size : len = 16 * (2 + Z.of_nat (length files)) /\ len < off <= MAXFILE * BSIZE /\ off = 512 * nblk len /\ off mod 16 = 0.
Proof.
  unfold off, len, nblk. rewrite length_root_data. change (MAXFILE * BSIZE) with 71680. change BSIZE with 512. split; [lia|].
  Z.to_euclidean_division_equations. lia.
Qed.

(** The size is rounded up to the end of the last block. *)
Lemma root_fixed : wf_file mk_sb D0 di' /\ dinode_ok di' /\ fdata D0 di' = root_data files ++ replicate (Z.to_nat (off - len)) 0.
Proof.
  destruct root_file as [F1 F2 F3 F4 F5]. destruct root_size as (Hl & Ho & Hob & _).
  assert (Hwf : wf_file mk_sb D0 di').
  { apply (resize_wf mk_view); [done|lia|]. intros q Hq Hlt. apply (xa_addr _ _ _ F5); fold len.
    - change MAXFILE with 140 in *. change BSIZE with 512 in *. lia.
    - rewrite Hob in Hlt. unfold nblk in *. change BSIZE with 512 in *. Z.to_euclidean_division_equations. lia. }
  split; [done|]. split.
  - apply (wf_dinode_ok mk_view 0 mk_view_one 1000 mk_sb_ok D0 di di' Hwf F3). unfold di'. by destruct di.
  - apply list_eq. intros i. destruct (decide (i < Z.to_nat off)%nat) as [Hi|Hi].
    + rewrite fdata_lookup by done. change (file_byte D0 di' (Z.of_nat i)) with (file_byte D0 di (Z.of_nat i)). rewrite F4 by lia.
      unfold byte_at. rewrite Nat2Z.id. destruct (decide (i < length (root_data files))%nat) as [Hr|Hr].
      * rewrite lookup_app_l by done. by destruct (lookup_lt_is_Some_2 _ _ Hr) as [b ->].
      * rewrite (lookup_ge_None_2 (root_data files)), lookup_app_r, lookup_replicate_2 by (unfold len in *; lia). done.
    + rewrite !lookup_ge_None_2; [done| |rewrite length_fdata; cbn [d_size di' set_d_size]; lia].
      rewrite length_app, length_replicate. unfold len in *. lia.
Qed.

Lemma final_D : D = updated mk_sb D0 ROOTINO di'.
Proof. by apply updated_vdisk. Qed.

Lemma final_same d x : wf_file mk_sb D0 d -> owned D0 d x -> D !! Z.to_nat x = D0 !! Z.to_nat x /\ data_used mk_sb D x.
Proof. intros Hd Ho. rewrite final_D. destruct (sane_vok _ _ (bu_sane _ _ Hb)). by apply (updated_same mk_sb 1000 mk_sb_ok D0 ROOTINO d). Qed.

Lemma final_inode j : 0 <= j < 200 -> inode_of mk_sb D j = if j =? ROOTINO then di' else inode_of mk_sb D0 j.
Proof.
  intros Hj. rewrite final_D. destruct (sane_vok _ _ (bu_sane _ _ Hb)) as [Hok Hl]. destruct root_fixed as (_ & Hdok & _).
  destruct (Z.eqb_spec j ROOTINO) as [->|Hne]; [by apply (updated_inode mk_sb 1000 mk_sb_ok)|by apply (updated_inode_ne mk_sb 1000 mk_sb_ok)].
Qed.

(** Inode [1 + k] after the last step. *)
Lemma final_file k ty data : contents_of files !! k = Some (ty, data) ->
  let d := inode_of mk_sb D (1 + Z.of_nat k) in
  d_type d = ty /\ wf_file mk_sb D d /\ dinode_ok d /\ d_nlink d = 1 /\
  fdata D d = data ++ (if (k =? 0)%nat then replicate (Z.to_nat (off - len)) 0 else []) /\
  forall x, owned D d x <-> owned D0 (inode_of mk_sb D0 (1 + Z.of_nat k)) x.
Proof.
  intros Hk d. apply lookup_lt_Some in Hk as Hlt. unfold contents_of in Hlt. cbn [length] in Hlt. rewrite length_fmap in Hlt.
  pose proof (bu_file _ _ Hb k ty data Hk) as Hf. fold D0 in Hf. unfold d. rewrite final_inode by lia. destruct (Z.eqb_spec (1 + Z.of_nat k) ROOTINO) as [E|Hne].
  - assert (k = 0%nat) as -> by (unfold ROOTINO in E; lia). destruct root_fixed as (Hwf & Hdok & Hd). injection Hk as <- <-.
    assert (Hs : forall x, owned D0 di' x -> D !! Z.to_nat x = D0 !! Z.to_nat x /\ data_used mk_sb D x) by (intros x; by apply final_same).
    pose proof (fi_di _ _ _ _ root_file) as E1. split_and!; [unfold di'; by rewrite E1|by eapply same_wf|done|unfold di'; by rewrite E1| |].
    + by rewrite (same_fdata mk_sb D0 D di' Hwf Hs), Hd.
    + intros x. rewrite (same_owned mk_sb D0 D di' Hs). done.
  - assert ((k =? 0)%nat = false) as -> by (apply Nat.eqb_neq; unfold ROOTINO in Hne; lia). rewrite app_nil_r.
    assert (Hs : forall x, owned D0 (inode_of mk_sb D0 (1 + Z.of_nat k)) x -> D !! Z.to_nat x = D0 !! Z.to_nat x /\ data_used mk_sb D x)
      by (intros x; apply final_same, Hf).
    pose proof (file_in_same _ _ _ _ _ Hf Hs) as Hf'. pose proof (fi_di _ _ _ _ Hf') as E1.
    split_and!; [by rewrite E1|apply Hf'|apply Hf'|by rewrite E1|by eapply file_in_fdata|]. intros x. by apply (same_owned mk_sb D0 D).
Qed.

Lemma final_contents inum : 1 <= inum <= 1 + Z.of_nat (length files) ->
  exists k ty data, inum = 1 + Z.of_nat k /\ contents_of files !! k = Some (ty, data) /\ ty <> 0 /\ (k <> 0%nat -> ty <> T_DIR).
Proof.
  intros Hi. destruct (lookup_lt_is_Some_2 (contents_of files) (Z.to_nat (inum - 1))) as [[ty data] Hk].
  { unfold contents_of. cbn [length]. rewrite length_fmap. lia. }
  exists (Z.to_nat (inum - 1)), ty, data. split; [lia|]. split; [done|]. destruct (Z.to_nat (inum - 1)) as [|k].
  - injection Hk as <- <-. done.
  - change ((file_of <$> files) !! k = Some (ty, data)) in Hk. rewrite list_lookup_fmap in Hk. destruct (files !! k); [|done].
    injection Hk as <- <-. done.
Qed.

Lemma final_in_use inum : in_use mk_sb D inum <-> 1 <= inum <= 1 + Z.of_nat (length files).
Proof.
  unfold in_use. change (sb_ninodes mk_sb) with 200. split.
  - intros [Hr Ht]. destruct (decide (1 <= inum <= 1 + Z.of_nat (length files))) as [|Hout]; [done|]. destruct Ht.
    rewrite final_inode, (proj2 (Z.eqb_neq _ _)) by (unfold ROOTINO; lia). apply (bu_free _ _ Hb). unfold contents_of. cbn [length]. rewrite length_fmap. lia.
  - intros Hi. split; [lia|]. destruct (final_contents inum Hi) as (k & ty & data & -> & Hk & Hty & _).
    by destruct (final_file k ty data Hk) as (-> & _).
Qed.

Lemma final_dir nm : dir_lookup (fdata D (inode_of mk_sb D ROOTINO)) nm = first_of nm (listing files).
Proof.
  destruct (final_file 0 T_DIR (root_data files) eq_refl) as (_ & _ & _ & _ & Hd & _). change (1 + Z.of_nat 0) with ROOTINO in Hd.
  rewrite Hd. by apply root_lookup.
Qed.

Lemma final_good inum : in_use mk_sb D inum -> inode_good mk_sb D inum.
Proof.
  intros Hu. apply final_in_use in Hu. destruct (final_contents inum Hu) as (k & ty & data & -> & Hk & _ & Hdir).
  destruct (final_file k ty data Hk) as (Ht & Hwf & Hdok & Hl & Hd & _). split_and!; [done|done|lia|]. rewrite Ht. intros ->.
  assert (k = 0%nat) as -> by (destruct (decide (k = 0%nat)); [done|by destruct (Hdir ltac:(done))]). injection Hk as <-. split.
  - rewrite Hd. cbn [Nat.eqb]. rewrite length_app, length_replicate. destruct root_size as (Hl1 & Ho1 & _ & Hm). unfold len in *.
    replace (length (root_data files) + Z.to_nat (off - Z.of_nat (length (root_data files))))%nat with (Z.to_nat off) by lia.
    apply Z.div_exact in Hm; [|lia]. rewrite Hm at 1. replace (Z.to_nat off / 16)%nat with (Z.to_nat (off / 16)); [lia|].
    rewrite Z2Nat.inj_div by lia. done.
  - intros nm j. change (1 + Z.of_nat 0) with ROOTINO. rewrite final_dir. intros Hj%first_of_range. by apply final_in_use.
Qed.

Lemma final_ok : image_ok D files.
Proof.
  pose proof (bu_sane _ _ Hb) as Hs. destruct root_fixed as (_ & Hdok & _).
  assert (Hs' : sane (updated mk_sb (img s) ROOTINO di') (freeblock s)) by (by apply sane_updated).
  assert (Hlow : forall x, 0 <= x < 32 -> dat D x = if x =? 1 then sb_block else zero_block).
  { intros x Hx. unfold D. rewrite dat_vdisk by lia. unfold dat, updated. pose proof (mk_IBLOCK ROOTINO ltac:(done)).
    rewrite list_lookup_insert_ne by lia. by rewrite (bu_low _ _ Hb) by done. }
  split.
  - by apply (sane_vok _ _ Hs').
  - by apply (sane_vok _ _ Hs').
  - rewrite Hlow by done. vm_compute. reflexivity.
  - rewrite Hlow by done. reflexivity.
  - by apply sane_meta.
  - apply final_in_use.
  - apply final_good.
  - intros i j x Hi%final_in_use Hj%final_in_use Hne.
    destruct (final_contents i Hi) as (k & ty & data & -> & Hk & _). destruct (final_contents j Hj) as (m & ty' & data' & -> & Hm & _).
    destruct (final_file k ty data Hk) as (_ & _ & _ & _ & _ & E1). destruct (final_file m ty' data' Hm) as (_ & _ & _ & _ & _ & E2).
    rewrite E1, E2. apply (bu_disj _ _ Hb); [by eapply lookup_lt_Some|by eapply lookup_lt_Some|lia].
  - intros nm. split; [|apply final_dir]. exact (proj1 (final_file 0 T_DIR (root_data files) eq_refl)).
  - intros k f Hf. assert (Hk : contents_of files !! S k = Some (T_FILE, bytes_of f)).
    { change ((file_of <$> files) !! k = Some (T_FILE, bytes_of f)). by rewrite list_lookup_fmap, Hf. }
    destruct (final_file (S k) _ _ Hk) as (Ht & _ & _ & _ & Hd & _). cbn [Nat.eqb] in Hd. rewrite app_nil_r in Hd.
    by replace (2 + Z.of_nat k) with (1 + Z.of_nat (S k)) by lia.
Qed.

End final.

(** ** main *)

(** Up to the last steps of main. *)
Definition rounded (files : list hfile) : Z := (Z.of_nat (length (root_data files)) / BSIZE + 1) * BSIZE.

Lemma mkroot_room files (E : stop -> mkfs -> Prop) s data p :
  built s [(T_DIR, data)] -> (length files <= 198)%nat -> fits_or files E -> (length (data ++ p) <= 32)%nat ->
  room_or E (freeblock s) (Z.of_nat (length data)) p.
Proof.
  intros Hb Hn HE Hl. eapply (room_below s _ 0 T_DIR data p files); [exact Hb|done|done|exact HE|].
  intros k f Hk. destruct k as [|k]; [|done]. injection Hk as <-. eexists. split; [reflexivity|]. cbn [snd]. rewrite length_root_data. lia.
Qed.

Lemma layout_nmeta : 2 + nlog + ninodeblocks + nbitmap = 59.
Proof. vm_compute. reflexivity. Qed.

Lemma layout_sb : SuperBlock (xint FSSIZE) (xint (FSSIZE - (2 + nlog + ninodeblocks + nbitmap))) (xint NINODES) (xint nlog) (xint 2)
  (xint (2 + nlog)) (xint (2 + nlog + ninodeblocks)) = mk_sb.
Proof. vm_compute. reflexivity. Qed.

Lemma empty_image_spec (Q : unit -> mkfs -> Prop) E {RE : Refusable E} : Q tt (Mkfs boot_image mk_sb 1 59) -> wpe empty_image mkfs_start Q E.
Proof.
  intros HQ. unfold empty_image. apply wpe_bind, wpe_modify. cbv zeta. rewrite layout_sb, layout_nmeta.
  apply wpe_bind, wpe_modify. apply wpe_bind, wpe_modify.
  apply wpe_bind, (zeroed _ _ E); [done|].
  apply (wpe_wsect _ _ _ _ E); [apply length_replicate|lia|]. exact HQ.
Qed.

Lemma root_data_nil : root_data [] = dirent 1 [46] ++ dirent 1 [46; 46].
Proof. unfold root_data, root_dents, dirents. cbn [imap concat]. by rewrite app_nil_r. Qed.

Lemma make_root_spec files s (Q : Z -> mkfs -> Prop) E {RE : Refusable E} :
  built s [] -> (length files <= 198)%nat -> fits_or files E ->
  (forall s', built s' (contents_of []) -> Q ROOTINO s') -> wpe make_root s Q E.
Proof.
  intros Hb Hn HE HQ. unfold make_root. apply wpe_bind, (ialloc_spec _ [] T_DIR _ E); [done|cbn; lia|done|]. intros s2 Hb2 _.
  change (1 + Z.of_nat (length [])) with ROOTINO. cbn [app] in Hb2.
  assert (H8 : forall nm, Forall in_u8 nm -> Forall in_u8 (dirent ROOTINO nm)) by (intros; by apply dirent_u8).
  apply wpe_bind, wpe_ret. apply wpe_bind. change ROOTINO with (1 + Z.of_nat 0) at 1.
  eapply (iappend_spec s2 _ 0 T_DIR [] _ _ E); [exact Hb2|done| | |].
  { apply H8. repeat constructor; unfold in_u8; lia. }
  { eapply mkroot_room; [exact Hb2|exact Hn|exact HE|]. cbn [app]. rewrite length_dirent. lia. }
  intros s3 Hb3. change (<[0%nat := ?x]> [(T_DIR, [])]) with [x] in Hb3. cbn [app] in Hb3.
  apply wpe_bind. change ROOTINO with (1 + Z.of_nat 0) at 1. eapply (iappend_spec s3 _ 0 T_DIR (dirent ROOTINO [46]) _ _ E); [exact Hb3|done| | |].
  { apply H8. repeat constructor; unfold in_u8; lia. }
  { eapply mkroot_room; [exact Hb3|exact Hn|exact HE|]. rewrite length_app, !length_dirent. lia. }
  intros s4 Hb4. change (<[0%nat := ?x]> [(T_DIR, ?y)]) with [x] in Hb4. apply wpe_ret, HQ. unfold contents_of. rewrite root_data_nil. exact Hb4.
Qed.

Lemma fix_root_spec files s (Q : unit -> mkfs -> Prop) E {RE : Refusable E} :
  built s (contents_of files) -> (length files <= 198)%nat ->
  (let di := inode_of mk_sb (vdisk (img s) (freeblock s)) ROOTINO in
   Q tt (set_img (updated mk_sb (img s) ROOTINO (set_d_size (rounded files) di)) s)) -> wpe (fix_root ROOTINO) s Q E.
Proof.
  intros Hb Hn HQ. pose proof (bu_file _ _ Hb 0 _ _ eq_refl) as Hroot. change (1 + Z.of_nat 0) with ROOTINO in Hroot. unfold fix_root.
  apply wpe_bind, (wpe_rinode _ _ _ E); [apply Hb|apply Hb|done|]. rewrite <- (inode_of_vdisk _ (freeblock s)) by done.
  set (di := inode_of _ _ _) in *. assert (Esz : d_size di = Z.of_nat (length (root_data files))) by (by rewrite (fi_di _ _ _ _ Hroot)).
  pose proof (length_root_data files) as Hl. rewrite Esz, (xint_id (Z.of_nat (length (root_data files)))) by (unfold in_u32; lia).
  assert (Hr : 0 <= rounded files < 2 ^ 32) by (unfold rounded; rewrite Hl; change BSIZE with 512; Z.to_euclidean_division_equations; lia).
  fold (rounded files). rewrite u32_small by (unfold in_u32; lia). rewrite xint_id by (unfold in_u32; lia).
  apply (wpe_winode _ _ _ _ E); [apply Hb|apply Hb|done|]. exact HQ.
Qed.

Lemma main_built out files (Q : unit -> mkfs -> Prop) E {RE : Refusable E} :
  h_open out = true -> Forall hfile_ok files -> (length files <= 198)%nat -> fits_or files E ->
  (forall s, built s (contents_of files) ->
     let di := inode_of mk_sb (vdisk (img s) (freeblock s)) ROOTINO in
     Q tt (set_img (vdisk (updated mk_sb (img s) ROOTINO (set_d_size (rounded files) di)) (freeblock s)) s)) ->
  wpe (main (out :: files)) mkfs_start Q E.
Proof.
  intros Hop Hok Hn HE HQ. unfold main. apply wpe_bind, wpe_ret. apply wpe_bind, wpe_ret. rewrite Hop. cbn [negb].
  apply wpe_bind, (empty_image_spec _ E). apply wpe_bind, (make_root_spec files _ _ E); [apply boot_built|done|done|]. intros s4 Hb4.
  apply wpe_bind. eapply wpe_mono; [| |apply (wpe_for_each (fun done s' => built s' (contents_of done)))]; [|by auto|exact Hb4|].
  2: { intros done x rest s' Hf Hs'. by eapply (add_file_spec files). }
  intros [] s5 Hb5. apply wpe_bind, (fix_root_spec files _ _ E); [done|done|]. cbv zeta. apply wpe_bind, wpe_gets. cbn [freeblock set_img].
  pose proof (sn_fb _ _ (bu_sane _ _ Hb5)) as Hfb. unfold balloc. apply wpe_bind, wpe_assert; intros Hlt.
  2: { apply Z.ltb_ge in Hlt. change (BSIZE * 8) with 4096 in Hlt. lia. }
  apply wpe_bind, wpe_get. cbn [msb set_img]. rewrite (bu_sb _ _ Hb5). change (sb_bmapstart mk_sb) with 58.
  apply (wpe_wsect _ _ _ _ E); [|lia|exact (HQ s5 Hb5)]. cbn [img set_img]. unfold updated. rewrite length_insert. apply (bu_sane _ _ Hb5).
Qed.

(** Why mkfs stops before its end: a file cannot be opened or has a name with
    a slash, the files do not fit, or the host has refused a call on the
    image. *)
Definition cannot_finish (files : list hfile) (w : stop) (s : mkfs) : Prop :=
  ~ named files \/ ~ fits files \/ w = Exited /\ host_error s.

Lemma cannot_finish_or files : fits_or files (cannot_finish files).
Proof.
  unfold cannot_finish. destruct (decide (named files)); [|right; by left]. destruct (decide (fits files)); [by left|right; auto].
Qed.

#[local] Instance cannot_finish_refusable files : Refusable (cannot_finish files).
Proof. intros s Hs. right. by right. Qed.

(** C24: mkfs builds a file system. Given up to 198 files, whose number and
    the two entries of the root do not fill whole blocks, and an image file
    that can be opened, mkfs leaves an image with the super block, an empty
    log and a bitmap in which the blocks of the layout are in use; the inodes
    in use are those of the root and of the files, each of them is in order as
    the kernel relies on, no two of them share a block, the root maps every
    name to the inode of the first file of that name, and every inode holds
    the bytes that were read from its file. mkfs stops early only when a file
    cannot be opened or has a name with a slash, when the files do not fit, or
    when the host refuses to seek, to read or to write in the image. *)
Theorem mkfs_builds out files :
  h_open out = true -> Forall hfile_ok files -> (length files <= 198)%nat -> (Z.of_nat (length files) + 2) mod 32 <> 0 ->
  wpe (main (out :: files)) mkfs_start (fun _ s' => image_ok (img s') files) (cannot_finish files).
Proof.
  intros Hop Hok Hn Hp. apply (main_built out files _ (cannot_finish files)); try done; [apply cannot_finish_or|].
  intros s Hb di. cbn [img set_img]. exact (final_ok s files Hb Hn Hp).
Qed.

(** When the entries of the root fill whole blocks, the last step makes the
    root one block larger than the blocks it has. *)
Theorem mkfs_root_hole out files :
  h_open out = true -> Forall hfile_ok files -> (length files <= 198)%nat -> (Z.of_nat (length files) + 2) mod 32 = 0 ->
  wpe (main (out :: files)) mkfs_start
    (fun _ s' => let di := inode_of mk_sb (img s') ROOTINO in
       exists n, 0 <= n /\ n * BSIZE < d_size di /\ addr (img s') di n = 0)
    (cannot_finish files).
Proof.
  intros Hop Hok Hn Hp. apply (main_built out files _ (cannot_finish files)); try done; [apply cannot_finish_or|].
  intros s Hb di. cbn [img set_img]. pose proof (bu_file _ _ Hb 0 _ _ eq_refl) as Hroot. change (1 + Z.of_nat 0) with ROOTINO in Hroot. fold di in Hroot.
  destruct (sane_vok _ _ (bu_sane _ _ Hb)) as [Hbok Hl]. pose proof (length_root_data files) as Hlr.
  set (di' := set_d_size (rounded files) di). rewrite updated_vdisk by done.
  assert (Hs : forall x, owned (vdisk (img s) (freeblock s)) di x -> updated mk_sb (vdisk (img s) (freeblock s)) ROOTINO di' !! Z.to_nat x =
    vdisk (img s) (freeblock s) !! Z.to_nat x /\ data_used mk_sb (updated mk_sb (vdisk (img s) (freeblock s)) ROOTINO di') x).
  { intros x Hx. apply (updated_same mk_sb 1000 mk_sb_ok _ ROOTINO di); try done. apply Hroot. }
  assert (Hdok : dinode_ok di').
  { destruct (fi_ok _ _ _ _ Hroot) as [K1 K2 K3 K4 K5 K6 K7]. split; try done. cbn. unfold in_u32, rounded. rewrite Hlr. change BSIZE with 512.
    Z.to_euclidean_division_equations. lia. }
  rewrite (updated_inode mk_sb 1000 mk_sb_ok) by done. set (n := Z.of_nat (length (root_data files)) / BSIZE).
  assert (Hn0 : 0 <= n < MAXFILE) by (unfold n; rewrite Hlr; change BSIZE with 512; change MAXFILE with 140; Z.to_euclidean_division_equations; lia).
  exists n. split; [lia|]. split.
  - change (d_size di') with ((n + 1) * BSIZE). change BSIZE with 512. lia.
  - change (addr ?d di' n) with (addr d di n). rewrite (same_addr mk_sb _ _ di Hs) by done. apply dec_stable. intros Ha.
    apply (xa_addr _ _ _ (fi_exact _ _ _ _ Hroot)) in Ha; [|done]. unfold n in Ha. rewrite Hlr in Ha. change BSIZE with 512 in Ha.
    Z.to_euclidean_division_equations. lia.
Qed.

End host.

(** A host that refuses nothing. *)
#[local] Instance good_host : Host := {|
  h_lseek _ _ := true;
  h_read _ _ := true;
  h_write _ _ _ := None
|}.

Lemma good_host_error s : ~ host_error s.
Proof. by intros []. Qed.

(** The files README and _cat, the second with more than a block. *)
Definition demo_out : hfile := HFile ([102; 115; 46; 105; 109; 103]) true [].
Definition demo_files : list hfile :=
  [HFile ([82; 69; 65; 68; 77; 69]) true [[120; 118; 54]]; HFile ([95; 99; 97; 116]) true [replicate 512 65; replicate 100 66]].

Lemma mkfs_builds_witness :
  listing demo_files = [([46], 1); ([46; 46], 1); ([82; 69; 65; 68; 77; 69], 2); ([99; 97; 116], 3)] /\
  wp (main (demo_out :: demo_files)) mkfs_start (fun _ s' => image_ok (img s') demo_files).
Proof.
  split; [vm_compute; reflexivity|].
  assert (H8 : forall l, forallb (fun x => (0 <=? x) && (x <? 256)) l = true -> Forall in_u8 l).
  { intros l Hl. apply Forall_forall. intros x Hx%list_elem_of_In. apply (proj1 (forallb_forall _ _) Hl) in Hx. unfold in_u8. lia. }
  eapply wpe_mono; [| |apply (mkfs_builds demo_out demo_files); [done| |cbn; lia|vm_compute; discriminate]]; [done| |].
  - intros w s [H|[H|[_ H]]]; [| |by apply good_host_error in H].
    + apply H. apply (proj1 (bool_decide_eq_true (named demo_files))). vm_compute. reflexivity.
    + apply H. apply (proj1 (bool_decide_eq_true (fits demo_files))). vm_compute. reflexivity.
  - apply Forall_cons. split; [|apply Forall_cons; split; [|apply Forall_nil_2]]; (split; [by apply H8|]);
      repeat (apply Forall_cons; split; [by apply H8|]); by apply Forall_nil_2.
Defined.
