(* ===== verification/Pipe.v ===== *)
(** Pipes: [pipe.c].

    A pipe is a ring of PIPESIZE bytes with two free-running 32-bit counters.
    A process that sleeps inside [pipewrite] or [piperead] gives up the lock;
    when it is woken it takes the lock again and returns to the test of its
    loop, with the bytes it has still to write. The killed flag of the calling
    process is an argument. *)

From S2P Require Import Prelude.

Open Scope Z_scope.

Definition PIPESIZE : Z := 512.

Record pipe := Pipe {
  p_lock : bool;
  p_data : list Z;
  nread : Z;          (* number of bytes read *)
  nwrite : Z;         (* number of bytes written *)
  readopen : Z;
  writeopen : Z;
  woke_nread : Z;     (* calls of wakeup(&p->nread) so far *)
  woke_nwrite : Z     (* calls of wakeup(&p->nwrite) so far *)
}.

Definition set_p_lock b p :=
  Pipe b (p_data p) (nread p) (nwrite p) (readopen p) (writeopen p) (woke_nread p) (woke_nwrite p).
Definition set_nread v p :=
  Pipe (p_lock p) (p_data p) v (nwrite p) (readopen p) (writeopen p) (woke_nread p) (woke_nwrite p).
Definition set_readopen v p :=
  Pipe (p_lock p) (p_data p) (nread p) (nwrite p) v (writeopen p) (woke_nread p) (woke_nwrite p).
Definition set_writeopen v p :=
  Pipe (p_lock p) (p_data p) (nread p) (nwrite p) (readopen p) v (woke_nread p) (woke_nwrite p).

(** [p->data[p->nwrite++ % PIPESIZE] = c] *)
Definition push_byte (c : Z) (p : pipe) : pipe :=
  Pipe (p_lock p) (<[Z.to_nat (nwrite p mod PIPESIZE) := c]> (p_data p)) (nread p) (u32 (nwrite p + 1))
    (readopen p) (writeopen p) (woke_nread p) (woke_nwrite p).

Definition acquire_pipe : M pipe unit :=
  p ← get; if p_lock p then panic "acquire" else put (set_p_lock true p).
Definition release_pipe : M pipe unit :=
  p ← get; if p_lock p then put (set_p_lock false p) else panic "release".
Definition wakeup_nread : M pipe unit :=
  modify (fun p => Pipe (p_lock p) (p_data p) (nread p) (nwrite p) (readopen p) (writeopen p)
                     (woke_nread p + 1) (woke_nwrite p)).
Definition wakeup_nwrite : M pipe unit :=
  modify (fun p => Pipe (p_lock p) (p_data p) (nread p) (nwrite p) (readopen p) (writeopen p)
                     (woke_nread p) (woke_nwrite p + 1)).

(** The fields that pipealloc sets in the page it allocates. *)
Definition pipe_init : M pipe unit :=
  modify (fun p => Pipe false (p_data p) 0 0 1 1 (woke_nread p) (woke_nwrite p)).

(** Returns whether the page of the pipe was freed. *)
Definition pipeclose (writable : bool) : M pipe bool :=
  acquire_pipe ;;
  (if writable then modify (set_writeopen 0) ;; wakeup_nread
   else modify (set_readopen 0) ;; wakeup_nwrite) ;;
  p ← get;
  if (readopen p =? 0) && (writeopen p =? 0) then release_pipe ;; mret true
  else release_pipe ;; mret false.

(** How a call of pipewrite ends: it returned [n] or -1, or it sleeps on
    [&p->nwrite] with these bytes left to write. *)
Inductive write_result :=
  | Wrote
  | WriteFailed
  | WriteSleeps (rest : list Z).

Fixpoint pipewrite_loop (killed : bool) (bs : list Z) : M pipe write_result :=
  match bs with
  | [] => wakeup_nread ;; release_pipe ;; mret Wrote
  | c :: rest =>
      p ← get;
      if nwrite p =? u32 (nread p + PIPESIZE) then
        if (readopen p =? 0) || killed then release_pipe ;; mret WriteFailed
        else wakeup_nread ;; release_pipe ;; mret (WriteSleeps bs)
      else modify (push_byte c) ;; pipewrite_loop killed rest
  end.

Definition pipewrite (killed : bool) (bs : list Z) : M pipe write_result :=
  acquire_pipe ;; pipewrite_loop killed bs.

(** How a call of piperead ends: the bytes it returned, -1, or asleep on
    [&p->nread]. *)
Inductive read_result :=
  | Read (bs : list Z)
  | ReadFailed
  | ReadSleeps.

Fixpoint piperead_copy (n : nat) : M pipe (list Z) :=
  match n with
  | O => mret []
  | S n =>
      p ← get;
      if nread p =? nwrite p then mret []
      else
        let c := nth (Z.to_nat (nread p mod PIPESIZE)) (p_data p) 0 in
        modify (set_nread (u32 (nread p + 1))) ;;
        bs ← piperead_copy n;
        mret (c :: bs)
  end.

Definition piperead (killed : bool) (n : nat) : M pipe read_result :=
  acquire_pipe ;;
  p ← get;
  if (nread p =? nwrite p) && negb (writeopen p =? 0) then
    if killed then release_pipe ;; mret ReadFailed
    else release_pipe ;; mret ReadSleeps
  else
    bs ← piperead_copy n;
    wakeup_nwrite ;;
    release_pipe ;;
    mret (Read bs).

(** ** The pipe as a queue *)

(** The number of bytes in the pipe, and the bytes, oldest first. *)
Definition count (p : pipe) : Z := u32 (nwrite p - nread p).

Definition queue (p : pipe) : list Z :=
  (fun i => nth (Z.to_nat (u32 (nread p + Z.of_nat i) mod PIPESIZE)) (p_data p) 0) <$> seq 0 (Z.to_nat (count p)).

Record pipe_ok (p : pipe) : Prop := {
  po_data : length (p_data p) = Z.to_nat PIPESIZE;
  po_nread : in_u32 (nread p);
  po_nwrite : in_u32 (nwrite p);
  po_count : count p <= PIPESIZE
}.

Lemma count_range p : 0 <= count p < 2 ^ 32.
Proof. apply u32_range. Qed.

Lemma length_queue p : Z.of_nat (length (queue p)) = count p.
Proof. unfold queue. rewrite length_fmap, length_seq. pose proof (count_range p). lia. Qed.

(** Wrap-around at 2^32 does not disturb the positions in the ring. *)
Lemma u32_mod_pipe z : u32 z mod PIPESIZE = z mod PIPESIZE.
Proof.
  unfold u32, PIPESIZE. rewrite <- (Znumtheory.Zmod_div_mod 512 (2 ^ 32) z); [done|lia|lia|].
  exists (2 ^ 23). reflexivity.
Qed.

Lemma pipe_full_iff p : pipe_ok p -> (nwrite p =? u32 (nread p + PIPESIZE)) = (count p =? PIPESIZE).
Proof.
  intros [_ Hr Hw Hc]. apply eq_true_iff_eq. rewrite !Z.eqb_eq. unfold count, in_u32, PIPESIZE in *. split.
  - intros ->. rewrite u32_sub_l. replace (nread p + 512 - nread p) with 512 by lia. by apply u32_small.
  - intros Hf. unfold u32 in *. pose proof (Z.div_mod (nwrite p - nread p) (2 ^ 32) ltac:(lia)).
    apply (Z.mod_unique _ _ (- ((nwrite p - nread p) / 2 ^ 32))); lia.
Qed.

Lemma pipe_empty_iff p : pipe_ok p -> (nread p =? nwrite p) = (count p =? 0).
Proof.
  intros [_ Hr Hw _]. apply eq_true_iff_eq. rewrite !Z.eqb_eq. unfold count, u32, in_u32 in *. split.
  - intros ->. by rewrite Z.sub_diag.
  - intros Hf. apply Z.mod_divide in Hf as [q Hq]; lia.
Qed.

Lemma pipe_ok_set_lock p b : pipe_ok p -> pipe_ok (set_p_lock b p).
Proof. by intros []. Qed.

(** Pushing a byte at the back. *)
Lemma push_byte_ok p c : pipe_ok p -> count p <> PIPESIZE -> pipe_ok (push_byte c p).
Proof.
  intros [Hd Hr Hw Hc] Hne. split; simpl; [by rewrite length_insert|done|apply u32_range|].
  unfold count in *; simpl. rewrite u32_sub_l. replace (nwrite p + 1 - nread p) with (nwrite p - nread p + 1) by lia.
  rewrite <- u32_add_l, u32_small; [lia|]. pose proof (u32_range (nwrite p - nread p)). unfold in_u32, PIPESIZE in *. lia.
Qed.

Lemma push_byte_count p c : pipe_ok p -> count p <> PIPESIZE -> count (push_byte c p) = count p + 1.
Proof.
  intros [Hd Hr Hw Hc] Hne. unfold count in *; simpl. rewrite u32_sub_l.
  replace (nwrite p + 1 - nread p) with (nwrite p - nread p + 1) by lia.
  rewrite <- u32_add_l, u32_small; [lia|]. pose proof (u32_range (nwrite p - nread p)). unfold in_u32, PIPESIZE in *. lia.
Qed.

Lemma mod_inj_window a i j :
  0 <= i < PIPESIZE -> 0 <= j < PIPESIZE -> (a + i) mod PIPESIZE = (a + j) mod PIPESIZE -> i = j.
Proof.
  unfold PIPESIZE. intros Hi Hj H.
  pose proof (Z.div_mod (a + i) 512 ltac:(lia)). pose proof (Z.div_mod (a + j) 512 ltac:(lia)). lia.
Qed.

Lemma nwrite_pos p : pipe_ok p -> nwrite p mod PIPESIZE = (nread p + count p) mod PIPESIZE.
Proof.
  intros [_ Hr Hw _]. unfold count. rewrite <- (u32_mod_pipe (nread p + u32 (nwrite p - nread p))).
  rewrite u32_add_r. replace (nread p + (nwrite p - nread p)) with (nwrite p) by lia. by rewrite u32_mod_pipe.
Qed.

Lemma push_byte_queue p c :
  pipe_ok p -> count p <> PIPESIZE -> queue (push_byte c p) = queue p ++ [c].
Proof.
  intros Hok Hne. pose proof Hok as [Hd Hr Hw Hc]. pose proof (count_range p) as Hc0.
  assert (Hn : nwrite p mod PIPESIZE < PIPESIZE /\ 0 <= nwrite p mod PIPESIZE)
    by (unfold PIPESIZE; pose proof (Z.mod_pos_bound (nwrite p) 512); lia).
  unfold queue. rewrite push_byte_count by done.
  replace (Z.to_nat (count p + 1)) with (S (Z.to_nat (count p))) by lia. rewrite seq_S, fmap_app. f_equal.
  - apply list_fmap_ext. intros k i Hk. apply lookup_seq in Hk as [-> Hk]. cbn [p_data nread push_byte].
    rewrite !nth_lookup, list_lookup_insert_ne; [done|]. intros E.
    rewrite u32_mod_pipe, nwrite_pos in E by done.
    assert (0 + k < Z.to_nat (count p))%nat by lia.
    pose proof (mod_inj_window (nread p) (count p) (Z.of_nat (0 + k)) ltac:(unfold PIPESIZE in *; lia) ltac:(unfold PIPESIZE in *; lia)) as Hinj.
    unfold PIPESIZE in *. pose proof (Z.mod_pos_bound (nread p + count p) 512 ltac:(lia)).
    pose proof (Z.mod_pos_bound (nread p + Z.of_nat (0 + k)) 512 ltac:(lia)). lia.
  - cbn [fmap list_fmap p_data nread push_byte]. f_equal. rewrite nth_lookup, u32_mod_pipe.
    rewrite Nat.add_0_l, Z2Nat.id by lia. rewrite <- nwrite_pos by done. rewrite list_lookup_insert_eq; [done|lia].
Qed.

(** Popping the byte at the front. *)
Definition popped_byte (p : pipe) : pipe := set_nread (u32 (nread p + 1)) p.

Lemma pop_byte_count p : pipe_ok p -> count p <> 0 -> count (popped_byte p) = count p - 1.
Proof.
  intros Hok Hne. pose proof (count_range p). unfold count in *; simpl. rewrite u32_sub_r.
  replace (nwrite p - (nread p + 1)) with (nwrite p - nread p - 1) by lia.
  rewrite <- u32_sub_l, u32_small; [lia|]. unfold in_u32. lia.
Qed.

Lemma pop_byte_ok p : pipe_ok p -> count p <> 0 -> pipe_ok (popped_byte p).
Proof.
  intros Hok Hne. pose proof (pop_byte_count p Hok Hne). destruct Hok as [Hd Hr Hw Hc].
  split; simpl; [done|apply u32_range|done|lia].
Qed.

Lemma pop_byte_queue p :
  pipe_ok p -> count p <> 0 ->
  queue p = nth (Z.to_nat (nread p mod PIPESIZE)) (p_data p) 0 :: queue (popped_byte p).
Proof.
  intros Hok Hne. pose proof (pop_byte_count p Hok Hne) as Hc. pose proof (count_range p).
  unfold queue. rewrite Hc. replace (Z.to_nat (count p)) with (S (Z.to_nat (count p - 1))) by lia.
  cbn [seq fmap list_fmap]. f_equal.
  - by rewrite u32_mod_pipe, Z.add_0_r.
  - rewrite <- fmap_S_seq, <- list_fmap_compose. apply list_fmap_ext. intros k i _. unfold compose.
    cbn [p_data popped_byte set_nread nread]. do 2 f_equal. rewrite !u32_mod_pipe.
    rewrite <- (u32_mod_pipe (u32 _ + _)), u32_add_l, u32_mod_pipe. f_equal. lia.
Qed.

(** ** Each call, as an operation on the queue *)

Record writes (p p' : pipe) (bs rest : list Z) : Prop := {
  ws_split : exists done, bs = done ++ rest /\ queue p' = queue p ++ done;
  ws_ok : pipe_ok p';
  ws_lock : p_lock p' = false;
  ws_open : readopen p' = readopen p /\ writeopen p' = writeopen p
}.

Lemma pipewrite_loop_spec killed bs p :
  pipe_ok p -> p_lock p = true ->
  wp (pipewrite_loop killed bs) p (fun r p' => exists rest, writes p p' bs rest /\
    match r with
    | Wrote => rest = [] /\ woke_nread p' = woke_nread p + 1
    | WriteFailed => rest <> [] /\ count p' = PIPESIZE /\ (readopen p = 0 \/ killed = true)
    | WriteSleeps rest' => rest' = rest /\ rest <> [] /\ count p' = PIPESIZE /\ readopen p <> 0 /\
        killed = false /\ woke_nread p' = woke_nread p + 1
    end).
Proof.
  revert p; induction bs as [|c bs IH]; intros p Hok Hlk; cbn [pipewrite_loop].
  - unfold wakeup_nread, release_pipe. unfold wp, wpe. munfold. rewrite Hlk. exists [].
    split; [|done].
    split; simpl; [exists []; split; [done|by rewrite app_nil_r]|destruct Hok; by split|done|done].
  - apply wp_bind, wpe_get. rewrite pipe_full_iff by done.
    destruct (Z.eqb_spec (count p) PIPESIZE) as [Hf|Hf].
    + assert (Hnop : forall q, p_data q = p_data p -> nread q = nread p -> nwrite q = nwrite p ->
        readopen q = readopen p -> writeopen q = writeopen p -> p_lock q = false ->
        writes p q (c :: bs) (c :: bs)).
      { intros q H1 H2 H3 H4 H5 H6. destruct Hok. unfold count in *.
        split; try done; [|split; unfold count; by rewrite ?H1, ?H2, ?H3].
        exists []. rewrite app_nil_r. unfold queue, count. by rewrite H1, H2, H3. }
      destruct ((readopen p =? 0) || killed) eqn:Hg; unfold release_pipe, wakeup_nread, wp, wpe; munfold; rewrite Hlk.
      * exists (c :: bs). split; [by apply Hnop|]. split_and!; try done.
        apply orb_true_iff in Hg as [Hg|Hg]; [left; lia|by right].
      * exists (c :: bs). apply orb_false_iff in Hg as [Hg1 Hg2]. split; [by apply Hnop|]. split_and!; try done. lia.
    + apply wp_bind, wpe_modify. eapply wp_mono; [|apply (IH (push_byte c p)); [by apply push_byte_ok|done]].
      simpl. intros r p' (rest & [(d & -> & Hq) ? ? ?] & Hr). exists rest. split; [|done].
      split; try done. exists (c :: d). split; [done|]. rewrite Hq, push_byte_queue by done. by rewrite <- app_assoc.
Qed.

Lemma piperead_copy_spec n p :
  pipe_ok p ->
  wp (piperead_copy n) p (fun bs p' => bs = take n (queue p) /\ queue p' = drop n (queue p) /\ pipe_ok p' /\
    p_lock p' = p_lock p /\ readopen p' = readopen p /\ writeopen p' = writeopen p /\
    woke_nwrite p' = woke_nwrite p).
Proof.
  revert p; induction n as [|n IH]; intros p Hok; cbn [piperead_copy].
  - by apply wpe_ret.
  - apply wp_bind, wpe_get. rewrite pipe_empty_iff by done. destruct (Z.eqb_spec (count p) 0) as [He|He].
    + apply wpe_ret. assert (queue p = []) as -> by (unfold queue; by rewrite He). done.
    + apply wp_bind, wpe_modify. fold (popped_byte p). apply wp_bind.
      eapply wp_mono; [|apply (IH (popped_byte p)); by apply pop_byte_ok].
      simpl. intros bs p' (-> & Hq & ? & ? & ? & ? & ?). apply wpe_ret.
      rewrite (pop_byte_queue p) by done. by split_and!.
Qed.

Lemma piperead_spec (killed : bool) (n : nat) (p : pipe) :
  pipe_ok p -> p_lock p = false ->
  wp (piperead killed n) p (fun r p' => pipe_ok p' /\ p_lock p' = false /\
    match r with
    | ReadSleeps => queue p = [] /\ writeopen p <> 0 /\ killed = false /\ queue p' = []
    | ReadFailed => queue p = [] /\ writeopen p <> 0 /\ killed = true /\ queue p' = []
    | Read bs => (queue p <> [] \/ writeopen p = 0) /\ bs = take n (queue p) /\
        queue p' = drop n (queue p) /\ woke_nwrite p' = woke_nwrite p + 1
    end).
Proof.
  intros Hok Hlk. unfold piperead, acquire_pipe, release_pipe. apply wp_bind, wp_bind, wpe_get. rewrite Hlk.
  apply wpe_put. apply wp_bind, wpe_get.
  assert (Hok1 : pipe_ok (set_p_lock true p)) by by apply pipe_ok_set_lock.
  rewrite pipe_empty_iff by done. change (count (set_p_lock true p)) with (count p).
  cbn [writeopen set_p_lock]. destruct ((count p =? 0) && negb (writeopen p =? 0)) eqn:Hg.
  - apply andb_true_iff in Hg as [He Hw].
    assert (Hq : queue p = []) by (unfold queue; by replace (count p) with 0 by lia).
    destruct killed; unfold wp, wpe; munfold; split_and!; try done; try lia; by apply pipe_ok_set_lock.
  - apply wp_bind. eapply wp_mono; [|by apply piperead_copy_spec].
    simpl. intros bs p' (-> & Hq & Hok' & Hlk' & Hr & Hw & Hwk). unfold wakeup_nwrite.
    apply wp_bind, wpe_modify, wp_bind, wp_bind, wpe_get. cbn [p_lock]. rewrite Hlk'. cbn [p_lock set_p_lock].
    apply wpe_put, wpe_ret. split; [by destruct Hok'|]. split; [done|]. simpl. split_and!; try done; [|lia].
    apply andb_false_iff in Hg as [Hg|Hg].
    + left. intros Hnil. pose proof (length_queue p) as Hl. rewrite Hnil in Hl. simpl in Hl. lia.
    + right. apply negb_false_iff in Hg. lia.
Qed.

(** piperead. With the lock free, a reader sleeps exactly when the pipe is
    empty, the write end is open and it was not killed; it fails exactly when
    it was killed in that situation; otherwise it returns the oldest bytes, as
    many as asked for and present, removes exactly them, and wakes the
    writers. In particular it returns no bytes only at end of file (or when
    asked for none). *)
Theorem piperead_behaviour (killed : bool) (n : nat) (p : pipe) :
  pipe_ok p -> p_lock p = false ->
  wp (piperead killed n) p (fun r p' => pipe_ok p' /\ p_lock p' = false /\
    match r with
    | ReadSleeps => queue p = [] /\ writeopen p <> 0 /\ killed = false /\ queue p' = []
    | ReadFailed => queue p = [] /\ writeopen p <> 0 /\ killed = true /\ queue p' = []
    | Read bs => (queue p <> [] \/ writeopen p = 0) /\ bs = take n (queue p) /\
        queue p' = drop n (queue p) /\ woke_nwrite p' = woke_nwrite p + 1
    end).
Proof. apply piperead_spec. Qed.

(** ** Readers and writers sharing the pipe *)

(** A pipe, the bytes written so far and the bytes read so far, in order. A
    write that stops short has written what is no longer in its rest. *)
Inductive pipe_step : pipe * list Z * list Z -> pipe * list Z * list Z -> Prop :=
  | step_write killed bs p W R p' d :
      pipewrite killed bs p = Ret Wrote p' -> d = bs -> pipe_step (p, W, R) (p', W ++ d, R)
  | step_write_sleep killed bs p W R rest p' d :
      pipewrite killed bs p = Ret (WriteSleeps rest) p' -> bs = d ++ rest ->
      pipe_step (p, W, R) (p', W ++ d, R)
  | step_write_fail killed bs p W R p' d rest :
      pipewrite killed bs p = Ret WriteFailed p' -> bs = d ++ rest ->
      Z.of_nat (length d) = count p' - count p -> pipe_step (p, W, R) (p', W ++ d, R)
  | step_read killed n p W R bs p' :
      piperead killed n p = Ret (Read bs) p' -> pipe_step (p, W, R) (p', W, R ++ bs)
  | step_read_none killed n p W R r p' :
      piperead killed n p = Ret r p' -> (forall bs, r <> Read bs) -> pipe_step (p, W, R) (p', W, R)
  | step_close w p W R b p' :
      pipeclose w p = Ret b p' -> pipe_step (p, W, R) (p', W, R).

Definition pipe_inv (c : pipe * list Z * list Z) : Prop :=
  let '(p, W, R) := c in pipe_ok p /\ p_lock p = false /\ W = R ++ queue p.

Lemma pipewrite_spec killed bs p :
  pipe_ok p -> p_lock p = false ->
  wp (pipewrite killed bs) p (fun r p' => exists d rest, bs = d ++ rest /\ queue p' = queue p ++ d /\
    pipe_ok p' /\ p_lock p' = false /\
    match r with Wrote => rest = [] | WriteFailed => True | WriteSleeps rest' => rest' = rest end).
Proof.
  intros Hok Hlk. unfold pipewrite, acquire_pipe. apply wp_bind, wp_bind, wpe_get. rewrite Hlk. apply wpe_put.
  eapply wp_mono; [|apply (pipewrite_loop_spec killed bs (set_p_lock true p)); [by apply pipe_ok_set_lock|done]].
  simpl. intros r p' (rest & [(d & -> & Hq) ? ? ?] & Hr). exists d, rest. split_and!; try done.
  destruct r; naive_solver.
Qed.

Lemma pipeclose_spec w p :
  pipe_ok p -> p_lock p = false ->
  wp (pipeclose w) p (fun b p' => pipe_ok p' /\ p_lock p' = false /\ queue p' = queue p /\
    readopen p' = (if w then readopen p else 0) /\ writeopen p' = (if w then 0 else writeopen p) /\
    b = (readopen p' =? 0) && (writeopen p' =? 0)).
Proof.
  intros [] Hlk. unfold pipeclose, acquire_pipe, release_pipe, wakeup_nread, wakeup_nwrite.
  destruct p as [lk d nr nw ro wo k1 k2]; simpl in *; subst. unfold wp, wpe.
  destruct w; munfold; [destruct (ro =? 0) eqn:E|destruct (wo =? 0) eqn:E]; simpl; by rewrite ?E.
Qed.

Lemma pipe_inv_step c c' : pipe_inv c -> pipe_step c c' -> pipe_inv c'.
Proof.
  intros Hi Hs.
  destruct Hs as [killed bs p W R p' d Hr Hd|killed bs p W R rest p' d Hr Hd|killed bs p W R p' d rest Hr Hd Hn|killed n p W R bs p' Hr|killed n p W R r p' Hr Hn|w p W R b p' Hr];
    destruct Hi as (Hok & Hlk & ->).
  - pose proof (pipewrite_spec killed bs p Hok Hlk) as H. unfold wp, wpe in H. rewrite Hr in H.
    destruct H as (d' & rest & Hbs & Hq & ? & ? & ->). rewrite app_nil_r in Hbs. subst.
    split_and!; try done. by rewrite Hq, app_assoc.
  - pose proof (pipewrite_spec killed bs p Hok Hlk) as H. unfold wp, wpe in H. rewrite Hr in H.
    destruct H as (d' & rest' & Hbs & Hq & ? & ? & ->). rewrite Hd in Hbs. apply app_inv_tail in Hbs as ->.
    split_and!; try done. by rewrite Hq, app_assoc.
  - pose proof (pipewrite_spec killed bs p Hok Hlk) as H. unfold wp, wpe in H. rewrite Hr in H.
    destruct H as (d' & rest' & Hbs & Hq & ? & ? & _).
    assert (Hl : length d = length d').
    { apply (f_equal length) in Hq. rewrite length_app in Hq. pose proof (length_queue p). pose proof (length_queue p'). lia. }
    rewrite Hd in Hbs. apply app_inj_1 in Hbs as [-> ->]; [|done].
    split_and!; try done. by rewrite Hq, app_assoc.
  - pose proof (piperead_spec killed n p Hok Hlk) as H. unfold wp, wpe in H. rewrite Hr in H.
    destruct H as (? & ? & _ & -> & Hq & _). split_and!; try done.
    by rewrite Hq, <- app_assoc, take_drop.
  - pose proof (piperead_spec killed n p Hok Hlk) as H. unfold wp, wpe in H. rewrite Hr in H.
    destruct H as (? & ? & H). destruct r as [bs| |]; [by destruct (Hn bs)|..];
      destruct H as (Hq & _ & _ & Hq'); split_and!; try done; by rewrite Hq, Hq'.
  - pose proof (pipeclose_spec w p Hok Hlk) as H. unfold wp, wpe in H. rewrite Hr in H.
    destruct H as (? & ? & Hq & _). split_and!; try done. by rewrite Hq.
Qed.

(** C18: a pipe is a first-in first-out queue. From pipealloc on, however
    writers, readers and closes interleave and however often the calls sleep,
    the bytes written are at every moment the bytes read followed by the bytes
    still in the pipe, at most PIPESIZE of them, also when the 32-bit counters
    wrap around. *)
Theorem pipe_fifo (p0 p1 p : pipe) (W R : list Z) :
  length (p_data p0) = Z.to_nat PIPESIZE -> pipe_init p0 = Ret tt p1 ->
  rtc pipe_step (p1, [], []) (p, W, R) ->
  W = R ++ queue p /\ Z.of_nat (length (queue p)) <= PIPESIZE.
Proof.
  intros Hd Hi Hr.
  assert (H0 : pipe_inv (p1, [], [])).
  { injection Hi as <-. by split_and!. }
  assert (H : forall c c', rtc pipe_step c c' -> pipe_inv c -> pipe_inv c').
  { intros c c' Hrtc. induction Hrtc; eauto using pipe_inv_step. }
  apply H in Hr; [|done]. destruct Hr as ([_ _ _ Hc] & _ & ->). rewrite length_queue. done.
Qed.

(** Three bytes are written and two read. *)
Definition demo_pipe : pipe := Pipe false (replicate 512 0) 0 0 1 1 0 0.

Lemma pipe_fifo_witness :
  [104; 105; 33] = [104; 105] ++ queue (Pipe false (<[2%nat := 33]> (<[1%nat := 105]> (<[0%nat := 104]> (replicate 512 0)))) 2 3 1 1 1 1) /\
  Z.of_nat (length (queue (Pipe false (<[2%nat := 33]> (<[1%nat := 105]> (<[0%nat := 104]> (replicate 512 0)))) 2 3 1 1 1 1))) <= PIPESIZE.
Proof.
  apply (pipe_fifo (Pipe true (replicate 512 0) 5 9 0 0 0 0) demo_pipe); [reflexivity..|].
  eapply rtc_l; [apply (step_write false [104; 105; 33]); reflexivity|].
  eapply rtc_l; [apply (step_read false 2 _ _ _ [104; 105]); reflexivity|].
  apply rtc_refl.
Defined.

Lemma piperead_behaviour_witness :
  wp (piperead false 4) demo_pipe (fun r p' => pipe_ok p' /\ p_lock p' = false /\
    match r with
    | ReadSleeps => queue demo_pipe = [] /\ writeopen demo_pipe <> 0 /\ false = false /\ queue p' = []
    | ReadFailed => queue demo_pipe = [] /\ writeopen demo_pipe <> 0 /\ false = true /\ queue p' = []
    | Read bs => (queue demo_pipe <> [] \/ writeopen demo_pipe = 0) /\ bs = take 4 (queue demo_pipe) /\
        queue p' = drop 4 (queue demo_pipe) /\ woke_nwrite p' = woke_nwrite demo_pipe + 1
    end).
Proof.
  apply (piperead_behaviour false 4 demo_pipe); [|reflexivity].
  split; [reflexivity|unfold in_u32; simpl; lia|unfold in_u32; simpl; lia|]. vm_compute. discriminate.
Defined.
