(* ===== verification/Proc.v ===== *)
(** Processes: [proc.c] and the structures of [proc.h] and [x86.h] that it
    uses.

    The process table, the CPUs and the words on kernel stacks that [proc.c]
    touches are the state [pstate]; what the rest of the kernel does for it
    (memory, files, the log) is the class [ProcEnv], over a state of its own.
    A call of [swtch] to the scheduler ends a computation with [Switched]; what
    runs when the scheduler switches back is a definition of its own
    ([sleep_resume], [yield_resume], [wait_resume], [forkret]). *)

From S2P Require Import Prelude Mem Mmu Spinlock.

Open Scope Z_scope.

Definition NPROC : nat := 64.
Definition NOFILE : nat := 16.

Record trapframe := TrapFrame {
  tf_edi : Z;
  tf_esi : Z;
  tf_ebp : Z;
  tf_oesp : Z;
  tf_ebx : Z;
  tf_edx : Z;
  tf_ecx : Z;
  tf_eax : Z;
  tf_gs : Z;
  tf_fs : Z;
  tf_es : Z;
  tf_ds : Z;
  tf_trapno : Z;
  tf_err : Z;
  tf_eip : Z;
  tf_cs : Z;
  tf_eflags : Z;
  tf_esp : Z;
  tf_ss : Z
}.

Record context := Context {
  x_edi : Z;
  x_esi : Z;
  x_ebx : Z;
  x_ebp : Z;
  x_eip : Z
}.

Inductive procstate := UNUSED | EMBRYO | SLEEPING | RUNNABLE | RUNNING | ZOMBIE.

#[global] Instance procstate_eq_dec : EqDecision procstate.
Proof. solve_decision. Defined.

Record proc := Proc {
  p_sz : Z;
  p_pgdir : Z;
  p_kstack : Z;
  p_state : procstate;
  p_pid : Z;
  p_parent : option nat;  (* index in the table; None is the null pointer *)
  p_tf : Z;  (* address of the trap frame *)
  p_context : Z;  (* address of the saved context *)
  p_chan : option chan;
  p_killed : Z;
  p_ofile : list (option nat);  (* indices of open files *)
  p_cwd : option nat;
  p_name : list Z;  (* 16 bytes *)
  p_ctime : Z;
  p_etime : Z;
  p_ttime : Z
}.

Definition set_p_sz v p := Proc v (p_pgdir p) (p_kstack p) (p_state p) (p_pid p) (p_parent p)
  (p_tf p) (p_context p) (p_chan p) (p_killed p) (p_ofile p) (p_cwd p) (p_name p) (p_ctime p)
  (p_etime p) (p_ttime p).
Definition set_p_pgdir v p := Proc (p_sz p) v (p_kstack p) (p_state p) (p_pid p) (p_parent p)
  (p_tf p) (p_context p) (p_chan p) (p_killed p) (p_ofile p) (p_cwd p) (p_name p) (p_ctime p)
  (p_etime p) (p_ttime p).
Definition set_p_kstack v p := Proc (p_sz p) (p_pgdir p) v (p_state p) (p_pid p) (p_parent p)
  (p_tf p) (p_context p) (p_chan p) (p_killed p) (p_ofile p) (p_cwd p) (p_name p) (p_ctime p)
  (p_etime p) (p_ttime p).
Definition set_p_state v p := Proc (p_sz p) (p_pgdir p) (p_kstack p) v (p_pid p) (p_parent p)
  (p_tf p) (p_context p) (p_chan p) (p_killed p) (p_ofile p) (p_cwd p) (p_name p) (p_ctime p)
  (p_etime p) (p_ttime p).
Definition set_p_pid v p := Proc (p_sz p) (p_pgdir p) (p_kstack p) (p_state p) v (p_parent p)
  (p_tf p) (p_context p) (p_chan p) (p_killed p) (p_ofile p) (p_cwd p) (p_name p) (p_ctime p)
  (p_etime p) (p_ttime p).
Definition set_p_parent v p := Proc (p_sz p) (p_pgdir p) (p_kstack p) (p_state p) (p_pid p) v
  (p_tf p) (p_context p) (p_chan p) (p_killed p) (p_ofile p) (p_cwd p) (p_name p) (p_ctime p)
  (p_etime p) (p_ttime p).
Definition set_p_tf v p := Proc (p_sz p) (p_pgdir p) (p_kstack p) (p_state p) (p_pid p)
  (p_parent p) v (p_context p) (p_chan p) (p_killed p) (p_ofile p) (p_cwd p) (p_name p) (p_ctime
  p) (p_etime p) (p_ttime p).
Definition set_p_context v p := Proc (p_sz p) (p_pgdir p) (p_kstack p) (p_state p) (p_pid p)
  (p_parent p) (p_tf p) v (p_chan p) (p_killed p) (p_ofile p) (p_cwd p) (p_name p) (p_ctime p)
  (p_etime p) (p_ttime p).
Definition set_p_chan v p := Proc (p_sz p) (p_pgdir p) (p_kstack p) (p_state p) (p_pid p)
  (p_parent p) (p_tf p) (p_context p) v (p_killed p) (p_ofile p) (p_cwd p) (p_name p) (p_ctime
  p) (p_etime p) (p_ttime p).
Definition set_p_killed v p := Proc (p_sz p) (p_pgdir p) (p_kstack p) (p_state p) (p_pid p)
  (p_parent p) (p_tf p) (p_context p) (p_chan p) v (p_ofile p) (p_cwd p) (p_name p) (p_ctime p)
  (p_etime p) (p_ttime p).
Definition set_p_ofile v p := Proc (p_sz p) (p_pgdir p) (p_kstack p) (p_state p) (p_pid p)
  (p_parent p) (p_tf p) (p_context p) (p_chan p) (p_killed p) v (p_cwd p) (p_name p) (p_ctime p)
  (p_etime p) (p_ttime p).
Definition set_p_cwd v p := Proc (p_sz p) (p_pgdir p) (p_kstack p) (p_state p) (p_pid p)
  (p_parent p) (p_tf p) (p_context p) (p_chan p) (p_killed p) (p_ofile p) v (p_name p) (p_ctime
  p) (p_etime p) (p_ttime p).
Definition set_p_name v p := Proc (p_sz p) (p_pgdir p) (p_kstack p) (p_state p) (p_pid p)
  (p_parent p) (p_tf p) (p_context p) (p_chan p) (p_killed p) (p_ofile p) (p_cwd p) v (p_ctime
  p) (p_etime p) (p_ttime p).
Definition set_p_ctime v p := Proc (p_sz p) (p_pgdir p) (p_kstack p) (p_state p) (p_pid p)
  (p_parent p) (p_tf p) (p_context p) (p_chan p) (p_killed p) (p_ofile p) (p_cwd p) (p_name p) v
  (p_etime p) (p_ttime p).
Definition set_p_etime v p := Proc (p_sz p) (p_pgdir p) (p_kstack p) (p_state p) (p_pid p)
  (p_parent p) (p_tf p) (p_context p) (p_chan p) (p_killed p) (p_ofile p) (p_cwd p) (p_name p)
  (p_ctime p) v (p_ttime p).
Definition set_p_ttime v p := Proc (p_sz p) (p_pgdir p) (p_kstack p) (p_state p) (p_pid p)
  (p_parent p) (p_tf p) (p_context p) (p_chan p) (p_killed p) (p_ofile p) (p_cwd p) (p_name p)
  (p_ctime p) (p_etime p) v.

(** struct cpu, the fields that scheduling uses, and the CPU's flags register. *)
Record pcpu := PCpu {
  c_ncli : Z;
  c_intena : Z;
  c_eflags : Z;
  c_proc : option nat  (* the process running on this cpu *)
}.

Definition set_c_ncli v c := PCpu v (c_intena c) (c_eflags c) (c_proc c).
Definition set_c_intena v c := PCpu (c_ncli c) v (c_eflags c) (c_proc c).
Definition set_c_eflags v c := PCpu (c_ncli c) (c_intena c) v (c_proc c).
Definition set_c_proc v c := PCpu (c_ncli c) (c_intena c) (c_eflags c) v.

Definition set_tf_eax v t := TrapFrame (tf_edi t) (tf_esi t) (tf_ebp t) (tf_oesp t) (tf_ebx t)
  (tf_edx t) (tf_ecx t) v (tf_gs t) (tf_fs t) (tf_es t) (tf_ds t) (tf_trapno t) (tf_err t)
  (tf_eip t) (tf_cs t) (tf_eflags t) (tf_esp t) (tf_ss t).

Record pstate (X : Type) := PState {
  pt_lock : bool;  (* ptable.lock is held *)
  procs : list proc;  (* ptable.proc *)
  nextpid : Z;
  initproc : option nat;
  ticks : Z;
  first : Z;  (* static variable of forkret *)
  tframes : gmap Z trapframe;  (* the trap frames on kernel stacks, by address *)
  contexts : gmap Z context;  (* the saved contexts, by address *)
  kwords : gmap Z Z;  (* other words that allocproc stores on a kernel stack *)
  pcpus : list pcpu;
  env : X  (* the rest of the kernel *)
}.
Arguments PState {X}.
Arguments pt_lock {X}.
Arguments procs {X}.
Arguments nextpid {X}.
Arguments initproc {X}.
Arguments ticks {X}.
Arguments first {X}.
Arguments tframes {X}.
Arguments contexts {X}.
Arguments kwords {X}.
Arguments pcpus {X}.
Arguments env {X}.

Section setters.
Context {X : Type}.
Implicit Types s : pstate X.

Definition set_pt_lock v s := PState v (procs s) (nextpid s) (initproc s) (ticks s) (first s)
  (tframes s) (contexts s) (kwords s) (pcpus s) (env s).
Definition set_procs v s := PState (pt_lock s) v (nextpid s) (initproc s) (ticks s) (first s)
  (tframes s) (contexts s) (kwords s) (pcpus s) (env s).
Definition set_nextpid v s := PState (pt_lock s) (procs s) v (initproc s) (ticks s) (first s)
  (tframes s) (contexts s) (kwords s) (pcpus s) (env s).
Definition set_initproc v s := PState (pt_lock s) (procs s) (nextpid s) v (ticks s) (first s)
  (tframes s) (contexts s) (kwords s) (pcpus s) (env s).
Definition set_ticks v s := PState (pt_lock s) (procs s) (nextpid s) (initproc s) v (first s)
  (tframes s) (contexts s) (kwords s) (pcpus s) (env s).
Definition set_first v s := PState (pt_lock s) (procs s) (nextpid s) (initproc s) (ticks s) v
  (tframes s) (contexts s) (kwords s) (pcpus s) (env s).
Definition set_tframes v s := PState (pt_lock s) (procs s) (nextpid s) (initproc s) (ticks s)
  (first s) v (contexts s) (kwords s) (pcpus s) (env s).
Definition set_contexts v s := PState (pt_lock s) (procs s) (nextpid s) (initproc s) (ticks s)
  (first s) (tframes s) v (kwords s) (pcpus s) (env s).
Definition set_pcpus v s := PState (pt_lock s) (procs s) (nextpid s) (initproc s) (ticks s)
  (first s) (tframes s) (contexts s) (kwords s) v (env s).
Definition set_env (v : X) s := PState (pt_lock s) (procs s) (nextpid s) (initproc s) (ticks s) (first
  s) (tframes s) (contexts s) (kwords s) (pcpus s) v.
Definition set_kwords v s := PState (pt_lock s) (procs s) (nextpid s) (initproc s) (ticks s)
  (first s) (tframes s) (contexts s) v (pcpus s) (env s).

End setters.

(** What [proc.c] calls in the rest of the kernel. *)
Class ProcEnv (X : Type) := {
  forkret_addr : Z;                         (* link-time addresses *)
  trapret_addr : Z;
  initcode : list Z;                        (* _binary_initcode_start *)
  e_kalloc : M X Z;
  e_kfree : Z -> M X unit;
  e_setupkvm : M X Z;
  e_inituvm : Z -> list Z -> M X unit;
  e_allocuvm : Z -> Z -> Z -> M X Z;
  e_deallocuvm : Z -> Z -> Z -> M X Z;
  e_copyuvm : Z -> Z -> M X Z;
  e_freevm : Z -> M X unit;
  e_switchuvm : Z -> Z -> M X unit;         (* on p->kstack and p->pgdir *)
  e_switchkvm : M X unit;
  e_namei : list Z -> M X (option nat);
  e_filedup : nat -> M X nat;
  e_fileclose : nat -> M X unit;
  e_idup : nat -> M X nat;
  e_iput : nat -> M X unit;
  e_begin_op : M X unit;
  e_end_op : M X unit;
  e_iinit : Z -> M X unit;
  e_initlog : Z -> M X unit;
  e_cprintf : string -> list parg -> M X unit;
  e_store32 : Z -> Z -> M X unit;           (* through a pointer *)
  e_acquire : nat -> M X unit;              (* a spin lock other than ptable.lock *)
  e_release : nat -> M X unit
}.

(** ** The operations of proc.c *)

Section ops.
Context {X : Type} {E : ProcEnv X}.
Implicit Types s : pstate X.

Definition env_lens : lens (pstate X) X := Lens env set_env.
Definition call {A} (m : M X A) : M (pstate X) A := zoom env_lens m.

Definition proc_at (i : nat) : M (pstate X) proc :=
  s ← get; match procs s !! i with Some p => mret p | None => wild end.

Definition upd_proc (i : nat) (f : proc -> proc) : M (pstate X) unit :=
  modify (fun s => set_procs (alter f i (procs s)) s).

Definition cpu_at (c : nat) : M (pstate X) pcpu :=
  s ← get; match pcpus s !! c with Some k => mret k | None => wild end.

Definition upd_cpu (c : nat) (f : pcpu -> pcpu) : M (pstate X) unit :=
  modify (fun s => set_pcpus (alter f c (pcpus s)) s).

(** acquire(&ptable.lock) and release(&ptable.lock) on CPU [c]: the lock, the
    nesting count and the interrupt flag (see [Spinlock.pushcli]). *)
Definition acquire_pt (c : nat) : M (pstate X) unit :=
  k ← cpu_at c;
  when (c_ncli k =? 0) (upd_cpu c (set_c_intena (Z.land (c_eflags k) FL_IF))) ;;
  upd_cpu c (fun k => set_c_ncli (c_ncli k + 1) (set_c_eflags (Z.ldiff (c_eflags k) FL_IF) k)) ;;
  s ← get;
  if pt_lock s then panic "acquire" else put (set_pt_lock true s).

Definition release_pt (c : nat) : M (pstate X) unit :=
  s ← get;
  if pt_lock s then
    put (set_pt_lock false s) ;;
    upd_cpu c (fun k => set_c_ncli (c_ncli k - 1) k) ;;
    k ← cpu_at c;
    if c_ncli k <? 0 then panic "popcli"
    else when ((c_ncli k =? 0) && negb (c_intena k =? 0))
           (upd_cpu c (fun k => set_c_eflags (Z.lor (c_eflags k) FL_IF) k))
  else panic "release".

(** myproc() where its result is dereferenced. *)
Definition curproc (c : nat) : M (pstate X) nat :=
  k ← cpu_at c; match c_proc k with Some i => mret i | None => wild end.

Definition pinit : M (pstate X) unit := modify (set_pt_lock false).

Definition sizeof_trapframe : Z := 76.
Definition sizeof_context : Z := 20.

Definition allocproc (c : nat) : M (pstate X) (option nat) :=
  acquire_pt c ;;
  s ← get;
  match find_index (fun p => bool_decide (p_state p = UNUSED)) (procs s) with
  | None => release_pt c ;; mret None
  | Some i =>
      upd_proc i (set_p_state EMBRYO) ;;
      upd_proc i (set_p_pid (nextpid s)) ;;
      modify (set_nextpid (i32 (nextpid s + 1))) ;;
      upd_proc i (set_p_ctime (ticks s)) ;;
      release_pt c ;;
      ks ← call e_kalloc;
      upd_proc i (set_p_kstack ks) ;;
      if ks =? 0 then upd_proc i (set_p_state UNUSED) ;; mret None
      else
        let sp := ks + KSTACKSIZE in
        let sp := sp - sizeof_trapframe in
        upd_proc i (set_p_tf sp) ;;
        let sp := sp - 4 in
        modify (fun s => set_kwords (<[sp := trapret_addr]> (kwords s)) s) ;;
        let sp := sp - sizeof_context in
        upd_proc i (set_p_context sp) ;;
        modify (fun s => set_contexts (<[sp := Context 0 0 0 0 forkret_addr]> (contexts s)) s) ;;
        mret (Some i)
  end.

Definition str_initcode : list Z := [105; 110; 105; 116; 99; 111; 100; 101; 0].
Definition str_root : list Z := [47; 0].

Definition userinit (c : nat) : M (pstate X) unit :=
  o ← allocproc c;
  modify (set_initproc o) ;;
  match o with
  | None => wild
  | Some i =>
      pd ← call e_setupkvm;
      upd_proc i (set_p_pgdir pd) ;;
      if pd =? 0 then panic "userinit: out of memory?"
      else
        call (e_inituvm pd initcode) ;;
        upd_proc i (set_p_sz PGSIZE) ;;
        p ← proc_at i;
        let cs := Z.lor (Z.shiftl SEG_UCODE 3) DPL_USER in
        let ds := Z.lor (Z.shiftl SEG_UDATA 3) DPL_USER in
        modify (fun s => set_tframes (<[p_tf p :=
          TrapFrame 0 0 0 0 0 0 0 0 0 0 ds ds 0 0 0 cs FL_IF PGSIZE ds]> (tframes s)) s) ;;
        upd_proc i (fun p => set_p_name (name_copy (p_name p) str_initcode) p) ;;
        root ← call (e_namei str_root);
        upd_proc i (set_p_cwd root) ;;
        acquire_pt c ;;
        upd_proc i (set_p_state RUNNABLE) ;;
        release_pt c
  end.

Definition growproc (c : nat) (n : Z) : M (pstate X) Z :=
  i ← curproc c;
  p ← proc_at i;
  r ← (if 0 <? n then
         sz ← call (e_allocuvm (p_pgdir p) (p_sz p) (u32 (p_sz p + n)));
         mret (if sz =? 0 then None else Some (u32 sz))
       else if n <? 0 then
         sz ← call (e_deallocuvm (p_pgdir p) (p_sz p) (u32 (p_sz p + n)));
         mret (if sz =? 0 then None else Some (u32 sz))
       else mret (Some (p_sz p)));
  match r with
  | None => mret (-1)
  | Some sz =>
      upd_proc i (set_p_sz sz) ;;
      call (e_switchuvm (p_kstack p) (p_pgdir p)) ;;
      mret 0
  end.

(** The loop over open files of fork. *)
Definition dup_files (cur np : nat) : M (pstate X) unit :=
  for_each (seq 0 NOFILE) (fun fd =>
    p ← proc_at cur;
    match p_ofile p !! fd with
    | Some (Some f) =>
        g ← call (e_filedup f);
        upd_proc np (fun q => set_p_ofile (<[fd := Some g]> (p_ofile q)) q)
    | Some None => mret tt
    | None => wild
    end).

(** fork after its call of allocproc has returned [np]. *)
Definition fork_copy (c np : nat) : M (pstate X) Z :=
  cur ← curproc c;
  p ← proc_at cur;
  q ← proc_at np;
  pd ← call (e_copyuvm (p_pgdir p) (p_sz p));
  upd_proc np (set_p_pgdir pd) ;;
  if pd =? 0 then
    call (e_kfree (p_kstack q)) ;;
    upd_proc np (set_p_kstack 0) ;;
    upd_proc np (set_p_state UNUSED) ;;
    mret (-1)
  else
    upd_proc np (set_p_sz (p_sz p)) ;;
    upd_proc np (set_p_parent (Some cur)) ;;
    s ← get;
    match tframes s !! p_tf p with
    | None => wild
    | Some tf =>
        put (set_tframes (<[p_tf q := set_tf_eax 0 tf]> (tframes s)) s) ;;
        dup_files cur np ;;
        match p_cwd p with
        | None => wild
        | Some d =>
            cwd ← call (e_idup d);
            upd_proc np (set_p_cwd (Some cwd)) ;;
            upd_proc np (fun q => set_p_name (name_copy (p_name q) (p_name p)) q) ;;
            s ← get;
            upd_proc cur (set_p_ctime (ticks s)) ;;
            q ← proc_at np;
            acquire_pt c ;;
            upd_proc np (set_p_state RUNNABLE) ;;
            release_pt c ;;
            mret (p_pid q)
        end
    end.

Definition fork (c : nat) : M (pstate X) Z :=
  o ← allocproc c;
  match o with
  | None => mret (-1)
  | Some np => fork_copy c np
  end.

Definition wakeup1_proc (ch : option chan) (p : proc) : proc :=
  if bool_decide (p_state p = SLEEPING) && bool_decide (p_chan p = ch)
  then set_p_state RUNNABLE p else p.

Definition wakeup1 (ch : option chan) : M (pstate X) unit :=
  modify (fun s => set_procs (wakeup1_proc ch <$> procs s) s).

Definition wakeup (c : nat) (ch : chan) : M (pstate X) unit :=
  acquire_pt c ;; wakeup1 (Some ch) ;; release_pt c.

(** Up to the call of swtch; [sched_resume] is what follows it, with the
    [intena] that sched saved on the stack of the process. *)
Definition sched (c : nat) : M (pstate X) unit :=
  i ← curproc c;
  p ← proc_at i;
  k ← cpu_at c;
  s ← get;
  if negb (pt_lock s) then panic "sched ptable.lock"
  else if negb (c_ncli k =? 1) then panic "sched locks"
  else if bool_decide (p_state p = RUNNING) then panic "sched running"
  else if negb (Z.land (c_eflags k) FL_IF =? 0) then panic "sched interruptible"
  else fun s => Stop Switched s.

Definition sched_resume (c : nat) (intena : Z) : M (pstate X) unit :=
  upd_cpu c (set_c_intena intena).

(** The loop of exit that closes the open files. *)
Definition close_files (cur : nat) : M (pstate X) unit :=
  for_each (seq 0 NOFILE) (fun fd =>
    p ← proc_at cur;
    match p_ofile p !! fd with
    | Some (Some f) =>
        call (e_fileclose f) ;;
        upd_proc cur (fun q => set_p_ofile (<[fd := None]> (p_ofile q)) q)
    | Some None => mret tt
    | None => wild
    end).

(** The loop of exit that passes abandoned children to init. *)
Definition reparent (cur : nat) : M (pstate X) unit :=
  for_each (seq 0 NPROC) (fun i =>
    p ← proc_at i;
    if bool_decide (p_parent p = Some cur) then
      s ← get;
      upd_proc i (set_p_parent (initproc s)) ;;
      when (bool_decide (p_state p = ZOMBIE)) (wakeup1 (ch_proc <$> initproc s))
    else mret tt).

(** exit from the point where it takes ptable.lock. *)
Definition exit_final (c cur : nat) : M (pstate X) unit :=
  acquire_pt c ;;
  p ← proc_at cur;
  wakeup1 (ch_proc <$> p_parent p) ;;
  reparent cur ;;
  s ← get;
  upd_proc cur (set_p_etime (ticks s)) ;;
  upd_proc cur (set_p_state ZOMBIE) ;;
  sched c ;;
  panic "zombie exit".

Definition exit (c : nat) : M (pstate X) unit :=
  cur ← curproc c;
  s ← get;
  if bool_decide (Some cur = initproc s) then panic "init exiting"
  else
    close_files cur ;;
    call e_begin_op ;;
    p ← proc_at cur;
    match p_cwd p with
    | None => wild
    | Some d =>
        call (e_iput d) ;;
        call e_end_op ;;
        upd_proc cur (set_p_cwd None) ;;
        exit_final c cur
    end.

(** sleep up to its switch to the scheduler. [lk] is the lock, [None] for
    &ptable.lock. A null [lk] is not a value of the type. *)
Definition sleep (c : nat) (ch : chan) (lk : option nat) : M (pstate X) unit :=
  k ← cpu_at c;
  match c_proc k with
  | None => panic "sleep"
  | Some i =>
      match lk with
      | Some l => acquire_pt c ;; call (e_release l)
      | None => mret tt
      end ;;
      upd_proc i (set_p_chan (Some ch)) ;;
      upd_proc i (set_p_state SLEEPING) ;;
      sched c
  end.

(** sleep after the scheduler has switched back to process [i]. *)
Definition sleep_resume (c i : nat) (intena : Z) (lk : option nat) : M (pstate X) unit :=
  sched_resume c intena ;;
  upd_proc i (set_p_chan None) ;;
  match lk with
  | Some l => release_pt c ;; call (e_acquire l)
  | None => mret tt
  end.

(** Frees the zombie in slot [i]: the body of the loop of wait. *)
Definition reap (i : nat) : M (pstate X) Z :=
  p ← proc_at i;
  call (e_kfree (p_kstack p)) ;;
  upd_proc i (set_p_kstack 0) ;;
  call (e_freevm (p_pgdir p)) ;;
  upd_proc i (set_p_pid 0) ;;
  upd_proc i (set_p_parent None) ;;
  upd_proc i (fun p => set_p_name (<[0%nat := 0]> (p_name p)) p) ;;
  upd_proc i (set_p_killed 0) ;;
  upd_proc i (set_p_state UNUSED) ;;
  mret (p_pid p).

Definition is_child (cur : nat) (p : proc) : bool := bool_decide (p_parent p = Some cur).
Definition is_zombie (p : proc) : bool := bool_decide (p_state p = ZOMBIE).

(** The loop of wait, entered with the lock held; [found i] is what it does
    with a zombie child. The scan stops at the first zombie child, and
    havekids is whether any child was seen. *)
Definition wait_loop (c cur : nat) (found : nat -> M (pstate X) Z) : M (pstate X) Z :=
  s ← get;
  match find_index (fun p => is_child cur p && is_zombie p) (procs s) with
  | Some i => pid ← found i; release_pt c ;; mret pid
  | None =>
      let havekids := existsb (is_child cur) (procs s) in
      p ← proc_at cur;
      if negb havekids || negb (p_killed p =? 0) then release_pt c ;; mret (-1)
      else sleep c (ch_proc cur) None ;; mret 0
  end.

Definition wait (c : nat) : M (pstate X) Z :=
  cur ← curproc c;
  acquire_pt c ;;
  wait_loop c cur reap.

(** wait after the scheduler has switched back: another round of its loop. *)
Definition wait_resume (c cur : nat) (intena : Z) : M (pstate X) Z :=
  sleep_resume c cur intena None ;;
  wait_loop c cur reap.

Definition times_format : string :=
  ("create = %d" ++ nl ++ "running = %d" ++ nl ++ "stop = %d" ++ nl)%string.

(** The times are read after the slot has been freed, and the second line
    printed is of the pointers. *)
Definition reap_times (create_time run_time stop_time : Z) (i : nat) : M (pstate X) Z :=
  pid ← reap i;
  p ← proc_at i;
  call (e_store32 create_time (p_ctime p)) ;;
  call (e_store32 run_time (p_ttime p)) ;;
  call (e_store32 stop_time (p_etime p)) ;;
  call (e_cprintf times_format
          [PInt (i32 (p_ctime p)); PInt (i32 (p_ttime p)); PInt (i32 (p_etime p))]) ;;
  call (e_cprintf times_format
          [PInt (i32 create_time); PInt (i32 run_time); PInt (i32 stop_time)]) ;;
  mret pid.

Definition new_wait (c : nat) (create_time run_time stop_time : Z) : M (pstate X) Z :=
  cur ← curproc c;
  acquire_pt c ;;
  wait_loop c cur (reap_times create_time run_time stop_time).

Definition new_wait_resume (c cur : nat) (intena create_time run_time stop_time : Z) : M (pstate X) Z :=
  sleep_resume c cur intena None ;;
  wait_loop c cur (reap_times create_time run_time stop_time).

(** The head of a round of the scheduler's loop, and its end. *)
Definition scheduler_begin (c : nat) : M (pstate X) unit :=
  upd_cpu c (fun k => set_c_eflags (Z.lor (c_eflags k) FL_IF) k) ;; acquire_pt c.

Definition scheduler_end (c : nat) : M (pstate X) unit := release_pt c.

(** The scan at slot [i]: [false] when the slot is skipped, [true] when the
    CPU has switched to the process. *)
Definition scheduler_pick (c i : nat) : M (pstate X) bool :=
  p ← proc_at i;
  if negb (bool_decide (p_state p = RUNNABLE)) then mret false
  else
    upd_cpu c (set_c_proc (Some i)) ;;
    call (e_switchuvm (p_kstack p) (p_pgdir p)) ;;
    upd_proc i (set_p_state RUNNING) ;;
    mret true.

(** The scheduler after a process has switched back to it. *)
Definition scheduler_back (c : nat) : M (pstate X) unit :=
  call e_switchkvm ;; upd_cpu c (set_c_proc None).

Definition yield (c : nat) : M (pstate X) unit :=
  acquire_pt c ;;
  i ← curproc c;
  upd_proc i (set_p_state RUNNABLE) ;;
  sched c.

Definition yield_resume (c : nat) (intena : Z) : M (pstate X) unit :=
  sched_resume c intena ;; release_pt c.

Definition ROOTDEV : Z := 1.

Definition forkret (c : nat) : M (pstate X) unit :=
  release_pt c ;;
  s ← get;
  if negb (first s =? 0) then
    modify (set_first 0) ;;
    call (e_iinit ROOTDEV) ;;
    call (e_initlog ROOTDEV)
  else mret tt.

Definition kill (c : nat) (pid : Z) : M (pstate X) Z :=
  acquire_pt c ;;
  s ← get;
  match find_index (fun p => p_pid p =? pid) (procs s) with
  | Some i =>
      upd_proc i (set_p_killed 1) ;;
      upd_proc i (fun p => if bool_decide (p_state p = SLEEPING) then set_p_state RUNNABLE p else p) ;;
      release_pt c ;;
      mret 0
  | None => release_pt c ;; mret (-1)
  end.

Definition state_name (st : procstate) : string :=
  match st with
  | UNUSED => "unused"
  | EMBRYO => "embryo"
  | SLEEPING => "sleep "
  | RUNNABLE => "runble"
  | RUNNING => "run   "
  | ZOMBIE => "zombie"
  end.

Definition string_bytes (str : string) : list Z :=
  (fun a => Z.of_N (Ascii.N_of_ascii a)) <$> String.list_ascii_of_string str.

Fixpoint until_zero (l : list Z) : list Z :=
  match l with
  | [] => []
  | v :: l => if v =? 0 then [] else v :: until_zero l
  end.

(** [km] is the memory that holds the frames of kernel stacks. *)
Definition procdump (km : mem) : M (pstate X) unit :=
  for_each (seq 0 NPROC) (fun i =>
    p ← proc_at i;
    if bool_decide (p_state p = UNUSED) then mret tt
    else
      call (e_cprintf "%d %s %s"
              [PInt (p_pid p); PStr (string_bytes (state_name (p_state p))); PStr (p_name p)]) ;;
      (if bool_decide (p_state p = SLEEPING) then
         s ← get;
         match contexts s !! p_context p with
         | None => wild
         | Some x =>
             let pcs := until_zero (getcallerpcs km (x_ebp x + 8)) in
             for_each pcs (fun pc => call (e_cprintf " %p" [PPtr pc]))
         end
       else mret tt) ;;
      call (e_cprintf nl [])).

End ops.
