(* ===== verification/Sched.v ===== *)
(** The interleaving of CPUs over the process table of [proc.c].

    A system state pairs the state of [Proc] with a control point per CPU and
    the point at which each process that is not running will continue. A label
    names a CPU and what it does next; [step_label] runs the operations of
    [Proc] for it. A CPU that must take ptable.lock moves only when the lock
    is free: the spin loop of acquire is the subject of [Spinlock]. *)

From S2P Require Import Prelude Mem Mmu Spinlock Proc.

Open Scope Z_scope.

(** Where a CPU is: in [scheduler] between rounds, at slot [i] of a round
    (holding the lock), in a process, in a process between the two halves of
    fork, or in a process that holds the lock. *)
Inductive cpu_pc :=
  | Idle
  | Scan (i : nat)
  | Run
  | Forking (np : nat)
  | Crit.

Section sched.
Context {X : Type} {E : ProcEnv X}.
Implicit Types s : pstate X.

(** Where a process continues, with the [intena] that sched saved. *)
Inductive resume :=
  | RForkret
  | RYield (n : Z)
  | RSleep (n : Z) (lk : nat)
  | RWait (n : Z)
  | RNewWait (n create_time run_time stop_time : Z).

Definition resume_run (c i : nat) (r : resume) : M (pstate X) unit :=
  match r with
  | RForkret => forkret c
  | RYield n => yield_resume c n
  | RSleep n lk => sleep_resume c i n (Some lk)
  | RWait n => wait_resume c i n ;; mret tt
  | RNewWait n a b d => new_wait_resume c i n a b d ;; mret tt
  end.

(** Only wait goes back to sleep when it is resumed. *)
Definition resume_again (r : resume) (n : Z) : resume :=
  match r with
  | RWait _ => RWait n
  | RNewWait _ a b d => RNewWait n a b d
  | r => r
  end.

(** The operations that end with the process running or switched out. *)
Inductive op :=
  | OYield
  | OSleep (ch : chan) (lk : nat)
  | OExit
  | OWait
  | ONewWait (create_time run_time stop_time : Z)
  | OKill (pid : Z)
  | OGrow (n : Z).

Definition op_run (c : nat) (o : op) : M (pstate X) unit :=
  match o with
  | OYield => yield c
  | OSleep ch lk => sleep c ch (Some lk)
  | OExit => exit c
  | OWait => wait c ;; mret tt
  | ONewWait a b d => new_wait c a b d ;; mret tt
  | OKill pid => kill c pid ;; mret tt
  | OGrow n => growproc c n ;; mret tt
  end.

Definition op_resume (o : op) (n : Z) : resume :=
  match o with
  | OSleep _ lk => RSleep n lk
  | OWait => RWait n
  | ONewWait a b d => RNewWait n a b d
  | _ => RYield n
  end.

(** wait sleeps on the address of its own process; nothing else does. *)
Definition op_ok (o : op) : bool :=
  match o with
  | OSleep (ch_proc _) _ => false
  | _ => true
  end.

Inductive label :=
  | LSched (c : nat)                          (* the scheduler of CPU c *)
  | LOp (c : nat) (o : op)                    (* the process on CPU c *)
  | LAlloc (c : nat)                          (* fork: its call of allocproc *)
  | LCopy (c : nat)                           (* fork: the rest *)
  | LWakeup (c : nat) (ch : chan)             (* wakeup, also from interrupts *)
  | LTick                                     (* the timer *)
  | LPrivate (c : nat) (g : proc -> proc)     (* fields of the running process *)
  | LEnv (x : X).                             (* the rest of the kernel *)

(** What a process changes in its own entry outside [proc.c] (exec, chdir,
    open, close, the killed flag set by trap): not the fields that the process
    table is about. *)
Definition private (g : proc -> proc) (p : proc) : proc :=
  let q := g p in
  Proc (p_sz q) (p_pgdir q) (p_kstack p) (p_state p) (p_pid p) (p_parent p) (p_tf q) (p_context p)
    (p_chan p) (p_killed q) (p_ofile q) (p_cwd q) (p_name q) (p_ctime q) (p_etime q) (p_ttime q).

Record sys := Sys {
  sst : pstate X;
  spc : list cpu_pc;
  sres : list resume
}.

Definition saved_intena (c : nat) s : Z :=
  match pcpus s !! c with Some k => c_intena k | None => 0 end.

(** A process has switched to the scheduler of [c], which goes on with the
    slot after [i]. *)
Definition switch_out (c i : nat) (r : Z -> resume) (s : pstate X) (y : sys) : option sys :=
  match scheduler_back c s with
  | Ret _ s' => Some (Sys s' (<[c := Scan (S i)]> (spc y)) (<[i := r (saved_intena c s)]> (sres y)))
  | Stop _ _ => None
  end.

Definition sched_label (c : nat) (y : sys) : option sys :=
  match spc y !! c with
  | Some Idle =>
      if pt_lock (sst y) then None
      else
        match scheduler_begin c (sst y) with
        | Ret _ s => Some (Sys s (<[c := Scan 0]> (spc y)) (sres y))
        | Stop _ _ => None
        end
  | Some (Scan i) =>
      if (i <? NPROC)%nat then
        match scheduler_pick c i (sst y), sres y !! i with
        | Ret false s, _ => Some (Sys s (<[c := Scan (S i)]> (spc y)) (sres y))
        | Ret true s, Some r =>
            match resume_run c i r s with
            | Ret _ s => Some (Sys s (<[c := Run]> (spc y)) (sres y))
            | Stop Switched s => switch_out c i (resume_again r) s y
            | Stop _ _ => None
            end
        | _, _ => None
        end
      else
        match scheduler_end c (sst y) with
        | Ret _ s => Some (Sys s (<[c := Idle]> (spc y)) (sres y))
        | Stop _ _ => None
        end
  | _ => None
  end.

Definition running (c : nat) (y : sys) : bool :=
  match spc y !! c with Some Run => negb (pt_lock (sst y)) | _ => false end.

Definition op_label (c : nat) (o : op) (y : sys) : option sys :=
  if running c y && op_ok o then
    match curproc c (sst y) with
    | Ret i _ =>
        match op_run c o (sst y) with
        | Ret _ s => Some (Sys s (spc y) (sres y))
        | Stop Switched s => switch_out c i (op_resume o) s y
        | Stop _ _ => None
        end
    | Stop _ _ => None
    end
  else None.

(** fork, in two steps: other CPUs run between its call of allocproc and the
    rest. *)
Definition alloc_label (c : nat) (y : sys) : option sys :=
  if running c y then
    match allocproc c (sst y) with
    | Ret (Some np) s => Some (Sys s (<[c := Forking np]> (spc y)) (<[np := RForkret]> (sres y)))
    | Ret None s => Some (Sys s (spc y) (sres y))
    | Stop _ _ => None
    end
  else None.

Definition copy_label (c : nat) (y : sys) : option sys :=
  match spc y !! c with
  | Some (Forking np) =>
      if pt_lock (sst y) then None
      else
        match fork_copy c np (sst y) with
        | Ret _ s => Some (Sys s (<[c := Run]> (spc y)) (sres y))
        | Stop _ _ => None
        end
  | _ => None
  end.

Definition wakeup_label (c : nat) (ch : chan) (y : sys) : option sys :=
  match spc y !! c with
  | Some (Idle | Run | Forking _) =>
      if pt_lock (sst y) then None
      else
        match wakeup c ch (sst y) with
        | Ret _ s => Some (Sys s (spc y) (sres y))
        | Stop _ _ => None
        end
  | _ => None
  end.

Definition private_label (c : nat) (g : proc -> proc) (y : sys) : option sys :=
  match curproc c (sst y) with
  | Ret i s => Some (Sys (set_procs (alter (private g) i (procs s)) s) (spc y) (sres y))
  | Stop _ _ => None
  end.

Definition step_label (l : label) (y : sys) : option sys :=
  match l with
  | LSched c => sched_label c y
  | LOp c o => op_label c o y
  | LAlloc c => alloc_label c y
  | LCopy c => copy_label c y
  | LWakeup c ch => wakeup_label c ch y
  | LTick => Some (Sys (set_ticks (u32 (ticks (sst y) + 1)) (sst y)) (spc y) (sres y))
  | LPrivate c g => private_label c g y
  | LEnv x => Some (Sys (set_env x (sst y)) (spc y) (sres y))
  end.

Definition kstep (y y' : sys) : Prop := exists l, step_label l y = Some y'.

(** The machine at boot, and the system once CPU 0 has run userinit and every
    CPU has entered scheduler. *)
Definition zero_proc : proc :=
  Proc 0 0 0 UNUSED 0 None 0 0 None 0 (replicate NOFILE None) None (replicate 16 0) 0 0 0.

Definition boot (ncpu : nat) (x : X) : pstate X :=
  PState false (replicate NPROC zero_proc) 1 None 0 1 ∅ ∅ ∅ (replicate ncpu (PCpu 0 0 0 None)) x.

Definition started (ncpu : nat) (x : X) (y : sys) : Prop :=
  userinit 0 (boot ncpu x) = Ret tt (sst y) /\
  spc y = replicate ncpu Idle /\ sres y = replicate NPROC RForkret.

Definition reachable (ncpu : nat) (x : X) (y : sys) : Prop :=
  exists y0, started ncpu x y0 /\ rtc kstep y0 y.

(** The runs in which the counter of pids has not reached its maximum before
    any of the steps; the next allocproc would overflow it. *)
Definition kstep_nowrap (y y' : sys) : Prop := kstep y y' /\ nextpid (sst y) < 2 ^ 31 - 1.
Definition reachable_nowrap (ncpu : nat) (x : X) (y : sys) : Prop :=
  exists y0, started ncpu x y0 /\ rtc kstep_nowrap y0 y.

(** ** What the rest of the kernel must not do

    It does not switch to the scheduler itself, and it does not panic with
    the messages of [proc.c]. *)
Definition proc_panics : list string :=
  ["sched ptable.lock"; "sched locks"; "sched running"; "sched interruptible"; "zombie exit"; "sleep"]%string.

Definition quiet_stop (w : stop) : Prop :=
  w <> Switched /\ forall msg, msg ∈ proc_panics -> w <> Panicked msg.

Definition quiet {A} (m : M X A) : Prop := forall x w x', m x = Stop w x' -> quiet_stop w.

End sched.

Class ProcEnvLaws (X : Type) {E : ProcEnv X} := {
  q_kfree : forall a, quiet (e_kfree a);
  q_freevm : forall a, quiet (e_freevm a);
  q_allocuvm : forall a b d, quiet (e_allocuvm a b d);
  q_deallocuvm : forall a b d, quiet (e_deallocuvm a b d);
  q_switchuvm : forall a b, quiet (e_switchuvm a b);
  q_fileclose : forall f, quiet (e_fileclose f);
  q_iput : forall i, quiet (e_iput i);
  q_begin_op : quiet e_begin_op;
  q_end_op : quiet e_end_op;
  q_iinit : forall d, quiet (e_iinit d);
  q_initlog : forall d, quiet (e_initlog d);
  q_cprintf : forall f l, quiet (e_cprintf f l);
  q_store32 : forall a v, quiet (e_store32 a v);
  q_acquire : forall l, quiet (e_acquire l);
  q_release : forall l, quiet (e_release l)
}.

Create HintDb quiet.
#[export] Hint Resolve q_kfree q_freevm q_allocuvm q_deallocuvm q_switchuvm q_fileclose q_iput
  q_begin_op q_end_op q_iinit q_initlog q_cprintf q_store32 q_acquire q_release : quiet.

(** ** The invariant *)

Definition st (ps : list proc) (i : nat) : option procstate := p_state <$> ps !! i.

Definition cpu_ok (lock : bool) (ps : list proc) (pc : cpu_pc) (k : pcpu) : Prop :=
  match pc with
  | Idle => c_proc k = None /\ c_ncli k = 0
  | Scan _ => c_proc k = None /\ c_ncli k = 1 /\ lock = true /\ Z.land (c_eflags k) FL_IF = 0
  | Run => c_ncli k = 0 /\ exists i, c_proc k = Some i /\ st ps i = Some RUNNING
  | Forking np =>
      c_ncli k = 0 /\ st ps np = Some EMBRYO /\ exists i, c_proc k = Some i /\ st ps i = Some RUNNING
  | Crit =>
      c_ncli k = 1 /\ lock = true /\ Z.land (c_eflags k) FL_IF = 0 /\
      exists i, c_proc k = Some i /\ is_Some (ps !! i) /\ st ps i <> Some EMBRYO
  end.

Definition holder (pc : cpu_pc) : bool :=
  match pc with Scan _ | Crit => true | _ => false end.

Record sched_inv (lock : bool) (cpus : list pcpu) (ps : list proc) (pcs : list cpu_pc) : Prop := {
  si_len : length pcs = length cpus;
  si_cpu : forall c pc k, pcs !! c = Some pc -> cpus !! c = Some k -> cpu_ok lock ps pc k;
  si_inj : forall c c' k k' i, cpus !! c = Some k -> cpus !! c' = Some k' ->
    c_proc k = Some i -> c_proc k' = Some i -> c = c';
  si_run : forall i, st ps i = Some RUNNING -> exists c k, cpus !! c = Some k /\ c_proc k = Some i;
  si_fork : forall c c' np, pcs !! c = Some (Forking np) -> pcs !! c' = Some (Forking np) -> c = c';
  si_lock : forall c c' pc pc', pcs !! c = Some pc -> pcs !! c' = Some pc' ->
    holder pc = true -> holder pc' = true -> c = c';
  si_held : lock = true -> exists c pc, pcs !! c = Some pc /\ holder pc = true
}.

(** Whether the runs at hand are those in which the counter of pids does not
    overflow. The rest of the invariant does not depend on it. *)
Class PidRange := nowrap : Prop.

(** Pids of the slots in use are positive, below the counter and distinct, as
    long as the counter has not overflowed. *)
Definition pid_inv `{PidRange} (next : Z) (ps : list proc) : Prop :=
  nowrap ->
  1 <= next < 2 ^ 31 /\
  (forall i p, ps !! i = Some p -> p_state p <> UNUSED -> 1 <= p_pid p < next) /\
  (forall i j p q, ps !! i = Some p -> ps !! j = Some q -> p_state p <> UNUSED -> p_state q <> UNUSED ->
     p_pid p = p_pid q -> i = j).

Definition alive (o : option procstate) : Prop :=
  o = Some SLEEPING \/ o = Some RUNNABLE \/ o = Some RUNNING.

Lemma alive_sleeping : alive (Some SLEEPING).
Proof. by left. Qed.
Lemma alive_runnable : alive (Some RUNNABLE).
Proof. by right; left. Qed.
Lemma alive_running : alive (Some RUNNING).
Proof. by right; right. Qed.

Create HintDb alive.
#[export] Hint Resolve alive_sleeping alive_runnable alive_running : alive.

(** Every process but init has a parent that has not exited. *)
Definition family_inv (init : option nat) (ps : list proc) : Prop :=
  (exists i0, init = Some i0 /\ alive (st ps i0)) /\
  (forall i p, ps !! i = Some p ->
     match p_state p with
     | UNUSED | EMBRYO => p_parent p = None
     | ZOMBIE => exists q, p_parent p = Some q /\ alive (st ps q)
     | _ =>
         init = Some i /\ p_parent p = None \/
         init <> Some i /\ exists q, p_parent p = Some q /\ q <> i /\ alive (st ps q)
     end).

(** A process asleep in wait sleeps on its own address and has no child to
    reap. *)
Definition wait_inv (ps : list proc) : Prop :=
  forall i j p, ps !! i = Some p -> p_state p = SLEEPING -> p_chan p = Some (ch_proc j) ->
    j = i /\ forall k q, ps !! k = Some q -> p_parent q = Some i -> p_state q <> ZOMBIE.

Record pinv `{PidRange} {X} (s : pstate X) (pcs : list cpu_pc) : Prop := {
  pv_len : length (procs s) = NPROC;
  pv_sched : sched_inv (pt_lock s) (pcpus s) (procs s) pcs;
  pv_pid : pid_inv (nextpid s) (procs s);
  pv_family : family_inv (initproc s) (procs s);
  pv_wait : wait_inv (procs s)
}.

(** ** Changes of the table that the invariant allows *)

(** The pid and the parent stay, a sleeper keeps its channel, and the only
    change of state is a wakeup. *)
Definition benign (p p' : proc) : Prop :=
  p_pid p' = p_pid p /\ p_parent p' = p_parent p /\
  (p_state p' = SLEEPING -> p_chan p' = p_chan p) /\
  (p_state p' = p_state p \/ p_state p = SLEEPING /\ p_state p' = RUNNABLE).

Lemma benign_refl p : benign p p.
Proof. repeat split; auto. Qed.

Lemma benign_all ps : Forall2 benign ps ps.
Proof. induction ps; constructor; auto using benign_refl. Qed.

Lemma benign_alter (f : proc -> proc) i ps :
  (forall p, ps !! i = Some p -> benign p (f p)) -> Forall2 benign ps (alter f i ps).
Proof.
  revert i; induction ps as [|p ps IH]; intros [|i] Hf; simpl; constructor;
    auto using benign_refl, benign_all.
  apply IH. intros q Hq. by apply Hf.
Qed.

Lemma benign_wakeup1 ch p : benign p (wakeup1_proc ch p).
Proof.
  unfold wakeup1_proc. repeat case_bool_decide; simpl; try apply benign_refl.
  destruct p; simpl in *. repeat split; simpl; auto.
Qed.

Lemma benign_fmap (f : proc -> proc) ps : (forall p, benign p (f p)) -> Forall2 benign ps (f <$> ps).
Proof. intros Hf. induction ps; constructor; auto. Qed.

Lemma benign_lookup ps ps' i p' :
  Forall2 benign ps ps' -> ps' !! i = Some p' -> exists p, ps !! i = Some p /\ benign p p'.
Proof. intros HF Hi. destruct (Forall2_lookup_r _ _ _ _ _ HF Hi) as (p & ? & ?); eauto. Qed.

Lemma benign_lookup_l ps ps' i p :
  Forall2 benign ps ps' -> ps !! i = Some p -> exists p', ps' !! i = Some p' /\ benign p p'.
Proof. intros HF Hi. destruct (Forall2_lookup_l _ _ _ _ _ HF Hi) as (q & ? & ?); eauto. Qed.

Lemma benign_st ps ps' i :
  Forall2 benign ps ps' ->
  st ps' i = st ps i \/ st ps i = Some SLEEPING /\ st ps' i = Some RUNNABLE.
Proof.
  intros HF. unfold st. destruct (ps' !! i) as [p'|] eqn:Hi.
  - destruct (benign_lookup _ _ _ _ HF Hi) as (p & -> & (_ & _ & _ & Hst)). simpl.
    destruct Hst as [->|[-> ->]]; auto.
  - apply lookup_ge_None in Hi. rewrite <- (Forall2_length _ _ _ HF) in Hi.
    apply lookup_ge_None in Hi as ->. auto.
Qed.

Lemma benign_alive ps ps' i : Forall2 benign ps ps' -> alive (st ps i) -> alive (st ps' i).
Proof. intros HF. unfold alive. destruct (benign_st ps ps' i HF) as [->|[-> ->]]; intuition. Qed.

Lemma sched_inv_procs lock cpus ps ps' pcs :
  sched_inv lock cpus ps pcs ->
  (forall i, st ps' i = Some RUNNING -> st ps i = Some RUNNING \/
     exists c k, cpus !! c = Some k /\ c_proc k = Some i) ->
  (forall c k i, pcs !! c <> Some Crit -> cpus !! c = Some k -> c_proc k = Some i ->
     st ps i = Some RUNNING -> st ps' i = Some RUNNING) ->
  (forall c np, pcs !! c = Some (Forking np) -> st ps np = Some EMBRYO -> st ps' np = Some EMBRYO) ->
  (forall c k i, pcs !! c = Some Crit -> cpus !! c = Some k -> c_proc k = Some i ->
     is_Some (ps !! i) -> st ps i <> Some EMBRYO -> is_Some (ps' !! i) /\ st ps' i <> Some EMBRYO) ->
  sched_inv lock cpus ps' pcs.
Proof.
  intros [Hlen Hcpu Hinj Hrun Hfork Hlock Hheld] H1 H2 H3 H4. split; try done.
  - intros c pc k Hpc Hk. specialize (Hcpu c pc k Hpc Hk). destruct pc; simpl in *; try done.
    + destruct Hcpu as (? & i & Hi & Hst). split; [done|]. exists i. split; [done|].
      apply (H2 c k i); try done. by rewrite Hpc.
    + destruct Hcpu as (? & He & i & Hi & Hst). split; [done|]. split; [by apply (H3 c)|].
      exists i. split; [done|]. apply (H2 c k i); try done. by rewrite Hpc.
    + destruct Hcpu as (? & ? & ? & i & Hi & Hs & Hst). do 3 (split; [done|]).
      exists i. split; [done|]. by apply (H4 c k i).
  - intros i Hi. destruct (H1 i Hi) as [Hr|Hr]; [by apply Hrun | done].
Qed.

Lemma sched_inv_benign lock cpus ps ps' pcs :
  Forall2 benign ps ps' -> sched_inv lock cpus ps pcs -> sched_inv lock cpus ps' pcs.
Proof.
  intros HF HI. apply (sched_inv_procs _ _ ps); [done|..].
  - intros i Hi. destruct (benign_st ps ps' i HF) as [Heq|[_ Heq]]; rewrite Heq in Hi; [auto|done].
  - intros c k i _ _ _ Hi. destruct (benign_st ps ps' i HF) as [->|[Heq _]]; congruence.
  - intros c np _ Hi. destruct (benign_st ps ps' np HF) as [->|[Heq _]]; congruence.
  - intros c k i _ _ _ [p Hp] Hi. destruct (benign_lookup_l _ _ _ _ HF Hp) as (p' & Hp' & _).
    split; [eauto|]. destruct (benign_st ps ps' i HF) as [->|[_ ->]]; congruence.
Qed.

Lemma pid_inv_benign `{PidRange} next ps ps' : Forall2 benign ps ps' -> pid_inv next ps -> pid_inv next ps'.
Proof.
  intros HF HP Hnw. destruct (HP Hnw) as (Hn & Hr & Hu).
  assert (Hb : forall i p', ps' !! i = Some p' -> p_state p' <> UNUSED ->
    exists p, ps !! i = Some p /\ p_pid p' = p_pid p /\ p_state p <> UNUSED).
  { intros i p' Hi Hs. destruct (benign_lookup _ _ _ _ HF Hi) as (p & Hp & (Hpid & _ & _ & Hst)).
    exists p. split; [done|]. split; [done|]. destruct Hst as [Heq|[-> _]]; congruence. }
  split; [done|]. split.
  - intros i p' Hi Hs. destruct (Hb i p' Hi Hs) as (p & ? & -> & ?). eauto.
  - intros i j p' q' Hi Hj Hp Hq. destruct (Hb i p' Hi Hp) as (p & ? & -> & ?).
    destruct (Hb j q' Hj Hq) as (q & ? & -> & ?). eauto.
Qed.

Lemma family_inv_benign init ps ps' :
  Forall2 benign ps ps' -> family_inv init ps -> family_inv init ps'.
Proof.
  intros HF ((i0 & Hi0 & Ha) & Hpar). split; [exists i0; split; [done|]; by eapply benign_alive|].
  assert (Hup : forall q, alive (st ps q) -> alive (st ps' q)) by eauto using benign_alive.
  intros i p' Hi. destruct (benign_lookup _ _ _ _ HF Hi) as (p & Hp & (_ & -> & _ & Hst)).
  specialize (Hpar i p Hp). destruct Hst as [->|[Hs ->]]; [|rewrite Hs in Hpar; naive_solver].
  destruct (p_state p); naive_solver.
Qed.

Lemma wait_inv_benign ps ps' : Forall2 benign ps ps' -> wait_inv ps -> wait_inv ps'.
Proof.
  intros HF HW i j p' Hi Hs Hc. destruct (benign_lookup _ _ _ _ HF Hi) as (p & Hp & (_ & _ & Hch & Hst)).
  assert (p_state p = SLEEPING) as Hs' by (destruct Hst as [Heq|[_ Heq]]; congruence).
  destruct (HW i j p Hp Hs') as [-> Hz]; [rewrite <- Hch; done|]. split; [done|].
  intros k q' Hk Hpar. destruct (benign_lookup _ _ _ _ HF Hk) as (q & Hq & (_ & Hp' & _ & Hst')).
  specialize (Hz k q Hq ltac:(congruence)). destruct Hst' as [->|[_ ->]]; done.
Qed.

(** Case split on a lookup in an updated list. *)
Ltac ins H :=
  let Ei := fresh in let Ev := fresh in
  apply list_lookup_insert_Some in H as [(Ei & Ev & _)|[? H]];
    [match type of Ei with
     | ?i = ?i => clear Ei
     | _ = ?j => subst j
     end;
     match type of Ev with
     | _ = ?y => first [is_var y; subst y | simplify_eq Ev]
     end|].

(** A step of one CPU: its entry, its control point and the lock change. *)
Definition proc_change (cpus : list pcpu) (ps : list proc) (k k' : pcpu) : Prop :=
  c_proc k' = c_proc k \/
  (c_proc k' = None /\ forall i, c_proc k = Some i -> st ps i <> Some RUNNING) \/
  (c_proc k = None /\ forall i d m, c_proc k' = Some i -> cpus !! d = Some m -> c_proc m <> Some i).

Definition lock_change (lock lock' : bool) (pc pc' : cpu_pc) : Prop :=
  (lock' = lock /\ holder pc' = holder pc) \/
  (lock = false /\ lock' = true /\ holder pc' = true) \/
  (lock' = false /\ holder pc = true /\ holder pc' = false).

Lemma cpu_ok_lock lock lock' ps pc k :
  cpu_ok lock ps pc k -> (holder pc = true -> lock = true -> lock' = true) -> cpu_ok lock' ps pc k.
Proof. destruct pc; simpl; naive_solver. Qed.

Section one_cpu.
Context (lock lock' : bool) (cpus : list pcpu) (ps : list proc) (pcs : list cpu_pc).
Context (c : nat) (k k' : pcpu) (pc pc' : cpu_pc).
Hypothesis HI : sched_inv lock cpus ps pcs.
Hypothesis Hk : cpus !! c = Some k.
Hypothesis Hpc : pcs !! c = Some pc.
Hypothesis Hlock : lock_change lock lock' pc pc'.

Let Hc : (c < length cpus)%nat := lookup_lt_Some _ _ _ Hk.
Let Hc' : (c < length pcs)%nat := lookup_lt_Some _ _ _ Hpc.

Lemma one_cpu_other d pcd m :
  d <> c -> pcs !! d = Some pcd -> cpus !! d = Some m -> cpu_ok lock' ps pcd m.
Proof.
  intros Hd Hpd Hm. eapply cpu_ok_lock; [by eapply (si_cpu _ _ _ _ HI)|].
  intros Hh Hl. destruct Hlock as [[-> _]|[[_ [-> _]]|[_ [Hh' _]]]]; try done.
  destruct Hd. by eapply (si_lock _ _ _ _ HI).
Qed.

Lemma one_cpu_inj :
  proc_change cpus ps k k' ->
  forall d d' m m' i, <[c := k']> cpus !! d = Some m -> <[c := k']> cpus !! d' = Some m' ->
    c_proc m = Some i -> c_proc m' = Some i -> d = d'.
Proof.
  intros Hp d d' m m' i Hd Hd' Hm Hm'. ins Hd; ins Hd'; [done|..].
  - destruct Hp as [He|[[He _]|[_ He]]]; [|congruence|].
    + eapply (si_inj _ _ _ _ HI c d' k m' i); congruence.
    + by destruct (He i d' m').
  - destruct Hp as [He|[[He _]|[_ He]]]; [|congruence|].
    + eapply (si_inj _ _ _ _ HI d c m k i); congruence.
    + by destruct (He i d m).
  - by eapply (si_inj _ _ _ _ HI).
Qed.

Lemma one_cpu_run :
  proc_change cpus ps k k' ->
  forall i, st ps i = Some RUNNING -> exists d m, <[c := k']> cpus !! d = Some m /\ c_proc m = Some i.
Proof.
  intros Hp i Hi. destruct (si_run _ _ _ _ HI i Hi) as (d & m & Hd & Hm).
  destruct (decide (d = c)) as [->|Hn].
  - simplify_eq. destruct Hp as [He|[[_ He]|[He _]]].
    + exists c, k'. rewrite list_lookup_insert_eq by done. split; congruence.
    + by destruct (He i).
    + congruence.
  - exists d, m. by rewrite list_lookup_insert_ne.
Qed.

Lemma sched_inv_pc :
  cpu_ok lock' ps pc' k' ->
  proc_change cpus ps k k' ->
  (forall np d, pc' = Forking np -> d <> c -> pcs !! d <> Some (Forking np)) ->
  sched_inv lock' (<[c := k']> cpus) ps (<[c := pc']> pcs).
Proof.
  intros Hok Hp Hf. split.
  - rewrite !length_insert. apply HI.
  - intros d pcd m Hpd Hm. ins Hpd; ins Hm; try done. by eapply one_cpu_other.
  - by apply one_cpu_inj.
  - by apply one_cpu_run.
  - intros d d' np Hd Hd'. ins Hd; ins Hd'; try done.
    + by destruct (Hf np d').
    + by destruct (Hf np d).
    + by eapply (si_fork _ _ _ _ HI).
  - intros d d' q q' Hd Hd' Hq Hq'.
    assert (Hout : forall e pe, c <> e -> pcs !! e = Some pe -> holder pe = true -> holder pc' = false).
    { intros e pe He Hpe Hpe'. assert (holder pc = true -> False) as Hno.
      { intros Hh. apply He. by eapply (si_lock _ _ _ _ HI). }
      destruct Hlock as [[_ ->]|[(-> & _ & _)|(_ & Hh & _)]]; [|exfalso|naive_solver].
      - by destruct (holder pc); [destruct Hno|].
      - destruct (lookup_lt_is_Some_2 cpus e) as [m Hm].
        { rewrite <- (si_len _ _ _ _ HI). by eapply lookup_lt_Some. }
        pose proof (si_cpu _ _ _ _ HI e pe m Hpe Hm) as Hm'. destruct pe; naive_solver. }
    ins Hd; ins Hd'; try done.
    + rewrite (Hout d' q') in Hq; done.
    + rewrite (Hout d q) in Hq'; done.
    + by eapply (si_lock _ _ _ _ HI).
  - intros ->. destruct (holder pc') eqn:Hh.
    { exists c, pc'. by rewrite list_lookup_insert_eq. }
    destruct Hlock as [[<- Heq]|[(_ & _ & ?)|(? & _)]]; [|congruence|congruence].
    destruct (si_held _ _ _ _ HI eq_refl) as (d & q & Hd & Hq). exists d, q. split; [|done].
    rewrite list_lookup_insert_ne; [done|]. intros ->. congruence.
Qed.
End one_cpu.

(** ** The operations keep the invariant *)

Section preserve.
Context {X : Type} {E : ProcEnv X} {L : ProcEnvLaws X} {N : PidRange}.
Implicit Types s : pstate X.

(** The fields that the invariant reads. *)
Definition same_table s s' : Prop :=
  procs s' = procs s /\ nextpid s' = nextpid s /\ initproc s' = initproc s.

Lemma pinv_ext s s' pcs :
  same_table s s' -> pt_lock s' = pt_lock s -> pcpus s' = pcpus s -> pinv s pcs -> pinv s' pcs.
Proof.
  intros (Hp & Hn & Hi) Hl Hc [? ? ? ? ?]. split; by rewrite ?Hp, ?Hn, ?Hi, ?Hl, ?Hc.
Qed.

Lemma pinv_benign s ps' pcs :
  Forall2 benign (procs s) ps' -> pinv s pcs -> pinv (set_procs ps' s) pcs.
Proof.
  intros HF [? ? ? ? ?]. split; cbn.
  - by rewrite <- (Forall2_length _ _ _ HF).
  - by eapply sched_inv_benign.
  - by eapply pid_inv_benign.
  - by eapply family_inv_benign.
  - by eapply wait_inv_benign.
Qed.

Lemma pinv_cpu s pcs c k k' pc pc' lock' :
  pinv s pcs -> pcpus s !! c = Some k -> pcs !! c = Some pc ->
  lock_change (pt_lock s) lock' pc pc' ->
  cpu_ok lock' (procs s) pc' k' ->
  proc_change (pcpus s) (procs s) k k' ->
  (forall np d, pc' = Forking np -> d <> c -> pcs !! d <> Some (Forking np)) ->
  pinv (set_pt_lock lock' (set_pcpus (<[c := k']> (pcpus s)) s)) (<[c := pc']> pcs).
Proof. intros [? ? ? ? ?] **. split; cbn; try done. by eapply sched_inv_pc. Qed.

(** Rules for the primitive steps. *)
Lemma wpe_acquire_pt c s k (Q : unit -> pstate X -> Prop) F :
  pcpus s !! c = Some k -> pt_lock s = false ->
  (forall k', c_proc k' = c_proc k -> c_ncli k' = c_ncli k + 1 -> Z.land (c_eflags k') FL_IF = 0 ->
     Q tt (set_pt_lock true (set_pcpus (<[c := k']> (pcpus s)) s))) ->
  wpe (acquire_pt c) s Q F.
Proof.
  intros Hk Hl HQ. unfold wpe, acquire_pt, cpu_at, upd_cpu. munfold. rewrite Hk.
  destruct (c_ncli k =? 0) eqn:Hn; cbn; rewrite Hl;
    rewrite ?(alter_insert _ (pcpus s) c k) by done.
  - rewrite (alter_insert _ _ c (set_c_intena (Z.land (c_eflags k) FL_IF) k))
      by (rewrite list_lookup_insert_eq; [done|by eapply lookup_lt_Some]).
    rewrite list_insert_insert_eq. apply HQ; cbn; [done|lia|apply Z.land_ldiff].
  - apply HQ; cbn; [done|lia|apply Z.land_ldiff].
Qed.

Lemma wpe_release_pt c s k (Q : unit -> pstate X -> Prop) F :
  pcpus s !! c = Some k -> pt_lock s = true -> 1 <= c_ncli k ->
  (forall k', c_proc k' = c_proc k -> c_ncli k' = c_ncli k - 1 ->
     Q tt (set_pt_lock false (set_pcpus (<[c := k']> (pcpus s)) s))) ->
  wpe (release_pt c) s Q F.
Proof.
  intros Hk Hl Hn HQ. unfold wpe, release_pt, cpu_at, upd_cpu. munfold. rewrite Hl.
  rewrite (alter_insert _ (pcpus s) c k) by done.
  rewrite list_lookup_insert_eq by by eapply lookup_lt_Some. cbn.
  destruct (c_ncli k - 1 <? 0) eqn:Hneg; [lia|].
  destruct ((c_ncli k - 1 =? 0) && negb (c_intena k =? 0)); [|by apply HQ].
  change (pcpus (set_pcpus ?a ?b)) with a.
  rewrite (alter_insert _ _ c (set_c_ncli (c_ncli k - 1) k))
    by (rewrite list_lookup_insert_eq; [done|by eapply lookup_lt_Some]).
  rewrite list_insert_insert_eq. by apply HQ.
Qed.

Lemma wpe_call {A} (m : M X A) s (Q : A -> pstate X -> Prop) F :
  quiet m ->
  (forall a x, Q a (set_env x s)) -> (forall w x, quiet_stop w -> F w (set_env x s)) ->
  wpe (call m) s Q F.
Proof.
  intros Hm HQ HF. apply wpe_zoom. unfold wpe. cbn. destruct (m (env s)) eqn:Hr; [apply HQ|].
  apply HF. by eapply Hm.
Qed.

Lemma wpe_proc_at i s p (Q : proc -> pstate X -> Prop) F :
  procs s !! i = Some p -> Q p s -> wpe (proc_at i) s Q F.
Proof. intros Hp HQ. unfold wpe, proc_at. munfold. by rewrite Hp. Qed.

Lemma wpe_upd_proc i f s (Q : unit -> pstate X -> Prop) F :
  Q tt (set_procs (alter f i (procs s)) s) -> wpe (upd_proc i f) s Q F.
Proof. done. Qed.

Lemma wpe_curproc c i s k (Q : nat -> pstate X -> Prop) F :
  pcpus s !! c = Some k -> c_proc k = Some i -> Q i s -> wpe (curproc c) s Q F.
Proof. intros Hk Hi HQ. unfold wpe, curproc, cpu_at. munfold. by rewrite Hk, Hi. Qed.

(** CPU [c] runs process [i] and holds ptable.lock. *)
Definition crit (c i : nat) (pcs : list cpu_pc) s : Prop :=
  pinv s (<[c := Crit]> pcs) /\ (c < length pcs)%nat /\
  exists k, pcpus s !! c = Some k /\ c_proc k = Some i.

Lemma crit_benign c i pcs s ps' :
  Forall2 benign (procs s) ps' -> crit c i pcs s -> crit c i pcs (set_procs ps' s).
Proof. intros HF (HI & Hc & Hk). split; [by apply pinv_benign|done]. Qed.

Lemma crit_ext c i pcs s s' :
  same_table s s' -> pt_lock s' = pt_lock s -> pcpus s' = pcpus s -> crit c i pcs s -> crit c i pcs s'.
Proof.
  intros Ht Hl Hp (HI & Hc & k & Hk). split; [by eapply pinv_ext|]. split; [done|].
  exists k. by rewrite Hp.
Qed.

(** What the invariant says of CPU [c] in a critical section. *)
Lemma crit_cpu c i pcs s :
  crit c i pcs s ->
  exists k, pcpus s !! c = Some k /\ c_proc k = Some i /\ c_ncli k = 1 /\ pt_lock s = true /\
    Z.land (c_eflags k) FL_IF = 0 /\ is_Some (procs s !! i).
Proof.
  intros (HI & Hc & k & Hk & Hi). exists k.
  assert (Hpc : <[c := Crit]> pcs !! c = Some Crit) by by apply list_lookup_insert_eq.
  pose proof (si_cpu _ _ _ _ (pv_sched _ _ HI) c Crit k Hpc Hk) as (? & ? & ? & j & Hj & ? & ?).
  rewrite Hi in Hj. by simplify_eq.
Qed.

Lemma wpe_enter c i k s pcs (Q : unit -> pstate X -> Prop) F :
  pinv s pcs -> pcs !! c = Some Run -> pt_lock s = false ->
  pcpus s !! c = Some k -> c_proc k = Some i ->
  (forall s', crit c i pcs s' -> same_table s s' -> st (procs s') i = Some RUNNING -> Q tt s') ->
  wpe (acquire_pt c) s Q F.
Proof.
  intros HI Hpc Hl Hk Hi HQ.
  pose proof (si_cpu _ _ _ _ (pv_sched _ _ HI) c Run k Hpc Hk) as (Hn & j & Hj & Hst).
  rewrite Hi in Hj. simplify_eq. apply (wpe_acquire_pt _ _ k); [done..|]. intros k' Hp' Hn' Hf'.
  apply HQ; [|done|done]. split; [|split; [by eapply lookup_lt_Some|]].
  - apply (pinv_cpu _ _ _ k k' Run); try done.
    + right. left. done.
    + cbn. rewrite Hn'. split; [lia|]. do 2 (split; [done|]). exists j. unfold st in Hst.
      split; [congruence|]. unfold st. destruct (procs s !! j); [|done]. split; [eauto|]. simpl in *. congruence.
    + by left.
  - exists k'. cbn. rewrite list_lookup_insert_eq by by eapply lookup_lt_Some. split; congruence.
Qed.

Lemma wpe_leave c i pcs s (Q : unit -> pstate X -> Prop) F :
  crit c i pcs s -> st (procs s) i = Some RUNNING ->
  (forall s', pinv s' (<[c := Run]> pcs) -> same_table s s' -> Q tt s') ->
  wpe (release_pt c) s Q F.
Proof.
  intros HC Hst HQ. destruct (crit_cpu _ _ _ _ HC) as (k & Hk & Hi & Hn & Hl & Hf & _).
  destruct HC as (HI & Hc & _). apply (wpe_release_pt _ _ k); [done|done|lia|]. intros k' Hp' Hn'.
  apply HQ; [|done]. rewrite <- (list_insert_insert_eq pcs c Run Crit).
  apply (pinv_cpu _ _ _ k k' Crit); try done.
  - by apply list_lookup_insert_eq.
  - right. right. done.
  - cbn. split; [lia|]. exists i. split; [congruence|done].
  - by left.
Qed.

Lemma st_alter (f : proc -> proc) i ps p :
  ps !! i = Some p -> st (alter f i ps) i = Some (p_state (f p)).
Proof. intros Hp. unfold st. by rewrite list_lookup_alter_eq, Hp. Qed.

Lemma st_alter_ne (f : proc -> proc) i j ps : i <> j -> st (alter f i ps) j = st ps j.
Proof. intros Hn. unfold st. by rewrite list_lookup_alter_ne. Qed.

Lemma lookup_alter_cases (f : proc -> proc) (i j : nat) (ps : list proc) q :
  alter f i ps !! j = Some q ->
  (j = i /\ exists p, ps !! i = Some p /\ q = f p) \/ (j <> i /\ ps !! j = Some q).
Proof.
  destruct (decide (j = i)) as [->|Hn].
  - rewrite list_lookup_alter_eq. intros (p & -> & ->)%fmap_Some. left. eauto.
  - rewrite list_lookup_alter_ne by done. auto.
Qed.

Lemma pid_inv_alter next (f : proc -> proc) i ps :
  (forall p, ps !! i = Some p -> p_state (f p) <> UNUSED -> p_state p <> UNUSED /\ p_pid (f p) = p_pid p) ->
  pid_inv next ps -> pid_inv next (alter f i ps).
Proof.
  intros Hf HP Hnw. destruct (HP Hnw) as (Hn & Hr & Hu).
  assert (Hb : forall j q, alter f i ps !! j = Some q -> p_state q <> UNUSED ->
    exists p, ps !! j = Some p /\ p_pid q = p_pid p /\ p_state p <> UNUSED).
  { intros j q [(-> & p & Hp & ->)|[_ Hj]]%lookup_alter_cases Hs; [|eauto].
    destruct (Hf p Hp Hs). eauto. }
  split; [done|]. split.
  - intros j q Hj Hs. destruct (Hb j q Hj Hs) as (p & ? & -> & ?). eauto.
  - intros j j' q q' Hj Hj' Hs Hs'. destruct (Hb j q Hj Hs) as (p & ? & -> & ?).
    destruct (Hb j' q' Hj' Hs') as (p' & ? & -> & ?). eauto.
Qed.

(** In a critical section the state of the CPU's process is free. *)
Lemma crit_sched_alter c i pcs s (f : proc -> proc) p :
  crit c i pcs s -> procs s !! i = Some p -> p_state (f p) <> EMBRYO ->
  sched_inv (pt_lock s) (pcpus s) (alter f i (procs s)) (<[c := Crit]> pcs).
Proof.
  intros (HI & Hc & k & Hk & Hi) Hp Hs. pose proof (pv_sched _ _ HI) as HS.
  assert (Hpc : <[c := Crit]> pcs !! c = Some Crit) by by apply list_lookup_insert_eq.
  pose proof (si_cpu _ _ _ _ HS c Crit k Hpc Hk) as (_ & _ & _ & i' & Hi' & _ & Hne).
  assert (i' = i) as -> by congruence.
  apply (sched_inv_procs _ _ (procs s)); [done|..].
  - intros j Hj. destruct (decide (i = j)) as [->|Hn]; [eauto|].
    rewrite st_alter_ne in Hj by done. auto.
  - intros d m j Hd Hm Hj Hst. rewrite st_alter_ne; [done|]. intros ->. apply Hd.
    by rewrite (si_inj _ _ _ _ HS d c m k j).
  - intros d np Hd Hst. rewrite st_alter_ne; [done|]. intros ->. done.
  - intros d m j Hd Hm Hj _ _. assert (d = c) as -> by by eapply (si_lock _ _ _ _ HS).
    assert (j = i) as -> by congruence. split.
    + rewrite list_lookup_alter_eq, Hp. by eexists.
    + rewrite (st_alter _ _ _ p) by done. congruence.
Qed.

Lemma alive_alter (f : proc -> proc) i ps p j :
  ps !! i = Some p -> alive (Some (p_state (f p))) -> alive (st ps j) -> alive (st (alter f i ps) j).
Proof.
  intros Hp Ha Hj. destruct (decide (i = j)) as [->|Hn]; [by rewrite (st_alter _ _ _ p)|].
  by rewrite st_alter_ne.
Qed.

(** yield, sleep and the scheduler: the process of the CPU changes between
    RUNNABLE, RUNNING and SLEEPING. *)
Lemma crit_desched c i pcs s (f : proc -> proc) p :
  crit c i pcs s -> procs s !! i = Some p -> alive (Some (p_state p)) ->
  p_pid (f p) = p_pid p -> p_parent (f p) = p_parent p -> alive (Some (p_state (f p))) ->
  (p_state (f p) = SLEEPING -> forall j, p_chan (f p) = Some (ch_proc j) ->
     j = i /\ forall k q, procs s !! k = Some q -> p_parent q = Some i -> p_state q <> ZOMBIE) ->
  crit c i pcs (set_procs (alter f i (procs s)) s).
Proof.
  intros HC Hp Hrun Hpid Hpar Ha Hch. pose proof HC as (HI & Hc & Hk). split; [|done].
  destruct HI as [Hlen HS HP HF HW]. split; cbn.
  - by rewrite length_alter.
  - apply (crit_sched_alter _ _ _ _ _ p); try done. unfold alive in Ha. intuition congruence.
  - apply pid_inv_alter; [|done]. intros q Hq _. simplify_eq. split; [|done].
    unfold alive in Hrun. intuition congruence.
  - destruct HF as ((i0 & ? & ?) & HF). split; [exists i0; split; [done|]; by eapply alive_alter|].
    assert (Hup : forall w, alive (st (procs s) w) -> alive (st (alter f i (procs s)) w))
      by (intros; by eapply alive_alter).
    intros j q [(-> & p' & Hp' & ->)|[_ Hj]]%lookup_alter_cases.
    + simplify_eq. specialize (HF i p Hp). rewrite Hpar.
      unfold alive in Hrun, Ha. destruct (p_state p), (p_state (f p)); naive_solver.
    + specialize (HF j q Hj). destruct (p_state q); naive_solver.
  - assert (Hz : forall w m q, alter f i (procs s) !! m = Some q -> p_parent q = Some w ->
      (forall k q, procs s !! k = Some q -> p_parent q = Some w -> p_state q <> ZOMBIE) ->
      p_state q <> ZOMBIE).
    { intros w m q [(-> & p' & Hp' & ->)|[_ Hm]]%lookup_alter_cases Hw Hall; [|eauto].
      simplify_eq. unfold alive in Ha. intuition congruence. }
    intros j w q [(-> & p' & Hp' & ->)|[_ Hj]]%lookup_alter_cases Hs Hw.
    + simplify_eq. destruct (Hch Hs w Hw) as [-> Hall]. split; [done|]. intros. by eapply Hz.
    + destruct (HW j w q Hj Hs Hw) as [-> Hall]. split; [done|]. intros. by eapply Hz.
Qed.

(** sched passes all its checks, and control goes to the scheduler. *)
Lemma wpe_sched c i pcs s (Q : unit -> pstate X -> Prop) (F : stop -> pstate X -> Prop) :
  crit c i pcs s -> st (procs s) i <> Some RUNNING -> F Switched s -> wpe (sched c) s Q F.
Proof.
  intros HC Hst HF. destruct (crit_cpu _ _ _ _ HC) as (k & Hk & Hi & Hn & Hl & Hf & p & Hp).
  unfold wpe, sched, curproc, proc_at, cpu_at. munfold. rewrite Hk, Hi, Hp, Hk, Hl, Hn, Hf. cbn.
  rewrite bool_decide_eq_false_2; [done|]. intros Heq. apply Hst. unfold st. by rewrite Hp, <- Heq.
Qed.

Lemma wpe_back c i pcs s :
  crit c i pcs s -> st (procs s) i <> Some RUNNING ->
  wpe (scheduler_back c) s (fun _ s' => pinv s' (<[c := Scan (S i)]> pcs)) (fun _ _ => True).
Proof.
  intros HC Hst. destruct (crit_cpu _ _ _ _ HC) as (k & Hk & Hi & Hn & Hl & Hf & p & Hp).
  pose proof HC as (HI & Hc & _). unfold scheduler_back. apply wpe_bind, wpe_zoom.
  unfold wpe at 1. destruct (e_switchkvm _) as [_ x|]; [|done]. apply wpe_modify.
  rewrite <- (list_insert_insert_eq pcs c (Scan (S i)) Crit). cbn [pcpus set_env update env_lens].
  rewrite (alter_insert _ _ c k) by done.
  eapply (pinv_ext (set_pt_lock (pt_lock s) (set_pcpus (<[c := set_c_proc None k]> (pcpus s)) s)));
    [done|done|done|].
  apply (pinv_cpu _ _ _ k _ Crit); try done.
  - by apply list_lookup_insert_eq.
  - by left.
  - right. left. split; [done|]. intros j Hj. congruence.
Qed.

(** A process of the table that is asleep in wait. *)
Definition waiting (ps : list proc) (w : nat) : Prop :=
  exists p, ps !! w = Some p /\ p_state p = SLEEPING /\ p_chan p = Some (ch_proc w).

Lemma wait_inv_waiting ps i j p :
  wait_inv ps -> ps !! i = Some p -> p_state p = SLEEPING -> p_chan p = Some (ch_proc j) ->
  j = i /\ waiting ps i.
Proof. intros HW Hp Hs Hc. destruct (HW i j p Hp Hs Hc) as [-> _]. split; [done|]. by exists p. Qed.

Lemma waiting_alter (f : proc -> proc) i ps w :
  (forall p, ps !! i = Some p -> p_state (f p) = SLEEPING -> p_state p = SLEEPING /\ p_chan (f p) = p_chan p) ->
  waiting (alter f i ps) w -> waiting ps w.
Proof.
  intros Hf (q & [(-> & p & Hp & ->)|[_ Hw]]%lookup_alter_cases & Hs & Hc); [|by exists q].
  destruct (Hf p Hp Hs). exists p. split; [done|]. split; congruence.
Qed.

(** Slots that are neither running nor being set up may change freely, as far
    as the CPUs are concerned. *)
Lemma sched_inv_inert lock cpus ps pcs (f : proc -> proc) i p :
  sched_inv lock cpus ps pcs -> ps !! i = Some p ->
  (p_state (f p) = p_state p \/
   p_state p <> RUNNING /\ p_state p <> EMBRYO /\ p_state (f p) <> RUNNING /\ p_state (f p) <> EMBRYO) ->
  sched_inv lock cpus (alter f i ps) pcs.
Proof.
  intros HI Hp Hf.
  assert (Hst : forall j, st (alter f i ps) j = st ps j \/
    st ps j <> Some RUNNING /\ st ps j <> Some EMBRYO /\
    st (alter f i ps) j <> Some RUNNING /\ st (alter f i ps) j <> Some EMBRYO).
  { intros j. destruct (decide (i = j)) as [<-|Hn]; [|left; by apply st_alter_ne].
    rewrite (st_alter _ _ _ p) by done. unfold st. rewrite Hp. simpl. naive_solver congruence. }
  apply (sched_inv_procs _ _ ps); [done|..].
  - intros j Hj. destruct (Hst j) as [Heq|?]; [rewrite Heq in Hj; auto|naive_solver].
  - intros c k j _ _ _ Hj. destruct (Hst j) as [->|?]; naive_solver.
  - intros c np _ Hj. destruct (Hst np) as [->|?]; naive_solver.
  - intros c k j _ _ _ [q Hq] Hj. split.
    + apply lookup_lt_is_Some. rewrite length_alter. by eapply lookup_lt_Some.
    + destruct (Hst j) as [->|?]; naive_solver.
Qed.

(** wait frees a zombie. *)
Lemma crit_reap c i pcs s (f : proc -> proc) j p :
  crit c i pcs s -> procs s !! j = Some p -> p_state p = ZOMBIE ->
  p_state (f p) = UNUSED -> p_parent (f p) = None ->
  crit c i pcs (set_procs (alter f j (procs s)) s).
Proof.
  intros (HI & Hc & Hk) Hp Hz Hf Hpar. split; [|done].
  assert (Hnz : ~ alive (st (procs s) j)) by (unfold st, alive; rewrite Hp; simpl; naive_solver congruence).
  assert (Hup : forall w, alive (st (procs s) w) -> alive (st (alter f j (procs s)) w)).
  { intros w Hw. rewrite st_alter_ne; [done|]. by intros <-. }
  destruct HI as [Hlen HS HP HF HW]. split; cbn.
  - by rewrite length_alter.
  - apply (sched_inv_inert _ _ _ _ _ _ p); [done|done|]. right. rewrite Hz, Hf. done.
  - apply pid_inv_alter; [|done]. intros q Hq. simplify_eq. congruence.
  - destruct HF as ((i0 & ? & ?) & HF). split; [eauto|].
    intros m q [(-> & p' & Hp' & ->)|[_ Hm]]%lookup_alter_cases.
    + simplify_eq. by rewrite Hf.
    + specialize (HF m q Hm). destruct (p_state q); naive_solver.
  - intros m w q [(-> & p' & Hp' & ->)|[_ Hm]]%lookup_alter_cases Hs Hw; [simplify_eq; congruence|].
    destruct (HW m w q Hm Hs Hw) as [-> Hall]. split; [done|].
    intros n r [(-> & p' & Hp' & ->)|[_ Hn]]%lookup_alter_cases Hr; [simplify_eq; congruence|eauto].
Qed.

(** exit hands a child to init. *)
Lemma crit_set_parent c i pcs s k p i0 :
  crit c i pcs s -> procs s !! k = Some p -> p_parent p = Some i -> initproc s = Some i0 ->
  (p_state p = ZOMBIE -> ~ waiting (procs s) i0) ->
  crit c i pcs (set_procs (alter (set_p_parent (Some i0)) k (procs s)) s).
Proof.
  intros (HI & Hc & Hk) Hp Hpar Hi0 Hz. split; [|done].
  assert (Hst : forall w, st (alter (set_p_parent (Some i0)) k (procs s)) w = st (procs s) w).
  { intros w. destruct (decide (k = w)) as [->|Hn]; [|by apply st_alter_ne].
    rewrite (st_alter _ _ _ p) by done. unfold st. by rewrite Hp. }
  destruct HI as [Hlen HS HP HF HW]. split; cbn.
  - by rewrite length_alter.
  - apply (sched_inv_inert _ _ _ _ _ _ p); [done|done|]. by left.
  - apply pid_inv_alter; [|done]. done.
  - destruct HF as ((i1 & Hi1 & Ha) & HF). assert (i1 = i0) as -> by congruence.
    split; [exists i0; rewrite Hst; done|].
    assert (Hup : forall w, alive (st (procs s) w) ->
      alive (st (alter (set_p_parent (Some i0)) k (procs s)) w)) by (intros w; by rewrite Hst).
    intros m q [(-> & p' & Hp' & ->)|[_ Hm]]%lookup_alter_cases; cbn.
    + simplify_eq. pose proof (HF k p Hp) as Hk'.
      assert (Hki : p_state p <> ZOMBIE -> k <> i0).
      { intros Hnz <-. rewrite Hpar in Hk'. destruct (p_state p); naive_solver. }
      destruct (p_state p); try congruence;
        try (right; split; [rewrite Hi1; specialize (Hki ltac:(done)); congruence|]);
        exists i0; repeat split; auto; apply not_eq_sym, Hki; done.
    + specialize (HF m q Hm). destruct (p_state q); naive_solver.
  - intros m w q Hm Hs Hw.
    assert (exists q', procs s !! m = Some q' /\ p_state q' = SLEEPING /\ p_chan q' = Some (ch_proc w))
      as (q' & Hq' & Hs' & Hw').
    { apply lookup_alter_cases in Hm as [(-> & p' & Hp' & ->)|[_ Hm]]; eauto. }
    destruct (HW m w q' Hq' Hs' Hw') as [-> Hall]. split; [done|].
    intros n r [(-> & p' & Hp' & ->)|[_ Hn]]%lookup_alter_cases Hr; [|eauto]. cbn in *. simplify_eq.
    intros Hzz. apply Hz; [done|]. by exists q'.
Qed.

(** exit makes the running process a zombie. *)
Lemma crit_exit c i pcs s (f : proc -> proc) p :
  crit c i pcs s -> procs s !! i = Some p -> p_state p = RUNNING -> initproc s <> Some i ->
  (forall k q, procs s !! k = Some q -> p_parent q <> Some i) ->
  (forall w, p_parent p = Some w -> ~ waiting (procs s) w) ->
  p_state (f p) = ZOMBIE -> p_pid (f p) = p_pid p -> p_parent (f p) = p_parent p ->
  crit c i pcs (set_procs (alter f i (procs s)) s).
Proof.
  intros HC Hp Hrun Hni Hnc Hnw Hf Hpid Hpar. pose proof HC as (HI & Hc & Hk). split; [|done].
  assert (Hup : forall w, w <> i -> alive (st (procs s) w) -> alive (st (alter f i (procs s)) w)).
  { intros w Hw. by rewrite st_alter_ne. }
  destruct HI as [Hlen HS HP HF HW]. split; cbn.
  - by rewrite length_alter.
  - apply (crit_sched_alter _ _ _ _ _ p); [done..|congruence].
  - apply pid_inv_alter; [|done]. intros q Hq. simplify_eq. by rewrite Hrun.
  - destruct HF as ((i0 & Hi0 & ?) & HF). split; [exists i0; split; [done|]; apply Hup; congruence|].
    intros m q [(-> & p' & Hp' & ->)|[Hne Hm]]%lookup_alter_cases.
    + simplify_eq. specialize (HF i p Hp). rewrite Hrun in HF. rewrite Hf, Hpar. naive_solver.
    + pose proof (Hnc m q Hm). specialize (HF m q Hm). destruct (p_state q); naive_solver congruence.
  - intros m w q [(-> & p' & Hp' & ->)|[_ Hm]]%lookup_alter_cases Hs Hw; [simplify_eq; congruence|].
    destruct (HW m w q Hm Hs Hw) as [-> Hall]. split; [done|].
    intros n r [(-> & p' & Hp' & ->)|[_ Hn]]%lookup_alter_cases Hr; [|eauto]. simplify_eq.
    destruct (Hnw m); [congruence|]. by exists q.
Qed.

(** How an operation of the process [i] on CPU [c] may end other than by
    returning: switched out, or stopped by the rest of the kernel. *)
Definition leaves (c i : nat) (pcs : list cpu_pc) (w : stop) s : Prop :=
  w = Switched /\ crit c i pcs s /\ st (procs s) i <> Some RUNNING \/ quiet_stop w.

Definition in_crit (c i : nat) (pcs : list cpu_pc) s : Prop :=
  crit c i pcs s /\ st (procs s) i = Some RUNNING.

Lemma st_lookup ps i x : st ps i = Some x -> exists p, ps !! i = Some p /\ p_state p = x.
Proof. unfold st. intros (p & ? & ->)%fmap_Some. eauto. Qed.

Definition reaped (p : proc) : proc :=
  set_p_state UNUSED (set_p_killed 0 (set_p_name (<[0%nat := 0]> (p_name p))
    (set_p_parent None (set_p_pid 0 (set_p_kstack 0 p))))).

Lemma wpe_reap j p s (Q : Z -> pstate X -> Prop) F :
  procs s !! j = Some p ->
  (forall x, Q (p_pid p) (set_env x (set_procs (alter reaped j (procs s)) s))) ->
  (forall w s', quiet_stop w -> F w s') ->
  wpe (reap j) s Q F.
Proof.
  intros Hp HQ HF. unfold reap. apply wpe_bind, (wpe_proc_at _ _ p); [done|].
  apply wpe_bind, wpe_call; [auto with quiet| |auto]. intros _ x. cbv beta.
  apply wpe_bind, wpe_upd_proc, wpe_bind, wpe_call; [auto with quiet| |auto]. intros _ x'.
  do 5 apply wpe_bind, wpe_upd_proc. apply wpe_ret. cbn [procs set_procs set_env].
  rewrite !list_alter_alter_eq. specialize (HQ x').
  replace (alter _ j (procs s)) with (alter reaped j (procs s)); [exact HQ|]. by apply list_alter_ext.
Qed.

Lemma wpe_reap_times a b d j p s (Q : Z -> pstate X -> Prop) F :
  procs s !! j = Some p ->
  (forall x, Q (p_pid p) (set_env x (set_procs (alter reaped j (procs s)) s))) ->
  (forall w s', quiet_stop w -> F w s') ->
  wpe (reap_times a b d j) s Q F.
Proof.
  intros Hp HQ HF. unfold reap_times. apply wpe_bind, (wpe_reap _ p); [done| |done]. intros x.
  apply wpe_bind, (wpe_proc_at _ _ (reaped p)); [cbn; by rewrite list_lookup_alter_eq, Hp|].
  do 5 (apply wpe_bind, wpe_call; [auto with quiet| |auto]; intros _ ?). apply wpe_ret, HQ.
Qed.

Lemma in_crit_reaped c i pcs s j p x :
  in_crit c i pcs s -> procs s !! j = Some p -> p_state p = ZOMBIE ->
  in_crit c i pcs (set_env x (set_procs (alter reaped j (procs s)) s)).
Proof.
  intros [HC Hst] Hp Hz. split.
  - eapply (crit_ext _ _ _ (set_procs (alter reaped j (procs s)) s)); try done. by eapply crit_reap.
  - cbn. rewrite st_alter_ne; [done|]. intros <-. unfold st in Hst. rewrite Hp in Hst. simpl in Hst. congruence.
Qed.

(** One round of wait: it returns with the lock released, or goes to sleep. *)
Lemma wpe_wait_loop c i pcs s (found : nat -> M (pstate X) Z) :
  in_crit c i pcs s ->
  (forall j p Q F, procs s !! j = Some p ->
     (forall x, Q (p_pid p) (set_env x (set_procs (alter reaped j (procs s)) s))) ->
     (forall w s', quiet_stop w -> F w s') -> wpe (found j) s Q F) ->
  wpe (wait_loop c i found) s (fun _ s' => pinv s' (<[c := Run]> pcs)) (leaves c i pcs).
Proof.
  intros [HC Hst] Hfound. unfold wait_loop. apply wpe_bind, wpe_get.
  destruct (find_index _ _) as [j|] eqn:Hj.
  - apply find_index_Some in Hj as [(p & Hp & Hb) _].
    apply andb_prop in Hb as [_ Hz%bool_decide_eq_true].
    apply wpe_bind, (Hfound j p); [done| |by right]. intros x.
    destruct (in_crit_reaped c i pcs s j p x) as [HC' Hst']; try done.
    apply wpe_bind, (wpe_leave c i pcs); [done..|]. intros s' HI _. by apply wpe_ret.
  - destruct (st_lookup _ _ _ Hst) as (p & Hp & Hrun).
    apply wpe_bind, (wpe_proc_at _ _ p); [done|]. destruct (_ || _).
    { apply wpe_bind, (wpe_leave c i pcs); [done..|]. intros s' HI _. by apply wpe_ret. }
    destruct (crit_cpu _ _ _ _ HC) as (k & Hk & Hi & _).
    apply wpe_bind. unfold sleep. apply wpe_bind. unfold cpu_at. apply wpe_bind, wpe_get. rewrite Hk.
    apply wpe_ret. rewrite Hi. apply wpe_bind, wpe_ret. do 2 apply wpe_bind, wpe_upd_proc.
    cbn [procs set_procs]. rewrite list_alter_alter_eq.
    change (set_procs ?a (set_procs ?b s)) with (set_procs a s).
    assert (HC' : crit c i pcs (set_procs
      (alter (set_p_state SLEEPING ∘ set_p_chan (Some (ch_proc i))) i (procs s)) s)).
    { apply (crit_desched _ _ _ _ _ p); try done; [rewrite ?Hrun; auto with alive..|]. intros _ j [= <-]. split; [done|].
      intros m q Hm Hpar Hz. rewrite find_index_None in Hj. specialize (Hj m q Hm).
      unfold is_child, is_zombie in Hj. by rewrite !bool_decide_eq_true_2 in Hj. }
    assert (st (alter (set_p_state SLEEPING ∘ set_p_chan (Some (ch_proc i))) i (procs s)) i <> Some RUNNING)
      by by rewrite (st_alter _ _ _ p).
    apply (wpe_sched c i pcs); [done..|]. by left.
Qed.

Lemma st_benign_running ps ps' i :
  Forall2 benign ps ps' -> st ps i = Some RUNNING -> st ps' i = Some RUNNING.
Proof. intros HF Hi. destruct (benign_st ps ps' i HF) as [->|[Heq _]]; congruence. Qed.

Lemma in_crit_benign c i pcs s ps' :
  Forall2 benign (procs s) ps' -> in_crit c i pcs s -> in_crit c i pcs (set_procs ps' s).
Proof. intros HF [HC Hst]. split; [by apply crit_benign|]. by eapply st_benign_running. Qed.

Lemma waiting_wakeup1 (ps : list proc) ch w : waiting (wakeup1_proc ch <$> ps) w -> waiting ps w.
Proof.
  intros (q & Hq & Hs & Hc). apply list_lookup_fmap_Some in Hq as (p & -> & Hp).
  unfold wakeup1_proc in Hs, Hc. destruct (_ && _); [done|]. by exists p.
Qed.

Lemma not_waiting_wakeup1 ps w : ~ waiting (wakeup1_proc (Some (ch_proc w)) <$> ps) w.
Proof.
  intros (q & Hq & Hs & Hc). apply list_lookup_fmap_Some in Hq as (p & -> & Hp).
  unfold wakeup1_proc in Hs, Hc. repeat case_bool_decide; simpl in *; congruence.
Qed.

(** What the loop of exit keeps while it hands over the children. *)
Record exiting (c i i0 : nat) (par : option nat) (pcs : list cpu_pc) s : Prop := {
  ex_crit : in_crit c i pcs s;
  ex_init : initproc s = Some i0;
  ex_ne : i0 <> i;
  ex_par : forall p, procs s !! i = Some p -> p_parent p = par;
  ex_self : par <> Some i;
  ex_wait : forall w, par = Some w -> ~ waiting (procs s) w
}.

Lemma exiting_wakeup1 c i i0 par pcs s ch :
  exiting c i i0 par pcs s -> exiting c i i0 par pcs (set_procs (wakeup1_proc ch <$> procs s) s).
Proof.
  intros [HC ? ? Hpar ? Hw]. split; cbn; try done.
  - apply in_crit_benign; [|done]. apply benign_fmap, benign_wakeup1.
  - intros q Hq. apply list_lookup_fmap_Some in Hq as (p & -> & Hp). rewrite <- (Hpar p Hp).
    apply (benign_wakeup1 ch p).
  - intros w Hp Hw'. by eapply Hw, waiting_wakeup1.
Qed.

Lemma exiting_set_parent c i i0 par pcs s k p :
  exiting c i i0 par pcs s -> procs s !! k = Some p -> p_parent p = Some i ->
  (p_state p = ZOMBIE -> ~ waiting (procs s) i0) ->
  exiting c i i0 par pcs (set_procs (alter (set_p_parent (Some i0)) k (procs s)) s).
Proof.
  intros [[HC Hst] Hi0 ? Hpar Hself Hw] Hp Hpi Hz.
  assert (Hki : k <> i) by (intros ->; specialize (Hpar p Hp); congruence). split; cbn; try done.
  - split; [by eapply crit_set_parent|]. cbn. by rewrite st_alter_ne.
  - intros q. rewrite list_lookup_alter_ne by done. apply Hpar.
  - intros w Hpw Hw'. eapply (Hw w Hpw), waiting_alter; [|done]. intros q _ Hq. done.
Qed.

Lemma wakeup1_set_parent ch v (ps : list proc) (k : nat) :
  wakeup1_proc ch <$> alter (set_p_parent v) k ps = alter (set_p_parent v) k (wakeup1_proc ch <$> ps).
Proof.
  revert k; induction ps as [|p ps IH]; intros [|k]; [done|done|..]; cbn; f_equal; [|apply IH].
  unfold wakeup1_proc. cbn. by destruct (_ && _).
Qed.

Lemma wpe_reparent c i i0 par pcs s F :
  exiting c i i0 par pcs s ->
  wpe (reparent i) s (fun _ s' => exiting c i i0 par pcs s' /\
    forall k q, procs s' !! k = Some q -> p_parent q <> Some i) F.
Proof.
  intros HX. unfold reparent. eapply wpe_mono; [|done|apply (wpe_for_each
    (fun done s => exiting c i i0 par pcs s /\ forall k q, k ∈ done -> procs s !! k = Some q -> p_parent q <> Some i))].
  - cbv beta. intros _ s' [HX' Hd]. split; [done|]. intros k q Hk. apply (Hd k); [|done].
    apply elem_of_seq. destruct (ex_crit _ _ _ _ _ _ HX') as [(HI & _) _].
    pose proof (pv_len _ _ HI). apply lookup_lt_Some in Hk. lia.
  - split; [done|]. intros k q Hk. by apply elem_of_nil in Hk.
  - intros dn k rest s' Hseq [HX' Hd].
    assert (k < NPROC)%nat as Hlt by (apply (elem_of_seq 0 NPROC k); rewrite Hseq; set_solver).
    destruct (ex_crit _ _ _ _ _ _ HX') as [(HI & _) _].
    destruct (lookup_lt_is_Some_2 (procs s') k) as [p Hp]; [by rewrite (pv_len _ _ HI)|].
    apply wpe_bind, (wpe_proc_at _ _ p); [done|]. case_bool_decide as Hpar.
    2: { apply wpe_ret. split; [done|]. intros j q [Hj|Hj%list_elem_of_singleton]%elem_of_app Hq; [eauto|congruence]. }
    apply wpe_bind, wpe_get, wpe_bind, wpe_upd_proc. rewrite (ex_init _ _ _ _ _ _ HX').
    assert (Hd' : forall ps, Forall2 benign (alter (set_p_parent (Some i0)) k (procs s')) ps ->
      forall j q, j ∈ dn ++ [k] -> ps !! j = Some q -> p_parent q <> Some i).
    { intros ps HF j q Hj Hq. destruct (benign_lookup _ _ _ _ HF Hq) as (r & Hr & (_ & -> & _)).
      apply lookup_alter_cases in Hr as [(-> & p' & _ & ->)|[Hn Hr]].
      - cbn. pose proof (ex_ne _ _ _ _ _ _ HX'). congruence.
      - apply elem_of_app in Hj as [Hj|Hj%list_elem_of_singleton]; [eauto|done]. }
    unfold when. case_bool_decide as Hz.
    + change (ch_proc <$> Some i0) with (Some (ch_proc i0)).
      apply wpe_modify. cbn [procs set_procs]. split; [|apply Hd', benign_fmap, benign_wakeup1].
      rewrite wakeup1_set_parent.
      pose (s1 := set_procs (wakeup1_proc (Some (ch_proc i0)) <$> procs s') s').
      apply (exiting_set_parent c i i0 par pcs s1 k (wakeup1_proc (Some (ch_proc i0)) p)).
      * by apply exiting_wakeup1.
      * cbn. by rewrite list_lookup_fmap, Hp.
      * rewrite <- Hpar. apply (benign_wakeup1 _ p).
      * intros _. apply not_waiting_wakeup1.
    + apply wpe_ret. split; [|apply Hd', benign_all]. by eapply exiting_set_parent.
Qed.

Lemma in_crit_ext c i pcs s s' :
  same_table s s' -> pt_lock s' = pt_lock s -> pcpus s' = pcpus s -> in_crit c i pcs s -> in_crit c i pcs s'.
Proof. intros Ht Hl Hc [HC Hst]. split; [by eapply crit_ext|]. by rewrite (proj1 Ht). Qed.

(** The process [i] running on CPU [c], with the lock free. *)
Record on_cpu (c i : nat) (pcs : list cpu_pc) s : Prop := {
  oc_inv : pinv s pcs;
  oc_pc : pcs !! c = Some Run;
  oc_free : pt_lock s = false;
  oc_cpu : exists k, pcpus s !! c = Some k /\ c_proc k = Some i
}.

Lemma on_cpu_benign c i pcs s ps' :
  Forall2 benign (procs s) ps' -> on_cpu c i pcs s -> on_cpu c i pcs (set_procs ps' s).
Proof. intros HF [HI ? ? ?]. split; try done. by apply pinv_benign. Qed.

Lemma on_cpu_env c i pcs s x : on_cpu c i pcs s -> on_cpu c i pcs (set_env x s).
Proof. intros [HI ? ? ?]. split; try done. by apply (pinv_ext s). Qed.

Lemma on_cpu_running c i pcs s : on_cpu c i pcs s -> st (procs s) i = Some RUNNING.
Proof.
  intros [HI Hpc _ (k & Hk & Hi)].
  pose proof (si_cpu _ _ _ _ (pv_sched _ _ HI) c Run k Hpc Hk) as (_ & j & Hj & Hst). congruence.
Qed.

Lemma wpe_enter' c i s pcs (Q : unit -> pstate X -> Prop) F :
  on_cpu c i pcs s ->
  (forall s', in_crit c i pcs s' -> same_table s s' -> Q tt s') -> wpe (acquire_pt c) s Q F.
Proof.
  intros [HI Hpc Hl (k & Hk & Hi)] HQ. apply (wpe_enter c i k s pcs); try done.
  intros s' HC Ht Hst. apply HQ; [by split|done].
Qed.

Lemma wpe_exit_final c i i0 p pcs s :
  on_cpu c i pcs s -> initproc s = Some i0 -> i0 <> i -> procs s !! i = Some p ->
  wpe (exit_final c i) s (fun _ _ => False) (leaves c i pcs).
Proof.
  intros HO Hi0 Hne Hp. unfold exit_final. pose proof (oc_inv _ _ _ _ HO) as HI.
  pose proof (on_cpu_running _ _ _ _ HO) as Hrun. unfold st in Hrun. rewrite Hp in Hrun.
  assert (Hself : p_parent p <> Some i).
  { pose proof (proj2 (pv_family _ _ HI) i p Hp) as HF. simpl in Hrun. injection Hrun as Hrun.
    rewrite Hrun in HF. naive_solver. }
  apply wpe_bind, (wpe_enter' c i s pcs); [done|]. intros s1 HC (Hps & _ & Hinit).
  apply wpe_bind, (wpe_proc_at _ _ p); [congruence|]. apply wpe_bind, wpe_modify.
  assert (HX : exiting c i i0 (p_parent p) pcs
    (set_procs (wakeup1_proc (ch_proc <$> p_parent p) <$> procs s1) s1)).
  { split; cbn; [| congruence | done | | done |].
    - apply in_crit_benign; [|done]. apply benign_fmap, benign_wakeup1.
    - intros q Hq. apply list_lookup_fmap_Some in Hq as (p' & -> & Hp').
      assert (p' = p) as -> by congruence. apply (benign_wakeup1 _ p).
    - intros w ->. apply not_waiting_wakeup1. }
  apply wpe_bind. eapply wpe_mono; [|done|by apply wpe_reparent]. cbv beta.
  intros _ s2 [[[HC2 Hst2] Hi2 _ Hpar2 _ Hw2] Hnc]. apply wpe_bind, wpe_get.
  do 2 apply wpe_bind, wpe_upd_proc. cbn [procs set_procs]. rewrite list_alter_alter_eq.
  destruct (st_lookup _ _ _ Hst2) as (p2 & Hp2 & Hrun2). specialize (Hpar2 p2 Hp2).
  pose (f := set_p_state ZOMBIE ∘ set_p_etime (ticks s2)).
  assert (HC3 : crit c i pcs (set_procs (alter f i (procs s2)) s2)).
  { apply (crit_exit _ _ _ _ _ p2); try done; [congruence|]. intros w Hw. apply Hw2. congruence. }
  apply wpe_bind, (wpe_sched c i pcs); [done|cbn; by rewrite (st_alter _ _ _ p2)|].
  left. split; [done|]. split; [done|]. cbn. by rewrite (st_alter _ _ _ p2).
Qed.

(** The loops over open files change one slot and the rest of the kernel. *)
Lemma wpe_close_files c i pcs s :
  on_cpu c i pcs s ->
  wpe (close_files i) s (fun _ s' => on_cpu c i pcs s' /\ initproc s' = initproc s)
    (fun w _ => quiet_stop w).
Proof.
  intros HO. unfold close_files.
  apply (wpe_for_each (fun _ s' => on_cpu c i pcs s' /\ initproc s' = initproc s)); [done|].
  intros _ fd _ s' _ [HO' Hi]. destruct (st_lookup _ _ _ (on_cpu_running _ _ _ _ HO')) as (p & Hp & _).
  apply wpe_bind, (wpe_proc_at _ _ p); [done|]. destruct (p_ofile p !! fd) as [[f|]|].
  - apply wpe_bind, wpe_call; [auto with quiet| |auto]. intros _ x. apply wpe_upd_proc. split; [|done].
    apply on_cpu_benign; [|by apply on_cpu_env]. apply benign_alter. intros q _. repeat split; by left.
  - by apply wpe_ret.
  - split; [done|]. intros msg Hm [= <-]. revert Hm. vm_compute. set_solver.
Qed.

Lemma wpe_exit c i pcs s :
  on_cpu c i pcs s -> wpe (exit c) s (fun _ _ => False) (leaves c i pcs).
Proof.
  intros HO. pose proof (oc_cpu _ _ _ _ HO) as (k & Hk & Hi). unfold exit.
  assert (Hq : forall m, m ∉ proc_panics -> quiet_stop (Panicked m)).
  { intros m Hm. split; [done|]. intros msg Hm' [= <-]. done. }
  apply wpe_bind, (wpe_curproc c i s k); [done..|]. apply wpe_bind, wpe_get.
  case_bool_decide as Hinit; [right; apply Hq; vm_compute; set_solver|].
  apply wpe_bind. eapply wpe_mono; [| |by apply wpe_close_files]; cbv beta; [|by right].
  intros _ s1 [HO1 Hi1]. apply wpe_bind, wpe_call; [auto with quiet| |by right]. intros _ x.
  destruct (st_lookup _ _ _ (on_cpu_running _ _ _ _ HO1)) as (p & Hp & Hrun).
  apply wpe_bind, (wpe_proc_at _ _ p); [done|].
  destruct (p_cwd p) as [d|]; [|right; apply Hq; vm_compute; set_solver].
  apply wpe_bind, wpe_call; [auto with quiet| |by right]. intros _ x1.
  apply wpe_bind, wpe_call; [auto with quiet| |by right]. intros _ x2.
  apply wpe_bind, wpe_upd_proc.
  destruct (proj1 (pv_family _ _ (oc_inv _ _ _ _ HO1))) as (i0 & Hi0 & _).
  apply (wpe_exit_final c i i0 (set_p_cwd None p)).
  - apply on_cpu_benign; [|by repeat apply on_cpu_env]. apply benign_alter. intros q _. repeat split; by left.
  - done.
  - congruence.
  - cbn. by rewrite list_lookup_alter_eq, Hp.
Qed.

Lemma wpe_yield c i pcs s (Q : unit -> pstate X -> Prop) :
  on_cpu c i pcs s -> wpe (yield c) s Q (leaves c i pcs).
Proof.
  intros HO. unfold yield. apply wpe_bind, (wpe_enter' c i s pcs); [done|]. intros s1 [HC Hst] _.
  destruct (crit_cpu _ _ _ _ HC) as (k & Hk & Hi & _). destruct (st_lookup _ _ _ Hst) as (p & Hp & Hrun).
  apply wpe_bind, (wpe_curproc c i _ k); [done..|]. apply wpe_bind, wpe_upd_proc.
  assert (crit c i pcs (set_procs (alter (set_p_state RUNNABLE) i (procs s1)) s1))
    by (apply (crit_desched _ _ _ _ _ p); try done; rewrite ?Hrun; auto with alive).
  assert (st (alter (set_p_state RUNNABLE) i (procs s1)) i <> Some RUNNING)
    by by rewrite (st_alter _ _ _ p).
  apply (wpe_sched c i pcs); [done..|]. by left.
Qed.

Lemma wpe_sleep c i pcs s ch lk (Q : unit -> pstate X -> Prop) :
  on_cpu c i pcs s -> (forall j, ch <> ch_proc j) -> wpe (sleep c ch (Some lk)) s Q (leaves c i pcs).
Proof.
  intros HO Hch. unfold sleep. pose proof (oc_cpu _ _ _ _ HO) as (k & Hk & Hi).
  apply wpe_bind. unfold cpu_at. apply wpe_bind, wpe_get. rewrite Hk. apply wpe_ret. rewrite Hi.
  apply wpe_bind, wpe_bind, (wpe_enter' c i s pcs); [done|]. intros s1 HC _.
  apply wpe_call; [auto with quiet| |by right]. intros _ x.
  assert (in_crit c i pcs (set_env x s1)) as [HC' Hst] by by apply (in_crit_ext _ _ _ s1).
  destruct (st_lookup _ _ _ Hst) as (p & Hp & Hrun).
  do 2 apply wpe_bind, wpe_upd_proc. cbn [procs set_procs]. rewrite list_alter_alter_eq.
  pose (f := set_p_state SLEEPING ∘ set_p_chan (Some ch)).
  assert (crit c i pcs (set_procs (alter f i (procs (set_env x s1))) (set_env x s1))).
  { apply (crit_desched _ _ _ _ _ p); try done; [rewrite ?Hrun; auto with alive..|]. intros _ j [= Hj]. by destruct (Hch j). }
  assert (st (alter f i (procs (set_env x s1))) i <> Some RUNNING) by by rewrite (st_alter _ _ _ p).
  apply (wpe_sched c i pcs); [done..|]. by left.
Qed.

Lemma insert_run (c : nat) (pcs : list cpu_pc) : pcs !! c = Some Run -> <[c := Run]> pcs = pcs.
Proof. apply list_insert_id. Qed.

Lemma wpe_wait c i pcs s (found : nat -> M (pstate X) Z) :
  on_cpu c i pcs s ->
  (forall s j p Q F, procs s !! j = Some p ->
     (forall x, Q (p_pid p) (set_env x (set_procs (alter reaped j (procs s)) s))) ->
     (forall w s', quiet_stop w -> F w s') -> wpe (found j) s Q F) ->
  wpe (cur ← curproc c; acquire_pt c ;; wait_loop c cur found) s (fun _ s' => pinv s' pcs) (leaves c i pcs).
Proof.
  intros HO Hf. pose proof (oc_cpu _ _ _ _ HO) as (k & Hk & Hi).
  apply wpe_bind, (wpe_curproc c i _ k); [done..|].
  apply wpe_bind, (wpe_enter' c i s pcs); [done|]. intros s1 HC _.
  eapply wpe_mono; [| |apply (wpe_wait_loop c i pcs)]; [|done|done|intros; by eapply Hf].
  cbv beta. intros _ s'. by rewrite (insert_run c pcs) by apply HO.
Qed.

Lemma wpe_kill c i pcs s pid :
  on_cpu c i pcs s -> wpe (kill c pid) s (fun _ s' => pinv s' pcs) (leaves c i pcs).
Proof.
  intros HO. unfold kill. apply wpe_bind, (wpe_enter' c i s pcs); [done|]. intros s1 HC _.
  assert (Hleave : forall r s2, in_crit c i pcs s2 ->
    wpe (release_pt c ;; mret (r : Z)) s2 (fun _ s' => pinv s' pcs) (leaves c i pcs)).
  { intros r s2 [HC2 Hst2]. apply wpe_bind, (wpe_leave c i pcs); [done..|]. intros s3 HI _.
    apply wpe_ret. rewrite (insert_run c pcs) in HI by apply HO. done. }
  apply wpe_bind, wpe_get. destruct (find_index _ _) as [j|]; [|by apply Hleave].
  apply wpe_bind, wpe_upd_proc, wpe_bind, wpe_upd_proc, Hleave.
  apply (in_crit_benign _ _ _ (set_procs _ s1)).
  - apply benign_alter. intros p _. case_bool_decide; [|apply benign_refl]. repeat split; auto.
  - apply in_crit_benign; [|done]. apply benign_alter. intros p _. repeat split; auto.
Qed.

Lemma wpe_growproc c i pcs s n :
  on_cpu c i pcs s -> wpe (growproc c n) s (fun _ s' => pinv s' pcs) (leaves c i pcs).
Proof.
  intros HO. unfold growproc. pose proof (oc_cpu _ _ _ _ HO) as (k & Hk & Hi).
  apply wpe_bind, (wpe_curproc c i _ k); [done..|].
  destruct (st_lookup _ _ _ (on_cpu_running _ _ _ _ HO)) as (p & Hp & _).
  apply wpe_bind, (wpe_proc_at _ _ p); [done|].
  assert (Htail : forall o x, wpe (match o with
      | Some sz => upd_proc i (set_p_sz sz) ;; call (e_switchuvm (p_kstack p) (p_pgdir p)) ;; mret 0
      | None => mret (-1) end) (set_env x s) (fun _ s' => pinv s' pcs) (leaves c i pcs)).
  { intros [sz|] x.
    - apply wpe_bind, wpe_upd_proc, wpe_bind, wpe_call; [auto with quiet| |by right]. intros _ x'.
      apply wpe_ret. apply (pinv_ext (set_procs (alter (set_p_sz sz) i (procs s)) s)); [done..|].
      apply pinv_benign; [|apply HO]. apply benign_alter. intros q _. repeat split; auto.
    - apply wpe_ret. apply (pinv_ext s); [done..|apply HO]. }
  assert (Hs : s = set_env (env s) s) by by destruct s.
  apply wpe_bind. destruct (0 <? n); [|destruct (n <? 0)].
  - apply wpe_bind, wpe_call; [auto with quiet| |by right]. intros sz x. apply wpe_ret, Htail.
  - apply wpe_bind, wpe_call; [auto with quiet| |by right]. intros sz x. apply wpe_ret, Htail.
  - apply wpe_ret. rewrite Hs at 1. apply (Htail (Some (p_sz p))).
Qed.

(** Every operation keeps the invariant or leaves the CPU to its scheduler. *)
Lemma wpe_op c i pcs s o :
  on_cpu c i pcs s -> op_ok o = true ->
  wpe (op_run c o) s (fun _ s' => pinv s' pcs) (leaves c i pcs).
Proof.
  intros HO Ho. destruct o as [|ch lk| | |a b d|pid|n]; cbn [op_run].
  - by apply wpe_yield.
  - apply wpe_sleep; [done|]. by intros j ->.
  - eapply wpe_mono; [| |by apply wpe_exit]; [by intros|done].
  - apply wpe_bind. eapply wpe_mono; [| |apply (wpe_wait c i pcs)]; [intros; by apply wpe_ret|done|done|].
    intros. by eapply wpe_reap.
  - apply wpe_bind. eapply wpe_mono; [| |apply (wpe_wait c i pcs)]; [intros; by apply wpe_ret|done|done|].
    intros. by eapply wpe_reap_times.
  - apply wpe_bind. eapply wpe_mono; [| |by apply (wpe_kill c i pcs)]; [intros; by apply wpe_ret|done].
  - apply wpe_bind. eapply wpe_mono; [| |by apply (wpe_growproc c i pcs)]; [intros; by apply wpe_ret|done].
Qed.

(** *** The scheduler *)

Lemma pinv_pc s pcs c k pc pc' :
  pinv s pcs -> pcpus s !! c = Some k -> pcs !! c = Some pc -> holder pc' = holder pc ->
  cpu_ok (pt_lock s) (procs s) pc' k ->
  (forall np d, pc' = Forking np -> d <> c -> pcs !! d <> Some (Forking np)) ->
  pinv s (<[c := pc']> pcs).
Proof.
  intros HI Hk Hpc Hh Hok Hf.
  apply (pinv_ext (set_pt_lock (pt_lock s) (set_pcpus (<[c := k]> (pcpus s)) s))); [done|done| |].
  - cbn. by rewrite list_insert_id.
  - apply (pinv_cpu _ _ _ k k pc); try done; by left.
Qed.

(** What the invariant says of a CPU that scans the table. *)
Lemma scan_cpu s pcs c i :
  pinv s pcs -> pcs !! c = Some (Scan i) ->
  exists k, pcpus s !! c = Some k /\ c_proc k = None /\ c_ncli k = 1 /\ pt_lock s = true /\
    Z.land (c_eflags k) FL_IF = 0.
Proof.
  intros HI Hpc. destruct (lookup_lt_is_Some_2 (pcpus s) c) as [k Hk].
  { rewrite <- (si_len _ _ _ _ (pv_sched _ _ HI)). by eapply lookup_lt_Some. }
  exists k. split; [done|]. by apply (si_cpu _ _ _ _ (pv_sched _ _ HI) c (Scan i) k).
Qed.

(** A process that is not running is on no CPU while the lock is held by a
    scheduler. *)
Lemma scan_not_on_cpu s pcs c n i d m :
  pinv s pcs -> pcs !! c = Some (Scan n) -> st (procs s) i <> Some RUNNING ->
  pcpus s !! d = Some m -> c_proc m <> Some i.
Proof.
  intros HI Hpc Hst Hm Hi. pose proof (pv_sched _ _ HI) as HS.
  destruct (lookup_lt_is_Some_2 pcs d) as [pc Hd].
  { rewrite (si_len _ _ _ _ HS). by eapply lookup_lt_Some. }
  pose proof (si_cpu _ _ _ _ HS d pc m Hd Hm) as Hok. destruct pc; cbn in Hok; try naive_solver congruence.
  assert (d = c) as -> by by eapply (si_lock _ _ _ _ HS). congruence.
Qed.

Lemma wpe_pick c i pcs s :
  pinv s pcs -> pcs !! c = Some (Scan i) ->
  wpe (scheduler_pick c i) s
    (fun b s' => if b then in_crit c i pcs s' else s' = s) (fun _ _ => True).
Proof.
  intros HI Hpc. destruct (scan_cpu _ _ _ _ HI Hpc) as (k & Hk & Hnone & Hn & Hl & Hf).
  unfold scheduler_pick, proc_at. apply wpe_bind, wpe_bind, wpe_get.
  destruct (procs s !! i) as [p|] eqn:Hp; [|done]. apply wpe_ret.
  case_bool_decide as Hr; cbn [negb]; [|by apply wpe_ret].
  apply wpe_bind, wpe_modify, wpe_bind, wpe_zoom. unfold wpe at 1.
  destruct (e_switchuvm _ _ _) as [_ x|]; [|done]. apply wpe_bind, wpe_upd_proc, wpe_ret.
  cbn [update env_lens]. rewrite (alter_insert _ _ c k) by done.
  pose (s1 := set_env x (set_pcpus (<[c := set_c_proc (Some i) k]> (pcpus s)) s)).
  assert (HC : crit c i pcs s1).
  { split; [|split; [by eapply lookup_lt_Some|]].
    - apply (pinv_ext (set_pt_lock (pt_lock s) (set_pcpus (<[c := set_c_proc (Some i) k]> (pcpus s)) s)));
        [done..|]. apply (pinv_cpu _ _ _ k _ (Scan i)); try done.
      + by left.
      + cbn. do 3 (split; [done|]). exists i. split; [done|]. unfold st. rewrite Hp. split; [eauto|].
        cbn. congruence.
      + right. right. split; [done|]. intros j d m [= <-] Hm.
        eapply (scan_not_on_cpu s pcs c i); try done. unfold st. rewrite Hp. cbn. congruence.
    - exists (set_c_proc (Some i) k). cbn. rewrite list_lookup_insert_eq; [done|]. by eapply lookup_lt_Some. }
  split.
  - apply (crit_desched c i pcs s1 _ p); try done; rewrite ?Hr; auto with alive.
  - cbn. by rewrite (st_alter _ _ _ p).
Qed.

Lemma in_crit_intena c i pcs s n :
  in_crit c i pcs s -> in_crit c i pcs (set_pcpus (alter (set_c_intena n) c (pcpus s)) s).
Proof.
  intros [HC Hst]. split; [|done]. destruct (crit_cpu _ _ _ _ HC) as (k & Hk & Hi & Hn & Hl & Hf & p & Hp).
  destruct HC as (HI & Hc & _). rewrite (alter_insert _ _ c k) by done. split; [|split; [done|]].
  - rewrite <- (list_insert_insert_eq pcs c Crit Crit).
    apply (pinv_ext (set_pt_lock (pt_lock s) (set_pcpus (<[c := set_c_intena n k]> (pcpus s)) s))); [done..|].
    apply (pinv_cpu _ _ _ k _ Crit); try done; try by left.
    + by apply list_lookup_insert_eq.
    + cbn. do 3 (split; [done|]). exists i. split; [done|]. split; [by exists p|]. by rewrite Hst.
  - exists (set_c_intena n k). cbn. rewrite list_lookup_insert_eq; [done|]. by eapply lookup_lt_Some.
Qed.

Lemma in_crit_chan c i pcs s :
  in_crit c i pcs s -> in_crit c i pcs (set_procs (alter (set_p_chan None) i (procs s)) s).
Proof.
  intros HC. apply in_crit_benign; [|done]. apply benign_alter. intros p Hp. repeat split; auto.
  cbn. intros Hs. destruct HC as [_ Hst]. unfold st in Hst. rewrite Hp in Hst. cbn in Hst. congruence.
Qed.

(** A process that the scheduler switches to continues where it left. *)
Lemma wpe_resume c i pcs s r :
  in_crit c i pcs s ->
  wpe (resume_run c i r) s (fun _ s' => pinv s' (<[c := Run]> pcs)) (leaves c i pcs).
Proof.
  intros HC. destruct r as [|n|n lk|n|n a b d]; cbn [resume_run].
  - unfold forkret. apply wpe_bind, (wpe_leave c i pcs); [apply HC..|]. intros s1 HI _.
    apply wpe_bind, wpe_get. destruct (negb _); [|by apply wpe_ret].
    apply wpe_bind, wpe_modify, wpe_bind, wpe_call; [auto with quiet| |by right]. intros _ x.
    apply wpe_call; [auto with quiet| |by right]. intros _ x'. by apply (pinv_ext s1).
  - unfold yield_resume. destruct (in_crit_intena _ _ _ _ n HC) as [HC' Hst].
    apply wpe_bind, wpe_modify, (wpe_leave c i pcs); done.
  - unfold sleep_resume. apply wpe_bind, wpe_modify, wpe_bind, wpe_upd_proc.
    pose proof (in_crit_chan _ _ _ _ (in_crit_intena _ _ _ _ n HC)) as HC'.
    apply wpe_bind, (wpe_leave c i pcs); [apply HC'..|]. intros s1 HI _.
    apply wpe_call; [auto with quiet| |by right]. intros _ x. by apply (pinv_ext s1).
  - unfold wait_resume, sleep_resume. apply wpe_bind, wpe_bind, wpe_bind, wpe_modify, wpe_bind, wpe_upd_proc.
    apply wpe_ret. eapply wpe_mono; [| |apply (wpe_wait_loop c i pcs)]; [intros; by apply wpe_ret|done|..].
    + apply in_crit_chan, in_crit_intena, HC.
    + intros. by eapply wpe_reap.
  - unfold new_wait_resume, sleep_resume. apply wpe_bind, wpe_bind, wpe_bind, wpe_modify, wpe_bind, wpe_upd_proc.
    apply wpe_ret. eapply wpe_mono; [| |apply (wpe_wait_loop c i pcs)]; [intros; by apply wpe_ret|done|..].
    + apply in_crit_chan, in_crit_intena, HC.
    + intros. by eapply wpe_reap_times.
Qed.

Lemma wpe_begin c pcs s :
  pinv s pcs -> pcs !! c = Some Idle -> pt_lock s = false ->
  wpe (scheduler_begin c) s (fun _ s' => pinv s' (<[c := Scan 0]> pcs)) (fun _ _ => True).
Proof.
  intros HI Hpc Hl. destruct (lookup_lt_is_Some_2 (pcpus s) c) as [k Hk].
  { rewrite <- (si_len _ _ _ _ (pv_sched _ _ HI)). by eapply lookup_lt_Some. }
  pose proof (si_cpu _ _ _ _ (pv_sched _ _ HI) c Idle k Hpc Hk) as [Hnone Hn].
  unfold scheduler_begin. apply wpe_bind, wpe_modify. rewrite (alter_insert _ _ c k) by done.
  eapply wpe_acquire_pt; [cbn; rewrite list_lookup_insert_eq; [done|by eapply lookup_lt_Some]|done|].
  cbn. intros k' Hp' Hn' Hf'. rewrite list_insert_insert_eq.
  apply (pinv_ext (set_pt_lock true (set_pcpus (<[c := k']> (pcpus s)) s))); [done..|].
  apply (pinv_cpu _ _ _ k k' Idle); try done.
  - rewrite Hl. by right; left.
  - cbn. repeat split; try done; [congruence|lia].
  - left. done.
Qed.

Lemma wpe_end c i pcs s :
  pinv s pcs -> pcs !! c = Some (Scan i) ->
  wpe (scheduler_end c) s (fun _ s' => pinv s' (<[c := Idle]> pcs)) (fun _ _ => True).
Proof.
  intros HI Hpc. destruct (scan_cpu _ _ _ _ HI Hpc) as (k & Hk & Hnone & Hn & Hl & Hf).
  unfold scheduler_end. apply (wpe_release_pt _ _ k); [done|done|lia|]. intros k' Hp' Hn'.
  apply (pinv_cpu _ _ _ k k' (Scan i)); try done.
  - rewrite Hl. by right; right.
  - cbn. split; [congruence|lia].
  - by left.
Qed.

(** *** fork *)

(** Slots that are taken into use, or given back, by the process that owns
    them: no CPU is at the other half of a fork into the slot. *)
Lemma sched_inv_slot lock cpus ps pcs (f : proc -> proc) j p :
  sched_inv lock cpus ps pcs -> ps !! j = Some p ->
  (forall d, pcs !! d <> Some (Forking j)) ->
  p_state p <> RUNNING -> p_state (f p) <> RUNNING ->
  (p_state (f p) = EMBRYO -> forall d m, cpus !! d = Some m -> c_proc m <> Some j) ->
  sched_inv lock cpus (alter f j ps) pcs.
Proof.
  intros HI Hp Hnf Hr Hr' He.
  assert (Hst : st ps j = Some (p_state p)) by (unfold st; by rewrite Hp).
  apply (sched_inv_procs _ _ ps); [done|..].
  - intros i Hi. destruct (decide (j = i)) as [<-|Hn]; [|rewrite st_alter_ne in Hi by done; auto].
    rewrite (st_alter _ _ _ p) in Hi by done. congruence.
  - intros c k i _ _ _ Hi. rewrite st_alter_ne; [done|]. intros <-. congruence.
  - intros c np Hc Hi. rewrite st_alter_ne; [done|]. intros <-. by destruct (Hnf c).
  - intros c k i _ Hk Hi [q Hq] Hne. split.
    + apply lookup_lt_is_Some. rewrite length_alter. by eapply lookup_lt_Some.
    + destruct (decide (j = i)) as [<-|Hn]; [|by rewrite st_alter_ne].
      rewrite (st_alter _ _ _ p) by done. intros [= Heq]. by destruct (He Heq c k).
Qed.

(** A slot that is not in use has no process on a CPU and no fork into it. *)
Lemma unused_free s pcs j :
  pinv s pcs -> (st (procs s) j = Some UNUSED) ->
  (forall d, pcs !! d <> Some (Forking j)).
Proof.
  intros HI Hst d Hd. pose proof (pv_sched _ _ HI) as HS.
  destruct (lookup_lt_is_Some_2 (pcpus s) d) as [m Hm].
  { rewrite <- (si_len _ _ _ _ HS). by eapply lookup_lt_Some. }
  pose proof (si_cpu _ _ _ _ HS d _ m Hd Hm) as (_ & He & _). congruence.
Qed.

Lemma crit_unused_off c i pcs s j d m :
  in_crit c i pcs s -> st (procs s) j = Some UNUSED -> pcpus s !! d = Some m -> c_proc m <> Some j.
Proof.
  intros [(HI & Hc & k & Hk & Hi) Hst] Hj Hm Hd. pose proof (pv_sched _ _ HI) as HS.
  destruct (lookup_lt_is_Some_2 (<[c := Crit]> pcs) d) as [pc Hpc].
  { rewrite (si_len _ _ _ _ HS). by eapply lookup_lt_Some. }
  pose proof (si_cpu _ _ _ _ HS d pc m Hpc Hm) as Hok. destruct pc; cbn in Hok; try naive_solver congruence.
  assert (d = c) as -> by (eapply (si_lock _ _ _ _ HS); [done|by apply list_lookup_insert_eq|done|done]).
  congruence.
Qed.

Lemma family_inv_slot init ps (f : proc -> proc) j p :
  family_inv init ps -> ps !! j = Some p ->
  p_state p = UNUSED \/ p_state p = EMBRYO -> p_state (f p) = UNUSED \/ p_state (f p) = EMBRYO ->
  p_parent (f p) = p_parent p ->
  family_inv init (alter f j ps).
Proof.
  intros ((i0 & Hi0 & Ha) & HF) Hp Hs Hs' Hpar.
  assert (Hup : forall w, alive (st ps w) -> alive (st (alter f j ps) w)).
  { intros w Hw. rewrite st_alter_ne; [done|]. intros <-. unfold st, alive in Hw. rewrite Hp in Hw.
    cbn in Hw. intuition congruence. }
  split; [eauto|]. intros m q [(-> & p' & Hp' & ->)|[_ Hm]]%lookup_alter_cases.
  - simplify_eq. specialize (HF j p Hp). rewrite Hpar. destruct Hs as [Hs|Hs]; rewrite Hs in HF;
      destruct Hs' as [->| ->]; done.
  - specialize (HF m q Hm). destruct (p_state q); naive_solver.
Qed.

Lemma wait_inv_slot ps (f : proc -> proc) j p :
  wait_inv ps -> ps !! j = Some p -> p_state (f p) <> SLEEPING -> p_state (f p) <> ZOMBIE ->
  wait_inv (alter f j ps).
Proof.
  intros HW Hp Hs Hz m w q [(-> & p' & Hp' & ->)|[_ Hm]]%lookup_alter_cases Hq Hc; [simplify_eq; congruence|].
  destruct (HW m w q Hm Hq Hc) as [-> Hall]. split; [done|].
  intros n r [(-> & p' & Hp' & ->)|[_ Hn]]%lookup_alter_cases Hr; [by simplify_eq|eauto].
Qed.

Lemma pid_inv_alloc next ps (f : proc -> proc) j p :
  pid_inv next ps -> (nowrap -> next < 2 ^ 31 - 1) -> ps !! j = Some p -> p_pid (f p) = next ->
  pid_inv (i32 (next + 1)) (alter f j ps).
Proof.
  intros HP Hlt Hp Hf Hnw. destruct (HP Hnw) as (Hn & Hr & Hu). specialize (Hlt Hnw). rewrite i32_small by (unfold in_i32; lia).
  split; [lia|]. split.
  - intros m q [(-> & p' & Hp' & ->)|[_ Hm]]%lookup_alter_cases Hs; [simplify_eq; lia|].
    specialize (Hr m q Hm Hs). lia.
  - intros m n q r [(-> & p' & Hp' & ->)|[Hmj Hm]]%lookup_alter_cases
      [(-> & p'' & Hp'' & ->)|[Hnj Hn']]%lookup_alter_cases Hs Hs' Heq; simplify_eq; [done|..].
    + specialize (Hr n r Hn' Hs'). lia.
    + specialize (Hr m q Hm Hs). lia.
    + eauto.
Qed.

(** The first half of fork, under the lock: a slot becomes an embryo. *)
Lemma in_crit_embryo c i pcs s j p (f : proc -> proc) :
  in_crit c i pcs s -> (nowrap -> nextpid s < 2 ^ 31 - 1) -> procs s !! j = Some p -> p_state p = UNUSED ->
  p_state (f p) = EMBRYO -> p_pid (f p) = nextpid s -> p_parent (f p) = p_parent p ->
  in_crit c i pcs (set_nextpid (i32 (nextpid s + 1)) (set_procs (alter f j (procs s)) s)).
Proof.
  intros HC Hlt Hp Hu He Hpid Hpar. pose proof HC as [(HI & Hc & Hk) Hst].
  assert (Hj : st (procs s) j = Some UNUSED) by (unfold st; rewrite Hp; cbn; congruence).
  assert (Hij : j <> i) by (intros ->; congruence).
  split; [|cbn; by rewrite st_alter_ne]. split; [|done].
  pose proof (unused_free _ _ _ HI Hj) as Hnf. destruct HI as [Hlen HS HP HF HW]. split; cbn.
  - by rewrite length_alter.
  - apply (sched_inv_slot _ _ _ _ _ _ p); [done..|congruence|congruence|]. intros _ d m Hm.
    by apply (crit_unused_off c i pcs s j d m).
  - by eapply pid_inv_alloc.
  - apply (family_inv_slot _ _ _ _ p); auto.
  - apply (wait_inv_slot _ _ _ p); [done..|congruence|congruence].
Qed.

(** A slot that was set up in vain is given back. *)
Lemma pinv_give_back s pcs j p (f : proc -> proc) :
  pinv s pcs -> procs s !! j = Some p -> p_state p = EMBRYO -> (forall d, pcs !! d <> Some (Forking j)) ->
  p_state (f p) = UNUSED -> p_parent (f p) = p_parent p ->
  pinv (set_procs (alter f j (procs s)) s) pcs.
Proof.
  intros [Hlen HS HP HF HW] Hp He Hnf Hu Hpar. split; cbn.
  - by rewrite length_alter.
  - apply (sched_inv_slot _ _ _ _ _ _ p); [done..|congruence|congruence|congruence].
  - apply pid_inv_alter; [|done]. intros q Hq. by simplify_eq.
  - apply (family_inv_slot _ _ _ _ p); auto.
  - apply (wait_inv_slot _ _ _ p); [done..|congruence|congruence].
Qed.

Lemma pinv_after_benign s s' ps pcs :
  pinv s pcs -> Forall2 benign (procs s) ps -> same_table (set_procs ps s) s' ->
  pt_lock s' = pt_lock s -> pcpus s' = pcpus s -> pinv s' pcs.
Proof. intros HI HF Ht Hl Hc. apply (pinv_ext (set_procs ps s)); [done..|]. by apply pinv_benign. Qed.

Lemma wpe_alloc c i pcs s :
  on_cpu c i pcs s -> (nowrap -> nextpid s < 2 ^ 31 - 1) ->
  wpe (allocproc c) s
    (fun o s' => match o with Some np => pinv s' (<[c := Forking np]> pcs) | None => pinv s' pcs end)
    (fun _ _ => True).
Proof.
  intros HO Hlt. unfold allocproc. apply wpe_bind, (wpe_enter' c i s pcs); [done|].
  intros s1 HC (Hps & Hnp & Hin). apply wpe_bind, wpe_get.
  assert (Hrun : <[c := Run]> pcs = pcs) by apply insert_run, HO.
  destruct (find_index _ _) as [j|] eqn:Hj.
  2: { apply wpe_bind, (wpe_leave c i pcs); [apply HC..|]. intros s2 HI _. apply wpe_ret. by rewrite <- Hrun. }
  apply find_index_Some in Hj as [(p & Hp & Hu%bool_decide_eq_true) _].
  apply wpe_bind, wpe_upd_proc, wpe_bind, wpe_upd_proc, wpe_bind, wpe_modify, wpe_bind, wpe_upd_proc.
  cbn [procs set_procs set_nextpid]. rewrite !list_alter_alter_eq.
  pose (f := set_p_ctime (ticks s1) ∘ (set_p_pid (nextpid s1) ∘ set_p_state EMBRYO)).
  assert (HC2 : in_crit c i pcs (set_nextpid (i32 (nextpid s1 + 1)) (set_procs (alter f j (procs s1)) s1))).
  { apply (in_crit_embryo _ _ _ _ _ p); try done. by rewrite Hnp. }
  apply wpe_bind, (wpe_leave c i pcs); [apply HC2..|]. intros s3 HI3 (Hps3 & _ & _). rewrite Hrun in HI3.
  assert (Hp3 : procs s3 !! j = Some (f p)) by (rewrite Hps3; cbn; by rewrite list_lookup_alter_eq, Hp).
  assert (Hnf : forall d, pcs !! d <> Some (Forking j)).
  { apply (unused_free s); [apply HO|]. rewrite <- Hps. unfold st. rewrite Hp. cbn. congruence. }
  apply wpe_bind, wpe_zoom. unfold wpe at 1. destruct (e_kalloc _) as [ks x|]; [|done]. cbn [update env_lens].
  apply wpe_bind, wpe_upd_proc. destruct (ks =? 0).
  - apply wpe_bind, wpe_upd_proc, wpe_ret. cbn [procs set_procs set_env]. rewrite list_alter_alter_eq.
    apply (pinv_ext (set_procs (alter (set_p_state UNUSED ∘ set_p_kstack ks) j (procs s3)) s3)); [done..|].
    by apply (pinv_give_back _ _ _ (f p)).
  - apply wpe_bind, wpe_upd_proc, wpe_bind, wpe_modify, wpe_bind, wpe_upd_proc, wpe_bind, wpe_modify, wpe_ret.
    cbn [procs set_procs set_env set_kwords set_contexts]. rewrite !list_alter_alter_eq.
    match goal with |- context [alter ?g j (procs s3)] => set (h := g) end.
    assert (Hb : Forall2 benign (procs s3) (alter h j (procs s3)))
      by (apply benign_alter; intros q _; repeat split; auto).
    assert (HI4 : pinv (set_procs (alter h j (procs s3)) s3) pcs) by by apply pinv_benign.
    eapply (pinv_ext (set_procs (alter h j (procs s3)) s3)); [done..|].
    pose proof (pv_sched _ _ HI3) as HS. destruct (lookup_lt_is_Some_2 (pcpus s3) c) as [k Hk].
    { rewrite <- (si_len _ _ _ _ HS). eapply lookup_lt_Some, HO. }
    apply (pinv_pc _ _ _ k Run); try done; [apply HO| |by intros np d [= <-]].
    pose proof (si_cpu _ _ _ _ (pv_sched _ _ HI4) c Run k (oc_pc _ _ _ _ HO) Hk) as (Hn & Hr).
    cbn. split; [done|]. split; [by rewrite (st_alter _ _ _ (f p))|done].
Qed.

Lemma wpe_wakeup c ch pcs pc s :
  pinv s pcs -> pcs !! c = Some pc -> holder pc = false -> pt_lock s = false ->
  wpe (wakeup c ch) s (fun _ s' => pinv s' pcs) (fun _ _ => True).
Proof.
  intros HI Hpc Hh Hl. pose proof (pv_sched _ _ HI) as HS.
  destruct (lookup_lt_is_Some_2 (pcpus s) c) as [k Hk].
  { rewrite <- (si_len _ _ _ _ HS). by eapply lookup_lt_Some. }
  pose proof (si_cpu _ _ _ _ HS c pc k Hpc Hk) as Hok.
  assert (Hn : c_ncli k = 0) by (destruct pc; naive_solver).
  unfold wakeup. apply wpe_bind, (wpe_acquire_pt _ _ k); [done..|]. intros k1 Hp1 Hn1 Hf1.
  apply wpe_bind, wpe_modify. eapply wpe_release_pt.
  - cbn. rewrite list_lookup_insert_eq; [done|]. by eapply lookup_lt_Some.
  - done.
  - lia.
  - cbn. intros k2 Hp2 Hn2. rewrite list_insert_insert_eq.
    pose (s' := set_pt_lock false (set_pcpus (<[c := k2]> (pcpus s)) s)).
    apply (pinv_after_benign s' _ (wakeup1_proc (Some ch) <$> procs s)); try done;
      [|apply benign_fmap, benign_wakeup1].
    rewrite <- (list_insert_id pcs c pc) by done. apply (pinv_cpu _ _ _ k k2 pc); try done.
    + rewrite Hl. by left.
    + assert (c_proc k2 = c_proc k /\ c_ncli k2 = 0) as [Hp Hn'] by (split; [congruence|lia]).
      destruct pc; cbn in *; rewrite ?Hp; naive_solver.
    + left. congruence.
    + intros np d -> Hd Hd'. apply Hd. by eapply (si_fork _ _ _ _ HS).
Qed.

(** The second half of fork writes the slot of the child without the lock.
    The invariant holds of the table in which that slot still has the contents
    [q0] that allocproc left. *)
Record forking (c i np : nat) (q0 : proc) (pcs : list cpu_pc) s : Prop := {
  fk_inv : pinv (set_procs (<[np := q0]> (procs s)) s) pcs;
  fk_pc : pcs !! c = Some (Forking np);
  fk_free : pt_lock s = false;
  fk_cpu : exists k, pcpus s !! c = Some k /\ c_proc k = Some i;
  fk_ne : np <> i;
  fk_embryo : p_state q0 = EMBRYO;
  fk_slot : exists q, procs s !! np = Some q /\ p_pid q = p_pid q0 /\ p_state q = EMBRYO
}.

Lemma forking_start c i np pcs s k :
  pinv s pcs -> pcs !! c = Some (Forking np) -> pt_lock s = false ->
  pcpus s !! c = Some k -> c_proc k = Some i -> exists q0, forking c i np q0 pcs s.
Proof.
  intros HI Hpc Hl Hk Hi.
  pose proof (si_cpu _ _ _ _ (pv_sched _ _ HI) c _ k Hpc Hk) as (_ & He & j & Hj & Hr).
  destruct (st_lookup _ _ _ He) as (q & Hq & Hs). exists q. split; eauto.
  - apply (pinv_ext s); try done. split; [|done]. cbn. by rewrite list_insert_id.
  - intros <-. assert (j = np) as -> by congruence. congruence.
Qed.

Lemma forking_child c i np q0 pcs s (f : proc -> proc) :
  forking c i np q0 pcs s ->
  (forall q, procs s !! np = Some q -> p_pid (f q) = p_pid q /\ p_state (f q) = p_state q) ->
  forking c i np q0 pcs (set_procs (alter f np (procs s)) s).
Proof.
  intros [HI Hpc Hl Hk Hne He (q & Hq & Hpid & Hs)] Hf. split; try done.
  - eapply pinv_ext; [| | |exact HI]; [|done|done]. split; [|done]. cbn.
    apply list_eq. intros j. destruct (decide (np = j)) as [<-|Hn].
    + rewrite !list_lookup_insert_eq; [done|..]; rewrite ?length_alter; by eapply lookup_lt_Some.
    + by rewrite !list_lookup_insert_ne, list_lookup_alter_ne.
  - exists (f q). cbn. rewrite list_lookup_alter_eq, Hq. destruct (Hf q Hq). split; [done|]. split; congruence.
Qed.

Lemma forking_ext c i np q0 pcs s s' :
  same_table s s' -> pt_lock s' = pt_lock s -> pcpus s' = pcpus s ->
  forking c i np q0 pcs s -> forking c i np q0 pcs s'.
Proof.
  intros (Hp & Hn & Hi) Hl Hc [HI Hpc Hl0 Hk Hne He Hs]. split; try done.
  - eapply pinv_ext; [| | |exact HI]; [|done|done]. split; [|done]. cbn. by rewrite Hp.
  - congruence.
  - by rewrite Hc.
  - by rewrite Hp.
Qed.

Lemma forking_other c i np q0 pcs s (f : proc -> proc) :
  forking c i np q0 pcs s -> (forall p, benign p (f p)) ->
  forking c i np q0 pcs (set_procs (alter f i (procs s)) s).
Proof.
  intros [HI Hpc Hl Hk Hne He Hs] Hf. split; try done.
  - eapply pinv_after_benign; [exact HI|by apply (benign_alter f i)| |done|done]. split; [|done]. cbn.
    apply list_eq. intros j. destruct (decide (np = j)) as [<-|Hn].
    + destruct Hs as (q & Hq & _). rewrite list_lookup_insert_eq, list_lookup_alter_ne, list_lookup_insert_eq;
        [done|..]; rewrite ?length_alter; try done; by eapply lookup_lt_Some.
    + rewrite list_lookup_insert_ne by done. destruct (decide (i = j)) as [<-|Hi].
      * by rewrite !list_lookup_alter_eq, list_lookup_insert_ne.
      * by rewrite !list_lookup_alter_ne, list_lookup_insert_ne.
  - destruct Hs as (q & Hq & ?). exists q. cbn. by rewrite list_lookup_alter_ne.
Qed.

(** The process that forks is running, and its slot is not that of the child. *)
Lemma forking_cur c i np q0 pcs s :
  forking c i np q0 pcs s -> exists p, procs s !! i = Some p /\ p_state p = RUNNING.
Proof.
  intros [HI Hpc _ (k & Hk & Hi) Hne _ _].
  pose proof (si_cpu _ _ _ _ (pv_sched _ _ HI) c _ k Hpc Hk) as (_ & _ & j & Hj & Hst).
  assert (j = i) as -> by congruence. apply st_lookup in Hst as (p & Hp & Hr). exists p.
  cbn in Hp. by rewrite list_lookup_insert_ne in Hp.
Qed.

(** When the child becomes RUNNABLE the table satisfies the invariant again. *)
Lemma pinv_fork s pcs np i q0 (f : proc -> proc) :
  pinv s pcs -> procs s !! np = Some q0 -> p_state q0 = EMBRYO -> (forall d, pcs !! d <> Some (Forking np)) ->
  st (procs s) i = Some RUNNING ->
  p_pid (f q0) = p_pid q0 -> p_parent (f q0) = Some i -> p_state (f q0) = RUNNABLE ->
  pinv (set_procs (alter f np (procs s)) s) pcs.
Proof.
  intros [Hlen HS HP HF HW] Hq He Hnf Hi Hpid Hpar Hr.
  assert (Hnp : ~ alive (st (procs s) np)) by (unfold st, alive; rewrite Hq; cbn; intuition congruence).
  assert (Hup : forall w, alive (st (procs s) w) -> alive (st (alter f np (procs s)) w)).
  { intros w Hw. rewrite st_alter_ne; [done|]. by intros <-. }
  assert (Hai : alive (st (procs s) i)) by (rewrite Hi; auto with alive).
  split; cbn.
  - by rewrite length_alter.
  - apply (sched_inv_slot _ _ _ _ _ _ q0); [done..|congruence|congruence|congruence].
  - apply pid_inv_alter; [|done]. intros q Hq'. simplify_eq. by rewrite He.
  - destruct HF as ((i0 & Hi0 & ?) & HF). split; [eauto|].
    intros m q [(-> & p' & Hp' & ->)|[_ Hm]]%lookup_alter_cases.
    + simplify_eq. rewrite Hr, Hpar. right. split; [congruence|]. exists i. split; [done|].
      split; [congruence|auto].
    + specialize (HF m q Hm). destruct (p_state q); naive_solver.
  - apply (wait_inv_slot _ _ _ q0); [done..|congruence|congruence].
Qed.

Lemma no_other_fork lock cpus ps pcs c np pc :
  sched_inv lock cpus ps pcs -> pcs !! c = Some (Forking np) -> (forall n, pc <> Forking n) ->
  forall d, <[c := pc]> pcs !! d <> Some (Forking np).
Proof.
  intros HS Hpc Hne d Hd. apply list_lookup_insert_Some in Hd as [(<- & Hd & _)|[Hn Hd]]; [by apply (Hne np)|].
  apply Hn. by eapply (si_fork _ _ _ _ HS).
Qed.

Lemma forking_run c i np q0 pcs s k :
  forking c i np q0 pcs s -> pcpus s !! c = Some k ->
  forall k', c_proc k' = c_proc k -> c_ncli k' = c_ncli k ->
  pinv (set_pt_lock false (set_pcpus (<[c := k']> (pcpus s)) (set_procs (<[np := q0]> (procs s)) s)))
    (<[c := Run]> pcs).
Proof.
  intros [HI Hpc Hl Hk Hne He Hs] Hk' k' Hp Hn.
  pose proof (si_cpu _ _ _ _ (pv_sched _ _ HI) c _ k Hpc Hk') as (Hn0 & _ & Hr).
  apply (pinv_cpu (set_procs (<[np := q0]> (procs s)) s) pcs c k k' (Forking np)); try done.
  - cbn. rewrite Hl. by left.
  - cbn. rewrite Hp, Hn. done.
  - by left.
Qed.

Lemma wpe_dup_files c i np q0 par pcs s :
  forking c i np q0 pcs s -> (forall q, procs s !! np = Some q -> p_parent q = par) ->
  wpe (dup_files i np) s
    (fun _ s' => forking c i np q0 pcs s' /\ forall q, procs s' !! np = Some q -> p_parent q = par)
    (fun _ _ => True).
Proof.
  intros HF Hpar. unfold dup_files.
  apply (wpe_for_each (fun _ s' => forking c i np q0 pcs s' /\ forall q, procs s' !! np = Some q -> p_parent q = par));
    [done|].
  intros _ fd _ s' _ [HF' Hpar']. destruct (forking_cur _ _ _ _ _ _ HF') as (p & Hp & _).
  apply wpe_bind, (wpe_proc_at _ _ p); [done|]. destruct (p_ofile p !! fd) as [[f|]|]; [|by apply wpe_ret|done].
  apply wpe_bind, wpe_zoom. unfold wpe at 1. destruct (e_filedup f _) as [g x|]; [|done].
  apply wpe_upd_proc. cbn [update env_lens]. split.
  - apply forking_child; [|done]. by apply (forking_ext _ _ _ _ _ s').
  - cbn. intros q. rewrite list_lookup_alter_eq. intros (q' & Hq' & ->)%fmap_Some. exact (Hpar' q' Hq').
Qed.

(** The last lines of fork: the child is made RUNNABLE under the lock. *)
Lemma wpe_fork_end c i np q0 pcs s (r : Z) :
  forking c i np q0 pcs s -> (forall q, procs s !! np = Some q -> p_parent q = Some i) ->
  wpe (acquire_pt c ;; upd_proc np (set_p_state RUNNABLE) ;; release_pt c ;; mret r) s
    (fun _ s' => pinv s' (<[c := Run]> pcs)) (fun _ _ => True).
Proof.
  intros HF Hpar. pose proof HF as [HI Hpc Hl (k & Hk & Hi) Hne He (q & Hq & Hpid & Hs)].
  pose proof (si_cpu _ _ _ _ (pv_sched _ _ HI) c _ k Hpc Hk) as (Hn0 & _ & j & Hj & Hr).
  assert (j = i) as -> by congruence.
  assert (Hlt : (np < length (procs s))%nat) by by eapply lookup_lt_Some.
  apply wpe_bind, (wpe_acquire_pt _ _ k); [done..|]. intros k1 Hp1 Hn1 _.
  apply wpe_bind, wpe_upd_proc, wpe_bind. eapply wpe_release_pt.
  - cbn. rewrite list_lookup_insert_eq; [done|]. by eapply lookup_lt_Some.
  - done.
  - lia.
  - cbn. intros k2 Hp2 Hn2. rewrite list_insert_insert_eq.
    pose proof (forking_run _ _ _ _ _ _ k HF Hk k2 ltac:(congruence) ltac:(lia)) as HR.
    eapply (pinv_fork _ _ np i q0 (fun _ => set_p_state RUNNABLE q)) in HR; try done.
    + eapply pinv_ext; [| | |exact HR]; [|done|done]. split; [|done]. cbn.
      rewrite (alter_insert _ _ np q) by done. rewrite (alter_insert _ _ np q0) by by apply list_lookup_insert_eq.
      by rewrite list_insert_insert_eq.
    + cbn. by apply list_lookup_insert_eq.
    + by eapply no_other_fork; [apply (pv_sched _ _ HI)|..].
    + cbn. rewrite <- (Hpar q Hq). done.
Qed.

Lemma wpe_copy c i np pcs s k :
  pinv s pcs -> pcs !! c = Some (Forking np) -> pt_lock s = false ->
  pcpus s !! c = Some k -> c_proc k = Some i ->
  wpe (fork_copy c np) s (fun _ s' => pinv s' (<[c := Run]> pcs)) (fun _ _ => True).
Proof.
  intros HI Hpc Hl Hk Hi.
  pose proof (si_cpu _ _ _ _ (pv_sched _ _ HI) c _ k Hpc Hk) as (Hn & He & j & Hj & Hr).
  destruct (st_lookup _ _ _ He) as (q & Hq & Hs). assert (j = i) as -> by congruence.
  destruct (forking_start c i np pcs s k) as (q0 & HF); try done.
  destruct (forking_cur _ _ _ _ _ _ HF) as (p & Hp & _). unfold fork_copy.
  apply wpe_bind, (wpe_curproc c i _ k); [done..|].
  apply wpe_bind, (wpe_proc_at _ _ p); [done|]. apply wpe_bind, (wpe_proc_at _ _ q); [done|].
  apply wpe_bind, wpe_zoom. unfold wpe at 1. destruct (e_copyuvm _ _ _) as [pd x|]; [|done].
  cbn [update env_lens]. apply wpe_bind, wpe_upd_proc. destruct (pd =? 0).
  - apply wpe_bind, wpe_zoom. unfold wpe at 1. destruct (e_kfree _ _) as [[] x'|]; [|done].
    apply wpe_bind, wpe_upd_proc, wpe_bind, wpe_upd_proc, wpe_ret.
    cbn [update env_lens procs set_procs set_env]. rewrite !list_alter_alter_eq.
    match goal with |- context [alter ?g np (procs s)] => set (h := g) end.
    apply (pinv_ext (set_procs (alter h np (procs s)) s)); [done..|].
    apply (pinv_give_back _ _ _ q); try done.
    + apply (pinv_pc _ _ _ k (Forking np)); try done. cbn. eauto.
    + by eapply no_other_fork; [apply (pv_sched _ _ HI)|..].
  - apply wpe_bind, wpe_upd_proc, wpe_bind, wpe_upd_proc, wpe_bind, wpe_get.
    cbn [procs set_procs set_env]. rewrite !list_alter_alter_eq.
    match goal with |- context [alter ?g np (procs s)] => set (h := g) end.
    assert (HF1 : forking c i np q0 pcs (set_procs (alter h np (procs s)) s)) by by apply forking_child.
    assert (Hpar1 : forall r, alter h np (procs s) !! np = Some r -> p_parent r = Some i)
      by (intros r; rewrite list_lookup_alter_eq; by intros (r' & _ & ->)%fmap_Some).
    destruct (_ !! p_tf p) as [tf|]; [|done]. apply wpe_bind, wpe_put, wpe_bind.
    eapply wpe_mono; [| |apply (wpe_dup_files c i np q0 (Some i) pcs)]; [|done| |done].
    2: { by apply (forking_ext _ _ _ _ _ (set_procs (alter h np (procs s)) s)). }
    intros _ s2 [HF2 Hpar2]. destruct (p_cwd p) as [d|]; [|done].
    apply wpe_bind, wpe_zoom. unfold wpe at 1. destruct (e_idup _ _) as [cwd x2|]; [|done].
    apply wpe_bind, wpe_upd_proc, wpe_bind, wpe_upd_proc, wpe_bind, wpe_get, wpe_bind, wpe_upd_proc.
    cbn [update env_lens procs set_procs set_env ticks]. rewrite list_alter_alter_eq.
    match goal with |- context [alter ?g np (procs s2)] => set (h2 := g) end.
    pose (s3 := set_procs (alter h2 np (procs s2)) (set_env x2 s2)).
    assert (HF3 : forking c i np q0 pcs (set_procs (alter (set_p_ctime (ticks s2)) i (procs s3)) s3)).
    { apply forking_other; [|repeat split; auto]. apply (forking_child _ _ _ _ _ (set_env x2 s2) h2); [|done].
      by apply (forking_ext _ _ _ _ _ s2). }
    destruct (fk_slot _ _ _ _ _ _ HF3) as (q3 & Hq3 & _).
    apply wpe_bind, (wpe_proc_at _ _ q3); [done|]. apply (wpe_fork_end c i np q0); [done|].
    intros r. cbn. rewrite list_lookup_alter_ne by apply not_eq_sym, HF. rewrite list_lookup_alter_eq.
    intros (r' & Hr' & ->)%fmap_Some. exact (Hpar2 r' Hr').
Qed.

(** ** Every step of the system keeps the invariant *)

Lemma curproc_run c s i s' :
  curproc c s = Ret i s' -> s' = s /\ exists k, pcpus s !! c = Some k /\ c_proc k = Some i.
Proof.
  unfold curproc, cpu_at, wild. munfold. destruct (pcpus s !! c) as [k|]; [|done]. cbn.
  destruct (c_proc k) eqn:Hp; [|done]. intros [= <- <-]. eauto.
Qed.

Lemma on_cpu_intro c (y : @sys X) i s' :
  pinv (sst y) (spc y) -> running c y = true -> curproc c (sst y) = Ret i s' ->
  on_cpu c i (spc y) (sst y).
Proof.
  intros HI Hr [-> Hk]%curproc_run. unfold running in Hr.
  destruct (spc y !! c) as [[]|] eqn:Hpc; try done. split; try done. by destruct (pt_lock (sst y)).
Qed.

Lemma running_cur c (y : @sys X) :
  pinv (sst y) (spc y) -> running c y = true -> exists i, on_cpu c i (spc y) (sst y).
Proof.
  intros HI Hr. unfold running in Hr. destruct (spc y !! c) as [[]|] eqn:Hpc; try done.
  pose proof (pv_sched _ _ HI) as HS. destruct (lookup_lt_is_Some_2 (pcpus (sst y)) c) as [k Hk].
  { rewrite <- (si_len _ _ _ _ HS). by eapply lookup_lt_Some. }
  pose proof (si_cpu _ _ _ _ HS c _ k Hpc Hk) as (_ & i & Hi & _). exists i. split; eauto.
  by destruct (pt_lock (sst y)).
Qed.

Lemma switch_out_inv c i r s (y y' : @sys X) :
  leaves c i (spc y) Switched s -> switch_out c i r s y = Some y' -> pinv (sst y') (spc y').
Proof.
  intros [(_ & HC & Hst)|[Hq _]] Ho; [|done]. unfold switch_out in Ho.
  destruct (scheduler_back c s) as [[] s'|] eqn:Hb; [|done]. injection Ho as <-. cbn.
  by apply (wpe_Ret _ _ _ _ _ _ (wpe_back _ _ _ _ HC Hst) Hb).
Qed.

Lemma sched_label_inv c (y y' : @sys X) :
  pinv (sst y) (spc y) -> sched_label c y = Some y' -> pinv (sst y') (spc y').
Proof.
  intros HI Hl. unfold sched_label in Hl. destruct (spc y !! c) as [[|i| | |]|] eqn:Hpc; try done.
  - destruct (pt_lock (sst y)) eqn:Hlk; [done|].
    destruct (scheduler_begin c (sst y)) as [[] s|] eqn:Hb; [|done]. injection Hl as <-.
    by apply (wpe_Ret _ _ _ _ _ _ (wpe_begin c _ _ HI Hpc Hlk) Hb).
  - destruct (i <? NPROC)%nat.
    + destruct (scheduler_pick c i (sst y)) as [b s|] eqn:Hp; [|done].
      pose proof (wpe_Ret _ _ _ _ _ _ (wpe_pick c i _ _ HI Hpc) Hp) as Hpick. cbn in Hpick. destruct b.
      * destruct (sres y !! i) as [r|]; [|done].
        pose proof (wpe_resume c i _ _ r Hpick) as Hw.
        destruct (resume_run c i r s) as [[] s2|w s2] eqn:Hr.
        -- injection Hl as <-. by apply (wpe_Ret _ _ _ _ _ _ Hw Hr).
        -- pose proof (wpe_Stop _ _ _ _ _ _ Hw Hr) as Hs. destruct w; try done. by eapply switch_out_inv.
      * subst s. injection Hl as <-. cbn.
        destruct (scan_cpu _ _ _ _ HI Hpc) as (k & Hk & ?). by eapply pinv_pc.
    + destruct (scheduler_end c (sst y)) as [[] s|] eqn:Hb; [|done]. injection Hl as <-.
      by apply (wpe_Ret _ _ _ _ _ _ (wpe_end c _ _ _ HI Hpc) Hb).
Qed.

Lemma op_label_inv c o (y y' : @sys X) :
  pinv (sst y) (spc y) -> op_label c o y = Some y' -> pinv (sst y') (spc y').
Proof.
  intros HI Hl. unfold op_label in Hl. destruct (running c y && op_ok o) eqn:Hb; [|done].
  apply andb_prop in Hb as [Hr Ho]. destruct (curproc c (sst y)) as [i s|] eqn:Hc; [|done].
  pose proof (wpe_op c i _ _ o (on_cpu_intro _ _ _ _ HI Hr Hc) Ho) as Hw.
  destruct (op_run c o (sst y)) as [[] s2|w s2] eqn:Hop.
  - injection Hl as <-. by apply (wpe_Ret _ _ _ _ _ _ Hw Hop).
  - pose proof (wpe_Stop _ _ _ _ _ _ Hw Hop) as Hs. destruct w; try done. by eapply switch_out_inv.
Qed.

Lemma alloc_label_inv c (y y' : @sys X) :
  pinv (sst y) (spc y) -> (nowrap -> nextpid (sst y) < 2 ^ 31 - 1) -> alloc_label c y = Some y' -> pinv (sst y') (spc y').
Proof.
  intros HI Hn Hl. unfold alloc_label in Hl. destruct (running c y) eqn:Hr; [|done].
  destruct (running_cur _ _ HI Hr) as [i HO].
  pose proof (wpe_alloc c i _ _ HO Hn) as Hw.
  destruct (allocproc c (sst y)) as [[np|] s|] eqn:Ha; [..|done]; injection Hl as <-;
    by apply (wpe_Ret _ _ _ _ _ _ Hw Ha).
Qed.

Lemma copy_label_inv c (y y' : @sys X) :
  pinv (sst y) (spc y) -> copy_label c y = Some y' -> pinv (sst y') (spc y').
Proof.
  intros HI Hl. unfold copy_label in Hl. destruct (spc y !! c) as [[]|] eqn:Hpc; try done.
  destruct (pt_lock (sst y)) eqn:Hlk; [done|]. pose proof (pv_sched _ _ HI) as HS.
  destruct (lookup_lt_is_Some_2 (pcpus (sst y)) c) as [k Hk].
  { rewrite <- (si_len _ _ _ _ HS). by eapply lookup_lt_Some. }
  pose proof (si_cpu _ _ _ _ HS c _ k Hpc Hk) as (_ & _ & i & Hi & _).
  destruct (fork_copy c np (sst y)) as [r s|] eqn:Hf; [|done]. injection Hl as <-.
  by apply (wpe_Ret _ _ _ _ _ _ (wpe_copy c i np _ _ k HI Hpc Hlk Hk Hi) Hf).
Qed.

Lemma wakeup_label_inv c ch (y y' : @sys X) :
  pinv (sst y) (spc y) -> wakeup_label c ch y = Some y' -> pinv (sst y') (spc y').
Proof.
  intros HI Hl. unfold wakeup_label in Hl. destruct (spc y !! c) as [pc|] eqn:Hpc; [|done].
  assert (Hh : holder pc = false) by by destruct pc.
  destruct (pt_lock (sst y)) eqn:Hlk; [by destruct pc|].
  pose proof (wpe_wakeup c ch _ pc _ HI Hpc Hh Hlk) as Hw.
  destruct pc; try done; (destruct (wakeup c ch (sst y)) as [[] s|] eqn:Hf; [|done]);
    injection Hl as <-; by apply (wpe_Ret _ _ _ _ _ _ Hw Hf).
Qed.

Lemma kstep_inv (y y' : @sys X) :
  pinv (sst y) (spc y) -> (nowrap -> nextpid (sst y) < 2 ^ 31 - 1) -> kstep y y' -> pinv (sst y') (spc y').
Proof.
  intros HI Hnw [l Hl]. destruct l as [c|c o|c|c|c ch| |c g|x]; cbn [step_label] in Hl.
  - by eapply sched_label_inv.
  - by eapply op_label_inv.
  - by eapply alloc_label_inv.
  - by eapply copy_label_inv.
  - by eapply wakeup_label_inv.
  - injection Hl as <-. cbn. by apply (pinv_ext (sst y)).
  - unfold private_label in Hl. destruct (curproc c (sst y)) as [i s|] eqn:Hc; [|done].
    apply curproc_run in Hc as [-> _]. injection Hl as <-. cbn.
    apply pinv_benign; [|done]. apply benign_alter. intros p _. repeat split; auto.
  - injection Hl as <-. cbn. by apply (pinv_ext (sst y)).
Qed.

(** *** Boot *)

Lemma boot_table s k p ncpu :
  procs s = <[0%nat := p]> (replicate NPROC zero_proc) -> p_state p = RUNNABLE -> p_pid p = 1 -> p_parent p = None ->
  pt_lock s = false -> nextpid s = 2 -> initproc s = Some 0%nat ->
  pcpus s = <[0%nat := k]> (replicate ncpu (PCpu 0 0 0 None)) -> c_proc k = None -> c_ncli k = 0 ->
  pinv s (replicate ncpu Idle).
Proof.
  intros Hps Hst Hpid Hpar Hl Hn Hi Hc Hk Hk'.
  assert (Hp : forall i q, procs s !! i = Some q -> i = 0%nat /\ q = p \/ q = zero_proc).
  { intros i q. rewrite Hps. intros [(<- & <- & _)|[_ Hq]]%list_lookup_insert_Some; [auto|].
    apply lookup_replicate in Hq as [-> _]. auto. }
  assert (Hcpu : forall c m, pcpus s !! c = Some m -> c_proc m = None /\ c_ncli m = 0).
  { intros c m. rewrite Hc. intros [(<- & <- & _)|[_ Hm]]%list_lookup_insert_Some; [done|].
    by apply lookup_replicate in Hm as [-> _]. }
  assert (Hz : procs s !! 0%nat = Some p) by (rewrite Hps; apply list_lookup_insert_eq; rewrite length_replicate; unfold NPROC; lia).
  split.
  - rewrite Hps, length_insert. apply length_replicate.
  - split.
    + rewrite Hc, length_insert, !length_replicate. done.
    + intros c pc m [-> _]%lookup_replicate Hm. by apply (Hcpu c).
    + intros c c' m m' i Hm _ Hi'. destruct (Hcpu c m Hm). congruence.
    + intros i (q & Hq & Hr)%st_lookup. destruct (Hp i q Hq) as [[_ ->]| ->]; [congruence|discriminate Hr].
    + intros c c' np [? _]%lookup_replicate. done.
    + intros c c' pc pc' [-> _]%lookup_replicate. done.
    + congruence.
  - intros _. rewrite Hn. split; [lia|]. split.
    + intros i q Hq. destruct (Hp i q Hq) as [[_ ->]| ->]; [rewrite Hpid; lia|done].
    + intros i j q r Hq Hr. destruct (Hp i q Hq) as [[-> ->]| ->]; [|done].
      destruct (Hp j r Hr) as [[-> ->]| ->]; done.
  - split.
    + exists 0%nat. split; [done|]. unfold st. rewrite Hz. cbn. rewrite Hst. auto with alive.
    + intros i q Hq. destruct (Hp i q Hq) as [[-> ->]| ->]; [|done]. rewrite Hst. by left.
  - intros i j q Hq Hs. destruct (Hp i q Hq) as [[-> ->]| ->]; [congruence|discriminate Hs].
Qed.

(** The machine while CPU 0 runs userinit: one slot is taken, in state [e]. *)
Definition booting (ncpu : nat) (e : procstate) s : Prop :=
  exists p k,
    procs s = <[0%nat := p]> (replicate NPROC zero_proc) /\ p_state p = e /\ p_pid p = 1 /\
    p_parent p = None /\ pt_lock s = false /\ nextpid s = 2 /\
    pcpus s = <[0%nat := k]> (replicate (S ncpu) (PCpu 0 0 0 None)) /\ c_proc k = None /\ c_ncli k = 0.

Lemma booting_ext ncpu e s s' :
  booting ncpu e s -> procs s' = procs s -> nextpid s' = nextpid s -> pt_lock s' = pt_lock s ->
  pcpus s' = pcpus s -> booting ncpu e s'.
Proof. intros (p & k & ?) H1 H2 H3 H4. exists p, k. by rewrite H1, H2, H3, H4. Qed.

Lemma booting_alter ncpu e e' s (f : proc -> proc) :
  booting ncpu e s ->
  (forall p, p_state p = e -> p_state (f p) = e' /\ p_pid (f p) = p_pid p /\ p_parent (f p) = p_parent p) ->
  booting ncpu e' (set_procs (alter f 0%nat (procs s)) s).
Proof.
  intros (p & k & Hps & He & Hpid & Hpar & Hrest) Hf. destruct (Hf p He) as (? & ? & ?).
  exists (f p), k. cbn. split; [|split; [done|split; [congruence|split; [congruence|done]]]].
  rewrite Hps, (alter_insert _ _ 0 p); [by rewrite list_insert_insert_eq|].
  apply list_lookup_insert_eq. rewrite length_replicate. unfold NPROC. lia.
Qed.

Lemma wpe_booting_upd ncpu e s (f : proc -> proc) (Q : unit -> pstate X -> Prop) F :
  booting ncpu e s ->
  (forall p, p_state (f p) = p_state p /\ p_pid (f p) = p_pid p /\ p_parent (f p) = p_parent p) ->
  (forall s', booting ncpu e s' -> initproc s' = initproc s -> Q tt s') -> wpe (upd_proc 0 f) s Q F.
Proof.
  intros HB Hf HQ. apply wpe_upd_proc, HQ; [|done]. apply (booting_alter _ e); [done|].
  intros p <-. by destruct (Hf p) as (-> & -> & ->).
Qed.

Lemma wpe_booting_call {A} ncpu e s (m : M X A) (Q : A -> pstate X -> Prop) :
  booting ncpu e s ->
  (forall a s', booting ncpu e s' -> initproc s' = initproc s -> Q a s') ->
  wpe (call m) s Q (fun _ _ => True).
Proof.
  intros HB HQ. apply wpe_zoom. unfold wpe. destruct (m _) as [a x|]; [|done].
  apply HQ; [|done]. by eapply booting_ext.
Qed.

Lemma wpe_booting_modify ncpu e s (f : pstate X -> pstate X) (Q : unit -> pstate X -> Prop) F :
  booting ncpu e s ->
  (forall s, procs (f s) = procs s /\ nextpid (f s) = nextpid s /\ pt_lock (f s) = pt_lock s /\
     pcpus (f s) = pcpus s) ->
  (forall s', booting ncpu e s' -> initproc s' = initproc (f s) -> Q tt s') -> wpe (modify f) s Q F.
Proof.
  intros HB Hf HQ. destruct (Hf s) as (? & ? & ? & ?). apply wpe_modify, HQ; [|done]. by eapply booting_ext.
Qed.

Lemma wpe_boot_alloc ncpu (x : X) :
  wpe (allocproc 0) (boot (S ncpu) x)
    (fun o s => forall i, o = Some i -> i = 0%nat /\ booting ncpu EMBRYO s) (fun _ _ => True).
Proof.
  unfold allocproc. apply wpe_bind, (wpe_acquire_pt _ _ (PCpu 0 0 0 None)); [done..|]. intros k1 Hp1 Hn1 _.
  apply wpe_bind, wpe_get. change (find_index _ _) with (Some 0%nat). cbv iota beta.
  do 2 apply wpe_bind, wpe_upd_proc. apply wpe_bind, wpe_modify, wpe_bind, wpe_upd_proc, wpe_bind.
  eapply wpe_release_pt; [reflexivity|done|cbn in *; lia|]. intros k2 Hp2 Hn2.
  match goal with |- wpe _ ?s _ _ => assert (HB : booting ncpu EMBRYO s) end.
  { eexists _, k2. cbn in *. split; [reflexivity|]. repeat split; try done; [congruence|lia]. }
  revert HB. match goal with |- booting _ _ ?s -> _ => generalize s end. intros s HB.
  apply wpe_bind. eapply wpe_booting_call; [done|]. intros ks s1 HB1 _.
  apply wpe_bind. eapply wpe_booting_upd; [done|done|]. intros s2 HB2 _. destruct (ks =? 0).
  { apply wpe_bind, wpe_upd_proc, wpe_ret. done. }
  apply wpe_bind. eapply wpe_booting_upd; [done|done|]. intros s3 HB3 _.
  apply wpe_bind. eapply wpe_booting_modify; [done|done|]. intros s4 HB4 _.
  apply wpe_bind. eapply wpe_booting_upd; [done|done|]. intros s5 HB5 _.
  apply wpe_bind. eapply wpe_booting_modify; [done|done|]. intros s6 HB6 _.
  apply wpe_ret. by intros i [= <-].
Qed.

Lemma wpe_boot_end ncpu s (Q : unit -> pstate X -> Prop) :
  booting ncpu EMBRYO s -> initproc s = Some 0%nat ->
  (forall s', pinv s' (replicate (S ncpu) Idle) -> Q tt s') ->
  wpe (acquire_pt 0 ;; upd_proc 0 (set_p_state RUNNABLE) ;; release_pt 0) s Q (fun _ _ => True).
Proof.
  intros (p & k & Hps & He & Hpid & Hpar & Hl & Hn & Hc & Hk & Hk') Hi HQ.
  assert (Hlk : pcpus s !! 0%nat = Some k) by by rewrite Hc.
  apply wpe_bind, (wpe_acquire_pt _ _ k); [done..|]. intros k1 Hp1 Hn1 _. apply wpe_bind, wpe_upd_proc.
  eapply wpe_release_pt; [cbn; apply list_lookup_insert_eq; by eapply lookup_lt_Some|done|lia|].
  cbn. intros k2 Hp2 Hn2. apply HQ.
  apply (boot_table _ k2 (set_p_state RUNNABLE p)); try done; cbn; [| |congruence|lia].
  - rewrite Hps, (alter_insert _ _ 0 p); [by rewrite list_insert_insert_eq|].
    apply list_lookup_insert_eq. rewrite length_replicate. unfold NPROC. lia.
  - rewrite Hc, !list_insert_insert_eq. done.
Qed.

Lemma wpe_userinit ncpu (x : X) :
  wpe (userinit 0) (boot ncpu x) (fun _ s => pinv s (replicate ncpu Idle)) (fun _ _ => True).
Proof.
  destruct ncpu as [|ncpu]; [done|]. unfold userinit. apply wpe_bind.
  eapply wpe_mono; [|done|apply wpe_boot_alloc]. cbv beta. intros o s Ho. apply wpe_bind.
  destruct o as [i|]; [|done]. destruct (Ho i eq_refl) as [-> HB].
  eapply wpe_booting_modify; [done|done|]. cbn [initproc set_initproc]. intros s0 HB0 Hi0.
  apply wpe_bind. eapply wpe_booting_call; [done|]. intros pd s1 HB1 Hi1.
  apply wpe_bind. eapply wpe_booting_upd; [done|done|]. intros s2 HB2 Hi2. destruct (pd =? 0); [done|].
  apply wpe_bind. eapply wpe_booting_call; [done|]. intros _ s3 HB3 Hi3.
  apply wpe_bind. eapply wpe_booting_upd; [done|done|]. intros s4 HB4 Hi4.
  apply wpe_bind. unfold proc_at. apply wpe_bind, wpe_get. destruct (procs s4 !! 0%nat) as [p|]; [|done].
  apply wpe_ret, wpe_bind. eapply wpe_booting_modify; [done|done|]. intros s5 HB5 Hi5.
  apply wpe_bind. eapply wpe_booting_upd; [done|done|]. intros s6 HB6 Hi6.
  apply wpe_bind. eapply wpe_booting_call; [done|]. intros root s7 HB7 Hi7.
  apply wpe_bind. eapply wpe_booting_upd; [done|done|]. intros s8 HB8 Hi8.
  apply (wpe_boot_end ncpu); [done| |done]. cbn in *. congruence.
Qed.

Lemma started_inv ncpu (x : X) y : started ncpu x y -> pinv (sst y) (spc y).
Proof. intros (Hu & Hpc & _). rewrite Hpc. by apply (wpe_Ret _ _ _ _ _ _ (wpe_userinit ncpu x) Hu). Qed.

(** No CPU is inside a critical section between two steps. *)
Definition no_crit (pcs : list cpu_pc) : Prop := forall c, pcs !! c <> Some Crit.

Lemma no_crit_insert pcs c pc : no_crit pcs -> pc <> Crit -> no_crit (<[c := pc]> pcs).
Proof. intros Hn Hpc d [(_ & Hd & _)|[_ Hd]]%list_lookup_insert_Some; [done|by apply (Hn d)]. Qed.

Lemma kstep_no_crit (y y' : @sys X) : no_crit (spc y) -> kstep y y' -> no_crit (spc y').
Proof.
  intros Hn [l Hl].
  assert (Hout : forall c i r s, switch_out c i r s y = Some y' -> no_crit (spc y')).
  { intros c i r s Ho. unfold switch_out in Ho. destruct (scheduler_back c s); [|done].
    injection Ho as <-. by apply no_crit_insert. }
  destruct l as [c|c o|c|c|c ch| |c g|x]; cbn [step_label] in Hl;
    unfold sched_label, op_label, alloc_label, copy_label, wakeup_label, private_label in Hl;
    repeat case_match; simplify_eq; try done; cbn; eauto; by apply no_crit_insert.
Qed.

End preserve.

(** *** Reachable states *)

Section reachable.
Context {X : Type} {E : ProcEnv X} {L : ProcEnvLaws X}.

(** The invariant without what it says of pids, and with it. *)
Lemma reachable_inv ncpu (x : X) y : reachable ncpu x y -> @pinv False X (sst y) (spc y).
Proof.
  intros (y0 & H0%(started_inv (N := False)) & Hr). induction Hr as [y|y y1 y2 Hs Hr IH]; [done|].
  apply IH. by eapply kstep_inv.
Qed.

Lemma reachable_nowrap_inv ncpu (x : X) y : reachable_nowrap ncpu x y -> @pinv True X (sst y) (spc y).
Proof.
  intros (y0 & H0%(started_inv (N := True)) & Hr). induction Hr as [y|y y1 y2 [Hs Hn] Hr IH]; [done|].
  apply IH. by eapply kstep_inv.
Qed.

Lemma reachable_no_crit ncpu (x : X) y : reachable ncpu x y -> no_crit (spc y).
Proof.
  intros (y0 & (_ & Hpc & _) & Hr).
  assert (H0 : no_crit (spc y0)).
  { rewrite Hpc. by intros c [? _]%lookup_replicate. }
  clear Hpc. induction Hr as [y|y y1 y2 Hs Hr IH]; [done|]. apply IH. by eapply kstep_no_crit.
Qed.

(** C4: In every reachable state of the system, under any interleaving of the
    CPUs, a process is RUNNING exactly when it is the current process of a CPU,
    it is then the current process of no other CPU, and ptable.lock is held
    exactly when one CPU is scanning the table. *)
Theorem scheduler_exclusive ncpu (x : X) (y : @sys X) :
  reachable ncpu x y ->
  (forall i, st (procs (sst y)) i = Some RUNNING <->
     exists c k, pcpus (sst y) !! c = Some k /\ c_proc k = Some i) /\
  (forall c c' k k' i, pcpus (sst y) !! c = Some k -> pcpus (sst y) !! c' = Some k' ->
     c_proc k = Some i -> c_proc k' = Some i -> c = c') /\
  (pt_lock (sst y) = true <-> exists c n, spc y !! c = Some (Scan n)) /\
  (forall c c' n n', spc y !! c = Some (Scan n) -> spc y !! c' = Some (Scan n') -> c = c').
Proof.
  intros Hr. pose proof (reachable_no_crit _ _ _ Hr) as Hnc.
  pose proof (pv_sched _ _ (reachable_inv _ _ _ Hr)) as HS.
  assert (Hcpu : forall c k, pcpus (sst y) !! c = Some k -> exists pc, spc y !! c = Some pc /\
    cpu_ok (pt_lock (sst y)) (procs (sst y)) pc k).
  { intros c k Hk. destruct (lookup_lt_is_Some_2 (spc y) c) as [pc Hpc].
    { rewrite (si_len _ _ _ _ HS). by eapply lookup_lt_Some. }
    exists pc. split; [done|]. by apply (si_cpu _ _ _ _ HS c). }
  split; [|split; [|split]].
  - intros i. split; [apply (si_run _ _ _ _ HS)|]. intros (c & k & Hk & Hi).
    destruct (Hcpu c k Hk) as (pc & Hpc & Hok). destruct pc; cbn in Hok; naive_solver congruence.
  - apply (si_inj _ _ _ _ HS).
  - split.
    + intros Hl. destruct (si_held _ _ _ _ HS Hl) as (c & pc & Hpc & Hh). exists c.
      destruct pc; try done; [by exists i|by destruct (Hnc c)].
    + intros (c & n & Hpc). by destruct (scan_cpu _ _ _ _ (reachable_inv _ _ _ Hr) Hpc) as (k & ? & ? & ? & ? & ?).
  - intros c c' n n' Hc Hc'. by eapply (si_lock _ _ _ _ HS).
Qed.

(** C5: In every reachable state every process except init has a parent that is
    itself in the table and has not exited, so that every zombie can still be
    reaped. As long as nextpid has not reached 2^31 - 1, after which nextpid++
    overflows, the pids of the processes in the table are positive and pairwise
    distinct. *)
Theorem process_tree ncpu (x : X) (y : @sys X) :
  (reachable ncpu x y -> forall i p, procs (sst y) !! i = Some p -> p_state p <> UNUSED -> p_state p <> EMBRYO ->
     initproc (sst y) = Some i \/ exists j, p_parent p = Some j /\ alive (st (procs (sst y)) j)) /\
  (reachable_nowrap ncpu x y ->
     (forall i p, procs (sst y) !! i = Some p -> p_state p <> UNUSED -> 1 <= p_pid p) /\
     (forall i j p q, procs (sst y) !! i = Some p -> procs (sst y) !! j = Some q ->
        p_state p <> UNUSED -> p_state q <> UNUSED -> p_pid p = p_pid q -> i = j)).
Proof.
  split.
  - intros Hr. pose proof (reachable_inv _ _ _ Hr) as [_ _ _ (_ & HF) _].
    intros i p Hp Hs Hs'. specialize (HF i p Hp). destruct (p_state p); naive_solver.
  - intros Hr. destruct (pv_pid _ _ (reachable_nowrap_inv _ _ _ Hr) I) as (_ & Hpid & Hu).
    split; [|done]. intros i p Hp Hs. by apply (Hpid i p).
Qed.

(** C3: wait and exit never miss each other: in every reachable state a process
    that is asleep in wait has no zombie child, whatever the order in which
    children exit, are handed to init, or are woken. *)
Theorem wait_exit_no_lost_wakeup ncpu (x : X) (y : @sys X) w :
  reachable ncpu x y -> waiting (procs (sst y)) w ->
  forall k q, procs (sst y) !! k = Some q -> p_parent q = Some w -> p_state q <> ZOMBIE.
Proof.
  intros Hr (p & Hp & Hs & Hc). apply (pv_wait _ _ (reachable_inv _ _ _ Hr) w w p Hp Hs Hc).
Qed.

(** The checks of sched, sleep and exit never fail: in a reachable state, an
    operation of a running process that panics does so for a reason outside
    the scheduler. *)
Theorem sched_checks_pass ncpu (x : X) (y : @sys X) c o msg s :
  reachable ncpu x y -> running c y = true -> op_ok o = true ->
  op_run c o (sst y) = Stop (Panicked msg) s -> msg ∉ proc_panics.
Proof.
  intros Hr Hrun Ho Hop Hm. pose proof (reachable_inv _ _ _ Hr) as HI.
  destruct (running_cur _ _ HI Hrun) as [i HO].
  destruct (wpe_Stop _ _ _ _ _ _ (wpe_op c i _ _ o HO Ho) Hop) as [[? _]|[_ Hq]]; [done|].
  by apply (Hq msg Hm).
Qed.

End reachable.

(** ** A concrete run

    Memory and files are a counter of pages handed out. *)

#[local] Instance toy : ProcEnv Z := {|
  forkret_addr := 1; trapret_addr := 2; initcode := [];
  e_kalloc := fun x => Ret (x + 4096) (x + 4096);
  e_kfree := fun _ => mret tt;
  e_setupkvm := fun x => Ret (x + 4096) (x + 4096);
  e_inituvm := fun _ _ => mret tt;
  e_allocuvm := fun _ _ n => mret n;
  e_deallocuvm := fun _ _ n => mret n;
  e_copyuvm := fun _ _ x => Ret (x + 4096) (x + 4096);
  e_freevm := fun _ => mret tt;
  e_switchuvm := fun _ _ => mret tt;
  e_switchkvm := mret tt;
  e_namei := fun _ => mret (Some 0%nat);
  e_filedup := fun f => mret f;
  e_fileclose := fun _ => mret tt;
  e_idup := fun i => mret i;
  e_iput := fun _ => mret tt;
  e_begin_op := mret tt;
  e_end_op := mret tt;
  e_iinit := fun _ => mret tt;
  e_initlog := fun _ => mret tt;
  e_cprintf := fun _ _ => mret tt;
  e_store32 := fun _ _ => mret tt;
  e_acquire := fun _ => mret tt;
  e_release := fun _ => mret tt
|}.

#[local] Instance toy_laws : ProcEnvLaws Z.
Proof. split; intros; intros ???; done. Qed.

Fixpoint run_labels (ls : list label) (y : @sys Z) : option sys :=
  match ls with
  | [] => Some y
  | l :: ls => y ← step_label l y; run_labels ls y
  end.

Lemma run_labels_reachable ls y y' : run_labels ls y = Some y' -> rtc kstep y y'.
Proof.
  revert y; induction ls as [|l ls IH]; intros y; cbn; [intros [= <-]; done|].
  intros (y1 & Hl & Hr)%bind_Some. eapply rtc_l; [by exists l|]. by apply IH.
Qed.

(** The same, with the counter of pids below its maximum at each step. *)
Fixpoint run_nowrap (ls : list label) (y : @sys Z) : option sys :=
  match ls with
  | [] => Some y
  | l :: ls => if nextpid (sst y) <? 2 ^ 31 - 1 then y ← step_label l y; run_nowrap ls y else None
  end.

Lemma run_nowrap_steps ls y y' : run_nowrap ls y = Some y' -> rtc kstep_nowrap y y' /\ run_labels ls y = Some y'.
Proof.
  revert y; induction ls as [|l ls IH]; intros y; cbn; [intros [= <-]; done|].
  destruct (Z.ltb_spec (nextpid (sst y)) (2 ^ 31 - 1)) as [Hn|]; [|done]. intros (y1 & Hl & Hr)%bind_Some.
  destruct (IH _ Hr) as [H1 H2]. rewrite Hl. split; [|exact H2]. eapply rtc_l; [|exact H1]. split; [by exists l|done].
Qed.

Definition demo_start : @sys Z :=
  match userinit 0 (boot 2 0) with
  | Ret _ s => Sys s (replicate 2 Idle) (replicate NPROC RForkret)
  | Stop _ s => Sys s [] []
  end.

Lemma demo_userinit : match userinit 0 (boot 2 0 : pstate Z) with Ret _ _ => true | Stop _ _ => false end = true.
Proof. vm_compute. reflexivity. Qed.

Lemma demo_started : started 2 0 demo_start.
Proof.
  pose proof demo_userinit as Hu. unfold started, demo_start.
  destruct (userinit 0 (boot 2 0)) as [[] s|]; [done|discriminate Hu].
Qed.

Lemma demo_reachable ls y : run_labels ls demo_start = Some y -> reachable 2 0 y.
Proof.
  intros Hr. exists demo_start. split; [exact demo_started|by apply (run_labels_reachable ls)].
Qed.

Definition demo_of (ls : list (@label Z)) : @sys Z := default demo_start (run_labels ls demo_start).

Lemma demo_of_reachable ls :
  match run_labels ls demo_start with Some _ => true | None => false end = true -> reachable 2 0 (demo_of ls).
Proof.
  intros Hb. apply (demo_reachable ls). unfold demo_of.
  destruct (run_labels ls demo_start); [done|discriminate Hb].
Qed.

(** init runs on CPU 0. *)
Definition init_labels : list (@label Z) := [LSched 0; LSched 0].

(** init forks twice and waits, while the first child runs on CPU 1. *)
Definition wait_labels : list (@label Z) :=
  init_labels ++ [LAlloc 0; LCopy 0; LAlloc 0; LCopy 0; LSched 1; LSched 1; LSched 1; LOp 0 OWait].

Lemma init_reachable : reachable 2 0 (demo_of init_labels).
Proof. apply demo_of_reachable. vm_compute. reflexivity. Qed.

Lemma wait_reachable : reachable 2 0 (demo_of wait_labels).
Proof. apply demo_of_reachable. vm_compute. reflexivity. Qed.

Lemma wait_nowrap : reachable_nowrap 2 0 (demo_of wait_labels).
Proof.
  exists demo_start. split; [exact demo_started|].
  assert (Hb : match run_nowrap wait_labels demo_start with Some _ => true | None => false end = true) by (vm_compute; reflexivity).
  destruct (run_nowrap wait_labels demo_start) as [y|] eqn:Hr; [|discriminate Hb].
  destruct (run_nowrap_steps _ _ _ Hr) as [H1 H2]. unfold demo_of. rewrite H2. exact H1.
Qed.

Lemma waiting_summary (ps : list proc) w :
  (fun p => (p_state p, p_chan p)) <$> ps !! w = Some (SLEEPING, Some (ch_proc w)) -> waiting ps w.
Proof. intros (p & Hp & [= Hs Hc])%fmap_Some. by exists p. Qed.

Lemma wait_waiting : waiting (procs (sst (demo_of wait_labels))) 0.
Proof. apply waiting_summary. vm_compute. reflexivity. Qed.

Lemma wait_running : st (procs (sst (demo_of wait_labels))) 1 = Some RUNNING.
Proof. vm_compute. reflexivity. Qed.

Lemma scheduler_exclusive_witness :
  reachable 2 0 (demo_of wait_labels) /\
  exists c k, pcpus (sst (demo_of wait_labels)) !! c = Some k /\ c_proc k = Some 1%nat.
Proof.
  split; [exact wait_reachable|].
  exact (proj1 (proj1 (scheduler_exclusive 2 0 _ wait_reachable) 1%nat) wait_running).
Defined.

Lemma process_tree_witness :
  reachable_nowrap 2 0 (demo_of wait_labels) /\
  forall i p, procs (sst (demo_of wait_labels)) !! i = Some p -> p_state p <> UNUSED -> 1 <= p_pid p.
Proof.
  split; [exact wait_nowrap|]. exact (proj1 (proj2 (process_tree 2 0 _) wait_nowrap)).
Defined.

Lemma wait_exit_no_lost_wakeup_witness :
  waiting (procs (sst (demo_of wait_labels))) 0 /\
  forall k q, procs (sst (demo_of wait_labels)) !! k = Some q -> p_parent q = Some 0%nat -> p_state q <> ZOMBIE.
Proof.
  split; [exact wait_waiting|]. exact (wait_exit_no_lost_wakeup 2 0 _ 0 wait_reachable wait_waiting).
Defined.

Lemma panics_summary {S A} (r : outcome S A) msg :
  match r with Stop (Panicked m) _ => Some m | _ => None end = Some msg ->
  exists s, r = Stop (Panicked msg) s.
Proof. destruct r as [|[] s]; try done. intros [= ->]. by exists s. Qed.

Lemma init_exit_panics :
  exists s, op_run 0 OExit (sst (demo_of init_labels)) = Stop (Panicked "init exiting") s.
Proof. apply panics_summary. vm_compute. reflexivity. Qed.

Lemma sched_checks_pass_witness : "init exiting"%string ∉ proc_panics.
Proof.
  destruct init_exit_panics as [s Hs].
  refine (sched_checks_pass 2 0 (demo_of init_labels) 0 OExit "init exiting" s init_reachable _ eq_refl Hs).
  vm_compute. reflexivity.
Defined.
