(* ===== verification/Syscall.v ===== *)
(** System calls: [syscall.c].

    What the kernel sees of the process that makes the call: its size, the
    bytes of its memory, the words of the trap frame that are used. A user
    pointer is an address in that memory, and an access outside of it is a
    wild pointer. A function that returns 0 and a value through a pointer
    returns [Some] of the value here, one that returns -1 [None]. *)

From S2P Require Import Prelude.

Open Scope Z_scope.

Record uproc := UProc {
  u_sz : Z;            (* curproc->sz *)
  u_mem : list Z;      (* the bytes of the address space *)
  u_esp : Z;           (* curproc->tf->esp *)
  u_eax : Z;           (* curproc->tf->eax *)
  u_pid : Z;           (* curproc->pid *)
  u_name : list Z;     (* curproc->name *)
  u_killed : bool      (* curproc->killed *)
}.

Definition set_u_mem v u := UProc (u_sz u) v (u_esp u) (u_eax u) (u_pid u) (u_name u) (u_killed u).
Definition set_u_eax v u := UProc (u_sz u) (u_mem u) (u_esp u) v (u_pid u) (u_name u) (u_killed u).

(** ** Memory of the process *)

Definition load8 (addr : Z) : M uproc Z :=
  u ← get; match u_mem u !! Z.to_nat addr with Some c => mret c | None => wild end.

(** [*(int* )addr] *)
Definition load32 (addr : Z) : M uproc Z :=
  u ← get;
  let bs := take 4 (drop (Z.to_nat addr) (u_mem u)) in
  if (length bs =? 4)%nat then mret (i32 (le_val bs)) else wild.

(** The [n] bytes from an address on. *)
Definition load (addr n : Z) : M uproc (list Z) :=
  u ← get;
  let bs := take (Z.to_nat n) (drop (Z.to_nat addr) (u_mem u)) in
  if (length bs =? Z.to_nat n)%nat then mret bs else wild.

(** Bytes are stored from an address on. *)
Definition store (addr : Z) (bs : list Z) : M uproc unit :=
  u ← get;
  let m := u_mem u in
  if (Z.to_nat addr + length bs <=? length m)%nat then
    put (set_u_mem (take (Z.to_nat addr) m ++ bs ++ drop (Z.to_nat addr + length bs) m) u)
  else wild.

(** ** Arguments *)

Definition fetchint (addr : Z) : M uproc (option Z) :=
  u ← get;
  if (u_sz u <=? addr) || (u_sz u <? u32 (addr + 4)) then mret None
  else
    v ← load32 addr;
    mret (Some v).

(** The loop of fetchstr, from [s] with [n] addresses to go. *)
Fixpoint fetchstr_loop (n : nat) (s : Z) : M uproc (option Z) :=
  match n with
  | O => mret None
  | S n =>
      c ← load8 s;
      if c =? 0 then mret (Some s) else fetchstr_loop n (s + 1)
  end.

(** The string's address and length. *)
Definition fetchstr (addr : Z) : M uproc (option (Z * Z)) :=
  u ← get;
  if u_sz u <=? addr then mret None
  else
    r ← fetchstr_loop (Z.to_nat (u_sz u - addr)) addr;
    match r with
    | Some s => mret (Some (addr, s - addr))
    | None => mret None
    end.

Definition argint (n : Z) : M uproc (option Z) :=
  u ← get;
  fetchint (u32 (u_esp u + 4 + 4 * n)).

Definition argptr (n size : Z) : M uproc (option Z) :=
  u ← get;
  i ← argint n;
  match i with
  | None => mret None
  | Some i =>
      if (size <? 0) || (u_sz u <=? u32 i) || (u_sz u <? u32 (u32 i + size)) then mret None
      else mret (Some (u32 i))
  end.

Definition argstr (n : Z) : M uproc (option (Z * Z)) :=
  addr ← argint n;
  match addr with
  | None => mret None
  | Some addr => fetchstr (u32 addr)
  end.

(** ** The table of system calls *)

Inductive sysname :=
  | sys_fork | sys_exit | sys_wait | sys_pipe | sys_read | sys_kill | sys_exec | sys_fstat
  | sys_chdir | sys_dup | sys_getpid | sys_sbrk | sys_sleep | sys_uptime | sys_open | sys_write
  | sys_mknod | sys_unlink | sys_link | sys_mkdir | sys_close
  | sys_uniq_kernel | sys_head_kernel | sys_new_wait.

(** Entry 0 is a null pointer. *)
Definition syscalls : list (option sysname) :=
  None :: (Some <$>
    [sys_fork; sys_exit; sys_wait; sys_pipe; sys_read; sys_kill; sys_exec; sys_fstat;
     sys_chdir; sys_dup; sys_getpid; sys_sbrk; sys_sleep; sys_uptime; sys_open; sys_write;
     sys_mknod; sys_unlink; sys_link; sys_mkdir; sys_close;
     sys_uniq_kernel; sys_head_kernel; sys_new_wait]).

Section dispatch.
Context {S : Type} (up : lens S uproc).
Context (cprintf : string -> list parg -> M S unit).

(** The functions of the table, over a state that has the process in it. *)
Context (handler : sysname -> M S Z).

Definition syscall : M S unit :=
  u ← gets (view up);
  let num := i32 (u_eax u) in
  match (if (0 <? num) && (num <? Z.of_nat (length syscalls)) then mjoin (syscalls !! Z.to_nat num) else None) with
  | Some f =>
      r ← handler f;
      zoom up (modify (set_u_eax (u32 r)))
  | None =>
      cprintf ("%d %s: unknown sys call %d" ++ nl) [PInt (u_pid u); PStr (u_name u); PInt num] ;;
      zoom up (modify (set_u_eax (u32 (-1))))
  end.

End dispatch.

(** ** Checked pointers *)

(** The memory is the [u_sz] bytes from 0 on, below the kernel. *)
Record uproc_ok (u : uproc) : Prop := {
  uo_mem : Z.of_nat (length (u_mem u)) = u_sz u;
  uo_user : u_sz u <= 2 ^ 31;
  uo_bytes : Forall in_u8 (u_mem u)
}.

(** The word at an address, when all four bytes belong to the process. *)
Definition user_word (u : uproc) (a : Z) : option Z :=
  if a + 4 <=? u_sz u then Some (le_val (take 4 (drop (Z.to_nat a) (u_mem u)))) else None.

(** The word of argument [n]. *)
Definition arg_word (u : uproc) (n : Z) : option Z := user_word u (u32 (u_esp u + 4 + 4 * n)).

Lemma user_word_range u a p : uproc_ok u -> user_word u a = Some p -> in_u32 p.
Proof.
  intros Hok. unfold user_word. case_match; [|done]. intros [= <-].
  pose proof (uo_bytes u Hok) as Hb. unfold in_u32.
  pose proof (le_val_range (take 4 (drop (Z.to_nat a) (u_mem u)))) as Hr.
  destruct Hr as [H1 H2]; [by apply Forall_take, Forall_drop|]. split; [done|].
  eapply Z.lt_le_trans; [apply H2|]. apply Z.pow_le_mono_r; [lia|]. rewrite length_take. lia.
Qed.

Lemma arg_word_range u n p : uproc_ok u -> arg_word u n = Some p -> in_u32 p.
Proof. intros Hok. by apply user_word_range. Qed.

Lemma fetchint_spec u a : uproc_ok u -> in_u32 a -> fetchint a u = Ret (i32 <$> user_word u a) u.
Proof.
  intros Hok Ha. destruct Hok as [Hm Hu Hb]. unfold fetchint, user_word. mred. unfold in_u32 in Ha.
  destruct (Z.leb_spec (a + 4) (u_sz u)).
  - rewrite (u32_small (a + 4)) by (unfold in_u32; lia).
    destruct (Z.leb_spec (u_sz u) a); [lia|]. destruct (Z.ltb_spec (u_sz u) (a + 4)); [lia|]. cbn [orb]. mred.
    unfold load32. mred. rewrite length_take, length_drop.
    destruct (Nat.eqb_spec (4 `min` (length (u_mem u) - Z.to_nat a)) 4); [done|lia].
  - destruct (Z.leb_spec (u_sz u) a); [done|]. rewrite (u32_small (a + 4)) by (unfold in_u32; lia).
    destruct (Z.ltb_spec (u_sz u) (a + 4)); [done|lia].
Qed.

Lemma argint_spec u n : uproc_ok u -> argint n u = Ret (i32 <$> arg_word u n) u.
Proof. intros Hok. unfold argint. mred. apply fetchint_spec; [done|]. apply u32_range. Qed.

Lemma fetchstr_loop_spec u n s : 0 <= s -> Z.of_nat (length (u_mem u)) = s + Z.of_nat n ->
  fetchstr_loop n s u = Ret ((fun k => s + Z.of_nat k) <$> find_index (fun c => c =? 0) (drop (Z.to_nat s) (u_mem u))) u.
Proof.
  revert s. induction n as [|n IH]; intros s Hs Hl; cbn [fetchstr_loop].
  - rewrite drop_ge by lia. done.
  - destruct (lookup_lt_is_Some_2 (u_mem u) (Z.to_nat s)) as [c Hc]; [lia|].
    mred. unfold load8. mred. rewrite Hc. mred. rewrite (drop_S _ _ _ Hc). cbn [find_index].
    destruct (c =? 0); [cbn; do 2 f_equal; lia|]. rewrite IH by lia.
    replace (Z.to_nat (s + 1)) with (S (Z.to_nat s)) by lia.
    destruct (find_index _ _); cbn; [|done]. do 2 f_equal. lia.
Qed.

(** The string at an address: where it is, and how many bytes come before
    its terminator. *)
Definition str_at (u : uproc) (p : Z) : option (Z * Z) :=
  if p <? u_sz u then (fun k => (p, Z.of_nat k)) <$> find_index (fun c => c =? 0) (drop (Z.to_nat p) (u_mem u)) else None.

Lemma str_at_Some u p q len : uproc_ok u -> 0 <= p ->
  str_at u p = Some (q, len) <-> q = p /\ 0 <= len /\ 0 <= p < u_sz u /\
    u_mem u !! Z.to_nat (p + len) = Some 0 /\ forall i, p <= i < p + len -> u_mem u !! Z.to_nat i <> Some 0.
Proof.
  intros [Hm _ _] Hp. unfold str_at. destruct (Z.ltb_spec p (u_sz u)); [|split; [done|lia]].
  rewrite fmap_Some. split.
  - intros (k & ((x & Hx & Px) & Hlt)%find_index_Some & [= -> ->]). rewrite lookup_drop in Hx. apply Z.eqb_eq in Px as ->.
    split_and!; [lia..| |].
    + rewrite <- Hx. f_equal. lia.
    + intros i Hi H0. specialize (Hlt (Z.to_nat (i - p)) 0). rewrite lookup_drop in Hlt.
      replace (Z.to_nat p + Z.to_nat (i - p))%nat with (Z.to_nat i) in Hlt by lia. by specialize (Hlt ltac:(lia) H0).
  - intros (-> & Hl & _ & H0 & Hn). exists (Z.to_nat len). split; [|f_equal; f_equal; lia].
    apply find_index_Some. split.
    + exists 0. split; [|done]. rewrite lookup_drop, <- H0. f_equal. lia.
    + intros j x Hj. rewrite lookup_drop. intros Hx. apply Z.eqb_neq. intros ->.
      apply (Hn (p + Z.of_nat j)); [lia|]. rewrite <- Hx. f_equal. lia.
Qed.

Lemma fetchstr_spec u p : uproc_ok u -> 0 <= p -> fetchstr p u = Ret (str_at u p) u.
Proof.
  intros [Hm Hu Hb] Hp. unfold fetchstr, str_at. mred.
  destruct (Z.leb_spec (u_sz u) p); destruct (Z.ltb_spec p (u_sz u)); try lia; [done|].
  mred. rewrite fetchstr_loop_spec by lia. mred. destruct (find_index _ _); cbn; [|done]. do 3 f_equal. lia.
Qed.

Lemma argptr_spec u n size : uproc_ok u -> size < 2 ^ 31 ->
  argptr n size u = Ret (p ← arg_word u n;
                         if (0 <=? size) && (p <? u_sz u) && (p + size <=? u_sz u) then Some p else None) u.
Proof.
  intros Hok Hs. unfold argptr. mred. rewrite argint_spec by done. destruct (arg_word u n) as [p|] eqn:Hw; [|done]. mred.
  change (i32 <$> Some p) with (Some (i32 p)). mred.
  pose proof (arg_word_range u n p Hok Hw) as Hp.
  rewrite u32_i32, (u32_small p) by done. unfold in_u32 in Hp. destruct Hok as [Hm Hu _].
  destruct (Z.ltb_spec size 0), (Z.leb_spec 0 size); try lia; [done|]. cbn [option_bind orb andb].
  destruct (Z.leb_spec (u_sz u) p), (Z.ltb_spec p (u_sz u)); try lia; [done|]. cbn [orb andb].
  rewrite (u32_small (p + size)) by (unfold in_u32; lia).
  destruct (Z.ltb_spec (u_sz u) (p + size)), (Z.leb_spec (p + size) (u_sz u)); try lia; done.
Qed.

Lemma argstr_spec u n : uproc_ok u -> argstr n u = Ret (p ← arg_word u n; str_at u p) u.
Proof.
  intros Hok. unfold argstr. mred. rewrite argint_spec by done. destruct (arg_word u n) as [p|] eqn:Hw; [|done]. mred.
  change (i32 <$> Some p) with (Some (i32 p)). mred.
  pose proof (arg_word_range u n p Hok Hw) as Hp.
  rewrite u32_i32, (u32_small p) by done. apply fetchstr_spec; [done|]. apply Hp.
Qed.

(** C10: System call arguments are checked: argptr and argstr always return,
    without touching memory outside of the process and without changing it.
    argptr returns a pointer exactly when the argument word belongs to the
    process, and all the bytes it covers belong to the process as well; there
    is no overflow by which it could reach the kernel. argstr returns a
    pointer exactly when a string starts there whose terminator belongs to the
    process, and its length. *)
Theorem arguments_checked u n size :
  uproc_ok u -> in_i32 size ->
  wp (argptr n size) u (fun r u' => u' = u /\
    forall p, r = Some p <-> arg_word u n = Some p /\ 0 <= p < u_sz u /\ 0 <= size /\ p + size <= u_sz u) /\
  wp (argstr n) u (fun r u' => u' = u /\
    forall p len, r = Some (p, len) <-> arg_word u n = Some p /\ 0 <= len /\ 0 <= p < u_sz u /\
      u_mem u !! Z.to_nat (p + len) = Some 0 /\ forall i, p <= i < p + len -> u_mem u !! Z.to_nat i <> Some 0).
Proof.
  intros Hok [_ Hs]. unfold wp, wpe. rewrite argptr_spec, argstr_spec by done. split; (split; [done|]).
  - intros p. rewrite bind_Some. split.
    + intros (q & Hq & Hif). pose proof (arg_word_range u n q Hok Hq) as [? _].
      destruct (Z.leb_spec 0 size), (Z.ltb_spec q (u_sz u)), (Z.leb_spec (q + size) (u_sz u)); cbn in Hif; simplify_eq; done.
    + intros (Hq & Hp & Hz & Hl). exists p. split; [done|].
      destruct (Z.leb_spec 0 size), (Z.ltb_spec p (u_sz u)), (Z.leb_spec (p + size) (u_sz u)); try lia; done.
  - intros p len. rewrite bind_Some. split.
    + intros (q & Hq & Hstr). pose proof (arg_word_range u n q Hok Hq) as [? _].
      apply str_at_Some in Hstr as (-> & Hl & H1 & H2); done.
    + intros (Hq & Hl & Hp & Hstr). exists p. split; [done|]. apply str_at_Some; [done|lia|done].
Qed.

(** A process of 64 bytes: the first argument is the address 40, at which
    there is the string of two letters. *)
Definition demo_uproc : uproc :=
  UProc 64 (replicate 20 7 ++ [40; 0; 0; 0] ++ replicate 16 7 ++ [104; 105; 0] ++ replicate 21 7) 16 0 3 [] false.

Lemma demo_uproc_ok : uproc_ok demo_uproc.
Proof. split; [done|done|]. apply Forall_forall. intros x Hx. vm_compute in Hx. unfold in_u8. repeat (apply elem_of_cons in Hx as [->|Hx]; [lia|]). set_solver. Qed.

Lemma arguments_checked_witness :
  wp (argptr 0 24) demo_uproc (fun r u' => r = Some 40 /\ u' = demo_uproc) /\
  wp (argptr 0 25) demo_uproc (fun r u' => r <> Some 40) /\
  wp (argstr 0) demo_uproc (fun r u' => r = Some (40, 2)).
Proof.
  split_and!.
  - eapply wp_mono; [|refine (proj1 (arguments_checked demo_uproc 0 24 demo_uproc_ok _)); done].
    cbv beta. intros r u' [-> Hr]. split; [apply Hr; vm_compute; done|done].
  - eapply wp_mono; [|refine (proj1 (arguments_checked demo_uproc 0 25 demo_uproc_ok _)); done].
    cbv beta. intros r u' [-> Hr] Hp. apply Hr in Hp. vm_compute in Hp. destruct Hp as (_ & _ & _ & Hp). by apply Hp.
  - eapply wp_mono; [|refine (proj2 (arguments_checked demo_uproc 0 24 demo_uproc_ok _)); done].
    cbv beta. intros r u' [-> Hr]. apply Hr. split_and!; [done..|].
    intros i Hi. assert (i = 40 \/ i = 41) as [-> | ->] by lia; done.
Defined.
