(* ===== verification/Ports.v ===== *)
(** The I/O ports: inb, outb, insl and outsl of [x86.h].

    What is behind a port is hardware: the instructions are operations on the
    state [D] of the devices. *)

From S2P Require Import Prelude.

Open Scope Z_scope.

Class Ports (D : Type) := {
  inb : Z -> M D Z;
  outb : Z -> Z -> M D unit;
  insl : Z -> Z -> M D (list Z);        (* port, words; the bytes *)
  outsl : Z -> list Z -> M D unit       (* port, the bytes *)
}.

(** A device answers with bytes, and never stops the processor. *)
Class PortsOk (D : Type) `{Ports D} := {
  inb_byte : forall p d, wp (inb p) d (fun v _ => in_u8 v);
  outb_ok : forall p v d, wp (outb p v) d (fun _ _ => True)
}.

(** Devices whose registers are words of the physical memory. *)
Class Mmio (D : Type) := {
  mmio_read : Z -> M D Z;
  mmio_write : Z -> Z -> M D unit
}.

(** ** traps.h: the vectors and the interrupt lines *)

Definition T_SYSCALL : Z := 64.
Definition T_IRQ0 : Z := 32.
Definition IRQ_TIMER : Z := 0.
Definition IRQ_KBD : Z := 1.
Definition IRQ_COM1 : Z := 4.
Definition IRQ_IDE : Z := 14.
Definition IRQ_ERROR : Z := 19.
Definition IRQ_SPURIOUS : Z := 31.
