(* ===== verification/Trap.v ===== *)
(** Traps and interrupts: [trap.c].

    The trap frame is that of [Proc]; the CPU is an argument, as there. The
    interrupt handlers of the devices are an interface, and so is the
    dispatch of a system call, which may do anything. A trap that gives up
    the CPU ends with [Switched]; what follows when the scheduler switches
    back is [trap_resume]. *)

From S2P Require Import Prelude Mem Mmu Spinlock Ports Proc.

Open Scope Z_scope.

(** ** The interrupt descriptor table *)

Definition tvinit (vectors : list Z) (idt : list gatedesc) : list gatedesc :=
  let idt := foldl (fun t i => <[i := SETGATE false (Z.shiftl SEG_KCODE 3) (default 0 (vectors !! i)) 0]> t) idt (seq 0 256) in
  <[Z.to_nat T_SYSCALL := SETGATE true (Z.shiftl SEG_KCODE 3) (default 0 (vectors !! Z.to_nat T_SYSCALL)) DPL_USER]> idt.

(** ** trap *)

Class TrapEnv (X : Type) `{ProcEnv X} := {
  tickslock : nat;                 (* the lock, as for sleep *)
  e_ideintr : M X unit;
  e_kbdintr : M X unit;
  e_uartintr : M X unit;
  e_lapiceoi : M X unit;
  e_rcr2 : M X Z
}.

Section trap.
Context {X : Type} {E : ProcEnv X} {T : TrapEnv X}.
(** syscall(), on CPU [c]. *)
Variable syscall : nat -> M (pstate X) unit.

(** myproc() *)
Definition myproc (c : nat) : M (pstate X) (option nat) :=
  k ← cpu_at c; mret (c_proc k).

(** myproc() && myproc()->killed *)
Definition is_killed (c : nat) : M (pstate X) bool :=
  o ← myproc c;
  match o with
  | None => mret false
  | Some i => p ← proc_at i; mret (negb (p_killed p =? 0))
  end.

(** myproc() && myproc()->state == RUNNING *)
Definition is_running (c : nat) : M (pstate X) bool :=
  o ← myproc c;
  match o with
  | None => mret false
  | Some i => p ← proc_at i; mret (bool_decide (p_state p = RUNNING))
  end.

Definition from_user (tf : trapframe) : bool := Z.land (tf_cs tf) 3 =? DPL_USER.

(** The timer interrupt. *)
Definition trap_timer (c : nat) : M (pstate X) unit :=
  (if (c =? 0)%nat then
     call (e_acquire tickslock) ;;
     modify (fun s => set_ticks (u32 (ticks s + 1)) s) ;;
     wakeup c ch_ticks ;;
     call (e_release tickslock) ;;
     r ← is_running c;
     when r (i ← curproc c; upd_proc i (fun p => set_p_ctime (u32 (p_ctime p + 1)) p))
   else mret tt) ;;
  call e_lapiceoi.

(** In the kernel, it must be our mistake. *)
Definition unexpected_trap (c : nat) (tf : trapframe) : M (pstate X) unit :=
  cr2 ← call e_rcr2;
  call (e_cprintf ("unexpected trap %d from cpu %d eip %x (cr2=0x%x)" ++ nl)
          [PInt (i32 (tf_trapno tf)); PInt (Z.of_nat c); PPtr (tf_eip tf); PPtr cr2]) ;;
  panic "trap".

(** The default case of the switch. *)
Definition trap_fault (c : nat) (tf : trapframe) : M (pstate X) unit :=
  o ← myproc c;
  match o with
  | None => unexpected_trap c tf
  | Some i =>
      if Z.land (tf_cs tf) 3 =? 0 then unexpected_trap c tf
      else
        p ← proc_at i;
        cr2 ← call e_rcr2;
        call (e_cprintf ("pid %d %s: trap %d err %d on cpu %d eip 0x%x addr 0x%x--kill proc" ++ nl)
                [PInt (p_pid p); PStr (until_zero (p_name p)); PInt (i32 (tf_trapno tf)); PInt (i32 (tf_err tf));
                 PInt (Z.of_nat c); PPtr (tf_eip tf); PPtr cr2]) ;;
        upd_proc i (set_p_killed 1)
  end.

(** The switch over the trap number. *)
Definition trap_switch (c : nat) (tf : trapframe) : M (pstate X) unit :=
  let n := tf_trapno tf in
  if n =? T_IRQ0 + IRQ_TIMER then trap_timer c
  else if n =? T_IRQ0 + IRQ_IDE then call e_ideintr ;; call e_lapiceoi
  else if n =? T_IRQ0 + IRQ_IDE + 1 then mret tt
  else if n =? T_IRQ0 + IRQ_KBD then call e_kbdintr ;; call e_lapiceoi
  else if n =? T_IRQ0 + IRQ_COM1 then call e_uartintr ;; call e_lapiceoi
  else if (n =? T_IRQ0 + 7) || (n =? T_IRQ0 + IRQ_SPURIOUS) then
    call (e_cprintf ("cpu%d: spurious interrupt at %x:%x" ++ nl)
            [PInt (Z.of_nat c); PPtr (tf_cs tf); PPtr (tf_eip tf)]) ;;
    call e_lapiceoi
  else trap_fault c tf.

(** exit() if the process was killed and is in user space. *)
Definition exit_killed (c : nat) (tf : trapframe) : M (pstate X) unit :=
  k ← is_killed c;
  when (k && from_user tf) (exit c).

(** The trap frame [tf] is at the address [a]. *)
Definition trap (c : nat) (a : Z) (tf : trapframe) : M (pstate X) unit :=
  if tf_trapno tf =? T_SYSCALL then
    i ← curproc c;
    p ← proc_at i;
    when (negb (p_killed p =? 0)) (exit c) ;;
    upd_proc i (set_p_tf a) ;;
    syscall c ;;
    i ← curproc c;
    p ← proc_at i;
    when (negb (p_killed p =? 0)) (exit c)
  else
    trap_switch c tf ;;
    exit_killed c tf ;;
    r ← is_running c;
    when (r && (tf_trapno tf =? T_IRQ0 + IRQ_TIMER)) (yield c) ;;
    exit_killed c tf.

(** trap after the scheduler has switched back to the process that yielded. *)
Definition trap_resume (c : nat) (intena : Z) (tf : trapframe) : M (pstate X) unit :=
  yield_resume c intena ;;
  exit_killed c tf.

End trap.

(** ** The table *)

(** After tvinit every vector enters the kernel at its own address with
    interrupts off, and only the system call is open to user programs, with
    interrupts on. *)
Theorem tvinit_gates vectors idt n :
  length idt = 256%nat -> length vectors = 256%nat -> Forall in_u32 vectors -> (n < 256)%nat ->
  exists g, tvinit vectors idt !! n = Some g /\
    Some (gate_offset g) = vectors !! n /\ gd_p g = 1 /\ gd_cs g = Z.shiftl SEG_KCODE 3 /\
    (gd_dpl g = DPL_USER <-> Z.of_nat n = T_SYSCALL) /\ (gd_type g = STS_TG32 <-> Z.of_nat n = T_SYSCALL).
Proof.
  intros Hi Hv Hw Hn. set (gate i := SETGATE false (Z.shiftl SEG_KCODE 3) (default 0 (vectors !! i)) 0).
  assert (Hloop : forall m, (m <= 256)%nat -> forall j, (j < 256)%nat ->
    length (foldl (fun t i => <[i := gate i]> t) idt (seq 0 m)) = 256%nat /\
    ((j < m)%nat -> foldl (fun t i => <[i := gate i]> t) idt (seq 0 m) !! j = Some (gate j))).
  { induction m as [|m IH]; intros Hm j Hj; [cbn; split; [done|lia]|]. rewrite seq_S, foldl_app. cbn [foldl Nat.add].
    destruct (IH ltac:(lia) j Hj) as [Hl Hlk]. split; [by rewrite length_insert|]. intros Hjm.
    destruct (decide (j = m)) as [->|]; [apply list_lookup_insert_eq; lia|].
    rewrite list_lookup_insert_ne by done. apply Hlk. lia. }
  destruct (Hloop 256%nat ltac:(lia) n Hn) as [Hl Hlk]. specialize (Hlk Hn).
  destruct (lookup_lt_is_Some_2 vectors n ltac:(lia)) as [v Hvn].
  assert (in_u32 v) by (rewrite Forall_forall in Hw; apply Hw; by eapply list_elem_of_lookup_2).
  unfold tvinit. set (t := foldl _ idt (seq 0 256)). change (length t = 256%nat) in Hl. change (t !! n = Some (gate n)) in Hlk.
  destruct (decide (n = Z.to_nat T_SYSCALL)) as [->|Hne].
  - eexists. split; [apply list_lookup_insert_eq; rewrite Hl; done|]. rewrite Hvn. cbn [default]. rewrite gate_offset_SETGATE by done.
    done.
  - eexists. split; [rewrite list_lookup_insert_ne; [exact Hlk|done]|]. unfold gate. rewrite Hvn. cbn [default].
    rewrite gate_offset_SETGATE by done. unfold T_SYSCALL in *. split_and!; try done; split; try done; lia.
Qed.

(** ** Going back to user space *)

Section user_return.
Context {X : Type} {E : ProcEnv X} {T : TrapEnv X} (syscall : nat -> M (pstate X) unit).
Implicit Types s : pstate X.

(** The process on CPU [c], if there is one, was not killed. *)
Definition not_killed (c : nat) s : Prop :=
  forall k i p, pcpus s !! c = Some k -> c_proc k = Some i -> procs s !! i = Some p -> p_killed p = 0.

Notation any := (fun _ _ => True).

Lemma wpe_any {A B} (m : M (pstate X) A) (k : A -> M (pstate X) B) s (Q : B -> pstate X -> Prop) :
  (forall a s', wpe (k a) s' Q any) -> wpe (m ≫= k) s Q any.
Proof. intros H. apply wpe_bind. unfold wpe at 1. by destruct (m s). Qed.

(** sched either switches or panics. *)
Lemma sched_stops c s (Q : unit -> pstate X -> Prop) : wpe (sched c) s Q any.
Proof.
  unfold sched. do 3 (apply wpe_any; intros ? ?). apply wpe_bind, wpe_get. repeat case_match; done.
Qed.

Lemma exit_stops c s (Q : unit -> pstate X -> Prop) : wpe (exit c) s Q any.
Proof.
  unfold exit. apply wpe_any. intros cur s1. apply wpe_bind, wpe_get. case_match; [done|].
  do 2 (apply wpe_any; intros ? ?). apply wpe_any. intros p s2. destruct (p_cwd p); [|done].
  do 3 (apply wpe_any; intros ? ?). unfold exit_final. do 8 (apply wpe_any; intros ? ?). done.
Qed.

Lemma yield_stops c s (Q : unit -> pstate X -> Prop) : wpe (yield c) s Q any.
Proof. unfold yield. do 3 (apply wpe_any; intros ? ?). apply sched_stops. Qed.

Lemma wpe_at_cpu c s (Q : pcpu -> pstate X -> Prop) :
  (forall k, pcpus s !! c = Some k -> Q k s) -> wpe (cpu_at c) s Q any.
Proof. intros H. unfold cpu_at. apply wpe_bind, wpe_get. destruct (pcpus s !! c); [by apply H|done]. Qed.

Lemma wpe_at_proc i s (Q : proc -> pstate X -> Prop) :
  (forall p, procs s !! i = Some p -> Q p s) -> wpe (proc_at i) s Q any.
Proof. intros H. unfold proc_at. apply wpe_bind, wpe_get. destruct (procs s !! i); [by apply H|done]. Qed.

Lemma not_killed_at c s k i p :
  pcpus s !! c = Some k -> c_proc k = Some i -> procs s !! i = Some p -> p_killed p = 0 -> not_killed c s.
Proof. intros Hk Hi Hp H0 k' i' p' Hk' Hi' Hp'. congruence. Qed.

Lemma is_killed_spec c s : wpe (is_killed c) s (fun b s' => s' = s /\ (b = false -> not_killed c s)) any.
Proof.
  unfold is_killed, myproc. apply wpe_bind, wpe_bind, wpe_at_cpu. intros k Hk. apply wpe_ret.
  destruct (c_proc k) as [i|] eqn:Hi.
  - apply wpe_bind, wpe_at_proc. intros p Hp. apply wpe_ret. split; [done|]. rewrite negb_false_iff, Z.eqb_eq.
    by apply (not_killed_at c s k i p).
  - apply wpe_ret. split; [done|]. intros _ k' i' p' Hk' Hi' Hp'. congruence.
Qed.

(** The last thing that trap does. *)
Lemma exit_killed_spec c tf s :
  from_user tf = true -> wpe (exit_killed c tf) s (fun _ s' => not_killed c s') any.
Proof.
  intros Hu. unfold exit_killed. rewrite Hu. apply wpe_bind. eapply wpe_mono; [|done|apply is_killed_spec].
  intros [] s' [-> H]; cbn [andb when]; [apply exit_stops|]. by apply wpe_ret, H.
Qed.

Lemma syscall_end_spec c s :
  wpe (i ← curproc c; p ← proc_at i; when (negb (p_killed p =? 0)) (exit c)) s (fun _ s' => not_killed c s') any.
Proof.
  unfold curproc. apply wpe_bind, wpe_bind, wpe_at_cpu. intros k Hk. destruct (c_proc k) as [i|] eqn:Hi; [|done].
  apply wpe_ret, wpe_bind, wpe_at_proc. intros p Hp.
  destruct (Z.eqb_spec (p_killed p) 0) as [H0|H0]; cbn [negb when]; [|apply exit_stops].
  apply wpe_ret. by apply (not_killed_at c s k i p).
Qed.

(** The trap numbers that are not faults. *)
Definition is_irq (n : Z) : bool :=
  bool_decide (n ∈ [T_IRQ0 + IRQ_TIMER; T_IRQ0 + IRQ_IDE; T_IRQ0 + IRQ_IDE + 1; T_IRQ0 + IRQ_KBD; T_IRQ0 + IRQ_COM1;
                    T_IRQ0 + 7; T_IRQ0 + IRQ_SPURIOUS]).

Lemma trap_switch_fault c tf s : is_irq (tf_trapno tf) = false -> trap_switch c tf s = trap_fault c tf s.
Proof.
  unfold is_irq. rewrite bool_decide_eq_false, !elem_of_cons. intros H. unfold trap_switch.
  by rewrite !(proj2 (Z.eqb_neq (tf_trapno tf) _)) by naive_solver.
Qed.

(** A fault in user space marks the process; trap then ends it. *)
Lemma trap_fault_kills c tf s :
  from_user tf = true -> wpe (trap_fault c tf) s (fun _ s' =>
    exists k i, pcpus s' !! c = Some k /\ c_proc k = Some i /\ forall p, procs s' !! i = Some p -> p_killed p = 1) any.
Proof.
  intros Hu. unfold trap_fault, myproc. apply wpe_bind, wpe_bind, wpe_at_cpu. intros k Hk. apply wpe_ret.
  assert (Z.land (tf_cs tf) 3 =? 0 = false) as -> by (unfold from_user in Hu; apply Z.eqb_eq in Hu as ->; done).
  destruct (c_proc k) as [i|] eqn:Hi.
  2:{ unfold unexpected_trap. by do 2 (apply wpe_any; intros ? ?). }
  apply wpe_bind, wpe_at_proc. intros p Hp.
  assert (Hcall : forall A (m : M X A) s0 (Q : A -> pstate X -> Prop),
    (forall a x, Q a (set_env x s0)) -> wpe (call m) s0 Q any).
  { intros A m s0 Q HQ. unfold wpe, call, zoom. cbn. destruct (m (env s0)); [apply HQ|done]. }
  apply wpe_bind, Hcall. intros cr2 x1. apply wpe_bind, Hcall. intros [] x2. apply wpe_modify.
  exists k, i. split; [done|]. split; [done|]. intros q. cbn. rewrite list_lookup_alter_eq. destruct (procs s !! i); [|done].
  cbn. by intros [= <-].
Qed.

Lemma killed_exits c tf s (Q : unit -> pstate X -> Prop) k i :
  from_user tf = true -> pcpus s !! c = Some k -> c_proc k = Some i ->
  (forall p, procs s !! i = Some p -> p_killed p = 1) -> wpe (exit_killed c tf) s Q any.
Proof.
  intros Hu Hk Hi Hp. unfold exit_killed, is_killed, myproc. rewrite Hu. apply wpe_bind, wpe_bind, wpe_bind, wpe_at_cpu.
  intros k' Hk'. assert (k' = k) as -> by congruence. apply wpe_ret. rewrite Hi. apply wpe_bind, wpe_at_proc.
  intros p Hpi. apply wpe_ret. rewrite (Hp p Hpi). apply exit_stops.
Qed.

(** C11: a killed process does not get back to user space, and neither does
    one that faults. When trap returns to a program, from a system call
    (whatever the call did), an interrupt, or a clock tick after which the
    process had given up the CPU, its process is not marked as killed, and
    what brought it into the kernel was a system call or an interrupt and
    not a fault. *)
Theorem trap_user_return c a tf s :
  from_user tf = true ->
  (forall s', trap syscall c a tf s = Ret tt s' ->
     not_killed c s' /\ (tf_trapno tf = T_SYSCALL \/ is_irq (tf_trapno tf) = true)) /\
  (forall intena s', trap_resume c intena tf s = Ret tt s' -> not_killed c s').
Proof.
  intros Hu. split.
  - intros s' Hr. split.
    + eapply (wpe_Ret _ _ _ _ (fun _ s' => not_killed c s') any); [|exact Hr]. unfold trap. case_match.
      * do 5 (apply wpe_any; intros ? ?). apply syscall_end_spec.
      * do 4 (apply wpe_any; intros ? ?). by apply exit_killed_spec.
    + destruct (Z.eqb_spec (tf_trapno tf) T_SYSCALL) as [?|Hn]; [by left|right].
      destruct (is_irq (tf_trapno tf)) eqn:Hirq; [done|exfalso].
      eapply (wpe_Ret _ _ _ _ (fun _ _ => False) any); [|exact Hr]. unfold trap. rewrite (proj2 (Z.eqb_neq _ _) Hn).
      apply wpe_bind. unfold wpe at 1. rewrite trap_switch_fault by done.
      pose proof (trap_fault_kills c tf s Hu) as Hf. unfold wpe in Hf. destruct (trap_fault c tf s) as [[] s1|]; [|done].
      destruct Hf as (k & i & Hk & Hi & Hp). apply wpe_bind. by eapply killed_exits.
  - intros n s' Hr. eapply (wpe_Ret _ _ _ _ (fun _ s' => not_killed c s') any); [|exact Hr]. unfold trap_resume.
    apply wpe_any. intros ? ?. by apply exit_killed_spec.
Qed.

End user_return.
