(* ===== verification/Asm.v ===== *)
(** The assembly code between processes and between user and kernel:
    [swtch.S], [trapasm.S], the entry points that [vectors.pl] generates, the
    stubs of [usys.S] and the first program, [initcode.S].

    An instruction is an operation on the registers and the memory of a CPU.
    Addresses are virtual addresses of the kernel, or of the program. What the
    processor does at an interrupt and at iret is [int_entry] and [iret]. A C
    function that the code calls is a parameter. Loading a segment register
    never faults. *)

From S2P Require Import Prelude Mem Mmu Spinlock Proc Ports.

Open Scope Z_scope.

(** ** Registers and instructions *)

Inductive reg := EAX | ECX | EDX | EBX | ESP | EBP | ESI | EDI | CS | DS | ES | FS | GS | SS | EIP | EFLAGS.

Record regs := Regs {
  v_eax : Z;
  v_ecx : Z;
  v_edx : Z;
  v_ebx : Z;
  v_esp : Z;
  v_ebp : Z;
  v_esi : Z;
  v_edi : Z;
  v_cs : Z;
  v_ds : Z;
  v_es : Z;
  v_fs : Z;
  v_gs : Z;
  v_ss : Z;
  v_eip : Z;
  v_eflags : Z
}.

Definition getr (r : reg) (R : regs) : Z :=
  match r with
  | EAX => v_eax R | ECX => v_ecx R | EDX => v_edx R | EBX => v_ebx R
  | ESP => v_esp R | EBP => v_ebp R | ESI => v_esi R | EDI => v_edi R
  | CS => v_cs R | DS => v_ds R | ES => v_es R | FS => v_fs R
  | GS => v_gs R | SS => v_ss R | EIP => v_eip R | EFLAGS => v_eflags R
  end.

Definition setr (r : reg) (v : Z) (R : regs) : regs :=
  let g q := match q, r with
             | EAX, EAX | ECX, ECX | EDX, EDX | EBX, EBX | ESP, ESP | EBP, EBP | ESI, ESI | EDI, EDI | CS, CS
             | DS, DS | ES, ES | FS, FS | GS, GS | SS, SS | EIP, EIP | EFLAGS, EFLAGS => v
             | _, _ => getr q R
             end in
  Regs (g EAX) (g ECX) (g EDX) (g EBX) (g ESP) (g EBP) (g ESI) (g EDI) (g CS) (g DS) (g ES) (g FS) (g GS) (g SS) (g EIP) (g EFLAGS).

Record x86 := X86 { rg : regs; mm : mem }.

Notation MX A := (M x86 A).

Definition set_r (r : reg) (v : Z) : MX unit := modify (fun s => X86 (setr r v (rg s)) (mm s)).
Definition get_r (r : reg) : MX Z := gets (fun s => getr r (rg s)).
Definition load (a : Z) : MX Z := gets (fun s => load32 (mm s) a).
Definition store (a v : Z) : MX unit := modify (fun s => X86 (rg s) (store32 (mm s) a v)).

Definition push (v : Z) : MX unit :=
  sp ← get_r ESP;
  set_r ESP (u32 (sp - 4)) ;;
  store (u32 (sp - 4)) v.
Definition pop : MX Z :=
  sp ← get_r ESP;
  v ← load sp;
  set_r ESP (u32 (sp + 4)) ;;
  mret v.

Definition pushl (r : reg) : MX unit := v ← get_r r; push v.
Definition popl (r : reg) : MX unit := v ← pop; set_r r v.
(** Segment registers have 16 bits. *)
Definition popseg (r : reg) : MX unit := v ← pop; set_r r (u16 v).

(** [movl d(%b), %r], [movl %r, (%b)] and [movl %q, %r]. *)
Definition movl_load (d : Z) (b r : reg) : MX unit := a ← get_r b; v ← load (u32 (a + d)); set_r r v.
Definition movl_store (r b : reg) : MX unit := v ← get_r r; a ← get_r b; store a v.
Definition movl (q r : reg) : MX unit := v ← get_r q; set_r r v.
Definition addl (n : Z) (r : reg) : MX unit := v ← get_r r; set_r r (u32 (v + n)).

(** [movw $v, %ax] and [movw %ax, %seg]. *)
Definition movw_ax (v : Z) : MX unit := a ← get_r EAX; set_r EAX (Z.lor (Z.land a 0xFFFF0000) (u16 v)).
Definition movw_seg (r : reg) : MX unit := a ← get_r EAX; set_r r (u16 a).

Definition pushal : MX unit :=
  sp ← get_r ESP;
  pushl EAX ;; pushl ECX ;; pushl EDX ;; pushl EBX ;; push sp ;; pushl EBP ;; pushl ESI ;; pushl EDI.
Definition popal : MX unit :=
  popl EDI ;; popl ESI ;; popl EBP ;; (_ ← pop; popl EBX) ;; popl EDX ;; popl ECX ;; popl EAX.

Definition ret : MX unit := popl EIP.

(** A call of a C function: it returns to the instruction after the call. *)
Definition call_c (return_addr : Z) (f : MX unit) : MX unit := push return_addr ;; f ;; _ ← pop; mret tt.

(** ** swtch.S *)

Definition swtch : MX unit :=
  movl_load 4 ESP EAX ;;
  movl_load 8 ESP EDX ;;
  pushl EBP ;; pushl EBX ;; pushl ESI ;; pushl EDI ;;
  movl_store ESP EAX ;;
  movl EDX ESP ;;
  popl EDI ;; popl ESI ;; popl EBX ;; popl EBP ;;
  ret.

(** ** Traps *)

(** The interrupt [n] with the stack [ss0]:[esp0] of the kernel, through a gate
    to [kcs]; the processor pushes an error code for some of them. *)
Definition int_entry (ss0 esp0 kcs : Z) (intgate : bool) (err : option Z) : MX unit :=
  s ← get;
  (if Z.land (v_cs (rg s)) 3 =? 0 then mret tt
   else set_r SS ss0 ;; set_r ESP esp0 ;; push (v_ss (rg s)) ;; push (v_esp (rg s))) ;;
  push (v_eflags (rg s)) ;; push (v_cs (rg s)) ;; push (v_eip (rg s)) ;;
  (match err with Some e => push e | None => mret tt end) ;;
  set_r CS kcs ;;
  when intgate (set_r EFLAGS (Z.ldiff (v_eflags (rg s)) FL_IF)).

(** The return from an interrupt, to the ring it came from. *)
Definition iret : MX unit :=
  ip ← pop;
  cs ← pop;
  fl ← pop;
  set_r EIP ip ;; set_r CS (u16 cs) ;; set_r EFLAGS fl ;;
  if Z.land (u16 cs) 3 =? 0 then mret tt
  else
    sp ← pop;
    ss ← pop;
    set_r ESP sp ;; set_r SS (u16 ss).

(** vectors.pl: which traps come with an error code. *)
Definition has_err (i : Z) : bool := (i =? 8) || ((10 <=? i) && (i <=? 14)) || (i =? 17).

Definition vector (i : Z) : MX unit :=
  when (negb (has_err i)) (push 0) ;;
  push i.

(** trapasm.S: alltraps falls through to trapret. *)
Definition trapret : MX unit :=
  popal ;;
  popseg GS ;; popseg FS ;; popseg ES ;; popseg DS ;;
  addl 8 ESP ;;
  iret.

Definition alltraps (return_addr : Z) (trap : Z -> MX unit) : MX unit :=
  pushl DS ;; pushl ES ;; pushl FS ;; pushl GS ;;
  pushal ;;
  movw_ax (Z.shiftl SEG_KDATA 3) ;;
  movw_seg DS ;;
  movw_seg ES ;;
  tf ← get_r ESP;
  pushl ESP ;;
  call_c return_addr (trap tf) ;;
  addl 4 ESP ;;
  trapret.

(** ** usys.S and initcode.S *)

(** A stub: the system call of number [num], which the kernel answers. *)
Definition stub (num : Z) (kernel : MX unit) : MX unit :=
  set_r EAX num ;;
  kernel ;;
  ret.

Definition SYS_exec : Z := 7.

(** Up to the first trap of the first program; [init] and [argv] are the
    addresses of its data. *)
Definition initcode_start (init argv : Z) : MX unit :=
  push argv ;;
  push init ;;
  push 0 ;;
  set_r EAX SYS_exec.

(** ** Running instructions *)

Section rules.
Context (R : regs) (m : mem) (E : stop -> x86 -> Prop).

Lemma wpe_set_r r v (Q : unit -> x86 -> Prop) : Q tt (X86 (setr r v R) m) -> wpe (set_r r v) (X86 R m) Q E.
Proof. done. Qed.

Lemma wpe_get_r r (Q : Z -> x86 -> Prop) : Q (getr r R) (X86 R m) -> wpe (get_r r) (X86 R m) Q E.
Proof. done. Qed.

Lemma wpe_load a (Q : Z -> x86 -> Prop) : Q (load32 m a) (X86 R m) -> wpe (load a) (X86 R m) Q E.
Proof. done. Qed.

Lemma wpe_store a v (Q : unit -> x86 -> Prop) : Q tt (X86 R (store32 m a v)) -> wpe (store a v) (X86 R m) Q E.
Proof. done. Qed.

Lemma wpe_push v (Q : unit -> x86 -> Prop) :
  4 <= v_esp R <= 2 ^ 32 -> Q tt (X86 (setr ESP (v_esp R - 4) R) (store32 m (v_esp R - 4) v)) -> wpe (push v) (X86 R m) Q E.
Proof.
  intros Hsp HQ. unfold push. apply wpe_bind, wpe_get_r. cbn [getr]. rewrite u32_small by (unfold in_u32; lia). exact HQ.
Qed.

Lemma wpe_pop (Q : Z -> x86 -> Prop) :
  0 <= v_esp R < 2 ^ 32 - 4 -> Q (load32 m (v_esp R)) (X86 (setr ESP (v_esp R + 4) R) m) -> wpe pop (X86 R m) Q E.
Proof.
  intros Hsp HQ. unfold pop. apply wpe_bind, wpe_get_r. apply wpe_bind, wpe_load. cbn [getr]. rewrite u32_small by (unfold in_u32; lia). exact HQ.
Qed.

Lemma wpe_movl_load d b r (Q : unit -> x86 -> Prop) :
  0 <= getr b R + d < 2 ^ 32 -> Q tt (X86 (setr r (load32 m (getr b R + d)) R) m) -> wpe (movl_load d b r) (X86 R m) Q E.
Proof.
  intros Hr HQ. unfold movl_load. apply wpe_bind, wpe_get_r. apply wpe_bind, wpe_load. apply wpe_set_r. by rewrite u32_small by (unfold in_u32; lia).
Qed.

Lemma wpe_addl n r (Q : unit -> x86 -> Prop) :
  0 <= getr r R + n < 2 ^ 32 -> Q tt (X86 (setr r (getr r R + n) R) m) -> wpe (addl n r) (X86 R m) Q E.
Proof. intros Hr HQ. unfold addl. apply wpe_bind, wpe_get_r. apply wpe_set_r. by rewrite u32_small by (unfold in_u32; lia). Qed.

End rules.

Ltac asm_cbn := cbv beta iota zeta delta [setr getr rg mm v_eax v_ecx v_edx v_ebx v_esp v_ebp v_esi v_edi v_cs v_ds v_es v_fs v_gs v_ss v_eip v_eflags].

(** One instruction. *)
Ltac asm_step :=
  lazymatch goal with
  | |- wpe (mbind _ _) _ _ _ => apply wpe_bind
  | |- wpe (mret _) _ _ _ => apply wpe_ret
  | |- wpe (set_r _ _) _ _ _ => apply wpe_set_r; asm_cbn
  | |- wpe (get_r _) _ _ _ => apply wpe_get_r; asm_cbn
  | |- wpe (load _) _ _ _ => apply wpe_load
  | |- wpe (store _ _) _ _ _ => apply wpe_store
  | |- wpe (push _) _ _ _ => apply wpe_push; asm_cbn; [lia|]
  | |- wpe pop _ _ _ => apply wpe_pop; asm_cbn; [lia|]
  | |- wpe (pushl _) _ _ _ => unfold pushl
  | |- wpe (popl _) _ _ _ => unfold popl
  | |- wpe (popseg _) _ _ _ => unfold popseg
  | |- wpe (movl_load _ _ _) _ _ _ => apply wpe_movl_load; asm_cbn; [lia|]
  | |- wpe (movl_store _ _) _ _ _ => unfold movl_store
  | |- wpe (movl _ _) _ _ _ => unfold movl
  | |- wpe (addl _ _) _ _ _ => apply wpe_addl; asm_cbn; [lia|]
  | |- wpe (movw_ax _) _ _ _ => unfold movw_ax
  | |- wpe (movw_seg _) _ _ _ => unfold movw_seg
  | |- wpe ret _ _ _ => unfold ret
  end.
Ltac asm_run := repeat asm_step.

(** Offsets added up. *)
Ltac asm_addr :=
  rewrite <- ?Z.add_assoc;
  repeat match goal with
    | |- context [Zpos ?a + Zpos ?b] => let r := eval vm_compute in (Zpos a + Zpos b) in change (Zpos a + Zpos b) with r
    end.

(** Words stored below [sp] one after the other, the first next to it. *)
Fixpoint pushes (m : mem) (sp : Z) (vs : list Z) : mem :=
  match vs with
  | [] => m
  | v :: vs => pushes (store32 m (sp - 4) v) (sp - 4) vs
  end.

Lemma pushes_above m sp vs a : sp <= a -> pushes m sp vs a = m a.
Proof.
  revert m sp. induction vs as [|v vs IH]; intros m sp Ha; [done|]. cbn [pushes]. rewrite IH by lia. rewrite store32_at.
  by rewrite (proj2 (Z.ltb_ge _ _)), andb_false_r by lia.
Qed.

Lemma pushes_below m sp vs a : a < sp - 4 * Z.of_nat (length vs) -> pushes m sp vs a = m a.
Proof.
  revert m sp. induction vs as [|v vs IH]; intros m sp Ha; [done|]. cbn [pushes length] in *. rewrite IH by lia. rewrite store32_at.
  by rewrite (proj2 (Z.leb_gt _ _)) by lia.
Qed.

Lemma pushes_word m sp vs i v : vs !! i = Some v -> load32 (pushes m sp vs) (sp - 4 * (Z.of_nat i + 1)) = u32 v.
Proof.
  revert m sp i. induction vs as [|w vs IH]; intros m sp i Hi; [done|]. cbn [pushes]. destruct i as [|i].
  - injection Hi as ->. change (4 * (Z.of_nat 0 + 1)) with 4. rewrite <- (load32_store32_eq m (sp - 4) v).
    apply load32_ext. intros k Hk. apply pushes_above. lia.
  - replace (sp - 4 * (Z.of_nat (S i) + 1)) with (sp - 4 - 4 * (Z.of_nat i + 1)) by lia. by apply IH.
Qed.

Lemma pushes_app m sp vs ws : pushes m sp (vs ++ ws) = pushes (pushes m sp vs) (sp - 4 * Z.of_nat (length vs)) ws.
Proof.
  revert m sp. induction vs as [|v vs IH]; intros m sp; cbn [pushes app length]; [f_equal; lia|]. rewrite IH. f_equal. lia.
Qed.

(** ** The context switch *)

(** struct context in memory. *)
Definition context_at (m : mem) (a : Z) : context :=
  Context (load32 m a) (load32 m (a + 4)) (load32 m (a + 8)) (load32 m (a + 12)) (load32 m (a + 16)).

(** The registers that a context holds, and the two others. *)
Definition resumed (c : context) (sp : Z) (R R' : regs) : Prop :=
  v_edi R' = x_edi c /\ v_esi R' = x_esi c /\ v_ebx R' = x_ebx c /\ v_ebp R' = x_ebp c /\ v_eip R' = x_eip c /\ v_esp R' = sp /\
  (v_cs R', v_ds R', v_es R', v_fs R', v_gs R', v_ss R', v_eflags R') = (v_cs R, v_ds R, v_es R, v_fs R, v_gs R, v_ss R, v_eflags R).

Definition disjoint (a n b k : Z) : Prop := a + n <= b \/ b + k <= a.

Lemma context_at_ext m m' a : (forall x, a <= x < a + 20 -> m' x = m x) -> context_at m' a = context_at m a.
Proof. intros H. unfold context_at. f_equal; apply load32_ext; intros k Hk; apply H; lia. Qed.

(** A call [swtch(old, new)]: the stack has room for a context, which overlaps
    neither the context to switch to nor the place for the pointer. *)
Record swtch_call (R : regs) (m : mem) (old new : Z) : Prop := {
  sw_sp : 16 <= v_esp R < 2 ^ 32 - 12;
  sw_old : load32 m (v_esp R + 4) = old;
  sw_new : load32 m (v_esp R + 8) = new;
  sw_range : 0 <= new < 2 ^ 32 - 20;
  sw_old_stack : disjoint old 4 (v_esp R - 16) 20;
  sw_new_stack : disjoint new 20 (v_esp R - 16) 16;
  sw_new_old : disjoint new 20 old 4;
  sw_regs : Forall in_u32 [v_edi R; v_esi R; v_ebx R; v_ebp R]
}.

Lemma swtch_spec R m old new :
  let sp := v_esp R in
  swtch_call R m old new ->
  wp swtch (X86 R m) (fun _ s' =>
    resumed (context_at m new) (new + 20) R (rg s') /\
    load32 (mm s') old = sp - 16 /\
    context_at (mm s') (sp - 16) = Context (v_edi R) (v_esi R) (v_ebx R) (v_ebp R) (load32 m sp) /\
    forall x, ~ (sp - 16 <= x < sp) -> ~ (old <= x < old + 4) -> mm s' x = m x).
Proof.
  intros sp [Hsp Ho Hn Hnr D1 D2 D3 H8]. destruct R as [eax ecx edx ebx esp ebp esi edi cs ds es fs gs ss eip eflags]. unfold sp in *. clear sp.
  cbn [v_esp v_edi v_esi v_ebx v_ebp] in *. unfold swtch, wp. do 2 asm_step. rewrite Ho. do 2 asm_step. rewrite Hn. asm_run.
  change (store32 (store32 (store32 (store32 m (esp - 4) ebp) (esp - 4 - 4) ebx) (esp - 4 - 4 - 4) esi) (esp - 4 - 4 - 4 - 4) edi)
    with (pushes m esp [ebp; ebx; esi; edi]).
  set (m2 := pushes m esp [ebp; ebx; esi; edi]). replace (esp - 4 - 4 - 4 - 4) with (esp - 16) by lia.
  set (m3 := store32 m2 old (esp - 16)). asm_cbn.
  assert (Hout : forall x, ~ (esp - 16 <= x < esp) -> ~ (old <= x < old + 4) -> m3 x = m x).
  { intros x H1 H2. unfold m3. rewrite store32_at.
    replace ((old <=? x) && (x <? old + 4)) with false by lia.
    destruct (Z.lt_ge_cases x (esp - 16)); [apply pushes_below; cbn; lia|apply pushes_above; lia]. }
  unfold disjoint in *. assert (Hc : context_at m3 new = context_at m new) by (apply context_at_ext; intros x Hx; apply Hout; lia).
  rewrite <- Hc. asm_addr. split_and!.
  - by unfold resumed, context_at; asm_cbn.
  - unfold m3. rewrite load32_store32_eq. apply u32_small. unfold in_u32. lia.
  - assert (Hat : forall i v, [ebp; ebx; esi; edi] !! i = Some v -> in_u32 v -> load32 m3 (esp - 4 * (Z.of_nat i + 1)) = v).
    { intros i v Hi Hv. apply lookup_lt_Some in Hi as Hlt. cbn in Hlt. unfold m3. rewrite load32_store32_ne by lia.
      unfold m2. rewrite (pushes_word _ _ _ _ _ Hi). by apply u32_small. }
    rewrite !Forall_cons in H8. destruct H8 as (U1 & U2 & U3 & U4 & _). unfold context_at. f_equal.
    + apply (Hat 3%nat); done.
    + replace (esp - 16 + 4) with (esp - 4 * (Z.of_nat 2 + 1)) by lia. by apply Hat.
    + replace (esp - 16 + 8) with (esp - 4 * (Z.of_nat 1 + 1)) by lia. by apply Hat.
    + replace (esp - 16 + 12) with (esp - 4 * (Z.of_nat 0 + 1)) by lia. by apply Hat.
    + replace (esp - 16 + 16) with esp by lia. apply load32_ext. intros k Hk. apply Hout; lia.
  - exact Hout.
Qed.

(** C6: The context switch is a call that returns. A thread calls swtch and is
    switched away from; when some other thread later calls swtch with the
    pointer that was saved, and nobody has touched the saved context in
    between, the first thread goes on behind its call, with its callee-saved
    registers and its stack pointer as they were. *)
Theorem swtch_resumes R m old new R2 m2 old2 s1 :
  swtch_call R m old new -> swtch (X86 R m) = Ret tt s1 ->
  swtch_call R2 m2 old2 (load32 (mm s1) old) -> context_at m2 (load32 (mm s1) old) = context_at (mm s1) (load32 (mm s1) old) ->
  wp swtch (X86 R2 m2) (fun _ s2 => resumed (Context (v_edi R) (v_esi R) (v_ebx R) (v_ebp R) (load32 m (v_esp R))) (v_esp R + 4) R2 (rg s2)).
Proof.
  intros H1 Hr H2 Hk. pose proof (swtch_spec R m old new H1) as Hs. apply wp_inv in Hs as (u & s' & Hs & _ & Hold & Hctx & _).
  rewrite Hr in Hs. injection Hs as _ <-. rewrite Hold in *. eapply wp_mono; [|apply (swtch_spec R2 m2 old2 _ H2)].
  intros [] s2 (Hres & _). rewrite Hk, Hctx in Hres. by replace (v_esp R - 16 + 20) with (v_esp R + 4) in Hres by lia.
Qed.

(** ** Traps *)

(** struct trapframe in memory. *)
Definition frame_at (m : mem) (a : Z) : trapframe :=
  TrapFrame (load32 m a) (load32 m (a + 4)) (load32 m (a + 8)) (load32 m (a + 12)) (load32 m (a + 16)) (load32 m (a + 20))
    (load32 m (a + 24)) (load32 m (a + 28)) (u16 (load32 m (a + 32))) (u16 (load32 m (a + 36))) (u16 (load32 m (a + 40)))
    (u16 (load32 m (a + 44))) (load32 m (a + 48)) (load32 m (a + 52)) (load32 m (a + 56)) (u16 (load32 m (a + 60)))
    (load32 m (a + 64)) (load32 m (a + 68)) (u16 (load32 m (a + 72))).

(** The frame of a trap [n] from the registers [R], and the registers of a
    frame. *)
Definition frame_of (R : regs) (n e oesp : Z) : trapframe :=
  TrapFrame (v_edi R) (v_esi R) (v_ebp R) oesp (v_ebx R) (v_edx R) (v_ecx R) (v_eax R) (v_gs R) (v_fs R) (v_es R) (v_ds R) n e
    (v_eip R) (v_cs R) (v_eflags R) (v_esp R) (v_ss R).
Definition regs_of (f : trapframe) : regs :=
  Regs (tf_eax f) (tf_ecx f) (tf_edx f) (tf_ebx f) (tf_esp f) (tf_ebp f) (tf_esi f) (tf_edi f) (tf_cs f) (tf_ds f) (tf_es f) (tf_fs f)
    (tf_gs f) (tf_ss f) (tf_eip f) (tf_eflags f).

Lemma regs_of_frame_of R n e o : regs_of (frame_of R n e o) = R.
Proof. by destruct R. Qed.

(** Registers of a user program. *)
Record user_regs (R : regs) : Prop := {
  us_cs : Z.land (v_cs R) 3 <> 0;
  us_words : Forall in_u32 [v_eax R; v_ecx R; v_edx R; v_ebx R; v_esp R; v_ebp R; v_esi R; v_edi R; v_eip R; v_eflags R];
  us_segs : Forall in_u16 [v_cs R; v_ds R; v_es R; v_fs R; v_gs R; v_ss R]
}.

Lemma frame_at_ext m m' a : (forall x, a <= x < a + 76 -> m' x = m x) -> frame_at m' a = frame_at m a.
Proof.
  intros H. assert (Hl : forall o, 0 <= o <= 72 -> load32 m' (a + o) = load32 m (a + o)) by (intros o Ho; apply load32_ext; intros k Hk; apply H; lia).
  unfold frame_at. rewrite <- (Z.add_0_r a) at 1 20. rewrite !Hl by lia. done.
Qed.

(** The nineteen words of a frame, in the order in which they are pushed. *)
Definition frame_words (R : regs) (n e oesp : Z) : list Z :=
  [v_ss R; v_esp R; v_eflags R; v_cs R; v_eip R; e; n; v_ds R; v_es R; v_fs R; v_gs R; v_eax R; v_ecx R; v_edx R; v_ebx R; oesp;
   v_ebp R; v_esi R; v_edi R].

Lemma frame_pushed R m n e oesp sp : user_regs R -> in_u32 n -> in_u32 e -> in_u32 oesp ->
  frame_at (pushes m sp (frame_words R n e oesp)) (sp - 76) = frame_of R n e oesp.
Proof.
  intros [_ Hw Hg] Hn He Ho. rewrite !Forall_cons in Hw. rewrite !Forall_cons in Hg.
  destruct Hw as (W1 & W2 & W3 & W4 & W5 & W6 & W7 & W8 & W9 & W10 & _). destruct Hg as (G1 & G2 & G3 & G4 & G5 & G6 & _).
  assert (H16 : forall v, in_u16 v -> u16 (u32 v) = v).
  { unfold in_u16, u16, u32. intros v Hv. rewrite (Z.mod_small v (2 ^ 32)) by lia. by apply Z.mod_small. }
  assert (Hat : forall o j, o = 4 * Z.of_nat j -> (j <= 18)%nat -> load32 (pushes m sp (frame_words R n e oesp)) (sp - 76 + o) =
    u32 (default 0 (frame_words R n e oesp !! (18 - j)%nat))).
  { intros o j -> Hj. destruct (lookup_lt_is_Some_2 (frame_words R n e oesp) (18 - j)) as [v Hv]; [cbn; lia|]. rewrite Hv. cbn [default id].
    rewrite <- (pushes_word m sp _ _ v Hv). f_equal. lia. }
  unfold frame_at, frame_of. rewrite <- (Z.add_0_r (sp - 76)) at 1.
  rewrite (Hat 0 0%nat), (Hat 4 1%nat), (Hat 8 2%nat), (Hat 12 3%nat), (Hat 16 4%nat), (Hat 20 5%nat), (Hat 24 6%nat), (Hat 28 7%nat), (Hat 32 8%nat), (Hat 36 9%nat), (Hat 40 10%nat), (Hat 44 11%nat), (Hat 48 12%nat), (Hat 52 13%nat), (Hat 56 14%nat), (Hat 60 15%nat), (Hat 64 16%nat), (Hat 68 17%nat), (Hat 72 18%nat) by lia.
  cbn [Nat.sub frame_words lookup list_lookup default id]. rewrite !H16 by done. by rewrite !u32_small by done.
Qed.

(** trapret puts the registers back that the frame holds. *)
Lemma trapret_spec R m E :
  let f := frame_at m (v_esp R) in
  0 <= v_esp R < 2 ^ 32 - 76 -> Z.land (tf_cs f) 3 <> 0 -> forall Q : unit -> x86 -> Prop, Q tt (X86 (regs_of f) m) -> wpe trapret (X86 R m) Q E.
Proof.
  intros f Hsp Hcs Q HQ. destruct R as [eax ecx edx ebx esp ebp esi edi cs ds es fs gs ss eip eflags]. cbn [v_esp] in *.
  unfold trapret, popal, iret. asm_run.
  asm_addr. cbn [f frame_at tf_cs] in Hcs.
  rewrite (proj2 (Z.eqb_neq _ _) Hcs).
  asm_run. asm_cbn. asm_addr. exact HQ.
Qed.

(** The error code of the frame: the processor's, or the 0 of vectors.S. *)
Definition err_of (err : option Z) : Z := default 0 err.

Section trap.
Context (ss0 esp0 kcs : Z) (intgate : bool) (err : option Z) (n return_addr : Z).
Hypothesis Hsp : 84 <= esp0 < 2 ^ 32.
Hypothesis Hn : 0 <= n < 256.
Hypothesis Herr : err = None /\ has_err n = false \/ has_err n = true /\ exists e, err = Some e /\ in_u32 e.

Definition entry : MX unit := int_entry ss0 esp0 kcs intgate err ;; vector n.
Definition trap_path (trap : Z -> MX unit) : MX unit := entry ;; alltraps return_addr trap.

Lemma err_range : in_u32 (err_of err).
Proof. destruct Herr as [[-> _]|[_ (e & -> & He)]]; [done|exact He]. Qed.

(** The entry from user space, up to alltraps: the processor and the entry
    point push the upper seven words of the frame. *)
Lemma entry_spec R m E (Q : unit -> x86 -> Prop) :
  Z.land (v_cs R) 3 <> 0 ->
  (forall fl, Q tt (X86 (setr EFLAGS fl (setr CS kcs (setr ESP (esp0 - 28) (setr SS ss0 R))))
    (pushes m esp0 [v_ss R; v_esp R; v_eflags R; v_cs R; v_eip R; err_of err; n]))) ->
  wpe entry (X86 R m) Q E.
Proof.
  intros Hcs HQ. destruct R as [eax ecx edx ebx esp ebp esi edi cs ds es fs gs ss eip eflags]. cbn [v_cs] in Hcs.
  unfold entry, int_entry, vector. do 2 asm_step. apply wpe_get. asm_cbn. rewrite (proj2 (Z.eqb_neq _ _) Hcs).
  destruct Herr as [[-> Hh]|[Hh (e & -> & _)]]; rewrite Hh; cbn [negb when]; (destruct intgate; cbn [when];
    [specialize (HQ (Z.ldiff eflags FL_IF))|specialize (HQ eflags)]); asm_run; revert HQ; asm_cbn; cbn [pushes err_of default id].
  all: replace (esp0 - 28) with (esp0 - 4 - 4 - 4 - 4 - 4 - 4 - 4) by lia.
  all: exact id.
Qed.

Lemma ax_segment a v : 0 <= v < 2 ^ 16 -> u16 (Z.lor (Z.land a 0xFFFF0000) (u16 v)) = v.
Proof.
  intros Hv. unfold u16. rewrite (Z.mod_small v) by done. rewrite <- Z.land_ones, Z.land_lor_distr_l, <- Z.land_assoc by lia.
  change (Z.land 0xFFFF0000 (Z.ones 16)) with 0. rewrite Z.land_0_r, Z.lor_0_l, Z.land_ones by lia. by apply Z.mod_small.
Qed.

(** What the C function finds: the frame of the trap, its stack below it, the
    data segment of the kernel, and memory as the program left it. *)
Record trap_called (R : regs) (m : mem) (R' : regs) (m' : mem) : Prop := {
  tc_esp : v_esp R' = esp0 - 84;
  tc_ds : v_ds R' = Z.shiftl SEG_KDATA 3;
  tc_es : v_es R' = Z.shiftl SEG_KDATA 3;
  tc_frame : frame_at m' (esp0 - 76) = frame_of R n (err_of err) (esp0 - 44);
  tc_mem x : ~ (esp0 - 84 <= x < esp0) -> m' x = m x
}.

(** A trap from user space, up to the C function and back: the program goes on
    with what the function leaves in the frame. *)
Lemma trap_path_spec R m trap f' (P : mem -> Prop) :
  user_regs R -> Z.land (tf_cs f') 3 <> 0 ->
  (forall R' m', trap_called R m R' m' ->
    wp (trap (esp0 - 76)) (X86 R' m') (fun _ s' => v_esp (rg s') = esp0 - 84 /\ frame_at (mm s') (esp0 - 76) = f' /\ P (mm s'))) ->
  wp (trap_path trap) (X86 R m) (fun _ s' => rg s' = regs_of f' /\ P (mm s')).
Proof.
  intros HR Hcs Htrap. pose proof (us_cs _ HR) as Hus. unfold trap_path, wp.
  apply wpe_bind, entry_spec; [done|]. intros fl. unfold alltraps, pushal, call_c. asm_run.
  set (w1 := [v_ss R; v_esp R; v_eflags R; v_cs R; v_eip R; err_of err; n]).
  set (w2 := [v_ds R; v_es R; v_fs R; v_gs R; v_eax R; v_ecx R; v_edx R; v_ebx R; esp0 - 28 - 4 - 4 - 4 - 4; v_ebp R; v_esi R; v_edi R]).
  lazymatch goal with |- wpe (trap ?t) (X86 ?r _) ?Q ?E => set (R1 := r);
    change (wpe (trap t) (X86 R1 (pushes (pushes m esp0 w1) (esp0 - 4 * Z.of_nat (length w1)) (w2 ++ [t; return_addr]))) Q E) end.
  rewrite <- pushes_app, app_assoc. subst w2.
  replace (esp0 - 28 - 4 - 4 - 4 - 4) with (esp0 - 44) by lia. replace (esp0 - 44 - 4 - 4 - 4 - 4 - 4 - 4 - 4 - 4) with (esp0 - 76) by lia.
  change (w1 ++ _) with (frame_words R n (err_of err) (esp0 - 44)). set (m1 := pushes m esp0 _).
  assert (Hf : frame_at m1 (esp0 - 76) = frame_of R n (err_of err) (esp0 - 44)).
  { rewrite <- (frame_pushed R m n (err_of err) (esp0 - 44) esp0 HR) by (unfold in_u32; try lia; apply err_range).
    apply frame_at_ext. intros x Hx. unfold m1. rewrite pushes_app. apply pushes_above. cbn. lia. }
  eapply wpe_mono; [| |apply (Htrap R1 m1); split; [unfold R1; cbn [v_esp]; lia|by apply ax_segment..|exact Hf|]]; [|done|].
  2: { intros x Hx. destruct (Z.lt_ge_cases x esp0); [apply pushes_below; cbn; lia|by apply pushes_above]. }
  intros [] [[eax ecx edx ebx esp ebp esi edi cs ds es fs gs ss eip eflags] m'] (Hsp' & Hf' & HP). cbn [rg mm v_esp] in Hsp', Hf'. asm_run.
  replace (esp + 4 + 4) with (esp0 - 76) by lia. apply trapret_spec; cbn [v_esp]; rewrite ?Hf'; [lia|done|done].
Qed.
End trap.

(** C7: A system call from the program: the stub of usys.S traps with the number of
    the call in EAX; the kernel finds it, and the arguments above the stack
    pointer, in the frame, and answers in the EAX of the frame. Then the stub
    has returned to its caller with that answer: every other register, segment
    registers included, is as it was before the call. *)
Theorem syscall_returns ss0 esp0 kcs return_addr num v R m trap :
  84 <= esp0 < 2 ^ 32 -> user_regs R -> in_u32 num -> v_esp R + 4 <= esp0 - 84 ->
  (forall R' m', trap_called esp0 None T_SYSCALL (setr EAX num R) m R' m' ->
    wp (trap (esp0 - 76)) (X86 R' m') (fun _ s' =>
      v_esp (rg s') = v_esp R' /\ frame_at (mm s') (esp0 - 76) = set_tf_eax v (frame_at m' (esp0 - 76)) /\
      load32 (mm s') (v_esp R) = load32 m' (v_esp R))) ->
  wp (stub num (trap_path ss0 esp0 kcs false None T_SYSCALL return_addr trap)) (X86 R m) (fun _ s' =>
    rg s' = setr EIP (load32 m (v_esp R)) (setr ESP (v_esp R + 4) (setr EAX v R))).
Proof.
  intros Hsp HR Hnum Hlow Htrap.
  assert (HR' : user_regs (setr EAX num R)) by (destruct R, HR as [H1 H2 H3]; split; [done| |done]; by inversion H2; constructor).
  assert (Hesp : in_u32 (v_esp R)) by (destruct HR as [_ Hw _]; rewrite !Forall_cons in Hw; apply Hw).
  unfold stub, wp. apply wpe_bind, wpe_set_r. apply wpe_bind.
  eapply wpe_mono; [| |apply (trap_path_spec ss0 esp0 kcs false None T_SYSCALL return_addr Hsp) with
    (f' := set_tf_eax v (frame_of (setr EAX num R) T_SYSCALL 0 (esp0 - 44))) (P := fun m' => load32 m' (v_esp R) = load32 m (v_esp R))];
    [|done|done|by left|done|by destruct HR|].
  - intros [] [R1 m1] [HR1 Hw]. cbn [rg mm] in HR1, Hw. subst R1. apply wpe_bind, wpe_pop; [destruct R; cbn in *; unfold in_u32 in *; lia|].
    apply wpe_set_r. cbn [rg]. destruct R; cbn in *. by rewrite Hw.
  - intros R' m' HC. eapply wp_mono; [|apply (Htrap R' m' HC)]. intros [] s' (H1 & H2 & H3). split_and!.
    + by rewrite H1, (tc_esp _ _ _ _ _ _ _ HC).
    + by rewrite H2, (tc_frame _ _ _ _ _ _ _ HC).
    + rewrite H3. apply load32_ext. intros k Hk. apply (tc_mem _ _ _ _ _ _ _ HC). lia.
Qed.

(** ** A process that runs for the first time *)

(** The kernel stack as allocproc and fork leave it: a context, the address of
    trapret, a trap frame. swtch enters forkret, which returns to trapret,
    which enters the program with the registers of the frame. *)
Theorem new_process_enters_user R m old new FORKRET TRAPRET (forkret : MX unit) :
  swtch_call R m old new -> new < 2 ^ 32 - 100 -> disjoint new 100 (v_esp R - 16) 20 -> disjoint new 100 old 4 ->
  load32 m (new + 16) = FORKRET -> load32 m (new + 20) = TRAPRET -> Z.land (tf_cs (frame_at m (new + 24))) 3 <> 0 ->
  (forall R' m', v_esp R' = new + 20 -> wp forkret (X86 R' m') (fun _ s' => v_esp (rg s') = new + 20 /\ forall x, new + 20 <= x < new + 100 -> mm s' x = m' x)) ->
  wp swtch (X86 R m) (fun _ s1 =>
    v_eip (rg s1) = FORKRET /\
    wp (forkret ;; ret) s1 (fun _ s2 =>
      v_eip (rg s2) = TRAPRET /\
      wp trapret s2 (fun _ s3 => rg s3 = regs_of (frame_at m (new + 24))))).
Proof.
  intros H Hr D1 D2 Hf Ht Hcs Hfr. pose proof (sw_range _ _ _ _ H) as Hn. eapply wp_mono; [|exact (swtch_spec R m old new H)].
  intros [] [R1 m1] (Hres & _ & _ & Hm). cbn [rg mm] in *. destruct Hres as (_ & _ & _ & _ & He & Hs & _). split; [by rewrite He|].
  apply wp_bind. eapply wp_mono; [|apply (Hfr R1 m1 Hs)]. intros [] [R2 m2] [Hs2 Hm2]. cbn [rg mm] in *. unfold disjoint in *.
  assert (Hmm : forall x, new + 20 <= x < new + 100 -> m2 x = m x) by (intros x Hx; rewrite Hm2 by done; apply Hm; lia).
  unfold ret, popl, wp. apply wpe_bind, wpe_pop; [lia|]. apply wpe_set_r. rewrite Hs2. split.
  - cbn. rewrite <- Ht. apply load32_ext. intros k Hk. apply Hmm. lia.
  - assert (Hfa : frame_at m2 (new + 24) = frame_at m (new + 24)) by (apply frame_at_ext; intros x Hx; apply Hmm; lia).
    apply trapret_spec; destruct R2; cbn [v_esp setr getr] in Hs2 |- *; replace (new + 20 + 4) with (new + 24) by lia; rewrite ?Hfa; [lia|exact Hcs|done].
Qed.

(** ** The first program *)

(** initcode traps into exec with the two arguments where the kernel fetches
    them: above the word that its stack pointer points to. *)
Theorem initcode_calls_exec R m init argv :
  12 <= v_esp R < 2 ^ 32 -> in_u32 init -> in_u32 argv ->
  wp (initcode_start init argv) (X86 R m) (fun _ s' =>
    v_eax (rg s') = SYS_exec /\ load32 (mm s') (v_esp (rg s') + 4) = init /\ load32 (mm s') (v_esp (rg s') + 8) = argv).
Proof.
  intros Hsp Hi Ha. destruct R as [eax ecx edx ebx esp ebp esi edi cs ds es fs gs ss eip eflags]. cbn [v_esp] in Hsp.
  unfold initcode_start, wp. asm_run. asm_cbn.
  change (store32 (store32 (store32 m (esp - 4) argv) (esp - 4 - 4) init) (esp - 4 - 4 - 4) 0) with (pushes m esp [argv; init; 0]).
  split_and!; [done| |].
  - replace (esp - 4 - 4 - 4 + 4) with (esp - 4 * (Z.of_nat 1 + 1)) by lia. rewrite (pushes_word _ _ _ _ init) by done. by apply u32_small.
  - replace (esp - 4 - 4 - 4 + 8) with (esp - 4 * (Z.of_nat 0 + 1)) by lia. rewrite (pushes_word _ _ _ _ argv) by done. by apply u32_small.
Qed.

(** ** Instances *)

(** A program in user mode, and a kernel that answers 7. *)
Definition user0 : regs := Regs 1 2 3 4 0x2000 5 6 7 27 35 35 35 35 35 0x100 512.
Definition answer7 (tf : Z) : MX unit := store (tf + 28) 7.

Lemma frame_set_eax m tf v : in_u32 v -> frame_at (store32 m (tf + 28) v) tf = set_tf_eax v (frame_at m tf).
Proof.
  intros Hv. unfold frame_at, set_tf_eax. cbn [tf_edi tf_esi tf_ebp tf_oesp tf_ebx tf_edx tf_ecx tf_eax tf_gs tf_fs tf_es tf_ds tf_trapno tf_err tf_eip tf_cs tf_eflags tf_esp tf_ss].
  rewrite load32_store32_eq, (u32_small v) by done. by rewrite !load32_store32_ne by lia.
Qed.

Lemma user0_regs : user_regs user0.
Proof. split; [done|repeat (apply Forall_cons_2; [done|]); apply Forall_nil_2..]. Qed.

Lemma syscall_returns_witness :
  user_regs user0 /\ wp (stub 11 (trap_path 16 0x80400000 8 false None T_SYSCALL 0 answer7)) (X86 user0 (fun _ => 9)) (fun _ s' =>
    rg s' = setr EIP (load32 (fun _ => 9) 0x2000) (setr ESP 0x2004 (setr EAX 7 user0))).
Proof.
  split; [exact user0_regs|].
  apply (syscall_returns 16 0x80400000 8 0 11 7 user0 (fun _ => 9) answer7); [done|exact user0_regs|done|done|].
  intros R' m' HC. unfold answer7, wp. apply wpe_store. split_and!; [done|by apply frame_set_eax|].
  cbn [mm]. apply load32_store32_ne. left. done.
Defined.

(** Two threads: the first, with its stack at 1000, switches to a context at
    3000; the second, with its stack at 4000, switches back. *)
Definition thread1 : regs := Regs 0 0 0 11 1000 12 13 14 8 16 16 0 0 16 0 0.
Definition thread2 : regs := Regs 0 0 0 21 4000 22 23 24 8 16 16 0 0 16 0 0.
Definition call_swtch (R : regs) (m : mem) (ra old new : Z) : mem := pushes m (v_esp R + 12) [new; old; ra].
Definition stack1 : mem := call_swtch thread1 (fun _ => 0) 77 2000 3000.
Definition switched : x86 := match swtch (X86 thread1 stack1) with Ret _ s => s | Stop _ s => s end.
Definition stack2 : mem := call_swtch thread2 (mm switched) 78 2004 (load32 (mm switched) 2000).

Lemma switched_eq : load32 (mm switched) 2000 = 984.
Proof. vm_compute. reflexivity. Qed.

Lemma switch1 : swtch_call thread1 stack1 2000 3000.
Proof.
  split; [done|by vm_compute..|done|right; done|right; done|right; done|repeat (apply Forall_cons_2; [done|]); apply Forall_nil_2].
Qed.

Lemma switch2 : swtch_call thread2 stack2 2004 984.
Proof.
  split; [done|by vm_compute..|done|left; done|left; done|left; done|repeat (apply Forall_cons_2; [done|]); apply Forall_nil_2].
Qed.

Lemma swtch_resumes_witness :
  swtch_call thread1 stack1 2000 3000 /\
  wp swtch (X86 thread2 stack2) (fun _ s2 => resumed (Context 14 13 11 12 (load32 stack1 1000)) 1004 thread2 (rg s2)).
Proof.
  split; [exact switch1|].
  apply (swtch_resumes thread1 stack1 2000 3000 thread2 stack2 2004 switched); [exact switch1| |rewrite switched_eq; exact switch2|].
  - pose proof (swtch_spec _ _ _ _ switch1) as Hs. apply wp_inv in Hs as ([] & s & Hs & _). unfold switched. by rewrite Hs.
  - rewrite switched_eq. vm_compute. reflexivity.
Defined.
