(* ===== verification/Sysproc.v ===== *)
(** The system calls on processes: [sysproc.c].

    The CPU is an argument, as in [Proc]; [u] is the memory of the process
    that makes the call, from which its arguments are read. A call that
    sleeps ends with [Switched], and continues as its [_resume]. *)

From S2P Require Import Prelude Mem Mmu Spinlock Ports Proc Sched Trap Syscall.

Open Scope Z_scope.

Section sysproc.
Context {X : Type} {E : ProcEnv X} {T : TrapEnv X}.

(** An argument of the call. *)
Definition uarg {A} (u : uproc) (m : M uproc A) : M (pstate X) A := fun s =>
  match m u with
  | Ret a _ => Ret a s
  | Stop w _ => Stop w s
  end.

Definition sys_fork (c : nat) : M (pstate X) Z := fork c.

Definition sys_exit (c : nat) : M (pstate X) Z := exit c ;; mret 0.

Definition sys_wait (c : nat) : M (pstate X) Z := wait c.

Definition sys_kill (c : nat) (u : uproc) : M (pstate X) Z :=
  pid ← uarg u (argint 0);
  match pid with
  | None => mret (-1)
  | Some pid => kill c pid
  end.

Definition sys_getpid (c : nat) : M (pstate X) Z :=
  i ← curproc c;
  p ← proc_at i;
  mret (p_pid p).

Definition sys_sbrk (c : nat) (u : uproc) : M (pstate X) Z :=
  n ← uarg u (argint 0);
  match n with
  | None => mret (-1)
  | Some n =>
      i ← curproc c;
      p ← proc_at i;
      let addr := i32 (p_sz p) in
      r ← growproc c n;
      if r <? 0 then mret (-1) else mret addr
  end.

(** The loop of sys_sleep, from its test; the comparison is unsigned. *)
Definition sleep_loop (c : nat) (ticks0 n : Z) : M (pstate X) Z :=
  s ← get;
  if u32 (ticks s - ticks0) <? u32 n then
    i ← curproc c;
    p ← proc_at i;
    if negb (p_killed p =? 0) then
      call (e_release tickslock) ;;
      mret (-1)
    else sleep c ch_ticks (Some tickslock) ;; mret 0
  else
    call (e_release tickslock) ;;
    mret 0.

Definition sys_sleep (c : nat) (u : uproc) : M (pstate X) Z :=
  n ← uarg u (argint 0);
  match n with
  | None => mret (-1)
  | Some n =>
      call (e_acquire tickslock) ;;
      s ← get;
      sleep_loop c (ticks s) n
  end.

(** sys_sleep after the scheduler has switched back to process [i]. *)
Definition sys_sleep_resume (c i : nat) (intena ticks0 n : Z) : M (pstate X) Z :=
  sleep_resume c i intena (Some tickslock) ;;
  sleep_loop c ticks0 n.

Definition sys_uptime : M (pstate X) Z :=
  call (e_acquire tickslock) ;;
  xticks ← gets ticks;
  call (e_release tickslock) ;;
  mret (i32 xticks).

Definition sys_new_wait (c : nat) (u : uproc) : M (pstate X) Z :=
  create_time ← uarg u (argptr 0 4);
  match create_time with
  | None => mret (-1)
  | Some create_time =>
      stop_time ← uarg u (argptr 1 4);
      match stop_time with
      | None => mret (-1)
      | Some stop_time =>
          run_time ← uarg u (argptr 2 4);
          match run_time with
          | None => mret (-1)
          | Some run_time => new_wait c create_time stop_time run_time
          end
      end
  end.

End sysproc.

(** ** The run time of a process *)

Section run_time.
Context {X : Type} {E : ProcEnv X} {T : TrapEnv X}.
Implicit Types s : pstate X.

(** The times that new_wait reports as run times. *)
Definition run_times s : list Z := p_ttime <$> procs s.

Lemma fmap_alter_same {A B} (h : A -> B) (g : A -> A) i (l : list A) :
  (forall a, h (g a) = h a) -> h <$> alter g i l = h <$> l.
Proof.
  intros H. revert i. induction l as [|a l IH]; intros [|i]; cbn; [done..| |]; f_equal; [apply H|apply IH].
Qed.

Lemma keeps_upd_proc i (g : proc -> proc) : (forall p, p_ttime (g p) = p_ttime p) -> keeps run_times (upd_proc i g).
Proof. intros H. apply keeps_modify. intros s. by apply fmap_alter_same. Qed.

Lemma keeps_upd_cpu c g : keeps run_times (upd_cpu c g).
Proof. by apply keeps_modify. Qed.

Lemma keeps_call {A} (m : M X A) : keeps run_times (call m).
Proof. intros s. unfold wpe, call, zoom. cbn. by destruct (m (env s)). Qed.

Lemma keeps_proc_at i : keeps run_times (proc_at i).
Proof. unfold proc_at. keeps. Qed.

Lemma keeps_cpu_at c : keeps run_times (cpu_at c).
Proof. unfold cpu_at. keeps. Qed.

Lemma keeps_curproc c : keeps run_times (curproc c).
Proof. unfold curproc. keeps. apply keeps_cpu_at. Qed.

Lemma keeps_wakeup1 ch : keeps run_times (wakeup1 ch).
Proof.
  apply keeps_modify. intros s. unfold run_times. cbn. rewrite <- list_fmap_compose. apply list_fmap_ext.
  intros i p _. cbn. unfold wakeup1_proc. by case_match.
Qed.

(** Reading the state and writing it back with the same table. *)
Lemma keeps_get_put {A} (k : pstate X -> M (pstate X) A) :
  (forall s, wpe (k s) s (fun _ s' => run_times s' = run_times s) (fun _ s' => run_times s' = run_times s)) ->
  keeps run_times (s ← get; k s).
Proof. intros H s. by apply wpe_bind, wpe_get. Qed.

Lemma keeps_put_then {A} (t : pstate X) (k : M (pstate X) A) s :
  run_times t = run_times s -> keeps run_times k ->
  wpe (put t ;; k) s (fun _ s' => run_times s' = run_times s) (fun _ s' => run_times s' = run_times s).
Proof. intros Et Hk. apply wpe_bind, wpe_put. rewrite <- Et. apply Hk. Qed.

#[local] Hint Resolve keeps_upd_cpu keeps_call keeps_proc_at keeps_cpu_at keeps_curproc keeps_wakeup1 : keeps.

Lemma keeps_acquire_pt c : keeps run_times (acquire_pt c).
Proof. unfold acquire_pt. do 3 (apply keeps_bind; [by keeps|intros ?]). apply keeps_get_put. intros s. by destruct (pt_lock s). Qed.

Lemma keeps_release_pt c : keeps run_times (release_pt c).
Proof.
  unfold release_pt. apply keeps_get_put. intros s. destruct (pt_lock s); [|done]. apply keeps_put_then; [done|]. keeps.
Qed.

End run_time.

#[export] Hint Resolve keeps_upd_cpu keeps_call keeps_proc_at keeps_cpu_at keeps_curproc keeps_wakeup1
  keeps_acquire_pt keeps_release_pt : keeps.

(** Every step but the entry of a slot that is being changed. *)
Ltac keeps_times := repeat (first [progress keeps | apply keeps_upd_proc; intros; repeat case_match; done | apply keeps_modify; done]).

Section kernel.
Context {X : Type} {E : ProcEnv X} {T : TrapEnv X}.

Lemma keeps_allocproc c : keeps run_times (allocproc c).
Proof. unfold allocproc. keeps_times. Qed.

Lemma keeps_growproc c n : keeps run_times (growproc c n).
Proof. unfold growproc. keeps_times. Qed.

Lemma keeps_fork_copy c np : keeps run_times (fork_copy c np).
Proof.
  unfold fork_copy. do 5 (apply keeps_bind; [by keeps_times|intros ?]). case_match; [by keeps_times|].
  do 2 (apply keeps_bind; [by keeps_times|intros ?]). apply keeps_get_put. intros s. destruct (tframes s !! _); [|done].
  apply keeps_put_then; [done|]. unfold dup_files. keeps_times.
Qed.

Lemma keeps_sched c : keeps run_times (sched c : M (pstate X) unit).
Proof. unfold sched. keeps_times. Qed.

#[local] Hint Resolve keeps_sched : keeps.

Lemma keeps_exit c : keeps run_times (exit c).
Proof. unfold exit, close_files, exit_final, reparent. keeps_times. Qed.

Lemma keeps_sleep c ch lk : keeps run_times (sleep c ch lk).
Proof. unfold sleep. keeps_times. Qed.

#[local] Hint Resolve keeps_sleep : keeps.

Lemma keeps_reap i : keeps run_times (reap i).
Proof. unfold reap. keeps_times. Qed.

Lemma keeps_reap_times a b d i : keeps run_times (reap_times a b d i).
Proof. unfold reap_times. keeps_times. apply keeps_reap. Qed.

Lemma keeps_wait_loop c cur found : (forall i, keeps run_times (found i)) -> keeps run_times (wait_loop c cur found).
Proof. intros H. unfold wait_loop. keeps_times. Qed.

Lemma keeps_sleep_resume c i n lk : keeps run_times (sleep_resume c i n lk).
Proof. unfold sleep_resume, sched_resume. keeps_times. Qed.

Lemma keeps_kill c pid : keeps run_times (kill c pid : M (pstate X) Z).
Proof. unfold kill. keeps_times. Qed.

Lemma keeps_wakeup c ch : keeps run_times (wakeup c ch : M (pstate X) unit).
Proof. unfold wakeup. keeps_times. Qed.

#[local] Hint Resolve keeps_exit keeps_kill keeps_wakeup keeps_growproc keeps_reap keeps_reap_times keeps_sleep_resume : keeps.

Lemma keeps_op_run c o : keeps run_times (op_run c o).
Proof.
  destruct o; cbn [op_run]; unfold yield, wait, new_wait; keeps_times; apply keeps_wait_loop; intros ?; keeps.
Qed.

Lemma keeps_resume_run c i r : keeps run_times (resume_run c i r).
Proof.
  destruct r; cbn [resume_run]; unfold forkret, yield_resume, sched_resume, wait_resume, new_wait_resume;
    keeps_times; apply keeps_wait_loop; intros ?; keeps.
Qed.

Lemma keeps_trap syscall c a tf :
  keeps run_times (syscall c) -> keeps run_times (trap syscall c a tf).
Proof.
  intros Hs. unfold trap, trap_switch, trap_timer, trap_fault, unexpected_trap, exit_killed, is_killed, is_running, myproc, yield.
  keeps_times.
Qed.

Lemma keeps_userinit c : keeps run_times (userinit c).
Proof. unfold userinit. pose proof (keeps_allocproc c). keeps_times. Qed.

Lemma keeps_fork c : keeps run_times (fork c).
Proof. unfold fork. keeps; [apply keeps_allocproc|apply keeps_fork_copy]. Qed.

(** What a process changes in its own entry outside [proc.c] and [trap.c]:
    exec, open, close, pipe, chdir and syscall. *)
Definition own_fields (sz pgdir tf : Z) (ofile : list (option nat)) (cwd : option nat) (name : list Z) (p : proc) : proc :=
  Proc sz pgdir (p_kstack p) (p_state p) (p_pid p) (p_parent p) tf (p_context p)
    (p_chan p) (p_killed p) ofile cwd name (p_ctime p) (p_etime p) (p_ttime p).

(** What runs in the kernel with the process table: the operations of
    [proc.c] and what follows when the scheduler has switched back to a
    process that had given up the CPU, the system calls on processes, the
    scheduler, the interrupts and faults, the system call trap up to the call
    and after it, and what the rest of the kernel does. *)
Inductive kernel_op : M (pstate X) unit -> Prop :=
  | k_userinit c : kernel_op (userinit c)
  | k_op c o : kernel_op (op_run c o)
  | k_resume c i r : kernel_op (resume_run c i r)
  | k_fork c : kernel_op (fork c ;; mret tt)
  | k_wakeup c ch : kernel_op (wakeup c ch)
  | k_begin c : kernel_op (scheduler_begin c)
  | k_pick c i : kernel_op (scheduler_pick c i ;; mret tt)
  | k_back c : kernel_op (scheduler_back c)
  | k_end c : kernel_op (scheduler_end c)
  | k_sys_exit c : kernel_op (sys_exit c ;; mret tt)
  | k_sys_wait c : kernel_op (sys_wait c ;; mret tt)
  | k_sys_kill c u : kernel_op (sys_kill c u ;; mret tt)
  | k_sys_getpid c : kernel_op (sys_getpid c ;; mret tt)
  | k_sys_sbrk c u : kernel_op (sys_sbrk c u ;; mret tt)
  | k_sys_sleep c u : kernel_op (sys_sleep c u ;; mret tt)
  | k_sys_sleep_resume c i n t0 m : kernel_op (sys_sleep_resume c i n t0 m ;; mret tt)
  | k_sys_uptime : kernel_op (sys_uptime ;; mret tt)
  | k_sys_new_wait c u : kernel_op (sys_new_wait c u ;; mret tt)
  | k_trap c a tf m : kernel_op m -> kernel_op (trap (fun _ => m) c a tf)
  | k_trap_resume c n tf : kernel_op (trap_resume c n tf)
  | k_own i sz pgdir tf ofile cwd name : kernel_op (upd_proc i (own_fields sz pgdir tf ofile cwd name))
  | k_env (m : M X unit) : kernel_op (call m).

(** One of them runs until it returns or gives up the CPU or stops. *)
Inductive kernel_step : pstate X -> pstate X -> Prop :=
  | step_ret m s s' : kernel_op m -> m s = Ret tt s' -> kernel_step s s'
  | step_stop m s w s' : kernel_op m -> m s = Stop w s' -> kernel_step s s'.

Lemma keeps_uarg {A} u (m : M uproc A) : keeps run_times (uarg u m : M (pstate X) A).
Proof. intros s. unfold wpe, uarg. by destruct (m u). Qed.

#[local] Hint Resolve keeps_userinit keeps_fork keeps_op_run keeps_resume_run keeps_uarg keeps_allocproc : keeps.

Lemma keeps_wait c : keeps run_times (wait c).
Proof. unfold wait. keeps_times. apply keeps_wait_loop. intros ?. keeps. Qed.

Lemma keeps_new_wait c a b d : keeps run_times (new_wait c a b d).
Proof. unfold new_wait. keeps_times. apply keeps_wait_loop. intros ?. keeps. Qed.

Lemma keeps_sleep_loop c t0 n : keeps run_times (sleep_loop c t0 n).
Proof. unfold sleep_loop. keeps_times. Qed.

#[local] Hint Resolve keeps_wait keeps_new_wait keeps_sleep_loop : keeps.

Lemma keeps_kernel_op m : kernel_op m -> keeps run_times m.
Proof.
  induction 1; try by keeps_times.
  all: try by apply keeps_trap.
  all: unfold scheduler_begin, scheduler_pick, scheduler_back, scheduler_end, sys_exit, sys_wait, sys_kill, sys_getpid, sys_sbrk,
    sys_sleep, sys_sleep_resume, sys_uptime, sys_new_wait, trap_resume, yield_resume, sched_resume, exit_killed, is_killed, myproc.
  all: by keeps_times.
Qed.

Lemma kernel_step_keeps s s' : kernel_step s s' -> run_times s' = run_times s.
Proof. intros [m s1 s2 Hm Hr|m s1 w s2 Hm Hr]; pose proof (keeps_kernel_op m Hm s1) as H; unfold wpe in H; by rewrite Hr in H. Qed.

Lemma reachable_run_times ncpu x s : rtc kernel_step (boot ncpu x) s -> run_times s = replicate NPROC 0.
Proof.
  intros Hr. remember (boot ncpu x) as s0 eqn:E0. assert (run_times s0 = replicate NPROC 0) as H0 by (by subst). clear E0.
  induction Hr as [|s1 s2 s3 H12 _ IH]; [done|]. apply IH. by rewrite (kernel_step_keeps _ _ H12).
Qed.

(** new_wait with the run time [0] in place of the field. *)
Definition reap_times_zero (create_time run_time stop_time : Z) (i : nat) : M (pstate X) Z :=
  pid ← reap i;
  p ← proc_at i;
  call (e_store32 create_time (p_ctime p)) ;;
  call (e_store32 run_time 0) ;;
  call (e_store32 stop_time (p_etime p)) ;;
  call (e_cprintf times_format [PInt (i32 (p_ctime p)); PInt 0; PInt (i32 (p_etime p))]) ;;
  call (e_cprintf times_format [PInt (i32 create_time); PInt (i32 run_time); PInt (i32 stop_time)]) ;;
  mret pid.

Lemma reap_times_reports_zero a b d i s : run_times s = replicate NPROC 0 -> reap_times a b d i s = reap_times_zero a b d i s.
Proof.
  intros Hs. unfold reap_times, reap_times_zero. unfold mbind at 1, M_bind. unfold mbind at 7, M_bind.
  pose proof (keeps_reap i s) as Hk. unfold wpe in Hk. destruct (reap i s) as [pid s1|w s1]; [|done]. rewrite Hs in Hk.
  unfold proc_at, mbind, M_bind, get. destruct (procs s1 !! i) as [q|] eqn:Hq; [|done]. cbn [mret M_ret].
  assert (p_ttime q = 0) as ->; [|done].
  assert (run_times s1 !! i = Some (p_ttime q)) as H by (unfold run_times; by rewrite list_lookup_fmap, Hq).
  rewrite Hk in H. by apply lookup_replicate_1 in H as [-> _].
Qed.

(** The table, and the process on CPU 0. *)
Definition pview (s : pstate X) := (procs s, c_proc <$> (pcpus s !! 0%nat)).

Lemma pview_upd_cpu g : (forall k, c_proc (g k) = c_proc k) -> keeps pview (upd_cpu 0 g).
Proof.
  intros Hg. apply keeps_modify. intros s. unfold pview. cbn [procs pcpus set_pcpus]. rewrite list_lookup_alter_eq.
  destruct (pcpus s !! 0%nat) as [k|]; cbn; [by rewrite Hg|done].
Qed.

Lemma pview_call {A} (m : M X A) : keeps pview (call m).
Proof. intros s. unfold wpe, call, zoom. cbn. by destruct (m (env s)). Qed.

Lemma pview_cpu_at : keeps pview (cpu_at 0).
Proof. unfold cpu_at. keeps. Qed.

Lemma pview_acquire : keeps pview (acquire_pt 0).
Proof.
  unfold acquire_pt. apply keeps_bind; [apply pview_cpu_at|]. intros k. apply keeps_bind.
  { destruct (_ =? _); cbn [when]; [by apply pview_upd_cpu|apply keeps_ret]. }
  intros _. apply keeps_bind; [by apply pview_upd_cpu|]. intros _ s. apply wpe_bind, wpe_get. by destruct (pt_lock s).
Qed.

Lemma pview_release : keeps pview (release_pt 0).
Proof.
  intros s. unfold release_pt. apply wpe_bind, wpe_get. destruct (pt_lock s); [|done]. apply wpe_bind, wpe_put.
  change (pview s) with (pview (set_pt_lock false s)). generalize (set_pt_lock false s). clear s.
  match goal with |- forall s, wpe ?m s _ _ => change (keeps pview m) end.
  apply keeps_bind; [by apply pview_upd_cpu|]. intros _. apply keeps_bind; [apply pview_cpu_at|]. intros k.
  destruct (_ <? _); [done|]. destruct (_ && _); cbn [when]; [by apply pview_upd_cpu|apply keeps_ret].
Qed.

Lemma wpe_view {A} (m : M (pstate X) A) s (Q : A -> pstate X -> Prop) :
  keeps pview m -> (forall a s', pview s' = pview s -> Q a s') -> wpe m s Q (fun _ _ => True).
Proof. intros Hk HQ. eapply wpe_mono; [| |apply Hk]; cbv beta; auto. Qed.

(** The timer interrupt on CPU 0, with process [j] running there. *)
Lemma trap_timer_counts s j p :
  pview s = (procs s, Some (Some j)) -> procs s !! j = Some p -> p_state p = RUNNING ->
  wpe (trap_timer 0) s
    (fun _ s' => procs s' = <[j := set_p_ctime (u32 (p_ctime p + 1)) p]> (wakeup1_proc (Some ch_ticks) <$> procs s))
    (fun _ _ => True).
Proof.
  intros Hv Hp Hst. unfold trap_timer. cbn [Nat.eqb]. apply wpe_bind, wpe_bind.
  apply wpe_view; [apply pview_call|]. intros _ s1 H1. apply wpe_bind, wpe_modify. apply wpe_bind. unfold wakeup.
  apply wpe_bind, wpe_view; [apply pview_acquire|]. intros _ s2 H2. apply wpe_bind, wpe_modify.
  apply wpe_view; [apply pview_release|]. intros _ s3 H3.
  apply wpe_bind, wpe_view; [apply pview_call|]. intros _ s4 H4.
  assert (pview s4 = (wakeup1_proc (Some ch_ticks) <$> procs s, Some (Some j))) as H.
  { rewrite H4, H3. unfold pview in *. cbn in *. congruence. }
  clear H1 H2 H3 H4 s1 s2 s3. injection H as Hps Hcp. destruct (pcpus s4 !! 0%nat) as [k|] eqn:Hk; [|done]. injection Hcp as Hcp.
  assert (procs s4 !! j = Some p) as Hp4 by (rewrite Hps, list_lookup_fmap, Hp; cbn; unfold wakeup1_proc; by rewrite Hst).
  apply wpe_bind. unfold is_running, myproc, curproc, cpu_at, proc_at. do 3 apply wpe_bind. apply wpe_get. rewrite Hk.
  apply wpe_ret, wpe_ret. rewrite Hcp. apply wpe_bind, wpe_bind, wpe_get. rewrite Hp4. apply wpe_ret, wpe_ret.
  rewrite bool_decide_true by done. cbn [when]. do 2 apply wpe_bind. apply wpe_bind, wpe_get. rewrite Hk. apply wpe_ret. rewrite Hcp.
  apply wpe_ret, wpe_modify. apply wpe_view; [apply pview_call|]. intros _ s5 [= H5 _]. rewrite H5. cbn.
  by rewrite (alter_insert _ (procs s4) j p), Hps.
Qed.

(** C40: the run time of a process is never counted. In every state that is
    reached from boot by the operations of the kernel on processes, by system
    calls, the scheduler, interrupts and faults, in any order and on any
    CPUs, the field that new_wait reports as run time is 0 in every entry of
    the table, and new_wait stores and prints 0 for it. What the timer
    interrupt counts is the creation time: on CPU 0, with process [j] running
    there, it adds 1 to the creation time of [j] and changes nothing else in
    the table but to wake the processes that wait for a tick. *)
Theorem run_time_never_counted ncpu x s :
  rtc kernel_step (boot ncpu x) s ->
  run_times s = replicate NPROC 0 /\
  (forall create_time run_time stop_time i,
     reap_times create_time run_time stop_time i s = reap_times_zero create_time run_time stop_time i s) /\
  forall k j p s', pcpus s !! 0%nat = Some k -> c_proc k = Some j -> procs s !! j = Some p -> p_state p = RUNNING ->
    trap_timer 0 s = Ret tt s' ->
    procs s' = <[j := set_p_ctime (u32 (p_ctime p + 1)) p]> (wakeup1_proc (Some ch_ticks) <$> procs s).
Proof.
  intros Hr. pose proof (reachable_run_times ncpu x s Hr) as Hz. split; [done|]. split; [intros; by apply reap_times_reports_zero|].
  intros k j p s' Hk Hj Hp Hst Ht.
  pose proof (trap_timer_counts s j p) as H. unfold wpe in H. rewrite Ht in H. apply H; [|done|done]. unfold pview. by rewrite Hk; cbn; rewrite Hj.
Qed.

End kernel.

(** ** sleep *)

(** What the rest of the kernel does on the way returns. *)
Class TickEnv (X : Type) `{TrapEnv X} := {
  te_acquire : forall x, wp (e_acquire tickslock) x (fun _ _ => True);
  te_release : forall x, wp (e_release tickslock) x (fun _ _ => True);
  te_lapiceoi : forall x, wp e_lapiceoi x (fun _ _ => True);
  te_switchuvm : forall a b x, wp (e_switchuvm a b) x (fun _ _ => True);
  te_switchkvm : forall x, wp e_switchkvm x (fun _ _ => True)
}.

Section sleeping.
Context {X : Type} {E : ProcEnv X} {T : TrapEnv X} {TE : TickEnv X}.
Implicit Types s : pstate X.
(** The process that sleeps. *)
Variable i : nat.

(** What matters of a state: the lock, the process on CPU [c] and its nesting
    of locks, the time, and the state and channel of the process, and whether
    it was killed. *)
Record looks (c : nat) s (lock : bool) (cp : option nat) (ncli t : Z) (st : procstate) (ch : option chan) (kd : bool) : Prop := {
  lk_lock : pt_lock s = lock;
  lk_ticks : ticks s = t;
  lk_cpu : exists k, pcpus s !! c = Some k /\ c_proc k = cp /\ c_ncli k = ncli /\ (lock = true -> Z.land (c_eflags k) FL_IF = 0);
  lk_cur j : cp = Some j -> (j < length (procs s))%nat;
  lk_proc : exists p, procs s !! i = Some p /\ p_state p = st /\ p_chan p = ch /\ negb (p_killed p =? 0) = kd
}.

Lemma looks_call {A} (m : M X A) c s lock cp n t st ch kd (Q : A -> pstate X -> Prop) F :
  (forall x, wp m x (fun _ _ => True)) -> looks c s lock cp n t st ch kd ->
  (forall a s', looks c s' lock cp n t st ch kd -> Q a s') -> wpe (call m) s Q F.
Proof.
  intros Hm [H1 H2 H3 H4 H5] HQ. apply wpe_zoom. cbn [view env_lens]. specialize (Hm (env s)). unfold wp, wpe in *.
  destruct (m (env s)); [|done]. by apply HQ.
Qed.

Lemma looks_acquire c s cp t st ch kd (Q : unit -> pstate X -> Prop) F :
  looks c s false cp 0 t st ch kd -> (forall s', looks c s' true cp 1 t st ch kd -> Q tt s') -> wpe (acquire_pt c) s Q F.
Proof.
  intros [H1 H2 (k & Hk & Hp & Hn & _) H4 H5] HQ. apply (wpe_acquire_pt c s k); [done..|]. intros k' Hp' Hn' Hf.
  apply HQ. split; try done. exists k'. split; [apply list_lookup_insert_eq; by eapply lookup_lt_Some|].
  split; [congruence|]. split; [lia|done].
Qed.

Lemma looks_release c s cp t st ch kd (Q : unit -> pstate X -> Prop) F :
  looks c s true cp 1 t st ch kd -> (forall s', looks c s' false cp 0 t st ch kd -> Q tt s') -> wpe (release_pt c) s Q F.
Proof.
  intros [H1 H2 (k & Hk & Hp & Hn & _) H4 H5] HQ. apply (wpe_release_pt c s k); [done|done|lia|]. intros k' Hp' Hn'.
  apply HQ. split; try done. exists k'. split; [apply list_lookup_insert_eq; by eapply lookup_lt_Some|].
  split; [congruence|]. split; [lia|done].
Qed.

Lemma looks_upd_proc c s lock cp n t st ch kd (g : proc -> proc) st' ch' (Q : unit -> pstate X -> Prop) F :
  looks c s lock cp n t st ch kd ->
  (forall p, p_state p = st -> p_chan p = ch -> p_state (g p) = st' /\ p_chan (g p) = ch' /\ p_killed (g p) = p_killed p) ->
  (forall s', looks c s' lock cp n t st' ch' kd -> Q tt s') -> wpe (upd_proc i g) s Q F.
Proof.
  intros [H1 H2 H3 H4 (p & Hp & Hst & Hch & Hkd)] Hg HQ. apply wpe_modify, HQ. destruct (Hg p Hst Hch) as (E1 & E2 & E3).
  split; try done; [intros j; cbn; rewrite length_alter; apply H4|].
  exists (g p). cbn. rewrite list_lookup_alter_eq, Hp. split; [done|]. by rewrite E3.
Qed.

(** A field of some process that does not matter here. *)
Lemma looks_upd_other c s lock cp n t st ch kd j (g : proc -> proc) (Q : unit -> pstate X -> Prop) F :
  looks c s lock cp n t st ch kd ->
  (forall p, p_state (g p) = p_state p /\ p_chan (g p) = p_chan p /\ p_killed (g p) = p_killed p) ->
  (forall s', looks c s' lock cp n t st ch kd -> Q tt s') -> wpe (upd_proc j g) s Q F.
Proof.
  intros HL Hg HQ. destruct (decide (j = i)) as [->|Hne].
  { eapply looks_upd_proc; [done| |done]. intros p <- <-. apply Hg. }
  destruct HL as [H1 H2 H3 H4 (p & Hp & Hst & Hch & Hkd)]. apply wpe_modify, HQ.
  split; try done; [intros j'; cbn; rewrite length_alter; apply H4|]. exists p. cbn. by rewrite list_lookup_alter_ne.
Qed.

Lemma looks_upd_cpu c s lock cp n t st ch kd (g : pcpu -> pcpu) (Q : unit -> pstate X -> Prop) F :
  looks c s lock cp n t st ch kd ->
  (forall k, c_proc (g k) = c_proc k /\ c_ncli (g k) = c_ncli k /\ (lock = true -> c_eflags (g k) = c_eflags k)) ->
  (forall s', looks c s' lock cp n t st ch kd -> Q tt s') -> wpe (upd_cpu c g) s Q F.
Proof.
  intros [H1 H2 (k & Hk & Hp & Hn & Hf) H4 H5] Hg HQ. apply wpe_modify, HQ. destruct (Hg k) as (E1 & E2 & E3).
  split; try done. exists (g k). cbn. split; [|split; [by rewrite E1|split; [by rewrite E2|]]].
  - change (alter g c (pcpus s) !! c = Some (g k)). by rewrite list_lookup_alter_eq, Hk.
  - intros Hl. rewrite (E3 Hl). by apply Hf.
Qed.

Lemma looks_curproc c s lock j n t st ch kd (Q : nat -> pstate X -> Prop) F :
  looks c s lock (Some j) n t st ch kd -> Q j s -> wpe (curproc c) s Q F.
Proof.
  intros [_ _ (k & Hk & Hp & _) _ _] HQ. unfold curproc, cpu_at. apply wpe_bind, wpe_bind, wpe_get. rewrite Hk.
  apply wpe_ret. by rewrite Hp.
Qed.

Lemma looks_proc_at c s lock cp n t st ch kd (Q : proc -> pstate X -> Prop) F :
  looks c s lock cp n t st ch kd -> (forall p, p_state p = st -> p_chan p = ch -> negb (p_killed p =? 0) = kd -> Q p s) ->
  wpe (proc_at i) s Q F.
Proof. intros [_ _ _ _ (p & Hp & ? & ? & ?)] HQ. unfold proc_at. apply wpe_bind, wpe_get. rewrite Hp. by apply HQ. Qed.

Lemma looks_sched c s t st ch kd (Q : unit -> pstate X -> Prop) (F : stop -> pstate X -> Prop) :
  looks c s true (Some i) 1 t st ch kd -> st <> RUNNING -> F Switched s -> wpe (sched c) s Q F.
Proof.
  intros HL Hst HF. unfold sched. apply wpe_bind. eapply looks_curproc; [done|].
  apply wpe_bind. eapply looks_proc_at; [done|]. intros p Hp _ _.
  destruct HL as [H1 _ (k & Hk & _ & Hn & Hf) _ _]. apply wpe_bind. unfold cpu_at. apply wpe_bind, wpe_get. rewrite Hk.
  apply wpe_ret. apply wpe_bind, wpe_get. rewrite H1, Hn, Hp. cbn [negb]. rewrite bool_decide_false by done.
  rewrite Z.eqb_refl, Hf by done. done.
Qed.

(** What a run of the loop that finds the time [t] comes to: the result, or
    the process goes to sleep. *)
Definition sleep_turn (n t : Z) (kd : bool) : option Z :=
  if n <=? t then Some 0 else if kd then Some (-1) else None.

(** The process [i] sleeps until the next tick, and CPU [c] is about to go on
    with its scheduler. *)
Definition asleep (c : nat) (t : Z) s : Prop := looks c s true (Some i) 1 t SLEEPING (Some ch_ticks) false.

Lemma sleep_loop_spec c s t0 n t ch kd :
  looks c s false (Some i) 0 t RUNNING ch kd ->
  wpe (sleep_loop c t0 n) s (fun r _ => sleep_turn (u32 n) (u32 (t - t0)) kd = Some r)
    (fun w s' => sleep_turn (u32 n) (u32 (t - t0)) kd = None /\ w = Switched /\ asleep c t s').
Proof.
  intros HL. unfold sleep_loop, sleep_turn. apply wpe_bind, wpe_get. rewrite (lk_ticks _ _ _ _ _ _ _ _ _ HL).
  destruct (Z.ltb_spec (u32 (t - t0)) (u32 n)) as [Hlt|Hge].
  2:{ apply wpe_bind. eapply looks_call; [apply te_release|done|]. intros _ s' _. apply wpe_ret. by rewrite (proj2 (Z.leb_le _ _)). }
  rewrite (proj2 (Z.leb_gt _ _)) by done.
  apply wpe_bind. eapply looks_curproc; [done|]. apply wpe_bind. eapply looks_proc_at; [done|]. intros p _ _ Hkd. rewrite Hkd.
  destruct kd. { apply wpe_bind. eapply looks_call; [apply te_release|done|]. intros _ s' _. by apply wpe_ret. }
  apply wpe_bind. unfold sleep. pose proof (lk_cpu _ _ _ _ _ _ _ _ _ HL) as (k & Hk & Hp & _).
  apply wpe_bind. unfold cpu_at. apply wpe_bind, wpe_get. rewrite Hk. apply wpe_ret. rewrite Hp.
  apply wpe_bind, wpe_bind. eapply looks_acquire; [done|]. intros s1 H. eapply looks_call; [apply te_release|done|]. clear s1 H. intros _ s1 H.
  apply wpe_bind. eapply (looks_upd_proc c s1 _ _ _ _ _ _ _ _ RUNNING (Some ch_ticks)); [done|by intros|]. clear s1 H. intros s1 H.
  apply wpe_bind. eapply (looks_upd_proc c s1 _ _ _ _ _ _ _ _ SLEEPING (Some ch_ticks)); [done|by intros|]. clear s1 H. intros s1 H.
  by eapply looks_sched.
Qed.

(** The scheduler of CPU [c] has switched to the process, which was asleep. *)
Definition picked (c : nat) (t : Z) (kd : bool) s : Prop := exists ch, looks c s true (Some i) 1 t RUNNING ch kd.

Lemma sys_sleep_resume_spec c intena s t0 n t kd :
  picked c t kd s ->
  wpe (sys_sleep_resume c i intena t0 n) s (fun r _ => sleep_turn (u32 n) (u32 (t - t0)) kd = Some r)
    (fun w s' => sleep_turn (u32 n) (u32 (t - t0)) kd = None /\ w = Switched /\ asleep c t s').
Proof.
  intros [ch HL]. unfold sys_sleep_resume, sleep_resume, sched_resume. apply wpe_bind, wpe_bind.
  eapply looks_upd_cpu; [done|by intros|]. clear s HL. intros s HL.
  apply wpe_bind. eapply (looks_upd_proc c s _ _ _ _ _ _ _ _ RUNNING None); [done|by intros|]. clear s HL. intros s HL.
  apply wpe_bind. eapply looks_release; [done|]. clear s HL. intros s HL.
  eapply looks_call; [apply te_acquire|done|]. clear s HL. intros _ s HL. by apply (sleep_loop_spec c s t0 n _ None).
Qed.

(** Every clock tick wakes the process. *)
Lemma looks_timer cp s t kd (Q : unit -> pstate X -> Prop) F :
  looks 0 s false cp 0 t SLEEPING (Some ch_ticks) kd ->
  (forall s', looks 0 s' false cp 0 (u32 (t + 1)) RUNNABLE (Some ch_ticks) kd -> Q tt s') -> wpe (trap_timer 0) s Q F.
Proof.
  intros HL HQ. unfold trap_timer. cbn [Nat.eqb]. apply wpe_bind, wpe_bind.
  eapply looks_call; [apply te_acquire|done|]. clear s HL. intros _ s HL. apply wpe_bind, wpe_modify.
  assert (looks 0 (set_ticks (u32 (ticks s + 1)) s) false cp 0 (u32 (t + 1)) SLEEPING (Some ch_ticks) kd) as HL1.
  { destruct HL as [? E2 ? ? ?]. split; try done. cbn. by rewrite E2. }
  clear HL. apply wpe_bind. unfold wakeup. apply wpe_bind. eapply looks_acquire; [done|]. clear s HL1. intros s HL.
  apply wpe_bind, wpe_modify.
  assert (looks 0 (set_procs (wakeup1_proc (Some ch_ticks) <$> procs s) s) true cp 1 (u32 (t + 1)) RUNNABLE (Some ch_ticks) kd) as HL1.
  { destruct HL as [? ? ? H4 (p & Hp & Hst & Hch & Hkd)]. split; try done; [intros j; cbn; rewrite length_fmap; apply H4|].
    exists (wakeup1_proc (Some ch_ticks) p). cbn.
    rewrite list_lookup_fmap, Hp. split; [done|]. unfold wakeup1_proc. by rewrite Hst, Hch, !bool_decide_true by done. }
  eapply looks_release; [done|]. clear s HL HL1. intros s HL.
  apply wpe_bind. eapply looks_call; [apply te_release|done|]. clear s HL. intros _ s HL.
  assert (forall s', looks 0 s' false cp 0 (u32 (t + 1)) RUNNABLE (Some ch_ticks) kd -> wpe (call e_lapiceoi) s' Q F) as Hend.
  { intros s' HL'. eapply looks_call; [apply te_lapiceoi|done|]. intros []. apply HQ. }
  apply wpe_bind. unfold is_running, myproc, cpu_at. pose proof HL as [_ _ (k & Hk & Hp & _) Hcur _].
  do 3 apply wpe_bind. apply wpe_get. rewrite Hk. apply wpe_ret, wpe_ret. rewrite Hp. destruct cp as [j|]; [|by apply wpe_ret, wpe_ret, Hend].
  destruct (lookup_lt_is_Some_2 (procs s) j) as [q Hq]; [by apply Hcur|]. unfold proc_at. apply wpe_bind, wpe_bind, wpe_get. rewrite Hq.
  apply wpe_ret, wpe_ret. case_bool_decide; cbn [when]; [|by apply wpe_ret, Hend].
  apply wpe_bind. eapply looks_curproc; [done|]. eapply looks_upd_other; [done|done|]. exact Hend.
Qed.

(** A call of sys_sleep from then on: each time the scheduler of some CPU has
    switched to the process the call continues in that state. *)
Fixpoint sleep_runs (ticks0 n : Z) (rs : list (nat * Z * pstate X)) (o : outcome (pstate X) Z) : outcome (pstate X) Z :=
  match rs, o with
  | (c, intena, s) :: rs, Stop Switched _ => sleep_runs ticks0 n rs (sys_sleep_resume c i intena ticks0 n s)
  | _, _ => o
  end.

(** What the process finds when it runs: how many ticks there have been since
    the call, and whether it was killed. The first time that ends the call. *)
Fixpoint sleep_result (w : Z) (obs : list (Z * bool)) : option Z :=
  match obs with
  | [] => None
  | (m, kd) :: obs => match sleep_turn w m kd with Some r => Some r | None => sleep_result w obs end
  end.

Lemma u32_elapsed t m : in_u32 t -> in_u32 m -> u32 (u32 (t + m) - t) = m.
Proof. intros Ht Hm. rewrite u32_sub_l. replace (t + m - t) with m by lia. by apply u32_small. Qed.

(** The state is one in which the process finds [ob], when it called at [t]. *)
Definition finds (t : Z) (r : nat * Z * pstate X) (ob : Z * bool) : Prop :=
  in_u32 ob.1 /\ picked r.1.1 (u32 (t + ob.1)) ob.2 r.2.

(** The result is [o], if there is one, and the process is asleep if not. *)
Definition sleep_outcome (o : option Z) (out : outcome (pstate X) Z) : Prop :=
  match o with
  | Some r => exists s', out = Ret r s'
  | None => exists s' c t, out = Stop Switched s' /\ asleep c t s'
  end.

Lemma sleep_runs_spec t w rs obs o out :
  in_u32 t -> in_u32 w -> Forall2 (finds t) rs obs -> sleep_outcome o out ->
  sleep_outcome (match o with Some r => Some r | None => sleep_result w obs end) (sleep_runs t (i32 w) rs out).
Proof.
  intros Ht Hw HF. revert o out. induction HF as [|[[c intena] s] [m kd] rs obs [Hm Hs] _ IH]; intros o out Ho.
  { cbn [sleep_runs sleep_result]. by destruct o. }
  destruct o as [r|]; cbn [sleep_outcome] in Ho.
  { destruct Ho as [s' ->]. by exists s'. }
  destruct Ho as (s' & c' & t' & -> & _). cbn [sleep_runs sleep_result fst snd] in *. apply IH.
  pose proof (sys_sleep_resume_spec c intena s t (i32 w) _ kd Hs) as H. rewrite u32_elapsed, u32_i32, (u32_small w) in H by done.
  unfold wpe in H. destruct (sys_sleep_resume c i intena t (i32 w) s) as [r s1|k s1]; [rewrite H; by exists s1|].
  destruct H as (-> & -> & H). by exists s1, c, (u32 (t + m)).
Qed.

(** C13: sleep waits for the clock. A process calls sleep with the argument
    word [w] at time [t], on any CPU. Whatever the rest of the kernel does,
    and on whatever CPUs and however late the process is then run, the call
    ends the first time the process runs and finds that there have been [w]
    ticks or more since the call, although the counter may have wrapped
    around, or that it was killed: it returns 0 in the first case and -1 in
    the second. Until then the process is asleep each time it has given up
    the CPU, and the next clock tick on CPU 0 makes it runnable, whatever runs
    there. The word is unsigned: a negative argument is a very long sleep.
    The process must run again before the counter has gone round, after 2^32
    ticks. *)
Theorem sleep_counts_ticks u w c s t ch kd rs obs :
  looks c s false (Some i) 0 t RUNNING ch kd -> in_u32 t -> uproc_ok u -> arg_word u 0 = Some w -> Forall2 (finds t) rs obs ->
  sleep_outcome (sleep_result w ((0, kd) :: obs)) (sleep_runs t (i32 w) rs (sys_sleep c u s)) /\
  forall cp s1 t1, looks 0 s1 false cp 0 t1 SLEEPING (Some ch_ticks) false ->
    wp (trap_timer 0) s1 (fun _ s2 => looks 0 s2 false cp 0 (u32 (t1 + 1)) RUNNABLE (Some ch_ticks) false).
Proof.
  intros HL Ht Hu Hw HF. split; [|intros cp s1 t1 H1; by eapply looks_timer].
  pose proof (user_word_range u _ w Hu Hw) as Hr. cbn [sleep_result]. apply (sleep_runs_spec t w rs obs); [done..|].
  enough (wpe (sys_sleep c u) s (fun r _ => sleep_turn w 0 kd = Some r)
    (fun k s' => sleep_turn w 0 kd = None /\ k = Switched /\ asleep c t s')) as H.
  { unfold wpe in H. destruct (sys_sleep c u s) as [r s1|k s1]; [rewrite H; by exists s1|]. destruct H as (-> & -> & H). by exists s1, c, t. }
  unfold sys_sleep. apply wpe_bind. unfold wpe at 1, uarg. rewrite argint_spec by done. rewrite Hw. cbn [fmap option_fmap option_map].
  apply wpe_bind. eapply looks_call; [apply te_acquire|done|]. intros _ s1 HL1. apply wpe_bind, wpe_get.
  rewrite (lk_ticks _ _ _ _ _ _ _ _ _ HL1). pose proof (sleep_loop_spec c s1 t (i32 w) t ch kd HL1) as H.
  by rewrite Z.sub_diag, u32_i32, (u32_small w) in H by done.
Qed.

End sleeping.

(** ** A small kernel *)

#[local] Existing Instance toy.

#[local] Instance toy_trap : TrapEnv Z := {|
  tickslock := 0%nat;
  e_ideintr := mret tt;
  e_kbdintr := mret tt;
  e_uartintr := mret tt;
  e_lapiceoi := mret tt;
  e_rcr2 := mret 0
|}.

#[local] Instance toy_tick : TickEnv Z.
Proof. by split. Defined.

(** Process 0 runs on CPU 0, and the clock is about to wrap around. *)
Definition demo_running : pstate Z :=
  set_ticks (2 ^ 32 - 1) (set_pcpus [PCpu 0 0 FL_IF (Some 0%nat)] (set_procs (alter (set_p_state RUNNING) 0%nat (procs (boot 1 0))) (boot 1 0))).

(** The argument is 2. *)
Definition demo_sleeper : uproc := UProc 8 [0; 0; 0; 0; 2; 0; 0; 0] 0 0 1 [] false.

Lemma demo_sleeper_ok : uproc_ok demo_sleeper.
Proof. by repeat constructor. Qed.

(** A clock tick while no process runs on CPU 0, after which process 0 does. *)
Definition next_tick (s : pstate Z) : pstate Z :=
  match (scheduler_back 0 ;; scheduler_end 0 ;; trap_timer 0 ;; scheduler_begin 0 ;; scheduler_pick 0 0) s with
  | Ret _ s' | Stop _ s' => s'
  end.

Definition demo_slept (o : outcome (pstate Z) Z) : pstate Z := match o with Ret _ s | Stop _ s => s end.
Definition demo_run1 : pstate Z := next_tick (demo_slept (sys_sleep 0 demo_sleeper demo_running)).
Definition demo_run2 : pstate Z := next_tick (demo_slept (sys_sleep_resume 0 0 0 (2 ^ 32 - 1) 2 demo_run1)).

Lemma sleep_counts_ticks_witness :
  sleep_outcome 0 None (sleep_runs 0 (2 ^ 32 - 1) 2 [(0%nat, 0, demo_run1)] (sys_sleep 0 demo_sleeper demo_running)) /\
  sleep_outcome 0 (Some 0) (sleep_runs 0 (2 ^ 32 - 1) 2 [(0%nat, 0, demo_run1); (0%nat, 0, demo_run2)] (sys_sleep 0 demo_sleeper demo_running)).
Proof.
  assert (finds 0 (2 ^ 32 - 1) (0%nat, 0, demo_run1) (1, false)) as H1.
  { split; [done|]. eexists. split; vm_compute; try done; [by eexists|by intros ? [= <-]; repeat constructor|by eexists]. }
  assert (finds 0 (2 ^ 32 - 1) (0%nat, 0, demo_run2) (2, false)) as H2.
  { split; [done|]. eexists. split; vm_compute; try done; [by eexists|by intros ? [= <-]; repeat constructor|by eexists]. }
  assert (looks 0 0 demo_running false (Some 0%nat) 0 (2 ^ 32 - 1) RUNNING None false) as HL.
  { split; try done; [by eexists|by intros ? [= <-]; vm_compute; repeat constructor|by eexists]. }
  split.
  - apply (sleep_counts_ticks 0 demo_sleeper 2 0 demo_running (2 ^ 32 - 1) None false [(0%nat, 0, demo_run1)] [(1, false)]);
      [exact HL|done|apply demo_sleeper_ok|done|by apply Forall2_cons].
  - apply (sleep_counts_ticks 0 demo_sleeper 2 0 demo_running (2 ^ 32 - 1) None false
      [(0%nat, 0, demo_run1); (0%nat, 0, demo_run2)] [(1, false); (2, false)]);
      [exact HL|done|apply demo_sleeper_ok|done|by apply Forall2_cons; split; [|apply Forall2_cons]].
Defined.

(** The first process has been made, picked by the scheduler and started. *)
Definition after (m : M (pstate Z) unit) (s : pstate Z) : pstate Z := match m s with Ret _ s' | Stop _ s' => s' end.
Definition demo_up : pstate Z :=
  after (resume_run 0 0 RForkret) (after (scheduler_pick 0 0 ;; mret tt) (after (scheduler_begin 0) (after (userinit 0) (boot 1 0)))).

Lemma kernel_step_after m s : kernel_op m -> kernel_step s (after m s).
Proof.
  intros Hm. unfold after. destruct (m s) as [[] s'|w s'] eqn:Hr; [by apply (step_ret m)|by apply (step_stop m s w)].
Qed.

Lemma run_time_never_counted_witness :
  run_times demo_up = replicate NPROC 0 /\
  exists s', trap_timer 0 demo_up = Ret tt s' /\ (p_ctime <$> procs s' !! 0%nat) = Some 1.
Proof.
  destruct (run_time_never_counted 1 0 demo_up) as (H1 & _ & H3).
  - do 4 (eapply rtc_r; [|apply kernel_step_after; constructor]). constructor.
  - split; [exact H1|].
    assert (exists k p s', pcpus demo_up !! 0%nat = Some k /\ c_proc k = Some 0%nat /\ procs demo_up !! 0%nat = Some p /\
      p_state p = RUNNING /\ p_ctime p = 0 /\ trap_timer 0 demo_up = Ret tt s') as (k & p & s' & Hk & Hj & Hp & Hst & Hc & Ht).
    { vm_compute. do 3 eexists. repeat split. }
    exists s'. split; [exact Ht|]. rewrite (H3 k 0%nat p s' Hk Hj Hp Hst Ht).
    rewrite list_lookup_insert_eq by (rewrite length_fmap; by eapply lookup_lt_Some). cbn [fmap option_fmap option_map set_p_ctime p_ctime].
    by rewrite Hc.
Defined.

(** The keyboard interrupts a program. *)
Definition demo_frame (trapno : Z) : trapframe := TrapFrame 0 0 0 0 0 0 0 0 0 0 0 0 trapno 0 0 27 0 0 0.

Lemma trap_user_return_witness :
  exists s', trap (fun _ => mret tt) 0 0 (demo_frame (T_IRQ0 + IRQ_KBD)) demo_running = Ret tt s' /\ not_killed 0 s'.
Proof.
  eexists. split; [reflexivity|].
  destruct (trap_user_return (fun _ => mret tt) 0 0 (demo_frame (T_IRQ0 + IRQ_KBD)) demo_running) as [H _]; [done|].
  apply (H _ eq_refl).
Defined.
