(* ===== verification/Ftable.v ===== *)
(** Open files: [file.c], and the part of [pipe.c] that allocates a pipe.

    The state joins the file system, the table of open files, the pages that
    hold pipes and the process that makes the call. A file pointer is an index
    in the table, a pipe pointer the address of its page. *)

From S2P Require Import Prelude Block Sleeplock Log Tx Fs Pipe Syscall.

Open Scope Z_scope.

Definition NFILE : Z := 100.
Definition NOFILE : Z := 16.

(** Transactions as the system calls use them. *)
Class OpStore (S : Type) := {
  op_begin : M S unit;
  op_end : M S unit
}.

#[export] Instance log_ops {S} `{BS : BlockStore S} : OpStore (lstate S) := {
  op_begin := begin_op;
  op_end := end_op
}.

Inductive ftype := FD_NONE | FD_PIPE | FD_INODE.

#[export] Instance ftype_eq_dec : EqDecision ftype.
Proof. solve_decision. Defined.

(** struct file *)
Record file := File {
  f_type : ftype;
  f_ref : Z;           (* reference count *)
  f_readable : bool;
  f_writable : bool;
  f_pipe : Z;
  f_ip : nat;
  f_off : Z
}.

Definition set_f_ref v f := File (f_type f) v (f_readable f) (f_writable f) (f_pipe f) (f_ip f) (f_off f).
Definition set_f_type v f := File v (f_ref f) (f_readable f) (f_writable f) (f_pipe f) (f_ip f) (f_off f).
Definition set_f_off v f := File (f_type f) (f_ref f) (f_readable f) (f_writable f) (f_pipe f) (f_ip f) v.

(** The free pages are those of the page allocator, the first one first. *)
Record kstate (S : Type) := KState {
  kfs : fstate S;
  ft_lock : bool;                  (* ftable.lock *)
  ftable : list file;              (* ftable.file *)
  kpages : list Z;                 (* free pages *)
  kpipes : gmap Z pipe;            (* the pages that hold a struct pipe *)
  ofile : list (option nat);       (* myproc()->ofile *)
  kproc : uproc
}.
Arguments KState {S} _ _ _ _ _ _ _.
Arguments kfs {S} _.
Arguments ft_lock {S} _.
Arguments ftable {S} _.
Arguments kpages {S} _.
Arguments kpipes {S} _.
Arguments ofile {S} _.
Arguments kproc {S} _.

Section ftable.
Context {S : Type} `{TX : TxStore S} `{OP : OpStore S}.
Context (me : Z).
Context (devsw_read : Z -> option (nat -> Z -> M (fstate S) (Z * list Z))).
Context (devsw_write : Z -> option (nat -> list Z -> M (fstate S) Z)).

Notation K := (kstate S).
Notation MK A := (M (kstate S) A).

Definition set_kfs (v : fstate S) (s : K) : K := KState v (ft_lock s) (ftable s) (kpages s) (kpipes s) (ofile s) (kproc s).
Definition set_ft_lock v (s : K) := KState (kfs s) v (ftable s) (kpages s) (kpipes s) (ofile s) (kproc s).
Definition set_ftable v (s : K) := KState (kfs s) (ft_lock s) v (kpages s) (kpipes s) (ofile s) (kproc s).
Definition set_kpages v (s : K) := KState (kfs s) (ft_lock s) (ftable s) v (kpipes s) (ofile s) (kproc s).
Definition set_kpipes v (s : K) := KState (kfs s) (ft_lock s) (ftable s) (kpages s) v (ofile s) (kproc s).
Definition set_ofile v (s : K) := KState (kfs s) (ft_lock s) (ftable s) (kpages s) (kpipes s) v (kproc s).
Definition set_kproc v (s : K) := KState (kfs s) (ft_lock s) (ftable s) (kpages s) (kpipes s) (ofile s) v.

Definition fs_lens : lens K (fstate S) := Lens kfs set_kfs.
Definition proc_lens : lens K uproc := Lens kproc set_kproc.

Definition fs {A} (m : M (fstate S) A) : MK A := zoom fs_lens m.
Definition up {A} (m : M uproc A) : MK A := zoom proc_lens m.

Definition begin_op : MK unit := fs (dk op_begin).
Definition end_op : MK unit := fs (dk op_end).

Definition acquire_ft : MK unit :=
  s ← get; if ft_lock s then panic "acquire" else put (set_ft_lock true s).
Definition release_ft : MK unit :=
  s ← get; if ft_lock s then put (set_ft_lock false s) else panic "release".

(** [*f], and assignment to fields of [*f]. *)
Definition fat (f : nat) : MK file :=
  s ← get; match ftable s !! f with Some x => mret x | None => wild end.
Definition fmod (f : nat) (g : file -> file) : MK unit :=
  x ← fat f;
  modify (fun s => set_ftable (<[f := g x]> (ftable s)) s).

(** A call on the pipe at [p]; a page that holds no pipe is a wild pointer. *)
Definition on_pipe {A} (p : Z) (m : M pipe A) : MK A := fun s =>
  match kpipes s !! p with
  | None => Stop (Panicked "wild pointer") s
  | Some x =>
      match m x with
      | Ret a x => Ret a (set_kpipes (<[p := x]> (kpipes s)) s)
      | Stop w x => Stop w (set_kpipes (<[p := x]> (kpipes s)) s)
      end
  end.

(** What kfree leaves in the data of a page. *)
Definition junk_pipe : pipe := Pipe false (replicate (Z.to_nat PIPESIZE) 1) 0 0 0 0 0 0.

(** kalloc and kfree, for a page that is used as a struct pipe. *)
Definition kalloc_pipe : MK (option Z) :=
  s ← get;
  match kpages s with
  | [] => mret None
  | p :: l =>
      put (set_kpipes (<[p := junk_pipe]> (kpipes s)) (set_kpages l s)) ;;
      mret (Some p)
  end.

Definition kfree_pipe (p : Z) : MK unit :=
  modify (fun s => set_kpages (p :: kpages s) (set_kpipes (delete p (kpipes s)) s)).

(** ** file.c *)

Definition fileinit : MK unit := modify (set_ft_lock false).

Definition filealloc : MK (option nat) :=
  acquire_ft ;;
  s ← get;
  match find_index (fun x => f_ref x =? 0) (ftable s) with
  | Some f =>
      fmod f (set_f_ref 1) ;;
      release_ft ;;
      mret (Some f)
  | None =>
      release_ft ;;
      mret None
  end.

Definition filedup (f : nat) : MK nat :=
  acquire_ft ;;
  x ← fat f;
  if f_ref x <? 1 then panic "filedup"
  else
    fmod f (fun x => set_f_ref (i32 (f_ref x + 1)) x) ;;
    release_ft ;;
    mret f.

Definition fileclose (f : nat) : MK unit :=
  acquire_ft ;;
  x ← fat f;
  if f_ref x <? 1 then panic "fileclose"
  else
    fmod f (fun x => set_f_ref (f_ref x - 1) x) ;;
    x ← fat f;
    if 0 <? f_ref x then release_ft
    else
      ff ← fat f;
      fmod f (set_f_ref 0) ;;
      fmod f (set_f_type FD_NONE) ;;
      release_ft ;;
      match f_type ff with
      | FD_PIPE =>
          freed ← on_pipe (f_pipe ff) (pipeclose (f_writable ff));
          when freed (kfree_pipe (f_pipe ff))
      | FD_INODE =>
          begin_op ;;
          fs (iput me (f_ip ff)) ;;
          end_op
      | FD_NONE => mret tt
      end.

(** The fields of the struct stat at [st], in the order of the assignments. *)
Definition store_stat (st : Z) (v : Z * Z * Z * Z * Z) : M uproc unit :=
  let '(dev, ino, type, nlink, size) := v in
  store (st + 4) (le_bytes 4 dev) ;;
  store (st + 8) (le_bytes 4 ino) ;;
  store st (le_bytes 2 type) ;;
  store (st + 12) (le_bytes 2 nlink) ;;
  store (st + 16) (le_bytes 4 size).

Definition filestat (f : nat) (st : Z) : MK Z :=
  x ← fat f;
  match f_type x with
  | FD_INODE =>
      fs (ilock me (Some (f_ip x))) ;;
      v ← fs (stati (f_ip x));
      up (store_stat st v) ;;
      fs (iunlock me (Some (f_ip x))) ;;
      mret 0
  | _ => mret (-1)
  end.

Definition fileread (f : nat) (addr n : Z) : MK Z :=
  x ← fat f;
  if negb (f_readable x) then mret (-1)
  else
    match f_type x with
    | FD_PIPE =>
        k ← gets (fun s => u_killed (kproc s));
        r ← on_pipe (f_pipe x) (piperead k (Z.to_nat n));
        match r with
        | Read bs => up (store addr bs) ;; mret (Z.of_nat (length bs))
        | ReadFailed => mret (-1)
        | ReadSleeps => sleeps (ch_nread (Z.to_nat (f_pipe x)))
        end
    | FD_INODE =>
        fs (ilock me (Some (f_ip x))) ;;
        x ← fat f;
        r ← fs (readi devsw_read (f_ip x) (f_off x) (u32 n));
        up (store addr r.2) ;;
        when (0 <? r.1) (fmod f (fun x => set_f_off (u32 (f_off x + r.1)) x)) ;;
        fs (iunlock me (Some (f_ip x))) ;;
        mret r.1
    | FD_NONE => panic "fileread"
    end.

(** [max] of filewrite. *)
Definition write_max : Z := (MAXOPBLOCKS - 1 - 1 - 2) / 2 * 512.

(** The loop of filewrite: returns the final [i]. *)
Fixpoint filewrite_loop (fuel : nat) (f : nat) (addr n i : Z) : MK Z :=
  match fuel with
  | O => out_of_fuel
  | Datatypes.S fuel =>
      if i <? n then
        let n1 := Z.min (n - i) write_max in
        begin_op ;;
        x ← fat f;
        fs (ilock me (Some (f_ip x))) ;;
        x ← fat f;
        src ← up (load (addr + i) n1);
        r ← fs (writei devsw_write (f_ip x) src (f_off x));
        when (0 <? r) (fmod f (fun x => set_f_off (u32 (f_off x + r)) x)) ;;
        fs (iunlock me (Some (f_ip x))) ;;
        end_op ;;
        if r <? 0 then mret i
        else if negb (r =? n1) then panic "short filewrite"
        else filewrite_loop fuel f addr n (i + r)
      else mret i
  end.

(** Every turn writes at least one byte, or is the last one. *)
Definition filewrite (f : nat) (addr n : Z) : MK Z :=
  x ← fat f;
  if negb (f_writable x) then mret (-1)
  else
    match f_type x with
    | FD_PIPE =>
        k ← gets (fun s => u_killed (kproc s));
        src ← up (load addr n);
        r ← on_pipe (f_pipe x) (pipewrite k src);
        match r with
        | Wrote => mret n
        | WriteFailed => mret (-1)
        | WriteSleeps _ => sleeps (ch_nwrite (Z.to_nat (f_pipe x)))
        end
    | FD_INODE =>
        i ← filewrite_loop (Datatypes.S (Z.to_nat n)) f addr n 0;
        mret (if i =? n then n else -1)
    | FD_NONE => panic "filewrite"
    end.

(** ** pipealloc *)

(** The code after the label [bad]. *)
Definition pipealloc_bad (f0 f1 : option nat) : MK (option (nat * nat)) :=
  match f0 with Some f => fileclose f | None => mret tt end ;;
  match f1 with Some f => fileclose f | None => mret tt end ;;
  mret None.

Definition pipealloc : MK (option (nat * nat)) :=
  f0 ← filealloc;
  match f0 with
  | None => pipealloc_bad None None
  | Some f0 =>
      f1 ← filealloc;
      match f1 with
      | None => pipealloc_bad (Some f0) None
      | Some f1 =>
          p ← kalloc_pipe;
          match p with
          | None => pipealloc_bad (Some f0) (Some f1)
          | Some p =>
              on_pipe p pipe_init ;;
              fmod f0 (fun x => File FD_PIPE (f_ref x) true false p (f_ip x) (f_off x)) ;;
              fmod f1 (fun x => File FD_PIPE (f_ref x) false true p (f_ip x) (f_off x)) ;;
              mret (Some (f0, f1))
          end
      end
  end.

End ftable.
