(* ===== verification/Sysfile.v ===== *)
(** The system calls on files: [sysfile.c], except sys_exec.

    A string in user memory is the array from its address on. The array
    [junk] is what an uninitialised [char name[DIRSIZ]] holds. *)

From S2P Require Import Prelude Block Sleeplock Log Tx Fs Pipe Syscall Ftable.

Open Scope Z_scope.

Section sysfile.
Context {S : Type} `{TX : TxStore S} `{OP : OpStore S}.
Context (me : Z).
Context (devsw_read : Z -> option (nat -> Z -> M (fstate S) (Z * list Z))).
Context (devsw_write : Z -> option (nat -> list Z -> M (fstate S) Z)).
Context (junk : list Z).

Notation MK A := (M (kstate S) A).

(** ** Descriptors *)

(** The descriptor and the file. *)
Definition argfd (n : Z) : MK (option (Z * nat)) :=
  r ← up (argint n);
  match r with
  | None => mret None
  | Some fd =>
      if (fd <? 0) || (NOFILE <=? fd) then mret None
      else
        s ← get;
        match ofile s !! Z.to_nat fd with
        | None => wild
        | Some None => mret None
        | Some (Some f) => mret (Some (fd, f))
        end
  end.

Definition is_free (o : option nat) : bool := match o with None => true | Some _ => false end.

Definition fdalloc (f : nat) : MK (option Z) :=
  s ← get;
  match find_index is_free (ofile s) with
  | Some fd =>
      put (set_ofile (<[fd := Some f]> (ofile s)) s) ;;
      mret (Some (Z.of_nat fd))
  | None => mret None
  end.

(** [myproc()->ofile[fd] = 0] *)
Definition clear_fd (fd : Z) : MK unit :=
  modify (fun s => set_ofile (<[Z.to_nat fd := None]> (ofile s)) s).

Definition sys_dup : MK Z :=
  r ← argfd 0;
  match r with
  | None => mret (-1)
  | Some (_, f) =>
      fd ← fdalloc f;
      match fd with
      | None => mret (-1)
      | Some fd => filedup f ;; mret fd
      end
  end.

(** The arguments of read and write. *)
Definition arg_buffer : MK (option (nat * Z * Z)) :=
  r ← argfd 0;
  match r with
  | None => mret None
  | Some (_, f) =>
      n ← up (argint 2);
      match n with
      | None => mret None
      | Some n =>
          p ← up (argptr 1 n);
          match p with
          | None => mret None
          | Some p => mret (Some (f, p, n))
          end
      end
  end.

Definition sys_read : MK Z :=
  r ← arg_buffer;
  match r with
  | None => mret (-1)
  | Some (f, p, n) => fileread me devsw_read f p n
  end.

Definition sys_write : MK Z :=
  r ← arg_buffer;
  match r with
  | None => mret (-1)
  | Some (f, p, n) => filewrite me devsw_write f p n
  end.

Definition sys_close : MK Z :=
  r ← argfd 0;
  match r with
  | None => mret (-1)
  | Some (fd, f) =>
      clear_fd fd ;;
      fileclose me f ;;
      mret 0
  end.

Definition sizeof_stat : Z := 20.

Definition sys_fstat : MK Z :=
  r ← argfd 0;
  match r with
  | None => mret (-1)
  | Some (_, f) =>
      st ← up (argptr 1 sizeof_stat);
      match st with
      | None => mret (-1)
      | Some st => filestat me f st
      end
  end.

(** ** Links *)

(** The array at a pointer to a string. *)
Definition user_str (p : Z) : MK (list Z) := s ← get; mret (drop (Z.to_nat p) (u_mem (kproc s))).

(** [argstr], and the array. *)
Definition arg_path (n : Z) : MK (option (list Z)) :=
  r ← up (argstr n);
  match r with
  | None => mret None
  | Some (p, _) => path ← user_str p; mret (Some path)
  end.

(** The code after the label [bad] of sys_link. *)
Definition sys_link_bad (ip : nat) : MK Z :=
  fs (ilock me (Some ip)) ;;
  fs (dmod ip (fun d => set_d_nlink (i16 (d_nlink d - 1)) d)) ;;
  fs (iupdate ip) ;;
  fs (iunlockput me ip) ;;
  end_op ;;
  mret (-1).

Definition link_inode (ip : nat) (new : list Z) : MK Z :=
  r ← fs (nameiparent me devsw_read new junk);
  match r with
  | (None, _) => sys_link_bad ip
  | (Some dp, name) =>
      fs (ilock me (Some dp)) ;;
      d ← fs (iat dp);
      i ← fs (iat ip);
      c ← (if negb (i_dev d =? i_dev i) then mret (-1)
           else fs (dirlink me devsw_read devsw_write dp name (i_inum i)));
      if c <? 0 then
        fs (iunlockput me dp) ;;
        sys_link_bad ip
      else
        fs (iunlockput me dp) ;;
        fs (iput me ip) ;;
        end_op ;;
        mret 0
  end.

Definition sys_link : MK Z :=
  old ← arg_path 0;
  new ← (match old with None => mret None | Some _ => arg_path 1 end);
  match old, new with
  | Some old, Some new =>
      begin_op ;;
      r ← fs (namei me devsw_read junk old);
      match r with
      | None => end_op ;; mret (-1)
      | Some ip =>
          fs (ilock me (Some ip)) ;;
          i ← fs (iat ip);
          if d_type (i_d i) =? T_DIR then
            fs (iunlockput me ip) ;;
            end_op ;;
            mret (-1)
          else
            fs (dmod ip (fun d => set_d_nlink (i16 (d_nlink d + 1)) d)) ;;
            fs (iupdate ip) ;;
            fs (iunlock me (Some ip)) ;;
            link_inode ip new
      end
  | _, _ => mret (-1)
  end.

(** The loop of isdirempty from [off] on. *)
Fixpoint isdirempty_loop (fuel : nat) (dp : nat) (off : Z) : M (fstate S) bool :=
  match fuel with
  | O => out_of_fuel
  | Datatypes.S fuel =>
      i ← iat dp;
      if u32 off <? d_size (i_d i) then
        r ← readi devsw_read dp (u32 off) DIRENT;
        if negb (r.1 =? DIRENT) then panic "isdirempty: readi"
        else if negb (de_inum r.2 =? 0) then mret false
        else isdirempty_loop fuel dp (off + DIRENT)
      else mret true
  end.

Definition isdirempty (dp : nat) : M (fstate S) bool :=
  i ← iat dp;
  isdirempty_loop (Datatypes.S (Z.to_nat (d_size (i_d i) / DIRENT))) dp (2 * DIRENT).

(** "." and ".." *)
Definition dot : list Z := [46; 0].
Definition dotdot : list Z := [46; 46; 0].

(** The code after the label [bad] of sys_unlink. *)
Definition sys_unlink_bad (dp : nat) : MK Z :=
  fs (iunlockput me dp) ;;
  end_op ;;
  mret (-1).

(** Entry [off] of the directory [dp] is the inode [ip]. *)
Definition unlink_inode (dp ip : nat) (off : Z) : MK Z :=
  fs (ilock me (Some ip)) ;;
  i ← fs (iat ip);
  if d_nlink (i_d i) <? 1 then panic "unlink: nlink < 1"
  else
    empty ← (if d_type (i_d i) =? T_DIR then fs (isdirempty ip) else mret true);
    if negb empty then
      fs (iunlockput me ip) ;;
      sys_unlink_bad dp
    else
      r ← fs (writei devsw_write dp (replicate (Z.to_nat DIRENT) 0) off);
      if negb (r =? DIRENT) then panic "unlink: writei"
      else
        i ← fs (iat ip);
        when (d_type (i_d i) =? T_DIR)
          (fs (dmod dp (fun d => set_d_nlink (i16 (d_nlink d - 1)) d)) ;;
           fs (iupdate dp)) ;;
        fs (iunlockput me dp) ;;
        fs (dmod ip (fun d => set_d_nlink (i16 (d_nlink d - 1)) d)) ;;
        fs (iupdate ip) ;;
        fs (iunlockput me ip) ;;
        end_op ;;
        mret 0.

Definition sys_unlink : MK Z :=
  path ← arg_path 0;
  match path with
  | None => mret (-1)
  | Some path =>
      begin_op ;;
      r ← fs (nameiparent me devsw_read path junk);
      match r with
      | (None, _) => end_op ;; mret (-1)
      | (Some dp, name) =>
          fs (ilock me (Some dp)) ;;
          c ← fs (namecmp name dot);
          c' ← (if c =? 0 then mret 0 else fs (namecmp name dotdot));
          if c' =? 0 then sys_unlink_bad dp
          else
            r ← fs (dirlookup devsw_read dp name);
            match r with
            | None => sys_unlink_bad dp
            | Some (ip, off) => unlink_inode dp ip off
            end
      end
  end.

(** ** Creating and opening *)

(** The part of create after the name was not found; ialloc does not return
    a null pointer. *)
Definition create_new (dp : nat) (name : list Z) (type major minor : Z) : M (fstate S) (option nat) :=
  d ← iat dp;
  ip ← ialloc (i_dev d) type;
  ilock me (Some ip) ;;
  dmod ip (fun d => DInode (d_type d) major minor 1 (d_size d) (d_addrs d)) ;;
  iupdate ip ;;
  when (type =? T_DIR)
    (dmod dp (fun d => set_d_nlink (i16 (d_nlink d + 1)) d) ;;
     iupdate dp ;;
     i ← iat ip;
     c ← dirlink me devsw_read devsw_write ip dot (i_inum i);
     if c <? 0 then panic "create dots"
     else
       d ← iat dp;
       c ← dirlink me devsw_read devsw_write ip dotdot (i_inum d);
       if c <? 0 then panic "create dots" else mret tt) ;;
  i ← iat ip;
  c ← dirlink me devsw_read devsw_write dp name (i_inum i);
  if c <? 0 then panic "create: dirlink"
  else
    iunlockput me dp ;;
    mret (Some ip).

Definition create (path : list Z) (type major minor : Z) : M (fstate S) (option nat) :=
  r ← nameiparent me devsw_read path junk;
  match r with
  | (None, _) => mret None
  | (Some dp, name) =>
      ilock me (Some dp) ;;
      r ← dirlookup devsw_read dp name;
      match r with
      | Some (ip, _) =>
          iunlockput me dp ;;
          ilock me (Some ip) ;;
          i ← iat ip;
          if (type =? T_FILE) && (d_type (i_d i) =? T_FILE) then mret (Some ip)
          else
            iunlockput me ip ;;
            mret None
      | None => create_new dp name type major minor
      end
  end.

(** The first part of sys_open: the inode, locked. *)
Definition open_inode (path : list Z) (omode : Z) : MK (option nat) :=
  if negb (Z.land omode O_CREATE =? 0) then fs (create path T_FILE 0 0)
  else
    r ← fs (namei me devsw_read junk path);
    match r with
    | None => mret None
    | Some ip =>
        fs (ilock me (Some ip)) ;;
        i ← fs (iat ip);
        if (d_type (i_d i) =? T_DIR) && negb (omode =? O_RDONLY) then
          fs (iunlockput me ip) ;;
          mret None
        else mret (Some ip)
    end.

Definition sys_open : MK Z :=
  path ← arg_path 0;
  omode ← (match path with None => mret None | Some _ => up (argint 1) end);
  match path, omode with
  | Some path, Some omode =>
      begin_op ;;
      r ← open_inode path omode;
      match r with
      | None => end_op ;; mret (-1)
      | Some ip =>
          f ← filealloc;
          fd ← (match f with None => mret None | Some f => fdalloc f end);
          match f, fd with
          | Some f, Some fd =>
              fs (iunlock me (Some ip)) ;;
              end_op ;;
              fmod f (fun x => File FD_INODE (f_ref x) (Z.land omode O_WRONLY =? 0)
                (negb (Z.land omode O_WRONLY =? 0) || negb (Z.land omode O_RDWR =? 0)) (f_pipe x) ip 0) ;;
              mret fd
          | _, _ =>
              match f with Some f => fileclose me f | None => mret tt end ;;
              fs (iunlockput me ip) ;;
              end_op ;;
              mret (-1)
          end
      end
  | _, _ => mret (-1)
  end.

(** The end of sys_mkdir and of sys_mknod. *)
Definition made (ip : option nat) : MK Z :=
  match ip with
  | None => end_op ;; mret (-1)
  | Some ip =>
      fs (iunlockput me ip) ;;
      end_op ;;
      mret 0
  end.

Definition sys_mkdir : MK Z :=
  begin_op ;;
  path ← arg_path 0;
  ip ← (match path with None => mret None | Some path => fs (create path T_DIR 0 0) end);
  made ip.

Definition sys_mknod : MK Z :=
  begin_op ;;
  path ← arg_path 0;
  major ← (match path with None => mret None | Some _ => up (argint 1) end);
  minor ← (match major with None => mret None | Some _ => up (argint 2) end);
  ip ← (match path, major, minor with
        | Some path, Some major, Some minor => fs (create path T_DEV (i16 major) (i16 minor))
        | _, _, _ => mret None
        end);
  made ip.

Definition set_cwd (ip : nat) : M (fstate S) unit :=
  modify (fun s => FState (fdk s) (ic_lock s) (icache s) (fsb s) ip).

Definition sys_chdir : MK Z :=
  begin_op ;;
  path ← arg_path 0;
  ip ← (match path with None => mret None | Some path => fs (namei me devsw_read junk path) end);
  match ip with
  | None => end_op ;; mret (-1)
  | Some ip =>
      fs (ilock me (Some ip)) ;;
      i ← fs (iat ip);
      if negb (d_type (i_d i) =? T_DIR) then
        fs (iunlockput me ip) ;;
        end_op ;;
        mret (-1)
      else
        fs (iunlock me (Some ip)) ;;
        s ← fs get;
        fs (iput me (fcwd s)) ;;
        end_op ;;
        fs (set_cwd ip) ;;
        mret 0
  end.

Definition sys_pipe : MK Z :=
  fd ← up (argptr 0 8);
  match fd with
  | None => mret (-1)
  | Some fd =>
      r ← pipealloc me;
      match r with
      | None => mret (-1)
      | Some (rf, wf) =>
          fd0 ← fdalloc rf;
          fd1 ← (match fd0 with None => mret None | Some _ => fdalloc wf end);
          match fd0, fd1 with
          | Some fd0, Some fd1 =>
              up (store fd (le_bytes 4 fd0)) ;;
              up (store (fd + 4) (le_bytes 4 fd1)) ;;
              mret 0
          | _, _ =>
              match fd0 with Some fd0 => clear_fd fd0 | None => mret tt end ;;
              fileclose me rf ;;
              fileclose me wf ;;
              mret (-1)
          end
      end
  end.

(** ** Descriptors of new and of dying processes *)

(** The loop of fork over [curproc->ofile]: the child's table. *)
Fixpoint fork_files (l : list (option nat)) : MK (list (option nat)) :=
  match l with
  | [] => mret []
  | None :: l =>
      t ← fork_files l;
      mret (None :: t)
  | Some f :: l =>
      f' ← filedup f;
      t ← fork_files l;
      mret (Some f' :: t)
  end.

(** The loop of exit that closes all open files. *)
Definition exit_files : MK unit :=
  for_each (seq 0 (Z.to_nat NOFILE)) (fun fd =>
    s ← get;
    match ofile s !! fd with
    | Some (Some f) =>
        fileclose me f ;;
        clear_fd (Z.of_nat fd)
    | Some None => mret tt
    | None => wild
    end).

(** The entries of the table of system calls that are here. *)
Definition file_call (c : sysname) : option (MK Z) :=
  match c with
  | Syscall.sys_dup => Some sys_dup
  | Syscall.sys_read => Some sys_read
  | Syscall.sys_write => Some sys_write
  | Syscall.sys_close => Some sys_close
  | Syscall.sys_fstat => Some sys_fstat
  | Syscall.sys_link => Some sys_link
  | Syscall.sys_unlink => Some sys_unlink
  | Syscall.sys_open => Some sys_open
  | Syscall.sys_mkdir => Some sys_mkdir
  | Syscall.sys_mknod => Some sys_mknod
  | Syscall.sys_chdir => Some sys_chdir
  | Syscall.sys_pipe => Some sys_pipe
  | _ => None
  end.

End sysfile.
