(* ===== verification/Exec.v ===== *)
(** Running a program: [exec.c] and sys_exec of [sysfile.c].

    The rest of the kernel is an interface, as for processes: the file system
    by what exec calls of it, page tables by their addresses. A string is the
    array from its first character on. *)

From S2P Require Import Prelude Mem Mmu Block Syscall.

Open Scope Z_scope.

Definition MAXARG : Z := 32.

(** ** elf.h *)

Definition ELF_MAGIC : Z := 0x464C457F.
Definition ELF_PROG_LOAD : Z := 1.

(** struct elfhdr, struct proghdr: the fields that are used. *)
Definition sizeof_elfhdr : Z := 52.
Definition elf_magic (h : list Z) : Z := get32 h 0.
Definition elf_entry (h : list Z) : Z := get32 h 24.
Definition elf_phoff (h : list Z) : Z := get32 h 28.
Definition elf_phnum (h : list Z) : Z := get16 h 44.

Definition sizeof_proghdr : Z := 32.
Definition ph_type (h : list Z) : Z := get32 h 0.
Definition ph_off (h : list Z) : Z := get32 h 4.
Definition ph_vaddr (h : list Z) : Z := get32 h 8.
Definition ph_filesz (h : list Z) : Z := get32 h 16.
Definition ph_memsz (h : list Z) : Z := get32 h 20.

(** ** What exec calls *)

Class ExecEnv (X : Type) := {
  x_begin_op : M X unit;
  x_end_op : M X unit;
  x_namei : list Z -> M X (option nat);
  x_ilock : nat -> M X unit;
  x_iunlockput : nat -> M X unit;
  x_readi : nat -> Z -> Z -> M X (Z * list Z);       (* the result and the bytes *)
  x_cprintf : string -> list parg -> M X unit;
  x_setupkvm : M X Z;
  x_allocuvm : Z -> Z -> Z -> M X Z;
  x_loaduvm : Z -> Z -> nat -> Z -> Z -> M X Z;
  x_clearpteu : Z -> Z -> M X unit;
  x_copyout : Z -> Z -> list Z -> M X Z;             (* the bytes to copy *)
  x_switchuvm : Z -> M X unit;                       (* on p->pgdir *)
  x_freevm : Z -> M X unit
}.

(** The fields of the process that exec changes. *)
Record image := Image {
  im_name : list Z;      (* 16 bytes *)
  im_pgdir : Z;
  im_sz : Z;
  im_eip : Z;
  im_esp : Z
}.

Record xstate (X : Type) := XState { xenv : X; ximage : image }.
Arguments XState {X} _ _.
Arguments xenv {X} _.
Arguments ximage {X} _.

Section exec.
Context {X : Type} {E : ExecEnv X}.

Notation MX A := (M (xstate X) A).

Definition xcall {A} (m : M X A) : MX A := zoom (Lens xenv (fun x s => XState x (ximage s))) m.

(** The program headers: [n] to go, at offset [off]. The size of the image,
    or [None] for [goto bad]. *)
Fixpoint load_segments (n : nat) (ip : nat) (pgdir off sz : Z) : MX (option Z) :=
  match n with
  | O => mret (Some sz)
  | S n =>
      r ← xcall (x_readi ip (u32 off) sizeof_proghdr);
      let ph := r.2 in
      if negb (r.1 =? sizeof_proghdr) then mret None
      else if negb (ph_type ph =? ELF_PROG_LOAD) then load_segments n ip pgdir (i32 (off + sizeof_proghdr)) sz
      else if ph_memsz ph <? ph_filesz ph then mret None
      else if u32 (ph_vaddr ph + ph_memsz ph) <? ph_vaddr ph then mret None
      else
        sz ← xcall (x_allocuvm pgdir sz (u32 (ph_vaddr ph + ph_memsz ph)));
        let sz := u32 sz in
        if sz =? 0 then mret None
        else if negb (ph_vaddr ph mod PGSIZE =? 0) then mret None
        else
          c ← xcall (x_loaduvm pgdir (ph_vaddr ph) ip (ph_off ph) (ph_filesz ph));
          if c <? 0 then mret None
          else load_segments n ip pgdir (i32 (off + sizeof_proghdr)) sz
  end.

(** [strlen(s) + 1] bytes from a pointer on. *)
Definition string_of (s : list Z) : option (list Z) :=
  match find_index (fun c => c =? 0) s with
  | Some n => Some (take (n + 1) s)
  | None => None
  end.

(** [& ~3] *)
Definition word_align (a : Z) : Z := Z.land a (u32 (Z.lnot 3)).

(** The loop over the arguments: how many there are, the stack pointer and
    the addresses of the strings; [None] for [goto bad]. *)
Fixpoint push_args (pgdir : Z) (argv : list (option (list Z))) (argc sp : Z) (ptrs : list Z) :
    MX (option (Z * Z * list Z)) :=
  match argv with
  | [] => wild
  | None :: _ => mret (Some (argc, sp, ptrs))
  | Some a :: argv =>
      if MAXARG <=? argc then mret None
      else
        match string_of a with
        | None => wild
        | Some str =>
            let sp := word_align (u32 (sp - Z.of_nat (length str))) in
            r ← xcall (x_copyout pgdir sp str);
            if r <? 0 then mret None
            else push_args pgdir argv (argc + 1) sp (ptrs ++ [sp])
        end
  end.

(** The words of [ustack] that are copied. *)
Definition ustack (argc sp : Z) (ptrs : list Z) : list Z :=
  [0xffffffff; argc; u32 (sp - (argc + 1) * 4)] ++ ptrs ++ [0].

Definition bytes_of (ws : list Z) : list Z := ws ≫= le_bytes 4.

(** The stack: the page table's size becomes [sz], and the stack pointer is
    the result. *)
Definition push_stack (pgdir sz : Z) (argv : list (option (list Z))) : MX (option Z) :=
  r ← push_args pgdir argv 0 sz [];
  match r with
  | None => mret None
  | Some (argc, sp, ptrs) =>
      let top := u32 (sp - (3 + argc + 1) * 4) in
      r ← xcall (x_copyout pgdir top (bytes_of (ustack argc sp ptrs)));
      if r <? 0 then mret None else mret (Some top)
  end.

(** The loop that finds the last element of the path: [s] is still to be
    read, [last] is after the last slash. *)
Fixpoint last_elem (s last : list Z) : option (list Z) :=
  match s with
  | [] => None
  | c :: s => if c =? 0 then Some last else last_elem s (if c =? 47 then s else last)
  end.

(** The code after the label [bad]. *)
Definition exec_bad (pgdir : Z) (ip : option nat) : MX Z :=
  when (negb (pgdir =? 0)) (xcall (x_freevm pgdir)) ;;
  match ip with
  | Some ip => xcall (x_iunlockput ip) ;; xcall x_end_op
  | None => mret tt
  end ;;
  mret (-1).

(** From the allocation of the stack on. *)
Definition exec_commit (path : list Z) (argv : list (option (list Z))) (pgdir sz entry : Z) : MX Z :=
  let sz := PGROUNDUP sz in
  sz ← xcall (x_allocuvm pgdir sz (u32 (sz + 2 * PGSIZE)));
  let sz := u32 sz in
  if sz =? 0 then exec_bad pgdir None
  else
    xcall (x_clearpteu pgdir (u32 (sz - 2 * PGSIZE))) ;;
    r ← push_stack pgdir sz argv;
    match r with
    | None => exec_bad pgdir None
    | Some sp =>
        match last_elem path path with
        | None => wild
        | Some last =>
            p ← gets ximage;
            let name := name_copy (im_name p) last in
            modify (fun s => XState (xenv s) (Image name pgdir sz entry sp)) ;;
            xcall (x_switchuvm pgdir) ;;
            xcall (x_freevm (im_pgdir p)) ;;
            mret 0
        end
    end.

Definition exec (path : list Z) (argv : list (option (list Z))) : MX Z :=
  xcall x_begin_op ;;
  r ← xcall (x_namei path);
  match r with
  | None =>
      xcall x_end_op ;;
      xcall (x_cprintf ("exec: fail" ++ nl) []) ;;
      mret (-1)
  | Some ip =>
      xcall (x_ilock ip) ;;
      r ← xcall (x_readi ip 0 sizeof_elfhdr);
      let elf := r.2 in
      if negb (r.1 =? sizeof_elfhdr) then exec_bad 0 (Some ip)
      else if negb (elf_magic elf =? ELF_MAGIC) then exec_bad 0 (Some ip)
      else
        pgdir ← xcall x_setupkvm;
        if pgdir =? 0 then exec_bad 0 (Some ip)
        else
          r ← load_segments (Z.to_nat (elf_phnum elf)) ip pgdir (i32 (elf_phoff elf)) 0;
          match r with
          | None => exec_bad pgdir (Some ip)
          | Some sz =>
              xcall (x_iunlockput ip) ;;
              xcall x_end_op ;;
              exec_commit path argv pgdir sz (elf_entry elf)
          end
  end.

(** ** sys_exec *)

(** The array at a user address. *)
Definition user_array (u : uproc) (p : Z) : list Z := drop (Z.to_nat p) (u_mem u).

(** The loop of sys_exec: entries of argv from [i] on. *)
Fixpoint fetch_argv (n : nat) (uargv i : Z) : M uproc (option (list (option (list Z)))) :=
  match n with
  | O => mret None
  | S n =>
      uarg ← fetchint (u32 (uargv + 4 * i));
      match uarg with
      | None => mret None
      | Some uarg =>
          if u32 uarg =? 0 then mret (Some [None])
          else
            r ← fetchstr (u32 uarg);
            match r with
            | None => mret None
            | Some (p, _) =>
                u ← get;
                rest ← fetch_argv n uargv (i + 1);
                match rest with
                | None => mret None
                | Some rest => mret (Some (Some (user_array u p) :: rest))
                end
            end
      end
  end.

(** The path and the arguments. *)
Definition exec_args : M uproc (option (list Z * list (option (list Z)))) :=
  path ← argstr 0;
  match path with
  | None => mret None
  | Some (path, _) =>
      uargv ← argint 1;
      match uargv with
      | None => mret None
      | Some uargv =>
          u ← get;
          argv ← fetch_argv (Z.to_nat MAXARG) (u32 uargv) 0;
          match argv with
          | None => mret None
          | Some argv => mret (Some (user_array u path, argv))
          end
      end
  end.

(** The process [u] that makes the call does not change before exec commits. *)
Definition sys_exec (u : uproc) : MX Z := fun s =>
  match exec_args u with
  | Ret None _ => Ret (-1) s
  | Ret (Some (path, argv)) _ => exec path argv s
  | Stop w _ => Stop w s
  end.

End exec.

(** ** What exec holds

    Any environment, with a tally of what exec has taken and not given back:
    transactions, references to inodes and their locks, and page tables. *)

Record tally := Tally {
  t_ops : Z;               (* begin_op without end_op *)
  t_refs : list nat;       (* inodes from namei, not yet put *)
  t_locks : list nat;      (* locked inodes *)
  t_tables : list Z;       (* page tables from setupkvm, not yet freed *)
  t_freed : list Z         (* other page tables that were freed *)
}.

Definition idle : tally := Tally 0 [] [] [] [].

Definition drop_first {A} `{EqDecision A} (x : A) (l : list A) : list A := list_difference l [x].
#[local] Arguments drop_first : simpl never.

Section counted.
Context {X : Type} (E : ExecEnv X).

Definition tick {A} (f : A -> tally -> tally) (m : M X A) : M (X * tally) A := fun s =>
  match m s.1 with
  | Ret a x => Ret a (x, f a s.2)
  | Stop w x => Stop w (x, s.2)
  end.

Definition same {A} (_ : A) (t : tally) : tally := t.

#[export] Instance counted : ExecEnv (X * tally) := {
  x_begin_op := tick (fun _ t => Tally (t_ops t + 1) (t_refs t) (t_locks t) (t_tables t) (t_freed t)) x_begin_op;
  x_end_op := tick (fun _ t => Tally (t_ops t - 1) (t_refs t) (t_locks t) (t_tables t) (t_freed t)) x_end_op;
  x_namei path := tick (fun r t =>
    Tally (t_ops t) (option_list r ++ t_refs t) (t_locks t) (t_tables t) (t_freed t)) (x_namei path);
  x_ilock ip := tick (fun _ t => Tally (t_ops t) (t_refs t) (ip :: t_locks t) (t_tables t) (t_freed t)) (x_ilock ip);
  x_iunlockput ip := tick (fun _ t =>
    Tally (t_ops t) (drop_first ip (t_refs t)) (drop_first ip (t_locks t)) (t_tables t) (t_freed t)) (x_iunlockput ip);
  x_readi ip off n := tick same (x_readi ip off n);
  x_cprintf fmt args := tick same (x_cprintf fmt args);
  x_setupkvm := tick (fun r t =>
    Tally (t_ops t) (t_refs t) (t_locks t) (if r =? 0 then t_tables t else r :: t_tables t) (t_freed t)) x_setupkvm;
  x_allocuvm pgdir old new := tick same (x_allocuvm pgdir old new);
  x_loaduvm pgdir a ip off n := tick same (x_loaduvm pgdir a ip off n);
  x_clearpteu pgdir a := tick same (x_clearpteu pgdir a);
  x_copyout pgdir a bs := tick same (x_copyout pgdir a bs);
  x_switchuvm pgdir := tick same (x_switchuvm pgdir);
  x_freevm pgdir := tick (fun _ t =>
    if decide (pgdir ∈ t_tables t)
    then Tally (t_ops t) (t_refs t) (t_locks t) (drop_first pgdir (t_tables t)) (t_freed t)
    else Tally (t_ops t) (t_refs t) (t_locks t) (t_tables t) (pgdir :: t_freed t)) (x_freevm pgdir)
}.

Implicit Types s : xstate (X * tally).

Definition any_stop (w : stop) s : Prop := True.

Lemma wpe_tick {A} (f : A -> tally -> tally) (m : M X A) s (Q : A -> xstate (X * tally) -> Prop) :
  (forall a x, Q a (XState (x, f a (xenv s).2) (ximage s))) -> wpe (xcall (tick f m)) s Q any_stop.
Proof. intros HQ. apply wpe_zoom. unfold wpe, tick. cbn [view update]. destruct (m (xenv s).1); [apply HQ|done]. Qed.

Lemma wpe_tick_eq {A} (f : A -> tally -> tally) (m : M X A) s (Q : A -> xstate (X * tally) -> Prop) :
  (forall a x, m (xenv s).1 = Ret a x -> Q a (XState (x, f a (xenv s).2) (ximage s))) -> wpe (xcall (tick f m)) s Q any_stop.
Proof. intros HQ. apply wpe_zoom. unfold wpe, tick. cbn [view update]. destruct (m (xenv s).1); [by apply HQ|done]. Qed.

(** The header of the file [path], as exec reads it. *)
Definition program_header (path : list Z) (x : X) : option (list Z) :=
  match (x_begin_op ;; x_namei path) x with
  | Ret (Some ip) x =>
      match (x_ilock ip ;; x_readi ip 0 sizeof_elfhdr) x with
      | Ret r _ => if r.1 =? sizeof_elfhdr then Some r.2 else None
      | Stop _ _ => None
      end
  | _ => None
  end.

(** A part of exec that takes nothing and gives nothing back. *)
Definition held s s' : Prop := (xenv s').2 = (xenv s).2 /\ ximage s' = ximage s.

Lemma load_segments_held n ip pgdir off sz s s0 : held s0 s ->
  wpe (load_segments n ip pgdir off sz) s (fun _ s' => held s0 s') any_stop.
Proof.
  revert off sz s. induction n as [|n IH]; intros off sz s Hs; cbn [load_segments]; [by apply wpe_ret|].
  apply wpe_bind, wpe_tick. intros r x1.
  repeat match goal with
  | |- wpe (if ?b then _ else _) _ _ _ => destruct b
  | |- wpe (mret _) _ _ _ => apply wpe_ret; exact Hs
  | |- wpe (load_segments _ _ _ _ _) _ _ _ => apply IH; exact Hs
  | |- wpe (mbind _ _) _ _ _ => apply wpe_bind, wpe_tick; intros ? ?; cbv zeta
  end.
Qed.

Lemma push_args_held pgdir argv argc sp ptrs s s0 : held s0 s ->
  wpe (push_args pgdir argv argc sp ptrs) s (fun _ s' => held s0 s') any_stop.
Proof.
  revert argc sp ptrs s. induction argv as [|[a|] argv IH]; intros argc sp ptrs s Hs; cbn [push_args]; [done| |by apply wpe_ret].
  destruct (MAXARG <=? argc); [by apply wpe_ret|]. destruct (string_of a) as [str|]; [|done].
  apply wpe_bind, wpe_tick. intros r x1. destruct (r <? 0); [by apply wpe_ret|by apply IH].
Qed.

Lemma push_stack_held pgdir sz argv s s0 : held s0 s ->
  wpe (push_stack pgdir sz argv) s (fun _ s' => held s0 s') any_stop.
Proof.
  intros Hs. unfold push_stack. apply wpe_bind. eapply wpe_mono; [| |by apply (push_args_held _ _ _ _ _ s s0)]; [|done].
  cbv beta. intros [[[argc sp] ptrs]|] s1 Hs1; [|by apply wpe_ret]. apply wpe_bind, wpe_tick. intros r x2.
  destruct (r <? 0); by apply wpe_ret.
Qed.

Lemma drop_first_one {A} `{EqDecision A} (x : A) : drop_first x [x] = [].
Proof. unfold drop_first. cbn. destruct (decide_rel _ x [x]); [done|set_solver]. Qed.

(** Nothing is held, and the process has the image [im]. *)
Definition nothing_held (im : image) (tables freed : list Z) s : Prop :=
  (xenv s).2 = Tally 0 [] [] tables freed /\ ximage s = im.

Lemma exec_bad_gives_back im s (pgdir : Z) (ip : option nat) :
  (xenv s).2 = Tally (Z.of_nat (length (option_list ip))) (option_list ip) (option_list ip)
                 (if pgdir =? 0 then [] else [pgdir]) [] -> ximage s = im ->
  wpe (exec_bad pgdir ip) s (fun r s' => r = -1 /\ nothing_held im [] [] s') any_stop.
Proof.
  intros Ht Him. unfold exec_bad. apply wpe_bind.
  assert (forall s1, (xenv s1).2 = Tally (Z.of_nat (length (option_list ip))) (option_list ip) (option_list ip) [] [] ->
    ximage s1 = im -> wpe (match ip with Some ip => xcall (x_iunlockput ip) ;; xcall x_end_op | None => mret tt end ;; mret (-1)) s1
      (fun r s' => r = -1 /\ nothing_held im [] [] s') any_stop) as Hrest.
  { intros s1 H1 H2. apply wpe_bind. destruct ip as [ip|]; [|by apply wpe_ret, wpe_ret].
    apply wpe_bind, wpe_tick. intros [] x2. apply wpe_tick. intros [] x3. apply wpe_ret. split; [done|].
    split; [|done]. cbn. rewrite H1. cbn. by rewrite !drop_first_one. }
  destruct (pgdir =? 0); cbn [negb when]; [by apply wpe_ret, Hrest|].
  apply wpe_tick. intros [] x1. apply Hrest; [|done]. cbn. rewrite Ht. cbn [t_tables].
  rewrite decide_True by set_solver. cbn. by rewrite drop_first_one.
Qed.

Lemma exec_commit_held im path argv pgdir sz entry s :
  pgdir <> 0 -> pgdir <> im_pgdir im -> (xenv s).2 = Tally 0 [] [] [pgdir] [] -> ximage s = im ->
  wpe (exec_commit path argv pgdir sz entry) s
    (fun r s' => r = -1 /\ nothing_held im [] [] s' \/
       r = 0 /\ exists im', nothing_held im' [pgdir] [im_pgdir im] s' /\ im_pgdir im' = pgdir /\ im_eip im' = entry) any_stop.
Proof.
  intros Hpg Hne Ht Him. unfold exec_commit. apply wpe_bind, wpe_tick. intros sz' x1. cbv zeta.
  assert (forall s1, (xenv s1).2 = Tally 0 [] [] [pgdir] [] -> ximage s1 = im -> forall Q,
    wpe (exec_bad pgdir None) s1 (fun r s' => r = -1 /\ nothing_held im [] [] s' \/ Q r s') any_stop) as Hbad.
  { intros s1 H1 H2 Q. eapply wpe_mono; [| |apply (exec_bad_gives_back im s1 pgdir None); [|done]]; [by left|done|].
    rewrite (proj2 (Z.eqb_neq pgdir 0)) by done. done. }
  destruct (u32 sz' =? 0); [by apply Hbad|].
  apply wpe_bind, wpe_tick. intros [] x2. apply wpe_bind.
  eapply wpe_mono; [| |apply (push_stack_held _ _ _ _ s)]; [|done|by split]. cbv beta.
  intros [sp|] s3 [H3 H3']; [|apply Hbad; congruence].
  destruct (last_elem path path) as [last|]; [|done].
  apply wpe_bind, wpe_gets, wpe_bind, wpe_modify, wpe_bind, wpe_tick. intros [] x4. apply wpe_bind, wpe_tick. intros [] x5.
  apply wpe_ret. right. split; [done|].
  eexists. split; [split; [|reflexivity]|done]. cbn. rewrite H3, Ht, H3', Him. cbn [t_tables].
  rewrite decide_False by set_solver. done.
Qed.

(** C15: exec takes and gives back in balance, whatever the functions it calls
    return. When it returns, the transaction is over and the inode is unlocked
    and put, on every path. When it returns -1, the page table it made is
    freed and the process has the image it had. When it returns 0, the
    process has the new page table and its next instruction is the entry point
    in the header of the file, which has the magic number of a program, and
    the old page table, and nothing else, is freed. It is assumed that
    setupkvm does not return the page table that the process has. *)
Theorem exec_balanced path argv x im :
  (forall (x1 x2 : X) pgdir, x_setupkvm x1 = Ret pgdir x2 -> pgdir <> im_pgdir im) ->
  wpe (exec path argv) (XState (x, idle) im)
    (fun r s' => r = -1 /\ nothing_held im [] [] s' \/
       r = 0 /\ exists im' elf, nothing_held im' [im_pgdir im'] [im_pgdir im] s' /\
         program_header path x = Some elf /\ elf_magic elf = ELF_MAGIC /\ im_eip im' = elf_entry elf)
    (fun _ _ => True).
Proof.
  intros Hfresh. change (fun (_ : stop) (_ : xstate (X * tally)) => True) with any_stop. unfold exec.
  apply wpe_bind, wpe_tick_eq. intros [] x1 E1. apply wpe_bind, wpe_tick_eq. intros [ip|] x2 E2.
  2: { apply wpe_bind, wpe_tick. intros [] x3. apply wpe_bind, wpe_tick. intros [] x4. apply wpe_ret. by left. }
  apply wpe_bind, wpe_tick_eq. intros [] x3 E3. apply wpe_bind, wpe_tick_eq. intros r x4 E4. cbv zeta. cbn [xenv fst snd] in *.
  assert (forall s1 pgdir, (xenv s1).2 = Tally 1 [ip] [ip] (if pgdir =? 0 then [] else [pgdir]) [] -> ximage s1 = im ->
    wpe (exec_bad pgdir (Some ip)) s1 (fun r s' => r = -1 /\ nothing_held im [] [] s' \/
       r = 0 /\ exists im' elf, nothing_held im' [im_pgdir im'] [im_pgdir im] s' /\
         program_header path x = Some elf /\ elf_magic elf = ELF_MAGIC /\ im_eip im' = elf_entry elf) any_stop) as Hbad.
  { intros s1 pgdir H1 H2. eapply wpe_mono; [| |by apply (exec_bad_gives_back im s1 pgdir (Some ip))]; [by left|done]. }
  destruct (Z.eqb_spec r.1 sizeof_elfhdr) as [Hlen|]; cbn [negb]; [|by apply Hbad].
  destruct (Z.eqb_spec (elf_magic r.2) ELF_MAGIC) as [Hmagic|]; cbn [negb]; [|by apply Hbad].
  assert (program_header path x = Some r.2) as Hhdr.
  { unfold program_header, mbind, M_bind. by rewrite E1, E2, E3, E4, Hlen, Z.eqb_refl. }
  apply wpe_bind. apply wpe_zoom. unfold wpe at 1, x_setupkvm at 1, counted at 1, tick at 1. cbn [view update xenv fst].
  destruct (x_setupkvm x4) as [pgdir x5|w x5] eqn:Hset; [|done]. cbn [snd t_ops t_refs t_locks t_tables t_freed ximage].
  destruct (Z.eqb_spec pgdir 0) as [->|Hpg]; [by apply Hbad|].
  apply wpe_bind. match goal with |- wpe _ ?s _ _ => eapply wpe_mono; [| |apply (load_segments_held _ _ _ _ _ s s); by split] end; [|done].
  cbv beta. intros [sz|] s6 [H6 H6']; cbn in H6, H6'.
  2: { apply Hbad; [|done]. by rewrite H6, (proj2 (Z.eqb_neq pgdir 0)). }
  apply wpe_bind, wpe_tick. intros [] x7. apply wpe_bind, wpe_tick. intros [] x8. cbn.
  eapply wpe_mono; [| |apply (exec_commit_held im); [done|by eapply Hfresh| |done]]; [|done|].
  - cbv beta. intros r' s' [?|(-> & im' & Hn & Hpd & Heip)]; [by left|right]. split; [done|]. exists im', r.2. by rewrite Hpd.
  - cbn. rewrite H6. cbn. by rewrite !drop_first_one.
Qed.

End counted.

(** ** The stack of the new program *)

(** What exec relies on for the memory of a page table: the bytes that the
    process can access, and what the functions of vm.c do to them. *)
Class UserMem (X : Type) `{ExecEnv X} := {
  ubyte : X -> Z -> Z -> option Z;
  um_range x pgdir b : is_Some (ubyte x pgdir b) -> 0 <= b < KERNBASE;
  um_alloc x pgdir old new : wpe (x_allocuvm pgdir old new) x
    (fun r _ => r = 0 \/ r = new /\ 0 <= new < KERNBASE \/ r = old /\ new < old) (fun _ _ => True);
  um_clear x pgdir a : a mod PGSIZE = 0 -> wpe (x_clearpteu pgdir a) x
    (fun _ x' => forall b, a <= b < a + PGSIZE -> ubyte x' pgdir b = None) (fun _ _ => True);
  um_copyout x pgdir va bs : wpe (x_copyout pgdir va bs) x
    (fun r x' => (forall b, is_Some (ubyte x' pgdir b) <-> is_Some (ubyte x pgdir b)) /\
       (0 <= r -> forall b, ubyte x' pgdir b =
          if decide (va <= b < va + Z.of_nat (length bs)) then bs !! Z.to_nat (b - va) else ubyte x pgdir b))
    (fun _ _ => True);
  um_switch x pgdir p : wpe (x_switchuvm p) x (fun _ x' => ubyte x' pgdir = ubyte x pgdir) (fun _ _ => True);
  um_free x pgdir p : p <> pgdir -> wpe (x_freevm p) x (fun _ x' => ubyte x' pgdir = ubyte x pgdir) (fun _ _ => True)
}.

Section stack.
Context {X : Type} {E : ExecEnv X} {UM : UserMem X}.
Implicit Types s : xstate X.

Definition at_addr s (pgdir a : Z) (bs : list Z) : Prop :=
  forall i c, bs !! i = Some c -> ubyte (xenv s) pgdir (a + Z.of_nat i) = Some c.

Lemma wpe_xcall {A} (m : M X A) s (Q : A -> xstate X -> Prop) (P : A -> X -> Prop) :
  wpe m (xenv s) P (fun _ _ => True) -> (forall a x, P a x -> Q a (XState x (ximage s))) ->
  wpe (xcall m) s Q (fun _ _ => True).
Proof.
  intros Hm HQ. apply wpe_zoom. unfold wpe in *. cbn [view update]. destruct (m (xenv s)); [by apply HQ|done].
Qed.

Lemma wpe_true {A T} (m : M T A) t : wpe m t (fun _ _ => True) (fun _ _ => True).
Proof. unfold wpe. by destruct (m t). Qed.

(** A call of which nothing is known but that it does not change the process. *)
Lemma wpe_xany {A B} (m : M X A) (k : A -> M (xstate X) B) s (Q : B -> xstate X -> Prop) :
  (forall a x, wpe (k a) (XState x (ximage s)) Q (fun _ _ => True)) -> wpe (xcall m ≫= k) s Q (fun _ _ => True).
Proof. intros HQ. apply wpe_bind. eapply wpe_xcall; [apply wpe_true|]. intros a x _. apply HQ. Qed.

Lemma exec_bad_fails pgdir ip s (Q : Z -> xstate X -> Prop) :
  wpe (exec_bad pgdir ip) s (fun r s' => r = -1 \/ Q r s') (fun _ _ => True).
Proof.
  unfold exec_bad. apply wpe_bind. eapply wpe_mono; [| |apply wpe_true]; [|done]. intros [] s2 _.
  apply wpe_bind. eapply wpe_mono; [| |apply wpe_true]; [|done]. intros [] s3 _. apply wpe_ret. by left.
Qed.

Lemma word_align_spec a : in_u32 a -> word_align a = a - a mod 4.
Proof.
  intros Ha. unfold word_align. rewrite <- (u32_small a) at 1 by done.
  assert (u32 (Z.lnot 3) = Z.ldiff (2 ^ 32 - 1) (Z.ones 2)) as -> by reflexivity.
  rewrite Z.ldiff_land, Z.land_assoc, (land_mask_low (u32 a) 32) by lia. fold (u32 (u32 a)). rewrite u32_idemp, u32_small by done.
  rewrite <- Z.ldiff_land, Z.ldiff_ones_r, Z.shiftl_mul_pow2, Z.shiftr_div_pow2 by lia.
  change (2 ^ 2) with 4. pose proof (Z.div_mod a 4 ltac:(lia)). lia.
Qed.

(** The page that ends at [g] is not accessible. *)
Definition guarded s (pgdir g : Z) : Prop := forall b, g - PGSIZE <= b < g -> ubyte (xenv s) pgdir b = None.

(** Copying right below [sp] stays above the guard page, or fails. *)
Lemma copyout_below pgdir g sp bs s :
  guarded s pgdir g -> 0 <= g <= sp -> sp < KERNBASE -> g mod 4 = 0 -> sp mod 4 = 0 -> bs <> [] ->
  let va := word_align (u32 (sp - Z.of_nat (length bs))) in
  wpe (xcall (x_copyout pgdir va bs)) s
    (fun r s' => ximage s' = ximage s /\ (0 <= r -> guarded s' pgdir g /\ g <= va /\ va mod 4 = 0 /\
       va + Z.of_nat (length bs) <= sp /\ at_addr s' pgdir va bs /\
       forall b, sp <= b -> ubyte (xenv s') pgdir b = ubyte (xenv s) pgdir b))
    (fun _ _ => True).
Proof.
  intros Hg Hsp Hspk Hgm Hm Hbs va. eapply wpe_xcall; [apply um_copyout|]. cbv beta. intros r x' [Hacc Hcp]. split; [done|].
  intros Hr. specialize (Hcp Hr). set (len := Z.of_nat (length bs)) in *.
  assert (0 < len) as Hlen by (subst len; destruct bs; [done|cbn; lia]).
  assert (va = u32 (sp - len) - u32 (sp - len) mod 4) as Hva by (subst va; apply word_align_spec, u32_range).
  pose proof (u32_range (sp - len)) as Hu. unfold in_u32 in Hu. pose proof (Z.mod_pos_bound (u32 (sp - len)) 4 ltac:(lia)).
  assert (0 <= va) as Hva0 by (pose proof (Z.mod_le (u32 (sp - len)) 4); lia).
  assert (va mod 4 = 0) as Hva4 by (rewrite Hva, Zminus_mod, Z.mod_mod by lia; by rewrite Z.sub_diag).
  assert (forall b, va <= b < va + len -> is_Some (ubyte (xenv s) pgdir b)) as Hall.
  { intros b Hb. apply Hacc. rewrite Hcp, decide_True by done. apply lookup_lt_is_Some_2. subst len. lia. }
  assert (u32 (sp - len) = sp - len) as Hnw.
  { destruct (um_range (xenv s) pgdir (va + len - 1)) as [_ Hk]; [apply Hall; lia|].
    unfold u32 in *. destruct (decide (0 <= sp - len)); [apply Z.mod_small; unfold KERNBASE in *; lia|].
    pose proof (Z.div_mod (sp - len) (2 ^ 32) ltac:(lia)) as Hd.
    assert ((sp - len) / 2 ^ 32 < 0) by (apply Z.div_lt_upper_bound; lia). unfold KERNBASE in *. lia. }
  rewrite Hnw in *. assert (va + len <= sp) by lia.
  assert (forall b, g - PGSIZE <= b < g -> ~ (va <= b < va + len)) as Hno.
  { intros b Hb Hin. apply Hall in Hin. rewrite Hg in Hin by done. by destruct Hin. }
  assert (g <= va) as Hgva.
  { unfold PGSIZE in *. destruct (decide (sp = g)) as [->|].
    - specialize (Hno (va + len - 1)). lia.
    - pose proof (Z.div_mod sp 4 ltac:(lia)). pose proof (Z.div_mod g 4 ltac:(lia)).
      specialize (Hno (g - 1)). destruct (decide (g <= va)); [done|]. lia. }
  split_and!; try done.
  - intros b Hb. cbn. rewrite Hcp, decide_False by lia. by apply Hg.
  - intros i c Hc. pose proof (lookup_lt_Some _ _ _ Hc). cbn. rewrite Hcp, decide_True by lia.
    replace (Z.to_nat (va + Z.of_nat i - va)) with i by lia. done.
  - intros b Hb. cbn. rewrite Hcp, decide_False by lia. done.
Qed.

(** The strings of the arguments, with their terminators. *)
Fixpoint arg_strings (argv : list (option (list Z))) : list (list Z) :=
  match argv with
  | Some a :: argv => default [] (string_of a) :: arg_strings argv
  | _ => []
  end.

(** A string is on the stack, at or above [sp]. *)
Definition placed s (pgdir sp : Z) (p : Z) (str : list Z) : Prop := at_addr s pgdir p str /\ sp <= p /\ p mod 4 = 0.

Lemma placed_mono s s' pgdir sp sp' p str :
  placed s pgdir sp p str -> sp' <= sp -> (forall b, sp <= b -> ubyte (xenv s') pgdir b = ubyte (xenv s) pgdir b) ->
  placed s' pgdir sp' p str.
Proof. intros (Ha & Hp & Hm) Hsp Hb. split_and!; [|lia|done]. intros i c Hc. rewrite Hb by lia. by apply Ha. Qed.

Lemma string_of_nonempty a str : string_of a = Some str -> str <> [].
Proof.
  unfold string_of. destruct (find_index _ a) as [n|] eqn:Hn; [|done]. intros [= <-]. apply find_index_lt in Hn.
  destruct a; [cbn in Hn; lia|]. by rewrite Nat.add_1_r.
Qed.

Definition pushed s0 (pgdir g sp : Z) (ptrs : list Z) (strs : list (list Z)) s : Prop :=
  ximage s = ximage s0 /\ guarded s pgdir g /\ g <= sp <= g + PGSIZE /\ sp mod 4 = 0 /\
  Forall2 (placed s pgdir sp) ptrs strs.

Lemma push_args_spec s0 pgdir g argv argc sp ptrs strs s :
  0 <= g -> g + PGSIZE < KERNBASE -> g mod 4 = 0 -> pushed s0 pgdir g sp ptrs strs s -> argc = Z.of_nat (length ptrs) ->
  wpe (push_args pgdir argv argc sp ptrs) s
    (fun r s' => match r with
     | None => ximage s' = ximage s0
     | Some (argc', sp', ptrs') =>
         pushed s0 pgdir g sp' ptrs' (strs ++ arg_strings argv) s' /\ argc' = Z.of_nat (length ptrs')
     end) (fun _ _ => True).
Proof.
  intros Hg0 Hgk Hg4. revert argc sp ptrs strs s.
  induction argv as [|[a|] argv IH]; intros argc sp ptrs strs s (Him & Hg & Hsp & Hm & Hpl) Hc; cbn [push_args]; [done| |].
  - destruct (MAXARG <=? argc); [by apply wpe_ret|]. destruct (string_of a) as [str|] eqn:Hstr; [|done].
    cbn [arg_strings]. rewrite Hstr. cbn [default]. rewrite (cons_middle str), app_assoc.
    apply wpe_bind. eapply wpe_mono; [| |apply (copyout_below pgdir g sp str s)]; try done; [|lia..|by eapply string_of_nonempty].
    cbv beta zeta. intros r s1 [Him1 H1]. destruct (Z.ltb_spec r 0); [apply wpe_ret; congruence|].
    destruct H1 as (Hg1 & Hva & Hva4 & Hfit & Hat & Habove); [done|].
    apply IH; [|rewrite length_app; cbn; lia]. split_and!; try done; [congruence|lia|].
    apply Forall2_app; [|by repeat constructor].
    eapply Forall2_impl; [exact Hpl|]. intros p' str' Hp'. eapply placed_mono; [exact Hp'|lia|done].
  - apply wpe_ret. cbn [arg_strings]. rewrite app_nil_r. by split.
Qed.

(** The words of the stack and the strings they point to. *)
Definition stack_layout s (pgdir sz sp : Z) (strs : list (list Z)) : Prop :=
  sz - PGSIZE <= sp < sz /\ sp mod 4 = 0 /\ exists ptrs,
    at_addr s pgdir sp (bytes_of ([0xffffffff; Z.of_nat (length strs); sp + 12] ++ ptrs ++ [0])) /\
    Forall2 (fun p str => at_addr s pgdir p str /\ sp < p) ptrs strs.

Lemma length_bytes_of ws : length (bytes_of ws) = (4 * length ws)%nat.
Proof. unfold bytes_of. induction ws as [|w ws IH]; [done|]. rewrite bind_cons, length_app, length_le_bytes, IH. cbn. lia. Qed.

Lemma push_stack_spec pgdir sz argv s :
  guarded s pgdir (sz - PGSIZE) -> PGSIZE <= sz < KERNBASE -> sz mod PGSIZE = 0 ->
  wpe (push_stack pgdir sz argv) s
    (fun r s' => ximage s' = ximage s /\
       match r with None => True | Some sp => stack_layout s' pgdir sz sp (arg_strings argv) end)
    (fun _ _ => True).
Proof.
  intros Hg Hsz Hm. assert (sz mod 4 = 0) as Hm4.
  { unfold PGSIZE in Hm. pose proof (Z.div_mod sz 4096 ltac:(lia)). replace sz with (sz / 4096 * 1024 * 4) by lia. apply Z.mod_mul. lia. }
  assert ((sz - PGSIZE) mod 4 = 0) as Hg4 by (unfold PGSIZE; rewrite Zminus_mod, Hm4; done).
  unfold push_stack. apply wpe_bind. eapply wpe_mono; [| |apply (push_args_spec s pgdir (sz - PGSIZE) argv 0 sz [] [] s)];
    try done; [|lia|lia|split_and!; try done; unfold PGSIZE in *; lia].
  cbv beta. intros [[[argc sp] ptrs]|] s1; [|intros ?; by apply wpe_ret].
  intros ((Him & Hg1 & Hsp & Hsp4 & Hpl) & ->). cbn [app] in Hpl. pose proof (Forall2_length _ _ _ Hpl) as Hlen.
  set (bs := bytes_of (ustack (Z.of_nat (length ptrs)) sp ptrs)).
  assert (Z.of_nat (length bs) = (3 + Z.of_nat (length ptrs) + 1) * 4) as Hbs.
  { subst bs. rewrite length_bytes_of. unfold ustack. rewrite !length_app. cbn [length]. lia. }
  assert (u32 (sp - (3 + Z.of_nat (length ptrs) + 1) * 4) = word_align (u32 (sp - Z.of_nat (length bs)))) as Htop.
  { rewrite word_align_spec, Hbs by apply u32_range. unfold u32 at 3.
    rewrite Z.mod_mod_divide by (by exists (2 ^ 30)).
    replace (sp - (3 + Z.of_nat (length ptrs) + 1) * 4) with (sp + - (3 + Z.of_nat (length ptrs) + 1) * 4) by lia.
    rewrite Z_mod_plus_full, Hsp4. lia. }
  apply wpe_bind. rewrite Htop. eapply wpe_mono; [| |apply (copyout_below pgdir (sz - PGSIZE) sp bs s1); [done|lia|lia|done|done|]]; [|done|].
  2: { intros Hnil. rewrite Hnil in Hbs. cbn in Hbs. lia. }
  cbv beta zeta. intros r s2 [Him2 H2]. destruct (Z.ltb_spec r 0); apply wpe_ret; (split; [congruence|]); [done|].
  destruct H2 as (_ & Hva & Hva4 & Hfit & Hat & Habove); [done|]. set (va := word_align (u32 (sp - Z.of_nat (length bs)))) in *.
  assert (va = sp - (3 + Z.of_nat (length ptrs) + 1) * 4) as Hvaeq.
  { rewrite <- Htop. apply u32_small. unfold in_u32. rewrite <- Htop in Hva. unfold KERNBASE, PGSIZE in *.
    pose proof (u32_range (sp - (3 + Z.of_nat (length ptrs) + 1) * 4)). lia. }
  split_and!; [done|lia|done|]. exists ptrs. split.
  - assert (bytes_of ([0xffffffff; Z.of_nat (length (arg_strings argv)); va + 12] ++ ptrs ++ [0]) = bs) as ->; [|done].
    subst bs. unfold ustack. rewrite <- Hlen.
    rewrite (u32_small (sp - _)) by (unfold in_u32, KERNBASE, PGSIZE in *; lia).
    by replace (sp - (Z.of_nat (length ptrs) + 1) * 4) with (va + 12) by lia.
  - eapply Forall2_impl; [exact Hpl|]. intros p str (Ha & Hp & _). split; [|lia].
    intros i c Hc. rewrite Habove by lia. by apply Ha.
Qed.

Lemma load_segments_sz n ip pgdir off sz s : 0 <= sz < KERNBASE ->
  wpe (load_segments n ip pgdir off sz) s
    (fun r s' => ximage s' = ximage s /\ match r with None => True | Some sz' => 0 <= sz' < KERNBASE end) (fun _ _ => True).
Proof.
  revert off sz s. induction n as [|n IH]; intros off sz s Hsz; cbn [load_segments]; [by apply wpe_ret|].
  apply wpe_xany. intros r x1. cbv zeta.
  destruct (negb _); [by apply wpe_ret|]. destruct (negb _); [eapply wpe_mono; [| |by apply IH]; done|].
  destruct (_ <? _); [by apply wpe_ret|]. destruct (u32 _ <? _); [by apply wpe_ret|].
  apply wpe_bind. eapply wpe_xcall; [apply um_alloc|]. cbv beta. intros sz1 x2 Hal.
  assert (0 <= sz1 < KERNBASE) as Hsz1 by (unfold KERNBASE in *; lia).
  rewrite u32_small by (unfold in_u32, KERNBASE in *; lia).
  destruct (sz1 =? 0); [by apply wpe_ret|]. destruct (negb _); [by apply wpe_ret|].
  apply wpe_xany. intros c x3.
  destruct (c <? 0); [by apply wpe_ret|]. eapply wpe_mono; [| |by apply IH]; done.
Qed.

Lemma exec_commit_stack path argv pgdir sz entry s :
  0 <= sz < KERNBASE -> pgdir <> im_pgdir (ximage s) ->
  wpe (exec_commit path argv pgdir sz entry) s
    (fun r s' => r = -1 \/ r = 0 /\ im_pgdir (ximage s') = pgdir /\ im_eip (ximage s') = entry /\
       im_sz (ximage s') = PGROUNDUP sz + 2 * PGSIZE /\
       stack_layout s' pgdir (im_sz (ximage s')) (im_esp (ximage s')) (arg_strings argv)) (fun _ _ => True).
Proof.
  intros Hsz Hne. unfold exec_commit. cbv zeta.
  destruct (PGROUNDUP_bounds sz) as [Hup Hup']; [lia|unfold KERNBASE, PGSIZE in *; lia|].
  rewrite (u32_small (PGROUNDUP sz + _)) by (unfold in_u32, KERNBASE, PGSIZE in *; lia).
  apply wpe_bind. eapply wpe_xcall; [apply um_alloc|]. cbv beta. intros sz1 x1 Hal.
  assert (sz1 = 0 \/ sz1 = PGROUNDUP sz + 2 * PGSIZE /\ sz1 < KERNBASE) as [->|[Hsz1 Hk]] by (unfold PGSIZE in *; lia).
  { change (u32 0 =? 0) with true. apply exec_bad_fails. }
  rewrite u32_small by (unfold in_u32, KERNBASE, PGSIZE in *; lia).
  destruct (Z.eqb_spec sz1 0) as [|_]; [apply exec_bad_fails|].
  rewrite u32_small by (unfold in_u32, KERNBASE, PGSIZE in *; lia).
  apply wpe_bind. eapply wpe_xcall; [apply um_clear|].
  { replace (sz1 - 2 * PGSIZE) with (PGROUNDUP sz) by lia. done. }
  cbv beta. intros [] x2 Hclear. apply wpe_bind.
  eapply wpe_mono; [| |apply (push_stack_spec pgdir sz1 argv)]; [|done| | |].
  2: { intros b Hb. apply Hclear. lia. }
  2: { unfold PGSIZE in *. lia. }
  2: { rewrite Hsz1. unfold PGSIZE in *. by rewrite Z.add_mod, Hup by lia. }
  cbv beta. intros [sp|] s3 [Him Hst]; [|apply exec_bad_fails]. destruct (last_elem path path) as [last|]; [|done].
  apply wpe_bind, wpe_gets, wpe_bind, wpe_modify. cbn [xenv ximage].
  apply wpe_bind. eapply wpe_xcall; [apply (um_switch _ pgdir)|]. cbv beta. intros [] x4 H4.
  apply wpe_bind. eapply wpe_xcall; [apply (um_free _ pgdir); rewrite Him; by apply not_eq_sym|]. cbv beta. intros [] x5 H5.
  apply wpe_ret. right. split_and!; try done. cbn [ximage im_sz im_esp im_pgdir im_eip] in *.
  destruct Hst as (H6 & H7 & ptrs & H8 & H9). split; [exact H6|]. split; [exact H7|]. exists ptrs.
  assert (forall a bs, at_addr s3 pgdir a bs -> at_addr (XState x5 (Image (name_copy (im_name (ximage s3)) last) pgdir sz1 entry sp)) pgdir a bs) as Hat.
  { intros a bs Ha i c Hc. cbn [xenv] in *. rewrite H5, H4. by apply Ha. }
  split; [by apply Hat|]. eapply Forall2_impl; [exact H9|]. intros p str [Hp Hp']. split; [by apply Hat|done].
Qed.

End stack.

(** ** The arguments of the system call *)

(** [strs] are the strings of the array that the second argument points to. *)
Definition user_args (u : uproc) (strs : list (list Z)) : Prop :=
  exists base, arg_word u 1 = Some base /\ Z.of_nat (length strs) < MAXARG /\
    user_word u (u32 (base + 4 * Z.of_nat (length strs))) = Some 0 /\
    forall i str, strs !! i = Some str -> exists p n,
      user_word u (u32 (base + 4 * Z.of_nat i)) = Some p /\ str_at u p = Some (p, n) /\
      str = sub (u_mem u) (Z.to_nat p) (Z.to_nat (n + 1)).

Lemma string_of_user u p q n : str_at u p = Some (q, n) ->
  q = p /\ string_of (user_array u p) = Some (sub (u_mem u) (Z.to_nat p) (Z.to_nat (n + 1))).
Proof.
  unfold str_at, string_of, user_array. destruct (p <? u_sz u); [|done].
  destruct (find_index _ _) as [k|]; [|done]. intros [= <- <-]. split; [done|]. unfold sub. do 2 f_equal. lia.
Qed.

Lemma fetch_argv_spec u n base i : uproc_ok u -> 0 <= i ->
  exists r, fetch_argv n base i u = Ret r u /\
    forall argv, r = Some argv -> Z.of_nat (length (arg_strings argv)) < Z.of_nat n /\
      user_word u (u32 (base + 4 * (i + Z.of_nat (length (arg_strings argv))))) = Some 0 /\
      forall k str, arg_strings argv !! k = Some str -> exists p m,
        user_word u (u32 (base + 4 * (i + Z.of_nat k))) = Some p /\ str_at u p = Some (p, m) /\
        str = sub (u_mem u) (Z.to_nat p) (Z.to_nat (m + 1)).
Proof.
  intros Hok. revert i. induction n as [|n IH]; intros i Hi; cbn [fetch_argv]; [by exists None|].
  mred. rewrite fetchint_spec by (try done; apply u32_range).
  destruct (user_word u (u32 (base + 4 * i))) as [p|] eqn:Hw; [|by exists None].
  change (i32 <$> Some p) with (Some (i32 p)). cbv iota beta. pose proof (user_word_range _ _ _ Hok Hw) as Hp.
  rewrite u32_i32, (u32_small p) by done. destruct (Z.eqb_spec p 0) as [->|Hp0].
  { exists (Some [None]). split; [done|]. intros argv [= <-]. cbn [arg_strings length]. split_and!; [lia| |by intros k].
    by rewrite Z.add_0_r. }
  mred. rewrite fetchstr_spec by (try done; apply Hp). destruct (str_at u p) as [[q m]|] eqn:Hstr; [|by exists None].
  destruct (string_of_user u p q m Hstr) as [-> Hso].
  destruct (IH (i + 1) ltac:(lia)) as ([argv|] & Hrun & Hspec); rewrite Hrun; [|by exists None].
  exists (Some (Some (user_array u p) :: argv)). split; [done|]. intros argv' [= <-].
  destruct (Hspec argv eq_refl) as (Hlen & H0 & Hall). cbn [arg_strings length]. rewrite Hso. cbn [default]. split_and!.
  - lia.
  - rewrite <- H0. do 2 f_equal. lia.
  - intros [|k] str Hk; cbn in Hk.
    + injection Hk as <-. exists p, m. split_and!; [|done..]. by rewrite Z.add_0_r.
    + destruct (Hall k str Hk) as (p' & m' & Hp' & Hs' & ->). exists p', m'. split_and!; [|done..]. rewrite <- Hp'. do 2 f_equal. lia.
Qed.

Lemma exec_args_spec u : uproc_ok u ->
  exists r, exec_args u = Ret r u /\ forall path argv, r = Some (path, argv) -> user_args u (arg_strings argv).
Proof.
  intros Hok. unfold exec_args. mred. rewrite argstr_spec by done.
  destruct (p ← arg_word u 0; str_at u p) as [[path n]|]; [|by exists None].
  rewrite argint_spec by done. destruct (arg_word u 1) as [base|] eqn:Hb; [|by exists None].
  change (i32 <$> Some base) with (Some (i32 base)). cbv iota beta.
  pose proof (arg_word_range _ _ _ Hok Hb) as Hr. rewrite u32_i32, (u32_small base) by done.
  destruct (fetch_argv_spec u (Z.to_nat MAXARG) base 0 Hok ltac:(lia)) as ([argv|] & Hrun & Hspec); rewrite Hrun; [|by exists None].
  exists (Some (user_array u path, argv)). split; [done|]. intros path' argv' [= <- <-].
  destruct (Hspec argv eq_refl) as (Hlen & H0 & Hall). exists base. split_and!; [done|unfold MAXARG in *; lia|done|done].
Qed.

(** C14: exec gives the new program its arguments. When sys_exec returns 0, the
    stack pointer is in the last page of the image, aligned, and the stack
    holds the fake return address, the number of arguments, the address of the
    argument vector right above, the vector and its null pointer; each entry
    of the vector points to a string of the stack above it, and these are, byte
    for byte and in order, the strings of the array that the caller passed.
    However long the strings are, none of this is below the guard page. *)
Theorem exec_passes_arguments {X} {E : ExecEnv X} {UM : UserMem X} u x im :
  uproc_ok u -> (forall (x1 x2 : X) pgdir, x_setupkvm x1 = Ret pgdir x2 -> pgdir <> im_pgdir im) ->
  wpe (sys_exec u) (XState x im)
    (fun r s' => r = -1 \/ r = 0 /\ exists strs, user_args u strs /\
       stack_layout s' (im_pgdir (ximage s')) (im_sz (ximage s')) (im_esp (ximage s')) strs)
    (fun _ _ => True).
Proof.
  intros Hok Hfresh. unfold sys_exec. destruct (exec_args_spec u Hok) as (r & Hargs & Hspec). unfold wpe. rewrite Hargs.
  destruct r as [[path argv]|]; [|by left]. specialize (Hspec path argv eq_refl).
  match goal with |- match exec _ _ ?s with Ret a s' => @?Q a s' | Stop _ _ => _ end => change (wpe (exec path argv) s Q (fun _ _ => True)) end.
  unfold exec.
  apply wpe_xany. intros [] x1. apply wpe_xany. intros [ip|] x2.
  2: { do 2 (apply wpe_xany; intros [] ?). apply wpe_ret. by left. }
  apply wpe_xany. intros [] x3. apply wpe_xany. cbv zeta. intros r x4.
  destruct (negb _); [apply exec_bad_fails|]. destruct (negb _); [apply exec_bad_fails|].
  apply wpe_bind. eapply (wpe_xcall _ _ _ (fun pgdir _ => pgdir <> im_pgdir im)).
  { unfold wpe. cbn. destruct (x_setupkvm x4) eqn:Hs; [by eapply Hfresh|done]. }
  cbv beta. intros pgdir x5 Hne. destruct (pgdir =? 0); [apply exec_bad_fails|].
  apply wpe_bind. eapply wpe_mono; [| |apply load_segments_sz; done]; [|done]. cbv beta. intros [sz|] s6 [H6 Hsz]; [|apply exec_bad_fails].
  apply wpe_xany. intros [] x7. apply wpe_xany. intros [] x8.
  eapply wpe_mono; [| |apply exec_commit_stack; [done|cbn in *; by rewrite H6]]; [|done]. cbv beta.
  intros r' s' [?|(-> & Hpg & _ & _ & Hst)]; [by left|right]. split; [done|]. exists (arg_strings argv). by rewrite Hpg.
Qed.

(** ** A kernel with one file

    The addresses that a page table maps are a finite map to bytes. *)

Record onefile := OneFile {
  of_data : list Z;                (* the file *)
  of_next : Z;                     (* the next page table *)
  of_mem : gmap Z (gmap Z Z)       (* the memory of each page table *)
}.

Definition of_set (pgdir : Z) (m : gmap Z Z) (k : onefile) : onefile :=
  OneFile (of_data k) (of_next k) (<[pgdir := m]> (of_mem k)).

Definition of_space (k : onefile) (pgdir : Z) : gmap Z Z := default ∅ (of_mem k !! pgdir).

Definition bytes_at (va : Z) (bs : list Z) : gmap Z Z := list_to_map (zip (seqZ va (Z.of_nat (length bs))) bs).

Definition of_byte (k : onefile) (pgdir a : Z) : option Z :=
  if decide (0 <= a < KERNBASE) then of_space k pgdir !! a else None.

#[export] Instance onefile_env : ExecEnv onefile := {
  x_begin_op := mret tt;
  x_end_op := mret tt;
  x_namei _ := mret (Some 0%nat);
  x_ilock _ := mret tt;
  x_iunlockput _ := mret tt;
  x_readi _ off n := gets (fun k => let bs := sub (of_data k) (Z.to_nat off) (Z.to_nat n) in (Z.of_nat (length bs), bs));
  x_cprintf _ _ := mret tt;
  x_setupkvm :=
    k ← get;
    let pgdir := Z.max 4096 (of_next k) in
    put (OneFile (of_data k) (pgdir + 4096) (<[pgdir := ∅]> (of_mem k))) ;;
    mret pgdir;
  x_allocuvm pgdir old new :=
    if KERNBASE <=? new then mret 0
    else if new <? old then mret old
    else
      modify (fun k => of_set pgdir (of_space k pgdir ∪ bytes_at (Z.max 0 old) (replicate (Z.to_nat (new - Z.max 0 old)) 0)) k) ;;
      mret (if new <? 0 then 0 else new);
  x_loaduvm pgdir a _ off n :=
    modify (fun k => of_set pgdir (bytes_at a (sub (of_data k) (Z.to_nat off) (Z.to_nat n)) ∪ of_space k pgdir) k) ;;
    mret 0;
  x_clearpteu pgdir a :=
    modify (fun k => of_set pgdir (filter (fun x => ~ (a <= x.1 < a + PGSIZE)) (of_space k pgdir)) k);
  x_copyout pgdir va bs :=
    k ← get;
    if forallb (fun a => bool_decide (is_Some (of_byte k pgdir a))) (seqZ va (Z.of_nat (length bs))) then
      put (of_set pgdir (bytes_at va bs ∪ of_space k pgdir) k) ;;
      mret 0
    else mret (-1);
  x_switchuvm _ := mret tt;
  x_freevm pgdir := modify (fun k => OneFile (of_data k) (of_next k) (delete pgdir (of_mem k)))
}.

Lemma bytes_at_lookup va bs b :
  bytes_at va bs !! b = if decide (va <= b < va + Z.of_nat (length bs)) then bs !! Z.to_nat (b - va) else None.
Proof.
  unfold bytes_at. destruct (decide _) as [Hb|Hb].
  - destruct (lookup_lt_is_Some_2 bs (Z.to_nat (b - va))) as [c Hc]; [lia|]. rewrite Hc.
    apply elem_of_list_to_map.
    + rewrite fst_zip by (rewrite length_seqZ; lia). apply NoDup_seqZ.
    + apply list_elem_of_lookup. exists (Z.to_nat (b - va)). apply lookup_zip_Some. split; [|done].
      apply lookup_seqZ. lia.
  - apply not_elem_of_list_to_map. rewrite fst_zip by (rewrite length_seqZ; lia). rewrite elem_of_seqZ. lia.
Qed.

Lemma of_space_set k pgdir m : of_space (of_set pgdir m k) pgdir = m.
Proof. unfold of_space, of_set. cbn. by rewrite lookup_insert_eq. Qed.

#[export, refine] Instance onefile_mem : UserMem onefile := { ubyte := of_byte }.
Proof.
  - intros k pgdir b. unfold of_byte. by case_decide; [|intros []].
  - intros k pgdir old new. unfold wpe. cbn. destruct (Z.leb_spec KERNBASE new); [by left|].
    destruct (Z.ltb_spec new old); [right; right; lia|]. cbn. destruct (Z.ltb_spec new 0); [by left|]. right. left. lia.
  - intros k pgdir a _ b Hb. unfold of_byte. rewrite of_space_set. case_decide; [|done].
    apply map_lookup_filter_None. right. intros c _ Hc. by apply Hc.
  - intros k pgdir va bs. unfold wpe, x_copyout, onefile_env. mred. match goal with |- context [forallb ?f ?l] => destruct (forallb f l) eqn:Hall end; [|split; [done|lia]].
    assert (forall b, va <= b < va + Z.of_nat (length bs) -> is_Some (of_byte k pgdir b)) as Hin.
    { intros b Hb. rewrite forallb_forall in Hall. specialize (Hall b). eapply bool_decide_eq_true_1. apply Hall.
      apply list_elem_of_In, elem_of_seqZ. lia. }
    assert (forall b, of_byte (of_set pgdir (bytes_at va bs ∪ of_space k pgdir) k) pgdir b =
      if decide (va <= b < va + Z.of_nat (length bs)) then bs !! Z.to_nat (b - va) else of_byte k pgdir b) as Hb.
    { intros b. unfold of_byte at 1. rewrite of_space_set, lookup_union, bytes_at_lookup.
      destruct (decide (va <= b < _)) as [Hr|Hr].
      - destruct (Hin b Hr) as [c Hc]. unfold of_byte in Hc. destruct (decide (0 <= b < KERNBASE)); [|done].
        destruct (lookup_lt_is_Some_2 bs (Z.to_nat (b - va))) as [c' Hc']; [lia|]. rewrite Hc', Hc. done.
      - unfold of_byte. case_decide; [|done]. by rewrite (left_id_L None _). }
    split; [|done]. intros b. rewrite Hb. destruct (decide (va <= b < _)) as [Hr|Hr]; [|done].
    split; intros _; [by apply Hin|]. apply lookup_lt_is_Some_2. lia.
  - done.
  - intros k pgdir p Hne. unfold wpe. cbn. unfold of_byte, of_space. cbn. by rewrite lookup_delete_ne.
Defined.

(** A program of one segment of four bytes, and a process that starts it with
    one argument. *)
Definition demo_elf : list Z :=
  le_bytes 4 ELF_MAGIC ++ replicate 20 0 ++ le_bytes 4 0 ++ le_bytes 4 52 ++ replicate 12 0 ++ le_bytes 2 1 ++ replicate 6 0 ++
  le_bytes 4 1 ++ le_bytes 4 84 ++ le_bytes 4 0 ++ le_bytes 4 0 ++ le_bytes 4 4 ++ le_bytes 4 4 ++ replicate 8 0 ++ [1; 2; 3; 4].

Definition demo_caller : uproc :=
  UProc 40 (replicate 4 7 ++ le_bytes 4 16 ++ le_bytes 4 24 ++ replicate 4 7 ++ [112; 0] ++ replicate 6 7 ++
    le_bytes 4 36 ++ le_bytes 4 0 ++ replicate 4 7 ++ [104; 105; 0; 7]) 0 0 3 [] false.

Lemma demo_caller_ok : uproc_ok demo_caller.
Proof.
  split; [done|done|]. apply Forall_forall. intros x Hx. vm_compute in Hx. unfold in_u8.
  repeat (apply elem_of_cons in Hx as [->|Hx]; [lia|]). by apply not_elem_of_nil in Hx.
Qed.

Definition demo_kernel : onefile := OneFile demo_elf 4096 ∅.
Definition demo_image : image := Image (replicate 16 0) 0 40 0 0.

Definition exec_result {X} (o : outcome (xstate X) Z) : option (Z * image) :=
  match o with Ret r s => Some (r, ximage s) | Stop _ _ => None end.

Lemma exec_demo_result :
  exec_result (sys_exec demo_caller (XState demo_kernel demo_image)) =
    Some (0, Image (112 :: replicate 15 0) 4096 12288 0 12264).
Proof. vm_compute. reflexivity. Qed.

Lemma demo_fresh (x1 x2 : onefile) pgdir : x_setupkvm x1 = Ret pgdir x2 -> pgdir <> im_pgdir demo_image.
Proof. cbn. intros [= <- <-]. lia. Qed.

Lemma exec_passes_arguments_witness :
  exec_result (sys_exec demo_caller (XState demo_kernel demo_image)) =
    Some (0, Image (112 :: replicate 15 0) 4096 12288 0 12264) /\
  wpe (sys_exec demo_caller) (XState demo_kernel demo_image)
    (fun r s' => r = -1 \/ r = 0 /\ exists strs, user_args demo_caller strs /\
       stack_layout s' (im_pgdir (ximage s')) (im_sz (ximage s')) (im_esp (ximage s')) strs)
    (fun _ _ => True).
Proof.
  split; [exact exec_demo_result|].
  exact (exec_passes_arguments demo_caller demo_kernel demo_image demo_caller_ok demo_fresh).
Defined.

Lemma exec_balanced_witness :
  wpe (exec (E := counted onefile_env) [112; 0] [Some [104; 105; 0]; None]) (XState (demo_kernel, idle) demo_image)
    (fun r s' => r = -1 /\ nothing_held demo_image [] [] s' \/
       r = 0 /\ exists im' elf, nothing_held im' [im_pgdir im'] [im_pgdir demo_image] s' /\
         program_header onefile_env [112; 0] demo_kernel = Some elf /\ elf_magic elf = ELF_MAGIC /\ im_eip im' = elf_entry elf)
    (fun _ _ => True).
Proof.
  exact (exec_balanced onefile_env [112; 0] [Some [104; 105; 0]; None] demo_kernel demo_image demo_fresh).
Defined.
