(* ===== verification/Fdref.v ===== *)
(** Who refers to open files and pipes.

    The reference count of an open file is the number of descriptors for it,
    in all processes; a pipe's page is in use exactly while one of its two
    ends is open, each end is one open file. A call in progress holds
    references in its local variables: the list [E] of references from
    outside the descriptors of the current process has them as well. *)

From S2P Require Import Prelude Block Sleeplock Log Refstore Tx Fs Fsdisk Pipe Syscall Ftable Sysfile.

Open Scope Z_scope.

(** ** Counting references *)

Definition nrefs (f : nat) (l : list (option nat)) : nat := length (filter (fun o => o = Some f) l).

Lemma nrefs_app f l l' : nrefs f (l ++ l') = (nrefs f l + nrefs f l')%nat.
Proof. unfold nrefs. by rewrite filter_app, length_app. Qed.

Lemma nrefs_cons f o l : nrefs f (o :: l) = ((if decide (o = Some f) then 1 else 0) + nrefs f l)%nat.
Proof. unfold nrefs. rewrite filter_cons. by case_decide. Qed.

Lemma nrefs_le f l : (nrefs f l <= length l)%nat.
Proof. apply length_filter. Qed.

Lemma nrefs_pos f l : Some f ∈ l <-> (0 < nrefs f l)%nat.
Proof.
  induction l as [|o l IH]; [unfold nrefs; cbn; split; [by intros ?%not_elem_of_nil|lia]|].
  rewrite nrefs_cons, elem_of_cons, IH. case_decide; subst; [split; [lia|by left]|].
  split; [intros [?|?]; [congruence|lia]|intros ?; right; lia].
Qed.

Lemma nrefs_insert f l i o o' : l !! i = Some o ->
  (nrefs f (<[i := o']> l) + (if decide (o = Some f) then 1 else 0) =
   nrefs f l + (if decide (o' = Some f) then 1 else 0))%nat.
Proof.
  revert i. induction l as [|a l IH]; intros [|i] Hi; [done..| |].
  - injection Hi as ->. cbn [insert list_insert]. rewrite !nrefs_cons. lia.
  - cbn in Hi. change (<[S i := o']> (a :: l)) with (a :: <[i := o']> l). rewrite !nrefs_cons.
    specialize (IH i Hi). lia.
Qed.

Record refs_ok (E : list (option nat)) (lock : bool) (ft : list file) (fds : list (option nat)) : Prop := {
  ro_lock : lock = false;
  ro_ref f x : ft !! f = Some x -> f_ref x = Z.of_nat (nrefs f (E ++ fds));
  ro_range f : Some f ∈ E ++ fds -> (f < length ft)%nat;
  ro_none f x : ft !! f = Some x -> f_ref x = 0 -> f_type x = FD_NONE;
  ro_fds : length fds = Z.to_nat NOFILE
}.

(** A reference to [f] comes or goes. *)
Lemma refs_ok_move E E' lk ft ft' fds fds' f x x' :
  refs_ok E lk ft fds -> ft !! f = Some x -> ft' = <[f := x']> ft -> length fds' = length fds ->
  (f_ref x' = 0 -> f_type x' = FD_NONE) ->
  f_ref x' = Z.of_nat (nrefs f (E' ++ fds')) ->
  (forall g, g <> f -> nrefs g (E' ++ fds') = nrefs g (E ++ fds)) ->
  refs_ok E' lk ft' fds'.
Proof.
  intros [H1 H2 H3 H4 H5] Hx -> Hl Hnone Href Hn. pose proof (lookup_lt_Some _ _ _ Hx) as Hlt. split; [done| | | |lia].
  - intros g y Hg. destruct (decide (f = g)) as [<-|Hne].
    + rewrite list_lookup_insert_eq in Hg by done. by injection Hg as <-.
    + rewrite list_lookup_insert_ne in Hg by done. rewrite Hn by done. by apply H2.
  - intros g Hg. rewrite length_insert. destruct (decide (g = f)) as [->|Hne]; [done|].
    apply H3, nrefs_pos. rewrite <- Hn by done. by apply nrefs_pos.
  - intros g y Hg. destruct (decide (f = g)) as [<-|Hne].
    + rewrite list_lookup_insert_eq in Hg by done. by injection Hg as <-.
    + rewrite list_lookup_insert_ne in Hg by done. by eapply H4.
Qed.

(** The references are the same ones, in other places. *)
Lemma refs_ok_perm E E' lk ft fds fds' :
  refs_ok E lk ft fds -> length fds' = length fds -> (forall g, nrefs g (E' ++ fds') = nrefs g (E ++ fds)) ->
  refs_ok E' lk ft fds'.
Proof.
  intros [H1 H2 H3 H4 H5] Hl Hn. split; [done| | |done|lia].
  - intros f x Hx. rewrite Hn. by apply H2.
  - intros f Hf. apply H3, nrefs_pos. rewrite <- Hn. by apply nrefs_pos.
Qed.

(** ** Ends of pipes *)

(** The pipe of an open file, and whether it is its reading and its writing
    end. *)
Definition pend (x : file) : option (Z * bool * bool) :=
  match f_type x with FD_PIPE => Some (f_pipe x, f_readable x, f_writable x) | _ => None end.

Definition is_open (q : pipe) (w : bool) : Prop := (if w then writeopen q else readopen q) <> 0.

Record pipes_ok (ends : list (option (Z * bool * bool))) (pipes : gmap Z pipe) (pages : list Z) : Prop := {
  pk_end f p r w : ends !! f = Some (Some (p, r, w)) -> r = negb w /\ exists q, pipes !! p = Some q /\ is_open q w;
  pk_unique f g p r r' w : ends !! f = Some (Some (p, r, w)) -> ends !! g = Some (Some (p, r', w)) -> f = g;
  pk_open p q w : pipes !! p = Some q -> is_open q w -> exists f r, ends !! f = Some (Some (p, r, w));
  pk_live p q : pipes !! p = Some q -> pipe_ok q /\ p_lock q = false /\ (is_open q true \/ is_open q false);
  pk_nodup : NoDup pages;
  pk_pages p : p ∈ pages -> pipes !! p = None
}.

(** Reading and writing leave the ends open. *)
Lemma pipes_ok_use ends pipes pages p q q' :
  pipes_ok ends pipes pages -> pipes !! p = Some q -> pipe_ok q' -> p_lock q' = false ->
  readopen q' = readopen q -> writeopen q' = writeopen q -> pipes_ok ends (<[p := q']> pipes) pages.
Proof.
  intros [H1 H2 H3 H4 H5 H6] Hq Hok Hlk Hr Hw.
  assert (forall w, is_open q' w <-> is_open q w) as Ho by (intros []; unfold is_open; rewrite ?Hr, ?Hw; done).
  split; [| |..|done|]; try done.
  - intros f p' r w Hf. destruct (H1 f p' r w Hf) as (Hn & q0 & Hq0 & Hop). split; [done|].
    destruct (decide (p = p')) as [<-|Hne].
    + exists q'. rewrite lookup_insert_eq. simplify_eq. by rewrite Ho.
    + exists q0. by rewrite lookup_insert_ne.
  - intros p' q0 w. rewrite lookup_insert_Some. intros [[<- <-]|[Hne Hq0]]; [rewrite Ho|]; by apply H3.
  - intros p' q0. rewrite lookup_insert_Some. intros [[<- <-]|[Hne Hq0]]; [|by apply (H4 p')].
    rewrite !Ho. split_and!; [done..|]. by apply (H4 p q).
  - intros p' Hp'. rewrite lookup_insert_None. split; [by apply H6|]. intros <-. specialize (H6 p Hp'). congruence.
Qed.

(** A new pipe, with its two ends. *)
Lemma pipes_ok_new ends pipes pages p q f g :
  pipes_ok ends pipes (p :: pages) -> ends !! f = Some None -> ends !! g = Some None -> f <> g ->
  pipe_ok q -> p_lock q = false -> is_open q true -> is_open q false ->
  pipes_ok (<[g := Some (p, false, true)]> (<[f := Some (p, true, false)]> ends)) (<[p := q]> pipes) pages.
Proof.
  intros [H1 H2 H3 H4 H5 H6] Hf Hg Hne Hok Hlk Ht Hf'. apply NoDup_cons in H5 as [Hp H5].
  pose proof (H6 p ltac:(set_solver)) as Hnone. pose proof (lookup_lt_Some _ _ _ Hf). pose proof (lookup_lt_Some _ _ _ Hg).
  assert (forall h p' r w, <[g := Some (p, false, true)]> (<[f := Some (p, true, false)]> ends) !! h = Some (Some (p', r, w)) <->
            (p' = p /\ r = negb w /\ h = (if w then g else f)) \/ (p' <> p /\ ends !! h = Some (Some (p', r, w)))) as Hends.
  { intros h p' r w. destruct (decide (g = h)) as [<-|Hgh].
    { rewrite list_lookup_insert_eq by (by rewrite length_insert). split.
      - intros [= <- <- <-]. by left.
      - intros [(-> & -> & Hh)|[_ ?]]; [|congruence]. destruct w; [done|congruence]. }
    rewrite list_lookup_insert_ne by done. destruct (decide (f = h)) as [<-|Hfh].
    { rewrite list_lookup_insert_eq by done. split.
      - intros [= <- <- <-]. by left.
      - intros [(-> & -> & Hh)|[_ ?]]; [|congruence]. destruct w; [congruence|done]. }
    rewrite list_lookup_insert_ne by done. split.
    - intros Hh. right. split; [|done]. intros ->. destruct (H1 _ _ _ _ Hh) as (_ & q0 & ? & _). congruence.
    - intros [(_ & _ & ->)|[_ Hh]]; [by destruct w|done]. }
  split; [| |..|done|].
  - intros h p' r w Hh. apply Hends in Hh as [(-> & -> & ->)|[Hp' Hh]].
    + split; [done|]. exists q. rewrite lookup_insert_eq. by destruct w.
    + rewrite lookup_insert_ne by done. by apply (H1 h).
  - intros h h' p' r r' w Hh Hh'. apply Hends in Hh as [(Hp' & _ & ->)|[Hp' Hh]], Hh' as [(Hp'' & _ & ->)|[Hp'' Hh']]; try done.
    by eapply H2.
  - intros p' q' w. rewrite lookup_insert_Some. intros [[<- <-]|[Hp' Hq']] Hw.
    + exists (if w then g else f), (negb w). apply Hends. by left.
    + destruct (H3 p' q' w Hq' Hw) as (h & r & Hh). exists h, r. apply Hends. by right.
  - intros p' q'. rewrite lookup_insert_Some. intros [[<- <-]|[Hp' Hq']]; [|by apply (H4 p')]. split_and!; [done..|]. by left.
  - intros p' Hp'. rewrite lookup_insert_None. split; [apply H6; set_solver|]. by intros <-.
Qed.

(** An end is closed; with the other end closed as well the page is free. *)
Lemma pipes_ok_close ends pipes pages (f : nat) (p : Z) (r w : bool) (q q' : pipe) :
  pipes_ok ends pipes pages -> ends !! f = Some (Some (p, r, w)) -> pipes !! p = Some q ->
  pipe_ok q' -> p_lock q' = false ->
  readopen q' = (if w then readopen q else 0) -> writeopen q' = (if w then 0 else writeopen q) ->
  (is_open q' (negb w) -> pipes_ok (<[f := None]> ends) (<[p := q']> pipes) pages) /\
  (~ is_open q' (negb w) -> pipes_ok (<[f := None]> ends) (delete p pipes) (p :: pages)).
Proof.
  intros [H1 H2 H3 H4 H5 H6] Hf Hq Hok Hlk Hr Hw. pose proof (lookup_lt_Some _ _ _ Hf) as Hlt.
  assert (~ is_open q' w) as Hw1 by (unfold is_open; destruct w; rewrite ?Hr, ?Hw; tauto).
  assert (is_open q' (negb w) <-> is_open q (negb w)) as Hw2 by (unfold is_open; destruct w; cbn [negb]; rewrite ?Hr, ?Hw; done).
  assert (forall h e, <[f := None]> ends !! h = Some (Some e) <-> h <> f /\ ends !! h = Some (Some e)) as Hends.
  { intros h e. destruct (decide (f = h)) as [<-|Hne].
    - rewrite list_lookup_insert_eq by done. split; [done|]. by intros [? _].
    - rewrite list_lookup_insert_ne by done. split; [done|]. by intros [_ ?]. }
  assert (forall h r' w', h <> f -> ends !! h = Some (Some (p, r', w')) -> w' = negb w) as Hother.
  { intros h r' w' Hne Hh. destruct (decide (w' = w)) as [->|]; [|by destruct w, w'].
    destruct Hne. by eapply H2. }
  split; intros Hop.
  - split; [| |..|done|].
    + intros h p' r' w' [Hh Hh']%Hends. destruct (H1 _ _ _ _ Hh') as (Hn & q0 & Hq0 & Hop0). split; [done|].
      destruct (decide (p = p')) as [<-|Hne]; [|exists q0; by rewrite lookup_insert_ne].
      exists q'. rewrite lookup_insert_eq. rewrite (Hother h r' w') by done. done.
    + intros h h' p' r1 r2 w' [_ Hh]%Hends [_ Hh']%Hends. by eapply H2.
    + intros p' q0 w'. rewrite lookup_insert_Some. intros [[<- <-]|[Hne Hq0]] Hw'.
      * assert (w' = negb w) as -> by (destruct (decide (w' = w)) as [->|]; [done|by destruct w, w']).
        destruct (H3 p q (negb w) Hq ltac:(tauto)) as (h & r' & Hh). exists h, r'. apply Hends. split; [|done].
        intros ->. rewrite Hf in Hh. destruct w; simplify_eq.
      * destruct (H3 p' q0 w' Hq0 Hw') as (h & r' & Hh). exists h, r'. apply Hends. split; [|done].
        intros ->. rewrite Hf in Hh. by simplify_eq.
    + intros p' q0. rewrite lookup_insert_Some. intros [[<- <-]|[Hne Hq0]]; [|by apply (H4 p')].
      split_and!; [done..|]. destruct w; auto.
    + intros p' Hp'. rewrite lookup_insert_None. split; [by apply H6|]. intros <-. specialize (H6 p Hp'). congruence.
  - split.
    + intros h p' r' w' [Hh Hh']%Hends. destruct (H1 _ _ _ _ Hh') as (Hn & q0 & Hq0 & Hop0). split; [done|].
      exists q0. rewrite lookup_delete_ne; [done|]. intros <-.
      rewrite (Hother h r' w') in Hop0 by done. simplify_eq. tauto.
    + intros h h' p' r1 r2 w' [_ Hh]%Hends [_ Hh']%Hends. by eapply H2.
    + intros p' q0 w'. rewrite lookup_delete_Some. intros [Hne Hq0] Hw'.
      destruct (H3 p' q0 w' Hq0 Hw') as (h & r' & Hh). exists h, r'. apply Hends. split; [|done].
      intros ->. rewrite Hf in Hh. by simplify_eq.
    + intros p' q0. rewrite lookup_delete_Some. intros [Hne Hq0]. by apply (H4 p').
    + apply NoDup_cons. split; [|done]. intros Hin. specialize (H6 p Hin). congruence.
    + intros p' [->|Hp']%elem_of_cons; [apply lookup_delete_eq|]. rewrite lookup_delete_None. right. by apply H6.
Qed.

(** ** The operations *)

(** Reading from and writing to a pipe leaves its ends as they are. *)
Definition ends (q : pipe) : Z * Z := (readopen q, writeopen q).

Lemma keeps_acquire_pipe : keeps ends acquire_pipe.
Proof. intros q. unfold wpe, acquire_pipe. mred. by destruct (p_lock q). Qed.

Lemma keeps_release_pipe : keeps ends release_pipe.
Proof. intros q. unfold wpe, release_pipe. mred. by destruct (p_lock q). Qed.

Lemma keeps_wakeup_nread : keeps ends wakeup_nread.
Proof. unfold wakeup_nread. keeps. Qed.

Lemma keeps_wakeup_nwrite : keeps ends wakeup_nwrite.
Proof. unfold wakeup_nwrite. keeps. Qed.

#[local] Hint Resolve keeps_acquire_pipe keeps_release_pipe keeps_wakeup_nread keeps_wakeup_nwrite : keeps.

Lemma piperead_copy_ends n : keeps ends (piperead_copy n).
Proof. induction n as [|n IH]; cbn [piperead_copy]; keeps. Qed.
#[local] Hint Resolve piperead_copy_ends : keeps.

Lemma piperead_ends k n : keeps ends (piperead k n).
Proof. unfold piperead. keeps. Qed.

Lemma pipewrite_ends k bs : keeps ends (pipewrite k bs).
Proof.
  assert (keeps ends (pipewrite_loop k bs)); [|unfold pipewrite; keeps].
  induction bs as [|c bs IH]; cbn [pipewrite_loop]; keeps.
Qed.

Section fdref.
Context {S : Type} `{TX : TxStore S} `{OP : OpStore S}.
Context (me : Z).
Context (devsw_read : Z -> option (nat -> Z -> M (fstate S) (Z * list Z))).
Context (devsw_write : Z -> option (nat -> list Z -> M (fstate S) Z)).
Context (junk : list Z).
Implicit Types (s : kstate S) (E : list (option nat)).

Definition invf (fds : list (option nat)) E s : Prop :=
  refs_ok E (ft_lock s) (ftable s) fds /\ pipes_ok (pend <$> ftable s) (kpipes s) (kpages s).

Definition inv E s : Prop := invf (ofile s) E s.

(** The file system and the process do not matter. *)
Lemma wpe_fs {A} (m : M (fstate S) A) s (Q : A -> kstate S -> Prop) Er :
  (forall a t, Q a (set_kfs t s)) -> (forall w t, Er w (set_kfs t s)) -> wpe (fs m) s Q Er.
Proof. intros HQ HE. apply wpe_zoom. unfold wpe. cbn [view fs_lens update]. destruct (m (kfs s)); auto. Qed.

Lemma wpe_up {A} (m : M uproc A) s (Q : A -> kstate S -> Prop) Er :
  (forall a t, Q a (set_kproc t s)) -> (forall w t, Er w (set_kproc t s)) -> wpe (up m) s Q Er.
Proof. intros HQ HE. apply wpe_zoom. unfold wpe. cbn [view proc_lens update]. destruct (m (kproc s)); auto. Qed.

Lemma wpe_fat s f x (Q : file -> kstate S -> Prop) Er : ftable s !! f = Some x -> Q x s -> wpe (fat f) s Q Er.
Proof. intros Hx HQ. unfold wpe, fat. mred. by rewrite Hx. Qed.

Lemma wpe_fmod s f x g (Q : unit -> kstate S -> Prop) Er :
  ftable s !! f = Some x -> Q tt (set_ftable (<[f := g x]> (ftable s)) s) -> wpe (fmod f g) s Q Er.
Proof. intros Hx HQ. unfold fmod. apply wpe_bind. eapply wpe_fat; [done|]. by apply wpe_modify. Qed.

Lemma wpe_acquire_ft s (Q : unit -> kstate S -> Prop) Er :
  ft_lock s = false -> Q tt (set_ft_lock true s) -> wpe acquire_ft s Q Er.
Proof. intros Hl HQ. unfold wpe, acquire_ft. mred. by rewrite Hl. Qed.

Lemma wpe_release_ft s (Q : unit -> kstate S -> Prop) Er :
  ft_lock s = true -> Q tt (set_ft_lock false s) -> wpe release_ft s Q Er.
Proof. intros Hl HQ. unfold wpe, release_ft. mred. by rewrite Hl. Qed.

(** Neither the count nor the offset of a file says anything about pipes. *)
Lemma pends_insert (ft : list file) f x x' : ft !! f = Some x -> pend x' = pend x -> pend <$> <[f := x']> ft = pend <$> ft.
Proof. intros Hx Hp. rewrite list_fmap_insert, Hp. apply list_insert_id. by rewrite list_lookup_fmap, Hx. Qed.

(** The process and the other files are as they were. *)
Definition only_file (f : nat) s s' : Prop :=
  ofile s' = ofile s /\ kproc s' = kproc s /\ forall g, g <> f -> ftable s' !! g = ftable s !! g.

Lemma only_file_insert s s' f x :
  ofile s' = ofile s -> kproc s' = kproc s -> ftable s' = <[f := x]> (ftable s) -> only_file f s s'.
Proof. intros H1 H2 H3. split_and!; [done..|]. intros g Hg. by rewrite H3, list_lookup_insert_ne. Qed.

Lemma filealloc_spec E s (Q : option nat -> kstate S -> Prop) Er :
  inv E s ->
  (forall f ft x, inv (Some f :: E) (set_ftable ft s) -> ft !! f = Some x -> f_ref x = 1 -> f_type x = FD_NONE ->
     Some f ∉ E ++ ofile s -> only_file f s (set_ftable ft s) -> Q (Some f) (set_ftable ft s)) ->
  Q None s -> wpe filealloc s Q Er.
Proof.
  intros [Hr Hp] HQ HN. pose proof (ro_lock _ _ _ _ Hr) as Hlk. unfold filealloc.
  apply wpe_bind, wpe_acquire_ft; [done|]. apply wpe_bind, wpe_get. cbn [ftable set_ft_lock].
  destruct (find_index _ (ftable s)) as [f|] eqn:Hf.
  - apply find_index_Some in Hf as [(x & Hx & Href%Z.eqb_eq) _]. pose proof (ro_none _ _ _ _ Hr f x Hx Href) as Hty.
    pose proof (ro_ref _ _ _ _ Hr f x Hx) as Hn.
    apply wpe_bind. eapply wpe_fmod; [exact Hx|]. apply wpe_bind, wpe_release_ft; [done|]. apply wpe_ret.
    pose proof (lookup_lt_Some _ _ _ Hx) as Hlt.
    assert (set_ft_lock false (set_ftable (<[f := set_f_ref 1 x]> (ftable s)) (set_ft_lock true s)) =
            set_ftable (<[f := set_f_ref 1 x]> (ftable s)) s) as Hs.
    { destruct s; cbn in *. by subst. }
    cbn [ftable set_ft_lock]. rewrite Hs. eapply HQ; [|by apply list_lookup_insert_eq|done|done| |].
    + split; cbn [ft_lock ftable ofile kpipes kpages set_ftable].
      * eapply (refs_ok_move E _ _ (ftable s) _ _ _ f x (set_f_ref 1 x)); try done.
        -- cbn [app f_ref set_f_ref]. rewrite nrefs_cons, decide_True by done. lia.
        -- intros g Hg. cbn [app]. rewrite nrefs_cons, decide_False by congruence. done.
      * by rewrite (pends_insert _ _ x).
    + intros Hin%nrefs_pos. lia.
    + by eapply only_file_insert.
  - apply wpe_bind, wpe_release_ft; [done|]. apply wpe_ret.
    assert (set_ft_lock false (set_ft_lock true s) = s) as ->; [|done]. destruct s; cbn in *. by subst.
Qed.

Lemma wpe_on_pipe {A} s p q (m : M pipe A) (Q : A -> kstate S -> Prop) Er :
  kpipes s !! p = Some q ->
  wpe m q (fun a q' => Q a (set_kpipes (<[p := q']> (kpipes s)) s)) (fun w q' => Er w (set_kpipes (<[p := q']> (kpipes s)) s)) ->
  wpe (on_pipe p m) s Q Er.
Proof. intros Hq. unfold wpe, on_pipe. rewrite Hq. by destruct (m q). Qed.

Definition one_more (x : file) : file := set_f_ref (f_ref x + 1) x.

Lemma filedup_run s f x :
  ft_lock s = false -> ftable s !! f = Some x -> 1 <= f_ref x < 2 ^ 31 - 1 ->
  filedup f s = Ret f (set_ftable (<[f := one_more x]> (ftable s)) s).
Proof.
  intros Hlk Hx Hn. unfold filedup, acquire_ft, release_ft, fmod, fat. mred. rewrite Hlk. cbn [ftable set_ft_lock].
  rewrite Hx. destruct (Z.ltb_spec (f_ref x) 1); [lia|]. cbn [ftable set_ft_lock]. rewrite Hx.
  cbn [ft_lock set_ftable set_ft_lock]. rewrite i32_small by (unfold in_i32; lia). destruct s; cbn in *. by subst.
Qed.

Lemma inv_dup E s f x : inv E s -> ftable s !! f = Some x -> 0 < f_ref x ->
  inv (Some f :: E) (set_ftable (<[f := one_more x]> (ftable s)) s).
Proof.
  intros [Hr Hp] Hx Hn. pose proof (ro_ref _ _ _ _ Hr f x Hx) as Hn'. split; cbn.
  - eapply (refs_ok_move E _ _ (ftable s) _ _ _ f x (one_more x)); try done; cbn [f_ref one_more set_f_ref app].
    + lia.
    + rewrite nrefs_cons, decide_True by done. lia.
    + intros g Hg. rewrite nrefs_cons, decide_False by congruence. done.
  - by rewrite (pends_insert _ _ x).
Qed.

(** At most one reference for each element of [E] and each descriptor. *)
Lemma ref_bound E s f x : inv E s -> ftable s !! f = Some x -> f_ref x <= Z.of_nat (length (E ++ ofile s)).
Proof. intros [Hr _] Hx. rewrite (ro_ref _ _ _ _ Hr f x Hx). pose proof (nrefs_le f (E ++ ofile s)). lia. Qed.

(** What a closed file leaves in its entry. *)
Definition closed_file (x : file) : file := set_f_type FD_NONE (set_f_ref 0 x).

Lemma refs_drop fds E s f x x' :
  refs_ok (Some f :: E) (ft_lock s) (ftable s) fds -> ftable s !! f = Some x ->
  f_ref x' = f_ref x - 1 -> (f_ref x' = 0 -> f_type x' = FD_NONE) ->
  refs_ok E (ft_lock s) (<[f := x']> (ftable s)) fds.
Proof.
  intros Hr Hx Hn Hnone. pose proof (ro_ref _ _ _ _ Hr f x Hx) as Hn'. cbn [app] in Hn'. rewrite nrefs_cons, decide_True in Hn' by done.
  eapply (refs_ok_move (Some f :: E) _ _ (ftable s) _ _ _ f x x'); try done; [lia|].
  intros g Hg. cbn [app]. rewrite nrefs_cons, decide_False by congruence. done.
Qed.

(** After the last reference is gone: the pipe or the inode is let go. *)
Lemma fileclose_last fds E s f x (Q : unit -> kstate S -> Prop) Er :
  invf fds (Some f :: E) s -> ftable s !! f = Some x -> f_ref x = 1 ->
  (forall s', invf fds E s' -> only_file f s s' -> Q tt s') ->
  (f_type x <> FD_INODE \/ forall w s', invf fds E s' -> only_file f s s' -> Er w s') ->
  wpe (match f_type x with
       | FD_PIPE =>
           freed ← on_pipe (f_pipe x) (pipeclose (f_writable x));
           when freed (kfree_pipe (f_pipe x))
       | FD_INODE => begin_op ;; fs (iput me (f_ip x)) ;; end_op
       | FD_NONE => mret tt
       end) (set_ftable (<[f := closed_file x]> (ftable s)) s) Q Er.
Proof.
  intros [Hr Hp] Hx H1 HQ HE.
  assert (refs_ok E (ft_lock s) (<[f := closed_file x]> (ftable s)) fds) as Hr'.
  { apply (refs_drop fds E s f x); try done. cbn. lia. }
  destruct (f_type x) eqn:Hty.
  - apply wpe_ret, HQ; [|by eapply only_file_insert]. split; [done|]. cbn. rewrite (pends_insert _ _ x); [done..|]. unfold pend. by rewrite Hty.
  - assert ((pend <$> ftable s) !! f = Some (Some (f_pipe x, f_readable x, f_writable x))) as Hend.
    { rewrite list_lookup_fmap, Hx. cbn. unfold pend. by rewrite Hty. }
    destruct (pk_end _ _ _ Hp _ _ _ _ Hend) as (_ & q & Hq & _). destruct (pk_live _ _ _ Hp _ _ Hq) as (Hok & Hlk & _).
    apply wpe_bind. eapply wpe_on_pipe; [exact Hq|].
    eapply wpe_mono; [| |apply (pipeclose_spec (f_writable x) q Hok Hlk)]; [|done]. cbv beta.
    intros b q' (Hok' & Hlk' & _ & Hro & Hwo & ->).
    destruct (pipes_ok_close _ _ _ _ _ _ _ _ q' Hp Hend Hq Hok' Hlk' Hro Hwo) as [Ha Hb].
    assert ((pend <$> <[f := closed_file x]> (ftable s)) = <[f := None]> (pend <$> ftable s)) as Hpe by (by rewrite list_fmap_insert).
    unfold is_open in Ha, Hb. destruct (Z.eqb_spec (readopen q') 0), (Z.eqb_spec (writeopen q') 0); cbn [andb when].
    + apply wpe_modify, HQ; [|by eapply only_file_insert]. split; [done|]. cbn. rewrite delete_insert_eq, Hpe. apply Hb. destruct (f_writable x); cbn in *; lia.
    + apply wpe_ret, HQ; [|by eapply only_file_insert]. split; [done|]. cbn. rewrite Hpe. apply Ha. destruct (f_writable x); cbn in *; lia.
    + apply wpe_ret, HQ; [|by eapply only_file_insert]. split; [done|]. cbn. rewrite Hpe. apply Ha. destruct (f_writable x); cbn in *; lia.
    + apply wpe_ret, HQ; [|by eapply only_file_insert]. split; [done|]. cbn. rewrite Hpe. apply Ha. by destruct (f_writable x).
  - destruct HE as [HE|HE]; [done|].
    assert (forall t s', ofile s' = ofile s -> ftable s' = <[f := closed_file x]> (ftable s) -> ft_lock s' = ft_lock s ->
      kpipes s' = kpipes s -> kpages s' = kpages s -> invf fds E (set_kfs t s')) as Hi.
    { intros t s' H2 H3 H4 H5 H6. unfold invf. cbn. rewrite H3, H4, H5, H6. split; [done|].
      rewrite (pends_insert _ _ x); [done..|]. unfold pend. by rewrite Hty. }
    apply wpe_bind, wpe_fs; [intros [] t1|by intros; apply HE; [apply Hi|by eapply only_file_insert]].
    apply wpe_bind, wpe_fs; [intros [] t2|by intros; apply HE; [apply Hi|by eapply only_file_insert]].
    apply wpe_fs; [intros [] t3; by apply HQ; [apply Hi|by eapply only_file_insert]|by intros; apply HE; [apply Hi|by eapply only_file_insert]].
Qed.

Lemma fileclose_fds fds E s f x (Q : unit -> kstate S -> Prop) Er :
  invf fds (Some f :: E) s -> ftable s !! f = Some x ->
  (forall s', invf fds E s' -> only_file f s s' -> Q tt s') ->
  (f_type x <> FD_INODE \/ forall w s', invf fds E s' -> only_file f s s' -> Er w s') ->
  wpe (fileclose me f) s Q Er.
Proof.
  intros [Hr Hp] Hx HQ HE. pose proof (ro_lock _ _ _ _ Hr) as Hlk. pose proof (lookup_lt_Some _ _ _ Hx) as Hlt.
  pose proof (ro_ref _ _ _ _ Hr f x Hx) as Hn. cbn [app] in Hn. rewrite nrefs_cons, decide_True in Hn by done. unfold fileclose.
  apply wpe_bind, wpe_acquire_ft; [done|]. apply wpe_bind. eapply wpe_fat; [exact Hx|].
  destruct (Z.ltb_spec (f_ref x) 1); [lia|]. apply wpe_bind. eapply wpe_fmod; [exact Hx|].
  apply wpe_bind. eapply wpe_fat; [by apply list_lookup_insert_eq|]. cbn [f_ref set_f_ref].
  destruct (Z.ltb_spec 0 (f_ref x - 1)).
  - apply wpe_release_ft; [done|]. apply HQ; [|by eapply only_file_insert].
    split; cbn [ft_lock ftable ofile kpipes kpages set_ftable set_ft_lock].
    + rewrite <- Hlk. by apply (refs_drop fds E s f x); [done..|cbn; lia].
    + by rewrite (pends_insert _ _ x).
  - apply wpe_bind. eapply wpe_fat; [by apply list_lookup_insert_eq|].
    apply wpe_bind. eapply wpe_fmod; [by apply list_lookup_insert_eq|].
    apply wpe_bind. eapply wpe_fmod; [apply list_lookup_insert_eq; cbn; by rewrite length_insert|].
    apply wpe_bind, wpe_release_ft; [done|]. assert (f_ref x = 1) as H1 by lia.
    match goal with |- wpe _ ?s1 _ _ => assert (s1 = set_ftable (<[f := closed_file x]> (ftable s)) s) as -> end.
    { destruct s; cbn in *. subst. by rewrite !list_insert_insert_eq. }
    by apply (fileclose_last fds E s f x).
Qed.

Lemma fileclose_spec E s f x (Q : unit -> kstate S -> Prop) Er :
  inv (Some f :: E) s -> ftable s !! f = Some x ->
  (forall s', inv E s' -> only_file f s s' -> Q tt s') ->
  (f_type x <> FD_INODE \/ forall w s', inv E s' -> only_file f s s' -> Er w s') ->
  wpe (fileclose me f) s Q Er.
Proof.
  intros Hi Hx HQ HE. apply (fileclose_fds (ofile s) E s f x); [done..| |].
  - intros s' Hi' Ho. apply HQ; [|done]. unfold inv. by rewrite (proj1 Ho).
  - destruct HE as [HE|HE]; [by left|right]. intros w s' Hi' Ho. apply HE; [|done]. unfold inv. by rewrite (proj1 Ho).
Qed.

(** What closing a descriptor for an end of a pipe does: the file has one
    reference less; when there is none left its entry is free, the end is
    closed with what is in the pipe kept, and the page of the pipe is freed
    when the other end is closed too. *)
Definition end_closed (f : nat) (x : file) s s' : Prop :=
  if 1 <? f_ref x then s' = set_ftable (<[f := set_f_ref (f_ref x - 1) x]> (ftable s)) s
  else exists q q', kpipes s !! f_pipe x = Some q /\ queue q' = queue q /\
    readopen q' = (if f_writable x then readopen q else 0) /\ writeopen q' = (if f_writable x then 0 else writeopen q) /\
    ftable s' = <[f := closed_file x]> (ftable s) /\
    (if (readopen q' =? 0) && (writeopen q' =? 0)
     then kpipes s' = delete (f_pipe x) (kpipes s) /\ kpages s' = f_pipe x :: kpages s
     else kpipes s' = <[f_pipe x := q']> (kpipes s) /\ kpages s' = kpages s).

Lemma fileclose_end fds E s f x :
  invf fds (Some f :: E) s -> ftable s !! f = Some x -> f_type x = FD_PIPE ->
  wp (fileclose me f) s (fun _ s' => ofile s' = ofile s /\ end_closed f x s s').
Proof.
  intros [Hr Hp] Hx Hty. pose proof (ro_lock _ _ _ _ Hr) as Hlk. pose proof (lookup_lt_Some _ _ _ Hx) as Hlt.
  pose proof (ro_ref _ _ _ _ Hr f x Hx) as Hn. cbn [app] in Hn. rewrite nrefs_cons, decide_True in Hn by done. unfold fileclose, end_closed.
  apply wpe_bind, wpe_acquire_ft; [done|]. apply wpe_bind. eapply wpe_fat; [exact Hx|].
  destruct (Z.ltb_spec (f_ref x) 1); [lia|]. apply wpe_bind. eapply wpe_fmod; [exact Hx|].
  apply wpe_bind. eapply wpe_fat; [by apply list_lookup_insert_eq|]. cbn [f_ref set_f_ref].
  destruct (Z.ltb_spec 0 (f_ref x - 1)), (Z.ltb_spec 1 (f_ref x)); try lia.
  { apply wpe_release_ft; [done|]. split; [done|]. destruct s; cbn in *. by subst. }
  apply wpe_bind. eapply wpe_fat; [by apply list_lookup_insert_eq|].
  apply wpe_bind. eapply wpe_fmod; [by apply list_lookup_insert_eq|].
  apply wpe_bind. eapply wpe_fmod; [apply list_lookup_insert_eq; cbn; by rewrite length_insert|].
  apply wpe_bind, wpe_release_ft; [done|]. cbn [f_type set_f_ref]. rewrite Hty.
  assert ((pend <$> ftable s) !! f = Some (Some (f_pipe x, f_readable x, f_writable x))) as Hend.
  { rewrite list_lookup_fmap, Hx. cbn. unfold pend. by rewrite Hty. }
  destruct (pk_end _ _ _ Hp _ _ _ _ Hend) as (_ & q & Hq & _). destruct (pk_live _ _ _ Hp _ _ Hq) as (Hok & Hlk' & _).
  apply wpe_bind. eapply wpe_on_pipe; [exact Hq|].
  eapply wpe_mono; [| |apply (pipeclose_spec (f_writable x) q Hok Hlk')]; [|done]. cbv beta.
  intros b q' (_ & _ & Hqu & Hro & Hwo & Hb).
  assert (<[f := set_f_type FD_NONE (set_f_ref 0 (set_f_ref (f_ref x - 1) x))]>
    (<[f := set_f_ref 0 (set_f_ref (f_ref x - 1) x)]> (<[f := set_f_ref (f_ref x - 1) x]> (ftable s))) =
    <[f := closed_file x]> (ftable s)) as Hft by (by rewrite !list_insert_insert_eq).
  destruct b; cbn [when].
  - apply wpe_modify. split; [done|]. exists q, q'. rewrite <- Hb. split_and!; [done..|exact Hft| |done]. cbn. by rewrite delete_insert_eq.
  - apply wpe_ret. split; [done|]. exists q, q'. rewrite <- Hb. split_and!; [done..|exact Hft|done|done].
Qed.

(** ** Descriptors *)

Lemma inv_fd E s f fd : inv (Some f :: E) s -> ofile s !! fd = Some None ->
  inv E (set_ofile (<[fd := Some f]> (ofile s)) s).
Proof.
  intros [Hr Hp] Hfd. split; [|done]. cbn. eapply refs_ok_perm; [exact Hr|by rewrite length_insert|].
  intros g. cbn [app]. rewrite nrefs_cons, !nrefs_app. pose proof (nrefs_insert g _ _ _ (Some f) Hfd).
  repeat case_decide; simplify_eq; lia.
Qed.

(** The lowest free descriptor. *)
Lemma wpe_fdalloc s f (Q : option Z -> kstate S -> Prop) Er :
  (forall fd, ofile s !! fd = Some None -> (forall j, (j < fd)%nat -> ofile s !! j <> Some None) ->
     Q (Some (Z.of_nat fd)) (set_ofile (<[fd := Some f]> (ofile s)) s)) ->
  ((forall j, ofile s !! j <> Some None) -> Q None s) -> wpe (fdalloc f) s Q Er.
Proof.
  intros HQ HN. unfold fdalloc. apply wpe_bind, wpe_get. destruct (find_index _ _) as [fd|] eqn:Hfd.
  - apply find_index_Some in Hfd as [([g|] & Hfd & Hg) Hlow]; [done|]. apply wpe_bind, wpe_put, wpe_ret. apply HQ; [done|].
    intros j Hj Hn. by specialize (Hlow j None Hj Hn).
  - apply wpe_ret, HN. intros j Hj. by pose proof (proj1 (find_index_None _ _) Hfd j None Hj).
Qed.

Lemma fdalloc_spec E s f (Q : option Z -> kstate S -> Prop) Er :
  inv (Some f :: E) s ->
  (forall fd, ofile s !! fd = Some None -> inv E (set_ofile (<[fd := Some f]> (ofile s)) s) ->
     Q (Some (Z.of_nat fd)) (set_ofile (<[fd := Some f]> (ofile s)) s)) ->
  Q None s -> wpe (fdalloc f) s Q Er.
Proof. intros Hi HQ HN. apply wpe_fdalloc; [|done]. intros fd Hfd _. apply HQ; [done|]. by apply inv_fd. Qed.

Lemma clear_fd_spec E s fd f (Q : unit -> kstate S -> Prop) Er :
  inv E s -> ofile s !! Z.to_nat fd = Some (Some f) ->
  (inv (Some f :: E) (set_ofile (<[Z.to_nat fd := None]> (ofile s)) s) ->
     Q tt (set_ofile (<[Z.to_nat fd := None]> (ofile s)) s)) ->
  wpe (clear_fd fd) s Q Er.
Proof.
  intros [Hr Hp] Hfd HQ. apply wpe_modify, HQ. split; [|done]. cbn.
  eapply refs_ok_perm; [exact Hr|by rewrite length_insert|].
  intros g. cbn [app]. rewrite nrefs_cons, !nrefs_app. pose proof (nrefs_insert g _ _ _ None Hfd). repeat case_decide; simplify_eq; lia.
Qed.

Lemma set_kproc_id s : set_kproc (kproc s) s = s.
Proof. by destruct s. Qed.

(** A call that only looks at the process. *)
Lemma wpe_up_ret {A} (m : M uproc A) s a (Q : A -> kstate S -> Prop) Er :
  m (kproc s) = Ret a (kproc s) -> Q a s -> wpe (up m) s Q Er.
Proof. intros Hm HQ. apply wpe_zoom. unfold wpe. cbn [view proc_lens update]. by rewrite Hm, set_kproc_id. Qed.

(** The open file that argument [n] names: the entry of the descriptor
    table, when the argument can be read and is a descriptor in use. *)
Definition arg_file s n : option nat :=
  fd ← i32 <$> arg_word (kproc s) n; if (0 <=? fd) && (fd <? NOFILE) then mjoin (ofile s !! Z.to_nat fd) else None.

Lemma argfd_exact E s n (Q : option (Z * nat) -> kstate S -> Prop) Er :
  inv E s -> uproc_ok (kproc s) ->
  (forall fd f x, 0 <= fd -> i32 <$> arg_word (kproc s) n = Some fd -> arg_file s n = Some f -> ofile s !! Z.to_nat fd = Some (Some f) -> ftable s !! f = Some x -> 0 < f_ref x ->
     Q (Some (fd, f)) s) ->
  (arg_file s n = None -> Q None s) -> wpe (argfd n) s Q Er.
Proof.
  unfold arg_file. intros [Hr Hp] Hu HQ HN. unfold argfd. apply wpe_bind. eapply wpe_up_ret; [by apply argint_spec|].
  destruct (i32 <$> arg_word (kproc s) n) as [fd|]; [|by apply wpe_ret, HN]. cbn [mbind option_bind] in HQ, HN.
  destruct (Z.ltb_spec fd 0), (Z.leb_spec NOFILE fd), (Z.leb_spec 0 fd), (Z.ltb_spec fd NOFILE); try lia;
    cbn [andb orb] in *; try by apply wpe_ret, HN.
  apply wpe_bind, wpe_get. pose proof (ro_fds _ _ _ _ Hr) as Hl. unfold NOFILE in *.
  destruct (ofile s !! Z.to_nat fd) as [[f|]|] eqn:Hfd; [|by apply wpe_ret, HN|].
  - apply wpe_ret. assert (Some f ∈ E ++ ofile s) as Hin by (apply elem_of_app; right; by eapply list_elem_of_lookup_2).
    destruct (lookup_lt_is_Some_2 (ftable s) f) as [x Hx]; [by apply (ro_range _ _ _ _ Hr)|].
    eapply HQ; [done..|]. rewrite (ro_ref _ _ _ _ Hr f x Hx). apply nrefs_pos in Hin. lia.
  - apply lookup_ge_None in Hfd. lia.
Qed.

Lemma argfd_spec E s n (Q : option (Z * nat) -> kstate S -> Prop) Er :
  inv E s -> uproc_ok (kproc s) ->
  (forall fd f x, ofile s !! Z.to_nat fd = Some (Some f) -> ftable s !! f = Some x -> 0 < f_ref x -> Q (Some (fd, f)) s) ->
  Q None s -> wpe (argfd n) s Q Er.
Proof. intros Hi Hu HQ HN. apply (argfd_exact E); [done..| |done]. intros fd f x _ _ _. apply HQ. Qed.

(** ** Pipes *)

Lemma inv_perm E E' s : inv E s -> E ≡ₚ E' -> inv E' s.
Proof.
  intros [Hr Hp] HE. split; [|done]. eapply refs_ok_perm; [exact Hr|done|]. intros g. rewrite !nrefs_app. f_equal.
  unfold nrefs. apply Permutation_length. by rewrite HE.
Qed.

Lemma refs_ok_upd E lk ft fds f x x' :
  refs_ok E lk ft fds -> ft !! f = Some x -> f_ref x' = f_ref x -> f_ref x <> 0 -> refs_ok E lk (<[f := x']> ft) fds.
Proof.
  intros Hr Hx Hn H0. eapply (refs_ok_move E E lk ft _ fds fds f x x'); try done; [congruence|].
  rewrite Hn. by apply (ro_ref _ _ _ _ Hr).
Qed.

Definition same_proc s s' : Prop := ofile s' = ofile s /\ kproc s' = kproc s.

Lemma pipealloc_bad_spec E s f0 f1 (Q : option (nat * nat) -> kstate S -> Prop) Er :
  inv (option_list (Some <$> f0) ++ option_list (Some <$> f1) ++ E) s -> (forall f, f0 = Some f -> f1 <> Some f) ->
  (forall f x, f0 = Some f \/ f1 = Some f -> ftable s !! f = Some x -> f_type x = FD_NONE) ->
  (forall s', inv E s' -> same_proc s s' -> Q None s') ->
  wpe (pipealloc_bad me f0 f1) s Q Er.
Proof.
  intros Hi Hne Hty HQ. unfold pipealloc_bad. apply wpe_bind.
  assert (forall s1, inv (option_list (Some <$> f1) ++ E) s1 -> same_proc s s1 ->
    (forall f x, f1 = Some f -> ftable s1 !! f = Some x -> f_type x = FD_NONE) ->
    wpe (match f1 with Some f => fileclose me f | None => mret tt end ;; mret None) s1 Q Er) as Hrest.
  { intros s1 Hi1 Hs1 Hty1. apply wpe_bind. destruct f1 as [f1|]; [|by apply wpe_ret, wpe_ret, HQ].
    destruct (lookup_lt_is_Some_2 (ftable s1) f1) as [x Hx]; [apply (ro_range _ _ _ _ (proj1 Hi1)); by left|].
    eapply (fileclose_spec E); [exact Hi1|exact Hx| |left; by rewrite (Hty1 f1 x)].
    intros s' Hi' (Ho & Hk & _). apply wpe_ret, HQ; [done|]. destruct Hs1. split; congruence. }
  destruct f0 as [f0|]; [|by apply wpe_ret, Hrest; [..|intros f x ? ?; eapply Hty; [right|]]].
  destruct (lookup_lt_is_Some_2 (ftable s) f0) as [x Hx]; [apply (ro_range _ _ _ _ (proj1 Hi)); by left|].
  eapply (fileclose_spec (option_list (Some <$> f1) ++ E)); [exact Hi|exact Hx| |left; rewrite (Hty f0 x); auto].
  intros s' Hi' (Ho & Hk & Hot). apply Hrest; [done..|]. intros f y -> Hy.
  rewrite Hot in Hy by (intros ->; by apply (Hne f0)). eapply Hty; [by right|exact Hy].
Qed.

(** Two open files, each with one reference, for the reading and the writing
    end of an empty pipe in a page that was free. *)
Definition new_ends (f g : nat) s s' : Prop :=
  exists p q x y, kpages s = p :: kpages s' /\ kpipes s' = <[p := q]> (kpipes s) /\
    queue q = [] /\ readopen q = 1 /\ writeopen q = 1 /\
    ftable s' !! f = Some x /\ pend x = Some (p, true, false) /\ f_ref x = 1 /\
    ftable s' !! g = Some y /\ pend y = Some (p, false, true) /\ f_ref y = 1.

Lemma pipealloc_spec E s (Q : option (nat * nat) -> kstate S -> Prop) Er :
  inv E s ->
  (forall f g s', inv (Some f :: Some g :: E) s' -> same_proc s s' -> f <> g ->
     (forall h x, h = f \/ h = g -> ftable s' !! h = Some x -> f_type x = FD_PIPE) -> new_ends f g s s' -> Q (Some (f, g)) s') ->
  (forall s', inv E s' -> same_proc s s' -> Q None s') ->
  wpe (pipealloc me) s Q Er.
Proof.
  intros Hi HQ HN. unfold pipealloc. apply wpe_bind. apply (filealloc_spec E); [done| |].
  2: { apply (pipealloc_bad_spec E); try done. by intros f x [?|?]. }
  intros f0 ft0 x0 Hi0 Hx0 Hn0 Ht0 Hf0 (_ & _ & Ho0). apply wpe_bind. apply (filealloc_spec (Some f0 :: E)); [done| |].
  2: { apply (pipealloc_bad_spec E); try done. intros f x [[= <-]|?]; [|done]. cbn. congruence. }
  intros f1 ft1 x1 Hi1 Hx1 Hn1 Ht1 Hf1 (_ & _ & Ho1).
  assert (f0 <> f1) as Hne. { intros ->. apply Hf1. by left. }
  assert (ft1 !! f0 = Some x0) as Hx0' by (specialize (Ho1 f0 Hne); cbn in Ho1; congruence).
  apply wpe_bind. unfold kalloc_pipe. apply wpe_bind, wpe_get. cbn [kpages set_ftable].
  destruct (kpages s) as [|p pages] eqn:Hpg.
  { apply wpe_ret. apply (pipealloc_bad_spec E); [|congruence| |done].
    - eapply inv_perm; [exact Hi1|]. apply perm_swap.
    - intros f x [[= <-]|[= <-]]; cbn; congruence. }
  apply wpe_bind, wpe_put, wpe_ret. apply wpe_bind. eapply wpe_on_pipe; [apply lookup_insert_eq|]. apply wpe_modify.
  apply wpe_bind. eapply wpe_fmod; [exact Hx0'|]. cbn [ftable set_kpipes set_kpages set_ftable].
  apply wpe_bind. eapply wpe_fmod; [cbn; by rewrite list_lookup_insert_ne|]. apply wpe_ret.
  cbn [ftable set_kpipes set_kpages set_ftable].
  pose proof (lookup_lt_Some _ _ _ Hx0'). pose proof (lookup_lt_Some _ _ _ Hx1).
  destruct Hi1 as [Hr Hp]. cbn in Hr, Hp. rewrite Hpg in Hp. apply HQ; [|done|done| |].
  - apply (inv_perm (Some f1 :: Some f0 :: E)); [|apply perm_swap]. split; cbn.
    + apply (refs_ok_upd _ _ _ _ f1 x1); [|by rewrite list_lookup_insert_ne|done|lia].
      apply (refs_ok_upd _ _ _ _ f0 x0); [done..|lia].
    + rewrite insert_insert_eq, !list_fmap_insert. apply pipes_ok_new; try done;
        rewrite list_lookup_fmap, ?Hx0', ?Hx1; cbn; unfold pend; by rewrite ?Ht0, ?Ht1.
  - cbn. intros h x [-> | ->].
    + rewrite list_lookup_insert_ne, list_lookup_insert_eq by done. by intros [= <-].
    + rewrite list_lookup_insert_eq by (by rewrite length_insert). by intros [= <-].
  - do 4 eexists. cbn. rewrite insert_insert_eq, list_lookup_insert_ne, !list_lookup_insert_eq by (by rewrite ?length_insert).
    split_and!; done.
Qed.

(** ** The system calls *)

Lemma sys_dup_spec E s (Q : Z -> kstate S -> Prop) Er :
  inv E s -> uproc_ok (kproc s) -> Z.of_nat (length (E ++ ofile s)) < 2 ^ 31 - 1 ->
  (forall r s', inv E s' -> Q r s') -> wpe sys_dup s Q Er.
Proof.
  intros Hi Hu Hb HQ. unfold sys_dup. apply wpe_bind, (argfd_spec E); [done..| |by apply wpe_ret, HQ].
  intros fd f x Hfd Hx Hn. apply wpe_bind, wpe_fdalloc; [|intros _; by apply wpe_ret, HQ].
  intros fd' Hfd' _. apply wpe_bind. pose proof (ref_bound E s f x Hi Hx).
  unfold wpe at 1. rewrite (filedup_run _ f x); [|apply (ro_lock _ _ _ _ (proj1 Hi))|done|lia].
  apply wpe_ret, HQ. exact (inv_fd E (set_ftable _ s) f fd' (inv_dup E s f x Hi Hx Hn) Hfd').
Qed.

Lemma sys_close_spec E s (Q : Z -> kstate S -> Prop) Er :
  inv E s -> uproc_ok (kproc s) ->
  (forall r s', inv E s' -> Q r s') -> (forall w s', inv E s' -> Er w s') -> wpe (sys_close me) s Q Er.
Proof.
  intros Hi Hu HQ HE. unfold sys_close. apply wpe_bind, (argfd_spec E); [done..| |by apply wpe_ret, HQ].
  intros fd f x Hfd Hx Hn. apply wpe_bind. eapply (clear_fd_spec E); [done..|]. intros Hi'.
  apply wpe_bind. eapply (fileclose_spec E); [exact Hi'|exact Hx|intros s' ? _; by apply wpe_ret, HQ|right; eauto].
Qed.

(** The bytes of a memory with [bs] stored at [p]. *)
Definition stored (p : Z) (bs mem : list Z) : list Z :=
  take (Z.to_nat p) mem ++ bs ++ drop (Z.to_nat p + length bs) mem.

Lemma length_stored p bs mem : (Z.to_nat p + length bs <= length mem)%nat -> length (stored p bs mem) = length mem.
Proof. intros. unfold stored. rewrite !length_app, length_take, length_drop. lia. Qed.

(** Two stores, one after the other. *)
Lemma stored_stored p bs cs mem : 0 <= p -> (Z.to_nat p + length bs + length cs <= length mem)%nat ->
  take (length bs + length cs) (drop (Z.to_nat p) (stored (p + Z.of_nat (length bs)) cs (stored p bs mem))) = bs ++ cs.
Proof.
  intros Hp Hl. unfold stored. rewrite Z2Nat.inj_add, Nat2Z.id by lia.
  assert (length (take (Z.to_nat p) mem) = Z.to_nat p) as Ht by (rewrite length_take; lia).
  rewrite (app_assoc _ bs), take_app_le by (rewrite length_app; lia). rewrite (take_ge (_ ++ bs)) by (rewrite length_app; lia).
  rewrite <- !(app_assoc (take _ mem) bs), drop_app_length' by done. rewrite app_assoc, <- length_app. apply take_app_length.
Qed.

Lemma close_both E s f g (Q : unit -> kstate S -> Prop) Er :
  inv (Some f :: Some g :: E) s -> f <> g ->
  (forall h x, h = f \/ h = g -> ftable s !! h = Some x -> f_type x = FD_PIPE) ->
  (forall s', inv E s' -> ofile s' = ofile s -> Q tt s') -> wpe (fileclose me f ;; fileclose me g) s Q Er.
Proof.
  intros Hi Hne Hty HQ. pose proof (ro_range _ _ _ _ (proj1 Hi)) as Hlt.
  destruct (lookup_lt_is_Some_2 (ftable s) f) as [x Hx]; [apply Hlt; by left|].
  apply wpe_bind. eapply (fileclose_spec (Some g :: E)); [exact Hi|exact Hx| |left; rewrite (Hty f x); auto].
  intros s1 Hi1 (Hof & _ & Ho). destruct (lookup_lt_is_Some_2 (ftable s1) g) as [y Hy].
  { apply (ro_range _ _ _ _ (proj1 Hi1)). by left. }
  eapply (fileclose_spec E); [exact Hi1|exact Hy|intros s' ? [? _]; apply HQ; [done|congruence]|]. left. rewrite Ho in Hy by done. rewrite (Hty g y); auto.
Qed.

Lemma wpe_up_store s p bs (Q : unit -> kstate S -> Prop) Er :
  0 <= p -> p + Z.of_nat (length bs) <= Z.of_nat (length (u_mem (kproc s))) ->
  Q tt (set_kproc (set_u_mem (stored p bs (u_mem (kproc s))) (kproc s)) s) -> wpe (up (store p bs)) s Q Er.
Proof.
  intros Hp Hl HQ. apply wpe_zoom. unfold store. apply wpe_bind, wpe_get. cbn [view proc_lens update].
  destruct (Nat.leb_spec (Z.to_nat p + length bs) (length (u_mem (kproc s)))); [|lia]. by apply wpe_put.
Qed.

(** [fd] is the lowest descriptor not in use. *)
Definition lowest_free (fds : list (option nat)) (fd : nat) : Prop :=
  fds !! fd = Some None /\ forall j, (j < fd)%nat -> fds !! j <> Some None.

(** The result of pipe: the descriptors are as before, or the two lowest free
    ones are for the ends of a new pipe and stored where the argument says. *)
Definition pipe_made s (r : Z) s' : Prop :=
  r = -1 /\ ofile s' = ofile s \/
  r = 0 /\ exists addr f g fd0 fd1, arg_word (kproc s) 0 = Some addr /\ f <> g /\ new_ends f g s s' /\
    lowest_free (ofile s) fd0 /\ lowest_free (<[fd0 := Some f]> (ofile s)) fd1 /\
    ofile s' = <[fd1 := Some g]> (<[fd0 := Some f]> (ofile s)) /\
    take 8 (drop (Z.to_nat addr) (u_mem (kproc s'))) = le_bytes 4 (Z.of_nat fd0) ++ le_bytes 4 (Z.of_nat fd1).

Lemma sys_pipe_spec E s (Q : Z -> kstate S -> Prop) Er :
  inv E s -> uproc_ok (kproc s) -> (forall r s', inv E s' -> pipe_made s r s' -> Q r s') -> wpe (sys_pipe me) s Q Er.
Proof.
  intros Hi Hu HQ. unfold sys_pipe. apply wpe_bind. eapply wpe_up_ret; [by apply argptr_spec|].
  destruct (arg_word (kproc s) 0) as [p|] eqn:Hw; [|by apply wpe_ret, HQ; [|left]]. cbn [mbind option_bind].
  pose proof (arg_word_range _ _ _ Hu Hw) as [Hp0 _]. pose proof (uo_mem _ Hu) as Hm.
  destruct (Z.ltb_spec p (u_sz (kproc s))), (Z.leb_spec (p + 8) (u_sz (kproc s))); cbn [Z.leb Z.compare andb];
    try (by apply wpe_ret, HQ; [|left]).
  apply wpe_bind, (pipealloc_spec E); [done| |intros s' ? [? _]; by apply wpe_ret, HQ; [|left]].
  intros f g s1 Hi1 [Ho1 Hk1] Hne Hty Hnew. apply wpe_bind, wpe_fdalloc.
  2: { intros _. apply wpe_bind, wpe_ret. apply wpe_bind, wpe_ret, wpe_assoc.
       apply (close_both E); [done..|]. intros s' Hi' Ho'. apply wpe_ret, HQ; [done|left]. split; [done|congruence]. }
  intros fd0 Hfd0 Hlow0. pose proof (inv_fd _ _ _ _ Hi1 Hfd0) as Hi2. apply wpe_bind, wpe_fdalloc.
  - intros fd1 Hfd1 Hlow1. pose proof (inv_fd _ _ _ _ Hi2 Hfd1) as Hi3.
    apply wpe_bind, wpe_up_store; [done|cbn; rewrite Hk1; lia|].
    apply wpe_bind, wpe_up_store; [lia|cbn; rewrite length_stored by (cbn; rewrite Hk1; lia); rewrite Hk1; lia|].
    apply wpe_ret, HQ; [exact Hi3|right]. split; [done|]. exists p, f, g, fd0, fd1. cbn in Hfd1, Hlow1 |- *. rewrite Ho1 in *.
    split_and!; [done|done|exact Hnew|by split|by split|done|].
    rewrite Hk1. apply (stored_stored p (le_bytes 4 (Z.of_nat fd0)) (le_bytes 4 (Z.of_nat fd1))); [done|]. cbn; lia.
  - intros _. pose proof (lookup_lt_Some _ _ _ Hfd0). apply wpe_bind, (clear_fd_spec (Some g :: E) _ _ f); [done| |].
    { rewrite Nat2Z.id. cbn. by apply list_lookup_insert_eq. }
    intros Hi3. apply wpe_assoc, (close_both E); [done..|]. intros s' Hi' Ho'. apply wpe_ret, HQ; [done|left]. split; [done|].
    rewrite Ho'. cbn. by rewrite Nat2Z.id, list_insert_insert_eq, list_insert_id, Ho1.
Qed.

(** What the invariant is about: everything but the file system, the process
    and the offsets of open files. *)
Definition fview s :=
  (ft_lock s, set_f_off 0 <$> ftable s, kpages s, kpipes s, ofile s).

Lemma inv_view E s s' : inv E s -> fview s' = fview s -> inv E s'.
Proof.
  intros [[H1 H2 H3 H4 H5] Hp] [= V1 V2 V3 V4 V5].
  assert (forall f x, ftable s' !! f = Some x -> exists y, ftable s !! f = Some y /\ f_ref y = f_ref x /\ f_type y = f_type x) as Hx.
  { intros f x Hx. assert ((set_f_off 0 <$> ftable s) !! f = Some (set_f_off 0 x)) as Hy by (by rewrite <- V2, list_lookup_fmap, Hx).
    rewrite list_lookup_fmap in Hy. destruct (ftable s !! f) as [y|]; [|done]. exists y. split; [done|].
    cbn in Hy. injection Hy as Ha Hb _ _ _ _. done. }
  assert (pend <$> ftable s' = pend <$> ftable s) as Hpe.
  { assert (forall l, pend <$> l = pend <$> (set_f_off 0 <$> l)) as Hl by (intros l; rewrite <- list_fmap_compose; by apply list_fmap_ext).
    by rewrite (Hl (ftable s')), V2, <- Hl. }
  split; [split|by rewrite Hpe, V3, V4].
  - congruence.
  - intros f x Hf. destruct (Hx f x Hf) as (y & Hy & <- & _). rewrite V5. by apply H2.
  - intros f Hf. rewrite V5 in Hf. apply H3 in Hf. by rewrite <- (length_fmap (set_f_off 0) (ftable s')), V2, length_fmap.
  - intros f x Hf. destruct (Hx f x Hf) as (y & Hy & <- & <-). by apply (H4 f).
  - congruence.
Qed.

Lemma keeps_fs {A} (m : M (fstate S) A) : keeps fview (fs m).
Proof. intros s. by apply wpe_fs. Qed.

Lemma keeps_up {A} (m : M uproc A) : keeps fview (up m).
Proof. intros s. by apply wpe_up. Qed.

Lemma keeps_fat f : keeps fview (fat f).
Proof. unfold fat. keeps. Qed.

Lemma keeps_off f (h : file -> Z) : keeps fview (fmod f (fun x => set_f_off (h x) x)).
Proof.
  intros s. unfold wpe, fmod, fat. mred. destruct (ftable s !! f) as [x|] eqn:Hx; [|done].
  unfold fview. cbn. rewrite list_fmap_insert, list_insert_id; [done|]. by rewrite list_lookup_fmap, Hx.
Qed.

#[local] Hint Resolve keeps_fs keeps_up keeps_fat keeps_off : keeps.

Lemma keeps_begin_op : keeps fview begin_op.
Proof. unfold begin_op. keeps. Qed.
Lemma keeps_end_op : keeps fview end_op.
Proof. unfold end_op. keeps. Qed.
Lemma keeps_arg_path n : keeps fview (arg_path n).
Proof. unfold arg_path, user_str. keeps. Qed.
Lemma keeps_argfd n : keeps fview (argfd n).
Proof. unfold argfd, wild. keeps. Qed.
#[local] Hint Resolve keeps_begin_op keeps_end_op keeps_arg_path keeps_argfd : keeps.

(** The calls that open and close nothing. *)
Lemma keeps_filestat f st : keeps fview (filestat me f st).
Proof. unfold filestat. keeps. Qed.
Lemma keeps_sys_link : keeps fview (sys_link me devsw_read devsw_write junk).
Proof. unfold sys_link, link_inode, sys_link_bad. keeps. Qed.
Lemma keeps_sys_unlink : keeps fview (sys_unlink me devsw_read devsw_write junk).
Proof. unfold sys_unlink, unlink_inode, sys_unlink_bad. keeps. Qed.
Lemma keeps_sys_mkdir : keeps fview (sys_mkdir me devsw_read devsw_write junk).
Proof. unfold sys_mkdir, made. keeps. Qed.
Lemma keeps_sys_mknod : keeps fview (sys_mknod me devsw_read devsw_write junk).
Proof. unfold sys_mknod, made. keeps. Qed.
Lemma keeps_sys_chdir : keeps fview (sys_chdir me devsw_read junk).
Proof. unfold sys_chdir. keeps. Qed.
Lemma keeps_open_inode path omode : keeps fview (open_inode me devsw_read devsw_write junk path omode).
Proof. unfold open_inode. keeps. Qed.

(** ** Reading and writing *)

(** The arguments of read and write: a buffer that belongs to the process. *)
Lemma arg_buffer_spec E s (Q : option (nat * Z * Z) -> kstate S -> Prop) Er :
  inv E s -> uproc_ok (kproc s) ->
  (forall f x p n, ftable s !! f = Some x -> 0 <= n -> 0 <= p -> p + n <= Z.of_nat (length (u_mem (kproc s))) ->
     Q (Some (f, p, n)) s) ->
  Q None s -> wpe arg_buffer s Q Er.
Proof.
  intros Hi Hu HQ HN. unfold arg_buffer. apply wpe_bind, (argfd_spec E); [done..| |by apply wpe_ret].
  intros fd f x Hfd Hx Hn. apply wpe_bind. eapply wpe_up_ret; [by apply argint_spec|].
  destruct (arg_word (kproc s) 2) as [n|] eqn:Hw2; [|by apply wpe_ret]. change (i32 <$> Some n) with (Some (i32 n)). cbv iota.
  apply wpe_bind. eapply wpe_up_ret; [apply argptr_spec; [done|apply i32_range]|].
  destruct (arg_word (kproc s) 1) as [p|] eqn:Hw1; [|by apply wpe_ret]. cbn [mbind option_bind].
  pose proof (arg_word_range _ _ _ Hu Hw1) as [Hp0 _]. pose proof (uo_mem _ Hu) as Hm.
  destruct (Z.leb_spec 0 (i32 n)), (Z.ltb_spec p (u_sz (kproc s))), (Z.leb_spec (p + i32 n) (u_sz (kproc s))); cbn [andb];
    try (by apply wpe_ret).
  apply wpe_ret. apply (HQ f x); [done..|lia].
Qed.

(** The call ends in a state of the invariant; it sleeps on [ch], or stops in
    the file system. *)
Definition sleeps_or_fs (ch : chan) (x : file) E (Er : stop -> kstate S -> Prop) : Prop :=
  forall w s', inv E s' -> (f_type x = FD_PIPE -> w = Sleeping ch) -> Er w s'.

(** It returns at most [n]. *)
Definition returns_at_most (n : Z) (x : file) E (Q : Z -> kstate S -> Prop) : Prop :=
  forall r s', inv E s' -> (f_type x = FD_PIPE -> -1 <= r <= n) -> Q r s'.

(** A call of the pipe's functions, on a file that is one of its ends. *)
Lemma pipe_call E s f x {A} (m : M pipe A) (Q : A -> kstate S -> Prop) Er :
  inv E s -> ftable s !! f = Some x -> f_type x = FD_PIPE -> keeps ends m ->
  (forall q, pipe_ok q -> p_lock q = false -> wp m q (fun a q' => pipe_ok q' /\ p_lock q' = false /\
     forall s', inv E s' -> kproc s' = kproc s -> Q a s')) ->
  wpe (on_pipe (f_pipe x) m) s Q Er.
Proof.
  intros [Hr Hp] Hx Hty Hk Hm.
  assert ((pend <$> ftable s) !! f = Some (Some (f_pipe x, f_readable x, f_writable x))) as Hend.
  { rewrite list_lookup_fmap, Hx. cbn. unfold pend. by rewrite Hty. }
  destruct (pk_end _ _ _ Hp _ _ _ _ Hend) as (_ & q & Hq & _). destruct (pk_live _ _ _ Hp _ _ Hq) as (Hok & Hlk & _).
  eapply wpe_on_pipe; [exact Hq|].
  eapply wpe_mono; [| |exact (keeps_wpe ends m q _ _ Hk (Hm q Hok Hlk))]; cbv beta.
  - intros a q' [(Hok' & Hlk' & HQ) [= Hro Hwo]]. apply HQ; [|done]. split; [done|]. by eapply pipes_ok_use.
  - by intros w q' [[] _].
Qed.

Lemma fileread_spec E s f x p n (Q : Z -> kstate S -> Prop) Er :
  inv E s -> ftable s !! f = Some x -> 0 <= n -> 0 <= p -> p + n <= Z.of_nat (length (u_mem (kproc s))) ->
  returns_at_most n x E Q -> sleeps_or_fs (ch_nread (Z.to_nat (f_pipe x))) x E Er ->
  wpe (fileread me devsw_read f p n) s Q Er.
Proof.
  intros Hi Hx Hn Hp Hl HQ HE. unfold fileread. apply wpe_bind. eapply wpe_fat; [exact Hx|].
  destruct (f_readable x); cbn [negb]; [|apply wpe_ret, HQ; [done|lia]]. destruct (f_type x) eqn:Hty.
  - apply HE; [done|by rewrite Hty].
  - apply wpe_bind, wpe_gets, wpe_bind. eapply (pipe_call E); [done..|apply piperead_ends|]. intros q Hok Hlk.
    eapply wp_mono; [|apply (piperead_spec _ _ q Hok Hlk)]. cbv beta. intros r q' (Hok' & Hlk' & Hr). split_and!; [done..|].
    intros s' Hi' Hk'. destruct r as [bs| |].
    + destruct Hr as (_ & Hbs & _). assert (length bs <= Z.to_nat n)%nat as Hbl by (subst; rewrite length_take; lia).
      apply wpe_bind, wpe_up_store; [done|rewrite Hk'; lia|]. apply wpe_ret, HQ; [done|lia].
    + apply wpe_ret, HQ; [done|lia].
    + by apply HE.
  - match goal with |- wpe ?m _ _ _ => assert (keeps fview m) as Hk by keeps end.
    eapply wpe_mono; [| |apply Hk]; cbv beta.
    + intros r s' Hs'. apply HQ; [by eapply inv_view|by rewrite Hty].
    + intros w s' Hs'. apply HE; [by eapply inv_view|by rewrite Hty].
Qed.

Lemma keeps_filewrite_loop fuel f addr n i : keeps fview (filewrite_loop me devsw_write fuel f addr n i).
Proof. revert i. induction fuel as [|fuel IH]; intros i; cbn [filewrite_loop]; keeps. Qed.

Lemma filewrite_spec E s f x p n (Q : Z -> kstate S -> Prop) Er :
  inv E s -> ftable s !! f = Some x -> 0 <= n -> 0 <= p -> p + n <= Z.of_nat (length (u_mem (kproc s))) ->
  returns_at_most n x E Q -> sleeps_or_fs (ch_nwrite (Z.to_nat (f_pipe x))) x E Er ->
  wpe (filewrite me devsw_write f p n) s Q Er.
Proof.
  intros Hi Hx Hn Hp Hl HQ HE. unfold filewrite. apply wpe_bind. eapply wpe_fat; [exact Hx|].
  destruct (f_writable x); cbn [negb]; [|apply wpe_ret, HQ; [done|lia]]. destruct (f_type x) eqn:Hty.
  - apply HE; [done|by rewrite Hty].
  - apply wpe_bind, wpe_gets, wpe_bind. eapply wpe_up_ret.
    { unfold load. mred. rewrite length_take, length_drop.
      destruct (Nat.eqb_spec (Z.to_nat n `min` (length (u_mem (kproc s)) - Z.to_nat p)) (Z.to_nat n)); [done|lia]. }
    apply wpe_bind. eapply (pipe_call E); [done..|apply pipewrite_ends|]. intros q Hok Hlk.
    eapply wp_mono; [|apply (pipewrite_spec _ _ q Hok Hlk)]. cbv beta. intros r q' (d & rest & _ & _ & Hok' & Hlk' & _).
    split_and!; [done..|]. intros s' Hi' Hk'. destruct r; [apply wpe_ret, HQ; [done|lia]..|by apply HE].
  - match goal with |- wpe ?m _ _ _ => assert (keeps fview m) as Hk by (pose proof keeps_filewrite_loop; keeps) end.
    eapply wpe_mono; [| |apply Hk]; cbv beta.
    + intros r s' Hs'. apply HQ; [by eapply inv_view|by rewrite Hty].
    + intros w s' Hs'. apply HE; [by eapply inv_view|by rewrite Hty].
Qed.

Lemma wpe_keeps E {A} (m : M (kstate S) A) s (Q : A -> kstate S -> Prop) Er :
  keeps fview m -> inv E s -> (forall a s', inv E s' -> Q a s') -> (forall w s', inv E s' -> Er w s') -> wpe m s Q Er.
Proof.
  intros Hk Hi HQ HE. eapply wpe_mono; [| |apply Hk]; cbv beta.
  - intros a s' Hs'. apply HQ. by eapply inv_view.
  - intros w s' Hs'. apply HE. by eapply inv_view.
Qed.

(** ** Opening *)

Lemma sys_open_spec E s (Q : Z -> kstate S -> Prop) Er :
  inv E s -> (forall r s', inv E s' -> Q r s') -> (forall w s', inv E s' -> Er w s') ->
  wpe (sys_open me devsw_read devsw_write junk) s Q Er.
Proof.
  intros Hi HQ HE. unfold sys_open.
  apply wpe_bind, (wpe_keeps E); [keeps|done| |done]. intros path s1 Hi1.
  apply wpe_bind, (wpe_keeps E); [keeps|done| |done]. intros omode s2 Hi2.
  destruct path as [path|]; [|by apply wpe_ret, HQ]. destruct omode as [omode|]; [|by apply wpe_ret, HQ].
  apply wpe_bind, (wpe_keeps E); [keeps|done| |done]. intros [] s3 Hi3.
  apply wpe_bind, (wpe_keeps E); [apply keeps_open_inode|done| |done]. intros [ip|] s4 Hi4.
  2: { apply (wpe_keeps E); [keeps|done..]. }
  apply wpe_bind, (filealloc_spec E); [done| |].
  2: { apply wpe_bind, wpe_ret. apply (wpe_keeps E); [keeps|done..]. }
  intros f ft x Hi5 Hx Href Hty Hf (_ & _ & Hof). apply wpe_bind, wpe_fdalloc.
  - intros fd Hfd _. pose proof (inv_fd _ _ _ _ Hi5 Hfd) as Hi6.
    apply wpe_bind, wpe_fs; [intros [] t1|intros w t1; apply HE; exact Hi6].
    apply wpe_bind, wpe_fs; [intros [] t2|intros w t2; apply HE; exact Hi6].
    apply wpe_bind. eapply wpe_fmod; [exact Hx|]. apply wpe_ret, HQ. destruct Hi6 as [Hr Hp]. split; cbn in *.
    + eapply refs_ok_upd; [exact Hr|exact Hx|done|lia].
    + by rewrite (pends_insert _ _ x) by (try done; unfold pend; by rewrite Hty).
  - intros _. apply wpe_bind. cbv beta iota. eapply (fileclose_spec E); [exact Hi5|exact Hx| |left; congruence].
    intros s' Hi' _. apply (wpe_keeps E); [keeps|done..].
Qed.

(** ** Every call *)

Lemma file_call_inv E s c m :
  file_call me devsw_read devsw_write junk c = Some m ->
  inv E s -> uproc_ok (kproc s) -> Z.of_nat (length (E ++ ofile s)) < 2 ^ 31 - 1 ->
  wpe m s (fun _ s' => inv E s') (fun _ s' => inv E s').
Proof.
  intros Hc Hi Hu Hb. destruct c; cbn in Hc; try done; injection Hc as <-.
  - by apply (sys_pipe_spec E).
  - apply wpe_bind, (arg_buffer_spec E); [done..| |by apply wpe_ret]. intros f x p n Hx Hn Hp Hl.
    apply (fileread_spec E s f x); [done..|by intros r s' ? _|by intros w s' ? _].
  - apply (wpe_keeps E); [|done..]. unfold sys_fstat. pose proof keeps_filestat. keeps.
  - by apply (wpe_keeps E); [apply keeps_sys_chdir|..].
  - by apply (sys_dup_spec E).
  - by apply (sys_open_spec E).
  - apply wpe_bind, (arg_buffer_spec E); [done..| |by apply wpe_ret]. intros f x p n Hx Hn Hp Hl.
    apply (filewrite_spec E s f x); [done..|by intros r s' ? _|by intros w s' ? _].
  - by apply (wpe_keeps E); [apply keeps_sys_mknod|..].
  - by apply (wpe_keeps E); [apply keeps_sys_unlink|..].
  - by apply (wpe_keeps E); [apply keeps_sys_link|..].
  - by apply (wpe_keeps E); [apply keeps_sys_mkdir|..].
  - by apply (sys_close_spec E).
Qed.

Lemma fork_files_inv E s l : inv E s -> (forall f, Some f ∈ l -> Some f ∈ E ++ ofile s) ->
  Z.of_nat (length (E ++ ofile s) + length l) < 2 ^ 31 - 1 ->
  wp (fork_files l) s (fun t s' => inv (t ++ E) s' /\ length t = length l /\ ofile s' = ofile s).
Proof.
  revert E s. induction l as [|[f|] l IH]; intros E s Hi Hin Hb; cbn [fork_files].
  - by apply wpe_ret.
  - cbn [length] in Hb. assert (Some f ∈ E ++ ofile s) as Hf by (apply Hin; left).
    destruct (lookup_lt_is_Some_2 (ftable s) f) as [x Hx]; [by apply (ro_range _ _ _ _ (proj1 Hi))|].
    pose proof (ref_bound E s f x Hi Hx). pose proof (ro_ref _ _ _ _ (proj1 Hi) f x Hx) as Hn. apply nrefs_pos in Hf.
    apply wp_bind. unfold wp, wpe at 1. rewrite (filedup_run _ f x); [|apply (ro_lock _ _ _ _ (proj1 Hi))|done|lia].
    apply wp_bind. eapply wp_mono; [|apply (IH (Some f :: E)); [apply inv_dup; [done..|lia]| |]].
    + cbv beta. intros t s' (Hi' & Hl & Ho). apply wpe_ret. split_and!; [|cbn; lia|done].
      eapply inv_perm; [exact Hi'|]. by rewrite <- Permutation_middle.
    + intros g Hg. cbn. right. apply Hin. by right.
    + cbn in *. lia.
  - cbn [length] in Hb. apply wp_bind. eapply wp_mono; [|apply (IH E); [done| |lia]].
    + cbv beta. intros t s' (Hi' & Hl & Ho). apply wpe_ret. split_and!; [|cbn; lia|done].
      destruct Hi' as [Hr Hp]. split; [|done]. eapply refs_ok_perm; [exact Hr|done|].
      intros g. cbn [app]. by rewrite nrefs_cons.
    + intros g Hg. apply Hin. by right.
Qed.

(** The reference of descriptor [n] is on its own. *)
Lemma inv_take E s n f : inv E s -> ofile s !! n = Some (Some f) -> invf (<[n := None]> (ofile s)) (Some f :: E) s.
Proof.
  intros [Hr Hp] Hfd. split; [|done]. eapply refs_ok_perm; [exact Hr|by rewrite length_insert|].
  intros g. cbn [app]. rewrite nrefs_cons, !nrefs_app. pose proof (nrefs_insert g _ _ _ None Hfd).
  repeat case_decide; simplify_eq; lia.
Qed.

Lemma exit_files_inv E s : inv E s ->
  wpe (exit_files me) s (fun _ s' => inv E s' /\ ofile s' = replicate (Z.to_nat NOFILE) None) (fun _ _ => True).
Proof.
  intros Hi. unfold exit_files.
  apply (wpe_for_seq (fun n s' => inv E s' /\ forall i, (i < n)%nat -> ofile s' !! i = Some None)).
  - split; [done|]. lia.
  - intros n s1 Hn (Hi1 & Hnone). apply wpe_bind, wpe_get. pose proof (ro_fds _ _ _ _ (proj1 Hi1)) as Hl.
    destruct (ofile s1 !! n) as [[f|]|] eqn:Hfd; [| |apply lookup_ge_None in Hfd; lia].
    2: { apply wpe_ret. split; [done|]. intros i Hi'. destruct (decide (i = n)) as [->|]; [done|]. apply Hnone. lia. }
    destruct (lookup_lt_is_Some_2 (ftable s1) f) as [x Hx].
    { apply (ro_range _ _ _ _ (proj1 Hi1)), elem_of_app. right. by eapply list_elem_of_lookup_2. }
    apply wpe_bind, (fileclose_fds (<[n := None]> (ofile s1)) E s1 f x); [by apply inv_take|done| |by right].
    + intros s2 Hi2 (Ho & _ & _). apply wpe_modify. cbn. rewrite Nat2Z.id, Ho. split; [exact Hi2|].
      intros i Hi'. destruct (decide (n = i)) as [<-|]; [apply list_lookup_insert_eq; lia|].
      rewrite list_lookup_insert_ne by done. apply Hnone. lia.
  - intros s' [Hi' Hnone]. split; [done|]. pose proof (ro_fds _ _ _ _ (proj1 Hi')) as Hl.
    apply list_eq_same_length with (n := Z.to_nat NOFILE); [by rewrite length_replicate|done|].
    intros i x y Hlt Hx Hy. rewrite Hnone in Hx by done. apply lookup_replicate in Hy as [-> _]. congruence.
Qed.

(** ** The system *)

(** The state with the process that runs, and the descriptors of the others.
    Between its calls the process computes, and anything may happen to the
    file system. *)
Inductive file_step : kstate S * list (list (option nat)) -> kstate S * list (list (option nat)) -> Prop :=
  | step_return c m s s' o r :
      file_call me devsw_read devsw_write junk c = Some m -> uproc_ok (kproc s) ->
      m s = Ret r s' -> file_step (s, o) (s', o)
  | step_sleeps c m s s' o ch :
      file_call me devsw_read devsw_write junk c = Some m -> uproc_ok (kproc s) ->
      m s = Stop (Sleeping ch) s' -> file_step (s, o) (s', o)
  | step_fork s s' o tab :
      Z.of_nat (length o) < 63 -> fork_files (ofile s) s = Ret tab s' -> file_step (s, o) (s', tab :: o)
  | step_exit s s' o tab :
      exit_files me s = Ret tt s' -> file_step (s, tab :: o) (set_ofile tab s', o)
  | step_switch s o i tab :
      o !! i = Some tab -> file_step (s, o) (set_ofile tab s, <[i := ofile s]> o)
  | step_user s o u : file_step (s, o) (set_kproc u s, o)
  | step_disk s o t : file_step (s, o) (set_kfs t s, o).

Definition sys_inv (c : kstate S * list (list (option nat))) : Prop :=
  inv (concat c.2) c.1 /\ Forall (fun t => length t = Z.to_nat NOFILE) c.2 /\ (length c.2 <= 63)%nat.

Lemma length_tables (o : list (list (option nat))) :
  Forall (fun t => length t = Z.to_nat NOFILE) o -> length (concat o) = (length o * Z.to_nat NOFILE)%nat.
Proof. induction 1 as [|t o Ht _ IH]; [done|]. cbn [concat length]. rewrite length_app. lia. Qed.

Lemma concat_swap (o : list (list (option nat))) i tab tab' : o !! i = Some tab ->
  concat (<[i := tab']> o) ++ tab ≡ₚ concat o ++ tab'.
Proof.
  intros Hi. rewrite <- (take_drop_middle o i tab Hi) at 2. rewrite insert_take_drop by (by eapply lookup_lt_Some).
  rewrite !concat_app. cbn [concat]. solve_Permutation.
Qed.

Lemma sys_inv_step c c' : sys_inv c -> file_step c c' -> sys_inv c'.
Proof.
  intros (Hi & Hl & Hn) Hs.
  assert (Z.of_nat (length (concat c.2 ++ ofile c.1)) <= 1024) as Hb.
  { rewrite length_app, length_tables by done. pose proof (ro_fds _ _ _ _ (proj1 Hi)) as ->. unfold NOFILE. lia. }
  destruct Hs as [c m s s' o r Hc Hu Hm|c m s s' o ch Hc Hu Hm|s s' o tab Hlt Hm|s s' o tab Hm|s o i tab Hi'|s o u|s o t];
    unfold sys_inv; cbn [fst snd] in *.
  - pose proof (file_call_inv (concat o) s c m Hc Hi Hu ltac:(lia)) as H. unfold wpe in H. by rewrite Hm in H.
  - pose proof (file_call_inv (concat o) s c m Hc Hi Hu ltac:(lia)) as H. unfold wpe in H. by rewrite Hm in H.
  - pose proof (ro_fds _ _ _ _ (proj1 Hi)) as Hf.
    pose proof (fork_files_inv (concat o) s (ofile s) Hi) as H. unfold wp, wpe in H. rewrite Hm in H.
    destruct H as (Hi' & Hlen & _); [intros f Hin; apply elem_of_app; by right|unfold NOFILE in *; lia|].
    split; [done|]. split; [constructor; [lia|done]|cbn; lia].
  - pose proof (exit_files_inv _ s Hi) as H. unfold wpe in H. rewrite Hm in H. destruct H as [[Hr Hp] Ho].
    apply Forall_cons in Hl as [Hl Hl']. split; [|split; [done|cbn in *; lia]]. split; [|done]. cbn in *.
    eapply refs_ok_perm; [exact Hr|rewrite Ho, length_replicate; done|].
    intros g. rewrite Ho, !nrefs_app.
    assert (nrefs g (replicate (Z.to_nat NOFILE) None) = 0%nat) as -> by done. lia.
  - split; [|split; [|by rewrite length_insert]].
    + destruct Hi as [Hr Hp]. split; [|done]. cbn. eapply refs_ok_perm; [exact Hr| |].
      * rewrite (ro_fds _ _ _ _ Hr). eapply Forall_lookup_1 in Hl; [|exact Hi']. done.
      * intros g. unfold nrefs. apply Permutation_length. by rewrite concat_swap.
    + apply Forall_insert; [done|]. apply (ro_fds _ _ _ _ (proj1 Hi)).
  - done.
  - done.
Qed.

(** When the kernel starts, the table is all zeros. *)
Definition zero_file : file := File FD_NONE 0 false false 0 0 0.

Record boot s : Prop := {
  bt_lock : ft_lock s = false;
  bt_table : ftable s = replicate (Z.to_nat NFILE) zero_file;
  bt_pipes : kpipes s = ∅;
  bt_pages : NoDup (kpages s);
  bt_fds : ofile s = replicate (Z.to_nat NOFILE) None
}.

Lemma boot_inv s : boot s -> sys_inv (s, []).
Proof.
  intros [H1 H2 H3 H4 H5]. split; [|by split; [constructor|cbn; lia]]. split; cbn [fst snd concat app].
  - rewrite H2, H5. split; [done| | | |done].
    + by intros f x [-> _]%lookup_replicate.
    + by intros f [? _]%elem_of_replicate.
    + by intros f x [-> _]%lookup_replicate.
  - rewrite H2, H3. rewrite fmap_replicate. split; try done.
    + by intros f p r w [? _]%lookup_replicate.
    + by intros f g p r r' w [? _]%lookup_replicate.
Qed.

Lemma reachable_sys_inv s0 s o : boot s0 -> rtc file_step (s0, []) (s, o) -> sys_inv (s, o).
Proof.
  intros Hb Hr. remember (s0, []) as c eqn:Hc. assert (sys_inv c) as Hi by (subst; by apply boot_inv). clear Hc.
  remember (s, o) as c'. clear Heqc'. induction Hr as [c|c c1 c2 Hs _ IH]; [done|]. by apply IH, (sys_inv_step c).
Qed.

(** C8: After any sequence of system calls on files, forks, exits and
    switches, the reference count of every open file is the number of
    descriptors for it in all processes, also when calls fail half way; every
    descriptor is for an entry of the table that is in use; every open file
    for a pipe has a pipe that is still allocated; and an end of a pipe is
    open exactly when there is an open file for it, of which there is one
    only. *)
Theorem descriptors_counted s0 s o :
  boot s0 -> rtc file_step (s0, []) (s, o) ->
  (forall f x, ftable s !! f = Some x -> f_ref x = Z.of_nat (nrefs f (concat (o ++ [ofile s])))) /\
  (forall f, Some f ∈ concat (o ++ [ofile s]) -> exists x, ftable s !! f = Some x /\ 0 < f_ref x) /\
  (forall f x, ftable s !! f = Some x -> f_type x = FD_PIPE -> 0 < f_ref x /\
     exists q, kpipes s !! f_pipe x = Some q /\ f_pipe x ∉ kpages s) /\
  (forall p q w, kpipes s !! p = Some q ->
     (is_open q w <-> exists f x, ftable s !! f = Some x /\ pend x = Some (p, negb w, w)) /\
     (forall f g x y, ftable s !! f = Some x -> ftable s !! g = Some y ->
        pend x = Some (p, negb w, w) -> pend y = Some (p, negb w, w) -> f = g)).
Proof.
  intros Hb Hr. destruct (reachable_sys_inv s0 s o Hb Hr) as ([[H1 H2 H3 H4 H5] [P1 P2 P3 P4 P5 P6]] & _ & _). cbn [fst snd] in *.
  assert (concat (o ++ [ofile s]) = concat o ++ ofile s) as -> by (rewrite concat_app; cbn; by rewrite app_nil_r).
  assert (forall f x e, ftable s !! f = Some x -> pend x = Some e -> (pend <$> ftable s) !! f = Some (Some e)) as He.
  { intros f x e Hx Hp. by rewrite list_lookup_fmap, Hx; cbn; rewrite Hp. }
  split_and!; [done|..].
  - intros f Hf. destruct (lookup_lt_is_Some_2 (ftable s) f) as [x Hx]; [by apply H3|].
    exists x. split; [done|]. rewrite (H2 f x Hx). apply nrefs_pos in Hf. lia.
  - intros f x Hx Hty. split.
    + assert (f_ref x <> 0) as Hne by (intros H0; rewrite (H4 f x Hx H0) in Hty; done). rewrite (H2 f x Hx) in *. lia.
    + destruct (P1 f (f_pipe x) (f_readable x) (f_writable x)) as (_ & q & Hq & _); [apply (He _ x); [done|]; unfold pend; by rewrite Hty|].
      exists q. split; [done|]. intros Hin. rewrite (P6 _ Hin) in Hq. done.
  - intros p q w Hq. split; [split|].
    + intros Ho. destruct (P3 p q w Hq Ho) as (f & r & Hf). destruct (P1 _ _ _ _ Hf) as [-> _].
      rewrite list_lookup_fmap in Hf. destruct (ftable s !! f) as [x|] eqn:Hx; [|done]. exists f, x. split; [done|]. by injection Hf.
    + intros (f & x & Hx & Hp). destruct (P1 f p (negb w) w) as (_ & q' & Hq' & Ho); [by apply (He _ x)|]. rewrite Hq in Hq'. by injection Hq' as ->.
    + intros f g x y Hx Hy Hpx Hpy. eapply (P2 f g p _ _ w); eauto.
Qed.

(** C9: In every reachable state, for every process. dup returns the lowest
    free descriptor, which is then for the open file that its argument names
    and counted there; it fails, with nothing changed, exactly when the
    argument names none or no descriptor is free. pipe returns 0 with the two
    lowest free descriptors for the reading and the writing end of a new empty
    pipe, stored where its argument says; or -1 with the descriptors as they
    were, also when a table is full or there is no page. Closing a descriptor
    for an end of a pipe returns and takes one reference; with the last one
    the end is closed, the bytes in the pipe stay, and the page is freed when
    the other end is closed too. Reading from a pipe returns at most the
    number of bytes asked for or sleeps on the channel where writers wake
    readers of that pipe; writing to it returns or sleeps on the channel where
    its readers wake writers. None of them panics or touches a pipe whose page
    has been freed. *)
Theorem pipe_calls_safe s0 s o :
  boot s0 -> rtc file_step (s0, []) (s, o) -> uproc_ok (kproc s) ->
  wp sys_dup s (fun r s' =>
    r = -1 /\ s' = s /\ (arg_file s 0 = None \/ forall j, ofile s !! j <> Some None) \/
    0 <= r /\ exists f x, arg_file s 0 = Some f /\ ftable s !! f = Some x /\ lowest_free (ofile s) (Z.to_nat r) /\
      s' = set_ofile (<[Z.to_nat r := Some f]> (ofile s)) (set_ftable (<[f := one_more x]> (ftable s)) s)) /\
  wp (sys_pipe me) s (pipe_made s) /\
  (forall f x, arg_file s 0 = Some f -> ftable s !! f = Some x -> f_type x = FD_PIPE ->
     wp (sys_close me) s (fun r s' => r = 0 /\ exists fd, i32 <$> arg_word (kproc s) 0 = Some (Z.of_nat fd) /\
       ofile s' = <[fd := None]> (ofile s) /\ end_closed f x (set_ofile (<[fd := None]> (ofile s)) s) s')) /\
  (forall n f x, ofile s !! n = Some (Some f) -> ftable s !! f = Some x -> f_type x = FD_PIPE ->
     forall p len, 0 <= len -> 0 <= p -> p + len <= u_sz (kproc s) ->
       wpe (fileread me devsw_read f p len) s (fun r _ => -1 <= r <= len) (fun w _ => w = Sleeping (ch_nread (Z.to_nat (f_pipe x)))) /\
       wpe (filewrite me devsw_write f p len) s (fun r _ => -1 <= r <= len) (fun w _ => w = Sleeping (ch_nwrite (Z.to_nat (f_pipe x))))).
Proof.
  intros Hb Hr Hu. destruct (reachable_sys_inv s0 s o Hb Hr) as (Hi & Hl & Hn). cbn [fst snd] in *. set (E := concat o) in *.
  assert (Z.of_nat (length (E ++ ofile s)) <= 1024) as Hlen.
  { unfold E. rewrite length_app, length_tables by done. pose proof (ro_fds _ _ _ _ (proj1 Hi)) as ->. unfold NOFILE. lia. }
  split_and!.
  - unfold sys_dup. apply wpe_bind, (argfd_exact E); [done..| |intros Ha; apply wpe_ret; left; auto].
    intros fd f x _ _ Ha Hfd Hx Href. apply wpe_bind, wpe_fdalloc; [|intros Hno; apply wpe_ret; left; auto].
    intros fd' Hfd' Hlow. apply wpe_bind. pose proof (ref_bound E s f x Hi Hx).
    unfold wpe at 1. rewrite (filedup_run _ f x); [|apply (ro_lock _ _ _ _ (proj1 Hi))|done|lia].
    apply wpe_ret. right. rewrite Nat2Z.id. split; [lia|]. exists f, x. by split_and!.
  - by apply (sys_pipe_spec E).
  - intros f x Ha Hx Hty. unfold sys_close. apply wpe_bind, (argfd_exact E); [done..| |congruence].
    intros fd f' x' Hfd0 Hw Ha' Hfd Hx' _. rewrite Ha in Ha'. injection Ha' as <-. apply wpe_bind, wpe_modify, wpe_bind.
    eapply wpe_mono; [| |apply (fileclose_end (<[Z.to_nat fd := None]> (ofile s)) E _ f x); [by apply (inv_take E s)|done..]]; [|done].
    cbv beta. intros [] s' [Ho Hcl]. apply wpe_ret. split; [done|]. exists (Z.to_nat fd). by rewrite Z2Nat.id.
  - intros n f x Hfd Hx Hty p len Hp Hl0 Hsz. rewrite <- (uo_mem _ Hu) in Hsz.
    split; [apply (fileread_spec E s f x)|apply (filewrite_spec E s f x)]; try done; intros w s' _ Hw; auto.
Qed.

End fdref.

(** ** A run *)

Definition boot_state : kstate (lstate rstore) :=
  KState disk_fs false (replicate (Z.to_nat NFILE) zero_file) [4096; 8192] ∅ (replicate (Z.to_nat NOFILE) None) demo_uproc.

Lemma boot_state_boot : boot boot_state.
Proof. split; try done. apply NoDup_cons. split; [set_solver|apply NoDup_singleton]. Qed.

Definition after {S A} (m : M S A) (s : S) : S := match m s with Ret _ s' | Stop _ s' => s' end.

(** The process has made a pipe and then forked. *)
Definition piped : kstate (lstate rstore) := after (sys_pipe 7) boot_state.
Definition forked : kstate (lstate rstore) := after (fork_files (ofile piped)) piped.

Lemma forked_reachable : rtc (file_step 7 (fun _ => None) (fun _ => None) []) (boot_state, []) (forked, [ofile piped]).
Proof.
  eapply rtc_l; [apply (step_return 7 (fun _ => None) (fun _ => None) [] Syscall.sys_pipe (sys_pipe 7) boot_state piped [] 0); [done| |]|].
  - exact demo_uproc_ok.
  - vm_compute. reflexivity.
  - apply rtc_once. apply step_fork; [done|]. vm_compute. reflexivity.
Qed.

Lemma descriptors_counted_witness :
  f_ref <$> ftable forked !! 1%nat = Some 2 /\
  forall x, ftable forked !! 1%nat = Some x -> f_ref x = Z.of_nat (nrefs 1 (concat ([ofile piped] ++ [ofile forked]))).
Proof.
  split; [vm_compute; reflexivity|].
  exact (proj1 (descriptors_counted 7 (fun _ => None) (fun _ => None) [] boot_state forked [ofile piped]
    boot_state_boot forked_reachable) 1%nat).
Defined.

Lemma forked_uproc_ok : uproc_ok (kproc forked).
Proof.
  split; [vm_compute; reflexivity|vm_compute; discriminate|]. apply Forall_forall. intros x Hx. vm_compute in Hx. unfold in_u8.
  repeat (apply elem_of_cons in Hx as [->|Hx]; [lia|]). by apply not_elem_of_nil in Hx.
Qed.

Lemma pipe_calls_safe_witness :
  f_type <$> ftable forked !! 1%nat = Some FD_PIPE /\ wp (sys_pipe 7) forked (pipe_made forked).
Proof.
  split; [vm_compute; reflexivity|].
  refine (proj1 (proj2 (pipe_calls_safe 7 (fun _ => None) (fun _ => None) [] boot_state forked [ofile piped]
    boot_state_boot forked_reachable forked_uproc_ok))).
Defined.
