(* ===== verification/User.v ===== *)
(** User programs: the system calls they make, and formatted output.

    A program runs on the descriptors it has open and the files it can open.
    What is left to read on a descriptor is a list of bytes; a read may return
    fewer bytes than it asks for, as pipes and the console do. What a program
    writes is recorded byte by byte with the descriptor. [printf] and its
    helpers are those of [printf.c]. *)

From S2P Require Import Prelude.

Open Scope Z_scope.

(** The bytes of a string literal. *)
Fixpoint chars (s : string) : list Z :=
  match s with
  | EmptyString => []
  | String c s => Z.of_nat (Ascii.nat_of_ascii c) :: chars s
  end.
Arguments chars s%_string_scope.

(** ** System calls *)

Record uio := Uio {
  u_files : gmap (list Z) (list Z);   (* the files that open finds *)
  u_fds : gmap Z (list Z);            (* what is left to read on each descriptor *)
  u_short : list Z;                   (* limits of the next reads *)
  u_out : list (Z * Z)                (* bytes written: descriptor and byte *)
}.

Definition set_fds v s := Uio (u_files s) v (u_short s) (u_out s).
Definition set_short v s := Uio (u_files s) (u_fds s) v (u_out s).
Definition set_out v s := Uio (u_files s) (u_fds s) (u_short s) v.

(** How many bytes a read of at most [n] bytes returns when [len] bytes are
    left: at least one unless there are none. *)
Definition read_count (n len : Z) (short : list Z) : Z :=
  let m := Z.min n len in
  match short with
  | [] => m
  | k :: _ => Z.min m (Z.max 1 k)
  end.

(** [None] is the result -1; otherwise the bytes that were read. *)
Definition read (fd n : Z) : M uio (option (list Z)) :=
  s ← get;
  match u_fds s !! fd with
  | None => mret None
  | Some data =>
      let k := Z.to_nat (read_count n (Z.of_nat (length data)) (u_short s)) in
      put (set_short (tl (u_short s)) (set_fds (<[fd := drop k data]> (u_fds s)) s)) ;;
      mret (Some (take k data))
  end.

Definition write (fd : Z) (bs : list Z) : M uio Z :=
  modify (fun s => set_out (u_out s ++ ((fun b => (fd, b)) <$> bs)) s) ;;
  mret (Z.of_nat (length bs)).

(** The lowest descriptor that is not open. *)
Fixpoint free_fd (fds : gmap Z (list Z)) (fd : Z) (n : nat) : Z :=
  match n with
  | O => -1
  | S n => match fds !! fd with None => fd | Some _ => free_fd fds (fd + 1) n end
  end.

Definition open (path : list Z) : M uio Z :=
  s ← get;
  match u_files s !! path with
  | None => mret (-1)
  | Some data =>
      let fd := free_fd (u_fds s) 0 16 in
      if fd <? 0 then mret (-1)
      else put (set_fds (<[fd := data]> (u_fds s)) s) ;; mret fd
  end.

Definition close (fd : Z) : M uio unit := modify (fun s => set_fds (delete fd (u_fds s)) s).

Definition exit {A} : M uio A := fun s => Stop Exited s.

(** ** printf.c *)

Definition putc (fd c : Z) : M uio unit := write fd [u8 c] ;; mret tt.

Definition digits : list Z := chars "0123456789ABCDEF".

(** The digits of [x], the lowest first. *)
Fixpoint printint_loop (fuel : nat) (x base : Z) : list Z :=
  match fuel with
  | O => []
  | S fuel =>
      let d := default 0 (digits !! Z.to_nat (x mod base)) in
      if x / base =? 0 then [d] else d :: printint_loop fuel (x / base) base
  end.

(** The contents of [buf] when they are printed, which is from the end. A
    32-bit number has at most 32 digits in any base. *)
Definition printint_buf (xx base : Z) (sgn : bool) : list Z :=
  let neg := sgn && (xx <? 0) in
  let x := if neg then u32 (- xx) else u32 xx in
  printint_loop 32 x base ++ (if neg then chars "-" else []).

Definition printint (fd xx base : Z) (sgn : bool) : M uio unit :=
  for_each (reverse (printint_buf xx base sgn)) (putc fd).

(** The argument that [ap] points to: a word, or the string it points to. *)
Definition arg_word {S} (ap : list parg) : M S (Z * list parg) :=
  match ap with
  | PInt v :: ap => mret (v, ap)
  | PPtr v :: ap => mret (v, ap)
  | _ => wild
  end.

Definition arg_str {S} (ap : list parg) : M S (list Z * list parg) :=
  match ap with
  | PStr s :: ap => mret (s, ap)
  | PInt v :: ap | PPtr v :: ap => if v =? 0 then mret (chars "(null)", ap) else wild
  | [] => wild
  end.

(** The loop over the format: [state] is 0 or the percent sign. *)
Fixpoint printf_loop (fd : Z) (fmt : list Z) (state : Z) (ap : list parg) : M uio unit :=
  match fmt with
  | [] => mret tt
  | c :: fmt =>
      if state =? 0 then
        if c =? 37 then printf_loop fd fmt 37 ap
        else putc fd c ;; printf_loop fd fmt 0 ap
      else
        if c =? 100 then                       (* d *)
          a ← arg_word ap;
          printint fd (i32 a.1) 10 true ;;
          printf_loop fd fmt 0 a.2
        else if (c =? 120) || (c =? 112) then  (* x p *)
          a ← arg_word ap;
          printint fd (i32 a.1) 16 false ;;
          printf_loop fd fmt 0 a.2
        else if c =? 115 then                  (* s *)
          a ← arg_str ap;
          for_each a.1 (putc fd) ;;
          printf_loop fd fmt 0 a.2
        else if c =? 99 then                   (* c *)
          a ← arg_word ap;
          putc fd a.1 ;;
          printf_loop fd fmt 0 a.2
        else if c =? 37 then
          putc fd c ;; printf_loop fd fmt 0 ap
        else
          putc fd 37 ;;
          putc fd c ;;
          printf_loop fd fmt 0 ap
  end.

Definition printf (fd : Z) (fmt : string) (ap : list parg) : M uio unit :=
  printf_loop fd (chars fmt) 0 ap.

(** ** Output *)

(** What a program wrote on a descriptor. *)
Definition written (fd : Z) (s : uio) : list Z := (u_out s) ≫= fun w => if w.1 =? fd then [w.2] else [].

(** [outputs m s bs s']: [m] does nothing but write [bs] on [fd]. *)
Definition emit (fd : Z) (bs : list Z) (s : uio) : uio := set_out (u_out s ++ ((fun b => (fd, b)) <$> bs)) s.

Lemma emit_nil fd s : emit fd [] s = s.
Proof. destruct s. unfold emit, set_out. cbn. by rewrite app_nil_r. Qed.

Lemma emit_app fd a b s : emit fd b (emit fd a s) = emit fd (a ++ b) s.
Proof. unfold emit, set_out. cbn. by rewrite fmap_app, app_assoc. Qed.

Lemma written_emit fd bs : written fd (emit fd bs (Uio ∅ ∅ [] [])) = bs.
Proof.
  unfold written, emit, set_out. cbn [u_out app]. induction bs as [|b bs IH]; [done|]. cbn. rewrite Z.eqb_refl. cbn in *. by rewrite IH.
Qed.

Lemma putc_run fd c s : putc fd c s = Ret tt (emit fd [u8 c] s).
Proof. done. Qed.

Lemma puts_run fd bs s : Forall in_u8 bs -> for_each bs (putc fd) s = Ret tt (emit fd bs s).
Proof.
  revert s; induction bs as [|b bs IH]; intros s Hb; [by rewrite emit_nil|].
  apply Forall_cons in Hb as [Hb Hbs]. cbn [for_each]. unfold mbind, M_bind. rewrite putc_run, IH by done.
  by rewrite emit_app, u8_small.
Qed.

Lemma digit_at k : 0 <= k < 16 -> digits !! Z.to_nat k = Some (if k <? 10 then 48 + k else 55 + k).
Proof.
  intros Hk. destruct (Z_of_nat_complete k) as [n ->]; [lia|]. rewrite Nat2Z.id.
  do 16 (destruct n as [|n]; [done|]). lia.
Qed.

Lemma printint_loop_digits fuel x base :
  0 <= x -> 2 <= base <= 16 ->
  Forall (fun c => exists k, 0 <= k < base /\ c = if k <? 10 then 48 + k else 55 + k) (printint_loop fuel x base).
Proof.
  intros Hx Hb. revert x Hx; induction fuel as [|fuel IH]; intros x Hx; cbn [printint_loop]; [constructor|].
  pose proof (Z.mod_pos_bound x base ltac:(lia)) as Hm. rewrite digit_at by lia. cbn [default id].
  pose proof (Z.div_pos x base Hx ltac:(lia)).
  case_match; repeat constructor; eauto.
Qed.

(** The value of a list of decimal digits, the lowest first. *)
Definition dec_val (ds : list Z) : Z := foldr (fun c n => n * 10 + (c - 48)) 0 ds.

Lemma printint_loop_val fuel x : 0 <= x < 10 ^ Z.of_nat fuel -> dec_val (printint_loop fuel x 10) = x.
Proof.
  revert x; induction fuel as [|fuel IH]; intros x Hx; cbn [printint_loop]; [cbn in *; lia|].
  pose proof (Z.mod_pos_bound x 10 ltac:(lia)) as Hm. rewrite digit_at by lia. cbn [default id].
  pose proof (Z.div_mod x 10 ltac:(lia)) as Hd. rewrite (proj2 (Z.ltb_lt _ _)) by lia.
  cbv iota. rewrite Nat2Z.inj_succ, Z.pow_succ_r in Hx by lia.
  destruct (Z.eqb_spec (x / 10) 0) as [Hz|_]; unfold dec_val; cbn [foldr]; [lia|].
  change (foldr (fun c n => n * 10 + (c - 48)) 0 (printint_loop fuel (x / 10) 10)) with
    (dec_val (printint_loop fuel (x / 10) 10)).
  rewrite IH; [lia|]. split; [apply Z.div_pos; lia|apply Z.div_lt_upper_bound; lia].
Qed.

Lemma printint_buf_u8 xx base sgn : 2 <= base <= 16 -> Forall in_u8 (printint_buf xx base sgn).
Proof.
  intros Hb. unfold printint_buf. apply Forall_app. split.
  - eapply Forall_impl; [apply printint_loop_digits; [|done]|].
    + destruct (_ && _); apply u32_range.
    + cbv beta. intros c (k & Hk & ->). unfold in_u8. case_match; lia.
  - destruct (_ && _); [by apply Forall_singleton|constructor].
Qed.

Lemma printint_run fd xx base sgn s :
  2 <= base <= 16 -> printint fd xx base sgn s = Ret tt (emit fd (reverse (printint_buf xx base sgn)) s).
Proof. intros Hb. apply puts_run. by apply Forall_reverse, printint_buf_u8. Qed.
