(* ===== verification/Ulib.v ===== *)
(** The user library, [ulib.c]: strings, and the input of lines.

    A char array is the list of its bytes; a C string is the part before the
    first NUL, and a loop that runs past the end of its array is a wild
    access. *)

From S2P Require Import Prelude Mem User.

Open Scope Z_scope.

Section strings.
Context {S : Type}.

(** [strcpy(s, t)]: the array [s] afterwards. *)
Fixpoint strcpy (s t : list Z) : M S (list Z) :=
  match s, t with
  | _ :: s, c :: t =>
      if c =? 0 then mret (0 :: s)
      else s ← strcpy s t; mret (c :: s)
  | _, _ => wild
  end.

Fixpoint strcmp (p q : list Z) : M S Z :=
  match p, q with
  | a :: p, b :: q =>
      if negb (a =? 0) && (a =? b) then strcmp p q else mret (u8 a - u8 b)
  | _, _ => wild
  end.

Fixpoint strlen_loop (s : list Z) (n : Z) : M S Z :=
  match s with
  | [] => wild
  | c :: s => if c =? 0 then mret n else strlen_loop s (n + 1)
  end.

Definition strlen (s : list Z) : M S Z := strlen_loop s 0.

(** The offset of the first [c] from [n] on, [None] for a null pointer. *)
Fixpoint strchr_loop (s : list Z) (c n : Z) : M S (option Z) :=
  match s with
  | [] => wild
  | x :: s =>
      if x =? 0 then mret None
      else if x =? c then mret (Some n)
      else strchr_loop s c (n + 1)
  end.

Definition strchr (s : list Z) (c : Z) : M S (option Z) := strchr_loop s c 0.

(** chars are signed: a byte from 128 on is below the digits. *)
Fixpoint atoi_loop (s : list Z) (n : Z) : M S Z :=
  match s with
  | [] => wild
  | c :: s =>
      if (48 <=? i8 c) && (i8 c <=? 57) then atoi_loop s (i32 (n * 10 + i8 c - 48))
      else mret n
  end.

Definition atoi (s : list Z) : M S Z := atoi_loop s 0.

Fixpoint convertToLowercase (str : list Z) : M S (list Z) :=
  match str with
  | [] => wild
  | c :: str =>
      if c =? 0 then mret (c :: str)
      else
        let c := if (65 <=? i8 c) && (i8 c <=? 90) then u8 (c + 32) else c in
        str ← convertToLowercase str;
        mret (c :: str)
  end.

(** [a[i] = v] *)
Definition aset (a : list Z) (i v : Z) : M S (list Z) :=
  if (0 <=? i) && (i <? Z.of_nat (length a)) then mret (<[Z.to_nat i := v]> a) else wild.

End strings.

(** [memset] and [memmove] on user memory. *)
Definition umemset (m : mem) (dst c n : Z) : mem := stosb m dst c (Z.to_nat n).
Definition umemmove (m : mem) (vdst vsrc n : Z) : mem := copy_up m vdst vsrc (Z.to_nat n).

(** The loop reads at most [max - 1] characters. *)
Fixpoint gets_loop (n : nat) (buf : list Z) (i max : Z) : M uio (list Z * Z) :=
  match n with
  | O => mret (buf, i)
  | S n =>
      if i + 1 <? max then
        r ← read 0 1;
        match r with
        | Some [c] =>
            buf ← aset buf i c;
            if (c =? 10) || (c =? 13) then mret (buf, i + 1)
            else gets_loop n buf (i + 1) max
        | _ => mret (buf, i)
        end
      else mret (buf, i)
  end.

Definition gets (buf : list Z) (max : Z) : M uio (list Z) :=
  r ← gets_loop (Z.to_nat max) buf 0 max;
  aset r.1 r.2 0.

Fixpoint readline_loop (n : nat) (fd : Z) (buffer : list Z) (chars_read max_len : Z) : M uio (list Z * Z) :=
  match n with
  | O => mret (buffer, chars_read)
  | S n =>
      if chars_read <? max_len - 1 then
        r ← read fd 1;
        match r with
        | Some [c] =>
            if c =? 10 then mret (buffer, chars_read)
            else
              buffer ← aset buffer chars_read c;
              readline_loop n fd buffer (chars_read + 1) max_len
        | _ => mret (buffer, chars_read)
        end
      else mret (buffer, chars_read)
  end.

(** Returns the array and the number of characters read. *)
Definition readline (fd : Z) (buffer : list Z) (max_len : Z) : M uio (list Z * Z) :=
  r ← readline_loop (Z.to_nat max_len) fd buffer 0 max_len;
  buffer ← aset r.1 r.2 0;
  mret (buffer, r.2).

(** ** C strings *)

(** The array [a] holds the string [str]. *)
Definition is_str (a str : list Z) : Prop :=
  Forall (fun c => c <> 0) str /\ exists rest, a = str ++ 0 :: rest.

Lemma is_str_lit str : Forall (fun c => c <> 0) str -> is_str (str ++ [0]) str.
Proof. intros Hs. split; [done|]. by exists []. Qed.

Lemma is_str_nil_inv a : is_str a [] -> exists rest, a = 0 :: rest.
Proof. intros [_ [rest ->]]. by exists rest. Qed.

Lemma is_str_cons a c str : is_str (c :: a) (c :: str) <-> c <> 0 /\ is_str a str.
Proof.
  split.
  - intros [Hf [rest [= ->]]]. apply Forall_cons in Hf as [Hc Hf]. split; [done|]. split; [done|]. by exists rest.
  - intros [Hc [Hf [rest ->]]]. split; [by constructor|]. by exists rest.
Qed.

Lemma is_str_cut0 a str : is_str a str -> cut0 a = str.
Proof.
  intros [Hf [rest ->]]. induction Hf as [|c str Hc _ IH]; cbn [cut0 app]; [done|].
  rewrite (proj2 (Z.eqb_neq c 0) Hc). by rewrite IH.
Qed.

Lemma is_str_inj a s1 s2 : is_str a s1 -> is_str a s2 -> s1 = s2.
Proof. intros <-%is_str_cut0 <-%is_str_cut0. done. Qed.

Section specs.
Context {S : Type}.
Implicit Types st : S.

Lemma strcpy_run s t str st :
  is_str t str -> (length str < length s)%nat ->
  strcpy s t st = Ret (str ++ 0 :: drop (length str + 1) s) st.
Proof.
  intros [Hf [rest ->]]. revert s; induction Hf as [|c str Hc _ IH]; intros s Hl.
  - destruct s as [|x s]; [simpl in Hl; lia|]. cbn. by rewrite drop_0.
  - destruct s as [|x s]; [simpl in Hl; lia|]. cbn [strcpy app length drop Nat.add].
    rewrite (proj2 (Z.eqb_neq c 0) Hc). unfold mbind, M_bind. rewrite IH by (simpl in Hl; lia). done.
Qed.

Lemma strcpy_str s t str st :
  is_str t str -> (length str < length s)%nat ->
  exists s', strcpy s t st = Ret s' st /\ is_str s' str /\ length s' = length s.
Proof.
  intros Ht Hl. eexists. split; [by apply strcpy_run|]. split.
  - split; [apply Ht|eauto].
  - rewrite length_app. cbn [length]. rewrite length_drop. lia.
Qed.

Lemma strcmp_run p q a b st :
  is_str p a -> is_str q b -> Forall in_u8 a -> Forall in_u8 b ->
  exists r, strcmp p q st = Ret r st /\ (r = 0 <-> a = b).
Proof.
  intros [Ha [r1 ->]] [Hb [r2 ->]] Ha8 Hb8. revert b Hb Hb8.
  induction Ha as [|x a Hx _ IH]; intros b Hb Hb8.
  - destruct Hb as [|y b Hy Hb]; cbn.
    + by exists 0.
    + apply Forall_cons in Hb8 as [Hy8 _]. exists (0 - u8 y). split; [done|]. rewrite u8_small by done.
      split; [lia|done].
  - apply Forall_cons in Ha8 as [Hx8 Ha8]. destruct Hb as [|y b Hy Hb]; cbn [strcmp app].
    + rewrite (proj2 (Z.eqb_neq x 0) Hx). cbn. exists (u8 x - 0). split; [done|]. rewrite u8_small by done. split; [lia|done].
    + apply Forall_cons in Hb8 as [Hy8 Hb8]. rewrite (proj2 (Z.eqb_neq x 0) Hx). cbn [negb andb].
      destruct (Z.eqb_spec x y) as [->|Hne].
      * destruct (IH Ha8 b Hb Hb8) as (r & -> & Hr). exists r. split; [done|]. rewrite Hr. split; congruence.
      * exists (u8 x - u8 y). split; [done|]. rewrite !u8_small by done. split; [lia|congruence].
Qed.

Lemma strlen_run s str st : is_str s str -> strlen s st = Ret (Z.of_nat (length str)) st.
Proof.
  intros [Hf [rest ->]]. unfold strlen. enough (forall n, strlen_loop (str ++ 0 :: rest) n st = Ret (n + Z.of_nat (length str)) st) as H
    by apply H.
  induction Hf as [|c str Hc _ IH]; intros n; cbn [strlen_loop app length]; [f_equal; lia|].
  rewrite (proj2 (Z.eqb_neq c 0) Hc), IH. f_equal. lia.
Qed.

(** Lower-case letters for upper-case ones. *)
Definition lower (c : Z) : Z := if (65 <=? c) && (c <=? 90) then c + 32 else c.

Lemma i8_cases c : in_u8 c -> i8 c = if c <? 128 then c else c - 256.
Proof.
  unfold in_u8, i8. intros Hc. destruct (Z.ltb_spec c 128).
  - rewrite Z.mod_small; lia.
  - replace (c + 2 ^ 7) with (c - 128 + 1 * 2 ^ 8) by lia. rewrite Z_mod_plus_full, Z.mod_small; lia.
Qed.

Lemma convertToLowercase_run a str st :
  is_str a str -> Forall in_u8 str ->
  exists a', convertToLowercase a st = Ret a' st /\ is_str a' (lower <$> str) /\ length a' = length a.
Proof.
  intros [Hf [rest ->]] H8. induction Hf as [|c str Hc _ IH].
  - exists (0 :: rest). split; [done|]. split; [|done]. split; [constructor|by exists rest].
  - apply Forall_cons in H8 as [Hc8 H8]. destruct (IH H8) as (a' & Ha' & Hs & Hl). cbn [convertToLowercase app].
    rewrite (proj2 (Z.eqb_neq c 0) Hc). unfold mbind, M_bind. rewrite Ha'. eexists. split; [done|].
    assert (Hcase : (if (65 <=? i8 c) && (i8 c <=? 90) then u8 (c + 32) else c) = lower c).
    { rewrite i8_cases by done. unfold lower, in_u8 in *. destruct (Z.ltb_spec c 128).
      - destruct ((65 <=? c) && (c <=? 90)) eqn:E; [|done]. apply u8_small. unfold in_u8. lia.
      - destruct ((65 <=? c - 256) && (c - 256 <=? 90)) eqn:E; [lia|].
        destruct ((65 <=? c) && (c <=? 90)) eqn:E'; [lia|done]. }
    rewrite Hcase. split; [|cbn [length]; lia]. cbn [fmap list_fmap]. apply is_str_cons. split; [|done].
    unfold lower, in_u8 in *. destruct ((65 <=? c) && (c <=? 90)); lia.
Qed.

End specs.

(** ** Input *)

(** [s'] is [s] after input on [fd] of which [data] is left. *)
Definition took (fd : Z) (data : list Z) (s s' : uio) : Prop :=
  u_files s' = u_files s /\ u_out s' = u_out s /\ u_fds s' = <[fd := data]> (u_fds s).

Lemma took_trans fd d1 d2 s s1 s2 : took fd d1 s s1 -> took fd d2 s1 s2 -> took fd d2 s s2.
Proof.
  intros (Hf & Ho & Hd) (Hf' & Ho' & Hd'). unfold took. rewrite Hf', Ho', Hd', Hd, Hf, Ho.
  by rewrite insert_insert_eq.
Qed.

Lemma took_fds fd d s s' : took fd d s s' -> u_fds s' !! fd = Some d.
Proof. intros (_ & _ & ->). apply lookup_insert_eq. Qed.

Lemma read_one fd data s :
  u_fds s !! fd = Some data ->
  exists s', read fd 1 s = Ret (Some (take 1 data)) s' /\ took fd (drop 1 data) s s'.
Proof.
  intros Hd. unfold read. mred. rewrite Hd.
  assert (Hk : Z.to_nat (read_count 1 (Z.of_nat (length data)) (u_short s)) = Nat.min 1 (length data)).
  { unfold read_count. destruct (u_short s); lia. }
  rewrite Hk. eexists. split; [|].
  - destruct data as [|c data]; [done|]. done.
  - destruct data as [|c data]; done.
Qed.

Lemma read_some fd data n s :
  u_fds s !! fd = Some data -> 0 < n ->
  exists k s', read fd n s = Ret (Some (take k data)) s' /\ took fd (drop k data) s s' /\
    (data <> [] -> 0 < k)%nat /\ Z.of_nat (length (take k data)) <= n.
Proof.
  intros Hd Hn. unfold read. mred. rewrite Hd. do 2 eexists. split; [done|]. split; [done|].
  unfold read_count. split.
  - intros Hne. destruct data; [done|]. cbn [length]. destruct (u_short s); lia.
  - rewrite length_take. destruct (u_short s); lia.
Qed.

Lemma aset_run (a : list Z) i v (s : uio) :
  0 <= i < Z.of_nat (length a) -> aset a i v s = Ret (<[Z.to_nat i := v]> a) s.
Proof. intros Hi. unfold aset. case_eqb. done. Qed.

Lemma splice_step (buf : list Z) i c line :
  (i < length buf)%nat ->
  take (S i) (<[i := c]> buf) ++ line ++ drop (S i + length line) (<[i := c]> buf) =
  take i buf ++ (c :: line) ++ drop (i + S (length line)) buf.
Proof.
  intros Hi. rewrite drop_insert_lt by lia.
  rewrite (take_S_r _ i c) by by apply list_lookup_insert_eq. rewrite take_insert_ge by lia.
  rewrite <- app_assoc. cbn [app]. do 4 f_equal. lia.
Qed.

Lemma readline_loop_spec line tail n fd buf i max s :
  10 ∉ line -> (tail = [] \/ exists t, tail = 10 :: t) ->
  u_fds s !! fd = Some (line ++ tail) -> 0 <= i -> i + Z.of_nat (length line) < max - 1 ->
  max <= Z.of_nat (length buf) -> (length line < n)%nat ->
  wp (readline_loop n fd buf i max) s (fun r s' =>
    r.2 = i + Z.of_nat (length line) /\
    r.1 = take (Z.to_nat i) buf ++ line ++ drop (Z.to_nat i + length line) buf /\
    took fd (drop 1 tail) s s').
Proof.
  intros Hnl Htail. revert buf i s Hnl n. induction line as [|c line IH]; intros buf i s Hnl n Hd Hi Hl Hmax Hn.
  all: destruct n as [|n]; [simpl in Hn; lia|]; cbn [readline_loop]; rewrite (proj2 (Z.ltb_lt _ _)) by (cbn [length] in *; lia).
  all: apply wp_bind; destruct (read_one _ _ _ Hd) as (s1 & Hr & Ht); eapply wp_intro; [exact Hr|].
  - rewrite app_nil_l in *. rewrite Nat.add_0_r, app_nil_l, take_drop. cbn [length].
    destruct Htail as [->|[t ->]]; cbn [take]; apply wpe_ret; cbn [fst snd]; (split; [lia|done]).
  - cbn [take app]. rewrite take_0. apply not_elem_of_cons in Hnl as [Hc Hnl].
    rewrite (proj2 (Z.eqb_neq c 10)) by congruence. apply wp_bind. eapply wp_intro; [apply aset_run; cbn [length] in *; lia|].
    eapply wp_mono; [|apply (IH _ (i + 1) s1 Hnl n)]; [|by apply (took_fds _ _ _ _ Ht)| | | |].
    + cbv beta. intros [b k] s' (Hk & Hb & Ht'). cbn [fst snd] in *. split; [cbn [length]; lia|].
      split; [|by eapply took_trans]. rewrite Hb. clear IH Hb.
      replace (Z.to_nat (i + 1)) with (S (Z.to_nat i)) by lia.
      rewrite splice_step by (cbn [length] in *; lia). done.
    + lia.
    + cbn [length] in *. lia.
    + by rewrite length_insert.
    + cbn [length] in *. lia.
Qed.

(** A line that fits: readline takes it off the input, with its newline. *)
Lemma readline_spec line tail fd buf max s :
  10 ∉ line -> Forall (fun c => c <> 0) line -> (tail = [] \/ exists t, tail = 10 :: t) ->
  u_fds s !! fd = Some (line ++ tail) -> Z.of_nat (length line) < max - 1 -> max <= Z.of_nat (length buf) ->
  wp (readline fd buf max) s (fun r s' =>
    r.2 = Z.of_nat (length line) /\ is_str r.1 line /\ length r.1 = length buf /\ took fd (drop 1 tail) s s').
Proof.
  intros Hnl Hz Htail Hd Hl Hmax. unfold readline. apply wp_bind.
  eapply wp_mono; [|apply (readline_loop_spec line tail); try done; lia]. cbv beta.
  intros [b k] s' (Hk & Hb & Ht). cbn [fst snd] in *. change (Z.to_nat 0) with 0%nat in Hb. rewrite take_0 in Hb; cbn [app Nat.add] in Hb.
  assert (Hlb : length b = length buf) by (rewrite Hb, length_app, length_drop; lia).
  apply wp_bind. eapply wp_intro; [apply aset_run; lia|]. apply wpe_ret. cbn [fst snd].
  split; [lia|]. rewrite length_insert. split; [|done]. split; [done|].
  assert (length line < length buf)%nat as Hlt by lia.
  destruct (lookup_lt_is_Some_2 buf (length line) Hlt) as [x Hx].
  rewrite Hb, Hk, Z.add_0_l, Nat2Z.id. rewrite (drop_S _ x) by done.
  exists (drop (S (length line)) buf). rewrite insert_app_r_alt, Nat.sub_diag by lia. done.
Qed.

(** ** Numbers *)

Definition atoi_step (n c : Z) : Z := i32 (n * 10 + c - 48).

Lemma atoi_digits {S} a b n (s : S) :
  Forall (fun c => 48 <= c <= 57) a -> atoi_loop (a ++ b) n s = atoi_loop b (foldl atoi_step n a) s.
Proof.
  intros Ha. revert n; induction Ha as [|c a Hc _ IH]; intros n; cbn [atoi_loop app foldl]; [done|].
  rewrite i8_cases by (unfold in_u8; lia). rewrite (proj2 (Z.ltb_lt c 128)) by lia.
  rewrite (proj2 (Z.leb_le 48 c)), (proj2 (Z.leb_le c 57)) by lia. apply IH.
Qed.

Lemma atoi_step_val ds :
  Forall (fun c => 48 <= c <= 57) ds -> dec_val ds < 2 ^ 31 ->
  0 <= dec_val ds /\ foldl atoi_step 0 (reverse ds) = dec_val ds.
Proof.
  induction 1 as [|c ds Hc Hds IH]; [done|]. rewrite reverse_cons, foldl_app. cbn [foldl dec_val foldr].
  change (foldr (fun c n => n * 10 + (c - 48)) 0 ds) with (dec_val ds). intros Hlt.
  assert (0 <= dec_val ds) as H0.
  { clear -Hds. induction Hds as [|d ds Hd _ IH]; [done|]. cbn [dec_val foldr].
    change (foldr (fun c n => n * 10 + (c - 48)) 0 ds) with (dec_val ds). lia. }
  destruct IH as [_ ->]; [lia|]. split; [lia|]. unfold atoi_step. rewrite i32_small by (unfold in_i32; lia). lia.
Qed.

(** Numbers survive a round trip through text. atoi of what printf prints
    for %d is the number, for every non-negative int. *)
Theorem atoi_printint (n : Z) (s : uio) :
  0 <= n < 2 ^ 31 -> atoi (reverse (printint_buf n 10 true) ++ [0]) s = Ret n s.
Proof.
  intros Hn. unfold printint_buf. rewrite (proj2 (Z.ltb_ge n 0)) by lia. cbn [andb].
  rewrite app_nil_r, u32_small by (unfold in_u32; lia).
  assert (Hd : Forall (fun c => 48 <= c <= 57) (printint_loop 32 n 10)).
  { eapply Forall_impl; [apply printint_loop_digits; lia|]. cbv beta. intros c (k & Hk & ->).
    rewrite (proj2 (Z.ltb_lt k 10)) by lia. lia. }
  assert (Hv : dec_val (printint_loop 32 n 10) = n) by (apply printint_loop_val; split; [lia|]; cbn; lia).
  unfold atoi. rewrite atoi_digits by by apply Forall_reverse.
  destruct (atoi_step_val _ Hd) as [_ ->]; [lia|]. by rewrite Hv.
Qed.

Lemma atoi_printint_witness :
  0 <= 1907 < 2 ^ 31 /\
  atoi (reverse (printint_buf 1907 10 true) ++ [0]) (Uio ∅ ∅ [] []) = Ret 1907 (Uio ∅ ∅ [] []).
Proof. split; [lia|]. apply (atoi_printint 1907 (Uio ∅ ∅ [] [])). lia. Defined.

(** The library's memmove copies upwards only. It agrees with the kernel's
    memmove when the destination does not start inside the source, and it
    does not when it does: moving three bytes up by one repeats the first. *)
Theorem umemmove_upwards :
  (forall m dst src n x, 0 <= n -> dst <= src \/ src + n <= dst ->
     umemmove m dst src n x = memmove m dst src n x) /\
  (let m := fun x => if x =? 0 then 1 else if x =? 1 then 2 else if x =? 2 then 3 else 0 in
   bytes (memmove m 1 0 3) 0 4 = [1; 1; 2; 3] /\ bytes (umemmove m 1 0 3) 0 4 = [1; 1; 1; 1]).
Proof.
  split; [|done]. intros m dst src n x Hn Hd. rewrite memmove_at by done. unfold umemmove.
  rewrite copy_up_at; rewrite ?Z2Nat.id by done; [done|lia].
Qed.
