(* ===== verification/Uniq.v ===== *)
(** The uniq command: [uniq_user] of [ulib.c] with the program
    [uniq_user.c].

    The body of the loop over lines is the same in user mode and in the
    kernel ([sysproc.c]), up to the function that prints. *)

From S2P Require Import Prelude Mem User Ulib.

Open Scope Z_scope.

(** The flags, computed once from the option string. *)
Record uflags := UFlags {
  isCountFlag : bool;
  isCaseInsensitive : bool;
  isDelete : bool;
  isNoFlag : bool
}.

(** The local variables of the loop. *)
Record uvars := UVars {
  current_line : list Z;
  previous_line : list Z;
  repeated_line : list Z;
  lineCount : Z;
  isRepeated : Z
}.

Definition set_current v u := UVars v (previous_line u) (repeated_line u) (lineCount u) (isRepeated u).
Definition set_previous v u := UVars (current_line u) v (repeated_line u) (lineCount u) (isRepeated u).
Definition set_repeated v u := UVars (current_line u) (previous_line u) v (lineCount u) (isRepeated u).
Definition set_lineCount v u := UVars (current_line u) (previous_line u) (repeated_line u) v (isRepeated u).
Definition set_isRepeated v u := UVars (current_line u) (previous_line u) (repeated_line u) (lineCount u) v.

(** A string literal, as an array. *)
Definition lit (s : string) : list Z := chars s ++ [0].
Arguments lit s%_string_scope.

(** [char current_line[256] = ""] and the like. *)
Definition empty_line : list Z := replicate 256 0.

(** [cur] is the memory at [current_line]. *)
Definition init_vars (cur : list Z) : uvars := UVars cur empty_line empty_line 1 0.

Section body.
Context {S : Type}.
Variable print : string -> list parg -> M S unit.
(** The uninitialised contents of an array of 256 chars. *)
Variable junk : list Z.

Definition flags_of (flag : list Z) : M S uflags :=
  c ← strcmp flag (lit "-c");
  i ← strcmp flag (lit "-i");
  d ← strcmp flag (lit "-d");
  n ← strcmp flag (lit "-n");
  mret (UFlags (c =? 0) (i =? 0) (d =? 0) (n =? 0)).

Definition line_fmt : string := "%s" ++ nl.
Definition count_fmt : string := "%d  %s" ++ nl.

(** printing a C string passes a pointer to the array *)
Definition pstr (a : list Z) : parg := PStr (cut0 a).

Definition is_different (f : uflags) (v : uvars) : M S bool :=
  if isCaseInsensitive f then
    cl ← strcpy junk (current_line v);
    cl ← convertToLowercase cl;
    pl ← strcpy junk (previous_line v);
    pl ← convertToLowercase pl;
    r ← strcmp cl pl;
    mret (negb (r =? 0))
  else
    r ← strcmp (current_line v) (previous_line v);
    mret (negb (r =? 0)).

(** What happens to a line once it is in [current_line]. *)
Definition uniq_line (f : uflags) (v : uvars) : M S uvars :=
  isDifferent ← is_different f v;
  if (isDifferent : bool) then
    e ← strcmp (previous_line v) (lit EmptyString);
    v ← (if e =? 0 then mret (set_lineCount 1 v)
         else if isCountFlag f then
           print count_fmt [PInt (lineCount v); pstr (previous_line v)] ;; mret v
         else if isNoFlag f && (1 <? lineCount v) then
           print line_fmt [pstr (previous_line v)] ;; mret v
         else if isDelete f then mret (set_isRepeated 0 v)
         else
           print line_fmt [pstr (previous_line v)] ;;
           p ← strcpy (previous_line v) (current_line v);
           mret (set_previous p v));
    p ← strcpy (previous_line v) (current_line v);
    mret (set_lineCount 1 (set_previous p v))
  else
    v ← (if isDelete f && (isRepeated v =? 0) then
           r ← strcpy (repeated_line v) (current_line v);
           print line_fmt [pstr (previous_line v)] ;;
           mret (set_isRepeated 1 (set_repeated r v))
         else mret v);
    mret (set_lineCount (lineCount v + 1) v).

Definition uniq_end (f : uflags) (v : uvars) : M S unit :=
  e ← strcmp (previous_line v) (lit EmptyString);
  if negb (e =? 0) then
    if isCountFlag f then print count_fmt [PInt (lineCount v); pstr (previous_line v)]
    else if isNoFlag f || isCaseInsensitive f then print line_fmt [pstr (previous_line v)]
    else mret tt
  else print nl [].

(** The loop over the lines: [next] reads a line into the array and returns
    it with its length and what it needs for the following one. *)
Fixpoint lines_loop {X} (next : X -> list Z -> M S (list Z * Z * X)) (fuel : nat) (f : uflags) (x : X) (v : uvars) :
    M S uvars :=
  match fuel with
  | O => out_of_fuel
  | Datatypes.S fuel =>
      r ← next x (current_line v);
      let v := set_current r.1.1 v in
      if 0 <? r.1.2 then
        v ← uniq_line f v;
        lines_loop next fuel f r.2 v
      else mret v
  end.

End body.

(** ** uniq_user *)

Definition uprint : string -> list parg -> M uio unit := printf 1.

Definition unext (fd : Z) (_ : unit) (buf : list Z) : M uio (list Z * Z * unit) :=
  r ← readline fd buf 256; mret (r.1, r.2, tt).

Definition uniq_loop (junk : list Z) (fuel : nat) (fd : Z) (f : uflags) (v : uvars) : M uio uvars :=
  lines_loop uprint junk (unext fd) fuel f tt v.

(** Every turn of the loop but the last takes a byte off the input. *)
Definition uniq_user (junk : list Z) (fd : Z) (flag : list Z) : M uio unit :=
  f ← flags_of flag;
  n ← Prelude.gets (fun s => length (default [] (u_fds s !! fd)));
  v ← uniq_loop junk (S n) fd f (init_vars empty_line);
  uniq_end uprint f v.

Definition uniq_main (junk : list Z) (argv : list (list Z)) : M uio unit :=
  printf 1 (nl ++ "*** Uniq command is getting executed in user mode ***" ++ nl ++ nl) [] ;;
  match argv with
  | [_] => uniq_user junk 0 (lit "-n")
  | [_; a1] =>
      fd ← open (cut0 a1);
      if fd <? 0 then
        printf 2 ("Failed to open the input file: %s" ++ nl) [pstr a1] ;; exit
      else uniq_user junk fd (lit "-n")
  | [_; a1; a2] =>
      fd ← open (cut0 a2);
      if fd <? 0 then
        printf 2 ("Failed to open the input file: %s" ++ nl) [pstr a1] ;; exit
      else uniq_user junk fd a1
  | _ => mret tt
  end ;;
  exit.

(** ** What uniq prints *)

(** The decimal digits of a count. *)
Definition decimal (n : Z) : list Z := reverse (printint_buf (i32 n) 10 true).

Ltac run_printf :=
  unfold printf; cbn [printf_loop Z.eqb Pos.eqb orb arg_str arg_word];
  unfold mbind, M_bind, mret, M_ret; cbn [fst snd];
  repeat first [rewrite printint_run by lia | rewrite puts_run by done | rewrite putc_run | progress (cbn [arg_str arg_word]; unfold mret, M_ret; cbn [fst snd])];
  rewrite ?emit_app, <- ?app_assoc.

Lemma print_line fd l s :
  Forall in_u8 l -> printf fd line_fmt [PStr l] s = Ret tt (emit fd (l ++ [10]) s).
Proof. intros Hl. unfold printf. change (chars line_fmt) with [37; 115; 10]. by run_printf. Qed.

Lemma print_count fd n l s :
  Forall in_u8 l ->
  printf fd count_fmt [PInt n; PStr l] s = Ret tt (emit fd (decimal n ++ [32; 32] ++ l ++ [10]) s).
Proof.
  intros Hl. unfold printf. change (chars count_fmt) with [37; 100; 32; 32; 37; 115; 10]. by run_printf.
Qed.

Lemma puts_nl s : printf 1 nl [] s = Ret tt (emit 1 [10] s).
Proof. done. Qed.

(** A line that uniq can hold: not empty, no NUL, shorter than the buffer. *)
Record good_line (l : list Z) : Prop := {
  gl_nonempty : l <> [];
  gl_newline : 10 ∉ l;
  gl_nul : Forall (fun c => c <> 0) l;
  gl_bytes : Forall in_u8 l;
  gl_short : (length l < 255)%nat
}.

Definition key (f : uflags) (l : list Z) : list Z := if isCaseInsensitive f then lower <$> l else l.

(** The variables between two lines: the last group began with [p], and [c]
    lines of it have been seen. *)
Record holds_vars (v : uvars) (p : list Z) (c r : Z) : Prop := {
  hv_previous : length (previous_line v) = 256%nat;
  hv_repeated : length (repeated_line v) = 256%nat;
  hv_str : is_str (previous_line v) p;
  hv_count : lineCount v = c;
  hv_isrep : isRepeated v = r
}.

Lemma lower_u8 c : in_u8 c -> in_u8 (lower c).
Proof. unfold lower, in_u8. destruct ((65 <=? c) && (c <=? 90)) eqn:E; lia. Qed.

Lemma is_different_run {S} f v l p junk (s : S) :
  is_str (current_line v) l -> is_str (previous_line v) p -> Forall in_u8 l -> Forall in_u8 p ->
  (length l < 255)%nat -> (length p < 255)%nat -> length junk = 256%nat ->
  is_different junk f v s = Ret (negb (bool_decide (key f l = key f p))) s.
Proof.
  intros Hl Hp Hl8 Hp8 Hll Hpl Hj. unfold is_different, key. destruct (isCaseInsensitive f).
  - unfold mbind, M_bind.
    destruct (strcpy_str junk _ l s Hl) as (cl & -> & Hcl & _); [lia|].
    destruct (convertToLowercase_run cl l s Hcl Hl8) as (cl' & -> & Hcl' & _).
    destruct (strcpy_str junk _ p s Hp) as (pl & -> & Hpl' & _); [lia|].
    destruct (convertToLowercase_run pl p s Hpl' Hp8) as (pl' & -> & Hpl'' & _).
    assert (forall l, Forall in_u8 l -> Forall in_u8 (lower <$> l)) as H8
      by (intros k Hk; apply Forall_fmap; eapply Forall_impl; [exact Hk|]; intros; by apply lower_u8).
    destruct (strcmp_run cl' pl' _ _ s Hcl' Hpl'') as (r & -> & Hr); auto.
    cbn. do 2 f_equal. destruct (Z.eqb_spec r 0) as [Hz|Hz]; case_bool_decide; tauto.
  - unfold mbind, M_bind. destruct (strcmp_run _ _ _ _ s Hl Hp Hl8 Hp8) as (r & -> & Hr).
    cbn. do 2 f_equal. destruct (Z.eqb_spec r 0) as [Hz|Hz]; case_bool_decide; tauto.
Qed.

(** The text printed for a line [l] that follows the group of [p]. *)
Definition line_out (f : uflags) (p : list Z) (c r : Z) (l : list Z) : list Z :=
  if bool_decide (key f l = key f p) then
    if isDelete f && (r =? 0) then p ++ [10] else []
  else if isCountFlag f then decimal c ++ [32; 32] ++ p ++ [10]
  else if isNoFlag f && (1 <? c) then p ++ [10]
  else if isDelete f then []
  else p ++ [10].

Definition next_prev (f : uflags) (p l : list Z) : list Z := if bool_decide (key f l = key f p) then p else l.
Definition next_count (f : uflags) (p : list Z) (c : Z) (l : list Z) : Z :=
  if bool_decide (key f l = key f p) then c + 1 else 1.
Definition next_rep (f : uflags) (p : list Z) (c r : Z) (l : list Z) : Z :=
  if bool_decide (key f l = key f p) then (if isDelete f && (r =? 0) then 1 else r)
  else if isCountFlag f then r else if isNoFlag f && (1 <? c) then r else if isDelete f then 0 else r.

(** Everything printed from the group of [p] on. *)
Definition end_out (f : uflags) (p : list Z) (c : Z) : list Z :=
  if isCountFlag f then decimal c ++ [32; 32] ++ p ++ [10]
  else if isNoFlag f || isCaseInsensitive f then p ++ [10] else [].

Fixpoint lines_out (f : uflags) (p : list Z) (c r : Z) (ls : list (list Z)) : list Z :=
  match ls with
  | [] => end_out f p c
  | l :: ls =>
      line_out f p c r l ++ lines_out f (next_prev f p l) (next_count f p c l) (next_rep f p c r l) ls
  end.

Lemma pstr_str a p : is_str a p -> pstr a = PStr p.
Proof. intros Hp. unfold pstr. by rewrite (is_str_cut0 a p). Qed.

Lemma nonempty_strcmp {S} a p (s : S) : is_str a p -> Forall in_u8 p -> p <> [] ->
  exists r, strcmp a (lit EmptyString) s = Ret r s /\ (r =? 0) = false.
Proof.
  intros Ha H8 Hp. destruct (strcmp_run a (lit EmptyString) p [] s) as (r & Hr & Hz); [done| |done|constructor|].
  - split; [constructor|]. by exists [].
  - exists r. split; [done|]. apply Z.eqb_neq. naive_solver.
Qed.

(** What the loop over lines needs of its input and its output: [io_out bs s
    s'] says that [bs] was printed between [s] and [s'], and [io_left ls x s]
    that the lines [ls] are still to be read. *)
Class LineIO {S X : Type} (print : string -> list parg -> M S unit)
    (next : X -> list Z -> M S (list Z * Z * X)) := {
  io_ok : S -> Prop;
  io_out : list Z -> S -> S -> Prop;
  io_left : list (list Z) -> X -> S -> Prop;
  io_buf : list Z -> Prop;                      (* the memory at current_line *)
  io_nil s : io_out [] s s;
  io_app a b s s1 s2 : io_out a s s1 -> io_out b s1 s2 -> io_out (a ++ b) s s2;
  io_line l s : io_ok s -> Forall in_u8 l ->
    wp (print line_fmt [PStr l]) s (fun _ s' => io_ok s' /\ io_out (l ++ [10]) s s' /\
      forall ls x, io_left ls x s -> io_left ls x s');
  io_count n l s : io_ok s -> Forall in_u8 l ->
    wp (print count_fmt [PInt n; PStr l]) s (fun _ s' => io_ok s' /\
      io_out (decimal n ++ [32; 32] ++ l ++ [10]) s s' /\ forall ls x, io_left ls x s -> io_left ls x s');
  io_newline s : io_ok s -> wp (print nl []) s (fun _ s' => io_ok s' /\ io_out [10] s s');
  io_next l ls x buf s : io_ok s -> io_left (l :: ls) x s -> good_line l -> io_buf buf ->
    wp (next x buf) s (fun r s' => r.1.2 = Z.of_nat (length l) /\ is_str r.1.1 l /\ io_buf r.1.1 /\
      io_ok s' /\ io_out [] s s' /\ io_left ls r.2 s');
  io_end x buf s : io_ok s -> io_left [] x s -> io_buf buf ->
    wp (next x buf) s (fun r s' => r.1.2 <= 0 /\ io_ok s' /\ io_out [] s s')
}.

Section lines.
Context {S X : Type} (print : string -> list parg -> M S unit) (next : X -> list Z -> M S (list Z * Z * X)).
Context `{IO : !LineIO print next}.
Context (junk : list Z).
Hypothesis Hjunk : length junk = 256%nat.

(** Output, with the input as it was. *)
Definition out_only (bs : list Z) (s s' : S) : Prop :=
  io_ok s' /\ io_out bs s s' /\ forall ls x, io_left ls x s -> io_left ls x s'.

Lemma out_only_nil s : io_ok s -> out_only [] s s.
Proof. intros Hs. split; [done|]. split; [apply io_nil|done]. Qed.

(** The end of a line that differs from the previous one. *)
Lemma uniq_new_line v l c r (s : S) :
  length (previous_line v) = 256%nat -> length (repeated_line v) = 256%nat ->
  is_str (current_line v) l -> (length l < 255)%nat -> lineCount v = c -> isRepeated v = r ->
  exists v', (p ← strcpy (previous_line v) (current_line v); mret (set_lineCount 1 (set_previous p v))) s = Ret v' s /\
    holds_vars v' l 1 r /\ current_line v' = current_line v.
Proof.
  intros Hp Hr Hs Hl <- <-. unfold mbind, M_bind.
  destruct (strcpy_str (previous_line v) _ l s Hs) as (pl & -> & Hps & Hpl); [lia|].
  eexists. split; [done|]. split; [|done]. split; cbn; try done. by rewrite Hpl.
Qed.

Lemma uniq_line_spec f v l p c r s :
  io_ok s -> good_line l -> good_line p -> holds_vars v p c r -> is_str (current_line v) l ->
  wp (uniq_line print junk f v) s (fun v' s' => out_only (line_out f p c r l) s s' /\
    holds_vars v' (next_prev f p l) (next_count f p c l) (next_rep f p c r l) /\ current_line v' = current_line v).
Proof.
  intros Hok [Hl0 _ _ Hl8 Hll] [Hp0 _ _ Hp8 Hpl] [Hvp Hvr Hvs Hc Hrep] Hcur.
  unfold uniq_line, line_out, next_prev, next_count, next_rep. apply wp_bind.
  eapply wp_intro; [by apply (is_different_run f v l p)|].
  pose proof (pstr_str _ _ Hvs) as Hps. case_bool_decide as Hk; cbn [negb].
  - rewrite Hrep. destruct (isDelete f && (r =? 0)) eqn:Hd.
    + do 2 apply wp_bind. destruct (strcpy_str (repeated_line v) _ l s Hcur) as (rl & Hrun & Hrl & Hrll); [lia|].
      eapply wp_intro; [exact Hrun|]. apply wp_bind. rewrite Hps. eapply wp_mono; [|by apply io_line]. cbv beta.
      intros _ s' Ho. do 2 apply wpe_ret. split; [exact Ho|]. split; [|done]. split; cbn; try done; [by rewrite Hrll|by rewrite Hc].
    + apply wp_bind, wpe_ret, wpe_ret. split; [by apply out_only_nil|]. split; [|done]. split; try done. cbn. by rewrite Hc.
  - destruct (nonempty_strcmp _ _ s Hvs Hp8 Hp0) as (e & He & Hz). apply wp_bind. eapply wp_intro; [exact He|].
    rewrite Hz. rewrite Hps, Hc. apply wp_bind.
    assert (Hend : forall v' s', current_line v' = current_line v -> length (previous_line v') = 256%nat ->
      repeated_line v' = repeated_line v -> forall bs, out_only bs s s' ->
      wp (p ← strcpy (previous_line v') (current_line v'); mret (set_lineCount 1 (set_previous p v'))) s'
        (fun v'' s'' => out_only bs s s'' /\ holds_vars v'' l 1 (isRepeated v') /\ current_line v'' = current_line v)).
    { intros v' s' E1 E2 E3 bs Ho.
      destruct (uniq_new_line v' l (lineCount v') (isRepeated v') s') as (v'' & Hrun & Hv & Hcl); try (rewrite ?E1, ?E3; done).
      eapply wp_intro; [exact Hrun|]. by rewrite Hcl. }
    destruct (isCountFlag f); [|destruct (isNoFlag f && (1 <? c)); [|destruct (isDelete f)]].
    + apply wp_bind. eapply wp_mono; [|by apply io_count]. cbv beta. intros _ s' Ho. apply wpe_ret.
      rewrite <- Hrep. by apply Hend.
    + apply wp_bind. eapply wp_mono; [|by apply io_line]. cbv beta. intros _ s' Ho. apply wpe_ret.
      rewrite <- Hrep. by apply Hend.
    + apply wpe_ret. apply (Hend (set_isRepeated 0 v)); try done. by apply out_only_nil.
    + apply wp_bind. eapply wp_mono; [|by apply io_line]. cbv beta. intros _ s' Ho.
      destruct (strcpy_str (previous_line v) _ l s' Hcur) as (pl1 & Hrun & Hs1 & Hl1); [lia|].
      apply wp_bind. eapply wp_intro; [exact Hrun|]. apply wpe_ret. rewrite <- Hrep.
      apply (Hend (set_previous pl1 v)); try done. cbn. by rewrite Hl1.
Qed.

Lemma uniq_end_spec f p c r v s :
  io_ok s -> good_line p -> holds_vars v p c r ->
  wp (uniq_end print f v) s (fun _ s' => io_ok s' /\ io_out (end_out f p c) s s').
Proof.
  intros Hok [Hp0 _ _ Hp8 _] [_ _ Hvs <- _]. unfold uniq_end, end_out. apply wp_bind.
  destruct (nonempty_strcmp _ _ s Hvs Hp8 Hp0) as (e & He & Hz). eapply wp_intro; [exact He|]. rewrite Hz. cbn [negb].
  rewrite (pstr_str _ _ Hvs). destruct (isCountFlag f); [|destruct (isNoFlag f || isCaseInsensitive f)].
  - eapply wp_mono; [|by apply io_count]. cbv beta. naive_solver.
  - eapply wp_mono; [|by apply io_line]. cbv beta. naive_solver.
  - apply wpe_ret. split; [done|apply io_nil].
Qed.

Lemma set_current_vars v p c r a : holds_vars v p c r -> holds_vars (set_current a v) p c r.
Proof. by intros []. Qed.

Lemma next_prev_good f p l : good_line p -> good_line l -> good_line (next_prev f p l).
Proof. intros. unfold next_prev. by case_bool_decide. Qed.

Lemma lines_loop_spec f ls n x v p c r s :
  Forall good_line ls -> good_line p -> holds_vars v p c r -> io_buf (current_line v) -> io_ok s -> io_left ls x s ->
  (length ls < n)%nat ->
  wp (v ← lines_loop print junk next n f x v; uniq_end print f v) s (fun _ s' =>
    io_ok s' /\ io_out (lines_out f p c r ls) s s').
Proof.
  revert n x v p c r s; induction ls as [|l ls IH];
    intros n x v p c r s Hgood Hp Hv Hbuf Hok Hleft Hn; (destruct n as [|n]; [lia|]); cbn [lines_loop].
  - do 2 apply wp_bind. eapply wp_mono; [|by apply io_end].
    cbv beta. intros [[b k] x'] s' (Hk & Hok' & Ho). cbn [fst snd] in *.
    rewrite (proj2 (Z.ltb_ge 0 k)) by lia. apply wpe_ret.
    eapply wp_mono; [|eapply uniq_end_spec; [done|done|by apply set_current_vars]]. cbv beta.
    intros _ s'' [Hok'' Ho']. split; [done|]. by apply (io_app [] _ s s').
  - apply Forall_cons in Hgood as [Hl Hgood]. do 2 apply wp_bind.
    eapply wp_mono; [|by eapply io_next].
    cbv beta. intros [[b k] x1] s1 (Hk & Hbs & Hb & Hok1 & Ho1 & Hleft1). cbn [fst snd] in *.
    assert (0 < length l)%nat by (pose proof (gl_nonempty _ Hl); destruct l; [done|simpl; lia]).
    rewrite (proj2 (Z.ltb_lt 0 k)) by lia.
    apply wp_bind. eapply wp_mono; [|apply (uniq_line_spec f (set_current b v) l p c r s1);
      [done|done|done|by apply set_current_vars|done]]. cbv beta.
    intros v2 s2 [(Hok2 & Ho2 & Hk2) [Hv2 Hcl]].
    assert (Hlen : (length ls < n)%nat) by (cbn [length] in Hn; lia).
    pose proof (IH n x1 v2 _ _ _ s2 Hgood (next_prev_good f _ _ Hp Hl) Hv2 ltac:(by rewrite Hcl) Hok2 (Hk2 _ _ Hleft1) Hlen) as HI.
    apply wp_inv in HI as (u & s3 & HI & Hok3 & Ho3). unfold wp, wpe, mbind, M_bind in HI |- *.
    destruct (lines_loop print junk next n f x1 v2 s2) as [v3 s4|]; [|done]. rewrite HI. split; [done|].
    cbn [lines_out]. eapply (io_app [] _ s s1); [done|]. by eapply io_app.
Qed.

End lines.

(** *** Groups of equal lines *)

Definition add_group (f : uflags) (p : list Z) (c : Z) (gs : list (list Z * Z)) : list (list Z * Z) :=
  match gs with
  | (y, n) :: gs' => if bool_decide (key f y = key f p) then (p, c + n) :: gs' else (p, c) :: gs
  | [] => [(p, c)]
  end.

(** The runs of lines with the same key: the first line of each, and how many
    lines it has. *)
Fixpoint groups (f : uflags) (ls : list (list Z)) : list (list Z * Z) :=
  match ls with
  | [] => []
  | l :: ls => add_group f l 1 (groups f ls)
  end.

Lemma add_group_same f p c l gs :
  key f l = key f p -> add_group f p c (add_group f l 1 gs) = add_group f p (c + 1) gs.
Proof.
  intros Hk. destruct gs as [|[y n] gs]; cbn.
  - by rewrite bool_decide_true.
  - rewrite Hk. case_bool_decide as Hy; cbn; rewrite (bool_decide_true _ Hk); [f_equal; f_equal; lia|done].
Qed.

Lemma add_group_new f p c l gs :
  key f l <> key f p -> add_group f p c (add_group f l 1 gs) = (p, c) :: add_group f l 1 gs.
Proof.
  intros Hk. destruct gs as [|[y n] gs]; cbn; [by rewrite bool_decide_false|].
  case_bool_decide; cbn; by rewrite bool_decide_false.
Qed.

(** The options. Any other string behaves like no option, except that the last
    group is not printed. *)
Inductive uopt := OptCount | OptIgnore | OptRepeated | OptPlain | OptOther.

Definition opt_of (flag : list Z) : uopt :=
  if decide (flag = chars "-c") then OptCount
  else if decide (flag = chars "-i") then OptIgnore
  else if decide (flag = chars "-d") then OptRepeated
  else if decide (flag = chars "-n") then OptPlain
  else OptOther.

Definition opt_flags (o : uopt) : uflags :=
  match o with
  | OptCount => UFlags true false false false
  | OptIgnore => UFlags false true false false
  | OptRepeated => UFlags false false true false
  | OptPlain => UFlags false false false true
  | OptOther => UFlags false false false false
  end.

Definition report_group (o : uopt) (g : list Z * Z) : list Z :=
  match o with
  | OptCount => decimal g.2 ++ [32; 32] ++ g.1 ++ [10]
  | OptRepeated => if 1 <? g.2 then g.1 ++ [10] else []
  | _ => g.1 ++ [10]
  end.

(** What uniq prints for the groups of its input. *)
Definition report (o : uopt) (gs : list (list Z * Z)) : list Z :=
  match o, gs with
  | _, [] => [10]
  | OptOther, _ => take (length gs - 1) gs ≫= report_group o
  | _, _ => gs ≫= report_group o
  end.

(** Under -d, the group of [p] has been reported once its second line was
    seen. *)
Definition reported (o : uopt) (p : list Z) (c : Z) : list Z :=
  match o with OptRepeated => if 1 <? c then p ++ [10] else [] | _ => [] end.

Definition rep_of (o : uopt) (c : Z) : Z :=
  match o with OptRepeated => if 1 <? c then 1 else 0 | _ => 0 end.

Lemma take_pred_cons {A} (x : A) l : l <> [] -> take (length (x :: l) - 1) (x :: l) = x :: take (length l - 1) l.
Proof. intros Hl. destruct l; [done|]. cbn [length]. rewrite !Nat.sub_succ, !Nat.sub_0_r. done. Qed.

Lemma report_cons o g gs : gs <> [] -> report o (g :: gs) = report_group o g ++ report o gs.
Proof.
  intros Hgs. unfold report. destruct gs as [|g' gs]; [done|].
  destruct o; try done. rewrite take_pred_cons by done. done.
Qed.

Lemma add_group_nonempty f l c gs : add_group f l c gs <> [].
Proof. destruct gs as [|[y n] gs]; cbn; [done|]. by case_bool_decide. Qed.

Lemma lines_out_report o p c ls :
  1 <= c ->
  reported o p c ++ lines_out (opt_flags o) p c (rep_of o c) ls =
  report o (add_group (opt_flags o) p c (groups (opt_flags o) ls)).
Proof.
  revert p c; induction ls as [|l ls IH]; intros p c Hc.
  - unfold lines_out, groups, add_group, report, end_out, reported, report_group.
    destruct o; cbn [opt_flags isCountFlag isNoFlag isCaseInsensitive orb length Nat.sub take mbind list_bind fst snd app];
      by rewrite ?app_nil_r.
  - cbn [lines_out groups]. unfold line_out, next_prev, next_count, next_rep. case_bool_decide as Hk.
    + rewrite add_group_same by done. rewrite <- IH by lia. rewrite !app_assoc. f_equal; [|f_equal].
      * destruct o; cbn [reported opt_flags isDelete rep_of andb]; try done.
        rewrite (proj2 (Z.ltb_lt 1 (c + 1))) by lia. destruct (Z.ltb_spec 1 c); cbn; by rewrite ?app_nil_r.
      * destruct o; cbn [opt_flags isDelete rep_of andb]; try done.
        rewrite (proj2 (Z.ltb_lt 1 (c + 1))) by lia. by destruct (Z.ltb_spec 1 c).
    + rewrite add_group_new by done. rewrite report_cons by apply add_group_nonempty.
      rewrite <- (IH l 1) by lia. rewrite app_assoc. f_equal.
      * destruct o; cbn [reported report_group opt_flags isCountFlag isNoFlag isDelete andb fst snd app];
          rewrite ?app_nil_r; try done. by destruct (1 <? c).
      * destruct o; cbn [reported rep_of opt_flags isCountFlag isNoFlag isDelete andb app Z.ltb Z.compare Pos.compare];
          try done. by destruct (1 <? c).
Qed.

(** *** The loop *)

Section all_lines.
Context {S X : Type} (print : string -> list parg -> M S unit) (next : X -> list Z -> M S (list Z * Z * X)).
Context `{IO : !LineIO print next}.
Context (junk : list Z).
Hypothesis Hjunk : length junk = 256%nat.

(** The first line only becomes the previous line. *)
Lemma uniq_first_spec f l b cur (s : S) :
  good_line l -> is_str b l ->
  exists v', uniq_line print junk f (set_current b (init_vars cur)) s = Ret v' s /\
    holds_vars v' l 1 0 /\ current_line v' = b.
Proof.
  intros Hl Hb. pose proof Hl as [Hl0 _ _ Hl8 Hll].
  assert (He : is_str empty_line []) by (split; [constructor|by eexists]).
  unfold uniq_line, mbind, M_bind.
  rewrite (is_different_run f (set_current b (init_vars cur)) l []) by (cbn; try done; lia).
  rewrite bool_decide_false by (unfold key; destruct (isCaseInsensitive f); by destruct l).
  cbn [negb previous_line current_line set_current init_vars].
  change (strcmp empty_line (lit EmptyString) s) with (@Ret S Z 0 s). cbn [Z.eqb].
  unfold mret, M_ret. cbn [previous_line current_line set_lineCount set_current init_vars].
  destruct (strcpy_str empty_line b l s Hb) as (p & -> & Hp & Hpl); [cbn; lia|].
  eexists. split; [done|]. split; [by split|done].
Qed.

(** The whole loop, from the empty previous line. *)
Lemma lines_report o ls n x cur (s : S) :
  Forall good_line ls -> io_ok s -> io_left ls x s -> io_buf cur -> (length ls < n)%nat ->
  wp (v ← lines_loop print junk next n (opt_flags o) x (init_vars cur); uniq_end print (opt_flags o) v) s (fun _ s' =>
    io_ok s' /\ io_out (report o (groups (opt_flags o) ls)) s s').
Proof.
  intros Hgood Hok Hleft Hbuf Hn. destruct n as [|n]; [lia|]. cbn [lines_loop]. destruct ls as [|l ls].
  - do 2 apply wp_bind. eapply wp_mono; [|by apply io_end]. cbv beta.
    intros [[b k] x'] s' (Hk & Hok' & Ho). cbn [fst snd] in *. rewrite (proj2 (Z.ltb_ge 0 k)) by lia.
    apply wpe_ret. unfold uniq_end. apply wp_bind. cbn [previous_line set_current init_vars].
    eapply wp_intro; [reflexivity|]. cbn [Z.eqb negb].
    eapply wp_mono; [|by apply io_newline]. cbv beta. intros _ s'' [? Ho']. split; [done|].
    replace (report o (groups (opt_flags o) [])) with ([] ++ [10]) by by destruct o. by eapply io_app.
  - apply Forall_cons in Hgood as [Hl Hgood]. do 2 apply wp_bind.
    eapply wp_mono; [|eapply io_next; done].
    cbv beta. intros [[b k] x1] s1 (Hk & Hbs & Hb & Hok1 & Ho1 & Hleft1). cbn [fst snd] in *.
    assert (0 < length l)%nat by (pose proof (gl_nonempty _ Hl); destruct l; [done|simpl; lia]).
    rewrite (proj2 (Z.ltb_lt 0 k)) by lia.
    destruct (uniq_first_spec (opt_flags o) l b cur s1 Hl Hbs) as (v2 & Hrun & Hv2 & Hcl).
    apply wp_bind. eapply wp_intro; [exact Hrun|].
    assert (Hlen : (length ls < n)%nat) by (cbn [length] in Hn; lia).
    pose proof (lines_loop_spec print next junk Hjunk (opt_flags o) ls n x1 v2 l 1 0 s1 Hgood Hl Hv2 ltac:(by rewrite Hcl) Hok1 Hleft1 Hlen) as HI.
    apply wp_inv in HI as (u & s3 & HI & Hok3 & Ho3). unfold wp, wpe, mbind, M_bind in HI |- *.
    destruct (lines_loop print junk next n (opt_flags o) x1 v2 s1) as [v3 s4|]; [|done]. rewrite HI. split; [done|].
    cbn [groups]. rewrite <- lines_out_report by lia.
    replace (reported o l 1) with ([] : list Z) by by destruct o.
    replace (rep_of o 1) with 0 by by destruct o. eapply io_app; [exact Ho1|done].
Qed.

End all_lines.

Lemma strcmp_lit {S} flag fs str (s : S) :
  is_str flag fs -> Forall in_u8 fs -> Forall (fun c => c <> 0) (chars str) -> Forall in_u8 (chars str) ->
  exists r, strcmp flag (lit str) s = Ret r s /\ (r =? 0) = bool_decide (fs = chars str).
Proof.
  intros Hf H8 Hn Hc. destruct (strcmp_run flag (lit str) fs (chars str) s) as (r & Hr & Hz); try done.
  - by apply is_str_lit.
  - exists r. split; [done|]. destruct (Z.eqb_spec r 0); case_bool_decide; tauto.
Qed.

Lemma flags_of_run {S} flag fs (s : S) :
  is_str flag fs -> Forall in_u8 fs -> flags_of flag s = Ret (opt_flags (opt_of fs)) s.
Proof.
  intros Hf H8. unfold flags_of, mbind, M_bind.
  assert (Hok : forall a, a ∈ [99; 105; 100; 110] -> Forall (fun c => c <> 0) [45; a] /\ Forall in_u8 [45; a]).
  { intros a Ha. repeat (apply elem_of_cons in Ha as [->|Ha]; [by repeat constructor|]). by apply not_elem_of_nil in Ha. }
  destruct (strcmp_lit flag fs "-c" s Hf H8) as (r1 & -> & ->); [apply (Hok 99); set_solver..|].
  destruct (strcmp_lit flag fs "-i" s Hf H8) as (r2 & -> & ->); [apply (Hok 105); set_solver..|].
  destruct (strcmp_lit flag fs "-d" s Hf H8) as (r3 & -> & ->); [apply (Hok 100); set_solver..|].
  destruct (strcmp_lit flag fs "-n" s Hf H8) as (r4 & -> & ->); [apply (Hok 110); set_solver..|].
  unfold mret, M_ret, opt_of.
  do 4 (case_decide; [subst fs; done|]; rewrite bool_decide_false by done). done.
Qed.

(** *** User mode *)

(** The lines of an input up to its first empty line. The last one need not
    end in a newline. *)
Inductive text_of : list (list Z) -> list Z -> Prop :=
  | text_end : text_of [] []
  | text_blank t : text_of [] (10 :: t)
  | text_last l : text_of [l] l
  | text_cons l ls d : text_of ls d -> text_of (l :: ls) (l ++ 10 :: d).

Lemma text_of_nil data : text_of [] data -> data = [] \/ exists t, data = 10 :: t.
Proof. inversion 1; eauto. Qed.

Lemma text_of_cons l ls data :
  text_of (l :: ls) data -> exists tail, data = l ++ tail /\ (tail = [] \/ exists t, tail = 10 :: t) /\
    text_of ls (drop 1 tail).
Proof.
  inversion 1; subst.
  - exists []. rewrite app_nil_r. split; [done|]. split; [auto|constructor].
  - exists (10 :: d). split; [done|]. split; [eauto|done].
Qed.

Lemma text_of_length ls data : text_of ls data -> Forall good_line ls -> (length ls <= length data)%nat.
Proof.
  induction 1 as [| |l|l ls d _ IH]; intros Hg; cbn [length]; try lia.
  - apply Forall_cons in Hg as [[H0 _ _ _ _] _]. destruct l; [done|simpl; lia].
  - apply Forall_cons in Hg as [_ Hg]. rewrite length_app. cbn [length]. specialize (IH Hg). lia.
Qed.

#[global] Program Instance user_lines fd : LineIO uprint (unext fd) := {
  io_ok s := True;
  io_out bs s s' := u_out s' = u_out s ++ ((fun b => (1, b)) <$> bs);
  io_left ls _ s := exists data, u_fds s !! fd = Some data /\ text_of ls data;
  io_buf b := length b = 256%nat
}.
Next Obligation. intros fd s. cbn. by rewrite app_nil_r. Qed.
Next Obligation. intros fd a b s s1 s2 H1 H2. cbn in *. rewrite H2, H1. by rewrite fmap_app, app_assoc. Qed.
Next Obligation. intros fd l s _ Hl. unfold uprint. eapply wp_intro; [by apply print_line|]. done. Qed.
Next Obligation. intros fd n l s _ Hl. unfold uprint. eapply wp_intro; [by apply print_count|]. done. Qed.
Next Obligation. intros fd s _. by eapply wp_intro; [apply puts_nl|]. Qed.
Next Obligation.
  intros fd l ls [] buf s _ (data & Hd & Ht) Hl Hb. apply text_of_cons in Ht as (tail & -> & Htail & Ht).
  unfold unext. apply wp_bind. eapply wp_mono; [|apply (readline_spec l tail fd); try done; try apply Hl;
    [pose proof (gl_short _ Hl); lia|lia]]. cbv beta. intros [b k] s' (Hk & Hbs & Hbl & Htook).
  apply wpe_ret. cbn [fst snd] in *. split; [done|]. split; [done|]. split; [by rewrite Hbl|]. split; [done|].
  split; [by cbn; rewrite (proj1 (proj2 Htook)), app_nil_r|]. exists (drop 1 tail). split; [by eapply took_fds|done].
Qed.
Next Obligation.
  intros fd [] buf s _ (data & Hd & Ht) Hb. apply text_of_nil in Ht as Htail.
  unfold unext. apply wp_bind. eapply wp_mono; [|apply (readline_spec [] data fd); try done; [set_solver|lia]].
  cbv beta. intros [b k] s' (Hk & _ & Hbl & Htook). apply wpe_ret. cbn [fst snd length] in *.
  split; [lia|]. split; [done|]. cbn. by rewrite (proj1 (proj2 Htook)), app_nil_r.
Qed.

Lemma uniq_user_spec junk fd flag fs data ls s :
  length junk = 256%nat -> is_str flag fs -> Forall in_u8 fs ->
  u_fds s !! fd = Some data -> text_of ls data -> Forall good_line ls ->
  wp (uniq_user junk fd flag) s (fun _ s' =>
    u_out s' = u_out s ++ ((fun b => (1, b)) <$> report (opt_of fs) (groups (opt_flags (opt_of fs)) ls))).
Proof.
  intros Hj Hf H8 Hd Htext Hgood. unfold uniq_user. apply wp_bind.
  eapply wp_intro; [by apply flags_of_run|]. apply wp_bind. unfold Prelude.gets at 1, wp at 1, wpe. rewrite Hd.
  cbn [default]. eapply wp_mono; [|eapply (lines_report uprint (unext fd) junk Hj); [done|done|by exists data|done|]].
  - cbv beta. by intros _ s' [_ Ho].
  - pose proof (text_of_length _ _ Htext Hgood). cbn [id]. lia.
Qed.

(** C35: uniq in user mode prints the runs of equal lines. On an input whose
    lines, up to the first empty one, fit the buffer, it prints what [report]
    says of the groups of adjacent equal lines: each group with its count
    under -c, the groups of more than one line under -d, the first line of
    each group under -i (up to case) and by default; an unknown option leaves
    out the last group, and there is no message about it, unlike what the
    README says. The rest of the input after an empty line is not looked at,
    although the comment in the code has lines read until the end of the file,
    and an input without lines prints an empty line. *)
Theorem uniq_user_reports junk fd flag fs data ls s :
  length junk = 256%nat -> is_str flag fs -> Forall in_u8 fs ->
  u_fds s !! fd = Some data -> text_of ls data -> Forall good_line ls ->
  wp (uniq_user junk fd flag) s (fun _ s' =>
    u_out s' = u_out s ++ ((fun b => (1, b)) <$> report (opt_of fs) (groups (opt_flags (opt_of fs)) ls))).
Proof. apply uniq_user_spec. Qed.

(** Two lines [a] and a line [b], counted. *)
Lemma uniq_user_reports_witness :
  wp (uniq_user (replicate 256 7) 0 (lit "-c")) (Uio ∅ {[0 := [97; 10; 97; 10; 98; 10]]} [] []) (fun _ s' =>
    u_out s' = (fun b => (1, b)) <$> (chars "2  a" ++ [10] ++ chars "1  b" ++ [10])).
Proof.
  eapply wp_mono; [|apply (uniq_user_reports (replicate 256 7) 0 (lit "-c") (chars "-c") [97; 10; 97; 10; 98; 10]
    [[97]; [97]; [98]])].
  - cbv beta. intros _ s' ->. vm_compute. reflexivity.
  - reflexivity.
  - split; [by repeat constructor|]. by exists [].
  - by repeat constructor.
  - reflexivity.
  - apply (text_cons [97] _ [97; 10; 98; 10]), (text_cons [97] _ [98; 10]), (text_cons [98] _ []), text_end.
  - repeat constructor; try done; cbn; try lia; set_solver.
Defined.
