(* ===== verification/Console.v ===== *)
(** The console: [console.c].

    Output goes to the serial port and to the screen, the text memory of the
    CGA with its cursor. Input is a ring of INPUT_BUF characters with three
    free-running 32-bit indices: what is between [r] and [w] is complete
    lines that a reader may take, what is between [w] and [e] is the line
    being edited. *)

From S2P Require Import Prelude User.

Open Scope Z_scope.

Definition INPUT_BUF : Z := 128.
Definition BACKSPACE : Z := 0x100.

Record console := Console {
  cons_lock : bool;     (* cons.lock *)
  locking : Z;          (* cons.locking *)
  panicked : bool;
  serial : list Z;      (* bytes sent to the serial port *)
  crt : list Z;         (* the cells of the screen *)
  cursor : Z;           (* the cursor position register *)
  ibuf : list Z;        (* input.buf *)
  input_r : Z;
  input_w : Z;
  input_e : Z;
  woke_input : Z        (* calls of wakeup(&input.r) so far *)
}.

Definition set_cons_lock v c := Console v (locking c) (panicked c) (serial c) (crt c) (cursor c) (ibuf c) (input_r c) (input_w c) (input_e c) (woke_input c).
Definition set_locking v c := Console (cons_lock c) v (panicked c) (serial c) (crt c) (cursor c) (ibuf c) (input_r c) (input_w c) (input_e c) (woke_input c).
Definition set_serial v c := Console (cons_lock c) (locking c) (panicked c) v (crt c) (cursor c) (ibuf c) (input_r c) (input_w c) (input_e c) (woke_input c).
Definition set_crt v c := Console (cons_lock c) (locking c) (panicked c) (serial c) v (cursor c) (ibuf c) (input_r c) (input_w c) (input_e c) (woke_input c).
Definition set_cursor v c := Console (cons_lock c) (locking c) (panicked c) (serial c) (crt c) v (ibuf c) (input_r c) (input_w c) (input_e c) (woke_input c).
Definition set_ibuf v c := Console (cons_lock c) (locking c) (panicked c) (serial c) (crt c) (cursor c) v (input_r c) (input_w c) (input_e c) (woke_input c).
Definition set_input_r v c := Console (cons_lock c) (locking c) (panicked c) (serial c) (crt c) (cursor c) (ibuf c) v (input_w c) (input_e c) (woke_input c).
Definition set_input_w v c := Console (cons_lock c) (locking c) (panicked c) (serial c) (crt c) (cursor c) (ibuf c) (input_r c) v (input_e c) (woke_input c).
Definition set_input_e v c := Console (cons_lock c) (locking c) (panicked c) (serial c) (crt c) (cursor c) (ibuf c) (input_r c) (input_w c) v (woke_input c).
Definition set_panicked v c := Console (cons_lock c) (locking c) v (serial c) (crt c) (cursor c) (ibuf c) (input_r c) (input_w c) (input_e c) (woke_input c).
Definition wakeup_input : M console unit :=
  modify (fun c => Console (cons_lock c) (locking c) (panicked c) (serial c) (crt c) (cursor c) (ibuf c) (input_r c)
                     (input_w c) (input_e c) (woke_input c + 1)).

Definition acquire_cons : M console unit :=
  c ← get; if cons_lock c then panic "acquire" else put (set_cons_lock true c).
Definition release_cons : M console unit :=
  c ← get; if cons_lock c then put (set_cons_lock false c) else panic "release".

(** ** Output *)

Definition uartputc (c : Z) : M console unit := modify (fun s => set_serial (serial s ++ [u8 c]) s).

(** Scroll up: rows 1 to 23 move to rows 0 to 22, and the cells from [pos] to
    the end of row 23 are cleared. *)
Definition scroll (pos : Z) (cells : list Z) : list Z :=
  let cells := take 1840 (drop 80 cells) ++ drop 1840 cells in
  take (Z.to_nat pos) cells ++ replicate (Z.to_nat (24 * 80 - pos)) 0 ++ drop 1920 cells.

(** A write to a cell of the screen. *)
Definition crt_set (pos v : Z) : M console unit :=
  s ← get;
  if (0 <=? pos) && (pos <? Z.of_nat (length (crt s))) then put (set_crt (<[Z.to_nat pos := v]> (crt s)) s) else wild.

Definition cgaputc (c : Z) : M console unit :=
  s ← get;
  let pos := cursor s in
  (if c =? 10 then mret (pos + (80 - pos mod 80))
   else if c =? BACKSPACE then mret (if 0 <? pos then pos - 1 else pos)
   else crt_set pos (Z.lor (Z.land c 0xff) 0x0700) ;; mret (pos + 1)) ≫= fun pos =>
  if (pos <? 0) || (25 * 80 <? pos) then panic "pos under/overflow"
  else
    pos ← (if 24 <=? pos / 80 then
             modify (fun s => set_crt (scroll (pos - 80) (crt s)) s) ;; mret (pos - 80)
           else mret pos);
    modify (set_cursor (u16 pos)) ;;
    crt_set pos (Z.lor 32 0x0700).

Definition consputc (c : Z) : M console unit :=
  s ← get;
  if panicked s then panic "frozen"
  else
    (if c =? BACKSPACE then uartputc 8 ;; uartputc 32 ;; uartputc 8 else uartputc c) ;;
    cgaputc c.

Definition kdigits : list Z := chars "0123456789abcdef".

Fixpoint kprintint_loop (fuel : nat) (x base : Z) : list Z :=
  match fuel with
  | O => []
  | S fuel =>
      let d := default 0 (kdigits !! Z.to_nat (x mod base)) in
      if x / base =? 0 then [d] else d :: kprintint_loop fuel (x / base) base
  end.

Definition kprintint (xx base : Z) (sign : bool) : M console unit :=
  let sign := sign && (xx <? 0) in
  let x := if sign then u32 (- xx) else u32 xx in
  for_each (reverse (kprintint_loop 32 x base ++ (if sign then chars "-" else []))) consputc.

Fixpoint cprintf_loop (fmt : list Z) (argp : list parg) : M console unit :=
  match fmt with
  | [] => mret tt
  | c :: fmt =>
      if negb (c =? 37) then consputc c ;; cprintf_loop fmt argp
      else
        match fmt with
        | [] => mret tt
        | c :: fmt =>
            if c =? 100 then                       (* d *)
              a ← arg_word argp;
              kprintint (i32 a.1) 10 true ;;
              cprintf_loop fmt a.2
            else if (c =? 120) || (c =? 112) then  (* x p *)
              a ← arg_word argp;
              kprintint (i32 a.1) 16 false ;;
              cprintf_loop fmt a.2
            else if c =? 115 then                  (* s *)
              a ← arg_str argp;
              for_each a.1 (fun b => consputc (i8 b)) ;;
              cprintf_loop fmt a.2
            else if c =? 37 then
              consputc 37 ;; cprintf_loop fmt argp
            else
              consputc 37 ;; consputc c ;; cprintf_loop fmt argp
        end
  end.

Definition cprintf (fmt : string) (args : list parg) : M console unit :=
  s ← get;
  let lk := negb (locking s =? 0) in
  when lk acquire_cons ;;
  cprintf_loop (chars fmt) args ;;
  when lk release_cons.

(** panic, on the CPU [lapicid] with the return addresses [pcs]: it prints
    without the lock, freezes the other CPUs and does not return. *)
Definition panic_print {A} (lapicid : Z) (pcs : list Z) (s : string) : M console A :=
  modify (set_locking 0) ;;
  cprintf "lapicid %d: panic: " [PInt lapicid] ;;
  cprintf s [] ;;
  cprintf nl [] ;;
  for_each pcs (fun pc => cprintf " %p" [PPtr pc]) ;;
  modify (set_panicked true) ;;
  panic s.

(** ** Input *)

(** Kill line: back to the last newline or the start of the line. *)
Fixpoint kill_line (fuel : nat) : M console unit :=
  match fuel with
  | O => out_of_fuel
  | S fuel =>
      s ← get;
      if negb (input_e s =? input_w s) &&
         negb (default 0 (ibuf s !! Z.to_nat (u32 (input_e s - 1) mod INPUT_BUF)) =? 10) then
        modify (fun s => set_input_e (u32 (input_e s - 1)) s) ;;
        consputc BACKSPACE ;;
        kill_line fuel
      else mret tt
  end.

(** One character from the keyboard or the serial port. Returns whether a
    process listing was asked for. The line being edited has at most
    INPUT_BUF characters. *)
Definition consoleintr_char (c : Z) : M console bool :=
  if c =? 16 then mret true                                 (* C('P') *)
  else if c =? 21 then kill_line (S (Z.to_nat INPUT_BUF)) ;; mret false   (* C('U') *)
  else if (c =? 8) || (c =? 127) then                       (* C('H') *)
    s ← get;
    (if negb (input_e s =? input_w s) then
       modify (fun s => set_input_e (u32 (input_e s - 1)) s) ;;
       consputc BACKSPACE
     else mret tt) ;;
    mret false
  else
    s ← get;
    (if negb (c =? 0) && (u32 (input_e s - input_r s) <? INPUT_BUF) then
       let c := if c =? 13 then 10 else c in
       modify (fun s => set_input_e (u32 (input_e s + 1))
                          (set_ibuf (<[Z.to_nat (input_e s mod INPUT_BUF) := u8 c]> (ibuf s)) s)) ;;
       consputc c ;;
       s ← get;
       when ((c =? 10) || (c =? 4) || (input_e s =? u32 (input_r s + INPUT_BUF)))
         (modify (fun s => set_input_w (input_e s) s) ;;
          wakeup_input)
     else mret tt) ;;
    mret false.

(** The characters that getc returns, until it returns -1. *)
Fixpoint consoleintr_loop (cs : list Z) (doprocdump : bool) : M console bool :=
  match cs with
  | [] => mret doprocdump
  | c :: cs =>
      if c <? 0 then mret doprocdump
      else
        d ← consoleintr_char c;
        consoleintr_loop cs (doprocdump || d)
  end.

Section console.
(** procdump prints through cprintf; it is a function of [proc.c]. *)
Variable procdump : M console unit.
(** ilock and iunlock of the console's inode. *)
Variable ilock iunlock : M console unit.

Definition consoleintr (cs : list Z) : M console unit :=
  acquire_cons ;;
  d ← consoleintr_loop cs false;
  release_cons ;;
  when d procdump.

(** How consoleread ends: it returns, with what it has read, or it goes to
    sleep on [&input.r] with [n] characters still wanted. *)
Inductive cread :=
  | Read (r : Z) (dst : list Z)
  | Waits (n : Z) (dst : list Z).

(** From the test of the outer loop. The number of characters wanted bounds
    the iterations. *)
Fixpoint consoleread_loop (fuel : nat) (killed : bool) (n target : Z) (dst : list Z) : M console cread :=
  match fuel with
  | O => out_of_fuel
  | S fuel =>
      if 0 <? n then
        s ← get;
        if input_r s =? input_w s then
          if killed then
            release_cons ;;
            ilock ;;
            mret (Read (-1) dst)
          else release_cons ;; mret (Waits n dst)           (* sleep *)
        else
          let c := i8 (default 0 (ibuf s !! Z.to_nat (input_r s mod INPUT_BUF))) in
          modify (fun s => set_input_r (u32 (input_r s + 1)) s) ;;
          if c =? 4 then
            when (u32 n <? target) (modify (fun s => set_input_r (u32 (input_r s - 1)) s)) ;;
            release_cons ;;
            ilock ;;
            mret (Read (i32 (target - n)) dst)
          else
            let dst := dst ++ [u8 c] in
            if c =? 10 then
              release_cons ;;
              ilock ;;
              mret (Read (i32 (target - (n - 1))) dst)
            else consoleread_loop fuel killed (n - 1) target dst
      else
        release_cons ;;
        ilock ;;
        mret (Read (i32 (target - n)) dst)
  end.

Definition consoleread (killed : bool) (n : Z) : M console cread :=
  iunlock ;;
  acquire_cons ;;
  consoleread_loop (S (Z.to_nat n)) killed n (u32 n) [].

(** What follows the sleep when the process is woken. *)
Definition consoleread_resume (killed : bool) (n target : Z) (dst : list Z) : M console cread :=
  acquire_cons ;;
  consoleread_loop (S (Z.to_nat n)) killed n target dst.

Definition consolewrite (buf : list Z) : M console Z :=
  iunlock ;;
  acquire_cons ;;
  for_each buf (fun b => consputc (Z.land b 0xff)) ;;
  release_cons ;;
  ilock ;;
  mret (Z.of_nat (length buf)).

End console.

(** ** The screen *)

(** The cursor is on the screen. *)
Definition screen_ok (s : console) : Prop := 0 <= cursor s < 25 * 80 /\ length (crt s) = 2000%nat.

Lemma length_scroll pos cells :
  0 <= pos <= 1920 -> length cells = 2000%nat -> length (scroll pos cells) = 2000%nat.
Proof.
  intros Hp Hl. unfold scroll.
  assert (length (take 1840 (drop 80 cells) ++ drop 1840 cells) = 2000%nat) as Hm
    by (rewrite length_app, length_take, !length_drop; lia).
  revert Hm. generalize (take 1840 (drop 80 cells) ++ drop 1840 cells). intros m Hm.
  rewrite !length_app, length_take, length_replicate, length_drop. lia.
Qed.

(** Everything but the screen and the serial port. *)
Definition same_input (s s' : console) : Prop :=
  cons_lock s' = cons_lock s /\ locking s' = locking s /\ panicked s' = panicked s /\ ibuf s' = ibuf s /\
  input_r s' = input_r s /\ input_w s' = input_w s /\ input_e s' = input_e s /\ woke_input s' = woke_input s.

#[global] Instance same_input_preorder : PreOrder same_input.
Proof.
  split; [by intros s; split_and!|]. unfold same_input.
  intros s1 s2 s3 H1 H2. decompose [and] H1. decompose [and] H2. split_and!; congruence.
Qed.

Lemma wpe_crt_set pos v s Q E :
  0 <= pos < Z.of_nat (length (crt s)) -> Q tt (set_crt (<[Z.to_nat pos := v]> (crt s)) s) -> wpe (crt_set pos v) s Q E.
Proof.
  intros Hp HQ. unfold crt_set. apply wpe_bind, wpe_get. cbv beta.
  rewrite (proj2 (Z.leb_le _ _)), (proj2 (Z.ltb_lt _ _)) by lia. by apply wpe_put.
Qed.

Lemma cgaputc_spec c s :
  screen_ok s ->
  wp (cgaputc c) s (fun _ s' => screen_ok s' /\ cursor s' <= 24 * 80 /\ same_input s s' /\ serial s' = serial s).
Proof.
  intros [Hc Hl]. unfold cgaputc. apply wp_bind, wpe_get. cbv zeta.
  set (pos := cursor s) in *.
  assert (Hmod := Z.mod_pos_bound pos 80 ltac:(lia)). assert (Hdiv := Z.div_mod pos 80 ltac:(lia)).
  apply wp_bind. apply (wp_mono _ _ (fun p s1 => 0 <= p <= 2000 /\ length (crt s1) = 2000%nat /\
    same_input s s1 /\ serial s1 = serial s)).
  2: { destruct (c =? 10); [apply wpe_ret; split; [|done]; split; Z.to_euclidean_division_equations; lia|].
       destruct (c =? BACKSPACE); [apply wpe_ret; split; [|done]; destruct (Z.ltb_spec 0 pos); lia|].
       apply wp_bind, wpe_crt_set; [lia|]. apply wpe_ret. split; [lia|]. cbn. by rewrite length_insert. }
  intros p s1 (Hp & Hl1 & Hs1 & Hser). rewrite (proj2 (Z.ltb_ge p 0)), (proj2 (Z.ltb_ge (25 * 80) p)) by lia.
  cbn [orb]. apply wp_bind. apply (wp_mono _ _ (fun p s1 => 0 <= p <= 1920 /\ length (crt s1) = 2000%nat /\
    same_input s s1 /\ serial s1 = serial s)).
  - intros p2 s2 (Hp2 & Hl2 & Hs2 & Hser2). apply wp_bind, wpe_modify, wpe_crt_set; [cbn; lia|]. cbn.
    rewrite u16_small by (unfold in_u16; lia). unfold screen_ok. cbn. rewrite length_insert. split; [lia|]. split; [lia|]. done.
  - destruct (Z.leb_spec 24 (p / 80)) as [Hge|Hlt].
    + assert (1920 <= p) by (Z.to_euclidean_division_equations; lia).
      apply wp_bind, wpe_modify, wpe_ret. split; [lia|]. split; [|done]. cbn. apply length_scroll; [lia|done].
    + apply wpe_ret. split; [|done]. Z.to_euclidean_division_equations; lia.
Qed.

Lemma consputc_spec c s :
  screen_ok s -> panicked s = false ->
  wp (consputc c) s (fun _ s' => screen_ok s' /\ cursor s' <= 24 * 80 /\ same_input s s' /\
    serial s' = serial s ++ (if c =? BACKSPACE then [8; 32; 8] else [u8 c])).
Proof.
  intros Hok Hp. unfold consputc. apply wp_bind, wpe_get. rewrite Hp. apply wp_bind.
  destruct (c =? BACKSPACE).
  - do 2 apply wp_bind, wpe_modify. apply wpe_modify.
    eapply wp_mono; [|apply cgaputc_spec; exact Hok]. cbv beta. intros _ s' (? & ? & Hs & ->). split; [done|].
    split; [done|]. split; [done|]. cbn. by rewrite <- !app_assoc.
  - apply wpe_modify. eapply wp_mono; [|apply cgaputc_spec; exact Hok]. cbv beta.
    intros _ s' (? & ? & Hs & ->). done.
Qed.

(** ** Formatted output *)

(** The console can print: it is not frozen, and nobody holds its lock. *)
Definition cons_ready (s : console) : Prop := screen_ok s /\ panicked s = false /\ cons_lock s = false.

(** [bs] was printed, by code that holds the lock if there is one. *)
Definition puts (bs : list Z) (s s' : console) : Prop :=
  screen_ok s' /\ same_input s s' /\ serial s' = serial s ++ bs.

Lemma puts_nil s : screen_ok s -> puts [] s s.
Proof. intros Hs. split; [done|]. split; [done|]. by rewrite app_nil_r. Qed.

Lemma puts_app a b s s1 s2 : puts a s s1 -> puts b s1 s2 -> puts (a ++ b) s s2.
Proof.
  intros (_ & Hs1 & E1) (Hok & Hs2 & E2). split; [done|]. split; [by etrans|]. by rewrite E2, E1, app_assoc.
Qed.

Lemma puts_panicked bs s s' : puts bs s s' -> panicked s = false -> panicked s' = false.
Proof. intros (_ & (_ & _ & -> & _) & _). done. Qed.

Lemma consputc_puts c b s :
  screen_ok s -> panicked s = false -> c <> BACKSPACE -> u8 c = b -> wp (consputc c) s (fun _ s' => puts [b] s s').
Proof.
  intros Hok Hp Hc <-. eapply wp_mono; [|by apply consputc_spec]. cbv beta. intros _ s' (? & _ & ? & Hser).
  rewrite (proj2 (Z.eqb_neq _ _) Hc) in Hser. done.
Qed.

Lemma for_each_puts (f : Z -> Z) bs s :
  (forall b, b ∈ bs -> f b <> BACKSPACE /\ u8 (f b) = b) -> screen_ok s -> panicked s = false ->
  wp (for_each bs (fun b => consputc (f b))) s (fun _ s' => puts bs s s').
Proof.
  revert s; induction bs as [|b bs IH]; intros s Hf Hok Hp; cbn [for_each]; [apply wpe_ret; by apply puts_nil|].
  destruct (Hf b (list_elem_of_here _ _)) as [Hb Hu]. apply wp_bind.
  eapply wp_mono; [|by apply (consputc_puts (f b) b)]. cbv beta. intros _ s1 H1.
  eapply wp_mono; [|apply (IH s1); [|apply H1|]]. cbv beta.
  - intros _ s2 H2. by apply (puts_app [b] bs s s1 s2).
  - intros x Hx. by apply Hf, list_elem_of_further.
  - destruct H1 as (_ & (_ & _ & -> & _) & _). done.
Qed.

Lemma i8_u8 b : in_u8 b -> i8 b <> BACKSPACE /\ u8 (i8 b) = b.
Proof.
  unfold in_u8, i8, u8, BACKSPACE. intros Hb. split; [pose proof (Z.mod_pos_bound (b + 2 ^ 7) (2 ^ 8) ltac:(lia)); lia|].
  rewrite Zminus_mod_idemp_l. replace (b + 2 ^ 7 - 2 ^ 7) with b by lia. by apply Z.mod_small.
Qed.

Lemma cprints l s : Forall in_u8 l -> screen_ok s -> panicked s = false ->
  wp (for_each l (fun b => consputc (i8 b))) s (fun _ s' => puts l s s').
Proof. intros Hl. apply for_each_puts. intros b Hb. apply i8_u8. rewrite Forall_forall in Hl. by apply Hl. Qed.

(** Decimal digits are the same in [printf.c] and [console.c]. *)
Lemma kprintint_loop_10 fuel x : 0 <= x -> kprintint_loop fuel x 10 = printint_loop fuel x 10.
Proof.
  revert x; induction fuel as [|fuel IH]; intros x Hx; cbn [kprintint_loop printint_loop]; [done|].
  pose proof (Z.mod_pos_bound x 10 ltac:(lia)) as Hm. rewrite IH by (apply Z.div_pos; lia).
  replace (kdigits !! Z.to_nat (x mod 10)) with (digits !! Z.to_nat (x mod 10)); [done|].
  rewrite digit_at by lia. rewrite (proj2 (Z.ltb_lt (x mod 10) 10)) by lia.
  destruct (Z_of_nat_complete (x mod 10)) as [n Hn]; [lia|]. rewrite Hn, Nat2Z.id. clear Hx. rewrite Hn in Hm.
  do 10 (destruct n as [|n]; [done|]). lia.
Qed.

Lemma kprintint_spec xx s : screen_ok s -> panicked s = false ->
  wp (kprintint xx 10 true) s (fun _ s' => puts (reverse (printint_buf xx 10 true)) s s').
Proof.
  intros Hok Hp. unfold kprintint.
  assert (Hx : 0 <= (if true && (xx <? 0) then u32 (- xx) else u32 xx)) by (destruct (_ && _); apply u32_range).
  rewrite kprintint_loop_10 by exact Hx.
  apply (for_each_puts (fun b => b)); [|done|done]. intros b Hb. rewrite elem_of_reverse in Hb.
  pose proof (printint_buf_u8 xx 10 true ltac:(lia)) as H8. rewrite Forall_forall in H8. specialize (H8 b Hb).
  unfold BACKSPACE, in_u8 in *. split; [lia|]. by apply u8_small.
Qed.

(** cprintf around what its loop prints. *)
Lemma cprintf_spec fmt args bs s :
  cons_ready s ->
  (forall s1, screen_ok s1 -> panicked s1 = false -> wp (cprintf_loop (chars fmt) args) s1 (fun _ s' => puts bs s1 s')) ->
  wp (cprintf fmt args) s (fun _ s' => cons_ready s' /\ puts bs s s').
Proof.
  intros (Hok & Hp & Hl) Hloop. unfold cprintf. apply wp_bind, wpe_get. cbv zeta. apply wp_bind.
  destruct (negb (locking s =? 0)); cbn [when].
  - unfold acquire_cons. apply wp_bind, wpe_get. rewrite Hl. apply wpe_put.
    apply wp_bind. eapply wp_mono; [|by apply (Hloop (set_cons_lock true s))]. cbv beta.
    intros _ s' (Hok' & (E1 & E2 & E3 & E4 & E5 & E6 & E7 & E8) & Hser). unfold release_cons. apply wp_bind, wpe_get.
    rewrite E1. apply wpe_put. cbn in *. split; [split; [done|]; cbn; by rewrite E3|]. split; [done|]. split; [|done].
    unfold same_input. cbn. by rewrite Hl.
  - apply wpe_ret, wp_bind. eapply wp_mono; [|by apply (Hloop s)]. cbv beta. intros _ s' HP. apply wpe_ret.
    split; [|done]. destruct HP as (Hok' & (E1 & E2 & E3 & _) & _). split; [done|]. by rewrite E3, E1.
Qed.
