(* ===== verification/Line.v ===== *)
(** The console's line discipline, abstractly: the characters of complete
    lines that wait for a reader and those of the line being edited, with
    what typing a character and reading do to them. The ring of [console.c]
    implements it. *)

From S2P Require Import Prelude User Console.

Open Scope Z_scope.

(** ** The abstract line discipline *)

Record lines := Lines {
  ready : list Z;     (* complete lines *)
  edited : list Z     (* the line being edited *)
}.

Definition erased (n : nat) : list Z := mjoin (replicate n [8; 32; 8]).

(** A character is typed: the new state, and what is echoed. *)
Definition type_char (l : lines) (c : Z) : lines * list Z :=
  if c =? 16 then (l, [])
  else if c =? 21 then (Lines (ready l) [], erased (length (edited l)))
  else if (c =? 8) || (c =? 127) then
    (Lines (ready l) (take (length (edited l) - 1) (edited l)), erased (Nat.min 1 (length (edited l))))
  else if (c =? 0) || (Z.of_nat (length (ready l ++ edited l)) =? 128) then (l, [])
  else
    let c := if c =? 13 then 10 else c in
    let line := edited l ++ [c] in
    if (c =? 10) || (c =? 4) || (Z.of_nat (length (ready l ++ line)) =? 128) then (Lines (ready l ++ line) [], [c])
    else (Lines (ready l) line, [c]).

Fixpoint type_chars (l : lines) (cs : list Z) : lines * list Z :=
  match cs with
  | [] => (l, [])
  | c :: cs =>
      let r := type_char l c in
      let r' := type_chars r.1 cs in
      (r'.1, r.2 ++ r'.2)
  end.

(** Reading at most [n] more characters after [got]: whether the reader is
    done, the characters it got and what is left. A reader stops after a
    newline; an end of file character stops it too, and stays for the next
    reader if there were characters before it. *)
Fixpoint read_ready (n : nat) (got rdy : list Z) : bool * list Z * list Z :=
  match n with
  | O => (true, got, rdy)
  | S n =>
      match rdy with
      | [] => (false, got, [])
      | c :: rest =>
          if c =? 4 then (true, got, if bool_decide (got = []) then rest else rdy)
          else if c =? 10 then (true, got ++ [c], rest)
          else read_ready n (got ++ [c]) rest
      end
  end.

(** ** The ring implements it *)

Record cons_rep (s : console) (l : lines) : Prop := {
  cr_len : length (ibuf s) = 128%nat;
  cr_r : in_u32 (input_r s);
  cr_w : input_w s = u32 (input_r s + Z.of_nat (length (ready l)));
  cr_e : input_e s = u32 (input_r s + Z.of_nat (length (ready l ++ edited l)));
  cr_size : Z.of_nat (length (ready l ++ edited l)) <= 128;
  cr_full : edited l <> [] -> Z.of_nat (length (ready l ++ edited l)) < 128;
  cr_data i c : (ready l ++ edited l) !! i = Some c ->
    ibuf s !! Z.to_nat ((input_r s + Z.of_nat i) mod 128) = Some c;
  cr_line : 10 ∉ edited l;
  cr_bytes : Forall in_u8 (ready l ++ edited l)
}.

Lemma cons_rep_ext s s' l :
  ibuf s' = ibuf s -> input_r s' = input_r s -> input_w s' = input_w s -> input_e s' = input_e s ->
  cons_rep s l -> cons_rep s' l.
Proof. intros E4 E5 E6 E7 [H1 H2 H3 H4 H5 H6 H7 H8 H9]. split; rewrite ?E4, ?E5, ?E6, ?E7; done. Qed.

Lemma cons_rep_same s s' l : same_input s s' -> cons_rep s l -> cons_rep s' l.
Proof.
  intros (_ & _ & _ & E4 & E5 & E6 & E7 & _). by apply cons_rep_ext.
Qed.

Lemma cons_rep_lock b s l : cons_rep s l -> cons_rep (set_cons_lock b s) l.
Proof. by apply cons_rep_ext. Qed.

Lemma u32_mod_128 x : u32 x mod 128 = x mod 128.
Proof. unfold u32. symmetry. apply Znumtheory.Zmod_div_mod; [lia|lia|]. by exists (2 ^ 25). Qed.

Lemma u32_dist r a b : 0 <= a < 2 ^ 32 -> 0 <= b < 2 ^ 32 -> u32 (r + a) = u32 (r + b) <-> a = b.
Proof.
  intros Ha Hb. split; [|by intros ->]. intros H. unfold u32 in H.
  assert ((r + a - (r + b)) mod 2 ^ 32 = 0) as Hd by (rewrite Zminus_mod, H, Z.sub_diag; done).
  apply Z.mod_divide in Hd; [|lia]. destruct Hd as [k Hk]. nia.
Qed.

Section rep.
Context (s : console) (l : lines) (Hrep : cons_rep s l).

Lemma rep_empty : (input_e s =? input_w s) = bool_decide (edited l = []).
Proof.
  rewrite (cr_e _ _ Hrep), (cr_w _ _ Hrep). pose proof (cr_size _ _ Hrep) as Hs. rewrite length_app in *.
  apply eq_bool_prop_intro. rewrite Is_true_true, bool_decide_spec, Z.eqb_eq, u32_dist by lia.
  destruct (edited l); cbn [length] in *; split; [done|lia|lia|done].
Qed.

Lemma rep_waits : (input_r s =? input_w s) = bool_decide (ready l = []).
Proof.
  rewrite (cr_w _ _ Hrep). pose proof (cr_size _ _ Hrep) as Hs. rewrite length_app in *.
  rewrite <- (u32_small (input_r s)) at 1 by apply Hrep. rewrite <- (Z.add_0_r (input_r s)) at 1.
  apply eq_bool_prop_intro. rewrite Is_true_true, bool_decide_spec, Z.eqb_eq, u32_dist by lia.
  destruct (ready l); cbn [length] in *; split; [done|lia|lia|done].
Qed.

Lemma rep_room : u32 (input_e s - input_r s) = Z.of_nat (length (ready l ++ edited l)).
Proof.
  rewrite (cr_e _ _ Hrep), u32_sub_l. replace (input_r s + _ - input_r s) with (Z.of_nat (length (ready l ++ edited l))) by lia.
  apply u32_small. pose proof (cr_size _ _ Hrep). unfold in_u32. lia.
Qed.

(** Dropping the last character of the line being edited. *)
Lemma rep_back line c : edited l = line ++ [c] -> cons_rep (set_input_e (u32 (input_e s - 1)) s) (Lines (ready l) line).
Proof.
  intros He. destruct Hrep as [H1 H2 H3 H4 H5 H6 H7 H8 H9]. rewrite He, app_assoc in *.
  specialize (H6 ltac:(by destruct line)). rewrite length_app in *. cbn [length] in *.
  split; cbn [ready edited ibuf input_r input_w input_e set_input_e]; try done; try lia.
  - rewrite H4, u32_sub_l. f_equal. lia.
  - intros i x Hi. apply H7. by apply lookup_app_l_Some.
  - intros H. apply H8, elem_of_app. by left.
  - by apply Forall_app in H9 as [H9 _].
Qed.

Lemma rep_last line c :
  edited l = line ++ [c] -> default 0 (ibuf s !! Z.to_nat (u32 (input_e s - 1) mod INPUT_BUF)) = c.
Proof.
  intros He. rewrite (cr_e _ _ Hrep), u32_sub_l. change INPUT_BUF with 128. rewrite u32_mod_128, He, app_assoc, length_app.
  cbn [length]. replace (input_r s + _ - 1) with (input_r s + Z.of_nat (length (ready l ++ line))) by lia.
  rewrite (cr_data _ _ Hrep (length (ready l ++ line)) c); [done|].
  by rewrite He, app_assoc, lookup_app_r, Nat.sub_diag by lia.
Qed.

(** Adding a character to the ring. *)
Lemma rep_push_data c i x :
  Z.of_nat (length (ready l ++ edited l)) < 128 -> (ready l ++ edited l ++ [c]) !! i = Some x ->
  <[Z.to_nat (input_e s mod INPUT_BUF) := c]> (ibuf s) !! Z.to_nat ((input_r s + Z.of_nat i) mod 128) = Some x.
Proof.
  intros Hlt Hi. rewrite app_assoc in Hi. change INPUT_BUF with 128. rewrite (cr_e _ _ Hrep), u32_mod_128.
  set (n := length (ready l ++ edited l)) in *. apply lookup_app_Some in Hi as [Hi|[Hge Hi]].
  - pose proof (lookup_lt_Some _ _ _ Hi) as Hin. fold n in Hin. rewrite list_lookup_insert_ne; [by apply (cr_data _ _ Hrep)|].
    intros E. apply Z2Nat.inj in E; [|apply Z.mod_pos_bound; lia..].
    assert ((input_r s + Z.of_nat n - (input_r s + Z.of_nat i)) mod 128 = 0) as Hd
      by (rewrite Zminus_mod, E, Z.sub_diag; done).
    apply Z.mod_divide in Hd; [|lia]. destruct Hd as [k Hk].
    lia.
  - fold n in Hge, Hi. assert (i = n) as -> by (apply lookup_lt_Some in Hi; cbn in Hi; lia).
    rewrite Nat.sub_diag in Hi. injection Hi as <-. apply list_lookup_insert_eq. rewrite (cr_len _ _ Hrep).
    pose proof (Z.mod_pos_bound (input_r s + Z.of_nat n) 128). lia.
Qed.

(** The state after a character has been added, whether or not the line is
    complete. *)
Lemma rep_push c w l' :
  Z.of_nat (length (ready l ++ edited l)) < 128 -> in_u8 c -> ready l' ++ edited l' = ready l ++ edited l ++ [c] ->
  10 ∉ edited l' -> w = u32 (input_r s + Z.of_nat (length (ready l'))) ->
  (edited l' <> [] -> Z.of_nat (length (ready l ++ edited l ++ [c])) < 128) ->
  cons_rep (set_input_w w (set_input_e (u32 (input_e s + 1)) (set_ibuf (<[Z.to_nat (input_e s mod INPUT_BUF) := c]> (ibuf s)) s))) l'.
Proof.
  intros Hlt Hc El Hnl -> Hfull. pose proof (cr_e _ _ Hrep) as He.
  split; cbn [ibuf input_r input_w input_e set_input_e set_input_w set_ibuf]; rewrite ?El; try done.
  - rewrite length_insert. apply Hrep.
  - apply Hrep.
  - rewrite He, u32_add_l, !length_app. cbn [length]. f_equal. lia.
  - rewrite !length_app in *. cbn [length]. lia.
  - intros i x. by apply rep_push_data.
  - rewrite app_assoc. apply Forall_app. split; [apply Hrep|by constructor].
Qed.

(** Taking the next character. *)
Lemma rep_next c rest :
  ready l = c :: rest ->
  default 0 (ibuf s !! Z.to_nat (input_r s mod INPUT_BUF)) = c /\
  cons_rep (set_input_r (u32 (input_r s + 1)) s) (Lines rest (edited l)) /\ in_u8 c.
Proof.
  intros Er. destruct Hrep as [H1 H2 H3 H4 H5 H6 H7 H8 H9]. rewrite Er in *. cbn [app length] in *. change INPUT_BUF with 128.
  apply Forall_cons in H9 as [Hc H9]. split; [|split; [|done]].
  - specialize (H7 0%nat c eq_refl). rewrite Z.add_0_r in H7. by rewrite H7.
  - split; cbn [ready edited ibuf input_r input_w input_e set_input_r]; try done; try lia.
    + apply u32_range.
    + rewrite H3, u32_add_l. f_equal. lia.
    + rewrite H4, u32_add_l. f_equal. lia.
    + intros i x Hi. rewrite <- Zplus_mod_idemp_l, u32_mod_128, Zplus_mod_idemp_l.
      replace (input_r s + 1 + Z.of_nat i) with (input_r s + Z.of_nat (S i)) by lia. by apply H7.
Qed.

End rep.

(** ** Typing *)

(** The console has printed [bs]; its input may have changed. *)
Definition echoed (bs : list Z) (s s' : console) : Prop :=
  screen_ok s' /\ panicked s' = false /\ cons_lock s' = cons_lock s /\ serial s' = serial s ++ bs.

Lemma echoed_app a b s s1 s2 : echoed a s s1 -> echoed b s1 s2 -> echoed (a ++ b) s s2.
Proof. intros (_ & _ & E1 & E2) (H1 & H2 & E3 & E4). split_and!; [done|done|congruence|by rewrite E4, E2, app_assoc]. Qed.

Lemma consputc_echo c s s0 :
  screen_ok s -> panicked s = false -> cons_lock s = cons_lock s0 -> serial s = serial s0 ->
  wp (consputc c) s (fun _ s' => same_input s s' /\ echoed (if c =? BACKSPACE then [8; 32; 8] else [u8 c]) s0 s').
Proof.
  intros Hok Hp Hl Hs. eapply wp_mono; [|by apply consputc_spec]. cbv beta. intros _ s' (Hok' & _ & Hsame & Hser).
  pose proof Hsame as (E1 & _ & E3 & _). split; [done|]. split; [done|]. split_and!; congruence.
Qed.

Lemma kill_line_spec fuel s l :
  cons_rep s l -> screen_ok s -> panicked s = false -> (length (edited l) < fuel)%nat ->
  wp (kill_line fuel) s (fun _ s' => cons_rep s' (Lines (ready l) []) /\ echoed (erased (length (edited l))) s s').
Proof.
  revert s l. induction fuel as [|fuel IH]; intros s [rdy ed] Hrep Hok Hp Hf; [lia|]. cbn [kill_line].
  apply wp_bind, wpe_get. rewrite (rep_empty _ _ Hrep). cbn [ready edited] in *.
  destruct ed as [|c line _] using rev_ind; cbn [bool_decide].
  { rewrite bool_decide_true by done. apply wpe_ret. split; [done|]. split_and!; [done..|by rewrite app_nil_r]. }
  rewrite bool_decide_false by (by destruct line). rewrite (rep_last _ _ Hrep line c eq_refl).
  assert (c <> 10) as Hc by (intros ->; apply (cr_line _ _ Hrep); cbn; apply elem_of_app; right; apply list_elem_of_here).
  rewrite (proj2 (Z.eqb_neq _ _) Hc). cbn [negb andb]. apply wp_bind, wpe_modify.
  pose proof (rep_back _ _ Hrep line c eq_refl) as Hrep1. apply wp_bind.
  eapply wp_mono; [|by apply (consputc_echo _ _ s)]. cbv beta. intros _ s1 [Hsame1 He1].
  rewrite length_app in *. cbn [length] in *.
  eapply wp_mono; [|apply (IH s1 (Lines rdy line)); [by eapply cons_rep_same|apply He1|apply He1|cbn; lia]]. cbv beta.
  cbn [ready edited]. intros _ s2 [Hrep2 He2]. split; [done|]. rewrite Nat.add_comm. by apply (echoed_app [8; 32; 8] _ s s1).
Qed.

(** The default case of the switch. *)
Lemma store_char_spec c s l :
  cons_rep s l -> screen_ok s -> panicked s = false -> in_u8 c -> Z.of_nat (length (ready l ++ edited l)) < 128 ->
  wp (modify (fun s => set_input_e (u32 (input_e s + 1))
                          (set_ibuf (<[Z.to_nat (input_e s mod INPUT_BUF) := u8 c]> (ibuf s)) s)) ;;
      consputc c ;;
      s ← get;
      when ((c =? 10) || (c =? 4) || (input_e s =? u32 (input_r s + INPUT_BUF)))
        (modify (fun s => set_input_w (input_e s) s) ;; wakeup_input)) s
    (fun _ s' =>
      let r := if (c =? 10) || (c =? 4) || (Z.of_nat (length (ready l ++ edited l ++ [c])) =? 128)
               then (Lines (ready l ++ edited l ++ [c]) [], [c]) else (Lines (ready l) (edited l ++ [c]), [c]) in
      cons_rep s' r.1 /\ echoed r.2 s s').
Proof.
  intros Hrep Hok Hp Hc Hlt. rewrite u8_small by done. apply wp_bind, wpe_modify. apply wp_bind.
  eapply wp_mono; [|by apply (consputc_echo c _ s)]. cbv beta. intros _ s1 [Hsame He].
  rewrite (proj2 (Z.eqb_neq c BACKSPACE)) in He by (unfold in_u8, BACKSPACE in *; lia). rewrite u8_small in He by done.
  apply wp_bind, wpe_get. pose proof Hsame as (_ & _ & _ & E4 & E5 & E6 & E7 & _). cbn in E4, E5, E6, E7.
  assert (Hee : (input_e s1 =? u32 (input_r s1 + INPUT_BUF)) = (Z.of_nat (length (ready l ++ edited l ++ [c])) =? 128)).
  { rewrite E5, E7, (cr_e _ _ Hrep), u32_add_l, <- Z.add_assoc. apply eq_bool_prop_intro.
    rewrite !Is_true_true, !Z.eqb_eq, u32_dist by (unfold INPUT_BUF; lia). rewrite !length_app. cbn [length]. unfold INPUT_BUF. lia. }
  rewrite Hee. set (b := (c =? 10) || (c =? 4) || (Z.of_nat (length (ready l ++ edited l ++ [c])) =? 128)).
  destruct b eqn:Hb; subst b; cbn [when fst snd].
  - apply wp_bind, wpe_modify. apply wpe_modify. split; [|done].
    eapply (cons_rep_ext (set_input_w (input_e s1) _)), (rep_push s l Hrep c); cbn [ready edited]; try done.
    + by rewrite app_nil_r.
    + apply not_elem_of_nil.
    + rewrite E7, (cr_e _ _ Hrep), u32_add_l, !length_app. cbn [length]. f_equal. lia.
  - apply orb_false_iff in Hb as [[H10 _]%orb_false_iff Hl128]. apply Z.eqb_neq in H10, Hl128. rewrite !length_app in *.
    cbn [length] in *. apply wpe_ret. split; [|done].
    eapply (cons_rep_ext (set_input_w (input_w s) _)), (rep_push s l Hrep c); cbn [ready edited]; try done.
    + rewrite length_app. lia.
    + intros [H|H%list_elem_of_singleton]%elem_of_app; [by apply (cr_line _ _ Hrep)|done].
    + apply Hrep.
    + rewrite !length_app. cbn [length]. lia.
Qed.

Lemma type_char_spec c s l :
  cons_rep s l -> screen_ok s -> panicked s = false -> in_u8 c ->
  wp (consoleintr_char c) s (fun d s' => d = (c =? 16) /\ cons_rep s' (type_char l c).1 /\ echoed (type_char l c).2 s s').
Proof.
  intros Hrep Hok Hp Hc. unfold consoleintr_char, type_char.
  assert (Hnil : echoed [] s s) by (split_and!; [done..|by rewrite app_nil_r]).
  destruct (Z.eqb_spec c 16) as [->|Hc16]; [by apply wpe_ret|].
  destruct (Z.eqb_spec c 21) as [->|Hc21].
  { apply wp_bind. eapply wp_mono; [|apply (kill_line_spec _ s l Hrep Hok Hp)]. cbv beta.
    - intros _ s' [? ?]. by apply wpe_ret.
    - pose proof (cr_size _ _ Hrep) as Hs. rewrite length_app in Hs. unfold INPUT_BUF. lia. }
  destruct ((c =? 8) || (c =? 127)) eqn:Hback.
  { apply wp_bind, wpe_get. rewrite (rep_empty _ _ Hrep).
    destruct (edited l) as [|x line _] eqn:He using rev_ind; cbn [length Nat.sub].
    - rewrite bool_decide_true by done. apply wp_bind, wpe_ret, wpe_ret. split; [done|].
      split; [|done]. by destruct l; cbn in *; subst.
    - rewrite bool_decide_false by (by destruct line). cbn [negb]. apply wp_bind, wp_bind, wpe_modify.
      eapply wp_mono; [|by apply (consputc_echo _ _ s)]. cbv beta. intros _ s1 [Hsame He1]. apply wpe_ret.
      rewrite length_app. cbn [length]. replace (length line + 1 - 1)%nat with (length line) by lia.
      rewrite take_app_length. replace (1 `min` (length line + 1))%nat with 1%nat by lia.
      split; [done|]. split; [|done].
      eapply cons_rep_same; [exact Hsame|]. by eapply rep_back. }
  apply wp_bind, wpe_get. rewrite (rep_room _ _ Hrep).
  replace (negb (c =? 0) && (Z.of_nat (length (ready l ++ edited l)) <? INPUT_BUF))
    with (negb ((c =? 0) || (Z.of_nat (length (ready l ++ edited l)) =? 128)))
    by (pose proof (cr_size _ _ Hrep); unfold INPUT_BUF; destruct (c =? 0); [done|]; cbn [negb orb andb]; lia).
  destruct ((c =? 0) || (Z.of_nat (length (ready l ++ edited l)) =? 128)) eqn:Hfull; cbn [negb].
  { by apply wp_bind, wpe_ret, wpe_ret. }
  apply orb_false_iff in Hfull as [_ Hfull%Z.eqb_neq]. pose proof (cr_size _ _ Hrep) as Hsize.
  apply wp_bind. eapply wp_mono; [|apply (store_char_spec (if c =? 13 then 10 else c) s l); try done; [|lia]].
  - cbv beta. intros _ s' H. by apply wpe_ret.
  - by destruct (c =? 13).
Qed.

Lemma type_chars_spec cs d s l :
  cons_rep s l -> screen_ok s -> panicked s = false -> Forall in_u8 cs ->
  wp (consoleintr_loop cs d) s (fun d' s' => d' = d || bool_decide (16 ∈ cs) /\
    cons_rep s' (type_chars l cs).1 /\ echoed (type_chars l cs).2 s s').
Proof.
  intros Hrep Hok Hp H8. revert d s l Hrep Hok Hp. induction H8 as [|c cs Hc _ IH]; intros d s l Hrep Hok Hp;
    cbn [consoleintr_loop type_chars].
  { apply wpe_ret. split; [by rewrite orb_false_r|]. split; [done|]. split_and!; [done..|by rewrite app_nil_r]. }
  rewrite (proj2 (Z.ltb_ge c 0)) by apply Hc. apply wp_bind.
  eapply wp_mono; [|by apply (type_char_spec c s l)]. cbv beta. intros d1 s1 (-> & Hrep1 & He1).
  eapply wp_mono; [|apply (IH _ s1 (type_char l c).1); [done|apply He1|apply He1]]. cbv beta.
  intros d2 s2 (-> & Hrep2 & He2). cbn [fst snd]. split; [|split; [done|by eapply echoed_app]].
  rewrite <- orb_assoc. f_equal. apply eq_bool_prop_intro.
  rewrite orb_True, !bool_decide_spec, Is_true_true, Z.eqb_eq, elem_of_cons. naive_solver.
Qed.

Section procdump.
Context (procdump : M console unit).
Hypothesis procdump_prints : forall s, cons_ready s -> wp procdump s (fun _ s' => cons_ready s' /\ exists bs, Console.puts bs s s').

(** Typing implements the line discipline. Whatever characters the
    keyboard delivers, and wherever the three 32-bit indices of the ring are,
    after consoleintr the ring holds the complete lines and the line being
    edited that [type_chars] says: backspace and kill line take back only
    characters of the line being edited, a full buffer or an end of file
    character completes the line, and characters that do not fit are
    dropped. What is echoed is what it says too, before the process listing
    if one was asked for. *)
Theorem consoleintr_refines cs s l :
  cons_rep s l -> cons_ready s -> Forall in_u8 cs ->
  wp (consoleintr procdump cs) s (fun _ s' =>
    cons_rep s' (type_chars l cs).1 /\ cons_ready s' /\
    exists dump, serial s' = serial s ++ (type_chars l cs).2 ++ dump /\ (16 ∉ cs -> dump = [])).
Proof.
  intros Hrep (Hok & Hp & Hlk) H8. unfold consoleintr, acquire_cons. apply wp_bind, wp_bind, wpe_get. rewrite Hlk.
  apply wpe_put, wp_bind. eapply wp_mono; [|apply (type_chars_spec cs false _ l); try done; by apply cons_rep_lock].
  cbv beta. intros d s1 (-> & Hrep1 & Hok1 & Hp1 & Hlk1 & Hser1). cbn [orb serial set_cons_lock cons_lock] in *.
  unfold release_cons. apply wp_bind, wp_bind, wpe_get. rewrite Hlk1. apply wpe_put.
  assert (Hready : cons_ready (set_cons_lock false s1)) by (split; [done|by split]).
  case_bool_decide as H16; cbn [when].
  - eapply wp_mono; [|by apply procdump_prints]. cbv beta. intros _ s2 (Hr2 & bs & _ & Hsame & Hser2).
    split; [by eapply cons_rep_same, cons_rep_lock|]. split; [done|]. exists bs. split; [|done]. rewrite Hser2. cbn. by rewrite Hser1, app_assoc.
  - apply wpe_ret. split; [by apply cons_rep_lock|]. split; [done|]. exists []. by rewrite app_nil_r.
Qed.

End procdump.

(** ** Reading *)

(** How a reader ends. *)
Definition read_result (killed ok : bool) (n : Z) (got : list Z) : cread :=
  if ok then Read (Z.of_nat (length got)) got
  else if killed then Read (-1) got else Waits (n - Z.of_nat (length got)) got.

Section reading.
Context (ilock iunlock : M console unit) (killed : bool).
(** The lock of the inode is not part of the console. *)
Hypothesis ilock_keeps : forall s, wp ilock s (fun _ s' => s' = s).
Hypothesis iunlock_keeps : forall s, wp iunlock s (fun _ s' => s' = s).

Lemma wp_ilock {A} (m : M console A) s Q : wp m s Q -> wp (ilock ;; m) s Q.
Proof. intros Hm. apply wp_bind. eapply wp_mono; [|apply ilock_keeps]. by intros _ s' ->. Qed.

Lemma wp_release {A} (m : M console A) s Q :
  cons_lock s = true -> wp m (set_cons_lock false s) Q -> wp (release_cons ;; m) s Q.
Proof. intros Hl Hm. unfold release_cons. apply wp_bind, wp_bind, wpe_get. rewrite Hl. by apply wpe_put. Qed.

Lemma consoleread_loop_spec fuel n total got s l :
  cons_rep s l -> cons_lock s = true -> total = Z.of_nat n + Z.of_nat (length got) -> total < 2 ^ 31 -> (n < fuel)%nat ->
  wp (consoleread_loop ilock fuel killed (Z.of_nat n) total got) s (fun r s' =>
    let '(ok, got', rest) := read_ready n got (ready l) in
    cons_rep s' (Lines rest (edited l)) /\ cons_lock s' = false /\ r = read_result killed ok total got').
Proof.
  revert n got s l. induction fuel as [|fuel IH]; intros n got s l Hrep Hlk Ht Hmax Hf; [lia|].
  cbn [consoleread_loop]. destruct n as [|n]; cbn [read_ready].
  { rewrite (proj2 (Z.ltb_ge _ _)) by lia. apply wp_release; [done|]. apply wp_ilock, wpe_ret.
    split; [apply cons_rep_lock; by destruct l|]. split; [done|]. unfold read_result. f_equal. rewrite i32_small by (unfold in_i32; lia). lia. }
  rewrite (proj2 (Z.ltb_lt _ _)) by lia. apply wp_bind, wpe_get. rewrite (rep_waits _ _ Hrep).
  destruct (ready l) as [|c rest] eqn:Er.
  { rewrite bool_decide_true by done. assert (Hl : Lines [] (edited l) = l) by (destruct l; cbn in *; by subst).
    destruct killed; (apply wp_release; [done|]); [apply wp_ilock|]; apply wpe_ret;
      (split; [rewrite Hl; by apply cons_rep_lock|]); (split; [done|]); [done|]. unfold read_result. f_equal. lia. }
  rewrite bool_decide_false by done. destruct (rep_next _ _ Hrep c rest Er) as (-> & Hrep1 & Hc).
  destruct (i8_u8 c Hc) as [_ Hu]. apply wp_bind, wpe_modify.
  assert (E4 : forall k, 0 <= k < 128 -> (i8 c =? k) = (c =? k)).
  { intros k Hk. apply eq_bool_prop_intro. rewrite !Is_true_true, !Z.eqb_eq. split; intros E; [rewrite <- Hu, E|rewrite E].
    - apply u8_small. unfold in_u8. lia.
    - unfold i8. rewrite Z.mod_small; lia. }
  rewrite (E4 4), (E4 10) by lia. destruct (Z.eqb_spec c 4) as [->|Hc4].
  - destruct got as [|g gs].
    + rewrite (proj2 (Z.ltb_ge _ _)) by (rewrite u32_small by (unfold in_u32; cbn in *; lia); cbn in *; lia).
      apply wp_bind, wpe_ret, wp_release; [done|]. apply wp_ilock, wpe_ret. split; [by apply cons_rep_lock|]. split; [done|].
      unfold read_result. cbn [length] in *. rewrite i32_small by (unfold in_i32; lia). f_equal. lia.
    + rewrite (proj2 (Z.ltb_lt _ _)) by (rewrite u32_small by (unfold in_u32; cbn in *; lia); cbn in *; lia).
      apply wp_bind, wpe_modify, wp_release; [done|]. apply wp_ilock, wpe_ret. rewrite bool_decide_false by done. split; [|split; [done|]].
      * apply cons_rep_lock. rewrite <- Er. replace (Lines (ready l) (edited l)) with l by (by destruct l).
        eapply (cons_rep_ext s); [done| |done|done|exact Hrep]. cbn. rewrite u32_sub_l, Z.add_simpl_r. apply u32_small, Hrep.
      * unfold read_result. rewrite i32_small by (unfold in_i32; lia). f_equal. lia.
  - destruct (Z.eqb_spec c 10) as [->|Hc10].
    + apply wp_release; [done|]. apply wp_ilock, wpe_ret. split; [by apply cons_rep_lock|]. split; [done|].
      unfold read_result. rewrite length_app, i32_small by (unfold in_i32; lia). cbn [length]. f_equal. lia.
    + rewrite Hu. replace (Z.of_nat (S n) - 1) with (Z.of_nat n) by lia.
      apply (IH n (got ++ [c]) _ (Lines rest (edited l))); [done|done| |done|lia]. rewrite length_app. cbn [length]. lia.
Qed.

(** Reading implements the line discipline. A read of [n] characters
    gets from the ring what [read_ready] says, whether it is starting or goes
    on after it slept with the characters [got]: at most [n] characters up to
    the end of the first line, none if the next character is the end of file.
    When the complete lines do not suffice it sleeps, or returns -1 if the
    process has been killed. It always lets go of the console lock. *)
Theorem consoleread_refines n got s l :
  cons_rep s l -> cons_lock s = false -> Z.of_nat n + Z.of_nat (length got) < 2 ^ 31 ->
  let total := Z.of_nat n + Z.of_nat (length got) in
  wp (match got with
      | [] => consoleread ilock iunlock killed (Z.of_nat n)
      | _ => consoleread_resume ilock killed (Z.of_nat n) total got
      end) s (fun r s' =>
    let '(ok, got', rest) := read_ready n got (ready l) in
    cons_rep s' (Lines rest (edited l)) /\ cons_lock s' = false /\ r = read_result killed ok total got').
Proof.
  intros Hrep Hlk Hmax total.
  assert (Hloop : wp (acquire_cons ;; consoleread_loop ilock (S (Z.to_nat (Z.of_nat n))) killed (Z.of_nat n) total got) s
    (fun r s' => let '(ok, got', rest) := read_ready n got (ready l) in
      cons_rep s' (Lines rest (edited l)) /\ cons_lock s' = false /\ r = read_result killed ok total got')).
  { unfold acquire_cons. apply wp_bind, wp_bind, wpe_get. rewrite Hlk. apply wpe_put.
    apply consoleread_loop_spec; try done; [by apply cons_rep_lock|lia]. }
  destruct got; [|exact Hloop]. unfold consoleread. apply wp_bind. eapply wp_mono; [|apply iunlock_keeps].
  cbv beta. intros _ s' ->. rewrite u32_small by (unfold in_u32; cbn in *; lia).
  assert (total = Z.of_nat n) as E by (unfold total; cbn; lia). by rewrite E in *.
Qed.

(** Output stays on the screen. Writing any bytes to the console, with
    the cursor anywhere on the screen, sends them to the serial port in order
    and never touches a cell outside the screen: at the end of a row the
    cursor goes to the next one, at the last row the screen scrolls, and the
    panic on the cursor position is not reached. The input is not touched. *)
Theorem consolewrite_on_screen buf s :
  cons_ready s -> Forall in_u8 buf ->
  wp (consolewrite ilock iunlock buf) s (fun r s' =>
    r = Z.of_nat (length buf) /\ cons_ready s' /\ same_input s s' /\ serial s' = serial s ++ buf).
Proof.
  intros (Hok & Hp & Hlk) H8. unfold consolewrite. apply wp_bind. eapply wp_mono; [|apply iunlock_keeps].
  cbv beta. intros _ s1 ->. unfold acquire_cons. apply wp_bind, wp_bind, wpe_get. rewrite Hlk. apply wpe_put, wp_bind.
  eapply wp_mono; [|apply (for_each_puts (fun b => Z.land b 0xff)); [|done|done]]; cbv beta.
  - intros _ s2 (Hok2 & (E1 & E2 & E3 & E4 & E5 & E6 & E7 & E8) & Hser). cbn in *.
    apply wp_release; [done|]. apply wp_ilock, wpe_ret. split; [done|]. split; [split; [done|]; cbn; by rewrite E3|].
    split; [|done]. unfold same_input. cbn. by rewrite Hlk.
  - intros b Hb. rewrite Forall_forall in H8. specialize (H8 b Hb). change 0xff with (Z.ones 8).
    rewrite Z.land_ones, Z.mod_small by (unfold in_u8 in H8; lia). split; [unfold BACKSPACE, in_u8 in *; lia|by apply u8_small].
Qed.

End reading.

(** ** A session *)

Definition empty_console : console :=
  Console false 1 false [] (replicate 2000 0) 0 (replicate 128 0) (2 ^ 32 - 2) (2 ^ 32 - 2) (2 ^ 32 - 2) 0.

Lemma empty_console_rep : cons_rep empty_console (Lines [] []).
Proof.
  split; try done; try apply not_elem_of_nil.
Qed.

(** The user types [ab], a backspace and a return, while the indices wrap. *)
Lemma consoleintr_refines_witness :
  wp (consoleintr (mret tt) [97; 98; 8; 13]) empty_console (fun _ s' =>
    cons_rep s' (Lines [97; 10] []) /\ cons_ready s' /\
    exists dump, serial s' = [97; 98; 8; 32; 8; 10] ++ dump /\ (16 ∉ [97; 98; 8; 13] -> dump = [])).
Proof.
  apply (consoleintr_refines (mret tt)) with (l := Lines [] []).
  - intros s Hs. apply wpe_ret. split; [done|]. exists []. by apply puts_nil, Hs.
  - apply empty_console_rep.
  - split; [split; [cbn; lia|done]|done].
  - by repeat constructor.
Defined.

(** A reader who wants four characters finds no line and sleeps. *)
Lemma consoleread_refines_witness :
  wp (consoleread (mret tt) (mret tt) false 4) empty_console (fun r s' =>
    cons_rep s' (Lines [] []) /\ cons_lock s' = false /\ r = Waits 4 []).
Proof.
  apply (consoleread_refines (mret tt) (mret tt) false) with (n := 4%nat) (got := []) (l := Lines [] []).
  - intros s. by apply wpe_ret.
  - intros s. by apply wpe_ret.
  - apply empty_console_rep.
  - done.
  - done.
Defined.

(** Two bytes at the last cell of the screen. *)
Lemma consolewrite_on_screen_witness :
  wp (consolewrite (mret tt) (mret tt) [97; 98]) (set_cursor 1999 empty_console) (fun r s' =>
    r = 2 /\ cons_ready s' /\ same_input (set_cursor 1999 empty_console) s' /\ serial s' = [97; 98]).
Proof.
  apply (consolewrite_on_screen (mret tt) (mret tt)).
  - intros s. by apply wpe_ret.
  - intros s. by apply wpe_ret.
  - split; [split; [cbn; lia|done]|done].
  - by repeat constructor.
Defined.
