(* ===== verification/Kbd.v ===== *)
(** The keyboard: [kbd.c] with the tables of [kbd.h], and its interrupt.

    The driver keeps the modifier keys as bits of a word. What a sequence of
    scan codes means is stated on a record of the keys that are down, and
    the driver is proved to implement it, up to the line discipline of the
    console that kbdintr feeds. *)

From S2P Require Import Prelude Ports User Console Line.

Open Scope Z_scope.

(** ** kbd.h *)

Definition KBSTATP : Z := 0x64.
Definition KBS_DIB : Z := 0x01.
Definition KBDATAP : Z := 0x60.

Definition NO : Z := 0.
Definition SHIFT : Z := Z.shiftl 1 0.
Definition CTL : Z := Z.shiftl 1 1.
Definition ALT : Z := Z.shiftl 1 2.
Definition CAPSLOCK : Z := Z.shiftl 1 3.
Definition NUMLOCK : Z := Z.shiftl 1 4.
Definition SCROLLLOCK : Z := Z.shiftl 1 5.
Definition E0ESC : Z := Z.shiftl 1 6.

Definition KEY_HOME : Z := 0xE0.
Definition KEY_END : Z := 0xE1.
Definition KEY_UP : Z := 0xE2.
Definition KEY_DN : Z := 0xE3.
Definition KEY_LF : Z := 0xE4.
Definition KEY_RT : Z := 0xE5.
Definition KEY_PGUP : Z := 0xE6.
Definition KEY_PGDN : Z := 0xE7.
Definition KEY_INS : Z := 0xE8.
Definition KEY_DEL : Z := 0xE9.

(** An array of 256 bytes with its first elements and designated ones. *)
Definition array256 (first : list Z) (designated : list (Z * Z)) : list Z :=
  foldl (fun t iv => <[Z.to_nat iv.1 := iv.2]> t) (first ++ replicate (256 - length first) 0) designated.

Definition shiftcode : list Z :=
  array256 [] [(0x1D, CTL); (0x2A, SHIFT); (0x36, SHIFT); (0x38, ALT); (0x9D, CTL); (0xB8, ALT)].

Definition togglecode : list Z :=
  array256 [] [(0x3A, CAPSLOCK); (0x45, NUMLOCK); (0x46, SCROLLLOCK)].

Definition normalmap : list Z :=
  array256
    ([NO; 0x1B] ++ chars "123456" ++
     chars "7890-=" ++ [8; 9] ++
     chars "qwertyui" ++
     chars "op[]" ++ [10; NO] ++ chars "as" ++
     chars "dfghjkl;" ++
     chars "'`" ++ [NO] ++ chars "\zxcv" ++
     chars "bnm,./" ++ [NO] ++ chars "*" ++
     [NO] ++ chars " " ++ replicate 6 NO ++
     replicate 7 NO ++ chars "7" ++
     chars "89-456+1" ++
     chars "230." ++ replicate 4 NO)
    [(0x9C, 10); (0xB5, 47);
     (0xC8, KEY_UP); (0xD0, KEY_DN); (0xC9, KEY_PGUP); (0xD1, KEY_PGDN); (0xCB, KEY_LF);
     (0xCD, KEY_RT); (0x97, KEY_HOME); (0xCF, KEY_END); (0xD2, KEY_INS); (0xD3, KEY_DEL)].

Definition shiftmap : list Z :=
  array256
    ([NO; 27] ++ chars "!@#$%^" ++
     chars "&*()_+" ++ [8; 9] ++
     chars "QWERTYUI" ++
     chars "OP{}" ++ [10; NO] ++ chars "AS" ++
     chars "DFGHJKL:" ++
     [34] ++ chars "~" ++ [NO] ++ chars "|ZXCV" ++
     chars "BNM<>?" ++ [NO] ++ chars "*" ++
     [NO] ++ chars " " ++ replicate 6 NO ++
     replicate 7 NO ++ chars "7" ++
     chars "89-456+1" ++
     chars "230." ++ replicate 4 NO)
    [(0x9C, 10); (0xB5, 47);
     (0xC8, KEY_UP); (0xD0, KEY_DN); (0xC9, KEY_PGUP); (0xD1, KEY_PGDN); (0xCB, KEY_LF);
     (0xCD, KEY_RT); (0x97, KEY_HOME); (0xCF, KEY_END); (0xD2, KEY_INS); (0xD3, KEY_DEL)].

(** Control characters: [c - '@'], as a byte. *)
Definition ctl (s : string) : list Z := (fun c => u8 (c - 64)) <$> chars s.

Definition ctlmap : list Z :=
  array256
    (replicate 8 NO ++
     replicate 8 NO ++
     ctl "QWERTYUI" ++
     ctl "OP" ++ [NO; NO; 13; NO] ++ ctl "AS" ++
     ctl "DFGHJKL" ++ [NO] ++
     [NO; NO; NO] ++ ctl "\ZXCV" ++
     ctl "BNM" ++ [NO; NO] ++ ctl "/" ++ [NO; NO])
    [(0x9C, 13); (0xB5, u8 (47 - 64));
     (0xC8, KEY_UP); (0xD0, KEY_DN); (0xC9, KEY_PGUP); (0xD1, KEY_PGDN); (0xCB, KEY_LF);
     (0xCD, KEY_RT); (0x97, KEY_HOME); (0xCF, KEY_END); (0xD2, KEY_INS); (0xD3, KEY_DEL)].

(** ** kbd.c *)

Definition charcode : list (list Z) := [normalmap; shiftmap; ctlmap; ctlmap].

(** A test of C: a word is true unless it is 0. *)
Definition set_in (v mask : Z) : bool := negb (Z.land v mask =? 0).

(** What kbdgetc does with the byte that it has read: the new [shift] and the
    value it returns. [None] is an access outside an array. *)
Definition scancode (shift data : Z) : option (Z * Z) :=
  if data =? 0xE0 then Some (Z.lor shift E0ESC, 0)
  else if set_in data 0x80 then
    let data := if set_in shift E0ESC then data else Z.land data 0x7F in
    sc ← shiftcode !! Z.to_nat data;
    Some (Z.land shift (u32 (Z.lnot (Z.lor sc E0ESC))), 0)
  else
    let '(data, shift) :=
      if set_in shift E0ESC then (Z.lor data 0x80, Z.land shift (u32 (Z.lnot E0ESC))) else (data, shift) in
    sc ← shiftcode !! Z.to_nat data;
    tc ← togglecode !! Z.to_nat data;
    let shift := Z.lxor (Z.lor shift sc) tc in
    table ← charcode !! Z.to_nat (Z.land shift (Z.lor CTL SHIFT));
    c ← table !! Z.to_nat data;
    let c :=
      if set_in shift CAPSLOCK then
        if (97 <=? c) && (c <=? 122) then u32 (c + (65 - 97))
        else if (65 <=? c) && (c <=? 90) then u32 (c + (97 - 65))
        else c
      else c in
    Some (shift, i32 c).

(** The devices and the static variable [shift]. *)
Record kbd (D : Type) := Kbd { kb_dev : D; kb_shift : Z }.
Arguments Kbd {D} _ _.
Arguments kb_dev {D} _.
Arguments kb_shift {D} _.

Section kbdgetc.
Context {D : Type} {P : Ports D}.

Definition kport {A} (m : M D A) : M (kbd D) A := zoom (Lens kb_dev (fun d k => Kbd d (kb_shift k))) m.

Definition kbdgetc : M (kbd D) Z :=
  st ← kport (inb KBSTATP);
  if Z.land st KBS_DIB =? 0 then mret (-1)
  else
    data ← kport (inb KBDATAP);
    k ← get;
    match scancode (kb_shift k) data with
    | None => wild
    | Some (shift, c) => put (Kbd (kb_dev k) shift) ;; mret c
    end.

End kbdgetc.

(** ** What the keys mean *)

(** The modifier keys that are down or locked, and whether the last byte was
    the prefix of a key on the extended part of the keyboard. *)
Record mods := Mods {
  m_shift : bool;
  m_ctl : bool;
  m_alt : bool;
  m_caps : bool;
  m_num : bool;
  m_scroll : bool;
  m_ext : bool
}.

(** The word that the driver keeps for them. *)
Definition mask (m : mods) : Z :=
  (if m_shift m then 1 else 0) + (if m_ctl m then 2 else 0) + (if m_alt m then 4 else 0) +
  (if m_caps m then 8 else 0) + (if m_num m then 16 else 0) + (if m_scroll m then 32 else 0) +
  (if m_ext m then 64 else 0).

Definition is_shift (k : Z) : bool := bool_decide (k ∈ [0x2A; 0x36]).
Definition is_ctl (k : Z) : bool := bool_decide (k ∈ [0x1D; 0x9D]).
Definition is_alt (k : Z) : bool := bool_decide (k ∈ [0x38; 0xB8]).

(** The key [k] goes down, or up. Keys of the extended part are 128 and up. *)
Definition press (k : Z) (m : mods) : mods :=
  Mods (m_shift m || is_shift k) (m_ctl m || is_ctl k) (m_alt m || is_alt k)
    (xorb (m_caps m) (k =? 0x3A)) (xorb (m_num m) (k =? 0x45)) (xorb (m_scroll m) (k =? 0x46)) false.

Definition letgo (k : Z) (m : mods) : mods :=
  Mods (m_shift m && negb (is_shift k)) (m_ctl m && negb (is_ctl k)) (m_alt m && negb (is_alt k))
    (m_caps m) (m_num m) (m_scroll m) false.

(** Upper case for lower case, and lower case for upper case. *)
Definition swap_case (c : Z) : Z :=
  if (97 <=? c) && (c <=? 122) then c - 32 else if (65 <=? c) && (c <=? 90) then c + 32 else c.

(** The character of a key: the control key is stronger than shift. *)
Definition key_char (m : mods) (k : Z) : Z :=
  let c := default 0 ((if m_ctl m then ctlmap else if m_shift m then shiftmap else normalmap) !! Z.to_nat k) in
  if m_caps m then swap_case c else c.

(** One byte from the keyboard: the keys after it, and the character, 0 if
    there is none. The top bit says that a key goes up. *)
Definition key (m : mods) (b : Z) : mods * Z :=
  if b =? 0xE0 then (Mods (m_shift m) (m_ctl m) (m_alt m) (m_caps m) (m_num m) (m_scroll m) true, 0)
  else
    let k := b mod 128 + (if m_ext m then 128 else 0) in
    if 128 <=? b then (letgo k m, 0) else (press k m, key_char (press k m) k).

(** A sequence of bytes: the keys after them, and the characters. *)
Fixpoint keys (m : mods) (bs : list Z) : mods * list Z :=
  match bs with
  | [] => (m, [])
  | b :: bs => let r := keys (key m b).1 bs in (r.1, (key m b).2 :: r.2)
  end.

Definition both : list bool := [false; true].

Definition all_mods : list mods :=
  a ← both; b ← both; c ← both; d ← both; e ← both; f ← both; g ← both; [Mods a b c d e f g].

Lemma all_mods_all m : m ∈ all_mods.
Proof.
  assert (Hb : forall b : bool, b ∈ both) by (intros []; set_solver).
  destruct m as [a b c d e f g]. unfold all_mods.
  do 7 (apply list_elem_of_bind; eexists; split; [|apply Hb]). by apply list_elem_of_singleton.
Qed.

(** The check of one state and byte. *)
Definition key_ok (m : mods) (b : Z) : bool :=
  bool_decide (scancode (mask m) b = Some (mask (key m b).1, (key m b).2)) && (0 <=? (key m b).2) && ((key m b).2 <? 256).

Lemma key_ok_all : forallb (fun m => forallb (key_ok m) (seqZ 0 256)) all_mods = true.
Proof. vm_compute. reflexivity. Qed.

Lemma scancode_key m b : in_u8 b -> scancode (mask m) b = Some (mask (key m b).1, (key m b).2) /\ in_u8 (key m b).2.
Proof.
  intros Hb. pose proof (proj1 (forallb_forall _ _) key_ok_all m) as H.
  specialize (H (proj1 (list_elem_of_In _ _) (all_mods_all m))). cbv beta in H.
  pose proof (proj1 (forallb_forall _ _) H b) as Hk. clear H. unfold in_u8 in *.
  specialize (Hk (proj1 (list_elem_of_In _ _) (proj2 (elem_of_seqZ 0 256 b) ltac:(lia)))).
  unfold key_ok in Hk. apply andb_prop in Hk as [[H1 H2]%andb_prop H3].
  split; [by eapply bool_decide_eq_true_1|lia].
Qed.

Lemma length_keys m bs : length (keys m bs).2 = length bs.
Proof. revert m; induction bs as [|b bs IH]; intros m; cbn; [done|]. by rewrite IH. Qed.

Lemma keys_chars m bs : Forall in_u8 bs -> Forall in_u8 (keys m bs).2.
Proof.
  intros H. revert m. induction H as [|b bs Hb _ IH]; intros m; cbn [keys snd]; constructor; [|done].
  by apply scancode_key.
Qed.

(** The shift state is the word of a set of modifier keys. *)
Definition kbd_ok {D} (k : kbd D) : Prop := exists m, kb_shift k = mask m.

Lemma mask_range m : 0 <= mask m < 128.
Proof. unfold mask. repeat case_match; lia. Qed.

Section kbdgetc_spec.
Context {D : Type} {P : Ports D} {PO : PortsOk D}.

Lemma wp_kport {A} (m : M D A) k (Q : A -> kbd D -> Prop) :
  wp m (kb_dev k) (fun a d => Q a (Kbd d (kb_shift k))) -> wp (kport m) k Q.
Proof. unfold kport, wp, wpe, zoom. cbn [view update]. by destruct (m _). Qed.

(** C38: the type of kbdgetc. Whatever bytes the ports answer, in whatever
    order, no table is read outside its 256 entries, the state of the
    modifier keys stays a set of the seven flags, and the result is -1 or a
    character: it fits an unsigned char. *)
Theorem kbdgetc_typed k :
  kbd_ok k -> wp kbdgetc k (fun c k' => kbd_ok k' /\ 0 <= kb_shift k' < 128 /\ (c = -1 \/ in_u8 c)).
Proof.
  intros [m Hm]. unfold kbdgetc. apply wp_bind, wp_kport. eapply wp_mono; [|apply inb_byte]. intros st d1 _.
  case_match.
  { apply wpe_ret. split; [by exists m|]. split; [|by left]. cbn [kb_shift]. rewrite Hm. apply mask_range. }
  apply wp_bind, wp_kport. eapply wp_mono; [|apply inb_byte]. intros b d2 Hb. apply wp_bind, wpe_get. cbn [kb_shift].
  rewrite Hm. destruct (scancode_key m b Hb) as [-> Hc]. apply wp_bind, wpe_put, wpe_ret.
  split; [by exists (key m b).1|]. split; [apply mask_range|by right].
Qed.

End kbdgetc_spec.

(** ** The interrupt *)

(** What a device gives to consoleintr: calls of [getc] return the characters
    [cs] and then -1. *)
Inductive drains {T} (getc : M T Z) : T -> list Z -> T -> Prop :=
  | drains_end t c t' : getc t = Ret c t' -> c < 0 -> drains getc t [] t'
  | drains_next t c t1 cs t' : getc t = Ret c t1 -> 0 <= c -> drains getc t1 cs t' -> drains getc t (c :: cs) t'.

Section consoleintr_from.
Context {T : Type} (getc : M T Z) (procdump : M console unit).

Definition from_dev {A} (m : M T A) : M (T * console) A := zoom (Lens fst (fun t s => (t, s.2))) m.
Definition from_cons {A} (m : M console A) : M (T * console) A := zoom (Lens snd (fun c s => (s.1, c))) m.

(** consoleintr on a device: the loop reads until [getc] has nothing more. *)
Fixpoint consoleintr_from_loop (fuel : nat) (doprocdump : bool) : M (T * console) bool :=
  match fuel with
  | O => out_of_fuel
  | S fuel =>
      c ← from_dev getc;
      if c <? 0 then mret doprocdump
      else
        d ← from_cons (consoleintr_char c);
        consoleintr_from_loop fuel (doprocdump || d)
  end.

Definition consoleintr_from (fuel : nat) : M (T * console) unit :=
  from_cons acquire_cons ;;
  d ← consoleintr_from_loop fuel false;
  from_cons release_cons ;;
  when d (from_cons procdump).

Lemma consoleintr_from_loop_drains fuel t cs t' d s :
  drains getc t cs t' -> (length cs < fuel)%nat ->
  forall (Q : bool -> T * console -> Prop), wp (consoleintr_loop cs d) s (fun r s' => Q r (t', s')) ->
  wp (consoleintr_from_loop fuel d) (t, s) Q.
Proof.
  intros Hd. revert fuel d s. induction Hd as [t c t' Hc Hlt|t c t1 cs t' Hc Hge Hd IH]; intros fuel d s Hf Q HQ;
    (destruct fuel as [|fuel]; [cbn in Hf; lia|]); cbn [consoleintr_from_loop consoleintr_loop] in *;
    apply wp_bind, wpe_zoom; cbn [view fst]; eapply wp_intro; [exact Hc| |exact Hc|]; cbn [update snd].
  - by rewrite (proj2 (Z.ltb_lt c 0)) by lia.
  - rewrite (proj2 (Z.ltb_ge c 0)) in * by lia. apply wp_bind, wpe_zoom. cbn [view snd].
    unfold wp, wpe, mbind, M_bind in HQ. unfold wpe. destruct (consoleintr_char c s) as [r s1|]; [|done].
    cbn [update fst]. apply (IH fuel (d || r) s1); [cbn in Hf; lia|]. exact HQ.
Qed.

(** The characters are those of the device, as if they were all there at once. *)
Lemma consoleintr_from_drains fuel t cs t' s (Q : unit -> T * console -> Prop) :
  drains getc t cs t' -> (length cs < fuel)%nat ->
  wp (consoleintr procdump cs) s (fun r s' => Q r (t', s')) -> wp (consoleintr_from fuel) (t, s) Q.
Proof.
  intros Hd Hf H. unfold consoleintr_from, consoleintr in *. apply wp_bind, wpe_zoom. cbn [view snd].
  unfold wp, wpe, mbind, M_bind in H. unfold wpe. destruct (acquire_cons s) as [[] s1|]; [|done]. cbn [update fst].
  apply wp_bind. apply (consoleintr_from_loop_drains fuel t cs t' false s1 Hd Hf). unfold wp, wpe.
  destruct (consoleintr_loop cs false s1) as [d s2|]; [|done]. apply wpe_bind, wpe_zoom. cbn [view snd]. unfold wpe at 1.
  destruct (release_cons s2) as [[] s3|]; [|done]. cbn [update fst]. destruct d; [|done]. by apply wpe_zoom.
Qed.

End consoleintr_from.

(** The keyboard controller: the bytes that wait to be read. *)
Class KbdQueue (D : Type) `{Ports D} := {
  kb_pending : D -> list Z;
  kb_status : forall d, wp (inb KBSTATP) d (fun st d' => kb_pending d' = kb_pending d /\ (Z.land st KBS_DIB = 0 <-> kb_pending d = []));
  kb_data : forall d b q, kb_pending d = b :: q -> wp (inb KBDATAP) d (fun v d' => v = b /\ kb_pending d' = q)
}.

Section kbdintr.
Context {D : Type} {P : Ports D} {KQ : KbdQueue D}.
Context (procdump : M console unit).
Hypothesis procdump_prints : forall s, cons_ready s -> wp procdump s (fun _ s' => cons_ready s' /\ exists bs, Console.puts bs s s').

(** The keyboard has at most [fuel] bytes. *)
Definition kbdintr (fuel : nat) : M (kbd D * console) unit := consoleintr_from kbdgetc procdump (S fuel).

Lemma kbdgetc_drains k m q :
  kb_shift k = mask m -> kb_pending (kb_dev k) = q -> Forall in_u8 q ->
  exists k', drains kbdgetc k (keys m q).2 k' /\ kb_shift k' = mask (keys m q).1 /\ kb_pending (kb_dev k') = [].
Proof.
  intros Hm Hq H8. revert k m Hm Hq. induction H8 as [|b q Hb _ IH]; intros k m Hm Hq;
    destruct (wp_inv _ _ _ (kb_status (kb_dev k))) as (st & d1 & E1 & Hp1 & Hst).
  - exists (Kbd d1 (kb_shift k)). split; [|cbn; split; [done|congruence]]. eapply drains_end with (c := -1); [|lia].
    unfold kbdgetc, kport, zoom, mbind, M_bind. cbn [view]. rewrite E1. cbn [update]. by rewrite (proj2 Hst Hq).
  - rewrite Hq in Hp1. destruct (wp_inv _ _ _ (kb_data d1 b q Hp1)) as (v & d2 & E2 & -> & Hp2).
    destruct (scancode_key m b Hb) as [Esc Hc]. destruct (IH (Kbd d2 (mask (key m b).1)) (key m b).1 eq_refl Hp2) as (k' & Hd & Hk').
    exists k'. split; [|done]. cbn [keys fst snd]. eapply drains_next; [| |exact Hd]; [|apply Hc].
    unfold kbdgetc, kport, zoom, mbind, M_bind. cbn [view]. rewrite E1. cbn [update].
    destruct (Z.eqb_spec (Z.land st KBS_DIB) 0) as [Ez|_]; [apply Hst in Ez; congruence|].
    cbn [view update kb_dev kb_shift]. rewrite E2. unfold get. cbn [kb_shift kb_dev]. by rewrite Hm, Esc.
Qed.

(** The keyboard interrupt implements typing. With any bytes waiting in
    the controller, in any state of the modifier keys, kbdintr reads them all
    and returns; the modifier keys are then as the bytes leave them, and the
    lines of the console and its echo are those of the characters that the
    keys mean, put through the line discipline. *)
Theorem kbdintr_types k m q s l :
  kb_shift k = mask m -> kb_pending (kb_dev k) = q -> Forall in_u8 q ->
  cons_rep s l -> cons_ready s ->
  wp (kbdintr (length q)) (k, s) (fun _ ks =>
    kb_pending (kb_dev ks.1) = [] /\ kb_shift ks.1 = mask (keys m q).1 /\
    cons_rep ks.2 (type_chars l (keys m q).2).1 /\ cons_ready ks.2 /\
    exists dump, serial ks.2 = serial s ++ (type_chars l (keys m q).2).2 ++ dump /\ (16 ∉ (keys m q).2 -> dump = [])).
Proof.
  intros Hm Hq H8 Hrep Hready. destruct (kbdgetc_drains k m q Hm Hq H8) as (k' & Hd & Hm' & Hq').
  eapply (consoleintr_from_drains kbdgetc procdump _ _ _ _ _ _ Hd); [rewrite length_keys; lia|].
  eapply wp_mono; [|apply (consoleintr_refines procdump procdump_prints _ s l Hrep Hready); by apply keys_chars].
  intros [] s' H. by split; [|split].
Qed.

End kbdintr.

(** ** A controller that is a queue *)

#[global] Instance queue_ports : Ports (list Z) := {|
  inb p := fun q => if p =? KBSTATP then Ret (match q with [] => 0 | _ => KBS_DIB end) q
                    else match q with [] => Ret 0 [] | b :: q => Ret (u8 b) q end;
  outb p v := mret tt;
  insl p n := mret [];
  outsl p bs := mret tt
|}.

#[global] Instance queue_ok : PortsOk (list Z).
Proof.
  split; [|done]. intros p q. unfold wp, wpe, inb, queue_ports.
  destruct (p =? KBSTATP), q; try apply u8_range; unfold in_u8, KBS_DIB; lia.
Qed.


#[global] Instance queue_kbd : KbdQueue (list Z).
Proof.
  refine {| kb_pending := fmap u8 |}.
  - intros q. apply (wp_intro _ _ (match q with [] => 0 | _ => KBS_DIB end) q); [done|]. split; [done|]. by destruct q.
  - intros [|b' q'] b q; [done|]. cbn. by intros [= <- <-].
Defined.

(** Shift down, a, shift up, the extended prefix with the keypad's return. *)
Definition demo_keys : list Z := [0x2A; 0x1E; 0xAA; 0xE0; 0x1C].

Definition no_mods : mods := Mods false false false false false false false.

Lemma kbdgetc_typed_witness :
  wp kbdgetc (Kbd demo_keys 0) (fun c k' => kbd_ok k' /\ 0 <= kb_shift k' < 128 /\ (c = -1 \/ in_u8 c)).
Proof. apply kbdgetc_typed. by exists no_mods. Defined.

Lemma kbdintr_types_witness :
  wp (kbdintr (mret tt) 5) (Kbd demo_keys 0, empty_console) (fun _ ks =>
    kb_pending (kb_dev ks.1) = [] /\ kb_shift ks.1 = 0 /\ cons_rep ks.2 (Lines [65; 10] []) /\ cons_ready ks.2 /\
    exists dump, serial ks.2 = [65; 10] ++ dump /\ (16 ∉ [0; 65; 0; 0; 10] -> dump = [])).
Proof.
  apply (kbdintr_types (mret tt)) with (m := no_mods) (q := demo_keys) (l := Lines [] []).
  - intros s Hs. apply wpe_ret. split; [done|]. exists []. by apply puts_nil, Hs.
  - done.
  - done.
  - by repeat constructor.
  - apply empty_console_rep.
  - split; [split; [cbn; lia|done]|done].
Defined.
