(* ===== verification/Ioapic.v ===== *)
(** The I/O interrupt controller, [ioapic.c], and the old one, [picirq.c].

    The controller is a register file behind two words of memory: a number
    written to the first selects the register that the second reads and
    writes. *)

From S2P Require Import Prelude Ports.

Open Scope Z_scope.

Definition IOAPIC : Z := 0xFEC00000.
Definition REG_ID : Z := 0x00.
Definition REG_VER : Z := 0x01.
Definition REG_TABLE : Z := 0x10.
Definition INT_DISABLED : Z := 0x00010000.

(** struct ioapic: the addresses of its two words. *)
Definition ioapic_reg (ioapic : Z) : Z := ioapic.
Definition ioapic_data (ioapic : Z) : Z := ioapic + 16.

Section ioapic.
Context {D : Type} {MM : Mmio D} {P : Ports D}.
(** cprintf, and the id that mpinit has found. *)
Variable cprintf : string -> list parg -> M D unit.
Variable ioapicid : Z.

Definition ioapicread (reg : Z) : M D Z :=
  mmio_write (ioapic_reg IOAPIC) (u32 reg) ;;
  mmio_read (ioapic_data IOAPIC).

Definition ioapicwrite (reg data : Z) : M D unit :=
  mmio_write (ioapic_reg IOAPIC) (u32 reg) ;;
  mmio_write (ioapic_data IOAPIC) data.

Definition ioapicinit : M D unit :=
  v ← ioapicread REG_VER;
  let maxintr := Z.land (Z.shiftr v 16) 0xFF in
  id ← ioapicread REG_ID;
  let id := Z.shiftr id 24 in
  when (negb (id =? ioapicid)) (cprintf ("ioapicinit: id isn't equal to ioapicid; not a MP" ++ nl) []) ;;
  for_each (seqZ 0 (maxintr + 1)) (fun i =>
    ioapicwrite (REG_TABLE + 2 * i) (Z.lor INT_DISABLED (T_IRQ0 + i)) ;;
    ioapicwrite (REG_TABLE + 2 * i + 1) 0).

Definition ioapicenable (irq cpunum : Z) : M D unit :=
  ioapicwrite (REG_TABLE + 2 * irq) (u32 (T_IRQ0 + irq)) ;;
  ioapicwrite (REG_TABLE + 2 * irq + 1) (u32 (Z.shiftl cpunum 24)).

(** picirq.c *)
Definition IO_PIC1 : Z := 0x20.
Definition IO_PIC2 : Z := 0xA0.

Definition picinit : M D unit :=
  outb (IO_PIC1 + 1) 0xFF ;;
  outb (IO_PIC2 + 1) 0xFF.

End ioapic.

(** ** The redirection table *)

(** The controller as a register file: [io_sel] is selected, and the
    registers of the table hold what was written to them. *)
Class IoapicRegs (D : Type) `{Mmio D} := {
  io_sel : D -> Z;
  io_reg : D -> Z -> Z;
  io_word : forall d r, in_u32 (io_reg d r);
  io_select : forall d r, wp (mmio_write (ioapic_reg IOAPIC) r) d (fun _ d' => io_sel d' = r /\ io_reg d' = io_reg d);
  io_read : forall d, wp (mmio_read (ioapic_data IOAPIC)) d (fun v d' =>
    v = io_reg d (io_sel d) /\ io_sel d' = io_sel d /\ io_reg d' = io_reg d);
  io_write : forall d v, REG_TABLE <= io_sel d -> in_u32 v ->
    wp (mmio_write (ioapic_data IOAPIC) v) d (fun _ d' =>
      io_sel d' = io_sel d /\ io_reg d' = <[io_sel d := v]> (io_reg d))
}.

Section table.
Context {D : Type} {MM : Mmio D} {IR : IoapicRegs D}.
Variable cprintf : string -> list parg -> M D unit.
Hypothesis cprintf_keeps : forall f a d, wp (cprintf f a) d (fun _ d' => io_reg d' = io_reg d).

(** What the table says of line [i]: the interrupt is delivered as vector
    [T_IRQ0 + i] to the CPU [c], or it is masked. *)
Definition routed (d : D) (i c : Z) : Prop :=
  io_reg d (REG_TABLE + 2 * i) = T_IRQ0 + i /\ io_reg d (REG_TABLE + 2 * i + 1) = c * 2 ^ 24.
Definition masked (d : D) (i : Z) : Prop :=
  Z.testbit (io_reg d (REG_TABLE + 2 * i)) 16 = true /\ io_reg d (REG_TABLE + 2 * i) mod 256 = T_IRQ0 + i /\
  io_reg d (REG_TABLE + 2 * i + 1) = 0.

Lemma ioapicread_spec reg d : in_u32 reg -> wp (ioapicread reg) d (fun v d' => v = io_reg d reg /\ io_reg d' = io_reg d).
Proof.
  intros Hr. unfold ioapicread. rewrite u32_small by done. apply wp_bind. eapply wp_mono; [|apply io_select].
  intros [] d1 [E1 E2]. eapply wp_mono; [|apply io_read]. intros v d2 (-> & _ & ->). by rewrite E1, E2.
Qed.

Lemma ioapicwrite_spec reg v d : REG_TABLE <= reg < 2 ^ 32 -> in_u32 v ->
  wp (ioapicwrite reg v) d (fun _ d' => io_reg d' = <[reg := v]> (io_reg d)).
Proof.
  unfold REG_TABLE. intros Hr Hv. unfold ioapicwrite. rewrite u32_small by (unfold in_u32; lia). apply wp_bind.
  eapply wp_mono; [|apply io_select]. intros [] d1 [E1 E2].
  eapply wp_mono; [|apply io_write; [rewrite E1; apply Hr|done]]. intros [] d2 [_ ->]. by rewrite E1, E2.
Qed.

(** Both words of a line. *)
Lemma ioapicwrite_line i lo hi d : 0 <= i < 256 -> in_u32 lo -> in_u32 hi ->
  wp (ioapicwrite (REG_TABLE + 2 * i) lo ;; ioapicwrite (REG_TABLE + 2 * i + 1) hi) d (fun _ d' =>
    io_reg d' (REG_TABLE + 2 * i) = lo /\ io_reg d' (REG_TABLE + 2 * i + 1) = hi /\
    forall j, j <> i -> io_reg d' (REG_TABLE + 2 * j) = io_reg d (REG_TABLE + 2 * j) /\
                        io_reg d' (REG_TABLE + 2 * j + 1) = io_reg d (REG_TABLE + 2 * j + 1)).
Proof.
  intros Hi Hlo Hhi. apply wp_bind. eapply wp_mono; [|apply ioapicwrite_spec; [unfold REG_TABLE; lia|done]].
  intros [] d1 E1. eapply wp_mono; [|apply ioapicwrite_spec; [unfold REG_TABLE; lia|done]]. intros [] d2 E2.
  rewrite E2, E1. split; [by rewrite fn_lookup_insert_ne, fn_lookup_insert by lia|].
  split; [by rewrite fn_lookup_insert|]. intros j Hj. by rewrite !fn_lookup_insert_ne by lia.
Qed.

Lemma disabled_vector i : 0 <= i < 224 ->
  Z.testbit (Z.lor INT_DISABLED (T_IRQ0 + i)) 16 = true /\ Z.lor INT_DISABLED (T_IRQ0 + i) mod 256 = T_IRQ0 + i /\
  in_u32 (Z.lor INT_DISABLED (T_IRQ0 + i)).
Proof.
  intros Hi. unfold T_IRQ0. assert (H : Z.land INT_DISABLED (32 + i) = 0).
  { change INT_DISABLED with (2 ^ 16). apply Z.bits_inj'. intros n Hn. rewrite Z.land_spec, Z.bits_0, Z.pow2_bits_eqb by lia.
    destruct (Z.eqb_spec 16 n) as [<-|]; [|done]. cbn [andb]. apply (Z.bits_above_log2 (32 + i) 16); [lia|].
    apply Z.log2_lt_pow2; lia. }
  split; [by rewrite Z.lor_spec|]. rewrite <- Z.add_nocarry_lor by done. unfold INT_DISABLED, in_u32. split; [|lia].
  rewrite <- Z.add_mod_idemp_l by lia. change (65536 mod 256) with 0. apply Z.mod_small. lia.
Qed.

(** After ioapicinit every line of the controller is masked, whether the
    controller is the one that mpinit has found or not. *)
Theorem ioapicinit_masks ioapicid d :
  Z.land (Z.shiftr (io_reg d REG_VER) 16) 0xFF < 224 ->
  wp (ioapicinit cprintf ioapicid) d (fun _ d' =>
    forall i, 0 <= i <= Z.land (Z.shiftr (io_reg d REG_VER) 16) 0xFF -> masked d' i).
Proof.
  intros Hv. set (mi := Z.land (Z.shiftr (io_reg d REG_VER) 16) 0xFF) in *. unfold ioapicinit.
  apply wp_bind. eapply wp_mono; [|by apply ioapicread_spec]. intros v d1 [-> E1]. fold mi.
  apply wp_bind. eapply wp_mono; [|by apply ioapicread_spec]. intros v d2 [-> E2].
  apply wp_bind. eapply wp_mono with (Q := fun _ d3 => io_reg d3 = io_reg d2).
  2:{ destruct (negb _); cbn [when]; [|by apply wpe_ret]. apply cprintf_keeps. }
  intros [] d3 E3. eapply wp_mono; [|apply (wpe_for_each (fun dn d' => forall i, i ∈ dn -> masked d' i))].
  - intros [] d' H i Hi. apply H, elem_of_seqZ. lia.
  - intros i Hi. by apply elem_of_nil in Hi.
  - intros dn i rest d' Eq HI. assert (Hi : 0 <= i < 224).
    { assert (i ∈ seqZ 0 (mi + 1)) as Hin by (rewrite Eq; set_solver). apply elem_of_seqZ in Hin. lia. }
    assert (Hfresh : i ∉ dn).
    { pose proof (NoDup_seqZ 0 (mi + 1)) as Hnd. rewrite Eq in Hnd. apply NoDup_app in Hnd as (_ & Hnd & _). set_solver. }
    destruct (disabled_vector i Hi) as (Hb & Hm & Hw).
    eapply wp_mono; [|apply (ioapicwrite_line i _ 0 d'); [lia|done|done]]. intros [] d'' (El & Eh & Ho) j.
    rewrite elem_of_app, list_elem_of_singleton. intros [Hj| ->].
    + unfold masked. destruct (Ho j) as [-> ->]; [by intros ->|]. by apply HI.
    + unfold masked. by rewrite El, Eh.
Qed.

(** ioapicenable delivers one line to one CPU, and leaves the others alone. *)
Theorem ioapicenable_routes irq cpunum d :
  0 <= irq < 224 -> 0 <= cpunum < 256 ->
  wp (ioapicenable irq cpunum) d (fun _ d' =>
    routed d' irq cpunum /\ forall j c, j <> irq -> (routed d' j c <-> routed d j c) /\ (masked d' j <-> masked d j)).
Proof.
  intros Hi Hc. unfold ioapicenable. rewrite Z.shiftl_mul_pow2 by lia. unfold T_IRQ0.
  rewrite !u32_small by (unfold in_u32; lia).
  eapply wp_mono; [|apply (ioapicwrite_line irq (32 + irq) (cpunum * 2 ^ 24)); [lia|unfold in_u32; lia..]].
  intros [] d' (El & Eh & Ho). split; [done|]. intros j c Hj. unfold routed, masked. by destruct (Ho j Hj) as [-> ->].
Qed.

End table.
