(* ===== verification/Lapic.v ===== *)
(** The interrupt controller of a CPU and the real-time clock: [lapic.c].

    [lapic] is the address of the registers, 0 if there are none. *)

From S2P Require Import Prelude Mmu Ports.

Open Scope Z_scope.

(** The registers, as indices of words. *)
Definition ID : Z := 0x0020 / 4.
Definition VER : Z := 0x0030 / 4.
Definition TPR : Z := 0x0080 / 4.
Definition EOI : Z := 0x00B0 / 4.
Definition SVR : Z := 0x00F0 / 4.
Definition ENABLE : Z := 0x00000100.
Definition ESR : Z := 0x0280 / 4.
Definition ICRLO : Z := 0x0300 / 4.
Definition INIT : Z := 0x00000500.
Definition STARTUP : Z := 0x00000600.
Definition DELIVS : Z := 0x00001000.
Definition ASSERT : Z := 0x00004000.
Definition LEVEL : Z := 0x00008000.
Definition BCAST : Z := 0x00080000.
Definition ICRHI : Z := 0x0310 / 4.
Definition TIMER : Z := 0x0320 / 4.
Definition X1 : Z := 0x0000000B.
Definition PERIODIC : Z := 0x00020000.
Definition PCINT : Z := 0x0340 / 4.
Definition LINT0 : Z := 0x0350 / 4.
Definition LINT1 : Z := 0x0360 / 4.
Definition ERROR : Z := 0x0370 / 4.
Definition MASKED : Z := 0x00010000.
Definition TICR : Z := 0x0380 / 4.
Definition TDCR : Z := 0x03E0 / 4.

Definition CMOS_PORT : Z := 0x70.
Definition CMOS_RETURN : Z := 0x71.
Definition CMOS_STATA : Z := 0x0a.
Definition CMOS_STATB : Z := 0x0b.
Definition CMOS_UIP : Z := Z.shiftl 1 7.
Definition SECS : Z := 0x00.
Definition MINS : Z := 0x02.
Definition HOURS : Z := 0x04.
Definition DAY : Z := 0x07.
Definition MONTH : Z := 0x08.
Definition YEAR : Z := 0x09.

(** date.h *)
Record rtcdate := RtcDate { second : Z; minute : Z; hour : Z; day : Z; month : Z; year : Z }.

#[global] Instance rtcdate_eq_dec : EqDecision rtcdate.
Proof. solve_decision. Defined.

Section lapic.
Context {D : Type} {P : Ports D} {MM : Mmio D}.
Variable lapic : Z.

Definition lapicr (index : Z) : M D Z := mmio_read (lapic + 4 * index).

Definition lapicw (index value : Z) : M D unit :=
  mmio_write (lapic + 4 * index) (u32 value) ;;
  lapicr ID ;;
  mret tt.

(** Spins until the interrupt has been delivered. *)
Fixpoint wait_delivered (fuel : nat) : M D unit :=
  match fuel with
  | O => out_of_fuel
  | S fuel =>
      v ← lapicr ICRLO;
      if Z.land v DELIVS =? 0 then mret tt else wait_delivered fuel
  end.

Definition lapicinit (fuel : nat) : M D unit :=
  if lapic =? 0 then mret tt
  else
    lapicw SVR (Z.lor ENABLE (T_IRQ0 + IRQ_SPURIOUS)) ;;
    lapicw TDCR X1 ;;
    lapicw TIMER (Z.lor PERIODIC (T_IRQ0 + IRQ_TIMER)) ;;
    lapicw TICR 10000000 ;;
    lapicw LINT0 MASKED ;;
    lapicw LINT1 MASKED ;;
    v ← lapicr VER;
    when (4 <=? Z.land (Z.shiftr v 16) 0xFF) (lapicw PCINT MASKED) ;;
    lapicw ERROR (T_IRQ0 + IRQ_ERROR) ;;
    lapicw ESR 0 ;;
    lapicw ESR 0 ;;
    lapicw EOI 0 ;;
    lapicw ICRHI 0 ;;
    lapicw ICRLO (Z.lor (Z.lor BCAST INIT) LEVEL) ;;
    wait_delivered fuel ;;
    lapicw TPR 0.

Definition lapicid : M D Z :=
  if lapic =? 0 then mret 0
  else
    v ← lapicr ID;
    mret (Z.shiftr v 24).

Definition lapiceoi : M D unit :=
  if lapic =? 0 then mret tt else lapicw EOI 0.

(** Nothing to wait for. *)
Definition microdelay (us : Z) : M D unit := mret tt.

(** The warm reset vector is the two half words [wrv]. *)
Definition lapicstartap (wrv : Z -> Z -> M D unit) (apicid addr : Z) : M D unit :=
  outb CMOS_PORT 0xF ;;
  outb (CMOS_PORT + 1) 0x0A ;;
  wrv 0 0 ;;
  wrv 1 (u16 (Z.shiftr addr 4)) ;;
  lapicw ICRHI (Z.shiftl apicid 24) ;;
  lapicw ICRLO (Z.lor (Z.lor INIT LEVEL) ASSERT) ;;
  microdelay 200 ;;
  lapicw ICRLO (Z.lor INIT LEVEL) ;;
  microdelay 100 ;;
  mrepeat 2 (
    lapicw ICRHI (Z.shiftl apicid 24) ;;
    lapicw ICRLO (Z.lor STARTUP (Z.shiftr addr 12)) ;;
    microdelay 200).

Definition cmos_read (reg : Z) : M D Z :=
  outb CMOS_PORT (u8 reg) ;;
  microdelay 200 ;;
  inb CMOS_RETURN.

Definition fill_rtcdate : M D rtcdate :=
  s ← cmos_read SECS;
  mi ← cmos_read MINS;
  h ← cmos_read HOURS;
  d ← cmos_read DAY;
  mo ← cmos_read MONTH;
  y ← cmos_read YEAR;
  mret (RtcDate s mi h d mo y).

(** The loop that reads the time until two readings agree. *)
Fixpoint read_stable (fuel : nat) : M D rtcdate :=
  match fuel with
  | O => out_of_fuel
  | S fuel =>
      t1 ← fill_rtcdate;
      sa ← cmos_read CMOS_STATA;
      if negb (Z.land sa CMOS_UIP =? 0) then read_stable fuel
      else
        t2 ← fill_rtcdate;
        if bool_decide (t1 = t2) then mret t1 else read_stable fuel
  end.

Definition conv (x : Z) : Z := u32 (Z.shiftr x 4 * 10 + Z.land x 0xf).

Definition cmostime (fuel : nat) : M D rtcdate :=
  sb ← cmos_read CMOS_STATB;
  let bcd := Z.land sb (Z.shiftl 1 2) =? 0 in
  t1 ← read_stable fuel;
  let t1 :=
    if bcd then RtcDate (conv (second t1)) (conv (minute t1)) (conv (hour t1)) (conv (day t1)) (conv (month t1)) (conv (year t1))
    else t1 in
  mret (RtcDate (second t1) (minute t1) (hour t1) (day t1) (month t1) (u32 (year t1 + 2000))).

End lapic.

(** ** Reading the clock *)

(** A number of two digits in binary-coded decimal. *)
Definition to_bcd (n : Z) : Z := 16 * (n / 10) + n mod 10.

Lemma conv_to_bcd n : 0 <= n < 100 -> conv (to_bcd n) = n.
Proof.
  intros Hn. unfold conv, to_bcd. rewrite Z.shiftr_div_pow2 by lia. change 0xf with (Z.ones 4).
  rewrite Z.land_ones by lia. change (2 ^ 4) with 16.
  pose proof (Z.div_mod n 10 ltac:(lia)). pose proof (Z.mod_pos_bound n 10 ltac:(lia)).
  assert (0 <= n / 10 < 10) by (split; [apply Z.div_pos|apply Z.div_lt_upper_bound]; lia).
  rewrite (Z.mul_comm 16), Z.div_add_l, (Z.div_small (n mod 10)) by lia.
  rewrite Z.add_comm with (n := n / 10 * 16), Z.mod_add, (Z.mod_small (n mod 10)) by lia.
  rewrite u32_small by (unfold in_u32; lia). lia.
Qed.

(** The registers of the time. *)
Definition field (r : Z) (t : rtcdate) : option Z :=
  if r =? SECS then Some (second t) else if r =? MINS then Some (minute t) else if r =? HOURS then Some (hour t)
  else if r =? DAY then Some (day t) else if r =? MONTH then Some (month t) else if r =? YEAR then Some (year t)
  else None.

(** The clock chip: a number written to one port selects the register that
    the other reads. The time [date] does not change while it is read, its
    numbers are binary or binary-coded decimal as a bit of a status register
    says, and an update is in progress for at most [cm_busy] looks. *)
Class Clock (D : Type) `{Ports D} (date : rtcdate) := {
  cm_sel : D -> Z;
  cm_busy : D -> nat;
  cm_bcd : bool;
  cm_select : forall d r, wp (outb CMOS_PORT r) d (fun _ d' => cm_sel d' = r /\ cm_busy d' = cm_busy d);
  cm_statb : forall d, cm_sel d = CMOS_STATB -> wp (inb CMOS_RETURN) d (fun v d' =>
    cm_busy d' = cm_busy d /\ (Z.land v (Z.shiftl 1 2) = 0 <-> cm_bcd = true));
  cm_stata : forall d, cm_sel d = CMOS_STATA -> wp (inb CMOS_RETURN) d (fun v d' =>
    if Z.land v CMOS_UIP =? 0 then cm_busy d' = cm_busy d else (cm_busy d' < cm_busy d)%nat);
  cm_time : forall d n, field (cm_sel d) date = Some n -> wp (inb CMOS_RETURN) d (fun v d' =>
    cm_busy d' = cm_busy d /\ v = if cm_bcd then to_bcd n else n)
}.

(** A date of this century: every number has two digits. *)
Definition two_digits (n : Z) : Prop := 0 <= n < 100.
Definition date_ok (t : rtcdate) : Prop :=
  two_digits (second t) /\ two_digits (minute t) /\ two_digits (hour t) /\
  two_digits (day t) /\ two_digits (month t) /\ two_digits (year t).

Section clock.
Context {D : Type} {P : Ports D} {date : rtcdate} {CL : Clock D date}.

Definition shown (n : Z) : Z := if cm_bcd then to_bcd n else n.
Definition shown_date : rtcdate :=
  RtcDate (shown (second date)) (shown (minute date)) (shown (hour date)) (shown (day date)) (shown (month date)) (shown (year date)).

Lemma cmos_read_field r n d : in_u8 r -> field r date = Some n ->
  wp (cmos_read r) d (fun v d' => cm_busy d' = cm_busy d /\ v = shown n).
Proof.
  intros Hr Hn. unfold cmos_read. rewrite u8_small by done. apply wp_bind. eapply wp_mono; [|apply cm_select].
  intros [] d1 [E1 E2]. apply wp_bind, wpe_ret. eapply wp_mono; [|apply cm_time; by rewrite E1]. intros v d2 [-> ->]. done.
Qed.

Lemma fill_rtcdate_spec d : wp fill_rtcdate d (fun t d' => cm_busy d' = cm_busy d /\ t = shown_date).
Proof.
  unfold fill_rtcdate.
  do 6 (apply wp_bind; eapply wp_mono; [|by eapply cmos_read_field]; intros ? ? [? ->]).
  apply wpe_ret. split; [congruence|done].
Qed.

Lemma read_stable_spec fuel d : (cm_busy d < fuel)%nat -> wp (read_stable fuel) d (fun t _ => t = shown_date).
Proof.
  revert d; induction fuel as [|fuel IH]; intros d Hf; [lia|]. cbn [read_stable].
  apply wp_bind. eapply wp_mono; [|apply fill_rtcdate_spec]. intros t1 d1 [E1 ->].
  apply wp_bind, wp_bind. eapply wp_mono; [|apply cm_select]. intros [] d2 [Es E2]. apply wp_bind, wpe_ret.
  eapply wp_mono; [|by apply cm_stata]. intros v d3 Hv. cbv beta in Hv. destruct (Z.land v CMOS_UIP =? 0); cbn [negb].
  - apply wp_bind. eapply wp_mono; [|apply fill_rtcdate_spec]. intros t2 d4 [_ ->]. rewrite bool_decide_true by done.
    by apply wpe_ret.
  - apply IH. lia.
Qed.

(** cmostime returns the time, in either encoding of the chip, as soon as no
    update is in progress: the numbers are decoded and the year is in full. *)
Theorem cmostime_decodes fuel d :
  date_ok date -> (cm_busy d < fuel)%nat ->
  wp (cmostime fuel) d (fun t _ =>
    t = RtcDate (second date) (minute date) (hour date) (day date) (month date) (2000 + year date)).
Proof.
  intros (Hs & Hmi & Hh & Hd & Hmo & Hy) Hf. unfold cmostime.
  apply wp_bind, wp_bind. eapply wp_mono; [|apply cm_select]. intros [] d1 [Es E1]. apply wp_bind, wpe_ret.
  eapply wp_mono; [|by apply cm_statb]. intros v d2 [E2 Hv].
  apply wp_bind. eapply wp_mono; [|apply read_stable_spec; lia]. intros t d3 ->. apply wpe_ret.
  unfold shown_date, shown, two_digits in *. rewrite (Z.add_comm 2000).
  destruct (Z.eqb_spec (Z.land v (Z.shiftl 1 2)) 0) as [Ez|Ez].
  - rewrite (proj1 Hv Ez). cbn [second minute hour day month year]. rewrite !conv_to_bcd by done.
    by rewrite u32_small by (unfold in_u32; lia).
  - destruct cm_bcd; [by destruct Ez; apply Hv|]. cbn [second minute hour day month year].
    by rewrite u32_small by (unfold in_u32; lia).
Qed.

End clock.
