(* ===== verification/Uart.v ===== *)
(** The serial port: [uart.c]. *)

From S2P Require Import Prelude Ports Console Line Kbd Lapic.

Open Scope Z_scope.

Definition COM1 : Z := 0x3f8.

(** The devices and the variable [uart]. *)
Record uart_st (D : Type) := UartSt { ua_dev : D; uart : bool }.
Arguments UartSt {D} _ _.
Arguments ua_dev {D} _.
Arguments uart {D} _.

Section uart.
Context {D : Type} {P : Ports D}.
Variable ioapicenable : Z -> Z -> M D unit.

Definition uport {A} (m : M D A) : M (uart_st D) A := zoom (Lens ua_dev (fun d u => UartSt d (uart u))) m.

(** Wait for the transmitter, but not for ever. *)
Fixpoint uart_wait (n : nat) : M D unit :=
  match n with
  | O => mret tt
  | S n =>
      v ← inb (COM1 + 5);
      if Z.land v 0x20 =? 0 then microdelay 10 ;; uart_wait n else mret tt
  end.

Definition uartputc (c : Z) : M (uart_st D) unit :=
  u ← get;
  if negb (uart u) then mret tt
  else
    uport (uart_wait 128) ;;
    uport (outb (COM1 + 0) (u8 c)).

Definition uartgetc : M (uart_st D) Z :=
  u ← get;
  if negb (uart u) then mret (-1)
  else
    st ← uport (inb (COM1 + 5));
    if Z.land st 0x01 =? 0 then mret (-1)
    else uport (inb (COM1 + 0)).

Definition uartinit : M (uart_st D) unit :=
  uport (outb (COM1 + 2) 0 ;;
         outb (COM1 + 3) 0x80 ;;
         outb (COM1 + 0) (115200 / 9600) ;;
         outb (COM1 + 1) 0 ;;
         outb (COM1 + 3) 0x03 ;;
         outb (COM1 + 4) 0 ;;
         outb (COM1 + 1) 0x01) ;;
  st ← uport (inb (COM1 + 5));
  if st =? 0xFF then mret tt
  else
    modify (fun u => UartSt (ua_dev u) true) ;;
    uport (inb (COM1 + 2)) ;;
    uport (inb (COM1 + 0)) ;;
    uport (ioapicenable IRQ_COM1 0) ;;
    for_each (User.chars ("xv6..." ++ nl)) uartputc.

(** The interrupt, with at most [fuel] bytes received. *)
Definition uartintr (procdump : M console unit) (fuel : nat) : M (uart_st D * console) unit :=
  consoleintr_from uartgetc procdump (S fuel).

End uart.

(** ** What goes over the line *)

(** The device: the bytes sent so far, and those received and not yet read.
    The transmitter may never be ready. *)
Class UartLine (D : Type) `{Ports D} := {
  ua_sent : D -> list Z;
  ua_received : D -> list Z;
  ua_status : forall d, wp (inb (COM1 + 5)) d (fun st d' =>
    in_u8 st /\ ua_sent d' = ua_sent d /\ ua_received d' = ua_received d /\ (Z.land st 0x01 = 0 <-> ua_received d = []));
  ua_send : forall d v, wp (outb (COM1 + 0) v) d (fun _ d' => ua_sent d' = ua_sent d ++ [v] /\ ua_received d' = ua_received d);
  ua_recv : forall d b q, ua_received d = b :: q -> wp (inb (COM1 + 0)) d (fun v d' =>
    v = b /\ ua_sent d' = ua_sent d /\ ua_received d' = q)
}.

Section line.
Context {D : Type} {P : Ports D} {UL : UartLine D}.

Lemma uart_wait_spec n d : wp (uart_wait n) d (fun _ d' => ua_sent d' = ua_sent d /\ ua_received d' = ua_received d).
Proof.
  revert d; induction n as [|n IH]; intros d; cbn [uart_wait]; [by apply wpe_ret|].
  apply wp_bind. eapply wp_mono; [|apply ua_status]. intros st d1 (_ & E1 & E2 & _). case_match; [|by apply wpe_ret].
  apply wp_bind, wpe_ret. eapply wp_mono; [|apply IH]. by rewrite E1, E2.
Qed.

(** uartputc sends its byte, however long the transmitter takes; without a
    port it does nothing. *)
Theorem uartputc_sends c u :
  wp (uartputc c) u (fun _ u' => uart u' = uart u /\ ua_received (ua_dev u') = ua_received (ua_dev u) /\
    ua_sent (ua_dev u') = ua_sent (ua_dev u) ++ (if uart u then [u8 c] else [])).
Proof.
  unfold uartputc. apply wp_bind, wpe_get. destruct (uart u) eqn:Hu; cbn [negb]; [|apply wpe_ret; by rewrite app_nil_r].
  apply wp_bind, wpe_zoom. cbn [view]. eapply wp_mono; [|apply uart_wait_spec]. intros [] d1 [E1 E2]. cbn [update].
  apply wpe_zoom. cbn [view ua_dev]. eapply wp_mono; [|apply ua_send]. intros [] d2 [E3 E4]. cbn. by rewrite E3, E4, E1, E2.
Qed.

Lemma uartgetc_drains u q :
  uart u = true -> ua_received (ua_dev u) = q -> Forall in_u8 q ->
  exists u', drains uartgetc u q u' /\ uart u' = true /\ ua_received (ua_dev u') = [] /\ ua_sent (ua_dev u') = ua_sent (ua_dev u).
Proof.
  intros Hu Hq H8. revert u Hu Hq. induction H8 as [|b q Hb _ IH]; intros u Hu Hq;
    destruct (wp_inv _ _ _ (ua_status (ua_dev u))) as (st & d1 & E1 & _ & Es & Er & Hst).
  - exists (UartSt d1 true). split; [|cbn; split_and!; [done|congruence|done]]. eapply drains_end with (c := -1); [|lia].
    unfold uartgetc, uport, zoom, get, mbind, M_bind. rewrite Hu. cbn [negb view]. rewrite E1. cbn [update].
    by rewrite Hu, (proj2 Hst Hq).
  - rewrite Hq in Er. destruct (wp_inv _ _ _ (ua_recv d1 b q Er)) as (v & d2 & E2 & -> & Es2 & Er2).
    destruct (IH (UartSt d2 true) eq_refl Er2) as (u' & Hd & Hu' & Hr' & Hs'). exists u'.
    split; [|cbn in Hs'; by rewrite Hs', Es2]. eapply drains_next; [| |exact Hd]; [|apply Hb].
    unfold uartgetc, uport, zoom, get, mbind, M_bind. rewrite Hu. cbn [negb view]. rewrite E1. cbn [update].
    destruct (Z.eqb_spec (Z.land st 0x01) 0) as [Ez|_]; [apply Hst in Ez; congruence|].
    cbn [view update ua_dev uart]. by rewrite E2, Hu.
Qed.

Context (procdump : M console unit).
Hypothesis procdump_prints : forall s, cons_ready s -> wp procdump s (fun _ s' => cons_ready s' /\ exists bs, Console.puts bs s s').

(** Bytes from the line are typed like those from the keyboard. *)
Theorem uartintr_types u q s l :
  uart u = true -> ua_received (ua_dev u) = q -> Forall in_u8 q -> cons_rep s l -> cons_ready s ->
  wp (uartintr procdump (length q)) (u, s) (fun _ us =>
    ua_received (ua_dev us.1) = [] /\ cons_rep us.2 (type_chars l q).1 /\ cons_ready us.2).
Proof.
  intros Hu Hq H8 Hrep Hready. destruct (uartgetc_drains u q Hu Hq H8) as (u' & Hd & _ & Hr & _).
  eapply (consoleintr_from_drains uartgetc procdump _ _ _ _ _ _ Hd); [lia|].
  eapply wp_mono; [|by apply (consoleintr_refines procdump procdump_prints _ s l Hrep Hready)].
  intros [] s' (? & ? & _). done.
Qed.

End line.
