(* ===== verification/Ide.v ===== *)
(** The disk driver: [ide.c].

    Buffers that wait for the disk are linked through their [qnext] fields;
    the first of them is the one the disk works on. A pointer to a buffer is
    its index. The disk is behind the I/O ports. A process that waits for its
    request stops with the buffer as its channel, and retries when woken. *)

From S2P Require Import Prelude Ports Block Sleeplock Bio.

Open Scope Z_scope.

Definition SECTOR_SIZE : Z := 512.
Definition IDE_BSY : Z := 0x80.
Definition IDE_DRDY : Z := 0x40.
Definition IDE_DF : Z := 0x20.
Definition IDE_ERR : Z := 0x01.
Definition IDE_CMD_READ : Z := 0x20.
Definition IDE_CMD_WRITE : Z := 0x30.
Definition IDE_CMD_RDMUL : Z := 0xc4.
Definition IDE_CMD_WRMUL : Z := 0xc5.

(** struct buf, the fields that the driver uses. *)
Record dbuf := DBuf {
  d_flags : Z;
  d_dev : Z;
  d_blockno : Z;
  d_lock : sleeplock;
  d_qnext : option nat;
  d_data : list Z
}.

Definition set_dflags v b := DBuf v (d_dev b) (d_blockno b) (d_lock b) (d_qnext b) (d_data b).
Definition set_dlock l b := DBuf (d_flags b) (d_dev b) (d_blockno b) l (d_qnext b) (d_data b).
Definition set_qnext n b := DBuf (d_flags b) (d_dev b) (d_blockno b) (d_lock b) n (d_data b).
Definition set_ddata v b := DBuf (d_flags b) (d_dev b) (d_blockno b) (d_lock b) (d_qnext b) v.

(** The driver's variables, the buffers, and the disk. *)
Record ide (D : Type) := Ide {
  id_dev : D;
  idelock : bool;
  idequeue : option nat;
  havedisk1 : bool;
  dbufs : list dbuf;
  woken : list nat         (* wakeup(b), the last one first *)
}.
Arguments Ide {D} _ _ _ _ _ _.
Arguments id_dev {D} _.
Arguments idelock {D} _.
Arguments idequeue {D} _.
Arguments havedisk1 {D} _.
Arguments dbufs {D} _.
Arguments woken {D} _.

Section ide.
Context {D : Type} {P : Ports D}.

Notation MI A := (M (ide D) A).
Implicit Types s : ide D.

Definition set_dev (d : D) s : ide D := Ide d (idelock s) (idequeue s) (havedisk1 s) (dbufs s) (woken s).
Definition set_idelock l s : ide D := Ide (id_dev s) l (idequeue s) (havedisk1 s) (dbufs s) (woken s).
Definition set_idequeue q s : ide D := Ide (id_dev s) (idelock s) q (havedisk1 s) (dbufs s) (woken s).
Definition set_havedisk1 h s : ide D := Ide (id_dev s) (idelock s) (idequeue s) h (dbufs s) (woken s).
Definition set_dbufs l s : ide D := Ide (id_dev s) (idelock s) (idequeue s) (havedisk1 s) l (woken s).
Definition set_woken w s : ide D := Ide (id_dev s) (idelock s) (idequeue s) (havedisk1 s) (dbufs s) w.

Definition on_dev {A} (m : M D A) : MI A := zoom (Lens id_dev set_dev) m.

Definition acquire_ide : MI unit :=
  s ← get; if idelock s then panic "acquire" else put (set_idelock true s).
Definition release_ide : MI unit :=
  s ← get; if idelock s then put (set_idelock false s) else panic "release".

(** Reading and assigning through a pointer to a buffer. *)
Definition rdb (k : nat) : MI dbuf :=
  s ← get; match dbufs s !! k with Some b => mret b | None => wild end.
Definition wrb (k : nat) (f : dbuf -> dbuf) : MI unit :=
  b ← rdb k; modify (fun s => set_dbufs (<[k := f b]> (dbufs s)) s).

(** The disk answers within [fuel] looks at its status. *)
Variable fuel : nat.

Fixpoint idewait_loop (n : nat) (checkerr : bool) : M D Z :=
  match n with
  | O => out_of_fuel
  | S n =>
      r ← inb 0x1f7;
      if negb (Z.land r (Z.lor IDE_BSY IDE_DRDY) =? IDE_DRDY) then idewait_loop n checkerr
      else if checkerr && negb (Z.land r (Z.lor IDE_DF IDE_ERR) =? 0) then mret (-1)
      else mret 0
  end.

Definition idewait (checkerr : bool) : M D Z := idewait_loop fuel checkerr.

(** Is disk 1 there? *)
Fixpoint probe (n : nat) : M D bool :=
  match n with
  | O => mret false
  | S n =>
      r ← inb 0x1f7;
      if negb (r =? 0) then mret true else probe n
  end.

Definition ideinit (ioapicenable : Z -> Z -> M D unit) (ncpu : Z) : MI unit :=
  modify (set_idelock false) ;;
  on_dev (ioapicenable IRQ_IDE (ncpu - 1)) ;;
  on_dev (idewait false) ;;
  on_dev (outb 0x1f6 (Z.lor 0xe0 (Z.shiftl 1 4))) ;;
  h ← on_dev (probe 1000);
  when h (modify (set_havedisk1 true)) ;;
  on_dev (outb 0x1f6 (Z.lor 0xe0 (Z.shiftl 0 4))).

Definition idestart (b : option nat) : MI unit :=
  match b with
  | None => panic "idestart"
  | Some k =>
      b ← rdb k;
      if FSSIZE <=? d_blockno b then panic "incorrect blockno"
      else
        let sector_per_block := BSIZE / SECTOR_SIZE in
        let sector := i32 (d_blockno b * sector_per_block) in
        let read_cmd := if sector_per_block =? 1 then IDE_CMD_READ else IDE_CMD_RDMUL in
        let write_cmd := if sector_per_block =? 1 then IDE_CMD_WRITE else IDE_CMD_WRMUL in
        if 7 <? sector_per_block then panic "idestart"
        else
          on_dev (
            idewait false ;;
            outb 0x3f6 0 ;;
            outb 0x1f2 (u8 sector_per_block) ;;
            outb 0x1f3 (Z.land sector 0xff) ;;
            outb 0x1f4 (Z.land (Z.shiftr sector 8) 0xff) ;;
            outb 0x1f5 (Z.land (Z.shiftr sector 16) 0xff) ;;
            outb 0x1f6 (Z.lor (Z.lor 0xe0 (Z.shiftl (Z.land (d_dev b) 1) 4)) (Z.land (Z.shiftr sector 24) 0x0f)) ;;
            if negb (Z.land (d_flags b) B_DIRTY =? 0) then
              outb 0x1f7 write_cmd ;;
              outsl 0x1f0 (d_data b)
            else outb 0x1f7 read_cmd)
  end.

(** Read data if needed. *)
Definition read_data (k : nat) (b : dbuf) : MI unit :=
  if Z.land (d_flags b) B_DIRTY =? 0 then
    r ← on_dev (idewait true);
    if 0 <=? r then
      data ← on_dev (insl 0x1f0 (BSIZE / 4));
      wrb k (set_ddata data)
    else mret tt
  else mret tt.

Definition ideintr : MI unit :=
  acquire_ide ;;
  s ← get;
  match idequeue s with
  | None => release_ide
  | Some k =>
      b ← rdb k;
      modify (set_idequeue (d_qnext b)) ;;
      read_data k b ;;
      wrb k (fun b => set_dflags (Z.lor (d_flags b) B_VALID) b) ;;
      wrb k (fun b => set_dflags (Z.land (d_flags b) (Z.lnot B_DIRTY)) b) ;;
      modify (fun s => set_woken (k :: woken s) s) ;;
      s ← get;
      when (bool_decide (is_Some (idequeue s))) (idestart (idequeue s)) ;;
      release_ide
  end.

(** The walk to the end of the queue, from the buffer [k] that is in it: the
    buffer whose [qnext] is null. There are [n] buffers at most. *)
Fixpoint queue_end (n : nat) (k : nat) : MI nat :=
  match n with
  | O => out_of_fuel
  | S n =>
      b ← rdb k;
      match d_qnext b with
      | None => mret k
      | Some k' => queue_end n k'
      end
  end.

(** An operation of the sleep lock in buffer [k]. *)
Definition on_dlock {A} (k : nat) (m : M sleeplock A) : MI A := fun s =>
  match dbufs s !! k with
  | Some b =>
      match m (d_lock b) with
      | Ret a l => Ret a (set_dbufs (<[k := set_dlock l b]> (dbufs s)) s)
      | Stop w l => Stop w (set_dbufs (<[k := set_dlock l b]> (dbufs s)) s)
      end
  | None => Stop (Panicked "wild pointer") s
  end.

(** The loop that waits: with the lock held, return, or release it and sleep. *)
Definition iderw_wait (k : nat) : MI unit :=
  b ← rdb k;
  if negb (Z.land (d_flags b) (Z.lor B_VALID B_DIRTY) =? B_VALID) then release_ide ;; sleeps (ch_buf k)
  else release_ide.

(** A process that was woken takes the lock again. *)
Definition iderw_resume (k : nat) : MI unit := acquire_ide ;; iderw_wait k.

(** [me] is [myproc()->pid]. *)
Definition iderw (me : Z) (k : nat) : MI unit :=
  h ← on_dlock k (holdingsleep me);
  if negb h then panic "iderw: buf not locked"
  else
    b ← rdb k;
    if Z.land (d_flags b) (Z.lor B_VALID B_DIRTY) =? B_VALID then panic "iderw: nothing to do"
    else
      s ← get;
      if negb (d_dev b =? 0) && negb (havedisk1 s) then panic "iderw: ide disk 1 not present"
      else
        acquire_ide ;;
        wrb k (set_qnext None) ;;
        s ← get;
        match idequeue s with
        | None => modify (set_idequeue (Some k))
        | Some q =>
            e ← queue_end (length (dbufs s)) q;
            wrb e (set_qnext (Some k))
        end ;;
        s ← get;
        when (bool_decide (idequeue s = Some k)) (idestart (Some k)) ;;
        iderw_wait k.

End ide.

(** ** The disk *)

(** What the disk is doing. *)
Inductive ata_req :=
  | NoReq
  | ReadReq (drive sector : Z)
  | WriteReq (drive sector : Z).

(** A disk as seen from its ports: the registers, the command being executed,
    the sectors of each drive, and how many more times its status will say
    that it is busy. *)
Record ata := Ata {
  at_regs : Z -> Z;
  at_req : ata_req;
  at_disk : Z -> Z -> list Z;
  at_wait : nat
}.

(** The drive and the sector that the registers name. *)
Definition ata_drive (r : Z -> Z) : Z := (r 0x1f6 / 2 ^ 4) mod 2.
Definition ata_sector (r : Z -> Z) : Z := r 0x1f3 + 2 ^ 8 * r 0x1f4 + 2 ^ 16 * r 0x1f5 + 2 ^ 24 * (r 0x1f6 mod 2 ^ 4).

Definition disk_update (dr sec : Z) (bs : list Z) (dk : Z -> Z -> list Z) : Z -> Z -> list Z :=
  fun dr' sec' => if decide (dr' = dr /\ sec' = sec) then bs else dk dr' sec'.

(** Sectors that cannot be read or written are [bad]. *)
Definition stored (bad : Z -> Z -> bool) (dr sec : Z) (bs : list Z) (dk : Z -> Z -> list Z) : Z -> Z -> list Z :=
  if bad dr sec then dk else disk_update dr sec bs dk.

Definition failed (bad : Z -> Z -> bool) (r : ata_req) : bool :=
  match r with ReadReq dr sec => bad dr sec | _ => false end.

Class AtaDisk (D : Type) `{Ports D} (bad : Z -> Z -> bool) (latency : nat) := {
  ata_of : D -> ata;
  ata_latency : forall d, (at_wait (ata_of d) <= latency)%nat;
  ata_status : forall d, wp (inb 0x1f7) d (fun st d' =>
    at_regs (ata_of d') = at_regs (ata_of d) /\ at_req (ata_of d') = at_req (ata_of d) /\
    at_disk (ata_of d') = at_disk (ata_of d) /\
    if Z.land st (Z.lor IDE_BSY IDE_DRDY) =? IDE_DRDY then
      at_wait (ata_of d') = O /\ (Z.land st (Z.lor IDE_DF IDE_ERR) = 0 <-> failed bad (at_req (ata_of d)) = false)
    else (at_wait (ata_of d') < at_wait (ata_of d))%nat);
  ata_outb : forall d p v, p ∈ [0x3f6; 0x1f2; 0x1f3; 0x1f4; 0x1f5; 0x1f6] -> at_wait (ata_of d) = O ->
    wp (outb p v) d (fun _ d' => ata_of d' = Ata (<[p := v]> (at_regs (ata_of d))) (at_req (ata_of d)) (at_disk (ata_of d)) O);
  ata_read : forall d, at_wait (ata_of d) = O -> at_regs (ata_of d) 0x1f2 = 1 ->
    wp (outb 0x1f7 IDE_CMD_READ) d (fun _ d' => at_disk (ata_of d') = at_disk (ata_of d) /\
      at_req (ata_of d') = ReadReq (ata_drive (at_regs (ata_of d))) (ata_sector (at_regs (ata_of d))));
  ata_write : forall d, at_wait (ata_of d) = O -> at_regs (ata_of d) 0x1f2 = 1 ->
    wp (outb 0x1f7 IDE_CMD_WRITE) d (fun _ d' => at_disk (ata_of d') = at_disk (ata_of d) /\
      at_req (ata_of d') = WriteReq (ata_drive (at_regs (ata_of d))) (ata_sector (at_regs (ata_of d))));
  ata_insl : forall d dr sec, at_wait (ata_of d) = O -> at_req (ata_of d) = ReadReq dr sec -> bad dr sec = false ->
    wp (insl 0x1f0 128) d (fun bs d' => bs = at_disk (ata_of d) dr sec /\ at_disk (ata_of d') = at_disk (ata_of d));
  ata_outsl : forall d dr sec bs, at_req (ata_of d) = WriteReq dr sec -> length bs = 512%nat ->
    wp (outsl 0x1f0 bs) d (fun _ d' => at_disk (ata_of d') = stored bad dr sec bs (at_disk (ata_of d)))
}.

(** The registers that idestart fills in name the block. *)
Lemma ata_names dv n (r : Z -> Z) : 0 <= n < FSSIZE ->
  r 0x1f3 = Z.land n 0xff -> r 0x1f4 = Z.land (Z.shiftr n 8) 0xff -> r 0x1f5 = Z.land (Z.shiftr n 16) 0xff ->
  r 0x1f6 = Z.lor (Z.lor 0xe0 (Z.shiftl (Z.land dv 1) 4)) (Z.land (Z.shiftr n 24) 0x0f) ->
  ata_drive r = Z.land dv 1 /\ ata_sector r = n.
Proof.
  unfold FSSIZE. intros Hn E3 E4 E5 E6. unfold ata_drive, ata_sector. rewrite E3, E4, E5, E6. clear E3 E4 E5 E6.
  rewrite !Z.shiftr_div_pow2 by lia. rewrite (Z.div_small n (2 ^ 16)), (Z.div_small n (2 ^ 24)) by lia.
  change 1 with (Z.ones 1). rewrite (Z.land_ones dv) by lia. change (2 ^ 1) with 2.
  change 0xff with (Z.ones 8). rewrite !Z.land_ones by lia.
  pose proof (Z.mod_pos_bound dv 2 ltac:(lia)). assert (dv mod 2 = 0 \/ dv mod 2 = 1) as [-> | ->] by lia.
  all: split; [done|]. all: change (0 mod 2 ^ 8) with 0.
  all: match goal with |- context [Z.lor ?a ?b mod ?c] => change (Z.lor a b mod c) with 0 end.
  all: rewrite (Z.mod_small (n / 2 ^ 8)) by (split; [apply Z.div_pos|apply Z.div_lt_upper_bound]; lia).
  all: pose proof (Z.div_mod n (2 ^ 8) ltac:(lia)); lia.
Qed.

(** ** What the driver promises: a queue of requests, served in order *)

Definition dirty (b : dbuf) : bool := negb (Z.land (d_flags b) B_DIRTY =? 0).
Definition clean (b : dbuf) : bool := Z.land (d_flags b) (Z.lor B_VALID B_DIRTY) =? B_VALID.
Definition drive (b : dbuf) : Z := Z.land (d_dev b) 1.

(** The buffers that wait, the contents of the disk when the requests before
    them are done, the buffers without their links, and the buffers whose
    requests are done, the last one first. *)
Record server := Server {
  sv_queue : list nat;
  sv_disk : Z -> Z -> list Z;
  sv_bufs : list dbuf;
  sv_done : list nat
}.

Inductive ide_event :=
  | Submit (me : Z) (k : nat)       (* a process calls iderw *)
  | Interrupt                       (* the disk interrupts *)
  | Use (k : nat) (b : dbuf).       (* the holder of a buffer changes it *)

(** A request is done: the buffer is written out or filled. *)
Definition complete (bad : Z -> Z -> bool) (b : dbuf) (dk : Z -> Z -> list Z) : dbuf * (Z -> Z -> list Z) :=
  let b' := set_dflags (Z.land (Z.lor (d_flags b) B_VALID) (Z.lnot B_DIRTY)) b in
  if dirty b then (b', stored bad (drive b) (d_blockno b) (d_data b) dk)
  else (if bad (drive b) (d_blockno b) then b' else set_ddata (dk (drive b) (d_blockno b)) b', dk).

Definition held_by (me : Z) (l : sleeplock) : bool :=
  negb (sl_lk l) && (negb (sl_locked l =? 0) && (sl_pid l =? me)).

(** A buffer with room for a block of the disk. *)
Definition dbuf_ok (b : dbuf) : bool :=
  (0 <=? d_blockno b) && (d_blockno b <? FSSIZE) && bool_decide (length (d_data b) = 512%nat).

Definition serve (bad : Z -> Z -> bool) (disk1 : bool) (e : ide_event) (a : server) : option server :=
  match e with
  | Submit me k =>
      b ← sv_bufs a !! k;
      if bool_decide (k ∉ sv_queue a) && held_by me (d_lock b) && negb (clean b) &&
         ((d_dev b =? 0) || disk1) && dbuf_ok b
      then Some (Server (sv_queue a ++ [k]) (sv_disk a) (sv_bufs a) (sv_done a))
      else None
  | Interrupt =>
      match sv_queue a with
      | [] => Some a
      | k :: q =>
          b ← sv_bufs a !! k;
          let r := complete bad b (sv_disk a) in
          Some (Server q r.2 (<[k := r.1]> (sv_bufs a)) (k :: sv_done a))
      end
  | Use k b =>
      if bool_decide (k ∉ sv_queue a) then Some (Server (sv_queue a) (sv_disk a) (<[k := set_qnext None b]> (sv_bufs a)) (sv_done a))
      else None
  end.

(** The requests made by a sequence of events, in order. *)
Definition submitted (evs : list ide_event) : list nat :=
  omap (fun e => match e with Submit _ k => Some k | _ => None end) evs.

Fixpoint serve_all (bad : Z -> Z -> bool) (disk1 : bool) (evs : list ide_event) (a : server) : option server :=
  match evs with
  | [] => Some a
  | e :: evs => a' ← serve bad disk1 e a; serve_all bad disk1 evs a'
  end.

(** First come, first served. *)
Lemma serve_in_order bad disk1 evs a a' :
  serve_all bad disk1 evs a = Some a' ->
  reverse (sv_done a') ++ sv_queue a' = reverse (sv_done a) ++ sv_queue a ++ submitted evs.
Proof.
  revert a; induction evs as [|e evs IH]; intros a H; cbn [serve_all] in H.
  { injection H as <-. cbn. by rewrite app_nil_r. }
  apply bind_Some in H as (a1 & H1 & H2). rewrite (IH a1 H2). clear IH H2 a'. unfold submitted. cbn [omap list_omap].
  destruct e as [me k| |k b]; cbn [serve] in H1.
  - apply bind_Some in H1 as (b & _ & H1). case_match; [|done]. injection H1 as <-. cbn. by rewrite <- app_assoc.
  - destruct (sv_queue a) as [|k q] eqn:Eq; [by injection H1 as <-; rewrite Eq|].
    apply bind_Some in H1 as (b & _ & H1). injection H1 as <-. cbn [sv_done sv_queue].
    by rewrite reverse_cons, <- app_assoc.
  - case_match; [|done]. by injection H1 as <-.
Qed.

(** ** The linked queue *)

Fixpoint links (bs : list dbuf) (h : option nat) (q : list nat) : Prop :=
  match q with
  | [] => h = None
  | k :: q => h = Some k /\ exists b, bs !! k = Some b /\ links bs (d_qnext b) q
  end.

Lemma links_ext bs bs' h q :
  (forall k, k ∈ q -> d_qnext <$> bs' !! k = d_qnext <$> bs !! k) -> links bs h q -> links bs' h q.
Proof.
  revert h; induction q as [|k q IH]; intros h He; cbn [links]; [done|]. intros (-> & b & Hb & Hl). split; [done|].
  pose proof (He k ltac:(set_solver)) as Ek. rewrite Hb in Ek. apply fmap_Some in Ek as (b' & Hb' & E). exists b'.
  split; [done|]. rewrite <- E. apply IH; [|done]. set_solver.
Qed.

Lemma links_insert_ne bs h q k b : k ∉ q -> links bs h q -> links (<[k := b]> bs) h q.
Proof. intros Hk. apply links_ext. intros j Hj. by rewrite list_lookup_insert_ne by (by intros ->). Qed.

Lemma links_insert_same bs h q k b b' :
  bs !! k = Some b -> d_qnext b' = d_qnext b -> links bs h q -> links (<[k := b']> bs) h q.
Proof.
  intros Hb E. apply links_ext. intros j Hj. destruct (decide (j = k)) as [->|].
  - rewrite Hb, list_lookup_insert_eq by (by eapply lookup_lt_Some). cbn. by rewrite E.
  - by rewrite list_lookup_insert_ne.
Qed.

Lemma links_lookup bs h q k : links bs h q -> k ∈ q -> is_Some (bs !! k).
Proof.
  revert h; induction q as [|k' q IH]; intros h; [set_solver|]. cbn [links]. intros (-> & b & Hb & Hl) [->|Hk]%elem_of_cons; [done|].
  by eapply IH.
Qed.

Lemma links_length bs h q : NoDup q -> links bs h q -> (length q <= length bs)%nat.
Proof.
  intros Hnd Hl. rewrite <- (length_seq (length bs) 0). apply submseteq_length, NoDup_submseteq; [done|].
  intros k Hk. apply elem_of_seq. destruct (links_lookup _ _ _ _ Hl Hk) as [b Hb%lookup_lt_Some]. lia.
Qed.

Lemma links_app bs h q k e b be :
  links bs h (q ++ [e]) -> e ∉ q -> k ∉ q ++ [e] -> bs !! k = Some b -> d_qnext b = None -> bs !! e = Some be ->
  links (<[e := set_qnext (Some k) be]> bs) h ((q ++ [e]) ++ [k]).
Proof.
  revert h; induction q as [|j q IH]; intros h; cbn [links app].
  - intros (-> & b' & Hb' & _) _ Hk Hb Hn Hbe. split; [done|]. exists (set_qnext (Some k) be).
    split; [by rewrite list_lookup_insert_eq by (by eapply lookup_lt_Some)|]. split; [done|]. exists b.
    split; [|done]. rewrite list_lookup_insert_ne; [done|]. set_solver.
  - intros (-> & b' & Hb' & Hl) He Hk Hb Hn Hbe. split; [done|]. exists b'.
    split; [rewrite list_lookup_insert_ne; [done|set_solver]|]. apply IH; try done; set_solver.
Qed.

(** The queue as pending requests: a last element can be split off. *)
Lemma queue_split {A} (k : A) q : exists q' e, k :: q = q' ++ [e].
Proof. destruct (exists_last (l := k :: q)) as (q' & e & E); [done|by exists q', e]. Qed.

Section driver.
Context {D : Type} {P : Ports D} {bad : Z -> Z -> bool} {latency : nat} {AD : AtaDisk D bad latency}.
Implicit Types s : ide D.

Notation fuel := (S latency).
Notation dev_disk d := (at_disk (ata_of d)).

Lemma idewait_spec check d :
  wp (idewait fuel check) d (fun r d' => at_wait (ata_of d') = O /\ dev_disk d' = dev_disk d /\
    at_req (ata_of d') = at_req (ata_of d) /\ r = if check && failed bad (at_req (ata_of d)) then -1 else 0).
Proof.
  unfold idewait. pose proof (ata_latency d) as Hn. assert (at_wait (ata_of d) < fuel)%nat as Hlt by lia. clear Hn.
  revert d Hlt. induction fuel as [|n IH]; intros d Hlt; [lia|]. cbn [idewait_loop]. apply wp_bind.
  eapply wp_mono; [|apply ata_status]. intros st d1 (_ & Er & Ed & Hst). destruct (_ =? IDE_DRDY); cbn [negb].
  - destruct Hst as [Hw Hf]. destruct (failed bad _) eqn:Ef.
    + assert (Z.land st (Z.lor IDE_DF IDE_ERR) =? 0 = false) as -> by (apply Z.eqb_neq; intros E; by apply Hf in E).
      cbn [negb]. rewrite !andb_true_r. destruct check; by apply wpe_ret.
    + rewrite (proj2 Hf) by done. cbn. rewrite !andb_false_r. by apply wpe_ret.
  - rewrite <- Er, <- Ed. apply IH. lia.
Qed.

(** The disk works on the request of a buffer. *)
Definition started (b : dbuf) (dk : Z -> Z -> list Z) (d : D) : Prop :=
  if dirty b then dev_disk d = stored bad (drive b) (d_blockno b) (d_data b) dk
  else dev_disk d = dk /\ at_req (ata_of d) = ReadReq (drive b) (d_blockno b).

Lemma wp_on_dev {A} (m : M D A) s (Q : A -> ide D -> Prop) :
  wp m (id_dev s) (fun a d => Q a (set_dev d s)) -> wp (on_dev m) s Q.
Proof. unfold on_dev, wp, wpe, zoom. cbn [view update]. by destruct (m _). Qed.

Lemma wpe_rdb k b s (Q : dbuf -> ide D -> Prop) E : dbufs s !! k = Some b -> Q b s -> wpe (rdb k) s Q E.
Proof. intros Hb HQ. unfold rdb. apply wpe_bind, wpe_get. by rewrite Hb. Qed.

Lemma wpe_wrb k b f s (Q : unit -> ide D -> Prop) E :
  dbufs s !! k = Some b -> Q tt (set_dbufs (<[k := f b]> (dbufs s)) s) -> wpe (wrb k f) s Q E.
Proof. intros Hb HQ. unfold wrb. apply wpe_bind. by apply (wpe_rdb k b). Qed.

Lemma wpe_acquire_ide s (Q : unit -> ide D -> Prop) E : idelock s = false -> Q tt (set_idelock true s) -> wpe acquire_ide s Q E.
Proof. intros Hl HQ. unfold acquire_ide. apply wpe_bind, wpe_get. by rewrite Hl. Qed.

Lemma wpe_release_ide s (Q : unit -> ide D -> Prop) E : idelock s = true -> Q tt (set_idelock false s) -> wpe release_ide s Q E.
Proof. intros Hl HQ. unfold release_ide. apply wpe_bind, wpe_get. by rewrite Hl. Qed.

(** One command register. *)
Lemma wp_outb_reg {A} p v d (r : Z -> Z) (k : M D A) (Q : A -> D -> Prop) :
  p ∈ [0x3f6; 0x1f2; 0x1f3; 0x1f4; 0x1f5; 0x1f6] -> at_wait (ata_of d) = O -> at_regs (ata_of d) = r ->
  (forall d', at_wait (ata_of d') = O -> at_regs (ata_of d') = <[p := v]> r -> dev_disk d' = dev_disk d -> wp k d' Q) ->
  wp (outb p v ;; k) d Q.
Proof.
  intros Hp Hw <- Hk. apply wp_bind. eapply wp_mono; [|by apply ata_outb]. intros [] d' E. apply Hk; by rewrite E.
Qed.

Lemma idestart_spec k b s :
  dbufs s !! k = Some b -> dbuf_ok b = true ->
  wp (idestart fuel (Some k)) s (fun _ s' => exists d', s' = set_dev d' s /\ started b (dev_disk (id_dev s)) d').
Proof.
  intros Hb Hok. unfold dbuf_ok in Hok. rewrite !andb_true_iff, Z.leb_le, Z.ltb_lt, bool_decide_eq_true in Hok.
  destruct Hok as [[H0 H1] Hlen]. unfold idestart. apply wp_bind, (wpe_rdb k b); [done|].
  rewrite (proj2 (Z.leb_gt _ _)) by done. change (BSIZE / SECTOR_SIZE) with 1. cbn [Z.ltb Z.eqb Z.compare Pos.compare Pos.compare_cont Pos.eqb].
  rewrite Z.mul_1_r, i32_small by (unfold in_i32, FSSIZE in *; lia). change (u8 1) with 1.
  apply wp_on_dev. apply wp_bind. eapply wp_mono; [|apply idewait_spec]. intros r d0 (Hw0 & Ed0 & _). rewrite <- Ed0. clear Ed0 r.
  eapply wp_outb_reg; [set_solver|done|done|]. intros d1 Hw1 Er1 Ed1. rewrite <- Ed1.
  eapply wp_outb_reg; [set_solver|done|done|]. intros d2 Hw2 Er2 Ed2. rewrite <- Ed2.
  eapply wp_outb_reg; [set_solver|done|done|]. intros d3 Hw3 Er3 Ed3. rewrite <- Ed3.
  eapply wp_outb_reg; [set_solver|done|done|]. intros d4 Hw4 Er4 Ed4. rewrite <- Ed4.
  eapply wp_outb_reg; [set_solver|done|done|]. intros d5 Hw5 Er5 Ed5. rewrite <- Ed5.
  eapply wp_outb_reg; [set_solver|done|done|]. intros d6 Hw6 Er6 Ed6. rewrite <- Ed6.
  destruct (ata_names (d_dev b) (d_blockno b) (at_regs (ata_of d6))) as [Edr Esec];
    [done|by rewrite Er6..|].
  assert (Ec : at_regs (ata_of d6) 0x1f2 = 1) by by rewrite Er6. unfold started, dirty.
  destruct (negb _).
  - apply wp_bind. eapply wp_mono; [|by apply ata_write]. intros [] d7 [Ed7 Eq7]. rewrite Edr, Esec in Eq7.
    eapply wp_mono; [|by apply (ata_outsl d7 _ _ _ Eq7)]. intros [] d8 E8. exists d8. split; [done|]. by rewrite E8, Ed7.
  - eapply wp_mono; [|by apply ata_read]. intros [] d7 [Ed7 Eq7]. exists d7. rewrite Edr, Esec in Eq7. done.
Qed.

(** The driver's state is that of the server. *)
Record serves (disk1 : bool) (s : ide D) (a : server) : Prop := {
  srv_lock : idelock s = false;
  srv_disk1 : havedisk1 s = disk1;
  srv_nodup : NoDup (sv_queue a);
  srv_links : links (dbufs s) (idequeue s) (sv_queue a);
  srv_bufs : set_qnext None <$> dbufs s = sv_bufs a;
  srv_pending : forall k b, k ∈ sv_queue a -> dbufs s !! k = Some b -> clean b = false /\ dbuf_ok b = true;
  srv_dev : match idequeue s with
            | None => dev_disk (id_dev s) = sv_disk a
            | Some k => exists b, dbufs s !! k = Some b /\ started b (sv_disk a) (id_dev s)
            end;
  srv_woken : woken s = sv_done a
}.

Lemma set_ddata_id b : set_ddata (d_data b) b = b.
Proof. by destruct b. Qed.

Lemma read_data_spec k b dk s :
  dbufs s !! k = Some b -> started b dk (id_dev s) ->
  wp (read_data fuel k b) s (fun _ s' => exists d',
    s' = set_dev d' (set_dbufs (<[k := set_ddata (d_data (complete bad b dk).1) b]> (dbufs s)) s) /\
    dev_disk d' = (complete bad b dk).2).
Proof.
  intros Hb. unfold started, read_data, complete. unfold dirty.
  assert (Hid : <[k := set_ddata (d_data b) b]> (dbufs s) = dbufs s) by (rewrite set_ddata_id; by apply list_insert_id).
  destruct (Z.land (d_flags b) B_DIRTY =? 0); cbn [negb].
  2:{ intros Ed. apply wpe_ret. exists (id_dev s). split; [|done]. cbn [fst d_data set_dflags]. rewrite Hid. by destruct s. }
  intros [Ed Er]. apply wp_bind, wp_on_dev. eapply wp_mono; [|apply idewait_spec]. intros r d1 (Hw & Ed1 & Er1 & ->).
  rewrite Er in Er1. rewrite Er. cbn [failed andb]. destruct (bad (drive b) (d_blockno b)) eqn:Eb; cbn [Z.leb Z.compare].
  - apply wpe_ret. exists d1. cbn [fst snd d_data set_dflags]. rewrite Hid. split; [by destruct s|]. by rewrite Ed1.
  - apply wp_bind, wp_on_dev. eapply wp_mono; [|by apply (ata_insl d1 _ _ Hw Er1)]. intros bs d2 [-> Ed2].
    apply (wpe_wrb k b); [done|]. exists d2. cbn [fst snd d_data set_dflags set_ddata]. rewrite Ed1, Ed in *. split; [done|]. by rewrite Ed2.
Qed.

(** What ideintr stores in a buffer. *)
Lemma complete_fields b dk :
  (complete bad b dk).1 = set_dflags (Z.land (Z.lor (d_flags b) B_VALID) (Z.lnot B_DIRTY)) (set_ddata (d_data (complete bad b dk).1) b).
Proof. unfold complete. destruct (dirty b), (bad (drive b) (d_blockno b)); by destruct b. Qed.

Lemma complete_erase b dk :
  complete bad (set_qnext None b) dk = (set_qnext None (complete bad b dk).1, (complete bad b dk).2).
Proof.
  unfold complete. change (dirty (set_qnext None b)) with (dirty b).
  change (bad (drive (set_qnext None b)) (d_blockno (set_qnext None b))) with (bad (drive b) (d_blockno b)).
  by destruct (dirty b), (bad (drive b) (d_blockno b)).
Qed.

(** The active request is done. *)
Lemma wp_transfer k b dk s {A} (m : M (ide D) A) (Q : A -> ide D -> Prop) :
  dbufs s !! k = Some b -> started b dk (id_dev s) ->
  (forall d', dev_disk d' = (complete bad b dk).2 ->
     wp m (set_dev d' (set_dbufs (<[k := (complete bad b dk).1]> (dbufs s)) s)) Q) ->
  wp (read_data fuel k b ;;
      wrb k (fun b => set_dflags (Z.lor (d_flags b) B_VALID) b) ;;
      wrb k (fun b => set_dflags (Z.land (d_flags b) (Z.lnot B_DIRTY)) b) ;; m) s Q.
Proof.
  intros Hb Hst Hm. assert (Hlt : (k < length (dbufs s))%nat) by by eapply lookup_lt_Some.
  apply wp_bind. eapply wp_mono; [|by apply (read_data_spec k b dk)]. intros [] s1 (d1 & -> & Ed1).
  apply wp_bind. eapply wpe_wrb; [cbn; by apply list_lookup_insert_eq|].
  apply wp_bind. eapply wpe_wrb; [cbn; rewrite list_insert_insert_eq; by apply list_lookup_insert_eq|].
  specialize (Hm d1 Ed1). rewrite complete_fields in Hm. cbn in Hm |- *. by rewrite !list_insert_insert_eq.
Qed.

(** Starting the next request, if there is one. *)
Lemma wp_start_next s {A} (m : M (ide D) A) (Q : A -> ide D -> Prop) :
  (forall k, idequeue s = Some k -> exists b, dbufs s !! k = Some b /\ dbuf_ok b = true) ->
  (forall d', match idequeue s with
              | None => dev_disk d' = dev_disk (id_dev s)
              | Some k => exists b, dbufs s !! k = Some b /\ started b (dev_disk (id_dev s)) d'
              end -> wp m (set_dev d' s) Q) ->
  wp (when (bool_decide (is_Some (idequeue s))) (idestart fuel (idequeue s)) ;; m) s Q.
Proof.
  intros Hok Hm. apply wp_bind. destruct (idequeue s) as [k|] eqn:Eq.
  - destruct (Hok k eq_refl) as (b & Hb & Hbok). rewrite bool_decide_true by done. cbn [when].
    eapply wp_mono; [|by apply (idestart_spec k b)]. intros [] s' (d' & -> & Hst). apply Hm. by exists b.
  - rewrite bool_decide_false by (by intros []). apply wpe_ret. specialize (Hm (id_dev s) eq_refl). by destruct s.
Qed.

Lemma interrupt_serves disk1 s a a' :
  serves disk1 s a -> serve bad disk1 Interrupt a = Some a' ->
  wp (ideintr fuel) s (fun _ s' => serves disk1 s' a').
Proof.
  intros [Hl Hd1 Hnd Hlk Hbs Hpd Hdev Hwk] Hs. cbn [serve] in Hs. unfold ideintr.
  apply wp_bind, wpe_acquire_ide; [done|]. apply wp_bind, wpe_get. cbn [idequeue set_idelock].
  destruct (sv_queue a) as [|k q] eqn:Eq; cbn [links] in Hlk.
  { rewrite Hlk in *. apply wpe_release_ide; [done|]. injection Hs as <-. split; try done; cbn [dbufs set_idelock idequeue].
    - by rewrite Eq.
    - by rewrite Eq, Hlk.
    - by rewrite Eq.
    - by rewrite Hlk. }
  destruct Hlk as (Hq & b & Hb & Hlk). rewrite Hq in *. destruct Hdev as (b' & Hb' & Hst). simplify_eq.
  rewrite <- Hbs, list_lookup_fmap, Hb in Hs. cbn [fmap option_fmap option_map mbind option_bind] in Hs.
  rewrite complete_erase in Hs. cbn [fst snd] in Hs. injection Hs as <-.
  apply NoDup_cons in Hnd as [Hk Hnd].
  assert (Hne : forall j b0, j ∈ q -> <[k := b0]> (dbufs s) !! j = dbufs s !! j).
  { intros j b0 Hj. apply list_lookup_insert_ne. by intros ->. }
  apply wp_bind, (wpe_rdb k b); [done|]. apply wp_bind, wpe_modify. apply wp_transfer with (dk := sv_disk a); [done|done|].
  intros d1 Ed1. apply wp_bind, wpe_modify, wp_bind, wpe_get. apply wp_start_next.
  { cbn. intros j Hj. destruct q as [|j' q]; cbn in Hlk; [congruence|]. destruct Hlk as (Hj' & bj & Hbj & _).
    assert (j' = j) as -> by congruence. exists bj. rewrite Hne by set_solver. split; [done|]. by apply (Hpd j); [set_solver|]. }
  intros d2 Hd2. apply wpe_release_ide; [done|]. cbn in Hd2 |- *. split; cbn; try done.
  - by apply links_insert_ne.
  - by rewrite list_fmap_insert.
  - intros j bj Hj Hbj. rewrite Hne in Hbj by done. apply (Hpd j); [set_solver|done].
  - by rewrite <- Ed1.
  - by rewrite Hwk.
Qed.

Lemma queue_end_spec n h q e s :
  links (dbufs s) (Some h) (q ++ [e]) -> (length q < n)%nat -> wp (queue_end n h) s (fun r s' => r = e /\ s' = s).
Proof.
  revert n h; induction q as [|k q IH]; intros [|n] h Hl Hn; cbn in Hn; try lia; cbn [app links queue_end] in *;
    destruct Hl as ([= ->] & b & Hb & Hl); apply wp_bind, (wpe_rdb _ b); try done.
  - by rewrite Hl.
  - destruct (d_qnext b) as [k'|] eqn:Ek; [|by destruct q as [|? ?]; destruct Hl].
    apply IH; [done|lia].
Qed.

Lemma holding_spec me k b s (Q : bool -> ide D -> Prop) E :
  dbufs s !! k = Some b -> held_by me (d_lock b) = true -> Q true s -> wpe (on_dlock k (holdingsleep me)) s Q E.
Proof.
  unfold held_by. rewrite andb_true_iff, negb_true_iff. intros Hb [Hlk Hh] HQ. unfold wpe, on_dlock. rewrite Hb.
  unfold holdingsleep, acquire_lk, release_lk, get, put, mbind, M_bind, mret, M_ret. rewrite Hlk. cbn [sl_lk set_sl_lk sl_locked sl_pid].
  rewrite Hh. assert (set_dlock (set_sl_lk false (set_sl_lk true (d_lock b))) b = b) as ->.
  { destruct b as [? ? ? [? ? ? ? ?] ? ?]. cbn in *. by subst. }
  rewrite list_insert_id by done. by destruct s.
Qed.

(** The append to the queue. *)
Lemma wp_enqueue k b q s {A} (m : M (ide D) A) (Q : A -> ide D -> Prop) E :
  dbufs s !! k = Some b -> d_qnext b = None -> k ∉ q -> NoDup q -> links (dbufs s) (idequeue s) q ->
  (forall bs h, links bs h (q ++ [k]) -> set_qnext None <$> bs = set_qnext None <$> dbufs s ->
     h = match q with [] => Some k | _ => idequeue s end ->
     (forall j bj, bs !! j = Some bj -> exists bj', dbufs s !! j = Some bj' /\ set_qnext None bj = set_qnext None bj') ->
     wpe m (set_dbufs bs (set_idequeue h s)) Q E) ->
  wpe (match idequeue s with
       | None => modify (set_idequeue (Some k))
       | Some q0 => e ← queue_end (length (dbufs s)) q0; wrb e (set_qnext (Some k))
       end ;; m) s Q E.
Proof.
  intros Hb Hbn Hk Hnd Hl Hm. apply wpe_bind. destruct q as [|k0 q].
  { cbn in Hl. rewrite Hl. apply wpe_modify. specialize (Hm (dbufs s) (Some k)).
    cbn [links app] in Hm. destruct s. apply Hm; try done; [|naive_solver]. split; [done|]. by exists b. }
  destruct (queue_split k0 q) as (q' & e & Eq). pose proof Hl as [Hh _]. rewrite Hh in *. rewrite Eq in *.
  destruct (links_lookup _ _ _ e Hl ltac:(set_solver)) as [be Hbe].
  apply wpe_bind. eapply wpe_mono; [| |apply (queue_end_spec _ _ q' e); [exact Hl|]].
  - intros r s' [-> ->]. apply (wpe_wrb e be); [done|].
      specialize (Hm (<[e := set_qnext (Some k) be]> (dbufs s)) (Some k0)).
      assert (Es : set_idequeue (Some k0) s = s) by (destruct s; cbn in *; by subst). rewrite Es in Hm. apply Hm.
      * apply links_app with (b := b); try done. apply NoDup_app in Hnd as (_ & Hnd & _). intros He. by apply (Hnd e He); set_solver.
      * rewrite list_fmap_insert. apply list_insert_id. by rewrite list_lookup_fmap, Hbe.
      * by destruct q'.
      * intros j bj Hj. destruct (decide (j = e)) as [->|Hne].
        -- rewrite list_lookup_insert_eq in Hj by (by eapply lookup_lt_Some). simplify_eq. by exists be.
        -- rewrite list_lookup_insert_ne in Hj by done. by exists bj.
  - done.
  - pose proof (links_length _ _ _ Hnd Hl) as Hlen. rewrite length_app in Hlen. cbn in Hlen. lia.
Qed.

Lemma erase_fields b b' : set_qnext None b = set_qnext None b' ->
  d_flags b' = d_flags b /\ d_dev b' = d_dev b /\ d_blockno b' = d_blockno b /\ d_data b' = d_data b.
Proof. destruct b, b'. cbn. by intros [= -> -> -> -> ->]. Qed.

Lemma erase_ext b b' dk d : set_qnext None b = set_qnext None b' ->
  (started b dk d <-> started b' dk d) /\ clean b' = clean b /\ dbuf_ok b' = dbuf_ok b.
Proof.
  intros H. apply erase_fields in H as (E1 & E2 & E3 & E4).
  unfold started, dirty, drive, clean, dbuf_ok. by rewrite E1, E2, E3, E4.
Qed.

Lemma erase_lookup s s' k b : set_qnext None <$> dbufs s' = set_qnext None <$> dbufs s -> dbufs s !! k = Some b ->
  exists b', dbufs s' !! k = Some b' /\ set_qnext None b' = set_qnext None b.
Proof.
  intros E Hb. assert ((set_qnext None <$> dbufs s') !! k = Some (set_qnext None b)) as H by by rewrite E, list_lookup_fmap, Hb.
  rewrite list_lookup_fmap in H. apply fmap_Some in H as (b' & ? & ?). by exists b'.
Qed.

(** The wait of a request that was just made. *)
Lemma iderw_wait_sleeps k b s (Q : unit -> ide D -> Prop) E :
  idelock s = true -> dbufs s !! k = Some b -> clean b = false -> E (Sleeping (ch_buf k)) (set_idelock false s) ->
  wpe (iderw_wait k) s Q E.
Proof.
  intros Hl Hb Hc HE. unfold iderw_wait, clean in *. apply wpe_bind. apply (wpe_rdb k b); [done|]. rewrite Hc. cbn [negb].
  by apply wpe_bind, wpe_release_ide.
Qed.

(** The end of iderw, when the buffer is in the queue. *)
Lemma start_and_wait k q dk s :
  idelock s = true -> links (dbufs s) (idequeue s) (q ++ [k]) -> NoDup (q ++ [k]) ->
  (forall j b, j ∈ q ++ [k] -> dbufs s !! j = Some b -> clean b = false /\ dbuf_ok b = true) ->
  match q with
  | [] => dev_disk (id_dev s) = dk
  | k0 :: _ => exists b0, dbufs s !! k0 = Some b0 /\ started b0 dk (id_dev s)
  end ->
  wpe (s ← get; when (bool_decide (idequeue s = Some k)) (idestart fuel (Some k)) ;; iderw_wait k) s
    (fun _ _ => False) (fun w s' => w = Sleeping (ch_buf k) /\
      serves (havedisk1 s) s' (Server (q ++ [k]) dk (set_qnext None <$> dbufs s) (woken s))).
Proof.
  intros Hl Hlk Hnd Hpd Hdev. destruct (links_lookup _ _ _ k Hlk ltac:(set_solver)) as [b Hb].
  destruct (Hpd k b ltac:(set_solver) Hb) as [Hc Hok]. apply wpe_bind, wpe_get.
  destruct q as [|k0 q]; pose proof Hlk as [Hh _]; cbn [app] in Hh.
  - rewrite bool_decide_true by done. cbn [when]. apply wpe_bind.
    eapply wpe_mono; [| |by apply (idestart_spec k b)]; [|done]. intros [] s' (d' & -> & Hst).
    apply (iderw_wait_sleeps k b); [done..|]. split; [done|]. split; cbn; try done. rewrite Hh. exists b. by rewrite <- Hdev.
  - rewrite bool_decide_false by (rewrite Hh; intros [= ->]; apply NoDup_cons in Hnd; set_solver). apply wpe_bind, wpe_ret.
    apply (iderw_wait_sleeps k b); [done..|]. split; [done|]. split; cbn; try done. by rewrite Hh.
Qed.

Lemma submit_serves disk1 me k s a a' :
  serves disk1 s a -> serve bad disk1 (Submit me k) a = Some a' ->
  wpe (iderw fuel me k) s (fun _ _ => False) (fun w s' => w = Sleeping (ch_buf k) /\ serves disk1 s' a').
Proof.
  intros [Hl Hd1 Hnd Hlk Hbs Hpd Hdev Hwk] Hs. cbn [serve] in Hs. apply bind_Some in Hs as (b0 & Hb0 & Hs).
  destruct (_ && dbuf_ok b0) eqn:Hg in Hs; [|done]. injection Hs as <-.
  rewrite !andb_true_iff, bool_decide_eq_true, negb_true_iff in Hg. destruct Hg as [[[[Hk Hh] Hc] Hdv] Hok].
  rewrite <- Hbs, list_lookup_fmap in Hb0. apply fmap_Some in Hb0 as (b & Hb & ->).
  change (clean b = false) in Hc. change (held_by me (d_lock b) = true) in Hh. change (dbuf_ok b = true) in Hok.
  change ((d_dev b =? 0) || disk1 = true) in Hdv.
  unfold iderw. apply wpe_bind, (holding_spec me k b); [done..|]. cbn [negb]. apply wpe_bind, (wpe_rdb k b); [done|].
  unfold clean in Hc. rewrite Hc. apply wpe_bind, wpe_get. rewrite Hd1.
  assert (negb (d_dev b =? 0) && negb disk1 = false) as -> by (by destruct (d_dev b =? 0), disk1).
  apply wpe_bind, wpe_acquire_ide; [done|]. apply wpe_bind, (wpe_wrb k b); [done|].
  apply wpe_bind, wpe_get.
  assert (Her : set_qnext None <$> <[k := set_qnext None b]> (dbufs s) = set_qnext None <$> dbufs s).
  { rewrite list_fmap_insert. apply list_insert_id. by rewrite list_lookup_fmap, Hb. }
  assert (Hlt : (k < length (dbufs s))%nat) by by eapply lookup_lt_Some.
  apply (wp_enqueue k (set_qnext None b) (sv_queue a)); try done; cbn [dbufs set_dbufs set_idelock idequeue].
  { by apply list_lookup_insert_eq. }
  { by apply links_insert_ne. }
  intros bs h Hlk' Hbs' Hh' _. rewrite Her in Hbs'. cbn [set_dbufs dbufs] in Hbs'.
  set (s1 := set_dbufs bs _). assert (Ha : sv_bufs a = set_qnext None <$> dbufs s1) by by rewrite <- Hbs.
  rewrite Ha, <- Hwk, <- Hd1. apply (start_and_wait k (sv_queue a) (sv_disk a) s1); [done|done| | |].
  - apply NoDup_app. split; [done|]. split; [set_solver|by apply NoDup_singleton].
  - intros j bj Hj Hbj. destruct (erase_lookup s1 s j bj (eq_sym Hbs') Hbj) as (bj0 & Hbj0 & Ebj).
    destruct (erase_ext _ _ (sv_disk a) (id_dev s) Ebj) as (_ & -> & ->).
    apply elem_of_app in Hj as [Hj| ->%list_elem_of_singleton]; [by apply (Hpd j)|]. by simplify_eq.
  - destruct (sv_queue a) as [|k0 q]; cbn in Hlk; [by rewrite Hlk in Hdev|]. destruct Hlk as [Hk0 _]. rewrite Hk0 in Hdev.
    destruct Hdev as (b0 & Hb0 & Hst). destruct (erase_lookup s s1 k0 b0 Hbs' Hb0) as (b1 & Hb1 & Eb1). exists b1.
    split; [done|]. by apply (erase_ext _ _ _ _ Eb1).
Qed.

(** ** The driver under any sequence of events *)

(** A process that submits a request is expected to go to sleep on it, the
    interrupt handler to return. *)
Definition ide_step (e : ide_event) (s : ide D) : option (ide D) :=
  match e with
  | Submit me k =>
      match iderw fuel me k s with
      | Stop (Sleeping (ch_buf j)) s' => if decide (j = k) then Some s' else None
      | _ => None
      end
  | Interrupt => match ideintr fuel s with Ret _ s' => Some s' | Stop _ _ => None end
  | Use k b => Some (set_dbufs (alter (fun o => set_qnext (d_qnext o) b) k (dbufs s)) s)
  end.

Fixpoint ide_steps (evs : list ide_event) (s : ide D) : option (ide D) :=
  match evs with
  | [] => Some s
  | e :: evs => s' ← ide_step e s; ide_steps evs s'
  end.

Lemma use_serves disk1 k b s a a' :
  serves disk1 s a -> serve bad disk1 (Use k b) a = Some a' ->
  serves disk1 (set_dbufs (alter (fun o => set_qnext (d_qnext o) b) k (dbufs s)) s) a'.
Proof.
  intros [Hl Hd1 Hnd Hlk Hbs Hpd Hdev Hwk] Hs. cbn [serve] in Hs. case_bool_decide as Hk; [|done]. injection Hs as <-.
  assert (Hne : forall j, j ∈ sv_queue a -> alter (fun o => set_qnext (d_qnext o) b) k (dbufs s) !! j = dbufs s !! j).
  { intros j Hj. apply list_lookup_alter_ne. by intros ->. }
  split; cbn; try done.
  - eapply links_ext; [|exact Hlk]. intros j Hj. by rewrite Hne.
  - apply list_eq. intros j. rewrite <- Hbs, list_lookup_fmap. destruct (decide (j = k)) as [->|Hj].
    + rewrite list_lookup_alter_eq. destruct (dbufs s !! k) as [o|] eqn:Ho; cbn.
      * rewrite list_lookup_insert_eq; [done|]. rewrite length_fmap. by eapply lookup_lt_Some.
      * symmetry. apply lookup_ge_None. rewrite length_insert, length_fmap. by apply lookup_ge_None.
    + by rewrite list_lookup_alter_ne, list_lookup_insert_ne, list_lookup_fmap.
  - intros j bj Hj. rewrite Hne by done. by apply Hpd.
  - destruct (idequeue s) as [j|] eqn:Ej; [|done]. destruct Hdev as (bj & Hbj & Hst). exists bj. rewrite Hne; [done|].
    destruct (sv_queue a) as [|j' q]; cbn in Hlk; [congruence|]. destruct Hlk as [[= ->] _]. set_solver.
Qed.

Lemma step_serves disk1 e s a a' :
  serves disk1 s a -> serve bad disk1 e a = Some a' -> exists s', ide_step e s = Some s' /\ serves disk1 s' a'.
Proof.
  intros Hs He. destruct e as [me k| |k b]; cbn [ide_step].
  - pose proof (submit_serves disk1 me k s a a' Hs He) as H. unfold wpe in H.
    destruct (iderw _ me k s) as [|w s']; [done|]. destruct H as [-> H]. rewrite decide_True by done. by exists s'.
  - destruct (wp_inv _ _ _ (interrupt_serves disk1 s a a' Hs He)) as ([] & s' & -> & H). by exists s'.
  - eexists. split; [done|]. by apply use_serves with (a := a).
Qed.

(** A process that was woken returns if its buffer is up to date, and sleeps
    again if not. *)
Lemma resume_serves disk1 k b s a : serves disk1 s a -> dbufs s !! k = Some b ->
  iderw_resume k s = if clean b then Ret tt s else Stop (Sleeping (ch_buf k)) s.
Proof.
  intros [Hl _ _ _ _ _ _ _] Hb. unfold iderw_resume, iderw_wait, acquire_ide, release_ide, rdb, clean, get, put, sleeps, mbind, M_bind.
  rewrite Hl. cbn [dbufs set_idelock]. rewrite Hb. cbn. rewrite <- Hl. destruct (_ =? B_VALID); cbn; by destruct s.
Qed.

(** C12: the disk driver serves its queue. From any state in which the driver
    agrees with a queue of requests, through any sequence of calls of iderw,
    interrupts, and changes by the holders of buffers that are not waiting:
    every call goes to sleep on its buffer, no panic is reached, the requests
    are served in the order in which they were made, and the links between the
    buffers are those of the queue. For a sector that the disk can access, a
    write reaches its own block and a read returns what the disk holds then.
    For a bad sector a write changes nothing on the disk and a read leaves the
    buffer as it was, and in both cases the buffer is marked valid and the
    process is not told. A process that is woken returns if its request was
    served, and only then. The calls are those that iderw does not panic on:
    the caller holds the buffer, which is not up to date and not waiting, for
    a block of the file system on a disk that is there. *)
Theorem ide_serves disk1 evs s a a' :
  serves disk1 s a -> serve_all bad disk1 evs a = Some a' ->
  exists s', ide_steps evs s = Some s' /\ serves disk1 s' a' /\
    reverse (woken s') ++ sv_queue a' = reverse (woken s) ++ sv_queue a ++ submitted evs /\
    forall k b, dbufs s' !! k = Some b -> iderw_resume k s' = if clean b then Ret tt s' else Stop (Sleeping (ch_buf k)) s'.
Proof.
  intros Hs He. assert (exists s', ide_steps evs s = Some s' /\ serves disk1 s' a') as (s' & Hr & Hs').
  { revert s a Hs He. induction evs as [|e evs IH]; intros s a Hs He; cbn [serve_all ide_steps] in *.
    - injection He as <-. by exists s.
    - apply bind_Some in He as (a1 & He1 & He). destruct (step_serves disk1 e s a a1 Hs He1) as (s1 & -> & Hs1).
      by apply (IH s1 a1). }
  exists s'. split; [done|]. split; [done|]. rewrite (srv_woken _ _ _ Hs), (srv_woken _ _ _ Hs').
  split; [by eapply serve_in_order|]. intros k b Hb. by eapply resume_serves.
Qed.

End driver.

Lemma complete_clean bad b dk : clean (complete bad b dk).1 = true.
Proof.
  rewrite complete_fields. unfold clean. cbn [d_flags set_dflags]. apply Z.eqb_eq, Z.bits_inj'. intros n Hn.
  rewrite !Z.land_spec, Z.lor_spec, Z.lnot_spec by done. unfold B_VALID, B_DIRTY. change (Z.lor 2 4) with 6.
  destruct (decide (n = 1)) as [->|]; [cbn; by rewrite orb_true_r|]. destruct (decide (n = 2)) as [->|]; [cbn; by rewrite andb_false_r|].
  assert (Z.testbit 6 n = false /\ Z.testbit 2 n = false) as [-> ->]; [|by rewrite andb_false_r].
  assert (n = 0 \/ 3 <= n) as [-> |H3] by lia; [done|]. split; apply Z.bits_above_log2; cbn; lia.
Qed.

(** An error of the disk does not reach the process that waits: a block that
    cannot be read is given to it as valid, with what the buffer held. *)
Theorem ide_error_hidden {D} {P : Ports D} {bad latency} {AD : AtaDisk D bad latency} disk1 (s : ide D) a k q b :
  serves disk1 s a -> sv_queue a = k :: q -> sv_bufs a !! k = Some b ->
  dirty b = false -> bad (drive b) (d_blockno b) = true ->
  wp (ideintr (S latency)) s (fun _ s' =>
    iderw_resume k s' = Ret tt s' /\ d_data <$> dbufs s' !! k = Some (d_data b)).
Proof.
  intros Hs Hq Hb Hd Hbad. set (r := complete bad b (sv_disk a)).
  eapply wp_mono; [|apply (interrupt_serves disk1 s a (Server q r.2 (<[k := r.1]> (sv_bufs a)) (k :: sv_done a)) Hs)].
  - intros [] s' Hs'. pose proof (srv_bufs _ _ _ Hs') as Ebs. cbn [sv_bufs] in Ebs.
    assert (H : (set_qnext None <$> dbufs s') !! k = Some r.1).
    { rewrite Ebs. apply list_lookup_insert_eq. by eapply lookup_lt_Some. }
    rewrite list_lookup_fmap in H. apply fmap_Some in H as (b' & Hb' & Er).
    rewrite (resume_serves _ _ _ _ _ Hs' Hb'), Hb'. change (clean b') with (clean (set_qnext None b')).
    rewrite <- Er. unfold r. rewrite complete_clean. split; [done|]. cbn. f_equal. change (d_data b') with (d_data (set_qnext None b')).
    rewrite <- Er. unfold r, complete. by rewrite Hd, Hbad.
  - cbn [serve]. rewrite Hq, Hb. done.
Qed.

(** ** A simulated disk *)

Definition sim_wait (d : ata) (n : nat) : ata := Ata (at_regs d) (at_req d) (at_disk d) n.

Definition sim_ports (bad : Z -> Z -> bool) : Ports ata := {|
  inb p := fun d =>
    if p =? 0x1f7 then
      match Nat.min (at_wait d) 2 with
      | O => Ret (if failed bad (at_req d) then 0x41 else 0x40) (sim_wait d O)
      | S n => Ret 0x80 (sim_wait d n)
      end
    else Ret 0 d;
  outb p v := fun d =>
    if p =? 0x1f7 then
      Ret tt (Ata (at_regs d) (if v =? IDE_CMD_READ then ReadReq (ata_drive (at_regs d)) (ata_sector (at_regs d))
                               else WriteReq (ata_drive (at_regs d)) (ata_sector (at_regs d))) (at_disk d) 2)
    else Ret tt (Ata (<[p := v]> (at_regs d)) (at_req d) (at_disk d) (at_wait d));
  insl p n := fun d => match at_req d with ReadReq dr sec => Ret (at_disk d dr sec) d | _ => Ret [] d end;
  outsl p bs := fun d =>
    match at_req d with
    | WriteReq dr sec => Ret tt (Ata (at_regs d) NoReq (stored bad dr sec bs (at_disk d)) 2)
    | _ => Ret tt d
    end
|}.

Definition sim_disk (bad : Z -> Z -> bool) : @AtaDisk ata (sim_ports bad) bad 2.
Proof.
  refine {| ata_of := fun d => sim_wait d (Nat.min (at_wait d) 2) |}; unfold wp, wpe; cbn -[Nat.min].
  - intros d. lia.
  - intros d. destruct (Nat.min (at_wait d) 2) as [|n] eqn:E; cbn -[Nat.min].
    + destruct (failed _ _); by cbn.
    + split_and!; try done. change (Nat.min n 2 < S n)%nat. lia.
  - intros d p v Hp Hw. assert (p =? 0x1f7 = false) as -> by (apply Z.eqb_neq; intros ->; set_solver). unfold sim_wait. cbn -[Nat.min].
    by rewrite Hw.
  - done.
  - done.
  - intros d dr sec _ -> _. done.
  - intros d dr sec bs -> _. done.
Defined.

(** Sector 7 cannot be read. *)
Definition sim_bad (dr sec : Z) : bool := sec =? 7.

#[local] Instance bad_ports : Ports ata := sim_ports sim_bad.
#[local] Instance bad_disk : AtaDisk ata sim_bad 2 := sim_disk sim_bad.

(** Two buffers, held by the processes 1 and 2: one to write to block 3, one
    to read it. *)
Definition demo_dbuf (flags blockno pid : Z) (v : Z) : dbuf :=
  DBuf flags 0 blockno (SleepLock 1 false "buffer" pid 0) None (replicate 512 v).

Definition demo_ide : ide ata :=
  Ide (Ata (fun _ => 0) NoReq (fun _ _ => replicate 512 0) 0) false None false
    [demo_dbuf B_DIRTY 3 1 9; demo_dbuf 0 3 2 0; demo_dbuf 0 7 3 5] [].

Definition demo_server : server :=
  Server [] (fun _ _ => replicate 512 0) [demo_dbuf B_DIRTY 3 1 9; demo_dbuf 0 3 2 0; demo_dbuf 0 7 3 5] [].

Lemma demo_serves : serves false demo_ide demo_server.
Proof. split; try done; [constructor|]. intros k b H. by apply elem_of_nil in H. Qed.

(** The reader gets what the writer, before it in the queue, has written. *)
Lemma ide_serves_witness :
  exists s' : ide ata, ide_steps (latency := 2) [Submit 1 0; Submit 2 1; Interrupt; Interrupt] demo_ide = Some s' /\
    reverse (woken s') = [0; 1]%nat /\ d_data <$> dbufs s' !! 1%nat = Some (replicate 512 9).
Proof.
  destruct (ide_serves false [Submit 1 0; Submit 2 1; Interrupt; Interrupt] demo_ide demo_server
    (default demo_server (serve_all sim_bad false [Submit 1 0; Submit 2 1; Interrupt; Interrupt] demo_server)))
    as (s' & Hr & Hs & Hw & _); [apply demo_serves|by vm_compute|].
  exists s'. split; [exact Hr|]. split.
  - etransitivity; [|exact Hw]. symmetry. apply app_nil_r.
  - pose proof (srv_bufs _ _ _ Hs) as E. assert (d_data <$> (set_qnext None <$> dbufs s') !! 1%nat = Some (replicate 512 9)) as H.
    { rewrite E. by vm_compute. }
    rewrite list_lookup_fmap in H. by destruct (dbufs s' !! 1%nat).
Defined.
