(* ===== verification/Mp.v ===== *)
(** Finding the processors: [mp.c] and the tables of [mp.h].

    [mem] is what the firmware left in memory, one byte per address. *)

From S2P Require Import Prelude Mmu Ports.

Open Scope Z_scope.

Definition NCPU : Z := 8.

Definition MPPROC : Z := 0x00.
Definition MPBUS : Z := 0x01.
Definition MPIOAPIC : Z := 0x02.
Definition MPIOINTR : Z := 0x03.
Definition MPLINTR : Z := 0x04.

Definition sizeof_mp : Z := 16.
Definition sizeof_mpconf : Z := 44.
Definition sizeof_mpproc : Z := 20.
Definition sizeof_mpioapic : Z := 8.

(** The variables that mpinit sets, and the devices. *)
Record machine (D : Type) := Machine {
  mp_dev : D;
  mp_lapic : Z;               (* lapic *)
  mp_cpus : list Z;           (* the apicid of each of cpus *)
  ncpu : Z;
  mp_ioapicid : Z             (* ioapicid *)
}.
Arguments Machine {D} _ _ _ _ _.
Arguments mp_dev {D} _.
Arguments mp_lapic {D} _.
Arguments mp_cpus {D} _.
Arguments ncpu {D} _.
Arguments mp_ioapicid {D} _.

Section mp.
Variable mem : Z -> Z.

(** The [n] bytes from an address on, and words of them. *)
Definition bytes_at (a : Z) (n : nat) : list Z := (fun i => mem (u32 (a + i))) <$> seqZ 0 (Z.of_nat n).
Definition mp16 (a : Z) : Z := le_val (bytes_at a 2).
Definition mp32 (a : Z) : Z := le_val (bytes_at a 4).

(** struct mp *)
Definition mp_physaddr (p : Z) : Z := mp32 (p + 4).
Definition mp_imcrp (p : Z) : Z := mem (u32 (p + 12)).

(** struct mpconf *)
Definition conf_length (p : Z) : Z := mp16 (p + 4).
Definition conf_version (p : Z) : Z := mem (u32 (p + 6)).
Definition conf_lapicaddr (p : Z) : Z := mp32 (p + 36).

Fixpoint sum_loop (n : nat) (addr i sum : Z) : Z :=
  match n with
  | O => sum
  | S n => sum_loop n addr (i + 1) (i32 (sum + mem (u32 (addr + i))))
  end.

Definition sum (addr len : Z) : Z := u8 (sum_loop (Z.to_nat len) addr 0 0).

(** memcmp(p, sig, 4) == 0 *)
Definition has_sig (p : Z) (sig : list Z) : bool := bool_decide (bytes_at p 4 = sig).

Definition sig_mp : list Z := [95; 77; 80; 95].      (* _MP_ *)
Definition sig_pcmp : list Z := [80; 67; 77; 80].    (* PCMP *)

Fixpoint mpsearch1_loop (n : nat) (p e : Z) : option Z :=
  match n with
  | O => None
  | S n =>
      if p <? e then
        if has_sig p sig_mp && (sum p sizeof_mp =? 0) then Some p else mpsearch1_loop n (u32 (p + sizeof_mp)) e
      else None
  end.

(** [len] is a multiple of the size of the structure. *)
Definition mpsearch1 (a len : Z) : option Z :=
  let addr := u32 (P2V a) in
  mpsearch1_loop (Z.to_nat (len / sizeof_mp)) addr (u32 (addr + len)).

Definition mpsearch : option Z :=
  let bda := u32 (P2V 0x400) in
  let p := u32 (Z.shiftl (Z.lor (Z.shiftl (mem (bda + 0x0F)) 8) (mem (bda + 0x0E))) 4) in
  let found :=
    if negb (p =? 0) then mpsearch1 p 1024
    else
      let p := u32 (Z.lor (Z.shiftl (mem (bda + 0x14)) 8) (mem (bda + 0x13)) * 1024) in
      mpsearch1 (u32 (p - 1024)) 1024 in
  match found with
  | Some mp => Some mp
  | None => mpsearch1 0xF0000 0x10000
  end.

(** The floating pointer structure and the configuration table. *)
Definition mpconfig : option (Z * Z) :=
  match mpsearch with
  | None => None
  | Some mp =>
      if mp_physaddr mp =? 0 then None
      else
        let conf := u32 (P2V (mp_physaddr mp)) in
        if negb (has_sig conf sig_pcmp) then None
        else if negb (conf_version conf =? 1) && negb (conf_version conf =? 4) then None
        else if negb (sum conf (conf_length conf) =? 0) then None
        else Some (mp, conf)
  end.

Context {D : Type} {P : Ports D}.

(** The loop over the entries of the table, from [p] to [e]. An entry of a
    type that it does not know ends only the switch. *)
Fixpoint mpinit_loop (fuel : nat) (ismp : bool) (p e : Z) : M (machine D) bool :=
  match fuel with
  | O => out_of_fuel
  | S fuel =>
      if p <? e then
        let t := mem p in
        if t =? MPPROC then
          modify (fun m =>
            if ncpu m <? NCPU then
              Machine (mp_dev m) (mp_lapic m) (<[Z.to_nat (ncpu m) := mem (u32 (p + 1))]> (mp_cpus m)) (ncpu m + 1) (mp_ioapicid m)
            else m) ;;
          mpinit_loop fuel ismp (u32 (p + sizeof_mpproc)) e
        else if t =? MPIOAPIC then
          modify (fun m => Machine (mp_dev m) (mp_lapic m) (mp_cpus m) (ncpu m) (mem (u32 (p + 1)))) ;;
          mpinit_loop fuel ismp (u32 (p + sizeof_mpioapic)) e
        else if (t =? MPBUS) || (t =? MPIOINTR) || (t =? MPLINTR) then mpinit_loop fuel ismp (u32 (p + 8)) e
        else mpinit_loop fuel false p e
      else mret ismp
  end.

Definition mpinit (fuel : nat) : M (machine D) unit :=
  match mpconfig with
  | None => panic "Expect to run on an SMP"
  | Some (mp, conf) =>
      modify (fun m => Machine (mp_dev m) (conf_lapicaddr conf) (mp_cpus m) (ncpu m) (mp_ioapicid m)) ;;
      ismp ← mpinit_loop fuel true (u32 (conf + sizeof_mpconf)) (u32 (conf + conf_length conf));
      if negb ismp then panic "Didn't find a suitable machine"
      else
        when (negb (mp_imcrp mp =? 0))
          (zoom (Lens mp_dev (fun d m => Machine d (mp_lapic m) (mp_cpus m) (ncpu m) (mp_ioapicid m)))
             (outb 0x22 0x70 ;;
              v ← inb 0x23;
              outb 0x23 (Z.lor v 1)))
  end.

End mp.

(** ** The checksum *)

Definition total (bs : list Z) : Z := foldr Z.add 0 bs.

Lemma i32_mod_256 z : i32 z mod 256 = z mod 256.
Proof.
  unfold i32. pose proof (Z.div_mod (z + 2 ^ 31) (2 ^ 32) ltac:(lia)) as H.
  replace ((z + 2 ^ 31) mod 2 ^ 32 - 2 ^ 31) with (z + - (2 ^ 24 * ((z + 2 ^ 31) / 2 ^ 32)) * 256) by lia.
  apply Z.mod_add. lia.
Qed.

Lemma sum_loop_mod mem n addr i acc :
  sum_loop mem n addr i acc mod 256 =
    (acc + total ((fun k => mem (u32 (addr + k))) <$> seqZ i (Z.of_nat n))) mod 256.
Proof.
  revert i acc; induction n as [|n IH]; intros i acc; cbn [sum_loop]; [by rewrite Z.add_0_r|].
  rewrite IH, (seqZ_cons i) by lia. replace (Z.pred (Z.of_nat (S n))) with (Z.of_nat n) by lia. replace (Z.succ i) with (i + 1) by lia.
  cbn [fmap list_fmap total foldr]. rewrite <- Z.add_mod_idemp_l, i32_mod_256, Z.add_mod_idemp_l by lia. f_equal. unfold total. lia.
Qed.

(** The checksum is the sum of the bytes, although it is kept in a signed
    word. *)
Lemma sum_spec mem addr len : 0 <= len -> sum mem addr len = total (bytes_at mem addr (Z.to_nat len)) mod 256.
Proof. intros H. unfold sum, u8, bytes_at. change (2 ^ 8) with 256. by rewrite sum_loop_mod. Qed.

(** A structure that is found has the signature, and its bytes add up to 0. *)
Lemma mpsearch1_found mem a len p :
  mpsearch1 mem a len = Some p -> bytes_at mem p 4 = sig_mp /\ total (bytes_at mem p 16) mod 256 = 0.
Proof.
  unfold mpsearch1. generalize (u32 (P2V a)) at 1. generalize (u32 (u32 (P2V a) + len)). generalize (Z.to_nat (len / sizeof_mp)).
  intros n e. induction n as [|n IH]; intros q; cbn [mpsearch1_loop]; [done|]. case_match; [|done].
  destruct (has_sig mem q sig_mp && _) eqn:Hc; [|apply IH]. intros [= <-]. apply andb_prop in Hc as [Hs%bool_decide_eq_true H0%Z.eqb_eq].
  split; [done|]. by rewrite sum_spec in H0.
Qed.

(** ** The configuration table *)

(** An entry of the table: a processor, an interrupt controller, or one of
    the kinds that mpinit skips. *)
Inductive mpentry :=
  | EProc (apicid : Z) (rest : list Z)
  | EIoapic (apicno : Z) (rest : list Z)
  | EOther (t : Z) (rest : list Z).

Definition entry_bytes (e : mpentry) : list Z :=
  match e with
  | EProc a r => MPPROC :: a :: r
  | EIoapic a r => MPIOAPIC :: a :: r
  | EOther t r => t :: r
  end.

Definition entry_ok (e : mpentry) : Prop :=
  match e with
  | EProc _ r => length r = 18%nat
  | EIoapic _ r => length r = 6%nat
  | EOther t r => t ∈ [MPBUS; MPIOINTR; MPLINTR] /\ length r = 7%nat
  end.

Definition table_bytes (es : list mpentry) : list Z := es ≫= entry_bytes.

(** What the table says: the processors in order, and the last controller. *)
Definition table_procs (es : list mpentry) : list Z :=
  omap (fun e => match e with EProc a _ => Some a | _ => None end) es.
Definition table_ioapic (es : list mpentry) (d : Z) : Z :=
  foldl (fun d e => match e with EIoapic a _ => a | _ => d end) d es.

Section table.
Variable mem : Z -> Z.
Context {D : Type} {P : Ports D}.
Implicit Types m : machine D.

Definition holds (p : Z) (bs : list Z) : Prop := forall i b, bs !! i = Some b -> mem (p + Z.of_nat i) = b.

Lemma holds_app p bs bs' : holds p (bs ++ bs') -> holds p bs /\ holds (p + Z.of_nat (length bs)) bs'.
Proof.
  intros H. split; intros i b Hb.
  - apply H. by apply lookup_app_l_Some.
  - rewrite <- Z.add_assoc, <- Nat2Z.inj_add. apply H. rewrite lookup_app_r by lia. by rewrite Nat.add_comm, Nat.add_sub.
Qed.

(** The processors after an entry: no more than there is room for. *)
Definition add_proc m (a : Z) : machine D :=
  if ncpu m <? NCPU then Machine (mp_dev m) (mp_lapic m) (<[Z.to_nat (ncpu m) := a]> (mp_cpus m)) (ncpu m + 1) (mp_ioapicid m) else m.

Definition add_entry m (e : mpentry) : machine D :=
  match e with
  | EProc a _ => add_proc m a
  | EIoapic a _ => Machine (mp_dev m) (mp_lapic m) (mp_cpus m) (ncpu m) a
  | EOther _ _ => m
  end.

Lemma mpinit_loop_entry fuel ismp p e m en (Q : bool -> machine D -> Prop) E :
  entry_ok en -> holds p (entry_bytes en) -> 0 <= p -> p + Z.of_nat (length (entry_bytes en)) < 2 ^ 32 -> p < e ->
  wpe (mpinit_loop mem fuel ismp (p + Z.of_nat (length (entry_bytes en))) e) (add_entry m en) Q E ->
  wpe (mpinit_loop mem (S fuel) ismp p e) m Q E.
Proof.
  intros Hok Hh H0 Hlt He HQ. cbn [mpinit_loop]. rewrite (proj2 (Z.ltb_lt p e)) by done.
  assert (Ht : forall b bs, entry_bytes en = b :: bs -> mem p = b).
  { intros b bs Eb. rewrite <- (Z.add_0_r p). apply (Hh 0%nat b). by rewrite Eb. }
  assert (H1 : forall b c bs, entry_bytes en = b :: c :: bs -> mem (u32 (p + 1)) = c).
  { intros b c bs Eb. assert (Z.of_nat (length (entry_bytes en)) = 2 + Z.of_nat (length bs)) as El by (rewrite Eb; cbn; lia).
    rewrite u32_small by (unfold in_u32; lia). apply (Hh 1%nat c). by rewrite Eb. }
  destruct en as [a r|a r|t r]; cbn [entry_bytes entry_ok add_entry] in *.
  - rewrite (Ht _ _ eq_refl), (H1 _ _ _ eq_refl). change (MPPROC =? MPPROC) with true. cbn iota. apply wpe_bind, wpe_modify.
    unfold sizeof_mpproc. cbn [length] in *. rewrite Hok in *. rewrite u32_small by (unfold in_u32; lia). done.
  - rewrite (Ht _ _ eq_refl), (H1 _ _ _ eq_refl). change (MPIOAPIC =? MPPROC) with false. change (MPIOAPIC =? MPIOAPIC) with true. cbn iota.
    apply wpe_bind, wpe_modify. unfold sizeof_mpioapic. cbn [length] in *. rewrite Hok in *. rewrite u32_small by (unfold in_u32; lia). done.
  - destruct Hok as [Hk Hl]. rewrite (Ht _ _ eq_refl). cbn [length] in *. rewrite Hl in *.
    rewrite (u32_small (p + 8)) by (unfold in_u32; lia). rewrite !elem_of_cons in Hk.
    destruct Hk as [-> |[-> |[-> |[]%elem_of_nil]]]; done.
Qed.

Lemma mpinit_loop_table fuel ismp p e m es (Q : bool -> machine D -> Prop) E :
  Forall entry_ok es -> holds p (table_bytes es) -> 0 <= p -> p + Z.of_nat (length (table_bytes es)) <= e -> e < 2 ^ 32 ->
  wpe (mpinit_loop mem fuel ismp (p + Z.of_nat (length (table_bytes es))) e) (foldl add_entry m es) Q E ->
  wpe (mpinit_loop mem (length es + fuel) ismp p e) m Q E.
Proof.
  revert p m. induction es as [|en es IH]; intros p m Hok Hh H0 Hlt He HQ; [by rewrite Z.add_0_r in HQ|].
  apply Forall_cons in Hok as [Hen Hok]. cbn [table_bytes mbind list_bind] in Hh, Hlt, HQ. fold (table_bytes es) in Hh, Hlt, HQ.
  apply holds_app in Hh as [Hh1 Hh2]. rewrite length_app, Nat2Z.inj_add in *.
  assert (0 < length (entry_bytes en))%nat by (destruct en; cbn; lia).
  apply (mpinit_loop_entry _ _ _ _ _ en); [done|done|done|lia|lia|]. apply IH; [done|done|lia|lia|done|].
  by rewrite <- Z.add_assoc.
Qed.

Lemma add_entries_kept es m :
  mp_lapic (foldl add_entry m es) = mp_lapic m /\ mp_dev (foldl add_entry m es) = mp_dev m /\
  mp_ioapicid (foldl add_entry m es) = table_ioapic es (mp_ioapicid m).
Proof.
  revert m; induction es as [|en es IH]; intros m; [done|]. cbn [foldl table_ioapic].
  destruct (IH (add_entry m en)) as (-> & -> & ->). destruct en; cbn; try done. unfold add_proc. by case_match.
Qed.

Lemma add_entries_procs es m :
  0 <= ncpu m <= NCPU -> length (mp_cpus m) = 8%nat ->
  ncpu (foldl add_entry m es) = Z.min NCPU (ncpu m + Z.of_nat (length (table_procs es))) /\
  (forall i, Z.of_nat i < ncpu m -> mp_cpus (foldl add_entry m es) !! i = mp_cpus m !! i) /\
  (forall i a, table_procs es !! i = Some a -> ncpu m + Z.of_nat i < NCPU ->
     mp_cpus (foldl add_entry m es) !! (Z.to_nat (ncpu m) + i)%nat = Some a).
Proof.
  revert m; induction es as [|en es IH]; intros m Hn Hl; cbn [foldl].
  { cbn. rewrite Z.min_r by lia. split_and!; [lia|done|done]. }
  destruct en as [a r|a r|t r]; cbn [add_entry]; try (specialize (IH m Hn Hl); done).
  2:{ by destruct (IH (Machine (mp_dev m) (mp_lapic m) (mp_cpus m) (ncpu m) a) Hn Hl) as (H1 & H2 & H3). }
  unfold table_procs. cbn [omap list_omap]. fold (table_procs es). cbn [length]. unfold add_proc.
  destruct (Z.ltb_spec (ncpu m) NCPU) as [Hlt|Hge].
  - destruct (IH (Machine (mp_dev m) (mp_lapic m) (<[Z.to_nat (ncpu m) := a]> (mp_cpus m)) (ncpu m + 1) (mp_ioapicid m))) as (H1 & H2 & H3);
      cbn [ncpu mp_cpus] in *; [lia|by rewrite length_insert|]. split; [rewrite H1; lia|]. split.
    + intros i Hi. rewrite H2 by lia. apply list_lookup_insert_ne. lia.
    + intros [|i] b Hb Hi; cbn in Hb.
      * injection Hb as ->. rewrite Nat.add_0_r, H2 by lia. apply list_lookup_insert_eq. unfold NCPU in *. lia.
      * rewrite <- (H3 i b Hb) by lia. f_equal. lia.
  - destruct (IH m Hn Hl) as (H1 & H2 & H3). split; [rewrite H1; lia|]. split; [done|]. intros i b _ Hi. lia.
Qed.

(** Mpinit finds the processors. When the firmware's tables check out,
    and the configuration table holds entries of the known kinds in any order
    and number, mpinit returns; the processors are numbered in the order of
    the table up to the NCPU that there is room for, and the interrupt
    controllers are the ones it names. *)
Theorem mpinit_finds {PO : PortsOk D} mp conf es fuel m :
  mpconfig mem = Some (mp, conf) -> Forall entry_ok es ->
  holds (conf + sizeof_mpconf) (table_bytes es) ->
  conf_length mem conf = sizeof_mpconf + Z.of_nat (length (table_bytes es)) ->
  0 <= conf -> conf + conf_length mem conf < 2 ^ 32 -> (length es < fuel)%nat ->
  ncpu m = 0 -> length (mp_cpus m) = 8%nat ->
  wp (mpinit mem fuel) m (fun _ m' =>
    ncpu m' = Z.min NCPU (Z.of_nat (length (table_procs es))) /\
    (forall i a, table_procs es !! i = Some a -> Z.of_nat i < NCPU -> mp_cpus m' !! i = Some a) /\
    mp_ioapicid m' = table_ioapic es (mp_ioapicid m) /\ mp_lapic m' = conf_lapicaddr mem conf).
Proof.
  intros Hc Hok Hh Hlen H0 Hmax Hf Hn Hl. unfold mpinit. rewrite Hc. apply wp_bind, wpe_modify.
  rewrite Hlen in *. unfold sizeof_mpconf in *. rewrite !u32_small by (unfold in_u32; lia). apply wp_bind.
  replace fuel with (length es + S (fuel - length es - 1))%nat by lia.
  apply (mpinit_loop_table _ _ _ _ _ es); [done|done|lia|lia|lia|]. cbn [mpinit_loop].
  rewrite (proj2 (Z.ltb_ge _ _)) by lia. apply wpe_ret. cbn [negb]. set (m1 := Machine _ _ _ _ _).
  destruct (add_entries_kept es m1) as (E1 & _ & E3). destruct (add_entries_procs es m1) as (E4 & _ & E5); [cbn; unfold NCPU; lia|done|].
  change (ncpu m1) with (ncpu m) in *. rewrite Hn, Z.add_0_l in E4. rewrite Hn in E5.
  change (mp_ioapicid m1) with (mp_ioapicid m) in E3. change (mp_lapic m1) with (conf_lapicaddr mem conf) in E1. clearbody m1.
  set (m2 := foldl add_entry m1 es) in *. destruct (negb _); cbn [when]; [|by apply wpe_ret].
  apply wpe_zoom. cbn [view update ncpu mp_cpus mp_ioapicid mp_lapic]. apply wp_bind. eapply wp_mono; [|apply outb_ok]. intros [] d1 _.
  apply wp_bind. eapply wp_mono; [|apply inb_byte]. intros v d2 _. eapply wp_mono; [|apply outb_ok]. by intros [] d3 _.
Qed.

(** An entry of an unknown kind hangs the machine. The comment of mpinit's
    last test says that it did not find a suitable machine, but the loop does
    not go on: it comes back to the same entry for ever. *)
Lemma mpinit_loop_stuck es fuel ismp p e m :
  Forall entry_ok es -> holds p (table_bytes es) -> 0 <= p -> p + Z.of_nat (length (table_bytes es)) < e -> e < 2 ^ 32 ->
  MPLINTR < mem (p + Z.of_nat (length (table_bytes es))) ->
  wpe (mpinit_loop mem fuel ismp p e) m (fun _ _ => False) (fun w _ => w = OutOfFuel).
Proof.
  revert fuel ismp p m. induction es as [|en es IH]; intros fuel ismp p m Hok Hh H0 Hlt He Hbad.
  - cbn [table_bytes mbind list_bind length] in *. rewrite Z.add_0_r in *. revert ismp. induction fuel as [|fuel IHf]; intros ismp; [done|].
    cbn [mpinit_loop]. rewrite (proj2 (Z.ltb_lt p e)) by done. unfold MPPROC, MPIOAPIC, MPBUS, MPIOINTR, MPLINTR in *.
    rewrite !(proj2 (Z.eqb_neq (mem p) _)) by lia. cbn [orb]. apply IHf.
  - destruct fuel as [|fuel]; [done|]. apply Forall_cons in Hok as [Hen Hok].
    cbn [table_bytes mbind list_bind] in Hh, Hlt, Hbad. fold (table_bytes es) in Hh, Hlt, Hbad.
    apply holds_app in Hh as [Hh1 Hh2]. rewrite length_app, Nat2Z.inj_add in *.
    assert (0 < length (entry_bytes en))%nat by (destruct en; cbn; lia).
    apply (mpinit_loop_entry _ _ _ _ _ en); [done|done|done|lia|lia|]. apply IH; [done|done|lia|lia|done|].
    by rewrite <- Z.add_assoc.
Qed.

(** With such an entry mpinit never returns and never panics. *)
Theorem mpinit_unknown_hangs mp conf es fuel m :
  mpconfig mem = Some (mp, conf) -> Forall entry_ok es ->
  holds (conf + sizeof_mpconf) (table_bytes es) ->
  sizeof_mpconf + Z.of_nat (length (table_bytes es)) < conf_length mem conf ->
  MPLINTR < mem (conf + sizeof_mpconf + Z.of_nat (length (table_bytes es))) ->
  0 <= conf -> conf + conf_length mem conf < 2 ^ 32 ->
  exists m', mpinit mem fuel m = Stop OutOfFuel m'.
Proof.
  intros Hc Hok Hh Hlen Hbad H0 Hmax. assert (wpe (mpinit mem fuel) m (fun _ _ => False) (fun w _ => w = OutOfFuel)) as H.
  { unfold mpinit. rewrite Hc. apply wpe_bind, wpe_modify, wpe_bind. unfold sizeof_mpconf in *.
    rewrite !u32_small by (unfold in_u32; lia).
    eapply wpe_mono; [| |apply (mpinit_loop_stuck es); [done|done|lia|lia|lia|done]]; done. }
  unfold wpe in H. destruct (mpinit mem fuel m) as [|w m']; [done|]. subst. by exists m'.
Qed.

End table.

(** ** A machine with two processors *)

#[local] Instance unit_ports : Ports unit := {|
  inb _ := mret 0; outb _ _ := mret tt; insl _ _ := mret []; outsl _ _ := mret tt
|}.

#[local] Instance unit_ports_ok : PortsOk unit.
Proof. by split. Qed.

Definition demo_table : list mpentry :=
  [EProc 0 (replicate 18 0); EIoapic 9 (replicate 6 0); EProc 1 (replicate 18 0)].

Definition demo_mp : list Z := sig_mp ++ [0; 0x90; 0; 0; 1; 4; 16; 0; 1; 0; 0; 255].
Definition demo_conf : list Z :=
  sig_pcmp ++ [92; 0; 4; 134] ++ replicate 28 0 ++ [0; 0; 0xE0; 0xFE; 0; 0; 0; 0] ++ table_bytes demo_table.

Definition demo_mem (a : Z) : Z :=
  if (0x800F0000 <=? a) && (a <? 0x800F0010) then default 0 (demo_mp !! Z.to_nat (a - 0x800F0000))
  else if (0x80009000 <=? a) && (a <? 0x8000905C) then default 0 (demo_conf !! Z.to_nat (a - 0x80009000))
  else 0.

Lemma demo_mpconfig : mpconfig demo_mem = Some (0x800F0000, 0x80009000).
Proof. vm_compute. reflexivity. Qed.

Lemma demo_table_held : holds demo_mem (0x80009000 + sizeof_mpconf) (table_bytes demo_table).
Proof.
  assert (H : forallb (fun i => bool_decide (table_bytes demo_table !! i = Some (demo_mem (0x80009000 + sizeof_mpconf + Z.of_nat i)))) (seq 0 48) = true)
    by by vm_compute.
  intros i b Hb. assert (i < 48)%nat by (by apply lookup_lt_Some in Hb). rewrite forallb_forall in H.
  specialize (H i ltac:(apply in_seq; lia)). apply bool_decide_eq_true in H. congruence.
Qed.

Lemma mpinit_finds_witness :
  wp (mpinit demo_mem 4) (Machine tt 0 (replicate 8 255) 0 0) (fun _ m' =>
    ncpu m' = 2 /\ mp_cpus m' !! 1%nat = Some 1 /\ mp_ioapicid m' = 9 /\ mp_lapic m' = 0xFEE00000).
Proof.
  eapply wp_mono; [|apply (mpinit_finds demo_mem 0x800F0000 0x80009000 demo_table)].
  - intros [] m' (H1 & H2 & H3 & H4). split; [done|]. split; [by apply H2|]. split; [done|]. rewrite H4. by vm_compute.
  - apply demo_mpconfig.
  - by repeat constructor.
  - apply demo_table_held.
  - by vm_compute.
  - lia.
  - by vm_compute.
  - cbn. lia.
  - done.
  - done.
Defined.
