(* ===== verification/Boot.v ===== *)
(** The boot loader: [bootmain.c].

    The state is the physical memory, one byte per address, and the disk. The
    loader either returns, when what is on the disk is not an ELF file, or
    jumps to the entry point. *)

From Stdlib Require Import Sorted.
From S2P Require Import Prelude Block Ports Bio Ide Syscall Exec.

Open Scope Z_scope.

Definition SECTSIZE : Z := 512.

Definition ph_paddr (h : list Z) : Z := get32 h 12.

Record boot_st (D : Type) := BootSt { bt_dev : D; bt_mem : Z -> Z }.
Arguments BootSt {D} _ _.
Arguments bt_dev {D} _.
Arguments bt_mem {D} _.

(** Bytes of memory, and storing them. *)
Definition mem_bytes (m : Z -> Z) (a n : Z) : list Z := (fun i => m (a + i)) <$> seqZ 0 n.
Definition store_bytes (a : Z) (bs : list Z) (m : Z -> Z) : Z -> Z := fun x =>
  if (a <=? x) && (x <? a + Z.of_nat (length bs)) then default 0 (bs !! Z.to_nat (x - a)) else m x.

Section boot.
Context {D : Type} {P : Ports D}.

Notation MB A := (M (boot_st D) A).

Definition bport {A} (m : M D A) : MB A := zoom (Lens bt_dev (fun d s => BootSt d (bt_mem s))) m.
Definition bstore (a : Z) (bs : list Z) : MB unit := modify (fun s => BootSt (bt_dev s) (store_bytes a bs (bt_mem s))).

Fixpoint waitdisk (fuel : nat) : M D unit :=
  match fuel with
  | O => out_of_fuel
  | S fuel =>
      v ← inb 0x1F7;
      if negb (Z.land v 0xC0 =? 0x40) then waitdisk fuel else mret tt
  end.

(** The disk answers within [fuel] looks at its status. *)
Variable fuel : nat.

Definition readsect (dst offset : Z) : MB unit :=
  bs ← bport (
    waitdisk fuel ;;
    outb 0x1F2 1 ;;
    outb 0x1F3 (u8 offset) ;;
    outb 0x1F4 (u8 (Z.shiftr offset 8)) ;;
    outb 0x1F5 (u8 (Z.shiftr offset 16)) ;;
    outb 0x1F6 (u8 (Z.lor (Z.shiftr offset 24) 0xE0)) ;;
    outb 0x1F7 0x20 ;;
    waitdisk fuel ;;
    insl 0x1F0 (SECTSIZE / 4));
  bstore dst bs.

(** The loop of readseg: at most [n] sectors. *)
Fixpoint readseg_loop (n : nat) (pa epa offset : Z) : MB unit :=
  match n with
  | O => out_of_fuel
  | S n =>
      if pa <? epa then
        readsect pa offset ;;
        readseg_loop n (u32 (pa + SECTSIZE)) epa (u32 (offset + 1))
      else mret tt
  end.

Definition readseg (pa count offset : Z) : MB unit :=
  let epa := u32 (pa + count) in
  let pa := u32 (pa - offset mod SECTSIZE) in
  let offset := u32 (offset / SECTSIZE + 1) in
  readseg_loop (S (Z.to_nat (count / SECTSIZE + 2))) pa epa offset.

(** The loop over the program headers: [n] to go. *)
Fixpoint load_kernel (n : nat) (ph : Z) : MB unit :=
  match n with
  | O => mret tt
  | S n =>
      h ← gets (fun s => mem_bytes (bt_mem s) ph sizeof_proghdr);
      let pa := ph_paddr h in
      readseg pa (ph_filesz h) (ph_off h) ;;
      (* the header is read again *)
      h ← gets (fun s => mem_bytes (bt_mem s) ph sizeof_proghdr);
      when (ph_filesz h <? ph_memsz h)
        (bstore (u32 (pa + ph_filesz h)) (replicate (Z.to_nat (ph_memsz h - ph_filesz h)) 0)) ;;
      load_kernel n (u32 (ph + sizeof_proghdr))
  end.

(** The address that it jumps to. *)
Definition bootmain : MB (option Z) :=
  let elf := 0x10000 in
  readseg elf 4096 0 ;;
  h ← gets (fun s => mem_bytes (bt_mem s) elf sizeof_elfhdr);
  if negb (elf_magic h =? ELF_MAGIC) then mret None
  else
    load_kernel (Z.to_nat (elf_phnum h)) (u32 (elf + elf_phoff h)) ;;
    h ← gets (fun s => mem_bytes (bt_mem s) elf sizeof_elfhdr);
    mret (Some (elf_entry h)).

End boot.

(** ** What is loaded *)

Section load.
Context {D : Type} {P : Ports D} {latency : nat} {AD : AtaDisk D (fun _ _ => false) latency}.
(** The disk, with sectors of 512 bytes. *)
Variable dk : Z -> Z -> list Z.
Hypothesis dk_sector : forall sec, length (dk 0 sec) = 512%nat.

Notation fuel := (S latency).
Implicit Types s : boot_st D.

(** Byte [i] of the file that starts at sector 1. *)
Definition file_byte (i : Z) : Z := default 0 (dk 0 (i / 512 + 1) !! Z.to_nat (i mod 512)).

(** The disk is [dk]. *)
Definition on_disk s : Prop := at_disk (ata_of (bt_dev s)) = dk.

Lemma waitdisk_spec d : wp (waitdisk fuel) d (fun _ d' =>
  at_wait (ata_of d') = O /\ at_disk (ata_of d') = at_disk (ata_of d) /\ at_req (ata_of d') = at_req (ata_of d)).
Proof.
  pose proof (ata_latency d) as Hn. assert (at_wait (ata_of d) < fuel)%nat as Hlt by lia. clear Hn.
  revert d Hlt. induction fuel as [|n IH]; intros d Hlt; [lia|]. cbn [waitdisk]. apply wp_bind.
  eapply wp_mono; [|apply ata_status]. intros st d1 (_ & Er & Ed & Hst). change (Z.lor IDE_BSY IDE_DRDY) with 0xC0 in Hst.
  change IDE_DRDY with 0x40 in Hst. destruct (Z.land st 0xC0 =? 0x40); cbn [negb].
  - destruct Hst as [Hw _]. by apply wpe_ret.
  - rewrite <- Er, <- Ed. apply IH. lia.
Qed.

Lemma boot_names n (r : Z -> Z) : 0 <= n < 2 ^ 24 ->
  r 0x1f3 = u8 n -> r 0x1f4 = u8 (Z.shiftr n 8) -> r 0x1f5 = u8 (Z.shiftr n 16) ->
  r 0x1f6 = u8 (Z.lor (Z.shiftr n 24) 0xE0) -> ata_drive r = 0 /\ ata_sector r = n.
Proof.
  intros Hn E3 E4 E5 E6. unfold ata_drive, ata_sector. rewrite E3, E4, E5, E6. clear E3 E4 E5 E6.
  rewrite !Z.shiftr_div_pow2 by lia. rewrite (Z.div_small n (2 ^ 24)) by lia. split; [done|].
  change (u8 (Z.lor 0 0xE0) mod 2 ^ 4) with 0. unfold u8.
  rewrite (Z.mod_small (n / 2 ^ 16)) by (split; [apply Z.div_pos|apply Z.div_lt_upper_bound]; lia).
  pose proof (Z.div_mod n (2 ^ 8) ltac:(lia)). pose proof (Z.div_mod (n / 2 ^ 8) (2 ^ 8) ltac:(lia)) as H8.
  rewrite Z.div_div in H8 by lia. change (2 ^ 8 * 2 ^ 8) with (2 ^ 16) in H8. lia.
Qed.

Lemma wp_bport {A} (m : M D A) s (Q : A -> boot_st D -> Prop) :
  wp m (bt_dev s) (fun a d => Q a (BootSt d (bt_mem s))) -> wp (bport m) s Q.
Proof. unfold bport, wp, wpe, zoom. cbn [view update]. by destruct (m _). Qed.

Lemma readsect_spec dst offset s : on_disk s -> 0 <= offset < 2 ^ 24 ->
  wp (readsect fuel dst offset) s (fun _ s' => on_disk s' /\ bt_mem s' = store_bytes dst (dk 0 offset) (bt_mem s)).
Proof.
  intros Hd Hoff. unfold readsect. apply wp_bind, wp_bport. apply wp_bind. eapply wp_mono; [|apply waitdisk_spec].
  intros [] d0 (Hw0 & Ed0 & _). change 0x1F2 with 0x1f2. unfold on_disk in Hd. rewrite Hd in Ed0.
  eapply wp_outb_reg; [set_solver|done|done|]. intros d1 Hw1 Er1 Ed1.
  eapply wp_outb_reg; [set_solver|done|done|]. intros d2 Hw2 Er2 Ed2.
  eapply wp_outb_reg; [set_solver|done|done|]. intros d3 Hw3 Er3 Ed3.
  eapply wp_outb_reg; [set_solver|done|done|]. intros d4 Hw4 Er4 Ed4.
  eapply wp_outb_reg; [set_solver|done|done|]. intros d5 Hw5 Er5 Ed5.
  destruct (boot_names offset (at_regs (ata_of d5))) as [Edr Esec]; [done|by rewrite Er5..|].
  apply wp_bind. eapply wp_mono; [|apply ata_read; [done|by rewrite Er5]]. intros [] d6 [Ed6 Eq6]. rewrite Edr, Esec in Eq6.
  apply wp_bind. eapply wp_mono; [|apply waitdisk_spec]. intros [] d7 (Hw7 & Ed7 & Eq7). rewrite Eq6 in Eq7.
  eapply wp_mono; [|by apply (ata_insl d7 _ _ Hw7 Eq7)]. intros bs d8 [-> Ed8]. apply wpe_modify. unfold on_disk. cbn.
  assert (at_disk (ata_of d7) = dk) as -> by congruence. split; [congruence|done].
Qed.

(** Memory after [k] sectors of the file, from byte [512 * sec] on, were
    stored from [a] on. *)
Definition loaded_mem (a sec k : Z) (m : Z -> Z) : Z -> Z := fun x =>
  if (a <=? x) && (x <? a + 512 * k) then file_byte (x - a + 512 * sec) else m x.

Lemma store_sector a sec m x :
  store_bytes a (dk 0 (sec + 1)) m x = loaded_mem a sec 1 m x.
Proof.
  unfold store_bytes, loaded_mem. rewrite dk_sector. change (Z.of_nat 512) with 512. rewrite Z.mul_1_r.
  destruct (Z.leb_spec a x), (Z.ltb_spec x (a + 512)); cbn [andb]; try done. unfold file_byte.
  assert ((x - a + 512 * sec) / 512 = sec) as -> by (rewrite (Z.mul_comm 512), Z.div_add, Z.div_small by lia; lia).
  assert ((x - a + 512 * sec) mod 512 = x - a) as -> by (rewrite (Z.mul_comm 512), Z.mod_add, Z.mod_small by lia; lia).
  done.
Qed.

Lemma loaded_mem_step a sec k m m1 x : 0 <= k ->
  (forall x, m1 x = loaded_mem a sec 1 m x) -> loaded_mem (a + 512) (sec + 1) k m1 x = loaded_mem a sec (k + 1) m x.
Proof.
  intros Hk H. unfold loaded_mem in *.
  destruct (Z.leb_spec (a + 512) x), (Z.ltb_spec x (a + 512 + 512 * k)); cbn [andb]; rewrite ?H;
    destruct (Z.leb_spec a x), (Z.ltb_spec x (a + 512 * (k + 1))), (Z.ltb_spec x (a + 512 * 1)); cbn [andb]; try lia; try done;
    f_equal; lia.
Qed.

(** The loop reads the sectors that it takes to get to [epa]. *)
Lemma readseg_loop_spec n k pa epa sec s :
  on_disk s -> 0 <= pa -> 0 <= sec -> (k < n)%nat ->
  pa + 512 * Z.of_nat k < 2 ^ 32 -> sec + Z.of_nat k + 1 < 2 ^ 24 ->
  512 * (Z.of_nat k - 1) < epa - pa <= 512 * Z.of_nat k ->
  wp (readseg_loop fuel n pa epa (sec + 1)) s (fun _ s' => on_disk s' /\
    forall x, bt_mem s' x = loaded_mem pa sec (Z.of_nat k) (bt_mem s) x).
Proof.
  revert n pa sec s. induction k as [|k IH]; intros [|n] pa sec s Hd Hpa Hsec Hn H1 H2 H3; try lia; cbn [readseg_loop].
  - rewrite (proj2 (Z.ltb_ge _ _)) by lia. apply wpe_ret. split; [done|]. intros x. unfold loaded_mem.
    destruct (Z.leb_spec pa x), (Z.ltb_spec x (pa + 512 * Z.of_nat 0)); cbn [andb]; try done; lia.
  - rewrite (proj2 (Z.ltb_lt _ _)) by lia. apply wp_bind. eapply wp_mono; [|apply readsect_spec; [done|lia]].
    intros [] s1 [Hd1 Hm1]. unfold SECTSIZE. rewrite !u32_small by (unfold in_u32; lia).
    eapply wp_mono; [|apply (IH n (pa + 512) (sec + 1) s1); try lia; done]. intros [] s2 [Hd2 Hm2]. split; [done|].
    intros x. rewrite Hm2. replace (Z.of_nat (S k)) with (Z.of_nat k + 1) by lia. apply loaded_mem_step; [lia|].
    intros y. rewrite Hm1. apply store_sector.
Qed.

(** readseg loads its bytes, and touches nothing below the sector in which
    they begin. *)
Lemma readseg_spec pa count off s :
  on_disk s -> 0 <= off -> 0 <= count -> off mod 512 <= pa -> pa + count + 1024 < 2 ^ 32 -> off + count + 1024 < 2 ^ 32 ->
  wp (readseg fuel pa count off) s (fun _ s' => on_disk s' /\
    (forall x, pa <= x < pa + count -> bt_mem s' x = file_byte (off + (x - pa))) /\
    (forall x, x < pa - off mod 512 -> bt_mem s' x = bt_mem s x)).
Proof.
  intros Hd Ho Hc Hp H1 H2. pose proof (Z.mod_pos_bound off 512 ltac:(lia)) as Hm. pose proof (Z.div_mod off 512 ltac:(lia)) as Hdm.
  assert (0 <= off / 512) by (apply Z.div_pos; lia). set (k := (count + off mod 512 + 511) / 512).
  pose proof (Z.div_mod (count + off mod 512 + 511) 512 ltac:(lia)) as Hk. fold k in Hk.
  pose proof (Z.mod_pos_bound (count + off mod 512 + 511) 512 ltac:(lia)).
  pose proof (Z.div_mod count 512 ltac:(lia)). pose proof (Z.mod_pos_bound count 512 ltac:(lia)).
  assert (0 <= k) by (apply Z.div_pos; lia). unfold readseg, SECTSIZE. rewrite !u32_small by (unfold in_u32; lia).
  eapply wp_mono; [|apply (readseg_loop_spec _ (Z.to_nat k)); try done; lia]. rewrite Z2Nat.id by done.
  intros [] s' [Hd' Hm']. split; [done|]. split; intros x Hx; rewrite Hm'; unfold loaded_mem.
  - rewrite (proj2 (Z.leb_le _ _)), (proj2 (Z.ltb_lt _ _)) by lia. cbn [andb]. f_equal. lia.
  - by rewrite (proj2 (Z.leb_gt _ _)) by lia.
Qed.

(** A segment: where its load begins, where it ends, that it is above the
    page with the headers, and that it is in memory. *)
Definition seg_from (h : list Z) : Z := ph_paddr h - ph_off h mod 512.
Definition seg_end (h : list Z) : Z := ph_paddr h + Z.max (ph_filesz h) (ph_memsz h).

Record seg_ok (h : list Z) : Prop := {
  so_from : 0x11000 <= seg_from h;
  so_end : seg_end h + 1024 < 2 ^ 32;
  so_off : 0 <= ph_off h /\ ph_off h + ph_filesz h + 1024 < 2 ^ 32;
  so_filesz : 0 <= ph_filesz h
}.

(** The segment is in memory: its bytes of the file, then zeros. *)
Definition seg_loaded (h : list Z) (m : Z -> Z) : Prop :=
  (forall x, ph_paddr h <= x < ph_paddr h + ph_filesz h -> m x = file_byte (ph_off h + (x - ph_paddr h))) /\
  (forall x, ph_paddr h + ph_filesz h <= x < ph_paddr h + ph_memsz h -> m x = 0).

Lemma seg_loaded_ext h m m' : (forall x, x < seg_end h -> m' x = m x) -> seg_loaded h m -> seg_loaded h m'.
Proof.
  unfold seg_end. intros He [H1 H2]. split; intros x Hx; (rewrite He; [auto|lia]).
Qed.

(** The page with the headers. *)
Definition scratch_ok (m : Z -> Z) : Prop := forall x, 0x10000 <= x < 0x11000 -> m x = file_byte (x - 0x10000).

Definition file_bytes (off n : Z) : list Z := (fun i => file_byte (off + i)) <$> seqZ 0 n.

Lemma scratch_bytes m a n : scratch_ok m -> 0x10000 <= a -> 0 <= n -> a + n <= 0x11000 -> mem_bytes m a n = file_bytes (a - 0x10000) n.
Proof.
  intros Hs Ha Hn He. unfold mem_bytes, file_bytes. apply list_fmap_ext. intros i x Hx. apply lookup_seqZ in Hx as [-> Hi].
  rewrite Hs by lia. f_equal. lia.
Qed.

(** Loading one segment. *)
Lemma load_segment h s {A} (k : M (boot_st D) A) ph (Q : A -> boot_st D -> Prop) :
  on_disk s -> scratch_ok (bt_mem s) -> seg_ok h ->
  (forall m, scratch_ok m -> mem_bytes m ph sizeof_proghdr = h) ->
  (forall s', on_disk s' -> scratch_ok (bt_mem s') -> seg_loaded h (bt_mem s') ->
     (forall x, x < seg_from h -> bt_mem s' x = bt_mem s x) -> wp k s' Q) ->
  wp (h ← gets (fun s => mem_bytes (bt_mem s) ph sizeof_proghdr);
      readseg fuel (ph_paddr h) (ph_filesz h) (ph_off h) ;;
      h' ← gets (fun s => mem_bytes (bt_mem s) ph sizeof_proghdr);
      when (ph_filesz h' <? ph_memsz h')
        (bstore (u32 (ph_paddr h + ph_filesz h')) (replicate (Z.to_nat (ph_memsz h' - ph_filesz h')) 0)) ;; k) s Q.
Proof.
  intros Hd Hsc [Hf He [Ho1 Ho2] Hs] Hh Hk. unfold seg_from, seg_end in *. pose proof (Z.mod_pos_bound (ph_off h) 512 ltac:(lia)).
  apply wp_bind, wpe_gets. rewrite (Hh _ Hsc). apply wp_bind. eapply wp_mono; [|apply readseg_spec; try done; lia].
  intros [] s1 (Hd1 & Hl1 & Hb1).
  assert (Hsc1 : scratch_ok (bt_mem s1)) by (intros x Hx; rewrite Hb1 by lia; by apply Hsc).
  apply wp_bind, wpe_gets. rewrite (Hh _ Hsc1). apply wp_bind.
  destruct (Z.ltb_spec (ph_filesz h) (ph_memsz h)) as [Hz|Hz]; cbn [when].
  - rewrite u32_small by (unfold in_u32; lia). apply wpe_modify.
    set (s2 := BootSt _ _). assert (Hm2 : forall x, bt_mem s2 x =
      if (ph_paddr h + ph_filesz h <=? x) && (x <? ph_paddr h + ph_memsz h) then 0 else bt_mem s1 x).
    { intros x. cbn. unfold store_bytes. rewrite length_replicate, Z2Nat.id by lia.
      replace (ph_paddr h + ph_filesz h + (ph_memsz h - ph_filesz h)) with (ph_paddr h + ph_memsz h) by lia.
      destruct (_ && _) eqn:Hc; [|done]. apply andb_prop in Hc as [?%Z.leb_le ?%Z.ltb_lt]. rewrite lookup_replicate_2; [done|lia]. }
    apply Hk; [done| | |].
    + intros x Hx. rewrite Hm2, (proj2 (Z.leb_gt _ _)) by lia. by apply Hsc1.
    + split; intros x Hx; rewrite Hm2.
      * rewrite (proj2 (Z.leb_gt _ _)) by lia. by apply Hl1.
      * by rewrite (proj2 (Z.leb_le _ _)), (proj2 (Z.ltb_lt _ _)) by lia.
    + intros x Hx. rewrite Hm2, (proj2 (Z.leb_gt _ _)) by (unfold seg_from in Hx; lia). by apply Hb1.
  - apply wpe_ret, Hk; [done|done| |done]. split; [done|]. intros x Hx. lia.
Qed.

(** Later segments begin after earlier ones end. *)
Definition seg_before (h h' : list Z) : Prop := seg_end h <= seg_from h'.

(** The headers of the file, from offset [off] on. *)
Definition file_headers (off : Z) (n : nat) : list (list Z) :=
  (fun j => file_bytes (off + sizeof_proghdr * Z.of_nat j) sizeof_proghdr) <$> seq 0 n.

Lemma file_headers_S off n : file_headers off (S n) = file_bytes off sizeof_proghdr :: file_headers (off + sizeof_proghdr) n.
Proof.
  unfold file_headers. cbn [seq fmap list_fmap]. f_equal; [f_equal; lia|]. rewrite <- seq_shift, <- list_fmap_compose.
  apply list_fmap_ext. intros i j _. cbn -[Z.of_nat Z.mul]. f_equal. lia.
Qed.

Lemma load_kernel_spec n ph s :
  on_disk s -> scratch_ok (bt_mem s) -> 0x10000 <= ph -> ph + sizeof_proghdr * Z.of_nat n <= 0x11000 ->
  Forall seg_ok (file_headers (ph - 0x10000) n) -> StronglySorted seg_before (file_headers (ph - 0x10000) n) ->
  wp (load_kernel fuel n ph) s (fun _ s' => scratch_ok (bt_mem s') /\
    Forall (fun h => seg_loaded h (bt_mem s')) (file_headers (ph - 0x10000) n) /\
    forall x, Forall (fun h => x < seg_from h) (file_headers (ph - 0x10000) n) -> bt_mem s' x = bt_mem s x).
Proof.
  unfold sizeof_proghdr. revert ph s. induction n as [|n IH]; intros ph s Hd Hsc H0 Hlt Hok Hs; [by apply wpe_ret|].
  rewrite file_headers_S in Hok, Hs |- *. unfold sizeof_proghdr in *. set (h := file_bytes (ph - 0x10000) 32) in *.
  apply Forall_cons in Hok as [Hh Hok]. apply StronglySorted_inv in Hs as [Hs Hb]. cbn [load_kernel].
  apply (load_segment h); [done|done|done| |].
  { intros m Hm. by apply scratch_bytes; [..|unfold sizeof_proghdr; lia|unfold sizeof_proghdr; lia]. }
  intros s1 Hd1 Hsc1 Hl1 Hb1. unfold sizeof_proghdr. rewrite u32_small by (unfold in_u32; lia).
  replace (ph - 0x10000 + 32) with (ph + 32 - 0x10000) in * by lia.
  eapply wp_mono; [|apply (IH (ph + 32) s1); try done; lia]. intros [] s2 (Hsc2 & Hl2 & Hb2). split; [done|]. split.
  - apply Forall_cons. split; [|done]. eapply seg_loaded_ext; [|exact Hl1]. intros x Hx. apply Hb2.
    eapply Forall_impl; [exact Hb|]. cbn. unfold seg_before. intros h' Hh'. lia.
  - intros x [Hx1 Hx2]%Forall_cons. rewrite Hb2, Hb1; done.
Qed.

(** C39: the boot loader loads the kernel. When the file on the disk is an ELF
    file whose headers are in its first page, and whose segments lie above
    the page that the loader uses and in order, bootmain jumps to the entry
    point with every segment in memory: the bytes of the file, followed by
    zeros up to the size in memory, although whole sectors are read. *)
Theorem bootmain_loads s :
  on_disk s -> let h := file_bytes 0 sizeof_elfhdr in
  elf_magic h = ELF_MAGIC -> 0 <= elf_phoff h -> 0 <= elf_phnum h ->
  elf_phoff h + sizeof_proghdr * elf_phnum h <= 0x1000 ->
  let hs := file_headers (elf_phoff h) (Z.to_nat (elf_phnum h)) in
  Forall seg_ok hs -> StronglySorted seg_before hs ->
  wp (bootmain fuel) s (fun r s' => r = Some (elf_entry h) /\ Forall (fun p => seg_loaded p (bt_mem s')) hs).
Proof.
  intros Hd h Hmagic Hp Hn Hmax hs Hok Hs. unfold bootmain. apply wp_bind. eapply wp_mono; [|by apply (readseg_spec 0x10000 4096 0 s)].
  intros [] s1 (Hd1 & Hl1 & _). assert (Hsc : scratch_ok (bt_mem s1)) by (intros x Hx; rewrite Hl1 by lia; f_equal; lia).
  assert (Hh : forall m, scratch_ok m -> mem_bytes m 0x10000 sizeof_elfhdr = h) by (intros m Hm; by apply scratch_bytes).
  apply wp_bind, wpe_gets. rewrite (Hh _ Hsc), Hmagic, Z.eqb_refl. cbn [negb].
  unfold sizeof_proghdr in Hmax. rewrite u32_small by (unfold in_u32; lia). apply wp_bind.
  eapply wp_mono; [|apply (load_kernel_spec _ (0x10000 + elf_phoff h) s1)]; try done; unfold sizeof_proghdr; try lia;
    rewrite ?Z.add_simpl_l; try done.
  intros [] s2 (Hsc2 & Hl2 & _). apply wp_bind, wpe_gets, wpe_ret. by rewrite (Hh _ Hsc2).
Qed.

End load.

(** ** A small kernel *)

#[local] Instance good_ports : Ports ata := sim_ports (fun _ _ => false).
#[local] Instance good_disk : AtaDisk ata (fun _ _ => false) 2 := sim_disk (fun _ _ => false).

(** One segment: five bytes from offset 100, three zeros after them. *)
Definition demo_file : list Z :=
  [0x7F; 69; 76; 70] ++ replicate 20 0 ++ le_bytes 4 0x100064 ++ le_bytes 4 52 ++ replicate 12 0 ++ le_bytes 2 1 ++ replicate 6 0 ++
  le_bytes 4 1 ++ le_bytes 4 100 ++ le_bytes 4 0 ++ le_bytes 4 0x100064 ++ le_bytes 4 5 ++ le_bytes 4 8 ++ replicate 8 0 ++
  replicate 16 0 ++ [1; 2; 3; 4; 5] ++ replicate 407 7.

Definition demo_boot_disk (dr sec : Z) : list Z := if sec =? 1 then demo_file else replicate 512 0.

Definition demo_boot : boot_st ata := BootSt (Ata (fun _ => 0) NoReq demo_boot_disk 1) (fun _ => 9).

Definition demo_header : list Z := file_bytes demo_boot_disk 52 32.

Lemma demo_header_ok : seg_ok demo_header.
Proof. by split. Qed.

Lemma bootmain_loads_witness :
  wp (bootmain 3) demo_boot (fun r s' => r = Some 0x100064 /\ bt_mem s' 0x100065 = 2 /\ bt_mem s' 0x10006A = 0).
Proof.
  eapply wp_mono; [|apply (bootmain_loads demo_boot_disk)].
  - intros r s' [-> H]. change (Forall (fun p => seg_loaded demo_boot_disk p (bt_mem s')) [demo_header]) in H.
    apply Forall_cons in H as [[H1 H2] _]. split; [done|]. split; [by rewrite H1|by rewrite H2].
  - intros sec. unfold demo_boot_disk. by case_match.
  - done.
  - done.
  - done.
  - done.
  - done.
  - apply Forall_singleton, demo_header_ok.
  - change (StronglySorted seg_before [demo_header]). repeat constructor.
Defined.
