(* ===== verification/Startup.v ===== *)
(** Starting the other processors: [startothers], [mpmain] and [entrypgdir] of
    [main.c] with the code at the end of [entryother.S].

    The boot processor allocates a stack for each processor, leaves the stack,
    the entry point and the page directory in the three words below the code at
    0x7000, and has the processor start there. All processors read the same
    three words. The interleaving of the boot processor and the others is a
    step relation. The mode switch at the beginning of [entryother.S] is one
    step up to the load of the page directory; the work of [mpenter] up to the
    flag is one step too. *)

From S2P Require Import Prelude Mem Mmu Kalloc.

Open Scope Z_scope.

(** ** entrypgdir *)

Definition entrypgdir_entries : list Z :=
  <[Z.to_nat (Z.shiftr KERNBASE PDXSHIFT) := Z.lor (Z.lor PTE_P PTE_W) PTE_PS]>
    (<[O := Z.lor (Z.lor PTE_P PTE_W) PTE_PS]> (replicate (Z.to_nat NPDENTRIES) 0)).

(** The processor, with page size extension: a directory entry with PTE_PS maps
    4 Mbyte. *)
Definition translate_4m (pgdir : list Z) (va : Z) : option Z :=
  pde ← pgdir !! Z.to_nat (PDX va);
  if (Z.land pde PTE_P =? 0) || (Z.land pde PTE_PS =? 0) then None
  else Some (Z.lor (Z.land pde 0xFFC00000) (va mod 2 ^ 22)).

(** ** The state *)

(** A processor: off, at the entry of the code, and as it loads its registers. *)
Inductive ap :=
  | Off
  | At (addr : Z)
  | Paged (cr3 : Z)
  | Stacked (cr3 esp : Z)
  | Entered (cr3 esp eip : Z)
  | Up (cr3 esp eip : Z).

Record apcpu := ApCpu { a_apicid : Z; a_started : Z; a_state : ap }.

(** Where the boot processor is in the loop of startothers. *)
Inductive bpc := Loop (i : nat) | Wait (i : nat) | Finished.

Record boot := Boot { b_mem : kmem; b_cpus : list apcpu; b_pc : bpc }.

Definition set_pc p s := Boot (b_mem s) (b_cpus s) p.
Definition set_cpus l s := Boot (b_mem s) l (b_pc s).
Definition set_mem m s := Boot m (b_cpus s) (b_pc s).

Definition mem_lens : lens boot kmem := Lens b_mem set_mem.

(** The address at which entryother.S is linked, and to which startothers
    copies it. *)
Definition start : Z := 0x7000.
Definition code : Z := P2V 0x7000.

Section startup.

(** The boot processor among [cpus], the function mpenter, the page directory,
    and the return address of the call of mpenter. *)
Variable (self : nat) (mpenter entrypgdir return_addr : Z).

(** A word of the memory that all processors share. *)
Definition poke (a v : Z) : M boot unit := zoom mem_lens (modify (fun k => set_phys (store32 (phys k) a v) k)).

(** What the hardware does on lapicstartap: the processor with that identifier
    starts at the address. *)
Definition startap (apicid addr : Z) : M boot unit :=
  modify (fun s => set_cpus ((fun c => if a_apicid c =? apicid then ApCpu (a_apicid c) (a_started c) (At addr) else c) <$> b_cpus s) s).

(** The body of the loop, for the processor [c]. *)
Definition startothers_cpu (c : apcpu) : M boot unit :=
  stack ← zoom mem_lens kalloc;
  poke (code - 4) (stack + KSTACKSIZE) ;;
  poke (code - 8) mpenter ;;
  poke (code - 12) (V2P entrypgdir) ;;
  startap (a_apicid c) (V2P code).

Definition startothers_step : M boot unit :=
  s ← get;
  match b_pc s with
  | Loop i =>
      match b_cpus s !! i with
      | None => put (set_pc Finished s)
      | Some c =>
          if Nat.eqb i self then put (set_pc (Loop (S i)) s)
          else startothers_cpu c ;; modify (set_pc (Wait i))
      end
  | Wait i =>
      match b_cpus s !! i with
      | Some c => if a_started c =? 0 then mret tt else put (set_pc (Loop (S i)) s)
      | None => mret tt
      end
  | Finished => mret tt
  end.

(** A word below the code, as the code reads it: at its low address. *)
Definition below (o : Z) : M boot Z := gets (fun s => load32 (phys (b_mem s)) (P2V (start - o))).

Definition set_ap (i : nat) (st : ap) : M boot unit :=
  modify (fun s => set_cpus (alter (fun c => ApCpu (a_apicid c) (a_started c) st) i (b_cpus s)) s).

(** The processor is up: mpmain sets its flag. *)
Definition mpmain_started (i : nat) (st : ap) : M boot unit :=
  modify (fun s => set_cpus (alter (fun c => ApCpu (a_apicid c) 1 st) i (b_cpus s)) s).

(** One step of the processor [i]; the call pushes its return address. *)
Definition ap_step (i : nat) : M boot unit :=
  s ← get;
  match a_state <$> b_cpus s !! i with
  | Some (At addr) => when (addr =? start) (cr3 ← below 12; set_ap i (Paged cr3))
  | Some (Paged cr3) => esp ← below 4; set_ap i (Stacked cr3 esp)
  | Some (Stacked cr3 esp) =>
      eip ← below 8;
      poke (esp - 4) return_addr ;;
      set_ap i (Entered cr3 (esp - 4) eip)
  | Some (Entered cr3 esp eip) => mpmain_started i (Up cr3 esp eip)
  | _ => mret tt
  end.

Inductive step : boot -> boot -> Prop :=
  | step_boot s s' : startothers_step s = Ret tt s' -> step s s'
  | step_ap i s s' : ap_step i s = Ret tt s' -> step s s'.

End startup.

(** The page directory maps the first 4 Mbyte at 0 and at KERNBASE, and nothing
    else: the code that turns paging on goes on at its low address, and the
    kernel can be entered at its high address. *)
Theorem entrypgdir_maps va :
  in_u32 va ->
  translate_4m entrypgdir_entries va =
    if (0 <=? va) && (va <? 2 ^ 22) then Some va
    else if (KERNBASE <=? va) && (va <? KERNBASE + 2 ^ 22) then Some (va - KERNBASE) else None.
Proof.
  intros Hva. assert (Hx : PDX va = va / 2 ^ 22).
  { unfold PDX, PDXSHIFT. rewrite u32_small by done. rewrite Z.shiftr_div_pow2 by lia. change 0x3FF with (Z.ones 10). rewrite Z.land_ones by lia.
    apply Z.mod_small. unfold in_u32 in Hva. split; [apply Z.div_pos; lia|apply Z.div_lt_upper_bound; lia]. }
  unfold translate_4m. rewrite Hx. unfold in_u32, KERNBASE in *. pose proof (Z.div_mod va (2 ^ 22) ltac:(lia)) as Hd.
  pose proof (Z.mod_pos_bound va (2 ^ 22) ltac:(lia)) as Hm. set (q := va / 2 ^ 22) in *. set (o := va mod 2 ^ 22) in *.
  assert (Hq : 0 <= q < 1024) by lia. unfold entrypgdir_entries. change (Z.to_nat (Z.shiftr KERNBASE PDXSHIFT)) with 512%nat.
  change (Z.to_nat NPDENTRIES) with 1024%nat. set (e := Z.lor (Z.lor PTE_P PTE_W) PTE_PS).
  assert (Hent : (pde ← Some e; if (Z.land pde PTE_P =? 0) || (Z.land pde PTE_PS =? 0) then None else Some (Z.lor (Z.land pde 0xFFC00000) o)) = Some o) by done.
  destruct (decide (q = 512)) as [E|N1]; [|destruct (decide (q = 0)) as [E|N2]].
  - rewrite E. change (Z.to_nat 512) with 512%nat. rewrite list_lookup_insert_eq by (rewrite length_insert, length_replicate; lia).
    rewrite Hent, (proj2 (Z.ltb_ge va _)), andb_false_r by lia. rewrite (proj2 (Z.leb_le _ _)), (proj2 (Z.ltb_lt _ _)) by lia. cbn [andb]. f_equal. lia.
  - rewrite E. change (Z.to_nat 0) with O. rewrite list_lookup_insert_ne by lia. rewrite list_lookup_insert_eq by (rewrite length_replicate; lia).
    rewrite Hent, (proj2 (Z.leb_le 0 va)), (proj2 (Z.ltb_lt _ _)) by lia. cbn [andb]. f_equal. lia.
  - rewrite !list_lookup_insert_ne by lia. rewrite lookup_replicate_2 by lia. cbn.
    rewrite (proj2 (Z.ltb_ge va _)), andb_false_r by lia.
    destruct (Z.leb_spec 2147483648 va); [|done]. rewrite (proj2 (Z.ltb_ge _ _)) by lia. done.
Qed.

(** ** One processor at a time *)

Section invariant.
Context (kend : Z) (self : nat) (mpenter entrypgdir return_addr : Z) (pages : list Z) (n : nat).
Hypothesis Hkend : code <= kend.
Hypothesis Hent : in_u32 mpenter.

Local Notation step := (step self mpenter entrypgdir return_addr).

(** The number of other processors before [i]: the place of the stack of the
    processor [i] in the list of free pages. *)
Definition others (i : nat) : nat := if decide (self < i)%nat then (i - 1)%nat else i.

(** There is a page for every processor. *)
Hypothesis Hroom : (others n <= length pages)%nat.
Hypothesis Hself : (self < n)%nat.
Hypothesis Hpages : NoDup pages /\ Forall (valid_page kend) pages.

Definition stack_top (j : nat) : Z := default 0 (pages !! others j) + KSTACKSIZE.

(** A processor that runs has the page directory, its own stack and the entry
    point that startothers has left for it. *)
Definition ap_good (j : nat) (a : ap) : Prop :=
  match a with
  | Off => False
  | At addr => addr = start
  | Paged cr3 => cr3 = V2P entrypgdir
  | Stacked cr3 esp => cr3 = V2P entrypgdir /\ esp = stack_top j
  | Entered cr3 esp eip | Up cr3 esp eip => cr3 = V2P entrypgdir /\ esp = stack_top j - 4 /\ eip = mpenter
  end.

Definition is_up (a : ap) : bool := match a with Up _ _ _ => true | _ => false end.

Definition fresh (c : apcpu) : Prop := a_started c = 0 /\ a_state c = Off.
Definition running (j : nat) (c : apcpu) : Prop := a_started c = (if is_up (a_state c) then 1 else 0) /\ ap_good j (a_state c).
Definition done_cpu (j : nat) (c : apcpu) : Prop := a_started c = 1 /\ ap_good j (a_state c) /\ is_up (a_state c) = true.

(** What holds of the processor [j] when the boot processor is at [p]. *)
Definition cpu_inv (p : bpc) (j : nat) (c : apcpu) : Prop :=
  match p with
  | Loop i => if decide (j < i)%nat then done_cpu j c else fresh c
  | Wait i => if decide (j < i)%nat then done_cpu j c else if decide (j = i) then running j c else fresh c
  | Finished => done_cpu j c
  end.

Definition taken (p : bpc) : nat :=
  match p with Loop i => others i | Wait i => S (others i) | Finished => others n end.

Definition slots (m : mem) (j : nat) : Prop :=
  load32 m (code - 4) = stack_top j /\ load32 m (code - 8) = mpenter /\ load32 m (code - 12) = V2P entrypgdir.

Record sinv (s : boot) : Prop := {
  si_len : length (b_cpus s) = n;
  si_ids : NoDup (a_apicid <$> b_cpus s);
  si_mem : kinv kend (b_mem s) (drop (taken (b_pc s)) pages);
  si_pc : match b_pc s with Loop i => (i <= n)%nat | Wait i => (i < n)%nat /\ i <> self /\ slots (phys (b_mem s)) i | Finished => True end;
  si_self c : b_cpus s !! self = Some c -> a_state c = Off;
  si_cpus j c : b_cpus s !! j = Some c -> j <> self -> cpu_inv (b_pc s) j c
}.

Lemma kinv_poke k l a v : a + 4 <= kend -> kinv kend k l -> kinv kend (set_phys (store32 (phys k) a v) k) l.
Proof.
  intros Ha (H1 & H2 & H3 & H4 & H5). split_and!; [done| |done|done|by apply store32_ok]. cbn. eapply free_pages_ext; [|exact H2].
  intros x Hx. symmetry. apply load32_store32_ne. rewrite Forall_forall in H4. destruct (H4 x Hx) as (_ & Hv & _). lia.
Qed.

Lemma others_S i : others (S i) = if decide (i = self) then others i else S (others i).
Proof. unfold others. repeat case_decide; lia. Qed.

Lemma others_le i : (i < n)%nat -> i <> self -> (others i < others n)%nat.
Proof. unfold others. intros Hi Hne. repeat case_decide; lia. Qed.

Lemma others_inj i j : i <> self -> j <> self -> others i = others j -> i = j.
Proof. clear -self. unfold others. intros Hi Hj. repeat case_decide; lia. Qed.

Definition started_at (id : Z) (c : apcpu) : apcpu :=
  if a_apicid c =? id then ApCpu (a_apicid c) (a_started c) (At (V2P code)) else c.

(** What the boot processor does for a processor. *)
Lemma startothers_cpu_spec s i c :
  sinv s -> b_pc s = Loop i -> b_cpus s !! i = Some c -> i <> self ->
  exists s', (startothers_cpu mpenter entrypgdir c ;; modify (set_pc (Wait i))) s = Ret tt s' /\ sinv s'.
Proof.
  intros [H1 H2 H3 H4 H6 H5] Hpc Hc Hne. apply lookup_lt_Some in Hc as Hi. rewrite H1 in Hi. rewrite Hpc in *. cbn [taken] in H3.
  destruct (lookup_lt_is_Some_2 pages (others i)) as [stk Hstk]; [pose proof (others_le i Hi Hne); lia|].
  rewrite (drop_S _ _ _ Hstk) in H3. pose proof (kalloc_kinv kend (b_mem s) _ H3) as Hk. apply wp_inv in Hk as (r & k & Hk & Hph & _ & -> & Hkinv).
  unfold startothers_cpu, poke, startap, zoom. mred. unfold mem_lens at 1. cbn [view update]. rewrite Hk.
  set (m1 := store32 (phys k) (code - 4) (stk + KSTACKSIZE)). set (m2 := store32 m1 (code - 8) mpenter). set (m3 := store32 m2 (code - 12) (V2P entrypgdir)).
  exists (Boot (set_phys m3 k) (started_at (a_apicid c) <$> b_cpus s) (Wait i)). split; [reflexivity|].
  assert (Hst : stack_top i = stk + KSTACKSIZE) by (unfold stack_top; by rewrite Hstk).
  assert (Hsr : in_u32 (stk + KSTACKSIZE)).
  { destruct H3 as (_ & _ & _ & Hv & _). apply Forall_cons in Hv as [(_ & _ & Hv) _]. unfold in_u32, KSTACKSIZE, KERNBASE, P2V, PHYSTOP, KERNBASE in *. lia. }
  split; cbn [b_cpus b_mem b_pc taken].
  - by rewrite length_fmap.
  - rewrite <- list_fmap_compose. erewrite list_fmap_ext; [exact H2|]. intros j c' _. cbn. unfold started_at. by case_match.
  - unfold code, P2V in Hkend. apply (kinv_poke (set_phys m2 k)); [unfold code, P2V; lia|].
    apply (kinv_poke (set_phys m1 k)); [unfold code, P2V; lia|]. apply kinv_poke; [unfold code, P2V; lia|done].
  - split_and!; [done..|]. unfold slots. cbn [phys set_phys]. unfold m3, m2, m1. split_and!.
    + rewrite !load32_store32_ne by lia. rewrite load32_store32_eq. rewrite Hst. by apply u32_small.
    + rewrite load32_store32_ne by lia. rewrite load32_store32_eq. by apply u32_small.
    + rewrite load32_store32_eq. apply u32_small. apply u32_range.
  - intros c' Hc'. rewrite list_lookup_fmap in Hc'. destruct (b_cpus s !! self) as [cs|] eqn:Es; [|done]. injection Hc' as <-. unfold started_at.
    rewrite (proj2 (Z.eqb_neq _ _)); [by apply H6|]. intros Heq. apply Hne.
    eapply (NoDup_lookup _ i self (a_apicid c) H2); rewrite list_lookup_fmap; [by rewrite Hc|rewrite Es; cbn; by rewrite Heq].
  - intros j c' Hj Hjs. rewrite list_lookup_fmap in Hj. destruct (b_cpus s !! j) as [cj|] eqn:Ej; [|done]. injection Hj as <-.
    specialize (H5 j cj Ej Hjs). cbn [cpu_inv] in *. unfold started_at. destruct (decide (j = i)) as [->|Hji].
    + rewrite decide_False in H5 by lia. rewrite decide_False by lia. rewrite Hc in Ej. injection Ej as <-. rewrite Z.eqb_refl.
      destruct H5 as [Hs0 _]. split; done.
    + rewrite (proj2 (Z.eqb_neq _ _)); [done|].
      intros Heq. apply Hji. eapply (NoDup_lookup _ j i (a_apicid cj) H2); rewrite list_lookup_fmap; [by rewrite Ej|rewrite Hc; cbn; by rewrite Heq].
Qed.

Lemma sinv_boot s s' : sinv s -> startothers_step self mpenter entrypgdir s = Ret tt s' -> sinv s'.
Proof.
  intros Hs. unfold startothers_step. mred. destruct (b_pc s) as [i|i|] eqn:Hpc; [| |by intros [= <-]].
  - destruct (b_cpus s !! i) as [c|] eqn:Hc; [destruct (Nat.eqb_spec i self) as [->|Hne]|].
    + intros [= <-]. destruct Hs as [H1 H2 H3 H4 H6 H5]. rewrite Hpc in *. apply lookup_lt_Some in Hc. split; cbn [b_pc set_pc b_cpus b_mem]; try done.
      * cbn [taken]. rewrite others_S, decide_True by done. exact H3.
      * intros j c' Hj Hjs. specialize (H5 j c' Hj Hjs). cbn [cpu_inv] in *. do 2 case_decide; try done; lia.
    + intros H. destruct (startothers_cpu_spec s i c Hs Hpc Hc Hne) as (s2 & H2 & Hs2). 
      assert (H' : (startothers_cpu mpenter entrypgdir c ;; modify (set_pc (Wait i))) s = Ret tt s') by exact H. rewrite H2 in H'. by injection H' as <-.
    + intros [= <-]. destruct Hs as [H1 H2 H3 H4 H6 H5]. rewrite Hpc in *. apply lookup_ge_None in Hc. replace i with n in * by lia.
      split; cbn [b_pc set_pc b_cpus b_mem]; try done. intros j c' Hj Hjs. specialize (H5 j c' Hj Hjs). cbn [cpu_inv] in *.
      apply lookup_lt_Some in Hj. rewrite decide_True in H5 by lia. done.
  - destruct (b_cpus s !! i) as [c|] eqn:Hc; [|by intros [= <-]]. destruct (Z.eqb_spec (a_started c) 0) as [|Hnz]; [by intros [= <-]|].
    intros [= <-]. destruct Hs as [H1 H2 H3 H4 H6 H5]. rewrite Hpc in *. destruct H4 as (Hi & Hne & _). split; cbn [b_pc set_pc b_cpus b_mem]; try done.
    + cbn [taken]. rewrite others_S, decide_False by done. exact H3.
    + intros j c' Hj Hjs. specialize (H5 j c' Hj Hjs). cbn [cpu_inv] in *. destruct (decide (j = i)) as [->|Hji].
      * rewrite decide_False in H5 by lia. rewrite decide_True by lia. rewrite Hc in Hj. injection Hj as <-. destruct H5 as [Ha Hb].
        destruct (is_up (a_state c)) eqn:Hu; [|done]. done.
      * do 2 case_decide; try done; lia.
Qed.

(** A processor that is on its way is the one that the boot processor waits for. *)
Lemma ap_current s i c : sinv s -> b_cpus s !! i = Some c -> a_state c <> Off -> is_up (a_state c) = false ->
  b_pc s = Wait i /\ running i c /\ i <> self.
Proof.
  intros [H1 H2 H3 H4 H6 H5] Hc Hoff Hup. assert (Hne : i <> self) by (intros ->; by apply Hoff, H6). specialize (H5 i c Hc Hne).
  assert (Hd : ~ done_cpu i c) by (intros (_ & _ & Hu); by rewrite Hu in Hup). assert (Hf : ~ fresh c) by (by intros [_ Ho]).
  destruct (b_pc s) as [j|j|]; cbn [cpu_inv] in H5; [by case_decide| |done]. case_decide; [done|]. case_decide as Hij; [|done]. by subst.
Qed.

(** A step of that processor. *)
Lemma sinv_current s i c k (g : apcpu -> apcpu) :
  sinv s -> b_pc s = Wait i -> b_cpus s !! i = Some c -> a_apicid (g c) = a_apicid c -> running i (g c) ->
  kinv kend k (drop (S (others i)) pages) -> slots (phys k) i -> sinv (Boot k (alter g i (b_cpus s)) (Wait i)).
Proof.
  intros [H1 H2 H3 H4 H6 H5] Hpc Hc Hid Hrun Hk Hsl. rewrite Hpc in *. destruct H4 as (Hi & Hne & _). split; cbn [b_pc b_cpus b_mem]; try done.
  - by rewrite length_alter.
  - replace (a_apicid <$> alter g i (b_cpus s)) with (a_apicid <$> b_cpus s); [done|]. apply list_eq. intros j. rewrite !list_lookup_fmap.
    destruct (decide (j = i)) as [->|]; [rewrite list_lookup_alter_eq, Hc; cbn; by rewrite Hid|by rewrite list_lookup_alter_ne by done].
  - intros c'. rewrite list_lookup_alter_ne by done. apply H6.
  - intros j c' Hj Hjs. destruct (decide (j = i)) as [->|Hji].
    + rewrite list_lookup_alter_eq, Hc in Hj. injection Hj as <-. cbn [cpu_inv]. rewrite decide_False by lia. by rewrite decide_True.
    + rewrite list_lookup_alter_ne in Hj by done. by apply H5.
Qed.

(** The stack of a processor: a page that is not free any more. *)
Lemma stack_page j : (j < n)%nat -> j <> self ->
  exists stk, stack_top j = stk + KSTACKSIZE /\ valid_page kend stk /\ stk ∉ drop (S (others j)) pages /\ pages !! others j = Some stk.
Proof.
  intros Hj Hne. destruct Hpages as [Hnd Hv]. destruct (lookup_lt_is_Some_2 pages (others j)) as [stk Hstk]; [pose proof (others_le j Hj Hne); lia|].
  exists stk. split_and!; [unfold stack_top; by rewrite Hstk|by eapply Forall_lookup_1| |done].
  intros Hin. apply list_elem_of_lookup in Hin as [m Hm]. rewrite lookup_drop in Hm. pose proof (NoDup_lookup _ _ _ _ Hnd Hstk Hm). lia.
Qed.

Lemma push_on_stack s i v :
  sinv s -> b_pc s = Wait i ->
  let k := set_phys (store32 (phys (b_mem s)) (stack_top i - 4) v) (b_mem s) in
  kinv kend k (drop (S (others i)) pages) /\ slots (phys k) i.
Proof.
  intros [H1 H2 (K1 & K2 & K3 & K4 & K5) H4 H6 H5] Hpc k. rewrite Hpc in *. cbn [taken] in *. destruct H4 as (Hi & Hne & S1 & S2 & S3).
  destruct (stack_page i Hi Hne) as (stk & Hst & (Ha & Hb & Hc) & Hnin & _).
  assert (Hsub : stack_top i - 4 = stk + 4092) by (rewrite Hst; unfold KSTACKSIZE; lia).
  assert (Hlow : forall o, o <= 12 -> 4 <= o -> load32 (phys k) (code - o) = load32 (phys (b_mem s)) (code - o)).
  { intros o Ho1 Ho2. unfold k. cbn [phys set_phys]. apply load32_store32_ne. lia. }
  split; [|unfold slots; by rewrite !Hlow by lia]. unfold k. split_and!; [done| |done|done|by apply store32_ok].
  cbn [phys set_phys freelist]. eapply free_pages_ext; [|exact K2]. intros x Hx. symmetry. apply load32_store32_ne. rewrite Forall_forall in K4.
  destruct (K4 x Hx) as (Hxa & _ & _). assert (Hxs : x <> stk) by (by intros ->). pose proof (pages_disjoint x stk Hxa Ha Hxs). unfold PGSIZE in *. lia.
Qed.

Lemma sinv_ap i s s' : sinv s -> ap_step return_addr i s = Ret tt s' -> sinv s'.
Proof.
  intros Hs. unfold ap_step, below, set_ap, poke, mpmain_started. mred. destruct (b_cpus s !! i) as [c|] eqn:Hc; [|by intros [= <-]]. cbn [fmap option_fmap option_map].
  destruct (a_state c) as [|addr|cr3|cr3 esp|cr3 esp eip|cr3 esp eip] eqn:Ha; try (by intros [= <-]);
    (destruct (ap_current s i c Hs Hc) as (Hpc & [Hst Hg] & Hne); [by rewrite Ha|by rewrite Ha|]); rewrite Ha in Hst, Hg; cbn [ap_good is_up] in Hst, Hg;
    pose proof (si_pc s Hs) as Hp; rewrite Hpc in Hp; destruct Hp as (Hi & _ & Hsl); pose proof (si_mem s Hs) as Hk; rewrite Hpc in Hk; cbn [taken] in Hk;
    pose proof Hsl as (S1 & S2 & S3).
  - subst addr. rewrite Z.eqb_refl. intros [= <-]. unfold set_cpus. rewrite Hpc. by apply (sinv_current s i c).
  - subst cr3. intros [= <-]. unfold set_cpus. rewrite Hpc. by apply (sinv_current s i c).
  - destruct Hg as [-> ->]. intros [= <-]. unfold set_cpus, set_mem, mem_lens. cbn [b_mem b_cpus b_pc view update]. rewrite Hpc.
    destruct (push_on_stack s i return_addr Hs Hpc) as [Hk' Hsl']. by apply (sinv_current s i c).
  - destruct Hg as (-> & -> & ->). intros [= <-]. unfold set_cpus. rewrite Hpc. by apply (sinv_current s i c).
Qed.

Lemma sinv_reachable s s' : sinv s -> rtc step s s' -> sinv s'.
Proof. intros Hs Hr. induction Hr as [|s s1 s2 Hst _ IH]; [done|]. apply IH. destruct Hst; eauto using sinv_boot, sinv_ap. Qed.
End invariant.

(** The machine when startothers is called: the other processors are off. *)
Definition cold (k : kmem) (ids : list Z) : boot := Boot k ((fun id => ApCpu id 0 Off) <$> ids) (Loop 0).

(** C20: Although all processors read their stack from the same word, every
    processor that comes up has a stack of its own, the page directory and the
    entry point: the boot processor does not write the words again before the
    processor that it has started last is up. When startothers returns, all
    processors are up. It is assumed that no two processors have the same
    APIC id, and that there is a free page for the stack of every processor
    but the boot processor: startothers does not look whether kalloc has
    failed, and would give each processor the same stack below address 4096. *)
Theorem aps_own_stacks kend self mpenter entrypgdir return_addr pages k ids s :
  code <= kend -> in_u32 mpenter -> NoDup ids -> (self < length ids <= length pages + 1)%nat -> kinv kend k pages ->
  rtc (step self mpenter entrypgdir return_addr) (cold k ids) s ->
  (forall i c cr3 esp eip, b_cpus s !! i = Some c -> a_state c = Up cr3 esp eip ->
    cr3 = V2P entrypgdir /\ eip = mpenter /\ exists stack, stack ∈ pages /\ esp + 4 = stack + KSTACKSIZE /\
    forall j c' cr3' esp' eip', j <> i -> b_cpus s !! j = Some c' -> a_state c' = Up cr3' esp' eip' -> esp' <> esp) /\
  (b_pc s = Finished -> forall i c, b_cpus s !! i = Some c -> i <> self -> a_started c = 1).
Proof.
  intros Hk Hm Hnd Hself Hki Hr. pose proof Hki as (_ & _ & K3 & K4 & _). set (n := length ids) in *.
  assert (Hroom : (others self n <= length pages)%nat) by (unfold others; rewrite decide_True by lia; lia).
  assert (Hs0 : sinv kend self mpenter entrypgdir pages n (cold k ids)).
  { split; cbn [cold b_cpus b_pc b_mem].
    - by rewrite length_fmap.
    - rewrite <- list_fmap_compose. replace ((a_apicid ∘ (fun id => ApCpu id 0 Off)) <$> ids) with ids; [done|]. symmetry. apply list_fmap_id.
    - exact Hki.
    - lia.
    - intros c. rewrite list_lookup_fmap. by intros (id & _ & ->)%fmap_Some.
    - intros j c. rewrite list_lookup_fmap. intros (id & _ & ->)%fmap_Some _. cbn [cpu_inv]. by rewrite decide_False by lia. }
  pose proof (sinv_reachable kend self mpenter entrypgdir return_addr pages n Hk Hm Hroom (proj1 Hself) (conj K3 K4) _ _ Hs0 Hr) as Hs.
  assert (Hup : forall i c cr3 esp eip, b_cpus s !! i = Some c -> a_state c = Up cr3 esp eip ->
    i <> self /\ (i < n)%nat /\ cr3 = V2P entrypgdir /\ esp = stack_top self pages i - 4 /\ eip = mpenter).
  { intros i c cr3 esp eip Hc Ha. assert (Hne : i <> self) by (intros ->; by rewrite (si_self _ _ _ _ _ _ _ Hs c Hc) in Ha).
    split; [done|]. split; [rewrite <- (si_len _ _ _ _ _ _ _ Hs); by apply lookup_lt_Some in Hc|].
    pose proof (si_cpus _ _ _ _ _ _ _ Hs i c Hc Hne) as Hi. destruct (b_pc s); cbn [cpu_inv] in Hi; repeat case_decide;
      unfold fresh, running, done_cpu in Hi; rewrite Ha in Hi; by destruct_and?. }
  split.
  - intros i c cr3 esp eip Hc Ha. destruct (Hup _ _ _ _ _ Hc Ha) as (Hne & Hi & -> & -> & ->).
    destruct (stack_page kend self pages n Hroom (proj1 Hself) (conj K3 K4) i Hi Hne) as (stk & Hst & _ & _ & Hl). split_and!; [done..|].
    exists stk. split_and!; [by eapply list_elem_of_lookup_2|lia|]. intros j c' cr3' esp' eip' Hji Hc' Ha'.
    destruct (Hup _ _ _ _ _ Hc' Ha') as (Hne' & Hj & _ & -> & _).
    destruct (stack_page kend self pages n Hroom (proj1 Hself) (conj K3 K4) j Hj Hne') as (stk' & Hst' & _ & _ & Hl'). intros Heq.
    replace stk' with stk in Hl' by lia. apply Hji. apply (others_inj self); [done..|]. by eapply NoDup_lookup.
  - intros Hpc i c Hc Hne. pose proof (si_cpus _ _ _ _ _ _ _ Hs i c Hc Hne) as Hi. rewrite Hpc in Hi. apply Hi.
Qed.

(** A schedule: [None] is a step of the boot processor. *)
Fixpoint schedule (l : list (option nat)) (s : boot) : boot :=
  match l with
  | [] => s
  | o :: l =>
      match (match o with None => startothers_step 0 0x80102000 0x80109000 s | Some i => ap_step 0x7070 i s end) with
      | Ret _ s' => schedule l s'
      | Stop _ _ => s
      end
  end.

Lemma schedule_steps l s : rtc (step 0 0x80102000 0x80109000 0x7070) s (schedule l s).
Proof.
  revert s. induction l as [|o l IH]; intros s; [constructor|]. cbn [schedule].
  destruct (match o with None => _ | Some i => _ end) as [[] s'|] eqn:E; [|constructor].
  eapply rtc_l; [|by apply IH]. destruct o; [by eapply step_ap|by eapply step_boot].
Qed.

(** Two processors: the second comes up while the first waits. *)
Definition two_cpus : boot :=
  schedule [None; None; None; Some 1%nat; Some 1%nat; None; Some 1%nat; Some 1%nat; None; None] (cold (KMem false false 0x80200000 (fun _ => 0)) [0; 1]).

Lemma aps_own_stacks_witness :
  b_pc two_cpus = Finished /\ (a_state <$> b_cpus two_cpus !! 1%nat) = Some (Up 0x109000 0x80200FFC 0x80102000) /\
  forall i c, b_cpus two_cpus !! i = Some c -> i <> 0%nat -> a_started c = 1.
Proof.
  split; [vm_compute; reflexivity|]. split; [vm_compute; reflexivity|].
  apply (aps_own_stacks 0x80115000 0 0x80102000 0x80109000 0x7070 [0x80200000] (KMem false false 0x80200000 (fun _ => 0)) [0; 1] two_cpus).
  - vm_compute. discriminate.
  - by unfold in_u32.
  - by apply (bool_decide_unpack _).
  - cbn. lia.
  - split; [done|]. split; [done|]. split; [apply NoDup_singleton|]. split.
    + constructor; [|constructor]. vm_compute. split_and!; congruence.
    + intros x. unfold in_u8. simpl. lia.
  - apply schedule_steps.
  - vm_compute. reflexivity.
Defined.
