(* ===== verification/Kcmd.v ===== *)
(** The commands that run in the kernel: [sys_uniq_kernel] and
    [sys_head_kernel] of [sysproc.c], with their helpers.

    They run on the console of [Console], the file system of [Fs] and the
    transactions of the log. Standard input is the bytes that fileread will
    deliver, one at a time. [current_line] is an array on the kernel stack,
    and the code may look at what follows it: [stack] is the memory after it. *)

From S2P Require Import Prelude Mem Block Sleeplock Log Refstore Tx Txop Fs Inode Dinode Iblock File Fileops Icache Dir Path Fsdisk Ftable.
From S2P Require Import User Ulib Uniq Console.

Open Scope Z_scope.

Definition BUF_SIZE : Z := 256.

(** [T] is the store of the file system: the log over the buffer cache. *)
Record kcmd (T : Type) := KCmd {
  kc_cons : console;
  kc_fs : fstate T;
  kc_stdin : list Z                    (* what is left on descriptor 0 *)
}.
Arguments KCmd {T} _ _ _.
Arguments kc_cons {T} _.
Arguments kc_fs {T} _.
Arguments kc_stdin {T} _.

Definition set_kc_stdin {T} v (k : kcmd T) := KCmd (kc_cons k) (kc_fs k) v.

(** ** What the commands use of the kernel *)

Definition kprint {T} (fmt : string) (args : list parg) : M (kcmd T) unit :=
  zoom (Lens kc_cons (fun c k => KCmd c (kc_fs k) (kc_stdin k))) (cprintf fmt args).

Definition on_fs {T A} (m : M (fstate T) A) : M (kcmd T) A :=
  zoom (Lens kc_fs (fun f k => KCmd (kc_cons k) f (kc_stdin k))) m.

Lemma kcmd_eta {T} (k : kcmd T) : KCmd (kc_cons k) (kc_fs k) (kc_stdin k) = k.
Proof. by destruct k. Qed.

(** fileread of one byte from standard input. *)
Definition fileread1 {T} : M (kcmd T) (option Z) :=
  k ← get;
  match kc_stdin k with
  | [] => mret None
  | c :: rest => put (set_kc_stdin rest k) ;; mret (Some c)
  end.

(** ** Helpers *)

Section helpers.
Context {S : Type}.

(** The loop of readline over the array. *)
Fixpoint readline_scan (fuel : nat) (buf : list Z) (char_index bytes_read : Z) : M S (list Z * Z) :=
  match fuel with
  | O => out_of_fuel
  | Datatypes.S fuel =>
      n ← strlen buf;
      if char_index <? n then
        let c := default 0 (buf !! Z.to_nat char_index) in
        if (c =? 10) || (bytes_read <=? char_index) then
          mret (<[Z.to_nat char_index := 0]> buf, char_index)
        else readline_scan fuel buf (char_index + 1) bytes_read
      else mret (buf, char_index)
  end.

(** The inner loop of extract_line. *)
Fixpoint extract_copy (fuel : nat) (data line : list Z) (dataIndex lineIndex : Z) : M S (list Z * Z * Z) :=
  match fuel with
  | O => out_of_fuel
  | Datatypes.S fuel =>
      match data !! Z.to_nat dataIndex with
      | None => wild
      | Some c =>
          if negb (c =? 0) && negb (c =? 10) then
            line ← aset line lineIndex c;
            extract_copy fuel data line (dataIndex + 1) (lineIndex + 1)
          else mret (line, dataIndex, lineIndex)
      end
  end.

(** Returns the new [line] and the result. *)
Definition extract_line (startPos : Z) (data line : list Z) : M S (list Z * Z) :=
  n ← strlen data;
  if n <=? startPos then mret (line, -1)
  else
    r ← extract_copy (Datatypes.S (length data)) data line startPos 0;
    let '(line, dataIndex, lineIndex) := r in
    line ← aset line lineIndex 0;
    mret (line, if default 0 (data !! Z.to_nat dataIndex) =? 10 then dataIndex + 1 else dataIndex).

End helpers.

Section commands.
Context {T : Type} `{TX : TxStore T} `{OP : OpStore T}.
Context (me : Z).                      (* the process that makes the call *)
Context (devsw_read : Z -> option (nat -> Z -> M (fstate T) (Z * list Z))).

(** [sizeof(buf)] is the size of a pointer. Returns the array and the
    result. *)
Definition kreadline (ip : nat) (start : Z) (buf : list Z) : M (kcmd T) (list Z * Z) :=
  r ← on_fs (readi devsw_read ip (u32 start) BUF_SIZE);
  let bytes_read := r.1 in
  if bytes_read <? 0 then mret (buf, -1)
  else
    let buf := splice buf 0 r.2 in
    let buf := if bytes_read <? 4 then <[Z.to_nat bytes_read := 0]> buf else buf in
    readline_scan (S (length buf)) buf 0 bytes_read.

(** Turns enough for the lines of a file or directory. *)
Definition line_fuel (ip : nat) : M (kcmd T) nat :=
  i ← on_fs (iat ip);
  mret (S (Z.to_nat (d_size (i_d i)))).

(** ** sys_uniq_kernel *)

(** Standard input into [buffer]: the array and the number of bytes. *)
Fixpoint read_stdin (fuel : nat) (buffer : list Z) (i : Z) : M (kcmd T) (list Z * Z) :=
  match fuel with
  | O => out_of_fuel
  | S fuel =>
      r ← fileread1;
      match r with
      | None => mret (buffer, i)
      | Some c =>
          buffer ← aset buffer i c;
          read_stdin fuel buffer (i + 1)
      end
  end.

Fixpoint stdin_lines (fuel : nat) (buffer : list Z) (offset : Z) (current previous : list Z) : M (kcmd T) (list Z) :=
  match fuel with
  | O => out_of_fuel
  | S fuel =>
      r ← extract_line offset buffer current;
      let '(current, offset) := r in
      if 0 <? offset then
        e ← strcmp previous (lit EmptyString);
        previous ← (if e =? 0 then strcpy previous current
                    else
                      d ← strcmp current previous;
                      if negb (d =? 0) then
                        kprint line_fmt [pstr previous] ;;
                        strcpy previous current
                      else mret previous);
        stdin_lines fuel buffer (offset + 1) current previous
      else mret previous
  end.

Definition uniq_stdin (buffer : list Z) : M (kcmd T) unit :=
  k ← get;
  r ← read_stdin (S (length (kc_stdin k))) buffer 0;
  buffer ← aset r.1 r.2 0;
  previous ← stdin_lines (S (length buffer)) buffer 0 empty_line empty_line;
  e ← strcmp previous (lit EmptyString);
  if negb (e =? 0) then kprint line_fmt [pstr previous] else kprint nl [].

Definition knext (ip : nat) (indexCounter : Z) (buf : list Z) : M (kcmd T) (list Z * Z * Z) :=
  r ← kreadline ip indexCounter buf;
  mret (r.1, r.2, indexCounter + r.2 + 1).

(** [stack] is what follows [current_line] in memory; [buffer], [junk] and the
    [name] of namei are uninitialised arrays. *)
Definition sys_uniq_kernel (name junk buffer stack : list Z) (filename flag : option (list Z)) : M (kcmd T) Z :=
  match filename, flag with
  | Some filename, Some flag =>
      f ← flags_of flag;
      z ← strcmp flag (lit "-z");
      if z =? 0 then uniq_stdin buffer ;; mret 0
      else
        on_fs (dk op_begin) ;;
        ip ← on_fs (namei me devsw_read name filename);
        match ip with
        | None =>
            on_fs (dk op_end) ;;
            kprint ("File Not Found ...." ++ nl) [] ;;
            mret (-1)
        | Some ip =>
            on_fs (ilock me (Some ip)) ;;
            fuel ← line_fuel ip;
            v ← lines_loop kprint junk (knext ip) fuel f 0
                  (init_vars (empty_line ++ stack));
            uniq_end kprint f v ;;
            on_fs (iunlock me (Some ip)) ;;
            on_fs (dk op_end) ;;
            mret 0
        end
  | _, _ => mret (-1)
  end.

(** ** sys_head_kernel *)

Fixpoint head_stdin (fuel : nat) (lineBuffer : list Z) (bufferIndex linesDisplayed numLinesToShow : Z) : M (kcmd T) unit :=
  match fuel with
  | O => out_of_fuel
  | S fuel =>
      r ← fileread1;
      match r with
      | None => mret tt
      | Some c =>
          if c =? 10 then
            lineBuffer ← aset lineBuffer bufferIndex 0;
            kprint line_fmt [pstr lineBuffer] ;;
            let lineBuffer := replicate (length lineBuffer) 0 in
            if numLinesToShow <? linesDisplayed + 1 then mret tt
            else head_stdin fuel lineBuffer 0 (linesDisplayed + 1) numLinesToShow
          else
            lineBuffer ← aset lineBuffer bufferIndex c;
            head_stdin fuel lineBuffer (bufferIndex + 1) linesDisplayed numLinesToShow
      end
  end.

Fixpoint head_lines (fuel ip : nat) (currentLine : list Z) (fileIndex linesRead numLinesToShow : Z) : M (kcmd T) unit :=
  match fuel with
  | O => out_of_fuel
  | S fuel =>
      if linesRead <=? numLinesToShow then
        r ← kreadline ip fileIndex currentLine;
        if 0 <? r.2 then
          kprint line_fmt [pstr r.1] ;;
          head_lines fuel ip r.1 (fileIndex + r.2 + 1) (linesRead + 1) numLinesToShow
        else mret tt
      else mret tt
  end.

Definition sys_head_kernel (name lineBuffer : list Z) (targetFile : option (list Z)) (numLinesToShow inputSource : option Z) :
    M (kcmd T) Z :=
  match targetFile, numLinesToShow, inputSource with
  | Some targetFile, Some numLinesToShow, Some inputSource =>
      if inputSource =? 0 then
        k ← get;
        head_stdin (S (length (kc_stdin k))) lineBuffer 0 1 numLinesToShow ;;
        mret numLinesToShow
      else
        on_fs (dk op_begin) ;;
        ip ← on_fs (namei me devsw_read name targetFile);
        match ip with
        | None =>
            on_fs (dk op_end) ;;
            kprint ("Error: The specified file was not found." ++ nl) [] ;;
            mret (-1)
        | Some ip =>
            on_fs (ilock me (Some ip)) ;;
            fuel ← line_fuel ip;
            head_lines fuel ip (replicate 1024 0) 0 1 numLinesToShow ;;
            kprint nl [] ;;
            on_fs (iunlock me (Some ip)) ;;
            on_fs (dk op_end) ;;
            mret numLinesToShow
        end
  | _, _, _ => mret (-1)
  end.

End commands.

(** ** The kernel's readline *)

Lemma cut0_str (a : list Z) : 0 ∈ a -> is_str a (cut0 a).
Proof.
  intros Ha. split; [apply cut0_nonzero|]. induction a as [|c a IH]; [by apply not_elem_of_nil in Ha|].
  cbn [cut0]. destruct (Z.eqb_spec c 0) as [->|Hc]; [by exists a|].
  apply elem_of_cons in Ha as [?|Ha]; [done|]. destruct (IH Ha) as [rest Hrest]. exists rest. cbn. by f_equal.
Qed.

Lemma cut0_app l rest : Forall (fun c => c <> 0) l -> cut0 (l ++ rest) = l ++ cut0 rest.
Proof.
  induction 1 as [|c l Hc _ IH]; cbn [cut0 app]; [done|]. by rewrite (proj2 (Z.eqb_neq c 0) Hc), IH.
Qed.

Lemma scan_spec {S} l c rest i bytes_read (s : S) fuel :
  Forall (fun c => c <> 0) l -> 10 ∉ l -> 0 ∈ c :: rest ->
  (c = 10 \/ c = 0 \/ bytes_read <= Z.of_nat (length l)) -> Z.of_nat (length l) <= bytes_read ->
  (i <= length l)%nat -> (length l - i < fuel)%nat ->
  readline_scan fuel (l ++ c :: rest) (Z.of_nat i) bytes_read s = Ret (l ++ 0 :: rest, Z.of_nat (length l)) s.
Proof.
  intros Hl Hnl H0 Hc Hb. remember (length l - i)%nat as d eqn:Hd. revert fuel i Hd.
  induction d as [|d IH]; intros fuel i Hd Hi Hf; (destruct fuel as [|fuel]; [lia|]); cbn [readline_scan];
    unfold mbind, M_bind;
    rewrite (strlen_run _ (l ++ cut0 (c :: rest))) by (rewrite <- cut0_app by done; apply cut0_str, elem_of_app; by right);
    rewrite length_app.
  - assert (i = length l) as -> by lia. cbn [cut0]. destruct (Z.eqb_spec c 0) as [->|Hc0]; cbn [length].
    { rewrite (proj2 (Z.ltb_ge _ _)) by lia. done. }
    rewrite (proj2 (Z.ltb_lt _ _)) by lia. rewrite Nat2Z.id, list_lookup_middle by done. cbn [default id].
    destruct (Z.eqb_spec c 10) as [->|Hc10]; cbn [orb].
    + by rewrite insert_app_r_alt, Nat.sub_diag by lia.
    + rewrite (proj2 (Z.leb_le _ _)) by lia. by rewrite insert_app_r_alt, Nat.sub_diag by lia.
  - rewrite (proj2 (Z.ltb_lt _ _)) by lia. rewrite Nat2Z.id, lookup_app_l by lia.
    destruct (lookup_lt_is_Some_2 l i ltac:(lia)) as [x Hx]. rewrite Hx. cbn [default id].
    destruct (Z.eqb_spec x 10) as [->|_]; [destruct Hnl; by eapply list_elem_of_lookup_2|].
    rewrite (proj2 (Z.leb_gt _ _)) by lia. cbn [orb]. replace (Z.of_nat i + 1) with (Z.of_nat (Datatypes.S i)) by lia.
    apply IH; lia.
Qed.

(** The memory at [current_line]: the array, and a NUL somewhere after it. *)
Definition line_buf (b : list Z) : Prop := (256 <= length b)%nat /\ 0 ∈ drop 256 b.

Lemma line_buf_drop b n : line_buf b -> (n <= 256)%nat -> 0 ∈ drop n b.
Proof.
  intros [Hl Hb] Hn. replace 256%nat with (n + (256 - n))%nat in Hb by lia. rewrite <- drop_drop in Hb.
  rewrite <- (take_drop (256 - n) (drop n b)). apply elem_of_app. by right.
Qed.

Lemma elem_of_insert_keep (l : list Z) i x : x ∈ l -> x ∈ <[i := x]> l.
Proof.
  intros [j Hj]%list_elem_of_lookup_1. apply list_elem_of_lookup. destruct (decide (i = j)) as [->|Hne].
  - exists j. apply list_lookup_insert_eq. by eapply lookup_lt_Some.
  - exists j. by rewrite list_lookup_insert_ne.
Qed.

(** The array after readi, split at the end of the line. *)
Lemma filled_buf l tail buf :
  line_buf buf -> (length l < 255)%nat -> (tail = [] \/ exists t, tail = 10 :: t) ->
  let bs := take 256 (l ++ tail) in
  let b1 := splice buf 0 bs in
  exists c rest, (if Z.of_nat (length bs) <? 4 then <[length bs := 0]> b1 else b1) = l ++ c :: rest /\
    0 ∈ c :: rest /\ (c = 10 \/ c = 0 \/ Z.of_nat (length bs) <= Z.of_nat (length l)) /\
    (length l <= length bs)%nat /\ length (l ++ c :: rest) = length buf /\
    drop 256 (l ++ 0 :: rest) = drop 256 buf.
Proof.
  intros Hbuf Hl Htail bs b1. pose proof Hbuf as [Hlen H0].
  assert (Hbs : (length bs <= 256)%nat) by (unfold bs; rewrite length_take; lia).
  assert (Hb1 : b1 = bs ++ drop (length bs) buf) by (unfold b1, splice; by rewrite take_0).
  destruct Htail as [->|[t ->]].
  - assert (bs = l) as Ebs by (unfold bs; rewrite app_nil_r, take_ge; [done|lia]). rewrite Ebs in *.
    destruct (lookup_lt_is_Some_2 buf (length l) ltac:(lia)) as [c Hc].
    rewrite (drop_S _ _ _ Hc) in Hb1.
    assert (Hin : 0 ∈ c :: drop (S (length l)) buf) by (rewrite <- (drop_S _ _ _ Hc); apply line_buf_drop; [done|lia]).
    assert (Hlen' : forall x, length (l ++ x :: drop (S (length l)) buf) = length buf)
      by (intros x; rewrite length_app; cbn [length]; rewrite length_drop; lia).
    assert (Hd' : forall x, drop 256 (l ++ x :: drop (S (length l)) buf) = drop 256 buf).
    { intros x. rewrite drop_app_ge by lia. destruct (256 - length l)%nat as [|k] eqn:E; [lia|]. cbn [drop].
      rewrite drop_drop. f_equal. lia. }
    destruct (Z.of_nat (length l) <? 4).
    + exists 0, (drop (S (length l)) buf). rewrite Hb1, insert_app_r_alt, Nat.sub_diag by lia.
      split; [done|]. split; [apply list_elem_of_here|]. split; [auto|]. split; [lia|]. by split.
    + exists c, (drop (S (length l)) buf). rewrite Hb1. split; [done|]. split; [done|]. split; [right; right; lia|].
      split; [lia|]. by split.
  - set (t' := take (255 - length l) t).
    assert (bs = l ++ 10 :: t') as Ebs.
    { unfold bs, t'. rewrite take_app_ge by lia. destruct (256 - length l)%nat as [|k] eqn:E; [lia|]. cbn [take].
      do 3 f_equal. lia. }
    assert (Hbl : length bs = (length l + S (length t'))%nat) by (rewrite Ebs, length_app; done).
    set (rest := t' ++ drop (length bs) buf).
    assert (Hb1' : b1 = l ++ 10 :: rest) by (unfold rest; rewrite Hb1, Ebs at 1; by rewrite <- app_assoc).
    assert (Hin : 0 ∈ rest) by (unfold rest; apply elem_of_app; right; by apply line_buf_drop).
    assert (Hrl : (length l + S (length rest))%nat = length buf)
      by (unfold rest; rewrite length_app, length_drop; lia).
    assert (Hdr : forall x, drop 256 (l ++ x :: rest) = drop 256 buf).
    { intros x. rewrite drop_app_ge by lia. destruct (256 - length l)%nat as [|k] eqn:E; [lia|]. cbn [drop].
      unfold rest. rewrite drop_app_ge by lia. rewrite drop_drop. f_equal. lia. }
    destruct (Z.ltb_spec (Z.of_nat (length bs)) 4).
    + exists 10, (<[length t' := 0]> rest). rewrite Hb1', insert_app_r_alt, Hbl by lia.
      replace (length l + S (length t') - length l)%nat with (S (length t')) by lia.
      split; [done|]. split; [apply list_elem_of_further, elem_of_insert_keep, Hin|]. split; [auto|]. split; [lia|].
      split; [rewrite length_app; cbn [length]; rewrite length_insert; lia|].
      rewrite <- (Hdr 0). rewrite !drop_app_ge by lia. destruct (256 - length l)%nat as [|k] eqn:E; [lia|]. cbn [drop].
      apply drop_insert_lt. lia.
    + exists 10, rest. rewrite Hb1'. split; [done|]. split; [by apply list_elem_of_further|]. split; [auto|].
      split; [lia|]. split; [rewrite length_app; cbn [length]; lia|done].
Qed.

(** ** A file that is open *)

Section open_file.
Context {T : Type} `{BS : BlockStore T} `{BSL : !BlockStoreLaws T}.
Context (first : Z).                   (* the first block after the log *)
Context (ops : Z).                     (* calls in progress *)
#[local] Instance open_laws : TxStoreLaws (lstate T) := ops_tx_laws first ops.
Context (me : Z) (devsw_read : Z -> option (nat -> Z -> M (fstate (lstate T)) (Z * list Z))).

(** Entry [ip] is locked, and it is [i], whose contents are [data]. *)
Record reading (ip : nat) (i : inode) (data : list Z) (s : fstate (lstate T)) : Prop := {
  rd_tree : tree s (Some ip);
  rd_open : opened s ip i;
  rd_data : contents s i = data;
  rd_ref : 0 < i_ref i;
  rd_lk : sl_lk (i_lock i) = false;
  rd_held : sl_held me (i_lock i)
}.

Lemma reading_same ip i data s s' : reading ip i data s -> same_disk s s' -> reading ip i data s'.
Proof.
  intros [H1 H2 H3 H4 H5 H6] Hs. split; [by eapply tree_same_disk|by eapply same_disk_opened| |done..].
  destruct (same_disk_disk _ _ Hs) as [Ed _]. unfold contents. by rewrite Ed.
Qed.

Lemma reading_size ip i data s :
  reading ip i data s -> d_size (i_d i) = Z.of_nat (length data) /\ Z.of_nat (length data) <= MAXFILE * BSIZE.
Proof.
  intros H. pose proof (wf_size _ _ _ (op_wf _ _ _ (rd_open _ _ _ _ H))) as Hsz.
  rewrite <- (rd_data _ _ _ _ H). unfold contents. rewrite length_fdata. lia.
Qed.

(** From here on [s0] is the file system as ilock left it. *)
Context (ip : nat) (i : inode) (data : list Z) (s0 : fstate (lstate T)).
Context (H0 : reading ip i data s0).

(** The console is ready, and the file system is at most differently stored. *)
Definition lines_ok (k : kcmd (lstate T)) : Prop := cons_ready (kc_cons k) /\ same_disk s0 (kc_fs k).

(** Only what is on the console differs. *)
Definition kprinted (bs : list Z) (k k' : kcmd (lstate T)) : Prop :=
  serial (kc_cons k') = serial (kc_cons k) ++ bs /\ kc_stdin k' = kc_stdin k.

Lemma wp_readi_at x (k : kcmd (lstate T)) (Q : Z * list Z -> kcmd (lstate T) -> Prop) :
  lines_ok k -> 0 <= x < 2 ^ 31 ->
  (Z.of_nat (length data) < x -> Q (-1, []) k) ->
  (forall k', x <= Z.of_nat (length data) -> lines_ok k' -> kprinted [] k k' ->
     let bs := take 256 (drop (Z.to_nat x) data) in Q (Z.of_nat (length bs), bs) k') ->
  wp (on_fs (readi devsw_read ip (u32 x) BUF_SIZE)) k Q.
Proof.
  intros [Hr Hs] Hx HQ1 HQ2. pose proof (reading_same _ _ _ _ _ H0 Hs) as H1. destruct (reading_size _ _ _ _ H1) as [Esz _].
  rewrite u32_small by (unfold in_u32; lia). apply wpe_zoom. cbn [view update].
  eapply (readi_opened devsw_read (kc_fs k) ip i); [apply H1|apply H1|unfold in_u32; lia|done| |].
  - rewrite Esz. change BUF_SIZE with 256. intros [?|?]; [|lia]. rewrite (kcmd_eta k). by apply HQ1.
  - rewrite Esz, (rd_data _ _ _ _ H1). intros t' bs Hle _ Hv ->. apply HQ2; [done| |split; [by rewrite app_nil_r|done]].
    split; [done|]. eapply same_disk_trans; [exact Hs|]. apply upd_same_disk; [apply H1|done].
Qed.

Lemma kreadline_spec x l tail buf k (Q : list Z * Z -> kcmd (lstate T) -> Prop) :
  lines_ok k -> 0 <= x <= Z.of_nat (length data) -> drop (Z.to_nat x) data = l ++ tail ->
  (tail = [] \/ exists t, tail = 10 :: t) ->
  Forall (fun c => c <> 0) l -> 10 ∉ l -> (length l < 255)%nat -> line_buf buf ->
  (forall buf' k', lines_ok k' -> kprinted [] k k' -> is_str buf' l -> length buf' = length buf -> drop 256 buf' = drop 256 buf ->
     Q (buf', Z.of_nat (length l)) k') ->
  wp (kreadline devsw_read ip x buf) k Q.
Proof.
  intros Hk Hx Hd Htail Hz Hnl Hl Hbuf HQ. destruct (reading_size _ _ _ _ H0) as [_ Hmax]. change (MAXFILE * BSIZE) with 71680 in Hmax.
  apply wp_bind. apply wp_readi_at; [done|lia|lia|]. intros k' _ Hk' Ho. rewrite Hd. cbv zeta. cbn [fst snd].
  rewrite (proj2 (Z.ltb_ge _ _)) by lia. rewrite Nat2Z.id.
  destruct (filled_buf l tail buf Hbuf Hl Htail) as (c & rest & -> & Hin & Hc & Hle & Hlen & Hdrop).
  eapply wp_intro; [apply (scan_spec l c rest 0); [done|done|done|done|lia|lia|rewrite Hlen; destruct Hbuf; lia]|].
  apply HQ; [done|done|split; [done|eauto]|by rewrite <- Hlen, !length_app|done].
Qed.

Lemma kreadline_past x buf k (Q : list Z * Z -> kcmd (lstate T) -> Prop) :
  lines_ok k -> Z.of_nat (length data) < x < 2 ^ 31 -> Q (buf, -1) k -> wp (kreadline devsw_read ip x buf) k Q.
Proof. intros Hk Hx HQ. apply wp_bind. apply wp_readi_at; [done|lia|done|lia]. Qed.

(** ** uniq in the kernel *)

Lemma kprint_spec fmt args bs k :
  lines_ok k ->
  (forall s1, screen_ok s1 -> panicked s1 = false -> wp (cprintf_loop (chars fmt) args) s1 (fun _ s' => Console.puts bs s1 s')) ->
  wp (kprint fmt args) k (fun _ k' => lines_ok k' /\ kprinted bs k k').
Proof.
  intros [Hr Hs] Hl. unfold kprint. apply wpe_zoom. eapply wp_mono; [|by apply (cprintf_spec fmt args bs)].
  cbv beta. intros _ c' [Hr' (_ & _ & Hser)]. by split.
Qed.

Ltac run_cprintf := cbn [cprintf_loop negb Z.eqb Pos.eqb orb arg_str arg_word fst snd].

Lemma kprint_line l k :
  lines_ok k -> Forall in_u8 l ->
  wp (kprint line_fmt [PStr l]) k (fun _ k' => lines_ok k' /\ kprinted (l ++ [10]) k k').
Proof.
  intros Hr Hl. apply kprint_spec; [done|]. intros s1 Hok Hp. change (chars line_fmt) with [37; 115; 10].
  run_cprintf. apply wp_bind, wpe_ret. apply wp_bind. eapply wp_mono; [|by apply cprints]. cbv beta.
  intros _ s2 H2. apply wp_bind. eapply wp_mono; [|apply (consputc_puts 10 10);
    [apply H2|by eapply puts_panicked|done|done]]. cbv beta.
  intros _ s3 H3. apply wpe_ret. by eapply puts_app.
Qed.

Lemma kprint_count n l k :
  lines_ok k -> Forall in_u8 l ->
  wp (kprint count_fmt [PInt n; PStr l]) k (fun _ k' => lines_ok k' /\
    kprinted (decimal n ++ [32; 32] ++ l ++ [10]) k k').
Proof.
  intros Hr Hl. apply kprint_spec; [done|]. intros s1 Hok Hp.
  change (chars count_fmt) with [37; 100; 32; 32; 37; 115; 10].
  run_cprintf. apply wp_bind, wpe_ret. cbn [fst snd]. apply wp_bind. eapply wp_mono; [|by apply kprintint_spec]. cbv beta.
  intros _ s2 H2. apply wp_bind.
  eapply wp_mono; [|apply (consputc_puts 32 32); [apply H2|by eapply puts_panicked|done|done]]. cbv beta.
  intros _ s3 H3. pose proof (puts_app _ _ _ _ _ H2 H3) as H23. apply wp_bind.
  eapply wp_mono; [|apply (consputc_puts 32 32); [apply H23|by eapply puts_panicked|done|done]]. cbv beta.
  intros _ s4 H4. pose proof (puts_app _ _ _ _ _ H23 H4) as H24. apply wp_bind, wpe_ret. cbn [fst snd]. apply wp_bind.
  eapply wp_mono; [|apply cprints; [done|apply H24|by eapply puts_panicked]]. cbv beta.
  intros _ s5 H5. pose proof (puts_app _ _ _ _ _ H24 H5) as H25. apply wp_bind.
  eapply wp_mono; [|apply (consputc_puts 10 10); [apply H25|by eapply puts_panicked|done|done]]. cbv beta.
  intros _ s6 H6. pose proof (puts_app _ _ _ _ _ H25 H6) as H26. apply wpe_ret.
  unfold decimal. by rewrite <- !app_assoc in H26.
Qed.

Lemma kprint_newline k :
  lines_ok k -> wp (kprint nl []) k (fun _ k' => lines_ok k' /\ kprinted [10] k k').
Proof.
  intros Hr. apply kprint_spec; [done|]. intros s1 Hok Hp. change (chars nl) with [10]. run_cprintf. apply wp_bind.
  eapply wp_mono; [|by apply (consputc_puts 10 10)]. cbv beta. intros _ s2 H2. by apply wpe_ret.
Qed.

Lemma kprinted_nil k : kprinted [] k k.
Proof. split; [by rewrite app_nil_r|done]. Qed.

Lemma kprinted_app a b k k1 k2 : kprinted a k k1 -> kprinted b k1 k2 -> kprinted (a ++ b) k k2.
Proof. intros (E1 & E2) (F1 & F2). split; [by rewrite F1, E1, app_assoc|congruence]. Qed.

#[export] Program Instance kernel_lines : LineIO kprint (knext devsw_read ip) := {
  io_ok := lines_ok;
  io_out := kprinted;
  io_left ls x k := 0 <= x <= Z.of_nat (length data) + 1 /\ text_of ls (drop (Z.to_nat x) data);
  io_buf b := line_buf b
}.
Next Obligation. intros. apply kprinted_nil. Qed.
Next Obligation. intros. by eapply kprinted_app. Qed.
Next Obligation. intros l k Hk Hl. eapply wp_mono; [|by apply kprint_line]. naive_solver. Qed.
Next Obligation. intros m l k Hk Hl. eapply wp_mono; [|by apply kprint_count]. naive_solver. Qed.
Next Obligation. intros k Hk. by apply kprint_newline. Qed.
Next Obligation.
  intros l ls x buf k Hk [Hx Ht] Hl Hbuf.
  apply text_of_cons in Ht as (tail & Hd & Htail & Ht). cbn in *.
  assert (Hxl : x <= Z.of_nat (length data)).
  { apply (f_equal length) in Hd. rewrite length_drop, length_app in Hd. pose proof (gl_nonempty _ Hl).
    destruct l; [done|]. cbn [length] in Hd. lia. }
  apply wp_bind. apply (kreadline_spec x l tail buf k); try apply Hl; try done; [lia|].
  intros buf' k' Hk' Ho Hs Hlen Hdrop. apply wpe_ret. cbn [fst snd]. split; [done|]. split; [done|].
  split; [split; [rewrite Hlen; apply Hbuf|rewrite Hdrop; apply Hbuf]|]. split; [done|]. split; [done|].
  apply (f_equal length) in Hd as Hdl. rewrite length_drop, length_app in Hdl.
  split; [destruct Htail as [->|[t ->]]; cbn [length] in *; lia|].
  replace (Z.to_nat (x + Z.of_nat (length l) + 1)) with (Z.to_nat x + (length l + 1))%nat by lia.
  rewrite <- drop_drop, Hd, <- drop_drop, drop_app_length. done.
Qed.
Next Obligation.
  intros x buf k Hk [Hx Ht] Hbuf. cbn in *. apply text_of_nil in Ht as Htail. apply wp_bind.
  destruct (reading_size _ _ _ _ H0) as [_ Hmax]. change (MAXFILE * BSIZE) with 71680 in Hmax.
  destruct (decide (x = Z.of_nat (length data) + 1)) as [->|Hne].
  - apply kreadline_past; [done|lia|]. apply wpe_ret. split; [done|]. split; [done|apply kprinted_nil].
  - apply (kreadline_spec x [] (drop (Z.to_nat x) data) buf k); try done; try lia; [set_solver|cbn; lia].
Qed.

End open_file.

Lemma flag_not_z {S} flag fs (k : S) :
  is_str flag fs -> Forall in_u8 fs -> fs <> chars "-z" ->
  exists r, strcmp flag (lit "-z") k = Ret r k /\ (r =? 0) = false.
Proof.
  intros Hf H8 Hz. destruct (strcmp_lit flag fs "-z" k Hf H8) as (r & Hr & E); [by repeat constructor..|].
  exists r. split; [done|]. rewrite E. by apply bool_decide_false.
Qed.

(** ** The calls *)

Section calls.
Context {T : Type} `{BS : BlockStore T} `{BSL : !BlockStoreLaws T}.
Context (first : Z) (me : Z) (devsw_read : Z -> option (nat -> Z -> M (fstate (lstate T)) (Z * list Z))).

Local Notation fs := (fstate (lstate T)).
Local Notation blocks s := (content (store (fdk s))).
Local Notation tree_in ops := (tree (TXL := ops_tx_laws first ops)).

(** In a file system with no inode locked and [ops] calls in progress, the
    path in the array [pa] leads to inode [inum], a file or a directory with
    the contents [data]. *)
Record names_file (ops : Z) (s : fs) (pa : list Z) (inum : Z) (data : list Z) : Prop := {
  nf_tree : tree_in ops s None;
  nf_root : in_use (fsb s) (blocks s) ROOTINO;
  nf_refs k : refs (icache s) k < 2 ^ 31 - 3;
  nf_str : 0 ∈ pa;
  nf_cwd : exists c, icache s !! fcwd s = Some c /\ 0 < i_ref c /\
    walk (fsb s) (blocks s) false (start pa c) (elems (cut0 pa)) = Some inum;
  nf_type : d_type (inode_of (fsb s) (blocks s) inum) <> T_DEV;
  nf_data : fdata (blocks s) (inode_of (fsb s) (blocks s) inum) = data
}.

(** What such a call leaves: the calls in progress are as many as before, no
    buffer is held and no inode locked, the blocks after the log are as they
    were, and the counts of the inodes too but for one more reference to
    [inum]. *)
Record call_leaves (ops : Z) (s : fs) (inum : Z) (s' : fs) : Prop := {
  cl_ops : in_ops first ops (fdk s');
  cl_held : holds (store (fdk s')) = ∅;
  cl_disk b : first <= Z.of_nat b -> blocks s' !! b = blocks s !! b;
  cl_cache : ic_idle s';
  cl_locks p i : icache s' !! p = Some i -> lk_free (i_lock i);
  cl_refs k : refs (icache s') k = refs (icache s) k + one k inum;
  cl_sb : fsb s' = fsb s;
  cl_cwd : fcwd s' = fcwd s
}.

(** The blocks as before, with the inode of the file in entry [ip], which is
    referred to once more. *)
Record found (s : fs) (inum : Z) (ip : nat) (i : inode) (s' : fs) : Prop := {
  fd_entry : icache s' !! ip = Some i;
  fd_ref : 0 < i_ref i;
  fd_key : ikey i = (ROOTDEV, inum);
  fd_disk : blocks s' = blocks s;
  fd_sb : fsb s' = fsb s;
  fd_cwd : fcwd s' = fcwd s;
  fd_refs k : refs (icache s') k = refs (icache s) k + one k inum
}.

(** The same blocks, with another number of calls in progress. *)
Lemma tree_log ops (s : fs) x : tree_in ops s x -> tree (TXL := log_tx_laws first) s x.
Proof.
  intros [[(H1 & V1 & V2 & V3 & V4 & V5) H2 H3] H4 H5 H6 H7]. split; try done. split; try done.
  - split_and!; try done. apply H1.
  - by destruct H2.
Qed.

Lemma tree_ops ops (s : fs) t x :
  tree (TXL := log_tx_laws first) s x -> in_ops first ops t -> store t = store (fdk s) ->
  tree_in ops (FState t (ic_lock s) (icache s) (fsb s) (fcwd s)) x.
Proof.
  intros [[(_ & _ & V1 & V2 & _ & _) H2 H3] H4 H5 H6 H7] Ht E.
  split; cbn [fdk icache fsb ic_lock]; try done; [|by unfold tx_disk; cbn; rewrite E..].
  split; cbn [fdk fsb]; unfold tx_disk in *; cbn in *; rewrite ?E; try done.
  - split_and!; cbn; rewrite ?E; try done. unfold lt_dirty in *. by rewrite E.
  - by destruct H2.
Qed.

Lemma begin_file ops (s : fs) pa inum data :
  names_file ops s pa inum data ->
  wpe (dk op_begin) s (fun _ s1 => names_file (ops + 1) s1 pa inum data /\ blocks s1 = blocks s /\
      icache s1 = icache s /\ fsb s1 = fsb s /\ fcwd s1 = fcwd s)
    (fun w _ => w = Sleeping ch_log).
Proof.
  intros [H1 H2 H3 H4 H5 H6 H7]. apply wpe_zoom. cbn [view update].
  eapply wpe_mono; [| |apply (begin_op_ops first ops)]; [|by intros ? ? [-> _]|apply H1].
  cbv beta. intros _ t [Ht E]. cbn [fdk icache fsb fcwd]. rewrite E. split; [|done].
  split; cbn [fdk icache fsb fcwd]; rewrite ?E; try done. apply tree_ops; [by eapply tree_log|done|done].
Qed.

Lemma namei_file ops (s : fs) pa inum data name :
  names_file ops s pa inum data -> length name = Z.to_nat DIRSIZ ->
  wpe (namei me devsw_read name pa) s (fun r s' => exists ip i, r = Some ip /\ tree_in ops s' None /\ found s inum ip i s')
    (fun w _ => w = Panicked "iget: no inodes").
Proof.
  intros [H1 H2 H3 H4 (c & Hc & Hr & Hw) H6 H7] Hn. apply wpe_bind.
  eapply (namex_arrives (TXL := ops_tx_laws first ops) devsw_read me s pa false name c); try done.
  intros r name' s' (Ht & Ed & Eb & Ew & Ha) _. apply wpe_ret.
  change (tx_disk (fdk s)) with (blocks s) in *. rewrite Hw in Ha. destruct Ha as (ip & i & -> & Hi & Hri & Hk & Hone).
  exists ip, i. by split_and!.
Qed.

Lemma ilock_file ops (s s1 : fs) pa inum data ip i :
  names_file ops s pa inum data -> tree_in ops s1 None -> found s inum ip i s1 ->
  wpe (ilock me (Some ip)) s1 (fun _ s2 => exists i', reading first ops me ip i' data s2 /\ found s inum ip i' s2)
    (fun _ _ => False).
Proof.
  intros Hf Ht [F1 F2 F3 F4 F5 F6 F7].
  apply (tree_ilock (TXL := ops_tx_laws first ops) me s1 ip i); try done.
  intros s2 i' T2 Hs Hk Hr Hlk Hh Hv Hd. exists i'. destruct (same_disk_disk _ _ Hs) as [Ed Ec].
  destruct (same_disk_log _ _ Hs) as (_ & _ & Eb). assert (Ew : fcwd s2 = fcwd s1) by (by destruct Hs as (? & -> & _)).
  cbn [fdk icache set_icache fsb] in Ed, Ec, Eb. change (tx_disk (fdk s1)) with (blocks s1) in *. change (tx_disk (fdk s2)) with (blocks s2) in *.
  assert (Hi' : icache s2 !! ip = Some i') by (rewrite Ec; apply list_lookup_insert_eq; by eapply lookup_lt_Some).
  assert (i_dev i = ROOTDEV /\ i_inum i = inum) as [Hdev Hnum] by (unfold ikey in F3; naive_solver).
  rewrite Hnum, F4, F5 in Hd.
  destruct (te_entries _ _ T2 ip i' Hi') as (Hdev' & Hin & _); [lia|]. pose proof (te_inodes _ _ T2 _ Hin) as (W1 & W2 & _).
  assert (i_inum i' = inum) as Hnum' by (unfold ikey in Hk; congruence).
  change (tx_disk (fdk s2)) with (blocks s2) in *. rewrite Hnum', Eb, Ed, F4, F5, <- Hd in W1, W2. rewrite Hnum', Eb, Ed, F4, F5 in Hin.
  split; split; rewrite ?Eb, ?Ed, ?F4, ?F5, ?Ew; try done; try lia; try congruence.
  - split; unfold tx_disk; cbn; rewrite ?Eb, ?Ed, ?F4, ?F5, ?Hnum'; try done; [by destruct Hin|]. rewrite Hd. apply Hf.
  - unfold contents, tx_disk; cbn. rewrite Ed, F4, Hd. apply Hf.
  - intros k. rewrite Ec, (refs_insert _ ip i) by done. unfold counted. rewrite Hk, Hr, F7. lia.
Qed.

Lemma found_from (s s1 : fs) inum ip i s' :
  blocks s1 = blocks s -> icache s1 = icache s -> fsb s1 = fsb s -> fcwd s1 = fcwd s -> found s1 inum ip i s' -> found s inum ip i s'.
Proof. intros E1 E2 E3 E4 [F1 F2 F3 F4 F5 F6 F7]. split; rewrite <- ?E1, <- ?E2, <- ?E3, <- ?E4; done. Qed.

(** The end of a call that has only read. *)
Lemma close_file ops (s : fs) inum ip i data s2 s3 :
  found s inum ip i s2 -> reading first (ops + 1) me ip i data s2 -> same_disk (TXL := ops_tx_laws first (ops + 1)) s2 s3 ->
  wpe (iunlock me (Some ip)) s3 (fun _ s4 => wpe (dk op_end) s4 (fun _ s5 => call_leaves ops s inum s5) (fun w _ => w = Crashed))
    (fun _ _ => False).
Proof.
  intros [F1 F2 F3 F4 F5 F6 F7] Hrd Hs. pose proof (reading_same _ _ _ _ _ _ _ _ Hrd Hs) as [R1 R2 R3 R4 R5 R6].
  destruct (same_disk_disk _ _ Hs) as [Ed Ec]. destruct (same_disk_log _ _ Hs) as (_ & _ & Eb).
  assert (Ew : fcwd s3 = fcwd s2) by (by destruct Hs as (? & -> & _)).
  apply (tree_unlock (TXL := ops_tx_laws first (ops + 1)) me s3 ip i); try done; [apply R2|].
  intros s4 i4 T4 Hnow Hr4. pose proof Hnow as (Ed4 & Eb4 & Ew4 & _ & _).
  change (tx_disk (fdk s2)) with (blocks s2) in *. change (tx_disk (fdk s3)) with (blocks s3) in *. change (tx_disk (fdk s4)) with (blocks s4) in *.
  destruct (te_fs _ _ T4) as [(Hops & _ & Hho & _) _ _]. apply wpe_zoom. cbn [view update].
  eapply wpe_mono; [| |apply (end_op_ops first ops); [exact Hops|exact Hho]]; [|done]. cbv beta.
  intros _ t (O1 & O2 & _ & _ & O3). split; cbn [fdk icache fsb fcwd ic_lock]; rewrite ?Eb4, ?Ew4, ?Eb, ?Ew; try done.
  - intros b Hb. rewrite <- F4, <- Ed, <- Ed4. symmetry. apply O3. destruct (no_tx _ _ _ Hops) as (start & sz & bs & Hin).
    pose proof (it_end _ _ _ _ _ Hin). rewrite (g_start _ _ _ _ (it_geom _ _ _ _ _ Hin)), (g_size _ _ _ _ (it_geom _ _ _ _ _ Hin)). lia.
  - apply T4.
  - intros p j Hj. by eapply (te_locks _ _ T4).
  - intros k. rewrite (refs_now (TXL := ops_tx_laws first (ops + 1)) s3 ip i s4 i4 inum 0 k), Ec, F7; try done; [lia|apply R2|lia].
Qed.

(** How a call can stop: before it prints anything, because it must wait for
    the log or the inode cache is full; or with the power, once it has printed
    all of [out]. *)
Definition call_stops (out : list Z) (k : kcmd (lstate T)) (w : stop) (k' : kcmd (lstate T)) : Prop :=
  ((w = Sleeping ch_log \/ w = Panicked "iget: no inodes") /\ serial (kc_cons k') = serial (kc_cons k)) \/
  (w = Crashed /\ serial (kc_cons k') = serial (kc_cons k) ++ out).

(** The call is where [ilock] has returned: entry [ip] is the file. *)
Definition at_file (ops : Z) (k : kcmd (lstate T)) (inum : Z) (data : list Z) (ip : nat) (i : inode) (k1 : kcmd (lstate T)) : Prop :=
  reading first (ops + 1) me ip i data (kc_fs k1) /\ found (kc_fs k) inum ip i (kc_fs k1) /\
  kc_cons k1 = kc_cons k /\ kc_stdin k1 = kc_stdin k.

Lemma wpe_open {A} ops (k : kcmd (lstate T)) pa inum data name out (none : M (kcmd (lstate T)) A) (body : nat -> M (kcmd (lstate T)) A) Q :
  names_file ops (kc_fs k) pa inum data -> length name = Z.to_nat DIRSIZ ->
  (forall ip i k1, at_file ops k inum data ip i k1 -> wpe (body ip) k1 Q (call_stops out k)) ->
  wpe (on_fs (dk op_begin) ;;
       ip ← on_fs (namei me devsw_read name pa);
       match ip with None => none | Some ip => on_fs (ilock me (Some ip)) ;; body ip end) k Q (call_stops out k).
Proof.
  intros Hf Hn Hbody. apply wpe_bind, wpe_zoom. cbn [view update].
  eapply wpe_mono; [| |by eapply begin_file]; cbv beta; [|by intros w s' ->; left; auto].
  intros _ s1 (Hf1 & E1 & E2 & E3 & E4). apply wpe_bind, wpe_zoom. cbn [view update kc_fs].
  eapply wpe_mono; [| |by eapply namei_file]; cbv beta; [|by intros w s' ->; left; auto].
  intros r s2 (ip & i & -> & T2 & F2). cbn [kc_cons kc_stdin]. apply wpe_bind, wpe_zoom. cbn [view update kc_fs].
  eapply wpe_mono; [| |by eapply ilock_file]; cbv beta; [|done]. intros _ s3 (i3 & R3 & F3). cbn [kc_cons kc_stdin].
  apply (Hbody ip i3). split_and!; try done. by eapply found_from.
Qed.

Lemma wpe_close ops (k : kcmd (lstate T)) inum data ip i k1 k2 out (r : Z) :
  at_file ops k inum data ip i k1 -> lines_ok first (ops + 1) (kc_fs k1) k2 -> kprinted out k1 k2 ->
  wpe (on_fs (iunlock me (Some ip)) ;; on_fs (dk op_end) ;; mret r) k2
    (fun r' k' => r' = r /\ serial (kc_cons k') = serial (kc_cons k) ++ out /\ call_leaves ops (kc_fs k) inum (kc_fs k'))
    (call_stops out k).
Proof.
  intros (R1 & F1 & E1 & _) [Hr2 Hs2] [Ho2 _]. rewrite E1 in Ho2.
  apply wpe_bind, wpe_zoom. cbn [view update]. eapply wpe_mono; [| |by eapply close_file]; cbv beta; [|done].
  intros _ s5 Hend. apply wpe_bind, wpe_zoom. cbn [view update kc_fs]. eapply wpe_mono; [| |exact Hend]; cbv beta.
  - intros _ s6 Hl. by apply wpe_ret.
  - intros w s6 ->. right. by split.
Qed.

Lemma at_file_lines ops k inum data ip i k1 :
  at_file ops k inum data ip i k1 -> cons_ready (kc_cons k) -> lines_ok first (ops + 1) (kc_fs k1) k1.
Proof.
  intros (R1 & _ & E & _) Hr. split; [by rewrite E|]. exists (fdk (kc_fs k1)). split; [by destruct (kc_fs k1)|]. apply R1.
Qed.

Lemma wpe_line_fuel {A} ops k inum data ip i k1 (K : nat -> M (kcmd (lstate T)) A) (Q : A -> kcmd (lstate T) -> Prop) E :
  at_file ops k inum data ip i k1 -> wpe (K (S (length data))) k1 Q E -> wpe (fuel ← line_fuel ip; K fuel) k1 Q E.
Proof.
  intros (R1 & _) HK. destruct (reading_size _ _ _ _ _ _ _ R1) as [Esz _]. apply wpe_bind. unfold line_fuel.
  apply wpe_bind, wpe_zoom. cbn [view update]. apply (wpe_iat_at (kc_fs k1) ip i); [apply R1|]. rewrite kcmd_eta. apply wpe_ret.
  by rewrite Esz, Nat2Z.id.
Qed.

Lemma sys_uniq_spec ops name junk buffer stack pa inum flag fl data ls k :
  length name = Z.to_nat DIRSIZ -> length junk = 256%nat -> 0 ∈ stack -> is_str flag fl -> Forall in_u8 fl -> fl <> chars "-z" ->
  names_file ops (kc_fs k) pa inum data -> cons_ready (kc_cons k) -> text_of ls data -> Forall good_line ls ->
  let out := report (opt_of fl) (groups (opt_flags (opt_of fl)) ls) in
  wpe (sys_uniq_kernel me devsw_read name junk buffer stack (Some pa) (Some flag)) k (fun r k' =>
      r = 0 /\ serial (kc_cons k') = serial (kc_cons k) ++ out /\ call_leaves ops (kc_fs k) inum (kc_fs k'))
    (call_stops out k).
Proof.
  intros Hn Hj Hst Hf H8 Hz Hfile Hr Htext Hgood out. unfold sys_uniq_kernel. apply wpe_bind. unfold wpe at 1.
  rewrite (flags_of_run flag fl) by done. apply wpe_bind. unfold wpe at 1.
  destruct (flag_not_z flag fl k Hf H8 Hz) as (z & -> & ->). eapply wpe_open; [done|done|]. intros ip i k1 Hat.
  eapply wpe_line_fuel; [exact Hat|]. pose proof (at_file_lines _ _ _ _ _ _ _ Hat Hr) as Hok.
  pose proof (lines_report kprint (knext devsw_read ip) (IO := kernel_lines first (ops + 1) me devsw_read ip i data _ (proj1 Hat)) junk Hj
    (opt_of fl) ls (S (length data)) 0 (empty_line ++ stack) k1 Hgood Hok ltac:(split; [lia|done])) as HL.
  apply wp_inv in HL as (u & k2 & HL & Hok2 & Ho).
  2: { split; [rewrite length_app; cbn; lia|]. rewrite drop_app_length' by done. done. }
  2: { pose proof (text_of_length _ _ Htext Hgood). lia. }
  unfold mbind, M_bind in HL. apply wpe_bind. unfold wpe at 1.
  destruct (lines_loop kprint junk (knext devsw_read ip) (S (length data)) (opt_flags (opt_of fl)) 0 _ k1) as [v k3|]; [|done].
  apply wpe_bind. unfold wpe at 1. rewrite HL. by eapply wpe_close.
Qed.

End calls.

(** C36: uniq prints the same in both modes. On a file whose lines up to the
    first empty one fit the buffers, the system call prints on the console
    what the user program prints on its output, for every option but -z: the
    report of the groups of adjacent equal lines. The file is the one that the
    path leads to, in a file system that is in order and on which any number
    of calls are in progress. The call ends its transaction, releases its
    buffers and unlocks the inode, and the disk is as before outside the log;
    but it keeps the reference that namei gave it. It can stop early only
    where it must wait for the log, or the inode cache is full, before it has
    printed anything; or with the power, in the commit at its end. *)
Theorem uniq_modes_agree {T} `{BS : BlockStore T} `{BSL : !BlockStoreLaws T} first me devsw_read ops name junk buffer stack pa inum
    flag fl data ls fd (k : kcmd (lstate T)) s :
  length name = Z.to_nat DIRSIZ -> length junk = 256%nat -> 0 ∈ stack -> is_str flag fl -> Forall in_u8 fl -> fl <> chars "-z" ->
  names_file first ops (kc_fs k) pa inum data -> cons_ready (kc_cons k) ->
  u_fds s !! fd = Some data -> text_of ls data -> Forall good_line ls ->
  exists out,
    wpe (sys_uniq_kernel me devsw_read name junk buffer stack (Some pa) (Some flag)) k (fun r k' =>
        r = 0 /\ serial (kc_cons k') = serial (kc_cons k) ++ out /\ call_leaves first ops (kc_fs k) inum (kc_fs k'))
      (call_stops out k) /\
    wp (uniq_user junk fd flag) s (fun _ s' => u_out s' = u_out s ++ ((fun b => (1, b)) <$> out)).
Proof.
  intros Hn Hj Hst Hf H8 Hz Hfile Hr Hd Htext Hgood.
  exists (report (opt_of fl) (groups (opt_flags (opt_of fl)) ls)). split; [by eapply sys_uniq_spec|by eapply uniq_user_spec].
Qed.

(** ** A machine with a file [f] of three lines *)

Definition demo_console : console :=
  Console false 1 false [] (replicate 2000 0) 0 (replicate 128 0) 0 0 0 0.

(** The disk of [Fsdisk] with [text] in its file. *)
Definition demo_file (text : list Z) : dinode := DInode T_FILE 0 0 1 (Z.of_nat (length text)) (26 :: replicate 12 0).
Definition demo_blocks (text : list Z) : list block :=
  <[22%nat := put_dinode (put_dinode zero_block 64 root_inode) 128 (demo_file text)]>
    (<[26%nat := splice zero_block 0 text]> disk).
Definition demo_store (text : list Z) : lstate rstore :=
  LState (RStore (demo_blocks text) (demo_blocks text) ∅ ∅ None) (Log false 2 20 0 0 ROOTDEV 0 (replicate 30 0) 0).
Definition demo_fs (text : list Z) : fstate (lstate rstore) :=
  FState (demo_store text) false (cache root_entry (Inode ROOTDEV 2 1 free_lock 1 (demo_file text))) disk_sb 0.
Definition demo_kcmd (text input : list Z) : kcmd (lstate rstore) := KCmd demo_console (demo_fs text) input.
Definition demo_text : list Z := [97; 10; 97; 10; 98; 10].

Lemma demo_ready : cons_ready demo_console.
Proof. split; [split; [cbn; lia|done]|done]. Qed.

Lemma demo_blocks_text : demo_blocks demo_text = disk.
Proof. vm_compute. reflexivity. Qed.

Lemma demo_ops : in_ops 22 0 (demo_store demo_text).
Proof.
  split; [|done|done|].
  - exists 2%nat, 20%nat, []. unfold demo_store. rewrite demo_blocks_text. destruct disk_in_tx as (st & sz & bs & Hin).
    split; try done; cbn [store lg].
    + split; try done. vm_compute. lia.
    + split; try done; [by apply NoDup_nil|cbn; lia].
    + apply disk_store_ok.
    + vm_compute. lia.
  - exists zero_block. by vm_compute.
Qed.

Lemma demo_tree : tree (TXL := ops_tx_laws 22 0) (demo_fs demo_text) None.
Proof.
  apply (tree_ops 22 0 disk_fs (demo_store demo_text) None disk_tree demo_ops). unfold demo_store. by rewrite demo_blocks_text.
Qed.

Lemma demo_names : names_file 22 0 (demo_fs demo_text) (lit "f") 2 demo_text.
Proof.
  assert (E : content (store (fdk (demo_fs demo_text))) = disk) by apply demo_blocks_text.
  split; rewrite ?E.
  - apply demo_tree.
  - apply disk_in_use. by left.
  - intros j. pose proof (cache_refs root_entry file_entry j) as Hj. change (refs (icache (demo_fs demo_text)) j) with (refs (cache root_entry file_entry) j).
    rewrite Hj. unfold counted. repeat case_decide; cbn; lia.
  - by right; left.
  - exists root_entry. split; [done|]. split; [cbn; lia|]. vm_compute. reflexivity.
  - by vm_compute.
  - by vm_compute.
Qed.

Lemma uniq_modes_agree_witness :
  exists out,
    wpe (sys_uniq_kernel 7 (fun _ => None) (replicate 14 0) (replicate 256 7) (replicate 1024 7) [0] (Some (lit "f")) (Some (lit "-d")))
      (demo_kcmd demo_text []) (fun r k' =>
        r = 0 /\ serial (kc_cons k') = [] ++ out /\ call_leaves 22 0 (demo_fs demo_text) 2 (kc_fs k')) (call_stops out (demo_kcmd demo_text [])) /\
    wp (uniq_user (replicate 256 7) 0 (lit "-d")) (Uio ∅ {[0 := demo_text]} [] []) (fun _ s' =>
      u_out s' = [] ++ ((fun b => (1, b)) <$> out)).
Proof.
  apply (uniq_modes_agree 22 7 (fun _ => None) 0 (replicate 14 0) (replicate 256 7) (replicate 1024 7) [0] (lit "f") 2 (lit "-d") (chars "-d")
    demo_text [[97]; [97]; [98]] 0 (demo_kcmd demo_text []) (Uio ∅ {[0 := demo_text]} [] [])).
  - reflexivity.
  - reflexivity.
  - apply list_elem_of_here.
  - split; [by repeat constructor|]. by exists [].
  - by repeat constructor.
  - discriminate.
  - apply demo_names.
  - apply demo_ready.
  - reflexivity.
  - apply (text_cons [97] _ [97; 10; 98; 10]), (text_cons [97] _ [98; 10]), (text_cons [98] _ []), text_end.
  - repeat constructor; try done; cbn; try lia; set_solver.
Defined.

(** ** Standard input *)

Lemma aset_out {S} (a : list Z) i v (s : S) :
  Z.of_nat (length a) <= i -> aset a i v s = Stop (Panicked "wild pointer") s.
Proof. intros Hi. unfold aset. rewrite (proj2 (Z.ltb_ge _ _)) by lia. by rewrite andb_false_r. Qed.

Lemma read_stdin_overflow {T} n buffer i (k : kcmd T) :
  (length buffer <= i + length (kc_stdin k))%nat -> (i <= length buffer)%nat -> (length (kc_stdin k) < n)%nat ->
  exists k', (r ← read_stdin n buffer (Z.of_nat i); aset r.1 r.2 0) k = Stop (Panicked "wild pointer") k'.
Proof.
  revert n buffer i k. induction n as [|n IH]; intros buffer i k Hle Hi Hn; [lia|].
  cbn [read_stdin]. unfold fileread1, mbind, M_bind, get, put, mret, M_ret. destruct (kc_stdin k) as [|c rest] eqn:Hs.
  { rewrite aset_out by (cbn [length fst snd] in *; lia). eauto. }
  cbn [length] in *. destruct (decide (i < length buffer)%nat) as [Hlt|Hge].
  - unfold aset at 1. rewrite (proj2 (Z.leb_le 0 _)), (proj2 (Z.ltb_lt _ _)) by lia. cbn [andb]. unfold mret, M_ret.
    replace (Z.of_nat i + 1) with (Z.of_nat (S i)) by lia.
    destruct (IH (<[Z.to_nat (Z.of_nat i) := c]> buffer) (S i) (set_kc_stdin rest k)) as [k' H];
      rewrite ?length_insert; cbn [kc_stdin set_kc_stdin]; try lia. by exists k'.
  - rewrite aset_out by lia. eauto.
Qed.

(** Uniq of standard input in the kernel is broken. With option -z the
    system call copies its input to an array of 1024 bytes on the kernel
    stack without looking at its size, so that an input of 1024 bytes or more
    is written past the array. And it skips the first character of every line
    but the first, so that two equal lines are reported as different. *)
Theorem uniq_stdin_faults me devsw_read name junk buffer stack f (k : kcmd (lstate rstore)) :
  length buffer = 1024%nat -> 1024 <= Z.of_nat (length (kc_stdin k)) ->
  (exists k', sys_uniq_kernel me devsw_read name junk buffer stack (Some f) (Some (lit "-z")) k = Stop (Panicked "wild pointer") k') /\
  wp (sys_uniq_kernel me devsw_read name junk (replicate 1024 7) stack (Some f) (Some (lit "-z")))
    (demo_kcmd [] (chars "ab" ++ [10] ++ chars "ab" ++ [10]))
    (fun r k' => r = 0 /\ serial (kc_cons k') = chars "ab" ++ [10] ++ chars "b" ++ [10]).
Proof.
  intros Hl Hn. split; [|by vm_compute]. unfold sys_uniq_kernel, mbind, M_bind.
  replace (flags_of (lit "-z") k) with (Ret (S:=kcmd (lstate rstore)) (UFlags false false false false) k) by reflexivity.
  replace (strcmp (lit "-z") (lit "-z") k) with (Ret (S:=kcmd (lstate rstore)) 0 k) by reflexivity.
  cbn [Z.eqb]. unfold uniq_stdin, mbind, M_bind, get.
  destruct (read_stdin_overflow (S (length (kc_stdin k))) buffer 0 k) as [k' H]; [lia..|].
  unfold mbind, M_bind in H. change (Z.of_nat 0) with 0 in H. exists k'.
  destruct (read_stdin (S (length (kc_stdin k))) buffer 0 k) as [r k1|w k1].
  - destruct (aset r.1 r.2 0 k1) as [b k2|w k2]; [done|]. by injection H as -> ->.
  - by injection H as -> ->.
Qed.

Lemma uniq_stdin_faults_witness :
  exists k', sys_uniq_kernel 7 (fun _ => None) [] [] (replicate 1024 7) [] (Some (lit "f")) (Some (lit "-z")) (demo_kcmd [] (replicate 1030 97)) =
    Stop (Panicked "wild pointer") k'.
Proof.
  refine (proj1 (uniq_stdin_faults 7 (fun _ => None) [] [] (replicate 1024 7) [] (lit "f") (demo_kcmd [] (replicate 1030 97)) _ _)).
  - reflexivity.
  - cbn [kc_stdin demo_kcmd]. rewrite length_replicate. lia.
Defined.
