(* ===== verification/Head.v ===== *)
(** The head command: the user program of [head_user.c], and the programs
    [head_kernel.c] and [uniq_kernel.c] that make the system call.

    Arguments are arrays that hold a C string. *)

From S2P Require Import Prelude Mem Block Log Refstore Tx Txop Fs Ftable User Ulib Uniq Console Kcmd.

Open Scope Z_scope.

Definition DEFAULT_NLINES : Z := 14.

(** ** head_user.c *)

(** The inner loop over the bytes that were read; returns [linesDisplayed]. *)
Fixpoint head_chars (bs : list Z) (linesDisplayed numDisplayedLines : Z) : M uio Z :=
  match bs with
  | [] => mret linesDisplayed
  | c :: bs =>
      if linesDisplayed <? numDisplayedLines then
        let linesDisplayed := if c =? 10 then linesDisplayed + 1 else linesDisplayed in
        printf 1 "%c" [PInt c] ;;
        head_chars bs linesDisplayed numDisplayedLines
      else mret linesDisplayed
  end.

Fixpoint head_loop (fuel : nat) (fileDescriptor linesDisplayed numDisplayedLines : Z) : M uio unit :=
  match fuel with
  | O => out_of_fuel
  | S fuel =>
      if linesDisplayed <? numDisplayedLines then
        r ← read fileDescriptor 512;
        match r with
        | None | Some [] => mret tt
        | Some bs =>
            linesDisplayed ← head_chars bs linesDisplayed numDisplayedLines;
            head_loop fuel fileDescriptor linesDisplayed numDisplayedLines
        end
      else mret tt
  end.

(** Every turn of the loop consumes a byte of the input. *)
Definition head (fileDescriptor numDisplayedLines : Z) : M uio unit :=
  n ← Prelude.gets (fun s => length (default [] (u_fds s !! fileDescriptor)));
  head_loop (S n) fileDescriptor 0 numDisplayedLines ;;
  printf 1 nl [].

Definition char0 (a : list Z) : Z := default 0 (a !! 0%nat).

(** The loop over the files; [i] is the index of the first one. *)
Fixpoint head_files (argc i numLinesToDisplay : Z) (argv : list (list Z)) : M uio unit :=
  match argv with
  | [] => mret tt
  | a :: argv =>
      let dash := char0 a =? 45 in
      fileDescriptor ← (if negb dash then open (cut0 a) else mret 0);
      if negb dash && (fileDescriptor <? 0) then
        printf 2 ("head: cannot open %s" ++ nl) [pstr a] ;;
        head_files argc (i + 1) numLinesToDisplay argv
      else
        when ((2 <? argc) && negb dash)
          (when (1 <? i) (printf 1 nl []) ;; printf 1 ("%s" ++ nl ++ nl) [pstr a]) ;;
        when (negb dash)
          (head fileDescriptor numLinesToDisplay ;; close fileDescriptor) ;;
        head_files argc (i + 1) numLinesToDisplay argv
  end.

(** What main does once the number of lines is known. *)
Definition head_args (numLinesToDisplay : Z) (argv : list (list Z)) : M uio unit :=
  let argc := Z.of_nat (length argv) in
  if (argc =? 1) || ((argc =? 2) && (char0 (default [] (argv !! 1%nat)) =? 45)) then
    head 0 numLinesToDisplay ;; exit
  else
    head_files argc 1 numLinesToDisplay (drop 1 argv) ;;
    exit.

Definition head_user_main (argv : list (list Z)) : M uio unit :=
  printf 1 (nl ++ "*** Head command is getting executed in user mode ***" ++ nl ++ nl) [] ;;
  match argv with
  | _ :: a1 :: _ =>
      if char0 a1 =? 45 then
        numLinesToDisplay ← atoi (drop 1 a1);
        if numLinesToDisplay <=? 0 then
          printf 2 ("Invalid number of lines: %s" ++ nl) [pstr a1] ;; exit
        else head_args numLinesToDisplay (drop 1 argv)
      else head_args DEFAULT_NLINES argv
  | _ => head_args DEFAULT_NLINES argv
  end.

(** ** head_kernel.c and uniq_kernel.c *)

Section syscalls.

(** The system calls. *)
Variable head_kernel : list Z -> Z -> Z -> M uio Z.
Variable uniq_kernel : list Z -> list Z -> M uio Z.

Definition head_kernel_main (argv : list (list Z)) : M uio unit :=
  printf 1 (nl ++ "*** Head command is getting executed in kernel mode ***" ++ nl ++ nl) [] ;;
  let call targetFile numLines sourceType := head_kernel targetFile numLines sourceType ;; exit in
  let invalid a := printf 2 ("Invalid number of lines specified: %s" ++ nl) [pstr a] ;; exit in
  match argv with
  | [_] => call (lit EmptyString) DEFAULT_NLINES 0
  | [_; a1] =>
      if char0 a1 =? 45 then
        numLines ← atoi (drop 1 a1);
        if numLines <=? 0 then invalid a1
        else call (lit EmptyString) numLines 0
      else call a1 DEFAULT_NLINES 1
  | [_; a1; a2] =>
      numLines ← atoi (drop 1 a1);
      if numLines <=? 0 then invalid a1
      else call a2 numLines 1
  | _ => call (lit EmptyString) DEFAULT_NLINES 0
  end.

Definition uniq_kernel_main (argv : list (list Z)) : M uio unit :=
  printf 1 (nl ++ "*** Uniq command is getting executed in kernel mode ***" ++ nl ++ nl) [] ;;
  match argv with
  | [_] => uniq_kernel (lit "stdin") (lit "z") ;; mret tt
  | [_; a1] => uniq_kernel a1 (lit "-n") ;; mret tt
  | [_; a1; a2] =>
      let c1 := default 0 (a1 !! 1%nat) in
      if (char0 a1 =? 45) && ((c1 =? 99) || (c1 =? 105) || (c1 =? 100)) then uniq_kernel a2 a1 ;; mret tt
      else
        printf 2 ("Invalid option: %s. Please use '-c', '-i', or '-d' as valid options." ++ nl) [pstr a1]
  | _ => mret tt
  end ;;
  exit.

End syscalls.

(** ** What head prints *)

(** The part of [data] up to the end of its [n]-th line. *)
Fixpoint take_lines (n : nat) (data : list Z) : list Z :=
  match n, data with
  | S n', c :: data => c :: take_lines (if c =? 10 then n' else n) data
  | _, _ => []
  end.

(** The lines that are left after some bytes. *)
Definition newlines (bs : list Z) : nat := length (filter (fun c => c = 10) bs).

Lemma take_lines_O data : take_lines 0 data = [].
Proof. by destruct data. Qed.

Lemma take_lines_app n a b : take_lines n (a ++ b) = take_lines n a ++ take_lines (n - newlines a) b.
Proof.
  revert n. induction a as [|c a IH]; intros n; cbn [app]; [unfold newlines; cbn; by rewrite Nat.sub_0_r; destruct n|].
  destruct n as [|n]; [by rewrite !take_lines_O|]. cbn [take_lines app]. f_equal. rewrite IH. f_equal.
  unfold newlines. rewrite filter_cons. destruct (Z.eqb_spec c 10) as [->|Hne].
  - by rewrite decide_True by done.
  - by rewrite decide_False by done.
Qed.

Lemma head_chars_run bs ld n s :
  Forall in_u8 bs -> 0 <= ld ->
  exists ld', head_chars bs ld n s = Ret ld' (emit 1 (take_lines (Z.to_nat (n - ld)) bs) s) /\
    ld <= ld' /\ Z.to_nat (n - ld') = (Z.to_nat (n - ld) - newlines bs)%nat.
Proof.
  revert ld s. induction bs as [|c bs IH]; intros ld s Hbs Hld.
  - exists ld. cbn [head_chars]. split; [|split; [lia|by rewrite Nat.sub_0_r]].
    unfold mret, M_ret. replace (take_lines (Z.to_nat (n - ld)) []) with ([] : list Z) by (by destruct (Z.to_nat _)).
    by rewrite emit_nil.
  - apply Forall_cons in Hbs as [Hc Hbs]. cbn [head_chars]. destruct (Z.ltb_spec ld n).
    + set (ld1 := if c =? 10 then ld + 1 else ld). unfold mbind, M_bind.
      replace (printf 1 "%c" [PInt c] s) with (Ret tt (emit 1 [u8 c] s)) by reflexivity. rewrite u8_small by done.
      destruct (IH ld1 (emit 1 [c] s) Hbs) as (ld' & Hrun & Hle & Hnl); [unfold ld1; destruct (c =? 10); lia|].
      exists ld'. rewrite Hrun, emit_app. cbn [app].
      destruct (Z.to_nat (n - ld)) as [|m] eqn:Em; [lia|]. cbn [take_lines].
      assert (Z.to_nat (n - ld1) = if c =? 10 then m else S m) as E1 by (unfold ld1; destruct (c =? 10); lia).
      rewrite E1 in Hrun, Hnl. rewrite E1. split; [done|]. unfold newlines in *. rewrite filter_cons.
      unfold ld1 in *. destruct (Z.eqb_spec c 10) as [->|Hne].
      * rewrite decide_True by done. cbn [length]. split; lia.
      * rewrite decide_False by done. split; [lia|done].
    + exists ld. replace (Z.to_nat (n - ld)) with 0%nat by lia. rewrite take_lines_O, emit_nil. split; [done|]. lia.
Qed.

Lemma head_loop_run fuel fd ld n data s :
  u_fds s !! fd = Some data -> Forall in_u8 data -> 0 <= ld -> (length data < fuel)%nat ->
  wp (head_loop fuel fd ld n) s (fun _ s' =>
    u_out s' = u_out s ++ ((fun b => (1, b)) <$> take_lines (Z.to_nat (n - ld)) data)).
Proof.
  revert ld data s. induction fuel as [|fuel IH]; intros ld data s Hd H8 Hld Hf; [lia|]. cbn [head_loop].
  destruct (Z.ltb_spec ld n).
  2: { apply wpe_ret. replace (Z.to_nat (n - ld)) with 0%nat by lia. by rewrite take_lines_O, app_nil_r. }
  destruct (read_some fd data 512 s Hd) as (k & s1 & Hrun & Htook & Hk & _); [lia|].
  apply wp_bind. eapply wp_intro; [exact Hrun|]. cbv beta iota.
  destruct (take k data) as [|c bs] eqn:Hbs.
  - apply wpe_ret. destruct data as [|c data].
    + rewrite (proj1 (proj2 Htook)). destruct (Z.to_nat (n - ld)); cbn; by rewrite app_nil_r.
    + specialize (Hk ltac:(done)). destruct k; [lia|done].
  - rewrite <- Hbs in *. assert (Hk' : (0 < length (take k data))%nat) by (rewrite Hbs; cbn; lia).
    destruct (head_chars_run (take k data) ld n s1) as (ld' & Hrun' & Hle & Hnl); [by apply Forall_take|done|].
    apply wp_bind. eapply wp_intro; [exact Hrun'|].
    eapply wp_mono; [|apply (IH ld' (drop k data)); [|by apply Forall_drop|lia|]].
    + cbv beta. intros _ s' ->. cbn [u_out emit set_out]. rewrite (proj1 (proj2 Htook)), Hnl, <- app_assoc, <- fmap_app.
      by rewrite <- take_lines_app, take_drop.
    + cbn. by eapply took_fds.
    + rewrite length_take in Hk'. rewrite length_drop. lia.
Qed.

Lemma head_run fd n data s :
  u_fds s !! fd = Some data -> Forall in_u8 data ->
  wp (head fd n) s (fun _ s' =>
    u_out s' = u_out s ++ ((fun b => (1, b)) <$> take_lines (Z.to_nat n) data ++ [10])).
Proof.
  intros Hd H8. unfold head. apply wp_bind. unfold Prelude.gets at 1, wp at 1, wpe. rewrite Hd. cbn [default id].
  apply wp_bind. eapply wp_mono; [|apply (head_loop_run _ fd 0 n data); [done..|lia|lia]]. cbv beta.
  intros _ s' Ho. eapply wp_intro; [apply puts_nl|]. cbn [u_out emit set_out]. rewrite Ho, Z.sub_0_r, fmap_app. by rewrite app_assoc.
Qed.

(** ** head in the kernel *)

Definition with_newlines (ls : list (list Z)) : list Z := ls ≫= (fun l => l ++ [10]).

Lemma with_newlines_text ls : text_of ls (with_newlines ls).
Proof.
  induction ls as [|l ls IH]; [constructor|]. change (with_newlines (l :: ls)) with ((l ++ [10]) ++ with_newlines ls).
  rewrite <- app_assoc. by constructor.
Qed.

Lemma take_lines_line n l rest : 10 ∉ l -> take_lines (S n) (l ++ 10 :: rest) = l ++ 10 :: take_lines n rest.
Proof.
  induction l as [|c l IH]; intros Hl; cbn [app take_lines].
  - done.
  - apply not_elem_of_cons in Hl as [Hc Hl]. rewrite (proj2 (Z.eqb_neq c 10)) by done. f_equal. by apply IH.
Qed.

Lemma take_lines_lines n ls :
  Forall good_line ls -> take_lines n (with_newlines ls) = with_newlines (take n ls).
Proof.
  intros Hg. revert n. induction Hg as [|l ls Hl _ IH]; intros n; [by destruct n|].
  destruct n as [|n]; [by rewrite take_lines_O|].
  change (with_newlines (l :: ls)) with ((l ++ [10]) ++ with_newlines ls).
  change (with_newlines (take (S n) (l :: ls))) with ((l ++ [10]) ++ with_newlines (take n ls)).
  rewrite <- !app_assoc. cbn [app]. by rewrite take_lines_line, IH by apply Hl.
Qed.

Section kernel_head.
Context {T : Type} `{BS : BlockStore T} `{BSL : !BlockStoreLaws T}.
Context (first ops me : Z) (devsw_read : Z -> option (nat -> Z -> M (fstate (lstate T)) (Z * list Z))).
Context (ip : nat) (i : inode) (data : list Z) (s0 : fstate (lstate T)) (H0 : reading first ops me ip i data s0).
Let io : LineIO kprint (knext devsw_read ip) := kernel_lines first ops me devsw_read ip i data s0 H0.

Lemma wp_kreadline x buf k Q :
  wp (knext devsw_read ip x buf) k Q -> wp (kreadline devsw_read ip x buf) k (fun r k' => Q (r.1, r.2, x + r.2 + 1) k').
Proof. unfold knext, wp, wpe, mbind, M_bind. by destruct (kreadline devsw_read ip x buf k). Qed.

Lemma head_lines_run fuel ls buf x lr n k :
  io_ok (LineIO := io) k -> io_left (LineIO := io) ls x k -> Forall good_line ls -> line_buf buf -> (length ls < fuel)%nat ->
  wp (head_lines devsw_read fuel ip buf x lr n) k (fun _ k' =>
    io_ok (LineIO := io) k' /\ io_out (LineIO := io) (with_newlines (take (Z.to_nat (n + 1 - lr)) ls)) k k').
Proof.
  revert ls buf x lr k. induction fuel as [|fuel IH]; intros ls buf x lr k Hok Hleft Hg Hb Hf; [lia|]. cbn [head_lines].
  destruct (Z.leb_spec lr n).
  2: { apply wpe_ret. split; [done|]. replace (Z.to_nat (n + 1 - lr)) with 0%nat by lia. apply (io_nil (LineIO := io)). }
  apply wp_bind. destruct ls as [|l ls].
  - eapply wp_mono; [|apply wp_kreadline, (io_end (LineIO := io)); done]. cbv beta. intros r k' (Hr & Hok' & Ho). cbn [fst snd] in *.
    rewrite (proj2 (Z.ltb_ge _ _)) by lia. apply wpe_ret. by rewrite take_nil.
  - apply Forall_cons in Hg as [Hl Hg].
    eapply wp_mono; [|apply wp_kreadline, (io_next (LineIO := io) l ls); done]. cbv beta.
    intros [buf' m] k1 (Hm & Hs & Hb1 & Hok1 & Ho1 & Hleft1). cbn [fst snd] in *.
    assert (0 < m) by (pose proof (gl_nonempty _ Hl); destruct l; [done|]; cbn [length] in *; lia).
    rewrite (proj2 (Z.ltb_lt _ _)) by lia. rewrite (pstr_str _ _ Hs).
    apply wp_bind. eapply wp_mono; [|apply (io_line (LineIO := io)); [done|apply Hl]]. cbv beta. intros _ k2 (Hok2 & Ho2 & Hkeep).
    eapply wp_mono; [|apply (IH ls); [done|by apply Hkeep|done|done|cbn [length] in Hf; lia]]. cbv beta.
    intros _ k3 [Hok3 Ho3]. split; [done|].
    replace (Z.to_nat (n + 1 - lr)) with (S (Z.to_nat (n + 1 - (lr + 1)))) by lia.
    change (with_newlines (take (S ?m) (l :: ls))) with ([] ++ (l ++ [10]) ++ with_newlines (take m ls)).
    eapply (io_app (LineIO := io)); [exact Ho1|]. eapply (io_app (LineIO := io)); [exact Ho2|]. exact Ho3.
Qed.

End kernel_head.

Lemma replicate_line_buf n : (256 < n)%nat -> line_buf (replicate n 0).
Proof.
  intros Hn. split; [rewrite length_replicate; lia|]. rewrite drop_replicate. apply elem_of_replicate. split; [done|lia].
Qed.

Lemma sys_head_spec {T} `{BS : BlockStore T} `{BSL : !BlockStoreLaws T} first me devsw_read ops name lineBuffer pa inum data ls n
    (k : kcmd (lstate T)) :
  length name = Z.to_nat DIRSIZ -> names_file first ops (kc_fs k) pa inum data -> cons_ready (kc_cons k) ->
  text_of ls data -> Forall good_line ls ->
  let out := with_newlines (take (Z.to_nat n) ls) ++ [10] in
  wpe (sys_head_kernel me devsw_read name lineBuffer (Some pa) (Some n) (Some 1)) k (fun r k' =>
      r = n /\ serial (kc_cons k') = serial (kc_cons k) ++ out /\ call_leaves first ops (kc_fs k) inum (kc_fs k'))
    (call_stops out k).
Proof.
  intros Hn Hfile Hr Htext Hgood out. unfold sys_head_kernel. change (1 =? 0) with false. cbn match.
  eapply wpe_open; [done|done|]. intros ip i k1 Hat. eapply wpe_line_fuel; [exact Hat|].
  pose proof (at_file_lines _ _ _ _ _ _ _ _ _ Hat Hr) as Hok. apply wpe_bind.
  eapply wpe_mono; [| |apply (head_lines_run first (ops + 1) me devsw_read ip i data (kc_fs k1) (proj1 Hat) _ ls);
    [exact Hok|by split; [lia|]|done|apply replicate_line_buf; lia|pose proof (text_of_length _ _ Htext Hgood); lia]]; [|done].
  cbv beta. intros _ k2 [Hok2 Ho2]. replace (n + 1 - 1) with n in Ho2 by lia.
  apply wpe_bind. eapply wpe_mono; [| |exact (kprint_newline _ _ _ k2 Hok2)]; [|done]. cbv beta.
  intros _ k3 [Hok3 Ho3]. eapply wpe_close; [exact Hat|exact Hok3|]. eapply kprinted_app; [exact Ho2|exact Ho3].
Qed.

Lemma with_newlines_u8 ls : Forall good_line ls -> Forall in_u8 (with_newlines ls).
Proof.
  induction 1 as [|l ls Hl _ IH]; [constructor|]. change (with_newlines (l :: ls)) with ((l ++ [10]) ++ with_newlines ls).
  apply Forall_app. split; [|done]. apply Forall_app. split; [apply Hl|by repeat constructor].
Qed.



(** The modes differ on an empty line: the system call stops there. *)
Example heads_differ_blank :
  let data := [97; 10; 10; 98; 10] in
  wp (sys_head_kernel 7 (fun _ => None) (replicate 14 0) [] (Some (lit "f")) (Some 3) (Some 1)) (demo_kcmd data [])
    (fun _ k' => serial (kc_cons k') = [97; 10; 10]) /\
  wp (head 0 3) (Uio ∅ {[0 := data]} [] []) (fun _ s' => (snd <$> u_out s') = data ++ [10]).
Proof. split; by vm_compute. Qed.

(** And on a last line without a newline: the system call ends it, and prints
    the empty line after it. *)
Example heads_differ_unterminated :
  wp (sys_head_kernel 7 (fun _ => None) (replicate 14 0) [] (Some (lit "f")) (Some 3) (Some 1)) (demo_kcmd [97] [])
    (fun _ k' => serial (kc_cons k') = [97; 10; 10]) /\
  wp (head 0 3) (Uio ∅ {[0 := [97]]} [] []) (fun _ s' => (snd <$> u_out s') = [97; 10]).
Proof. split; by vm_compute. Qed.
