(* ===== verification/Grep.v ===== *)
(** The grep command, [grep.c]: the matcher against the language of the
    pattern, and the buffering of lines. *)

From S2P Require Import Prelude Mem Block User Ulib Uniq Console Kcmd Head.

Open Scope Z_scope.

(** ** The matcher *)

Section matcher.
Context {S : Type}.

(** [matchhere] is the matcher for the rest of the expression. *)
Fixpoint matchstar (matchhere : list Z -> M S bool) (c : Z) (text : list Z) : M S bool :=
  b ← matchhere text;
  if b : bool then mret true
  else match text with
       | [] => wild
       | t :: text => if negb (t =? 0) && ((t =? c) || (c =? 46)) then matchstar matchhere c text else mret false
       end.

Fixpoint matchhere (re text : list Z) : M S bool :=
  match re with
  | [] => wild
  | c :: re =>
      if c =? 0 then mret true
      else match re with
           | [] => wild
           | d :: re2 =>
               if d =? 42 then matchstar (matchhere re2) c text
               else match text with
                    | [] => wild
                    | t :: text =>
                        if (c =? 36) && (d =? 0) then mret (t =? 0)
                        else if negb (t =? 0) && ((c =? 46) || (c =? t)) then matchhere re text
                        else mret false
                    end
           end
  end.

Fixpoint match_loop (re text : list Z) : M S bool :=
  b ← matchhere re text;
  if b : bool then mret true
  else match text with
       | [] => wild
       | t :: text => if negb (t =? 0) then match_loop re text else mret false
       end.

Definition match_ (re text : list Z) : M S bool :=
  match re with
  | [] => wild
  | c :: re' => if c =? 94 then matchhere re' text else match_loop re text
  end.

End matcher.

(** ** Lines *)

(** The loop over the lines of the buffer from [p] on; returns the buffer and
    the position of the rest. *)
Fixpoint grep_lines (fuel : nat) (pattern buf : list Z) (p : Z) : M uio (list Z * Z) :=
  match fuel with
  | O => out_of_fuel
  | S fuel =>
      q ← strchr (drop (Z.to_nat p) buf) 10;
      match q with
      | None => mret (buf, p)
      | Some d =>
          let q := p + d in
          buf ← aset buf q 0;
          b ← match_ pattern (drop (Z.to_nat p) buf);
          buf ← (if b : bool then
                   buf ← aset buf q 10;
                   write 1 (sub buf (Z.to_nat p) (Z.to_nat (q + 1 - p))) ;;
                   mret buf
                 else mret buf);
          grep_lines fuel pattern buf (q + 1)
      end
  end.

(** [memmove(a + dst, a + src, n)] for [dst] at most [src]. *)
Fixpoint amove (n : nat) (a : list Z) (dst src : nat) : list Z :=
  match n with
  | O => a
  | S n => amove n (<[dst := default 0 (a !! src)]> a) (dst + 1) (src + 1)
  end.

Definition sizeof_buf : Z := 1024.

(** The loop over the reads: [m] bytes of [buf] are an unfinished line. *)
Fixpoint grep_loop (fuel : nat) (pattern : list Z) (fd : Z) (buf : list Z) (m : Z) : M uio (list Z) :=
  match fuel with
  | O => out_of_fuel
  | S fuel =>
      r ← read fd (u32 (sizeof_buf - m - 1));
      match r with
      | None | Some [] => mret buf
      | Some bs =>
          let buf := splice buf (Z.to_nat m) bs in
          let m := m + Z.of_nat (length bs) in
          buf ← aset buf m 0;
          bp ← grep_lines (S (length buf)) pattern buf 0;
          let '(buf, p) := bp in
          let m := if p =? 0 then 0 else m in
          if 0 <? m then
            let m := m - p in
            grep_loop fuel pattern fd (amove (Z.to_nat m) buf 0 (Z.to_nat p)) m
          else grep_loop fuel pattern fd buf m
      end
  end.

(** Every turn of the loop consumes a byte of the input. The array is a
    global variable: what one file leaves in it the next one finds. *)
Definition grep (pattern : list Z) (fd : Z) (buf : list Z) : M uio (list Z) :=
  n ← Prelude.gets (fun s => length (default [] (u_fds s !! fd)));
  grep_loop (S n) pattern fd buf 0.

Fixpoint grep_files (pattern : list Z) (argv : list (list Z)) (buf : list Z) : M uio unit :=
  match argv with
  | [] => mret tt
  | a :: argv =>
      fd ← open (cut0 a);
      if fd <? 0 then
        printf 1 ("grep: cannot open %s" ++ nl) [pstr a] ;; exit
      else
        buf ← grep pattern fd buf;
        close fd ;;
        grep_files pattern argv buf
  end.

Definition grep_main (argv : list (list Z)) : M uio unit :=
  let buf := replicate (Z.to_nat sizeof_buf) 0 in
  match argv with
  | [] | [_] => printf 2 ("usage: grep pattern [file ...]" ++ nl) [] ;; exit
  | [_; pattern] => grep pattern 0 buf ;; exit
  | _ :: pattern :: files => grep_files pattern files buf ;; exit
  end.

(** ** The language of a pattern *)

(** A character, possibly repeated; the dot stands for any. *)
Inductive item :=
  | One (c : Z)
  | Many (c : Z).

Definition fits (c x : Z) : Prop := c = 46 \/ c = x.

Inductive denotes : list item -> list Z -> Prop :=
  | denotes_nil : denotes [] []
  | denotes_one c x its w : fits c x -> denotes its w -> denotes (One c :: its) (x :: w)
  | denotes_many c u its w : Forall (fits c) u -> denotes its w -> denotes (Many c :: its) (u ++ w).

(** The items of a pattern, and whether it must match up to the end. *)
Fixpoint items (p : list Z) : list item * bool :=
  match p with
  | [] => ([], false)
  | c :: p1 =>
      match p1 with
      | [] => if c =? 36 then ([], true) else ([One c], false)
      | d :: p2 =>
          if d =? 42 then let r := items p2 in (Many c :: r.1, r.2)
          else let r := items p1 in (One c :: r.1, r.2)
      end
  end.

(** [p] matches at the beginning of [t]. *)
Definition matches_here (p t : list Z) : Prop :=
  exists w v, t = w ++ v /\ denotes (items p).1 w /\ ((items p).2 = true -> v = []).

(** [p] matches somewhere in [t], or at its beginning after a hat. *)
Definition matches (p t : list Z) : Prop :=
  match p with
  | 94 :: p' => matches_here p' t
  | _ => exists a t', t = a ++ t' /\ matches_here p t'
  end.

Lemma matches_here_nil t : matches_here [] t.
Proof. exists [], t. split_and!; [done|constructor|done]. Qed.

Lemma matches_here_end t : matches_here [36] t <-> t = [].
Proof.
  split.
  - intros (w & v & -> & Hw & Hv). cbn in Hw. inversion Hw; subst. by apply Hv.
  - intros ->. exists [], []. split_and!; [done|constructor|done].
Qed.

Lemma matches_here_one c p t :
  items (c :: p) = (One c :: (items p).1, (items p).2) ->
  matches_here (c :: p) t <-> exists x t', t = x :: t' /\ fits c x /\ matches_here p t'.
Proof.
  intros Hi. unfold matches_here. rewrite Hi. cbn [fst snd]. split.
  - intros (w & v & -> & Hw & Hv). inversion Hw as [|? x ? w' Hx Hw'|]; subst. exists x, (w' ++ v).
    split_and!; [done..|]. by exists w', v.
  - intros (x & t' & -> & Hx & w & v & -> & Hw & Hv). exists (x :: w), v. split_and!; [done|by constructor|done].
Qed.

Lemma matches_here_many c p t :
  matches_here (c :: 42 :: p) t <-> exists u t', t = u ++ t' /\ Forall (fits c) u /\ matches_here p t'.
Proof.
  unfold matches_here. cbn [items Z.eqb Pos.eqb fst snd]. split.
  - intros (w & v & -> & Hw & Hv). inversion Hw as [| |? u ? w' Hu Hw']; subst. exists u, (w' ++ v).
    rewrite <- app_assoc.
    split_and!; [done..|]. by exists w', v.
  - intros (u & t' & -> & Hu & w & v & -> & Hw & Hv). exists (u ++ w), v. rewrite app_assoc.
    split_and!; [done|by constructor|done].
Qed.

Section correct.
Context {S : Type}.

(** [m] returns whether [P] holds, and changes nothing. *)
Definition decides (m : M S bool) (P : Prop) : Prop := forall s, exists b, m s = Ret b s /\ (b = true <-> P).

Lemma decides_iff m P P' : decides m P -> (P <-> P') -> decides m P'.
Proof. intros H Hp s. destruct (H s) as (b & Hb & Hi). exists b. split; [done|]. by rewrite Hi. Qed.

Lemma decides_true (P : Prop) : P -> decides (mret true) P.
Proof. intros H s. by exists true. Qed.

Lemma decides_false (P : Prop) : ~ P -> decides (mret false) P.
Proof. intros H s. exists false. by split; [|split]. Qed.

Lemma decides_or m (k : M S bool) P P' :
  decides m P -> decides k P' -> decides (b ← m; if b : bool then mret true else k) (P \/ P').
Proof.
  intros Hm Hk s. destruct (Hm s) as (b & Hb & Hi). unfold mbind, M_bind. rewrite Hb. destruct b.
  - exists true. split; [done|]. split; [|done]. intros _. left. by apply Hi.
  - destruct (Hk s) as (b & Hb' & Hi'). exists b. split; [done|]. rewrite Hi'. split; [by right|]. intros [HP|]; [|done].
    apply Hi in HP. done.
Qed.

Lemma matchstar_decides f c text t (P : list Z -> Prop) :
  is_str text t -> (forall text t, is_str text t -> decides (f text) (P t)) ->
  decides (matchstar f c text) (exists u t', t = u ++ t' /\ Forall (fits c) u /\ P t').
Proof.
  intros Ht Hf. revert t Ht. induction text as [|x text IH]; intros t Ht; [destruct Ht as [_ [r Hr]]; by destruct t|].
  cbn [matchstar]. destruct t as [|y t].
  - pose proof (is_str_nil_inv _ Ht) as [r E]; injection E as -> ->. eapply decides_iff; [apply decides_or; [by apply Hf|cbn; apply (decides_false False); intros []]|].
    split; [intros [H|[]]; exists [], []; by split_and!|]. intros (u & t' & E & Hu & HP). left.
    symmetry in E. apply app_eq_nil in E as [-> ->]. done.
  - assert (x = y) as -> by (destruct Ht as [_ [r E]]; by injection E). pose proof (proj1 (is_str_cons _ _ _) Ht) as [Hy Ht'].
    rewrite (proj2 (Z.eqb_neq _ _) Hy). cbn [negb andb].
    destruct ((y =? c) || (c =? 46)) eqn:Hc.
    + assert (Hfit : fits c y) by (unfold fits; lia). eapply decides_iff; [apply decides_or; [by apply Hf|by apply IH]|]. split.
      * intros [H|(u & t' & -> & Hu & HP)]; [by exists [], (y :: t)|]. exists (y :: u), t'. split_and!; try done. by constructor.
      * intros (u & t' & E & Hu & HP). destruct u as [|z u]; cbn in E; [subst t'; by left|]. injection E as -> ->. right.
        apply Forall_cons in Hu as [_ Hu]. by exists u, t'.
    + eapply decides_iff; [apply decides_or; [by apply Hf|apply (decides_false False); intros []]|]. split.
      * intros [H|[]]. by exists [], (y :: t).
      * intros (u & t' & E & Hu & HP). destruct u as [|z u]; cbn in E; [subst t'; by left|]. injection E as -> ->.
        apply Forall_cons in Hu as [Hz _]. unfold fits in Hz. lia.
Qed.

Lemma is_str_inv a c str : is_str a (c :: str) -> exists a', a = c :: a' /\ c <> 0 /\ is_str a' str.
Proof. intros [Hf [r ->]]. exists (str ++ 0 :: r). apply Forall_cons in Hf as [Hc Hf]. split_and!; [done..|]. by split; [|exists r]. Qed.

(** One character of the pattern that is not repeated. *)
Lemma one_decides (f : list Z -> M S bool) c p text t :
  is_str text t -> items (c :: p) = (One c :: (items p).1, (items p).2) ->
  (forall text t, is_str text t -> decides (f text) (matches_here p t)) ->
  decides (match text with
           | [] => wild
           | x :: text => if negb (x =? 0) && ((c =? 46) || (c =? x)) then f text else mret false
           end) (matches_here (c :: p) t).
Proof.
  intros Ht Hi Hf. pose proof (matches_here_one c p t Hi) as Hone. destruct t as [|x t].
  - destruct (is_str_nil_inv _ Ht) as [r ->]. cbn. apply decides_false. rewrite Hone. by intros (? & ? & ? & ?).
  - destruct (is_str_inv _ _ _ Ht) as (text' & -> & Hx & Ht'). rewrite (proj2 (Z.eqb_neq _ _) Hx). cbn [negb andb].
    destruct ((c =? 46) || (c =? x)) eqn:Hc.
    + eapply decides_iff; [by apply Hf|]. rewrite Hone. split; [|by intros (? & ? & [= <- <-] & _ & ?)].
      intros HP. exists x, t. split_and!; [done|unfold fits; lia|done].
    + apply decides_false. rewrite Hone. intros (? & ? & [= <- <-] & Hfit & _). unfold fits in Hfit. lia.
Qed.

Lemma matchhere_decides n p : forall re text t,
  (length p <= n)%nat -> is_str re p -> is_str text t -> decides (matchhere re text) (matches_here p t).
Proof.
  revert p. induction n as [|n IH]; intros p re text t Hn Hre Ht.
  { destruct p; [|cbn in Hn; lia]. destruct (is_str_nil_inv _ Hre) as [r ->]. apply decides_true, matches_here_nil. }
  destruct p as [|c p]; [destruct (is_str_nil_inv _ Hre) as [r ->]; apply decides_true, matches_here_nil|].
  destruct (is_str_inv _ _ _ Hre) as (re1 & -> & Hc & Hre1). cbn [matchhere length] in *. rewrite (proj2 (Z.eqb_neq _ _) Hc).
  destruct p as [|d p].
  - destruct (is_str_nil_inv _ Hre1) as [r ->]. cbn [Z.eqb]. rewrite andb_true_r.
    destruct (Z.eqb_spec c 36) as [->|H36].
    + destruct t as [|x t].
      * destruct (is_str_nil_inv _ Ht) as [r' ->]. cbn. by apply decides_true, matches_here_end.
      * destruct (is_str_inv _ _ _ Ht) as (text' & -> & Hx & _). rewrite (proj2 (Z.eqb_neq _ _) Hx).
        apply decides_false. by rewrite matches_here_end.
    + apply (one_decides (matchhere (0 :: r))); [done| |].
      * cbn [items]. by rewrite (proj2 (Z.eqb_neq _ _) H36).
      * intros text' t' Ht'. apply IH; [cbn; lia|done|done].
  - destruct (is_str_inv _ _ _ Hre1) as (re2 & -> & Hd & Hre2). destruct (Z.eqb_spec d 42) as [->|H42].
    + eapply decides_iff; [|symmetry; apply matches_here_many]. apply matchstar_decides; [done|].
      intros text' t' Ht'. apply IH; [cbn in Hn; lia|done|done].
    + rewrite (proj2 (Z.eqb_neq _ _) Hd), andb_false_r. apply (one_decides (matchhere (d :: re2))); [done| |].
      * cbn [items]. by rewrite (proj2 (Z.eqb_neq _ _) H42).
      * intros text' t' Ht'. apply IH; [cbn in *; lia|done|done].
Qed.

Lemma match_loop_decides re p text t :
  is_str re p -> is_str text t -> decides (match_loop re text) (exists a t', t = a ++ t' /\ matches_here p t').
Proof.
  intros Hre Ht. revert text Ht. induction t as [|x t IH]; intros text Ht.
  - destruct (is_str_nil_inv _ Ht) as [r ->]. cbn [match_loop]. eapply decides_iff.
    { apply decides_or; [by eapply (matchhere_decides _ p)|apply (decides_false False); intros []]. }
    split; [intros [H|[]]; by exists [], []|]. intros (a & t' & E & HP). left. symmetry in E. by apply app_eq_nil in E as [-> ->].
  - pose proof Ht as Ht0. destruct (is_str_inv _ _ _ Ht) as (text' & -> & Hx & Ht'). cbn [match_loop]. rewrite (proj2 (Z.eqb_neq _ _) Hx).
    eapply decides_iff; [apply decides_or; [by eapply (matchhere_decides _ p)|by apply IH]|]. split.
    + intros [H|(a & t' & -> & HP)]; [by exists [], (x :: t)|by exists (x :: a), t'].
    + intros (a & t' & E & HP). destruct a as [|y a]; cbn in E; [subst; by left|]. injection E as <- ->. right. by exists a, t'.
Qed.

Lemma match_decides re p text t : is_str re p -> is_str text t -> decides (match_ re text) (matches p t).
Proof.
  intros Hre Ht. destruct p as [|c p].
  - pose proof Hre as Hre'. destruct (is_str_nil_inv _ Hre) as [r ->]. by apply match_loop_decides.
  - pose proof Hre as Hre'. destruct (is_str_inv _ _ _ Hre) as (re' & -> & Hc & Hre1). unfold match_.
    destruct (Z.eqb_spec c 94) as [->|H94]; [by eapply matchhere_decides|].
    assert (E : matches (c :: p) t = exists a t', t = a ++ t' /\ matches_here (c :: p) t').
    { unfold matches. repeat (case_match; try done). }
    rewrite E. by apply match_loop_decides.
Qed.

End correct.

(** ** The lines that are printed *)

(** A line that the buffer can hold. *)
Record grep_line (l : list Z) : Prop := {
  gr_newline : 10 ∉ l;
  gr_nul : Forall (fun c => c <> 0) l;
  gr_short : (length l <= 1022)%nat
}.

(** [sel] are the lines of [ls] that [p] matches, in order. *)
Inductive selects (p : list Z) : list (list Z) -> list (list Z) -> Prop :=
  | selects_nil : selects p [] []
  | selects_keep l ls sel : matches p l -> selects p ls sel -> selects p (l :: ls) (l :: sel)
  | selects_skip l ls sel : ~ matches p l -> selects p ls sel -> selects p (l :: ls) sel.

Lemma selects_app p l1 l2 s1 s2 : selects p l1 s1 -> selects p l2 s2 -> selects p (l1 ++ l2) (s1 ++ s2).
Proof. induction 1; intros Hs; cbn [app]; try done; constructor; auto. Qed.

Lemma with_newlines_cons l ls : with_newlines (l :: ls) = l ++ 10 :: with_newlines ls.
Proof. unfold with_newlines. cbn. by rewrite <- app_assoc. Qed.

Lemma with_newlines_app l1 l2 : with_newlines (l1 ++ l2) = with_newlines l1 ++ with_newlines l2.
Proof. apply bind_app. Qed.

Lemma strchr_loop_found {S} l c n rest (s : S) :
  c <> 0 -> c ∉ l -> Forall (fun c => c <> 0) l ->
  strchr_loop (l ++ c :: rest) c n s = Ret (Some (n + Z.of_nat (length l))) s.
Proof.
  intros Hc. revert n. induction l as [|x l IH]; intros n Hl H0; cbn [app strchr_loop length].
  - rewrite (proj2 (Z.eqb_neq c 0) Hc), Z.eqb_refl. by rewrite Z.add_0_r.
  - apply not_elem_of_cons in Hl as [Hx Hl]. apply Forall_cons in H0 as [Hx0 H0].
    rewrite (proj2 (Z.eqb_neq x 0) Hx0), (proj2 (Z.eqb_neq x c)) by done. rewrite IH by done. do 2 f_equal. lia.
Qed.

Lemma strchr_loop_absent {S} l c n rest (s : S) :
  c ∉ l -> Forall (fun c => c <> 0) l -> strchr_loop (l ++ 0 :: rest) c n s = Ret None s.
Proof.
  revert n. induction l as [|x l IH]; intros n Hl H0; cbn [app strchr_loop]; [done|].
  apply not_elem_of_cons in Hl as [Hx Hl]. apply Forall_cons in H0 as [Hx0 H0].
  rewrite (proj2 (Z.eqb_neq x 0) Hx0), (proj2 (Z.eqb_neq x c)) by done. by apply IH.
Qed.

Lemma aset_app {S} a b x v i (s : S) :
  i = Z.of_nat (length a) -> aset (a ++ x :: b) i v s = Ret (a ++ v :: b) s.
Proof.
  intros ->. unfold aset. rewrite length_app. cbn [length].
  rewrite (proj2 (Z.leb_le _ _)), (proj2 (Z.ltb_lt _ _)) by lia. cbn [andb]. rewrite Nat2Z.id.
  by rewrite insert_app_r_alt, Nat.sub_diag by lia.
Qed.

Lemma lookup_amove n : forall a dst src i,
  (dst <= src)%nat -> (src + n <= length a)%nat ->
  amove n a dst src !! i = if decide (dst <= i < dst + n)%nat then a !! (src + (i - dst))%nat else a !! i.
Proof.
  induction n as [|n IH]; intros a dst src i Hd Hs; cbn [amove]; [by rewrite decide_False by lia|].
  destruct (lookup_lt_is_Some_2 a src) as [v Hv]; [lia|]. rewrite Hv. cbn [default id].
  rewrite IH by (rewrite ?length_insert; lia).
  destruct (decide (i = dst)) as [->|Hi].
  - rewrite decide_False, decide_True, list_lookup_insert_eq, Nat.sub_diag, Nat.add_0_r by lia. done.
  - destruct (decide (dst + 1 <= i < dst + 1 + n)%nat) as [H|H].
    + rewrite decide_True, list_lookup_insert_ne by lia. f_equal. lia.
    + rewrite decide_False, list_lookup_insert_ne by lia. done.
Qed.

Lemma length_amove n : forall a dst src, length (amove n a dst src) = length a.
Proof. induction n as [|n IH]; intros a dst src; cbn [amove]; [done|]. by rewrite IH, length_insert. Qed.

(** The move of the unfinished line to the beginning. *)
Lemma take_amove dn pre rest :
  take (length pre) (amove (length pre) (dn ++ pre ++ rest) 0 (length dn)) = pre.
Proof.
  apply list_eq. intros i. destruct (decide (i < length pre)%nat).
  - rewrite lookup_take_lt, lookup_amove by (rewrite ?length_app; lia). rewrite decide_True by lia.
    rewrite lookup_app_r, lookup_app_l by lia. f_equal. lia.
  - rewrite lookup_take_ge by lia. symmetry. apply lookup_ge_None_2. lia.
Qed.

Lemma grep_line_nil : grep_line [].
Proof. split; [apply not_elem_of_nil|constructor|cbn; lia]. Qed.

Lemma grep_line_take k l : grep_line l -> grep_line (take k l).
Proof.
  intros [H1 H2 H3]. split; [|by apply Forall_take|rewrite length_take; lia].
  intros (i & Hi & _)%elem_of_take. apply H1. by apply list_elem_of_lookup_2 in Hi.
Qed.

(** A prefix of a text of some lines and the beginning [t] of one: whole lines
    and the beginning of the next one. *)
Lemma cut_lines t ls : forall k,
  grep_line t -> Forall grep_line ls -> (k <= length (with_newlines ls ++ t))%nat ->
  exists l1 pre l2, ls = l1 ++ l2 /\ take k (with_newlines ls ++ t) = with_newlines l1 ++ pre /\
    with_newlines l2 ++ t = pre ++ drop k (with_newlines ls ++ t) /\ grep_line pre /\
    (forall l ls', ls = l :: ls' -> (length l < k)%nat -> l1 <> []).
Proof.
  induction ls as [|l ls IH]; intros k Hgt Hg Hk.
  - exists [], (take k t), []. split_and!; try done; [exact (eq_sym (take_drop k t))|by apply grep_line_take].
  - apply Forall_cons in Hg as [Hl Hg]. rewrite with_newlines_cons, <- app_assoc in Hk |- *. rewrite length_app in Hk. cbn [length app] in Hk |- *.
    destruct (decide (k <= length l)%nat) as [Hin|Hout].
    + exists [], (take k l), (l :: ls). rewrite take_app_le, drop_app_le, with_newlines_cons, <- app_assoc by lia.
      split_and!; [done|done|by rewrite (app_assoc (take k l)), take_drop|by apply grep_line_take|intros ? ? [= <- <-]; lia].
    + destruct (IH (k - length l - 1)%nat) as (l1 & pre & l2 & -> & Ht & Hd & Hp & _); [done|done|lia|].
      exists (l :: l1), pre, l2. rewrite take_app_ge, drop_app_ge, with_newlines_cons by lia.
      replace (k - length l)%nat with (S (k - length l - 1)) by lia. cbn [take drop]. rewrite Ht, Hd.
      split_and!; try done. by rewrite <- app_assoc.
Qed.

(** A read takes the whole of the first line, or all there is. *)
Lemma cut_progress t l1 l2 pre rest :
  with_newlines (l1 ++ l2) ++ t = pre ++ rest -> Forall grep_line (l1 ++ l2) -> grep_line t -> (length pre <= 1022)%nat ->
  (forall l ls, l1 ++ l2 = l :: ls -> (length l < length pre + Nat.min (1023 - length pre) (length rest))%nat -> l1 <> []) ->
  l1 <> [] \/ l1 ++ l2 = [] /\ Nat.min (1023 - length pre) (length rest) = length rest.
Proof.
  intros Hls Hg Ht Hp Hne. apply (f_equal length) in Hls. rewrite !length_app in Hls. destruct (l1 ++ l2) as [|l ls] eqn:El.
  - right. split; [done|]. cbn in Hls. pose proof (gr_short _ Ht). lia.
  - left. apply (Hne l ls); [done|]. apply Forall_cons in Hg as [Hl _]. pose proof (gr_short _ Hl).
    rewrite with_newlines_cons, length_app in Hls. cbn [length] in Hls. lia.
Qed.

Lemma wp_bind_run {S A B C} (m : M S A) (f : A -> M S B) (g : B -> M S C) s r s' Q :
  (a ← m; f a) s = Ret r s' -> wp (g r) s' Q -> wp (a ← m; b ← f a; g b) s Q.
Proof. unfold wp, wpe, mbind, M_bind. destruct (m s) as [a s1|]; [|done]. by intros ->. Qed.

Section prints.
Variable (pattern p : list Z).
Hypothesis Hpat : is_str pattern p.

(** A line of the buffer, matched and written. *)
Lemma grep_line_run dn l rest fuel s :
  10 ∉ l -> Forall (fun c => c <> 0) l ->
  exists dn' sel, selects p [l] sel /\ length dn' = (length dn + length l + 1)%nat /\
    grep_lines (S fuel) pattern (dn ++ l ++ 10 :: rest) (Z.of_nat (length dn)) s =
    grep_lines fuel pattern (dn' ++ rest) (Z.of_nat (length dn')) (emit 1 (with_newlines sel) s).
Proof.
  intros H10 H0. destruct (match_decides (S := uio) pattern p (l ++ 0 :: rest) l Hpat) with (s := s) as (b & Hb & Hiff).
  { split; [done|by exists rest]. }
  exists (dn ++ l ++ [if b then 10 else 0]), (if b then [l] else []). split; [|split].
  - destruct b; [apply selects_keep|apply selects_skip]; try constructor; [by apply Hiff|]. intros Hm. by apply Hiff in Hm.
  - rewrite !length_app. cbn. lia.
  - cbn [grep_lines]. unfold mbind, M_bind. unfold strchr. rewrite Nat2Z.id, drop_app_length.
    rewrite strchr_loop_found by done. rewrite !app_assoc, aset_app by (rewrite length_app; lia).
    rewrite <- !app_assoc, drop_app_length, Hb. destruct b.
    + rewrite app_assoc, aset_app by (rewrite length_app; lia). cbn [write modify].
      unfold write, modify, mbind, M_bind, mret, M_ret, sub. rewrite <- !app_assoc, drop_app_length.
      change (l ++ 10 :: rest) with (l ++ [10] ++ rest). rewrite (app_assoc l [10] rest), take_app_length' by (rewrite length_app; cbn; lia).
      unfold emit. rewrite with_newlines_cons. rewrite !length_app. cbn [length app with_newlines mbind list_bind].
      f_equal. lia.
    + cbn [with_newlines mbind list_bind]. rewrite emit_nil. unfold mret, M_ret. rewrite !length_app. cbn [length app].
      f_equal. lia.
Qed.

Lemma grep_lines_run ls pre rest fuel : forall dn s,
  Forall grep_line ls -> grep_line pre -> (length ls < fuel)%nat ->
  exists dn' sel, selects p ls sel /\ length dn' = (length dn + length (with_newlines ls))%nat /\
    grep_lines fuel pattern (dn ++ with_newlines ls ++ pre ++ 0 :: rest) (Z.of_nat (length dn)) s =
    Ret (dn' ++ pre ++ 0 :: rest, Z.of_nat (length dn')) (emit 1 (with_newlines sel) s).
Proof.
  revert fuel. induction ls as [|l ls IH]; intros fuel dn s Hls Hpre Hf; (destruct fuel as [|fuel]; [cbn in Hf; lia|]).
  - exists dn, []. split_and!; [constructor|cbn; lia|]. cbn [grep_lines]. unfold mbind, M_bind, strchr.
    rewrite Nat2Z.id, drop_app_length. cbn [with_newlines mbind list_bind app].
    rewrite strchr_loop_absent by apply Hpre. by rewrite emit_nil.
  - apply Forall_cons in Hls as [Hl Hls]. rewrite with_newlines_cons, <- app_assoc. cbn [app].
    edestruct (grep_line_run dn l (with_newlines ls ++ pre ++ 0 :: rest) fuel s) as (dn' & sel & Hsel & Hlen & ->);
      [apply Hl..|].
    destruct (IH fuel dn' (emit 1 (with_newlines sel) s)) as (dn'' & sel' & Hsel' & Hlen' & ->); [done..|cbn in Hf; lia|].
    exists dn'', (sel ++ sel'). split_and!.
    + by apply (selects_app p [l]).
    + rewrite length_app. cbn [length]. lia.
    + by rewrite emit_app, with_newlines_app.
Qed.

(** A read of what fits and its lines. *)
Lemma grep_chunk_run buf pre bs l1 pre' s :
  length buf = 1024%nat -> take (length pre) buf = pre -> (length pre + length bs <= 1023)%nat ->
  pre ++ bs = with_newlines l1 ++ pre' -> Forall grep_line l1 -> grep_line pre' ->
  exists dn junk sel, selects p l1 sel /\ length dn = length (with_newlines l1) /\ length (dn ++ pre' ++ junk) = 1024%nat /\
    (buf ← aset (splice buf (length pre) bs) (Z.of_nat (length pre) + Z.of_nat (length bs)) 0;
     grep_lines (S (length buf)) pattern buf 0) s =
    Ret (dn ++ pre' ++ junk, Z.of_nat (length dn)) (emit 1 (with_newlines sel) s).
Proof.
  intros Hlen Hpre Hfit Heq Hl1 Hpre'.
  destruct (drop (length pre + length bs) buf) as [|x junk] eqn:Hd.
  { apply (f_equal length) in Hd. rewrite length_drop in Hd. cbn in Hd. lia. }
  assert (Hsp : splice buf (length pre) bs = (with_newlines l1 ++ pre') ++ x :: junk).
  { unfold splice. by rewrite Hpre, Hd, app_assoc, Heq. }
  assert (Hl : length (with_newlines l1 ++ pre') = (length pre + length bs)%nat) by (rewrite <- Heq; apply length_app).
  assert (Hj : (length (x :: junk) = 1024 - (length pre + length bs))%nat) by (rewrite <- Hd, length_drop; lia).
  destruct (grep_lines_run l1 pre' junk (S (length ((with_newlines l1 ++ pre') ++ 0 :: junk))) [] s) as (dn & sel & Hsel & Hdn & Hrun);
    [done..| |].
  { assert (length l1 <= length (with_newlines l1))%nat; [|rewrite !length_app; lia].
    clear. induction l1 as [|l l1 IH]; [done|]. rewrite with_newlines_cons, length_app. cbn [length]. lia. }
  exists dn, (0 :: junk), sel. split_and!; [done|done| |].
  - rewrite length_app in Hl. rewrite !length_app, Hdn. cbn [length] in *. lia.
  - unfold mbind, M_bind. rewrite Hsp, aset_app by (rewrite Hl; lia). rewrite <- app_assoc in Hrun |- *. exact Hrun.
Qed.

Lemma grep_loop_run fd fuel : forall t ls buf pre rest s,
  length buf = 1024%nat -> take (length pre) buf = pre -> u_fds s !! fd = Some rest -> u_short s = [] ->
  with_newlines ls ++ t = pre ++ rest -> Forall grep_line ls -> grep_line t -> grep_line pre -> (length rest < fuel)%nat ->
  wp (grep_loop fuel pattern fd buf (Z.of_nat (length pre))) s (fun buf' s' => exists sel, length buf' = 1024%nat /\
    selects p ls sel /\ s' = emit 1 (with_newlines sel) (set_fds (<[fd := []]> (u_fds s)) s)).
Proof.
  induction fuel as [|fuel IH]; intros t ls buf pre rest s Hbuf Hpre Hfd Hsh Hls Hg Hgt Hgp Hf; [lia|].
  pose proof (gr_short _ Hgp) as Hsp. cbn [grep_loop]. unfold sizeof_buf. rewrite u32_small by (unfold in_u32; lia).
  set (k := Nat.min (1023 - length pre) (length rest)).
  assert (Hread : read fd (1024 - Z.of_nat (length pre) - 1) s =
    Ret (Some (take k rest)) (set_fds (<[fd := drop k rest]> (u_fds s)) s)).
  { unfold read, get, put, mbind, M_bind, mret, M_ret. rewrite Hfd, Hsh. cbn [read_count tl].
    replace (Z.to_nat _) with k by lia. unfold set_short, set_fds. cbn. by rewrite <- Hsh. }
  apply wp_bind. unfold wp at 1, wpe. rewrite Hread. clear Hread.
  destruct rest as [|r0 rest0].
  - subst k. rewrite Nat.min_0_r. cbn [take drop]. apply wpe_ret. exists []. split; [done|]. rewrite emit_nil. split; [|done].
    destruct ls as [|l ls]; [constructor|]. exfalso. apply (gr_newline _ Hgp). rewrite app_nil_r in Hls. rewrite <- Hls, with_newlines_cons.
    apply elem_of_app. left. apply elem_of_app. right. left.
  - destruct (take k (r0 :: rest0)) as [|b0 bs0] eqn:Hbs.
    { exfalso. apply (f_equal length) in Hbs. rewrite length_take in Hbs. subst k. cbn [length] in Hbs. lia. }
    rewrite <- Hbs. clear Hbs b0 bs0. set (rest := r0 :: rest0) in *. set (bs := take k rest).
    assert (Hk : length bs = k) by (subst bs k; rewrite length_take; lia).
    assert (Hk1 : (k + length pre <= 1023 /\ k <= length rest)%nat) by (subst k; lia).
    destruct (cut_lines t ls (length pre + k)) as (l1 & pre' & l2 & -> & Ht & Hd & Hg' & Hne); [done|done|rewrite Hls, length_app; lia|].
    rewrite Hls, take_app_add in Ht. rewrite Hls, drop_app_add in Hd. pose proof Hg as [Hg1 Hg2]%Forall_app.
    destruct (grep_chunk_run buf pre bs l1 pre' (set_fds (<[fd := drop k rest]> (u_fds s)) s)) as (dn & junk & sel & Hsel & Hdn & Hlen & Hrun);
      [done|done|lia|done..|].
    rewrite Nat2Z.id. eapply wp_bind_run; [exact Hrun|]. cbn beta iota.
    destruct (cut_progress t l1 l2 pre rest) as [Hl1|[Hl12 Hall]]; [done..| |].
    2: { apply app_eq_nil in Hl12 as [-> ->]. inversion Hsel; subst sel. cbn in Hdn. apply nil_length_inv in Hdn as ->.
         cbn [length Z.of_nat Z.eqb Z.ltb Z.compare app]. rewrite drop_ge by (subst k; lia). cbn [app] in Hlen.
         eapply wp_mono; [|apply (IH [] [] (pre' ++ junk) [] [])]; [|done|done|cbn; by rewrite lookup_insert_eq|done|done|constructor|apply grep_line_nil|apply grep_line_nil|subst rest; cbn in *; lia].
         cbv beta. intros buf' s' (sel' & Hbuf' & Hsel' & ->). exists sel'. split_and!; [done..|].
         rewrite emit_nil. unfold set_fds. cbn. by rewrite insert_insert_eq. }
    assert (Hpos : (0 < length dn)%nat).
    { rewrite Hdn. destruct l1 as [|l l1]; [done|]. rewrite with_newlines_cons, length_app. cbn [length]. lia. }
    assert (Hm : (length pre + k = length dn + length pre')%nat).
    { rewrite Hdn, <- Hk. apply (f_equal length) in Ht. by rewrite !length_app in Ht. }
    rewrite (proj2 (Z.eqb_neq _ _)) by lia.
    rewrite (proj2 (Z.ltb_lt _ _)) by lia. rewrite Hk.
    replace (Z.of_nat (length pre) + Z.of_nat k - Z.of_nat (length dn)) with (Z.of_nat (length pre')) by lia.
    rewrite !Nat2Z.id. eapply wp_mono; [|apply (IH t l2 _ pre' (drop k rest))]; try done.
    + cbv beta. intros buf' s' (sel' & Hbuf' & Hsel' & ->). exists (sel ++ sel'). split_and!; [done|by apply selects_app|].
      rewrite with_newlines_app, <- emit_app. unfold emit, set_fds, set_out. cbn. by rewrite insert_insert_eq.
    + by rewrite length_amove.
    + apply take_amove.
    + cbn. by rewrite lookup_insert_eq.
    + rewrite length_drop. subst rest. cbn [length] in *. subst k. lia.
Qed.

End prints.

(** C33: [match] returns, without changing anything, whether the text contains
    a word of the language of the pattern: anywhere, at the beginning after a
    hat, up to the end before a dollar. *)
Theorem match_language {S} re p text t :
  is_str re p -> is_str text t -> forall s : S, exists b, match_ re text s = Ret b s /\ (b = true <-> matches p t).
Proof. apply match_decides. Qed.

Lemma match_language_witness :
  is_str (lit "^a.*c$") (chars "^a.*c$") /\ is_str (lit "abbc") (chars "abbc") /\
  exists b, match_ (lit "^a.*c$") (lit "abbc") tt = Ret b tt /\ (b = true <-> matches (chars "^a.*c$") (chars "abbc")).
Proof.
  split; [by apply is_str_lit; repeat constructor|]. split; [by apply is_str_lit; repeat constructor|].
  apply match_language; by apply is_str_lit; repeat constructor.
Defined.

(** ** The command *)

Lemma free_fd_free fds n : forall fd, 0 <= fd -> 0 <= free_fd fds fd n -> fds !! free_fd fds fd n = None.
Proof.
  induction n as [|n IH]; intros fd Hfd; cbn [free_fd]; [lia|]. destruct (fds !! fd) eqn:E; [|done]. apply IH. lia.
Qed.

Lemma grep_run pattern p fd ls t buf s :
  is_str pattern p -> length buf = 1024%nat -> u_fds s !! fd = Some (with_newlines ls ++ t) -> u_short s = [] ->
  Forall grep_line ls -> grep_line t ->
  wp (grep pattern fd buf) s (fun buf' s' => exists sel, length buf' = 1024%nat /\
    selects p ls sel /\ s' = emit 1 (with_newlines sel) (set_fds (<[fd := []]> (u_fds s)) s)).
Proof.
  intros Hp Hb Hfd Hsh Hg Ht. unfold grep. apply wp_bind. unfold Prelude.gets at 1, wp at 1, wpe. rewrite Hfd. cbn [default id].
  apply (grep_loop_run pattern p Hp fd _ t ls buf [] (with_newlines ls ++ t)); try done; [apply grep_line_nil|lia].
Qed.

(** The file has the lines [lt.1] and then [lt.2], which no newline ends. *)
Definition holds_text (s : uio) (a : list Z) (lt : list (list Z) * list Z) : Prop :=
  u_files s !! cut0 a = Some (with_newlines lt.1 ++ lt.2) /\ Forall grep_line lt.1 /\ grep_line lt.2.

(** The arguments from the first file on that cannot be opened, and what is
    said about it. *)
Definition unopenable (s : uio) (rest : list (list Z)) : Prop :=
  match rest with [] => True | a :: _ => u_files s !! cut0 a = None /\ Forall in_u8 (cut0 a) end.
Definition complaint (rest : list (list Z)) : list Z :=
  match rest with [] => [] | a :: _ => chars "grep: cannot open " ++ cut0 a ++ [10] end.

(** The part of a format before the first percent sign. *)
Lemma printf_text fd l fmt ap s : forallb (fun c => negb (c =? 37) && (0 <=? c) && (c <? 256)) l = true ->
  printf_loop fd (l ++ fmt) 0 ap s = printf_loop fd fmt 0 ap (emit fd l s).
Proof.
  revert s. induction l as [|c l IH]; intros s Hl; [by rewrite emit_nil|]. cbn [forallb] in Hl.
  apply andb_true_iff in Hl as [Hc Hl]. cbn [app printf_loop Z.eqb]. destruct (Z.eqb_spec c 37); [lia|].
  unfold mbind, M_bind. rewrite putc_run, IH by done. by rewrite emit_app, u8_small by (unfold in_u8; lia).
Qed.

Lemma grep_files_run pattern p files rest lts : forall buf s,
  is_str pattern p -> length buf = 1024%nat -> u_short s = [] -> 0 <= free_fd (u_fds s) 0 16 ->
  Forall2 (holds_text s) files lts -> unopenable s rest ->
  exists sel, selects p (lts ≫= fst) sel /\ let s' := emit 1 (with_newlines sel ++ complaint rest) s in
    wpe (grep_files pattern (files ++ rest) buf) s (fun _ s1 => s1 = s') (fun w s1 => w = Exited /\ s1 = s').
Proof.
  intros buf s Hp Hb Hsh Hfree HF Hrest. revert buf s Hb Hsh Hfree HF Hrest. revert lts.
  induction files as [|a files IH]; intros lts buf s Hb Hsh Hfree HF Hrest;
    inversion HF as [|? lt ? lts' (Ha & Hg & Hgt) HF']; subst; cbn [app mbind list_bind].
  - exists []. split; [constructor|]. cbn [with_newlines mbind list_bind app]. destruct rest as [|a rest]; cbn [grep_files complaint].
    + apply wpe_ret. by rewrite emit_nil.
    + destruct Hrest as [Ha H8]. unfold wpe, open, mbind, M_bind, get. rewrite Ha. cbn [mret M_ret Z.ltb Z.compare].
      unfold printf, pstr, exit.
      change (chars ("grep: cannot open %s" ++ nl)) with (chars "grep: cannot open " ++ [37; 115; 10]).
      rewrite printf_text by reflexivity. change (printf_loop 1 [37; 115; 10] 0 [PStr (cut0 a)]) with (printf 1 line_fmt [PStr (cut0 a)]).
      by rewrite (print_line 1 (cut0 a)), emit_app.
  - cbn [grep_files]. pose proof Hfree as Hfree'. set (fd := free_fd (u_fds s) 0 16) in Hfree. set (data := with_newlines lt.1 ++ lt.2) in *.
    assert (Hopen : open (cut0 a) s = Ret fd (set_fds (<[fd := data]> (u_fds s)) s)).
    { unfold open, get, put, mbind, M_bind, mret, M_ret. rewrite Ha. fold fd. by rewrite (proj2 (Z.ltb_ge _ _)) by lia. }
    pose proof (free_fd_free (u_fds s) 16 0 ltac:(lia) Hfree) as Hnone. fold fd in Hnone. clearbody fd.
    destruct (wp_inv _ _ _ (grep_run pattern p fd lt.1 lt.2 buf (set_fds (<[fd := data]> (u_fds s)) s) Hp Hb
      ltac:(cbn; by rewrite lookup_insert_eq) Hsh Hg Hgt)) as (buf' & s1 & Hrun & sel & Hb' & Hsel & ->).
    destruct (IH lts' buf' (emit 1 (with_newlines sel) s)) as (sel' & Hsel' & Hw); try done.
    exists (sel ++ sel'). split; [by apply selects_app|]. apply wpe_bind. unfold wpe at 1. rewrite Hopen, (proj2 (Z.ltb_ge _ _)) by lia.
    apply wpe_bind. unfold wpe at 1. rewrite Hrun. apply wpe_bind. unfold close, modify, wpe at 1. cbn.
    rewrite insert_insert_eq, delete_insert_id by done. rewrite with_newlines_app, <- app_assoc, <- emit_app. exact Hw.
Qed.

(** C34: [grep pattern file...] terminates and writes on the standard output
    the lines of the files that the pattern matches, in order and unchanged,
    up to the first file that cannot be opened, about which it writes a
    message. It leaves no descriptor open. What follows the last newline of a
    file is not a line: it is not matched, and never printed. The lines have
    no NUL and are shorter than the buffer, reads return as much as they can,
    and a descriptor is free. *)
Theorem grep_main_prints name pattern p files rest lts s :
  is_str pattern p -> files ++ rest <> [] -> u_short s = [] -> 0 <= free_fd (u_fds s) 0 16 ->
  Forall2 (holds_text s) files lts -> unopenable s rest ->
  exists sel, selects p (lts ≫= fst) sel /\
    grep_main (name :: pattern :: files ++ rest) s = Stop Exited (emit 1 (with_newlines sel ++ complaint rest) s).
Proof.
  intros Hp Hne Hsh Hfree HF Hrest. set (buf := replicate (Z.to_nat sizeof_buf) 0).
  destruct (grep_files_run pattern p files rest lts buf s Hp eq_refl Hsh Hfree HF Hrest) as (sel & Hsel & Hrun).
  exists sel. split; [done|]. destruct (files ++ rest) as [|f l] eqn:E; [done|]. cbn [grep_main]. fold buf. unfold mbind, M_bind.
  unfold wpe in Hrun. destruct (grep_files pattern (f :: l) buf s); [by rewrite Hrun|by destruct Hrun as [-> ->]].
Qed.

(** Two files, one line of which matches, what follows the last newline of
    one of them, and a name that is no file. *)
Definition grep_demo : uio :=
  Uio {[chars "a" := chars "xy" ++ [10] ++ chars "abc" ++ [10]; chars "b" := chars "b" ++ [10] ++ chars "ac"]} ∅ [] [].

Lemma grep_line_bool l :
  forallb (fun c => negb (c =? 10) && negb (c =? 0)) l && (length l <=? 1022)%nat = true -> grep_line l.
Proof.
  intros [Hl Hn]%andb_true_iff. rewrite forallb_forall in Hl. split.
  - intros Hin. apply list_elem_of_In, Hl in Hin. done.
  - apply Forall_forall. intros c Hc. apply list_elem_of_In, Hl in Hc. lia.
  - by apply Nat.leb_le.
Qed.

Lemma grep_main_prints_witness :
  exists sel, selects (chars "a*c$") [chars "xy"; chars "abc"; chars "b"] sel /\
    grep_main [lit "grep"; lit "a*c$"; lit "a"; lit "b"; lit "d"] grep_demo =
      Stop Exited (emit 1 (with_newlines sel ++ chars "grep: cannot open d" ++ [10]) grep_demo).
Proof.
  apply (grep_main_prints _ _ _ [lit "a"; lit "b"] [lit "d"] [([chars "xy"; chars "abc"], []); ([chars "b"], chars "ac")]);
    [by apply is_str_lit; repeat constructor|done|done|done| |by split; repeat constructor].
  apply Forall2_cons; split; [|apply Forall2_cons; split; [|constructor]]; (split; [done|]); (split; [|by apply grep_line_bool]);
    repeat (apply Forall_cons; split; [by apply grep_line_bool|]); constructor.
Defined.

(** A read that stops inside a line loses its beginning: no newline is found,
    and [m] is reset. *)
Example grep_short_read :
  let s := Uio ∅ {[0 := chars "ab" ++ [10]]} [1] [] in
  exists s', grep_main [lit "grep"; lit "ab"] s = Stop Exited s' /\ u_out s' = [] /\
  exists s', grep_main [lit "grep"; lit "ab"] (set_short [] s) = Stop Exited s' /\ written 1 s' = chars "ab" ++ [10].
Proof. vm_compute. eauto 10. Qed.
