(* ===== verification/Textcmd.v ===== *)
(** The commands that read text: [cat.c], [wc.c] and [echo.c], over the system
    calls that programs make. Reads may return fewer bytes than they ask for.
    The array [buf] is written by read and used up before the next read; it
    appears as the bytes that were read. *)

From S2P Require Import Prelude Mem Block User Ulib Uniq Console Kcmd Head Grep.

Open Scope Z_scope.

Definition buf_size : Z := 512.

(** The loop of both mains: each file is opened, given to the command and
    closed. *)
Fixpoint for_files (cmd : string) (body : Z -> list Z -> M uio unit) (argv : list (list Z)) : M uio unit :=
  match argv with
  | [] => mret tt
  | a :: argv =>
      fd ← open (cut0 a);
      if fd <? 0 then
        printf 1 (cmd ++ ": cannot open %s" ++ nl) [pstr a] ;; exit
      else
        body fd a ;;
        close fd ;;
        for_files cmd body argv
  end.

(** The number of bytes that are left bounds the reads. *)
Definition left_on (fd : Z) : M uio nat := Prelude.gets (fun s => length (default [] (u_fds s !! fd))).

(** ** cat.c *)

Fixpoint cat_loop (fuel : nat) (fd : Z) : M uio unit :=
  match fuel with
  | O => out_of_fuel
  | S fuel =>
      r ← read fd buf_size;
      match r with
      | None => printf 1 ("cat: read error" ++ nl) [] ;; exit
      | Some [] => mret tt
      | Some bs =>
          n ← write 1 bs;
          if negb (n =? Z.of_nat (length bs)) then printf 1 ("cat: write error" ++ nl) [] ;; exit
          else cat_loop fuel fd
      end
  end.

Definition cat (fd : Z) : M uio unit := n ← left_on fd; cat_loop (S n) fd.

Definition cat_main (argv : list (list Z)) : M uio unit :=
  match argv with
  | [] | [_] => cat 0 ;; exit
  | _ :: files => for_files "cat" (fun fd _ => cat fd) files ;; exit
  end.

(** ** wc.c *)

(** The variables l, w, c and inword. *)
Record counts := Counts { n_l : Z; n_w : Z; n_c : Z; inword : bool }.

Definition wc_char (k : counts) (b : Z) : M uio counts :=
  let c := i32 (n_c k + 1) in
  let l := if b =? 10 then i32 (n_l k + 1) else n_l k in
  r ← strchr [32; 13; 9; 10; 11; 0] b;
  match r with
  | Some _ => mret (Counts l (n_w k) c false)
  | None => if inword k then mret (Counts l (n_w k) c true) else mret (Counts l (i32 (n_w k + 1)) c true)
  end.

Fixpoint wc_buf (bs : list Z) (k : counts) : M uio counts :=
  match bs with
  | [] => mret k
  | b :: bs => k ← wc_char k b; wc_buf bs k
  end.

Fixpoint wc_loop (fuel : nat) (fd : Z) (k : counts) : M uio counts :=
  match fuel with
  | O => out_of_fuel
  | S fuel =>
      r ← read fd buf_size;
      match r with
      | None => printf 1 ("wc: read error" ++ nl) [] ;; exit
      | Some [] => mret k
      | Some bs => k ← wc_buf bs k; wc_loop fuel fd k
      end
  end.

Definition wc (fd : Z) (name : list Z) : M uio unit :=
  n ← left_on fd;
  k ← wc_loop (S n) fd (Counts 0 0 0 false);
  printf 1 ("%d %d %d %s" ++ nl) [PInt (n_l k); PInt (n_w k); PInt (n_c k); pstr name].

Definition wc_main (argv : list (list Z)) : M uio unit :=
  match argv with
  | [] | [_] => wc 0 [0] ;; exit
  | _ :: files => for_files "wc" wc files ;; exit
  end.

(** ** echo.c *)

Fixpoint echo_args (argv : list (list Z)) : M uio unit :=
  match argv with
  | [] => mret tt
  | a :: argv =>
      printf 1 "%s%s" [pstr a; pstr (match argv with [] => lit nl | _ => lit " " end)] ;;
      echo_args argv
  end.

Definition echo_main (argv : list (list Z)) : M uio unit := echo_args (tail argv) ;; exit.

(** ** Reading a descriptor to its end *)

(** [fd] has been read to the end, and [bs] written on the standard output. *)
Definition drained (fd : Z) (bs : list Z) (s s' : uio) : Prop :=
  exists sh, s' = set_short sh (emit 1 bs (set_fds (<[fd := []]> (u_fds s)) s)).

Lemma took_eq fd data s s' : took fd data s s' -> s' = set_short (u_short s') (set_fds (<[fd := data]> (u_fds s)) s).
Proof. intros (H1 & H2 & H3). destruct s, s'. cbn in *. by subst. Qed.

Lemma drained_step fd data bs rest s s1 s2 :
  took fd data s s1 -> drained fd rest (emit 1 bs s1) s2 -> drained fd (bs ++ rest) s s2.
Proof.
  intros Ht [sh ->]. rewrite (took_eq _ _ _ _ Ht). exists sh. unfold emit, set_short, set_fds, set_out. cbn.
  by rewrite insert_insert_eq, fmap_app, app_assoc.
Qed.

Lemma drained_end fd s s1 : took fd [] s s1 -> drained fd [] s s1.
Proof. intros Ht. exists (u_short s1). rewrite emit_nil. by apply took_eq. Qed.

(** One read: nothing is left, or some bytes are. *)
Lemma read_turn {A} fd data s (f : option (list Z) -> M uio A) (Q : A -> uio -> Prop) :
  u_fds s !! fd = Some data ->
  (data = [] -> forall s', took fd [] s s' -> wp (f (Some [])) s' Q) ->
  (forall bs rest s', data = bs ++ rest -> bs <> [] -> took fd rest s s' -> wp (f (Some bs)) s' Q) ->
  wp (r ← read fd buf_size; f r) s Q.
Proof.
  intros Hd H1 H2. destruct (read_some fd data buf_size s Hd) as (k & s' & Hr & Ht & Hk & _); [done|].
  apply wp_bind. unfold wp at 1, wpe. rewrite Hr. destruct (decide (data = [])) as [->|Hne].
  - rewrite take_nil. rewrite drop_nil in Ht. by apply H1.
  - specialize (Hk Hne). apply (H2 _ (drop k data)); [by rewrite take_drop| |done]. destruct data; [done|]. destruct k; [lia|done].
Qed.

Lemma wp_left_on {A} fd data s (f : nat -> M uio A) (Q : A -> uio -> Prop) :
  u_fds s !! fd = Some data -> wp (f (length data)) s Q -> wp (n ← left_on fd; f n) s Q.
Proof. intros Hd H. apply wp_bind. unfold left_on, Prelude.gets, wp at 1, wpe. by rewrite Hd. Qed.

(** cat *)
Lemma cat_loop_spec fuel fd data s :
  u_fds s !! fd = Some data -> (length data < fuel)%nat -> wp (cat_loop fuel fd) s (fun _ s' => drained fd data s s').
Proof.
  revert data s. induction fuel as [|fuel IH]; intros data s Hd Hf; [lia|]. cbn [cat_loop]. eapply read_turn; [exact Hd| |].
  - intros -> s' Ht. by apply wpe_ret, drained_end.
  - intros bs rest s' -> Hne Ht. destruct bs as [|b bs]; [done|]. apply wp_bind. unfold write. apply wp_bind, wpe_modify. apply wpe_ret.
    rewrite Z.eqb_refl. cbn [negb]. change (set_out _ s') with (emit 1 (b :: bs) s').
    eapply wp_mono; [|apply (IH rest)].
    + intros [] s2 H2. by eapply drained_step.
    + apply (took_fds _ _ _ _ Ht).
    + rewrite length_app in Hf. cbn in Hf. lia.
Qed.

Lemma cat_spec fd data s : u_fds s !! fd = Some data -> wp (cat fd) s (fun _ s' => drained fd data s s').
Proof. intros Hd. unfold cat. eapply wp_left_on; [exact Hd|]. apply cat_loop_spec; [done|lia]. Qed.

(** The loop over the files. *)
Lemma for_files_spec cmd body (out : list Z -> list Z -> list Z) files datas s :
  (forall fd a data s, (a, data) ∈ zip files datas -> u_fds s !! fd = Some data -> wp (body fd a) s (fun _ s' => drained fd (out a data) s s')) ->
  0 <= free_fd (u_fds s) 0 16 -> Forall2 (fun a data => u_files s !! cut0 a = Some data) files datas ->
  wp (for_files cmd body files) s (fun _ s' => exists sh, s' = set_short sh (emit 1 (concat (zip_with out files datas)) s)).
Proof.
  intros Hbody Hfree HF. revert s Hfree HF. revert datas Hbody. induction files as [|a files IH]; intros datas Hbody s Hfree HF;
    inversion HF as [|? data ? datas' Ha HF']; subst; cbn [for_files zip_with concat].
  - apply wpe_ret. exists (u_short s). rewrite emit_nil. by destruct s.
  - apply wp_bind. set (fd := free_fd (u_fds s) 0 16) in *.
    assert (Hopen : open (cut0 a) s = Ret fd (set_fds (<[fd := data]> (u_fds s)) s)).
    { unfold open. mred. rewrite Ha. fold fd. by rewrite (proj2 (Z.ltb_ge _ _)) by lia. }
    pose proof (free_fd_free (u_fds s) 16 0 ltac:(lia) Hfree) as Hnone. fold fd in Hnone. unfold wp at 1, wpe. rewrite Hopen.
    rewrite (proj2 (Z.ltb_ge _ _)) by lia. apply wp_bind. eapply wp_mono; [|apply (Hbody fd a data)].
    2: { cbn. apply list_elem_of_here. }
    2: { cbn. apply lookup_insert_eq. }
    intros [] s1 [sh ->]. apply wp_bind. unfold close. apply wpe_modify. cbv beta.
    match goal with |- wp _ ?x _ => assert (Ex : x = set_short sh (emit 1 (out a data) s)) end.
    { unfold emit, set_short, set_fds, set_out. cbn. by rewrite insert_insert_eq, delete_insert_id. }
    rewrite Ex. eapply wp_mono; [|apply (IH datas')]; [| |done|done].
    + intros [] s2 [sh2 ->]. exists sh2. rewrite <- emit_app. done.
    + intros fd' a' data' s' Hin. apply Hbody. cbn. by apply list_elem_of_further.
Qed.

(** ** Counting *)

Definition is_space (b : Z) : bool := bool_decide (b ∈ [32; 13; 9; 10; 11]).

Definition lines_in (bs : list Z) : Z := Z.of_nat (length (filter (fun b => b = 10) bs)).

(** A word starts at a byte that is no space, at the beginning or after a
    space. *)
Definition word_starts (bs : list Z) (i : nat) : bool :=
  negb (is_space (default 32 (bs !! i))) && match i with O => true | S j => is_space (default 32 (bs !! j)) end.
Definition words_in (bs : list Z) : Z := Z.of_nat (length (filter (fun i => word_starts bs i = true) (seq 0 (length bs)))).

Definition in_word (bs : list Z) : bool := match last bs with Some b => negb (is_space b) | None => false end.

Lemma filter_ext_in {A} (P Q : A -> Prop) `{!forall x, Decision (P x), !forall x, Decision (Q x)} (l : list A) :
  Forall (fun x => P x <-> Q x) l -> filter P l = filter Q l.
Proof.
  induction 1 as [|x l Hx _ IH]; [done|]. rewrite !filter_cons, IH. destruct (decide (P x)), (decide (Q x)); naive_solver.
Qed.

Lemma word_starts_last bs b : word_starts (bs ++ [b]) (length bs) = negb (is_space b) && negb (in_word bs).
Proof.
  unfold word_starts. rewrite (list_lookup_middle bs [] b _ eq_refl). cbn [default id]. f_equal.
  destruct bs as [|c bs _] using rev_ind; [done|]. rewrite length_app, Nat.add_comm. cbn [length Nat.add].
  unfold in_word. rewrite last_snoc, negb_involutive, <- app_assoc. cbn [app]. by rewrite (list_lookup_middle bs _ c _ eq_refl).
Qed.

Lemma words_in_snoc bs b :
  words_in (bs ++ [b]) = words_in bs + (if negb (is_space b) && negb (in_word bs) then 1 else 0).
Proof.
  unfold words_in. rewrite length_app. cbn [length]. rewrite seq_app, filter_app, length_app, Nat2Z.inj_add. f_equal.
  - do 2 f_equal. apply filter_ext_in, Forall_seq. intros i Hi. unfold word_starts. rewrite lookup_app_l by lia.
    destruct i as [|i]; [done|]. by rewrite lookup_app_l by lia.
  - cbn [seq Nat.add]. rewrite filter_cons, filter_nil, word_starts_last. by destruct (negb _ && _).
Qed.

Lemma lines_in_snoc bs b : lines_in (bs ++ [b]) = if b =? 10 then lines_in bs + 1 else lines_in bs.
Proof.
  unfold lines_in. rewrite filter_app, length_app, Nat2Z.inj_add, filter_cons, filter_nil.
  destruct (Z.eqb_spec b 10); [rewrite decide_True by done|rewrite decide_False by done]; cbn; lia.
Qed.

Lemma counts_le bs : 0 <= lines_in bs <= Z.of_nat (length bs) /\ 0 <= words_in bs <= Z.of_nat (length bs).
Proof.
  unfold lines_in, words_in. pose proof (length_filter (fun b => b = 10) bs).
  pose proof (length_filter (fun i => word_starts bs i = true) (seq 0 (length bs))). rewrite length_seq in *. lia.
Qed.

(** The variables after [bs]. *)
Definition counts_of (bs : list Z) : counts := Counts (lines_in bs) (words_in bs) (Z.of_nat (length bs)) (in_word bs).

Lemma strchr_space b (s : uio) : exists r, strchr [32; 13; 9; 10; 11; 0] b s = Ret r s /\ (r = None <-> is_space b = false).
Proof.
  unfold strchr, is_space. cbn [strchr_loop].
  repeat match goal with |- context [?x =? 0] => first [change (x =? 0) with false|change (x =? 0) with true] end.
  repeat match goal with |- context [?x =? b] => destruct (Z.eqb_spec x b) as [<-|] end;
    (eexists; split; [reflexivity|]); try done.
  rewrite bool_decide_eq_false_2; [done|]. rewrite !elem_of_cons, elem_of_nil. intros H. naive_solver.
Qed.

Lemma wc_char_spec bs b s : Z.of_nat (length bs) < 2 ^ 31 - 1 -> wc_char (counts_of bs) b s = Ret (counts_of (bs ++ [b])) s.
Proof.
  intros Hl. destruct (counts_le bs) as [H1 H2]. unfold wc_char. cbv zeta. cbn [n_c n_l n_w inword counts_of].
  assert (Hi : forall x, 0 <= x <= Z.of_nat (length bs) -> i32 (x + 1) = x + 1) by (intros x Hx; apply i32_small; unfold in_i32; lia).
  rewrite !Hi by lia. destruct (strchr_space b s) as (r & Hr & Hrs). unfold mbind, M_bind. rewrite Hr.
  assert (Ew : in_word (bs ++ [b]) = negb (is_space b)) by (unfold in_word; by rewrite last_snoc).
  unfold counts_of. rewrite Ew, words_in_snoc, lines_in_snoc, length_app, Nat2Z.inj_add. cbn [length].
  change (Z.of_nat 1) with 1. destruct r as [d|].
  - destruct (is_space b) eqn:Eb; [|discriminate (proj2 Hrs eq_refl)]. cbn [negb andb]. by rewrite Z.add_0_r.
  - rewrite (proj1 Hrs) by done. cbn [negb andb]. destruct (in_word bs); cbn [negb]; by rewrite ?Z.add_0_r.
Qed.

Lemma wc_buf_spec bs pre s :
  Z.of_nat (length (pre ++ bs)) < 2 ^ 31 -> wc_buf bs (counts_of pre) s = Ret (counts_of (pre ++ bs)) s.
Proof.
  revert pre. induction bs as [|b bs IH]; intros pre Hl; [by rewrite app_nil_r|]. cbn [wc_buf]. unfold mbind, M_bind.
  rewrite length_app in Hl. cbn [length] in Hl. rewrite wc_char_spec by lia. rewrite IH by (rewrite !length_app; cbn; lia).
  by rewrite <- app_assoc.
Qed.

Lemma wc_loop_spec fuel fd pre data s :
  u_fds s !! fd = Some data -> (length data < fuel)%nat -> Z.of_nat (length (pre ++ data)) < 2 ^ 31 ->
  wp (wc_loop fuel fd (counts_of pre)) s (fun k s' => k = counts_of (pre ++ data) /\ drained fd [] s s').
Proof.
  revert pre data s. induction fuel as [|fuel IH]; intros pre data s Hd Hf Hl; [lia|]. cbn [wc_loop]. eapply read_turn; [exact Hd| |].
  - intros -> s' Ht. apply wpe_ret. rewrite app_nil_r. split; [done|by apply drained_end].
  - intros bs rest s' -> Hne Ht. destruct bs as [|b bs]; [done|]. apply wp_bind.
    unfold wp at 1, wpe. rewrite app_assoc, length_app in Hl. rewrite wc_buf_spec by lia.
    eapply wp_mono; [|apply (IH (pre ++ b :: bs) rest)].
    + intros k s2 [-> H2]. rewrite <- app_assoc. split; [done|]. rewrite <- (emit_nil 1 s') in H2. by eapply (drained_step fd rest []).
    + apply (took_fds _ _ _ _ Ht).
    + rewrite length_app in Hf. cbn in Hf. lia.
    + rewrite length_app. lia.
Qed.

(** What wc prints for a file. *)
Definition wc_line (name data : list Z) : list Z :=
  decimal (lines_in data) ++ [32] ++ decimal (words_in data) ++ [32] ++ decimal (Z.of_nat (length data)) ++ [32] ++ name ++ [10].

Lemma wc_spec fd name data s :
  u_fds s !! fd = Some data -> Z.of_nat (length data) < 2 ^ 31 -> Forall in_u8 (cut0 name) ->
  wp (wc fd name) s (fun _ s' => drained fd (wc_line (cut0 name) data) s s').
Proof.
  intros Hd Hl H8. unfold wc. eapply wp_left_on; [exact Hd|]. apply wp_bind.
  eapply wp_mono; [|apply (wc_loop_spec _ fd [] data); (done || lia)]. intros k s' [-> [sh ->]]. rewrite emit_nil. cbn [app].
  unfold wp, wpe, printf. change (chars ("%d %d %d %s" ++ nl)) with [37; 100; 32; 37; 100; 32; 37; 100; 32; 37; 115; 10].
  unfold pstr. run_printf. cbn [n_l n_w n_c counts_of]. by exists sh.
Qed.

(** ** The commands *)

(** [cat file...] writes the contents of the files one after the other, however
    the reads split them, and closes what it opened. *)
Theorem cat_copies name files datas s :
  files <> [] -> 0 <= free_fd (u_fds s) 0 16 -> Forall2 (fun a data => u_files s !! cut0 a = Some data) files datas ->
  exists sh, cat_main (name :: files) s = Stop Exited (set_short sh (emit 1 (concat datas) s)).
Proof.
  intros Hne Hfree HF.
  pose proof (for_files_spec "cat" (fun fd _ => cat fd) (fun _ d => d) files datas s (fun fd a d s' _ H => cat_spec fd d s' H) Hfree HF) as H.
  apply wp_inv in H as (u & s' & Hr & sh & ->). exists sh.
  replace (concat datas) with (concat (zip_with (fun _ d => d) files datas)).
  - destruct files as [|f files]; [done|]. cbn [cat_main]. unfold mbind, M_bind. by rewrite Hr.
  - f_equal. clear -HF. induction HF as [|a d files datas _ _ IH]; [done|]. cbn. by rewrite IH.
Qed.

(** [wc file...] counts right. For every file it prints the number of
    newlines, the number of words (a word starts at a byte that is no space,
    at the beginning of the file or after a space) and the number of bytes,
    and the name, however the reads split the file; it terminates and closes
    what it opened. *)
Theorem wc_counts name files datas s :
  files <> [] -> 0 <= free_fd (u_fds s) 0 16 ->
  Forall2 (fun a data => u_files s !! cut0 a = Some data /\ Z.of_nat (length data) < 2 ^ 31 /\ Forall in_u8 (cut0 a)) files datas ->
  exists sh, wc_main (name :: files) s = Stop Exited (set_short sh (emit 1 (concat (zip_with (fun a d => wc_line (cut0 a) d) files datas)) s)).
Proof.
  intros Hne Hfree HF. assert (Hin : forall a d, (a, d) ∈ zip files datas -> Z.of_nat (length d) < 2 ^ 31 /\ Forall in_u8 (cut0 a)).
  { clear -HF. induction HF as [|a d files datas (_ & H1 & H2) _ IH]; intros a' d' Hi; [by apply elem_of_nil in Hi|].
    apply elem_of_cons in Hi as [[= -> ->]|Hi]; [done|by apply IH]. }
  pose proof (for_files_spec "wc" wc (fun a d => wc_line (cut0 a) d) files datas s) as H.
  assert (HF' : Forall2 (fun a data => u_files s !! cut0 a = Some data) files datas) by (eapply Forall2_impl; [exact HF|naive_solver]).
  specialize (H (fun fd a d s' Hi Hd => wc_spec fd a d s' Hd (proj1 (Hin a d Hi)) (proj2 (Hin a d Hi))) Hfree HF').
  apply wp_inv in H as (u & s' & Hr & sh & ->). exists sh. destruct files as [|f files]; [done|].
  cbn [wc_main]. unfold mbind, M_bind. by rewrite Hr.
Qed.

(** The first file is read in two parts, the split within a word. *)
Definition wc_demo : uio :=
  Uio {[chars "a" := chars "one two" ++ [10]; chars "b" := chars " x" ++ [10; 10]]} ∅ [5] [].

Lemma wc_counts_witness :
  exists sh, wc_main [lit "wc"; lit "a"; lit "b"] wc_demo =
    Stop Exited (set_short sh (emit 1 (chars "1 2 8 a" ++ [10] ++ chars "2 1 4 b" ++ [10]) wc_demo)).
Proof.
  destruct (wc_counts (lit "wc") [lit "a"; lit "b"] [chars "one two" ++ [10]; chars " x" ++ [10; 10]] wc_demo) as [sh H].
  - done.
  - done.
  - repeat (apply Forall2_cons; split; [split; [reflexivity|split; [cbn; lia|repeat constructor; unfold in_u8; lia]]|]). by apply Forall2_nil.
  - exists sh. exact H.
Defined.

(** echo prints its arguments with a space between them, and a newline. *)
Fixpoint joined (args : list (list Z)) : list Z :=
  match args with
  | [] => []
  | [a] => cut0 a ++ [10]
  | a :: args => cut0 a ++ [32] ++ joined args
  end.

Theorem echo_prints name args s :
  Forall (fun a => Forall in_u8 (cut0 a)) args -> echo_main (name :: args) s = Stop Exited (emit 1 (joined args) s).
Proof.
  intros H8. unfold echo_main. cbn [tail]. enough (H : echo_args args s = Ret tt (emit 1 (joined args) s)).
  { unfold mbind, M_bind. by rewrite H. }
  revert s. induction H8 as [|a args Ha H8 IH]; intros s; [by rewrite emit_nil|]. cbn [echo_args]. unfold mbind at 1, M_bind.
  assert (Hp : forall b, Forall in_u8 (cut0 b) -> printf 1 "%s%s" [pstr a; pstr b] s = Ret tt (emit 1 (cut0 a ++ cut0 b) s)).
  { intros b Hb. unfold printf, pstr. change (chars "%s%s") with [37; 115; 37; 115]. by run_printf. }
  destruct args as [|a' args]; rewrite Hp by (repeat constructor; unfold in_u8; lia).
  - done.
  - rewrite IH, emit_app. cbn [joined]. by rewrite <- app_assoc.
Qed.
