(* ===== verification/Filecmd.v ===== *)
(** The commands on files and processes: [ls.c], [mkdir.c], [rm.c], [ln.c] and
    [kill.c], with [stat] of [ulib.c].

    For [ls] the descriptors know the path they were opened with, and every
    path has the status that fstat reports. The calls that the other commands
    make are arguments. *)

From S2P Require Import Prelude Mem Block Fs Dir User Ulib Uniq Console Kcmd Head Grep Textcmd.

Open Scope Z_scope.

(** ** Files with a status *)

Record ustat := UStat { us_type : Z; us_dev : Z; us_ino : Z; us_nlink : Z; us_size : Z }.

Record fio := Fio {
  f_io : uio;
  f_path : gmap Z (list Z);           (* the path of each descriptor *)
  f_info : gmap (list Z) ustat        (* the status of each path *)
}.

Definition io_lens : lens fio uio := Lens f_io (fun i s => Fio i (f_path s) (f_info s)).
Definition io {A} (m : M uio A) : M fio A := zoom io_lens m.

Definition set_path v s := Fio (f_io s) v (f_info s).

Definition fopen (path : list Z) : M fio Z :=
  fd ← io (User.open path);
  when (0 <=? fd) (modify (fun s => set_path (<[fd := path]> (f_path s)) s)) ;;
  mret fd.
Definition fclose (fd : Z) : M fio unit :=
  io (User.close fd) ;;
  modify (fun s => set_path (delete fd (f_path s)) s).
(** [None] is the result -1. *)
Definition fstat (fd : Z) : M fio (option ustat) :=
  Prelude.gets (fun s => f_path s !! fd ≫= fun p => f_info s !! p).

(** ulib.c *)
Definition stat (n : list Z) : M fio (option ustat) :=
  fd ← fopen (cut0 n);
  if fd <? 0 then mret None
  else
    r ← fstat fd;
    fclose fd ;;
    mret r.

(** ** ls.c *)

(** [memmove] and [memset] on an array. *)
Definition move {S} (a : list Z) (i : Z) (bs : list Z) : M S (list Z) :=
  if (0 <=? i) && (i + Z.of_nat (length bs) <=? Z.of_nat (length a)) then mret (splice a (Z.to_nat i) bs) else wild.

(** The position after the last slash at or before [n]. *)
Fixpoint after_slash (path : list Z) (n : nat) : nat :=
  if default 0 (path !! n) =? 47 then S n
  else match n with O => O | S n => after_slash path n end.

(** The static array and the string that is returned. *)
Definition fmtname {S} (buf path : list Z) : M S (list Z * list Z) :=
  n ← strlen path;
  let p := drop (after_slash path (Z.to_nat n)) path in
  k ← strlen p;
  if DIRSIZ <=? k then mret (buf, p)
  else
    buf ← move buf 0 (take (Z.to_nat k) p);
    buf ← move buf k (replicate (Z.to_nat (DIRSIZ - k)) 32);
    mret (buf, buf).

Definition print_entry (sbuf path : list Z) (st : ustat) : M fio (list Z) :=
  r ← fmtname sbuf path;
  io (printf 1 ("%s %d %d %d" ++ nl) [pstr r.2; PInt (us_type st); PInt (us_ino st); PInt (us_size st)]) ;;
  mret r.1.

(** [p] is the offset in [buf] where the names go. *)
Fixpoint ls_loop (fuel : nat) (fd : Z) (buf : list Z) (p : Z) (sbuf : list Z) : M fio (list Z) :=
  match fuel with
  | O => out_of_fuel
  | S fuel =>
      r ← io (User.read fd DIRENT);
      match r with
      | None => mret sbuf
      | Some de =>
          if negb (Z.of_nat (length de) =? DIRENT) then mret sbuf
          else if de_inum de =? 0 then ls_loop fuel fd buf p sbuf
          else
            buf ← move buf p (de_name de);
            buf ← aset buf (p + DIRSIZ) 0;
            r ← stat buf;
            match r with
            | None =>
                io (printf 1 ("ls: cannot stat %s" ++ nl) [pstr buf]) ;;
                ls_loop fuel fd buf p sbuf
            | Some st =>
                sbuf ← print_entry sbuf buf st;
                ls_loop fuel fd buf p sbuf
            end
      end
  end.

(** The case of a directory. The reads are bounded by the bytes that are left. *)
Definition ls_dir (fd : Z) (buf sbuf path : list Z) : M fio (list Z) :=
  n ← strlen path;
  if 512 <? n + 1 + DIRSIZ + 1 then io (printf 1 ("ls: path too long" ++ nl) []) ;; mret sbuf
  else
    buf ← strcpy buf path;
    n ← strlen buf;
    buf ← aset buf n 47;
    k ← io (left_on fd);
    ls_loop (S k) fd buf (n + 1) sbuf.

(** [buf] is the array on the stack, [sbuf] that of fmtname. *)
Definition ls (buf sbuf path : list Z) : M fio (list Z) :=
  fd ← fopen (cut0 path);
  if fd <? 0 then io (printf 2 ("ls: cannot open %s" ++ nl) [pstr path]) ;; mret sbuf
  else
    st ← fstat fd;
    match st with
    | None =>
        io (printf 2 ("ls: cannot stat %s" ++ nl) [pstr path]) ;;
        fclose fd ;;
        mret sbuf
    | Some st =>
        sbuf ←
          (if us_type st =? T_FILE then print_entry sbuf path st
           else if us_type st =? T_DIR then ls_dir fd buf sbuf path
           else mret sbuf);
        fclose fd ;;
        mret sbuf
    end.

Fixpoint ls_args (buf sbuf : list Z) (argv : list (list Z)) : M fio (list Z) :=
  match argv with
  | [] => mret sbuf
  | a :: argv => sbuf ← ls buf sbuf a; ls_args buf sbuf argv
  end.

(** [sbuf] is zero when the program starts. *)
Definition ls_main (buf : list Z) (argv : list (list Z)) : M fio unit :=
  let sbuf := replicate (Z.to_nat DIRSIZ + 1) 0 in
  match argv with
  | [] | [_] => ls buf sbuf (lit ".") ;; io exit
  | _ :: argv => ls_args buf sbuf argv ;; io exit
  end.

(** ** mkdir.c, rm.c, ln.c and kill.c *)

(** The loop of mkdir and rm. *)
Fixpoint until_fails (call : list Z -> M uio Z) (fmt : string) (argv : list (list Z)) : M uio unit :=
  match argv with
  | [] => mret tt
  | a :: argv =>
      r ← call (cut0 a);
      if r <? 0 then printf 2 fmt [pstr a] else until_fails call fmt argv
  end.

Section commands.
Context (mkdir unlink : list Z -> M uio Z) (link : list Z -> list Z -> M uio Z) (kill : Z -> M uio Z).

Definition mkdir_main (argv : list (list Z)) : M uio unit :=
  match argv with
  | [] | [_] => printf 2 ("Usage: mkdir files..." ++ nl) [] ;; exit
  | _ :: argv => until_fails mkdir ("mkdir: %s failed to create" ++ nl) argv ;; exit
  end.

Definition rm_main (argv : list (list Z)) : M uio unit :=
  match argv with
  | [] | [_] => printf 2 ("Usage: rm files..." ++ nl) [] ;; exit
  | _ :: argv => until_fails unlink ("rm: %s failed to delete" ++ nl) argv ;; exit
  end.

Definition ln_main (argv : list (list Z)) : M uio unit :=
  match argv with
  | [_; old; new] =>
      r ← link (cut0 old) (cut0 new);
      when (r <? 0) (printf 2 ("link %s %s: failed" ++ nl) [pstr old; pstr new]) ;;
      exit
  | _ => printf 2 ("Usage: ln old new" ++ nl) [] ;; exit
  end.

Fixpoint kill_args (argv : list (list Z)) : M uio unit :=
  match argv with
  | [] => mret tt
  | a :: argv => pid ← atoi a; _ ← kill pid; kill_args argv
  end.

Definition kill_main (argv : list (list Z)) : M uio unit :=
  match argv with
  | [] | [_] => printf 2 ("usage: kill pid..." ++ nl) [] ;; exit
  | _ :: argv => kill_args argv ;; exit
  end.
End commands.

(** ** Names *)

(** What fmtname makes of the last element of a path. *)
Definition padded (nm : list Z) : list Z := nm ++ replicate (Z.to_nat DIRSIZ - length nm) 32.

(** The static array of fmtname: its last byte stays 0. *)
Definition static (sbuf : list Z) : Prop := exists b, length b = Z.to_nat DIRSIZ /\ sbuf = b ++ [0].

(** A path and its last element. *)
Definition splits (pre nm : list Z) : Prop := (pre = [] \/ last pre = Some 47) /\ 47 ∉ nm.

Lemma after_slash_none path n : (forall i, (i <= n)%nat -> path !! i <> Some 47) -> after_slash path n = O.
Proof.
  induction n as [|n IH]; intros H; cbn [after_slash].
  - destruct (path !! O) as [c|] eqn:E; [|done]. cbn [default id]. destruct (Z.eqb_spec c 47) as [->|]; [|done]. by destruct (H O ltac:(lia)).
  - destruct (path !! S n) as [c|] eqn:E; cbn [default id].
    + destruct (Z.eqb_spec c 47) as [->|]; [by destruct (H (S n) ltac:(lia))|]. apply IH. intros i Hi. apply H. lia.
    + apply IH. intros i Hi. apply H. lia.
Qed.

Lemma after_slash_found path k n :
  path !! k = Some 47 -> (k <= n)%nat -> (forall i, (k < i <= n)%nat -> path !! i <> Some 47) -> after_slash path n = S k.
Proof.
  intros Hk. induction n as [|n IH]; intros Hle H; cbn [after_slash].
  - replace k with O in * by lia. by rewrite Hk.
  - destruct (decide (k = S n)) as [->|Hne]; [by rewrite Hk|].
    rewrite (proj2 (Z.eqb_neq _ _)).
    + apply IH; [lia|]. intros i Hi. apply H. lia.
    + specialize (H (S n) ltac:(lia)). destruct (path !! S n); cbn; congruence.
Qed.

Lemma after_slash_splits path pre nm : splits pre nm -> is_str path (pre ++ nm) -> after_slash path (length (pre ++ nm)) = length pre.
Proof.
  intros [Hp Hn] [_ [rest ->]].
  assert (Hno : forall i, (length pre <= i <= length (pre ++ nm))%nat -> ((pre ++ nm) ++ 0 :: rest) !! i <> Some 47).
  { intros i Hi. destruct (decide (i = length (pre ++ nm))) as [->|Hne]; [by rewrite list_lookup_middle by done|].
    rewrite length_app in *. rewrite lookup_app_l by (rewrite length_app; lia). rewrite lookup_app_r by lia. intros H. by apply list_elem_of_lookup_2 in H. }
  destruct Hp as [->|Hl].
  - apply after_slash_none. intros i Hi. apply Hno. cbn in *. lia.
  - apply last_Some in Hl as [p' ->]. rewrite (length_app p' [47]). cbn [length]. rewrite Nat.add_1_r. apply after_slash_found.
    + rewrite <- !app_assoc. by apply list_lookup_middle.
    + rewrite !length_app. cbn. lia.
    + intros i Hi. apply Hno. rewrite !length_app in *. cbn in *. lia.
Qed.

Lemma move_run {S} a i bs (s : S) :
  0 <= i -> i + Z.of_nat (length bs) <= Z.of_nat (length a) -> move a i bs s = Ret (splice a (Z.to_nat i) bs) s.
Proof. intros Hi Hl. unfold move. by rewrite (proj2 (Z.leb_le _ _) Hi), (proj2 (Z.leb_le _ _) Hl). Qed.

Lemma fmtname_run {S} sbuf path pre nm (s : S) :
  splits pre nm -> is_str path (pre ++ nm) -> static sbuf ->
  exists sbuf' r, fmtname sbuf path s = Ret (sbuf', r) s /\ static sbuf' /\ cut0 r = padded nm.
Proof.
  intros Hsp Hs (b & Hb & ->). unfold fmtname, mbind, M_bind. rewrite (strlen_run _ _ _ Hs), Nat2Z.id, (after_slash_splits _ _ _ Hsp Hs).
  assert (Hp : is_str (drop (length pre) path) nm).
  { destruct Hs as [Hf [rest ->]]. apply Forall_app in Hf as [_ Hf]. split; [done|]. exists rest. by rewrite <- app_assoc, drop_app_length. }
  rewrite (strlen_run _ _ _ Hp). destruct (Z.leb_spec DIRSIZ (Z.of_nat (length nm))) as [Hl|Hl].
  - do 2 eexists. split; [done|]. split; [by exists b|]. rewrite (is_str_cut0 _ _ Hp). unfold padded.
    replace (Z.to_nat DIRSIZ - length nm)%nat with O by lia. cbn. by rewrite app_nil_r.
  - assert (Hd : DIRSIZ = 14) by done. destruct Hp as [Hnz [rest' Hp]]. rewrite Hp, Nat2Z.id, take_app_length.
    assert (Hlb : length (b ++ [0]) = 15%nat) by (rewrite length_app, Hb; done).
    rewrite move_run by lia. rewrite move_run by (rewrite ?length_splice by lia; rewrite ?length_replicate; lia).
    do 2 eexists. split; [reflexivity|]. unfold splice. change (Z.to_nat 0) with O. rewrite length_replicate, !Nat2Z.id, !take_0, !app_nil_l, !Nat.add_0_l.
    rewrite !take_app_length.
    assert (Hdr : drop (length nm + Z.to_nat (DIRSIZ - Z.of_nat (length nm))) (nm ++ drop (length nm) (b ++ [0])) = [0]).
    { rewrite drop_app_ge by lia. rewrite drop_drop. replace (length nm + _)%nat with (length b) by lia. by rewrite drop_app_length. }
    rewrite Hdr. rewrite app_assoc. split.
    + eexists. split; [|done]. rewrite length_app, length_replicate. lia.
    + apply is_str_cut0. unfold padded. replace (Z.to_nat (DIRSIZ - Z.of_nat (length nm))) with (Z.to_nat DIRSIZ - length nm)%nat by lia.
      apply is_str_lit. apply Forall_app. split; [done|]. by apply Forall_replicate.
Qed.

(** ** Listing *)

Definition femit (bs : list Z) (s : fio) : fio := Fio (emit 1 bs (f_io s)) (f_path s) (f_info s).

(** The descriptors have their paths, the files their status. *)
Record consistent (s : fio) : Prop := {
  co_path fd : u_fds (f_io s) !! fd = None -> f_path s !! fd = None;
  co_info p : is_Some (u_files (f_io s) !! p) <-> is_Some (f_info s !! p)
}.

(** A descriptor is free. *)
Definition spare (fds : gmap Z (list Z)) : Prop := 0 <= free_fd fds 0 16.

Lemma fopen_run p data s :
  u_files (f_io s) !! p = Some data -> spare (u_fds (f_io s)) ->
  let fd := free_fd (u_fds (f_io s)) 0 16 in
  fopen p s = Ret fd (Fio (set_fds (<[fd := data]> (u_fds (f_io s))) (f_io s)) (<[fd := p]> (f_path s)) (f_info s)).
Proof.
  intros Hp Hf fd. unfold spare in Hf. fold fd in Hf. unfold fopen, io, zoom, io_lens, User.open. mred. cbn [view update]. rewrite Hp. fold fd.
  rewrite (proj2 (Z.ltb_ge _ _)), (proj2 (Z.leb_le _ _)) by lia. done.
Qed.

Lemma fopen_fails p s : u_files (f_io s) !! p = None -> fopen p s = Ret (-1) s.
Proof. intros Hp. destruct s. unfold fopen, io, zoom, io_lens, User.open. mred. cbn [view update]. by rewrite Hp. Qed.

(** What fclose undoes. *)
Lemma fclose_run fd data p i pt inf :
  u_fds i !! fd = None -> pt !! fd = None ->
  fclose fd (Fio (set_fds (<[fd := data]> (u_fds i)) i) (<[fd := p]> pt) inf) = Ret tt (Fio i pt inf).
Proof.
  intros H1 H2. unfold fclose, io, zoom, io_lens, User.close. mred. unfold set_path, set_fds. cbn. rewrite !delete_insert_id by done. by destruct i.
Qed.

Lemma spare_none s : spare (u_fds (f_io s)) -> u_fds (f_io s) !! free_fd (u_fds (f_io s)) 0 16 = None.
Proof. intros H. apply free_fd_free; [lia|done]. Qed.

Lemma stat_run n s : consistent s -> spare (u_fds (f_io s)) -> stat n s = Ret (f_info s !! cut0 n) s.
Proof.
  intros [H1 H2] Hf. pose proof (spare_none s Hf) as Hn. unfold stat, mbind, M_bind. destruct (u_files (f_io s) !! cut0 n) as [data|] eqn:E.
  - rewrite (fopen_run _ _ _ E Hf). unfold spare in Hf. rewrite (proj2 (Z.ltb_ge _ _)) by lia. unfold fstat. mred.
    cbn [f_path f_info]. rewrite lookup_insert_eq. cbn [option_bind]. rewrite fclose_run by auto. by destruct s.
  - rewrite fopen_fails by done. cbn. destruct (f_info s !! cut0 n) eqn:E2; [|done].
    destruct (proj2 (H2 (cut0 n))) as [? ?]; [by eexists|congruence].
Qed.

(** The line of an entry. *)
Definition entry_line (nm : list Z) (st : ustat) : list Z :=
  padded nm ++ [32] ++ decimal (us_type st) ++ [32] ++ decimal (us_ino st) ++ [32] ++ decimal (us_size st) ++ [10].

Lemma padded_u8 nm : Forall in_u8 nm -> Forall in_u8 (padded nm).
Proof. intros H. apply Forall_app. split; [done|]. by apply Forall_replicate. Qed.

Lemma print_entry_run sbuf path pre nm st s :
  splits pre nm -> is_str path (pre ++ nm) -> static sbuf -> Forall in_u8 nm ->
  exists sbuf', print_entry sbuf path st s = Ret sbuf' (femit (entry_line nm st) s) /\ static sbuf'.
Proof.
  intros H1 H2 H3 H8%padded_u8. destruct (fmtname_run sbuf path pre nm s H1 H2 H3) as (sbuf' & r & Hr & Hs & Hc). exists sbuf'. split; [|done].
  unfold print_entry. unfold mbind at 1, M_bind. rewrite Hr. cbn [fst snd]. unfold io, zoom, pstr. rewrite Hc. unfold mbind, M_bind. cbn [view io_lens].
  unfold printf. change (chars ("%s %d %d %d" ++ nl)) with [37; 115; 32; 37; 100; 32; 37; 100; 32; 37; 100; 10]. by run_printf.
Qed.

(** The directory on [fd] has [data] left, and [out] has been written. *)
Definition advance (fd : Z) (data out : list Z) (s : fio) : fio :=
  Fio (emit 1 out (set_fds (<[fd := data]> (u_fds (f_io s))) (f_io s))) (f_path s) (f_info s).

Lemma advance_advance fd d1 o1 d2 o2 s : advance fd d2 o2 (advance fd d1 o1 s) = advance fd d2 (o1 ++ o2) s.
Proof. unfold advance, emit, set_fds, set_out. cbn. by rewrite insert_insert_eq, fmap_app, app_assoc. Qed.

Lemma femit_advance fd d o o' s : femit o' (advance fd d o s) = advance fd d (o ++ o') s.
Proof. unfold femit, advance. cbn. by rewrite emit_app. Qed.

Lemma free_fd_insert fds fd x k n : is_Some (fds !! fd) -> free_fd (<[fd := x]> fds) k n = free_fd fds k n.
Proof.
  intros [y Hy]. revert k. induction n as [|n IH]; intros k; [done|]. cbn [free_fd]. rewrite IH.
  destruct (decide (k = fd)) as [->|Hne]; [by rewrite lookup_insert_eq, Hy|by rewrite lookup_insert_ne].
Qed.

(** The directory is being read: nothing comes short, and a descriptor is left
    for stat. *)
Record listing (fd : Z) (data : list Z) (s : fio) : Prop := {
  li_data : u_fds (f_io s) !! fd = Some data;
  li_short : u_short (f_io s) = [];
  li_spare : spare (u_fds (f_io s));
  li_cons : consistent s
}.

Lemma listing_advance fd data data' out s : listing fd data s -> listing fd data' (advance fd data' out s).
Proof.
  intros [H1 H2 H3 [H4 H5]]. split; [cbn; apply lookup_insert_eq|done| |split].
  - cbn. unfold spare. rewrite free_fd_insert by (by eexists). exact H3.
  - intros k. cbn. intros Hk. apply H4. destruct (decide (k = fd)) as [->|]; [by rewrite lookup_insert_eq in Hk|by rewrite lookup_insert_ne in Hk].
  - exact H5.
Qed.

Lemma read_entry fd e rest s :
  listing fd (e ++ rest) s -> length e = 16%nat \/ e = [] /\ rest = [] -> io (User.read fd DIRENT) s = Ret (Some e) (advance fd rest [] s).
Proof.
  intros [H1 H2 _ _] He. unfold io, zoom, io_lens, User.read. mred. cbn [view]. rewrite H1, H2.
  replace (Z.to_nat (read_count DIRENT (Z.of_nat (length (e ++ rest))) [])) with (length e).
  - rewrite take_app_length, drop_app_length. cbn. unfold advance. rewrite emit_nil. unfold set_short, set_fds. cbn. by rewrite <- H2.
  - unfold read_count, DIRENT. rewrite length_app. destruct He as [He|[-> ->]]; cbn; lia.
Qed.

(** The name at the end of the path in [buf]. *)
Lemma cut0_split l : Forall (fun c => c <> 0) (cut0 l) /\ exists rest, l ++ [0] = cut0 l ++ 0 :: rest.
Proof.
  induction l as [|c l [IH1 [rest IH2]]]; cbn [cut0]; [split; [done|by exists []]|]. destruct (Z.eqb_spec c 0) as [->|Hc].
  - split; [done|]. by exists (l ++ [0]).
  - split; [by constructor|]. exists rest. cbn. by rewrite IH2.
Qed.

Lemma is_str_name pre l t : Forall (fun c => c <> 0) pre -> is_str (pre ++ l ++ 0 :: t) (pre ++ cut0 l).
Proof.
  intros Hp. destruct (cut0_split l) as [H1 [rest H2]]. split; [by apply Forall_app|]. exists (rest ++ t).
  rewrite <- app_assoc. f_equal. change (0 :: t) with ([0] ++ t). rewrite app_assoc, H2. by rewrite <- app_assoc.
Qed.

(** What ls prints for an entry of the directory [path]. *)
Definition ls_line (info : gmap (list Z) ustat) (path de : list Z) : list Z :=
  let nm := cname (de_name de) in
  if de_inum de =? 0 then []
  else
    match info !! (path ++ [47] ++ nm) with
    | Some st => entry_line nm st
    | None => chars "ls: cannot stat " ++ path ++ [47] ++ nm ++ [10]
    end.

(** An entry of a directory: its bytes, and no slash in the name. *)
Record good_dent (de : list Z) : Prop := {
  gd_len : length de = 16%nat;
  gd_u8 : Forall in_u8 de;
  gd_slash : 47 ∉ cname (de_name de)
}.

Lemma cname_u8 l : Forall in_u8 l -> Forall in_u8 (cname l).
Proof.
  intros H. unfold cname. assert (Ht : Forall in_u8 (take (Z.to_nat DIRSIZ) l)) by by apply Forall_take.
  induction Ht as [|c t Hc _ IH]; [done|]. cbn [cut0]. destruct (c =? 0); [done|by constructor].
Qed.

(** The array of ls: the path with a slash, and room for a name. *)
Record ls_buf (path buf : list Z) : Prop := {
  lb_len : (length path + 16 <= length buf)%nat;
  lb_pre : take (length path + 1) buf = path ++ [47];
  lb_nz : Forall (fun c => c <> 0) path
}.

Lemma ls_buf_name {S} path buf nm (s : S) :
  ls_buf path buf -> length nm = Z.to_nat DIRSIZ ->
  exists buf', (b ← move buf (Z.of_nat (length path) + 1) nm; aset b (Z.of_nat (length path) + 1 + DIRSIZ) 0) s = Ret buf' s /\
    ls_buf path buf' /\ is_str buf' ((path ++ [47]) ++ cname nm).
Proof.
  intros [H1 H2 H3] Hn. assert (Hd : DIRSIZ = 14) by done. set (k := (length path + 1)%nat) in *.
  replace (Z.of_nat (length path) + 1) with (Z.of_nat k) by lia.
  unfold mbind, M_bind. rewrite move_run by lia. rewrite Nat2Z.id. set (b1 := splice buf k nm).
  assert (Hl1 : length b1 = length buf) by (apply length_splice; lia).
  assert (Hb1 : b1 = (path ++ [47]) ++ nm ++ drop (k + 14) buf) by (unfold b1, splice; rewrite H2; do 3 f_equal; lia).
  destruct (drop (k + 14) buf) as [|x t] eqn:Ed; [apply (f_equal length) in Ed; rewrite length_drop in Ed; cbn in Ed; lia|].
  assert (Hins : <[(k + 14)%nat := 0]> b1 = (path ++ [47]) ++ nm ++ 0 :: t).
  { rewrite Hb1, app_assoc. replace (k + 14)%nat with (length ((path ++ [47%Z]) ++ nm) + 0)%nat by (rewrite !length_app, Hn; cbn; lia).
    by rewrite insert_app_r, <- app_assoc. }
  unfold aset. replace (Z.of_nat k + DIRSIZ) with (Z.of_nat (k + 14)) by lia.
  rewrite (proj2 (Z.leb_le _ _)), (proj2 (Z.ltb_lt _ _)) by lia. cbn [andb]. rewrite Nat2Z.id, Hins.
  assert (Hnz : Forall (fun c => c <> 0) (path ++ [47])) by (apply Forall_app; split; [done|by apply Forall_singleton]).
  eexists. split; [reflexivity|]. split.
  - split; [|by rewrite take_app_length' by (rewrite length_app; done)|done]. rewrite <- Hins, length_insert. lia.
  - unfold cname. rewrite <- Hn, firstn_all. by apply is_str_name.
Qed.

Lemma cannot_stat p s : Forall in_u8 p ->
  io (printf 1 ("ls: cannot stat %s" ++ nl) [PStr p]) s = Ret tt (femit (chars "ls: cannot stat " ++ p ++ [10]) s).
Proof.
  intros H8. unfold io, zoom. unfold printf.
  change (chars ("ls: cannot stat %s" ++ nl)) with [108; 115; 58; 32; 99; 97; 110; 110; 111; 116; 32; 115; 116; 97; 116; 32; 37; 115; 10].
  by run_printf.
Qed.

Lemma ls_loop_spec path fd es : forall fuel buf sbuf s,
  (length es < fuel)%nat -> listing fd (concat es) s -> ls_buf path buf -> Forall in_u8 path -> static sbuf -> Forall good_dent es ->
  exists sbuf', ls_loop fuel fd buf (Z.of_nat (length path) + 1) sbuf s =
    Ret sbuf' (advance fd [] (concat (ls_line (f_info s) path <$> es)) s) /\ static sbuf'.
Proof.
  induction es as [|e es IH]; intros [|fuel] buf sbuf s Hf Hli Hb H8 Hst Hgd; try (cbn in Hf; lia); cbn [ls_loop]; unfold mbind at 1, M_bind.
  { rewrite (read_entry fd [] [] s) by (done || by right). cbn. by exists sbuf. }
  apply Forall_cons in Hgd as [[Hl He8 Hsl] Hgd]. cbn [concat fmap list_fmap] in *. rewrite (read_entry fd e (concat es) s) by (done || by left).
  rewrite Hl. cbn [Z.of_nat negb Z.eqb]. change (negb (Z.of_nat 16 =? DIRENT)) with false. cbv iota.
  set (s1 := advance fd (concat es) [] s). assert (Hli1 : listing fd (concat es) s1) by (eapply listing_advance; exact Hli).
  assert (Hgo : forall out buf sbuf, ls_buf path buf -> static sbuf -> exists sbuf',
    ls_loop fuel fd buf (Z.of_nat (length path) + 1) sbuf (femit out s1) = Ret sbuf' (advance fd [] (out ++ concat (ls_line (f_info s) path <$> es)) s) /\ static sbuf').
  { intros out buf2 sbuf2 Hb2 Hs2. unfold s1. rewrite femit_advance. cbn [app].
    destruct (IH fuel buf2 sbuf2 (advance fd (concat es) out s)) as (sb & -> & Hsb); [cbn in Hf; lia|by eapply listing_advance|done..|].
    exists sb. by rewrite advance_advance. }
  unfold ls_line at 1. destruct (de_inum e =? 0) eqn:E0.
  { destruct (Hgo [] buf sbuf Hb Hst) as (sb & Hsb). exists sb. unfold femit in Hsb. rewrite emit_nil in Hsb. exact Hsb. }
  destruct (ls_buf_name path buf (de_name e) s1 Hb) as (buf' & Hm & Hb' & Hstr); [unfold de_name; by rewrite length_drop, Hl|].
  unfold mbind, M_bind in Hm |- *. destruct (move buf _ (de_name e) s1) as [b s2|]; [|done].
  rewrite Hm. destruct Hli1 as [L1 L2 L3 L4]. rewrite (stat_run _ _ L4 L3), (is_str_cut0 _ _ Hstr), <- app_assoc. change (f_info s1) with (f_info s).
  assert (Hn8 : Forall in_u8 (cname (de_name e))) by (apply cname_u8; unfold de_name; by apply Forall_drop).
  destruct (f_info s !! _) as [st|].
  - destruct (print_entry_run sbuf buf' (path ++ [47]) (cname (de_name e)) st s1) as (sb & -> & Hsb); [|done..|by apply Hgo].
    split; [right; apply last_snoc|done].
  - unfold pstr. rewrite (is_str_cut0 _ _ Hstr), <- app_assoc. rewrite cannot_stat.
    2: { apply Forall_app. split; [done|]. apply Forall_app. split; [by apply Forall_singleton|done]. }
    rewrite <- !(app_assoc path), <- !(app_assoc [47]). by apply Hgo.
Qed.

Lemma length_dirs es : Forall good_dent es -> (length es <= length (concat es))%nat.
Proof. induction 1 as [|e es [He _ _] _ IH]; [done|]. cbn [concat length]. rewrite length_app. lia. Qed.

Lemma ls_dir_spec fd junk sbuf path str es s :
  is_str path str -> (length str + 16 <= 512)%nat -> Forall in_u8 str -> length junk = 512%nat ->
  listing fd (concat es) s -> static sbuf -> Forall good_dent es ->
  exists sbuf', ls_dir fd junk sbuf path s = Ret sbuf' (advance fd [] (concat (ls_line (f_info s) str <$> es)) s).
Proof.
  intros Hstr Hlen H8 Hj Hli Hst Hgd. assert (Hd : DIRSIZ = 14) by done. unfold ls_dir, mbind, M_bind. rewrite (strlen_run _ _ _ Hstr).
  rewrite (proj2 (Z.ltb_ge _ _)) by lia. rewrite (strcpy_run _ _ _ _ Hstr) by lia. set (buf := str ++ 0 :: _).
  assert (Hb : is_str buf str) by (split; [apply Hstr|by eexists]). rewrite (strlen_run _ _ _ Hb).
  assert (Hl : length buf = 512%nat) by (unfold buf; rewrite length_app; cbn [length]; rewrite length_drop; lia).
  unfold aset. rewrite (proj2 (Z.leb_le _ _)), (proj2 (Z.ltb_lt _ _)) by lia. cbn [andb]. rewrite Nat2Z.id. unfold mret, M_ret.
  unfold io at 1, zoom, left_on, Prelude.gets, io_lens. cbn [view update]. rewrite (li_data _ _ _ Hli). cbn [default id].
  replace (Fio (f_io s) (f_path s) (f_info s)) with s by by destruct s. pose proof (length_dirs es Hgd) as Hle.
  destruct (ls_loop_spec str fd es (S (length (concat es))) (<[length str := 47]> buf) sbuf s ltac:(lia) Hli) as (sb & H & _); try done.
  - split; [rewrite length_insert; lia| |apply Hstr]. unfold buf.
    replace (length str) with (length str + 0)%nat at 2 by lia. rewrite insert_app_r. cbn [insert list_insert].
    replace (str ++ 47 :: _) with ((str ++ [47]) ++ drop (length str + 1) junk) by by rewrite <- app_assoc.
    rewrite take_app_length' by (rewrite length_app; done). done.
  - by exists sb.
Qed.

(** ls on a directory prints one line for every entry in use, in the order of
    the directory: the name padded to DIRSIZ, type, inode number and size, or
    that the file cannot be examined. It closes what it opened. Every name that
    the kernel would find in the directory is listed. *)
Theorem ls_lists junk name path str es st s :
  let fds := u_fds (f_io s) in
  is_str path str -> (length str + 16 <= 512)%nat -> Forall in_u8 str -> length junk = 512%nat ->
  consistent s -> u_short (f_io s) = [] -> spare fds -> spare (<[free_fd fds 0 16 := concat es]> fds) ->
  u_files (f_io s) !! str = Some (concat es) -> f_info s !! str = Some st -> us_type st = T_DIR -> Forall good_dent es ->
  let out := concat (ls_line (f_info s) str <$> es) in
  ls_main junk [name; path] s = Stop Exited (femit out s) /\
  forall nm inum, dir_lookup (concat es) nm = Some inum -> exists de before after,
    de_inum de = inum /\ cname (de_name de) = nm /\ out = before ++ ls_line (f_info s) str de ++ after.
Proof.
  intros fds Hstr Hlen H8 Hj Hc Hsh Hf Hf2 Hfile Hinf Hty Hgd out. split.
  - unfold ls_main. cbn [ls_args]. set (sbuf := replicate _ 0).
    assert (Hst : static sbuf) by (exists (replicate 14 0); done).
    enough (exists sbuf', ls junk sbuf path s = Ret sbuf' (femit out s)) as [sbuf' H] by (unfold mbind, M_bind; by rewrite H).
    unfold ls. unfold mbind at 1, M_bind. rewrite (is_str_cut0 _ _ Hstr), (fopen_run _ _ _ Hfile Hf). fold fds. set (fd := free_fd fds 0 16) in *.
    unfold spare in Hf. fold fd in Hf. rewrite (proj2 (Z.ltb_ge _ _)) by lia. unfold mbind at 1, M_bind. unfold fstat, Prelude.gets. cbn [f_path f_info].
    rewrite lookup_insert_eq. cbn [option_bind mbind]. rewrite Hinf. rewrite Hty. change (T_DIR =? T_FILE) with false. rewrite Z.eqb_refl. cbv iota.
    set (s1 := Fio _ _ _). pose proof (spare_none s Hf) as Hn. fold fds in Hn. fold fd in Hn. destruct (ls_dir_spec fd junk sbuf path str es s1) as (sb & H); try done.
    { split; [cbn; apply lookup_insert_eq|exact Hsh|exact Hf2|]. split.
      - intros k. cbn. intros [H1 H2]%lookup_insert_None. rewrite lookup_insert_ne by done. by apply (co_path s Hc).
      - apply (co_info s Hc). }
    exists sb. unfold mbind, M_bind. rewrite H. unfold advance, s1. cbn [f_io f_path f_info].
    replace (emit _ _ _) with (set_fds (<[fd := []]> (u_fds (emit 1 out (f_io s)))) (emit 1 out (f_io s)))
      by (unfold emit, set_fds, set_out; cbn; by rewrite insert_insert_eq).
    rewrite fclose_run; [done|exact Hn|by apply (co_path s Hc)].
  - intros nm inum. unfold dir_lookup. rewrite <- (app_nil_r (concat es)), dents_concat by (eapply Forall_impl; [exact Hgd|by intros e []]).
    cbn. rewrite app_nil_r. intros ([j i] & Hj' & [= <-])%fmap_Some. apply dir_find_lookup in Hj' as (de & _ & Hde & H1 & _ & H2).
    apply list_elem_of_lookup_2, list_elem_of_split in Hde as (l1 & l2 & ->). exists de, (concat (ls_line (f_info s) str <$> l1)), (concat (ls_line (f_info s) str <$> l2)).
    split_and!; [done|done|]. unfold out. by rewrite fmap_app, concat_app, fmap_cons.
Qed.

(** A directory with a file, a free entry and an entry whose file is gone. *)
Definition demo_dent (inum : Z) (nm : string) : list Z := [inum; 0] ++ chars nm ++ replicate (14 - length (chars nm)) 0.
Definition ls_demo : fio :=
  Fio (Uio {[chars "d" := concat [demo_dent 5 "README"; demo_dent 0 "x"; demo_dent 7 "gone"]; chars "d/README" := chars "hi"]} ∅ [] [])
    ∅ {[chars "d" := UStat 1 1 3 1 48; chars "d/README" := UStat 2 1 5 1 2]}.

Lemma ls_lists_witness :
  ls_main (replicate 512 7) [lit "ls"; lit "d"] ls_demo =
  Stop Exited (femit (chars "README         2 5 2" ++ [10] ++ chars "ls: cannot stat d/gone" ++ [10]) ls_demo).
Proof.
  apply (ls_lists (replicate 512 7) (lit "ls") (lit "d") (chars "d") [demo_dent 5 "README"; demo_dent 0 "x"; demo_dent 7 "gone"]
    (UStat 1 1 3 1 48) ls_demo); try done.
  - by apply is_str_lit, Forall_singleton.
  - cbn. lia.
  - by apply Forall_singleton.
  - split; [done|]. intros p. cbn [ls_demo f_io f_info u_files].
    rewrite !lookup_insert_is_Some, !lookup_singleton_is_Some. done.
  - repeat (apply Forall_cons_2; [split; [done|repeat (apply Forall_cons_2; [done|]); apply Forall_nil_2|by apply (bool_decide_unpack _)]|]).
    apply Forall_nil_2.
Defined.

(** mkdir and rm make their calls in order up to the first that fails, and
    report that one. *)
Theorem until_fails_stops (call : list Z -> M uio Z) fmt pre a post s s1 r s2 :
  for_each pre (fun x => r ← call (cut0 x); if r <? 0 then wild else mret tt) s = Ret tt s1 ->
  call (cut0 a) s1 = Ret r s2 -> r < 0 ->
  until_fails call fmt (pre ++ a :: post) s = printf 2 fmt [pstr a] s2.
Proof.
  intros Hpre Ha Hr. revert s Hpre. induction pre as [|x pre IH]; intros s; cbn [for_each app until_fails]; unfold mbind, M_bind.
  - intros [= <-]. rewrite Ha. by rewrite (proj2 (Z.ltb_lt _ _)).
  - destruct (call (cut0 x) s) as [r' s'|]; [|done]. destruct (r' <? 0); [done|]. cbn. apply IH.
Qed.
