(* ===== verification/Procmd.v ===== *)
(** The programs that start other processes: [init.c], [new_wait.c], [test.c],
    [zombie.c] and [forktest.c].

    A process asks the kernel, whose answers to its calls are a script: what
    fork, exec, wait and the like return, in the order of the calls. A call
    that the script does not answer does not return. The calls with their arguments and
    what is printed are recorded in the order in which they happen. *)

From S2P Require Import Prelude Mem User Ulib Uniq Console Kcmd Head.

Open Scope Z_scope.

(** ** Calls and answers *)

Inductive call :=
  | CFork
  | CExec (path : list Z) (argv : list (list Z))
  | CWait
  | CNewWait
  | CUptime
  | CSleep (n : Z)
  | COpen (path : list Z) (mode : Z)
  | CMknod (path : list Z) (major minor : Z)
  | CDup (fd : Z).

(** The result of a call, and what it stores through its pointers. *)
Record answer := Answer { a_ret : Z; a_words : list Z }.

Inductive step := Did (c : call) | Wrote (fd : Z) (bs : list Z).

Record kio := Kio { k_script : list answer; k_trace : list step }.

Definition trace (st : step) : M kio unit := modify (fun s => Kio (k_script s) (k_trace s ++ [st])).

(** The process does not go on. *)
Definition gone {A} : M kio A := fun s => Stop Switched s.

Definition ask (c : call) : M kio answer :=
  trace (Did c) ;;
  s ← get;
  match k_script s with
  | [] => gone
  | a :: script => put (Kio script (k_trace s)) ;; mret a
  end.

Definition sys (c : call) : M kio Z := a ← ask c; mret (a_ret a).

Definition exit {A} : M kio A := fun s => Stop Exited s.

(** [printf] of the user library. *)
Definition say (fd : Z) (fmt : string) (ap : list parg) : M kio unit :=
  match printf fd fmt ap (Uio ∅ ∅ [] []) with
  | Ret _ s => trace (Wrote fd (written fd s))
  | Stop w _ => fun s => Stop w s
  end.
Arguments say fd fmt%_string_scope ap.

(** An exec that succeeds does not return. *)
Definition exec (path : list Z) (argv : list (list Z)) : M kio Z :=
  r ← sys (CExec path argv);
  if r <? 0 then mret r else gone.

(** ** init.c *)

Fixpoint wait_for (fuel : nat) (pid : Z) : M kio unit :=
  match fuel with
  | O => out_of_fuel
  | S fuel =>
      wpid ← sys CWait;
      if (0 <=? wpid) && negb (wpid =? pid) then say 1 ("zombie!" ++ nl) [] ;; wait_for fuel pid
      else mret tt
  end.

(** [for(;;)]: the answers that are left bound the calls. *)
Fixpoint init_loop (fuel : nat) : M kio unit :=
  match fuel with
  | O => out_of_fuel
  | S fuel =>
      say 1 ("init: starting sh" ++ nl) [] ;;
      pid ← sys CFork;
      if pid <? 0 then say 1 ("init: fork failed" ++ nl) [] ;; exit
      else if pid =? 0 then
        exec (chars "sh") [chars "sh"] ;;
        say 1 ("init: exec sh failed" ++ nl) [] ;;
        exit
      else
        n ← Prelude.gets (fun s => length (k_script s));
        wait_for (S n) pid ;;
        init_loop fuel
  end.

Definition init_main : M kio unit :=
  fd ← sys (COpen (chars "console") O_RDWR);
  when (fd <? 0)
    (_ ← sys (CMknod (chars "console") 1 1);
     _ ← sys (COpen (chars "console") O_RDWR);
     mret tt) ;;
  _ ← sys (CDup 0);
  _ ← sys (CDup 0);
  n ← Prelude.gets (fun s => length (k_script s));
  init_loop (S n).

(** ** new_wait.c *)

(** The variables are not initialised: [junk] is what they hold. *)
Definition new_wait_main (junk : list Z) (argv : list (list Z)) : M kio unit :=
  match argv with
  | [] | [_] => say 2 ("Usage: new_wait command" ++ nl) [] ;; exit
  | _ :: path :: args =>
      pid ← sys CFork;
      (if pid =? -1 then say 2 ("Fork Error" ++ nl) []
       else if pid =? 0 then
         r ← exec path (path :: args);
         when (r =? -1) (say 2 ("No such command" ++ nl) []) ;;
         exit
       else
         a ← ask CNewWait;
         let var i := default (nth i junk 0) (a_words a !! i) in
         say 1 (nl ++ "Creation Time : %d" ++ nl ++ "Stop Time : %d" ++ nl ++ "Run Time : %d" ++ nl)
           [PInt (var 0%nat); PInt (var 1%nat); PInt (var 2%nat)]) ;;
      exit
  end.

(** ** test.c *)

Definition record_process_info (command : list Z) (args : list (list Z)) : M kio unit :=
  create_time ← sys CUptime;
  pid ← sys CFork;
  (if pid =? 0 then
     exec command args ;;
     say 2 ("Exec '%s' failed." ++ nl) [PStr command] ;;
     exit
   else if 0 <? pid then _ ← sys CWait; mret tt
   else say 2 ("Fork failed." ++ nl) [] ;; exit) ;;
  end_time ← sys CUptime;
  let total_time := u32 (end_time - create_time) in
  say 1 (nl ++ "Process Info:" ++ nl) [] ;;
  say 1 ("  Creation Time: %d" ++ nl) [PInt (u32 create_time)] ;;
  say 1 ("  End Time: %d" ++ nl) [PInt (u32 end_time)] ;;
  say 1 ("  Total Time: %d" ++ nl) [PInt total_time].

Definition test_main (argv : list (list Z)) : M kio unit :=
  match argv with
  | [] | [_] => say 2 ("Usage: test <command> [args...]" ++ nl) [] ;; exit
  | _ :: command :: args => record_process_info command (command :: args) ;; exit
  end.

(** ** zombie.c *)

Definition zombie_main : M kio unit :=
  pid ← sys CFork;
  when (0 <? pid) (_ ← sys (CSleep 5); mret tt) ;;
  exit.

(** ** forktest.c *)

Definition N : Z := 1000.

(** Its own printf writes the format as it is. *)
Definition puts (fd : Z) (fmt : string) : M kio unit := trace (Wrote fd (chars fmt)).
Arguments puts fd fmt%_string_scope.

(** The number of children. *)
Fixpoint fork_loop (fuel : nat) (n : Z) : M kio Z :=
  match fuel with
  | O => out_of_fuel
  | S fuel =>
      if n <? N then
        pid ← sys CFork;
        if pid <? 0 then mret n
        else if pid =? 0 then exit
        else fork_loop fuel (n + 1)
      else mret n
  end.

Fixpoint wait_loop (n : nat) : M kio unit :=
  match n with
  | O => mret tt
  | S n =>
      r ← sys CWait;
      if r <? 0 then puts 1 ("wait stopped early" ++ nl) ;; exit else wait_loop n
  end.

Definition forktest : M kio unit :=
  puts 1 ("fork test" ++ nl) ;;
  n ← fork_loop (Z.to_nat N + 1) 0;
  when (n =? N) (puts 1 ("fork claimed to work N times!" ++ nl) ;; exit) ;;
  wait_loop (Z.to_nat n) ;;
  r ← sys CWait;
  when (negb (r =? -1)) (puts 1 ("wait got too many" ++ nl) ;; exit) ;;
  puts 1 ("fork test OK" ++ nl).

Definition forktest_main : M kio unit := forktest ;; exit.

(** ** Running *)

(** [does m s evs s']: [m] returns, and has made the steps [evs]. *)
Definition after (evs : list step) (script : list answer) (s : kio) : kio := Kio script (k_trace s ++ evs).

Lemma trace_run st s : trace st s = Ret tt (after [st] (k_script s) s).
Proof. done. Qed.

Lemma after_after e1 e2 sc1 sc2 s : after e2 sc2 (after e1 sc1 s) = after (e1 ++ e2) sc2 s.
Proof. unfold after. cbn. by rewrite app_assoc. Qed.

Lemma ask_run c a script s : k_script s = a :: script -> ask c s = Ret a (after [Did c] script s).
Proof. intros H. unfold ask. unfold mbind, M_bind. rewrite trace_run. cbn. by rewrite H. Qed.

Lemma ask_blocks c s : k_script s = [] -> ask c s = Stop Switched (after [Did c] [] s).
Proof. intros H. unfold ask. unfold mbind, M_bind. rewrite trace_run. destruct s. cbn in *. by subst. Qed.

Lemma sys_run c r w script s : k_script s = Answer r w :: script -> sys c s = Ret r (after [Did c] script s).
Proof. intros H. unfold sys. unfold mbind, M_bind. by rewrite (ask_run _ _ _ _ H). Qed.

Lemma sys_blocks c s : k_script s = [] -> sys c s = Stop Switched (after [Did c] [] s).
Proof. intros H. unfold sys, mbind, M_bind. by rewrite ask_blocks. Qed.

Lemma after_0 s : after [] (k_script s) s = s.
Proof. destruct s. unfold after. cbn. by rewrite app_nil_r. Qed.

(** ** init *)

Definition said (fd : Z) (s : string) : step := Wrote fd (chars (s ++ nl)).
Arguments said fd s%_string_scope.

Definition ok (r : Z) : answer := Answer r [].

(** A round of init: the shell it starts is process [r.1]; the orphans [r.2] are
    reaped before the shell ends. *)
Definition round_script (r : Z * list Z) : list answer := ok r.1 :: (ok <$> r.2) ++ [ok r.1].
Definition round_trace (r : Z * list Z) : list step :=
  [said 1 "init: starting sh"; Did CFork] ++ concat ((fun _ => [Did CWait; said 1 "zombie!"]) <$> r.2) ++ [Did CWait].
Definition good_round (r : Z * list Z) : Prop := 0 < r.1 /\ Forall (fun q => 0 <= q /\ q <> r.1) r.2.

Lemma wait_for_run pid orphans : forall fuel script s,
  (length orphans < fuel)%nat -> 0 < pid -> Forall (fun q => 0 <= q /\ q <> pid) orphans ->
  k_script s = (ok <$> orphans) ++ ok pid :: script ->
  wait_for fuel pid s = Ret tt (after (concat ((fun _ => [Did CWait; said 1 "zombie!"]) <$> orphans) ++ [Did CWait]) script s).
Proof.
  induction orphans as [|q orphans IH]; intros [|fuel] script s Hf Hp Ho Hs; try (cbn in Hf; lia); cbn [wait_for]; unfold mbind at 1, M_bind.
  - rewrite (sys_run _ _ _ _ _ Hs). rewrite Z.eqb_refl, andb_false_r. done.
  - apply Forall_cons in Ho as [[Hq Hne] Ho]. cbn [fmap list_fmap app] in Hs. rewrite (sys_run _ _ _ _ _ Hs).
    rewrite (proj2 (Z.leb_le _ _) Hq), (proj2 (Z.eqb_neq _ _) Hne). cbn [negb andb]. unfold mbind at 1, M_bind.
    change (say 1 ("zombie!" ++ nl) []) with (trace (said 1 "zombie!")). rewrite trace_run.
    rewrite (IH fuel script); [|cbn in Hf; lia|done|done|done]. by rewrite !after_after.
Qed.

(** init never ends as long as it can fork: whatever processes are handed to it
    while a shell runs, it reaps every one of them, and when the shell ends it
    starts the next one. *)
Theorem init_respawns rounds console s :
  0 <= console -> Forall good_round rounds -> k_script s = [ok console; ok 1; ok 2] ++ concat (round_script <$> rounds) ->
  init_main s = Stop Switched (after ([Did (COpen (chars "console") O_RDWR); Did (CDup 0); Did (CDup 0)] ++
    concat (round_trace <$> rounds) ++ [said 1 "init: starting sh"; Did CFork]) [] s).
Proof.
  intros Hc Hr Hs. unfold init_main, mbind, M_bind. rewrite (sys_run _ _ _ _ _ Hs). rewrite (proj2 (Z.ltb_ge _ _) Hc). cbn [when].
  unfold mret, M_ret. erewrite !sys_run by reflexivity. unfold Prelude.gets. cbn [k_script after]. rewrite !after_after. cbn [app].
  enough (Hl : forall fuel s, (length (concat (round_script <$> rounds)) < fuel)%nat -> k_script s = concat (round_script <$> rounds) ->
    init_loop fuel s = Stop Switched (after (concat (round_trace <$> rounds) ++ [said 1 "init: starting sh"; Did CFork]) [] s)).
  { rewrite Hl by (done || lia). by rewrite after_after. }
  clear s Hs. induction Hr as [|[pid os] rounds [Hp Ho] _ IH]; intros [|fuel] s Hf Hs; try lia; cbn [init_loop]; unfold mbind at 1, M_bind;
    change (say 1 ("init: starting sh" ++ nl) []) with (trace (said 1 "init: starting sh")); rewrite trace_run; unfold mbind at 1, M_bind.
  - rewrite sys_blocks by done. by rewrite after_after.
  - cbn [fmap list_fmap concat] in *. unfold round_script at 1 in Hs. cbn [fst snd app] in *.
    erewrite sys_run by exact Hs. rewrite (proj2 (Z.ltb_ge _ _)), (proj2 (Z.eqb_neq _ _)) by lia.
    unfold mbind at 1, M_bind. unfold Prelude.gets. cbn [k_script after]. unfold mbind at 1, M_bind.
    rewrite length_app in Hf. unfold round_script at 1 in Hf. cbn [length fst snd] in Hf. rewrite length_app, length_fmap in Hf.
    rewrite (wait_for_run pid os) with (script := concat (round_script <$> rounds)); [|rewrite !length_app, length_fmap; lia|done|done|cbn; by rewrite <- app_assoc].
    rewrite IH; [|cbn in Hf; lia|done]. rewrite !after_after. unfold round_trace at 2. cbn [fst snd]. by rewrite <- !app_assoc.
Qed.

(** The format read, and what it prints. *)
Ltac eval_printf :=
  unfold printf; match goal with |- context [chars ?f] => let v := eval vm_compute in (chars f) in change (chars f) with v end; run_printf.

Lemma say_run fd fmt ap bs s :
  printf fd fmt ap (Uio ∅ ∅ [] []) = Ret tt (emit fd bs (Uio ∅ ∅ [] [])) -> say fd fmt ap s = Ret tt (after [Wrote fd bs] (k_script s) s).
Proof. intros H. unfold say. rewrite H, written_emit. apply trace_run. Qed.

(** ** new_wait and test *)

Definition times_text (a b c : Z) : list Z :=
  [10] ++ chars "Creation Time : " ++ decimal a ++ [10] ++ chars "Stop Time : " ++ decimal b ++ [10] ++ chars "Run Time : " ++ decimal c ++ [10].

(** new_wait runs the command in a child with the command's own arguments, and
    prints as creation, stop and run time the words that the kernel stores
    through the first, second and third pointer. *)
Theorem new_wait_reports junk name path args s :
  (forall script, k_script s = ok 0 :: ok 0 :: script ->
    new_wait_main junk (name :: path :: args) s = Stop Switched (after [Did CFork; Did (CExec path (path :: args))] script s)) /\
  (forall pid ret a b c script, 0 < pid -> k_script s = ok pid :: Answer ret [a; b; c] :: script ->
    new_wait_main junk (name :: path :: args) s = Stop Exited (after [Did CFork; Did CNewWait; Wrote 1 (times_text a b c)] script s)).
Proof.
  split.
  - intros script Hs. unfold new_wait_main, mbind, M_bind. rewrite (sys_run _ _ _ _ _ Hs). cbn [Z.eqb]. unfold exec, mbind, M_bind.
    erewrite sys_run by reflexivity. cbn [Z.ltb Z.compare]. unfold gone. by rewrite after_after.
  - intros pid ret a b c script Hp Hs. unfold new_wait_main, mbind, M_bind. rewrite (sys_run _ _ _ _ _ Hs).
    rewrite !(proj2 (Z.eqb_neq _ _)) by lia. erewrite ask_run by reflexivity. cbv zeta. cbn [a_words lookup list_lookup default id].
    erewrite say_run.
    2: { eval_printf. reflexivity. }
    unfold exit. by rewrite !after_after.
Qed.

(** test prints the clock before and after the command, and the difference,
    also when the clock has wrapped around. *)
Theorem test_times name command args pid r t0 t1 script s :
  0 < pid -> k_script s = [ok t0; ok pid; ok r; ok t1] ++ script ->
  test_main (name :: command :: args) s = Stop Exited (after [Did CUptime; Did CFork; Did CWait; Did CUptime;
    Wrote 1 ([10] ++ chars "Process Info:" ++ [10]); Wrote 1 (chars "  Creation Time: " ++ decimal t0 ++ [10]);
    Wrote 1 (chars "  End Time: " ++ decimal t1 ++ [10]); Wrote 1 (chars "  Total Time: " ++ decimal (t1 - t0) ++ [10])] script s).
Proof.
  intros Hp Hs. unfold test_main, record_process_info, mbind, M_bind. rewrite (sys_run _ _ _ _ _ Hs).
  erewrite sys_run by reflexivity. rewrite (proj2 (Z.eqb_neq _ _)), (proj2 (Z.ltb_lt _ _)) by lia.
  erewrite sys_run by reflexivity. unfold mret, M_ret. erewrite sys_run by reflexivity. cbv zeta.
  do 4 (erewrite say_run; [|eval_printf; reflexivity]). unfold exit. rewrite !after_after. cbn [app].
  unfold decimal. by rewrite !i32_u32.
Qed.

(** ** forktest *)

Lemma fork_loop_run pids : forall fuel n script s,
  Forall (fun p => 0 < p) pids -> (length pids < fuel)%nat -> n + Z.of_nat (length pids) < N ->
  k_script s = (ok <$> pids) ++ ok (-1) :: script ->
  fork_loop fuel n s = Ret (n + Z.of_nat (length pids)) (after (replicate (S (length pids)) (Did CFork)) script s).
Proof.
  induction pids as [|p pids IH]; intros [|fuel] n script s Hp Hf Hn Hs; try (cbn in Hf; lia); cbn [fork_loop length] in *; rewrite (proj2 (Z.ltb_lt _ _)) by lia;
    unfold mbind at 1, M_bind; erewrite sys_run by exact Hs.
  - cbn. by rewrite Z.add_0_r.
  - apply Forall_cons in Hp as [Hp Hps]. rewrite (proj2 (Z.ltb_ge _ _)), (proj2 (Z.eqb_neq _ _)) by lia.
    rewrite (IH fuel (n + 1) script) by (done || lia). rewrite after_after. f_equal. lia.
Qed.

Lemma wait_loop_run rs : forall script s,
  Forall (fun r => 0 <= r) rs -> k_script s = (ok <$> rs) ++ script ->
  wait_loop (length rs) s = Ret tt (after (replicate (length rs) (Did CWait)) script s).
Proof.
  induction rs as [|r rs IH]; intros script s Hr Hs; cbn [wait_loop length replicate] in *.
  - cbn in Hs. subst script. by rewrite after_0.
  - apply Forall_cons in Hr as [Hr Hrs]. unfold mbind at 1, M_bind. erewrite sys_run by exact Hs.
    rewrite (proj2 (Z.ltb_ge _ _)) by lia. rewrite (IH script) by done. by rewrite after_after.
Qed.

(** forktest accepts a kernel that makes some children, fewer than N, then
    refuses, and lets the parent wait for exactly these. *)
Theorem forktest_accepts pids waited script s :
  Forall (fun p => 0 < p) pids -> Forall (fun r => 0 <= r) waited -> length waited = length pids -> Z.of_nat (length pids) < N ->
  k_script s = (ok <$> pids) ++ [ok (-1)] ++ (ok <$> waited) ++ [ok (-1)] ++ script ->
  exists evs, forktest_main s = Stop Exited (after (evs ++ [said 1 "fork test OK"]) script s).
Proof.
  intros Hp Hw Hl Hn Hs. unfold forktest_main, forktest, puts, mbind, M_bind. rewrite trace_run.
  rewrite (fork_loop_run pids) with (script := (ok <$> waited) ++ [ok (-1)] ++ script); [|done|unfold N in *; lia|lia|exact Hs].
  rewrite (proj2 (Z.eqb_neq _ _)) by lia. cbn [when]. unfold mret, M_ret. rewrite Z.add_0_l, Nat2Z.id, <- Hl.
  rewrite (wait_loop_run waited ([ok (-1)] ++ script)) by done. erewrite sys_run by reflexivity. cbn [negb Z.eqb Pos.eqb when].
  unfold mret, M_ret, exit. rewrite trace_run, !after_after. eexists. by rewrite !app_assoc.
Qed.
