(* ===== verification/Sh.v ===== *)
(** The shell's parser, [sh.c]: tokens, the recursive descent that builds the
    command in the heap, and the termination of its strings.

    Pointers into the command line are offsets into the buffer. A command is
    a node of the heap: a pointer is 0 or one more than the index of the node,
    so a node that is changed after another one points to it is seen through
    both. [sh_mem] is the number of nodes that malloc can still provide; what
    the shell does with the null pointer of a failed malloc is a wild
    access. *)

From S2P Require Import Prelude Mem Block User Ulib Uniq.

Open Scope Z_scope.

Definition MAXARGS : Z := 10.

Inductive cmd :=
  | EXEC (argv eargv : list (option Z))
  | REDIR (cmd : nat) (file efile mode fd : Z)
  | PIPE (left right : nat)
  | LIST (left right : nat)
  | BACK (cmd : nat).

Record sh := MkSh {
  sh_buf : list Z;
  sh_heap : list cmd;
  sh_mem : nat;
  sh_io : uio
}.

Definition set_buf v s := MkSh v (sh_heap s) (sh_mem s) (sh_io s).
Definition set_heap v s := MkSh (sh_buf s) v (sh_mem s) (sh_io s).
Definition set_io v s := MkSh (sh_buf s) (sh_heap s) (sh_mem s) v.

Definition l_io : lens sh uio := Lens sh_io set_io.

Definition sh_printf (fd : Z) (fmt : string) (ap : list parg) : M sh unit := zoom l_io (printf fd fmt ap).

Definition sh_exit {A} : M sh A := fun s => Stop Exited s.

Definition sh_panic {A} (s : string) : M sh A :=
  sh_printf 2 ("%s" ++ nl) [pstr (lit s)] ;;
  sh_exit.
Arguments sh_panic {A} s%_string_scope.

(** ** Constructors *)

Definition node (h : list cmd) (p : nat) : option cmd :=
  match p with
  | O => None
  | S i => h !! i
  end.

(** [malloc] of a node, which is then filled in. *)
Definition new_cmd (c : cmd) : M sh nat :=
  s ← get;
  match sh_mem s with
  | O => wild
  | S n => put (MkSh (sh_buf s) (sh_heap s ++ [c]) n (sh_io s)) ;; mret (S (length (sh_heap s)))
  end.

Definition execcmd : M sh nat :=
  new_cmd (EXEC (replicate (Z.to_nat MAXARGS) None) (replicate (Z.to_nat MAXARGS) None)).
Definition redircmd (subcmd : nat) (file efile mode fd : Z) : M sh nat := new_cmd (REDIR subcmd file efile mode fd).
Definition pipecmd (left right : nat) : M sh nat := new_cmd (PIPE left right).
Definition listcmd (left right : nat) : M sh nat := new_cmd (LIST left right).
Definition backcmd (subcmd : nat) : M sh nat := new_cmd (BACK subcmd).

(** ** Tokens *)

Definition whitespace : list Z := [32; 9; 13; 10; 11; 0].
Definition symbols : list Z := lit "<|>&;()".

(** [*s] *)
Definition char_at (s : Z) : M sh Z :=
  b ← Prelude.gets sh_buf;
  match b !! Z.to_nat s with
  | Some c => if s <? 0 then wild else mret c
  | None => wild
  end.

(** Whether [strchr] finds the character. *)
Definition found (toks : list Z) (c : Z) : M sh bool :=
  r ← strchr toks c;
  mret (match r with Some _ => true | None => false end).

(** [while(s < es && strchr(whitespace, *s)) s++] *)
Fixpoint skip_white (n : nat) (s es : Z) : M sh Z :=
  match n with
  | O => out_of_fuel
  | S n =>
      if s <? es then
        c ← char_at s;
        w ← found whitespace c;
        if w : bool then skip_white n (s + 1) es else mret s
      else mret s
  end.

(** [while(s < es && !strchr(whitespace, *s) && !strchr(symbols, *s)) s++] *)
Fixpoint skip_word (n : nat) (s es : Z) : M sh Z :=
  match n with
  | O => out_of_fuel
  | S n =>
      if s <? es then
        c ← char_at s;
        w ← found whitespace c;
        if w : bool then mret s
        else
          w ← found symbols c;
          if w : bool then mret s else skip_word n (s + 1) es
      else mret s
  end.

(** Every turn of a loop over the line advances. *)
Definition line_fuel : M sh nat := Prelude.gets (fun s => S (length (sh_buf s))).

(** What [gettoken] returns and sets: the kind, [*q], [*eq] and [*ps]. *)
Record token := Token { t_ret : Z; t_q : Z; t_eq : Z; t_ps : Z }.

(** The switch on [*s]: the kind of the token and where it ends. *)
Definition gettoken_switch (n : nat) (c s es : Z) : M sh (Z * Z) :=
  if c =? 0 then mret (c, s)
  else if (c =? 124) || (c =? 40) || (c =? 41) || (c =? 59) || (c =? 38) || (c =? 60) then mret (c, s + 1)
  else if c =? 62 then
    let s := s + 1 in
    d ← char_at s;
    mret (if d =? 62 then (43, s + 1) else (c, s))
  else s ← skip_word n s es; mret (97, s).

Definition gettoken (ps es : Z) : M sh token :=
  n ← line_fuel;
  s ← skip_white n ps es;
  let q := s in
  c ← char_at s;
  r ← gettoken_switch n c s es;
  let eq := r.2 in
  s ← skip_white n eq es;
  mret (Token r.1 q eq s).

(** Whether the next character is one of [toks], and [*ps]. *)
Definition peek (ps es : Z) (toks : string) : M sh (bool * Z) :=
  n ← line_fuel;
  s ← skip_white n ps es;
  c ← char_at s;
  if c =? 0 then mret (false, s)
  else b ← found (lit toks) c; mret (b, s).
Arguments peek ps es toks%_string_scope.

(** ** Parsing *)

Fixpoint parseredirs_loop (n : nat) (cmd : nat) (ps es : Z) : M sh (nat * Z) :=
  match n with
  | O => out_of_fuel
  | S n =>
      b ← peek ps es "<>";
      if b.1 : bool then
        tok ← gettoken b.2 es;
        f ← gettoken (t_ps tok) es;
        if negb (t_ret f =? 97) then sh_panic "missing file for redirection"
        else
          cmd ← (if t_ret tok =? 60 then redircmd cmd (t_q f) (t_eq f) O_RDONLY 0
                 else if t_ret tok =? 62 then redircmd cmd (t_q f) (t_eq f) (Z.lor O_WRONLY O_CREATE) 1
                 else if t_ret tok =? 43 then redircmd cmd (t_q f) (t_eq f) (Z.lor O_WRONLY O_CREATE) 1
                 else mret cmd);
          parseredirs_loop n cmd (t_ps f) es
      else mret (cmd, b.2)
  end.

Definition parseredirs (cmd : nat) (ps es : Z) : M sh (nat * Z) :=
  n ← line_fuel;
  parseredirs_loop n cmd ps es.

(** [cmd->argv[i] = q; cmd->eargv[i] = eq] *)
Definition set_arg (cmd : nat) (i : Z) (q eq : option Z) : M sh unit :=
  s ← get;
  match cmd, node (sh_heap s) cmd with
  | S k, Some (EXEC argv eargv) =>
      if (0 <=? i) && (i <? MAXARGS) then
        put (set_heap (<[k := EXEC (<[Z.to_nat i := q]> argv) (<[Z.to_nat i := eq]> eargv)]> (sh_heap s)) s)
      else wild
  | _, _ => wild
  end.

Fixpoint parseexec_loop (n : nat) (cmd ret : nat) (argc ps es : Z) : M sh (nat * Z) :=
  match n with
  | O => out_of_fuel
  | S n =>
      b ← peek ps es "|)&;";
      if b.1 : bool then
        set_arg cmd argc None None ;; mret (ret, b.2)
      else
        tok ← gettoken b.2 es;
        if t_ret tok =? 0 then
          set_arg cmd argc None None ;; mret (ret, t_ps tok)
        else if negb (t_ret tok =? 97) then sh_panic "syntax"
        else
          set_arg cmd argc (Some (t_q tok)) (Some (t_eq tok)) ;;
          let argc := argc + 1 in
          if MAXARGS <=? argc then sh_panic "too many args"
          else
            r ← parseredirs ret (t_ps tok) es;
            parseexec_loop n cmd r.1 argc r.2 es
  end.

(** The loop of [parseline] over the ampersands. *)
Fixpoint back_loop (n : nat) (cmd : nat) (ps es : Z) : M sh (nat * Z) :=
  match n with
  | O => out_of_fuel
  | S n =>
      b ← peek ps es "&";
      if b.1 : bool then
        tok ← gettoken b.2 es;
        cmd ← backcmd cmd;
        back_loop n cmd (t_ps tok) es
      else mret (cmd, b.2)
  end.

Fixpoint parseline (n : nat) (ps es : Z) : M sh (nat * Z) :=
  match n with
  | O => out_of_fuel
  | S n =>
      r ← parsepipe n ps es;
      k ← line_fuel;
      r ← back_loop k r.1 r.2 es;
      b ← peek r.2 es ";";
      if b.1 : bool then
        tok ← gettoken b.2 es;
        r' ← parseline n (t_ps tok) es;
        cmd ← listcmd r.1 r'.1;
        mret (cmd, r'.2)
      else mret (r.1, b.2)
  end
with parsepipe (n : nat) (ps es : Z) : M sh (nat * Z) :=
  match n with
  | O => out_of_fuel
  | S n =>
      r ← parseexec n ps es;
      b ← peek r.2 es "|";
      if b.1 : bool then
        tok ← gettoken b.2 es;
        r' ← parsepipe n (t_ps tok) es;
        cmd ← pipecmd r.1 r'.1;
        mret (cmd, r'.2)
      else mret (r.1, b.2)
  end
with parseexec (n : nat) (ps es : Z) : M sh (nat * Z) :=
  match n with
  | O => out_of_fuel
  | S n =>
      b ← peek ps es "(";
      if b.1 : bool then parseblock n b.2 es
      else
        cmd ← execcmd;
        r ← parseredirs cmd b.2 es;
        k ← line_fuel;
        parseexec_loop k cmd r.1 0 r.2 es
  end
with parseblock (n : nat) (ps es : Z) : M sh (nat * Z) :=
  match n with
  | O => out_of_fuel
  | S n =>
      b ← peek ps es "(";
      if negb b.1 then sh_panic "parseblock"
      else
        tok ← gettoken b.2 es;
        r ← parseline n (t_ps tok) es;
        b ← peek r.2 es ")";
        if negb b.1 then sh_panic "syntax - missing )"
        else
          tok ← gettoken b.2 es;
          parseredirs r.1 (t_ps tok) es
  end.

(** [*p = 0] in the buffer *)
Definition put_nul (p : Z) : M sh unit :=
  b ← Prelude.gets sh_buf;
  b ← aset b p 0;
  modify (set_buf b).

(** The loop over the arguments. *)
Fixpoint nul_args (argv eargv : list (option Z)) : M sh unit :=
  match argv, eargv with
  | None :: _, _ => mret tt
  | Some _ :: argv, Some e :: eargv => put_nul e ;; nul_args argv eargv
  | _, _ => wild
  end.

Fixpoint nulterminate (n : nat) (cmd : nat) : M sh unit :=
  match n with
  | O => out_of_fuel
  | S n =>
      if Nat.eqb cmd 0 then mret tt
      else
        s ← get;
        match node (sh_heap s) cmd with
        | None => wild
        | Some (EXEC argv eargv) => nul_args argv eargv
        | Some (REDIR cmd _ efile _ _) => nulterminate n cmd ;; put_nul efile
        | Some (PIPE l r) => nulterminate n l ;; nulterminate n r
        | Some (LIST l r) => nulterminate n l ;; nulterminate n r
        | Some (BACK cmd) => nulterminate n cmd
        end
  end.

(** The functions that call one another consume a character at least every
    four calls; a node points to older nodes. *)
Definition parsecmd (s : Z) : M sh nat :=
  b ← Prelude.gets sh_buf;
  n ← strlen (drop (Z.to_nat s) b);
  let es := s + n in
  r ← parseline (4 * Z.to_nat n + 4) s es;
  p ← peek r.2 es EmptyString;
  if negb (p.2 =? es) then
    b ← Prelude.gets sh_buf;
    sh_printf 2 ("leftovers: %s" ++ nl) [pstr (drop (Z.to_nat p.2) b)] ;;
    sh_panic "syntax"
  else
    h ← Prelude.gets sh_heap;
    nulterminate (S (length h)) r.1 ;;
    mret r.1.
