(* ===== verification/Shlex.v ===== *)
(** The tokens of a command line, and how the shell's [gettoken] and [peek]
    read them. *)

From S2P Require Import Prelude Mem Block User Ulib Uniq Sh.

Open Scope Z_scope.

(** ** Tokens *)

Definition is_white (c : Z) : bool := existsb (Z.eqb c) [32; 9; 13; 10; 11].
Definition is_sym (c : Z) : bool := existsb (Z.eqb c) (chars "<|>&;()").
Definition is_word (c : Z) : bool := negb (is_white c) && negb (is_sym c).

(** A symbol, where a plus is the double [>], or a word. *)
Inductive lexeme (W : Type) :=
  | Sym (c : Z)
  | Word (w : W).
Arguments Sym {W} c.
Arguments Word {W} w.

Definition flush (w : option Z) (pos : Z) : list (lexeme (Z * Z)) :=
  match w with Some q => [Word (q, pos)] | None => [] end.

(** The tokens of a text that is at offset [pos] of the buffer, the words
    being the places where they begin and end; [w] is where the current word
    began. *)
Fixpoint lex (t : list Z) (pos : Z) (w : option Z) : list (lexeme (Z * Z)) :=
  match t with
  | [] => flush w pos
  | c :: t =>
      if is_white c then flush w pos ++ lex t (pos + 1) None
      else if c =? 62 then
        flush w pos ++
        match t with
        | [] => Sym 62 :: lex t (pos + 1) None
        | d :: t' => if d =? 62 then Sym 43 :: lex t' (pos + 1 + 1) None else Sym 62 :: lex t (pos + 1) None
        end
      else if is_sym c then flush w pos ++ Sym c :: lex t (pos + 1) None
      else lex t (pos + 1) (Some (default pos w))
  end.

(** The length of the longest prefix of such characters. *)
Fixpoint span (f : Z -> bool) (t : list Z) : nat :=
  match t with
  | [] => 0
  | c :: t => if f c then S (span f t) else 0
  end.

Lemma span_le f t : (span f t <= length t)%nat.
Proof. induction t as [|c t IH]; cbn; [lia|]. case_match; lia. Qed.

Lemma drop_span_head f t c t' : drop (span f t) t = c :: t' -> f c = false.
Proof. induction t as [|x t IH]; cbn; [done|]. destruct (f x) eqn:E; [done|]. cbn. by intros [= <- <-]. Qed.

Lemma take_span f t : Forall (fun c => f c = true) (take (span f t) t).
Proof. induction t as [|c t IH]; cbn; [constructor|]. destruct (f c) eqn:E; cbn; by constructor. Qed.

Lemma lex_white t pos : lex t pos None = lex (drop (span is_white t) t) (pos + Z.of_nat (span is_white t)) None.
Proof.
  revert pos; induction t as [|c t IH]; intros pos; cbn [span drop]; [done|].
  destruct (is_white c) eqn:E; cbn [drop]; [|by rewrite Z.add_0_r].
  cbn [lex]. rewrite E. cbn [flush app]. rewrite IH. f_equal. lia.
Qed.

Lemma is_word_62 c : is_word c = true -> c <> 62.
Proof. by intros H ->. Qed.

Lemma lex_word t : forall pos q,
  lex t pos (Some q) = Word (q, pos + Z.of_nat (span is_word t)) :: lex (drop (span is_word t) t) (pos + Z.of_nat (span is_word t)) None.
Proof.
  induction t as [|c t IH]; intros pos q; cbn [span drop]; [by rewrite Z.add_0_r|].
  destruct (is_word c) eqn:E; cbn [drop].
  - cbn [lex]. rewrite (proj2 (Z.eqb_neq c 62)) by (by apply is_word_62). unfold is_word in E.
    destruct (is_white c), (is_sym c); try done. cbn [default id]. rewrite IH, Nat2Z.inj_succ.
    by replace (pos + 1 + Z.of_nat (span is_word t)) with (pos + Z.succ (Z.of_nat (span is_word t))) by lia.
  - rewrite Z.add_0_r. cbn [lex flush app]. unfold is_word in E. destruct (is_white c); [done|].
    destruct (c =? 62); [done|]. by destruct (is_sym c).
Qed.

(** The first token of a text that begins with a symbol or a word. *)
Lemma lex_head c t pos :
  is_white c = false ->
  lex (c :: t) pos None =
  if c =? 62 then
    match t with
    | [] => Sym 62 :: lex t (pos + 1) None
    | d :: t' => if d =? 62 then Sym 43 :: lex t' (pos + 1 + 1) None else Sym 62 :: lex t (pos + 1) None
    end
  else if is_sym c then Sym c :: lex t (pos + 1) None
  else let k := span is_word (c :: t) in
       Word (pos, pos + Z.of_nat k) :: lex (drop k (c :: t)) (pos + Z.of_nat k) None.
Proof.
  intros Hw. cbn [lex]. rewrite Hw. cbn [flush app]. destruct (c =? 62) eqn:E; [done|]. destruct (is_sym c) eqn:Es; [done|].
  cbn [default]. rewrite lex_word. cbn zeta.
  assert (Hc : is_word c = true) by (unfold is_word; by rewrite Hw, Es).
  cbn [span]. rewrite Hc, Nat2Z.inj_succ. cbn [drop].
  by replace (pos + 1 + Z.of_nat (span is_word t)) with (pos + Z.succ (Z.of_nat (span is_word t))) by lia.
Qed.

Lemma lex_head_ne c t pos : is_white c = false -> lex (c :: t) pos None <> [].
Proof.
  intros Hw Hl. rewrite lex_head in Hl by done.
  repeat match type of Hl with context [if ?b then _ else _] => destruct b end; try done. destruct t; [done|]. by destruct (_ =? 62).
Qed.

(** ** Reading the buffer *)

Lemma found_run l c (s : sh) :
  Forall (fun c => c <> 0) l -> found (l ++ [0]) c s = Ret (existsb (Z.eqb c) l) s.
Proof.
  intros Hl. unfold found, strchr. generalize 0 at 2. induction Hl as [|x l Hx Hl IH]; intros n; [done|].
  cbn [app strchr_loop existsb]. rewrite (proj2 (Z.eqb_neq x 0) Hx), (Z.eqb_sym c x). destruct (x =? c); [done|]. apply IH.
Qed.

Lemma found_white c s : found whitespace c s = Ret (is_white c) s.
Proof. apply (found_run [32; 9; 13; 10; 11]). by repeat constructor. Qed.

Lemma found_symbols c s : found symbols c s = Ret (is_sym c) s.
Proof. apply (found_run (chars "<|>&;()")). by repeat constructor. Qed.

(** Whether the first token begins with one of these characters. *)
Definition starts {W} (toks : string) (ts : list (lexeme W)) : bool :=
  match ts with
  | Sym c :: _ => existsb (Z.eqb (if c =? 43 then 62 else c)) (chars toks)
  | _ => false
  end.
Arguments starts {W} toks%_string_scope ts.

(** What [gettoken] returns for a token. *)
Definition kind {W} (t : lexeme W) : Z :=
  match t with Sym c => c | Word _ => 97 end.

Definition tok_ok {W} (t : lexeme W) : Prop :=
  match t with Sym c => is_sym c = true \/ c = 43 | Word _ => True end.

Lemma lex_ok t : forall pos w, Forall tok_ok (lex t pos w).
Proof.
  assert (Hf : forall w pos, Forall tok_ok (flush w pos)) by (intros [q|] pos; repeat constructor).
  remember (length t) as n eqn:Hn. assert (Hle : (length t <= n)%nat) by lia. clear Hn. revert t Hle.
  induction n as [|n IH]; intros t Hle pos w; (destruct t as [|c t]; [apply Hf|]); cbn [length] in Hle; [lia|]. cbn [lex].
  destruct (is_white c); [apply Forall_app; split; [apply Hf|apply IH; lia]|].
  destruct (c =? 62); [|destruct (is_sym c) eqn:Es; [|apply IH; lia]].
  - apply Forall_app. split; [apply Hf|]. destruct t as [|d t]; [repeat constructor|].
    destruct (d =? 62); constructor; [by right| |by left|]; apply IH; cbn [length] in *; lia.
  - apply Forall_app. split; [apply Hf|]. constructor; [by left|apply IH; lia].
Qed.

Lemma lex_length t : forall pos w, (length (lex t pos w) <= length t + length (flush w pos))%nat.
Proof.
  remember (length t) as n eqn:Hn. assert (Hle : (length t <= n)%nat) by lia. rewrite Hn. clear Hn. revert t Hle.
  induction n as [|n IH]; intros t Hle pos w; (destruct t as [|c t]; [done|]); cbn [length] in Hle; [lia|]. cbn [lex length].
  assert (HN : forall t', (length t' <= n)%nat -> forall pos, (length (lex t' pos None) <= length t')%nat).
  { intros t' Ht' pos'. pose proof (IH t' Ht' pos' None) as H. cbn in H. lia. }
  destruct (is_white c); [rewrite length_app; specialize (HN t ltac:(lia) (pos + 1)); lia|].
  destruct (c =? 62); [|destruct (is_sym c)].
  - rewrite length_app. pose proof (HN t ltac:(lia) (pos + 1)). destruct t as [|d t]; [cbn; lia|]. cbn [length] in *.
    destruct (d =? 62); cbn [length]; [|cbn [length] in *; lia]. pose proof (HN t ltac:(lia) (pos + 1 + 1)). lia.
  - rewrite length_app. pose proof (HN t ltac:(lia) (pos + 1)). cbn [length]. lia.
  - pose proof (IH t ltac:(lia) (pos + 1) (Some (default pos w))) as H. destruct w; cbn in *; lia.
Qed.

Lemma drop_tail (t : list Z) n c t' : drop n t = c :: t' -> drop (S n) t = t'.
Proof. intros H. by rewrite <- Nat.add_1_r, <- drop_drop, H. Qed.

Section reading.
Variable (text junk : list Z).
Hypothesis Htext : Forall (fun c => c <> 0) text.
Let es : Z := Z.of_nat (length text).

Definition on_line (s : sh) : Prop := sh_buf s = text ++ 0 :: junk.

(** At [ps], the tokens that are left are [ts]. *)
Definition at_toks (ps : Z) (ts : list (lexeme (Z * Z))) : Prop :=
  exists n, ps = Z.of_nat n /\ (n <= length text)%nat /\ lex (drop n text) ps None = ts.

Lemma at_toks_length ps ts : at_toks ps ts -> (length ts <= length text)%nat.
Proof.
  intros (n & _ & _ & <-). pose proof (lex_length (drop n text) ps None) as H. rewrite length_drop in H. cbn in H. lia.
Qed.

Lemma at_toks_ok ps ts : at_toks ps ts -> Forall tok_ok ts.
Proof. intros (n & _ & _ & <-). apply lex_ok. Qed.

Lemma char_at_run s n :
  on_line s -> (n <= length text)%nat -> char_at (Z.of_nat n) s = Ret (default 0 (drop n text !! 0%nat)) s.
Proof.
  intros Hs Hn. unfold char_at, Prelude.gets, mbind, M_bind. rewrite Hs, Nat2Z.id, lookup_drop, Nat.add_0_r.
  rewrite (proj2 (Z.ltb_ge _ _)) by lia. destruct (decide (n = length text)) as [->|].
  - rewrite lookup_app_r, Nat.sub_diag, (lookup_ge_None_2 text) by lia. done.
  - rewrite lookup_app_l by lia. destruct (lookup_lt_is_Some_2 text n) as [c ->]; [lia|done].
Qed.

Lemma skip_white_run s fuel : forall n,
  on_line s -> (n <= length text)%nat -> (length text - n < fuel)%nat ->
  skip_white fuel (Z.of_nat n) es s = Ret (Z.of_nat (n + span is_white (drop n text))) s.
Proof.
  induction fuel as [|fuel IH]; intros n Hs Hn Hf; [lia|]. cbn [skip_white]. unfold es. destruct (Z.ltb_spec (Z.of_nat n) (Z.of_nat (length text))).
  - unfold mbind, M_bind. rewrite char_at_run, found_white by done.
    destruct (drop n text) as [|c t] eqn:Hd; [apply (f_equal length) in Hd; rewrite length_drop in Hd; cbn in Hd; lia|].
    cbn [lookup list_lookup default id span]. destruct (is_white c); [|by rewrite Nat.add_0_r].
    replace (Z.of_nat n + 1) with (Z.of_nat (S n)) by lia. unfold es in IH. rewrite IH by (done || lia).
    rewrite (drop_tail text n c t Hd). do 2 f_equal. lia.
  - rewrite drop_ge by lia. cbn. by rewrite Nat.add_0_r.
Qed.

Lemma skip_word_run s fuel : forall n,
  on_line s -> (n <= length text)%nat -> (length text - n < fuel)%nat ->
  skip_word fuel (Z.of_nat n) es s = Ret (Z.of_nat (n + span is_word (drop n text))) s.
Proof.
  induction fuel as [|fuel IH]; intros n Hs Hn Hf; [lia|]. cbn [skip_word]. unfold es. destruct (Z.ltb_spec (Z.of_nat n) (Z.of_nat (length text))).
  - unfold mbind, M_bind. rewrite char_at_run, found_white by done.
    destruct (drop n text) as [|c t] eqn:Hd; [apply (f_equal length) in Hd; rewrite length_drop in Hd; cbn in Hd; lia|].
    cbn [lookup list_lookup default id span]. change (is_word c) with (negb (is_white c) && negb (is_sym c)).
    destruct (is_white c); cbn [negb andb]; [by rewrite Nat.add_0_r|]. rewrite found_symbols.
    destruct (is_sym c); cbn [negb andb]; [by rewrite Nat.add_0_r|].
    replace (Z.of_nat n + 1) with (Z.of_nat (S n)) by lia. unfold es in IH. rewrite IH by (done || lia).
    rewrite (drop_tail text n c t Hd). do 2 f_equal. lia.
  - rewrite drop_ge by lia. cbn. by rewrite Nat.add_0_r.
Qed.

Lemma line_fuel_run s : on_line s -> line_fuel s = Ret (S (length text + S (length junk))) s.
Proof. intros Hs. unfold line_fuel, Prelude.gets. by rewrite Hs, length_app. Qed.

(** White space before a token changes nothing. *)
Lemma at_white ps ts s :
  on_line s -> at_toks ps ts ->
  exists n, skip_white (S (length text + S (length junk))) ps es s = Ret (Z.of_nat n) s /\ (n <= length text)%nat /\
    lex (drop n text) (Z.of_nat n) None = ts /\ (forall c t, drop n text = c :: t -> is_white c = false).
Proof.
  intros Hs (n & -> & Hn & Hl). pose proof (span_le is_white (drop n text)) as Hsp. rewrite length_drop in Hsp.
  exists (n + span is_white (drop n text))%nat. split_and!.
  - apply skip_white_run; [done|done|lia].
  - lia.
  - rewrite <- Hl, (lex_white (drop n text)), drop_drop. f_equal. lia.
  - intros c t. rewrite <- drop_drop. apply drop_span_head.
Qed.

Lemma drop_nil_all n : (n <= length text)%nat -> drop n text = [] -> n = length text.
Proof. intros Hn H. apply (f_equal length) in H. rewrite length_drop in H. cbn in H. lia. Qed.

Lemma drop_cons_char n c t : drop n text = c :: t -> c <> 0 /\ (n < length text)%nat /\ drop (S n) text = t.
Proof.
  intros H. split_and!.
  - pose proof (Forall_drop _ n _ Htext) as Hf. rewrite H in Hf. by apply Forall_cons in Hf as [? _].
  - apply (f_equal length) in H. rewrite length_drop in H. cbn in H. lia.
  - by eapply drop_tail.
Qed.

(** The symbols that [peek] looks for. *)
Definition only_syms (toks : string) : Prop := Forall (fun c => is_sym c = true) (chars toks).

Lemma starts_head toks c t pos :
  only_syms toks -> is_white c = false -> starts toks (lex (c :: t) pos None) = existsb (Z.eqb c) (chars toks).
Proof.
  intros Ht Hw. rewrite lex_head by done. destruct (Z.eqb_spec c 62) as [->|].
  { destruct t as [|d t]; [done|]. by destruct (d =? 62). }
  destruct (is_sym c) eqn:Es; cbn [starts].
  - destruct (Z.eqb_spec c 43) as [->|]; done.
  - symmetry. apply not_true_is_false. intros (x & Hx & <-%Z.eqb_eq)%existsb_exists.
    unfold only_syms in Ht. rewrite Forall_forall in Ht. apply list_elem_of_In, Ht in Hx. congruence.
Qed.

Lemma wpe_peek {B} ps ts toks s (k : bool * Z -> M sh B) Q E :
  on_line s -> at_toks ps ts -> only_syms toks ->
  (forall ps', at_toks ps' ts -> (ts = [] -> ps' = es) -> wpe (k (starts toks ts, ps')) s Q E) ->
  wpe (b ← peek ps es toks; k b) s Q E.
Proof.
  intros Hs Hat Ht Hk. destruct (at_white ps ts s Hs Hat) as (n & Hrun & Hn & Hl & Hw).
  unfold wpe, peek, mbind, M_bind. rewrite line_fuel_run, Hrun, char_at_run by done.
  assert (Hps : at_toks (Z.of_nat n) ts) by (by exists n).
  destruct (drop n text) as [|c t] eqn:Hd; cbn [lookup list_lookup default id Z.eqb].
  - cbn [lex flush] in Hl. subst ts. apply (Hk (Z.of_nat n)); [done|]. intros _. by apply drop_nil_all in Hd as ->.
  - destruct (drop_cons_char n c t Hd) as (Hc & Hlt & _). rewrite (proj2 (Z.eqb_neq c 0) Hc).
    unfold lit. rewrite found_run.
    2: { eapply Forall_impl; [exact Ht|]. cbv beta. by intros x Hx ->. }
    rewrite <- (starts_head toks c t (Z.of_nat n)), Hl by (done || eauto). apply (Hk (Z.of_nat n)); [done|].
    intros ->. by apply lex_head_ne in Hl; [|eauto].
Qed.

Lemma sym_cases c : is_sym c = true -> c <> 62 -> (c =? 124) || (c =? 40) || (c =? 41) || (c =? 59) || (c =? 38) || (c =? 60) = true.
Proof. unfold is_sym. change (chars "<|>&;()") with [60; 124; 62; 38; 59; 40; 41]. cbn [existsb]. clear. lia. Qed.

Lemma not_sym_cases c : is_sym c = false -> (c =? 124) || (c =? 40) || (c =? 41) || (c =? 59) || (c =? 38) || (c =? 60) = false.
Proof. unfold is_sym. change (chars "<|>&;()") with [60; 124; 62; 38; 59; 40; 41]. cbn [existsb]. clear. lia. Qed.

Lemma gettoken_switch_run n c t tk ts s :
  on_line s -> drop n text = c :: t -> is_white c = false -> lex (drop n text) (Z.of_nat n) None = tk :: ts ->
  exists m, gettoken_switch (S (length text + S (length junk))) c (Z.of_nat n) es s = Ret (kind tk, Z.of_nat m) s /\
    at_toks (Z.of_nat m) ts /\ (forall q e, tk = Word (q, e) -> q = Z.of_nat n /\ e = Z.of_nat m).
Proof.
  intros Hs Hd Hw Hl. destruct (drop_cons_char n c t Hd) as (Hc & Hlt & Ht). unfold gettoken_switch.
  rewrite (proj2 (Z.eqb_neq c 0) Hc). rewrite Hd, lex_head in Hl by done.
  replace (Z.of_nat n + 1) with (Z.of_nat (S n)) in * by lia.
  destruct (Z.eqb_spec c 62) as [->|H62].
  - cbn [Z.eqb Pos.eqb orb]. unfold mbind, M_bind. rewrite char_at_run, Ht by (done || lia).
    destruct t as [|d t]; cbn [lookup list_lookup default id Z.eqb].
    { injection Hl as <- <-. exists (S n). split_and!; [done| |done]. exists (S n). split_and!; [done|lia|by rewrite Ht]. }
    destruct (drop_cons_char (S n) d t Ht) as (_ & Hlt' & Ht'). destruct (d =? 62); injection Hl as <- <-.
    + exists (S (S n)). split_and!; [unfold mret, M_ret; do 2 f_equal; lia| |done]. exists (S (S n)). split_and!; [done|lia|].
      rewrite Ht'. f_equal. lia.
    + exists (S n). split_and!; [done| |done]. exists (S n). split_and!; [done|lia|by rewrite Ht].
  - destruct (is_sym c) eqn:Es.
    + rewrite sym_cases by done. injection Hl as <- <-. exists (S n). split_and!; [done| |done].
      exists (S n). split_and!; [done|lia|by rewrite Ht].
    + rewrite not_sym_cases by done. rewrite <- Hd in Hl. cbn zeta in Hl.
      apply (f_equal (fun l => (hd tk l, tl l))) in Hl. cbn [hd tl] in Hl. apply pair_equal_spec in Hl as [<- <-].
      pose proof (span_le is_word (drop n text)) as Hsp. rewrite length_drop in Hsp.
      exists (n + span is_word (drop n text))%nat. unfold mbind, M_bind. rewrite skip_word_run by (done || lia). split_and!; [done| |].
      * exists (n + span is_word (drop n text))%nat. split_and!; [done|lia|]. rewrite drop_drop. f_equal. lia.
      * intros q e Hqe. apply (f_equal (fun x => match x with Word w => w | Sym _ => (0, 0) end)) in Hqe.
        apply pair_equal_spec in Hqe as [<- <-]. split; lia.
Qed.

Lemma wpe_gettoken {B} ps tk ts s (k : token -> M sh B) Q E :
  on_line s -> at_toks ps (tk :: ts) ->
  (forall tok, t_ret tok = kind tk -> (forall q e, tk = Word (q, e) -> t_q tok = q /\ t_eq tok = e) ->
     at_toks (t_ps tok) ts -> wpe (k tok) s Q E) ->
  wpe (tok ← gettoken ps es; k tok) s Q E.
Proof.
  intros Hs Hat Hk. destruct (at_white ps _ s Hs Hat) as (n & Hrun & Hn & Hl & Hw).
  unfold wpe, gettoken, mbind, M_bind. rewrite line_fuel_run, Hrun, char_at_run by done.
  destruct (drop n text) as [|c t] eqn:Hd; [done|]. cbn [lookup list_lookup default id]. rewrite <- Hd in Hl.
  destruct (gettoken_switch_run n c t tk ts s Hs Hd (Hw _ _ eq_refl) Hl) as (m & -> & Hm & Hqe). cbn [fst snd].
  destruct (at_white _ _ s Hs Hm) as (n' & -> & Hn' & Hl' & _).
  apply Hk; cbn; [done| |by exists n']. intros q e Hqe'. destruct (Hqe _ _ Hqe') as [-> ->]. done.
Qed.

Lemma wpe_gettoken_end {B} ps s (k : token -> M sh B) Q E :
  on_line s -> at_toks ps [] -> (at_toks es [] -> wpe (k (Token 0 es es es)) s Q E) ->
  wpe (tok ← gettoken ps es; k tok) s Q E.
Proof.
  intros Hs Hat Hk. destruct (at_white ps _ s Hs Hat) as (n & Hrun & Hn & Hl & Hw).
  assert (Hd : drop n text = []).
  { destruct (drop n text) as [|c t]; [done|]. by apply lex_head_ne in Hl; [|eauto]. }
  pose proof (drop_nil_all n Hn Hd) as ->.
  unfold wpe, gettoken, mbind, M_bind. rewrite line_fuel_run, Hrun, char_at_run, Hd by done.
  cbn [lookup list_lookup default id]. unfold gettoken_switch. cbn [Z.eqb]. unfold mret, M_ret. cbn [fst snd].
  rewrite skip_white_run, Hd by (done || lia). cbn [span]. rewrite Nat.add_0_r. apply Hk. exists (length text). by rewrite Hd.
Qed.

End reading.
