(* ===== verification/Shgram.v ===== *)
(** The grammar of the shell's commands: a parser of tokens that mirrors the
    recursive descent of [sh.c], and the language it accepts. *)

From S2P Require Import Prelude Mem Block User Ulib Uniq Sh Shlex.

Open Scope Z_scope.

(** The command that a line means; a redirection carries its symbol. *)
Inductive tree (W : Type) :=
  | TExec (args : list W)
  | TRedir (t : tree W) (file : W) (c : Z)
  | TPipe (l r : tree W)
  | TList (l r : tree W)
  | TBack (t : tree W).
Arguments TExec {W} args.
Arguments TRedir {W} t file c.
Arguments TPipe {W} l r.
Arguments TList {W} l r.
Arguments TBack {W} t.

Definition is_redir (c : Z) : bool := (c =? 60) || (c =? 62) || (c =? 43).
Definition redir_mode (c : Z) : Z := if c =? 60 then O_RDONLY else Z.lor O_WRONLY O_CREATE.
Definition redir_fd (c : Z) : Z := if c =? 60 then 0 else 1.

(** The redirections of a command, the last one outermost. *)
Definition wrap {W} (rs : list (Z * W)) (t : tree W) : tree W := foldl (fun t r => TRedir t r.2 r.1) t rs.

(** A result with the tokens that are left, a syntax error with its message,
    or too little fuel. *)
Inductive pres (W A : Type) :=
  | POk (a : A) (ts : list (lexeme W))
  | PErr (msg : string)
  | PFuel.
Arguments POk {W A} a ts.
Arguments PErr {W A} msg%_string_scope.
Arguments PFuel {W A}.

Definition pbind {W A B} (r : pres W A) (f : A -> list (lexeme W) -> pres W B) : pres W B :=
  match r with
  | POk a ts => f a ts
  | PErr msg => PErr msg
  | PFuel => PFuel
  end.

Section parser.
Context {W : Type}.
Implicit Types (ts : list (lexeme W)) (t : tree W).

Fixpoint p_redirs ts (rs : list (Z * W)) : pres W (list (Z * W)) :=
  match ts with
  | Sym c :: ts' =>
      if is_redir c then
        match ts' with
        | Word w :: ts'' => p_redirs ts'' (rs ++ [(c, w)])
        | _ => PErr "missing file for redirection"
        end
      else POk rs ts
  | _ => POk rs ts
  end.

Fixpoint p_args (n : nat) ts (args : list W) (rs : list (Z * W)) : pres W (list W * list (Z * W)) :=
  match n with
  | O => PFuel
  | S n =>
      match ts with
      | [] => POk (args, rs) []
      | Sym c :: ts' => if starts "|)&;" ts then POk (args, rs) ts else PErr "syntax"
      | Word w :: ts' =>
          if MAXARGS <=? Z.of_nat (length args) + 1 then PErr "too many args"
          else pbind (p_redirs ts' rs) (fun rs ts'' => p_args n ts'' (args ++ [w]) rs)
      end
  end.

Fixpoint p_amps ts t : tree W * list (lexeme W) :=
  match ts with
  | Sym c :: ts' => if c =? 38 then p_amps ts' (TBack t) else (t, ts)
  | _ => (t, ts)
  end.

Fixpoint p_line (n : nat) ts : pres W (tree W) :=
  match n with
  | O => PFuel
  | S n =>
      pbind (p_pipe n ts) (fun t ts =>
        let r := p_amps ts t in
        if starts ";" r.2 then pbind (p_line n (tail r.2)) (fun t' ts => POk (TList r.1 t') ts)
        else POk r.1 r.2)
  end
with p_pipe (n : nat) ts : pres W (tree W) :=
  match n with
  | O => PFuel
  | S n =>
      pbind (p_exec n ts) (fun t ts =>
        if starts "|" ts then pbind (p_pipe n (tail ts)) (fun t' ts => POk (TPipe t t') ts)
        else POk t ts)
  end
with p_exec (n : nat) ts : pres W (tree W) :=
  match n with
  | O => PFuel
  | S n =>
      if starts "(" ts then p_block n ts
      else
        let k := S (length ts) in
        pbind (p_redirs ts []) (fun rs ts =>
          pbind (p_args k ts [] rs) (fun r ts => POk (wrap r.2 (TExec r.1)) ts))
  end
with p_block (n : nat) ts : pres W (tree W) :=
  match n with
  | O => PFuel
  | S n =>
      pbind (p_line n (tail ts)) (fun t ts =>
        if starts ")" ts then pbind (p_redirs (tail ts) []) (fun rs ts => POk (wrap rs t) ts)
        else PErr "syntax - missing )")
  end.

End parser.

(** ** The grammar *)

Inductive item (W : Type) :=
  | Arg (w : W)
  | Redir (c : Z) (w : W).
Arguments Arg {W} w.
Arguments Redir {W} c w.

(** [LEnd p n] is a pipeline and [n] ampersands. *)
Inductive line (W : Type) :=
  | LEnd (p : pipeline W) (n : nat)
  | LSeq (p : pipeline W) (n : nat) (l : line W)
with pipeline (W : Type) :=
  | PEnd (c : command W)
  | PBar (c : command W) (p : pipeline W)
with command (W : Type) :=
  | Simple (its : list (item W))
  | Group (l : line W) (rs : list (Z * W)).
Arguments LEnd {W} p n.
Arguments LSeq {W} p n l.
Arguments PEnd {W} c.
Arguments PBar {W} c p.
Arguments Simple {W} its.
Arguments Group {W} l rs.

Section grammar.
Context {W : Type}.

Definition item_toks (i : item W) : list (lexeme W) :=
  match i with Arg w => [Word w] | Redir c w => [Sym c; Word w] end.
Definition redir_toks (r : Z * W) : list (lexeme W) := [Sym r.1; Word r.2].
Definition item_arg (i : item W) : list W := match i with Arg w => [w] | Redir _ _ => [] end.
Definition item_redir (i : item W) : list (Z * W) := match i with Arg _ => [] | Redir c w => [(c, w)] end.

Fixpoint toks_line (l : line W) : list (lexeme W) :=
  match l with
  | LEnd p n => toks_pipe p ++ replicate n (Sym 38)
  | LSeq p n l => toks_pipe p ++ replicate n (Sym 38) ++ Sym 59 :: toks_line l
  end
with toks_pipe (p : pipeline W) : list (lexeme W) :=
  match p with
  | PEnd c => toks_command c
  | PBar c p => toks_command c ++ Sym 124 :: toks_pipe p
  end
with toks_command (c : command W) : list (lexeme W) :=
  match c with
  | Simple its => its ≫= item_toks
  | Group l rs => Sym 40 :: toks_line l ++ Sym 41 :: (rs ≫= redir_toks)
  end.

Fixpoint tree_line (l : line W) : tree W :=
  match l with
  | LEnd p n => Nat.iter n TBack (tree_pipe p)
  | LSeq p n l => TList (Nat.iter n TBack (tree_pipe p)) (tree_line l)
  end
with tree_pipe (p : pipeline W) : tree W :=
  match p with
  | PEnd c => tree_command c
  | PBar c p => TPipe (tree_command c) (tree_pipe p)
  end
with tree_command (c : command W) : tree W :=
  match c with
  | Simple its => wrap (its ≫= item_redir) (TExec (its ≫= item_arg))
  | Group l rs => wrap rs (tree_line l)
  end.

(** Few enough arguments, and redirection symbols where they belong. *)
Definition item_ok (i : item W) : Prop := match i with Arg _ => True | Redir c _ => is_redir c = true end.

Fixpoint line_ok (l : line W) : Prop :=
  match l with
  | LEnd p _ => pipe_ok p
  | LSeq p _ l => pipe_ok p /\ line_ok l
  end
with pipe_ok (p : pipeline W) : Prop :=
  match p with
  | PEnd c => command_ok c
  | PBar c p => command_ok c /\ pipe_ok p
  end
with command_ok (c : command W) : Prop :=
  match c with
  | Simple its => Forall item_ok its /\ Z.of_nat (length (its ≫= item_arg)) < MAXARGS
  | Group l rs => line_ok l /\ Forall (fun r => is_redir r.1 = true) rs
  end.

End grammar.

(** ** What is accepted is in the language *)

Section accepted.
Context {W : Type}.
Implicit Types (ts : list (lexeme W)) (t : tree W).

Lemma starts_sym c toks ts :
  starts toks ts = true -> chars toks = [c] -> c <> 62 -> exists ts', ts = Sym c :: ts'.
Proof.
  destruct ts as [|[d|w] ts]; cbn [starts]; [done| |done]. intros H Hc H62. rewrite Hc in H. cbn [existsb] in H.
  exists ts. do 2 f_equal. case_match; lia.
Qed.

Lemma p_redirs_sound ts : forall rs rs' ts',
  p_redirs ts rs = POk rs' ts' ->
  exists new, rs' = rs ++ new /\ ts = (new ≫= redir_toks) ++ ts' /\ Forall (fun r => is_redir r.1 = true) new.
Proof.
  remember (length ts) as n eqn:Hn. assert (Hle : (length ts <= n)%nat) by lia. clear Hn. revert ts Hle.
  induction n as [|n IH]; intros ts Hle rs rs' ts' H.
  all: destruct ts as [|[c|w] ts]; cbn [p_redirs length] in *; try lia.
  all: try (injection H as <- <-; exists []; rewrite app_nil_r; by split_and!).
  destruct (is_redir c) eqn:Hc; [|injection H as <- <-; exists []; rewrite app_nil_r; by split_and!].
  destruct ts as [|[d|w] ts]; [done..|]. cbn [length] in Hle.
  destruct (IH ts ltac:(lia) _ _ _ H) as (new & -> & -> & Hnew). exists ((c, w) :: new).
  split_and!; [by rewrite <- app_assoc|done|by constructor].
Qed.

Definition redir_item (r : Z * W) : item W := Redir r.1 r.2.

Lemma redir_items (new : list (Z * W)) :
  Forall (fun r => is_redir r.1 = true) new ->
  (redir_item <$> new) ≫= item_arg = [] /\ (redir_item <$> new) ≫= item_redir = new /\
  (redir_item <$> new) ≫= item_toks = new ≫= redir_toks /\ Forall item_ok (redir_item <$> new).
Proof.
  induction 1 as [|[c w] new Hc _ (IHa & IHr & IHt & IHok)]; [done|]. cbn [fmap list_fmap mbind list_bind] in *.
  rewrite IHa, IHr, IHt. by split_and!; [..|constructor].
Qed.

Lemma p_args_sound n : forall ts args rs args' rs' ts',
  p_args n ts args rs = POk (args', rs') ts' -> Z.of_nat (length args) < MAXARGS ->
  exists its, args' = args ++ (its ≫= item_arg) /\ rs' = rs ++ (its ≫= item_redir) /\ ts = (its ≫= item_toks) ++ ts' /\
    Forall item_ok its /\ Z.of_nat (length args') < MAXARGS.
Proof.
  induction n as [|n IH]; intros ts args rs args' rs' ts' H Hlen; cbn [p_args] in H; [done|].
  destruct ts as [|[c|w] ts].
  - injection H as <- <- <-. exists []. rewrite !app_nil_r. by split_and!.
  - destruct (starts _ _); [|done]. injection H as <- <- <-. exists []. rewrite !app_nil_r. by split_and!.
  - destruct (Z.leb_spec MAXARGS (Z.of_nat (length args) + 1)); [done|].
    destruct (p_redirs ts rs) as [rs1 ts1| |] eqn:Hr; cbn [pbind] in H; try done.
    destruct (p_redirs_sound _ _ _ _ Hr) as (new & -> & -> & Hnew).
    destruct (IH _ _ _ _ _ _ H) as (its & -> & -> & -> & Hok & Hl); [rewrite length_app; cbn; lia|].
    destruct (redir_items new Hnew) as (Ea & Er & Et & Hit). exists (Arg w :: (redir_item <$> new) ++ its).
    cbn [mbind list_bind]. rewrite !bind_app, Ea, Er, Et. cbn [app item_arg item_redir item_toks].
    split_and!; [by rewrite <- app_assoc..|by rewrite <- app_assoc| |done]. constructor; [done|]. by apply Forall_app.
Qed.

Lemma p_amps_sound ts : forall t,
  exists n, ts = replicate n (Sym 38) ++ (p_amps ts t).2 /\ (p_amps ts t).1 = Nat.iter n TBack t.
Proof.
  induction ts as [|[c|w] ts IH]; intros t; cbn [p_amps]; [by exists 0%nat| |by exists 0%nat].
  destruct (Z.eqb_spec c 38) as [->|]; [|by exists 0%nat]. destruct (IH (TBack t)) as (n & Hts & Ht). exists (S n).
  split; [cbn [replicate app]; by rewrite <- Hts|]. by rewrite Ht, Nat.iter_succ_r.
Qed.

Lemma p_sound n :
  (forall ts t ts', p_line n ts = POk t ts' -> exists l, line_ok l /\ ts = toks_line l ++ ts' /\ t = tree_line l) /\
  (forall ts t ts', p_pipe n ts = POk t ts' -> exists p, pipe_ok p /\ ts = toks_pipe p ++ ts' /\ t = tree_pipe p) /\
  (forall ts t ts', p_exec n ts = POk t ts' -> exists c, command_ok c /\ ts = toks_command c ++ ts' /\ t = tree_command c) /\
  (forall ts t ts', p_block n (Sym 40 :: ts) = POk t ts' ->
     exists c, command_ok c /\ Sym 40 :: ts = toks_command c ++ ts' /\ t = tree_command c).
Proof.
  induction n as [|n (IHl & IHp & IHe & IHb)]; [done|]. split_and!; intros ts t ts' H.
  - cbn [p_line] in H. destruct (p_pipe n ts) as [t1 ts1| |] eqn:Hp; cbn [pbind] in H; try done.
    destruct (IHp _ _ _ Hp) as (p & Hok & -> & ->). destruct (p_amps_sound ts1 (tree_pipe p)) as (k & Hts & Ht).
    rewrite Ht in H. destruct (starts ";" _) eqn:Hs.
    + destruct (starts_sym 59 _ _ Hs eq_refl ltac:(lia)) as [ts2 Hts2]. rewrite Hts2 in *. cbn [tail] in H.
      destruct (p_line n ts2) as [t2 ts3| |] eqn:Hl; cbn [pbind] in H; try done. injection H as <- <-.
      destruct (IHl _ _ _ Hl) as (l & Hok' & -> & ->). exists (LSeq p k l). split_and!; [done| |done].
      cbn [toks_line]. rewrite Hts, <- !app_assoc. done.
    + injection H as <- <-. exists (LEnd p k). split_and!; [done| |done]. cbn [toks_line]. by rewrite <- app_assoc, <- Hts.
  - cbn [p_pipe] in H. destruct (p_exec n ts) as [t1 ts1| |] eqn:Hp; cbn [pbind] in H; try done.
    destruct (IHe _ _ _ Hp) as (c & Hok & -> & ->). destruct (starts "|" _) eqn:Hs.
    + destruct (starts_sym 124 _ _ Hs eq_refl ltac:(lia)) as [ts2 ->]. cbn [tail] in H.
      destruct (p_pipe n ts2) as [t2 ts3| |] eqn:Hl; cbn [pbind] in H; try done. injection H as <- <-.
      destruct (IHp _ _ _ Hl) as (l & Hok' & -> & ->). exists (PBar c l). split_and!; [done| |done].
      cbn [toks_pipe]. rewrite <- !app_assoc. done.
    + injection H as <- <-. by exists (PEnd c).
  - cbn [p_exec] in H. destruct (starts "(" ts) eqn:Hs.
    + destruct (starts_sym 40 _ _ Hs eq_refl ltac:(lia)) as [ts2 ->]. by apply IHb.
    + destruct (p_redirs ts []) as [rs ts1| |] eqn:Hr; cbn [pbind] in H; try done.
      destruct (p_args _ _ _ _) as [[args rs'] ts2| |] eqn:Ha; cbn [pbind fst snd] in H; try done. injection H as <- <-.
      destruct (p_redirs_sound _ _ _ _ Hr) as (new & -> & -> & Hnew).
      destruct (p_args_sound _ _ _ _ _ _ _ Ha) as (its & -> & -> & -> & Hok & Hlen); [done|].
      destruct (redir_items new Hnew) as (Ea & Er & Et & Hit). exists (Simple ((redir_item <$> new) ++ its)).
      cbn [command_ok toks_command tree_command]. rewrite !bind_app, Ea, Er, Et, <- app_assoc. by split_and!; [apply Forall_app| | |].
  - cbn [p_block tail] in H. destruct (p_line n ts) as [t1 ts1| |] eqn:Hl; cbn [pbind] in H; try done.
    destruct (IHl _ _ _ Hl) as (l & Hok & -> & ->). destruct (starts ")" ts1) eqn:Hs; [|done].
    destruct (starts_sym 41 _ _ Hs eq_refl ltac:(lia)) as [ts2 ->]. cbn [tail] in H.
    destruct (p_redirs ts2 []) as [rs ts3| |] eqn:Hr; cbn [pbind] in H; try done. injection H as <- <-.
    destruct (p_redirs_sound _ _ _ _ Hr) as (new & -> & -> & Hnew). exists (Group l new).
    cbn [command_ok toks_command tree_command app]. rewrite <- app_assoc. by split_and!.
Qed.

End accepted.

(** ** What is in the language is accepted *)

Section complete.
Context {W : Type}.
Implicit Types (ts : list (lexeme W)) (t : tree W).

(** What may come after a construct. *)
Definition follow (cs : list Z) ts : Prop := ts = [] \/ exists c ts', ts = Sym c :: ts' /\ c ∈ cs.

Lemma follow_sub cs cs' ts : follow cs ts -> cs ⊆ cs' -> follow cs' ts.
Proof. intros [->|(c & ts' & -> & Hc)] Hs; [by left|]. right. exists c, ts'. split; [done|]. by apply Hs. Qed.

Lemma follow_sym c cs ts : c ∈ cs -> follow cs (Sym c :: ts).
Proof. right. by exists c, ts. Qed.

Ltac follow_cases H :=
  destruct H as [->|(? & ? & -> & ?)]; [|repeat match goal with H : _ ∈ _ :: _ |- _ => apply elem_of_cons in H as [->|H] | H : _ ∈ [] |- _ => by apply elem_of_nil in H end].

Lemma p_redirs_stop ts rs : follow [41; 38; 59; 124] ts -> p_redirs ts rs = POk rs ts.
Proof. intros H. by follow_cases H. Qed.

Lemma p_args_stop n ts args rs : follow [41; 38; 59; 124] ts -> p_args (S n) ts args rs = POk (args, rs) ts.
Proof. intros H. by follow_cases H. Qed.

Lemma p_redirs_complete new ts : forall rs,
  Forall (fun r => is_redir r.1 = true) new -> follow [41; 38; 59; 124] ts ->
  p_redirs ((new ≫= redir_toks) ++ ts) rs = POk (rs ++ new) ts.
Proof.
  induction new as [|[c w] new IH]; intros rs Hn Hf; [rewrite app_nil_r; by apply p_redirs_stop|].
  apply Forall_cons in Hn as [Hc Hn]. cbn in Hc |- *. rewrite Hc, IH by done. by rewrite <- app_assoc.
Qed.

Lemma p_items_complete its ts : forall n args rs,
  Forall item_ok its -> Z.of_nat (length (args ++ (its ≫= item_arg))) < MAXARGS -> follow [41; 38; 59; 124] ts ->
  (length (its ≫= item_arg) < n)%nat ->
  pbind (p_redirs ((its ≫= item_toks) ++ ts) rs) (fun rs ts => p_args n ts args rs) =
  POk (args ++ (its ≫= item_arg), rs ++ (its ≫= item_redir)) ts.
Proof.
  induction its as [|[w|c w] its IH]; intros n args rs Hok Hlen Hf Hn.
  - cbn [mbind list_bind app]. rewrite p_redirs_stop by done. cbn [pbind]. destruct n as [|n]; [cbn in Hn; lia|].
    by rewrite p_args_stop, !app_nil_r.
  - apply Forall_cons in Hok as [_ Hok]. cbn [mbind list_bind app item_toks item_arg item_redir] in *. cbn [p_redirs pbind].
    destruct n as [|n]; [lia|]. cbn [p_args length] in *. rewrite length_app in Hlen. cbn [length] in Hlen.
    rewrite (proj2 (Z.leb_gt _ _)) by lia.
    rewrite IH; [by rewrite <- app_assoc|done|rewrite !length_app; cbn [length]; lia|done|lia].
  - apply Forall_cons in Hok as [Hc Hok]. cbn [mbind list_bind app item_toks item_arg item_redir] in *. cbn [p_redirs].
    cbn in Hc. rewrite Hc, IH by done. by rewrite <- app_assoc.
Qed.

Lemma p_amps_complete k ts : forall t,
  follow [41; 59] ts -> p_amps (replicate k (Sym 38) ++ ts) t = (Nat.iter k TBack t, ts).
Proof.
  induction k as [|k IH]; intros t Hf; cbn [replicate app].
  - by follow_cases Hf.
  - cbn [p_amps Z.eqb Pos.eqb]. rewrite IH by done. by rewrite <- Nat.iter_succ_r.
Qed.

Lemma simple_not_block its ts :
  Forall item_ok its -> follow [41; 38; 59; 124] ts -> starts "(" ((its ≫= item_toks) ++ ts) = false.
Proof.
  intros Hok Hf. destruct its as [|[w|c w] its]; [by follow_cases Hf|done|].
  apply Forall_cons in Hok as [Hc _]. cbn [item_ok] in Hc. unfold is_redir in Hc. cbn [mbind list_bind item_toks app starts].
  change (chars "(") with [40]. cbn [existsb]. case_match; lia.
Qed.

Lemma args_le its : (length (its ≫= item_arg) <= length (its ≫= @item_toks W))%nat.
Proof. induction its as [|[w|c w] its IH]; cbn; lia. Qed.

Lemma p_complete n :
  (forall l ts, line_ok l -> follow [41] ts -> p_line n (toks_line l ++ ts) = PFuel \/ p_line n (toks_line l ++ ts) = POk (tree_line l) ts) /\
  (forall p ts, pipe_ok p -> follow [41; 38; 59] ts -> p_pipe n (toks_pipe p ++ ts) = PFuel \/ p_pipe n (toks_pipe p ++ ts) = POk (tree_pipe p) ts) /\
  (forall c ts, command_ok c -> follow [41; 38; 59; 124] ts -> p_exec n (toks_command c ++ ts) = PFuel \/ p_exec n (toks_command c ++ ts) = POk (tree_command c) ts) /\
  (forall l rs ts, command_ok (Group l rs) -> follow [41; 38; 59; 124] ts ->
     p_block n (toks_command (Group l rs) ++ ts) = PFuel \/ p_block n (toks_command (Group l rs) ++ ts) = POk (tree_command (Group l rs)) ts).
Proof.
  induction n as [|n (IHl & IHp & IHe & IHb)]; [split_and!; by left|]. split_and!.
  - intros l ts Hok Hf. cbn [p_line]. destruct l as [p k|p k l]; cbn [toks_line line_ok tree_line] in *; rewrite <- !app_assoc.
    + edestruct (IHp p) as [->| ->]; [done| |by left|].
      { destruct k; [|by apply follow_sym; set_solver]. eapply follow_sub; [done|set_solver]. }
      right. cbn [pbind]. rewrite p_amps_complete by (eapply follow_sub; [done|set_solver]). cbn [fst snd]. by follow_cases Hf.
    + destruct Hok as [Hp Hl]. cbn [app]. edestruct (IHp p) as [->| ->]; [done| |by left|].
      { destruct k; apply follow_sym; set_solver. }
      cbn [pbind]. rewrite p_amps_complete by (apply follow_sym; set_solver). cbn [fst snd tail].
      change (starts ";" (Sym 59 :: toks_line l ++ ts)) with true. cbn iota. destruct (IHl l ts) as [->| ->]; [done..|by left|by right].
  - intros p ts Hok Hf. cbn [p_pipe]. destruct p as [c|c p]; cbn [toks_pipe pipe_ok tree_pipe] in *; rewrite <- ?app_assoc.
    + edestruct (IHe c) as [->| ->]; [done|eapply follow_sub; [done|set_solver]|by left|]. right. cbn [pbind]. by follow_cases Hf.
    + destruct Hok as [Hc Hp]. cbn [app]. edestruct (IHe c) as [->| ->]; [done|apply follow_sym; set_solver|by left|].
      cbn [pbind tail]. change (starts "|" (Sym 124 :: toks_pipe p ++ ts)) with true. cbn iota.
      destruct (IHp p ts) as [->| ->]; [done..|by left|by right].
  - intros c ts Hok Hf. cbn [p_exec]. destruct c as [its|l rs]; [|by apply IHb].
    cbn [toks_command command_ok tree_command] in *. destruct Hok as [Hok Hlen]. rewrite simple_not_block by done. right.
    pose proof (p_items_complete its ts (S (length ((its ≫= item_toks) ++ ts))) [] [] Hok Hlen Hf) as Hrun.
    rewrite length_app in Hrun |- *. pose proof (args_le its). specialize (Hrun ltac:(lia)). cbn zeta.
    destruct (p_redirs _ _) as [rs1 ts1| |]; cbn [pbind] in *; try done. by rewrite Hrun.
  - intros l rs ts [Hl Hrs] Hf. cbn [p_block toks_command tree_command app tail]. rewrite <- app_assoc. cbn [app].
    destruct (IHl l (Sym 41 :: (rs ≫= redir_toks) ++ ts)) as [->| ->]; [done|apply follow_sym; set_solver|by left|].
    right. cbn [pbind tail]. change (starts ")" (Sym 41 :: (rs ≫= redir_toks) ++ ts)) with true. cbn iota.
    by rewrite p_redirs_complete by done.
Qed.

End complete.

(** ** The fuel is enough *)

Section fuel.
Context {W : Type}.
Implicit Types (ts : list (lexeme W)) (t : tree W).

Lemma p_redirs_fuel ts : forall rs, p_redirs ts rs <> PFuel.
Proof.
  remember (length ts) as n eqn:Hn. assert (Hle : (length ts <= n)%nat) by lia. clear Hn. revert ts Hle.
  induction n as [|n IH]; intros ts Hle rs; destruct ts as [|[c|w] ts]; cbn [p_redirs length] in *; try done; [lia|].
  destruct (is_redir c); [|done]. destruct ts as [|[d|w] ts]; [done..|]. apply IH. cbn [length] in Hle. lia.
Qed.

Lemma p_redirs_le ts rs rs' ts' : p_redirs ts rs = POk rs' ts' -> (length ts' <= length ts)%nat.
Proof. intros (new & _ & -> & _)%p_redirs_sound. rewrite length_app. lia. Qed.

Lemma p_args_fuel n : forall ts args rs, (length ts < n)%nat -> p_args n ts args rs <> PFuel.
Proof.
  induction n as [|n IH]; intros ts args rs Hn; [lia|]. cbn [p_args]. destruct ts as [|[c|w] ts]; [done|by case_match|].
  case_match; [done|]. pose proof (p_redirs_fuel ts rs) as Hr. destruct (p_redirs ts rs) as [rs1 ts1| |] eqn:E; cbn [pbind]; [|done..].
  apply IH. apply p_redirs_le in E. cbn [length] in Hn. lia.
Qed.

Lemma p_amps_le ts t : (length (p_amps ts t).2 <= length ts)%nat.
Proof. destruct (p_amps_sound ts t) as (n & Hts & _). apply (f_equal length) in Hts. rewrite length_app in Hts. lia. Qed.

Lemma starts_ne toks ts : starts toks ts = true -> (length (tail ts) < length ts)%nat.
Proof. destruct ts; cbn; [done|lia]. Qed.

Lemma p_fuel n :
  (forall ts, (4 * length ts + 4 <= n)%nat -> p_line n ts <> PFuel) /\
  (forall ts, (4 * length ts + 3 <= n)%nat -> p_pipe n ts <> PFuel) /\
  (forall ts, (4 * length ts + 2 <= n)%nat -> p_exec n ts <> PFuel) /\
  (forall ts, starts "(" ts = true -> (4 * length ts + 1 <= n)%nat -> p_block n ts <> PFuel).
Proof.
  induction n as [|n (IHl & IHp & IHe & IHb)]; [split_and!; intros; lia|].
  destruct (p_sound (W := W) n) as (Sl & Sp & Se & _). split_and!; intros ts.
  - intros Hn. cbn [p_line]. pose proof (IHp ts ltac:(lia)) as Hp. destruct (p_pipe n ts) as [t1 ts1| |] eqn:E; cbn [pbind]; [|done..].
    destruct (Sp _ _ _ E) as (p & _ & -> & _). rewrite length_app in Hn. pose proof (p_amps_le ts1 t1) as Ha.
    destruct (starts ";" _) eqn:Es; [|done]. apply starts_ne in Es. pose proof (IHl (tail (p_amps ts1 t1).2) ltac:(lia)).
    by destruct (p_line n _).
  - intros Hn. cbn [p_pipe]. pose proof (IHe ts ltac:(lia)) as Hp. destruct (p_exec n ts) as [t1 ts1| |] eqn:E; cbn [pbind]; [|done..].
    destruct (Se _ _ _ E) as (p & _ & -> & _). rewrite length_app in Hn.
    destruct (starts "|" _) eqn:Es; [|done]. apply starts_ne in Es. pose proof (IHp (tail ts1) ltac:(lia)). by destruct (p_pipe n _).
  - intros Hn. cbn [p_exec]. destruct (starts "(" ts) eqn:Es; [apply IHb; [done|lia]|]. cbn zeta.
    pose proof (p_redirs_fuel ts []) as Hr. destruct (p_redirs ts []) as [rs ts1| |] eqn:E; cbn [pbind]; [|done..].
    pose proof (p_redirs_le _ _ _ _ E). pose proof (p_args_fuel (S (length ts)) ts1 [] rs ltac:(lia)). by destruct (p_args _ _ _ _).
  - intros Hs Hn. cbn [p_block]. apply starts_ne in Hs. pose proof (IHl (tail ts) ltac:(lia)) as Hl.
    destruct (p_line n (tail ts)) as [t1 ts1| |]; cbn [pbind]; [|done..]. case_match; [|done].
    pose proof (p_redirs_fuel (tail ts1) []). by destruct (p_redirs _ _).
Qed.

(** The parser accepts the language of the grammar, with its meaning. *)
Lemma p_line_grammar n ts t :
  (4 * length ts + 4 <= n)%nat ->
  p_line n ts = POk t [] <-> exists l, line_ok l /\ ts = toks_line l /\ t = tree_line l.
Proof.
  intros Hn. split.
  - intros (l & Hok & Hts & Ht)%(proj1 (p_sound _)). rewrite app_nil_r in Hts. by exists l.
  - intros (l & Hok & -> & ->). pose proof (proj1 (p_fuel n) (toks_line l) Hn) as Hf.
    destruct (proj1 (p_complete n) l [] Hok (or_introl eq_refl)) as [H|H]; rewrite app_nil_r in H; done.
Qed.

End fuel.

(** ** Words and their places *)

Section maps.
Context {W V : Type} (f : W -> V).

Definition lexeme_map (x : lexeme W) : lexeme V := match x with Sym c => Sym c | Word w => Word (f w) end.

Fixpoint tree_map (t : tree W) : tree V :=
  match t with
  | TExec args => TExec (f <$> args)
  | TRedir t w c => TRedir (tree_map t) (f w) c
  | TPipe l r => TPipe (tree_map l) (tree_map r)
  | TList l r => TList (tree_map l) (tree_map r)
  | TBack t => TBack (tree_map t)
  end.

Definition pres_map {A B} (g : A -> B) (r : pres W A) : pres V B :=
  match r with
  | POk a ts => POk (g a) (lexeme_map <$> ts)
  | PErr msg => PErr msg
  | PFuel => PFuel
  end.

Definition rs_map (rs : list (Z * W)) : list (Z * V) := prod_map id f <$> rs.

Lemma pbind_map {A A' B B'} (g : A -> A') (h : B -> B') (r : pres W A) k k' :
  (forall a ts, k' (g a) (lexeme_map <$> ts) = pres_map h (k a ts)) ->
  pbind (pres_map g r) k' = pres_map h (pbind r k).
Proof. intros H. destruct r; cbn; [apply H|done..]. Qed.

Lemma starts_map toks ts : starts toks (lexeme_map <$> ts) = starts toks ts.
Proof. by destruct ts as [|[]]. Qed.

Lemma tail_map ts : tail (lexeme_map <$> ts) = lexeme_map <$> tail ts.
Proof. by destruct ts. Qed.

Lemma wrap_map rs t : wrap (rs_map rs) (tree_map t) = tree_map (wrap rs t).
Proof. unfold wrap, rs_map. revert t. induction rs as [|r rs IH]; intros t; [done|]. apply (IH (TRedir t r.2 r.1)). Qed.

Lemma p_redirs_map ts : forall rs, p_redirs (lexeme_map <$> ts) (rs_map rs) = pres_map rs_map (p_redirs ts rs).
Proof.
  remember (length ts) as n eqn:Hn. assert (Hle : (length ts <= n)%nat) by lia. clear Hn. revert ts Hle.
  induction n as [|n IH]; intros ts Hle rs; destruct ts as [|[c|w] ts]; cbn [fmap list_fmap p_redirs length lexeme_map pres_map] in *; try done; [lia|].
  destruct (is_redir c); [|done]. destruct ts as [|[d|w] ts]; [done..|]. cbn [fmap list_fmap lexeme_map length] in *.
  rewrite <- (IH ts) by lia. f_equal. unfold rs_map. by rewrite fmap_app.
Qed.

Lemma p_args_map n : forall ts args rs,
  p_args n (lexeme_map <$> ts) (f <$> args) (rs_map rs) = pres_map (prod_map (fmap f) rs_map) (p_args n ts args rs).
Proof.
  induction n as [|n IH]; intros ts args rs; [done|]. cbn [p_args]. destruct ts as [|[c|w] ts]; [done| |].
  - cbn [fmap list_fmap lexeme_map starts]. by destruct (existsb _ _).
  - cbn [fmap list_fmap lexeme_map]. rewrite length_fmap. case_match; [done|].
    change (list_fmap _ _ lexeme_map ts) with (lexeme_map <$> ts). rewrite p_redirs_map. apply pbind_map. intros rs' ts'.
    rewrite <- IH. by rewrite fmap_app.
Qed.

Lemma p_redirs_map0 ts : p_redirs (lexeme_map <$> ts) [] = pres_map rs_map (p_redirs ts []).
Proof. apply (p_redirs_map ts []). Qed.

Lemma p_args_map0 n ts rs :
  p_args n (lexeme_map <$> ts) [] (rs_map rs) = pres_map (prod_map (fmap f) rs_map) (p_args n ts [] rs).
Proof. apply (p_args_map n ts []). Qed.

Lemma p_amps_map ts : forall t, p_amps (lexeme_map <$> ts) (tree_map t) = prod_map tree_map (fmap lexeme_map) (p_amps ts t).
Proof.
  induction ts as [|[c|w] ts IH]; intros t; [done| |done]. cbn [fmap list_fmap lexeme_map p_amps].
  destruct (c =? 38); [apply (IH (TBack t))|done].
Qed.

Lemma p_map n :
  (forall ts, p_line n (lexeme_map <$> ts) = pres_map tree_map (p_line n ts)) /\
  (forall ts, p_pipe n (lexeme_map <$> ts) = pres_map tree_map (p_pipe n ts)) /\
  (forall ts, p_exec n (lexeme_map <$> ts) = pres_map tree_map (p_exec n ts)) /\
  (forall ts, p_block n (lexeme_map <$> ts) = pres_map tree_map (p_block n ts)).
Proof.
  induction n as [|n (IHl & IHp & IHe & IHb)]; [done|]. split_and!; intros ts.
  - cbn [p_line]. rewrite IHp. apply pbind_map. intros t ts1. rewrite p_amps_map.
    destruct (p_amps ts1 t) as [t2 ts2]. cbn [prod_map fst snd]. cbn zeta. cbn [fst snd]. rewrite starts_map.
    destruct (starts _ _); [|done]. rewrite tail_map, IHl. by apply pbind_map.
  - cbn [p_pipe]. rewrite IHe. apply pbind_map. intros t ts1. rewrite starts_map.
    destruct (starts _ _); [|done]. rewrite tail_map, IHp. by apply pbind_map.
  - cbn [p_exec]. rewrite starts_map, length_fmap. destruct (starts _ _); [apply IHb|]. cbn zeta.
    rewrite p_redirs_map0. apply pbind_map. intros rs ts1. rewrite p_args_map0. apply pbind_map. intros [args rs'] ts2.
    cbn [prod_map fst snd pres_map]. by rewrite <- wrap_map.
  - cbn [p_block]. rewrite tail_map, IHl. apply pbind_map. intros t ts1. rewrite starts_map. destruct (starts _ _); [|done].
    rewrite tail_map, p_redirs_map0. apply pbind_map. intros rs ts2. cbn [pres_map]. by rewrite wrap_map.
Qed.

End maps.
