(* ===== verification/Shparse.v ===== *)
(** The shell's parser implements the grammar: [parsecmd] accepts the lines
    of the language and builds their commands, with the strings of the words
    in the buffer, and exits with a message on any other line. *)

From S2P Require Import Prelude Mem Block User Ulib Uniq Sh Shlex Shgram.

Open Scope Z_scope.

(** ** Commands in the heap *)

Definition slots (l : list Z) : list (option Z) := (Some <$> l) ++ replicate (Z.to_nat MAXARGS - length l) None.

(** The command at [p], its words being places in the buffer. *)
Fixpoint at_tree (h : list cmd) (p : nat) (t : tree (Z * Z)) : Prop :=
  match t with
  | TExec args => node h p = Some (EXEC (slots args.*1) (slots args.*2)) /\ Z.of_nat (length args) < MAXARGS
  | TRedir t w c =>
      exists p', node h p = Some (REDIR p' w.1 w.2 (redir_mode c) (redir_fd c)) /\ (p' < p)%nat /\ at_tree h p' t
  | TPipe l r =>
      exists pl pr, node h p = Some (PIPE pl pr) /\ (pl < p)%nat /\ (pr < p)%nat /\ at_tree h pl l /\ at_tree h pr r
  | TList l r =>
      exists pl pr, node h p = Some (LIST pl pr) /\ (pl < p)%nat /\ (pr < p)%nat /\ at_tree h pl l /\ at_tree h pr r
  | TBack t => exists p', node h p = Some (BACK p') /\ (p' < p)%nat /\ at_tree h p' t
  end.

(** Redirections from [p] down to the node [e]. *)
Inductive chain (h : list cmd) (e : nat) : nat -> list (Z * (Z * Z)) -> Prop :=
  | chain_nil : chain h e e []
  | chain_snoc p p' rs c w :
      node h p = Some (REDIR p' w.1 w.2 (redir_mode c) (redir_fd c)) -> (p' < p)%nat -> chain h e p' rs ->
      chain h e p (rs ++ [(c, w)]).

Lemma node_prefix h h' p c : node h p = Some c -> h `prefix_of` h' -> node h' p = Some c.
Proof. destruct p as [|i]; [done|]. cbn. intros Hi [k ->]. by apply lookup_app_l_Some. Qed.

Lemma node_new h c : node (h ++ [c]) (S (length h)) = Some c.
Proof. cbn. by apply list_lookup_middle. Qed.

Lemma node_lt h p c : node h p = Some c -> (0 < p <= length h)%nat.
Proof. destruct p as [|i]; [done|]. intros H%lookup_lt_Some. lia. Qed.

Lemma at_tree_prefix h h' t : forall p, at_tree h p t -> h `prefix_of` h' -> at_tree h' p t.
Proof.
  induction t as [args|t IH w c|l IHl r IHr|l IHl r IHr|t IH]; intros p H Hp; cbn [at_tree] in *.
  - destruct H as [H Hl]. eauto using node_prefix.
  - destruct H as (p' & H & Hlt & Ht). exists p'. eauto using node_prefix.
  - destruct H as (pl & pr & H & Hl & Hr & Htl & Htr). exists pl, pr. split_and!; eauto using node_prefix.
  - destruct H as (pl & pr & H & Hl & Hr & Htl & Htr). exists pl, pr. split_and!; eauto using node_prefix.
  - destruct H as (p' & H & Hlt & Ht). exists p'. eauto using node_prefix.
Qed.

Lemma at_tree_node h p t : at_tree h p t -> exists c, node h p = Some c.
Proof.
  intros H. destruct t; cbn [at_tree] in H;
    [destruct H as [H _]|destruct H as (? & H & _)|destruct H as (? & ? & H & _)..|destruct H as (? & H & _)]; by eexists.
Qed.

Lemma at_tree_le h p t : at_tree h p t -> (0 < p <= length h)%nat.
Proof. intros [c Hc%node_lt]%at_tree_node. lia. Qed.

Lemma chain_prefix h h' e p rs : chain h e p rs -> h `prefix_of` h' -> chain h' e p rs.
Proof. induction 1; intros Hp; econstructor; eauto using node_prefix. Qed.

Lemma chain_le h e p rs : chain h e p rs -> (e <= p)%nat.
Proof. induction 1; lia. Qed.

Lemma chain_tree h e p rs t : chain h e p rs -> at_tree h e t -> at_tree h p (wrap rs t).
Proof.
  intros Hc. induction Hc as [|p p' rs c w Hn Hlt Hc IH]; intros Ht; [done|].
  unfold wrap. rewrite foldl_app. cbn. exists p'. split_and!; [done|done|]. by apply IH.
Qed.

(** A change of the innermost node does not touch the chain. *)
Lemma chain_update h k p rs c : chain h (S k) p rs -> chain (<[k := c]> h) (S k) p rs.
Proof.
  induction 1 as [|p p' rs c' w Hn Hlt Hc IH]; [constructor|]. econstructor; [|done|done].
  pose proof (chain_le _ _ _ _ Hc). destruct p as [|i]; [done|]. cbn in *. by rewrite list_lookup_insert_ne by lia.
Qed.

Lemma slots_none l : Z.of_nat (length l) < MAXARGS -> <[length l := None]> (slots l) = slots l.
Proof.
  unfold MAXARGS. intros Hl. apply list_insert_id. unfold slots. rewrite lookup_app_r by (rewrite length_fmap; lia).
  rewrite length_fmap, Nat.sub_diag. apply lookup_replicate_2. unfold MAXARGS. lia.
Qed.

Lemma slots_snoc l q : Z.of_nat (length l) < MAXARGS -> <[length l := Some q]> (slots l) = slots (l ++ [q]).
Proof.
  unfold MAXARGS. intros Hl. unfold slots, MAXARGS. rewrite fmap_app, length_app. cbn [length].
  replace (Z.to_nat 10 - length l)%nat with (S (Z.to_nat 10 - (length l + 1))) by lia. cbn [replicate].
  rewrite insert_app_r_alt by (rewrite length_fmap; lia). rewrite length_fmap, Nat.sub_diag. cbn. by rewrite <- app_assoc.
Qed.

(** ** The functions of the parser *)

Section parsing.
Variable (text junk : list Z).
Hypothesis Htext : Forall (fun c => c <> 0) text.
Let es : Z := Z.of_nat (length text).

(** What a function leaves as it was, and the heap it has grown. *)
Record kept (s s' : sh) : Prop := {
  k_buf : sh_buf s' = sh_buf s;
  k_io : sh_io s' = sh_io s;
  k_heap : sh_heap s `prefix_of` sh_heap s'
}.

Lemma kept_refl s : kept s s.
Proof. by split. Qed.

Lemma kept_trans s1 s2 s3 : kept s1 s2 -> kept s2 s3 -> kept s1 s3.
Proof. intros [] []. split; [congruence|congruence|by etrans]. Qed.

Lemma kept_line s s' : kept s s' -> on_line text junk s -> on_line text junk s'.
Proof. intros [Hb _ _]. unfold on_line. by rewrite Hb. Qed.

(** The exit after a syntax error. *)
Definition complains (msg : string) (s : sh) (w : stop) (s' : sh) : Prop :=
  w = Exited /\ sh_io s' = emit 2 (chars msg ++ [10]) (sh_io s).

Lemma wpe_new_cmd {B} c s (k : nat -> M sh B) Q E n :
  sh_mem s = S n ->
  (kept s (MkSh (sh_buf s) (sh_heap s ++ [c]) n (sh_io s)) ->
   wpe (k (S (length (sh_heap s)))) (MkSh (sh_buf s) (sh_heap s ++ [c]) n (sh_io s)) Q E) ->
  wpe (p ← new_cmd c; k p) s Q E.
Proof.
  intros Hm Hk. unfold wpe, new_cmd, get, put, mbind, M_bind. rewrite Hm. apply Hk. split; [done|done|]. by apply prefix_app_r.
Qed.

(** From [s], [m] does what the parser of tokens does on [ts], and nothing
    that [s0] sees; [k] is how many nodes it may use beyond two for every
    token. *)
Definition refines {A B} (s0 : sh) (m : M sh A) (s : sh) (k : nat) (ts : list (lexeme (Z * Z))) (r : pres (Z * Z) B)
    (R : A -> B -> list (lexeme (Z * Z)) -> sh -> Prop) : Prop :=
  match r with
  | POk b ts' =>
      wp m s (fun a s' => kept s0 s' /\ (sh_mem s + 2 * length ts' <= sh_mem s' + 2 * length ts + k)%nat /\ R a b ts' s')
  | PErr msg => wpe m s (fun _ _ => False) (complains msg s0)
  | PFuel => True
  end.

Lemma refines_panic {A B} msg s0 s k ts (R : A -> B -> _ -> sh -> Prop) :
  kept s0 s -> Forall (fun c => c <> 0) (chars msg) -> Forall in_u8 (chars msg) ->
  refines s0 (sh_panic msg) s k ts (PErr msg) R.
Proof.
  intros Hk H0 H8. cbn [refines]. unfold wpe, sh_panic, sh_printf, zoom, mbind, M_bind. cbn [view l_io].
  rewrite (pstr_str _ (chars msg)) by (by apply is_str_lit). rewrite print_line by done. split; [done|].
  cbn. by rewrite (k_io _ _ Hk).
Qed.

Lemma refines_ret {A B} (a : A) (b : B) s0 s k ts (R : A -> B -> _ -> sh -> Prop) :
  kept s0 s -> R a b ts s -> refines s0 (mret a) s k ts (POk b ts) R.
Proof. intros Hk H. apply wpe_ret. split; [done|]. split; [lia|done]. Qed.

(** A function that is called. *)
Lemma refines_call {A B} (m : M sh A) s0 s k k' ts (r : pres _ B) (R R' : A -> B -> _ -> sh -> Prop) :
  kept s0 s -> refines s m s k ts r R -> (k <= k')%nat -> (forall a b ts' s', kept s s' -> R a b ts' s' -> R' a b ts' s') ->
  refines s0 m s k' ts r R'.
Proof.
  intros Hk0 Hm Hle HR. destruct r as [b ts'|msg|]; cbn [refines] in *; [| |done].
  - eapply wp_mono; [|exact Hm]. cbv beta. intros x s' (Hk & Hmem & H). split; [by eapply kept_trans|]. split; [lia|eauto].
  - unfold wpe in *. destruct (m s) as [|w s']; [done|]. destruct Hm as [-> Hio]. split; [done|]. by rewrite Hio, (k_io _ _ Hk0).
Qed.

Lemma refines_weaken {A B} s0 (m : M sh A) s k k' ts (r : pres _ B) R : refines s0 m s k ts r R -> (k <= k')%nat -> refines s0 m s k' ts r R.
Proof.
  intros Hm Hk. destruct r; cbn [refines] in *; [|done..]. eapply wp_mono; [|exact Hm]. cbv beta.
  intros x s' (Hk' & Hmem & HR). split; [done|]. split; [lia|done].
Qed.

Lemma refines_bind {A A' B B'} (m : M sh A) (f : A -> M sh A') s0 s k1 k2 ts (r : pres _ B) (g : B -> _ -> pres _ B') R R' :
  refines s0 m s k1 ts r R ->
  (forall a b ts' s', r = POk b ts' -> kept s0 s' ->
     (sh_mem s + 2 * length ts' <= sh_mem s' + 2 * length ts + k1)%nat -> R a b ts' s' ->
     refines s0 (f a) s' k2 ts' (g b ts') R') ->
  refines s0 (a ← m; f a) s (k1 + k2) ts (pbind r g) R'.
Proof.
  intros Hm Hf. destruct r as [b ts'|msg|]; cbn [pbind refines] in *; [| |done].
  - apply wp_inv in Hm as (a & s' & Hrun & Hk & Hmem & HR). specialize (Hf a b ts' s' eq_refl Hk Hmem HR).
    destruct (g b ts') as [b' ts''|msg|]; cbn [refines] in *; [| |done]; unfold wp, wpe, mbind, M_bind in *; rewrite Hrun; [|done].
    destruct (f a s') as [a' s''|]; [|done]. destruct Hf as (Hk' & Hmem' & HR'). split; [done|]. split; [lia|done].
  - unfold wpe, mbind, M_bind in *. by destruct (m s).
Qed.

Lemma refines_peek {A B} ps toks s0 s k ts (f : bool * Z -> M sh A) (r : pres _ B) R :
  on_line text junk s -> at_toks text ps ts -> only_syms toks ->
  (forall ps', at_toks text ps' ts -> (ts = [] -> ps' = es) -> refines s0 (f (starts toks ts, ps')) s k ts r R) ->
  refines s0 (b ← peek ps es toks; f b) s k ts r R.
Proof. intros Hs Hat Ht Hf. destruct r; cbn [refines] in *; [| |done]; by eapply (wpe_peek text junk). Qed.

Lemma refines_gettoken {A B} ps tk s0 s k ts (f : token -> M sh A) (r : pres _ B) R :
  on_line text junk s -> at_toks text ps (tk :: ts) ->
  (forall tok, t_ret tok = kind tk -> (forall q e, tk = Word (q, e) -> t_q tok = q /\ t_eq tok = e) ->
     at_toks text (t_ps tok) ts -> refines s0 (f tok) s (2 + k) ts r R) ->
  refines s0 (tok ← gettoken ps es; f tok) s k (tk :: ts) r R.
Proof.
  intros Hs Hat Hf. destruct r; cbn [refines] in *; [| |done]; eapply (wpe_gettoken text junk); try done.
  intros tok H1 H2 H3. eapply wp_mono; [|by apply Hf]. cbv beta. intros a' s' (Hk & Hmem & HR).
  split; [done|]. split; [cbn [length]; lia|done].
Qed.

Lemma refines_gettoken_end {A B} ps s0 s k (f : token -> M sh A) (r : pres _ B) R :
  on_line text junk s -> at_toks text ps [] -> (at_toks text es [] -> refines s0 (f (Token 0 es es es)) s k [] r R) ->
  refines s0 (tok ← gettoken ps es; f tok) s k [] r R.
Proof. intros Hs Hat Hf. destruct r; cbn [refines] in *; [| |done]; by eapply (wpe_gettoken_end text junk). Qed.

Lemma refines_new {A B} c s0 s k ts (f : nat -> M sh A) (r : pres _ B) R n :
  sh_mem s = S n ->
  (let s' := MkSh (sh_buf s) (sh_heap s ++ [c]) n (sh_io s) in
   kept s s' -> refines s0 (f (S (length (sh_heap s)))) s' k ts r R) ->
  refines s0 (p ← new_cmd c; f p) s (S k) ts r R.
Proof.
  intros Hm Hf. destruct r as [b ts'|msg|]; cbn [refines] in *; [| |done]; eapply wpe_new_cmd; try done; intros Hk; specialize (Hf Hk).
  eapply wp_mono; [|exact Hf]. cbv beta. cbn [sh_mem]. intros a' s' (Hk' & Hmem & HR). split; [done|]. split; [lia|done].
Qed.

Lemma refines_run {A A' B} s0 (m : M sh A) (f : A -> M sh A') s a s1 k ts (r : pres _ B) R :
  m s = Ret a s1 -> sh_mem s1 = sh_mem s -> refines s0 (f a) s1 k ts r R -> refines s0 (a ← m; f a) s k ts r R.
Proof.
  intros Hm Hmem Hf. destruct r as [b ts'|msg|]; cbn [refines] in *; [| |done]; unfold wp, wpe, mbind, M_bind in *; rewrite Hm; [|done].
  by rewrite <- Hmem.
Qed.

Lemma refines_fuel {A B} s0 s k ts (f : nat -> M sh A) (r : pres _ B) R :
  on_line text junk s -> refines s0 (f (S (length text + S (length junk)))) s k ts r R -> refines s0 (n ← line_fuel; f n) s k ts r R.
Proof. intros Hs Hf. eapply refines_run; [by apply (line_fuel_run text junk)|done|done]. Qed.

Lemma starts_redir c ts : starts "<>" (Sym c :: ts : list (lexeme (Z * Z))) = is_redir c.
Proof. unfold starts, is_redir. change (chars "<>") with [60; 62]. cbn [existsb]. clear. case_match; lia. Qed.

Lemma sym_not_word d : tok_ok (Sym d : lexeme (Z * Z)) -> (kind (Sym d : lexeme (Z * Z)) =? 97) = false.
Proof. intros [H| ->]; [|done]. apply Z.eqb_neq. intros E. cbn in E. by rewrite E in H. Qed.

(** [new_cmd] for one of the redirection symbols. *)
Lemma redir_switch p c q e : is_redir c = true ->
  (if c =? 60 then redircmd p q e O_RDONLY 0
   else if c =? 62 then redircmd p q e (Z.lor O_WRONLY O_CREATE) 1
   else if c =? 43 then redircmd p q e (Z.lor O_WRONLY O_CREATE) 1
   else mret p) = new_cmd (REDIR p q e (redir_mode c) (redir_fd c)).
Proof. unfold is_redir, redir_mode, redir_fd. intros H. by repeat case_match. Qed.

Lemma parseredirs_loop_refines n : forall e p ps ts rs s,
  on_line text junk s -> at_toks text ps ts -> chain (sh_heap s) e p rs -> (p <= length (sh_heap s))%nat -> (length ts < n)%nat -> (2 * length ts <= sh_mem s)%nat ->
  refines s (parseredirs_loop n p ps es) s 0 ts (p_redirs ts rs) (fun r rs' ts' s' => at_toks text r.2 ts' /\ chain (sh_heap s') e r.1 rs' /\ (r.1 <= length (sh_heap s'))%nat).
Proof.
  induction n as [|n IH]; intros e p ps ts rs s Hs Hat Hc Hp Hn Hm; [lia|]. cbn [parseredirs_loop].
  apply (refines_peek ps _ s s _ ts); [done|done|by repeat constructor|]. intros ps' Hat' _. cbn [fst snd].
  destruct ts as [|[c|w] ts]; [by apply refines_ret; [apply kept_refl|]| |by apply refines_ret; [apply kept_refl|]].
  rewrite starts_redir. cbn [p_redirs]. destruct (is_redir c) eqn:Hr; [|by apply refines_ret; [apply kept_refl|]].
  apply refines_gettoken; [done..|]. intros tok Htok _ Hat1.
  destruct ts as [|[d|[q e']] ts].
  - apply refines_gettoken_end; [done..|]. intros _. cbn [t_ret Z.eqb negb].
    apply refines_panic; [apply kept_refl|by repeat constructor..].
  - pose proof (at_toks_ok _ _ _ Hat1) as Hok. apply Forall_cons in Hok as [Hok _].
    apply refines_gettoken; [done..|]. intros tok' Htok' _ _. rewrite Htok', (sym_not_word d Hok).
    apply refines_panic; [apply kept_refl|by repeat constructor..].
  - apply refines_gettoken; [done..|]. intros tok' Htok' Hw Hat2. destruct (Hw _ _ eq_refl) as [-> ->]. rewrite Htok'. cbn [kind Z.eqb Pos.eqb negb].
    rewrite Htok. cbn [kind]. rewrite redir_switch by done. cbn [length] in *.
    destruct (sh_mem s) as [|m] eqn:Hmem; [lia|]. apply (refines_new _ s s 3 ts _ _ _ m); [done|]. intros s' Hk.
    eapply (refines_call _ s s' 0); [done|apply (IH e)|lia|done].
    + by eapply kept_line.
    + done.
    + econstructor; [apply node_new|lia|]. eapply chain_prefix; [done|apply Hk].
    + cbn. rewrite length_app. cbn. lia.
    + lia.
    + cbn. lia.
Qed.

Lemma parseredirs_refines e p ps ts rs s :
  on_line text junk s -> at_toks text ps ts -> chain (sh_heap s) e p rs -> (p <= length (sh_heap s))%nat -> (2 * length ts <= sh_mem s)%nat ->
  refines s (parseredirs p ps es) s 0 ts (p_redirs ts rs)
    (fun r rs' ts' s' => at_toks text r.2 ts' /\ chain (sh_heap s') e r.1 rs' /\ (r.1 <= length (sh_heap s'))%nat).
Proof.
  intros Hs Hat Hc Hp Hm. unfold parseredirs. apply refines_fuel; [done|]. apply parseredirs_loop_refines; try done.
  pose proof (at_toks_length _ _ _ Hat). lia.
Qed.

(** The command of [parseexec] while its arguments are read. *)
Definition building (h : list cmd) (e p : nat) (args : list (Z * Z)) (rs : list (Z * (Z * Z))) : Prop :=
  node h e = Some (EXEC (slots args.*1) (slots args.*2)) /\ chain h e p rs /\ (p <= length h)%nat.

Lemma set_arg_run k s argv eargv i q e :
  node (sh_heap s) (S k) = Some (EXEC argv eargv) -> (i < 10)%nat ->
  set_arg (S k) (Z.of_nat i) q e s = Ret tt (set_heap (<[k := EXEC (<[i := q]> argv) (<[i := e]> eargv)]> (sh_heap s)) s).
Proof.
  intros Hn Hi. unfold set_arg, get, put, mbind, M_bind. rewrite Hn. unfold MAXARGS.
  rewrite (proj2 (Z.leb_le _ _)), (proj2 (Z.ltb_lt _ _)) by lia. cbn [andb]. by rewrite Nat2Z.id.
Qed.

Lemma prefix_insert (l h : list cmd) k c : l `prefix_of` h -> (length l <= k)%nat -> l `prefix_of` <[k := c]> h.
Proof. intros [x ->] Hk. rewrite insert_app_r_alt by done. by apply prefix_app_r. Qed.

Lemma kept_insert s0 s k c :
  kept s0 s -> (length (sh_heap s0) <= k)%nat -> kept s0 (set_heap (<[k := c]> (sh_heap s)) s).
Proof. intros [] Hk. split; [done|done|]. by apply prefix_insert. Qed.

(** [cmd->argv[argc] = 0] changes nothing. *)
Lemma set_arg_end k s p args rs :
  building (sh_heap s) (S k) p args rs -> Z.of_nat (length args) < MAXARGS ->
  set_arg (S k) (Z.of_nat (length args)) None None s = Ret tt s.
Proof.
  unfold MAXARGS. intros (Hn & _ & _) Hl. erewrite set_arg_run by (done || lia).
  rewrite <- (length_fmap fst args) at 1. rewrite slots_none by (rewrite length_fmap; done).
  rewrite <- (length_fmap snd args). rewrite slots_none by (rewrite length_fmap; done).
  rewrite list_insert_id by done. by destruct s.
Qed.

Lemma building_arg h k p args rs q e :
  building h (S k) p args rs -> Z.of_nat (length args) < MAXARGS ->
  building (<[k := EXEC (<[length args := Some q]> (slots args.*1)) (<[length args := Some e]> (slots args.*2))]> h) (S k) p
    (args ++ [(q, e)]) rs.
Proof.
  intros (Hn & Hc & Hp) Hl. split_and!; [|by apply chain_update|by rewrite length_insert].
  cbn. rewrite list_lookup_insert_eq by (apply node_lt in Hn; lia). rewrite !fmap_app. cbn [fmap list_fmap fst snd].
  rewrite <- (length_fmap fst args) at 1. rewrite slots_snoc by (by rewrite length_fmap).
  rewrite <- (length_fmap snd args). by rewrite slots_snoc by (by rewrite length_fmap).
Qed.

Lemma sym_not_nul d : tok_ok (Sym d : lexeme (Z * Z)) -> (d =? 0) = false.
Proof. intros [H| ->]; [|done]. apply Z.eqb_neq. by intros ->. Qed.

Lemma parseexec_loop_refines n : forall m k p ps ts args rs s0 s,
  kept s0 s -> (length (sh_heap s0) <= k)%nat -> on_line text junk s -> at_toks text ps ts ->
  building (sh_heap s) (S k) p args rs -> Z.of_nat (length args) < MAXARGS -> (length ts < n)%nat -> (2 * length ts <= sh_mem s)%nat ->
  refines s0 (parseexec_loop n (S k) p (Z.of_nat (length args)) ps es) s 0 ts (p_args m ts args rs)
    (fun r ar ts' s' => at_toks text r.2 ts' /\ building (sh_heap s') (S k) r.1 ar.1 ar.2 /\ Z.of_nat (length ar.1) < MAXARGS).
Proof.
  induction n as [|n IH]; intros m k p ps ts args rs s0 s Hk Hk0 Hs Hat Hb Hl Hn Hm; [lia|]. destruct m as [|m]; [done|].
  cbn [parseexec_loop]. apply refines_peek; [done|done|by repeat constructor|]. intros ps' Hat' Hend. cbn [fst snd p_args].
  destruct ts as [|[c|[q e]] ts].
  - apply refines_gettoken_end; [done..|]. intros Hes. cbn [t_ret t_ps Z.eqb].
    eapply refines_run; [by eapply set_arg_end|done|]. by apply refines_ret.
  - destruct (starts "|)&;" _) eqn:Est.
    + eapply refines_run; [by eapply set_arg_end|done|]. by apply refines_ret.
    + pose proof (at_toks_ok _ _ _ Hat) as Hok. apply Forall_cons in Hok as [Hok _].
      apply refines_gettoken; [done..|]. intros tok Htok _ _. rewrite Htok, (sym_not_word c Hok). cbn [kind].
      rewrite (sym_not_nul c Hok). apply refines_panic; [done|by repeat constructor..].
  - change (starts "|)&;" (Word (q, e) :: ts)) with false. cbn iota.
    apply refines_gettoken; [done..|]. intros tok Htok Hw Hat1. destruct (Hw _ _ eq_refl) as [-> ->]. rewrite Htok. cbn [kind Z.eqb Pos.eqb negb].
    eapply refines_run; [eapply set_arg_run; [apply Hb|unfold MAXARGS in Hl; lia]|done|].
    pose proof (kept_insert s0 s k (EXEC (<[length args := Some q]> (slots args.*1)) (<[length args := Some e]> (slots args.*2))) Hk Hk0) as Hk1.
    pose proof (building_arg _ _ _ _ _ q e Hb Hl) as Hb1. set (s1 := set_heap _ s) in *. change (<[k := _]> (sh_heap s)) with (sh_heap s1) in Hb1.
    destruct (Z.leb_spec MAXARGS (Z.of_nat (length args) + 1)); [apply refines_panic; [done|by repeat constructor..]|].
    cbn [length] in Hn, Hm. 
    eapply (refines_bind _ _ s0 s1 0 2 ts _ _ (fun r rs' ts' s' =>
      kept s1 s' /\ at_toks text r.2 ts' /\ chain (sh_heap s') (S k) r.1 rs' /\ (r.1 <= length (sh_heap s'))%nat)).
    + eapply (refines_call _ s0 s1 0 0); [done|apply (parseredirs_refines (S k) p (t_ps tok) ts rs s1)|lia|done]; try (apply Hb1 || done).
      cbn. lia.
    + intros r rs' ts' s2 Hr Hk2 Hm2 (Hk12 & Hat2 & Hc2 & Hp2). cbn [sh_mem s1 set_heap] in Hm2.
      replace (Z.of_nat (length args) + 1) with (Z.of_nat (length (args ++ [(q, e)]))) by (rewrite length_app; cbn; lia).
      assert (Hn2 : node (sh_heap s2) (S k) = Some (EXEC (slots (args ++ [(q, e)]).*1) (slots (args ++ [(q, e)]).*2))).
      { eapply node_prefix; [apply Hb1|apply Hk12]. }
      pose proof (at_toks_length _ _ _ Hat2). eapply (refines_weaken _ _ _ 0); [apply IH|lia]; try done.
      * by eapply kept_line.
      * rewrite length_app. cbn. lia.
      * apply p_redirs_le in Hr. lia.
      * lia.
Qed.

(** The tree that a function returns a pointer to. *)
Definition returns (r : nat * Z) (t : tree (Z * Z)) (ts : list (lexeme (Z * Z))) (s : sh) : Prop :=
  at_toks text r.2 ts /\ at_tree (sh_heap s) r.1 t.

Lemma starts_amp ts t : starts "&" ts = false -> p_amps ts t = (t, ts : list (lexeme (Z * Z))).
Proof.
  destruct ts as [|[c|w] ts]; [done| |done]. cbn [starts p_amps]. change (chars "&") with [38]. cbn [existsb].
  destruct (Z.eqb_spec c 38) as [->|]; done.
Qed.

Lemma back_loop_refines n : forall p ps ts t s,
  on_line text junk s -> at_toks text ps ts -> at_tree (sh_heap s) p t -> (length ts < n)%nat -> (2 * length ts <= sh_mem s)%nat ->
  refines s (back_loop n p ps es) s 0 ts (POk (p_amps ts t).1 (p_amps ts t).2) returns.
Proof.
  induction n as [|n IH]; intros p ps ts t s Hs Hat Ht Hn Hm; [lia|]. cbn [back_loop].
  apply refines_peek; [done|done|by repeat constructor|]. intros ps' Hat' _. cbn [fst snd].
  destruct (starts "&" ts) eqn:Est.
  - destruct (starts_sym 38 _ _ Est eq_refl ltac:(lia)) as [ts1 ->]. cbn [p_amps Z.eqb Pos.eqb length] in *.
    apply refines_gettoken; [done..|]. intros tok _ _ Hat1.
    destruct (sh_mem s) as [|m] eqn:Hmem; [lia|]. apply (refines_new _ s s 1 ts1 _ _ _ m); [done|]. intros s' Hk.
    eapply (refines_call _ s s' 0); [done|apply (IH _ _ ts1 (TBack t))|lia|done].
    + by eapply kept_line.
    + done.
    + exists p. split; [apply node_new|]. split; [pose proof (at_tree_le _ _ _ Ht); lia|]. eapply at_tree_prefix; [done|apply Hk].
    + lia.
    + cbn. lia.
  - rewrite starts_amp by done. apply refines_ret; [apply kept_refl|done].
Qed.

(** What the four functions that call one another do. *)
Definition parses (F : Z -> Z -> M sh (nat * Z)) (P : list (lexeme (Z * Z)) -> pres (Z * Z) (tree (Z * Z))) : Prop :=
  forall ps ts s, on_line text junk s -> at_toks text ps ts -> (2 * length ts + 1 <= sh_mem s)%nat ->
  refines s (F ps es) s 1 ts (P ts) returns.

(** The right operand of a list or a pipe, and the node of both. *)
Lemma parses_binary F P toks c s0 s ps ts p t (mk : nat -> nat -> cmd) (mkt : tree (Z * Z) -> tree (Z * Z) -> tree (Z * Z)) :
  parses F P -> chars toks = [c] -> c <> 62 -> only_syms toks ->
  (forall h p pl pr tl tr, node h p = Some (mk pl pr) -> (pl < p)%nat -> (pr < p)%nat -> at_tree h pl tl -> at_tree h pr tr -> at_tree h p (mkt tl tr)) ->
  kept s0 s -> on_line text junk s -> at_toks text ps ts -> at_tree (sh_heap s) p t -> (2 * length ts <= sh_mem s)%nat ->
  refines s0 (b ← peek ps es toks;
              if b.1 : bool then
                tok ← gettoken b.2 es; r' ← F (t_ps tok) es; cmd ← new_cmd (mk p r'.1); mret (cmd, r'.2)
              else mret (p, b.2)) s 0 ts
    (if starts toks ts then pbind (P (tail ts)) (fun t' ts => POk (mkt t t') ts) else POk t ts) returns.
Proof.
  intros HF Hc H62 Hsym Hmk Hk0 Hs Hat Ht Hm. apply refines_peek; [done..|]. intros ps' Hat' _. cbn [fst snd].
  destruct (starts toks ts) eqn:Est; [|by apply refines_ret].
  destruct (starts_sym c _ _ Est Hc H62) as [ts1 ->]. cbn [tail length] in *.
  apply refines_gettoken; [done..|]. intros tok _ _ Hat1.
  apply (refines_bind _ _ s0 s 1 1 ts1 _ _ (fun r t' ts' s' => kept s s' /\ returns r t' ts' s')).
  - eapply (refines_call _ s0 s 1); [done|apply HF; [done..|lia]|lia|done].
  - intros r t' ts' s' _ Hk' Hm' (Hk & Hat2 & Ht'). destruct (sh_mem s') as [|m] eqn:Hmem; [lia|].
    apply (refines_new _ s0 s' 0 ts' _ _ _ m); [done|]. intros s2 Hk2. apply refines_ret; [by eapply kept_trans|].
    split; [done|]. cbn [fst]. pose proof (at_tree_le _ _ _ Ht'). pose proof (at_tree_prefix _ _ _ _ Ht (k_heap _ _ Hk)) as Htl.
    pose proof (at_tree_le _ _ _ Htl). apply (Hmk _ _ p r.1); [apply node_new|lia|lia|..]; by eapply at_tree_prefix; [|apply Hk2].
Qed.

Lemma parseline_step n : parses (parsepipe n) (p_pipe n) -> parses (parseline n) (p_line n) -> parses (parseline (S n)) (p_line (S n)).
Proof.
  intros Hp Hl ps ts s Hs Hat Hm. cbn [parseline p_line].
  apply (refines_bind _ _ s s 1 0 ts _ _ returns); [by apply Hp|].
  intros r t ts1 s1 _ Hk1 Hm1 [Hat1 Ht1]. pose proof (kept_line _ _ Hk1 Hs) as Hs1. apply refines_fuel; [done|].
  apply (refines_bind _ _ s s1 0 0 ts1 (POk (p_amps ts1 t).1 (p_amps ts1 t).2) (fun t ts =>
       if starts ";" ts then pbind (p_line n (tail ts)) (fun t' ts => POk (TList t t') ts) else POk t ts) returns).
  - eapply (refines_call _ s s1 0); [done|apply back_loop_refines; try done|lia|done].
    + pose proof (at_toks_length _ _ _ Hat1). lia.
    + lia.
  - intros r2 t2 ts2 s2 _ Hk2 Hm2 [Hat2 Ht2]. apply (parses_binary (parseline n) (p_line n) ";" 59 s s2 r2.2 ts2 r2.1 t2 LIST TList); try done.
    + by repeat constructor.
    + intros h p pl pr tl tr H1 H2 H3 H4 H5. by exists pl, pr.
    + by eapply kept_line.
    + lia.
Qed.

Lemma parsepipe_step n : parses (parseexec n) (p_exec n) -> parses (parsepipe n) (p_pipe n) -> parses (parsepipe (S n)) (p_pipe (S n)).
Proof.
  intros He Hp ps ts s Hs Hat Hm. cbn [parsepipe p_pipe].
  apply (refines_bind _ _ s s 1 0 ts _ _ returns); [by apply He|].
  intros r t ts1 s1 _ Hk1 Hm1 [Hat1 Ht1].
  apply (parses_binary (parsepipe n) (p_pipe n) "|" 124 s s1 r.2 ts1 r.1 t PIPE TPipe); try done.
  - by repeat constructor.
  - intros h p pl pr tl tr H1 H2 H3 H4 H5. by exists pl, pr.
  - by eapply kept_line.
  - lia.
Qed.

(** [parseblock], which is called at an opening parenthesis. *)
Definition parses_block (n : nat) : Prop :=
  forall ps ts s, on_line text junk s -> at_toks text ps (Sym 40 :: ts) -> (2 * length (Sym (W := Z * Z) 40 :: ts) + 1 <= sh_mem s)%nat ->
  refines s (parseblock n ps es) s 1 (Sym 40 :: ts) (p_block n (Sym 40 :: ts)) returns.

Lemma execcmd_builds s0 s n :
  let s' := MkSh (sh_buf s) (sh_heap s ++ [EXEC (replicate (Z.to_nat MAXARGS) None) (replicate (Z.to_nat MAXARGS) None)]) n (sh_io s) in
  kept s0 s' -> building (sh_heap s') (S (length (sh_heap s))) (S (length (sh_heap s))) [] [].
Proof. intros s' Hk. split_and!; [apply node_new|constructor|]. cbn. rewrite length_app. cbn. lia. Qed.

Lemma parseexec_step n : parses_block n -> parses (parseexec (S n)) (p_exec (S n)).
Proof.
  intros Hb ps ts s Hs Hat Hm. cbn [parseexec p_exec]. apply refines_peek; [done|done|by repeat constructor|]. intros ps' Hat' _. cbn [fst snd].
  destruct (starts "(" ts) eqn:Est; [destruct (starts_sym 40 _ _ Est eq_refl ltac:(lia)) as [ts1 ->]; by apply Hb|]. cbn zeta.
  destruct (sh_mem s) as [|m] eqn:Hmem; [lia|]. apply (refines_new _ s s 0 ts _ _ _ m); [done|]. intros s1 Hk1.
  pose proof (execcmd_builds s s m Hk1) as Hb1. fold s1 in Hb1. pose proof (kept_line _ _ Hk1 Hs) as Hs1.
  set (k := length (sh_heap s)) in *.
  apply (refines_bind _ _ s s1 0 0 ts _ _ (fun r rs ts' s' =>
    kept s1 s' /\ at_toks text r.2 ts' /\ chain (sh_heap s') (S k) r.1 rs /\ (r.1 <= length (sh_heap s'))%nat)).
  { eapply (refines_call _ s s1 0); [done|apply (parseredirs_refines (S k)); try done|lia|done]; [apply Hb1..|]. cbn. lia. }
  intros r rs ts1 s2 Hr Hk2 Hm2 (Hk12 & Hat2 & Hc2 & Hp2). pose proof (kept_line _ _ Hk2 Hs) as Hs2. cbn [sh_mem s1] in Hm2.
  apply refines_fuel; [done|].
  pose proof (parseexec_loop_refines (S (length text + S (length junk))) (S (length ts)) k r.1 r.2 ts1 [] rs s s2) as Hloop.
  assert (Hb2 : building (sh_heap s2) (S k) r.1 [] rs) by (split_and!; [eapply node_prefix; [apply Hb1|apply Hk12]|done|done]).
  pose proof (at_toks_length _ _ _ Hat2). specialize (Hloop Hk2 ltac:(lia) Hs2 Hat2 Hb2 ltac:(done) ltac:(lia) ltac:(lia)).
  destruct (p_args _ _ _ _) as [[args rs'] ts2|msg|]; cbn [pbind refines fst snd] in *; [|done..].
  eapply wp_mono; [|exact Hloop]. cbv beta. intros r' s3 (Hk3 & Hm3 & Hat3 & (Hn3 & Hc3 & _) & Hlen). split; [done|]. split; [lia|].
  split; [done|]. eapply chain_tree; [done|]. done.
Qed.

Lemma parseblock_step n : parses (parseline n) (p_line n) -> parses_block (S n).
Proof.
  intros Hl ps ts s Hs Hat Hm. cbn [parseblock p_block tail]. apply refines_peek; [done|done|by repeat constructor|].
  intros ps' Hat' _. cbn [fst snd]. change (negb (starts "(" (Sym 40 :: ts))) with false. cbn iota.
  apply refines_gettoken; [done..|]. intros tok _ _ Hat1. cbn [length] in Hm.
  apply (refines_bind _ _ s s 1 2 ts _ _ returns); [apply Hl; [done..|lia]|].
  intros r t ts1 s1 _ Hk1 Hm1 [Hat2 Ht]. pose proof (kept_line _ _ Hk1 Hs) as Hs1.
  apply refines_peek; [done|done|by repeat constructor|]. intros ps2 Hat3 _. cbn [fst snd].
  destruct (starts ")" ts1) eqn:Est; cbn [negb]; [|apply refines_panic; [done|by repeat constructor..]].
  destruct (starts_sym 41 _ _ Est eq_refl ltac:(lia)) as [ts2 ->]. cbn [tail length] in *.
  apply refines_gettoken; [done..|]. intros tok2 _ _ Hat4.
  assert (Hr : refines s (parseredirs r.1 (t_ps tok2) es) s1 0 ts2 (p_redirs ts2 [])
    (fun r' rs ts' s' => at_toks text r'.2 ts' /\ at_tree (sh_heap s') r'.1 (wrap rs t))).
  { eapply (refines_call _ s s1 0); [done|apply (parseredirs_refines r.1); try done|lia|]; [constructor|by apply at_tree_le in Ht as []|lia|].
    intros r' rs ts' s' Hk (Ha & Hc & _). split; [done|]. eapply chain_tree; [done|]. eapply at_tree_prefix; [done|apply Hk]. }
  destruct (p_redirs ts2 []) as [rs ts3|msg|]; cbn [pbind refines] in *; [|done..].
  eapply wp_mono; [|exact Hr]. cbv beta. intros r' s2 (Hk2 & Hm2 & HR). split; [done|]. split; [lia|done].
Qed.

Lemma parser_refines n :
  parses (parseline n) (p_line n) /\ parses (parsepipe n) (p_pipe n) /\ parses (parseexec n) (p_exec n) /\ parses_block n.
Proof.
  induction n as [|n (IHl & IHp & IHe & IHb)]; [done|].
  split_and!; [by apply parseline_step|by apply parsepipe_step|by apply parseexec_step|by apply parseblock_step].
Qed.

End parsing.

(** ** The strings *)

Fixpoint words {W} (t : tree W) : list W :=
  match t with
  | TExec args => args
  | TRedir t w _ => words t ++ [w]
  | TPipe l r | TList l r => words l ++ words r
  | TBack t => words t
  end.

Lemma words_map {W V} (f : W -> V) t : words (tree_map f t) = f <$> words t.
Proof. induction t as [args|t IH w c|l IHl r IHr|l IHl r IHr|t IH]; cbn; rewrite ?IH, ?IHl, ?IHr, ?fmap_app; done. Qed.

(** A command has only words of its tokens. *)
Lemma p_line_words {W} (P : W -> Prop) n ts t ts' :
  p_line n ts = POk t ts' -> (forall w, Word w ∈ ts -> P w) -> Forall P (words t).
Proof.
  intros Hp HP.
  assert (exists us : list (lexeme (sig P)), ts = lexeme_map proj1_sig <$> us) as [us ->].
  { clear Hp. induction ts as [|[c|w] ts IH]; [by exists []|destruct IH as [us ->]; [|by exists (Sym c :: us)]|destruct IH as [us ->]].
    - intros w Hw. apply HP. by apply list_elem_of_further.
    - intros w' Hw. apply HP. by apply list_elem_of_further.
    - assert (Hw : P w) by (apply HP; apply list_elem_of_here). by exists (Word (w ↾ Hw) :: us). }
  rewrite (proj1 (p_map proj1_sig n)) in Hp. destruct (p_line n us) as [u us'| |]; cbn in Hp; try done. injection Hp as <- <-.
  rewrite words_map. apply Forall_fmap, Forall_forall. intros [w Hw] _. exact Hw.
Qed.

Definition nul_all (b : list Z) (es : list Z) : list Z := foldl (fun b e => <[Z.to_nat e := 0]> b) b es.

Lemma length_nul_all es : forall b, length (nul_all b es) = length b.
Proof. induction es as [|e es IH]; intros b; [done|]. cbn. unfold nul_all in IH. by rewrite IH, length_insert. Qed.

Lemma lookup_nul_all es : forall b i,
  Forall (fun e => 0 <= e < Z.of_nat (length b)) es ->
  nul_all b es !! i = if bool_decide (Z.of_nat i ∈ es) then Some 0 else b !! i.
Proof.
  induction es as [|e es IH]; intros b i Hes; [done|]. apply Forall_cons in Hes as [He Hes]. cbn. fold (nul_all (<[Z.to_nat e := 0]> b) es).
  rewrite IH by (by rewrite length_insert). destruct (decide (Z.of_nat i ∈ es)) as [Hin|Hout].
  - rewrite !bool_decide_true by (done || by apply list_elem_of_further). done.
  - rewrite (bool_decide_false (Z.of_nat i ∈ es)) by done. destruct (decide (Z.of_nat i = e)) as [<-|Hne].
    + rewrite Nat2Z.id, list_lookup_insert_eq, bool_decide_true by (lia || apply list_elem_of_here). done.
    + rewrite list_lookup_insert_ne, bool_decide_false; [done| |lia]. by intros [?|?]%elem_of_cons.
Qed.

Lemma put_nul_run e s : 0 <= e < Z.of_nat (length (sh_buf s)) -> put_nul e s = Ret tt (set_buf (<[Z.to_nat e := 0]> (sh_buf s)) s).
Proof.
  intros He. unfold put_nul, Prelude.gets, aset, modify, mbind, M_bind.
  by rewrite (proj2 (Z.leb_le _ _)), (proj2 (Z.ltb_lt _ _)) by lia.
Qed.

Lemma nul_args_run qs es x y : forall s,
  length qs = length es -> Forall (fun e => 0 <= e < Z.of_nat (length (sh_buf s))) es ->
  nul_args ((Some <$> qs) ++ None :: x) ((Some <$> es) ++ y) s = Ret tt (set_buf (nul_all (sh_buf s) es) s).
Proof.
  revert es. induction qs as [|q qs IH]; intros [|e es] s Hl He; try done; cbn [fmap list_fmap app nul_args].
  - by destruct s.
  - apply Forall_cons in He as [He Hes]. unfold mbind, M_bind. rewrite put_nul_run by done.
    rewrite IH; [done|by injection Hl|]. cbn. by rewrite length_insert.
Qed.

Definition ends (t : tree (Z * Z)) : list Z := (words t).*2.

(** [nulterminate] ends every word of the command [t]. *)
Definition nul_ends (t : tree (Z * Z)) : Prop := forall n p s,
  at_tree (sh_heap s) p t -> (p < n)%nat -> Forall (fun e => 0 <= e < Z.of_nat (length (sh_buf s))) (ends t) ->
  nulterminate n p s = Ret tt (set_buf (nul_all (sh_buf s) (ends t)) s).

Lemma nul_ends_both l r n pl pr s :
  nul_ends l -> nul_ends r -> at_tree (sh_heap s) pl l -> at_tree (sh_heap s) pr r -> (pl < n)%nat -> (pr < n)%nat ->
  Forall (fun e => 0 <= e < Z.of_nat (length (sh_buf s))) (ends l ++ ends r) ->
  (nulterminate n pl ;; nulterminate n pr) s = Ret tt (set_buf (nul_all (sh_buf s) (ends l ++ ends r)) s).
Proof.
  intros Hl Hr Htl Htr Hpl Hpr [Hel Her]%Forall_app. unfold mbind, M_bind. rewrite Hl by done.
  rewrite Hr; [|done|done|cbn; by rewrite length_nul_all]. unfold nul_all. by rewrite foldl_app.
Qed.

Lemma nulterminate_run t : nul_ends t.
Proof.
  induction t as [args|t IH w c|l IHl r IHr|l IHl r IHr|t IH]; intros n p s Ht Hp He; (destruct n as [|n]; [lia|]);
    pose proof (at_tree_le _ _ _ Ht) as Hp0; cbn [at_tree nulterminate] in *.
  all: rewrite (proj2 (Nat.eqb_neq p 0)) by lia; unfold get at 1; unfold mbind at 1, M_bind at 1.
  - destruct Ht as [-> Hl]. unfold ends in *. cbn [words] in *. unfold slots. destruct (Z.to_nat MAXARGS - length args.*1)%nat as [|k] eqn:Hk.
    { rewrite length_fmap in Hk. unfold MAXARGS in *. lia. }
    cbn [replicate]. apply nul_args_run; [by rewrite !length_fmap|done].
  - destruct Ht as (p' & -> & Hlt & Ht). unfold ends in *. cbn [words] in *. rewrite fmap_app in *. apply Forall_app in He as [He Hw].
    unfold mbind, M_bind. rewrite IH by (done || lia). apply Forall_cons in Hw as [Hw _].
    rewrite put_nul_run by (cbn; by rewrite length_nul_all). unfold nul_all. by rewrite foldl_app.
  - destruct Ht as (pl & pr & -> & Hl & Hr & Htl & Htr). unfold ends in *. cbn [words] in *. rewrite fmap_app in *.
    apply nul_ends_both; try done; lia.
  - destruct Ht as (pl & pr & -> & Hl & Hr & Htl & Htr). unfold ends in *. cbn [words] in *. rewrite fmap_app in *.
    apply nul_ends_both; try done; lia.
  - destruct Ht as (p' & -> & Hlt & Ht). apply IH; [done|lia|done].
Qed.

(** ** The words of a line *)

Definition word_at (text : list Z) (w : Z * Z) : list Z := sub text (Z.to_nat w.1) (Z.to_nat (w.2 - w.1)).

Definition tokens (text : list Z) : list (lexeme (list Z)) := lexeme_map (word_at text) <$> lex text 0 None.

(** A place of a word: longest, and of its characters only. *)
Record word_ok (text : list Z) (w : Z * Z) : Prop := {
  wo_range : 0 <= w.1 < w.2 /\ w.2 <= Z.of_nat (length text);
  wo_in : forall i c, w.1 <= Z.of_nat i < w.2 -> text !! i = Some c -> is_word c = true;
  wo_end : forall c, text !! Z.to_nat w.2 = Some c -> is_word c = false
}.

Lemma span_word_ok text n c t :
  drop n text = c :: t -> is_word c = true ->
  word_ok text (Z.of_nat n, Z.of_nat n + Z.of_nat (span is_word (drop n text))).
Proof.
  intros Hd Hc. pose proof (span_le is_word (drop n text)) as Hsp. rewrite length_drop in Hsp. split; cbn [fst snd].
  - assert (0 < span is_word (drop n text))%nat by (rewrite Hd; cbn [span]; rewrite Hc; lia).
    apply (f_equal length) in Hd. rewrite length_drop in Hd. cbn in Hd. lia.
  - intros i x Hi Hx. pose proof (take_span is_word (drop n text)) as Hf. rewrite Forall_forall in Hf. apply Hf.
    apply elem_of_take. exists (i - n)%nat. split; [|lia]. rewrite lookup_drop. by replace (n + (i - n))%nat with i by lia.
  - intros x Hx. replace (Z.to_nat _) with (n + span is_word (drop n text))%nat in Hx by lia.
    rewrite <- (Nat.add_0_r (n + _)) in Hx. rewrite <- lookup_drop, <- drop_drop in Hx.
    destruct (drop (span is_word (drop n text)) (drop n text)) as [|y t'] eqn:E; [done|]. injection Hx as ->. by eapply drop_span_head.
Qed.

Lemma lex_words text w n : (n <= length text)%nat -> Word w ∈ lex (drop n text) (Z.of_nat n) None -> word_ok text w.
Proof.
  remember (length text - n)%nat as k eqn:Hk. assert (Hle : (length text - n <= k)%nat) by lia. clear Hk. revert n Hle.
  induction k as [|k IH]; intros n Hle Hn Hw.
  { rewrite drop_ge in Hw by lia. by apply elem_of_nil in Hw. }
  destruct (drop n text) as [|c t] eqn:Hd; [by apply elem_of_nil in Hw|]. pose proof (drop_tail _ _ _ _ Hd) as Ht.
  assert (Hlt : (n < length text)%nat) by (apply (f_equal length) in Hd; rewrite length_drop in Hd; cbn in Hd; lia).
  assert (IH1 : Word w ∈ lex t (Z.of_nat n + 1) None -> word_ok text w).
  { intros H. apply (IH (S n)); [lia|lia|]. rewrite Ht. by replace (Z.of_nat (S n)) with (Z.of_nat n + 1) by lia. }
  destruct (is_white c) eqn:Ec; [cbn [lex] in Hw; rewrite Ec in Hw; by apply IH1|]. rewrite lex_head in Hw by done.
  destruct (c =? 62) eqn:E62; [|destruct (is_sym c) eqn:Es].
  - destruct t as [|d t]; [by apply elem_of_cons in Hw as [?|?%IH1]|]. destruct (d =? 62); [|by apply elem_of_cons in Hw as [?|?%IH1]].
    apply elem_of_cons in Hw as [?|Hw]; [done|]. pose proof (drop_tail _ _ _ _ Ht) as Ht2.
    apply (f_equal length) in Ht. rewrite length_drop in Ht. cbn in Ht.
    apply (IH (S (S n))); [lia|lia|]. rewrite Ht2. by replace (Z.of_nat (S (S n))) with (Z.of_nat n + 1 + 1) by lia.
  - by apply elem_of_cons in Hw as [?|?%IH1].
  - rewrite <- Hd in Hw. cbn zeta in Hw.
    assert (Hcw : is_word c = true) by (unfold is_word; by rewrite Ec, Es).
    apply elem_of_cons in Hw as [Hw|Hw].
    + apply (f_equal (fun x => match x with Word w => w | Sym _ => w end)) in Hw. rewrite Hw. by eapply span_word_ok.
    + pose proof (span_le is_word (drop n text)) as Hsp. rewrite length_drop in Hsp. rewrite drop_drop in Hw.
      assert (0 < span is_word (drop n text))%nat by (rewrite Hd; cbn [span]; rewrite Hcw; lia).
      apply (IH (n + span is_word (drop n text))%nat); [lia|lia|]. by rewrite Nat2Z.inj_add.
Qed.

(** ** What [parsecmd] returns *)

(** The node [p] is the command [t], and its words are strings of the
    buffer; a node points to older ones. *)
Fixpoint shows (s : sh) (p : nat) (t : tree (list Z)) : Prop :=
  let str q w := is_str (drop (Z.to_nat q) (sh_buf s)) w in
  match t with
  | TExec args =>
      exists qs es, node (sh_heap s) p = Some (EXEC (slots qs) (slots es)) /\ Forall2 str qs args /\ Z.of_nat (length args) < MAXARGS
  | TRedir t w c =>
      exists p' q e, node (sh_heap s) p = Some (REDIR p' q e (redir_mode c) (redir_fd c)) /\ (p' < p)%nat /\ str q w /\ shows s p' t
  | TPipe l r =>
      exists pl pr, node (sh_heap s) p = Some (PIPE pl pr) /\ (pl < p)%nat /\ (pr < p)%nat /\ shows s pl l /\ shows s pr r
  | TList l r =>
      exists pl pr, node (sh_heap s) p = Some (LIST pl pr) /\ (pl < p)%nat /\ (pr < p)%nat /\ shows s pl l /\ shows s pr r
  | TBack t => exists p', node (sh_heap s) p = Some (BACK p') /\ (p' < p)%nat /\ shows s p' t
  end.

Lemma at_tree_shows s (f : Z * Z -> list Z) t : forall p,
  at_tree (sh_heap s) p t -> Forall (fun w => is_str (drop (Z.to_nat w.1) (sh_buf s)) (f w)) (words t) ->
  shows s p (tree_map f t).
Proof.
  induction t as [args|t IH w c|l IHl r IHr|l IHl r IHr|t IH]; intros p Ht Hw; cbn [at_tree shows tree_map words] in *.
  - destruct Ht as [Ht Hl]. exists args.*1, args.*2. split; [done|]. rewrite length_fmap. split; [|done].
    apply Forall2_fmap_l, Forall2_fmap_r. by apply Forall_Forall2_diag.
  - destruct Ht as (p' & H & Hp & Ht). apply Forall_app in Hw as [Hw [Hf _]%Forall_cons]. exists p', w.1, w.2. split_and!; auto.
  - destruct Ht as (pl & pr & H & Hl1 & Hr1 & Hl & Hr). apply Forall_app in Hw as [Hwl Hwr]. exists pl, pr. split_and!; auto.
  - destruct Ht as (pl & pr & H & Hl1 & Hr1 & Hl & Hr). apply Forall_app in Hw as [Hwl Hwr]. exists pl, pr. split_and!; auto.
  - destruct Ht as (p' & H & Hp & Ht). exists p'. auto.
Qed.

(** A word is a string once the ends of all words are NULs. *)
Lemma word_str text junk ws w :
  Forall (fun c => c <> 0) text -> Forall (word_ok text) ws -> w ∈ ws ->
  is_str (drop (Z.to_nat w.1) (nul_all (text ++ 0 :: junk) ws.*2)) (word_at text w).
Proof.
  intros Ht Hws Hw. rewrite Forall_forall in Hws. pose proof (Hws w Hw) as Hok. destruct (wo_range _ _ Hok) as [Hr Hlen].
  assert (Hes : Forall (fun e => 0 <= e < Z.of_nat (length (text ++ 0 :: junk))) ws.*2).
  { apply Forall_fmap, Forall_forall. intros v Hv. pose proof (wo_range _ _ (Hws v Hv)). cbn. rewrite length_app. cbn. lia. }
  split; [by apply Forall_take, Forall_drop|].
  set (b := nul_all _ _). exists (drop (S (Z.to_nat w.2)) b). apply list_eq. intros i. rewrite lookup_drop. subst b.
  set (q := Z.to_nat w.1). set (e := Z.to_nat w.2). assert (Hl : length (word_at text w) = (e - q)%nat).
  { unfold word_at, sub. rewrite length_take, length_drop. lia. }
  destruct (decide (i < e - q)%nat) as [Hi|Hi]; [|destruct (decide (i = e - q)%nat) as [->|Hi']].
  - rewrite lookup_nul_all, lookup_app_l by (done || lia). rewrite bool_decide_false.
    + rewrite lookup_app_l by lia. unfold word_at, sub. rewrite lookup_take_lt, lookup_drop by lia. done.
    + intros (v & Hv & Hv')%list_elem_of_fmap. pose proof (wo_end _ _ (Hws v Hv')) as Hend. rewrite <- Hv, Nat2Z.id in Hend.
      destruct (lookup_lt_is_Some_2 text (q + i)%nat) as [c Hc]; [lia|].
      pose proof (wo_in _ _ Hok (q + i)%nat c ltac:(lia) Hc) as Hin. rewrite (Hend c Hc) in Hin. done.
  - rewrite lookup_nul_all by done. rewrite bool_decide_true.
    + rewrite <- Hl. by rewrite list_lookup_middle.
    + apply list_elem_of_fmap. exists w. split; [lia|done].
  - rewrite lookup_app_r, Hl by lia. rewrite lookup_cons_ne_0 by lia. rewrite lookup_drop. f_equal. lia.
Qed.

Lemma leftovers_run l s :
  Forall in_u8 l -> printf 2 ("leftovers: %s" ++ nl) [PStr l] s = Ret tt (emit 2 (chars "leftovers: " ++ l ++ [10]) s).
Proof.
  intros Hl. change (chars "leftovers: " ++ l ++ [10]) with ([108; 101; 102; 116; 111; 118; 101; 114; 115; 58; 32] ++ l ++ [10]).
  unfold printf. change (chars _) with [108; 101; 102; 116; 111; 118; 101; 114; 115; 58; 32; 37; 115; 10]. by run_printf.
Qed.

Section parsecmd.
Variable (text junk : list Z).
Hypothesis Htext : Forall (fun c => c <> 0) text.
Hypothesis Hbytes : Forall in_u8 text.

Definition fuel_of : nat := (4 * Z.to_nat (Z.of_nat (length text)) + 4)%nat.

(** The parser of the places and the grammar of the words. *)
Lemma tokens_grammar t :
  p_line fuel_of (tokens text) = POk t [] <-> exists l, line_ok l /\ tokens text = toks_line l /\ t = tree_line l.
Proof.
  apply p_line_grammar. unfold tokens, fuel_of. rewrite length_fmap. pose proof (lex_length text 0 None) as H. cbn in H. lia.
Qed.

Lemma tokens_places : p_line fuel_of (tokens text) = pres_map (word_at text) (tree_map (word_at text)) (p_line fuel_of (lex text 0 None)).
Proof. apply p_map. Qed.

Lemma places_fuel : p_line fuel_of (lex text 0 None) <> PFuel.
Proof. apply p_fuel. unfold fuel_of. pose proof (lex_length text 0 None) as H. cbn in H. lia. Qed.

Lemma not_in_grammar : (forall t, p_line fuel_of (lex text 0 None) <> POk t []) -> ~ exists l, line_ok l /\ tokens text = toks_line l.
Proof.
  intros Hp (l & Hok & Hts). assert (Hl : p_line fuel_of (tokens text) = POk (tree_line l) []) by (apply tokens_grammar; by exists l).
  rewrite tokens_places in Hl. destruct (p_line fuel_of (lex text 0 None)) as [t [|]| |] eqn:E; cbn in Hl; try done. by apply (Hp t).
Qed.

(** What comes after [parseline]: the whole line has been read, or not. *)
Definition parsecmd_end (r : nat * Z) (es : Z) : M sh nat :=
  p ← peek r.2 es EmptyString;
  if negb (p.2 =? es) then
    b ← Prelude.gets sh_buf;
    sh_printf 2 ("leftovers: %s" ++ nl) [pstr (drop (Z.to_nat p.2) b)] ;;
    sh_panic "syntax"
  else
    h ← Prelude.gets sh_heap;
    nulterminate (S (length h)) r.1 ;;
    mret r.1.

Lemma parsecmd_split s :
  sh_buf s = text ++ 0 :: junk ->
  parsecmd 0 s = (r ← parseline fuel_of 0 (Z.of_nat (length text)); parsecmd_end r (Z.of_nat (length text))) s.
Proof.
  intros Hs. unfold parsecmd, fuel_of, Prelude.gets, mbind, M_bind. rewrite Hs. change (drop (Z.to_nat 0) ?x) with x.
  by rewrite (strlen_run _ text) by (split; [done|by exists junk]).
Qed.

Lemma leftovers_end r t tk ts s :
  on_line text junk s -> returns text r t (tk :: ts) s ->
  wpe (parsecmd_end r (Z.of_nat (length text))) s (fun _ _ => False)
    (fun w s' => w = Exited /\ exists msg, sh_io s' = emit 2 (msg ++ [10]) (sh_io s)).
Proof.
  intros Hs [Hat _]. unfold parsecmd_end. eapply (wpe_peek text junk); [done|done|done|constructor|].
  intros ps' (n & -> & Hn & Hl) _. cbn [fst snd].
  assert (n <> length text) as Hne by (intros ->; rewrite drop_ge in Hl by lia; done).
  rewrite (proj2 (Z.eqb_neq _ _)) by lia. cbn [negb]. unfold wpe, Prelude.gets, sh_panic, sh_printf, zoom, mbind, M_bind. cbn [view l_io].
  rewrite Nat2Z.id, Hs, drop_app_le by lia. rewrite (pstr_str _ (drop n text)).
  2: { split; [by apply Forall_drop|by exists junk]. }
  rewrite leftovers_run by (by apply Forall_drop). rewrite (pstr_str _ (chars "syntax")) by (apply is_str_lit; by repeat constructor).
  rewrite print_line by (by repeat constructor). split; [done|].
  exists (chars "leftovers: " ++ drop n text ++ [10] ++ chars "syntax"). cbn [update l_io set_io sh_io]. rewrite emit_app, <- !app_assoc. done.
Qed.

Lemma accepted_end r t s :
  on_line text junk s -> returns text r t [] s -> Forall (word_ok text) (words t) ->
  wp (parsecmd_end r (Z.of_nat (length text))) s (fun p s' =>
    shows s' p (tree_map (word_at text) t) /\ length (sh_buf s') = length (sh_buf s) /\ sh_io s' = sh_io s).
Proof.
  intros Hs [Hat Ht] Hw. unfold parsecmd_end. eapply (wpe_peek text junk); [done|done|done|constructor|].
  intros ps' _ ->; [|done]. cbn [fst snd]. rewrite Z.eqb_refl. cbn [negb].
  unfold wpe, Prelude.gets, mbind, M_bind. rewrite (nulterminate_run t); [|done|apply at_tree_le in Ht; lia|].
  - cbn. split_and!; [|apply length_nul_all|done]. apply at_tree_shows; [done|]. cbn. apply Forall_forall. intros w Hin.
    rewrite Hs. by apply word_str.
  - unfold ends. apply Forall_fmap, Forall_forall. rewrite Forall_forall in Hw. intros w Hin.
    pose proof (wo_range _ _ (Hw w Hin)). cbn. rewrite Hs, length_app. cbn. lia.
Qed.

Lemma parsecmd_run s :
  sh_buf s = text ++ 0 :: junk -> (2 * length text + 1 <= sh_mem s)%nat ->
  wpe (parsecmd 0) s
    (fun p s' => exists l, line_ok l /\ tokens text = toks_line l /\ shows s' p (tree_line l) /\
       length (sh_buf s') = length (sh_buf s) /\ sh_io s' = sh_io s)
    (fun w s' => w = Exited /\ (~ exists l, line_ok l /\ tokens text = toks_line l) /\
       exists msg, sh_io s' = emit 2 (msg ++ [10]) (sh_io s)).
Proof.
  intros Hs Hm. unfold wpe. rewrite parsecmd_split by done.
  pose proof (proj1 (parser_refines text junk Htext fuel_of) 0 (lex text 0 None) s Hs) as Hp.
  pose proof (lex_length text 0 None) as Hlen. cbn in Hlen.
  specialize (Hp ltac:(exists 0%nat; split_and!; [done|lia|done]) ltac:(lia)).
  pose proof places_fuel as Hf. destruct (p_line fuel_of (lex text 0 None)) as [t ts|msg|] eqn:E; cbn [refines] in Hp; [| |done].
  - apply wp_inv in Hp as (r & s1 & Hrun & Hk & _ & Hr). unfold mbind, M_bind. rewrite Hrun.
    pose proof (kept_line text junk _ _ Hk Hs) as Hs1. destruct ts as [|tk ts].
    + pose proof (p_line_words (word_ok text) _ _ _ _ E) as Hw. pose proof (accepted_end r t s1 Hs1 Hr) as Hend.
      apply wp_inv in Hend as (p & s2 & -> & Hsh & Hl & Hio); [|apply Hw; intros w; apply (lex_words text w 0); lia].
      assert (Hg : p_line fuel_of (tokens text) = POk (tree_map (word_at text) t) []) by (by rewrite tokens_places, E).
      apply tokens_grammar in Hg as (l & Hok & Hts & Htl). exists l. rewrite <- Htl. split_and!; try done; [|by rewrite Hio, (k_io _ _ Hk)].
      by rewrite Hl, (k_buf _ _ Hk).
    + pose proof (leftovers_end r t tk ts s1 Hs1 Hr) as Hend. unfold wpe in Hend.
      destruct (parsecmd_end r _ s1) as [|w s2]; [done|]. destruct Hend as (-> & msg & Hio).
      split_and!; [done|apply not_in_grammar; intros t'; by rewrite E|]. exists msg. by rewrite Hio, (k_io _ _ Hk).
  - unfold wpe, mbind, M_bind in *. destruct (parseline _ _ _ s) as [|w s1]; [done|]. destruct Hp as [-> Hio].
    split_and!; [done|apply not_in_grammar; intros t'; by rewrite E|]. by exists (chars msg).
Qed.

End parsecmd.

(** C30: [parsecmd] returns or exits on every line. It returns exactly on the
    lines of the grammar, with a pointer to the command that the line means,
    all of whose words are NUL-terminated strings of the buffer; on any other
    line it exits with a message on the standard error. *)
Theorem parsecmd_grammar text junk s :
  Forall (fun c => c <> 0) text -> Forall in_u8 text -> sh_buf s = text ++ 0 :: junk -> (2 * length text + 1 <= sh_mem s)%nat ->
  wpe (parsecmd 0) s
    (fun p s' => exists l, line_ok l /\ tokens text = toks_line l /\ shows s' p (tree_line l) /\
       length (sh_buf s') = length (sh_buf s) /\ sh_io s' = sh_io s)
    (fun w s' => w = Exited /\ (~ exists l, line_ok l /\ tokens text = toks_line l) /\
       exists msg, sh_io s' = emit 2 (msg ++ [10]) (sh_io s)).
Proof. intros Ht Hb. by apply parsecmd_run. Qed.

(** A command line in the shell's buffer. *)
Definition sh_demo (line : string) : sh := MkSh (lit line) [] 100 (Uio ∅ ∅ [] []).

Lemma parsecmd_grammar_witness :
  wpe (parsecmd 0) (sh_demo "(ls | wc)>f & ; a>>b")
    (fun p s' => exists l, line_ok l /\ tokens (chars "(ls | wc)>f & ; a>>b") = toks_line l /\ shows s' p (tree_line l) /\
       length (sh_buf s') = length (lit "(ls | wc)>f & ; a>>b") /\ sh_io s' = Uio ∅ ∅ [] [])
    (fun w s' => w = Exited /\ (~ exists l, line_ok l /\ tokens (chars "(ls | wc)>f & ; a>>b") = toks_line l) /\
       exists msg, sh_io s' = emit 2 (msg ++ [10]) (Uio ∅ ∅ [] [])).
Proof.
  apply (parsecmd_grammar (chars "(ls | wc)>f & ; a>>b") [] (sh_demo "(ls | wc)>f & ; a>>b")); [by repeat constructor..|done|].
  cbn. lia.
Defined.

(** ** Printing and parsing *)

Definition tok_text (t : lexeme (list Z)) : list Z :=
  match t with
  | Sym c => if c =? 43 then [62; 62] else [c]
  | Word w => w
  end.

(** A line with these tokens. *)
Definition render (ts : list (lexeme (list Z))) : list Z := ts ≫= (fun t => tok_text t ++ [32]).

Definition tok_valid (t : lexeme (list Z)) : Prop :=
  match t with
  | Sym c => is_sym c = true \/ c = 43
  | Word w => w <> [] /\ Forall (fun c => is_word c = true /\ c <> 0 /\ in_u8 c) w
  end.

Lemma span_word w r : Forall (fun c => is_word c = true) w -> span is_word (w ++ 32 :: r) = length w.
Proof. induction 1 as [|c w Hc _ IH]; cbn; [done|]. by rewrite Hc, IH. Qed.

Lemma sym_not_white c : is_sym c = true -> is_white c = false.
Proof.
  unfold is_sym, is_white. change (chars "<|>&;()") with [60; 124; 62; 38; 59; 40; 41]. cbn [existsb]. lia.
Qed.

Lemma lex_space t pos : lex (32 :: t) pos None = lex t (pos + 1) None.
Proof. done. Qed.

Lemma lex_render ts : forall pre,
  Forall tok_valid ts -> lexeme_map (word_at (pre ++ render ts)) <$> lex (render ts) (Z.of_nat (length pre)) None = ts.
Proof.
  induction ts as [|tk ts IH]; intros pre Hv; [done|]. apply Forall_cons in Hv as [Hk Hv].
  change (render (tk :: ts)) with ((tok_text tk ++ [32]) ++ render ts). rewrite <- app_assoc. cbn [app].
  assert (IH' : forall k, k = Z.of_nat (length (pre ++ tok_text tk)) ->
    lexeme_map (word_at (pre ++ tok_text tk ++ 32 :: render ts)) <$> lex (32 :: render ts) k None = ts).
  { intros k ->. rewrite lex_space. specialize (IH (pre ++ tok_text tk ++ [32]) Hv). rewrite <- !app_assoc in IH. cbn [app] in IH.
    etrans; [|exact IH]. do 2 f_equal. rewrite !length_app. cbn. lia. }
  destruct tk as [c|w]; cbn [tok_text tok_valid] in *.
  - destruct (Z.eqb_spec c 43) as [->|Hc].
    + cbn [app]. rewrite lex_head by done. cbn [Z.eqb Pos.eqb fmap list_fmap lexeme_map]. f_equal. apply IH'. rewrite length_app. cbn. lia.
    + destruct Hk as [Hs|?]; [|done]. cbn [app]. rewrite lex_head by (by apply sym_not_white). rewrite Hs.
      destruct (Z.eqb_spec c 62) as [->|]; cbn [Z.eqb Pos.eqb fmap list_fmap lexeme_map]; f_equal; apply IH'; rewrite length_app; cbn; lia.
  - destruct Hk as [Hne Hw]. assert (Hw1 : Forall (fun c => is_word c = true) w) by (eapply Forall_impl; [exact Hw|naive_solver]).
    destruct w as [|c w]; [done|]. apply Forall_cons in Hw1 as Hc. destruct Hc as [Hc _]. cbn [app]. rewrite lex_head by (unfold is_word in Hc; by destruct (is_white c)).
    rewrite (proj2 (Z.eqb_neq c 62)) by (by apply is_word_62). replace (is_sym c) with false by (unfold is_word in Hc; by destruct (is_white c), (is_sym c)).
    cbn zeta. change (c :: w ++ 32 :: render ts) with ((c :: w) ++ 32 :: render ts).
    rewrite (span_word (c :: w) (render ts) Hw1), (drop_app_length (c :: w)). cbn [fmap list_fmap lexeme_map]. f_equal.
    + f_equal. unfold word_at, sub. cbn [fst snd]. rewrite Nat2Z.id, drop_app_length, (take_app_length' (c :: w)) by lia. done.
    + apply IH'. rewrite length_app. lia.
Qed.

Lemma render_bytes ts : Forall tok_valid ts -> Forall (fun c => c <> 0 /\ in_u8 c) (render ts).
Proof.
  intros Hv. apply Forall_bind. eapply Forall_impl; [exact Hv|]. cbv beta. intros [c|w] Hk; cbn [tok_text tok_valid] in *; apply Forall_app; split.
  - unfold tok_text. destruct (Z.eqb_spec c 43); [repeat (apply Forall_cons; split; [done|]); constructor|]. destruct Hk as [Hs|?]; [|done]. apply Forall_singleton.
    unfold is_sym in Hs. change (chars "<|>&;()") with [60; 124; 62; 38; 59; 40; 41] in Hs. cbn [existsb] in Hs. unfold in_u8. lia.
  - by apply Forall_singleton.
  - destruct Hk as [_ Hw]. eapply Forall_impl; [exact Hw|naive_solver].
  - by apply Forall_singleton.
Qed.

(** C31: parsing is the inverse of printing: the command that [parsecmd] finds
    in a line printed with spaces between the tokens is the one that was
    printed, with the same words. *)
Theorem parsecmd_render l junk s :
  line_ok l -> Forall tok_valid (toks_line l) -> sh_buf s = render (toks_line l) ++ 0 :: junk ->
  (2 * length (render (toks_line l)) + 1 <= sh_mem s)%nat ->
  wp (parsecmd 0) s (fun p s' => shows s' p (tree_line l) /\ sh_io s' = sh_io s).
Proof.
  intros Hok Hv Hs Hm. set (text := render (toks_line l)) in *. pose proof (render_bytes _ Hv) as Hb. apply Forall_and in Hb as [H0 H8].
  assert (Htok : tokens text = toks_line l) by (apply (lex_render (toks_line l) []); done).
  pose proof (parsecmd_run text junk H0 H8 s Hs Hm) as Hrun. unfold wp, wpe in *. destruct (parsecmd 0 s) as [p s'|w s'].
  - destruct Hrun as (l' & Hok' & Htok' & Hsh & _ & Hio). split; [|done].
    assert (Hg : p_line (fuel_of text) (tokens text) = POk (tree_line l) []) by (apply tokens_grammar; by exists l).
    assert (Hg' : p_line (fuel_of text) (tokens text) = POk (tree_line l') []) by (apply tokens_grammar; by exists l').
    rewrite Hg in Hg'. injection Hg' as Ht. by rewrite Ht.
  - destruct Hrun as (_ & Hno & _). apply Hno. by exists l.
Qed.

(** [cat < a | wc > b &] and then [ls]. *)
Definition line_demo : line (list Z) :=
  LSeq (PBar (Simple [Arg (chars "cat"); Redir 60 (chars "a")]) (PEnd (Simple [Arg (chars "wc"); Redir 62 (chars "b")]))) 1
    (LEnd (PEnd (Simple [Arg (chars "ls")])) 0).

Lemma parsecmd_render_witness :
  wp (parsecmd 0) (sh_demo "cat < a | wc > b & ; ls ") (fun p s' => shows s' p (tree_line line_demo) /\ sh_io s' = Uio ∅ ∅ [] []).
Proof.
  apply (parsecmd_render line_demo []).
  - by repeat constructor.
  - by repeat constructor.
  - reflexivity.
  - vm_compute. lia.
Defined.
