(* ===== verification/Shrun.v ===== *)
(** How the shell runs a command, [runcmd] of [sh.c].

    What a process does is a tree of system calls that branches on their
    results; a fork continues in both processes. An interpreter gives the
    processes that come of it: what each of them says, where it waits and with
    which descriptors, and the program it executes or the exit it ends with,
    the kernel's rule being that a new descriptor is the lowest one that is
    free. Which files can be opened, which programs exist and which forks and
    pipes succeed is a parameter. *)

From S2P Require Import Prelude Mem Block User Ulib Uniq Sh Shlex Shgram Shparse.

Open Scope Z_scope.

(** ** System calls of a process *)

Inductive act :=
  | AExit
  | AStuck                                             (* a wild pointer *)
  | AExec (path : list Z) (argv : list (list Z)) (fails : act)
  | AClose (fd : Z) (k : act)
  | AOpen (path : list Z) (mode : Z) (k : Z -> act)
  | ADup (fd : Z) (k : Z -> act)
  | APipe (k : option (Z * Z) -> act)
  | AFork (k : Z -> act)
  | AWait (k : act)
  | APrint (fd : Z) (bs : list Z) (k : act).

(** [printf] *)
Definition act_printf (fd : Z) (fmt : string) (ap : list parg) (k : act) : act :=
  match printf fd fmt ap (Uio ∅ ∅ [] []) with
  | Ret _ s => APrint fd (written fd s) k
  | Stop _ _ => AStuck
  end.

Definition act_panic (msg : string) : act := act_printf 2 ("%s" ++ nl) [pstr (lit msg)] AExit.
Arguments act_panic msg%_string_scope.

Definition fork1 (k : Z -> act) : act := AFork (fun pid => if pid =? -1 then act_panic "fork" else k pid).

(** ** runcmd *)

(** The string at an offset of the buffer. *)
Definition string_at (s : sh) (q : Z) : list Z := cut0 (drop (Z.to_nat q) (sh_buf s)).

(** The arguments before the null pointer. *)
Fixpoint args_of (s : sh) (argv : list (option Z)) : list (list Z) :=
  match argv with
  | Some q :: argv => string_at s q :: args_of s argv
  | _ => []
  end.

Fixpoint runcmd (n : nat) (s : sh) (cmd : nat) : act :=
  match n with
  | O => AStuck
  | S n =>
      if Nat.eqb cmd 0 then AExit
      else
        match node (sh_heap s) cmd with
        | None => AStuck
        | Some (EXEC argv _) =>
            match argv with
            | Some q :: _ =>
                AExec (string_at s q) (args_of s argv)
                  (act_printf 2 ("exec %s failed" ++ nl) [PStr (string_at s q)] AExit)
            | None :: _ => AExit
            | [] => AStuck
            end
        | Some (REDIR cmd file _ mode fd) =>
            AClose fd (AOpen (string_at s file) mode (fun r =>
              if r <? 0 then act_printf 2 ("open %s failed" ++ nl) [PStr (string_at s file)] AExit
              else runcmd n s cmd))
        | Some (LIST l r) =>
            fork1 (fun pid =>
              if pid =? 0 then runcmd n s l
              else AWait (runcmd n s r))
        | Some (PIPE l r) =>
            APipe (fun p =>
              match p with
              | None => act_panic "pipe"
              | Some (p0, p1) =>
                  fork1 (fun pid =>
                    if pid =? 0 then
                      AClose 1 (ADup p1 (fun _ => AClose p0 (AClose p1 (runcmd n s l))))
                    else
                      fork1 (fun pid =>
                        if pid =? 0 then
                          AClose 0 (ADup p0 (fun _ => AClose p0 (AClose p1 (runcmd n s r))))
                        else AClose p0 (AClose p1 (AWait (AWait AExit)))))
              end)
        | Some (BACK cmd) => fork1 (fun pid => if pid =? 0 then runcmd n s cmd else AExit)
        end
  end.

(** ** Reading commands *)

(** The array and the result. *)
Definition getcmd (buf : list Z) (nbuf : Z) : M uio (list Z * Z) :=
  printf 2 "$ " [] ;;
  let buf := splice buf 0 (replicate (Z.to_nat nbuf) 0) in
  buf ← gets buf nbuf;
  match buf with
  | [] => wild
  | c :: _ => mret (buf, if c =? 0 then -1 else 0)
  end.

(** [while((fd = open("console", O_RDWR)) >= 0) if(fd >= 3) ...] *)
Fixpoint open_console (n : nat) : M uio unit :=
  match n with
  | O => out_of_fuel
  | S n =>
      fd ← open (chars "console");
      if 0 <=? fd then
        if 3 <=? fd then close fd else open_console n
      else mret tt
  end.

Section shell.

(** [chdir], and the fork of a child that runs [runcmd(parsecmd(buf))] until
    the shell has waited for it: the identifier of the child, or -1. *)
Variable (chdir : list Z -> M uio Z) (spawn : list Z -> M uio Z).

Fixpoint sh_loop (n : nat) (buf : list Z) : M uio unit :=
  match n with
  | O => out_of_fuel
  | S n =>
      r ← getcmd buf 100;
      let buf := r.1 in
      if 0 <=? r.2 then
        if (default 0 (buf !! 0%nat) =? 99) && (default 0 (buf !! 1%nat) =? 100) && (default 0 (buf !! 2%nat) =? 32) then
          len ← strlen buf;
          buf ← aset buf (len - 1) 0;
          e ← chdir (cut0 (drop 3 buf));
          when (e <? 0) (printf 2 ("cannot cd %s" ++ nl) [pstr (drop 3 buf)]) ;;
          sh_loop n buf
        else
          pid ← spawn buf;
          if pid =? -1 then printf 2 ("%s" ++ nl) [pstr (lit "fork")] ;; exit
          else sh_loop n buf
      else mret tt
  end.

(** A descriptor table has 16 entries. *)
Definition sh_main (fuel : nat) : M uio unit :=
  open_console 17 ;;
  sh_loop fuel (replicate 100 0) ;;
  exit.

End shell.

(** ** What the processes do *)

(** The place of a system call: the results of those before it that it
    depends on, the last one first. A fork adds [true] in the child and
    [false] in the parent, and open and pipe add [false]. *)
Definition place := list bool.

(** A pipe is named by the place of the call that made it. *)
Inductive desc :=
  | DInherited (n : nat)
  | DFile (path : list Z) (mode : Z)
  | DPipeRead (id : place)
  | DPipeWrite (id : place).

Definition fdtable := gmap Z desc.

(** The lowest free descriptor. *)
Fixpoint lowest (n : nat) (fds : fdtable) (fd : Z) : Z :=
  match n with
  | O => -1
  | S n => match fds !! fd with None => fd | Some _ => lowest n fds (fd + 1) end
  end.

Definition fdalloc (d : desc) (fds : fdtable) : option (Z * fdtable) :=
  let fd := lowest 16 fds 0 in
  if fd <? 0 then None else Some (fd, <[fd := d]> fds).

(** A process and its children: what it writes and to what, its forks and its
    waits, and how it ends. A wait and the end have the place and the
    descriptors that are open there. *)
Inductive proctree :=
  | PExit (x : place) (fds : fdtable)
  | PExec (x : place) (path : list Z) (argv : list (list Z)) (fds : fdtable)
  | PStuck
  | PSay (d : option desc) (bs : list Z) (k : proctree)
  | PFork (child k : proctree)
  | PWait (x : place) (fds : fdtable) (k : proctree).

(** Whether a call at some place succeeds. *)
Record world := World {
  exists_prog : place -> list Z -> bool;
  can_open : place -> list Z -> Z -> bool;
  can_pipe : place -> bool;
  can_fork : place -> bool
}.

Section run.
Variable (W : world).

Fixpoint run (a : act) (fds : fdtable) (x : place) : proctree :=
  match a with
  | AExit => PExit x fds
  | AStuck => PStuck
  | AExec path argv fails => if exists_prog W x path then PExec x path argv fds else run fails fds x
  | AClose fd k => run k (delete fd fds) x
  | AOpen path mode k =>
      match (if can_open W x path mode then fdalloc (DFile path mode) fds else None) with
      | Some (fd, fds) => run (k fd) fds (false :: x)
      | None => run (k (-1)) fds (false :: x)
      end
  | ADup fd k =>
      match fds !! fd ≫= fun d => fdalloc d fds with
      | Some (fd, fds) => run (k fd) fds x
      | None => run (k (-1)) fds x
      end
  | APipe k =>
      match (if can_pipe W x then fdalloc (DPipeRead x) fds else None) with
      | Some (r, fds1) =>
          match fdalloc (DPipeWrite x) fds1 with
          | Some (w, fds2) => run (k (Some (r, w))) fds2 (false :: x)
          | None => run (k None) fds (false :: x)
          end
      | None => run (k None) fds (false :: x)
      end
  | AFork k =>
      if can_fork W x then PFork (run (k 0) fds (true :: x)) (run (k 1) fds (false :: x))
      else run (k (-1)) fds (false :: x)
  | AWait k => PWait x fds (run k fds x)
  | APrint fd bs k => PSay (fds !! fd) bs (run k fds x)
  end.

(** The message of a process that gives up, and its end. *)
Definition give_message (bs : list Z) (fds : fdtable) (x : place) : proctree := PSay (fds !! 2) (bs ++ [10]) (PExit x fds).

(** What a command means: the programs with their descriptors, and the
    processes of the shell that wait for them. *)
Fixpoint denote (t : tree (list Z)) (fds : fdtable) (x : place) : proctree :=
  match t with
  | TExec [] => PExit x fds
  | TExec (w :: ws) =>
      if exists_prog W x w then PExec x w (w :: ws) fds
      else give_message (chars "exec " ++ w ++ chars " failed") fds x
  | TRedir t w c =>
      if can_open W x w (redir_mode c) then denote t (<[redir_fd c := DFile w (redir_mode c)]> fds) (false :: x)
      else give_message (chars "open " ++ w ++ chars " failed") (delete (redir_fd c) fds) (false :: x)
  | TPipe l r =>
      if can_pipe W x then
        let ends := <[4 := DPipeWrite x]> (<[3 := DPipeRead x]> fds) in
        let x1 := false :: x in
        let x2 := false :: x1 in
        if can_fork W x1 then
          PFork (denote l (<[1 := DPipeWrite x]> fds) (true :: x1))
            (if can_fork W x2 then
               PFork (denote r (<[0 := DPipeRead x]> fds) (true :: x2))
                 (PWait (false :: x2) fds (PWait (false :: x2) fds (PExit (false :: x2) fds)))
             else give_message (chars "fork") ends (false :: x2))
        else give_message (chars "fork") ends x2
      else give_message (chars "pipe") fds (false :: x)
  | TList l r =>
      if can_fork W x then PFork (denote l fds (true :: x)) (PWait (false :: x) fds (denote r fds (false :: x)))
      else give_message (chars "fork") fds (false :: x)
  | TBack t =>
      if can_fork W x then PFork (denote t fds (true :: x)) (PExit (false :: x) fds)
      else give_message (chars "fork") fds (false :: x)
  end.

(** ** The descriptors of a process of the shell *)

Definition std (d0 d1 d2 : desc) : fdtable := {[0 := d0; 1 := d1; 2 := d2]}.

Lemma exec_failed w k :
  Forall in_u8 w -> act_printf 2 ("exec %s failed" ++ nl) [PStr w] k = APrint 2 (chars "exec " ++ w ++ chars " failed" ++ [10]) k.
Proof.
  intros Hw. unfold act_printf. assert (E : forall s, printf 2 ("exec %s failed" ++ nl) [PStr w] s =
    Ret tt (emit 2 (chars "exec " ++ w ++ chars " failed" ++ [10]) s)); [|by rewrite E, written_emit].
  intros s. unfold printf. change (chars ("exec %s failed" ++ nl)) with [101; 120; 101; 99; 32; 37; 115; 32; 102; 97; 105; 108; 101; 100; 10].
  by run_printf.
Qed.

Lemma open_failed w k :
  Forall in_u8 w -> act_printf 2 ("open %s failed" ++ nl) [PStr w] k = APrint 2 (chars "open " ++ w ++ chars " failed" ++ [10]) k.
Proof.
  intros Hw. unfold act_printf. assert (E : forall s, printf 2 ("open %s failed" ++ nl) [PStr w] s =
    Ret tt (emit 2 (chars "open " ++ w ++ chars " failed" ++ [10]) s)); [|by rewrite E, written_emit].
  intros s. unfold printf. change (chars ("open %s failed" ++ nl)) with [111; 112; 101; 110; 32; 37; 115; 32; 102; 97; 105; 108; 101; 100; 10].
  by run_printf.
Qed.

Lemma args_of_slots s qs ws :
  Forall2 (fun q w => is_str (drop (Z.to_nat q) (sh_buf s)) w) qs ws -> Z.of_nat (length ws) < MAXARGS -> args_of s (slots qs) = ws.
Proof.
  intros H Hl. assert (Hlen := Forall2_length _ _ _ H). unfold slots. destruct (Z.to_nat MAXARGS - length qs)%nat as [|k] eqn:Hk.
  { unfold MAXARGS in *. lia. }
  clear Hl Hk Hlen. induction H as [|q w qs ws Hq _ IH]; [done|].
  cbn [fmap list_fmap app args_of]. f_equal; [by apply is_str_cut0|exact IH].
Qed.

Lemma run_redir w c d0 d1 d2 x (k : act) fails :
  run (AClose (redir_fd c) (AOpen w (redir_mode c) (fun r => if r <? 0 then fails else k))) (std d0 d1 d2) x =
  if can_open W x w (redir_mode c) then run k (<[redir_fd c := DFile w (redir_mode c)]> (std d0 d1 d2)) (false :: x)
  else run fails (delete (redir_fd c) (std d0 d1 d2)) (false :: x).
Proof.
  cbn [run]. destruct (can_open W x w (redir_mode c)); [|done]. unfold redir_fd. destruct (c =? 60); reflexivity.
Qed.

Lemma run_panic msg fds x :
  msg = "fork"%string \/ msg = "pipe"%string -> run (act_panic msg) fds x = give_message (chars msg) fds x.
Proof. by intros [-> | ->]. Qed.

(** The two sides of a pipe: each gets its end in place of a standard
    descriptor, and no other one; the process that waits for them has none. *)
Lemma run_pipe d0 d1 d2 x left right :
  let fds := std d0 d1 d2 in
  let ends := <[4 := DPipeWrite x]> (<[3 := DPipeRead x]> fds) in
  let x1 := false :: x in
  let x2 := false :: x1 in
  run (APipe (fun p =>
         match p with
         | None => act_panic "pipe"
         | Some (p0, p1) =>
             fork1 (fun pid =>
               if pid =? 0 then AClose 1 (ADup p1 (fun _ => AClose p0 (AClose p1 left)))
               else
                 fork1 (fun pid =>
                   if pid =? 0 then AClose 0 (ADup p0 (fun _ => AClose p0 (AClose p1 right)))
                   else AClose p0 (AClose p1 (AWait (AWait AExit)))))
         end)) fds x =
  if can_pipe W x then
    if can_fork W x1 then
      PFork (run left (std d0 (DPipeWrite x) d2) (true :: x1))
        (if can_fork W x2 then
           PFork (run right (std (DPipeRead x) d1 d2) (true :: x2))
             (PWait (false :: x2) fds (PWait (false :: x2) fds (PExit (false :: x2) fds)))
         else give_message (chars "fork") ends (false :: x2))
    else give_message (chars "fork") ends x2
  else give_message (chars "pipe") fds (false :: x).
Proof.
  intros fds ends x1 x2. cbn [run]. destruct (can_pipe W x); [|by apply run_panic; right].
  change (fdalloc (DPipeRead x) fds) with (Some (3, <[3 := DPipeRead x]> fds)). cbn iota.
  change (fdalloc (DPipeWrite x) (<[3 := DPipeRead x]> fds)) with (Some (4, ends)). cbn iota. unfold fork1. cbn [run Z.eqb].
  fold x1. destruct (can_fork W x1); [|cbn [Pos.eqb]; by apply run_panic; left].
  change (delete 1 ends !! 4 ≫= (fun d => fdalloc d (delete 1 ends))) with (Some (1, <[1 := DPipeWrite x]> (delete 1 ends))).
  cbn iota. change (delete 4 (delete 3 (<[1 := DPipeWrite x]> (delete 1 ends)))) with (std d0 (DPipeWrite x) d2). f_equal.
Qed.

Lemma runcmd_denotes t : forall n s p d0 d1 d2 x,
  shows s p t -> (p < n)%nat -> Forall (Forall in_u8) (words t) ->
  run (runcmd n s p) (std d0 d1 d2) x = denote t (std d0 d1 d2) x.
Proof.
  induction t as [args|t IH w c|l IHl r IHr|l IHl r IHr|t IH]; intros n s p d0 d1 d2 x Hs Hp Hw; (destruct n as [|n]; [lia|]);
    cbn [shows words] in *.
  - destruct Hs as (qs & es & Hn & Hargs & Hl). cbn [runcmd]. rewrite (proj2 (Nat.eqb_neq p 0)) by (apply node_lt in Hn; lia). rewrite Hn.
    pose proof (args_of_slots s qs args Hargs Hl) as Ha. destruct Hargs as [|q w qs ws Hq Hqs]; [done|].
    apply Forall_cons in Hw as [Hw _]. change (slots (q :: qs)) with (Some q :: ((Some <$> qs) ++ replicate (Z.to_nat MAXARGS - S (length qs)) None)) in *.
    cbn iota. rewrite Ha. assert (Hstr : string_at s q = w) by (by apply is_str_cut0). rewrite Hstr.
    rewrite exec_failed by done. cbn [run denote]. destruct (exists_prog W x w); [done|]. unfold give_message. by rewrite <- !app_assoc.
  - destruct Hs as (p' & q & e & Hn & Hp' & Hq & Hs). cbn [runcmd]. rewrite (proj2 (Nat.eqb_neq p 0)) by (apply node_lt in Hn; lia). rewrite Hn.
    apply Forall_app in Hw as [Hw [Hww _]%Forall_cons]. assert (Hstr : string_at s q = w) by (by apply is_str_cut0). rewrite Hstr.
    rewrite run_redir, open_failed by done. cbn [denote]. destruct (can_open W x w (redir_mode c)).
    + unfold redir_fd. destruct (c =? 60).
      * apply (IH n s p' (DFile w (redir_mode c)) d1 d2); [done|lia|done].
      * apply (IH n s p' d0 (DFile w (redir_mode c)) d2); [done|lia|done].
    + cbn [run]. unfold give_message. by rewrite <- !app_assoc.
  - destruct Hs as (pl & pr & Hn & Hpl & Hpr & Hl & Hr). cbn [runcmd]. rewrite (proj2 (Nat.eqb_neq p 0)) by (apply node_lt in Hn; lia). rewrite Hn.
    apply Forall_app in Hw as [Hwl Hwr]. rewrite run_pipe. cbn zeta. rewrite (IHl n s pl) by (done || lia).
    by rewrite (IHr n s pr) by (done || lia).
  - destruct Hs as (pl & pr & Hn & Hpl & Hpr & Hl & Hr). cbn [runcmd]. rewrite (proj2 (Nat.eqb_neq p 0)) by (apply node_lt in Hn; lia). rewrite Hn.
    apply Forall_app in Hw as [Hwl Hwr]. unfold fork1. cbn [run Z.eqb denote]. rewrite (IHl n s pl) by (done || lia).
    rewrite (IHr n s pr) by (done || lia). destruct (can_fork W x); [done|]. cbn [Pos.eqb]. by apply run_panic; left.
  - destruct Hs as (p' & Hn & Hp' & Hs). cbn [runcmd]. rewrite (proj2 (Nat.eqb_neq p 0)) by (apply node_lt in Hn; lia). rewrite Hn.
    unfold fork1. cbn [run Z.eqb denote]. rewrite (IH n s p') by (done || lia).
    destruct (can_fork W x); [done|]. cbn [Pos.eqb]. by apply run_panic; left.
Qed.

(** ** Who holds the ends of a pipe *)

(** The places and descriptors of the processes that wait or have become
    another program: while a process does that it holds its descriptors. *)
Fixpoint holds (t : proctree) : list (place * fdtable) :=
  match t with
  | PExit _ _ | PStuck => []
  | PExec x _ _ fds => [(x, fds)]
  | PSay _ _ k => holds k
  | PFork c k => holds c ++ holds k
  | PWait x fds k => (x, fds) :: holds k
  end.

(** The process at [x] is in the command on the left of the pipe [q], and on
    the right of it. *)
Definition on_left (q x : place) : Prop := (true :: false :: q) `suffix_of` x.
Definition on_right (q x : place) : Prop := (true :: false :: false :: q) `suffix_of` x.

(** A process that holds [d] is entitled to it. *)
Definition entitled (x : place) (d : desc) : Prop :=
  match d with
  | DPipeRead q => on_right q x
  | DPipeWrite q => on_left q x
  | _ => True
  end.

(** The standard descriptors and no other one, each of them one of those in
    [ds], which the process began with, or one it is entitled to. *)
Definition well_held (ds : list desc) (h : place * fdtable) : Prop :=
  exists d0 d1 d2, h.2 = std d0 d1 d2 /\ Forall (fun d => d ∈ ds \/ entitled h.1 d) [d0; d1; d2].

Fixpoint no_stuck (t : proctree) : Prop :=
  match t with
  | PExit _ _ | PExec _ _ _ _ => True
  | PStuck => False
  | PSay _ _ k => no_stuck k
  | PFork c k => no_stuck c /\ no_stuck k
  | PWait _ _ k => no_stuck k
  end.

Lemma entitled_suffix x y d : entitled x d -> x `suffix_of` y -> entitled y d.
Proof. destruct d; cbn; try done; unfold on_left, on_right; intros H1 H2; by etrans. Qed.

Lemma well_held_weaken ds ds' x h :
  x `suffix_of` h.1 -> Forall (fun d => d ∈ ds \/ entitled x d) ds' -> well_held ds' h -> well_held ds h.
Proof.
  intros Hx Hds (d0 & d1 & d2 & E & H). exists d0, d1, d2. split; [done|]. eapply Forall_impl; [exact H|]. cbv beta.
  intros d [Hd|Hd]; [|by right]. rewrite Forall_forall in Hds. destruct (Hds d Hd) as [?|He]; [by left|right]. by eapply entitled_suffix.
Qed.

(** Everything below [x] is as it should be. *)
Definition holds_ok (ds : list desc) (x : place) (t : proctree) : Prop :=
  Forall (fun h => x `suffix_of` h.1 /\ well_held ds h) (holds t) /\ no_stuck t.

Lemma holds_ok_weaken ds ds' x y t :
  x `suffix_of` y -> Forall (fun d => d ∈ ds \/ entitled y d) ds' -> holds_ok ds' y t -> holds_ok ds x t.
Proof.
  intros Hxy Hds [H1 H2]. split; [|done]. eapply Forall_impl; [exact H1|]. cbv beta. intros h [Hy Hh].
  split; [by etrans|]. by eapply (well_held_weaken ds ds' y).
Qed.

Lemma well_held_std d0 d1 d2 x : well_held [d0; d1; d2] (x, std d0 d1 d2).
Proof. exists d0, d1, d2. split; [done|]. apply Forall_forall. auto. Qed.

Lemma denote_holds t : forall d0 d1 d2 x, holds_ok [d0; d1; d2] x (denote t (std d0 d1 d2) x).
Proof.
  assert (Hmsg : forall ds x bs fds y, holds_ok ds x (give_message bs fds y)) by (by intros; split; [constructor|]).
  assert (Hsame : forall ds y, Forall (fun d => d ∈ ds \/ entitled y d) ds) by (intros; apply Forall_forall; auto).
  assert (Hstep : forall b (x : place), x `suffix_of` b :: x) by (intros; by apply suffix_cons_r).
  assert (Hwait : forall d0 d1 d2 x y, x `suffix_of` y -> x `suffix_of` (y, std d0 d1 d2).1 /\ well_held [d0; d1; d2] (y, std d0 d1 d2))
    by (intros; split; [done|apply well_held_std]).
  induction t as [args|t IH w c|l IHl r IHr|l IHl r IHr|t IH]; intros d0 d1 d2 x; cbn [denote].
  - destruct args as [|w ws]; [by split; [constructor|]|]. destruct (exists_prog W x w); [|apply Hmsg].
    split; [|done]. by apply Forall_singleton, Hwait.
  - destruct (can_open _ _ _ _); [|apply Hmsg]. unfold redir_fd. destruct (c =? 60).
    + eapply holds_ok_weaken; [apply Hstep| |apply (IH (DFile w (redir_mode c)) d1 d2)].
      apply Forall_cons. split; [by right|]. repeat (apply Forall_cons; split; [left; set_solver|]). constructor.
    + eapply holds_ok_weaken; [apply Hstep| |apply (IH d0 (DFile w (redir_mode c)) d2)].
      apply Forall_cons. split; [left; set_solver|]. apply Forall_cons. split; [by right|].
      apply Forall_cons. split; [left; set_solver|]. constructor.
  - destruct (can_pipe W x); [|apply Hmsg]. cbn zeta. destruct (can_fork _ _); [|apply Hmsg].
    destruct (holds_ok_weaken [d0; d1; d2] [d0; DPipeWrite x; d2] x (true :: false :: x) (denote l (std d0 (DPipeWrite x) d2) (true :: false :: x)))
      as [L1 L2]; [by do 2 apply suffix_cons_r| |apply IHl|].
    { apply Forall_cons. split; [left; set_solver|]. apply Forall_cons. split; [right; by exists []|]. apply Forall_cons. split; [left; set_solver|]. constructor. }
    destruct (can_fork W _); [|split; [apply Forall_app; split; [exact L1|constructor]|by split]].
    destruct (holds_ok_weaken [d0; d1; d2] [DPipeRead x; d1; d2] x (true :: false :: false :: x)
      (denote r (std (DPipeRead x) d1 d2) (true :: false :: false :: x))) as [R1 R2]; [by do 3 apply suffix_cons_r| |apply IHr|].
    { apply Forall_cons. split; [right; by exists []|]. repeat (apply Forall_cons; split; [left; set_solver|]). constructor. }
    split; [|by split]. apply Forall_app. split; [exact L1|]. apply Forall_app. split; [exact R1|].
    repeat (apply Forall_cons; split; [apply Hwait; by do 3 apply suffix_cons_r|]). constructor.
  - destruct (can_fork W x); [|apply Hmsg].
    destruct (holds_ok_weaken _ _ _ _ _ (Hstep true x) (Hsame [d0; d1; d2] _) (IHl d0 d1 d2 (true :: x))) as [L1 L2].
    destruct (holds_ok_weaken _ _ _ _ _ (Hstep false x) (Hsame [d0; d1; d2] _) (IHr d0 d1 d2 (false :: x))) as [R1 R2].
    split; [|by split]. apply Forall_app. split; [exact L1|]. apply Forall_cons. split; [by apply Hwait|exact R1].
  - destruct (can_fork W x); [|apply Hmsg].
    destruct (holds_ok_weaken _ _ _ _ _ (Hstep true x) (Hsame [d0; d1; d2] _) (IH d0 d1 d2 (true :: x))) as [L1 L2].
    split; [|by split]. apply Forall_app. split; [exact L1|constructor].
Qed.

End run.

Lemma shows_lt s p t : shows s p t -> (p <= length (sh_heap s))%nat.
Proof.
  intros H. assert (exists c, node (sh_heap s) p = Some c) as [c Hc%node_lt]; [|lia].
  destruct t; cbn [shows] in H; [destruct H as (? & ? & H & _)|destruct H as (? & ? & ? & H & _)|destruct H as (? & ? & H & _)..|destruct H as (? & H & _)]; by eexists.
Qed.

(** The words of a line are bytes of it. *)
Lemma tokens_bytes text l :
  Forall in_u8 text -> line_ok l -> tokens text = toks_line l -> Forall (Forall in_u8) (words (tree_line l)).
Proof.
  intros H8 Hok Hts. assert (Hp : p_line (fuel_of text) (tokens text) = POk (tree_line l) []) by (apply tokens_grammar; by exists l).
  eapply p_line_words; [exact Hp|]. intros w Hw. unfold tokens in Hw. apply list_elem_of_fmap in Hw as ([c|v] & E & _); [done|].
  injection E as ->. by apply Forall_take, Forall_drop.
Qed.

(** [gets] of a line that fits, with its newline. *)
Lemma gets_loop_line line rest n : forall buf i max s,
  10 ∉ line -> 13 ∉ line -> u_fds s !! 0 = Some (line ++ 10 :: rest) -> 0 <= i -> i + Z.of_nat (length line) + 1 < max ->
  max <= Z.of_nat (length buf) -> (length line < n)%nat ->
  wp (gets_loop n buf i max) s (fun r s' =>
    r.2 = i + Z.of_nat (length line) + 1 /\
    r.1 = take (Z.to_nat i) buf ++ (line ++ [10]) ++ drop (Z.to_nat i + (length line + 1)) buf /\ took 0 rest s s').
Proof.
  revert n. induction line as [|c line IH]; intros n buf i max s H10 H13 Hd Hi Hl Hmax Hn.
  all: destruct n as [|n]; [simpl in Hn; lia|]; cbn [gets_loop]; rewrite (proj2 (Z.ltb_lt _ _)) by (cbn [length] in *; lia).
  all: apply wp_bind; destruct (read_one _ _ _ Hd) as (s1 & Hr & Ht); eapply wp_intro; [exact Hr|].
  all: cbn [take app]; rewrite take_0; apply wp_bind; (eapply wp_intro; [apply aset_run; cbn [length] in *; lia|]).
  - cbn [Z.eqb Pos.eqb orb]. apply wpe_ret. cbn [fst snd length]. split_and!; [lia| |done].
    pose proof (splice_step buf (Z.to_nat i) 10 [] ltac:(cbn in *; lia)) as Hsp. cbn [app length] in Hsp.
    cbn [app Nat.add]. rewrite <- Hsp, Nat.add_0_r. by rewrite take_drop.
  - apply not_elem_of_cons in H10 as [Hc10 H10]. apply not_elem_of_cons in H13 as [Hc13 H13].
    rewrite (proj2 (Z.eqb_neq c 10)), (proj2 (Z.eqb_neq c 13)) by congruence. cbn [orb].
    eapply wp_mono; [|apply (IH n _ (i + 1) max s1 H10 H13)]; [|by apply (took_fds _ _ _ _ Ht)|lia|cbn [length] in *; lia|by rewrite length_insert|cbn [length] in *; lia].
    cbv beta. intros [b k] s' (Hk & Hb & Ht'). cbn [fst snd] in *. split; [cbn [length]; lia|]. split; [|by eapply took_trans].
    rewrite Hb. replace (Z.to_nat (i + 1)) with (S (Z.to_nat i)) by lia.
    pose proof (splice_step buf (Z.to_nat i) c (line ++ [10]) ltac:(cbn [length] in *; lia)) as Hsp. rewrite length_app in Hsp.
    cbn [length app] in *. rewrite Hsp. done.
Qed.

(** [getcmd] prompts and reads a line that fits. *)
Lemma getcmd_reads line rest buf s :
  10 ∉ line -> 13 ∉ line -> Forall (fun c => c <> 0) line -> (length line < 99)%nat -> length buf = 100%nat ->
  u_fds s !! 0 = Some (line ++ 10 :: rest) ->
  wp (getcmd buf 100) s (fun r s' => r.2 = 0 /\ is_str r.1 (line ++ [10]) /\ length r.1 = 100%nat /\ took 0 rest (emit 2 (chars "$ ") s) s').
Proof.
  intros H10 H13 H0 Hl Hb Hd. unfold getcmd. apply wp_bind. eapply wp_intro; [reflexivity|].
  change (mbind ?f (gets ?b ?n)) with (mbind f (mbind (fun r => aset r.1 r.2 0) (gets_loop (Z.to_nat n) b 0 n))).
  set (buf' := splice _ _ _). assert (Hb' : length buf' = 100%nat) by (unfold buf'; rewrite length_splice; [done|rewrite length_replicate; lia]).
  apply wp_bind, wp_bind. eapply wp_mono; [|apply (gets_loop_line line rest); try done; lia]. cbv beta.
  intros [b k] s' (Hk & Hbk & Ht). cbn [fst snd] in *. change (Z.to_nat 0) with 0%nat in Hbk. rewrite take_0 in Hbk. cbn [app Nat.add] in Hbk.
  assert (Hlb : length b = 100%nat) by (rewrite Hbk, !length_app, length_drop; cbn; lia).
  eapply wp_intro; [apply aset_run; lia|].
  destruct (lookup_lt_is_Some_2 buf' (length line + 1)) as [x Hx]; [lia|].
  replace (Z.to_nat k) with (length (line ++ [10])) by (rewrite length_app; cbn; lia).
  rewrite Hbk, (drop_S _ x) by done. rewrite insert_app_r_alt, Nat.sub_diag by lia. cbn [insert list_insert].
  assert (Hc : exists c t, (line ++ [10]) ++ 0 :: drop (S (length line + 1)) buf' = c :: t /\ c <> 0).
  { destruct line as [|c line]; [by eexists 10, _|]. apply Forall_cons in H0 as [Hc _]. by eexists c, _. }
  destruct Hc as (c & t & Hct & Hc). rewrite Hct at 1. apply wpe_ret. rewrite (proj2 (Z.eqb_neq c 0) Hc). cbn [fst snd].
  split_and!; [done| | |by rewrite <- (emit_app 2 [36] [32])].
  - split; [by apply Forall_app; split; [|apply Forall_singleton]|]. by eexists.
  - rewrite !length_app. cbn [length]. rewrite length_drop. lia.
Qed.

(** C29: a line of the grammar is run as it reads. [parsecmd] and [runcmd]
    make the processes that the command means: they execute its programs with
    its arguments, with its files and pipes in place of the standard
    descriptors, and the shell waits for both sides of a pipe and between the
    commands of a list, in the processes that [denote] says. A program or file
    that does not exist, and a fork or pipe that fails, is reported and ends
    the process. While a process waits, and when it has become a program, it
    has the three standard descriptors and no other, and of the pipes of the
    line only the ends it is entitled to: the write end of a pipe is held on
    the left of it and nowhere else, so that the program on the right sees the
    end of its input when those on the left have ended. *)
Theorem shell_runs_line W text junk s l d0 d1 d2 :
  Forall (fun c => c <> 0) text -> Forall in_u8 text -> sh_buf s = text ++ 0 :: junk -> (2 * length text + 1 <= sh_mem s)%nat ->
  line_ok l -> tokens text = toks_line l ->
  exists p s', parsecmd 0 s = Ret p s' /\
    let r := run W (runcmd (S (length (sh_heap s'))) s' p) (std d0 d1 d2) [] in
    r = denote W (tree_line l) (std d0 d1 d2) [] /\ no_stuck r /\ Forall (well_held [d0; d1; d2]) (holds r).
Proof.
  intros H0 H8 Hb Hm Hok Hts. pose proof (parsecmd_run text junk H0 H8 s Hb Hm) as Hrun. unfold wpe in Hrun.
  destruct (parsecmd 0 s) as [p s'|w s']; [|destruct Hrun as (_ & Hno & _); exfalso; apply Hno; by exists l].
  destruct Hrun as (l' & Hok' & Hts' & Hsh & _). exists p, s'. split; [done|]. cbn zeta.
  assert (Hg : p_line (fuel_of text) (tokens text) = POk (tree_line l) []) by (apply tokens_grammar; by exists l).
  assert (Hg' : p_line (fuel_of text) (tokens text) = POk (tree_line l') []) by (apply tokens_grammar; by exists l').
  rewrite Hg in Hg'. injection Hg' as Ht. rewrite <- Ht in Hsh.
  rewrite (runcmd_denotes W (tree_line l)); [|done|apply shows_lt in Hsh; lia|by eapply tokens_bytes].
  destruct (denote_holds W (tree_line l) d0 d1 d2 []) as [Hh Hst]. split; [done|]. split; [done|].
  eapply Forall_impl; [exact Hh|]. by intros h [_ ?].
Qed.

(** All programs but ls exist, and everything else succeeds. *)
Definition demo_world : world :=
  World (fun _ w => bool_decide (w <> chars "ls")) (fun _ _ _ => true) (fun _ => true) (fun _ => true).

Lemma shell_runs_line_witness :
  exists p s', parsecmd 0 (sh_demo "cat < a | wc > b & ; ls ") = Ret p s' /\
    let r := run demo_world (runcmd (S (length (sh_heap s'))) s' p) (std (DInherited 0) (DInherited 1) (DInherited 2)) [] in
    r = denote demo_world (tree_line line_demo) (std (DInherited 0) (DInherited 1) (DInherited 2)) [] /\
    no_stuck r /\ Forall (well_held [DInherited 0; DInherited 1; DInherited 2]) (holds r).
Proof.
  apply (shell_runs_line demo_world (chars "cat < a | wc > b & ; ls ") []).
  - by repeat constructor.
  - by repeat constructor.
  - done.
  - vm_compute. lia.
  - by repeat constructor.
  - reflexivity.
Defined.
