(* ===== verification/Umalloc.v ===== *)
(** The allocator of user programs, [umalloc.c]: free blocks in a circular
    list in the order of their addresses, which begins at [base].

    Memory is the headers at its addresses; a header is two words, eight
    bytes. What the program does with its blocks changes the headers that
    would be inside of them, never the others. [sbrk] moves the end of the
    program's memory, up to a limit. *)

From S2P Require Import Prelude.

Open Scope Z_scope.

Record header := Header { h_ptr : Z; h_size : Z }.

Record um := MkUm {
  um_mem : gmap Z header;
  um_freep : Z;
  um_brk : Z
}.

Definition set_mem v s := MkUm v (um_freep s) (um_brk s).
Definition set_freep v s := MkUm (um_mem s) v (um_brk s).
Definition set_brk v s := MkUm (um_mem s) (um_freep s) v.

Section umalloc.
(** The address of [base], where the heap begins, and how far it can grow. *)
Variable (base heap0 top : Z).

(** ** Memory *)

Definition mapped (a : Z) (s : um) : bool := (a =? base) || ((heap0 <=? a) && (a + 8 <=? um_brk s)).

Definition hget (a : Z) : M um header :=
  s ← get;
  if mapped a s then mret (default (Header 0 0) (um_mem s !! a)) else wild.

Definition hput (a : Z) (f : header -> header) : M um unit :=
  h ← hget a;
  modify (fun s => set_mem (<[a := f h]> (um_mem s)) s).

(** [p->s.ptr = v] and [p->s.size = v] *)
Definition put_ptr (a v : Z) : M um unit := hput a (fun h => Header v (h_size h)).
Definition put_size (a v : Z) : M um unit := hput a (fun h => Header (h_ptr h) v).

(** The end of memory before it is moved by [n], or -1. To grow fails at the
    limit. To shrink fails when nothing would be left, and does nothing when
    the new end, as an unsigned number, is not below the old one. *)
Definition sbrk (n : Z) : M um Z :=
  s ← get;
  let b := u32 (um_brk s + n) in
  if 0 <? n then
    if b <=? top then put (set_brk b s) ;; mret (um_brk s) else mret (-1)
  else if um_brk s <=? b then mret (um_brk s)
  else if b =? 0 then mret (-1)
  else put (set_brk b s) ;; mret (um_brk s).

(** Every node of the list is a header. *)
Definition ring_fuel : M um nat := gets (fun s => S (size (um_mem s))).

(** ** free *)

(** Whether the loop ends at [p], whose next is [nx]. *)
Definition free_stop (bp p nx : Z) : bool :=
  ((p <? bp) && (bp <? nx)) || ((nx <=? p) && ((p <? bp) || (bp <? nx))).

Fixpoint free_find (n : nat) (bp p : Z) : M um Z :=
  match n with
  | O => out_of_fuel
  | S n =>
      h ← hget p;
      if free_stop bp p (h_ptr h) then mret p else free_find n bp (h_ptr h)
  end.

(** [p + k] for a pointer to headers. *)
Definition plus (p k : Z) : Z := u32 (p + k * 8).

(** Join [bp] to the upper neighbour, and to the lower one. *)
Definition free_upper (bp p : Z) : M um unit :=
  b ← hget bp;
  h ← hget p;
  if plus bp (h_size b) =? h_ptr h then
    x ← hget (h_ptr h);
    put_size bp (u32 (h_size b + h_size x)) ;;
    x ← hget (h_ptr h);
    put_ptr bp (h_ptr x)
  else put_ptr bp (h_ptr h).

Definition free_lower (bp p : Z) : M um unit :=
  h ← hget p;
  if plus p (h_size h) =? bp then
    b ← hget bp;
    put_size p (u32 (h_size h + h_size b)) ;;
    b ← hget bp;
    put_ptr p (h_ptr b)
  else put_ptr p bp.

Definition free (ap : Z) : M um unit :=
  let bp := plus ap (-1) in
  n ← ring_fuel;
  p ← gets um_freep;
  p ← free_find n bp p;
  free_upper bp p ;;
  free_lower bp p ;;
  modify (set_freep p).

(** ** malloc *)

Definition morecore (nu : Z) : M um Z :=
  let nu := if nu <? 4096 then 4096 else nu in
  p ← sbrk (i32 (u32 (nu * 8)));
  if p =? -1 then mret 0
  else
    put_size p nu ;;
    free (plus p 1) ;;
    gets um_freep.

(** The block [p], or its upper end, is taken off the list. *)
Definition malloc_take (nunits prevp p : Z) : M um Z :=
  h ← hget p;
  p ← (if h_size h =? nunits then put_ptr prevp (h_ptr h) ;; mret p
       else
         let sz := u32 (h_size h - nunits) in
         put_size p sz ;;
         let p := plus p sz in
         put_size p nunits ;;
         mret p);
  modify (set_freep prevp) ;;
  mret (plus p 1).

Fixpoint malloc_loop (n : nat) (nunits prevp p : Z) : M um Z :=
  match n with
  | O => out_of_fuel
  | S n =>
      h ← hget p;
      if nunits <=? h_size h then malloc_take nunits prevp p
      else
        f ← gets um_freep;
        if p =? f then
          p ← morecore nunits;
          if p =? 0 then mret 0
          else
            h ← hget p;
            malloc_loop n nunits p (h_ptr h)
        else malloc_loop n nunits p (h_ptr h)
  end.

(** A turn around the list, and another after [morecore]. *)
Definition malloc (nbytes : Z) : M um Z :=
  let nunits := u32 (nbytes + 8 - 1) / 8 + 1 in
  f ← gets um_freep;
  (if f =? 0 then
     put_ptr base base ;;
     modify (set_freep base) ;;
     put_size base 0
   else mret tt) ;;
  prevp ← gets um_freep;
  h ← hget prevp;
  n ← ring_fuel;
  malloc_loop (2 * n + 2) nunits prevp (h_ptr h).

(** ** The list *)

(** A block is an address and a number of headers. *)
Notation block := (Z * Z)%type (only parsing).

Definition hd_addr (l : list block) (e : Z) : Z := match l with [] => e | b :: _ => b.1 end.

(** The nodes [l] follow one another, and [e] follows the last. *)
Fixpoint linked (m : gmap Z header) (l : list block) (e : Z) : Prop :=
  match l with
  | [] => True
  | b :: l => m !! b.1 = Some (Header (hd_addr l e) b.2) /\ linked m l e
  end.

(** Blocks in order from [lo] on, with space between them. *)
Fixpoint spaced (lo : Z) (l : list block) : Prop :=
  match l with
  | [] => True
  | b :: l => lo < b.1 /\ 0 < b.2 /\ spaced (b.1 + b.2 * 8) l
  end.

Lemma linked_app m l1 l2 e : linked m (l1 ++ l2) e <-> linked m l1 (hd_addr l2 e) /\ linked m l2 e.
Proof.
  induction l1 as [|b l1 IH]; cbn [app linked]; [tauto|]. rewrite IH. destruct l1; cbn; tauto.
Qed.

Lemma linked_insert m l e a v : a ∉ l.*1 -> linked (<[a := v]> m) l e <-> linked m l e.
Proof.
  induction l as [|b l IH]; cbn [linked fmap list_fmap]; [done|]. intros [Hb Hl]%not_elem_of_cons.
  rewrite lookup_insert_ne by done. by rewrite IH.
Qed.

Lemma spaced_app lo l1 b l2 :
  spaced lo (l1 ++ b :: l2) <-> spaced lo l1 /\ spaced lo (l1 ++ [b]) /\ spaced (b.1 + b.2 * 8) l2.
Proof. revert lo. induction l1 as [|x l1 IH]; intros lo; cbn [app spaced]; [tauto|]. rewrite IH. tauto. Qed.

Lemma spaced_lower lo lo' l : spaced lo l -> lo' <= lo -> spaced lo' l.
Proof. destruct l as [|b l]; [done|]. cbn. intros (? & ? & ?) ?. split_and!; [lia|done|done]. Qed.

Lemma spaced_elem lo l b : spaced lo l -> b ∈ l -> lo < b.1 /\ 0 < b.2.
Proof.
  revert lo. induction l as [|x l IH]; intros lo Hs Hb; [by apply elem_of_nil in Hb|]. cbn [spaced] in Hs. destruct Hs as (H1 & H2 & Hs).
  apply elem_of_cons in Hb as [->|Hb]; [done|]. pose proof (IH _ Hs Hb). lia.
Qed.

Lemma spaced_snoc_lt lo l b x : spaced lo (l ++ [b]) -> x ∈ l -> x.1 + x.2 * 8 < b.1.
Proof.
  revert lo. induction l as [|y l IH]; intros lo Hs Hx; [by apply elem_of_nil in Hx|]. cbn [app spaced] in Hs. destruct Hs as (H1 & H2 & Hs).
  apply elem_of_cons in Hx as [->|Hx]; [|by eapply IH]. apply (spaced_elem _ _ b) in Hs as []; [lia|]. apply elem_of_app. right. by apply list_elem_of_singleton.
Qed.

Lemma spaced_remove lo l1 y l2 : spaced lo (l1 ++ y :: l2) -> spaced lo (l1 ++ l2).
Proof.
  revert lo. induction l1 as [|x l1 IH]; intros lo; cbn [app spaced]; intros (H1 & H2 & Hs); [|by auto].
  eapply spaced_lower; [exact Hs|lia].
Qed.

(** Where a block belongs that overlaps none of the list. *)
Lemma spaced_split lo l a n :
  spaced lo l -> lo < a -> 0 < n -> (forall b, b ∈ l -> a + n * 8 <= b.1 \/ b.1 + b.2 * 8 <= a) ->
  exists l1 l2, l = l1 ++ l2 /\ (forall b, b ∈ l1 -> b.1 + b.2 * 8 <= a) /\ (forall b, b ∈ l2 -> a + n * 8 <= b.1).
Proof.
  revert lo. induction l as [|x l IH]; intros lo Hs Ha Hn Hd.
  - exists [], []. split_and!; [done|..]; intros b Hb; by apply elem_of_nil in Hb.
  - cbn [spaced] in Hs. destruct Hs as (H1 & H2 & Hs). destruct (Hd x) as [Hx|Hx]; [apply list_elem_of_here| |].
    + exists [], (x :: l). split_and!; [done|intros b Hb; by apply elem_of_nil in Hb|]. intros b Hb.
      apply elem_of_cons in Hb as [->|Hb]; [done|]. apply (spaced_elem _ _ b) in Hs as []; [lia|done].
    + destruct (decide (x.1 + x.2 * 8 < a)) as [Hlt|Hge].
      * destruct (IH _ Hs Hlt Hn) as (l1 & l2 & -> & Hl1 & Hl2); [intros b Hb; apply Hd; by apply list_elem_of_further|].
        exists (x :: l1), l2. split_and!; [done| |done]. intros b Hb. apply elem_of_cons in Hb as [->|Hb]; auto.
      * exists [x], l. split_and!; [done|intros b ->%list_elem_of_singleton; done|]. intros b Hb.
        destruct (Hd b) as [?|Hb']; [by apply list_elem_of_further|done|]. apply (spaced_elem _ _ b) in Hs as []; [lia|done].
Qed.

(** ** The invariant *)

Definition ends_by (l : list block) (e : Z) : Prop := forall b, b ∈ l -> b.1 + b.2 * 8 <= e.

Definition apart (a n : Z) (b : block) : Prop := a + n * 8 <= b.1 \/ b.1 + b.2 * 8 <= a.

(** The blocks [fr] are free and [al] are allocated; [al] maps the address of
    a block to its size. *)
Record ok (s : um) (fr : list block) (al : gmap Z Z) : Prop := {
  ok_list : linked (um_mem s) ((base, 0) :: fr) base;
  ok_freep : um_freep s ∈ base :: fr.*1;
  ok_spaced : spaced base fr;
  ok_low : forall b, b ∈ fr -> heap0 <= b.1;
  ok_high : ends_by fr (um_brk s);
  ok_size : forall a n, al !! a = Some n -> exists p, um_mem s !! a = Some (Header p n);
  ok_pos : forall a n, al !! a = Some n -> 0 < n /\ heap0 <= a /\ a + n * 8 <= um_brk s;
  ok_apart : forall a n b k, al !! a = Some n -> al !! b = Some k -> a <> b -> apart a n (b, k);
  ok_free : forall a n b, al !! a = Some n -> b ∈ fr -> apart a n b;
  ok_brk : heap0 <= um_brk s <= top
}.

(** Where everything is. *)
Hypothesis Hbase : 0 < base.
Hypothesis Hheap : base + 8 <= heap0.
Hypothesis Htop : top < 2 ^ 31.

Lemma hget_run a h s : mapped a s = true -> um_mem s !! a = Some h -> hget a s = Ret h s.
Proof. intros Hm Ha. unfold hget, get, mbind, M_bind. by rewrite Hm, Ha. Qed.

Lemma hput_run a f s : mapped a s = true -> hput a f s = Ret tt (set_mem (<[a := f (default (Header 0 0) (um_mem s !! a))]> (um_mem s)) s).
Proof. intros Hm. unfold hput, hget, get, modify, mbind, M_bind. by rewrite Hm. Qed.

Lemma mapped_base s : mapped base s = true.
Proof. unfold mapped. by rewrite Z.eqb_refl. Qed.

Lemma mapped_in a s : heap0 <= a -> a + 8 <= um_brk s -> mapped a s = true.
Proof. intros H1 H2. unfold mapped. rewrite (proj2 (Z.leb_le _ _) H1), (proj2 (Z.leb_le _ _) H2). apply orb_true_r. Qed.

Lemma plus_small p k : 0 <= p + k * 8 < 2 ^ 32 -> plus p k = p + k * 8.
Proof. apply u32_small. Qed.

Lemma spaced_nodup lo l : spaced lo l -> NoDup l.*1.
Proof.
  revert lo. induction l as [|b l IH]; intros lo Hs; [constructor|]. cbn [spaced] in Hs. destruct Hs as (H1 & H2 & Hs). cbn. constructor; [|by eapply IH].
  intros (x & Hx & Hin)%list_elem_of_fmap. pose proof (spaced_elem _ _ x Hs Hin). lia.
Qed.

(** The nodes of the list. *)
Section nodes.
Variable (s : um) (fr : list block) (al : gmap Z Z).
Hypothesis Hok : ok s fr al.

Lemma nodes_nodup : NoDup ((base, 0) :: fr).*1.
Proof.
  cbn. constructor; [|by eapply spaced_nodup, ok_spaced].
  intros (x & Hx & Hin)%list_elem_of_fmap. pose proof (spaced_elem base _ x (ok_spaced _ _ _ Hok) Hin). lia.
Qed.

Lemma linked_dom m l e : linked m l e -> forall b, b ∈ l -> is_Some (m !! b.1).
Proof.
  induction l as [|x l IH]; intros Hl b Hb; [by apply elem_of_nil in Hb|]. cbn [linked] in Hl. destruct Hl as [Hx Hl].
  apply elem_of_cons in Hb as [->|Hb]; [by rewrite Hx|by apply IH].
Qed.

Lemma nodes_fuel : (length ((base, 0%Z) :: fr) <= size (um_mem s))%nat.
Proof.
  rewrite <- (length_fmap fst). rewrite <- (size_list_to_set (C := gset Z)) by apply nodes_nodup. rewrite <- size_dom. apply subseteq_size.
  intros a (x & -> & Hx)%elem_of_list_to_set%list_elem_of_fmap. apply elem_of_dom. eapply linked_dom; [apply (ok_list _ _ _ Hok)|done].
Qed.

Lemma node_mapped b : b ∈ (base, 0) :: fr -> mapped b.1 s = true.
Proof.
  intros [->|Hb]%elem_of_cons; [apply mapped_base|]. pose proof (ok_low _ _ _ Hok b Hb). pose proof (ok_high _ _ _ Hok b Hb).
  pose proof (spaced_elem base fr b (ok_spaced _ _ _ Hok) Hb). apply mapped_in; lia.
Qed.

End nodes.

(** ** free *)

(** No node of the path ends the search. *)
Fixpoint no_stop (bp : Z) (l : list block) (e : Z) : Prop :=
  match l with
  | [] => True
  | b :: l => free_stop bp b.1 (hd_addr l e) = false /\ no_stop bp l e
  end.

Lemma no_stop_app bp l1 l2 e : no_stop bp l1 (hd_addr l2 e) -> no_stop bp l2 e -> no_stop bp (l1 ++ l2) e.
Proof. induction l1 as [|b l1 IH]; cbn [app no_stop]; [done|]. intros [Hb Hl] H2. split; [by destruct l1|auto]. Qed.

Lemma no_stop_suffix bp l1 l2 e : no_stop bp (l1 ++ l2) e -> no_stop bp l2 e.
Proof. induction l1 as [|b l1 IH]; cbn [app no_stop]; [done|]. intros [_ H]. auto. Qed.

Lemma no_stop_below bp lo l e : spaced lo (l ++ [e]) -> e.1 < bp -> no_stop bp l e.1.
Proof.
  revert lo. induction l as [|b l IH]; intros lo Hs He; [done|]. cbn [app spaced no_stop] in *. destruct Hs as (H1 & H2 & Hs). split; [|by eapply IH].
  assert (Hn : b.1 < hd_addr l e.1 <= e.1).
  { destruct l as [|x l]; cbn [hd_addr app spaced] in *; [lia|]. destruct Hs as (H3 & H4 & Hs).
    apply (spaced_elem _ _ e) in Hs as []; [lia|]. apply elem_of_app. right. by apply list_elem_of_singleton. }
  unfold free_stop. lia.
Qed.

Lemma no_stop_above bp lo l : spaced lo l -> bp <= lo -> base < bp -> no_stop bp l base.
Proof.
  revert lo. induction l as [|b l IH]; intros lo Hs Hlo Hb; [done|]. cbn [spaced no_stop] in *. destruct Hs as (H1 & H2 & Hs).
  split; [|eapply IH; [done|lia|lia]]. unfold free_stop. destruct l as [|x l]; cbn [hd_addr spaced] in *; lia.
Qed.

Lemma free_find_walk s bp p h path : forall fuel,
  linked (um_mem s) path p -> no_stop bp path p -> (forall b, b ∈ path -> mapped b.1 s = true) -> mapped p s = true ->
  um_mem s !! p = Some h -> free_stop bp p (h_ptr h) = true -> (length path < fuel)%nat ->
  free_find fuel bp (hd_addr path p) s = Ret p s.
Proof.
  induction path as [|b path IH]; intros fuel Hl Hn Hm Hmp Hp Hstop Hf; (destruct fuel as [|fuel]; [cbn in Hf; lia|]); cbn [free_find hd_addr].
  - unfold mbind, M_bind. rewrite (hget_run p h) by done. by rewrite Hstop.
  - cbn [linked no_stop length] in *. destruct Hl as [Hb Hl], Hn as [Hnb Hn]. unfold mbind, M_bind.
    rewrite (hget_run b.1 (Header (hd_addr path p) b.2)); [|apply Hm, list_elem_of_here|done]. cbn [h_ptr]. rewrite Hnb.
    apply IH; try done; [|lia]. intros x Hx. apply Hm. by apply list_elem_of_further.
Qed.

Lemma split_last (x : block) l : exists A y, x :: l = A ++ [y].
Proof. destruct (exists_last (l := x :: l)) as (A & y & E); [done|by exists A, y]. Qed.

(** The node before which the block [bp] of [n] headers belongs. *)
Record pred_of (fr : list block) (bp n : Z) (A : list block) (p : block) (l2 : list block) : Prop := {
  po_nodes : (base, 0) :: fr = A ++ p :: l2;
  po_below : p.1 < bp /\ p.1 + p.2 * 8 <= bp;
  po_above : forall b, b ∈ l2 -> bp + n * 8 <= b.1;
  po_before : no_stop bp A p.1;
  po_after : spaced (p.1 + p.2 * 8) l2;
  po_first : hd_addr A p.1 = base
}.

Lemma find_pred fr bp n :
  spaced base fr -> base < bp -> 0 < n -> (forall b, b ∈ fr -> apart bp n b) -> exists A p l2, pred_of fr bp n A p l2.
Proof.
  intros Hs Hb Hn Hd. destruct (spaced_split base fr bp n Hs Hb Hn Hd) as (l1 & l2 & -> & H1 & H2).
  destruct (split_last (base, 0) l1) as (A & p & E). exists A, p, l2.
  assert (Hsp : spaced (base - 1) (tl ((base, 0) :: l1) ++ l2) ) by (by eapply spaced_lower; [exact Hs|lia]).
  assert (Hp : p.1 < bp /\ p.1 + p.2 * 8 <= bp).
  { assert (Hin : p ∈ (base, 0) :: l1) by (rewrite E; apply elem_of_app; right; by apply list_elem_of_singleton).
    apply elem_of_cons in Hin as [->|Hin]; [cbn; lia|]. pose proof (H1 p Hin).
    assert (Hin' : p ∈ l1 ++ l2) by (apply elem_of_app; by left). pose proof (spaced_elem base _ p Hs Hin'). lia. }
  destruct A as [|a A].
  - injection E as <- ->. cbn in *. split; try done. by eapply spaced_lower; [exact Hs|cbn; lia].
  - injection E as <- ->. rewrite <- app_assoc in Hs. apply spaced_app in Hs as (Hs1 & Hs2 & Hs3). split; try done.
    + cbn [app]. by rewrite <- app_assoc.
    + split; [|eapply no_stop_below; [exact Hs2|lia]].
      assert (Hn' : base < hd_addr A p.1 <= p.1).
      { destruct A as [|x A]; cbn [hd_addr app spaced] in *; [lia|]. destruct Hs2 as (? & ? & Hs2).
        pose proof (spaced_snoc_lt base (x :: A) p x ltac:(cbn; tauto) (list_elem_of_here _ _)). lia. }
      unfold free_stop. cbn. lia.
Qed.

Lemma free_find_run s fr al bp n A p l2 :
  ok s fr al -> base < bp -> 0 < n -> pred_of fr bp n A p l2 ->
  free_find (S (size (um_mem s))) bp (um_freep s) s = Ret p.1 s.
Proof.
  intros Hok Hb Hn Hpo. pose proof (ok_list _ _ _ Hok) as Hl. pose proof (ok_freep _ _ _ Hok) as Hf.
  pose proof (nodes_fuel _ _ _ Hok) as Hfuel. pose proof (node_mapped _ _ _ Hok) as Hmap.
  change (base :: fr.*1) with ((base, 0) :: fr).*1 in Hf. rewrite (po_nodes _ _ _ _ _ _ Hpo) in *.
  apply linked_app in Hl as [HA Hl]. cbn [linked hd_addr] in Hl, HA. destruct Hl as [Hp H2].
  assert (Hstop : free_stop bp p.1 (hd_addr l2 base) = true).
  { pose proof (po_below _ _ _ _ _ _ Hpo). unfold free_stop. destruct l2 as [|b l2]; cbn [hd_addr].
    - assert (base <= p.1); [|lia]. pose proof (po_nodes _ _ _ _ _ _ Hpo) as E.
      destruct A as [|a A]; [injection E as <- _; cbn; lia|]. injection E as _ E.
      assert (Hin : p ∈ fr) by (rewrite E; apply elem_of_app; right; apply list_elem_of_here).
      pose proof (spaced_elem base fr p (ok_spaced _ _ _ Hok) Hin). lia.
    - pose proof (po_above _ _ _ _ _ _ Hpo b (list_elem_of_here _ _)). lia. }
  assert (Hmp : mapped p.1 s = true) by (apply Hmap, elem_of_app; right; apply list_elem_of_here).
  assert (Hwalk : forall path, linked (um_mem s) path p.1 -> no_stop bp path p.1 -> (forall b, b ∈ path -> b ∈ A ++ p :: l2) ->
    (length path <= size (um_mem s))%nat -> free_find (S (size (um_mem s))) bp (hd_addr path p.1) s = Ret p.1 s).
  { intros path H1 H3 H4 H5. eapply free_find_walk; [done|done|by intros b Hb'; apply Hmap, H4|done|exact Hp|exact Hstop|lia]. }
  apply list_elem_of_fmap in Hf as (f & -> & Hin). rewrite length_app in Hfuel. cbn [length] in Hfuel.
  apply elem_of_app in Hin as [HfA|Hin]; [|apply elem_of_cons in Hin as [->|Hf2]; [apply (Hwalk [])|]].
  - apply list_elem_of_split in HfA as (A1 & A2 & ->). apply linked_app in HA as [_ HA]. pose proof (po_before _ _ _ _ _ _ Hpo) as HnA.
    apply (Hwalk (f :: A2)); [done| | |].
    + by apply no_stop_suffix in HnA.
    + intros b Hb'. apply elem_of_app. left. apply elem_of_app. by right.
    + rewrite length_app in Hfuel. cbn [length] in *. lia.
  - done.
  - done.
  - intros b Hb'. by apply elem_of_nil in Hb'.
  - cbn; lia.
  - apply list_elem_of_split in Hf2 as (B1 & B2 & ->). apply linked_app in H2 as [_ H2].
    pose proof (po_first _ _ _ _ _ _ Hpo) as Hfirst. apply (Hwalk ((f :: B2) ++ A)).
    + apply linked_app. by rewrite Hfirst.
    + apply no_stop_app; [|apply (po_before _ _ _ _ _ _ Hpo)]. rewrite Hfirst.
      pose proof (po_after _ _ _ _ _ _ Hpo) as Hsp. pose proof (po_above _ _ _ _ _ _ Hpo) as Hab.
      assert (Hsp' : spaced bp (B1 ++ f :: B2)).
      { clear -Hsp Hab Hn. destruct (B1 ++ f :: B2) as [|x l]; [done|]. cbn in *. destruct Hsp as (? & ? & ?).
        pose proof (Hab x (list_elem_of_here _ _)). split_and!; [lia|done|done]. }
      apply (no_stop_suffix bp B1). eapply no_stop_above; [exact Hsp'|lia|done].
    + intros b Hb'. apply elem_of_app. apply elem_of_app in Hb' as [Hb'|Hb']; [right|by left]. apply elem_of_cons. right. apply elem_of_app. by right.
    + rewrite length_app in *. cbn [length] in *. lia.
Qed.

(** The size of the block joined with the next free one, and the rest. *)
Definition join_up (bp n : Z) (l2 : list block) : Z * list block :=
  match l2 with
  | b :: l => if bp + n * 8 =? b.1 then (n + b.2, l) else (n, l2)
  | [] => (n, [])
  end.

(** The nodes after the block has been freed. *)
Definition free_nodes (A : list block) (p : block) (bp n : Z) (l2 : list block) : list block :=
  let r := join_up bp n l2 in
  if p.1 + p.2 * 8 =? bp then A ++ (p.1, p.2 + r.1) :: r.2 else A ++ p :: (bp, r.1) :: r.2.

(** What holds of blocks and of adjacent blocks that are joined holds of the
    blocks afterwards. *)
Lemma free_nodes_ind (P : block -> Prop) A p bp n l2 b :
  (forall a k j, P (a, k) -> P (a + k * 8, j) -> P (a, k + j)) ->
  P (bp, n) -> (forall b, b ∈ A ++ p :: l2 -> P b) -> b ∈ free_nodes A p bp n l2 -> P b.
Proof.
  intros Hj Hb Hall Hin.
  assert (Hp : P p) by (apply Hall, elem_of_app; right; apply list_elem_of_here).
  assert (HA : forall x, x ∈ A -> P x) by (intros x Hx; apply Hall, elem_of_app; by left).
  assert (H2 : forall x, x ∈ l2 -> P x) by (intros x Hx; apply Hall, elem_of_app; right; by apply list_elem_of_further).
  assert (Hr : P (bp, (join_up bp n l2).1) /\ forall x, x ∈ (join_up bp n l2).2 -> P x).
  { unfold join_up. destruct l2 as [|y l]; [split; [done|intros x Hx; by apply elem_of_nil in Hx]|].
    destruct (Z.eqb_spec (bp + n * 8) y.1) as [E|]; cbn [fst snd]; [|by split].
    split; [apply Hj; [done|]; rewrite E; destruct y; apply H2, list_elem_of_here|]. intros x Hx. apply H2. by apply list_elem_of_further. }
  destruct Hr as [Hr1 Hr2]. unfold free_nodes in Hin. destruct (Z.eqb_spec (p.1 + p.2 * 8) bp) as [E|].
  - apply elem_of_app in Hin as [?|Hin]; [auto|]. apply elem_of_cons in Hin as [->|?]; [|auto].
    apply Hj; [by destruct p|by rewrite E].
  - apply elem_of_app in Hin as [?|Hin]; [auto|]. apply elem_of_cons in Hin as [->|Hin]; [done|].
    apply elem_of_cons in Hin as [->|?]; auto.
Qed.

Lemma spaced_snoc lo l x :
  spaced lo l -> lo < x.1 -> (forall b, b ∈ l -> b.1 + b.2 * 8 < x.1) -> 0 < x.2 -> spaced lo (l ++ [x]).
Proof.
  revert lo. induction l as [|b l IH]; intros lo Hs Hlo Hl Hx; cbn [app spaced] in *; [done|]. destruct Hs as (H1 & H2 & Hs).
  split_and!; [done|done|]. apply IH; [done|apply Hl, list_elem_of_here| |done]. intros y Hy. apply Hl. by apply list_elem_of_further.
Qed.

Lemma join_up_spaced bp n l2 lo :
  spaced lo l2 -> (forall b, b ∈ l2 -> bp + n * 8 <= b.1) -> 0 < n ->
  spaced (bp + (join_up bp n l2).1 * 8) (join_up bp n l2).2 /\ n <= (join_up bp n l2).1.
Proof.
  intros Hs Hab Hn. unfold join_up. destruct l2 as [|b l]; [done|]. cbn [spaced] in Hs. destruct Hs as (H1 & H2 & Hs).
  pose proof (Hab b (list_elem_of_here _ _)). destruct (Z.eqb_spec (bp + n * 8) b.1) as [E|]; cbn [fst snd].
  - split; [|lia]. by replace (bp + (n + b.2) * 8) with (b.1 + b.2 * 8) by lia.
  - split; [|lia]. cbn [spaced]. split_and!; [lia|done|done].
Qed.

Lemma spaced_last lo l a n k : spaced lo (l ++ [(a, n)]) -> 0 < k -> spaced lo (l ++ [(a, k)]).
Proof. revert lo. induction l as [|b l IH]; intros lo; cbn [app spaced]; [tauto|]. intros (H1 & H2 & Hs) Hk. split_and!; auto. Qed.

Lemma free_nodes_spaced fr bp n A p l2 :
  spaced base fr -> base < bp -> 0 < n -> pred_of fr bp n A p l2 ->
  exists fr', free_nodes A p bp n l2 = (base, 0) :: fr' /\ spaced base fr'.
Proof.
  intros Hs Hb Hn [E [Hp1 Hp2] Hab _ Haf _]. destruct (join_up_spaced bp n l2 _ Haf Hab Hn) as [Hr Hrn].
  unfold free_nodes. destruct (join_up bp n l2) as [n' l2']. cbn [fst snd] in *. destruct A as [|a A].
  - injection E as <- ->. cbn [fst snd app] in *. rewrite (proj2 (Z.eqb_neq _ _)) by lia. eexists. split; [done|]. cbn. split_and!; [lia|lia|done].
  - injection E as <- ->. apply spaced_app in Hs as (Hs1 & Hs2 & Hs3). destruct (Z.eqb_spec (p.1 + p.2 * 8) bp) as [Ed|Ed]; cbn [app]; eexists; (split; [done|]).
    + pose proof (spaced_elem base _ p Hs2 ltac:(apply elem_of_app; right; by apply list_elem_of_singleton)).
      apply spaced_app. cbn [fst snd]. split_and!; [done| |]; [destruct p; eapply spaced_last; [exact Hs2|cbn in *; lia]|].
      by replace (p.1 + (p.2 + n') * 8) with (bp + n' * 8) by lia.
    + replace (A ++ p :: (bp, n') :: l2') with ((A ++ [p]) ++ (bp, n') :: l2') by (by rewrite <- app_assoc).
      apply spaced_app. split_and!; [done| |done]. apply spaced_snoc; [done|done| |cbn; lia]. cbn [fst].
      intros x [Hx|Hx]%elem_of_app; [pose proof (spaced_snoc_lt base A p x Hs2 Hx)|apply list_elem_of_singleton in Hx as ->; lia].
      pose proof (spaced_elem base _ p Hs2 ltac:(apply elem_of_app; right; by apply list_elem_of_singleton)). lia.
Qed.

(** Memory after the block has been freed. *)
Definition free_mem (m : gmap Z header) (p : block) (bp n : Z) (l2 : list block) : gmap Z header :=
  let r := join_up bp n l2 in
  let m1 := <[bp := Header (hd_addr r.2 base) r.1]> m in
  if p.1 + p.2 * 8 =? bp then <[p.1 := Header (hd_addr r.2 base) (p.2 + r.1)]> m1 else <[p.1 := Header bp p.2]> m1.

Section free.
Variable (s : um) (fr : list block) (al : gmap Z Z) (bp n x : Z) (A : list block) (p : block) (l2 : list block).
Hypothesis Hok : ok s fr al.
Hypothesis Hbp : heap0 <= bp.
Hypothesis Hn : 0 < n.
Hypothesis Hend : bp + n * 8 <= um_brk s.
Hypothesis Hhdr : um_mem s !! bp = Some (Header x n).
Hypothesis Hpo : pred_of fr bp n A p l2.

Lemma free_links : linked (um_mem s) A p.1 /\ um_mem s !! p.1 = Some (Header (hd_addr l2 base) p.2) /\ linked (um_mem s) l2 base.
Proof. pose proof (ok_list _ _ _ Hok) as Hl. rewrite (po_nodes _ _ _ _ _ _ Hpo) in Hl. by apply linked_app in Hl. Qed.

Lemma free_pred_mapped : mapped p.1 s = true.
Proof. apply (node_mapped _ _ _ Hok). rewrite (po_nodes _ _ _ _ _ _ Hpo). apply elem_of_app. right. apply list_elem_of_here. Qed.

Lemma free_next b : b ∈ l2 -> mapped b.1 s = true /\ bp < b.1 /\ 0 < b.2 /\ b.1 + b.2 * 8 <= um_brk s.
Proof.
  intros Hb. pose proof (po_nodes _ _ _ _ _ _ Hpo) as E. assert (Hin : b ∈ (base, 0) :: fr).
  { rewrite E. apply elem_of_app. right. by apply list_elem_of_further. }
  split; [by apply (node_mapped _ _ _ Hok)|]. pose proof (po_above _ _ _ _ _ _ Hpo b Hb).
  apply elem_of_cons in Hin as [->|Hin]; [cbn in *; lia|]. pose proof (spaced_elem base fr b (ok_spaced _ _ _ Hok) Hin).
  pose proof (ok_high _ _ _ Hok b Hin). lia.
Qed.

Lemma free_pred_size : 0 <= p.1 /\ 0 <= p.2 /\ p.1 + p.2 * 8 <= um_brk s.
Proof.
  pose proof (po_nodes _ _ _ _ _ _ Hpo) as E. pose proof (po_below _ _ _ _ _ _ Hpo). pose proof (ok_brk _ _ _ Hok).
  destruct A as [|a A']; [injection E as <- _; cbn; lia|]. injection E as _ E.
  assert (Hin : p ∈ fr) by (rewrite E; apply elem_of_app; right; apply list_elem_of_here).
  pose proof (spaced_elem base fr p (ok_spaced _ _ _ Hok) Hin). lia.
Qed.

Lemma mapped_set a m : mapped a (set_mem m s) = mapped a s.
Proof. done. Qed.

Definition mem_upper : gmap Z header :=
  <[bp := Header (hd_addr (join_up bp n l2).2 base) (join_up bp n l2).1]> (um_mem s).

Lemma free_upper_run : free_upper bp p.1 s = Ret tt (set_mem mem_upper s).
Proof.
  destruct free_links as (HA & Hp & H2). pose proof (ok_brk _ _ _ Hok) as Hbrk. pose proof (po_below _ _ _ _ _ _ Hpo) as [Hlt Hle].
  assert (Hmb : mapped bp s = true) by (apply mapped_in; lia). pose proof free_pred_mapped as Hmp.
  unfold free_upper, mbind, M_bind. rewrite (hget_run bp (Header x n)), (hget_run p.1 _ s Hmp Hp) by done. cbn [h_ptr h_size].
  rewrite (plus_small bp) by lia. unfold mem_upper, join_up, put_ptr, put_size. pose proof free_next as Hnext. destruct l2 as [|b l]; cbn [hd_addr].
  - rewrite (proj2 (Z.eqb_neq _ _)) by lia. rewrite hput_run by done. by rewrite Hhdr.
  - destruct H2 as [Hb _]. destruct (Hnext b (list_elem_of_here _ _)) as (Hmb' & Hbb & Hb2 & Hbe).
    destruct (Z.eqb_spec (bp + n * 8) b.1) as [E|E]; cbn [fst snd hd_addr].
    + rewrite (hget_run b.1 _ s Hmb' Hb). cbn [h_size]. rewrite u32_small by (unfold in_u32; lia). rewrite hput_run, Hhdr by done. cbn [default id h_ptr].
      rewrite (hget_run b.1 (Header (hd_addr l base) b.2)) by (cbn; rewrite ?lookup_insert_ne by lia; done).
      rewrite hput_run by done. cbn [um_mem set_mem]. rewrite lookup_insert_eq. cbn [default id h_ptr h_size]. by rewrite insert_insert_eq.
    + rewrite hput_run by done. by rewrite Hhdr.
Qed.

Lemma join_up_end : 0 < (join_up bp n l2).1 /\ bp + (join_up bp n l2).1 * 8 <= um_brk s.
Proof.
  pose proof free_next as Hnext. unfold join_up. destruct l2 as [|b l]; [done|].
  destruct (Hnext b (list_elem_of_here _ _)) as (_ & Hbb & Hb2 & Hbe). destruct (Z.eqb_spec (bp + n * 8) b.1); cbn [fst]; lia.
Qed.

Lemma free_lower_run : free_lower bp p.1 (set_mem mem_upper s) = Ret tt (set_mem (free_mem (um_mem s) p bp n l2) s).
Proof.
  destruct free_links as (HA & Hp & H2). pose proof (ok_brk _ _ _ Hok) as Hbrk. pose proof (po_below _ _ _ _ _ _ Hpo) as [Hlt Hle].
  pose proof free_pred_size as (Hp0 & Hps & Hpe). assert (Hmb : mapped bp s = true) by (apply mapped_in; lia). pose proof free_pred_mapped as Hmp.
  assert (Hup : mem_upper !! p.1 = Some (Header (hd_addr l2 base) p.2)) by (unfold mem_upper; by rewrite lookup_insert_ne by lia).
  unfold free_lower, mbind, M_bind. rewrite (hget_run p.1 (Header (hd_addr l2 base) p.2) (set_mem mem_upper s) Hmp Hup). cbn [h_size]. rewrite plus_small by lia. unfold free_mem. fold mem_upper.
  destruct (Z.eqb_spec (p.1 + p.2 * 8) bp) as [E|E]; unfold put_ptr, put_size.
  - rewrite (hget_run bp (Header (hd_addr (join_up bp n l2).2 base) (join_up bp n l2).1)) by (done || apply lookup_insert_eq).
    cbn [h_size]. pose proof join_up_end. rewrite u32_small by (unfold in_u32; lia). rewrite hput_run by done. cbn [um_mem set_mem]. rewrite Hup. cbn [default id h_ptr].
    rewrite (hget_run bp (Header (hd_addr (join_up bp n l2).2 base) (join_up bp n l2).1)).
    2: done. 2: { cbn. rewrite lookup_insert_ne by lia. apply lookup_insert_eq. }
    rewrite hput_run by done. cbn [um_mem set_mem h_ptr]. rewrite lookup_insert_eq. cbn [default id h_ptr h_size]. by rewrite insert_insert_eq.
  - rewrite hput_run by done. cbn [um_mem set_mem]. by rewrite Hup.
Qed.

Lemma free_run : free (bp + 8) s = Ret tt (set_freep p.1 (set_mem (free_mem (um_mem s) p bp n l2) s)).
Proof.
  pose proof (ok_brk _ _ _ Hok) as Hbrk. unfold free. rewrite plus_small by lia. replace (bp + 8 + -1 * 8) with bp by lia.
  unfold ring_fuel, gets, modify, mbind, M_bind. rewrite (free_find_run s fr al bp n A p l2) by (done || lia).
  by rewrite free_upper_run, free_lower_run.
Qed.


Lemma free_mem_other a : a <> bp -> a <> p.1 -> free_mem (um_mem s) p bp n l2 !! a = um_mem s !! a.
Proof. intros Ha Hp. unfold free_mem. destruct (_ =? bp); by rewrite !lookup_insert_ne by done. Qed.

Lemma free_nodup : p.1 ∉ A.*1 /\ p.1 ∉ l2.*1 /\ bp ∉ A.*1 /\ bp ∉ l2.*1.
Proof.
  pose proof (nodes_nodup _ _ _ Hok) as Hnd. rewrite (po_nodes _ _ _ _ _ _ Hpo), fmap_app in Hnd. cbn in Hnd.
  apply NoDup_app in Hnd as (_ & Hd & [Hp _]%NoDup_cons). split_and!.
  - intros Hin. apply (Hd _ Hin). apply list_elem_of_here.
  - done.
  - intros (b & Hb & Hin)%list_elem_of_fmap. destruct (list_elem_of_split _ _ Hin) as (A1 & A2 & EA).
    pose proof (po_nodes _ _ _ _ _ _ Hpo) as E. pose proof (po_below _ _ _ _ _ _ Hpo) as [Hlt _]. rewrite EA in E. destruct A1 as [|a A1].
    + injection E as <- _. cbn in *. lia.
    + injection E as _ E. pose proof (ok_spaced _ _ _ Hok) as Hs. rewrite E in Hs.
      replace ((A1 ++ b :: A2) ++ p :: l2) with ((A1 ++ b :: A2) ++ p :: l2) in Hs by done. apply spaced_app in Hs as (_ & Hs & _).
      pose proof (spaced_snoc_lt base (A1 ++ b :: A2) p b Hs ltac:(apply elem_of_app; right; apply list_elem_of_here)).
      pose proof (spaced_elem base _ b Hs ltac:(apply elem_of_app; left; apply elem_of_app; right; apply list_elem_of_here)). lia.
  - intros (b & Hb & Hin)%list_elem_of_fmap. pose proof (free_next b Hin). lia.
Qed.

Lemma free_linked : linked (free_mem (um_mem s) p bp n l2) (free_nodes A p bp n l2) base.
Proof.
  destruct free_links as (HA & Hp & H2). destruct free_nodup as (HpA & Hpl & HbA & Hbl). pose proof (po_below _ _ _ _ _ _ Hpo) as [Hlt _].
  assert (Hj : linked (um_mem s) (join_up bp n l2).2 base /\ p.1 ∉ (join_up bp n l2).2.*1 /\ bp ∉ (join_up bp n l2).2.*1).
  { unfold join_up. destruct l2 as [|b l]; [by split_and!|]. destruct (_ =? b.1); cbn [snd]; [|by split_and!].
    cbn in Hpl, Hbl. apply not_elem_of_cons in Hpl as [_ ?], Hbl as [_ ?]. by destruct H2. }
  destruct Hj as (Hj & Hpj & Hbj). unfold free_mem, free_nodes. destruct (_ =? bp); apply linked_app; cbn [hd_addr linked fst snd].
  - rewrite !linked_insert by done. split_and!; [done|by rewrite lookup_insert_eq|done].
  - rewrite !linked_insert by done. split_and!; [done|by rewrite lookup_insert_eq| |done].
    rewrite lookup_insert_ne by lia. by rewrite lookup_insert_eq.
Qed.

Hypothesis Hal : forall a k, al !! a = Some k -> apart a k (bp, n).

Lemma free_ok :
  exists fr', free_nodes A p bp n l2 = (base, 0) :: fr' /\
    ok (set_freep p.1 (set_mem (free_mem (um_mem s) p bp n l2) s)) fr' al.
Proof.
  destruct (free_nodes_spaced fr bp n A p l2 (ok_spaced _ _ _ Hok) ltac:(lia) Hn Hpo) as (fr' & E & Hs). exists fr'. split; [done|].
  assert (Hind : forall (P : block -> Prop), (forall a k j, P (a, k) -> P (a + k * 8, j) -> P (a, k + j)) -> P (bp, n) -> P (base, 0) ->
    (forall b, b ∈ fr -> P b) -> forall b, b ∈ fr' -> P b).
  { intros P H1 H3 H4 H5 b Hb. apply (free_nodes_ind P A p bp n l2); [done|done| |rewrite E; by apply list_elem_of_further].
    rewrite <- (po_nodes _ _ _ _ _ _ Hpo). intros y [->|Hy]%elem_of_cons; auto. }
  split.
  - cbn [um_mem set_mem set_freep]. rewrite <- E. apply free_linked.
  - cbn [um_freep set_freep]. change (base :: fr'.*1) with ((base, 0) :: fr').*1. rewrite <- E. unfold free_nodes.
    destruct (_ =? bp); rewrite fmap_app; apply elem_of_app; right; apply list_elem_of_here.
  - done.
  - intros b Hb. pose proof (spaced_elem base fr' b Hs Hb).
    assert (b.1 = base \/ heap0 <= b.1); [|lia]. apply (Hind (fun b => b.1 = base \/ heap0 <= b.1)); [done|by right|by left| |done].
    intros y Hy. right. by apply (ok_low _ _ _ Hok).
  - intros b Hb. pose proof (ok_brk _ _ _ Hok). apply (Hind (fun b => b.1 + b.2 * 8 <= um_brk s)); [cbn; lia|done|cbn; lia| |done].
    apply (ok_high _ _ _ Hok).
  - intros a k Ha. destruct (ok_size _ _ _ Hok a k Ha) as [y Hy]. exists y. destruct (ok_pos _ _ _ Hok a k Ha) as (Hk & Hlow & _).
    cbn. rewrite free_mem_other; [done| |].
    + pose proof (Hal a k Ha) as Hap. unfold apart in Hap. cbn in Hap. lia.
    + pose proof (po_nodes _ _ _ _ _ _ Hpo) as E'. assert (Hin : p ∈ (base, 0) :: fr) by (rewrite E'; apply elem_of_app; right; apply list_elem_of_here).
      apply elem_of_cons in Hin as [->|Hin]; [cbn; lia|]. pose proof (ok_free _ _ _ Hok a k p Ha Hin) as Hap. unfold apart in Hap.
      pose proof (spaced_elem base fr p (ok_spaced _ _ _ Hok) Hin). lia.
  - apply (ok_pos _ _ _ Hok).
  - apply (ok_apart _ _ _ Hok).
  - intros a k b Ha Hb. destruct (ok_pos _ _ _ Hok a k Ha) as (Hk & Hlow & _). apply (Hind (apart a k)); [|by apply Hal| | |done].
    + unfold apart. cbn. lia.
    + right. cbn. lia.
    + intros y Hy. by apply (ok_free _ _ _ Hok).
  - apply (ok_brk _ _ _ Hok).
Qed.

End free.

(** The addresses of the blocks. *)
Definition inside (l : list block) (x : Z) : Prop := exists b, b ∈ l /\ b.1 <= x < b.1 + b.2 * 8.

Lemma inside_cons b l x : inside (b :: l) x <-> b.1 <= x < b.1 + b.2 * 8 \/ inside l x.
Proof.
  split.
  - intros (y & [->|Hy]%elem_of_cons & Hx); [by left|right; by exists y].
  - intros [H|(y & Hy & Hx)]; [exists b; split; [apply list_elem_of_here|done]|exists y; split; [by apply list_elem_of_further|done]].
Qed.

Lemma inside_nil x : ~ inside [] x.
Proof. intros (b & Hb & _). by apply elem_of_nil in Hb. Qed.

Lemma inside_app l1 l2 x : inside (l1 ++ l2) x <-> inside l1 x \/ inside l2 x.
Proof.
  induction l1 as [|b l1 IH]; cbn [app]; [|rewrite !inside_cons, IH; tauto]. pose proof (inside_nil x). tauto.
Qed.

Lemma join_up_inside bp n l2 x :
  0 < n -> (forall b, b ∈ l2 -> 0 < b.2) ->
  inside ((bp, (join_up bp n l2).1) :: (join_up bp n l2).2) x <-> bp <= x < bp + n * 8 \/ inside l2 x.
Proof.
  intros Hn Hp. unfold join_up. destruct l2 as [|b l]; cbn [fst snd]; [rewrite inside_cons; cbn; tauto|].
  pose proof (Hp b (list_elem_of_here _ _)). destruct (Z.eqb_spec (bp + n * 8) b.1); cbn [fst snd]; rewrite !inside_cons; cbn [fst snd]; [|tauto].
  assert (Hx : bp <= x < bp + (n + b.2) * 8 <-> bp <= x < bp + n * 8 \/ b.1 <= x < b.1 + b.2 * 8) by lia. rewrite Hx. tauto.
Qed.

(** What does not change in memory: the allocated blocks. *)
Definition kept (al : gmap Z Z) (m m' : gmap Z header) : Prop :=
  forall a n x, al !! a = Some n -> a <= x < a + n * 8 -> m' !! x = m !! x.

(** A block that is given back. *)
Lemma free_block s fr al bp n x :
  ok s fr al -> heap0 <= bp -> 0 < n -> bp + n * 8 <= um_brk s -> um_mem s !! bp = Some (Header x n) ->
  (forall b, b ∈ fr -> apart bp n b) -> (forall a k, al !! a = Some k -> apart a k (bp, n)) ->
  wp (free (bp + 8)) s (fun _ s' => exists fr', ok s' fr' al /\ um_brk s' = um_brk s /\ size (um_mem s') = size (um_mem s) /\ kept al (um_mem s) (um_mem s') /\
    (exists b, b ∈ fr' /\ n <= b.2) /\ forall y, inside fr' y <-> inside fr y \/ bp <= y < bp + n * 8).
Proof.
  intros Hok Hbp Hn Hend Hhdr Hfr Hal.
  destruct (find_pred fr bp n (ok_spaced _ _ _ Hok) ltac:(lia) Hn Hfr) as (A & p & l2 & Hpo).
  destruct (free_ok s fr al bp n A p l2 Hok Hbp Hn Hend Hpo Hal) as (fr' & E & Hok').
  eapply wp_intro; [by apply (free_run s fr al bp n x A p l2)|]. exists fr'.
  assert (Hp2 : forall b, b ∈ l2 -> 0 < b.2) by (intros b Hb; by apply (free_next s fr al bp n A p l2 Hok Hbp Hn Hpo b)).
  destruct (join_up_spaced bp n l2 _ (po_after _ _ _ _ _ _ Hpo) (po_above _ _ _ _ _ _ Hpo) Hn) as [_ Hj].
  split; [done|]. split; [done|]. split; [|split; [|split]].
  - destruct (free_links s fr al bp n A p l2 Hok Hpo) as (_ & Hp & _). cbn. unfold free_mem.
    destruct (_ =? bp); rewrite !map_size_insert_Some; try done; rewrite lookup_insert_ne; try done; pose proof (po_below _ _ _ _ _ _ Hpo); lia.
  - intros a k y Ha Hy. cbn. destruct (ok_pos _ _ _ Hok a k Ha) as (Hk & Hlow & _). apply free_mem_other.
    + pose proof (Hal a k Ha) as Hap. unfold apart in Hap. cbn in Hap. lia.
    + assert (Hin : p ∈ (base, 0) :: fr) by (rewrite (po_nodes _ _ _ _ _ _ Hpo); apply elem_of_app; right; apply list_elem_of_here).
      apply elem_of_cons in Hin as [->|Hin]; [cbn; lia|]. pose proof (ok_free _ _ _ Hok a k p Ha Hin) as Hap. unfold apart in Hap.
      pose proof (spaced_elem base fr p (ok_spaced _ _ _ Hok) Hin). lia.
  - pose proof (free_pred_size s fr al bp n A p l2 Hok Hn Hend Hpo) as (_ & Hps & _).
    assert (Hbig : exists b, b ∈ (base, 0) :: fr' /\ n <= b.2).
    { rewrite <- E. unfold free_nodes. destruct (_ =? bp); eexists; (split; [apply elem_of_app; right|]).
      - apply list_elem_of_here.
      - cbn. lia.
      - apply list_elem_of_further, list_elem_of_here.
      - done. }
    destruct Hbig as (b & [->|Hb]%elem_of_cons & Hbn); [cbn in Hbn; lia|by exists b].
  - intros y. assert (Hb0 : inside ((base, 0) :: fr') y <-> inside ((base, 0) :: fr) y \/ bp <= y < bp + n * 8).
    2: { rewrite !inside_cons in Hb0. cbn in Hb0. split; intros H; [|destruct H as [H|H]]; (assert (~ base <= y < base + 0) by lia); tauto. }
    rewrite <- E, (po_nodes _ _ _ _ _ _ Hpo). pose proof (join_up_inside bp n l2 y Hn Hp2) as Hji. rewrite inside_cons in Hji. cbn [fst snd] in Hji.
    unfold free_nodes. destruct (Z.eqb_spec (p.1 + p.2 * 8) bp) as [Eb|]; rewrite !inside_app, !inside_cons; cbn [fst snd]; [|tauto].
    pose proof (free_pred_size s fr al bp n A p l2 Hok Hn Hend Hpo) as (_ & Hps & _).
    assert (Hx : p.1 <= y < p.1 + (p.2 + (join_up bp n l2).1) * 8 <-> p.1 <= y < p.1 + p.2 * 8 \/ bp <= y < bp + (join_up bp n l2).1 * 8) by lia.
    rewrite Hx. tauto.
Qed.

(** ** malloc *)

Section take.
Variable (s : um) (fr : list block) (al : gmap Z Z) (A : list block) (q y : block) (B : list block) (nunits : Z).
Hypothesis Hok : ok s fr al.
Hypothesis Hnodes : (base, 0) :: fr = A ++ q :: y :: B.
Hypothesis Hnu : 0 < nunits <= y.2.

Lemma take_y : y ∈ fr.
Proof.
  assert (Hin : y ∈ (base, 0) :: fr) by (rewrite Hnodes; apply elem_of_app; right; apply list_elem_of_further, list_elem_of_here).
  apply elem_of_cons in Hin as [->|Hin]; [cbn in Hnu; lia|done].
Qed.

Lemma take_links :
  linked (um_mem s) A q.1 /\ um_mem s !! q.1 = Some (Header y.1 q.2) /\
  um_mem s !! y.1 = Some (Header (hd_addr B base) y.2) /\ linked (um_mem s) B base.
Proof.
  pose proof (ok_list _ _ _ Hok) as Hl. rewrite Hnodes in Hl. apply linked_app in Hl as [HA (Hq & Hy & HB)]. by split_and!.
Qed.

(** The free blocks, the block that is taken, and memory afterwards. *)
Definition take_nodes : list block := if y.2 =? nunits then A ++ q :: B else A ++ q :: (y.1, y.2 - nunits) :: B.
Definition taken : Z := y.1 + (y.2 - nunits) * 8.
Definition take_mem : gmap Z header :=
  if y.2 =? nunits then <[q.1 := Header (hd_addr B base) q.2]> (um_mem s)
  else <[taken := Header (h_ptr (default (Header 0 0) (um_mem s !! taken))) nunits]> (<[y.1 := Header (hd_addr B base) (y.2 - nunits)]> (um_mem s)).

Lemma take_bounds : heap0 <= y.1 /\ y.1 + y.2 * 8 <= um_brk s /\ um_brk s <= top.
Proof.
  pose proof take_y as Hy. pose proof (ok_low _ _ _ Hok y Hy). pose proof (ok_high _ _ _ Hok y Hy). pose proof (ok_brk _ _ _ Hok). lia.
Qed.

Lemma take_mapped b : b ∈ A ++ q :: y :: B -> mapped b.1 s = true.
Proof. rewrite <- Hnodes. apply (node_mapped _ _ _ Hok). Qed.

Lemma malloc_take_run : malloc_take nunits q.1 y.1 s = Ret (taken + 8) (set_freep q.1 (set_mem take_mem s)).
Proof.
  destruct take_links as (HA & Hq & Hy & HB). destruct take_bounds as (Hlow & Hhigh & Htop').
  assert (Hmq : mapped q.1 s = true) by (apply take_mapped, elem_of_app; right; apply list_elem_of_here).
  assert (Hmy : mapped y.1 s = true) by (apply take_mapped, elem_of_app; right; apply list_elem_of_further, list_elem_of_here).
  unfold malloc_take, mbind, M_bind, modify, mret, M_ret. rewrite (hget_run y.1 _ s Hmy Hy). cbn [h_size h_ptr].
  unfold take_mem, taken, put_ptr, put_size. destruct (Z.eqb_spec y.2 nunits) as [E|E].
  - rewrite hput_run, Hq by done. rewrite plus_small by lia. cbn [default id h_size]. f_equal. lia.
  - rewrite u32_small by (unfold in_u32; lia). rewrite hput_run, Hy by done. rewrite plus_small by lia. cbn [default id h_ptr].
    rewrite hput_run by (apply mapped_in; cbn; lia). rewrite plus_small by lia. cbn [um_mem set_mem]. by rewrite lookup_insert_ne by lia.
Qed.

Lemma take_nodup : q.1 ∉ A.*1 /\ q.1 ∉ B.*1 /\ y.1 ∉ A.*1 /\ y.1 ∉ B.*1 /\ q.1 <> y.1.
Proof.
  pose proof (nodes_nodup _ _ _ Hok) as Hnd. rewrite Hnodes, fmap_app in Hnd. cbn in Hnd.
  apply NoDup_app in Hnd as (_ & Hd & [Hq [Hy _]%NoDup_cons]%NoDup_cons). apply not_elem_of_cons in Hq as [Hqy Hq]. split_and!; try done.
  - intros Hin. apply (Hd _ Hin). apply list_elem_of_here.
  - intros Hin. apply (Hd _ Hin). apply list_elem_of_further, list_elem_of_here.
Qed.

(** The blocks before and after the one that is taken. *)
Lemma take_split : exists l1, fr = l1 ++ y :: B /\ (base, 0) :: l1 = A ++ [q] /\
  spaced base (l1 ++ [y]) /\ spaced (y.1 + y.2 * 8) B /\ (forall b, b ∈ l1 -> b.1 + b.2 * 8 < y.1) /\ (forall b, b ∈ B -> y.1 + y.2 * 8 < b.1).
Proof.
  assert (E : exists l1, (base, 0) :: l1 = A ++ [q]).
  { destruct A as [|a A']; injection Hnodes as <- _; [by exists []|by exists (A' ++ [q])]. }
  destruct E as [l1 E]. exists l1. assert (Hfr : fr = l1 ++ y :: B).
  { apply (inj (cons (base, 0))). rewrite Hnodes. change (A ++ q :: y :: B) with (A ++ [q] ++ y :: B). rewrite app_assoc, <- E. done. }
  pose proof (ok_spaced _ _ _ Hok) as Hs. rewrite Hfr in Hs. apply spaced_app in Hs as (_ & Hs & HB). split_and!; try done.
  - intros b Hb. by eapply spaced_snoc_lt.
  - intros b Hb. apply (spaced_elem _ _ b HB Hb).
Qed.

Lemma take_linked : linked take_mem take_nodes base.
Proof.
  destruct take_links as (HA & Hq & Hy & HB). destruct take_nodup as (HqA & HqB & HyA & HyB & Hqy).
  destruct take_split as (l1 & Hfr & E & _ & _ & Hl1 & HlB). unfold take_mem, take_nodes, taken. destruct (Z.eqb_spec y.2 nunits).
  - apply linked_app. cbn [linked hd_addr]. rewrite !linked_insert by done. by rewrite lookup_insert_eq.
  - assert (HtB : y.1 + (y.2 - nunits) * 8 ∉ B.*1) by (intros (b & Hb & Hin)%list_elem_of_fmap; pose proof (HlB b Hin); lia).
    destruct take_bounds as (Hlow & _).
    assert (HtA : y.1 + (y.2 - nunits) * 8 ∉ (A ++ [q]).*1).
    { rewrite <- E. intros (b & Hb & Hin)%list_elem_of_fmap. apply elem_of_cons in Hin as [->|Hin]; [cbn in Hb; lia|].
      pose proof (Hl1 b Hin). pose proof (spaced_elem base fr b (ok_spaced _ _ _ Hok) ltac:(rewrite Hfr; apply elem_of_app; by left)). lia. }
    rewrite fmap_app in HtA. apply not_elem_of_app in HtA as [HtA Htq]. cbn in Htq. apply not_elem_of_cons in Htq as [Htq _].
    apply linked_app. cbn [linked hd_addr fst snd]. rewrite !linked_insert by done. split_and!; [done| | |done].
    + by rewrite !lookup_insert_ne by congruence.
    + rewrite lookup_insert_ne by lia. by rewrite lookup_insert_eq.
Qed.

(** The block is apart from everything else. *)
Lemma taken_apart b : b ∈ fr -> b <> y -> apart taken nunits b.
Proof.
  destruct take_split as (l1 & -> & _ & _ & _ & Hl1 & HlB). unfold apart, taken. intros [Hb|Hb]%elem_of_app Hne.
  - pose proof (Hl1 b Hb). lia.
  - apply elem_of_cons in Hb as [->|Hb]; [done|]. pose proof (HlB b Hb). lia.
Qed.

Lemma take_spaced : exists fr', take_nodes = (base, 0) :: fr' /\ spaced base fr' /\
  (forall b, b ∈ fr' -> (b ∈ fr /\ b <> y) \/ b = (y.1, y.2 - nunits) /\ 0 < y.2 - nunits).
Proof.
  destruct take_split as (l1 & Hfr & E & Hs1 & HsB & Hl1 & HlB). unfold take_nodes.
  assert (Hly : forall b, b ∈ l1 -> b <> y) by (intros b Hb ->; pose proof (Hl1 y Hb); lia).
  assert (HBy : forall b, b ∈ B -> b <> y) by (intros b Hb ->; pose proof (HlB y Hb); lia).
  destruct (Z.eqb_spec y.2 nunits).
  - exists (l1 ++ B). split_and!.
    + change (A ++ q :: B) with (A ++ [q] ++ B). by rewrite app_assoc, <- E.
    + apply (spaced_remove _ _ y). rewrite <- Hfr. apply (ok_spaced _ _ _ Hok).
    + intros b [Hb|Hb]%elem_of_app; left; (split; [rewrite Hfr; apply elem_of_app|auto]); [by left|right; by apply list_elem_of_further].
  - exists (l1 ++ (y.1, y.2 - nunits) :: B). split_and!.
    + change (A ++ q :: (y.1, y.2 - nunits) :: B) with (A ++ [q] ++ (y.1, y.2 - nunits) :: B). by rewrite app_assoc, <- E.
    + apply spaced_app. cbn [fst snd]. split_and!.
      * by apply spaced_app in Hs1 as [? _].
      * destruct y. eapply spaced_last; [exact Hs1|cbn in *; lia].
      * eapply spaced_lower; [exact HsB|lia].
    + intros b [Hb|Hb]%elem_of_app; [left; split; [rewrite Hfr; apply elem_of_app; by left|auto]|].
      apply elem_of_cons in Hb as [->|Hb]; [right; split; [done|lia]|left; split; [|auto]].
      rewrite Hfr. apply elem_of_app. right. by apply list_elem_of_further.
Qed.

Lemma taken_al a n : al !! a = Some n -> apart a n (taken, nunits).
Proof.
  intros Ha. pose proof (ok_free _ _ _ Hok a n y Ha take_y) as Hap. unfold apart, taken in *. cbn. lia.
Qed.

Lemma taken_in_free a n x : al !! a = Some n -> a <= x < a + n * 8 -> take_mem !! x = um_mem s !! x.
Proof.
  intros Ha Hx. pose proof (ok_free _ _ _ Hok a n y Ha take_y) as Hap. destruct (ok_pos _ _ _ Hok a n Ha) as (Hn & Hlow & _).
  assert (Hq : q.1 <> x).
  { assert (Hin : q ∈ (base, 0) :: fr) by (rewrite Hnodes; apply elem_of_app; right; apply list_elem_of_here).
    apply elem_of_cons in Hin as [->|Hin]; [cbn; lia|]. pose proof (ok_free _ _ _ Hok a n q Ha Hin) as Hap'.
    pose proof (spaced_elem base fr q (ok_spaced _ _ _ Hok) Hin). unfold apart in Hap'. lia. }
  unfold apart in Hap. unfold take_mem, taken. destruct (y.2 =? nunits); by rewrite !lookup_insert_ne by lia.
Qed.

Lemma take_ok : exists fr', ok (set_freep q.1 (set_mem take_mem s)) fr' (<[taken := nunits]> al) /\ al !! taken = None.
Proof.
  destruct take_spaced as (fr' & E & Hs & Hin). destruct take_bounds as (Hlow & Hhigh & _). exists fr'.
  assert (Hnone : al !! taken = None).
  { destruct (al !! taken) as [n|] eqn:Ha; [|done]. pose proof (taken_al _ _ Ha) as Hap. destruct (ok_pos _ _ _ Hok _ _ Ha) as (? & _).
    unfold apart in Hap. cbn in Hap. lia. }
  split; [|done]. split.
  - rewrite <- E. apply take_linked.
  - cbn [um_freep set_freep]. change (base :: fr'.*1) with ((base, 0) :: fr').*1. rewrite <- E. unfold take_nodes.
    destruct (_ =? nunits); rewrite fmap_app; apply elem_of_app; right; apply list_elem_of_here.
  - done.
  - intros b Hb. destruct (Hin b Hb) as [[Hb' _]|[-> _]]; [by apply (ok_low _ _ _ Hok)|done].
  - intros b Hb. destruct (Hin b Hb) as [[Hb' _]|[-> _]]; [by apply (ok_high _ _ _ Hok)|cbn; lia].
  - intros a n Ha. destruct (decide (a = taken)) as [->|Hne].
    + rewrite lookup_insert_eq in Ha. injection Ha as <-. cbn. unfold take_mem. destruct take_links as (_ & _ & Hy & _).
      destruct take_nodup as (_ & _ & _ & _ & Hqy). destruct (Z.eqb_spec y.2 nunits) as [Ey|].
      * replace taken with y.1 by (unfold taken; lia). rewrite lookup_insert_ne by done. rewrite Hy, Ey. by eexists.
      * rewrite lookup_insert_eq. by eexists.
    + rewrite lookup_insert_ne in Ha by done. destruct (ok_size _ _ _ Hok a n Ha) as [p Hp]. exists p. cbn.
      destruct (ok_pos _ _ _ Hok a n Ha). by rewrite (taken_in_free a n) by (done || lia).
  - intros a n [(<- & <-)|(Hne & Ha)]%lookup_insert_Some; [unfold taken; cbn; lia|by apply (ok_pos _ _ _ Hok)].
  - intros a n b k [(<- & <-)|(Hne & Ha)]%lookup_insert_Some [(<- & <-)|(Hne' & Hb)]%lookup_insert_Some Hab; [done|..].
    + pose proof (taken_al _ _ Hb) as Hap. unfold apart in *. cbn in *. lia.
    + by apply taken_al.
    + by apply (ok_apart _ _ _ Hok).
  - intros a n b [(<- & <-)|(Hne & Ha)]%lookup_insert_Some Hb; destruct (Hin b Hb) as [[Hb' Hby]|[-> ?]].
    + by apply taken_apart.
    + right. unfold taken. cbn. lia.
    + by apply (ok_free _ _ _ Hok).
    + pose proof (ok_free _ _ _ Hok a n y Ha take_y) as Hap. unfold apart in *. cbn in *. lia.
  - apply (ok_brk _ _ _ Hok).
Qed.

End take.

(** A turn around the list from the node [f]. *)
Definition turn (N1 : list block) (f : block) (N2 : list block) : list block := (f :: N2) ++ N1 ++ [f].

Lemma turn_consecutive N1 f N2 D (q y : block) R :
  turn N1 f N2 = D ++ q :: y :: R ->
  (exists A B, N1 ++ f :: N2 = A ++ q :: y :: B) \/ (exists A R', f :: N2 = A ++ [q] /\ N1 ++ [f] = y :: R').
Proof.
  intros E. assert (HN : N1 ++ f :: N2 = (N1 ++ [f]) ++ N2) by (by rewrite <- app_assoc).
  apply app_eq_app in E as (l & [[E1 E2]|[E1 E2]]).
  - destruct l as [|a [|b l]].
    + cbn in E2. left. exists [], (R ++ N2). by rewrite HN, <- E2.
    + injection E2 as <- E2. right. exists D, R. done.
    + injection E2 as <- <- _. left. exists (N1 ++ D), l. rewrite E1. by rewrite app_assoc.
  - left. exists l, (R ++ N2). by rewrite HN, E2, <- app_assoc.
Qed.

Section walk.
Variable (s : um) (fr : list block) (al : gmap Z Z) (N1 : list block) (f : block) (N2 : list block).
Hypothesis Hok : ok s fr al.
Hypothesis Hnodes : (base, 0) :: fr = N1 ++ f :: N2.
Hypothesis Hf : um_freep s = f.1.

Lemma turn_in D q R : turn N1 f N2 = D ++ q :: R -> q ∈ (base, 0) :: fr.
Proof.
  intros E. rewrite Hnodes. assert (Hin : q ∈ turn N1 f N2) by (rewrite E; apply elem_of_app; right; apply list_elem_of_here).
  unfold turn in Hin. apply elem_of_app. apply elem_of_app in Hin as [Hin|Hin]; [by right|].
  apply elem_of_app in Hin as [?| ->%list_elem_of_singleton]; [by left|right; apply list_elem_of_here].
Qed.

Lemma linked_size m l e b : linked m l e -> b ∈ l -> exists nx, m !! b.1 = Some (Header nx b.2).
Proof.
  induction l as [|x l IH]; intros Hl Hb; [by apply elem_of_nil in Hb|]. cbn [linked] in Hl. destruct Hl as [Hx Hl].
  apply elem_of_cons in Hb as [->|Hb]; [by eexists|by apply IH].
Qed.

Lemma turn_next D q y R : turn N1 f N2 = D ++ q :: y :: R -> um_mem s !! q.1 = Some (Header y.1 q.2).
Proof.
  intros E. pose proof (ok_list _ _ _ Hok) as Hl. rewrite Hnodes in Hl.
  destruct (turn_consecutive _ _ _ _ _ _ _ E) as [(A & B & EN)|(A & R' & E2 & E1)].
  - rewrite EN in Hl. apply linked_app in Hl as [_ [Hq _]]. done.
  - rewrite E2, app_assoc in Hl. apply linked_app in Hl as [_ [Hq _]]. cbn in Hq. rewrite Hq. do 2 f_equal.
    assert (HN : N1 ++ f :: N2 = (N1 ++ [f]) ++ N2) by (by rewrite <- app_assoc). rewrite HN, E1 in Hnodes. by injection Hnodes as <- _.
Qed.

Lemma turn_prev D q y R : turn N1 f N2 = D ++ q :: y :: R -> 0 < y.2 -> exists A B, (base, 0) :: fr = A ++ q :: y :: B.
Proof.
  intros E Hy. destruct (turn_consecutive _ _ _ _ _ _ _ E) as [(A & B & EN)|(A & R' & E2 & E1)].
  - exists A, B. by rewrite Hnodes.
  - assert (HN : N1 ++ f :: N2 = (N1 ++ [f]) ++ N2) by (by rewrite <- app_assoc). rewrite HN, E1 in Hnodes. injection Hnodes as <- _.
    cbn in Hy. lia.
Qed.

Lemma turn_not_first D q y z R : turn N1 f N2 = D ++ q :: y :: z :: R -> y.1 <> f.1.
Proof.
  intros E. pose proof (nodes_nodup _ _ _ Hok) as Hnd. rewrite Hnodes, fmap_app in Hnd. cbn in Hnd. apply NoDup_app in Hnd as (_ & Hd & [Hf2 _]%NoDup_cons).
  assert (Hin : y ∈ N2 ++ N1).
  { unfold turn in E. cbn [app] in E. assert (E' : exists D', N2 ++ N1 ++ [f] = D' ++ y :: z :: R).
    { destruct D as [|d D]; cbn [app] in E; [injection E as _ E; by exists []|injection E as _ E; exists (D ++ [q]); by rewrite <- app_assoc]. }
    destruct E' as [D' E']. rewrite app_assoc in E'.
    assert (Hl : exists R' w, z :: R = R' ++ [w]) by (destruct (exists_last (l := z :: R)) as (R' & w & ?); [done|by exists R', w]).
    destruct Hl as (R' & w & Hl). rewrite Hl in E'. change (D' ++ y :: R' ++ [w]) with (D' ++ (y :: R') ++ [w]) in E'. rewrite app_assoc in E'.
    apply app_inj_tail in E' as [E' _]. rewrite E'. apply elem_of_app. right. apply list_elem_of_here. }
  intros Hy. apply elem_of_app in Hin as [Hin|Hin].
  - apply Hf2. rewrite <- Hy. by apply list_elem_of_fmap_2.
  - apply (Hd y.1); [by apply list_elem_of_fmap_2|]. rewrite Hy. apply list_elem_of_here.
Qed.

(** What happens after a turn without success. *)
Definition malloc_more (n : nat) (nunits : Z) : M um Z :=
  p ← morecore nunits;
  if p =? 0 then mret 0
  else
    h ← hget p;
    malloc_loop n nunits p (h_ptr h).

Lemma malloc_walk nunits rest : forall D q n,
  0 < nunits -> turn N1 f N2 = D ++ q :: rest -> rest <> [] -> (length rest <= n)%nat ->
  (exists A q' y B, (base, 0) :: fr = A ++ q' :: y :: B /\ nunits <= y.2 /\
     malloc_loop n nunits q.1 (hd_addr rest 0) s = malloc_take nunits q'.1 y.1 s) \/
  (Forall (fun y => y.2 < nunits) rest /\ malloc_loop n nunits q.1 (hd_addr rest 0) s = malloc_more (n - length rest) nunits s).
Proof.
  induction rest as [|y rest IH]; intros D q n Hnu E Hne Hn; [done|]. destruct n as [|n]; [cbn in Hn; lia|]. cbn [hd_addr].
  assert (E' : turn N1 f N2 = (D ++ [q]) ++ y :: rest) by (by rewrite <- app_assoc).
  assert (Hy : y ∈ (base, 0) :: fr) by (by eapply turn_in). destruct (linked_size _ _ _ y (ok_list _ _ _ Hok) Hy) as [nx Hnx].
  assert (Hstep : malloc_loop (S n) nunits q.1 y.1 s =
    if nunits <=? y.2 then malloc_take nunits q.1 y.1 s
    else if y.1 =? f.1 then malloc_more n nunits s else malloc_loop n nunits y.1 nx s).
  { cbn [malloc_loop]. unfold mbind at 1, M_bind at 1.
    rewrite (hget_run y.1 (Header nx y.2) s) by (done || by apply (node_mapped _ _ _ Hok)). cbn [h_size h_ptr].
    destruct (nunits <=? y.2); [done|]. unfold gets at 1. unfold mbind at 1, M_bind at 1. rewrite Hf. by destruct (y.1 =? f.1). }
  rewrite Hstep. destruct (Z.leb_spec nunits y.2) as [Hfit|Hsmall].
  { left. destruct (turn_prev D q y rest E ltac:(lia)) as (A & B & EN). exists A, q, y, B. by split_and!. }
  destruct rest as [|z rest].
  - assert (y = f) as ->.
    { unfold turn in E'. rewrite app_assoc in E'. by apply app_inj_tail in E' as [_ ->]. }
    rewrite Z.eqb_refl. right. split; [by apply Forall_singleton|]. by replace (S n - length [f])%nat with n by (cbn; lia).
  - rewrite (proj2 (Z.eqb_neq _ _)) by (by eapply turn_not_first).
    pose proof (turn_next (D ++ [q]) y z rest E') as Hnx'. rewrite Hnx in Hnx'. injection Hnx' as ->.
    destruct (IH (D ++ [q]) y n Hnu E' ltac:(done) ltac:(cbn in *; lia)) as [H|[Hall H]]; [by left|]. right.
    split; [by constructor|]. exact H.
Qed.

End walk.

(** Memory beyond the end is unused. *)
Lemma ok_grow s fr al b v :
  ok s fr al -> um_brk s <= b <= top -> ok (set_mem (<[um_brk s := v]> (um_mem s)) (set_brk b s)) fr al.
Proof.
  intros Hok Hb. pose proof (ok_brk _ _ _ Hok) as Hbrk. split; cbn.
  - apply (linked_insert (um_mem s) ((base, 0) :: fr)); [|apply (ok_list _ _ _ Hok)].
    cbn. intros [Hx|(x & Hx & Hin)%list_elem_of_fmap]%elem_of_cons; [lia|]. pose proof (ok_high _ _ _ Hok x Hin).
    pose proof (spaced_elem base fr x (ok_spaced _ _ _ Hok) Hin). lia.
  - apply (ok_freep _ _ _ Hok).
  - apply (ok_spaced _ _ _ Hok).
  - apply (ok_low _ _ _ Hok).
  - intros x Hx. pose proof (ok_high _ _ _ Hok x Hx). cbn. lia.
  - intros a n Ha. destruct (ok_size _ _ _ Hok a n Ha) as [p Hp]. exists p. pose proof (ok_pos _ _ _ Hok a n Ha).
    by rewrite lookup_insert_ne by lia.
  - intros a n Ha. pose proof (ok_pos _ _ _ Hok a n Ha). lia.
  - apply (ok_apart _ _ _ Hok).
  - apply (ok_free _ _ _ Hok).
  - lia.
Qed.

(** How many headers [morecore] asks for. *)
Definition core_units (nunits : Z) : Z := if nunits <? 4096 then 4096 else nunits.

Lemma morecore_spec s fr al nunits :
  ok s fr al -> 0 < nunits -> nunits * 8 < 2 ^ 31 ->
  wp (morecore nunits) s (fun r s' =>
    (r = 0 /\ s' = s /\ top < um_brk s + core_units nunits * 8) \/
    (exists fr', r = um_freep s' /\ ok s' fr' al /\ um_brk s' = um_brk s + core_units nunits * 8 /\
       kept al (um_mem s) (um_mem s') /\ (size (um_mem s') <= S (size (um_mem s)))%nat /\ exists b, b ∈ fr' /\ nunits <= b.2)).
Proof.
  intros Hok Hnu Hsz. pose proof (ok_brk _ _ _ Hok) as Hbrk. unfold morecore. fold (core_units nunits).
  assert (Hc : 4096 <= core_units nunits /\ nunits <= core_units nunits /\ core_units nunits * 8 < 2 ^ 31) by (unfold core_units; case_match; lia).
  destruct Hc as (Hc1 & Hc2 & Hc3). apply wp_bind. rewrite u32_small by (unfold in_u32; lia). rewrite i32_small by (unfold in_i32; lia).
  unfold sbrk, wp at 1, wpe, get, put, mbind, M_bind. rewrite (proj2 (Z.ltb_lt 0 _)) by lia. rewrite u32_small by (unfold in_u32; lia).
  destruct (Z.leb_spec (um_brk s + core_units nunits * 8) top) as [Hfit|Hno]; unfold mret, M_ret.
  2: { cbn [Z.eqb Pos.eqb]. left. done. }
  rewrite (proj2 (Z.eqb_neq _ _)) by lia. apply (wp_bind (put_size _ _)). unfold put_size.
  eapply wp_intro; [apply hput_run, mapped_in; cbn; lia|]. cbn [um_mem set_brk].
  set (v := Header _ _). set (b := um_brk s + core_units nunits * 8).
  pose proof (ok_grow s fr al b v Hok ltac:(lia)) as Hok1. change (set_mem _ _) with (set_mem (<[um_brk s := v]> (um_mem s)) (set_brk b s)).
  set (s1 := set_mem _ _) in *. apply wp_bind. rewrite plus_small by lia. replace (um_brk s + 1 * 8) with (um_brk s + 8) by lia.
  eapply wp_mono; [|apply (free_block s1 fr al (um_brk s) (core_units nunits) (h_ptr v))]; try done.
  - cbv beta. intros _ s2 (fr' & Hok2 & Hb2 & Hsize & Hk & (x & Hx & Hxn) & _). unfold wp, wpe, gets. right. exists fr'.
    split_and!; [done|done|done| | |exists x; split; [done|lia]].
    + intros a n y Ha Hy. rewrite (Hk a n y Ha Hy). cbn. pose proof (ok_pos _ _ _ Hok a n Ha). by rewrite lookup_insert_ne by lia.
    + rewrite Hsize. cbn. rewrite map_size_insert. destruct (um_mem s !! um_brk s); cbn; lia.
  - lia.
  - lia.
  - cbn. rewrite lookup_insert_eq. done.
  - intros x Hx. right. by apply (ok_high _ _ _ Hok).
  - intros a k Ha. left. pose proof (ok_pos _ _ _ Hok a k Ha). cbn. lia.
Qed.

(** A block that [malloc] returns. *)
Definition allocated (s : um) (al : gmap Z Z) (nunits r : Z) (s' : um) : Prop :=
  exists fr', ok s' fr' (<[r - 8 := nunits]> al) /\ al !! (r - 8) = None /\ kept al (um_mem s) (um_mem s').

(** A turn from the node [freep]. *)
Lemma malloc_turn s fr al nunits n :
  ok s fr al -> 0 < nunits -> (length ((base, 0%Z) :: fr) <= n)%nat ->
  exists h, hget (um_freep s) s = Ret h s /\
    (wp (malloc_loop n nunits (um_freep s) (h_ptr h)) s (allocated s al nunits) \/
     (forall b, b ∈ fr -> b.2 < nunits) /\
     malloc_loop n nunits (um_freep s) (h_ptr h) s = malloc_more (n - length ((base, 0%Z) :: fr)) nunits s).
Proof.
  intros Hok Hnu Hn. pose proof (ok_freep _ _ _ Hok) as Hin. change (base :: fr.*1) with ((base, 0) :: fr).*1 in Hin.
  apply list_elem_of_fmap in Hin as (f & Hf & Hin). apply list_elem_of_split in Hin as (N1 & N2 & HN).
  assert (Hne : N2 ++ N1 ++ [f] <> []) by (by intros [_ [_ ?]%app_eq_nil]%app_eq_nil).
  assert (Hlen : length (N2 ++ N1 ++ [f]) = length ((base, 0) :: fr)) by (rewrite HN, !length_app; cbn; lia).
  assert (Hnx : exists y R, N2 ++ N1 ++ [f] = y :: R) by (destruct (N2 ++ N1 ++ [f]) as [|y R]; [done|by exists y, R]).
  destruct Hnx as (y & R & Hnx). exists (Header y.1 f.2). cbn [h_ptr]. split.
  { rewrite Hf. apply hget_run; [apply (node_mapped _ _ _ Hok); rewrite HN; apply elem_of_app; right; apply list_elem_of_here|].
    apply (turn_next s fr al N1 f N2 Hok HN [] f y R). unfold turn. cbn [app]. by rewrite Hnx. }
  pose proof (malloc_walk s fr al N1 f N2 Hok HN Hf nunits (N2 ++ N1 ++ [f]) [] f n Hnu eq_refl Hne ltac:(lia)) as Hw.
  assert (Hhd : hd_addr (N2 ++ N1 ++ [f]) 0 = y.1) by (by rewrite Hnx). rewrite Hhd in Hw. rewrite Hf. destruct Hw as [(A & q & z & B & HN' & Hz & Hrun)|[Hall Hrun]].
  - left. unfold wp, wpe. rewrite Hrun, (malloc_take_run s fr al A q z B nunits Hok HN' ltac:(lia)).
    destruct (take_ok s fr al A q z B nunits Hok HN' ltac:(lia)) as (fr' & Hok' & Hnone). exists fr'.
    replace (taken z nunits + 8 - 8) with (taken z nunits) by lia. split_and!; [done|done|].
    intros a k x Ha Hx. by apply (taken_in_free s fr al A q z B nunits Hok HN' ltac:(lia) a k).
  - right. rewrite <- Hlen. split; [|done]. rewrite Forall_forall in Hall. intros b Hb. apply Hall.
    assert (Hb' : b ∈ (base, 0) :: fr) by (by apply list_elem_of_further). rewrite HN in Hb'. set_solver +Hb'.
Qed.

Lemma freep_nonzero s fr al : ok s fr al -> um_freep s <> 0.
Proof.
  intros Hok. pose proof (ok_freep _ _ _ Hok) as Hin. apply elem_of_cons in Hin as [->|(x & -> & Hx)%list_elem_of_fmap]; [lia|].
  pose proof (spaced_elem base fr x (ok_spaced _ _ _ Hok) Hx). lia.
Qed.

(** The request was too much for the limit. *)
Definition no_memory (s : um) (nunits : Z) : Prop := top < um_brk s + core_units nunits * 8.

Lemma malloc_main s fr al nunits n :
  ok s fr al -> 0 < nunits -> nunits * 8 < 2 ^ 31 -> (2 * S (size (um_mem s)) + 2 <= n)%nat ->
  exists h, hget (um_freep s) s = Ret h s /\
    wp (malloc_loop n nunits (um_freep s) (h_ptr h)) s (fun r s' =>
      (r = 0 /\ s' = s /\ no_memory s nunits) \/ allocated s al nunits r s').
Proof.
  intros Hok Hnu Hsz Hn. pose proof (nodes_fuel _ _ _ Hok) as Hfuel.
  destruct (malloc_turn s fr al nunits n Hok Hnu ltac:(lia)) as (h & Hh & Hturn). exists h. split; [done|].
  destruct Hturn as [Hturn|[_ Hmore]].
  { eapply wp_mono; [|exact Hturn]. cbv beta. intros r s' H. by right. }
  unfold wp, wpe. rewrite Hmore. fold (wpe (malloc_more (n - length ((base, 0%Z) :: fr)) nunits) s
    (fun r s' => (r = 0 /\ s' = s /\ no_memory s nunits) \/ allocated s al nunits r s') (fun _ _ => False)).
  unfold malloc_more. apply wp_bind. eapply wp_mono; [|by apply (morecore_spec s fr al nunits)]. cbv beta.
  intros r s1 [(-> & -> & Hno)|(fr1 & -> & Hok1 & Hbrk1 & Hk1 & Hsize1 & (b & Hb & Hbn))].
  - cbn [Z.eqb]. apply wpe_ret. by left.
  - pose proof (freep_nonzero _ _ _ Hok1) as Hf1.
    rewrite (proj2 (Z.eqb_neq _ _) Hf1). pose proof (nodes_fuel _ _ _ Hok1) as Hfuel1.
    destruct (malloc_turn s1 fr1 al nunits (n - length ((base, 0%Z) :: fr)) Hok1 Hnu ltac:(lia)) as (h1 & Hh1 & Hturn1).
    apply wp_bind. eapply wp_intro; [exact Hh1|]. destruct Hturn1 as [Hturn1|[Hall _]]; [|pose proof (Hall b Hb); lia].
    eapply wp_mono; [|exact Hturn1]. cbv beta. intros r s2 (fr2 & Hok2 & Hnone & Hk2). right. exists fr2. split_and!; [done|done|].
    intros a k x Ha Hx. by rewrite (Hk2 a k x Ha Hx), (Hk1 a k x Ha Hx).
Qed.

(** The allocator before its first use, and after. *)
Definition good (s : um) (fr : list block) (al : gmap Z Z) : Prop :=
  (um_freep s = 0 /\ fr = [] /\ al = ∅ /\ heap0 <= um_brk s <= top) \/ ok s fr al.

Definition units (nbytes : Z) : Z := u32 (nbytes + 8 - 1) / 8 + 1.

Lemma init_ok s :
  heap0 <= um_brk s <= top ->
  ok (set_mem (<[base := Header base 0]> (um_mem s)) (set_freep base s)) [] ∅.
Proof.
  intros Hb. split; cbn; try done; try (intros ? ? ?; by rewrite lookup_empty).
  - by rewrite lookup_insert_eq.
  - apply list_elem_of_here.
  - intros b Hb'. by apply elem_of_nil in Hb'.
  - intros b Hb'. by apply elem_of_nil in Hb'.
Qed.

Lemma malloc_run s fr al nbytes :
  good s fr al -> 0 <= nbytes < 2 ^ 31 - 15 ->
  wp (malloc nbytes) s (fun r s' =>
    nbytes <= (units nbytes - 1) * 8 /\
    ((r = 0 /\ good s' fr al /\ no_memory s (units nbytes)) \/ allocated s al (units nbytes) r s')).
Proof.
  intros Hg Hnb. assert (Hu : 0 < units nbytes /\ nbytes <= (units nbytes - 1) * 8 /\ units nbytes * 8 < 2 ^ 31).
  { unfold units. rewrite u32_small by (unfold in_u32; lia).
    pose proof (Z.div_mod (nbytes + 8 - 1) 8 ltac:(lia)). pose proof (Z.mod_pos_bound (nbytes + 8 - 1) 8 ltac:(lia)). lia. }
  destruct Hu as (Hu1 & Hu2 & Hu3). unfold malloc. fold (units nbytes).
  assert (Hmain : forall s1, ok s1 fr al -> um_brk s1 = um_brk s -> kept al (um_mem s) (um_mem s1) ->
    wp (prevp ← gets um_freep; h ← hget prevp; n ← ring_fuel; malloc_loop (2 * n + 2) (units nbytes) prevp (h_ptr h)) s1 (fun r s' =>
      nbytes <= (units nbytes - 1) * 8 /\ ((r = 0 /\ good s' fr al /\ no_memory s (units nbytes)) \/ allocated s al (units nbytes) r s'))).
  { intros s1 Hok1 Hb1 Hk1. apply wp_bind. unfold gets at 1, wp at 1, wpe.
    destruct (malloc_main s1 fr al (units nbytes) (2 * S (size (um_mem s1)) + 2) Hok1 Hu1 Hu3 ltac:(lia)) as (h & Hh & Hw).
    apply wp_bind. eapply wp_intro; [exact Hh|]. apply wp_bind. unfold ring_fuel, gets at 1, wp at 1, wpe.
    eapply wp_mono; [|exact Hw]. cbv beta. intros r s' [(-> & -> & Hno)|(fr' & Hok' & Hnone & Hk')]; (split; [done|]).
    - left. split_and!; [done|by right|]. unfold no_memory in *. by rewrite <- Hb1.
    - right. exists fr'. split_and!; [done|done|]. intros a k x Ha Hx. by rewrite (Hk' a k x Ha Hx), (Hk1 a k x Ha Hx). }
  apply wp_bind. unfold gets at 1, wp at 1, wpe. apply wp_bind. destruct Hg as [(Hf & -> & -> & Hb)|Hok].
  - rewrite Hf. cbn [Z.eqb]. unfold put_ptr, put_size. apply wp_bind. eapply wp_intro; [apply hput_run, mapped_base|].
    apply wp_bind. unfold modify at 1, wp at 1, wpe. eapply wp_intro; [apply hput_run, mapped_base|].
    cbn [um_mem set_mem set_freep]. rewrite lookup_insert_eq, insert_insert_eq. cbn [default id h_ptr].
    apply (Hmain (set_mem (<[base := Header base 0]> (um_mem s)) (set_freep base s))); [by apply init_ok|done|].
    intros a k x Ha. by rewrite lookup_empty in Ha.
  - pose proof (freep_nonzero _ _ _ Hok) as Hf1.
    rewrite (proj2 (Z.eqb_neq _ _) Hf1). apply wpe_ret. by apply Hmain.
Qed.

(** ** free of an allocated block *)

Lemma ok_forget s fr al a : ok s fr al -> ok s fr (delete a al).
Proof.
  intros Hok. split; try apply Hok.
  - intros b n [_ Hb]%lookup_delete_Some. by apply (ok_size _ _ _ Hok).
  - intros b n [_ Hb]%lookup_delete_Some. by apply (ok_pos _ _ _ Hok).
  - intros b n c k [_ Hb]%lookup_delete_Some [_ Hc]%lookup_delete_Some. by apply (ok_apart _ _ _ Hok).
  - intros b n c [_ Hb]%lookup_delete_Some. by apply (ok_free _ _ _ Hok).
Qed.

Lemma free_run_ok s fr al ap n :
  ok s fr al -> al !! (ap - 8) = Some n ->
  wp (free ap) s (fun _ s' => exists fr', ok s' fr' (delete (ap - 8) al) /\ kept (delete (ap - 8) al) (um_mem s) (um_mem s') /\
    forall y, inside fr' y <-> inside fr y \/ ap - 8 <= y < ap - 8 + n * 8).
Proof.
  intros Hok Ha. destruct (ok_pos _ _ _ Hok _ _ Ha) as (Hn & Hlow & Hhigh). destruct (ok_size _ _ _ Hok _ _ Ha) as [x Hx].
  replace ap with (ap - 8 + 8) at 1 by lia. eapply wp_mono; [|apply (free_block s fr (delete (ap - 8) al) (ap - 8) n x)]; try done.
  - cbv beta. intros _ s' (fr' & Hok' & _ & _ & Hk & _ & Hcov). by exists fr'.
  - by apply ok_forget.
  - intros b Hb. by apply (ok_free _ _ _ Hok).
  - intros a k [Hne Hk]%lookup_delete_Some. by apply (ok_apart _ _ _ Hok).
Qed.

(** What the program stores in its blocks does not matter. *)
Lemma ok_write s fr al a n x v : ok s fr al -> al !! a = Some n -> a < x < a + n * 8 -> ok (set_mem (<[x := v]> (um_mem s)) s) fr al.
Proof.
  intros Hok Ha Hx. destruct (ok_pos _ _ _ Hok _ _ Ha) as (Hn & Hlow & _). split; cbn; try apply Hok.
  - apply (linked_insert (um_mem s) ((base, 0) :: fr)); [|apply (ok_list _ _ _ Hok)].
    cbn. intros [Hb|(b & Hb & Hin)%list_elem_of_fmap]%elem_of_cons; [lia|]. pose proof (ok_free _ _ _ Hok a n b Ha Hin) as Hap.
    pose proof (spaced_elem base fr b (ok_spaced _ _ _ Hok) Hin). unfold apart in Hap. lia.
  - intros b k Hb. destruct (ok_size _ _ _ Hok b k Hb) as [p Hp]. exists p. destruct (ok_pos _ _ _ Hok b k Hb) as (Hk & _).
    destruct (decide (a = b)) as [<-|Hne]; [by rewrite lookup_insert_ne by lia|].
    pose proof (ok_apart _ _ _ Hok a n b k Ha Hb Hne) as Hap. unfold apart in Hap. cbn in Hap. by rewrite lookup_insert_ne by lia.
Qed.

(** ** A program that uses the allocator *)

(** The blocks that are live are the second component of the state. The list
    has the sizes that the program asks for. *)
Inductive uruns : list Z -> um * gmap Z Z -> um * gmap Z Z -> Prop :=
  | run_start x : uruns [] x x
  | step_malloc reqs s al nbytes r s' y :
      in_u32 nbytes -> malloc nbytes s = Ret r s' ->
      uruns reqs (s', if r =? 0 then al else <[r - 8 := units nbytes]> al) y -> uruns (nbytes :: reqs) (s, al) y
  | step_free reqs s al ap n s' y :
      al !! (ap - 8) = Some n -> free ap s = Ret tt s' ->
      uruns reqs (s', delete (ap - 8) al) y -> uruns reqs (s, al) y
  | step_write reqs s al a n x v y :
      al !! a = Some n -> a < x < a + n * 8 ->
      uruns reqs (set_mem (<[x := v]> (um_mem s)) s, al) y -> uruns reqs (s, al) y.

(** The size in bytes is not negative as an int. *)
Definition small_request (nbytes : Z) : Prop := 0 <= nbytes < 2 ^ 31 - 15.

(** What the program may rely on. *)
Record safe (s : um) (al : gmap Z Z) : Prop := {
  sf_malloc nbytes : small_request nbytes -> exists r s', malloc nbytes s = Ret r s' /\
    (r = 0 /\ no_memory s (units nbytes) \/
     heap0 <= r - 8 /\ r + nbytes <= um_brk s' /\ (forall a n, al !! a = Some n -> apart a n (r - 8, units nbytes)) /\
     nbytes <= (units nbytes - 1) * 8 /\ kept al (um_mem s) (um_mem s'));
  sf_free ap n : al !! (ap - 8) = Some n -> exists s', free ap s = Ret tt s' /\ kept (delete (ap - 8) al) (um_mem s) (um_mem s');
  sf_apart a n b k : al !! a = Some n -> al !! b = Some k -> a <> b -> apart a n (b, k)
}.

Lemma uruns_good reqs x y : uruns reqs x y -> Forall small_request reqs ->
  (exists fr, good x.1 fr x.2) -> exists fr, good y.1 fr y.2.
Proof.
  intros Hs. induction Hs as [x|reqs s al nbytes r s' y _ Hr _ IH|reqs s al ap n s' y Ha Hr _ IH|reqs s al a n x v y Ha Hx _ IH];
    [done|intros [Hnb HF]%Forall_cons|intros HF..]; intros [fr Hg]; apply IH; clear IH; cbn in *; try done.
  - pose proof (malloc_run s fr al nbytes Hg Hnb) as Hw. unfold wp, wpe in Hw. rewrite Hr in Hw.
    destruct Hw as (_ & [(-> & Hg' & _)|(fr' & Hok' & _ & _)]); [by exists fr|].
    exists fr'. right. assert (r <> 0) as Hr0.
    { intros ->. pose proof (ok_pos _ _ _ Hok' _ _ (lookup_insert_eq _ _ _)). lia. }
    by rewrite (proj2 (Z.eqb_neq _ _) Hr0).
  - destruct Hg as [(_ & _ & -> & _)|Hok]; [by rewrite lookup_empty in Ha|]. pose proof (free_run_ok s fr al ap n Hok Ha) as Hw.
    unfold wp, wpe in Hw. rewrite Hr in Hw. destruct Hw as (fr' & Hok' & _). exists fr'. by right.
  - destruct Hg as [(_ & _ & -> & _)|Hok]; [by rewrite lookup_empty in Ha|]. exists fr. right. by eapply ok_write.
Qed.

Lemma good_safe s fr al : good s fr al -> safe s al.
Proof.
  intros Hg. split.
  - intros nbytes Hnb. pose proof (malloc_run s fr al nbytes Hg Hnb) as Hw. apply wp_inv in Hw as (r & s' & Hr & Hnu & Hw).
    exists r, s'. split; [done|]. destruct Hw as [(-> & _ & Hno)|(fr' & Hok' & Hnone & Hk)]; [by left|right].
    destruct (ok_pos _ _ _ Hok' _ _ (lookup_insert_eq _ _ _)) as (Hn & Hlow & Hhigh). split_and!; [lia|lia| |done|done].
    intros a n Ha. apply (ok_apart _ _ _ Hok'); [|apply lookup_insert_eq|by intros ->; rewrite Ha in Hnone].
    rewrite lookup_insert_ne; [done|]. intros E. rewrite <- E, Hnone in Ha. done.
  - intros ap n Ha. destruct Hg as [(_ & _ & -> & _)|Hok]; [by rewrite lookup_empty in Ha|].
    pose proof (free_run_ok s fr al ap n Hok Ha) as Hw. apply wp_inv in Hw as ([] & s' & Hr & fr' & Hok' & Hk & _). by exists s'.
  - intros a n b k Ha. destruct Hg as [(_ & _ & -> & _)|Hok]; [by rewrite lookup_empty in Ha|]. by apply (ok_apart _ _ _ Hok).
Qed.

End umalloc.

(** C32: for a program that asks for less than 2^31 - 15 bytes at a time, and
    frees only live blocks, once, and writes only into its live blocks, the
    allocator is safe whatever the program has done before: [malloc] and
    [free] return; a block that [malloc] returns has room for the request and
    overlaps no live block, and the contents of the live blocks are kept; a
    null pointer means that the limit of memory is reached. Larger requests
    are left out because the allocator does not check them: from 2^31 - 15 on
    the size passed to sbrk is negative, so that the memory shrinks or stays
    as it is, and the block begins at its end; and from 2^32 - 7 on the number
    of units wraps around and the block is too small. *)
Theorem umalloc_safe base heap0 top m0 reqs s al :
  0 < base -> base + 8 <= heap0 -> heap0 <= top < 2 ^ 31 ->
  uruns base heap0 top reqs (MkUm m0 0 heap0, ∅) (s, al) -> Forall small_request reqs -> safe base heap0 top s al.
Proof.
  intros Hb Hh [Ht0 Ht] Hr HF.
  destruct (uruns_good base heap0 top Hb Hh Ht reqs _ _ Hr HF) as [fr Hg].
  - exists []. left. cbn. split_and!; [done..|lia|lia].
  - by apply (good_safe base heap0 top Hb Hh Ht s fr al).
Qed.

(** A block, its contents, another block, and the first one freed. *)
Definition um_start : um := MkUm ∅ 0 8192.


Definition final {A} (r : outcome um A) : um := match r with Ret _ s => s | Stop _ s => s end.
Definition um_1 : um := final (malloc 4096 8192 1048576 16 um_start).
Definition um_2 : um := set_mem (<[40944 := Header 7 7]> (um_mem um_1)) um_1.
Definition um_3 : um := final (malloc 4096 8192 1048576 96 um_2).
Definition um_4 : um := final (free 4096 8192 40944 um_3).

Lemma um_run :
  uruns 4096 8192 1048576 [16; 96] (um_start, ∅) (um_4, delete 40936 (<[40832 := 13]> (<[40936 := 3]> ∅))).
Proof.
  apply (step_malloc _ _ _ _ _ _ 16 40944 um_1); [done|vm_compute; reflexivity|].
  apply (step_write _ _ _ _ _ _ 40936 3 40944 (Header 7 7)); [vm_compute; reflexivity|lia|].
  apply (step_malloc _ _ _ _ _ _ 96 40840 um_3); [done|vm_compute; reflexivity|].
  apply (step_free _ _ _ _ _ _ 40944 3 um_4); [vm_compute; reflexivity|vm_compute; reflexivity|].
  apply run_start.
Qed.

Lemma umalloc_safe_witness :
  safe 4096 8192 1048576 um_4 (delete 40936 (<[40832 := 13]> (<[40936 := 3]> ∅))).
Proof. apply (umalloc_safe 4096 8192 1048576 ∅ [16; 96]); [lia|lia|lia|apply um_run|by repeat constructor]. Defined.

(** A request of almost all of memory wraps around to one header, and
    [malloc] returns a block with no room in it. *)
Example malloc_wraps :
  units 4294967295 = 1 /\
  exists s, malloc 4096 8192 1048576 4294967295 um_start = Ret 40960 s /\ um_brk s = 40960.
Proof. split; [reflexivity|]. exists (final (malloc 4096 8192 1048576 4294967295 um_start)). split; vm_compute; reflexivity. Qed.

(** A request of 3 GB goes to sbrk as a negative number, which does not move
    the end of memory; the header of the block is then written past it. *)
Example malloc_negative :
  i32 (u32 (units 3221225472 * 8)) < 0 /\
  malloc 4096 8192 1048576 3221225472 um_start =
    Stop (Panicked "wild pointer") (MkUm {[4096 := Header 4096 0]} 4096 8192).
Proof. split; vm_compute; reflexivity. Qed.
